(* ===== verification/_CoqProject ===== *)
-Q . S2P
Prelude.v
VStr.v
Base64.v
QuotedPrintable.v
Strings.v
Text.v
Base32.v
Field.v
FieldSpec.v
ValueSpec.v
FieldSet.v
Param.v
MsgFile.v
Glob.v
ScanList.v
ListOps.v
Clock.v
ClockSpec.v
Strftime.v
Scanftime.v
DateSpec.v
Sched.v
SchedSpec.v
SchedDaily.v
UrlEsc.v
Service.v
Bsort.v
UvFmt.v
Url.v
UrlSpec.v
ProtoV.v
HashTab.v
StrId.v
HostAddr.v
HostMatch.v
HostSpec.v
HostParse.v
Mount.v
MountInit.v
MountTo.v
MountFrom.v
HostText.v
MountOrder.v
MountSpec.v
MountTrip.v
HostFrame.v
Route.v
Forward.v
Config.v
RouteSpec.v
Access.v
Connect.v
AccessSpec.v
ConnectSpec.v
PermitSpec.v
ForwardSpec.v
DnsNode.v
DnsMsg.v
DnsName.v
DnsServ.v
DnsSpec.v
DnsReply.v
DnsRelay.v
Vsa.v
Io.v
Gateway.v
Socks4.v
Socks4Spec.v
Socks5.v
Socks5Udp.v
Socks5Serv.v
Socks5Spec.v
Socks5Relay.v
Socks5Live.v
Cksum.v
Rc4.v
Bignum.v
Credhy.v
CredhySpec.v
