(* ===== verification/Prelude.v ===== *)
(** * DeleGate: a verification library of its core routines

    DeleGate is a gateway of many protocols: a client's request is checked
    against the host lists of the configuration, its names are resolved, its
    data are converted and it is relayed to a server.  This library models
    the parts in which the decisions are made and the data are transformed.
    Paths are relative to [src/delegate].

    ** The parts and their files

    Foundations.
    - [Prelude]: bytes, C strings, machine integers, options, tactics.
    - [VStr] ([include/ystring.h], [rary/ystring.cpp]): bounded strings.
      Every writable string of the program travels with its array; the
      macros and copying functions that store into it.
    - [Strings] ([rary/String.cpp]): comparison, scanning, numbers.
    - [Text] ([rary/String.cpp], [maker/strcasestr.cpp]): the scanners as
      functions on texts, and the lines of a text.
    - [Glob] ([rary/String.cpp]): [rexpmatchX], patterns with stars.
    - [ScanList], [ListOps] ([rary/String.cpp]): [scan_ListX], the syntax of
      lists, and the functions on top of it.
    - [HashTab] ([rary/hash.cpp]), [StrId] ([rary/strid.cpp]): hash tables
      and the numbers of names.

    Access control: host lists.
    - [HostAddr] ([include/vaddr.h], [src/vaddr.cpp], [src/hostlist.cpp]):
      addresses, netmasks and ranges.
    - [HostMatch] ([src/hostlist.cpp], [src/hostlist.h]): the interpreter
      [VA_hostIsinListX]; [HostSpec]: the meaning of a list and the theorems
      that the interpreter has it.
    - [HostParse] ([src/hostlist.cpp]): the reader, from the text of a
      parameter to the lists that the interpreter works on; [HostText]: the
      two together; [HostFrame]: what reading a list leaves as it is.

    Access control: services, tables and decisions.
    - [Service] ([src/svconf.cpp], [src/service.h], [src/service.cpp]): the
      table of services and [SERVICE].
    - [ProtoV] ([src/master.cpp]): lists of protocols with their ports and
      methods, read, written and matched.
    - [Route] ([src/master.cpp], [src/access.cpp], [src/service.cpp]): the
      tables [routeTabs] and the parameters that fill them: [RELIABLE],
      [REACHABLE], [OWNER], [CMAP], [RELAY], [PERMIT], [REMITTABLE],
      [REJECT], [SRCIF].
    - [Config] ([src/delegated.cpp], [src/conf.cpp]): the defaults and the
      order in which a server reads these parameters; [RouteSpec]: the
      invariant of the tables.
    - [Access] ([src/access.cpp], [src/service.cpp], [src/master.cpp]):
      [service_permitted2], [method_permittedX], [find_CMAP], [findRoute],
      [do_RELAY], [NotREACHABLE], [set_OWNER]; [AccessSpec]: the policy that
      a configuration stands for, and that the decisions are it;
      [PermitSpec]: what one more parameter does, and from the text of a
      rule to the requests it applies to.

    Routing and connecting.
    - [Forward] ([src/master.cpp]): the parameters [MASTER], [DIRECT],
      [ROUTE], [FORWARD], [GATEWAY], [PROXY] and [CONNECT], read into the
      tables of [Route].
    - [Connect] ([src/master.cpp], [src/service.cpp], [src/ddi.cpp]): from a
      request to a socket ([connect_to_serverY]): the order of the methods
      ([setupConnect], [tryCONNECT]), gateways ([forwardit]), upper DeleGates
      ([open_master]), the source address ([set_SRCIF]); [ConnectSpec]: what
      is tried, in which order, and what never; [ForwardSpec]: from the text
      of a gateway to the requests that go through it.

    Name service.
    - [DnsNode] ([resolvy/dnsnode.cpp]): the tree of names and records.
    - [DnsMsg] ([resolvy/dns.h], [resolvy/resolv.cpp]): the format of
      messages; [DnsName]: what is written reads the same, and hostile bytes
      do no harm.
    - [DnsServ] ([resolvy/resolv.cpp], [resolvy/dnsnode.cpp]): responses
      into the tree, replies out of it; [DnsSpec]: the invariant of the tree
      under any responses; [DnsReply]: what a query is answered; [DnsRelay]:
      what a response tells is what is answered.

    SOCKS.
    - [Vsa] ([rary/vsaddr.cpp]): socket addresses, their texts and bytes.
    - [Io]: programs that call their surroundings, their runs, monitors of
      the calls; [Gateway]: the calls that the servers of SOCKS make, with
      an environment to run them in.
    - [Socks4] ([src/socks4.cpp]): server and client of SOCKS4; [Socks4Spec]:
      which replies the server gives in which case.
    - [Socks5] ([rary/socks5.cpp]): messages, tables and the client;
      [Socks5Udp]: the relay of datagrams; [Socks5Serv]: the server.
      [Socks5Spec]: authentication and the tables, in all runs;
      [Socks5Relay]: datagrams pass unchanged; [Socks5Live]: client and
      server together.

    URLs.
    - [UrlEsc] ([rary/urlesc.cpp]): escaping and unescaping, with the round
      trips.
    - [Url] ([src/url.cpp]): URLs and sites taken apart and put together,
      paths normalized; [UrlSpec]: what is taken apart is what was put
      together, and normalizing removes the dot segments.

    Mounting: virtual URLs to real ones and back.
    - [Bsort] ([rary/bsort.cpp]): the sort of the table.
    - [UvFmt] ([rary/String.cpp]): the formats that take a path apart and
      put it together.
    - [Mount] ([src/mount.cpp]): the rules, their options and the reader of
      [MOUNT]; [MountInit]: their order and compilation, virtual hosts;
      [MountTo] (with [src/ddi.cpp]): the conditions of a rule, and requests
      rewritten ([mount_url_toXX]); [MountFrom]: URLs of servers given back
      ([CTX_mount_url_fromL]), and the queries of the table.
    - [MountOrder]: which rule comes first; [MountSpec]: what is remembered,
      and which rules are applied; [MountTrip]: there and back.

    Encodings.
    - [Base64], [QuotedPrintable] ([mimekit/mimecodes.cpp]); [Base32]
      ([mimekit/rfc822.cpp]).

    Checksums and ciphers.
    - [Cksum] ([rary/cksum.cpp], [rary/credhy.cpp]): the cyclic redundancy
      checks of 8, 16, 32 and 64 bits.
    - [Rc4] ([filters/rc4.cpp]): the cipher of PDF files.
    - [Bignum] ([rary/credhy.cpp]): numbers of 2048 bits, as integers, and
      powers modulo a number.
    - [Credhy] ([rary/credhy.cpp]): the agreement on a key, the messages with
      keys, the cipher; [CredhySpec]: two sides understand each other.

    Messages ([mimekit/rfc822.cpp]).
    - [Field]: the fields of a head found, read, removed, replaced, added and
      filtered; character sets.  [FieldSpec]: heads as lines and fields, and
      what is removed; [ValueSpec]: what a value is; [FieldSet]: setting a
      field, and cases where the code does something else.
    - [Param]: the parameters of a field, read and deleted.
    - [MsgFile]: heads, fields and bodies read from files.

    Clocks and the scheduler.
    - [Clock] ([rary/Strftime.cpp]): clocks of fields, fields of clocks,
      local times; [ClockSpec]: the calendar they are of, and the interface
      [LocalTime] of a zone.
    - [Strftime], [Scanftime] ([rary/Strftime.cpp]): times written and read
      by formats; [DateSpec]: dates are read as they are written.
    - [Sched] ([rary/sched.cpp]): the rules of [CRON], the next time of a
      rule and the evaluation of a table; [SchedSpec]: units and their
      carries; [SchedDaily]: rules for every day are caused when they are
      due, and rules that are not.

    ** How they interact

    The text of a HOSTLIST or another parameter is split by [ScanList]; each
    element becomes an item of a list in [HostParse], where the names of
    lists get numbers by [StrId] over [HashTab].  An item refers to another
    list by number.  [HostMatch] evaluates the items, with [Glob] on names
    and [HostAddr] on addresses; what else it asks (name resolution, routes,
    sets in files, the clock) is the record [hl_env] of its environment,
    that of the reader is [hp_env].  The parameters of access control make
    routes ([Route]) whose lists of hosts are read by [HostParse] and whose
    lists of protocols by [ProtoV], with the names of the table of
    [Service]; [Access] decides with them about a connection, and asks
    [HostMatch] with what it knows of the client; the rest that it asks (the
    peer of a socket, the ident protocol) is the record [ac_env].  The name
    server is asked through
    messages of [DnsMsg]; it keeps names and records in the tree of
    [DnsNode], which refers to names by number, and asks the resolver
    through [dns_env].  [IdTable] is the interface between the tables of
    names and their clients: the theorems about host lists hold for each
    instance, and [StrId] shows that the hash table is one.  [env_ok] is
    what the name server asks of the resolver.  The servers of SOCKS read
    their client and ask the gateway (permission, names, sockets, relays) by
    the calls [gw] of [Gateway]; their theorems are about every run, for any
    answers, or about the runs in an environment [gw_env] with a policy.
    What they ask the C library about IPv6 is the class [libc6].

    [Connect] asks [Access] for the permission and [findRoute], and the
    tables of [Forward] for gateways, masters and orders, with [HostMatch]
    and [ProtoV] as the rules of access control do.  It is a program of the
    monad [cn]; what it does outside (opening sockets, negotiating with a
    server) is a [cn_call], answered by [answer] of the record [cn_env],
    which may depend on all calls before; the theorems hold for any answers.

    [Sched] asks [Clock] for the fields of now and for the clock of the
    fields it has computed; both ask [localtime] of the C library, which is
    an argument, with [LocalTime] as what is expected of it.

    A [MOUNT] parameter becomes a rule ([Mount]); its options name lists of
    hosts that [HostParse] reads.  [MountInit] sorts the rules and takes
    their URLs apart with [Url]; [MountTo] and [MountFrom] are programs of
    the monad [mtm] over the table and what it remembers: they match URLs
    with [UrlEsc] and [UvFmt] and ask [HostMatch] about clients and
    destinations.  What they ask about the connection is the record
    [mt_ctx].

    ** How the code is modelled

    A C string is the list of its characters without the NUL; [cat s i] is
    [s[i]] with the NUL behind the end.  A pointer into a string is the
    suffix it points at, a null pointer [None].  Where stores matter
    ([VStr]), the array and the offset are modelled.  Bytes are values from
    0 to 255; where [char] is signed and it matters, [schar] is applied.
    Integers are of [Z], with [u32], [s32] and the like where the code wraps.
    Global variables are fields of the state of their part, and operations
    take the state and return it.  [None] as a result is what the code does
    not define (a read outside of a buffer, a null pointer) or, for the
    readers, what it rejects; each file says which.

    Fuel.  The loop of [powmod32] has room for [2^128] turns, which its
    exponent does not exceed.  Loops that are not structural carry a fuel, and theorems are
    about amounts that are enough: [S (length inp)] for the encoders, one
    more than the number of steps that [rexp_fuel] bounds for patterns, the
    depth [HL_MAXDEPTH] of nested lists that the code itself checks for the
    interpreter ([hl_fuel]), the length of the message for names with the 32
    levels of pointers that the code checks ([MAXPTR]), the number of nodes
    for paths in the tree, [S (length url)] for the elements of the path of a
    URL and [S (length fmt)] for the conversions of a format, the number of
    rules for the search of the table, and the eight rounds
    ([MOUNT_LEVELS]) that the code allows a rule to be applied again.  The reader's fuel bounds how deep elements make
    other elements; its theorems hold for any amount from 2 on.  [do_RELAY]
    asks for one [CMAP] after the other, once more than there are.  The conversion of
    clocks goes through 70 years, as the code does; one call of
    [calc_nexttime] is enough for rules for every day.  The relay
    of datagrams and its waiting for them go on as long as datagrams come;
    their fuel bounds the turns, a run that uses it up has no result, and
    the theorems about runs hold for any amount.

    ** What the theorems show

    - Host lists: from the text to the verdict ([HostText]); the
      interpreter refines the meaning of lists with their operators, always
      ends and decides by the last item that matches ([HostSpec]); masks and
      ranges ([HostAddr]).
    - Access control: a decision is the policy of the configuration, with
      its reason, its error code and its reports, and what happens to a
      client without a name ([AccessSpec]); the tables have room and own
      their lists after any parameters ([RouteSpec]); rules added only
      reject or only permit, the text of a rule applies to what it says, and
      [REMITTABLE] accumulates ([PermitSpec]).
    - Names: reading hostile messages ends, looks only so far behind them,
      and keeps the tree ([DnsSpec], [DnsName]); replies answer their queries
      exactly when what was found fits the arrays of the code ([DnsReply]);
      exchangers are relayed ([DnsRelay]); the tree is a table of names without
      regard to case with stable numbers ([DnsNode]).
    - Strings: stores stay inside of their arrays ([VStr]); numbers clamp,
      tails and words are found ([Strings]); patterns decide their relation
      ([Glob]); lists have the elements that their syntax says ([ScanList]).
    - SOCKS: nothing is served before authentication, the tables stay
      well-formed, and where closing leaves the array ([Socks5Spec]); the six
      ways in which a request of SOCKS4 is answered ([Socks4Spec]); datagrams
      of IPv4 pass the relay unchanged ([Socks5Relay]); a client that is let in gets its connection
      ([Socks5Live]).
    - Tables: a hash table is a finite map ([HashTab]), a name keeps its
      number ([StrId]).
    - URLs: escaping and unescaping are inverse, for any set of escaped
      characters and through the conversion of character codes ([UrlEsc]);
      a normalized path is the path without its dot segments, and a URL is
      taken apart into its parts ([UrlSpec]).
    - Mounting: no rule is hidden behind a less specific one or one of lower
      priority ([MountOrder]); programs change only what a rule remembers, a
      remembered answer is the one that was given, and a rule is applied only
      to requests of its kind ([MountSpec]); a URL comes back as it was asked
      for ([MountTrip]); a format puts together what it takes apart
      ([UvFmt]).
    - Connecting: no request goes back to where it came through by the
      gateways of the tables, and each master is asked once, unless a [MOUNT]
      names a proxy or a master; nothing is opened for one that is refused or
      to be answered from the cache, the methods of [CONNECT] are tried in
      their order, and the first route that fits is taken ([ConnectSpec]); a [FORWARD] is for the requests that its text says
      ([ForwardSpec]).
    - Encodings: decoding gives back what was encoded, and the encoded text
      has the form that mail needs ([Base64], [QuotedPrintable], [Base32]).
    - Checksums: the wide checks are remainders of polynomials, and tell
      messages apart that differ in a burst that fits the register; the narrow
      one sees any single octet ([Cksum]).
    - Ciphers: [Rc4] is the cipher of its definition, in any pieces; what was
      encrypted in pieces is decrypted in any other pieces ([CredhySpec]); modular powers are right, and computed in as many
      multiplications as the exponent has bits ([Bignum]); two sides that
      exchange their keys have the same key ([CredhySpec]).
    - Messages: a head is read up to its end ([MsgFile]); a value is what was
      written, unfolded ([ValueSpec]); after setting a field it has the value
      and the other fields have theirs ([FieldSet]), removing is a filter of
      fields ([FieldSpec]); parameters come back as they are written
      ([Param]).

    - Clocks: [Timegm] counts the seconds of the civil calendar, and local
      times are put together again ([ClockSpec]); dates of HTTP come back as
      they were written ([DateSpec]).  Scheduling: a rule for
      every day is programmed for its next time, and an evaluation causes
      what has come due since the last one, in zones with a constant offset
      ([SchedDaily]).

    ** What is not modelled, and why

    The servers of the single protocols ([src/http.cpp], [src/ftp.cpp] and
    the like), processes and sockets, the resolver's own queries, the X
    proxy and the tools are mostly system calls and buffers of streams. MD5,
    zlib and the regular expressions are other people's code. The tables of
    character sets are data. Of [rary/vsaddr.cpp] the functions around
    sockets and the arguments of FTP are left out. Of [src/master.cpp] the
    sockets for programs ([VSocket]), [SOCKMUX] and the tunnels, and of
    connecting the sockets themselves are left out. Of [src/mount.cpp] the
    dumps and the locks of threads are left out. Of [mimekit/rfc822.cpp] the
    addresses of mail and their rewriting are left out. Of [src/url.cpp] the
    search and rewriting of URLs in HTML and the grammar of URLs for the
    parser [rary/SLL.cpp] are left out. Of [rary/credhy.cpp] the negotiation
    over a connection and the filter around sockets are left out. The ident protocol is an argument,
    and log lines are left out. The texts of the parameters of access control
    are cut where the buffers of their readers end ([clip], [put_portb]); the
    texts of the other parameters are modelled without the sizes of the
    buffers (1024 to 2048 characters) they are copied through. *)
From Stdlib Require Export ZArith Lia.
From stdpp Require Export base numbers list strings.
From stdpp Require Import options.
Export ListNotations.
#[global] Open Scope Z_scope.

(** ** Bytes, characters and machine integers *)

(** The value of a [char] on amd64, where [char] is signed. *)
Definition schar (b : Z) : Z := if b <? 128 then b else b - 256.

(** Conversion to [unsigned char], and the 32- and 64-bit wrap-arounds. *)
Definition uchar (z : Z) : Z := z mod 256.
Definition u32 (z : Z) : Z := z mod 2 ^ 32.
Definition u64 (z : Z) : Z := z mod 2 ^ 64.
Definition s32 (z : Z) : Z := (z + 2 ^ 31) mod 2 ^ 32 - 2 ^ 31.
Definition s64 (z : Z) : Z := (z + 2 ^ 63) mod 2 ^ 64 - 2 ^ 63.

Definition byte_ok (b : Z) : Prop := 0 <= b < 256.
Definition bytes_ok (l : list Z) : Prop := Forall byte_ok l.

(** A C string without its terminator: bytes, none of them NUL. *)
Definition cchar_ok (b : Z) : Prop := 0 < b < 256.
Definition cstr_ok (l : list Z) : Prop := Forall cchar_ok l.

#[export] Instance byte_ok_dec b : Decision (byte_ok b).
Proof. unfold byte_ok. apply _. Defined.
#[export] Instance cchar_ok_dec b : Decision (cchar_ok b).
Proof. unfold cchar_ok. apply _. Defined.
#[export] Instance bytes_ok_dec l : Decision (bytes_ok l).
Proof. unfold bytes_ok. apply _. Defined.
#[export] Instance cstr_ok_dec l : Decision (cstr_ok l).
Proof. unfold cstr_ok. apply _. Defined.

(** String literals as byte lists. *)
Definition cs (s : string) : list Z :=
  map (fun a => Z.of_N (Ascii.N_of_ascii a)) (String.list_ascii_of_string s).

(** [s[i]] for a C string without its terminator: reading at the end gives
    NUL.  [strlen] and the part of a buffer before its first NUL. *)
Definition cat (s : list Z) (i : Z) : Z :=
  if i <? 0 then 0 else nth (Z.to_nat i) s 0.
Definition zlen {A} (s : list A) : Z := Z.of_nat (length s).
Fixpoint cstr (s : list Z) : list Z :=
  match s with
  | [] => []
  | c :: s' => if c =? 0 then [] else c :: cstr s'
  end.

(** [ctype.h] in the "C" locale, which gives false on bytes above 127. *)
Definition isdigit (c : Z) : bool := (48 <=? c) && (c <=? 57).
Definition isupper (c : Z) : bool := (65 <=? c) && (c <=? 90).
Definition islower (c : Z) : bool := (97 <=? c) && (c <=? 122).
Definition isalpha (c : Z) : bool := isupper c || islower c.
Definition isalnum (c : Z) : bool := isalpha c || isdigit c.
Definition isspace (c : Z) : bool := (c =? 32) || ((9 <=? c) && (c <=? 13)).
Definition iscntrl (c : Z) : bool := ((0 <=? c) && (c <=? 31)) || (c =? 127).
Definition isxdigit (c : Z) : bool :=
  isdigit c || ((65 <=? c) && (c <=? 70)) || ((97 <=? c) && (c <=? 102)).
Definition tolower (c : Z) : Z := if isupper c then c + 32 else c.
Definition toupper (c : Z) : Z := if islower c then c - 32 else c.

(** [strchr(s,c) != 0]: the terminator is found too. *)
Definition strchr (s : list Z) (c : Z) : bool :=
  (c =? 0) || existsb (Z.eqb c) s.

(** [strchr(s,c) - s] for a [c] that is not NUL. *)
Fixpoint index_of (c : Z) (s : list Z) : option nat :=
  match s with
  | [] => None
  | x :: s' => if x =? c then Some O else S <$> index_of c s'
  end.

(** The value of one hexadecimal digit, as [sscanf("%x")] reads it. *)
Definition hexval (c : Z) : Z :=
  if isdigit c then c - 48
  else if (97 <=? c) && (c <=? 102) then c - 87
  else c - 55.
Definition hexUpper (d : Z) : Z := if d <? 10 then 48 + d else 55 + d.
Definition hexLower (d : Z) : Z := if d <? 10 then 48 + d else 87 + d.

(** Named characters. *)
Definition NUL := 0.
Definition TAB := 9.
Definition LF := 10.
Definition CR := 13.
Definition ESC := 27.
Definition SP := 32.
Definition EQ := 61.
Definition PCT := 37.

(** ** Output sinks

    The code writes characters either to a [FILE*] with [putc] or to a
    bounded string with [setVStrPtrInc].  A routine written against [Sink]
    is a left fold of [sput] over the characters it produces, whatever the
    sink is. *)
Class Sink (S : Type) := sput : S -> Z -> S.

Definition sputs {S} `{Sink S} (o : S) (l : list Z) : S := fold_left sput l o.

(** A [FILE*] opened for writing, as the characters written so far. *)
#[export] Instance file_sink : Sink (list Z) := fun o c => o ++ [c].

Lemma sputs_nil {S} `{Sink S} (o : S) : sputs o [] = o.
Proof. reflexivity. Qed.

Lemma sputs_cons {S} `{Sink S} (o : S) c l :
  sputs o (c :: l) = sputs (sput o c) l.
Proof. reflexivity. Qed.

Lemma sputs_app {S} `{Sink S} (o : S) l1 l2 :
  sputs o (l1 ++ l2) = sputs (sputs o l1) l2.
Proof. apply fold_left_app. Qed.

Lemma sputs_one {S} `{Sink S} (o : S) c : sputs o [c] = sput o c.
Proof. reflexivity. Qed.

Lemma sputs_file (o l : list Z) : sputs o l = o ++ l.
Proof.
  revert o. induction l as [|c l IH]; intros o.
  - by rewrite sputs_nil, app_nil_r.
  - rewrite sputs_cons, IH. unfold sput, file_sink. by rewrite <- app_assoc.
Qed.

(** ** Shared automation *)

(** Splits every comparison of integers that a condition of the code makes. *)
Ltac zcase :=
  match goal with
  | |- context [?a <? ?b] => destruct (Z.ltb_spec a b)
  | |- context [?a <=? ?b] => destruct (Z.leb_spec a b)
  | |- context [?a =? ?b] => destruct (Z.eqb_spec a b)
  | H : context [?a <? ?b] |- _ => destruct (Z.ltb_spec a b)
  | H : context [?a <=? ?b] |- _ => destruct (Z.leb_spec a b)
  | H : context [?a =? ?b] |- _ => destruct (Z.eqb_spec a b)
  end.
Ltac zcases := repeat (zcase; simpl in *; try lia).

(** Turns boolean facts about integers into propositions. *)
Ltac zprop :=
  repeat match goal with
  | H : (_ && _) = true |- _ => apply andb_true_iff in H as [? ?]
  | H : (_ || _) = false |- _ => apply orb_false_iff in H as [? ?]
  | H : negb _ = true |- _ => apply negb_true_iff in H
  | H : negb _ = false |- _ => apply negb_false_iff in H
  | H : (_ <? _) = true |- _ => apply Z.ltb_lt in H
  | H : (_ <? _) = false |- _ => apply Z.ltb_ge in H
  | H : (_ <=? _) = true |- _ => apply Z.leb_le in H
  | H : (_ <=? _) = false |- _ => apply Z.leb_gt in H
  | H : (_ =? _) = true |- _ => apply Z.eqb_eq in H
  | H : (_ =? _) = false |- _ => apply Z.eqb_neq in H
  end.

(** Splits the hypotheses about explicit lists. *)
Ltac forall_hyps :=
  repeat match goal with
  | H : Forall _ (_ :: _) |- _ =>
      let H' := fresh in apply Forall_cons in H as [H' H]
  end.

(** ** Generic lemmas *)

Lemma zlen_nil {A} : zlen (@nil A) = 0.
Proof. reflexivity. Qed.

Lemma zlen_cons {A} (x : A) l : zlen (x :: l) = zlen l + 1.
Proof. unfold zlen. simpl length. lia. Qed.

Lemma zlen_app {A} (l1 l2 : list A) : zlen (l1 ++ l2) = zlen l1 + zlen l2.
Proof. unfold zlen. rewrite length_app. lia. Qed.

Lemma zlen_nonneg {A} (l : list A) : 0 <= zlen l.
Proof. unfold zlen. lia. Qed.

Lemma cstr_ok_cstr l : cstr_ok l -> cstr l = l.
Proof.
  induction 1 as [|c l Hc _ IH]; [done|]. simpl. unfold cchar_ok in Hc.
  destruct (Z.eqb_spec c 0); [lia|]. by rewrite IH.
Qed.

Lemma cstr_app_nul l r : cstr_ok l -> cstr (l ++ 0 :: r) = l.
Proof.
  induction 1 as [|c l Hc _ IH]; [done|]. simpl. unfold cchar_ok in Hc.
  destruct (Z.eqb_spec c 0); [lia|]. by rewrite IH.
Qed.

Lemma cstr_ok_app l1 l2 : cstr_ok (l1 ++ l2) <-> cstr_ok l1 /\ cstr_ok l2.
Proof. apply Forall_app. Qed.

Lemma cstr_ok_take n l : cstr_ok l -> cstr_ok (take n l).
Proof. apply Forall_take. Qed.

Lemma cstr_ok_bytes_ok l : cstr_ok l -> bytes_ok l.
Proof. intros H. eapply Forall_impl; [exact H|]. unfold cchar_ok, byte_ok. lia. Qed.

Lemma schar_small c : 0 <= c < 128 -> schar c = c.
Proof. unfold schar. intros. zcases. Qed.

Lemma uchar_small c : 0 <= c < 256 -> uchar c = c.
Proof. apply Z.mod_small. Qed.

Lemma cat_0 c s : cat (c :: s) 0 = c.
Proof. reflexivity. Qed.

Lemma cat_succ c s i : 0 <= i -> cat (c :: s) (i + 1) = cat s i.
Proof.
  intros. unfold cat. zcases.
  replace (Z.to_nat (i + 1)) with (S (Z.to_nat i)) by lia. done.
Qed.

(** ** Where a character is *)
Lemma index_of_none c s : existsb (Z.eqb c) s = false -> index_of c s = None.
Proof.
  induction s as [|x s IH]; [done|]. cbn [existsb index_of]. rewrite Z.eqb_sym.
  intros H. zprop. rewrite (proj2 (Z.eqb_neq x c)) by done. by rewrite IH.
Qed.
Lemma forallb_no (p : Z -> bool) c s : forallb p s = true -> p c = false ->
  existsb (Z.eqb c) s = false.
Proof.
  intros Hs Hc. induction s as [|x s IH]; [done|]. cbn [forallb existsb] in *.
  apply andb_true_iff in Hs as [Hx Hs]. rewrite IH by done.
  destruct (Z.eqb_spec c x) as [->|]; [congruence|done].
Qed.
Lemma index_of_app sep a b : existsb (Z.eqb sep) a = false ->
  index_of sep (a ++ sep :: b) = Some (length a).
Proof.
  induction a as [|c a IH]; cbn [existsb app index_of length].
  - by rewrite Z.eqb_refl.
  - rewrite Z.eqb_sym. destruct (c =? sep); [done|]. intros H. by rewrite IH.
Qed.

(** Decides a predicate on a bounded range of integers by computation. *)
Fixpoint zrange_all (n : nat) (p : Z -> bool) : bool :=
  match n with
  | O => true
  | S n' => p (Z.of_nat n') && zrange_all n' p
  end.

Lemma zrange_all_spec n p :
  zrange_all n p = true -> forall i, 0 <= i < Z.of_nat n -> p i = true.
Proof.
  induction n as [|n IH]; simpl; intros H i Hi; [lia|].
  apply andb_true_iff in H as [H1 H2].
  destruct (decide (i = Z.of_nat n)) as [->|]; [done|]. apply IH; [done|lia].
Qed.

(** ** Equality of integers bit by bit *)

Lemma bits_high n a i : 0 <= a < 2 ^ n -> 0 <= n <= i -> Z.testbit a i = false.
Proof.
  intros Ha Hi. destruct (decide (a = 0)) as [->|]; [apply Z.testbit_0_l|].
  apply Z.bits_above_log2; [lia|]. apply Z.log2_lt_pow2; [lia|].
  eapply Z.lt_le_trans; [apply Ha|]. apply Z.pow_le_mono_r; lia.
Qed.

(** Pushes one [Z.testbit] through the operators. *)
Ltac zbit_spec a e :=
  lazymatch a with
  | Z.lor ?x ?y => rewrite (Z.lor_spec x y e)
  | Z.land ?x ?y => rewrite (Z.land_spec x y e)
  | Z.lxor ?x ?y => rewrite (Z.lxor_spec x y e)
  | Z.shiftl ?x ?k => rewrite (Z.shiftl_spec x k e) by lia
  | Z.shiftr ?x ?k => rewrite (Z.shiftr_spec x k e) by lia
  end.

(** The bits of one concrete position: out of range, of a constant, or of a
    variable known to be below [2^n]. *)
Ltac zbit_eval n :=
  repeat match goal with
  | |- context [Z.testbit ?a ?e] =>
      let v := eval vm_compute in e in
      lazymatch v with
      | Zneg _ => rewrite (Z.testbit_neg_r a e) by lia
      | _ =>
          first
            [ zbit_spec a e
            | let b := eval vm_compute in (Z.testbit a v) in
              lazymatch b with
              | true => change (Z.testbit a e) with true
              | false => change (Z.testbit a e) with false
              end
            | rewrite (bits_high n a e) by lia
            | progress change (Z.testbit a e) with (Z.testbit a v) ]
      end
  end.

(** The bits of a symbolic position above all variables and constants. *)
Ltac zbit_above n :=
  repeat match goal with
  | |- context [Z.testbit ?a ?e] =>
      first
        [ zbit_spec a e
        | rewrite (bits_high n a e) by lia
        | let k := eval vm_compute in (Z.succ (Z.log2 a)) in
          rewrite (bits_high k a e) by lia ]
  end.

Ltac zbit_bool :=
  rewrite ?andb_true_r, ?andb_false_r, ?andb_true_l, ?andb_false_l,
    ?orb_false_r, ?orb_false_l, ?orb_true_r, ?xorb_false_l, ?xorb_false_r.

Ltac zbits_below i n tac :=
  lazymatch n with
  | O => exfalso; lia
  | S ?m =>
      let z := eval vm_compute in (Z.of_nat m) in
      let H := fresh in
      destruct (Z.eq_dec i z) as [->|H];
      [ tac
      | match goal with
        | Hlt : i < _ |- _ =>
            let H' := fresh in
            assert (H' : i < z) by lia; clear H Hlt; zbits_below i m tac
        end ]
  end.

(** [zbits N n]: the integers agree on the bits below [N] and have none
    above; the variables in them are below [2^n]. *)
Ltac zbits N n :=
  apply Z.bits_inj'; intros ?i ?Hi;
  match goal with
  | Hi : 0 <= ?i |- _ =>
      destruct (Z.ltb_spec i (Z.of_nat N));
      [ zbits_below i N ltac:(zbit_eval n; zbit_bool; try reflexivity)
      | zbit_above n; zbit_bool; try reflexivity ]
  end.
(** ** Hints *)
Create HintDb dg discriminated.
Create Rewrite HintDb dgr.
#[export] Hint Resolve zlen_nonneg cstr_ok_take cstr_ok_bytes_ok : dg.
#[export] Hint Rewrite @zlen_nil @zlen_cons @zlen_app : dgr.
#[export] Hint Rewrite @sputs_nil @sputs_app @sputs_one sputs_file : dgr.
