(* ===== verification/VStr.v ===== *)
(** * Bounded strings ([VStr])

    The string discipline of [include/ystring.h] and [rary/ystring.cpp] as
    the build configures it ([QS], C++): every writable string parameter
    travels with the base and the size of its array, and all stores go
    through the macros [setVStrEnd], [setVStrElem], [setVStrPtrInc] and the
    functions [Xstrcpy], [Xstrncpy], [XStrncpy], [Xbcopy], [Xmemmove] and
    [Xstrcat].  The array is a list of bytes, a pointer into it is an offset
    from its base, and [v_ok] records that no store or scan has left the
    array.  A size of 0 stands for [VStrNULL], the pair of a null base and a
    zero size.  The messages of [VStr_overflow] are not modelled. *)
From S2P Require Import Prelude.
From stdpp Require Import options.

Record vstr := VStr { v_buf : list Z; v_pos : Z; v_ok : bool }.

Definition v_size (v : vstr) : Z := zlen (v_buf v).
Definition v_tail (v : vstr) : Z := v_size v - 1.

(** The store [BASE[i] = c], and the pointer assignment [d = BASE + p]. *)
Definition poke (v : vstr) (i c : Z) : vstr :=
  if (0 <=? i) && (i <? v_size v)
  then VStr (<[Z.to_nat i := uchar c]> (v_buf v)) (v_pos v) (v_ok v)
  else VStr (v_buf v) (v_pos v) false.
Definition v_at (v : vstr) (p : Z) : vstr := VStr (v_buf v) p (v_ok v).

Definition rangeOK (v : vstr) (x : Z) : bool :=
  (0 <? v_size v) && (0 <=? v_pos v + x) && (v_pos v + x <=? v_tail v).

Definition outofrange (v : vstr) (z : Z) : bool :=
  (v_pos v <? 0) || (v_tail v <? v_pos v)
  || negb (z =? 0) && ((v_pos v + z <? 0) || (v_tail v + 1 <? v_pos v + z)).

Definition XsetVStrEnd (v : vstr) (x : Z) : vstr * Z :=
  if v_size v =? 0 then (v, 0)
  else if outofrange v 0 then (poke v (v_tail v) 0, 0)
  else if v_tail v <? v_pos v + x
  then (poke v (v_tail v) 0, v_tail v - v_pos v)
  else (poke v (v_pos v + x) 0, x).

Definition setVStrEnd (v : vstr) (x : Z) : vstr :=
  if rangeOK v x then poke v (v_pos v + x) 0 else fst (XsetVStrEnd v x).

Definition setVStrElem (v : vstr) (x c : Z) : vstr :=
  if rangeOK v x then poke v (v_pos v + x) c else fst (XsetVStrEnd v x).

Definition setVStrElemInc (v : vstr) (x c : Z) : vstr * Z :=
  if rangeOK v x then (poke v (v_pos v + x) c, x + 1)
  else (fst (XsetVStrEnd v x), x).

Definition setVStrPtrInc (v : vstr) (c : Z) : vstr :=
  if rangeOK v 0
  then let v' := poke v (v_pos v) c in v_at v' (v_pos v + 1)
  else fst (XsetVStrEnd v 0).

#[export] Instance vstr_sink : Sink vstr := setVStrPtrInc.

(** [while( 1 < n-- ){ if( ( *dp++ = *s++ ) == 0 ) break; } *dp = 0;] with [k]
    the iterations that remain. *)
Fixpoint XStrncpy_loop (k : nat) (v : vstr) (dp : Z) (s : list Z) : vstr :=
  match k with
  | O => poke v dp 0
  | S k' =>
      let c := cat s 0 in
      let v := poke v dp c in
      if c =? 0 then poke v (dp + 1) 0
      else XStrncpy_loop k' v (dp + 1) (tl s)
  end.

Definition XStrncpy (v : vstr) (s : list Z) (z : Z) : vstr :=
  if outofrange v 0 then v
  else
    let n := if v_tail v + 1 <? v_pos v + z
             then v_tail v - v_pos v + 1 else z in
    XStrncpy_loop (Z.to_nat (n - 1)) v (v_pos v) s.

(** [for( i = 1; i < z; i++ ) if( ( *e++ = *s++ ) == 0 ) break;
     if( i == z ) *e = 0;] *)
Fixpoint Xstrcpy_loop (k : nat) (v : vstr) (e : Z) (s : list Z) : vstr :=
  match k with
  | O => poke v e 0
  | S k' =>
      let c := cat s 0 in
      let v := poke v e c in
      if c =? 0 then v else Xstrcpy_loop k' v (e + 1) (tl s)
  end.

Definition Xstrcpy (v : vstr) (s : list Z) : vstr :=
  if outofrange v 0 then v
  else
    let z := v_tail v - v_pos v + 1 in
    Xstrcpy_loop (Z.to_nat (z - 1)) v (v_pos v) s.

(** The C library's [strncpy]: [size] stores, NULs after the source's end. *)
Fixpoint strncpy (k : nat) (v : vstr) (dp : Z) (s : list Z) : vstr :=
  match k with
  | O => v
  | S k' => strncpy k' (poke v dp (cat s 0)) (dp + 1) (tl s)
  end.

Definition Xstrncpy (v : vstr) (s : list Z) (size : Z) : vstr :=
  if outofrange v size then v
  else
    let z := v_tail v - v_pos v + 1 in
    let size := if z <? size then z else size in
    if size <? 0 then VStr (v_buf v) (v_pos v) false
    else strncpy (Z.to_nat size) v (v_pos v) s.

(** [bcopy] and [memmove] of [k] bytes of a source outside the array. *)
Fixpoint blockcopy (k : nat) (v : vstr) (dp : Z) (s : list Z) : vstr :=
  match k with
  | O => v
  | S k' => blockcopy k' (poke v dp (cat s 0)) (dp + 1) (tl s)
  end.

Definition Xbcopy (s : list Z) (v : vstr) (z : Z) : vstr :=
  if outofrange v z then v
  else
    let z := if v_tail v + 1 <? v_pos v + z then v_tail v - v_pos v else z in
    if z <? 0 then VStr (v_buf v) (v_pos v) false
    else blockcopy (Z.to_nat z) v (v_pos v) s.

Definition Xmemmove (v : vstr) (s : list Z) (size : Z) : vstr :=
  if outofrange v size then v
  else if v_tail v + 1 <? v_pos v + size
  then if v_tail v - v_pos v <? 0 then v
       else blockcopy (Z.to_nat (v_tail v - v_pos v)) v (v_pos v) s
  else if size <? 0 then VStr (v_buf v) (v_pos v) false
  else blockcopy (Z.to_nat size) v (v_pos v) s.

(** The content of the array from the pointer on, as a C string. *)
Definition v_str (v : vstr) : list Z := cstr (drop (Z.to_nat (v_pos v)) (v_buf v)).

(** [for( t = d; *t; t++ );]: the scan leaves the array when no NUL is in it. *)
Definition Xstrcat (v : vstr) (s : list Z) : vstr :=
  if outofrange v 0 then v
  else
    let t := v_pos v + zlen (v_str v) in
    if t <? v_size v then v_at (Xstrcpy (v_at v t) s) (v_pos v)
    else VStr (v_buf v) (v_pos v) false.

(** ** Well-formed strings

    The array is not empty, the pointer is in it or just behind it, and no
    store has left it. *)
Definition vwf (v : vstr) : Prop :=
  v_ok v = true /\ 0 < v_size v /\ 0 <= v_pos v <= v_size v.

#[export] Instance vwf_dec v : Decision (vwf v).
Proof. unfold vwf. apply _. Defined.

(** A fresh array and the characters written to a prefix of one. *)
Definition vnew (size : nat) : vstr := VStr (repeat 0 size) 0 true.
Definition splice (b : list Z) (p : nat) (l : list Z) : list Z :=
  take p b ++ l ++ drop (p + length l) b.

(** ** Stores *)

Lemma v_size_poke v i c : v_size (poke v i c) = v_size v.
Proof.
  unfold poke. destruct (_ && _); [|done]. unfold v_size, zlen; simpl.
  by rewrite length_insert.
Qed.

Lemma v_tail_poke v i c : v_tail (poke v i c) = v_tail v.
Proof. unfold v_tail. by rewrite v_size_poke. Qed.

Lemma v_pos_poke v i c : v_pos (poke v i c) = v_pos v.
Proof. unfold poke. by destruct (_ && _). Qed.

Lemma v_ok_poke v i c : 0 <= i < v_size v -> v_ok (poke v i c) = v_ok v.
Proof. intros. unfold poke. by rewrite (proj2 (Z.leb_le 0 i)), (proj2 (Z.ltb_lt _ _)) by lia. Qed.

Lemma v_buf_poke v i c :
  0 <= i < v_size v -> v_buf (poke v i c) = splice (v_buf v) (Z.to_nat i) [uchar c].
Proof.
  intros Hi. unfold poke.
  rewrite (proj2 (Z.leb_le 0 i)), (proj2 (Z.ltb_lt _ _)) by lia; simpl.
  unfold v_size, zlen in Hi. unfold splice. simpl.
  rewrite insert_take_drop by lia. by rewrite Nat.add_1_r.
Qed.

Lemma vwf_poke v i c : vwf v -> 0 <= i < v_size v -> vwf (poke v i c).
Proof.
  unfold vwf. intros (Hok & Hs & Hp) Hi.
  rewrite v_size_poke, v_pos_poke, v_ok_poke by lia. done.
Qed.

(** The bounded stores never leave the array: [setVStrEnd] at an offset that
    does not point before the array, and [setVStrPtrInc] anywhere. *)
Lemma XsetVStrEnd_wf v x :
  vwf v -> 0 <= v_pos v + x ->
  vwf (fst (XsetVStrEnd v x)) /\ v_size (fst (XsetVStrEnd v x)) = v_size v.
Proof.
  intros Hv Hx. pose proof Hv as (Hok & Hs & Hp). unfold XsetVStrEnd, v_tail.
  rewrite (proj2 (Z.eqb_neq _ 0)) by lia.
  destruct (outofrange v 0) eqn:E.
  { simpl. split; [apply vwf_poke; [done|lia]|apply v_size_poke]. }
  destruct (Z.ltb_spec (v_size v - 1) (v_pos v + x)); simpl;
    (split; [apply vwf_poke; [done|lia]|apply v_size_poke]).
Qed.

Lemma setVStrEnd_wf v x :
  vwf v -> 0 <= v_pos v + x ->
  vwf (setVStrEnd v x) /\ v_size (setVStrEnd v x) = v_size v.
Proof.
  intros Hv Hx. unfold setVStrEnd. destruct (rangeOK v x) eqn:E.
  - unfold rangeOK, v_tail in E. zprop.
    split; [apply vwf_poke; [done|lia]|apply v_size_poke].
  - by apply XsetVStrEnd_wf.
Qed.

Lemma setVStrElem_wf v x c :
  vwf v -> 0 <= v_pos v + x ->
  vwf (setVStrElem v x c) /\ v_size (setVStrElem v x c) = v_size v.
Proof.
  intros Hv Hx. unfold setVStrElem. destruct (rangeOK v x) eqn:E.
  - unfold rangeOK, v_tail in E. zprop.
    split; [apply vwf_poke; [done|lia]|apply v_size_poke].
  - by apply XsetVStrEnd_wf.
Qed.

Lemma rangeOK_0 v : vwf v -> rangeOK v 0 = (v_pos v <? v_size v).
Proof.
  intros (_ & Hs & Hp). unfold rangeOK, v_tail.
  rewrite Z.add_0_r, (proj2 (Z.ltb_lt 0 (v_size v))), (proj2 (Z.leb_le 0 (v_pos v))) by lia.
  simpl. zcases.
Qed.

(** Inside the array [setVStrPtrInc] stores and advances, at its end it only
    terminates the array. *)
Lemma setVStrPtrInc_room v c :
  vwf v -> v_pos v < v_size v ->
  setVStrPtrInc v c = v_at (poke v (v_pos v) c) (v_pos v + 1).
Proof.
  intros Hv Hp. unfold setVStrPtrInc. rewrite rangeOK_0 by done.
  by rewrite (proj2 (Z.ltb_lt _ _)).
Qed.

Lemma setVStrPtrInc_full v c :
  vwf v -> v_pos v = v_size v -> setVStrPtrInc v c = poke v (v_tail v) 0.
Proof.
  intros Hv Hp. pose proof Hv as (_ & Hs & _).
  unfold setVStrPtrInc. rewrite rangeOK_0 by done.
  rewrite (proj2 (Z.ltb_ge _ _)) by lia. unfold XsetVStrEnd.
  rewrite (proj2 (Z.eqb_neq _ 0)) by lia. unfold outofrange.
  rewrite (proj2 (Z.ltb_lt (v_tail v) (v_pos v))) by (unfold v_tail; lia).
  by rewrite orb_true_r.
Qed.

Lemma setVStrPtrInc_wf v c :
  vwf v -> vwf (setVStrPtrInc v c) /\ v_size (setVStrPtrInc v c) = v_size v.
Proof.
  intros Hv. pose proof Hv as (Hok & Hs & Hp).
  destruct (decide (v_pos v < v_size v)).
  - rewrite setVStrPtrInc_room by done. unfold vwf.
    unfold v_at, v_size; simpl. fold (v_size (poke v (v_pos v) c)).
    rewrite v_size_poke, v_ok_poke by lia. repeat split; [done|lia..].
  - rewrite setVStrPtrInc_full by (done || lia). unfold v_tail.
    split; [apply vwf_poke; [done|lia]|apply v_size_poke].
Qed.

Lemma sput_vstr (v : vstr) c : sput v c = setVStrPtrInc v c.
Proof. reflexivity. Qed.

Lemma sputs_wf (v : vstr) l :
  vwf v -> vwf (sputs v l) /\ v_size (sputs v l) = v_size v.
Proof.
  revert v. induction l as [|c l IH]; intros v Hv; [done|].
  rewrite sputs_cons. rewrite sput_vstr.
  destruct (setVStrPtrInc_wf v c Hv) as [Hw Hs].
  destruct (IH _ Hw) as [Hw' Hs']. split; [done|]. by rewrite Hs'.
Qed.

(** ** What a sequence of stores leaves in the array *)

Lemma splice_nil b p : splice b p [] = b.
Proof. unfold splice. rewrite Nat.add_0_r. apply take_drop. Qed.

Lemma length_splice b p l :
  (p + length l <= length b)%nat -> length (splice b p l) = length b.
Proof. intros. unfold splice. rewrite !length_app, length_take, length_drop. lia. Qed.

Lemma splice_app b p l1 l2 :
  (p + length l1 + length l2 <= length b)%nat ->
  splice (splice b p l1) (p + length l1) l2 = splice b p (l1 ++ l2).
Proof.
  intros Hl. unfold splice at 1 3. rewrite length_app.
  assert (Hp : length (take p b ++ l1) = (p + length l1)%nat)
    by (rewrite length_app, length_take; lia).
  unfold splice. rewrite (app_assoc (take p b)).
  rewrite take_app_length' by lia.
  rewrite drop_app_ge by lia. rewrite drop_drop, Hp.
  rewrite <- !app_assoc. do 4 f_equal. lia.
Qed.

(** Writing [l] fills the room behind the pointer, and once it has overrun
    the array's last byte is NUL. *)
Lemma sputs_vstr_room (v : vstr) l :
  vwf v -> v_pos v + zlen l <= v_size v ->
  sputs v l = VStr (splice (v_buf v) (Z.to_nat (v_pos v)) (map uchar l))
                   (v_pos v + zlen l) true.
Proof.
  revert v. induction l as [|c l IH]; intros v Hv Hl.
  - destruct Hv as [Hok _]. rewrite sputs_nil. simpl map.
    rewrite splice_nil, zlen_nil, Z.add_0_r, <- Hok. by destruct v.
  - rewrite zlen_cons in Hl. pose proof (zlen_nonneg l).
    rewrite sputs_cons. rewrite sput_vstr.
    pose proof (setVStrPtrInc_wf v c Hv) as [Hw Hs].
    pose proof Hv as (Hok & _ & Hp).
    assert (Hpos : v_pos (setVStrPtrInc v c) = v_pos v + 1)
      by (rewrite setVStrPtrInc_room by (done || lia); done).
    rewrite IH by (rewrite ?Hpos, ?Hs; (done || lia)).
    rewrite Hpos, zlen_cons. f_equal; [|lia].
    rewrite setVStrPtrInc_room by (done || lia). unfold v_at; simpl v_buf.
    rewrite v_buf_poke by lia.
    replace (Z.to_nat (v_pos v + 1))
      with (Z.to_nat (v_pos v) + length [uchar c])%nat by (simpl; lia).
    rewrite splice_app; [done|].
    unfold v_size, zlen in *. rewrite length_map. simpl. lia.
Qed.

Lemma v_ext v b p : v_buf v = b -> v_pos v = p -> v_ok v = true -> v = VStr b p true.
Proof. destruct v; simpl. by intros -> -> ->. Qed.

Lemma poke_poke v i c c' :
  0 <= i < v_size v -> poke (poke v i c) i c' = poke v i c'.
Proof.
  intros Hi.
  assert (E : (0 <=? i) && (i <? v_size v) = true) by lia.
  unfold poke at 1. rewrite v_size_poke, E. unfold poke. rewrite E. simpl.
  by rewrite list_insert_insert_eq.
Qed.

Lemma sputs_vstr_full (v : vstr) l :
  vwf v -> v_pos v = v_size v -> l <> [] -> sputs v l = poke v (v_tail v) 0.
Proof.
  revert v. induction l as [|c l IH]; intros v Hv Hp Hl; [done|].
  rewrite sputs_cons. rewrite sput_vstr.
  pose proof Hv as (Hok & Hs & _).
  rewrite setVStrPtrInc_full by done.
  destruct l as [|c' l']; [done|]. rewrite IH.
  - rewrite v_tail_poke. apply poke_poke. unfold v_tail; lia.
  - apply vwf_poke; [done|unfold v_tail; lia].
  - by rewrite v_pos_poke, v_size_poke.
  - done.
Qed.

(** The C string that a bounded writer leaves at the place it started from:
    the characters written, cut to leave room for the terminator. *)
Lemma splice_drop b p l : (p <= length b)%nat ->
  drop p (splice b p l) = l ++ drop (p + length l) b.
Proof.
  intros. unfold splice. rewrite drop_app_ge by (rewrite length_take; lia).
  rewrite length_take, Nat.min_l by lia. by rewrite Nat.sub_diag.
Qed.

Lemma map_uchar_bytes l : bytes_ok l -> map uchar l = l.
Proof.
  induction 1 as [|c l Hc _ IH]; [done|]. simpl. rewrite IH.
  by rewrite uchar_small.
Qed.

Lemma setVStrEnd_room v :
  vwf v -> v_pos v < v_size v -> setVStrEnd v 0 = poke v (v_pos v) 0.
Proof.
  intros Hv Hp. unfold setVStrEnd. rewrite rangeOK_0 by done.
  by rewrite (proj2 (Z.ltb_lt _ _)), Z.add_0_r by done.
Qed.

Lemma setVStrEnd_full v :
  vwf v -> v_pos v = v_size v -> setVStrEnd v 0 = poke v (v_tail v) 0.
Proof.
  intros Hv Hp. pose proof (setVStrPtrInc_full v 0 Hv Hp) as H.
  unfold setVStrPtrInc in H. unfold setVStrEnd. rewrite rangeOK_0 in * by done.
  rewrite (proj2 (Z.ltb_ge _ _)) in * by lia. done.
Qed.

(** Terminating the text at the end of a full array costs its last byte. *)
Lemma emit_exact (v : vstr) l :
  vwf v -> cstr_ok l -> v_pos v < v_size v -> v_pos v + zlen l = v_size v ->
  v_buf (poke (sputs v l) (v_tail v) 0) =
    splice (v_buf v) (Z.to_nat (v_pos v)) (removelast l ++ [0]).
Proof.
  intros Hv Hl Hp Hlen. pose proof Hv as (Hok & Hs & Hpos).
  rewrite sputs_vstr_room by (done || lia).
  rewrite map_uchar_bytes by auto with dg.
  destruct (exists_last (l := l)) as (l0 & c & ->).
  { intros ->. rewrite zlen_nil in Hlen. lia. }
  rewrite removelast_last. rewrite zlen_app, zlen_cons, zlen_nil in Hlen.
  unfold v_size, zlen in Hlen, Hp, Hpos.
  rewrite v_buf_poke; simpl v_buf.
  2: { unfold v_tail, v_size, zlen; simpl. rewrite length_splice;
       [lia|]. rewrite length_app; simpl. lia. }
  replace (Z.to_nat (v_tail v)) with (Z.to_nat (v_pos v) + length l0)%nat
    by (unfold v_tail, v_size, zlen; lia).
  rewrite <- (splice_app _ _ l0 [c]) by (simpl; lia).
  rewrite <- (splice_app _ _ l0 [0]) by (simpl; lia).
  set (b := splice (v_buf v) _ l0).
  assert (Hb : length b = length (v_buf v)) by (unfold b; rewrite length_splice; lia).
  set (q := (Z.to_nat (v_pos v) + length l0)%nat).
  assert (Hq : (q < length b)%nat) by (subst q; lia).
  unfold splice. simpl. rewrite take_app_length' by (rewrite length_take; lia).
  rewrite drop_app_ge by (rewrite length_take; lia).
  rewrite length_take, Nat.min_l by lia.
  replace (q + 1 - q)%nat with 1%nat by lia. done.
Qed.

Lemma take_removelast {A} (l : list A) : l <> [] -> removelast l = take (length l - 1) l.
Proof.
  intros Hl. destruct (exists_last Hl) as (l0 & c & ->).
  rewrite removelast_last, length_app. simpl.
  replace (length l0 + 1 - 1)%nat with (length l0) by lia.
  by rewrite take_app_length.
Qed.

(** The text a bounded writer leaves: what was written, cut to the room that
    is there with one byte kept for the terminator. *)
Definition emitted (v : vstr) (l : list Z) : vstr := setVStrEnd (sputs v l) 0.

Lemma emitted_room (v : vstr) l :
  vwf v -> bytes_ok l -> v_pos v + zlen l < v_size v ->
  v_buf (emitted v l) = splice (v_buf v) (Z.to_nat (v_pos v)) (l ++ [0]) /\
  v_pos (emitted v l) = v_pos v + zlen l.
Proof.
  intros Hv Hl Hp. pose proof Hv as (Hok & Hs & Hpos).
  pose proof (zlen_nonneg l). destruct (sputs_wf v l Hv) as [Hw Hsz].
  assert (E : v_pos (sputs v l) = v_pos v + zlen l)
    by (rewrite sputs_vstr_room by (done || lia); done).
  unfold emitted. rewrite setVStrEnd_room by (done || lia).
  rewrite v_pos_poke, v_buf_poke, E by lia. split; [|done].
  rewrite sputs_vstr_room by (done || lia). simpl v_buf.
  rewrite map_uchar_bytes by auto with dg.
  replace (Z.to_nat (v_pos v + zlen l))
    with (Z.to_nat (v_pos v) + length l)%nat by (unfold zlen; lia).
  rewrite splice_app; [done|]. unfold v_size, zlen in *. simpl. lia.
Qed.

Lemma emitted_full (v : vstr) l :
  vwf v -> cstr_ok l -> v_pos v < v_size v -> v_size v <= v_pos v + zlen l ->
  v_buf (emitted v l) =
    splice (v_buf v) (Z.to_nat (v_pos v))
      (take (Z.to_nat (v_tail v - v_pos v)) l ++ [0]) /\
  v_pos (emitted v l) = v_size v.
Proof.
  intros Hv Hl Hp Hlen. pose proof Hv as (Hok & Hs & Hpos).
  set (n := Z.to_nat (v_size v - v_pos v)).
  assert (Hn : v_pos v + zlen (take n l) = v_size v)
    by (unfold zlen in *; rewrite length_take; lia).
  destruct (sputs_wf v (take n l) Hv) as [Hw Hsz].
  assert (Hpos1 : v_pos (sputs v (take n l)) = v_size v)
    by (rewrite sputs_vstr_room by (done || lia); done).
  assert (E : emitted v l = poke (sputs v (take n l)) (v_tail v) 0).
  { unfold emitted. rewrite <- (take_drop n l) at 1. rewrite sputs_app.
    generalize dependent (sputs v (take n l)). intros w Hw Hsz Hpos1.
    assert (Ht : v_tail w = v_tail v) by (unfold v_tail; lia).
    destruct (drop n l) as [|c r].
    - rewrite sputs_nil, setVStrEnd_full by (done || lia). by rewrite Ht.
    - rewrite sputs_vstr_full by (done || lia).
      rewrite setVStrEnd_full.
      + rewrite v_tail_poke, Ht. apply poke_poke. unfold v_tail in *; lia.
      + apply vwf_poke; [done|unfold v_tail in *; lia].
      + rewrite v_pos_poke, v_size_poke. lia. }
  rewrite E, v_pos_poke. split; [|done].
  rewrite emit_exact by (try done; auto using cstr_ok_take).
  rewrite take_removelast by (intros H; rewrite H, zlen_nil in Hn; lia).
  rewrite take_take. do 3 f_equal. unfold v_tail, zlen in *.
  rewrite length_take in *. lia.
Qed.

Lemma emitted_wf (v : vstr) l :
  vwf v -> vwf (emitted v l) /\ v_size (emitted v l) = v_size v.
Proof.
  intros Hv. destruct (sputs_wf v l Hv) as [Hw Hs]. unfold emitted.
  destruct (setVStrEnd_wf (sputs v l) 0 Hw) as [Hw' Hs'];
    [destruct Hw as (_ & _ & ?); lia|]. split; [done|lia].
Qed.

(** Memory safety and truncation of the bounded string writer.  Writing
    any text through [setVStrPtrInc] and terminating it with [setVStrEnd]
    never stores outside the array, leaves everything before the starting
    point alone, and leaves at the starting point the C string of exactly
    the characters that fit with their terminator. *)
Theorem vstr_emit_truncates (v : vstr) (l : list Z) :
  vwf v -> v_pos v < v_size v -> cstr_ok l ->
  vwf (emitted v l) /\
  v_size (emitted v l) = v_size v /\
  v_pos (emitted v l) = Z.min (v_pos v + zlen l) (v_size v) /\
  take (Z.to_nat (v_pos v)) (v_buf (emitted v l)) =
    take (Z.to_nat (v_pos v)) (v_buf v) /\
  cstr (drop (Z.to_nat (v_pos v)) (v_buf (emitted v l))) =
    take (Z.to_nat (v_size v - 1 - v_pos v)) l.
Proof.
  intros Hv Hp Hl. pose proof Hv as (Hok & Hs & Hpos).
  assert (Hb : (Z.to_nat (v_pos v) <= length (v_buf v))%nat)
    by (unfold v_size, zlen in *; lia).
  assert (Hpre : forall w, take (Z.to_nat (v_pos v)) (splice (v_buf v) (Z.to_nat (v_pos v)) w)
                           = take (Z.to_nat (v_pos v)) (v_buf v))
    by (intros w; unfold splice; apply take_app_length'; rewrite length_take; lia).
  destruct (emitted_wf v l Hv) as [Hw Hsz].
  destruct (decide (v_pos v + zlen l < v_size v)) as [H|H].
  - destruct (emitted_room v l Hv (cstr_ok_bytes_ok _ Hl) H) as [Eb Ep]. rewrite Eb, Ep, Hpre.
    rewrite splice_drop, <- app_assoc by done. simpl.
    rewrite cstr_app_nul by done. split_and!; try done; [lia|].
    symmetry. apply take_ge. unfold v_size, zlen in *; lia.
  - destruct (emitted_full v l Hv Hl Hp ltac:(lia)) as [Eb Ep].
    rewrite Eb, Ep, Hpre. rewrite splice_drop, <- app_assoc by done. simpl.
    rewrite cstr_app_nul by auto using cstr_ok_take. unfold v_tail.
    split_and!; try done; lia.
Qed.

Lemma vstr_emit_truncates_witness :
  let v := emitted (vnew 4) (cs "abcdef") in
  cstr (v_buf v) = cs "abc" /\ v_ok v = true.
Proof.
  pose proof (vstr_emit_truncates (vnew 4) (cs "abcdef")) as H.
  destruct H as (_ & _ & _ & _ & H); [by compute|by compute| |].
  - by apply (bool_decide_unpack _).
  - split; [exact H|reflexivity].
Defined.

(** ** The copying functions *)

Lemma poke_run (v : vstr) e c l :
  0 <= e -> e + 1 + zlen l <= v_size v -> byte_ok c ->
  splice (v_buf (poke v e c)) (Z.to_nat (e + 1)) l =
  splice (v_buf v) (Z.to_nat e) (c :: l).
Proof.
  intros He Hl Hc. pose proof (zlen_nonneg l).
  rewrite v_buf_poke, uchar_small by (done || lia).
  replace (Z.to_nat (e + 1)) with (Z.to_nat e + length [c])%nat by (simpl; lia).
  rewrite splice_app; [done|]. unfold v_size, zlen in *. simpl. lia.
Qed.

Definition same_frame (v w : vstr) : Prop :=
  v_pos w = v_pos v /\ v_size w = v_size v /\ v_ok w = v_ok v.

Lemma same_frame_poke v e c : 0 <= e < v_size v -> same_frame v (poke v e c).
Proof.
  intros. unfold same_frame. by rewrite v_pos_poke, v_size_poke, v_ok_poke.
Qed.

Lemma same_frame_trans u v w : same_frame u v -> same_frame v w -> same_frame u w.
Proof. unfold same_frame. intros (?&?&?) (?&?&?). split_and!; congruence. Qed.

Lemma same_frame_wf v w : same_frame v w -> vwf v -> vwf w.
Proof. unfold same_frame, vwf. intros (->&->&->). done. Qed.

#[export] Hint Resolve same_frame_poke same_frame_trans : dg.

Lemma Xstrcpy_loop_spec k v e s :
  0 <= e -> e + Z.of_nat k < v_size v -> cstr_ok s ->
  same_frame v (Xstrcpy_loop k v e s) /\
  v_buf (Xstrcpy_loop k v e s) = splice (v_buf v) (Z.to_nat e) (take k s ++ [0]).
Proof.
  revert v e s. induction k as [|k IH]; intros v e s He Hk Hs; simpl Xstrcpy_loop.
  - split; [apply same_frame_poke; lia|]. by rewrite v_buf_poke by lia.
  - destruct s as [|c s].
    + split; [apply same_frame_poke; simpl; lia|]. simpl. by rewrite v_buf_poke by lia.
    + apply Forall_cons in Hs as [Hc Hs]. rewrite cat_0.
      rewrite (proj2 (Z.eqb_neq c 0)) by (unfold cchar_ok in Hc; lia). simpl tl.
      destruct (IH (poke v e c) (e + 1) s) as [Hf Hb];
        [lia|rewrite v_size_poke; lia|done|].
      split; [eapply same_frame_trans; [|exact Hf]; apply same_frame_poke; lia|].
      rewrite Hb, poke_run; [done|lia| |unfold cchar_ok, byte_ok in *; lia].
      autorewrite with dgr. unfold zlen. rewrite length_take. lia.
Qed.

Lemma XStrncpy_loop_spec k v e s :
  0 <= e -> e + Z.of_nat k < v_size v -> cstr_ok s ->
  same_frame v (XStrncpy_loop k v e s) /\
  exists r, (length r <= k)%nat /\ (length (take k s) + length r <= k)%nat /\
  v_buf (XStrncpy_loop k v e s) =
    splice (v_buf v) (Z.to_nat e) (take k s ++ 0 :: r).
Proof.
  revert v e s. induction k as [|k IH]; intros v e s He Hk Hs; simpl XStrncpy_loop.
  - split; [apply same_frame_poke; lia|]. exists []. simpl.
    split_and!; [done..|]. by rewrite v_buf_poke by lia.
  - destruct s as [|c s].
    + simpl. split.
      { eapply same_frame_trans; apply same_frame_poke; rewrite ?v_size_poke; lia. }
      exists [0]. simpl. split_and!; [lia..|].
      rewrite v_buf_poke by (rewrite v_size_poke; lia).
      change (uchar 0) with 0. rewrite poke_run; [done|lia| |by compute].
      autorewrite with dgr. lia.
    + apply Forall_cons in Hs as [Hc Hs]. rewrite cat_0.
      rewrite (proj2 (Z.eqb_neq c 0)) by (unfold cchar_ok in Hc; lia). simpl tl.
      destruct (IH (poke v e c) (e + 1) s) as [Hf (r & Hr1 & Hr2 & Hb)];
        [lia|rewrite v_size_poke; lia|done|].
      split; [eapply same_frame_trans; [|exact Hf]; apply same_frame_poke; lia|].
      exists r. split_and!; [lia|simpl; lia|].
      rewrite Hb, poke_run; [done|lia| |unfold cchar_ok, byte_ok in *; lia].
      autorewrite with dgr. unfold zlen. lia.
Qed.

Lemma outofrange_0 v : vwf v -> outofrange v 0 = (v_tail v <? v_pos v).
Proof.
  intros (_ & _ & Hp). unfold outofrange. rewrite (proj2 (Z.ltb_ge _ _)) by lia.
  simpl. by rewrite orb_false_r.
Qed.

Lemma splice_prefix b p l : (p <= length b)%nat -> take p (splice b p l) = take p b.
Proof. intros. unfold splice. apply take_app_length'. rewrite length_take. lia. Qed.

(** The replacements of the C library's string functions are bounded by
    the size that travels with the destination: [Xstrcpy] and [XStrncpy] of
    any C string stay inside the array, keep what is before the destination
    pointer, and leave there the longest prefix of the source that fits with
    its terminator (for [XStrncpy], at most [z-1] characters of it). *)
Theorem vstr_copies_are_bounded (v : vstr) (s : list Z) (z : Z) :
  vwf v -> v_pos v < v_size v -> cstr_ok s -> 0 < z ->
  let p := Z.to_nat (v_pos v) in
  let room := Z.to_nat (v_size v - 1 - v_pos v) in
  (same_frame v (Xstrcpy v s) /\ v_str (Xstrcpy v s) = take room s /\
   take p (v_buf (Xstrcpy v s)) = take p (v_buf v)) /\
  (same_frame v (XStrncpy v s z) /\
   v_str (XStrncpy v s z) = take (Nat.min room (Z.to_nat (z - 1))) s /\
   take p (v_buf (XStrncpy v s z)) = take p (v_buf v)).
Proof.
  intros Hv Hp Hs Hz p room. pose proof Hv as (Hok & Hsz & Hpos).
  assert (Hb : (p <= length (v_buf v))%nat) by (subst p; unfold v_size, zlen in *; lia).
  assert (Ho : outofrange v 0 = false)
    by (rewrite outofrange_0 by done; unfold v_tail; lia).
  split.
  - unfold Xstrcpy. rewrite Ho.
    destruct (Xstrcpy_loop_spec (Z.to_nat (v_tail v - v_pos v + 1 - 1)) v (v_pos v) s)
      as [Hf E]; [lia|unfold v_tail; lia|done|].
    split_and!; [done| |].
    + unfold v_str. destruct Hf as (-> & _ & _). rewrite E.
      rewrite splice_drop, <- app_assoc by done. simpl.
      rewrite cstr_app_nul by auto with dg. f_equal. subst room. unfold v_tail. lia.
    + rewrite E. by apply splice_prefix.
  - unfold XStrncpy. rewrite Ho.
    set (n := if v_tail v + 1 <? v_pos v + z then v_tail v - v_pos v + 1 else z).
    assert (Hn : Z.to_nat (n - 1) = Nat.min room (Z.to_nat (z - 1))).
    { subst n room. unfold v_tail. zcases. }
    rewrite <- Hn.
    destruct (XStrncpy_loop_spec (Z.to_nat (n - 1)) v (v_pos v) s)
      as [Hf (r & Hr1 & Hr2 & E)]; [lia|subst n; unfold v_tail; zcases|done|].
    split_and!; [done| |].
    + unfold v_str. destruct Hf as (-> & _ & _). rewrite E.
      rewrite splice_drop, <- app_assoc by done. simpl.
      by rewrite cstr_app_nul by auto with dg.
    + rewrite E. by apply splice_prefix.
Qed.

Lemma vstr_copies_are_bounded_witness :
  v_str (Xstrcpy (vnew 4) (cs "abcdef")) = cs "abc" /\
  v_str (XStrncpy (vnew 8) (cs "abcdef") 3) = cs "ab".
Proof.
  split.
  - destruct (vstr_copies_are_bounded (vnew 4) (cs "abcdef") 1) as [(_ & H & _) _];
      [by compute|by compute|by apply (bool_decide_unpack _)|lia|exact H].
  - destruct (vstr_copies_are_bounded (vnew 8) (cs "abcdef") 3) as [_ (_ & H & _)];
      [by compute|by compute|by apply (bool_decide_unpack _)|lia|exact H].
Defined.

(** The block copies do all or nothing: a copy that does not fit into the
    array is dropped, any other one stores exactly [z] bytes. *)
Lemma blockcopy_spec k v e s :
  0 <= e -> e + Z.of_nat k <= v_size v -> bytes_ok s -> (k <= length s)%nat ->
  same_frame v (blockcopy k v e s) /\
  v_buf (blockcopy k v e s) = splice (v_buf v) (Z.to_nat e) (take k s).
Proof.
  revert v e s. induction k as [|k IH]; intros v e s He Hk Hs Hl; simpl blockcopy.
  - split; [done|]. simpl. by rewrite splice_nil.
  - destruct s as [|c s]; [simpl in Hl; lia|].
    apply Forall_cons in Hs as [Hc Hs]. rewrite cat_0. simpl tl.
    destruct (IH (poke v e c) (e + 1) s) as [Hf Hb];
      [lia|rewrite v_size_poke; lia|done|simpl in Hl; lia|].
    split; [eapply same_frame_trans; [|exact Hf]; apply same_frame_poke; lia|].
    rewrite Hb, poke_run; [done|lia| |done].
    unfold zlen. rewrite length_take. lia.
Qed.

Lemma Xbcopy_all_or_nothing s v z :
  vwf v -> bytes_ok s -> 0 <= z <= zlen s ->
  same_frame v (Xbcopy s v z) /\
  (v_pos v < v_size v -> v_pos v + z <= v_size v ->
   v_buf (Xbcopy s v z) = splice (v_buf v) (Z.to_nat (v_pos v)) (take (Z.to_nat z) s)) /\
  (v_size v < v_pos v + z -> Xbcopy s v z = v).
Proof.
  intros Hv Hs Hz. pose proof Hv as (Hok & Hsz & Hpos). unfold Xbcopy.
  destruct (outofrange v z) eqn:Eo.
  - split_and!; [done| |done]. intros Hp Hfit. exfalso.
    unfold outofrange, v_tail in Eo. lia.
  - assert (v_pos v + z <= v_size v) as Hfit.
    { unfold outofrange, v_tail in Eo. lia. }
    rewrite (proj2 (Z.ltb_ge (v_tail v + 1) _)), (proj2 (Z.ltb_ge z 0))
      by (unfold v_tail; lia).
    destruct (blockcopy_spec (Z.to_nat z) v (v_pos v) s) as [Hf Hb];
      [lia|lia|done|unfold zlen in *; lia|].
    split_and!; [done|intros _ _; done|lia].
Qed.
