(* ===== verification/Base64.v ===== *)
(** * BASE64 ([mimekit/mimecodes.cpp])

    The encoder and the decoder in their two forms: between two [FILE*]
    streams ([MIME_to64X], [MIME_from64]) and into a bounded string
    ([strtoB64], [B64tostr]).  An input stream is the list of the bytes that
    are left in it, an output stream the list of the bytes written.  The
    loops that end at the end of the input carry a fuel; [S (length inp)]
    iterations are always enough, and the theorems are about that amount.

    [B64IX] is an array of 256 [char]s.  The string decoder indexes it with
    a [char], which is signed, so a byte above 127 reads before the array:
    such a read makes the result [None]. *)
From S2P Require Import Prelude VStr.
From stdpp Require Import options.

Definition B64CH_tab : list Z :=
  cs "ABCDEFGHIJKLMNOPQRSTUVWXYZabcdefghijklmnopqrstuvwxyz0123456789+/".
Definition B64CH (i : Z) : Z := cat B64CH_tab i.

(** [(char)-1], [(char)-2], [(char)-3]. *)
Definition NON64 : Z := -1.
Definition WHITE : Z := -2.
Definition PADDCH : Z := -3.

(** [init_64], as the table it fills: the loop over [B64CH] runs last. *)
Fixpoint B64IX_fill (n : nat) (tab : list Z) : list Z :=
  match n with
  | O => tab
  | S n' => let tab := B64IX_fill n' tab in
            <[Z.to_nat (B64CH (Z.of_nat n')) := Z.of_nat n']> tab
  end.
Definition init_64 : list Z :=
  let tab := repeat NON64 256 in
  let tab := <[Z.to_nat LF := WHITE]> tab in
  let tab := <[Z.to_nat CR := WHITE]> tab in
  let tab := <[Z.to_nat TAB := WHITE]> tab in
  let tab := <[Z.to_nat SP := WHITE]> tab in
  let tab := <[Z.to_nat EQ := PADDCH]> tab in
  B64IX_fill 64 tab.
Definition B64IX_tab : list Z := Eval vm_compute in init_64.

(** [B64IX[i]]; [None] is a read outside the array. *)
Definition B64IX (i : Z) : option Z :=
  if i <? 0 then None else B64IX_tab !! Z.to_nat i.

(** ** Encoding *)

(** The inner loop of the encoder: up to three bytes into [oint].  The
    result is ([icc], [ix], [oint], the rest of the input, [gotEOF]). *)
Fixpoint rd3 (n : nat) (leng icc ix oint shifts : Z) (inp : list Z)
  : Z * Z * Z * list Z * bool :=
  match n with
  | O => (icc, ix, oint, inp, false)
  | S n' =>
      let icc := if 0 <? leng then icc + 1 else icc in
      if (0 <? leng) && (leng <? icc) then (icc, ix, oint, inp, true)
      else match inp with
           | [] => (icc, ix, oint, [], true)
           | ich :: inp' =>
               rd3 n' leng icc (ix + 1) (Z.lor oint (Z.shiftl ich shifts))
                   (shifts - 8) inp'
           end
  end.

(** [for( ox = 0; ox <= ix; ox++ )] and [for(; ox < 4; ox++ )], with [n]
    the iterations that are left. *)
Fixpoint put_digits {S} `{Sink S} (n : nat) (shifts oint : Z) (out : S) : S :=
  match n with
  | O => out
  | Datatypes.S n' =>
      let o1 := Z.land (Z.shiftr oint shifts) 63 in
      put_digits n' (shifts - 6) oint (sput out (B64CH o1))
  end.
Fixpoint put_pad {S} `{Sink S} (n : nat) (out : S) : S :=
  match n with
  | O => out
  | Datatypes.S n' => put_pad n' (sput out EQ)
  end.
Definition put_quad {S} `{Sink S} (ix oint : Z) (out : S) : S :=
  put_pad (Z.to_nat (3 - ix)) (put_digits (Z.to_nat (ix + 1)) 18 oint out).

Fixpoint MIME_to64X_loop (fuel : nat) (leng icc ocol : Z) (inp out : list Z)
  : option (list Z) :=
  match fuel with
  | O => None
  | S fuel' =>
      let '(icc, ix, oint, inp, gotEOF) := rd3 3 leng icc 0 0 16 inp in
      if ix =? 0
      then Some (if 0 <? ocol then sput out LF else out)
      else
        let '(out, ocol) := if 71 <? ocol then (sput out LF, 0) else (out, ocol) in
        let out := put_quad ix oint out in
        let ocol := ocol + 4 in
        if gotEOF
        then Some (if 0 <? ocol then sput out LF else out)
        else MIME_to64X_loop fuel' leng icc ocol inp out
  end.
Definition MIME_to64X (inp : list Z) (leng : Z) : option (list Z) :=
  MIME_to64X_loop (S (length inp)) leng 0 0 inp [].
Definition MIME_to64 (inp : list Z) : option (list Z) := MIME_to64X inp 0.

(** The string form: [str] is the source from [icc] on, of which [slen]
    bytes are read through [0xFF & str[icc++]]; the result is the written
    string and [bp - b64]. *)
Fixpoint rd3s (n : nat) (slen icc ix oint shifts : Z) (str : list Z)
  : Z * Z * Z * bool :=
  match n with
  | O => (icc, ix, oint, false)
  | S n' =>
      if slen <=? icc then (icc, ix, oint, true)
      else
        let ich := Z.land 255 (schar (cat str icc)) in
        rd3s n' slen (icc + 1) (ix + 1) (Z.lor oint (Z.shiftl ich shifts))
             (shifts - 8) str
  end.
Fixpoint strtoB64_loop (fuel : nat) (str : list Z) (slen : Z) (withnl : bool)
  (icc ocol : Z) (bp : vstr) : option (vstr * Z) :=
  match fuel with
  | O => None
  | S fuel' =>
      if slen <=? icc then Some (bp, ocol)
      else
        let '(icc, ix, oint, gotEOF) := rd3s 3 slen icc 0 0 16 str in
        if ix =? 0 then Some (bp, ocol)
        else
          let bp := if (71 <? ocol) && withnl then setVStrPtrInc bp LF else bp in
          let ocol := if 71 <? ocol then 0 else ocol in
          let bp := put_quad ix oint bp in
          let ocol := ocol + 4 in
          if gotEOF then Some (bp, ocol)
          else strtoB64_loop fuel' str slen withnl icc ocol bp
  end.
Definition strtoB64 (str : list Z) (slen : Z) (b64 : vstr) (withnl : bool)
  : option (vstr * Z) :=
  match strtoB64_loop (S (Z.to_nat slen)) str slen withnl 0 0 b64 with
  | None => None
  | Some (bp, ocol) =>
      let bp := if withnl && (0 <? ocol) then setVStrPtrInc bp LF else bp in
      let bp := setVStrEnd bp 0 in
      Some (bp, v_pos bp - v_pos b64)
  end.

(** ** Decoding *)

(** The inner loop of the decoder: four significant characters.  The result
    is ([ix], [oint], the rest of the input, [gotEOF]); [ungetc] puts the
    unrecognized character back. *)
Fixpoint rd4 (inp : list Z) (ii ix oint shifts : Z)
  : option (Z * Z * list Z * bool) :=
  if 4 <=? ii then Some (ix, oint, inp, false)
  else match inp with
       | [] => Some (ix, oint, [], true)
       | ich :: inp' =>
           match B64IX ich with
           | None => None
           | Some i1 =>
               if i1 =? NON64 then Some (ix, oint, ich :: inp', true)
               else if i1 =? WHITE then rd4 inp' ii ix oint shifts
               else if i1 =? PADDCH then rd4 inp' (ii + 1) ix oint shifts
               else rd4 inp' (ii + 1) (ix + 1)
                        (Z.lor oint (Z.shiftl i1 shifts)) (shifts - 6)
           end
       end.

(** [for( ox = 1; ox < ix; ox++ )], with [n] the iterations left. *)
Fixpoint put_octets {S} `{Sink S} (n : nat) (shifts oint : Z) (out : S) : S :=
  match n with
  | O => out
  | Datatypes.S n' =>
      let o1 := Z.land (Z.shiftr oint shifts) 255 in
      put_octets n' (shifts - 8) oint (sput out o1)
  end.

(** The input left unread is part of the result. *)
Fixpoint MIME_from64_loop (fuel : nat) (inp out : list Z)
  : option (list Z * list Z) :=
  match fuel with
  | O => None
  | S fuel' =>
      match rd4 inp 0 0 0 18 with
      | None => None
      | Some (ix, oint, inp, gotEOF) =>
          if ix =? 0 then Some (out, inp)
          else
            let out := put_octets (Z.to_nat (ix - 1)) 16 oint out in
            if gotEOF then Some (out, inp)
            else MIME_from64_loop fuel' inp out
      end
  end.
Definition MIME_from64 (inp : list Z) : option (list Z * list Z) :=
  MIME_from64_loop (S (length inp)) inp [].

(** The string form reads [b64[icc++]] into an [int] without a mask, and
    does not put an unrecognized character back. *)
Fixpoint rd4s (b64 : list Z) (ii ix oint shifts : Z)
  : option (Z * Z * list Z * bool) :=
  if 4 <=? ii then Some (ix, oint, b64, false)
  else match b64 with
       | [] => Some (ix, oint, [], true)
       | c :: b64' =>
           match B64IX (schar c) with
           | None => None
           | Some i1 =>
               if i1 =? NON64 then Some (ix, oint, b64', true)
               else if i1 =? WHITE then rd4s b64' ii ix oint shifts
               else if i1 =? PADDCH then rd4s b64' (ii + 1) ix oint shifts
               else rd4s b64' (ii + 1) (ix + 1)
                         (Z.lor oint (Z.shiftl i1 shifts)) (shifts - 6)
           end
       end.
Fixpoint B64tostr_loop (fuel : nat) (b64 : list Z) (sp : vstr) : option vstr :=
  match fuel with
  | O => None
  | S fuel' =>
      match b64 with
      | [] => Some sp
      | _ =>
          match rd4s b64 0 0 0 18 with
          | None => None
          | Some (ix, oint, b64, gotEOF) =>
              if ix =? 0 then Some sp
              else
                let sp := put_octets (Z.to_nat (ix - 1)) 16 oint sp in
                if gotEOF then Some sp else B64tostr_loop fuel' b64 sp
          end
      end
  end.
(** [b64] is the [blen] bytes that are decoded. *)
Definition B64tostr (b64 : list Z) (str : vstr) : option (vstr * Z) :=
  match B64tostr_loop (S (length b64)) b64 str with
  | None => None
  | Some sp => let sp := setVStrEnd sp 0 in Some (sp, v_pos sp - v_pos str)
  end.

Example to64_foobar : MIME_to64 (cs "foobar") = Some (cs "Zm9vYmFy" ++ [LF]).
Proof. vm_compute. reflexivity. Qed.
Example from64_foob : MIME_from64 (cs "Zm9vYg==" ++ [LF]) = Some (cs "foob", []).
Proof. vm_compute. reflexivity. Qed.

(** ** The text a source is encoded to *)

Fixpoint digits (n : nat) (shifts oint : Z) : list Z :=
  match n with
  | O => []
  | S n' => B64CH (Z.land (Z.shiftr oint shifts) 63) :: digits n' (shifts - 6) oint
  end.
Definition quad (ix oint : Z) : list Z :=
  digits (Z.to_nat (ix + 1)) 18 oint ++ repeat EQ (Z.to_nat (3 - ix)).
Definition oint3 (a b c : Z) : Z :=
  Z.lor (Z.lor (Z.lor 0 (Z.shiftl a 16)) (Z.shiftl b 8)) (Z.shiftl c 0).

Fixpoint quads (s : list Z) : list (list Z) :=
  match s with
  | [] => []
  | [a] => [quad 1 (Z.lor 0 (Z.shiftl a 16))]
  | [a; b] => [quad 2 (Z.lor (Z.lor 0 (Z.shiftl a 16)) (Z.shiftl b 8))]
  | a :: b :: c :: r => quad 3 (oint3 a b c) :: quads r
  end.

(** Lines of 72 characters; [ocol] is the current column. *)
Fixpoint wrap (nl : bool) (ocol : Z) (qs : list (list Z)) : list Z :=
  match qs with
  | [] => if nl && (0 <? ocol) then [LF] else []
  | q :: qs' =>
      (if (71 <? ocol) && nl then [LF] else []) ++
      q ++ wrap nl ((if 71 <? ocol then 0 else ocol) + 4) qs'
  end.
Definition b64_text (nl : bool) (s : list Z) : list Z := wrap nl 0 (quads s).

(** ** The encoders produce that text *)

Lemma put_digits_sputs {S} `{Sink S} n sh oint (out : S) :
  put_digits n sh oint out = sputs out (digits n sh oint).
Proof. revert sh out. induction n as [|n IH]; intros; simpl; [done|]. by rewrite IH. Qed.

Lemma put_pad_sputs {S} `{Sink S} n (out : S) :
  put_pad n out = sputs out (repeat EQ n).
Proof. revert out. induction n as [|n IH]; intros; simpl; [done|]. by rewrite IH. Qed.

Lemma put_quad_sputs {S} `{Sink S} ix oint (out : S) :
  put_quad ix oint out = sputs out (quad ix oint).
Proof. unfold put_quad, quad. by rewrite put_pad_sputs, put_digits_sputs, sputs_app. Qed.

Lemma put_octets_app n sh oint out :
  put_octets n sh oint out = out ++ put_octets n sh oint [].
Proof.
  revert sh out. induction n as [|n IH]; intros; simpl; [by rewrite app_nil_r|].
  rewrite IH, (IH _ (sput [] _)). unfold sput, file_sink. by rewrite <- app_assoc.
Qed.

(** The input as the length limit of [MIME_to64X] cuts it. *)
Definition limited (leng icc : Z) (inp : list Z) : list Z :=
  if 0 <? leng then take (Z.to_nat (leng - icc)) inp else inp.

Lemma limited_step leng icc inp :
  limited leng icc inp =
  if (0 <? leng) && (leng <? icc + 1) then []
  else match inp with
       | [] => []
       | a :: r => a :: limited leng (if 0 <? leng then icc + 1 else icc) r
       end.
Proof.
  unfold limited. destruct (Z.ltb_spec 0 leng); simpl; [|by destruct inp].
  destruct (Z.ltb_spec leng (icc + 1)).
  - by replace (Z.to_nat (leng - icc)) with O by lia.
  - replace (Z.to_nat (leng - icc)) with (S (Z.to_nat (leng - (icc + 1)))) by lia.
    by destruct inp.
Qed.

Lemma rd3_spec leng icc inp :
  match limited leng icc inp with
  | [] => exists icc' inp', rd3 3 leng icc 0 0 16 inp = (icc', 0, 0, inp', true)
  | [a] => exists icc' inp',
      rd3 3 leng icc 0 0 16 inp = (icc', 1, Z.lor 0 (Z.shiftl a 16), inp', true)
  | [a; b] => exists icc' inp',
      rd3 3 leng icc 0 0 16 inp =
      (icc', 2, Z.lor (Z.lor 0 (Z.shiftl a 16)) (Z.shiftl b 8), inp', true)
  | a :: b :: c :: r => exists icc' inp',
      rd3 3 leng icc 0 0 16 inp = (icc', 3, oint3 a b c, inp', false) /\
      limited leng icc' inp' = r
  end.
Proof.
  simpl rd3. rewrite limited_step.
  destruct (Z.ltb_spec 0 leng) as [Hl|Hl]; simpl.
  - destruct (Z.ltb_spec leng (icc + 1)); [eauto|]. destruct inp as [|a inp]; [eauto|].
    rewrite limited_step, (proj2 (Z.ltb_lt 0 leng) Hl). simpl.
    destruct (Z.ltb_spec leng (icc + 1 + 1)); [eauto|]. destruct inp as [|b inp]; [eauto|].
    rewrite limited_step, (proj2 (Z.ltb_lt 0 leng) Hl). simpl.
    destruct (Z.ltb_spec leng (icc + 1 + 1 + 1)); [eauto|]. destruct inp as [|c inp]; eauto.
  - destruct inp as [|a inp]; [eauto|].
    rewrite limited_step, (proj2 (Z.ltb_ge 0 leng) Hl). simpl.
    destruct inp as [|b inp]; [eauto|].
    rewrite limited_step, (proj2 (Z.ltb_ge 0 leng) Hl). simpl.
    destruct inp as [|c inp]; eauto.
Qed.

Lemma wrap_cons_end ocol q :
  (if 71 <? ocol then 0 else ocol) + 4 > 0 ->
  wrap true ocol [q] = (if 71 <? ocol then [LF] else []) ++ q ++ [LF].
Proof. intros. simpl. rewrite andb_true_r. by rewrite (proj2 (Z.ltb_lt 0 _)) by lia. Qed.

Lemma MIME_to64X_loop_spec fuel leng icc ocol inp out :
  (length (limited leng icc inp) < fuel)%nat -> 0 <= ocol ->
  MIME_to64X_loop fuel leng icc ocol inp out =
  Some (out ++ wrap true ocol (quads (limited leng icc inp))).
Proof.
  revert icc ocol inp out.
  induction fuel as [|fuel IH]; intros icc ocol inp out Hf Ho; [lia|].
  cbn [MIME_to64X_loop]. pose proof (rd3_spec leng icc inp) as Hrd.
  assert (Hoc : (if 71 <? ocol then 0 else ocol) + 4 > 0) by zcases.
  assert (Hput : forall ix oint,
    (let '(out, ocol) := if 71 <? ocol then (sput out LF, 0) else (out, ocol) in
     (put_quad ix oint out, ocol)) =
    (out ++ (if 71 <? ocol then [LF] else []) ++ quad ix oint,
     if 71 <? ocol then 0 else ocol)).
  { intros ix oint. destruct (71 <? ocol); rewrite put_quad_sputs, sputs_file;
      unfold sput, file_sink; [by rewrite <- app_assoc|done]. }
  assert (Hend : forall ix oint icc' inp', ix <> 0 ->
    rd3 3 leng icc 0 0 16 inp = (icc', ix, oint, inp', true) ->
    MIME_to64X_loop (S fuel) leng icc ocol inp out =
    Some (out ++ wrap true ocol [quad ix oint])).
  { intros ix oint icc' inp' Hix E. cbn [MIME_to64X_loop]. rewrite E.
    rewrite (proj2 (Z.eqb_neq ix 0)) by done. specialize (Hput ix oint).
    destruct (if 71 <? ocol then (sput out LF, 0) else (out, ocol)) as [o1 oc1]. injection Hput as -> ->.
    rewrite wrap_cons_end, (proj2 (Z.ltb_lt 0 _)) by lia.
    unfold sput, file_sink. by rewrite <- !app_assoc. }
  destruct (limited leng icc inp) as [|a [|b [|c r]]] eqn:El;
    destruct Hrd as (icc' & inp' & Hrd).
  - rewrite Hrd. simpl.
    destruct (0 <? ocol); [done|]. by rewrite app_nil_r.
  - eapply (Hend 1); [done|exact Hrd].
  - eapply (Hend 2); [done|exact Hrd].
  - destruct Hrd as [Hrd Hr]. rewrite Hrd. simpl Z.eqb. cbv iota.
    specialize (Hput 3 (oint3 a b c)).
    destruct (if 71 <? ocol then (sput out LF, 0) else (out, ocol)) as [o1 oc1]. injection Hput as -> ->.
    rewrite IH; [|rewrite Hr; simpl in Hf; lia|lia]. rewrite Hr. simpl wrap.
    rewrite andb_true_r, <- !app_assoc. done.
Qed.

Lemma MIME_to64_spec s : MIME_to64 s = Some (b64_text true s).
Proof. unfold MIME_to64, MIME_to64X. by rewrite MIME_to64X_loop_spec by (unfold limited; simpl; lia). Qed.

(** The encoder terminates on every input and its output is the text of
    the specification: the 3-byte groups of the source in 4 digits each,
    padded with [=], in lines of 72 characters; a positive [leng] encodes
    exactly the first [leng] bytes of the stream. *)
Theorem MIME_to64X_encodes (inp : list Z) (leng : Z) :
  MIME_to64X inp leng =
  Some (b64_text true (if 0 <? leng then take (Z.to_nat leng) inp else inp)).
Proof.
  unfold MIME_to64X. rewrite MIME_to64X_loop_spec.
  - unfold limited. by rewrite Z.sub_0_r.
  - unfold limited. destruct (0 <? leng); rewrite ?length_take; lia.
  - lia.
Qed.

(** ** Decoding the text gives the source back *)

Lemma B64IX_B64CH d : 0 <= d < 64 -> B64IX (B64CH d) = Some d.
Proof.
  intros Hd.
  pose proof (zrange_all_spec 64
    (fun i => match B64IX (B64CH i) with Some j => j =? i | None => false end)
    eq_refl d Hd) as H.
  simpl in H. destruct (B64IX (B64CH d)) as [j|]; [|done].
  apply Z.eqb_eq in H. by subst.
Qed.

Lemma land_63_range x : 0 <= Z.land x 63 < 64.
Proof. change 63 with (Z.ones 6). rewrite Z.land_ones by lia. by apply Z.mod_pos_bound. Qed.

Lemma rd4_digit d inp ii ix oint sh :
  0 <= d < 64 -> ii < 4 ->
  rd4 (B64CH d :: inp) ii ix oint sh =
  rd4 inp (ii + 1) (ix + 1) (Z.lor oint (Z.shiftl d sh)) (sh - 6).
Proof.
  intros Hd Hi. cbn [rd4]. rewrite (proj2 (Z.leb_gt 4 ii)), B64IX_B64CH by done.
  unfold NON64, WHITE, PADDCH. by rewrite !(proj2 (Z.eqb_neq d _)) by lia.
Qed.

Lemma rd4_pad inp ii ix oint sh :
  ii < 4 -> rd4 (EQ :: inp) ii ix oint sh = rd4 inp (ii + 1) ix oint sh.
Proof. intros Hi. cbn [rd4]. by rewrite (proj2 (Z.leb_gt 4 ii)) by done. Qed.

Lemma rd4_white inp ii ix oint sh :
  ii < 4 -> rd4 (LF :: inp) ii ix oint sh = rd4 inp ii ix oint sh.
Proof. intros Hi. cbn [rd4]. by rewrite (proj2 (Z.leb_gt 4 ii)) by done. Qed.

Lemma rd4_full inp ix oint sh : rd4 inp 4 ix oint sh = Some (ix, oint, inp, false).
Proof. by destruct inp. Qed.

(** The octets that a quad of [n] source bytes decodes to. *)
Definition oints (l : list Z) : Z :=
  match l with
  | [a] => Z.lor 0 (Z.shiftl a 16)
  | [a; b] => Z.lor (Z.lor 0 (Z.shiftl a 16)) (Z.shiftl b 8)
  | [a; b; c] => oint3 a b c
  | _ => 0
  end.

Lemma oint3_bits a b c : byte_ok a -> byte_ok b -> byte_ok c ->
  let o := oint3 a b c in
  Z.lor (Z.lor (Z.lor (Z.lor 0
    (Z.shiftl (Z.land (Z.shiftr o 18) 63) 18)) (Z.shiftl (Z.land (Z.shiftr o 12) 63) 12))
    (Z.shiftl (Z.land (Z.shiftr o 6) 63) 6)) (Z.shiftl (Z.land (Z.shiftr o 0) 63) 0) = o.
Proof.
  unfold byte_ok. change 256 with (2 ^ 8). intros ???. cbv zeta. unfold oint3.
  zbits 24%nat 8.
Qed.

Lemma oint2_bits a b : byte_ok a -> byte_ok b ->
  let o := Z.lor (Z.lor 0 (Z.shiftl a 16)) (Z.shiftl b 8) in
  Z.lor (Z.lor (Z.lor 0
    (Z.shiftl (Z.land (Z.shiftr o 18) 63) 18)) (Z.shiftl (Z.land (Z.shiftr o 12) 63) 12))
    (Z.shiftl (Z.land (Z.shiftr o 6) 63) 6) = o.
Proof.
  unfold byte_ok. change 256 with (2 ^ 8). intros ??. cbv zeta. zbits 24%nat 8.
Qed.

Lemma oint1_bits a : byte_ok a ->
  let o := Z.lor 0 (Z.shiftl a 16) in
  Z.lor (Z.lor 0
    (Z.shiftl (Z.land (Z.shiftr o 18) 63) 18)) (Z.shiftl (Z.land (Z.shiftr o 12) 63) 12) = o.
Proof.
  unfold byte_ok. change 256 with (2 ^ 8). intros ?. cbv zeta. zbits 24%nat 8.
Qed.

Lemma octet_bits a b c : byte_ok a -> byte_ok b -> byte_ok c ->
  Z.land (Z.shiftr (oint3 a b c) 16) 255 = a /\
  Z.land (Z.shiftr (oint3 a b c) 8) 255 = b /\
  Z.land (Z.shiftr (oint3 a b c) 0) 255 = c.
Proof.
  unfold byte_ok. change 256 with (2 ^ 8). intros. unfold oint3.
  split_and!; zbits 8%nat 8.
Qed.

(** One quad of the text: [n] digits and [4 - n] pads. *)
Lemma quad_1 o : quad 1 o =
  [B64CH (Z.land (Z.shiftr o 18) 63); B64CH (Z.land (Z.shiftr o 12) 63); EQ; EQ].
Proof. reflexivity. Qed.
Lemma quad_2 o : quad 2 o =
  [B64CH (Z.land (Z.shiftr o 18) 63); B64CH (Z.land (Z.shiftr o 12) 63);
   B64CH (Z.land (Z.shiftr o 6) 63); EQ].
Proof. reflexivity. Qed.
Lemma quad_3 o : quad 3 o =
  [B64CH (Z.land (Z.shiftr o 18) 63); B64CH (Z.land (Z.shiftr o 12) 63);
   B64CH (Z.land (Z.shiftr o 6) 63); B64CH (Z.land (Z.shiftr o 0) 63)].
Proof. reflexivity. Qed.

Lemma rd4_digits_2 d0 d1 rest : 0 <= d0 < 64 -> 0 <= d1 < 64 ->
  rd4 (B64CH d0 :: B64CH d1 :: rest) 0 0 0 18 =
  rd4 rest 2 2 (Z.lor (Z.lor 0 (Z.shiftl d0 18)) (Z.shiftl d1 12)) 6.
Proof. intros. by rewrite !rd4_digit by lia. Qed.

Lemma rd4_quad l rest :
  bytes_ok l -> (1 <= length l <= 3)%nat ->
  rd4 (quad (zlen l) (oints l) ++ rest) 0 0 0 18 =
  Some (zlen l + 1, oints l, rest, false).
Proof.
  unfold bytes_ok. intros Hl Hn.
  destruct l as [|a [|b [|c [|? ?]]]]; cbn [length] in Hn; try lia;
    forall_hyps.
  - change (zlen [a]) with 1. cbn [oints]. rewrite quad_1. cbn [app].
    rewrite rd4_digits_2, !rd4_pad by (apply land_63_range || lia).
    change (2 + 1 + 1) with 4. rewrite rd4_full. by rewrite (oint1_bits a).
  - change (zlen [a; b]) with 2. cbn [oints]. rewrite quad_2. cbn [app].
    rewrite rd4_digits_2, rd4_digit, rd4_pad by (apply land_63_range || lia).
    change (2 + 1 + 1) with 4. rewrite rd4_full. by rewrite (oint2_bits a b).
  - change (zlen [a; b; c]) with 3. cbn [oints]. rewrite quad_3. cbn [app].
    rewrite rd4_digits_2, !rd4_digit by (apply land_63_range || lia).
    change (2 + 1 + 1) with 4. change (6 - 6) with 0.
    rewrite rd4_full. by rewrite (oint3_bits a b c).
Qed.

(** Induction over the 3-byte groups of a source. *)
Lemma list3_ind (P : list Z -> Prop) :
  P [] -> (forall a, P [a]) -> (forall a b, P [a; b]) ->
  (forall a b c r, P r -> P (a :: b :: c :: r)) -> forall l, P l.
Proof.
  intros H0 H1 H2 H3. fix IH 1. intros [|a [|b [|c r]]]; [done|apply H1|apply H2|].
  apply H3, IH.
Qed.

Lemma quads_cons l r :
  (length l = 3 \/ 1 <= length l <= 3 /\ r = [])%nat ->
  quads (l ++ r) = quad (zlen l) (oints l) :: quads r.
Proof.
  intros Hl. destruct l as [|a [|b [|c [|]]]]; cbn [length] in Hl; try lia;
    destruct Hl as [?|[_ ->]]; try lia; reflexivity.
Qed.

Lemma oints_pad a b :
  oints [a] = oint3 a 0 0 /\ oints [a; b] = oint3 a b 0.
Proof.
  unfold oints, oint3. change (Z.shiftl 0 8) with 0. change (Z.shiftl 0 0) with 0.
  by rewrite !Z.lor_0_r.
Qed.

Lemma put_octets_oints l out :
  bytes_ok l -> (1 <= length l <= 3)%nat ->
  put_octets (Z.to_nat (zlen l + 1 - 1)) 16 (oints l) out = out ++ l.
Proof.
  unfold bytes_ok. intros Hl Hn. rewrite put_octets_app. f_equal.
  destruct l as [|a [|b [|c [|? ?]]]]; cbn [length] in Hn; try lia;
    forall_hyps.
  - destruct (octet_bits a 0 0) as [Ha _]; [done|by compute..|].
    rewrite (proj1 (oints_pad a 0)).
    change (put_octets _ _ _ _) with [Z.land (Z.shiftr (oint3 a 0 0) 16) 255].
    by rewrite Ha.
  - destruct (octet_bits a b 0) as (Ha & Hb & _); [done|done|by compute|].
    rewrite (proj2 (oints_pad a b)).
    change (put_octets _ _ _ _)
      with [Z.land (Z.shiftr (oint3 a b 0) 16) 255; Z.land (Z.shiftr (oint3 a b 0) 8) 255].
    by rewrite Ha, Hb.
  - destruct (octet_bits a b c) as (Ha & Hb & Hc); [done..|].
    change (put_octets _ _ _ _)
      with [Z.land (Z.shiftr (oint3 a b c) 16) 255; Z.land (Z.shiftr (oint3 a b c) 8) 255;
            Z.land (Z.shiftr (oint3 a b c) 0) 255].
    by rewrite Ha, Hb, Hc.
Qed.

Lemma from64_skip nl fuel ocol inp out :
  MIME_from64_loop (S fuel) ((if (71 <? ocol) && nl then [LF] else []) ++ inp) out =
  MIME_from64_loop (S fuel) inp out.
Proof.
  destruct (_ && _); [|done]. cbn [MIME_from64_loop app]. by rewrite rd4_white.
Qed.

Lemma from64_group nl fuel l ocol qs out :
  bytes_ok l -> (1 <= length l <= 3)%nat ->
  MIME_from64_loop (S fuel) (wrap nl ocol (quad (zlen l) (oints l) :: qs)) out =
  MIME_from64_loop fuel (wrap nl ((if 71 <? ocol then 0 else ocol) + 4) qs) (out ++ l).
Proof.
  intros Hl Hn. cbn [wrap]. rewrite from64_skip. cbn [MIME_from64_loop].
  rewrite rd4_quad by done. rewrite (proj2 (Z.eqb_neq _ 0)) by (unfold zlen; lia).
  by rewrite put_octets_oints.
Qed.

Lemma from64_end nl fuel ocol out :
  MIME_from64_loop (S fuel) (wrap nl ocol []) out = Some (out, []).
Proof. cbn [wrap]. by destruct (nl && _). Qed.

Lemma from64_wrap nl s : forall fuel ocol out,
  bytes_ok s -> (length (quads s) < fuel)%nat ->
  MIME_from64_loop fuel (wrap nl ocol (quads s)) out = Some (out ++ s, []).
Proof.
  induction s as [|a|a b|a b c r IH] using list3_ind; intros fuel ocol out Hs Hf;
    (destruct fuel as [|fuel]; [simpl in Hf; lia|]).
  - simpl quads. by rewrite from64_end, app_nil_r.
  - change (quads [a]) with [quad (zlen [a]) (oints [a])].
    rewrite from64_group by (done || simpl; lia).
    destruct fuel as [|fuel]; [simpl in Hf; lia|]. apply from64_end.
  - change (quads [a; b]) with [quad (zlen [a; b]) (oints [a; b])].
    rewrite from64_group by (done || simpl; lia).
    destruct fuel as [|fuel]; [simpl in Hf; lia|]. apply from64_end.
  - change (a :: b :: c :: r) with ([a; b; c] ++ r) in *.
    apply Forall_app in Hs as [Hl Hr].
    rewrite quads_cons in Hf |- * by (simpl; lia).
    rewrite from64_group by (done || simpl; lia).
    rewrite IH by (done || simpl in Hf; lia). by rewrite <- app_assoc.
Qed.

Lemma quads_length_wrap nl s : forall ocol,
  (length (quads s) <= length (wrap nl ocol (quads s)))%nat.
Proof.
  induction s as [|a|a b|a b c r IH] using list3_ind; intros ocol; cbn [quads wrap length];
    rewrite ?length_app; [lia|simpl; lia|simpl; lia|].
  specialize (IH ((if 71 <? ocol then 0 else ocol) + 4)).
  rewrite quad_3. simpl length. lia.
Qed.

(** C25. BASE64 round trip between streams: decoding what the encoder wrote
    for any byte stream terminates, gives exactly that stream back and
    consumes all of the text, line breaks and padding included. *)
Theorem MIME_base64_roundtrip (s : list Z) :
  bytes_ok s ->
  exists text, MIME_to64 s = Some text /\ MIME_from64 text = Some (s, []).
Proof.
  intros Hs. exists (b64_text true s). split; [apply MIME_to64_spec|].
  unfold MIME_from64, b64_text. apply (from64_wrap true s _ 0 []); [done|].
  pose proof (quads_length_wrap true s 0). lia.
Qed.

Lemma MIME_base64_roundtrip_witness :
  exists text, MIME_to64 (cs "any carnal pleas") = Some text /\
               MIME_from64 text = Some (cs "any carnal pleas", []).
Proof. apply MIME_base64_roundtrip. by apply (bool_decide_unpack _). Defined.

(** ** The string forms *)

Lemma land_255_schar c : byte_ok c -> Z.land 255 (schar c) = c.
Proof.
  intros Hc.
  pose proof (zrange_all_spec 256 (fun i => Z.land 255 (schar i) =? i) eq_refl c Hc).
  by apply Z.eqb_eq.
Qed.

Lemma cat_take_drop s i : 0 <= i < zlen s ->
  drop (Z.to_nat i) s = cat s i :: drop (Z.to_nat (i + 1)) s.
Proof.
  intros Hi. unfold cat. rewrite (proj2 (Z.ltb_ge i 0)) by lia.
  replace (Z.to_nat (i + 1)) with (S (Z.to_nat i)) by lia.
  apply drop_S. rewrite nth_lookup. unfold zlen in Hi.
  destruct (lookup_lt_is_Some_2 s (Z.to_nat i)) as [x Hx]; [lia|]. by rewrite Hx.
Qed.

(** The two encoders read the same groups. *)
Lemma rd3s_rd3 n s icc ix oint sh :
  bytes_ok s -> 0 <= icc <= zlen s ->
  exists icc', rd3s n (zlen s) icc ix oint sh s =
    (icc', (rd3 n 0 0 ix oint sh (drop (Z.to_nat icc) s)).1.1.1.2,
     (rd3 n 0 0 ix oint sh (drop (Z.to_nat icc) s)).1.1.2,
     (rd3 n 0 0 ix oint sh (drop (Z.to_nat icc) s)).2) /\
    0 <= icc' <= zlen s /\
    drop (Z.to_nat icc') s = (rd3 n 0 0 ix oint sh (drop (Z.to_nat icc) s)).1.2.
Proof.
  intros Hs. revert icc ix oint sh. induction n as [|n IH]; intros icc ix oint sh Hi.
  - simpl. eauto.
  - cbn [rd3s rd3]. destruct (Z.leb_spec (zlen s) icc).
    + rewrite drop_ge by (unfold zlen in *; lia). simpl.
      exists icc. rewrite drop_ge by (unfold zlen in *; lia). eauto.
    + rewrite (cat_take_drop s icc) by lia. simpl andb. cbv iota.
      assert (Hc : byte_ok (cat s icc)).
      { pose proof (Forall_drop byte_ok (Z.to_nat icc) s Hs) as Hd.
        rewrite cat_take_drop in Hd by lia. by apply Forall_cons in Hd as [? _]. }
      rewrite land_255_schar by done. apply IH. lia.
Qed.

Lemma strtoB64_loop_spec fuel s nl icc ocol bp :
  bytes_ok s -> 0 <= icc <= zlen s -> (Z.to_nat (zlen s - icc) < fuel)%nat -> 0 <= ocol ->
  exists bp' ocol', strtoB64_loop fuel s (zlen s) nl icc ocol bp = Some (bp', ocol') /\
  (if nl && (0 <? ocol') then setVStrPtrInc bp' LF else bp') =
  sputs bp (wrap nl ocol (quads (drop (Z.to_nat icc) s))).
Proof.
  intros Hs. revert icc ocol bp.
  induction fuel as [|fuel IH]; intros icc ocol bp Hi Hf Ho; [lia|].
  cbn [strtoB64_loop]. destruct (Z.leb_spec (zlen s) icc).
  { exists bp, ocol. split; [done|]. rewrite drop_ge by (unfold zlen in *; lia).
    simpl. by destruct (nl && _). }
  destruct (rd3s_rd3 3 s icc 0 0 16 Hs Hi) as (icc' & -> & Hi' & Hd).
  pose proof (rd3_spec 0 0 (drop (Z.to_nat icc) s)) as Hrd.
  set (bp1 := if (71 <? ocol) && nl then setVStrPtrInc bp LF else bp).
  assert (Hb : forall q qs, sputs bp ((if (71 <? ocol) && nl then [LF] else []) ++ q ++ qs)
    = sputs (sputs bp1 q) qs).
  { intros q qs. rewrite !sputs_app. subst bp1. by destruct (_ && _). }
  assert (Hoc : 0 < (if 71 <? ocol then 0 else ocol) + 4) by zcases.
  unfold limited in Hrd. simpl Z.ltb in Hrd. cbv iota in Hrd.
  destruct (drop (Z.to_nat icc) s) as [|a [|b [|c r]]] eqn:El.
  { rewrite (cat_take_drop s icc) in El by lia. done. }
  1,2: destruct Hrd as (i1 & inp' & E); rewrite E; simpl snd; simpl fst; simpl Z.eqb;
    cbv iota; eexists _, _; (split; [done|]);
    cbn [quads wrap]; rewrite Hb, put_quad_sputs;
    rewrite (proj2 (Z.ltb_lt 0 _)) by done; rewrite andb_true_r; by destruct nl.
  destruct Hrd as (i1 & inp' & E & Hr). simpl in Hr. subst inp'.
  rewrite E in Hd |- *. simpl fst in *. simpl snd. simpl Z.eqb. cbv iota.
  assert (Hlt : icc < icc').
  { assert (length (drop (Z.to_nat icc') s) < length (drop (Z.to_nat icc) s))%nat.
    { rewrite Hd, El. simpl. lia. }
    rewrite !length_drop in *. unfold zlen in *. lia. }
  destruct (IH icc' ((if 71 <? ocol then 0 else ocol) + 4) (put_quad 3 (oint3 a b c) bp1))
    as (bp' & ocol' & -> & Hfin); [lia|lia|lia|].
  eexists _, _. split; [done|]. rewrite Hfin, Hd. cbn [quads wrap].
  by rewrite Hb, put_quad_sputs.
Qed.

(** The in-memory encoder is the stream encoder cut to its buffer: on
    any source it terminates, never stores outside the array, and leaves
    what the bounded writer leaves of the encoded text; its value is how far
    the pointer moved. *)
Theorem strtoB64_encodes (s : list Z) (b64 : vstr) (withnl : bool) :
  bytes_ok s ->
  let out := emitted b64 (b64_text withnl s) in
  strtoB64 s (zlen s) b64 withnl = Some (out, v_pos out - v_pos b64).
Proof.
  intros Hs out. unfold strtoB64. pose proof (zlen_nonneg s).
  destruct (strtoB64_loop_spec (S (Z.to_nat (zlen s))) s withnl 0 0 b64)
    as (bp & ocol & -> & ->); [done|lia|lia|lia|done].
Qed.

Lemma strtoB64_encodes_witness :
  exists n, strtoB64 (cs "foob") 4 (vnew 6) false =
    Some (emitted (vnew 6) (b64_text false (cs "foob")), n) /\
  v_str (v_at (emitted (vnew 6) (b64_text false (cs "foob"))) 0) = cs "Zm9vY".
Proof.
  eexists. split; [|by vm_compute].
  apply (strtoB64_encodes (cs "foob") (vnew 6) false). by apply (bool_decide_unpack _).
Defined.

(** The characters of an encoded text: none of them ends the decoder. *)
Definition b64_char (c : Z) : Prop := byte_ok c /\ c < 128 /\ B64IX c <> Some NON64.

Lemma B64CH_char x : b64_char (B64CH (Z.land x 63)).
Proof.
  pose proof (land_63_range x) as Hx. unfold b64_char. rewrite B64IX_B64CH by done.
  unfold NON64, byte_ok.
  pose proof (zrange_all_spec 64 (fun i => (0 <=? B64CH i) && (B64CH i <? 128)) eq_refl _ Hx) as H.
  cbv beta in H. zprop. split_and!; try lia. intros [= E]; lia.
Qed.

Lemma quads_chars s : Forall (Forall b64_char) (quads s).
Proof.
  assert (HE : b64_char EQ) by (unfold b64_char, byte_ok; split_and!; by compute).
  induction s as [|a|a b|a b c r IH] using list3_ind; cbn [quads].
  - done.
  - rewrite quad_1. repeat constructor; apply B64CH_char || apply HE.
  - rewrite quad_2. repeat constructor; apply B64CH_char || apply HE.
  - constructor; [|exact IH]. rewrite quad_3. repeat constructor; apply B64CH_char.
Qed.

Lemma wrap_chars nl qs : forall ocol,
  Forall (Forall b64_char) qs -> Forall b64_char (wrap nl ocol qs).
Proof.
  assert (HL : b64_char LF) by (unfold b64_char, byte_ok; split_and!; by compute).
  induction qs as [|q qs IH]; intros ocol H; cbn [wrap].
  - destruct (nl && _); by repeat constructor.
  - apply Forall_cons in H as [Hq H]. apply Forall_app; split.
    + destruct (_ && nl); by repeat constructor.
    + apply Forall_app; eauto.
Qed.

Lemma rd4s_rd4 l : Forall b64_char l -> forall ii ix oint sh,
  rd4s l ii ix oint sh = rd4 l ii ix oint sh /\
  match rd4 l ii ix oint sh with
  | Some (_, _, l', _) => Forall b64_char l'
  | None => True
  end.
Proof.
  induction 1 as [|c l (Hb & Hc & Hn) Hl IH]; intros ii ix oint sh.
  - simpl. by destruct (4 <=? ii).
  - cbn [rd4s rd4]. rewrite schar_small by (unfold byte_ok in Hb; lia).
    destruct (4 <=? ii).
    { split; [done|]. constructor; [by split_and!|done]. }
    destruct (B64IX c) as [i1|]; [|done].
    destruct (Z.eqb_spec i1 NON64); [congruence|].
    destruct (i1 =? WHITE); [by apply IH|]. destruct (i1 =? PADDCH); by apply IH.
Qed.

Lemma put_octets_sputs {S} `{Sink S} n sh oint (out : S) :
  put_octets n sh oint out = sputs out (put_octets n sh oint []).
Proof.
  revert sh out. induction n as [|n IH]; intros sh out; [done|]. cbn [put_octets].
  rewrite IH, (put_octets_app n (sh - 8) oint (sput [] _)), sputs_app. done.
Qed.

Lemma B64tostr_loop_from64 fuel l (sp : vstr) out d r :
  Forall b64_char l ->
  MIME_from64_loop fuel l out = Some (out ++ d, r) ->
  B64tostr_loop fuel l sp = Some (sputs sp d).
Proof.
  revert l sp out d. induction fuel as [|fuel IH]; intros l sp out d Hl; [done|].
  destruct l as [|c l0]; cbn [MIME_from64_loop B64tostr_loop].
  { intros [= E _]. rewrite <- (app_nil_r out) in E at 1. apply app_inv_head in E. by subst. }
  destruct (rd4s_rd4 _ Hl 0 0 0 18) as [-> Hrest].
  destruct (rd4 (c :: l0) 0 0 0 18) as [[[[ix oint] l'] eof]|]; [|done].
  destruct (ix =? 0).
  { intros [= E _]. rewrite <- (app_nil_r out) in E at 1. apply app_inv_head in E. by subst. }
  rewrite (put_octets_sputs _ _ _ sp), put_octets_app.
  set (o := put_octets _ _ _ _). destruct eof.
  - intros [= E _]. apply app_inv_head in E. by subst.
  - intros E. assert (Hd : exists d', d = o ++ d').
    { clear -E. assert (G : forall f l out x r, MIME_from64_loop f l out = Some (x, r) ->
        exists d', x = out ++ d').
      { induction f as [|f IHf]; intros l1 out1 x r1; [done|]. cbn [MIME_from64_loop].
        destruct (rd4 l1 0 0 0 18) as [[[[ix1 o1] l2] e]|]; [|done].
        destruct (ix1 =? 0); [intros [= <- _]; exists []; by rewrite app_nil_r|].
        rewrite put_octets_app. destruct e; [intros [= <- _]; eauto|].
        intros [d' ->]%IHf. rewrite <- app_assoc. eauto. }
      apply G in E as [d' E]. rewrite <- app_assoc in E. apply app_inv_head in E. eauto. }
    destruct Hd as [d' ->]. rewrite sputs_app. rewrite app_assoc in E. by eapply IH.
Qed.

(** In-memory round trip: decoding the encoded text of any byte string
    into a buffer with enough room gives that string back with its length,
    however the text was broken into lines.  The text has to be ASCII: one
    byte above 127 makes [B64tostr] index its table with a negative value. *)
Theorem B64tostr_roundtrip (s : list Z) (withnl : bool) (str : vstr) (c : Z) (r : list Z) :
  bytes_ok s -> vwf str -> v_pos str + zlen s < v_size str -> 128 <= c < 256 ->
  B64tostr (b64_text withnl s) str = Some (emitted str s, zlen s) /\
  B64tostr (c :: r) str = None.
Proof.
  intros Hs Hv Hroom Hc. split.
  - unfold B64tostr, b64_text.
    assert (Hch := wrap_chars withnl (quads s) 0 (quads_chars s)).
    pose proof (quads_length_wrap withnl s 0).
    rewrite (B64tostr_loop_from64 _ _ _ [] s []);
      [|done|apply from64_wrap; [done|lia]].
    fold (emitted str s). by rewrite (proj2 (emitted_room str s Hv Hs Hroom)), Z.add_simpl_l.
  - unfold B64tostr. cbn [B64tostr_loop rd4s length].
    change (4 <=? 0) with false. unfold schar. rewrite (proj2 (Z.ltb_ge c 128)) by lia.
    unfold B64IX. by rewrite (proj2 (Z.ltb_lt _ 0)) by lia.
Qed.

Lemma B64tostr_roundtrip_witness :
  B64tostr (cs "Zm9vYg==") (vnew 8) = Some (emitted (vnew 8) (cs "foob"), 4) /\
  B64tostr [200] (vnew 8) = None.
Proof.
  apply (B64tostr_roundtrip (cs "foob") false (vnew 8) 200 []);
    [by apply (bool_decide_unpack _)|by compute..].
Defined.
