(* ===== verification/QuotedPrintable.v ===== *)
(** * Quoted-Printable ([mimekit/mimecodes.cpp])

    [MIME_toQP] and [MIME_fromQP] between two streams, with the table [QPIX]
    that [init_QP] and [MIME_setQP] fill.  The table is a parameter of the
    encoder, since [MIME_setQP] can add characters to it: every theorem holds
    for each table in which at least the characters of [init_QP] are to be
    escaped. *)
From S2P Require Import Prelude.
From stdpp Require Import options.

(** [QP_THRU] and [QP_ESC], [(char)-1]. *)
Definition QP_THRU : Z := 1.
Definition QP_ESC : Z := -1.

Definition init_QP : list Z :=
  map (fun i => let ix := Z.of_nat i in
       if (128 <=? ix) || iscntrl ix && negb (isspace ix) || (ix =? EQ)
       then QP_ESC else QP_THRU) (seq 0 256).

(** [while( ch = *qpchars++ ) QPIX[ch] = QP_ESC;] where [ch] is the [int]
    value of a [char]: a byte above 127 is a store before the array. *)
Fixpoint MIME_setQP_loop (qpchars : list Z) (QPIX : list Z) : option (list Z) :=
  match qpchars with
  | [] => Some QPIX
  | c :: qpchars' =>
      let ch := schar c in
      if ch <? 0 then None
      else MIME_setQP_loop qpchars' (<[Z.to_nat ch := QP_ESC]> QPIX)
  end.
Definition MIME_setQP (qpchars : list Z) : option (list Z) :=
  MIME_setQP_loop qpchars init_QP.

(** [hexd[n]]. *)
Definition hexd (n : Z) : Z := cat (cs "0123456789ABCDEF") n.

(** One round of the encoder on the character [ich]: the characters it
    writes and the new [ocol]. *)
Definition toQP_char (QPIX : list Z) (ocol ich : Z) : list Z * Z :=
  if (nth (Z.to_nat ich) QPIX 0 =? QP_ESC) || (ocol =? 0) && (ich =? 46)
  then ([EQ; hexd (Z.land 15 (Z.shiftr ich 4)); hexd (Z.land 15 ich)], ocol + 3)
  else if ich =? LF then ([ich], 0)
  else ([ich], ocol + 1).
Definition toQP_soft (ocol : Z) : list Z * Z :=
  if 72 <? ocol then ([EQ; LF], 0) else ([], ocol).

Fixpoint MIME_toQP_loop (QPIX : list Z) (ocol : Z) (inp out : list Z) : list Z :=
  match inp with
  | [] => if 0 <? ocol then out ++ [EQ; LF] else out
  | ich :: inp' =>
      let '(o1, ocol) := toQP_char QPIX ocol ich in
      let '(o2, ocol) := toQP_soft ocol in
      MIME_toQP_loop QPIX ocol inp' (out ++ o1 ++ o2)
  end.
Definition MIME_toQP (QPIX inp : list Z) : list Z := MIME_toQP_loop QPIX 0 inp [].

(** The value that [sscanf(buf,"%x",&och)] reads from two hexadecimal digits. *)
Definition sscanf_x2 (c1 c2 : Z) : Z := 16 * hexval c1 + hexval c2.

(** One round of the decoder: what it writes and the rest of the input;
    [None] when [GETC1] leaves the loop. *)
Definition fromQP_round (inp : list Z) : option (list Z * list Z) :=
  match inp with
  | [] => None
  | ch1 :: inp =>
      if negb (ch1 =? EQ) then Some ([ch1], inp)
      else match inp with
      | [] => None
      | ch1 :: inp =>
          match (if ch1 =? CR then
                   match inp with
                   | [] => None
                   | ch2 :: inp' => if ch2 =? LF then Some (LF, inp')
                                    else Some (ch1, inp)
                   end
                 else Some (ch1, inp)) with
          | None => None
          | Some (ch1, inp) =>
              if ch1 =? LF then Some ([], inp)
              else if negb (isxdigit ch1) then Some ([EQ; ch1], inp)
              else match inp with
                   | [] => None
                   | ch2 :: inp =>
                       if negb (isxdigit ch2) then Some ([EQ; ch1; ch2], inp)
                       else Some ([uchar (sscanf_x2 ch1 ch2)], inp)
                   end
          end
      end
  end.
(** The loop: a round consumes at least one character, so [S (length inp)]
    rounds are enough. *)
Fixpoint MIME_fromQP_loop (fuel : nat) (inp out : list Z) : option (list Z) :=
  match fuel with
  | O => None
  | S fuel' =>
      match fromQP_round inp with
      | None => Some out
      | Some (o, inp) => MIME_fromQP_loop fuel' inp (out ++ o)
      end
  end.
Definition MIME_fromQP (inp : list Z) : option (list Z) :=
  MIME_fromQP_loop (S (length inp)) inp [].

Example toQP_ex : MIME_toQP init_QP (cs "a=b" ++ [LF] ++ cs ".x" ++ [200]) =
  cs "a=3Db" ++ [LF] ++ cs "=2Ex=C8=" ++ [LF].
Proof. vm_compute. reflexivity. Qed.

(** ** Tables *)

(** The tables [init_QP] and [MIME_setQP] produce: 256 entries, and every
    character that [init_QP] escapes is escaped. *)
Definition qp_table (QPIX : list Z) : Prop :=
  length QPIX = 256%nat /\
  forall c, byte_ok c -> nth (Z.to_nat c) init_QP 0 = QP_ESC ->
            nth (Z.to_nat c) QPIX 0 = QP_ESC.

Lemma MIME_setQP_table qpchars t :
  MIME_setQP qpchars = Some t -> qp_table t.
Proof.
  assert (H0 : qp_table init_QP) by done. revert H0. unfold MIME_setQP.
  generalize init_QP at 1 2. induction qpchars as [|c q IH]; intros t0 H0; simpl.
  - by intros [= <-].
  - destruct (Z.ltb_spec (schar c) 0); [done|]. apply IH. destruct H0 as [Hl H0].
    split; [by rewrite length_insert|]. intros d Hd He. specialize (H0 d Hd He).
    rewrite nth_lookup in *.
    destruct (decide (Z.to_nat (schar c) = Z.to_nat d)) as [->|Hne].
    + rewrite list_lookup_insert_eq; [done|]. unfold byte_ok in Hd. lia.
    + by rewrite list_lookup_insert_ne.
Qed.

Lemma qp_table_eq QPIX : qp_table QPIX -> nth (Z.to_nat EQ) QPIX 0 = QP_ESC.
Proof. intros [_ H]. apply H; [done|]. by vm_compute. Qed.

(** ** Round trip *)

Lemma hexd_digits c :
  byte_ok c ->
  let a := hexd (Z.land 15 (Z.shiftr c 4)) in
  let b := hexd (Z.land 15 c) in
  (isxdigit a = true /\ isxdigit b = true /\ uchar (sscanf_x2 a b) = c) /\
  (32 < a < 127 /\ a <> EQ /\ a <> LF) /\ (32 < b < 127 /\ b <> EQ /\ b <> LF).
Proof.
  intros Hc.
  set (ok := fun x => (32 <? x) && (x <? 127) && negb (x =? EQ) && negb (x =? LF)).
  pose proof (zrange_all_spec 256 (fun c =>
    let a := hexd (Z.land 15 (Z.shiftr c 4)) in let b := hexd (Z.land 15 c) in
    isxdigit a && isxdigit b && (uchar (sscanf_x2 a b) =? c) && ok a && ok b)
    eq_refl c Hc) as H.
  cbv zeta in H. unfold ok in H. zprop. cbv zeta. split_and!; done || lia.
Qed.

Lemma hexd_not_crlf c : byte_ok c ->
  hexd (Z.land 15 (Z.shiftr c 4)) <> CR /\ hexd (Z.land 15 (Z.shiftr c 4)) <> LF.
Proof. intros Hc. destruct (hexd_digits c Hc) as (_ & H & _). unfold CR, LF. lia. Qed.

Lemma fromQP_escaped c r :
  byte_ok c ->
  fromQP_round (EQ :: hexd (Z.land 15 (Z.shiftr c 4)) :: hexd (Z.land 15 c) :: r)
  = Some ([c], r).
Proof.
  intros Hc. destruct (hexd_digits c Hc) as ((Ha & Hb & Hv) & _).
  destruct (hexd_not_crlf c Hc) as [H1 H2].
  unfold fromQP_round. rewrite (proj2 (Z.eqb_eq EQ EQ)) by done. cbn [negb].
  rewrite (proj2 (Z.eqb_neq _ CR)) by done. rewrite (proj2 (Z.eqb_neq _ LF)) by done.
  by rewrite Ha, Hb, Hv.
Qed.

Lemma fromQP_soft r : fromQP_round (EQ :: LF :: r) = Some ([], r).
Proof. reflexivity. Qed.

Lemma fromQP_plain c r : c <> EQ -> fromQP_round (c :: r) = Some ([c], r).
Proof. intros Hc. unfold fromQP_round. by rewrite (proj2 (Z.eqb_neq c EQ)). Qed.

(** What the encoder writes, as a function of the rest of the input. *)
Fixpoint qp_text (QPIX : list Z) (ocol : Z) (inp : list Z) : list Z :=
  match inp with
  | [] => if 0 <? ocol then [EQ; LF] else []
  | ich :: inp' =>
      (toQP_char QPIX ocol ich).1 ++ (toQP_soft (toQP_char QPIX ocol ich).2).1 ++
      qp_text QPIX (toQP_soft (toQP_char QPIX ocol ich).2).2 inp'
  end.

Lemma MIME_toQP_loop_text QPIX inp : forall ocol out,
  MIME_toQP_loop QPIX ocol inp out = out ++ qp_text QPIX ocol inp.
Proof.
  induction inp as [|c inp IH]; intros ocol out; cbn [MIME_toQP_loop qp_text].
  - destruct (0 <? ocol); [done|by rewrite app_nil_r].
  - destruct (toQP_char QPIX ocol c) as [o1 oc1] eqn:E1. simpl.
    destruct (toQP_soft oc1) as [o2 oc2] eqn:E2. simpl.
    by rewrite IH, <- !app_assoc.
Qed.

Lemma toQP_char_dec QPIX ocol c r : qp_table QPIX -> byte_ok c ->
  fromQP_round ((toQP_char QPIX ocol c).1 ++ r) = Some ([c], r).
Proof.
  intros Ht Hc. unfold toQP_char.
  destruct (_ || _) eqn:E; [by apply fromQP_escaped|].
  assert (c <> EQ).
  { intros ->. rewrite (qp_table_eq _ Ht) in E. done. }
  by destruct (c =? LF); apply fromQP_plain.
Qed.

Lemma fromQP_text QPIX inp : qp_table QPIX -> bytes_ok inp -> forall fuel ocol out,
  (length (qp_text QPIX ocol inp) < fuel)%nat ->
  MIME_fromQP_loop fuel (qp_text QPIX ocol inp) out = Some (out ++ inp).
Proof.
  intros Ht. induction 1 as [|c inp Hc _ IH]; intros fuel ocol out Hf; cbn [qp_text] in *.
  - destruct (0 <? ocol).
    + destruct fuel as [|[|fuel]]; simpl in Hf; [lia..|]. cbn [MIME_fromQP_loop].
      by rewrite fromQP_soft.
    + destruct fuel; simpl in Hf; [lia|]. simpl. by rewrite app_nil_r.
  - destruct fuel as [|fuel]; [lia|]. cbn [MIME_fromQP_loop].
    rewrite toQP_char_dec by done.
    assert (Hn : (1 <= length (toQP_char QPIX ocol c).1)%nat).
    { unfold toQP_char. destruct (_ || _); [simpl; lia|]. destruct (c =? LF); simpl; lia. }
    rewrite !length_app in Hf.
    unfold toQP_soft in *. destruct (72 <? _).
    + cbn [fst snd app length] in *. destruct fuel as [|fuel]; [lia|].
      cbn [MIME_fromQP_loop]. rewrite fromQP_soft, app_nil_r, IH by lia.
      by rewrite <- app_assoc.
    + cbn [fst snd app length] in *. rewrite IH by lia. by rewrite <- app_assoc.
Qed.

(** Quoted-Printable round trip: whatever characters [MIME_setQP] adds
    to the escaped ones, decoding the encoded form of any byte stream
    terminates and gives the stream back. *)
Theorem MIME_QP_roundtrip (qpchars QPIX s : list Z) :
  MIME_setQP qpchars = Some QPIX -> bytes_ok s ->
  MIME_fromQP (MIME_toQP QPIX s) = Some s.
Proof.
  intros Hq Hs. unfold MIME_toQP. rewrite MIME_toQP_loop_text. unfold MIME_fromQP.
  apply (fromQP_text QPIX s); [by eapply MIME_setQP_table|done|simpl; lia].
Qed.

Lemma MIME_QP_roundtrip_witness :
  MIME_fromQP (MIME_toQP (<[Z.to_nat 35 := QP_ESC]> init_QP) (cs "a#=b")) = Some (cs "a#=b").
Proof.
  apply (MIME_QP_roundtrip (cs "#")); [by vm_compute|by apply (bool_decide_unpack _)].
Defined.

(** ** The shape of the encoded text *)

(** [qp_lines n k t]: every line of [t] is at most [n] characters long, the
    first one at most [k] more characters; no line that is begun in [t]
    starts with a dot; all characters are line ends or pass 7-bit mail. *)
Definition qp_plain (c : Z) : Prop :=
  c < 128 /\ (iscntrl c = true -> isspace c = true).
Inductive qp_lines : Z -> list Z -> Prop :=
| qpl_nil col : qp_lines col []
| qpl_nl col t : qp_lines 0 t -> qp_lines col (LF :: t)
| qpl_char col c t : c <> LF -> qp_plain c -> col < 76 -> (col = 0 -> c <> 46) ->
    qp_lines (col + 1) t -> qp_lines col (c :: t).

Lemma hexd_line col c t : byte_ok c -> 0 < col -> col + 2 <= 76 ->
  qp_lines (col + 2) t ->
  qp_lines col (hexd (Z.land 15 (Z.shiftr c 4)) :: hexd (Z.land 15 c) :: t).
Proof.
  intros Hc H0 Hcol Ht. destruct (hexd_digits c Hc) as (_ & Ha & Hb).
  assert (Hp : forall x, 32 < x < 127 -> qp_plain x).
  { intros x Hx. split; [lia|]. unfold iscntrl. lia. }
  apply qpl_char; [tauto|apply Hp; lia|lia|lia|].
  apply qpl_char; [tauto|apply Hp; lia|lia|lia|].
  by replace (col + 1 + 1) with (col + 2) by lia.
Qed.

Lemma qp_thru QPIX c : qp_table QPIX -> byte_ok c ->
  (nth (Z.to_nat c) QPIX 0 =? QP_ESC) = false -> qp_plain c.
Proof.
  intros [_ Ht] Hc E. apply Z.eqb_neq in E. specialize (Ht c Hc).
  assert (H : nth (Z.to_nat c) init_QP 0 <> QP_ESC) by tauto.
  pose proof (zrange_all_spec 256 (fun c => (nth (Z.to_nat c) init_QP 0 =? QP_ESC)
    || (c <? 128) && (negb (iscntrl c) || isspace c)) eq_refl c Hc) as Hr.
  cbv beta in Hr. rewrite (proj2 (Z.eqb_neq _ QP_ESC)) in Hr by done. simpl in Hr.
  zprop. split; [done|]. intros Hi. by rewrite Hi in *.
Qed.

Lemma qp_text_lines QPIX inp : qp_table QPIX -> bytes_ok inp -> forall ocol,
  0 <= ocol <= 72 -> qp_lines ocol (qp_text QPIX ocol inp).
Proof.
  assert (HE : qp_plain EQ) by (split; [by compute|by compute]).
  intros Ht. induction 1 as [|c inp Hc _ IH]; intros ocol Ho; cbn [qp_text].
  - destruct (Z.ltb_spec 0 ocol); [|constructor].
    apply qpl_char; [done..|lia|lia|]. repeat constructor.
  - assert (Hsoft : forall col, 0 < col <= 75 ->
      qp_lines col ((toQP_soft col).1 ++ qp_text QPIX (toQP_soft col).2 inp)).
    { intros col Hcol. unfold toQP_soft. destruct (Z.ltb_spec 72 col); cbn [fst snd app].
      - apply qpl_char; [done..|lia|lia|]. constructor. apply IH. lia.
      - apply IH. lia. }
    unfold toQP_char. destruct (_ =? QP_ESC) eqn:E1; cbn [orb].
    + cbn [fst snd app]. apply qpl_char; [done..|lia|done|].
      apply hexd_line; [done|lia|lia|].
      replace (ocol + 1 + 2) with (ocol + 3) by lia. apply Hsoft. lia.
    + pose proof (qp_thru QPIX c Ht Hc E1).
      destruct ((ocol =? 0) && (c =? 46)) eqn:E2.
      * cbn [fst snd app]. apply qpl_char; [done..|lia|done|].
        apply hexd_line; [done|lia|lia|].
        replace (ocol + 1 + 2) with (ocol + 3) by lia. apply Hsoft. lia.
      * destruct (Z.eqb_spec c LF) as [->|Hn]; cbn [fst snd app].
        -- constructor. unfold toQP_soft. simpl. apply IH. lia.
        -- apply qpl_char; [done..|lia|lia|]. apply Hsoft. lia.
Qed.

(** The encoded text is safe for 7-bit mail: no line is longer than 76
    characters, no line starts with a dot (the end mark of SMTP), and every
    character is ASCII and not a control character other than white space. *)
Theorem MIME_toQP_mailsafe (qpchars QPIX s : list Z) :
  MIME_setQP qpchars = Some QPIX -> bytes_ok s -> qp_lines 0 (MIME_toQP QPIX s).
Proof.
  intros Hq Hs. unfold MIME_toQP. rewrite MIME_toQP_loop_text.
  apply qp_text_lines; [eapply MIME_setQP_table; done|done|lia].
Qed.

Lemma MIME_toQP_mailsafe_witness : qp_lines 0 (MIME_toQP init_QP (cs ".a=b")).
Proof.
  apply (MIME_toQP_mailsafe []); [done|by apply (bool_decide_unpack _)].
Defined.
