(* ===== verification/Strings.v ===== *)
(** * String routines ([rary/String.cpp])

    Comparison, searching and scanning of C strings.  A pointer into a string
    is the suffix it points at; a null pointer is [None].  The scanners that
    store into a bounded string use [VStr] and are related to functions on
    lists by theorems, so that clients can work with lists. *)
From S2P Require Import Prelude VStr.
From stdpp Require Import options.

Definition INT_MAX : Z := 2147483647.
Definition LLONG_MAX : Z := 2 ^ 63 - 1.
Definition LLONG_MIN : Z := - 2 ^ 63.

(** What [strcpy] leaves of a string in an array of [n] characters
    ([VStr.Xstrcpy]). *)
Definition clip (n : nat) (s : list Z) : list Z := take (n - 1) s.
Lemma clip_fits n s : (length s < n)%nat -> clip n s = s.
Proof. intros H. apply take_ge. lia. Qed.
Lemma clip_zlen n s : zlen s < Z.of_nat n -> clip n s = s.
Proof. unfold zlen. intros H. apply clip_fits. lia. Qed.

(** ** Comparison *)

Definition streq (a b : list Z) : bool := bool_decide (a = b).
Definition strneq (a b : list Z) (n : nat) : bool :=
  (cat a 0 =? cat b 0) && bool_decide (take n a = take n b).
Definition strcasecmp_eq (a b : list Z) : bool :=
  bool_decide (map tolower a = map tolower b).
Definition strcaseeq (a b : list Z) : bool :=
  (toupper (cat a 0) =? toupper (cat b 0)) && strcasecmp_eq a b.
Definition strncaseeq (a b : list Z) (n : nat) : bool := strcasecmp_eq (take n a) (take n b).

(** The C library's [strstr]: the suffix that begins with the pattern. *)
Fixpoint is_prefix (p s : list Z) : bool :=
  match p, s with
  | [], _ => true
  | c :: p', d :: s' => (c =? d) && is_prefix p' s'
  | _ :: _, [] => false
  end.
Fixpoint strstr (s p : list Z) : option (list Z) :=
  if is_prefix p s then Some s
  else match s with [] => None | _ :: s' => strstr s' p end.

Definition strtailchr (s : list Z) : Z := List.last s 0.

Definition chrcaseeq (a b : Z) : bool := tolower a =? tolower b.

(** [strtailstrX]: both strings are walked from their last characters;
    [r1] and [r2] are what is left of them, last character first, and [acc]
    is the part of [str1] that has been compared. *)
Fixpoint strtailstr_loop (igncase : bool) (r1 r2 acc : list Z) : option (list Z) :=
  match r1, r2 with
  | c1 :: r1', c2 :: r2' =>
      if (c1 =? c2) || igncase && chrcaseeq c1 c2
      then match r2' with
           | [] => Some (c1 :: acc)
           | _ => match r1' with
                  | [] => None
                  | _ => strtailstr_loop igncase r1' r2' (c1 :: acc)
                  end
           end
      else None
  | _, _ => None
  end.
Definition strtailstrX (str1 str2 : list Z) (igncase : bool) : option (list Z) :=
  match str2 with
  | [] => Some []
  | _ => strtailstr_loop igncase (rev str1) (rev str2) []
  end.
Definition strtailstr (str1 str2 : list Z) : option (list Z) := strtailstrX str1 str2 false.

(** [strheadstrX]: what follows [str2] in [str1].  At the ends of both strings
    the NULs are equal and the pointers go on behind them; [str2] is not
    empty in the loop, so its end is found first. *)
Fixpoint strheadstr_loop (igncase : bool) (s1 s2 : list Z) : option (list Z) :=
  match s2 with
  | [] => None
  | c2 :: s2' =>
      let c1 := cat s1 0 in
      if (c1 =? c2) || igncase && chrcaseeq c1 c2
      then match s2' with
           | [] => Some (tl s1)
           | _ => strheadstr_loop igncase (tl s1) s2'
           end
      else None
  end.
Definition strheadstrX (str1 str2 : list Z) (igncase : bool) : option (list Z) :=
  match str2 with [] => Some str1 | _ => strheadstr_loop igncase str1 str2 end.

(** ** Numbers *)

Definition isdigits (str : list Z) : bool :=
  match str with [] => false | _ => forallb isdigit str end.
Definition isdigit2 (str : list Z) : bool := isdigit (cat str 0) && isdigit (cat str 1).

Fixpoint skip_digits (s : list Z) : list Z :=
  match s with
  | c :: s' => if isdigit c then skip_digits s' else s
  | [] => []
  end.
(** [Isnumber]: the end of the number, [None] when there is none. *)
Definition Isnumber (str : list Z) : option (list Z) :=
  let str := if ((cat str 0 =? 45) || (cat str 0 =? 43)) && isdigit (cat str 1)
             then tl str else str in
  if isdigit (cat str 0) then Some (skip_digits str) else None.

(** The value of a run of digits. *)
Fixpoint dec_value (acc : Z) (s : list Z) : Z :=
  match s with
  | c :: s' => if isdigit c then dec_value (acc * 10 + (c - 48)) s' else acc
  | [] => acc
  end.

(** [scanint]: [__builtin_mul_overflow] and [__builtin_add_overflow] on [int];
    both operands are not negative. *)
Fixpoint scanint_loop (val : Z) (sp : list Z) : Z * list Z :=
  match sp with
  | ch :: sp' =>
      if negb (isdigit ch) then (val, sp)
      else
        let m := val * 10 in
        let a := m + (ch - 48) in
        scanint_loop
          (if (INT_MAX <? m) || (INT_MAX <? a) then INT_MAX else a) sp'
  | [] => (val, [])
  end.
Definition scanint (str : list Z) : Z * list Z := scanint_loop 0 str.

Definition clamp64 (z : Z) : Z := Z.max LLONG_MIN (Z.min LLONG_MAX z).
Definition fits64 (z : Z) : bool := (LLONG_MIN <=? z) && (z <=? LLONG_MAX).

(** The C library: [std::from_chars] on a 64-bit integer, which reads a minus
    sign and digits, and gives [None] for a value out of range; [strtol],
    [atoi] and the [%d] of [sscanf], which convert a clamped [long] to [int]. *)
Definition from_chars (s : list Z) : option Z :=
  let v := if cat s 0 =? 45 then - dec_value 0 (tl s) else dec_value 0 s in
  if fits64 v then Some v else None.
Fixpoint skip_spaces (s : list Z) : list Z :=
  match s with
  | c :: s' => if isspace c then skip_spaces s' else s
  | [] => []
  end.
Definition scan_d (s : list Z) : option (Z * list Z) :=
  let s := skip_spaces s in
  let neg := cat s 0 =? 45 in
  let s := if neg || (cat s 0 =? 43) then tl s else s in
  if isdigit (cat s 0)
  then Some (s32 (clamp64 (if neg then - dec_value 0 s else dec_value 0 s)), skip_digits s)
  else None.
Definition atoi (s : list Z) : Z := match scan_d s with Some (v, _) => v | None => 0 end.

(** [%d] of [printf], for an [int]. *)
Fixpoint fmt_u_loop (fuel : nat) (z : Z) (acc : list Z) : list Z :=
  match fuel with
  | O => acc
  | S fuel' => let acc := (48 + z mod 10) :: acc in
               if z / 10 =? 0 then acc else fmt_u_loop fuel' (z / 10) acc
  end.
Definition fmt_d (z : Z) : list Z :=
  if z <? 0 then 45 :: fmt_u_loop 10 (- z) [] else fmt_u_loop 10 z [].
Definition fmt_4d (a b c d : Z) : list Z :=
  fmt_d a ++ 46 :: fmt_d b ++ 46 :: fmt_d c ++ 46 :: fmt_d d.

(** [sscanf(s,"%d.%d.%d.%d",...)] with the result 4. *)
Definition scan_dot (s : list Z) : option (Z * list Z) :=
  '(v, r) ← scan_d s; if cat r 0 =? 46 then Some (v, tl r) else None.
Definition scan_4d (addr : list Z) : option (Z * Z * Z * Z) :=
  '(a, r) ← scan_dot addr; '(b, r) ← scan_dot r; '(c, r) ← scan_dot r; '(d, _) ← scan_d r;
  Some (a, b, c, d).

(** [strcasestr(s,t) != 0] of the C library. *)
Definition strcasestr (s t : list Z) : bool :=
  bool_decide (strstr (map tolower s) (map tolower t) <> None).

(** [strchrX]: the first [fch] that is outside of the brackets of [inc] and
    [dec]. *)
Fixpoint strchrX_loop (lev : Z) (str : list Z) (fch : Z) (inc dec : list Z) : option (list Z) :=
  match str with
  | [] => None
  | ch :: str' =>
      if existsb (Z.eqb ch) inc then strchrX_loop (lev + 1) str' fch inc dec
      else if existsb (Z.eqb ch) dec
      then strchrX_loop (if 0 <? lev then lev - 1 else lev) str' fch inc dec
      else if (ch =? fch) && (lev =? 0) then Some str
      else strchrX_loop lev str' fch inc dec
  end.
Definition strchrX (str : list Z) (fch : Z) (inc dec : list Z) : option (list Z) :=
  strchrX_loop 0 str fch inc dec.

(** [kmxatoi]: a number with a unit, saturating at the limits of [FileSize]. *)
Definition kmxatoi (ai : list Z) : Z :=
  let neg := cat ai 0 =? 45 in
  let limit := if neg then LLONG_MIN else LLONG_MAX in
  match Isnumber ai with
  | None => 0
  | Some dp =>
      let bp := if cat ai 0 =? 43 then tl ai else ai in
      let n := match from_chars bp with Some n => n | None => limit end in
      let c := cat dp 0 in
      let unit :=
        if (c =? 107) || (c =? 75) then 1024
        else if (c =? 109) || (c =? 77) then 1024 * 1024
        else if (c =? 103) || (c =? 71) then 1024 * 1024 * 1024
        else 1 in
      if fits64 (n * unit) then n * unit else limit
  end.

(** [numscan] reads a signed number; its value wraps around like an [int]. *)
Fixpoint numscan_loop (width : Z) (sp : list Z) : Z * list Z :=
  match sp with
  | sc :: sp' => if isdigit sc then numscan_loop (s32 (width * 10 + (sc - 48))) sp'
                 else (width, sp)
  | [] => (width, [])
  end.
Definition numscan (spp : list Z) : Z * list Z :=
  let neg := cat spp 0 =? 45 in
  let '(width, sp) := numscan_loop 0 (if neg then tl spp else spp) in
  (s32 (if neg then - width else width), sp).

(** [FQDN_hash] rotates a 32-bit word. *)
Fixpoint FQDN_hash_loop (kx : Z) (ks : list Z) : Z :=
  match ks with
  | kc :: ks' =>
      let ky := Z.land (Z.shiftr kx 27) 31 in
      FQDN_hash_loop (Z.lxor (Z.lor (u32 (Z.shiftl kx 5)) ky) kc) ks'
  | [] => kx
  end.
Definition FQDN_hash (key : list Z) : Z := FQDN_hash_loop 0 key.

(** [strip_spaces]: blanks before, spaces only behind. *)
Fixpoint skip_blanks (s : list Z) : list Z :=
  match s with
  | c :: s' => if (c =? SP) || (c =? TAB) then skip_blanks s' else s
  | [] => []
  end.
Fixpoint skip_sp (s : list Z) : list Z :=
  match s with
  | c :: s' => if c =? SP then skip_sp s' else s
  | [] => []
  end.
Definition strip_spaces (value : list Z) : list Z := rev (skip_sp (rev (skip_blanks value))).

(** ** Scanning into bounded strings *)

(** [wordscanY]: [sp] structurally; [xp] is the last position to store at.
    [pat] is the character set, [Not] the flag of a leading [^]. *)
Definition in_pat (pat : option (list Z)) (Not : bool) (ch : Z) : bool :=
  match pat with
  | None => true
  | Some pat => if Not then negb (strchr pat ch) else strchr pat ch
  end.
Fixpoint wordscanY_loop (pat : option (list Z)) (Not : bool) (xp : Z) (vp : vstr)
  (sp : list Z) : vstr * list Z :=
  match sp with
  | ch :: sp' =>
      if (v_pos vp <? xp) && in_pat pat Not ch
      then wordscanY_loop pat Not xp (setVStrPtrInc vp ch) sp'
      else (vp, sp)
  | [] => (vp, [])
  end.
Definition wordscanY (str : list Z) (val : vstr) (siz : Z) (pat : option (list Z))
  : vstr * list Z :=
  let '(pat, Not) := match pat with
                     | Some (c :: pat') => if c =? 94 then (Some pat', true)
                                           else (Some (c :: pat'), false)
                     | _ => (pat, false)
                     end in
  let '(vp, sp) := wordscanY_loop pat Not (v_pos val + (siz - 1)) val str in
  (setVStrEnd vp 0, sp).

Definition valuescanX (str : list Z) (val : vstr) (siz : Z) : vstr * list Z :=
  if cat str 0 =? 34 then wordscanY (tl str) val siz (Some [94; 34])
  else wordscanY str val siz (Some ([94; 59; 32; 9; 13; 10; 62; 34])).
Definition valuescanY (str : list Z) (val : vstr) (siz : Z) : vstr * list Z :=
  if cat str 0 =? 39 then wordscanY (tl str) val siz (Some [94; 39])
  else valuescanX str val siz.
Definition numscanX (str : list Z) (val : vstr) (siz : Z) : vstr * list Z :=
  if cat str 0 =? 45
  then wordscanY (tl str) (setVStrPtrInc val 45) (siz - 1) (Some (cs ".0123456789"))
  else wordscanY str val siz (Some (cs ".0123456789")).

(** [wordscanX]: a word up to white space; [size] 0 is no limit. *)
Definition is_wsp (ch : Z) : bool :=
  (ch =? 32) || (ch =? 9) || (ch =? 13) || (ch =? 10) || (ch =? 12).
Fixpoint skip_wsp (s : list Z) : list Z :=
  match s with
  | c :: s' => if is_wsp c then skip_wsp s' else s
  | [] => []
  end.
Fixpoint wordscanX_loop (size cc : Z) (d : vstr) (s : list Z) : vstr * list Z :=
  match s with
  | ch :: s' =>
      if negb ((size =? 0) || (cc <? size)) || is_wsp ch then (d, s)
      else wordscanX_loop size (cc + 1) (setVStrPtrInc d ch) s'
  | [] => (d, [])
  end.
Definition wordscanX (s : list Z) (d : vstr) (size : Z) : vstr * list Z :=
  let '(d, s) := wordscanX_loop size 1 d (skip_wsp s) in
  (setVStrEnd d 0, s).

(** [linescanX]: up to the end of the line, which is LF, or CR before LF or
    at the end. *)
Fixpoint linescanX_loop (size cc : Z) (d : vstr) (s : list Z) : vstr * list Z :=
  match s with
  | ch :: s' =>
      if negb (cc <? size) ||
         ((ch =? LF) || (ch =? CR) && ((cat s' 0 =? LF) || (cat s' 0 =? 0)))
      then (d, s)
      else linescanX_loop size (cc + 1) (setVStrPtrInc d ch) s'
  | [] => (d, [])
  end.
Definition linescanX (s : list Z) (d : vstr) (size : Z) : vstr * list Z :=
  let '(d, s) := linescanX_loop size 1 d (skip_blanks s) in
  (setVStrEnd d 0, s).

(** [sgetsX]: one line of a string; [cr] and [lf] keep the line end. *)
Fixpoint sgetsX_loop (cr lf : bool) (op : vstr) (sp : list Z) : vstr * list Z :=
  match sp with
  | sc :: sp' =>
      if sc =? CR then sgetsX_loop cr lf (if cr then setVStrPtrInc op sc else op) sp'
      else if sc =? LF then (if lf then setVStrPtrInc op sc else op, sp')
      else sgetsX_loop cr lf (setVStrPtrInc op sc) sp'
  | [] => (op, [])
  end.
Definition sgetsX (src : list Z) (line : vstr) (cr lf : bool) : vstr * list Z :=
  let '(op, sp) := sgetsX_loop cr lf line src in (setVStrEnd op 0, sp).

(** [awordscanX]: letters; the character is an [unsigned char]. *)
Fixpoint awordscanX_loop (ox : Z) (wp : vstr) (sp : list Z) : vstr * list Z :=
  match sp with
  | ch :: sp' => if (v_pos wp <? ox) && isalpha ch
                 then awordscanX_loop ox (setVStrPtrInc wp ch) sp' else (wp, sp)
  | [] => (wp, [])
  end.
Definition awordscanX (str : list Z) (word : vstr) (size : Z) : vstr * list Z :=
  let '(wp, sp) := awordscanX_loop (v_pos word + (size - 1)) word str in
  (setVStrEnd wp 0, sp).

(** ** What the routines compute *)

Lemma is_prefix_spec p s : is_prefix p s = true <-> exists r, s = p ++ r.
Proof.
  revert s. induction p as [|c p IH]; intros s; simpl; [split; eauto|].
  destruct s as [|d s]; [by split; [|intros [r [=]]]|].
  rewrite andb_true_iff, Z.eqb_eq, IH. split.
  - intros [-> [r ->]]. eauto.
  - intros [r [= -> ->]]. eauto.
Qed.

Lemma strstr_spec s p :
  match strstr s p with
  | Some r => exists a b, s = a ++ r /\ r = p ++ b
  | None => forall a b, s <> a ++ p ++ b
  end.
Proof.
  induction s as [|c s IH]; simpl.
  - destruct (is_prefix p []) eqn:E.
    + apply is_prefix_spec in E as [r E]. by exists [], r.
    + intros a b Es. symmetry in Es. apply app_nil in Es as [_ Es].
      assert (is_prefix p [] = true) by (apply is_prefix_spec; eauto). congruence.
  - destruct (is_prefix p (c :: s)) eqn:E.
    + apply is_prefix_spec in E as [r E]. by exists [], r.
    + destruct (strstr s p).
      * destruct IH as (a & b & -> & ->). by exists (c :: a), b.
      * intros [|d a] b Es; simpl in Es.
        -- assert (is_prefix p (c :: s) = true) by (apply is_prefix_spec; eauto). congruence.
        -- injection Es as -> ->. by eapply IH.
Qed.

Lemma dec_value_mono acc s : 0 <= acc -> acc <= dec_value acc s.
Proof.
  revert acc. induction s as [|c s IH]; intros acc Ha; simpl; [lia|].
  destruct (isdigit c) eqn:E; [|lia]. unfold isdigit in E. zprop.
  etransitivity; [|apply IH]; lia.
Qed.

Lemma scanint_loop_spec sp val acc :
  0 <= acc -> val = Z.min INT_MAX acc ->
  scanint_loop val sp = (Z.min INT_MAX (dec_value acc sp), skip_digits sp).
Proof.
  unfold INT_MAX. revert val acc. induction sp as [|c sp IH]; intros val acc Ha ->; [done|].
  cbn [scanint_loop dec_value skip_digits]. destruct (isdigit c) eqn:E; [|done].
  cbn [negb]. unfold isdigit in E. zprop. apply IH; [lia|]. unfold INT_MAX. zcases.
Qed.

Lemma clamp64_scale n u : 0 < u -> clamp64 (clamp64 n * u) = clamp64 (n * u).
Proof. unfold clamp64, LLONG_MIN, LLONG_MAX. nia. Qed.

(** The value of a number with its sign, and the power of two of a unit. *)
Definition signed_value (s : list Z) : Z :=
  if cat s 0 =? 45 then - dec_value 0 (tl s)
  else dec_value 0 (if cat s 0 =? 43 then tl s else s).
Definition unit_bits (c : Z) : Z :=
  match find (fun p => existsb (Z.eqb c) p.1) [(cs "kK", 10); (cs "mM", 20); (cs "gG", 30)] with
  | Some p => p.2
  | None => 0
  end.

Lemma unit_bits_nonneg c : 0 <= unit_bits c.
Proof. unfold unit_bits. simpl. repeat (destruct (_ || _); [simpl; lia|]). done. Qed.

Lemma fits64_clamp z : clamp64 z = if fits64 z then z else if z <? 0 then LLONG_MIN else LLONG_MAX.
Proof.
  unfold clamp64, fits64, LLONG_MIN, LLONG_MAX.
  destruct (Z.leb_spec (- 2 ^ 63) z), (Z.leb_spec z (2 ^ 63 - 1)); simpl andb; cbv iota;
    try lia; destruct (Z.ltb_spec z 0); lia.
Qed.

(** A saturating result is the clamped value when the limit has its sign. *)
Lemma saturate_clamp (neg : bool) v :
  (if neg then v <= 0 else 0 <= v) ->
  (if fits64 v then v else if neg then LLONG_MIN else LLONG_MAX) = clamp64 v.
Proof.
  intros Hs. rewrite fits64_clamp. destruct (fits64 v) eqn:E; [done|].
  unfold fits64, LLONG_MIN, LLONG_MAX in *. destruct neg, (Z.ltb_spec v 0); try done; lia.
Qed.

Lemma signed_value_sign s :
  if cat s 0 =? 45 then signed_value s <= 0 else 0 <= signed_value s.
Proof.
  unfold signed_value. destruct (cat s 0 =? 45).
  - pose proof (dec_value_mono 0 (tl s)). lia.
  - apply dec_value_mono. lia.
Qed.

Lemma from_chars_signed s dp : Isnumber s = Some dp ->
  from_chars (if cat s 0 =? 43 then tl s else s) =
  if fits64 (signed_value s) then Some (signed_value s) else None.
Proof.
  intros En. unfold from_chars.
  assert (E : (cat (if cat s 0 =? 43 then tl s else s) 0 =? 45) = (cat s 0 =? 45)).
  { destruct (Z.eqb_spec (cat s 0) 43) as [H43|]; [|done]. rewrite H43. apply Z.eqb_neq.
    unfold Isnumber in En. rewrite H43 in En. destruct s as [|c [|d s]]; [done|done|].
    simpl tl. change (cat (c :: d :: s) 1) with d in En. rewrite cat_0 in *.
    destruct (isdigit d) eqn:Ed; [unfold isdigit in Ed; zprop; lia|].
    simpl in En. rewrite H43 in En. done. }
  rewrite E. unfold signed_value. destruct (Z.eqb_spec (cat s 0) 45) as [->|]; done.
Qed.

(** ** Printed numbers

    A number that is printed and read again is the same. *)

Lemma fmt_u_loop_spec n : forall z acc, 0 <= z < 10 ^ Z.of_nat n -> (0 < n)%nat ->
  exists ds, fmt_u_loop n z acc = ds ++ acc /\ ds <> [] /\
    Forall (fun c => isdigit c = true) ds /\
    (0 < z -> cat ds 0 <> 48 /\ 10 ^ (zlen ds - 1) <= z) /\ (z = 0 -> ds = [48]) /\
    forall a r, dec_value a (ds ++ r) = dec_value (a * 10 ^ zlen ds + z) r.
Proof.
  induction n as [|n IH]; intros z acc Hz Hn; [lia|]. simpl.
  assert (Hd : isdigit (48 + z mod 10) = true).
  { unfold isdigit. pose proof (Z.mod_pos_bound z 10). lia. }
  destruct (Z.eqb_spec (z / 10) 0) as [E|E].
  - assert (z < 10) by (apply Z.div_small_iff in E; lia).
    rewrite (Z.mod_small z 10) in * by lia.
    exists [48 + z]. change (zlen [48 + z]) with 1. split_and!; try done.
    + by repeat constructor.
    + intros ?. rewrite cat_0. change (10 ^ (1 - 1)) with 1. lia.
    + by intros ->.
    + intros a r. simpl. rewrite Hd. f_equal. lia.
  - assert (10 <= z) by (pose proof (Z.div_small z 10); lia).
    assert (Hq : 0 <= z / 10 < 10 ^ Z.of_nat n).
    { split; [apply Z.div_pos; lia|]. apply Z.div_lt_upper_bound; [lia|].
      rewrite Nat2Z.inj_succ, Z.pow_succ_r in Hz by lia. lia. }
    assert (0 < n)%nat by (destruct n; [simpl in Hq; lia|lia]).
    destruct (IH (z / 10) ((48 + z mod 10) :: acc) Hq) as (ds & -> & Hne & Hds & Hh & Hz0 & Hv); [lia|].
    assert (Hl : 1 <= zlen ds) by (destruct ds; [done|rewrite zlen_cons; pose proof (zlen_nonneg ds); lia]).
    pose proof (Z.div_mod z 10). pose proof (Z.mod_pos_bound z 10).
    exists (ds ++ [48 + z mod 10]). rewrite <- app_assoc, zlen_app. change (zlen [_]) with 1.
    split_and!; try done.
    + by destruct ds.
    + apply Forall_app. split; [done|by repeat constructor].
    + intros _. destruct Hh as [Hh1 Hh2]; [lia|]. split; [by destruct ds|].
      replace (zlen ds + 1 - 1) with (Z.succ (zlen ds - 1)) by lia.
      rewrite Z.pow_succ_r by lia. lia.
    + lia.
    + intros a r. rewrite <- app_assoc, Hv. simpl. rewrite Hd. f_equal.
      rewrite Z.pow_add_r by lia. lia.
Qed.

Lemma fmt_d_length z : (length (fmt_d z) <= 11)%nat.
Proof.
  assert (H : forall n z acc, (length (fmt_u_loop n z acc) <= n + length acc)%nat).
  { induction n as [|n IH]; intros x acc; cbn [fmt_u_loop]; [lia|].
    destruct (_ =? 0); [simpl; lia|]. specialize (IH (x / 10) ((48 + x mod 10) :: acc)). simpl in *. lia. }
  unfold fmt_d. destruct (z <? 0); [cbn [length]; specialize (H 10%nat (- z) [])|specialize (H 10%nat z [])];
    simpl length in *; lia.
Qed.

(** The digits of a number that is not negative. *)
Lemma fmt_d_spec z : 0 <= z < 2 ^ 31 ->
  fmt_d z <> [] /\ Forall (fun c => isdigit c = true) (fmt_d z) /\
  (0 < z -> cat (fmt_d z) 0 <> 48) /\ (z = 0 -> fmt_d z = [48]) /\
  (z < 1000 -> zlen (fmt_d z) <= 3) /\ (z < 100000 -> zlen (fmt_d z) <= 5) /\
  forall a r, dec_value a (fmt_d z ++ r) = dec_value (a * 10 ^ zlen (fmt_d z) + z) r.
Proof.
  intros Hz. unfold fmt_d. rewrite (proj2 (Z.ltb_ge z 0)) by lia.
  destruct (fmt_u_loop_spec 10 z []) as (ds & -> & Hne & Hds & Hh & Hz0 & Hv); [simpl; lia|lia|].
  rewrite app_nil_r.
  assert (Hlen : forall k, 0 <= k -> 0 < z < 10 ^ k -> zlen ds <= k).
  { intros k Hk Hzk. destruct Hh as [_ Hh]; [lia|].
    apply Z.le_ngt. intros Hgt. assert (10 ^ k <= 10 ^ (zlen ds - 1)); [|lia].
    apply Z.pow_le_mono_r; lia. }
  split_and!; try done.
  - by intros ?; apply Hh.
  - intros ?. destruct (decide (z = 0)) as [E|E]; [by rewrite (Hz0 E)|]. apply Hlen; lia.
  - intros ?. destruct (decide (z = 0)) as [E|E]; [by rewrite (Hz0 E)|]. apply Hlen; lia.
Qed.

Lemma fmt_d_nonempty z : 0 <= z < 2 ^ 31 -> exists d ds, fmt_d z = d :: ds /\ isdigit d = true.
Proof.
  intros Hz. destruct (fmt_d_spec z Hz) as (Hne & Hds & _).
  destruct (fmt_d z) as [|d ds]; [done|]. apply Forall_cons in Hds as [? _]. by exists d, ds.
Qed.

Lemma dec_value_stop a r : isdigit (cat r 0) = false -> dec_value a r = a.
Proof. destruct r as [|c r]; [done|]. simpl. change (cat (c :: r) 0) with c. by intros ->. Qed.

Lemma dec_value_fmt_d z r : 0 <= z < 2 ^ 31 -> isdigit (cat r 0) = false ->
  dec_value 0 (fmt_d z ++ r) = z.
Proof.
  intros Hz Hr. destruct (fmt_d_spec z Hz) as (_ & _ & _ & _ & _ & _ & Hv).
  rewrite Hv, dec_value_stop by done. lia.
Qed.

Lemma skip_digits_app ds r : Forall (fun c => isdigit c = true) ds ->
  isdigit (cat r 0) = false -> skip_digits (ds ++ r) = r.
Proof.
  intros Hds Hr. induction Hds as [|c ds Hc _ IH]; simpl; [|by rewrite Hc].
  destruct r as [|c r]; [done|]. simpl. change (cat (c :: r) 0) with c in Hr. by rewrite Hr.
Qed.

Lemma scan_d_digits d r : isdigit d = true ->
  scan_d (d :: r) = Some (s32 (clamp64 (dec_value 0 (d :: r))), skip_digits (d :: r)).
Proof.
  intros Hd. unfold scan_d.
  assert (Hs : isspace d = false) by (revert Hd; unfold isdigit, isspace; lia).
  assert (H1 : (d =? 45) = false) by (revert Hd; unfold isdigit; lia).
  assert (H2 : (d =? 43) = false) by (revert Hd; unfold isdigit; lia).
  assert (Es : skip_spaces (d :: r) = d :: r) by (simpl; by rewrite Hs).
  cbv zeta. rewrite Es. change (cat (d :: r) 0) with d. rewrite H1, H2.
  change (cat (if false || false then tail (d :: r) else d :: r) 0) with d. by rewrite Hd.
Qed.

Lemma s32_clamp_id z : 0 <= z < 2 ^ 31 -> s32 (clamp64 z) = z.
Proof.
  intros Hz. unfold clamp64, LLONG_MIN, LLONG_MAX.
  rewrite Z.min_r, Z.max_r by lia. unfold s32. rewrite Z.mod_small by lia. lia.
Qed.

Lemma scan_d_fmt_d z r : 0 <= z < 2 ^ 31 -> isdigit (cat r 0) = false ->
  scan_d (fmt_d z ++ r) = Some (z, r).
Proof.
  intros Hz Hr. pose proof (dec_value_fmt_d z r Hz Hr) as Hv.
  destruct (fmt_d_spec z Hz) as (_ & Hds & _).
  destruct (fmt_d_nonempty z Hz) as (d & ds & E & Hd). rewrite E in *. simpl app in *.
  rewrite scan_d_digits by done. rewrite Hv, s32_clamp_id by done.
  f_equal. f_equal. by apply (skip_digits_app (d :: ds)).
Qed.

Lemma atoi_fmt_d z : 0 <= z < 2 ^ 31 -> atoi (fmt_d z) = z.
Proof.
  intros Hz. unfold atoi. pose proof (scan_d_fmt_d z [] Hz eq_refl) as E.
  rewrite app_nil_r in E. by rewrite E.
Qed.

Lemma scan_dot_fmt_d z r : 0 <= z < 2 ^ 31 -> scan_dot (fmt_d z ++ 46 :: r) = Some (z, r).
Proof. intros Hz. unfold scan_dot. by rewrite scan_d_fmt_d. Qed.

Lemma scan_4d_fmt_4d a b c d : byte_ok a -> byte_ok b -> byte_ok c -> byte_ok d ->
  scan_4d (fmt_4d a b c d) = Some (a, b, c, d).
Proof.
  unfold byte_ok. intros. unfold scan_4d, fmt_4d.
  rewrite scan_dot_fmt_d by lia. simpl. rewrite scan_dot_fmt_d by lia. simpl.
  rewrite scan_dot_fmt_d by lia. simpl.
  pose proof (scan_d_fmt_d d []) as E. rewrite app_nil_r in E. by rewrite E by (done || lia).
Qed.

(** Numbers in the configuration saturate instead of wrapping around:
    [scanint] gives the digits' value or [INT_MAX] and stops behind the
    digits, and [kmxatoi] gives the signed number times its unit clamped to
    the 64-bit range. *)
Theorem numbers_saturate (s : list Z) :
  scanint s = (Z.min INT_MAX (dec_value 0 s), skip_digits s) /\
  kmxatoi s = match Isnumber s with
              | Some dp => clamp64 (signed_value s * 2 ^ unit_bits (cat dp 0))
              | None => 0
              end.
Proof.
  split; [by apply scanint_loop_spec|]. unfold kmxatoi.
  destruct (Isnumber s) as [dp|] eqn:En; [|done].
  set (neg := cat s 0 =? 45). set (limit := if neg then LLONG_MIN else LLONG_MAX).
  match goal with |- context [fits64 (?n * ?u)] => set (N := n); set (U := u) end.
  assert (HU : U = 2 ^ unit_bits (cat dp 0)).
  { subst U. unfold unit_bits. cbn -[Z.pow Z.eqb].
    set (c := cat dp 0). zcases; subst; try reflexivity; congruence. }
  assert (HN : N = clamp64 (signed_value s)).
  { rewrite <- (saturate_clamp neg) by apply signed_value_sign. subst N.
    rewrite (from_chars_signed s dp En). by destruct (fits64 _). }
  rewrite <- (clamp64_scale (signed_value s)), <- HN, <- HU
    by (apply Z.pow_pos_nonneg; [lia|apply unit_bits_nonneg]).
  apply saturate_clamp. pose proof (signed_value_sign s) as Hs. fold neg in Hs.
  assert (HUpos : 0 < U) by (subst U; repeat destruct (_ || _); lia).
  rewrite HN. unfold clamp64, LLONG_MIN, LLONG_MAX. destruct neg; nia.
Qed.

Definition same_text (igncase : bool) (a b : list Z) : Prop :=
  if igncase then map tolower a = map tolower b else a = b.

Lemma same_text_cons ig c1 c2 a b :
  same_text ig (c1 :: a) (c2 :: b) <->
  (c1 =? c2) || ig && chrcaseeq c1 c2 = true /\ same_text ig a b.
Proof.
  unfold same_text, chrcaseeq. destruct ig; simpl; rewrite orb_true_iff, ?Z.eqb_eq.
  - split.
    + intros [= H1 H2]. auto.
    + intros [[->|H1] H2]; congruence.
  - split; [intros [= -> ->]; auto|]. intros [[->|[=]] ->]. done.
Qed.

Lemma same_text_rev ig a b : same_text ig (rev a) (rev b) <-> same_text ig a b.
Proof.
  unfold same_text. destruct ig; rewrite ?map_rev; split; intros H; try congruence.
  - rewrite <- (rev_involutive (map tolower a)), H. apply rev_involutive.
  - rewrite <- (rev_involutive a), H. apply rev_involutive.
Qed.

Lemma same_text_length ig a b : same_text ig a b -> length a = length b.
Proof.
  unfold same_text. destruct ig; [|congruence]. intros H.
  rewrite <- (length_map tolower a), H. apply length_map.
Qed.

Lemma strtailstr_loop_spec ig r2 : forall r1 acc, r2 <> [] ->
  match strtailstr_loop ig r1 r2 acc with
  | Some t => exists a b, r1 = a ++ b /\ t = rev a ++ acc /\ same_text ig a r2
  | None => forall a b, r1 = a ++ b -> ~ same_text ig a r2
  end.
Proof.
  induction r2 as [|c2 r2 IH]; intros r1 acc Hne; [done|].
  destruct r1 as [|c1 r1].
  { simpl. intros a b Ha H%same_text_length. symmetry in Ha. by apply app_nil in Ha as [-> _]. }
  cbn [strtailstr_loop]. destruct ((c1 =? c2) || ig && chrcaseeq c1 c2) eqn:Ec.
  - destruct r2 as [|c2' r2].
    { exists [c1], r1. split_and!; [done..|]. apply same_text_cons. by destruct ig. }
    destruct r1 as [|c1' r1].
    { intros a b Ha H%same_text_length. apply (f_equal length) in Ha.
      rewrite length_app in Ha. simpl in *. lia. }
    specialize (IH (c1' :: r1) (c1 :: acc) ltac:(done)).
    destruct (strtailstr_loop _ _ _ _) as [t|].
    + destruct IH as (a & b & -> & -> & H). exists (c1 :: a), b. simpl.
      rewrite <- app_assoc. split_and!; [done..|]. by apply same_text_cons.
    + intros [|x a] b Ha H; [by apply same_text_length in H|].
      injection Ha as -> Ha. apply same_text_cons in H as [_ H]. by eapply IH.
  - intros [|x a] b Ha H; [by apply same_text_length in H|].
    injection Ha as -> Ha. apply same_text_cons in H as [H _]. congruence.
Qed.

(** [strtailstrX] gives the end of the string that is the given text
    (letters in either case on demand), and a null pointer exactly when the
    string does not end with that text. *)
Theorem strtailstrX_suffix (str1 str2 : list Z) (igncase : bool) :
  match strtailstrX str1 str2 igncase with
  | Some t => exists a, str1 = a ++ t /\ same_text igncase t str2
  | None => forall a t, str1 = a ++ t -> ~ same_text igncase t str2
  end.
Proof.
  unfold strtailstrX. destruct str2 as [|c str2].
  { exists str1. rewrite app_nil_r. split; [done|]. by destruct igncase. }
  pose proof (strtailstr_loop_spec igncase (rev (c :: str2)) (rev str1) []) as H.
  assert (Hne : rev (c :: str2) <> []) by (intros E; apply (f_equal length) in E;
    rewrite length_rev in E; done). specialize (H Hne).
  destruct (strtailstr_loop _ _ _ _) as [t|].
  - destruct H as (a & b & Hs & -> & H). exists (rev b). rewrite app_nil_r.
    rewrite <- rev_app_distr, <- Hs, rev_involutive. split; [done|].
    apply same_text_rev. by rewrite rev_involutive.
  - intros a t -> Ht. apply (H (rev t) (rev a)); [apply rev_app_distr|].
    by apply same_text_rev.
Qed.

(** ** The scanners on lists *)

(** The longest prefix of characters in [p], at most [n] of them. *)
Fixpoint span (p : Z -> bool) (n : nat) (s : list Z) : list Z * list Z :=
  match n, s with
  | S n', c :: s' => if p c then let '(w, r) := span p n' s' in (c :: w, r) else ([], s)
  | _, _ => ([], s)
  end.

Lemma span_all p s r n : forallb p s = true -> p (cat r 0) = false \/ r = [] -> (length s <= n)%nat ->
  span p n (s ++ r) = (s, r).
Proof.
  intros Hs Hr. revert n. induction s as [|c s IH]; intros n Hn.
  - cbn [app]. destruct n, r as [|x r]; try done. destruct Hr as [Hr|]; [|done]. cbn [span].
    rewrite cat_0 in Hr. by rewrite Hr.
  - cbn [forallb length] in *. apply andb_prop in Hs as [Hc Hs]. destruct n as [|n]; [lia|].
    cbn [app span]. by rewrite Hc, IH by (done || lia).
Qed.
Lemma span_app p n : forall s a b, span p n s = (a, b) -> s = a ++ b.
Proof.
  induction n as [|n IH]; intros s a b; [by intros [= <- <-]|]. destruct s as [|c s]; [by intros [= <- <-]|].
  cbn [span]. destruct (p c); [|by intros [= <- <-]]. destruct (span p n s) as [w r] eqn:E.
  intros [= <- <-]. cbn. by rewrite <- (IH s w r).
Qed.

Lemma wordscanY_loop_spec pat Not n : forall s vp,
  vwf vp -> v_pos vp + Z.of_nat n <= v_size vp ->
  wordscanY_loop pat Not (v_pos vp + Z.of_nat n) vp s =
  (sputs vp (span (in_pat pat Not) n s).1, (span (in_pat pat Not) n s).2).
Proof.
  induction n as [|n IH]; intros s vp Hv Hn; destruct s as [|c s]; try done;
    cbn [wordscanY_loop span].
  - by rewrite (proj2 (Z.ltb_ge _ _)) by lia.
  - rewrite (proj2 (Z.ltb_lt _ _)) by lia. cbn [andb].
    destruct (in_pat pat Not c); [|done].
    assert (Hp : v_pos (setVStrPtrInc vp c) = v_pos vp + 1).
    { rewrite setVStrPtrInc_room by (done || lia). done. }
    destruct (setVStrPtrInc_wf vp c Hv) as [Hv' Hs'].
    replace (v_pos vp + Z.of_nat (S n)) with (v_pos (setVStrPtrInc vp c) + Z.of_nat n) by lia.
    rewrite IH by (done || lia). by destruct (span _ n s).
Qed.

(** The character set of a pattern and whether it is negated. *)
Definition pat_of (pat : list Z) : list Z * bool :=
  match pat with
  | c :: pat' => if c =? 94 then (pat', true) else (pat, false)
  | [] => ([], false)
  end.

(** [wordscanY] as a function on lists. *)
Definition wordscan (str : list Z) (siz : nat) (pat : list Z) : list Z * list Z :=
  span (in_pat (Some (pat_of pat).1) (pat_of pat).2) (siz - 1) str.

(** [wordscanY] into a buffer of the size it is told leaves there,
    terminated, the longest prefix of the text whose characters are in the
    set (or outside of a set with [^]) and that fits, returns the position
    behind it, and does not store outside the buffer. *)
Theorem wordscanY_span (str pat : list Z) (val : vstr) (siz : Z) :
  vwf val -> 0 < siz -> v_pos val + siz <= v_size val ->
  wordscanY str val siz (Some pat) =
    (emitted val (wordscan str (Z.to_nat siz) pat).1, (wordscan str (Z.to_nat siz) pat).2) /\
  vwf (wordscanY str val siz (Some pat)).1.
Proof.
  intros Hv Hs Hr.
  assert (E : wordscanY str val siz (Some pat) =
    (emitted val (wordscan str (Z.to_nat siz) pat).1, (wordscan str (Z.to_nat siz) pat).2)).
  { assert (Hl : forall p n, wordscanY_loop (Some p) n (v_pos val + (siz - 1)) val str =
      (sputs val (span (in_pat (Some p) n) (Z.to_nat siz - 1) str).1,
       (span (in_pat (Some p) n) (Z.to_nat siz - 1) str).2)).
    { intros p n. replace (v_pos val + (siz - 1))
        with (v_pos val + Z.of_nat (Z.to_nat siz - 1)) by lia.
      apply wordscanY_loop_spec; [done|lia]. }
    unfold wordscanY, wordscan, pat_of. destruct pat as [|c pat]; [by rewrite Hl|].
    destruct (c =? 94); by rewrite Hl. }
  split; [exact E|]. rewrite E. by apply emitted_wf.
Qed.

Lemma wordscanY_span_witness :
  let r := wordscanY (cs "list1/ap") (vnew 64) 64 (Some (cs "^/")) in
  v_str (v_at r.1 0) = cs "list1" /\ r.2 = cs "/ap".
Proof.
  cbv zeta. rewrite (proj1 (wordscanY_span (cs "list1/ap") (cs "^/") (vnew 64) 64
    ltac:(by compute) ltac:(lia) ltac:(by compute))).
  by vm_compute.
Defined.
