(* ===== verification/Text.v ===== *)
(** * Scanning texts

    The scanners of [rary/String.cpp] and of the C library as functions on
    texts: a pointer into a text is the rest of the text from there on, and
    what a macro such as [lineScan] stores into a buffer of its own is the
    text that it leaves there.  Here are also the lines of a text. *)
From S2P Require Import Prelude VStr Strings.
From stdpp Require Import options.

(** ** Pointers into a text *)

(** [strchr] and [strpbrk]: the rest from the first character in [p] on, or
    nothing. *)
Fixpoint seek {A} (p : A -> bool) (s : list A) : list A :=
  match s with
  | c :: s' => if p c then s else seek p s'
  | [] => []
  end.

(** What is in front of the pointer [sp] into [s]. *)
Definition before (s sp : list Z) : list Z := take (length s - length sp) s.

(** What a buffer of [n] bytes holds of a text that is stored into it. *)
Definition fits (n : nat) (s : list Z) : list Z := take (n - 1) s.

Definition CRLF : list Z := [CR; LF].
Definition iseol (c : Z) : bool := (c =? CR) || (c =? LF).
Definition isblank (c : Z) : bool := (c =? SP) || (c =? TAB).

(** ** Scanners with a buffer of their own *)

(** [lineScan] and [wordScan] into a buffer of [siz] bytes. *)
Definition linescan (s : list Z) (siz : nat) : list Z :=
  cstr (v_buf (linescanX s (vnew siz) (Z.of_nat siz)).1).
Definition word_scan (s : list Z) (siz : nat) : list Z :=
  cstr (v_buf (wordscanX s (vnew siz) (Z.of_nat siz)).1).

(** [valuescanX] into a buffer of [siz] bytes, and the position behind. *)
Definition valuescan (s : list Z) (siz : nat) : list Z * list Z :=
  if cat s 0 =? 34 then wordscan (tl s) siz [94; 34]
  else wordscan s siz [94; 59; 32; 9; 13; 10; 62; 34].

(** [paramscanX]: up to the end of the line, the end of the buffer, or a
    character of [brk]. *)
Definition paramscan (src brk : list Z) (siz : nat) : list Z * list Z :=
  span (fun sc => negb (iseol sc || strchr brk sc)) (siz - 1) src.

(** [scan_field1]: the name and the body of a field. *)
Definition scan_field1 (field : list Z) (nsiz bsiz : nat) : list Z * list Z :=
  let '(name, dp) := paramscan field (cs ":") nsiz in
  if cat dp 0 =? 58 then (name, linescan (skip_blanks (tl dp)) bsiz)
  else (name, []).

(** [Strcasestr]: the rest from the first place where [s2] is. *)
Fixpoint Strcasestr_loop (p1 s2 : list Z) : option (list Z) :=
  match p1 with
  | c :: p1' =>
      if (toupper c =? toupper (cat s2 0)) && strncaseeq p1 s2 (length s2) then Some p1
      else Strcasestr_loop p1' s2
  | [] => None
  end.
Definition Strcasestr (s1 s2 : list Z) : option (list Z) :=
  match s2 with [] => Some s1 | _ => Strcasestr_loop s1 s2 end.

(** ** Lines

    A line ends with its LF; only the last one may have none. *)
Fixpoint lines (s : list Z) : list (list Z) :=
  match s with
  | [] => []
  | c :: s' =>
      if c =? LF then [c] :: lines s'
      else match lines s' with [] => [[c]] | l :: ls => (c :: l) :: ls end
  end.

(** The lines of a text: LF at the end of each, and nowhere else. *)
Definition noLF (x : list Z) : Prop := LF ∉ x.
#[export] Instance noLF_dec x : Decision (noLF x).
Proof. unfold noLF. apply _. Defined.

Inductive wf_lines : list (list Z) -> Prop :=
| wf_none : wf_lines []
| wf_last x : x <> [] -> noLF x -> wf_lines [x]
| wf_line x ls : noLF x -> wf_lines ls -> wf_lines ((x ++ [LF]) :: ls).
#[export] Hint Constructors wf_lines : dg.

Lemma noLF_cons c x : noLF (c :: x) <-> c <> LF /\ noLF x.
Proof. unfold noLF. rewrite not_elem_of_cons. naive_solver. Qed.

Lemma noLF_app x y : noLF (x ++ y) <-> noLF x /\ noLF y.
Proof. unfold noLF. rewrite elem_of_app. naive_solver. Qed.

Lemma lines_noLF x : noLF x -> x <> [] -> lines x = [x].
Proof.
  induction x as [|c x IH]; [done|]. intros [Hc Hx]%noLF_cons _. cbn [lines].
  rewrite (proj2 (Z.eqb_neq c LF)) by done. destruct x as [|d x]; [done|]. by rewrite IH.
Qed.

Lemma lines_line x s : noLF x -> lines (x ++ LF :: s) = (x ++ [LF]) :: lines s.
Proof.
  induction x as [|c x IH]; [done|]. intros [Hc Hx]%noLF_cons. cbn [lines app].
  rewrite (proj2 (Z.eqb_neq c LF)) by done. by rewrite IH.
Qed.

Lemma first_line s : s = [] \/ (s <> [] /\ noLF s) \/ exists x r, noLF x /\ s = x ++ LF :: r.
Proof.
  induction s as [|c s IH]; [by left|right]. destruct (decide (c = LF)) as [->|Hc].
  - right. exists [], s. split; [apply not_elem_of_nil|done].
  - destruct IH as [-> |[[Hs Hn]|(x & r & Hx & ->)]].
    + left. split; [done|]. apply noLF_cons. split; [done|apply not_elem_of_nil].
    + left. split; [done|]. by apply noLF_cons.
    + right. exists (c :: x), r. split; [by apply noLF_cons|done].
Qed.

(** Induction over the lines of a text. *)
Lemma line_ind (P : list Z -> Prop) :
  P [] -> (forall x, x <> [] -> noLF x -> P x) ->
  (forall x r, noLF x -> P r -> P (x ++ LF :: r)) -> forall s, P s.
Proof.
  intros H0 H1 H2 s. induction s as [s IH] using (induction_ltof1 _ (@length Z)). unfold ltof in IH.
  destruct (first_line s) as [-> |[[Hs Hn]|(x & r & Hx & ->)]]; [done|by apply H1|].
  apply H2; [done|]. apply IH. rewrite length_app. simpl. lia.
Qed.

Lemma wf_lines_lines s : wf_lines (lines s).
Proof.
  induction s as [|x Hx Hn|x r Hn IH] using line_ind; [constructor| |].
  - rewrite lines_noLF by done. by constructor.
  - rewrite lines_line by done. by constructor.
Qed.

Lemma concat_lines s : concat (lines s) = s.
Proof.
  induction s as [|x Hx Hn|x r Hn IH] using line_ind; [done| |].
  - rewrite lines_noLF by done. cbn. by rewrite app_nil_r.
  - rewrite lines_line by done. cbn [concat]. by rewrite IH, <- app_assoc.
Qed.

Lemma lines_concat ls : wf_lines ls -> lines (concat ls) = ls.
Proof.
  induction 1 as [|x Hx Hn|x ls Hn _ IH]; [done| |].
  - cbn. rewrite app_nil_r. by apply lines_noLF.
  - cbn [concat]. rewrite <- app_assoc. cbn [app]. by rewrite lines_line, IH.
Qed.

Lemma wf_lines_sub ls : wf_lines ls -> forall ls', sublist ls' ls -> wf_lines ls'.
Proof.
  induction 1 as [|x Hx Hn|x ls Hn _ IH]; intros ls' Hs.
  - apply sublist_nil_r in Hs as ->. constructor.
  - apply sublist_cons_r in Hs as [Hs|(k & -> & Hs)]; apply sublist_nil_r in Hs as ->; auto with dg.
  - apply sublist_cons_r in Hs as [Hs|(k & -> & Hs)]; auto with dg.
Qed.

Lemma before_app a b : before (a ++ b) b = a.
Proof. unfold before. apply take_app_length'. rewrite length_app. lia. Qed.

Lemma fits_id n s : zlen s < Z.of_nat n -> fits n s = s.
Proof. intros H. unfold fits, zlen in *. apply take_ge. lia. Qed.

Lemma seek_noLF x r : noLF x -> seek (Z.eqb LF) (x ++ r) = seek (Z.eqb LF) r.
Proof.
  induction x as [|c x IH]; [done|]. intros [Hc Hx]%noLF_cons. cbn [app seek].
  rewrite (proj2 (Z.eqb_neq LF c)) by done. by apply IH.
Qed.

Lemma seek_split {A} (p : A -> bool) s : exists a, s = a ++ seek p s /\ Forall (fun x => p x = false) a /\
  match seek p s with [] => True | x :: _ => p x = true end.
Proof.
  induction s as [|x s (a & E & Ha & Hs)]; [by exists []|]. cbn [seek].
  destruct (p x) eqn:Ep; [by exists []|]. exists (x :: a). cbn [app]. rewrite <- E. auto.
Qed.
