(* ===== verification/Base32.v ===== *)
(** * BASE32 ([mimekit/rfc822.cpp])

    The identifiers of clients and of mail addresses are written in BASE32:
    [enBase32] writes the first [sbits] bits of an array, by bytes where
    they are whole bytes and bit by bit otherwise; [deBase32] reads them
    back.  What is stored into the destination is the list of the characters
    in their order; its length is the value that the functions return.

    The reference definition is on lists of bits: a text of BASE32 has a
    character for each group of five bits, the last one filled up with
    zeros. *)
From S2P Require Import Prelude.
From stdpp Require Import options.

(** ** The code *)

Definition BASE32A : list Z := cs "ABCDEFGHIJKLMNOPQRSTUVWXYZ234567".

(** One byte [sx] of [enBase32]: what is stored, and the new [bits] and [out].
    [bits] is always 0 to 4 in front of a byte. *)
Definition en_byte (bits out sx : Z) : list Z * Z * Z :=
  let '(put, out, bits) :=
    if bits =? 0 then (Z.shiftr sx 3, Z.shiftl (Z.land 7 sx) 2, 3)
    else if bits =? 1 then (Z.lor out (Z.shiftr sx 4), Z.shiftl (Z.land 15 sx) 1, 4)
    else if bits =? 2 then (Z.lor out (Z.shiftr sx 5), Z.land 31 sx, 5)
    else if bits =? 3 then (Z.lor out (Z.shiftr sx 6), Z.land 63 sx, 6)
    else (Z.lor out (Z.shiftr sx 7), Z.land 127 sx, 7) in
  let d := [cat BASE32A put] in
  if 5 <=? bits
  then let '(put, out, bits) :=
         if bits =? 5 then (out, out, 0)
         else if bits =? 6 then (Z.shiftr out 1, Z.shiftl (Z.land out 1) 4, 1)
         else (Z.shiftr out 2, Z.shiftl (Z.land out 3) 3, 2) in
       (d ++ [cat BASE32A put], bits, out)
  else (d, bits, out).

Fixpoint en_bytes (src : list Z) (dsiz : Z) (dst : list Z) (bits out : Z) : list Z * Z * Z :=
  match src with
  | sx :: src =>
      if zlen dst + 1 <? dsiz
      then let '(d, bits, out) := en_byte bits out sx in en_bytes src dsiz (dst ++ d) bits out
      else (dst, bits, out)
  | [] => (dst, bits, out)
  end.

(** The loop over the bits; [n] of them are left. *)
Fixpoint en_bits (n : nat) (si : Z) (src : list Z) (dsiz : Z) (dst : list Z) (bits out : Z)
  : list Z * Z * Z :=
  match n with
  | O => (dst, bits, out)
  | S n =>
      if zlen dst + 1 <? dsiz
      then
        let bit := Z.land (Z.shiftr (cat src (si / 8)) (7 - si mod 8)) 1 in
        let out := Z.lor out (Z.shiftl bit (4 - bits)) in
        let bits := bits + 1 in
        if bits =? 5
        then en_bits n (si + 1) src dsiz (dst ++ [cat BASE32A out]) 0 0
        else en_bits n (si + 1) src dsiz dst bits out
      else (dst, bits, out)
  end.

Definition enBase32 (src : list Z) (sbits dsiz : Z) : list Z :=
  let '(dst, bits, out) :=
    if sbits mod 8 =? 0 then en_bytes (take (Z.to_nat (sbits / 8)) src) dsiz [] 0 0
    else en_bits (Z.to_nat sbits) 0 src dsiz [] 0 0 in
  if 0 <? bits then dst ++ [cat BASE32A out] else dst.

(** The number of a character. *)
Definition de_char (sx : Z) : option Z :=
  if isupper sx then Some (sx - 65)
  else if islower sx then Some (sx - 97)
  else if (50 <=? sx) && (sx <=? 55) then Some (sx - 50 + 26)
  else None.

(** One character: what is stored, and the new [bits] and [out].  [out] is an
    [int] and is not cut to a byte before it is stored. *)
Definition de_step (bits out sx : Z) : list Z * Z * Z :=
  if bits =? 0 then ([], 5, Z.shiftl sx 3)
  else if bits =? 1 then ([], 6, Z.lor out (Z.shiftl sx 2))
  else if bits =? 2 then ([], 7, Z.lor out (Z.shiftl sx 1))
  else if bits =? 3 then ([uchar (Z.lor out sx)], 0, 0)
  else if bits =? 4 then ([uchar (Z.lor out (Z.shiftr sx 1))], 1, Z.shiftl sx 7)
  else if bits =? 5 then ([uchar (Z.lor out (Z.shiftr sx 2))], 2, Z.shiftl sx 6)
  else if bits =? 6 then ([uchar (Z.lor out (Z.shiftr sx 3))], 3, Z.shiftl sx 5)
  else ([uchar (Z.lor out (Z.shiftr sx 4))], 4, Z.shiftl sx 4).

Fixpoint de_chars (src : list Z) (dsiz : Z) (dst : list Z) (bits out : Z) : list Z * Z :=
  match src with
  | c :: src =>
      if zlen dst + 1 <? dsiz
      then match de_char c with
           | Some sx =>
               let '(d, bits, out) := de_step bits out sx in
               de_chars src dsiz (dst ++ d) bits out
           | None => (dst, out)
           end
      else (dst, out)
  | [] => (dst, out)
  end.

(** The rest [out] is never negative: it is always stored. *)
Definition deBase32 (src : list Z) (slen dsiz : Z) : list Z :=
  let '(dst, out) := de_chars (take (Z.to_nat slen) src) dsiz [] 0 0 in
  dst ++ [uchar out].

(** ** The reference *)

(** The [n] low bits of a number, the high ones first, and the number of a
    list of bits. *)
Fixpoint bits_n (n : nat) (v : Z) : list bool :=
  match n with O => [] | S n => Z.testbit v (Z.of_nat n) :: bits_n n v end.
Definition val (l : list bool) : Z := fold_left (fun a b => 2 * a + Z.b2z b) l 0.
Definition bits_of (src : list Z) : list bool := concat (map (bits_n 8) src).

(** The groups of [S m] bits, and what is left. *)
Fixpoint groups_loop (fuel m : nat) (l : list bool) : list (list bool) * list bool :=
  match fuel with
  | O => ([], l)
  | S fuel =>
      if Nat.leb (S m) (length l)
      then let '(g, r) := groups_loop fuel m (drop (S m) l) in (take (S m) l :: g, r)
      else ([], l)
  end.
Definition groups (m : nat) (l : list bool) := groups_loop (length l) m l.

(** A group of [n] bits, filled up with zeros. *)
Definition fill (n : nat) (l : list bool) : Z := Z.shiftl (val l) (Z.of_nat n - Z.of_nat (length l)).

Definition base32 (l : list bool) : list Z :=
  let '(g, r) := groups 4 l in
  map (fun x => cat BASE32A (val x)) g ++
  (if bool_decide (r = []) then [] else [cat BASE32A (fill 5 r)]).

(** ** Lists of bits *)

Lemma length_bits_n n v : length (bits_n n v) = n.
Proof. induction n; simpl; congruence. Qed.

Lemma groups_unique m g : forall r fuel,
  Forall (fun x => length x = S m) g -> (length r < S m)%nat ->
  (length (concat g ++ r) <= fuel)%nat -> groups_loop fuel m (concat g ++ r) = (g, r).
Proof.
  induction g as [|x g IH]; intros r fuel Hg Hr Hf; cbn [concat] in *.
  - cbn [app] in *. destruct fuel as [|fuel]; [by destruct r; [|simpl in Hf; lia]|].
    cbn [groups_loop]. by rewrite (proj2 (Nat.leb_gt _ _)) by lia.
  - apply Forall_cons in Hg as [Hx Hg]. rewrite <- app_assoc in *. rewrite length_app in Hf.
    destruct fuel as [|fuel]; [lia|]. cbn [groups_loop].
    rewrite (proj2 (Nat.leb_le _ _)) by (rewrite length_app; lia).
    rewrite drop_app_length', take_app_length' by done. by rewrite IH by (done || lia).
Qed.

Lemma groups_spec m l : exists g r, groups m l = (g, r) /\ l = concat g ++ r /\
  Forall (fun x => length x = S m) g /\ (length r < S m)%nat.
Proof.
  assert (exists g r, l = concat g ++ r /\ Forall (fun x => length x = S m) g /\ (length r < S m)%nat)
    as (g & r & -> & Hg & Hr).
  { induction l as [l IH] using (induction_ltof1 _ (@length bool)). unfold ltof in IH.
    destruct (decide (length l < S m)%nat); [by exists [], l|].
    destruct (IH (drop (S m) l)) as (g & r & Hl & Hg & Hr); [rewrite length_drop; lia|].
    exists (take (S m) l :: g), r. split_and!; [|constructor; [rewrite length_take; lia|done]|done].
    cbn [concat]. by rewrite <- app_assoc, <- Hl, take_drop. }
  exists g, r. split_and!; [|done..]. by apply groups_unique.
Qed.

Lemma groups_short m r : (length r < S m)%nat -> groups m r = ([], r).
Proof. intros Hr. by apply (groups_unique m [] r). Qed.

Lemma groups_app m l1 l2 : groups m (l1 ++ l2) =
  ((groups m l1).1 ++ (groups m ((groups m l1).2 ++ l2)).1, (groups m ((groups m l1).2 ++ l2)).2).
Proof.
  destruct (groups_spec m l1) as (g & r & -> & E1 & Hg & Hr). cbn [fst snd].
  destruct (groups_spec m (r ++ l2)) as (g' & r' & -> & E2 & Hg' & Hr'). cbn [fst snd].
  subst l1. rewrite <- app_assoc, E2, app_assoc, <- concat_app.
  by apply groups_unique; [apply Forall_app| |].
Qed.

(** Facts about short lists of bits are checked on all of them. *)
Fixpoint all_bits (n : nat) : list (list bool) :=
  match n with
  | O => [[]]
  | S n => map (cons false) (all_bits n) ++ map (cons true) (all_bits n)
  end.
Lemma all_bits_spec l : l ∈ all_bits (length l).
Proof.
  induction l as [|[] l IH]; cbn [all_bits length]; [by constructor| |];
    apply elem_of_app; [right|left]; by apply list_elem_of_fmap_2.
Qed.
Definition on_bits (n : nat) (p : list bool -> bool) : bool :=
  forallb (fun k => forallb p (all_bits k)) (seq 0 n).
Lemma on_bits_spec n p l : on_bits n p = true -> (length l < n)%nat -> p l = true.
Proof.
  unfold on_bits. rewrite forallb_forall. intros H Hl.
  specialize (H (length l)). rewrite forallb_forall in H.
  apply H; [apply in_seq; lia|apply list_elem_of_In, all_bits_spec].
Qed.

(** ** The encoder *)

Definition chars (g : list (list bool)) : list Z := map (fun x => cat BASE32A (val x)) g.

(** [bits] and [out] hold the bits [p]. *)
Definition holds (p : list bool) (bits out : Z) : Prop :=
  bits = zlen p /\ (p <> [] -> out = fill 5 p).

Definition en_byte_check (p : list bool) (sx : Z) : bool :=
  let '(d, bits, out) := en_byte (zlen p) (fill 5 p) sx in
  let '(g, r) := groups 4 (p ++ bits_n 8 sx) in
  bool_decide (d = chars g) && (bits =? zlen r) && (bool_decide (r = []) || (out =? fill 5 r)).

Lemma en_byte_checked : on_bits 5 (fun p => zrange_all 256 (en_byte_check p)) = true.
Proof. by vm_compute. Qed.

Lemma en_byte_spec p bits out sx : (length p < 5)%nat -> byte_ok sx -> holds p bits out ->
  exists bits' out', en_byte bits out sx = (chars (groups 4 (p ++ bits_n 8 sx)).1, bits', out') /\
    holds (groups 4 (p ++ bits_n 8 sx)).2 bits' out'.
Proof.
  intros Hp Hs [-> Ho].
  assert (E : en_byte (zlen p) out sx = en_byte (zlen p) (fill 5 p) sx).
  { destruct p as [|b p]; [done|]. by rewrite Ho. }
  rewrite E. pose proof (on_bits_spec _ _ p en_byte_checked Hp) as H. cbv beta in H.
  pose proof (zrange_all_spec _ _ H sx Hs) as Hc. clear H. rename Hc into H. unfold en_byte_check in H.
  destruct (en_byte (zlen p) (fill 5 p) sx) as [[d bits] out'].
  destruct (groups 4 (p ++ bits_n 8 sx)) as [g r]. cbn [fst snd].
  apply andb_true_iff in H as [H H3]. apply andb_true_iff in H as [H1 H2].
  apply bool_decide_eq_true in H1. apply Z.eqb_eq in H2. exists bits, out'. subst. split; [done|].
  split; [done|]. intros Hr. apply orb_true_iff in H3 as [H3|H3]; [|by apply Z.eqb_eq in H3].
  by apply bool_decide_eq_true in H3.
Qed.

Lemma length_groups m l : (length l = S m * length (groups m l).1 + length (groups m l).2)%nat /\
  (length (groups m l).2 < S m)%nat.
Proof.
  destruct (groups_spec m l) as (g & r & -> & -> & Hg & Hr). cbn [fst snd]. split; [|done].
  rewrite length_app. f_equal. clear Hr. induction g as [|x g IH]; [simpl; lia|].
  apply Forall_cons in Hg as [Hx Hg]. cbn [concat length]. rewrite length_app, Hx, IH by done. lia.
Qed.

Lemma base32_app l1 l2 : base32 (l1 ++ l2) = chars (groups 4 l1).1 ++ base32 ((groups 4 l1).2 ++ l2).
Proof.
  unfold base32. rewrite groups_app. destruct (groups 4 (_ ++ l2)) as [g r]. cbn [fst snd].
  unfold chars. by rewrite map_app, <- app_assoc.
Qed.

Lemma zlen_base32 l : zlen l <= 5 * zlen (base32 l) <= zlen l + 4.
Proof.
  unfold base32. pose proof (length_groups 4 l) as [E1 E2]. destruct (groups 4 l) as [g r].
  cbn [fst snd] in *. unfold zlen. rewrite length_app, length_map.
  destruct r as [|b r]; cbn [length] in *; [rewrite bool_decide_true by done; cbn [length]; lia|].
  rewrite bool_decide_false by done. cbn [length]. lia.
Qed.

Lemma base32_rest p : (length p < 5)%nat -> base32 p = if bool_decide (p = []) then [] else [cat BASE32A (fill 5 p)].
Proof.
  intros Hp. unfold base32. by rewrite groups_short.
Qed.

Lemma en_bytes_spec src dsiz : forall dst p bits out,
  bytes_ok src -> (length p < 5)%nat -> holds p bits out ->
  zlen dst + zlen (base32 (p ++ bits_of src)) < dsiz ->
  let '(g, r) := groups 4 (p ++ bits_of src) in
  exists bits' out', en_bytes src dsiz dst bits out = (dst ++ chars g, bits', out') /\ holds r bits' out'.
Proof.
  induction src as [|sx src IH]; intros dst p bits out Hs Hp Hh Hr.
  - unfold bits_of. cbn [map concat]. rewrite app_nil_r, groups_short by done.
    exists bits, out. cbn. by rewrite app_nil_r.
  - apply Forall_cons in Hs as [Hb Hs]. change (bits_of (sx :: src)) with (bits_n 8 sx ++ bits_of src) in *.
    rewrite app_assoc in *. rewrite groups_app. rewrite base32_app in Hr. cbn [en_bytes].
    destruct (en_byte_spec p bits out sx Hp Hb Hh) as (b1 & o1 & E & Hh1). rewrite E.
    pose proof (length_groups 4 (p ++ bits_n 8 sx)) as [L1 L2]. rewrite length_app, length_bits_n in L1.
    destruct (groups 4 (p ++ bits_n 8 sx)) as [g r]. cbn [fst snd] in *. rewrite zlen_app in Hr.
    assert (0 < zlen g /\ (zlen g = 1 -> r <> [])) as [Hg Hg1].
    { unfold zlen. split; [lia|]. intros Hg ->. simpl in L1. lia. }
    assert (zlen (chars g) = zlen g) as Hc by (unfold zlen, chars; by rewrite length_map).
    assert ((zlen dst + 1 <? dsiz) = true) as ->.
    { apply Z.ltb_lt. pose proof (zlen_base32 (r ++ bits_of src)). rewrite zlen_app in *.
      pose proof (zlen_nonneg r). pose proof (zlen_nonneg (bits_of src)).
      pose proof (zlen_nonneg (base32 (r ++ bits_of src))).
      destruct (decide (zlen g = 1)) as [Hg2|]; [|lia].
      destruct r as [|b r]; [by destruct Hg1|]. rewrite zlen_cons in *. pose proof (zlen_nonneg r). lia. }
    specialize (IH (dst ++ chars g) r b1 o1 Hs L2 Hh1). rewrite zlen_app in IH.
    specialize (IH ltac:(lia)). destruct (groups 4 (r ++ bits_of src)) as [g' r']. cbn [fst snd].
    destruct IH as (b2 & o2 & -> & Hh2). exists b2, o2. unfold chars. by rewrite map_app, app_assoc.
Qed.

(** *** Bit by bit *)

Lemma length_bits_of src : length (bits_of src) = (8 * length src)%nat.
Proof.
  unfold bits_of. induction src as [|c src IH]; [done|]. cbn [map concat].
  rewrite length_app, length_bits_n, IH. simpl length. lia.
Qed.

Lemma bits_n_lookup n v j : (j < n)%nat -> bits_n n v !! j = Some (Z.testbit v (Z.of_nat (n - 1 - j))).
Proof.
  revert j. induction n as [|n IH]; intros j Hj; [lia|]. destruct j as [|j]; cbn [bits_n lookup list_lookup].
  - do 2 f_equal. lia.
  - rewrite IH by lia. do 3 f_equal. lia.
Qed.

Lemma bits_of_lookup src : forall i, (i < 8 * length src)%nat ->
  bits_of src !! i = Some (Z.testbit (cat src (Z.of_nat i / 8)) (7 - Z.of_nat i mod 8)).
Proof.
  induction src as [|c src IH]; intros i Hi; [simpl in Hi; lia|].
  change (bits_of (c :: src)) with (bits_n 8 c ++ bits_of src). cbn [length] in Hi.
  destruct (decide (i < 8)%nat) as [H8|H8].
  - rewrite lookup_app_l by (rewrite length_bits_n; lia). rewrite bits_n_lookup by done.
    rewrite Z.div_small, Z.mod_small, cat_0 by lia. do 2 f_equal. lia.
  - rewrite lookup_app_r by (rewrite length_bits_n; lia). rewrite length_bits_n, IH by lia.
    replace (Z.of_nat i) with (Z.of_nat (i - 8) + 1 * 8) by lia.
    rewrite Z_div_plus, Z_mod_plus by lia. rewrite cat_succ by (apply Z.div_pos; lia). done.
Qed.

Definition en_bit_check (p : list bool) (b : bool) : bool :=
  let out := Z.lor (fill 5 p) (Z.shiftl (Z.b2z b) (4 - zlen p)) in
  let '(g, r) := groups 4 (p ++ [b]) in
  if zlen p + 1 =? 5 then bool_decide (r = []) && bool_decide (chars g = [cat BASE32A out])
  else bool_decide (g = []) && bool_decide (r = p ++ [b]) && (out =? fill 5 r).

Lemma en_bit_checked : on_bits 5 (fun p => en_bit_check p true && en_bit_check p false) = true.
Proof. by vm_compute. Qed.

Lemma land_shiftr_1 a k : 0 <= k -> Z.land (Z.shiftr a k) 1 = Z.b2z (Z.testbit a k).
Proof.
  intros Hk. change 1 with (Z.ones 1). rewrite Z.land_ones, Z.testbit_odd, (Zmod_odd _) by lia.
  by destruct (Z.odd _).
Qed.

Lemma en_bits_spec src dsiz n : forall si dst p,
  (length p < 5)%nat -> (si + n <= 8 * length src)%nat ->
  zlen dst + zlen (base32 (p ++ take n (drop si (bits_of src)))) < dsiz ->
  en_bits n (Z.of_nat si) src dsiz dst (zlen p) (fill 5 p) =
  (dst ++ chars (groups 4 (p ++ take n (drop si (bits_of src)))).1,
   zlen (groups 4 (p ++ take n (drop si (bits_of src)))).2,
   fill 5 (groups 4 (p ++ take n (drop si (bits_of src)))).2).
Proof.
  induction n as [|n IH]; intros si dst p Hp Hn Hr.
  - cbn [take en_bits]. rewrite app_nil_r, groups_short by done. cbn. by rewrite app_nil_r.
  - pose proof (bits_of_lookup src si ltac:(lia)) as Hb. set (b := Z.testbit _ _) in Hb.
    assert (E : p ++ take (S n) (drop si (bits_of src)) = (p ++ [b]) ++ take n (drop (S si) (bits_of src))).
    { rewrite (drop_S _ b) by done. cbn [take]. by rewrite <- app_assoc. }
    rewrite E in *. clear E. cbn [en_bits].
    assert ((zlen dst + 1 <? dsiz) = true) as ->.
    { pose proof (zlen_base32 ((p ++ [b]) ++ take n (drop (S si) (bits_of src)))) as Hz.
      rewrite !zlen_app in Hz. change (zlen [b]) with 1 in Hz. pose proof (zlen_nonneg p).
      pose proof (zlen_nonneg (take n (drop (S si) (bits_of src)))). lia. }
    rewrite land_shiftr_1 by (pose proof (Z.mod_pos_bound (Z.of_nat si) 8); lia).
    fold b. rewrite groups_app. rewrite base32_app in Hr.
    pose proof (on_bits_spec _ _ p en_bit_checked Hp) as Hc. cbv beta in Hc.
    assert (en_bit_check p b = true) as Hc' by (destruct b; zprop; done). clear Hc.
    unfold en_bit_check in Hc'. replace (Z.of_nat si + 1) with (Z.of_nat (S si)) by lia.
    rewrite zlen_app in Hr. destruct (groups 4 (p ++ [b])) as [g r]. cbn [fst snd] in *.
    set (out := Z.lor _ _) in *. destruct (zlen p + 1 =? 5) eqn:E5.
    + apply andb_true_iff in Hc' as [H1 H2]. apply bool_decide_eq_true in H1, H2. subst r.
      specialize (IH (S si) (dst ++ [cat BASE32A out]) []). rewrite H2 in *.
      change (zlen []) with 0 in IH. change (fill 5 []) with 0 in IH.
      rewrite zlen_cons, zlen_nil in Hr. rewrite IH; [|simpl; lia|lia|rewrite zlen_app, zlen_cons, zlen_nil; lia].
      unfold chars in *. rewrite map_app, H2, app_assoc. done.
    + apply andb_true_iff in Hc' as [H12 H3]. apply andb_true_iff in H12 as [H1 H2].
      apply bool_decide_eq_true in H1, H2. apply Z.eqb_eq in H3. subst g.
      rewrite H3. replace (zlen p + 1) with (zlen r) by (rewrite H2, zlen_app; done).
      rewrite IH; [done| |lia|change (zlen (chars [])) with 0 in Hr; lia].
      rewrite H2, length_app. simpl. unfold zlen in E5. lia.
Qed.

(** [enBase32] into a buffer with room writes the BASE32 of the first [sbits]
    bits, by either of its two loops. *)
Lemma enBase32_base32 src sbits dsiz :
  bytes_ok src -> 0 <= sbits <= 8 * zlen src ->
  zlen (base32 (take (Z.to_nat sbits) (bits_of src))) < dsiz ->
  enBase32 src sbits dsiz = base32 (take (Z.to_nat sbits) (bits_of src)).
Proof.
  intros Hs Hb Hr. unfold enBase32. unfold zlen in Hb. destruct (sbits mod 8 =? 0) eqn:E8.
  - apply Z.eqb_eq in E8. pose proof (Z.div_mod sbits 8 ltac:(lia)) as Hd.
    assert (take (Z.to_nat sbits) (bits_of src) = bits_of (take (Z.to_nat (sbits / 8)) src)) as E.
    { rewrite <- (take_drop (Z.to_nat (sbits / 8)) src) at 1. unfold bits_of.
      rewrite map_app, concat_app. apply take_app_length'. fold (bits_of (take (Z.to_nat (sbits / 8)) src)).
      rewrite length_bits_of, length_take. lia. }
    rewrite E in *. clear E. set (s := take _ src) in *.
    pose proof (en_bytes_spec s dsiz [] [] 0 0 ltac:(by apply Forall_take) ltac:(simpl; lia)) as H.
    specialize (H ltac:(by split)). cbn [app] in H. specialize (H ltac:(change (zlen []) with 0; lia)).
    unfold base32. pose proof (length_groups 4 (bits_of s)) as [_ L].
    destruct (groups 4 (bits_of s)) as [g r]. destruct H as (b & o & -> & [-> Ho]).
    destruct r as [|x r]; [cbn; by rewrite app_nil_r|].
    rewrite zlen_cons, bool_decide_false, Ho by done. pose proof (zlen_nonneg r).
    by rewrite (proj2 (Z.ltb_lt _ _)) by lia.
  - pose proof (en_bits_spec src dsiz (Z.to_nat sbits) 0 [] []) as H. rewrite drop_0 in H. cbn [app] in H.
    change (zlen []) with 0 in H. change (fill 5 []) with 0 in H. change (Z.of_nat 0) with 0 in H.
    rewrite H; [|simpl; lia|lia|lia]. unfold base32.
    destruct (groups 4 _) as [g r]. cbn [fst snd]. destruct r as [|x r]; [cbn; by rewrite app_nil_r|].
    rewrite zlen_cons, bool_decide_false by done. pose proof (zlen_nonneg r).
    by rewrite (proj2 (Z.ltb_lt _ _)) by lia.
Qed.

(** ** The decoder *)

Definition vbits (vs : list Z) : list bool := concat (map (bits_n 5) vs).
Definition val5_ok (v : Z) : Prop := 0 <= v < 32.

Definition de_step_check (p : list bool) (sx : Z) : bool :=
  let '(d, bits, out) := de_step (zlen p) (fill 8 p) sx in
  let '(g, r) := groups 7 (p ++ bits_n 5 sx) in
  bool_decide (d = map val g) && (bits =? zlen r) && (uchar out =? fill 8 r).

Lemma de_step_checked : on_bits 8 (fun p => zrange_all 32 (de_step_check p)) = true.
Proof. by vm_compute. Qed.

Lemma uchar_lor a b : uchar (Z.lor a b) = uchar (Z.lor (uchar a) b).
Proof.
  unfold uchar. change 256 with (2 ^ 8). rewrite <- !Z.land_ones by lia.
  apply Z.bits_inj'. intros n Hn. rewrite !Z.land_spec, !Z.lor_spec, !Z.land_spec.
  by destruct (Z.testbit a n), (Z.testbit b n), (Z.testbit (Z.ones 8) n).
Qed.

(** Only the low byte of [out] matters. *)
Lemma de_step_uchar bits out sx :
  (de_step bits out sx).1 = (de_step bits (uchar out) sx).1 /\
  uchar (de_step bits out sx).2 = uchar (de_step bits (uchar out) sx).2.
Proof.
  unfold de_step. repeat case_match; cbn [fst snd]; split; try done; try by rewrite uchar_lor.
Qed.

Lemma de_step_spec p out sx : (length p < 8)%nat -> val5_ok sx -> uchar out = fill 8 p ->
  exists out', de_step (zlen p) out sx =
    (map val (groups 7 (p ++ bits_n 5 sx)).1, zlen (groups 7 (p ++ bits_n 5 sx)).2, out') /\
    uchar out' = fill 8 (groups 7 (p ++ bits_n 5 sx)).2.
Proof.
  intros Hp Hs Ho. pose proof (de_step_uchar (zlen p) out sx) as [E1 E2].
  pose proof (zrange_all_spec _ _ (on_bits_spec _ _ p de_step_checked Hp) sx Hs) as H.
  unfold de_step_check in H. rewrite Ho in E1, E2.
  destruct (de_step (zlen p) out sx) as [[d b] o], (de_step (zlen p) (fill 8 p) sx) as [[d' b'] o'],
    (groups 7 (p ++ bits_n 5 sx)) as [g r]. cbn [fst snd] in *.
  apply andb_true_iff in H as [H H3]. apply andb_true_iff in H as [H1 H2].
  apply bool_decide_eq_true in H1. apply Z.eqb_eq in H2, H3. simplify_eq. exists o. split; congruence.
Qed.

Lemma de_chars_spec dsiz t vs :
  Forall2 (fun c v => de_char c = Some v /\ val5_ok v) t vs -> forall dst p out,
  (length p < 8)%nat -> uchar out = fill 8 p ->
  zlen dst + zlen (groups 7 (p ++ vbits vs)).1 + 1 < dsiz ->
  exists out', de_chars t dsiz dst (zlen p) out = (dst ++ map val (groups 7 (p ++ vbits vs)).1, out') /\
    uchar out' = fill 8 (groups 7 (p ++ vbits vs)).2.
Proof.
  induction 1 as [|c v t vs [Hc Hv] _ IH]; intros dst p out Hp Ho Hr.
  - change (vbits []) with (@nil bool). rewrite app_nil_r, groups_short by done. exists out.
    cbn. by rewrite app_nil_r.
  - change (vbits (v :: vs)) with (bits_n 5 v ++ vbits vs) in *. rewrite app_assoc, groups_app in *.
    cbn [fst snd de_chars] in *. rewrite zlen_app in Hr.
    rewrite (proj2 (Z.ltb_lt _ _)), Hc
      by (pose proof (zlen_nonneg (groups 7 (p ++ bits_n 5 v)).1);
          pose proof (zlen_nonneg (groups 7 ((groups 7 (p ++ bits_n 5 v)).2 ++ vbits vs)).1); lia).
    destruct (de_step_spec p out v Hp Hv Ho) as (o & -> & Ho').
    destruct (IH (dst ++ map val (groups 7 (p ++ bits_n 5 v)).1) _ o (proj2 (length_groups 7 _)) Ho')
      as (o' & -> & Ho''); [rewrite zlen_app; unfold zlen at 2; rewrite length_map; unfold zlen in *; lia|].
    exists o'. by rewrite map_app, app_assoc.
Qed.

(** ** There and back *)

Lemma de_char_checked : zrange_all 32 (fun v => bool_decide (de_char (cat BASE32A v) = Some v) &&
  bool_decide (de_char (tolower (cat BASE32A v)) = Some v)) = true.
Proof. by vm_compute. Qed.

Definition refill (n : nat) (r : list bool) : bool :=
  bool_decide (bits_n n (fill n r) = r ++ repeat false (n - length r)).
Lemma refill_checked : on_bits 6 (refill 5) && on_bits 9 (refill 8) = true.
Proof. by vm_compute. Qed.

Lemma bits_fill5 r : (length r <= 5)%nat -> bits_n 5 (fill 5 r) = r ++ repeat false (5 - length r).
Proof.
  intros Hr. pose proof refill_checked as H. apply andb_true_iff in H as [H _].
  pose proof (on_bits_spec _ _ r H ltac:(lia)) as E. by apply bool_decide_eq_true in E.
Qed.
Lemma bits_fill8 r : (length r <= 8)%nat -> bits_n 8 (fill 8 r) = r ++ repeat false (8 - length r).
Proof.
  intros Hr. pose proof refill_checked as H. apply andb_true_iff in H as [_ H].
  pose proof (on_bits_spec _ _ r H ltac:(lia)) as E. by apply bool_decide_eq_true in E.
Qed.

Lemma fill_full n x : length x = n -> fill n x = val x.
Proof. intros <-. unfold fill. by rewrite Z.sub_diag. Qed.

(** The bits of full groups of [S m]. *)
Lemma bits_of_groups m g : (forall x, length x = S m -> bits_n (S m) (fill (S m) x) = x) ->
  Forall (fun x => length x = S m) g -> concat (map (bits_n (S m)) (map val g)) = concat g.
Proof.
  intros Hb. induction 1 as [|x g Hx _ IH]; [done|]. cbn [map concat].
  by rewrite IH, <- (fill_full _ _ Hx), Hb.
Qed.

Definition values32 (l : list bool) : list Z :=
  map val (groups 4 l).1 ++ (if bool_decide ((groups 4 l).2 = []) then [] else [fill 5 (groups 4 l).2]).

Lemma base32_values l : base32 l = map (cat BASE32A) (values32 l).
Proof.
  unfold base32, values32. destruct (groups 4 l) as [g r]. cbn [fst snd]. rewrite map_app, map_map.
  by destruct (bool_decide _).
Qed.

Lemma vbits_values l : exists k, (k < 5)%nat /\ vbits (values32 l) = l ++ repeat false k.
Proof.
  unfold values32, vbits. destruct (groups_spec 4 l) as (g & r & -> & -> & Hg & Hr). cbn [fst snd].
  assert (Hf : forall x, length x = 5%nat -> bits_n 5 (fill 5 x) = x).
  { intros x Hx. rewrite bits_fill5 by lia. rewrite Hx. by rewrite app_nil_r. }
  rewrite map_app, concat_app, (bits_of_groups 4 g Hf Hg).
  destruct (bool_decide (r = [])) eqn:Er.
  - apply bool_decide_eq_true in Er. subst r. exists 0%nat. split; [lia|]. cbn. by rewrite !app_nil_r.
  - apply bool_decide_eq_false in Er. exists (5 - length r)%nat.
    split; [destruct r; [done|simpl; lia]|]. cbn [map concat].
    rewrite bits_fill5, app_nil_r, app_assoc by lia. done.
Qed.

Lemma fill5_checked : on_bits 6 (fun r => (0 <=? fill 5 r) && (fill 5 r <? 32)) = true.
Proof. by vm_compute. Qed.
Lemma fill5_range r : (length r <= 5)%nat -> val5_ok (fill 5 r).
Proof.
  intros Hr. pose proof (on_bits_spec _ _ r fill5_checked ltac:(lia)) as H. cbv beta in H. zprop. by split.
Qed.

Lemma values32_range l : Forall val5_ok (values32 l).
Proof.
  unfold values32. destruct (groups_spec 4 l) as (g & r & -> & -> & Hg & Hr). cbn [fst snd].
  apply Forall_app. split.
  - rewrite Forall_map. eapply Forall_impl; [exact Hg|]. intros x Hx. cbv beta in *.
    rewrite <- (fill_full 5 x Hx). apply fill5_range. lia.
  - destruct (bool_decide _); constructor; [apply fill5_range; lia|done].
Qed.

(** A text of BASE32, whatever the case of its letters. *)
Definition base32_text (t : list Z) (l : list bool) : Prop :=
  t = base32 l \/ t = map tolower (base32 l).

Lemma base32_text_values t l : base32_text t l ->
  Forall2 (fun c v => de_char c = Some v /\ val5_ok v) t (values32 l).
Proof.
  intros Ht. pose proof (values32_range l) as Hv.
  assert (forall f, (forall v, val5_ok v -> de_char (f v) = Some v) ->
    Forall2 (fun c v => de_char c = Some v /\ val5_ok v) (map f (values32 l)) (values32 l)) as H.
  { intros f Hf. induction Hv as [|v vs Hv _ IH]; constructor; [by split; [apply Hf|]|done]. }
  assert (forall v, val5_ok v -> de_char (cat BASE32A v) = Some v /\
    de_char (tolower (cat BASE32A v)) = Some v) as Hc.
  { intros v Hv'. pose proof (zrange_all_spec _ _ de_char_checked v Hv') as E. cbv beta in E.
    apply andb_true_iff in E as [E1 E2]. apply bool_decide_eq_true in E1, E2. done. }
  destruct Ht as [-> | ->]; rewrite base32_values.
  - apply H. intros v Hv'. by apply Hc.
  - rewrite map_map. apply (H (fun v => tolower (cat BASE32A v))). intros v Hv'. by apply Hc.
Qed.

Lemma val8_checked : on_bits 9 (fun x => (0 <=? val x) && (val x <? 256)) = true.
Proof. by vm_compute. Qed.

Lemma deBase32_bits t l dsiz : base32_text t l -> zlen l / 8 + 2 < dsiz ->
  exists k, (0 < k <= 12)%nat /\ bits_of (deBase32 t (zlen t) dsiz) = l ++ repeat false k /\
  bytes_ok (deBase32 t (zlen t) dsiz).
Proof.
  intros Ht Hr. destruct (vbits_values l) as (k & Hk & Hv).
  pose proof (length_groups 7 (vbits (values32 l))) as [L1 L2].
  pose proof (de_chars_spec dsiz t _ (base32_text_values _ _ Ht) [] [] 0 ltac:(simpl; lia) eq_refl) as H.
  unfold deBase32.
  assert (take (Z.to_nat (zlen t)) t = t) as -> by (unfold zlen; rewrite Nat2Z.id; apply firstn_all).
  change (zlen []) with 0 in H. cbn [app] in H. rewrite Hv in *.
  destruct (groups_spec 7 (l ++ repeat false k)) as (g & r & Eg & El & Hg & Hr7). rewrite Eg in *.
  cbn [fst snd] in *. rewrite length_app, repeat_length in L1.
  destruct H as (o & -> & Ho).
  { unfold zlen in *. assert (Z.of_nat (length g) <= Z.of_nat (length l) / 8 + 1); [|lia].
    apply (Z.mul_le_mono_pos_l _ _ 8); [lia|]. pose proof (Z.div_mod (Z.of_nat (length l)) 8).
    pose proof (Z.mod_pos_bound (Z.of_nat (length l)) 8). lia. }
  assert (Hf : forall x, length x = 8%nat -> bits_n 8 (fill 8 x) = x).
  { intros x Hx. rewrite bits_fill8 by lia. rewrite Hx. by rewrite app_nil_r. }
  exists (k + (8 - length r))%nat. split; [lia|]. split.
  - unfold bits_of. rewrite map_app, concat_app, (bits_of_groups 7 g Hf Hg), Ho. cbn [map concat].
    rewrite app_nil_r, bits_fill8 by lia. rewrite app_assoc, <- El, <- app_assoc. f_equal.
    by rewrite repeat_app.
  - apply Forall_app. split; [|repeat constructor; unfold uchar; pose proof (Z.mod_pos_bound o 256); lia].
    rewrite Forall_map. eapply Forall_impl; [exact Hg|]. intros x Hx. cbv beta in *.
    pose proof (on_bits_spec _ _ x val8_checked ltac:(lia)) as H. cbv beta in H. zprop. by split.
Qed.

Lemma bits_n_inj v w : byte_ok v -> byte_ok w -> bits_n 8 v = bits_n 8 w -> v = w.
Proof.
  intros Hv Hw E.
  assert (forall v, byte_ok v -> val (bits_n 8 v) = v) as H.
  { intros x Hx. pose proof (zrange_all_spec 256 (fun v => val (bits_n 8 v) =? v) eq_refl x Hx) as H.
    cbv beta in H. zprop. done. }
  by rewrite <- (H v Hv), <- (H w Hw), E.
Qed.

Lemma bits_of_inj a : forall b, bytes_ok a -> bytes_ok b -> bits_of a = bits_of b -> a = b.
Proof.
  induction a as [|x a IH]; intros [|y b] Ha Hb E; try done.
  apply Forall_cons in Ha as [Hx Ha]. apply Forall_cons in Hb as [Hy Hb].
  change (bits_n 8 x ++ bits_of a = bits_n 8 y ++ bits_of b) in E.
  apply app_inj_1 in E as [E1 E2]; [|by rewrite !length_bits_n].
  by rewrite (bits_n_inj x y), (IH b).
Qed.

(** C31. What [enBase32] writes of any number of bits, [deBase32] reads back,
    in either case of the letters, when both are told sizes with room for the
    text and for two bytes more than the data: the same bits, followed by 1 to
    12 zeros up to the end of the byte that it always stores behind them.  Of
    whole bytes it gives these bytes and a 0. *)
Theorem base32_roundtrip (src : list Z) (sbits dsiz dsiz' : Z) (t : list Z) :
  bytes_ok src -> 0 <= sbits <= 8 * zlen src -> sbits < 5 * dsiz - 4 -> sbits / 8 + 2 < dsiz' ->
  t = enBase32 src sbits dsiz \/ t = map tolower (enBase32 src sbits dsiz) ->
  (exists k, (0 < k <= 12)%nat /\ bits_of (deBase32 t (zlen t) dsiz') =
    take (Z.to_nat sbits) (bits_of src) ++ repeat false k) /\
  (sbits = 8 * zlen src -> deBase32 t (zlen t) dsiz' = src ++ [0]).
Proof.
  intros Hs Hb Hr Hr' Ht. set (l := take (Z.to_nat sbits) (bits_of src)) in *.
  assert (Hl : zlen l = sbits).
  { unfold l, zlen in *. rewrite length_take, length_bits_of. lia. }
  pose proof (zlen_base32 l) as Hz.
  rewrite (enBase32_base32 src sbits dsiz Hs Hb) in Ht by (fold l; lia). fold l in Ht.
  destruct (deBase32_bits t l dsiz' Ht ltac:(by rewrite Hl)) as (k & Hk & E & Hok).
  split; [by exists k|]. intros Hw.
  assert (k = 8%nat) as ->.
  { apply (f_equal length) in E. rewrite length_app, repeat_length, length_bits_of in E.
    unfold zlen in Hl, Hw. lia. }
  apply bits_of_inj; [done|by apply Forall_app; split; [|repeat constructor]|].
  rewrite E. unfold bits_of. rewrite map_app, concat_app. f_equal. fold (bits_of src).
  unfold l. apply take_ge.
  rewrite length_bits_of. unfold zlen in Hw. lia.
Qed.

Lemma base32_roundtrip_witness :
  enBase32 [222; 173; 190; 239] 32 64 = cs "32W353Y" /\
  deBase32 (map tolower (enBase32 [222; 173; 190; 239] 32 64)) 7 64 = [222; 173; 190; 239; 0].
Proof.
  split; [by vm_compute|].
  apply (proj2 (base32_roundtrip [222; 173; 190; 239] 32 64 64
    (map tolower (enBase32 [222; 173; 190; 239] 32 64))
    ltac:(apply (bool_decide_unpack _); by vm_compute) ltac:(split; [lia|by compute]) ltac:(lia)
    ltac:(by compute) ltac:(by right))).
  reflexivity.
Defined.

(** The loop of [enBase32] asks for the room of one character, and stores
    two and then another one: a buffer of 2 gets 2 characters, and the end
    of the string comes behind it. *)
Lemma enBase32_overruns : enBase32 [222] 8 2 = cs "3Y" /\ zlen (enBase32 [222] 8 2) = 2.
Proof. by vm_compute. Qed.
(** [deBase32] stores a byte behind the last one of the data. *)
Lemma deBase32_adds_a_byte : deBase32 (cs "32W353Y") 7 64 = [222; 173; 190; 239; 0].
Proof. by vm_compute. Qed.
