(* ===== verification/Field.v ===== *)
(** * The fields of message headers ([mimekit/rfc822.cpp])

    A header is a text of fields; a field is a line that begins with its
    name, and the lines behind it that begin with a blank.  The text behind
    the empty line that ends the header is the body.  The functions here find
    fields, take their values, remove, replace, add and filter them, in the
    array of the head itself.

    A pointer into a head is the rest of the text from there; [before] is
    what is in front of it.  [room] is the size of the array of the head: what
    does not fit into it is cut ([fits], cf. [VStr]). *)
From S2P Require Import Prelude VStr Strings Text.
From stdpp Require Import options.

Definition MAX_MIMEHEAD : nat := Z.to_nat 131072.

(** ** Finding fields *)

Definition fsep (c : Z) : bool := (c =? 58) || (c =? SP).

(** The value of a field, from the end of its name on. *)
Definition field_value (csp : list Z) : list Z :=
  let csp := skip_sp csp in
  skip_sp (if cat csp 0 =? 58 then tl csp else csp).

(** [findField]: the field and its value; without a name ([NULL] or empty)
    the head itself and the first value in it. *)
Fixpoint findField_loop (fuel : nat) (head csp field : list Z) : option (list Z * list Z) :=
  match fuel with
  | O => None
  | S fuel =>
      match csp with
      | [] => None
      | _ =>
          let flen := length field in
          let csp := if Nat.eqb flen 0 then seek fsep csp else csp in
          if (Nat.eqb flen 0 || strncaseeq csp field flen) && fsep (cat csp (Z.of_nat flen))
          then
            if Nat.eqb flen 0 then Some (head, field_value csp)
            else Some (csp, field_value (drop flen csp))
          else match seek (Z.eqb LF) csp with
               | _ :: nsp => findField_loop fuel head nsp field
               | [] => None
               end
      end
  end.
Definition findField (head field : list Z) : option (list Z * list Z) :=
  findField_loop (S (length head)) head head field.

Definition findFieldValue (head field : list Z) : option (list Z) := snd <$> findField head field.

(** [rmField]: [ovstrcpy(fp,np+1)] until the field is not found. *)
Fixpoint rmField_loop (fuel : nat) (head field : list Z) (nf : Z) : list Z * Z :=
  match fuel with
  | O => (head, nf)
  | S fuel =>
      match findField head field with
      | Some (fp, _) => rmField_loop fuel (before head fp ++ tl (seek (Z.eqb LF) fp)) field (nf + 1)
      | None => (head, nf)
      end
  end.
Definition rmField (head field : list Z) : list Z * Z := rmField_loop (S (length head)) head field 0.

(** ** Values *)

(** The loop of [RFC822_valuescan] with [n] more characters to read; [pch] is
    the last one stored.  What is stored, and the position behind. *)
Fixpoint value_loop (n : nat) (pch : Z) (vp : list Z) : list Z * list Z :=
  match n, vp with
  | S n, ch :: vp =>
      if ch =? CR then value_loop n pch vp
      else if ch =? LF then
        if isblank (cat vp 0) then value_loop n pch vp else ([], vp)
      else
        let ch := if ch =? TAB then SP else ch in
        if (ch =? SP) && (pch =? SP) then value_loop n pch vp
        else let '(o, r) := value_loop n ch vp in (ch :: o, r)
  | _, _ => ([], vp)
  end.
Definition RFC822_valuescan (vp : list Z) (value : vstr) (size : Z) : vstr * list Z :=
  let '(o, r) := value_loop (Z.to_nat (size - 1)) (-1) vp in (emitted value o, r).

(** [RFC822_valuescan] into a buffer of its own of [size] bytes. *)
Definition valscan (vp : list Z) (size : nat) : list Z := (value_loop (size - 1) (-1) vp).1.

Definition getFieldValue (head field : list Z) (size : nat) : option (list Z) :=
  (fun vp => valscan vp size) <$> findFieldValue head field.

(** The name, of up to 63 characters, and the value of the field at [head]. *)
Definition RFC822_decompField2 (head : list Z) (size : nat) : list Z * list Z :=
  let '(fname, hp) := wordscan head 64 (cs "^ :") in
  (fname, valscan (if fsep (cat hp 0) then tl hp else hp) size).

(** ** The ends of fields and of the head *)

(** [top] is set at the beginning of a line. *)
Fixpoint nextField_loop (ignEOH top : bool) (np : list Z) : list Z :=
  match np with
  | nc :: np' =>
      if top then
        if isblank nc then nextField_loop ignEOH false np'
        else if negb ignEOH || negb (iseol nc) then np
        else nextField_loop ignEOH top np'
      else nextField_loop ignEOH (nc =? LF) np'
  | [] => []
  end.
Definition nextField (field : list Z) (ignEOH : bool) : list Z := nextField_loop ignEOH false field.

(** The end of the head: an empty line or a line of a dot.  [hx] is how much
    of the text is left, where a length is given. *)
Fixpoint strSeekEOH_loop (hx : option nat) (top : bool) (hp : list Z) : option (list Z) :=
  match hp with
  | [] => Some []
  | ch :: hp' =>
      if bool_decide (hx = Some 0%nat) then None
      else if top && (iseol ch || (ch =? 46) && iseol (cat hp' 0)) then Some hp
      else strSeekEOH_loop (pred <$> hx) (ch =? LF) hp'
  end.
Definition strSeekEOHX (head : list Z) (len : nat) : option (list Z) :=
  strSeekEOH_loop (if Nat.eqb len 0 then None else Some len) true head.
Definition strSeekEOH (head : list Z) : list Z := default [] (strSeekEOHX head 0).

(** [copyHeader]: without the ends of line behind an end of line. *)
Fixpoint copyHeader_loop (skip : bool) (src : list Z) : list Z :=
  match src with
  | ch :: src =>
      if skip && iseol ch then copyHeader_loop skip src
      else ch :: copyHeader_loop (ch =? LF) src
  | [] => []
  end.
Definition copyHeader (src : list Z) : list Z := copyHeader_loop false src.

(** ** Replacing and adding *)

Definition head_EOL (head : list Z) : list Z :=
  match strstr head CRLF with Some _ => CRLF | None => [LF] end.

(** A text without the LF, and the CR before it, at its end. *)
Definition chop_eol (s : list Z) : list Z :=
  if strtailchr s =? LF
  then let s := removelast s in if strtailchr s =? CR then removelast s else s
  else s.

Definition replaceFieldValue (room : nat) (head field value : list Z) : list Z * Z :=
  match findFieldValue head field with
  | None =>
      let np := strSeekEOH head in
      (fits room (before head np ++ field ++ cs ": " ++ value ++ head_EOL head ++ fits MAX_MIMEHEAD np), 0)
  | Some esp =>
      if strncaseeq esp value (length value) && strcasecmp_eq (linescan esp MAX_MIMEHEAD) value
      then (head, 0)
      else
        let np := drop (length (chop_eol (before esp (nextField esp false)))) esp in
        (fits room (before head esp ++ copyHeader value ++ fits MAX_MIMEHEAD np), 1)
  end.

(** In front of the empty line at the end of [dst], or at its beginning. *)
Definition RFC822_addHeaderField (room : nat) (dst src : list Z) : list Z :=
  match strstr dst (CRLF ++ CRLF) with
  | Some tp =>
      if cat tp 4 =? 0 then fits room (before dst tp ++ CRLF ++ copyHeader src ++ CRLF)
      else fits room (copyHeader src ++ dst)
  | None => fits room (copyHeader src ++ dst)
  end.

(** ** Removing and filtering *)

(** [removeField1]: the field that begins at [fi1]. *)
Definition removeField1 (head fi1 : list Z) : list Z := before head fi1 ++ nextField fi1 false.

(** [removeFields]: [skip] is set in a field that is removed. *)
Fixpoint removeFields_loop (field : list Z) (wild top skip : bool) (nrem : Z) (sp : list Z)
  : list Z * Z :=
  match sp with
  | ch :: sp' =>
      let flen := length field in
      let here := top && bool_decide (take flen sp = field) &&
                  (wild || fsep (cat sp (Z.of_nat flen))) in
      let skip := if here then true
                  else if top && negb (isblank ch) then false else skip in
      let nrem := if here then nrem + 1 else nrem in
      let '(d, nrem) := removeFields_loop field wild (ch =? LF) skip nrem sp' in
      (if skip then d else ch :: d, nrem)
  | [] => ([], nrem)
  end.
Definition removeFields (head field : list Z) (wild : bool) : list Z * Z :=
  removeFields_loop field wild true false 0 head.

(** The end of the head at [hp], for [filterFields]. *)
Definition at_EOH (hp : list Z) : bool :=
  iseol (cat hp 0) || (cat hp 0 =? 46) && iseol (cat hp 1).

(** The fields of the head for one line of the specification: [pre] is what
    is in front of [hp], [hbp] what has been passed. *)
Fixpoint filter_head (fuel : nat) (pass : bool) (field aval pre hp hbp : list Z)
  : list Z * list Z :=
  match fuel, hp with
  | S fuel, _ :: _ =>
      let flen := length field in
      let amatch := strncaseeq hp field flen && (cat hp (Z.of_nat flen) =? 58) &&
                    (if strstr (drop (S flen) hp) aval then true else false) in
      let tp := nextField hp false in
      let this := before hp tp in
      let '(pre, hbp) := if pass then (pre ++ this, if amatch then hbp ++ this else hbp)
                         else (if amatch then pre else pre ++ this, hbp) in
      if at_EOH tp then (pre ++ tp, hbp) else filter_head fuel pass field aval pre tp hbp
  | _, _ => (pre ++ hp, hbp)
  end.

Definition PassP : list Z := cs "Pass/".
Definition RemoveP : list Z := cs "Remove/".

Fixpoint spec_passes (fuel : nat) (sp : list Z) : bool :=
  match fuel, sp with
  | S fuel, _ :: _ => strncaseeq sp PassP 5 || spec_passes fuel (nextField sp true)
  | _, _ => false
  end.

Fixpoint filter_specs (fuel : nat) (pass : bool) (sp head hbp : list Z) : list Z * list Z :=
  match fuel, sp with
  | S fuel, _ :: _ =>
      let '(head, hbp) :=
        if strncaseeq sp (if pass then PassP else RemoveP) (if pass then 5 else 7)
        then
          let '(field, aval) := scan_field1 (drop (if pass then 5 else 7) sp) 1024 1024 in
          filter_head (S (length head)) pass field aval [] head hbp
        else (head, hbp) in
      filter_specs fuel pass (nextField sp true) head hbp
  | _, _ => (head, hbp)
  end.

(** What is passed is copied into an array of the size of the head. *)
Definition filterFields (spec head : list Z) : list Z :=
  let fuel := S (length spec) in
  let pass := spec_passes fuel spec in
  let '(head', hbp) := filter_specs fuel pass spec head [] in
  if pass then fits (S (length head)) (hbp ++ strSeekEOH head') else head'.

(** [matchFields]: nothing is specified of the field ([Some []]), the place
    where the specification fits, or [None]. *)
Fixpoint matchFields_loop (fuel : nat) (afield field ivalue : list Z) : option (list Z) :=
  match fuel with
  | O => None
  | S fuel =>
      let tail := bool_decide (take 5 afield = cs "Tail/") in
      let afield := if tail then drop 5 afield else afield in
      let aval := default [] (getFieldValue afield field 1024) in
      let found := if tail then bool_decide (strtailstr ivalue aval <> None)
                   else bool_decide (strstr ivalue aval <> None) in
      if found then Some afield
      else match findField (tl afield) field with
           | Some (afield, _) => matchFields_loop fuel afield field ivalue
           | None => None
           end
  end.
Definition matchFields (spec field ivalue : list Z) : option (list Z) :=
  match findField spec field with
  | None => Some []
  | Some (afield, _) => matchFields_loop (S (length spec)) afield field ivalue
  end.

(** ** White space and comments *)

(** The loop of [RFC822_strip_lwsp]: [n] characters fit, [first] is set while
    nothing is stored, [pc] is the last character stored. *)
Fixpoint strip_lwsp_loop (n : nat) (first : bool) (pc : Z) (sp : list Z) : list Z :=
  match n, sp with
  | S n', sc :: sp' =>
      if iseol sc then strip_lwsp_loop n first pc sp'
      else if isblank sc then
        if first || iseol (cat sp' 0) || (cat sp' 0 =? 0) || (pc =? SP)
        then strip_lwsp_loop n first pc sp'
        else SP :: strip_lwsp_loop n' false SP sp'
      else sc :: strip_lwsp_loop n' false sc sp'
  | _, _ => []
  end.
Definition RFC822_strip_lwsp (src : list Z) (size : nat) : list Z :=
  strip_lwsp_loop (size - 1) true 0 src.

Fixpoint strip_comment_loop (n : nat) (lev : Z) (skip : bool) (sp : list Z) : list Z :=
  match n, sp with
  | S n', sc :: sp' =>
      if skip then strip_comment_loop n lev false sp'
      else if sc =? 40 then strip_comment_loop n (lev + 1) false sp'
      else if sc =? 41 then
        strip_comment_loop n (lev - 1) ((lev - 1 =? 0) && isblank (cat sp' 0)) sp'
      else if lev =? 0 then sc :: strip_comment_loop n' lev false sp'
      else strip_comment_loop n lev false sp'
  | _, _ => []
  end.
Definition RFC822_strip_commentX (src : list Z) (siz : nat) : list Z :=
  strip_comment_loop (siz - 1) 0 false src.

(** ** Content types and character sets *)

Definition CHARSETEQ : list Z := cs "charset=".

Definition charset_namelen (name : list Z) : nat :=
  length (span (fun nc => (nc =? 95) || (nc =? 45) || isalnum nc) (length name) name).1.

Definition insert_ctype (room : nat) (head ctype : list Z) : list Z :=
  let EOL := head_EOL head in
  let ctp := strSeekEOH head in
  let ver := match findFieldValue head (cs "MIME-Version") with
             | None => cs "MIME-Version: 1.0 (generated by MimeKit/1.8)" ++ EOL
             | Some _ => []
             end in
  fits room (before head ctp ++ ver ++ cs "Content-Type: " ++ ctype ++ EOL ++ fits MAX_MIMEHEAD ctp).

(** The name in the [charset] parameter, or [None] where there is none, and
    its length. *)
Definition charset_at (ctype : list Z) : option (list Z) :=
  (fun csp => let csp := drop 8 csp in if cat csp 0 =? 34 then tl csp else csp) <$>
  Strcasestr ctype CHARSETEQ.
Definition get_charset (ctype : list Z) (size : nat) : option (list Z) * Z :=
  match charset_at ctype with
  | Some csp =>
      let len := charset_namelen csp in
      (Some (if Nat.ltb size (len + 1) then fits size csp else fits (len + 1) csp), Z.of_nat len)
  | None => (None, 0)
  end.

(** [erase_charset_param]: the text, the length erased and the name; the
    space in front of the name goes with it, or the semicolon if there is no
    space. *)
Fixpoint erase_loop (fuel : nat) (ctype sp : list Z) : list Z * Z * list Z :=
  match fuel, sp with
  | S fuel, ch :: sp' =>
      if ch =? 59 then
        let rest := skip_spaces sp' in
        let spp := drop (length sp - (length rest + 1)) sp in
        if strncaseeq rest CHARSETEQ 8
        then let '(cset, np) := valuescan (drop 8 rest) 32 in
             (before ctype spp ++ np, zlen spp - zlen np, cset)
        else erase_loop fuel ctype rest
      else erase_loop fuel ctype sp'
  | _, _ => (ctype, 0, [])
  end.
Definition erase_charset_param (ctype : list Z) : list Z * Z * list Z :=
  erase_loop (S (length ctype)) ctype ctype.

Definition replace_charset_value (room : nat) (ctype charset : list Z) (force : bool) : list Z * Z :=
  match charset_at ctype with
  | Some csp =>
      if strncaseeq csp charset (length charset) then (ctype, 0)
      else
        let tmp := fits MAX_MIMEHEAD (drop (charset_namelen csp) csp) in
        (fits room (before ctype csp ++ copyHeader charset ++ (erase_charset_param tmp).1.1), 1)
  | None =>
      let cst := seek (fun c => (c =? 59) || iseol c) ctype in
      if bool_decide (cst = []) && negb force then (ctype, 0)
      else (fits room (before ctype cst ++ copyHeader (cs "; charset=" ++ charset) ++ fits MAX_MIMEHEAD cst), 1)
  end.

Definition replace_charset (room : nat) (head : list Z) (charset : option (list Z)) : list Z * Z :=
  match charset with
  | None => (head, 0)
  | Some charset =>
      match findFieldValue head (cs "Content-Type") with
      | None => (insert_ctype room head (fits 1024 (cs "text/plain; charset=" ++ charset)), 0)
      | Some ctp =>
          let pre := before head ctp in
          let '(ctp, r) := replace_charset_value (room - length pre) ctp charset false in
          (pre ++ ctp, r)
      end
  end.

Definition replaceContentType (room : nat) (head type : list Z) : list Z * Z :=
  match findFieldValue head (cs "Content-Type") with
  | None => (fits room (cs "Content-Type: " ++ type ++ CRLF ++ head), 0)
  | Some ctp =>
      let cst := seek (fun c => (c =? 59) || iseol c) ctp in
      if bool_decide (cst = []) then (head, -1)
      else (fits room (before head ctp ++ type ++ fits MAX_MIMEHEAD cst), 1)
  end.
