(* ===== verification/FieldSpec.v ===== *)
(** * What the functions on headers do

    A head is its lines, and its fields are groups of lines.  The functions
    of [Field] work on the characters of the array; here they are shown to
    be what they mean on lines and fields. *)
From S2P Require Import Prelude VStr Strings Text Field.
From stdpp Require Import options.

(** ** Lines *)

(** The line has the field's name, in any case, in front of a colon or a
    space. *)
Definition has_name (field l : list Z) : bool :=
  strncaseeq l field (length field) && fsep (cat l (zlen field)).

Definition name_ok (field : list Z) : Prop := field <> [] /\ noLF field.

Lemma tolower_LF c : tolower c = LF -> c = LF.
Proof. unfold tolower, isupper, LF. intros H. destruct (_ && _) eqn:E; zprop; lia. Qed.

Lemma noLF_lower x : noLF x <-> LF ∉ map tolower x.
Proof.
  unfold noLF. split; intros H Hin.
  - apply list_elem_of_fmap in Hin as (c & Hc & Hin). symmetry in Hc. apply tolower_LF in Hc. by subst.
  - apply H. apply list_elem_of_fmap. by exists LF.
Qed.

Lemma cat_app_l a b i : 0 <= i < zlen a -> cat (a ++ b) i = cat a i.
Proof.
  revert i. induction a as [|c a IH]; intros i Hi; [unfold zlen in Hi; simpl in Hi; lia|].
  rewrite zlen_cons in Hi. cbn [app]. destruct (decide (i = 0)) as [->|]; [by rewrite !cat_0|].
  replace i with (i - 1 + 1) by lia. rewrite !cat_succ by lia. apply IH. lia.
Qed.

(** The test of [findField] looks at one line only. *)
Lemma has_name_line field x r : name_ok field -> noLF x ->
  has_name field (x ++ LF :: r) = has_name field (x ++ [LF]).
Proof.
  intros [Hf0 Hf] Hx. unfold has_name.
  destruct (decide (length field <= length x)%nat) as [Hl|Hl].
  - assert (forall r, strncaseeq (x ++ LF :: r) field (length field) = strncaseeq x field (length field)) as E.
    { intros r'. unfold strncaseeq. by rewrite take_app_le. }
    rewrite !E. f_equal. replace (x ++ LF :: r) with ((x ++ [LF]) ++ r) by by rewrite <- app_assoc.
    rewrite cat_app_l; [done|]. rewrite zlen_app. unfold zlen. simpl. lia.
  - assert (forall r, strncaseeq (x ++ LF :: r) field (length field) = false) as E; [|by rewrite !E].
    intros r'. unfold strncaseeq, strcasecmp_eq. apply bool_decide_eq_false. intros E.
    rewrite (take_ge field) in E by lia. apply noLF_lower in Hf. rewrite <- E in Hf. apply Hf.
    apply list_elem_of_fmap. exists LF. split; [done|].
    rewrite take_app_ge by lia. apply elem_of_app. right.
    destruct (length field - length x)%nat eqn:En; [lia|]. cbn. by constructor.
Qed.

(** [findField] is the first line with the name. *)
Lemma findField_loop_lines head field fuel csp : name_ok field -> (length csp < fuel)%nat ->
  findField_loop fuel head csp field =
  match seek (has_name field) (lines csp) with
  | [] => None
  | ls => Some (concat ls, field_value (drop (length field) (concat ls)))
  end.
Proof.
  intros Hf. revert fuel. pose proof Hf as [Hf0 Hf1].
  assert (Nat.eqb (length field) 0 = false) as E0 by (by destruct field).
  induction csp as [|x Hx Hn|x r Hn IH] using line_ind; intros fuel Hfuel.
  - by destruct fuel.
  - destruct fuel as [|fuel]; [lia|]. rewrite lines_noLF by done. cbn [findField_loop seek].
    destruct x as [|c x]; [done|]. rewrite E0. cbn [orb]. unfold has_name at 1.
    change (zlen field) with (Z.of_nat (length field)).
    destruct (_ && _); [by rewrite concat_cons, app_nil_r|].
    rewrite <- (app_nil_r (c :: x)), seek_noLF by done. done.
  - destruct fuel as [|fuel]; [lia|]. rewrite lines_line by done. cbn [findField_loop seek].
    rewrite <- has_name_line with (r := r) by done.
    rewrite E0. cbn [orb]. unfold has_name at 1. change (zlen field) with (Z.of_nat (length field)).
    destruct (x ++ LF :: r) as [|c s] eqn:Es; [by destruct x|]. rewrite <- Es in Hfuel |- *.
    destruct (_ && _).
    + cbn [concat]. rewrite concat_lines, <- app_assoc. done.
    + rewrite seek_noLF by done. cbn [seek]. rewrite Z.eqb_refl, IH; [done|].
      rewrite length_app in Hfuel. simpl in Hfuel. lia.
Qed.

(** [findField] with a name gives the first line of the text that
    begins with the name, in any case, and a colon or a space, and the value
    behind it; if there is none, nothing. *)
Theorem findField_first_line (head field : list Z) :
  field <> [] -> LF ∉ field ->
  findField head field =
  match seek (has_name field) (lines head) with
  | [] => None
  | ls => Some (concat ls, field_value (drop (length field) (concat ls)))
  end.
Proof. intros H1 H2. apply findField_loop_lines; [by split|lia]. Qed.

(** ** Removing lines *)

Lemma filter_none {A} (p : A -> bool) l : seek p l = [] -> List.filter (fun x => negb (p x)) l = l.
Proof.
  induction l as [|x l IH]; [done|]. cbn. destruct (p x); [done|]. intros H. cbn. by rewrite IH.
Qed.
Lemma seek_filter {A} (p : A -> bool) l : seek p (List.filter (fun x => negb (p x)) l) = [].
Proof. induction l as [|x l IH]; [done|]. cbn. destruct (p x) eqn:E; cbn; [done|by rewrite E]. Qed.

Lemma wf_line_tail x ls : wf_lines (x :: ls) ->
  tl (seek (Z.eqb LF) (concat (x :: ls))) = concat ls.
Proof.
  inversion 1 as [|y Hy Hn|y ls' Hn Hw]; subst; cbn [concat].
  - rewrite app_nil_r. rewrite <- (app_nil_r x), seek_noLF by done. done.
  - rewrite <- app_assoc, seek_noLF by done. cbn [app seek]. by rewrite Z.eqb_refl.
Qed.

Lemma sublist_delete {A} (a : list A) x b : sublist (a ++ b) (a ++ x :: b).
Proof. apply sublist_app; [done|]. by constructor. Qed.

Lemma wf_lines_app_r a b : wf_lines (a ++ b) -> wf_lines b.
Proof. intros H. eapply wf_lines_sub; [exact H|]. by apply sublist_inserts_l. Qed.

Lemma rmField_loop_lines field fuel : name_ok field -> forall ls nf,
  wf_lines ls -> (length ls < fuel)%nat ->
  rmField_loop fuel (concat ls) field nf =
  (concat (List.filter (fun l => negb (has_name field l)) ls),
   nf + zlen (List.filter (has_name field) ls)).
Proof.
  intros Hf. induction fuel as [|fuel IH]; intros ls nf Hw Hl; [lia|]. cbn [rmField_loop].
  unfold findField. rewrite findField_loop_lines, lines_concat by (done || lia).
  destruct (seek_split (has_name field) ls) as (a & Ea & Ha & Hs).
  assert (List.filter (has_name field) a = []) as Ha1.
  { clear -Ha. induction Ha as [|x a Hx _ IH]; [done|]. cbn. by rewrite Hx. }
  assert (List.filter (fun l => negb (has_name field l)) a = a) as Ha2.
  { clear -Ha. induction Ha as [|x a Hx _ IH]; [done|]. cbn. by rewrite Hx, IH. }
  destruct (seek (has_name field) ls) as [|l post] eqn:Es.
  - rewrite app_nil_r in Ea. subst a. rewrite Ha1, Ha2. f_equal. rewrite zlen_nil. lia.
  - cbv beta iota zeta. assert (before (concat ls) (concat (l :: post)) = concat a) as ->.
    { rewrite Ea, concat_app. apply before_app. }
    rewrite wf_line_tail, <- concat_app by (rewrite Ea in Hw; by eapply wf_lines_app_r).
    rewrite IH.
    + rewrite Ea, !List.filter_app. cbn [List.filter]. rewrite Hs, Ha1. cbn [negb app]. f_equal.
      rewrite zlen_cons. lia.
    + eapply wf_lines_sub; [exact Hw|]. rewrite Ea at 1. apply sublist_delete.
    + rewrite Ea, length_app in Hl. rewrite length_app. simpl in Hl. lia.
Qed.

Lemma length_lines s : (length (lines s) <= length s)%nat.
Proof.
  induction s as [|x Hx Hn|x r Hn IH] using line_ind; [done| |].
  - rewrite lines_noLF by done. destruct x; [done|]. simpl. lia.
  - rewrite lines_line by done. rewrite length_app. simpl. lia.
Qed.

(** [rmField] comes to an end on every text, and takes out all the
    lines that begin with the name, and no other: then the field is not
    found any more.  It returns the number of the lines. *)
Theorem rmField_removes_lines (head field : list Z) :
  field <> [] -> LF ∉ field ->
  let '(head', nf) := rmField head field in
  head' = concat (List.filter (fun l => negb (has_name field l)) (lines head)) /\
  nf = zlen (List.filter (has_name field) (lines head)) /\
  findField head' field = None.
Proof.
  intros H1 H2. assert (name_ok field) as Hf by done.
  assert (rmField head field =
    (concat (List.filter (fun l => negb (has_name field l)) (lines head)),
     zlen (List.filter (has_name field) (lines head)))) as E.
  { unfold rmField. pose proof (concat_lines head) as Ec. set (n := S (length head)).
    rewrite <- Ec at 1. clear Ec. subst n.
    rewrite rmField_loop_lines; [done|done|apply wf_lines_lines|pose proof (length_lines head); lia]. }
  rewrite E. split_and!; [done..|]. unfold findField. rewrite findField_loop_lines by (done || lia).
  rewrite lines_concat, seek_filter; [done|].
  eapply wf_lines_sub; [apply (wf_lines_lines head)|]. clear.
  induction (lines head) as [|l ls IH]; [done|]. cbn. destruct (negb _); by constructor.
Qed.

Lemma rmField_removes_lines_witness :
  let '(head', nf) :=
    rmField (cs "To: a" ++ CRLF ++ cs "X-A: 1" ++ CRLF ++ cs "x-a : 2" ++ CRLF ++ CRLF) (cs "X-A") in
  findField head' (cs "X-A") = None /\ nf = 2.
Proof.
  pose proof (rmField_removes_lines
    (cs "To: a" ++ CRLF ++ cs "X-A: 1" ++ CRLF ++ cs "x-a : 2" ++ CRLF ++ CRLF) (cs "X-A")
    ltac:(done) ltac:(apply (bool_decide_unpack _); by vm_compute)) as H.
  destruct (rmField _ _) as [head' nf]. destruct H as (_ & -> & H). split; [exact H|by vm_compute].
Defined.

(** ** Fields *)

(** The lines with the ones that go on with them. *)
Fixpoint group (ls : list (list Z)) : list (list Z) :=
  match ls with
  | [] => []
  | l :: ls' =>
      match group ls' with
      | f :: fs => if isblank (cat f 0) then (l ++ f) :: fs else l :: f :: fs
      | [] => [l]
      end
  end.
Definition fields (head : list Z) : list (list Z) := group (lines head).

Lemma concat_group ls : concat (group ls) = concat ls.
Proof.
  induction ls as [|l ls IH]; [done|]. cbn [group concat]. destruct (group ls) as [|f fs].
  - by rewrite <- IH.
  - cbn [concat] in *. destruct (isblank _); cbn [concat]; rewrite <- IH; [by rewrite app_assoc|done].
Qed.

Lemma concat_fields head : concat (fields head) = head.
Proof. unfold fields. by rewrite concat_group, concat_lines. Qed.

Lemma group_head l ls : exists f fs, group (l :: ls) = f :: fs /\ exists k, f = l ++ k.
Proof.
  cbn [group]. destruct (group ls) as [|f fs]; [exists l, []|destruct (isblank _); [exists (l ++ f), fs|exists l, (f :: fs)]];
    (split; [done|]); [exists []|by eexists|exists []]; by rewrite app_nil_r.
Qed.

(** *** [nextField] *)

Lemma nextField_noLF ig x : noLF x -> nextField_loop ig false x = [].
Proof.
  induction x as [|c x IH]; [done|]. intros [Hc Hx]%noLF_cons. cbn [nextField_loop].
  rewrite (proj2 (Z.eqb_neq c LF)) by done. by apply IH.
Qed.

Lemma nextField_line ig x r : noLF x -> nextField_loop ig false (x ++ LF :: r) = nextField_loop ig true r.
Proof.
  induction x as [|c x IH]; [done|]. intros [Hc Hx]%noLF_cons. cbn [app nextField_loop].
  rewrite (proj2 (Z.eqb_neq c LF)) by done. by apply IH.
Qed.

Lemma isblank_neq_LF c : isblank c = true -> (c =? LF) = false.
Proof. unfold isblank, SP, TAB, LF. intros H. apply orb_true_iff in H as [H|H]; zprop; lia. Qed.

Lemma nextField_group ls : wf_lines ls -> nextField (concat ls) false = concat (tl (group ls)).
Proof.
  unfold nextField. induction 1 as [|x Hx Hn|x ls Hn Hw IH]; [done| |].
  - cbn [concat]. by rewrite app_nil_r, nextField_noLF.
  - cbn [concat group]. rewrite <- app_assoc. cbn [app]. rewrite nextField_line by done.
    destruct ls as [|l ls]; [done|]. destruct (group_head l ls) as (f & fs & Eg & k & Ef).
    rewrite Eg in *. cbn [tl] in IH. rewrite <- concat_group, Eg. cbn [concat].
    rewrite <- (concat_group (l :: ls)), Eg in IH. cbn [concat] in IH.
    assert (f <> []) as Hf. { inversion Hw; subst; by destruct x0 || (destruct l; done). }
    destruct f as [|c f]; [done|]. cbn [app nextField_loop] in *. rewrite cat_0.
    destruct (isblank c) eqn:Eb; [|done]. by rewrite isblank_neq_LF in IH.
Qed.

(** *** [removeFields] *)

Definition begins (field : list Z) (wild : bool) (l : list Z) : bool :=
  bool_decide (take (length field) l = field) && (wild || fsep (cat l (zlen field))).

Lemma begins_line field wild x r : noLF field -> noLF x -> field <> [] ->
  begins field wild (x ++ LF :: r) = begins field wild (x ++ [LF]).
Proof.
  intros Hf Hx H0. unfold begins. destruct (decide (length field <= length x)%nat) as [Hl|Hl].
  - rewrite !take_app_le by done. f_equal. f_equal. f_equal.
    replace (x ++ LF :: r) with ((x ++ [LF]) ++ r) by by rewrite <- app_assoc.
    rewrite cat_app_l; [done|]. rewrite zlen_app. unfold zlen. simpl. lia.
  - assert (forall r, bool_decide (take (length field) (x ++ LF :: r) = field) = false) as E; [|by rewrite !E].
    intros r'. apply bool_decide_eq_false. intros E. rewrite <- E in Hf. apply Hf.
    rewrite take_app_ge by lia. apply elem_of_app. right.
    destruct (length field - length x)%nat eqn:En; [lia|]. cbn. by constructor.
Qed.

(** The lines that are kept, in a field that is removed if [skip]. *)
Fixpoint kept (p : list Z -> bool) (skip : bool) (ls : list (list Z)) : list (list Z) :=
  match ls with
  | [] => []
  | l :: ls =>
      let skip := if p l then true else if isblank (cat l 0) then skip else false in
      if skip then kept p skip ls else l :: kept p skip ls
  end.

Section kept.
Context (p : list Z -> bool).
Hypothesis p_line : forall x k, noLF x -> p (x ++ LF :: k) = p (x ++ [LF]).
Hypothesis p_blank : forall l, isblank (cat l 0) = true -> p l = false.

Lemma p_group l ls f fs : wf_lines (l :: ls) -> group ls = f :: fs -> p (l ++ f) = p l.
Proof using p_line.
  inversion 1 as [|y Hy Hn|y ls' Hn Hw]; subst; [done|]. intros _. rewrite <- app_assoc. by apply p_line.
Qed.

Lemma kept_group ls : wf_lines ls -> forall skip,
  concat (kept p skip ls) =
  match group ls with
  | [] => []
  | f :: fs => (if (if p f then true else if isblank (cat f 0) then skip else false) then [] else f) ++
               concat (List.filter (fun f => negb (p f)) fs)
  end.
Proof using p_line p_blank.
  induction ls as [|l ls IH]; intros Hw skip; [done|].
  assert (l <> [] /\ wf_lines ls) as [Hl Hn].
  { inversion Hw; subst; (split; [|by auto with dg]); [done|by destruct x]. }
  assert (forall k, cat (l ++ k) 0 = cat l 0) as Hc by (intros k; by destruct l).
  cbn [kept]. set (sk := if p l then _ else _). specialize (IH Hn sk).
  assert (concat (if sk then kept p sk ls else l :: kept p sk ls) = (if sk then [] else l) ++ concat (kept p sk ls))
    as -> by (by destruct sk). rewrite IH. clear IH. cbn [group].
  destruct (group ls) as [|f fs] eqn:Eg.
  - cbn [List.filter concat]. fold sk. done.
  - destruct (isblank (cat f 0)) eqn:Ef.
    + rewrite (p_group l ls f fs), Hc by done. fold sk. rewrite (p_blank f Ef).
      destruct sk; [done|]. by rewrite app_assoc.
    + fold sk. cbn [List.filter]. destruct (p f); cbn [negb concat]; by destruct sk.
Qed.

Lemma count_group ls : wf_lines ls -> zlen (List.filter p (group ls)) = zlen (List.filter p ls).
Proof using p_line p_blank.
  induction ls as [|l ls IH]; intros Hw; [done|].
  assert (wf_lines ls) as Hn by (inversion Hw; subst; auto with dg). specialize (IH Hn).
  cbn [group]. destruct (group ls) as [|f fs] eqn:Eg.
  - cbn [List.filter] in *. destruct (p l); rewrite ?zlen_cons, <- IH; done.
  - destruct (isblank (cat f 0)) eqn:Ef; cbn [List.filter] in *.
    + rewrite (p_blank f Ef) in IH. rewrite (p_group l ls f fs) by done.
      destruct (p l); rewrite ?zlen_cons, <- IH; done.
    + destruct (p l), (p f); rewrite ?zlen_cons in *; lia.
Qed.
End kept.

Lemma removeFields_in field wild skip n x : noLF x -> forall r,
  removeFields_loop field wild false skip n (x ++ LF :: r) =
  (let '(d, m) := removeFields_loop field wild true skip n r in (if skip then d else x ++ LF :: d, m)).
Proof.
  induction x as [|c x IH]; intros Hx r.
  - cbn [app removeFields_loop andb]. rewrite Z.eqb_refl. by destruct (removeFields_loop _ _ _ _ _ _), skip.
  - apply noLF_cons in Hx as [Hc Hx]. cbn [app removeFields_loop andb].
    rewrite (proj2 (Z.eqb_neq c LF)), IH by done. by destruct (removeFields_loop _ _ _ _ _ _), skip.
Qed.

Lemma removeFields_last field wild skip n x : noLF x ->
  removeFields_loop field wild false skip n x = (if skip then [] else x, n).
Proof.
  induction x as [|c x IH]; intros Hx; [by destruct skip|].
  apply noLF_cons in Hx as [Hc Hx]. cbn [removeFields_loop andb].
  rewrite (proj2 (Z.eqb_neq c LF)), IH by done. by destruct skip.
Qed.

Lemma removeFields_top field wild skip n c s :
  removeFields_loop field wild true skip n (c :: s) =
  removeFields_loop field wild false
    (if begins field wild (c :: s) then true else if isblank c then skip else false)
    (if begins field wild (c :: s) then n + 1 else n) (c :: s).
Proof.
  cbn [removeFields_loop]. unfold begins. cbn [andb]. change (zlen field) with (Z.of_nat (length field)).
  destruct (_ && _); [done|]. by destruct (isblank c).
Qed.

Lemma removeFields_kept field wild ls : field <> [] -> noLF field -> wf_lines ls -> forall skip n,
  removeFields_loop field wild true skip n (concat ls) =
  (concat (kept (begins field wild) skip ls), n + zlen (List.filter (begins field wild) ls)).
Proof.
  intros H0 Hf. induction 1 as [|x Hx Hn|x ls Hn Hw IH]; intros skip n.
  - cbn. f_equal. unfold zlen. simpl. lia.
  - cbn [concat kept List.filter]. rewrite app_nil_r. destruct x as [|c x]; [done|].
    rewrite removeFields_top, removeFields_last by done. rewrite cat_0.
    destruct (begins _ _ _); cbn [concat]; unfold zlen; simpl; [by f_equal|].
    destruct (isblank c), skip; cbn [concat]; rewrite ?app_nil_r; f_equal; lia.
  - cbn [concat kept List.filter]. rewrite <- app_assoc. cbn [app].
    destruct (x ++ LF :: concat ls) as [|c s] eqn:E; [by destruct x|]. rewrite removeFields_top, <- E.
    rewrite begins_line, removeFields_in, IH by done.
    assert (cat (x ++ [LF]) 0 = c) as -> by (by destruct x; injection E as <- _).
    destruct (begins _ _ (x ++ [LF])).
    + f_equal. rewrite zlen_cons. lia.
    + destruct (isblank c), skip; cbn [concat]; rewrite <- ?app_assoc; done.
Qed.

(** C29. For a name that is not empty, has no end of line and does not begin
    with a blank, [removeFields] is the removal of the fields whose first line
    begins with the name, with the lines that go on with them; the other
    fields stay as they are, in their order.  The name counts with its case
    and is followed by a colon or a blank, or with [wild] by anything.  It
    returns the number of the fields removed. *)
Theorem removeFields_filters (head field : list Z) (wild : bool) :
  field <> [] -> LF ∉ field -> isblank (cat field 0) = false ->
  removeFields head field wild =
  (concat (List.filter (fun f => negb (begins field wild f)) (fields head)),
   zlen (List.filter (begins field wild) (fields head))).
Proof.
  intros H0 Hf Hb. set (p := begins field wild).
  assert (forall x k, noLF x -> p (x ++ LF :: k) = p (x ++ [LF])) as Hp by (intros; by apply begins_line).
  assert (forall l, isblank (cat l 0) = true -> p l = false) as Hp'.
  { intros [|d l] Hd; [by destruct field|]. unfold p, begins. apply andb_false_intro1, bool_decide_eq_false.
    intros E. destruct field as [|c field]; [done|]. cbn in E. injection E as -> _. by rewrite !cat_0, Hd in *. }
  pose proof (wf_lines_lines head) as Hw. unfold removeFields. rewrite <- (concat_lines head) at 1.
  rewrite removeFields_kept by done. fold p. unfold fields. rewrite count_group by done. f_equal.
  rewrite (kept_group p Hp Hp') by done.
  destruct (group (lines head)) as [|f fs]; [done|]. cbn [List.filter].
  destruct (p f); [done|]. by destruct (isblank (cat f 0)).
Qed.

Lemma removeFields_filters_witness :
  removeFields (cs "A: 1" ++ CRLF ++ cs "Via: x" ++ CRLF ++ cs " y" ++ CRLF ++ CRLF) (cs "Via") false =
  (cs "A: 1" ++ CRLF ++ CRLF, 1).
Proof.
  rewrite (removeFields_filters (cs "A: 1" ++ CRLF ++ cs "Via: x" ++ CRLF ++ cs " y" ++ CRLF ++ CRLF)
    (cs "Via") false ltac:(done) ltac:(apply (bool_decide_unpack _); by vm_compute) eq_refl).
  by vm_compute.
Defined.
