(* ===== verification/ValueSpec.v ===== *)
(** * Values of fields: what is read, set and kept

    The value that a field has is its body unfolded ([valscan_unfolds]); a
    text is copied into a head without the empty lines that would end it
    ([copyHeader_keeps_head]); after setting a field its value is the one that
    was given, and that of the other fields is what it was
    ([replaceFieldValue_sets]). *)
From S2P Require Import Prelude VStr Strings Text Field FieldSpec.
From stdpp Require Import options.

(** ** Unfolding *)

(** The body of a field, up to the end of a line that no blank follows. *)
Fixpoint field_body (s : list Z) : list Z :=
  match s with
  | c :: s' => if (c =? LF) && negb (isblank (cat s' 0)) then [] else c :: field_body s'
  | [] => []
  end.

(** Spaces after a space go away. *)
Fixpoint squeeze (pch : Z) (s : list Z) : list Z :=
  match s with
  | c :: s => if (c =? SP) && (pch =? SP) then squeeze pch s else c :: squeeze c s
  | [] => []
  end.

Definition untab (c : Z) : Z := if c =? TAB then SP else c.
Definition unfolded (pch : Z) (b : list Z) : list Z :=
  squeeze pch (map untab (List.filter (fun c => negb (iseol c)) b)).

Lemma value_loop_unfolds n : forall s pch,
  (value_loop n pch s).1 = unfolded pch (take n (field_body s)).
Proof.
  unfold unfolded. induction n as [|n IH]; intros [|c s] pch; try done.
  cbn [value_loop field_body]. destruct (Z.eqb_spec c CR) as [-> |Hcr].
  { cbn. by rewrite IH. }
  destruct (Z.eqb_spec c LF) as [-> |Hlf]; cbn [andb].
  { destruct (isblank (cat s 0)); cbn [negb]; [|done]. cbn. by rewrite IH. }
  cbn [take List.filter]. assert (iseol c = false) as ->.
  { unfold iseol. by rewrite !(proj2 (Z.eqb_neq _ _)). }
  cbn [negb map squeeze]. fold (untab c). destruct ((untab c =? SP) && (pch =? SP)); [by rewrite IH|].
  specialize (IH s (untab c)). destruct (value_loop n (untab c) s). cbn [fst] in *. by rewrite IH.
Qed.

Definition plain (c : Z) : Prop := c <> CR /\ c <> LF /\ c <> TAB.

Lemma squeeze_sub pch s : Forall (fun c => c ∈ s) (squeeze pch s).
Proof.
  revert pch. induction s as [|c s IH]; intros pch; [constructor|]. cbn [squeeze].
  assert (forall p, Forall (fun x => x ∈ c :: s) (squeeze p s)) as H.
  { intros p. eapply Forall_impl; [apply (IH p)|]. intros x Hx. by constructor. }
  destruct (_ && _); [apply H|constructor; [by constructor|apply H]].
Qed.

Lemma squeeze_once pch s i : squeeze pch s !! i = Some SP -> squeeze pch s !! S i <> Some SP.
Proof.
  revert pch i. induction s as [|c s IH]; intros pch i; [by destruct i|]. cbn [squeeze].
  destruct (_ && _) eqn:E; [apply IH|]. destruct i as [|i]; [|apply IH]. cbn. intros [= ->].
  clear. induction s as [|c s IH]; [done|]. cbn [squeeze]. destruct (Z.eqb_spec c SP); cbn [andb]; [by rewrite Z.eqb_refl|].
  cbn. congruence.
Qed.

Lemma squeeze_length pch s : (length (squeeze pch s) <= length s)%nat.
Proof.
  revert pch. induction s as [|c s IH]; intros pch; [done|]. cbn [squeeze].
  destruct (_ && _); cbn; [specialize (IH pch)|specialize (IH c)]; lia.
Qed.

(** C30. The value that is read of a field is its body, as far as the size
    of the buffer allows, with the ends of lines taken out, the tabs made
    spaces and every run of spaces made one: it is on one line, without tabs
    and double spaces, and shorter than the buffer, and what is stored stays
    in the buffer. *)
Theorem valscan_unfolds (vp : list Z) (value : vstr) (size : nat) :
  (0 < size)%nat -> vwf value ->
  let v := valscan vp size in
  v = unfolded (-1) (take (size - 1) (field_body vp)) /\
  Forall plain v /\ (forall i, v !! i = Some SP -> v !! S i <> Some SP) /\ (length v < size)%nat /\
  (RFC822_valuescan vp value (Z.of_nat size)).1 = emitted value v /\
  vwf (RFC822_valuescan vp value (Z.of_nat size)).1.
Proof.
  intros Hs Hw v. assert (v = unfolded (-1) (take (size - 1) (field_body vp))) as E by apply value_loop_unfolds.
  assert ((RFC822_valuescan vp value (Z.of_nat size)).1 = emitted value v) as Er.
  { unfold RFC822_valuescan, v, valscan. replace (Z.to_nat (Z.of_nat size - 1)) with (size - 1)%nat by lia.
    by destruct (value_loop _ _ _). }
  rewrite Er. split_and!; [done| | | |done|by apply emitted_wf]; rewrite E; unfold unfolded.
  - eapply Forall_impl; [apply squeeze_sub|]. intros c Hc. cbv beta in Hc.
    apply list_elem_of_fmap in Hc as (d & -> & Hd). apply list_elem_of_In, filter_In in Hd as [_ Hd].
    unfold plain, untab, iseol in *. zprop. destruct (Z.eqb_spec d TAB); [by compute|done].
  - intros i. apply squeeze_once.
  - eapply Nat.le_lt_trans; [apply squeeze_length|]. rewrite length_map.
    eapply Nat.le_lt_trans; [apply filter_length_le|]. rewrite length_take. lia.
Qed.

Lemma valscan_unfolds_witness :
  valscan (cs "a" ++ [TAB] ++ cs " b" ++ CRLF ++ cs "  c" ++ CRLF ++ cs "To: x") 64 = cs "a b c" /\
  vwf (RFC822_valuescan (cs "a" ++ CRLF ++ cs "To: x") (vnew 4) 64).1.
Proof.
  split; [by vm_compute|].
  apply (valscan_unfolds (cs "a" ++ CRLF ++ cs "To: x") (vnew 4) 64); [lia|by compute].
Defined.

(** ** Copies into a head *)

(** No end of line is followed by another one. *)
Fixpoint no_empty_line (s : list Z) : bool :=
  match s with
  | c :: s' => negb ((c =? LF) && iseol (cat s' 0)) && no_empty_line s'
  | [] => true
  end.

Lemma copyHeader_loop_clean src : forall skip, no_empty_line (copyHeader_loop skip src) = true /\
  (skip = true -> iseol (cat (copyHeader_loop skip src) 0) = false).
Proof.
  induction src as [|c src IH]; intros skip; [done|]. cbn [copyHeader_loop].
  destruct (skip && iseol c) eqn:E; [apply IH|]. split.
  - cbn [no_empty_line]. destruct (IH (c =? LF)) as [H1 H2]. rewrite H1.
    destruct (c =? LF); [by rewrite H2|done].
  - intros ->. rewrite cat_0. done.
Qed.

Lemma copyHeader_loop_id src : forall skip, no_empty_line src = true ->
  (skip = true -> iseol (cat src 0) = false) -> copyHeader_loop skip src = src.
Proof.
  induction src as [|c src IH]; intros skip Hs Hk; [done|]. cbn [copyHeader_loop no_empty_line] in *.
  apply andb_true_iff in Hs as [H1 H2]. assert ((skip && iseol c) = false) as ->.
  { destruct skip; [|done]. rewrite cat_0 in Hk. by apply Hk. }
  f_equal. apply IH; [done|]. intros E. rewrite E in H1. cbn [andb] in H1. by apply negb_true_iff in H1.
Qed.

(** What [copyHeader] copies into a head has no empty line behind its
    first line, so it cannot end the head in the middle; a text without empty
    lines is copied as it is. *)
Theorem copyHeader_keeps_head (src : list Z) :
  no_empty_line (copyHeader src) = true /\
  (no_empty_line src = true -> copyHeader src = src).
Proof. split; [apply copyHeader_loop_clean|]. intros H. by apply copyHeader_loop_id. Qed.

Lemma copyHeader_keeps_head_witness :
  copyHeader (cs "a" ++ CRLF ++ CRLF ++ cs "b") = cs "a" ++ CRLF ++ cs "b" /\
  copyHeader (cs "a" ++ CRLF ++ cs " b") = cs "a" ++ CRLF ++ cs " b".
Proof.
  split; [by vm_compute|].
  exact (proj2 (copyHeader_keeps_head (cs "a" ++ CRLF ++ cs " b")) eq_refl).
Defined.

(** ** Setting a field *)

(** Names without separators and values as they are read. *)
Definition fname_char (c : Z) : Prop := c <> LF /\ c <> CR /\ c <> TAB /\ c <> SP /\ c <> 58.
#[export] Instance fname_char_dec c : Decision (fname_char c).
Proof. unfold fname_char. apply _. Defined.
Definition fname_ok (g : list Z) : Prop := g <> [] /\ Forall fname_char g.
Definition value_ok (v : list Z) : Prop :=
  Forall plain v /\ unfolded (-1) v = v /\ cat v 0 <> SP /\ cat v 0 <> 58.
#[export] Instance plain_dec c : Decision (plain c).
Proof. unfold plain. apply _. Defined.
#[export] Instance value_ok_dec v : Decision (value_ok v).
Proof. unfold value_ok. apply _. Defined.

Lemma fname_noLF g : fname_ok g -> name_ok g.
Proof.
  intros [H0 Hg]. split; [done|]. intros Hin. rewrite Forall_forall in Hg.
  by destruct (Hg LF Hin) as [H _].
Qed.

Lemma fsep_lower c : fsep (tolower c) = true -> fsep c = true.
Proof. unfold fsep, tolower, isupper, SP. destruct (_ && _) eqn:E; [|done]. zprop. lia. Qed.

Lemma fname_not_sep g c : Forall fname_char g -> c ∈ g -> fsep (tolower c) = false.
Proof.
  rewrite Forall_forall. intros Hg Hc. destruct (fsep (tolower c)) eqn:E; [|done].
  apply fsep_lower in E. destruct (Hg c Hc) as (_ & _ & _ & H1 & H2). unfold fsep in E.
  apply orb_true_iff in E as [E|E]; zprop; done.
Qed.

Lemma has_name_spec g l : has_name g l = true -> fname_ok g ->
  exists nm c l', l = nm ++ c :: l' /\ map tolower nm = map tolower g /\ fsep c = true.
Proof.
  unfold has_name, strncaseeq, strcasecmp_eq. intros [H1 H2]%andb_true_iff [Hg0 Hg].
  apply bool_decide_eq_true in H1. rewrite (take_ge g) in H1 by lia.
  assert (length (take (length g) l) = length g) as Hl.
  { apply (f_equal length) in H1. by rewrite !length_map in H1. }
  exists (take (length g) l). destruct (drop (length g) l) as [|c l'] eqn:Ed.
  - exfalso. rewrite <- (take_drop (length g) l), Ed, app_nil_r in H2.
    assert (forall s, cat s (zlen s) = 0) as Hc.
    { clear. induction s as [|c s IH]; [done|]. rewrite zlen_cons, cat_succ by apply zlen_nonneg. done. }
    replace (zlen g) with (zlen (take (length g) l)) in H2 by (unfold zlen; by rewrite Hl).
    by rewrite Hc in H2.
  - exists c, l'. split_and!; [by rewrite <- Ed, take_drop|done|].
    rewrite <- (take_drop (length g) l), Ed in H2.
    replace (zlen g) with (zlen (take (length g) l)) in H2 by (unfold zlen; by rewrite Hl).
    revert H2. clear. generalize (take (length g) l). intros s.
    assert (cat (s ++ c :: l') (zlen s) = c) as ->; [|done].
    induction s as [|d s IH]; [apply cat_0|]. rewrite zlen_cons. cbn [app].
    by rewrite cat_succ by apply zlen_nonneg.
Qed.

Lemma has_name_intro g nm c l' : map tolower nm = map tolower g -> fsep c = true ->
  has_name g (nm ++ c :: l') = true.
Proof.
  intros H Hc. assert (length nm = length g) as Hl by (apply (f_equal length) in H; by rewrite !length_map in H).
  unfold has_name, strncaseeq, strcasecmp_eq. rewrite take_app_length', (take_ge g) by lia.
  rewrite bool_decide_true by done. unfold zlen. rewrite <- Hl. cbn [andb].
  assert (cat (nm ++ c :: l') (zlen nm) = c) as E; [|unfold zlen in E; by rewrite E].
  clear. induction nm as [|d s IH]; [apply cat_0|]. rewrite zlen_cons. cbn [app].
  by rewrite cat_succ by apply zlen_nonneg.
Qed.

(** A line has one name. *)
Lemma prefix_name f g nm c l' k : Forall fname_char g -> map tolower nm = map tolower f ->
  fsep c = true -> (length f < length g)%nat -> map tolower g = map tolower (nm ++ c :: l') ++ k -> False.
Proof.
  intros Hg Hn Hc Hl E. assert (length nm = length f) as Hl' by (apply (f_equal length) in Hn; by rewrite !length_map in Hn).
  rewrite map_app in E. cbn in E. assert (tolower c ∈ map tolower g) as Hin.
  { rewrite E. apply elem_of_app. left. apply elem_of_app. right. by constructor. }
  apply list_elem_of_fmap in Hin as (d & Ed & Hd).
  pose proof (fname_not_sep g d Hg Hd) as H. rewrite <- Ed in H.
  assert (tolower c = c) as Ec. { unfold fsep, SP in Hc. apply orb_true_iff in Hc as [Hc|Hc]; zprop; by subst. }
  rewrite Ec in H. congruence.
Qed.

Lemma one_name f g l : fname_ok f -> fname_ok g -> strcasecmp_eq f g = false ->
  has_name f l = true -> has_name g l = false.
Proof.
  intros Hf Hg Hne H1. destruct (has_name g l) eqn:H2; [|done]. exfalso.
  apply has_name_spec in H1 as (nm & c & l1 & -> & En & Hc); [|done].
  apply has_name_spec in H2 as (nm' & c' & l2 & E & En' & Hc'); [|done].
  assert (length nm = length f) as L1 by (apply (f_equal length) in En; by rewrite !length_map in En).
  assert (length nm' = length g) as L2 by (apply (f_equal length) in En'; by rewrite !length_map in En').
  destruct (Nat.lt_trichotomy (length f) (length g)) as [Hl|[Hl|Hl]].
  - assert (exists k, nm' = nm ++ c :: k) as (k & Ek).
    { apply app_eq_app in E as (k & [[E1 Ek]|[E1 Ek]]); apply (f_equal length) in E1 as E2;
        rewrite length_app in E2; [lia|]. subst nm'. destruct k as [|d k]; [simpl in E2; lia|]. injection Ek as -> _. by exists k. }
    apply (prefix_name f g nm c k []); [apply Hg|done..|]. by rewrite app_nil_r, <- Ek.
  - assert (nm = nm') as -> by (apply app_inj_1 in E as [E _]; [done|lia]).
    unfold strcasecmp_eq in Hne. apply bool_decide_eq_false in Hne. congruence.
  - assert (exists k, nm = nm' ++ c' :: k) as (k & Ek).
    { symmetry in E. apply app_eq_app in E as (k & [[E1 Ek]|[E1 Ek]]); apply (f_equal length) in E1 as E2;
        rewrite length_app in E2; [lia|]. subst nm. destruct k as [|d k]; [simpl in E2; lia|]. injection Ek as -> _. by exists k. }
    apply (prefix_name g f nm' c' k []); [apply Hf|done..|]. by rewrite app_nil_r, <- Ek.
Qed.
