(* ===== verification/FieldSet.v ===== *)
(** * Setting the value of a field

    [replaceFieldValue] changes one field: afterwards the field has the value
    that was given, and every other field the value that it had. *)
From S2P Require Import Prelude VStr Strings Text Field FieldSpec ValueSpec.
From stdpp Require Import options.

(** ** Values and the text behind them *)

Lemma field_body_same y r1 r2 : isblank (cat r1 0) = false -> isblank (cat r2 0) = false ->
  field_body (y ++ LF :: r1) = field_body (y ++ LF :: r2).
Proof.
  intros H1 H2. induction y as [|c y IH]; cbn [app field_body]; [by rewrite H1, H2|].
  rewrite IH. by destruct y.
Qed.

Lemma skip_sp_LF z r : skip_sp (z ++ LF :: r) = skip_sp z ++ LF :: r.
Proof. induction z as [|c z IH]; [done|]. cbn. by destruct (c =? SP). Qed.

Lemma field_value_LF z r : field_value (z ++ LF :: r) = field_value z ++ LF :: r.
Proof.
  unfold field_value. rewrite skip_sp_LF. destruct (skip_sp z) as [|c z']; [done|].
  cbn [app]. rewrite !cat_0. destruct (c =? 58); cbn [tl]; [by rewrite skip_sp_LF|].
  apply (skip_sp_LF (c :: z')).
Qed.

Lemma skip_sp_split s : exists u, s = u ++ skip_sp s /\ Forall (eq SP) u.
Proof.
  induction s as [|c s (u & E & Hu)]; [by exists []|]. cbn [skip_sp].
  destruct (Z.eqb_spec c SP) as [-> |]; [|by exists []]. exists (SP :: u).
  split; [by rewrite E at 1|by constructor].
Qed.

Lemma skip_sp_app u t : Forall (eq SP) u -> cat t 0 <> SP -> skip_sp (u ++ t) = t.
Proof.
  intros Hu Ht. induction Hu as [|c u <- _ IH]; [|by cbn].
  destruct t as [|c t]; [done|]. rewrite cat_0 in Ht. cbn [app skip_sp]. by rewrite (proj2 (Z.eqb_neq c SP)).
Qed.

(** What is between a name and its value. *)
Lemma field_value_split s : fsep (cat s 0) = true -> exists u, s = u ++ field_value s /\ noLF u /\
  (exists c u', u = c :: u' /\ fsep c = true) /\
  forall t, cat t 0 <> SP -> cat t 0 <> 58 -> field_value (u ++ t) = t.
Proof.
  intros Hs. assert (forall u, Forall (eq SP) u -> noLF u) as Hn.
  { intros u Hu Hin. rewrite Forall_forall in Hu. by apply Hu in Hin. }
  destruct (skip_sp_split s) as (u1 & E1 & Hu1). unfold field_value.
  destruct (Z.eqb_spec (cat (skip_sp s) 0) 58) as [H58|H58].
  - destruct (skip_sp s) as [|c s1]; [done|]. rewrite cat_0 in H58. subst c. cbn [tl].
    destruct (skip_sp_split s1) as (u2 & E2 & Hu2). exists (u1 ++ 58 :: u2). split_and!.
    + rewrite E1, E2 at 1. by rewrite <- app_assoc.
    + apply noLF_app. split; [by apply Hn|]. apply noLF_cons. split; [done|by apply Hn].
    + destruct Hu1 as [|c u1 <- _]; [by exists 58, u2|by exists SP, (u1 ++ 58 :: u2)].
    + intros t H1 H2. rewrite <- app_assoc. cbn [app]. rewrite skip_sp_app by done. rewrite cat_0.
      cbn [Z.eqb Pos.eqb tl]. by apply skip_sp_app.
  - destruct (skip_sp_split (skip_sp s)) as (u2 & E2 & Hu2). exists (u1 ++ u2). split_and!.
    + by rewrite <- app_assoc, <- E2.
    + apply noLF_app. split; by apply Hn.
    + assert (forall c x, u1 ++ u2 = c :: x -> c = SP) as Hc.
      { intros c x E. assert (Forall (eq SP) (u1 ++ u2)) as H by by apply Forall_app.
        rewrite E in H. by apply Forall_cons in H as [<- _]. }
      destruct (u1 ++ u2) as [|c x] eqn:E; [|exists c, x; by rewrite (Hc c x)].
      apply app_eq_nil in E as [-> ->]. cbn [app] in E1. rewrite <- E1 in H58.
      unfold fsep in Hs. apply orb_true_iff in Hs as [Hs|Hs]; zprop; [done|].
      destruct s as [|c s]; [done|]. rewrite cat_0 in Hs. subst c. cbn in E1.
      exfalso. apply (f_equal length) in E1. destruct (skip_sp_split s) as (u & E & _).
      apply (f_equal length) in E. rewrite length_app in E. simpl in E1. lia.
    + intros t H1 H2. rewrite skip_sp_app; [|by apply Forall_app|done].
      rewrite (proj2 (Z.eqb_neq _ _)) by done. by apply (skip_sp_app []).
Qed.

(** ** The value of a field in a list of lines *)

Definition get (size : nat) (g : list Z) (ls : list (list Z)) : option (list Z) :=
  match seek (has_name g) ls with
  | [] => None
  | ls => Some (valscan (field_value (drop (length g) (concat ls))) size)
  end.

Lemma getFieldValue_get head g size : name_ok g -> getFieldValue head g size = get size g (lines head).
Proof.
  intros Hg. unfold getFieldValue, findFieldValue, findField, get.
  rewrite findField_loop_lines by (done || lia). by destruct (seek _ _).
Qed.

Definition whole_line (l : list Z) : Prop := exists x, noLF x /\ l = x ++ [LF].

Lemma valscan_body a b size : field_body a = field_body b -> valscan a size = valscan b size.
Proof. intros E. unfold valscan. by rewrite !value_loop_unfolds, E. Qed.

Lemma seek_app {A} (p : A -> bool) a b : seek p (a ++ b) = match seek p a with [] => seek p b | s => s ++ b end.
Proof. induction a as [|x a IH]; [done|]. cbn. by destruct (p x). Qed.

Lemma whole_lines_concat A : A <> [] -> Forall whole_line A -> exists y, concat A = y ++ [LF].
Proof.
  intros H0 H. induction H as [|l A (x & _ & ->) _ IH]; [done|]. destruct A as [|l A].
  - exists x. cbn. by rewrite app_nil_r.
  - destruct IH as (y & E); [done|]. exists ((x ++ [LF]) ++ y). cbn [concat] in *.
    by rewrite E, <- !app_assoc.
Qed.

(** A field in the lines [A] has its value whatever comes behind them. *)
Lemma get_frame size g A B B' : fname_ok g -> Forall whole_line A ->
  isblank (cat (concat B) 0) = false -> isblank (cat (concat B') 0) = false ->
  get size g B = get size g B' -> get size g (A ++ B) = get size g (A ++ B').
Proof.
  intros Hg HA HB HB' E. unfold get. rewrite !seek_app.
  destruct (seek_split (has_name g) A) as (a & Ea & _ & Hm).
  destruct (seek (has_name g) A) as [|m A2] eqn:Es; [done|]. cbn [app]. f_equal.
  apply valscan_body.
  assert (Forall whole_line (m :: A2)) as Hw by (rewrite Ea in HA; by apply Forall_app in HA as [_ HA]).
  change (m :: A2 ++ B) with ((m :: A2) ++ B). change (m :: A2 ++ B') with ((m :: A2) ++ B').
  rewrite !concat_app. apply Forall_cons in Hw as Hw'. destruct Hw' as [(x & Hx & ->) _].
  destruct (whole_lines_concat ((x ++ [LF]) :: A2) ltac:(done) Hw) as (y & Ey). rewrite Ey, <- !app_assoc. cbn [app].
  apply has_name_spec in Hm as (nm & c & l' & El & En & Hc); [|done].
  assert (length nm = length g) as Hl by (apply (f_equal length) in En; by rewrite !length_map in En).
  assert (exists z, y = nm ++ z) as (z & ->).
  { cbn [concat] in Ey. rewrite El, <- app_assoc in Ey.
    destruct (app_eq_app _ _ _ _ Ey) as (k & [[E1 E2]|[E1 E2]]); [|by exists k].
    exists []. rewrite app_nil_r. subst nm. destruct k as [|d k]; [by rewrite app_nil_r|].
    injection E2 as _ E2. by destruct k. }
  rewrite <- !app_assoc, !drop_app_length', !field_value_LF by done. by apply field_body_same.
Qed.

(** A line with the value [v], and what is read of it. *)
Lemma field_body_noLF v : noLF v -> field_body v = v.
Proof.
  induction v as [|c v IH]; [done|]. intros [Hc Hv]%noLF_cons. cbn [field_body].
  rewrite (proj2 (Z.eqb_neq c LF)) by done. cbn [andb]. by rewrite IH.
Qed.

Lemma field_body_line v r : noLF v -> isblank (cat r 0) = false -> field_body (v ++ LF :: r) = v.
Proof.
  intros Hv Hr. rewrite (field_body_same v r []) by done.
  induction v as [|c v IH]; [done|]. apply noLF_cons in Hv as [Hc Hv]. cbn [app field_body].
  rewrite (proj2 (Z.eqb_neq c LF)) by done. cbn [andb]. by rewrite IH.
Qed.

Definition line_end (eol : list Z) : Prop := eol = [] \/ eol = [LF] \/ eol = CRLF.

Lemma value_noLF v : Forall plain v -> noLF v.
Proof. intros H Hin. rewrite Forall_forall in H. by destruct (H LF Hin) as (_ & H1 & _). Qed.

Lemma valscan_value v eol r size : value_ok v -> line_end eol -> (eol = [] -> r = []) ->
  isblank (cat r 0) = false -> (length v < size)%nat -> valscan (v ++ eol ++ r) size = v.
Proof.
  intros (Hp & Hu & _) He Hr Hb Hl. pose proof (value_noLF v Hp) as Hn.
  unfold valscan. rewrite value_loop_unfolds.
  assert (exists x, field_body (v ++ eol ++ r) = v ++ x /\ Forall (eq CR) x) as (x & -> & Hx).
  { destruct He as [-> |[-> | ->]].
    - rewrite Hr by done. exists []. rewrite !app_nil_r. by rewrite field_body_noLF.
    - exists []. rewrite app_nil_r. change ([LF] ++ r) with (LF :: r). by rewrite field_body_line.
    - exists [CR]. split; [|by constructor]. change (v ++ CRLF ++ r) with (v ++ [CR] ++ LF :: r).
      rewrite app_assoc. apply field_body_line; [|done]. apply noLF_app. split; [done|].
      apply noLF_cons. split; [done|apply not_elem_of_nil]. }
  rewrite take_app_ge by lia. unfold unfolded in *. rewrite List.filter_app.
  assert (List.filter (fun c => negb (iseol c)) (take (size - 1 - length v) x) = []) as ->.
  { apply (Forall_take _ (size - 1 - length v)) in Hx. induction Hx as [|c y <- _ IH]; [done|]. by cbn. }
  by rewrite app_nil_r.
Qed.

(** The field [f] set in the lines. *)
Lemma get_field_set size f A nm u v eol post : fname_ok f -> value_ok v -> (length v < size)%nat ->
  Forall (fun l => has_name f l = false) A -> map tolower nm = map tolower f ->
  (exists c u', u = c :: u' /\ fsep c = true) ->
  (forall t, cat t 0 <> SP -> cat t 0 <> 58 -> field_value (u ++ t) = t) ->
  line_end eol -> (eol = [] -> post = []) -> isblank (cat (concat post) 0) = false ->
  get size f (A ++ (nm ++ u ++ v ++ eol) :: post) = Some v.
Proof.
  intros Hf Hv Hl HA Hn (c & u' & -> & Hc) Hu He Hp Hb. unfold get. rewrite seek_app.
  assert (seek (has_name f) A = []) as ->.
  { clear -HA. induction HA as [|l A H _ IH]; [done|]. cbn. by rewrite H. }
  cbn [seek]. change (nm ++ (c :: u') ++ v ++ eol) with (nm ++ c :: u' ++ v ++ eol).
  rewrite has_name_intro by done. f_equal. cbn [concat]. rewrite <- app_assoc.
  assert (length nm = length f) as Hlen by (apply (f_equal length) in Hn; by rewrite !length_map in Hn).
  rewrite drop_app_length' by done.
  replace ((c :: u' ++ v ++ eol) ++ concat post) with ((c :: u') ++ v ++ eol ++ concat post)
    by (cbn [app]; by rewrite <- !app_assoc).
  destruct Hv as (Hv1 & Hv2 & Hv3 & Hv4). rewrite Hu.
  - apply valscan_value; [done|done| |done|done]. intros E. by rewrite Hp.
  - destruct v as [|d v]; [|done]. cbn [app]. destruct He as [-> |[-> | ->]]; [|by compute..].
    rewrite Hp by done. by compute.
  - destruct v as [|d v]; [|done]. cbn [app]. destruct He as [-> |[-> | ->]]; [|by compute..].
    rewrite Hp by done. by compute.
Qed.

(** ** The ends of fields *)

Lemma nextField_top ig ls : wf_lines ls -> exists cont post, ls = cont ++ post /\
  Forall (fun l => isblank (cat l 0) = true) cont /\ isblank (cat (concat post) 0) = false /\
  (ig = false -> nextField_loop ig true (concat ls) = concat post).
Proof.
  induction 1 as [|x Hx Hn|x ls Hn Hw (cont & post & -> & Hc & Hb & E)].
  - by exists [], [].
  - destruct x as [|c x]; [done|]. destruct (isblank c) eqn:Ec.
    + exists [c :: x], []. split_and!; [done|by repeat constructor|done|]. intros _. cbn [concat].
      rewrite app_nil_r. cbn [nextField_loop]. rewrite Ec. apply nextField_noLF. by apply noLF_cons in Hn as [_ Hn].
    + exists [], [c :: x]. split_and!; [done|constructor|done|]. intros ->. cbn [concat]. rewrite app_nil_r.
      cbn [nextField_loop]. rewrite Ec. done.
  - destruct (isblank (cat (x ++ [LF]) 0)) eqn:Ec.
    + exists ((x ++ [LF]) :: cont), post. split_and!; [done|by constructor|done|]. intros ->. rewrite <- E by done.
      cbn [concat]. rewrite <- app_assoc. destruct x as [|c x]; [done|]. cbn [app nextField_loop].
      cbn [app] in Ec. rewrite cat_0 in Ec. rewrite Ec. apply nextField_line. by apply noLF_cons in Hn as [_ Hn].
    + exists [], ((x ++ [LF]) :: cont ++ post). split_and!; [done|constructor| |].
      * cbn [concat]. destruct x as [|c x]; [done|]. done.
      * intros ->. cbn [concat]. destruct x as [|c x]; [done|]. cbn [app nextField_loop].
        cbn [app] in Ec. rewrite cat_0 in Ec. by rewrite Ec.
Qed.

Lemma chop_eol_split s : exists eol, s = chop_eol s ++ eol /\ line_end eol /\
  (forall y, s = y ++ [LF] -> eol <> []).
Proof.
  unfold chop_eol, strtailchr. destruct (Z.eqb_spec (List.last s 0) LF) as [E|E].
  - assert (s <> []) as H0 by by intros ->.
    pose proof (app_removelast_last 0 H0) as Es. rewrite E in Es. set (t := removelast s) in *.
    destruct (Z.eqb_spec (List.last t 0) CR) as [E2|E2].
    + assert (t <> []) as H1 by (intros H1; by rewrite H1 in E2).
      pose proof (app_removelast_last 0 H1) as Et. rewrite E2 in Et. exists CRLF.
      split_and!; [|by right; right|done]. rewrite Es. rewrite Et at 1. by rewrite <- app_assoc.
    + exists [LF]. split_and!; [done|by right; left|done].
  - exists []. rewrite app_nil_r. split_and!; [done|by left|]. intros y ->. by rewrite List.last_last in E.
Qed.

(** A text without LF in front of a line. *)
Lemma prefix_line p e x r : noLF p -> noLF x -> p ++ e = x ++ LF :: r ->
  exists w, x = p ++ w /\ e = w ++ LF :: r /\ noLF w.
Proof.
  intros Hp. revert x. induction p as [|c p IH]; intros x Hx E; [by exists x|].
  apply noLF_cons in Hp as [Hc Hp]. destruct x as [|d x]; [by injection E as -> _|].
  injection E as -> E. apply noLF_cons in Hx as [Hd Hx]. destruct (IH Hp x Hx E) as (w & -> & -> & Hw).
  by exists w.
Qed.

(** What [replaceFieldValue] keeps behind the value. *)
Lemma chopped_whole w ls : noLF w -> wf_lines ls -> exists cont post eol,
  ls = cont ++ post /\ Forall (fun l => isblank (cat l 0) = true) cont /\
  isblank (cat (concat post) 0) = false /\ line_end eol /\ (eol = [] -> post = []) /\
  let esp := w ++ LF :: concat ls in
  drop (length (chop_eol (before esp (nextField esp false)))) esp = eol ++ concat post.
Proof.
  intros Hw Hls. destruct (nextField_top false ls Hls) as (cont & post & -> & Hc & Hb & E).
  set (t := w ++ LF :: concat cont). destruct (chop_eol_split t) as (eol & Et & He & Hne).
  exists cont, post, eol. split_and!; try done.
  - intros ->. destruct post as [|l post]; [done|]. exfalso.
    assert (Forall whole_line cont) as Hwh.
    { clear -Hls. induction cont as [|k cont IH]; [constructor|]. inversion Hls; subst; [by destruct cont|].
      constructor; [by eexists|]. by apply IH. }
    destruct (decide (cont = [])) as [-> |Hne0]; [by apply (Hne w)|].
    destruct (whole_lines_concat cont Hne0 Hwh) as (y & Ey). apply (Hne (w ++ LF :: y)); [|done].
    unfold t. by rewrite Ey, <- app_assoc.
  - cbv zeta. unfold nextField. rewrite nextField_line, E by done.
    replace (w ++ LF :: concat (cont ++ post)) with (t ++ concat post)
      by (unfold t; rewrite concat_app, <- app_assoc; done).
    rewrite before_app. rewrite Et at 2. rewrite <- app_assoc. by apply drop_app_length'.
Qed.

Lemma chopped_last w : noLF w ->
  drop (length (chop_eol (before w (nextField w false)))) w = [].
Proof.
  intros Hw. unfold nextField. rewrite nextField_noLF by done.
  pose proof (before_app w []) as E. rewrite app_nil_r in E. rewrite E. unfold chop_eol, strtailchr.
  destruct (Z.eqb_spec (List.last w 0) LF) as [El|]; [|by apply drop_all]. exfalso.
  assert (w <> []) as H0 by by intros ->. apply Hw.
  rewrite (app_removelast_last 0 H0), El. apply elem_of_app. right. by constructor.
Qed.

Lemma wf_lines_whole a b : Forall whole_line a -> wf_lines b -> wf_lines (a ++ b).
Proof. induction 1 as [|l a (x & Hx & ->) _ IH]; [done|]. intros Hb. constructor; auto. Qed.

Lemma wf_lines_front a l b : wf_lines (a ++ l :: b) -> Forall whole_line a.
Proof.
  induction a as [|k a IH]; [constructor|]. cbn [app]. inversion 1; subst; [by destruct a|].
  constructor; [by eexists|]. by apply IH.
Qed.

Lemma name_not_blank g l : fname_ok g -> has_name g l = true -> isblank (cat l 0) = false.
Proof.
  intros Hg H. apply has_name_spec in H as (nm & c & l' & -> & E & _); [|done].
  destruct Hg as [H0 Hg]. destruct g as [|d g]; [done|]. destruct nm as [|n nm]; [done|].
  injection E as E _. cbn [app]. rewrite cat_0. apply Forall_cons in Hg as [(_ & _ & Ht & Hs & _) _].
  destruct (isblank n) eqn:Eb; [|done]. exfalso. unfold isblank, tolower, isupper, SP, TAB in *.
  apply orb_true_iff in Eb as [Eb|Eb]; zprop; subst n; cbn in E; destruct (_ && _) eqn:E2 in E; zprop; lia.
Qed.

Lemma plain_copied v : Forall plain v -> copyHeader v = v.
Proof.
  intros Hv. apply copyHeader_loop_id; [|done]. induction Hv as [|c v (_ & Hc & _) _ IH]; [done|].
  cbn [no_empty_line]. rewrite (proj2 (Z.eqb_neq c LF)) by done. by rewrite IH.
Qed.

Lemma get_skip size g a b : Forall (fun l => has_name g l = false) a -> get size g (a ++ b) = get size g b.
Proof.
  intros H. unfold get. rewrite seek_app.
  assert (seek (has_name g) a = []) as ->; [|done].
  induction H as [|l a Hl _ IH]; [done|]. cbn. by rewrite Hl.
Qed.

Lemma wf_set_line p eol post : noLF p -> p <> [] -> line_end eol -> (eol = [] -> post = []) ->
  wf_lines post -> wf_lines ((p ++ eol) :: post).
Proof.
  intros Hp H0 [-> |[-> | ->]] He Hw.
  - rewrite He by done. rewrite app_nil_r. by constructor.
  - by constructor.
  - change CRLF with ([CR] ++ [LF]). rewrite app_assoc. constructor; [|done].
    apply noLF_app. split; [done|]. apply noLF_cons. split; [done|apply not_elem_of_nil].
Qed.

Lemma nm_noLF g nm : fname_ok g -> map tolower nm = map tolower g -> noLF nm.
Proof. intros Hg E. apply fname_noLF in Hg as [_ Hg]. apply noLF_lower. rewrite E. exact (proj1 (noLF_lower g) Hg). Qed.

(** ** The end of the head *)

Lemma seek_in x : noLF x -> forall r, strSeekEOH_loop None false (x ++ LF :: r) = strSeekEOH_loop None true r.
Proof.
  induction x as [|c x IH]; intros Hx r; [done|]. apply noLF_cons in Hx as [Hc Hx].
  cbn [app strSeekEOH_loop]. rewrite bool_decide_false by done. cbn [andb fmap option_fmap option_map].
  rewrite (proj2 (Z.eqb_neq c LF)) by done. by apply IH.
Qed.

Lemma seek_in_last x : noLF x -> strSeekEOH_loop None false x = Some [].
Proof.
  induction x as [|c x IH]; intros Hx; [done|]. apply noLF_cons in Hx as [Hc Hx].
  cbn [strSeekEOH_loop]. rewrite bool_decide_false by done. cbn [andb fmap option_fmap option_map].
  rewrite (proj2 (Z.eqb_neq c LF)) by done. by apply IH.
Qed.

Lemma seek_top c s : strSeekEOH_loop None true (c :: s) =
  if iseol c || (c =? 46) && iseol (cat s 0) then Some (c :: s) else strSeekEOH_loop None false (c :: s).
Proof. cbn [strSeekEOH_loop]. rewrite bool_decide_false by done. by cbn [andb]. Qed.

Lemma seekEOH_lines head : exists a b, lines head = a ++ b /\
  strSeekEOH_loop None true head = Some (concat b) /\ isblank (cat (concat b) 0) = false /\
  (b <> [] -> Forall whole_line a).
Proof.
  assert (forall c s, iseol c || (c =? 46) && iseol (cat s 0) = true -> isblank c = false) as Hbl.
  { intros c s H. unfold iseol, isblank, CR, LF, SP, TAB in *. apply orb_true_iff in H as [H|H];
      [apply orb_true_iff in H as [H|H]|apply andb_true_iff in H as [H _]]; zprop; subst; done. }
  induction head as [|x Hx Hn|x r Hn (a & b & E & Es & Hb & Ha)] using line_ind.
  - by exists [], [].
  - rewrite lines_noLF by done. destruct x as [|c x]; [done|]. rewrite seek_top.
    destruct (_ || _) eqn:Ec.
    + exists [], [c :: x]. cbn. rewrite app_nil_r. split_and!; try done. by apply (Hbl c x).
    + exists [c :: x], []. by rewrite seek_in_last.
  - rewrite lines_line by done. destruct (x ++ LF :: r) as [|c s] eqn:Ex; [by destruct x|]. rewrite seek_top.
    destruct (_ || _) eqn:Ec.
    + exists [], ((x ++ [LF]) :: lines r). cbn [concat]. rewrite concat_lines, <- app_assoc. cbn [app].
      rewrite Ex. split_and!; try done. by apply (Hbl c s).
    + exists ((x ++ [LF]) :: a), b. rewrite E, <- Ex, seek_in by done. split_and!; try done.
      intros Hb0. constructor; [by eexists|by apply Ha].
Qed.

(** ** Setting *)

(** The field [f] has the value [v] in [head'], and every other field the one
    it has in [head]. *)
Definition field_set (head head' f v : list Z) : Prop :=
  (forall size, (length v < size)%nat -> getFieldValue head' f size = Some v) /\
  (forall g size, fname_ok g -> strcasecmp_eq f g = false ->
     getFieldValue head' g size = getFieldValue head g size).

Lemma wf_lines_app_l a b : wf_lines (a ++ b) -> wf_lines a.
Proof. intros H. eapply wf_lines_sub; [exact H|]. by apply sublist_inserts_r. Qed.

Lemma wf_lines_inv l ls : wf_lines (l :: ls) ->
  ls = [] /\ noLF l \/ exists x, noLF x /\ l = x ++ [LF] /\ wf_lines ls.
Proof. inversion 1; subst; [by left|right; by eexists]. Qed.

(** The value of a field that is there is exchanged. *)
Lemma set_found head f v esp : fname_ok f -> value_ok v -> findFieldValue head f = Some esp ->
  field_set head (before head esp ++ v ++
    drop (length (chop_eol (before esp (nextField esp false)))) esp) f v.
Proof.
  intros Hf Hv. pose proof (fname_noLF f Hf) as Hfn. unfold findFieldValue, findField.
  rewrite findField_loop_lines by (done || lia). pose proof (wf_lines_lines head) as Hw.
  destruct (seek_split (has_name f) (lines head)) as (a & Ea & Ha & Hl).
  destruct (seek (has_name f) (lines head)) as [|l ls] eqn:Es; [done|]. cbn [fmap option_fmap option_map snd].
  intros E. injection E as E. rewrite Ea in Hw. apply wf_lines_front in Hw as Haw.
  apply wf_lines_app_r in Hw as Hlw. destruct (has_name_spec f l Hl Hf) as (nm & c & l' & El & En & Hc).
  assert (length nm = length f) as Hlen by (apply (f_equal length) in En; by rewrite !length_map in En).
  assert (concat (l :: ls) = nm ++ c :: l' ++ concat ls) as Et by (cbn; by rewrite El, <- app_assoc).
  change (l ++ concat ls) with (concat (l :: ls)) in E. rewrite Et, drop_app_length' in E by done.
  destruct (field_value_split (c :: l' ++ concat ls)) as (u & Eu & Hun & Huc & Huv); [by rewrite cat_0|].
  rewrite E in Eu. rewrite Eu in Et.
  assert (head = concat a ++ (nm ++ u) ++ esp) as Eh.
  { rewrite <- (concat_lines head), Ea, concat_app, Et. by rewrite <- app_assoc. }
  assert (before head esp = concat a ++ nm ++ u) as -> by (rewrite Eh, app_assoc; apply before_app).
  pose proof (nm_noLF f nm Hf En) as Hnn.
  assert (exists cont post eol, ls = cont ++ post /\
    Forall (fun l => isblank (cat l 0) = true) cont /\
    isblank (cat (concat post) 0) = false /\ line_end eol /\ (eol = [] -> post = []) /\
    drop (length (chop_eol (before esp (nextField esp false)))) esp = eol ++ concat post)
    as (cont & post & eol & -> & Hcont & Hpost & He & Hep & ->).
  { destruct (wf_lines_inv l ls Hlw) as [[-> Hn]|(x & Hn & Elx & Hlw')].
    - cbn [concat] in Et. rewrite app_nil_r in Et. rewrite Et in Hn.
      apply noLF_app in Hn as [_ Hn]. apply noLF_app in Hn as [_ Hn].
      exists [], [], []. split_and!; [done|constructor|done|by left|done|]. by rewrite chopped_last.
    - cbn [concat] in Et. rewrite Elx, <- app_assoc in Et. cbn [app] in Et. symmetry in Et.
      rewrite app_assoc in Et. apply prefix_line in Et as (w & -> & Ee & Hwn); [|by apply noLF_app|done].
      rewrite Ee. by apply chopped_whole. }
  assert (wf_lines post) as Hpw.
  { rewrite app_comm_cons in Hlw. by apply wf_lines_app_r in Hlw. }
  set (l2 := (nm ++ u ++ v) ++ eol).
  assert (lines (concat a ++ (nm ++ u) ++ v ++ eol ++ concat post) = a ++ l2 :: post) as El2.
  { replace (concat a ++ (nm ++ u) ++ v ++ eol ++ concat post) with (concat (a ++ l2 :: post)).
    2: { rewrite concat_app. cbn [concat]. unfold l2. by rewrite <- !app_assoc. }
    apply lines_concat, wf_lines_whole; [done|]. apply wf_set_line; try done.
    - apply noLF_app. split; [done|]. apply noLF_app. split; [done|]. apply value_noLF, Hv.
    - destruct Huc as (d & u' & -> & _). by destruct nm. }
  assert (has_name f l2 = true) as Hl2.
  { destruct Huc as (d & u' & -> & Hd). unfold l2. rewrite <- app_assoc. cbn [app]. by apply has_name_intro. }
  rewrite <- app_assoc. split.
  - intros size Hsz. rewrite getFieldValue_get, El2 by done. unfold l2. rewrite <- !app_assoc. by apply get_field_set.
  - intros g size Hg Hne. rewrite !getFieldValue_get, El2, Ea by by apply fname_noLF.
    apply get_frame; [done|done| | |].
    + assert (isblank (cat l2 0) = false) as Hb by by apply (name_not_blank f).
      destruct (has_name_spec f l2 Hl2 Hf) as (y & d & z & E2 & _). cbn [concat].
      rewrite E2 in *. by destruct y.
    + pose proof (name_not_blank f l Hf Hl) as Hb. cbn [concat]. rewrite El in *. by destruct nm.
    + change (l2 :: post) with ([l2] ++ post). change (l :: cont ++ post) with ((l :: cont) ++ post).
      rewrite !get_skip; [done| |].
      * constructor; [by apply (one_name f)|]. eapply Forall_impl; [exact Hcont|]. intros k Hk. cbv beta in *.
        destruct (has_name g k) eqn:Hgk; [|done]. apply name_not_blank in Hgk; [congruence|done].
      * constructor; [by apply (one_name f)|constructor].
Qed.

(** A field that is not there is added at the end of the head. *)
Lemma set_new head f v : fname_ok f -> value_ok v -> findFieldValue head f = None ->
  strSeekEOH head <> [] ->
  field_set head (before head (strSeekEOH head) ++ f ++ cs ": " ++ v ++ head_EOL head ++ strSeekEOH head) f v.
Proof.
  intros Hf Hv Hnone Hend. pose proof (fname_noLF f Hf) as Hfn.
  destruct (seekEOH_lines head) as (a & b & El & Es & Hb & Ha).
  assert (strSeekEOH head = concat b) as Esb by (unfold strSeekEOH, strSeekEOHX; cbn [Nat.eqb]; by rewrite Es).
  rewrite Esb in *. specialize (Ha ltac:(by intros ->)).
  assert (head = concat a ++ concat b) as Eh by (by rewrite <- concat_app, <- El, concat_lines).
  assert (before head (concat b) = concat a) as -> by (rewrite Eh; apply before_app).
  set (u := cs ": "). set (eol := head_EOL head).
  assert (eol = [LF] \/ eol = CRLF) as He by (unfold eol, head_EOL; destruct (strstr _ _); [by right|by left]).
  set (l2 := (f ++ u ++ v) ++ eol). pose proof (wf_lines_lines head) as Hw. rewrite El in Hw.
  assert (lines (concat a ++ f ++ u ++ v ++ eol ++ concat b) = a ++ l2 :: b) as El2.
  { replace (concat a ++ f ++ u ++ v ++ eol ++ concat b) with (concat (a ++ l2 :: b)).
    2: { rewrite concat_app. cbn [concat]. unfold l2. by rewrite <- !app_assoc. }
    apply lines_concat, wf_lines_whole; [done|]. apply wf_set_line.
    - apply noLF_app. split; [apply Hfn|]. apply noLF_app. split; [|apply value_noLF, Hv].
      apply (bool_decide_unpack _). by vm_compute.
    - destruct Hf as [H0 _]. by destruct f.
    - by right.
    - intros E. by destruct He as [E'|E']; rewrite E in E'.
    - by apply wf_lines_app_r in Hw. }
  assert (Forall (fun l => has_name f l = false) (a ++ b)) as Hno.
  { unfold findFieldValue, findField in Hnone. rewrite findField_loop_lines, El in Hnone by (done || lia).
    destruct (seek_split (has_name f) (a ++ b)) as (k & Ek & Hk & _).
    destruct (seek (has_name f) (a ++ b)); [|done]. rewrite app_nil_r in Ek. by rewrite Ek. }
  apply Forall_app in Hno as [Hna Hnb].
  assert (has_name f l2 = true) as Hl2.
  { unfold l2. rewrite <- app_assoc. change (u ++ v) with (58 :: SP :: v). cbn [app]. by apply has_name_intro. }
  split.
  - intros size Hsz. rewrite getFieldValue_get, El2 by done. unfold l2. rewrite <- !app_assoc.
    apply get_field_set; try done.
    + by exists 58, [SP].
    + intros t H1 H2. unfold u. change (cs ": " ++ t) with (58 :: SP :: t). unfold field_value.
      change (skip_sp (58 :: SP :: t)) with (58 :: SP :: t). rewrite cat_0.
      change (58 =? 58) with true. cbn [tl]. apply (skip_sp_app [SP]); [by repeat constructor|done].
    + by right.
    + intros E. by destruct He as [E'|E']; rewrite E in E'.
  - intros g size Hg Hne. rewrite !getFieldValue_get, El2, El by by apply fname_noLF.
    apply get_frame; [done|done| |done|].
    + pose proof (name_not_blank f l2 Hf Hl2) as Hbl.
      destruct (has_name_spec f l2 Hl2 Hf) as (y & d & z & E2 & _). cbn [concat].
      rewrite E2 in *. by destruct y.
    + change (l2 :: b) with ([l2] ++ b). rewrite get_skip; [done|].
      constructor; [by apply (one_name f)|constructor].
Qed.

Lemma skip_sp_suffix s : exists x, s = x ++ skip_sp s.
Proof. destruct (skip_sp_split s) as (u & E & _). by exists u. Qed.

Lemma seek_suffix {A} (p : A -> bool) s : exists x, s = x ++ seek p s.
Proof. destruct (seek_split p s) as (a & E & _). by exists a. Qed.

Lemma field_value_suffix s : exists x, s = x ++ field_value s.
Proof.
  unfold field_value. destruct (skip_sp_suffix s) as (x & E).
  destruct (skip_sp s) as [|c t]; [by exists x|]. rewrite cat_0. destruct (c =? 58); cbn [tl].
  - destruct (skip_sp_suffix t) as (y & Et). exists (x ++ c :: y). rewrite <- app_assoc. cbn [app]. by rewrite <- Et.
  - destruct (skip_sp_suffix (c :: t)) as (y & Et). exists (x ++ y). by rewrite <- app_assoc, <- Et.
Qed.

Lemma findField_loop_suffix head field fuel : forall csp, (exists x, head = x ++ csp) ->
  forall fp e, findField_loop fuel head csp field = Some (fp, e) -> exists x, head = x ++ e.
Proof.
  induction fuel as [|fuel IH]; intros csp (x & ->) fp e; [done|]. cbn [findField_loop].
  destruct csp as [|d csp']; [done|]. set (csp := d :: csp').
  set (s := if Nat.eqb (length field) 0 then seek fsep csp else csp).
  assert (exists y, csp = y ++ s) as (y & Ey).
  { unfold s. destruct (Nat.eqb _ _); [apply seek_suffix|by exists []]. }
  destruct (_ && _).
  - destruct (Nat.eqb _ _).
    + intros [= _ <-]. destruct (field_value_suffix s) as (z & Ez). exists (x ++ y ++ z).
      by rewrite <- !app_assoc, <- Ez, <- Ey.
    + intros [= _ <-]. destruct (field_value_suffix (drop (length field) s)) as (z & Ez).
      exists (x ++ y ++ take (length field) s ++ z).
      by rewrite <- !app_assoc, <- Ez, take_drop, <- Ey.
  - destruct (seek_suffix (Z.eqb LF) s) as (z & Ez). destruct (seek (Z.eqb LF) s) as [|c nsp]; [done|].
    apply IH. exists (x ++ y ++ z ++ [c]). rewrite <- !app_assoc. cbn. by rewrite <- Ez, <- Ey.
Qed.

Lemma findField_suffix head field fp e : findField head field = Some (fp, e) -> exists x, head = x ++ e.
Proof. apply findField_loop_suffix. by exists []. Qed.

(** C28. Setting a field of a head that has its end: afterwards reading the
    field gives the value, and reading any other field what it gave before,
    whether the field was there (folded or not) or is new.  Only where the
    first line of the field says the value already, but for the case of the
    letters, the head stays as it is. *)
Theorem replaceFieldValue_sets (room : nat) (head field value : list Z) :
  fname_ok field -> value_ok value -> strSeekEOH head <> [] ->
  zlen head < Z.of_nat MAX_MIMEHEAD ->
  zlen head + zlen field + zlen value + 4 < Z.of_nat room ->
  let '(head', r) := replaceFieldValue room head field value in
  (head' = head /\ exists esp, findFieldValue head field = Some esp /\
     strcasecmp_eq (linescan esp MAX_MIMEHEAD) value = true) \/
  field_set head head' field value.
Proof.
  intros Hf Hv He Hm Hr. unfold replaceFieldValue.
  destruct (findFieldValue head field) as [esp|] eqn:Ef.
  - destruct (strncaseeq _ _ _ && strcasecmp_eq _ _) eqn:Eq.
    + apply andb_true_iff in Eq as [_ Eq]. left. split; [done|]. by exists esp.
    + right. pose proof (set_found head field value esp Hf Hv Ef) as Hs.
      set (np := drop (length (chop_eol (before esp (nextField esp false)))) esp) in *.
      rewrite plain_copied by apply Hv.
      assert (zlen (before head esp) + zlen esp <= zlen head) as Hl.
      { clear -Ef. unfold findFieldValue in Ef. destruct (findField head field) as [[fp e]|] eqn:E; [|done].
        injection Ef as ->. apply findField_suffix in E as (x & ->). rewrite before_app, zlen_app. lia. }
      assert (zlen np <= zlen esp) as Hnp by (unfold np, zlen; rewrite length_drop; lia).
      pose proof (zlen_nonneg (before head esp)). pose proof (zlen_nonneg field).
      rewrite (fits_id MAX_MIMEHEAD np), fits_id by (rewrite ?zlen_app; lia). done.
  - right. pose proof (set_new head field value Hf Hv Ef He) as Hs.
    destruct (seekEOH_lines head) as (a & b & El & Es & _ & _).
    assert (strSeekEOH head = concat b) as Esb by (unfold strSeekEOH, strSeekEOHX; cbn [Nat.eqb]; by rewrite Es).
    assert (head = concat a ++ concat b) as Eh by (by rewrite <- concat_app, <- El, concat_lines).
    assert (zlen (before head (strSeekEOH head)) + zlen (strSeekEOH head) = zlen head) as Hl.
    { rewrite Esb. replace (before head (concat b)) with (concat a) by (rewrite Eh; symmetry; apply before_app).
      by rewrite Eh, zlen_app. }
    pose proof (zlen_nonneg (before head (strSeekEOH head))).
    assert (zlen (cs ": ") = 2) as H2 by done.
    assert (0 <= zlen (head_EOL head) <= 2) as H3 by (unfold head_EOL; destruct (strstr _ _); by compute).
    rewrite (fits_id MAX_MIMEHEAD), fits_id by (rewrite ?zlen_app; lia). done.
Qed.

Definition set_head : list Z :=
  cs "To: a" ++ CRLF ++ cs "X-A: 1" ++ CRLF ++ cs "  2" ++ CRLF ++ cs "Date: now" ++ CRLF ++ CRLF.
Lemma set_head_ok : strSeekEOH set_head <> [] /\ zlen set_head < Z.of_nat MAX_MIMEHEAD /\
  zlen set_head + zlen (cs "x-a") + zlen (cs "three") + 4 < Z.of_nat 256.
Proof. split_and!; [by vm_compute|by vm_compute|by vm_compute]. Qed.

Lemma replaceFieldValue_sets_witness :
  getFieldValue (replaceFieldValue 256 set_head (cs "x-a") (cs "three")).1 (cs "Date") 64 =
  getFieldValue set_head (cs "Date") 64.
Proof.
  destruct set_head_ok as (H1 & H2 & H3).
  assert (fname_ok (cs "x-a")) as Hf by (split; [done|apply (bool_decide_unpack _); by vm_compute]).
  pose proof (replaceFieldValue_sets 256 set_head (cs "x-a") (cs "three") Hf
    ltac:(apply (bool_decide_unpack _); by vm_compute) H1 H2 H3) as H.
  destruct (replaceFieldValue _ _ _ _) as [h r]. destruct H as [[-> _]|[_ H]]; [done|].
  apply H; [split; [done|apply (bool_decide_unpack _); by vm_compute]|by vm_compute].
Defined.

(** ** Cases that show where the code leaves this *)

Definition ln (s : string) : list Z := cs s ++ CRLF.

(** Only the first line of a folded field is compared: a field that goes on
    keeps its value. *)
Lemma set_folded_stays :
  let head := ln "X: abc" ++ ln " def" ++ CRLF in
  replaceFieldValue 256 head (cs "X") (cs "abc") = (head, 0) /\
  getFieldValue head (cs "X") 64 = Some (cs "abc def").
Proof. by vm_compute. Qed.

(** A new field is added without [copyHeader]: an empty line in the value
    ends the head. *)
Lemma set_new_ends_head :
  let v := ln "v" ++ CRLF ++ cs "body" in
  (replaceFieldValue 256 (ln "A: 1" ++ CRLF) (cs "X") v).1 =
    ln "A: 1" ++ ln "X: v" ++ CRLF ++ ln "body" ++ CRLF /\
  (replaceFieldValue 256 (ln "A: 1" ++ CRLF) (cs "A") v).1 = ln "A: v" ++ ln "body" ++ CRLF.
Proof. by vm_compute. Qed.

(** [rmField] takes out lines: the rest of a folded field goes to the one in
    front of it; and lines of the body go, too. *)
Lemma rmField_joins :
  (rmField (ln "A: 1" ++ ln "X: a" ++ ln " b" ++ CRLF ++ ln "X : y") (cs "X")).1 =
    ln "A: 1" ++ ln " b" ++ CRLF /\
  getFieldValue (ln "A: 1" ++ ln " b" ++ CRLF) (cs "A") 64 = Some (cs "1 b").
Proof. by vm_compute. Qed.

(** [removeFields] looks at the case of the name, [findField] does not. *)
Lemma removeFields_case :
  let head := ln "authorization: Basic x" ++ CRLF in
  removeFields head (cs "Authorization") false = (head, 0) /\
  getFieldValue head (cs "Authorization") 64 = Some (cs "Basic x").
Proof. by vm_compute. Qed.

(** [filterFields] looks for the value in all the rest of the head. *)
Lemma filterFields_value_elsewhere :
  filterFields (cs "Remove/X: v") (ln "X: 1" ++ ln "Y: v" ++ CRLF) = ln "Y: v" ++ CRLF.
Proof. by vm_compute. Qed.
(** What is passed twice is copied twice, and the end of the head is lost. *)
Lemma filterFields_passed_twice :
  filterFields (ln "Pass/X:" ++ ln "Pass/X: 1") (ln "X: 1" ++ CRLF) = cs "X: 1" ++ CRLF ++ cs "X:".
Proof. by vm_compute. Qed.

(** A closing parenthesis that does not belong to a comment turns what is in
    comments and what is not around. *)
Lemma strip_comment_inverts : RFC822_strip_commentX (cs "a) b (c) d") 64 = cs "ac".
Proof. by vm_compute. Qed.

(** [Tail/] of a specification is never found: it is as if nothing was said
    of the field. *)
Lemma matchFields_tail : matchFields (cs "Tail/X: c") (cs "X") (cs "zzz") = Some [].
Proof. by vm_compute. Qed.

(** The parameter of a character set in quotes leaves its last quote. *)
Lemma erase_charset_quote :
  (erase_charset_param (cs "text/plain; charset=" ++ [34] ++ cs "abc" ++ [34] ++ cs "; x=y")).1.1 =
  cs "text/plain;" ++ [34] ++ cs "; x=y".
Proof. by vm_compute. Qed.
