(* ===== verification/Param.v ===== *)
(** * Parameters of fields ([mimekit/rfc822.cpp])

    The value of a field such as [Content-Type] or [Cookie] is a list of
    [name=value], with semicolons between them; the value may be in quotes,
    unless the field is a cookie.  A pointer into a text is the rest of the
    text from there.

    A list of parameters as programs write it, with or without quotes around
    the values: [getParam] finds the last value of a name, and deletes all the
    parameters of the name and no other one. *)
From S2P Require Import Prelude VStr Strings Text Field FieldSpec ValueSpec.
From stdpp Require Import options.

Definition URLSZ : nat := Z.to_nat 16384.
Definition name_pat : list Z := [94; 61; 59; 13; 10].
Definition cookie_pat : list Z := [94; 59; 13; 10].
Definition skip_inline : list Z -> list Z := seek (fun c => negb (isspace c && negb (iseol c))).

(** One parameter at [pp]: its name, its value where it has one, and the
    position behind; [siz] is the size of the buffer of the value. *)
Definition scan_param (pp : list Z) (cookie : bool) (nsiz siz : nat)
  : list Z * option (list Z) * list Z :=
  let '(name1, dp) := wordscan pp nsiz name_pat in
  if cat dp 0 =? 61 then
    let '(val1, dp) :=
      if cookie then wordscan (tl dp) siz cookie_pat
      else let '(v, dp) := valuescan (tl dp) siz in (v, if cat dp 0 =? 34 then tl dp else dp) in
    (name1, Some val1, dp)
  else (name1, None, dp).

(** From behind a parameter to the next one, and whether there is one. *)
Definition next_param (dp : list Z) : list Z * bool :=
  let dp := skip_sp dp in
  let semi := cat dp 0 =? 59 in
  let dp := skip_inline (if semi then tl dp else dp) in
  (dp, semi && negb (iseol (cat dp 0))).

(** [findParam]: the parameter and the position behind it. *)
Fixpoint findParam_loop (fuel : nat) (pp name : list Z) (cookie : bool) : option (list Z * list Z) :=
  match fuel, pp with
  | S fuel, _ :: _ =>
      let '(name1, val1, dp) := scan_param pp cookie 128 URLSZ in
      if (if val1 then true else false) && strcaseeq name1 name
      then Some (pp, if cat dp 0 =? 59 then tl dp else dp)
      else
        let '(dp, cont) := next_param dp in
        if cont then findParam_loop fuel (skip_spaces dp) name cookie else None
  | _, _ => None
  end.
Definition findParam (params name : list Z) (cookie : bool) : option (list Z * list Z) :=
  if iseol (cat params 0) then None
  else findParam_loop (S (length params)) (skip_spaces params) name cookie.

(** [getParamX]: the parameters, the last value of the name, and how many have
    been deleted. [pre] is what is in front of [pp]. *)
Fixpoint getParamX_loop (fuel : nat) (pre pp name : list Z) (rvsiz : nat) (del cookie : bool)
  (val : list Z) (ndel : Z) : list Z * list Z * Z :=
  match fuel, pp with
  | S fuel, _ :: _ =>
      let '(name1, val1, dp) := scan_param pp cookie 128 URLSZ in
      let eq := strcaseeq name1 name in
      let val := match val1 with
                 | Some val1 => if eq then fits rvsiz val1 else val
                 | None => val
                 end in
      let '(dp, cont) := next_param dp in
      let pre := if del && eq then pre else pre ++ before pp dp in
      let ndel := if del && eq then ndel + 1 else ndel in
      if cont
      then let rest := skip_spaces dp in
           getParamX_loop fuel (pre ++ before dp rest) rest name rvsiz del cookie val ndel
      else (pre ++ dp, val, ndel)
  | _, _ => (pre ++ pp, val, ndel)
  end.
Definition getParamX (params name : list Z) (siz : nat) (del cookie : bool)
  : list Z * list Z * Z :=
  if (cat params 0 =? 0) || iseol (cat params 0) then (params, [], 0)
  else
    let pp := skip_spaces params in
    getParamX_loop (S (length params)) (before params pp) pp name siz del cookie [] 0.
Definition getParam (params name : list Z) (siz : nat) (del : bool) : list Z * list Z * Z :=
  getParamX params name siz del false.

(** [delParam]: a [fuel] of loop steps; [None] when they do not suffice. *)
Fixpoint delParam_loop (fuel : nat) (pre pp name : list Z) (ndel : Z) : option (list Z * Z) :=
  match fuel with
  | O => None
  | S fuel =>
      match pp with
      | [] => Some (pre, ndel)
      | _ =>
          let '(name1, _, dp) := scan_param pp false 32 URLSZ in
          let dp := skip_inline (if cat dp 0 =? 59 then tl dp else dp) in
          let eq := strcaseeq name1 name in
          let pre := if eq then pre else pre ++ before pp dp in
          let ndel := if eq then ndel + 1 else ndel in
          if iseol (cat dp 0) && negb (isblank (cat (seek (fun c => negb (iseol c)) dp) 0))
          then Some (pre ++ dp, ndel)
          else delParam_loop fuel pre dp name ndel
      end
  end.
Definition delParam (fuel : nat) (params name : list Z) : option (list Z * Z) :=
  delParam_loop fuel [] params name 0.

(** [extractParam]: the first field [fname] with the parameter: the head, the
    value, and whether it was found.  The flag for cookies is set by the name
    of the parameter.  [None] is a store through a null pointer. *)
Fixpoint extractParam_loop (fuel : nat) (head field1 fname pname : list Z) (pvsize : nat) (del : bool)
  : option (list Z * option (list Z)) :=
  match fuel, field1 with
  | S fuel, _ :: _ =>
      match findField field1 fname with
      | None => Some (head, None)
      | Some (fn, fv) =>
          let field1 := nextField fn false in
          let buf := valscan fv 1024 in
          match findParam buf pname (strcaseeq pname (cs "Cookie")) with
          | Some (pp, _) =>
              if cat pp (zlen pname) =? 61 then
                let dp := drop (S (length pname)) pp in
                let '(vbuf, ep) :=
                  if cat dp 0 =? 34
                  then let '(v, ep) := wordscan (tl dp) 8192 [94; 34] in
                       (v, if cat ep 0 =? 34 then tl ep else ep)
                  else wordscan dp 8192 cookie_pat in
                let pvalue := fits pvsize vbuf in
                if del then
                  let ep := if cat ep 0 =? 59 then tl ep else ep in
                  let ep := if cat ep 0 =? SP then tl ep else ep in
                  if bool_decide (skip_spaces (before buf pp ++ ep) = [])
                  then Some (before head fn ++ field1, Some pvalue)
                  else
                    let len := (length pp - length ep)%nat in
                    match strstr fv pname with
                    | Some pp => Some (before head pp ++ drop len pp, Some pvalue)
                    | None => None
                    end
                else Some (head, Some pvalue)
              else extractParam_loop fuel head field1 fname pname pvsize del
          | None => extractParam_loop fuel head field1 fname pname pvsize del
          end
      end
  | _, _ => Some (head, None)
  end.
Definition extractParam (head fname pname : list Z) (pvsize : nat) (del : bool)
  : option (list Z * option (list Z)) :=
  extractParam_loop (S (length head)) head head fname pname pvsize del.

(** ** Lists of parameters *)

Record param := mk_param { p_name : list Z; p_quoted : bool; p_value : list Z }.

Definition name_char (c : Z) : bool := negb (strchr (tl name_pat) c).
Definition token_char (c : Z) : bool := negb (strchr [59; 32; 9; 13; 10; 62; 34] c).
Definition quoted_char (c : Z) : bool := negb (strchr [34] c).

Definition param_ok (nsiz : nat) (p : param) : bool :=
  forallb name_char (p_name p) && (length (p_name p) <? nsiz - 1)%nat &&
  negb (isspace (cat (p_name p) 0)) && negb (cat (p_name p) 0 =? 0) &&
  (length (p_value p) <? URLSZ - 1)%nat &&
  (if p_quoted p then forallb quoted_char (p_value p) else forallb token_char (p_value p)).

Definition print_value (p : param) : list Z :=
  if p_quoted p then 34 :: p_value p ++ [34] else p_value p.
Definition print_param (p : param) : list Z := p_name p ++ 61 :: print_value p.

(** Each parameter with the separator behind it, but for the last one. *)
Fixpoint items (ps : list param) : list (param * list Z) :=
  match ps with
  | [] => []
  | [p] => [(p, print_param p)]
  | p :: ps => (p, print_param p ++ cs "; ") :: items ps
  end.
Definition items_text (l : list (param * list Z)) : list Z := concat (map snd l).

Lemma wordscan_stop s r siz pat : pat_of pat = (tl pat, true) -> forallb (fun c => negb (strchr (tl pat) c)) s = true ->
  strchr (tl pat) (cat r 0) = true -> (length s <= siz - 1)%nat -> wordscan (s ++ r) siz pat = (s, r).
Proof.
  intros Hp Hs Hr Hl. unfold wordscan. rewrite Hp. cbn [fst snd]. apply span_all; [done| |done].
  left. unfold in_pat. by rewrite Hr.
Qed.

(** What is behind a parameter. *)
Definition behind (r : list Z) : Prop := r = [] \/ exists r', r = 59 :: r'.

Lemma valuescan_value p nsiz r : param_ok nsiz p = true -> behind r ->
  exists d, valuescan (print_value p ++ r) URLSZ = (p_value p, d) /\
  (if cat d 0 =? 34 then tl d else d) = r.
Proof.
  unfold param_ok. intros H Hb. apply andb_true_iff in H as [H Hv]. apply andb_true_iff in H as [_ Hl].
  apply Nat.ltb_lt in Hl. unfold print_value, valuescan. destruct (p_quoted p).
  - rewrite <- !app_comm_cons, <- app_assoc. rewrite cat_0. cbn [Z.eqb Pos.eqb tl app].
    exists (34 :: r). rewrite (wordscan_stop (p_value p) (34 :: r)) by (done || lia). by rewrite cat_0.
  - exists r. assert (forallb (fun c => negb (strchr [59; 32; 9; 13; 10; 62; 34] c)) (p_value p) = true) as Hv' by done.
    assert ((cat (p_value p ++ r) 0 =? 34) = false) as ->.
    { destruct (p_value p) as [|c v]; [by destruct Hb as [-> |(r' & ->)]|]. cbn [app]. rewrite cat_0.
      cbn in Hv. apply andb_true_iff in Hv as [Hc _]. destruct (Z.eqb_spec c 34) as [-> |]; done. }
    rewrite (wordscan_stop (p_value p) r) by (done || lia || by destruct Hb as [-> |(r' & ->)]).
    split; [done|]. by destruct Hb as [-> |(r' & ->)].
Qed.

Lemma scan_param_item p nsiz r : param_ok nsiz p = true -> behind r ->
  scan_param (print_param p ++ r) false nsiz URLSZ = (p_name p, Some (p_value p), r).
Proof.
  intros Hp Hb. destruct (valuescan_value p nsiz r Hp Hb) as (d & E & Ed).
  unfold param_ok in Hp. apply andb_true_iff in Hp as [Hp _]. apply andb_true_iff in Hp as [Hp _].
  apply andb_true_iff in Hp as [Hp _]. apply andb_true_iff in Hp as [Hp _]. apply andb_true_iff in Hp as [Hn Hl].
  apply Nat.ltb_lt in Hl. unfold scan_param, print_param. rewrite <- app_assoc, <- app_comm_cons.
  rewrite (wordscan_stop (p_name p) (61 :: print_value p ++ r) nsiz name_pat) by (done || lia).
  rewrite cat_0. cbn [Z.eqb Pos.eqb tl]. by rewrite E, Ed.
Qed.

Lemma name_first nsiz p s : param_ok nsiz p = true -> exists c t, print_param p ++ s = c :: t /\ isspace c = false /\ c <> 59 /\ c <> 0.
Proof.
  unfold param_ok. intros H. do 2 apply andb_true_iff in H as [H _].
  apply andb_true_iff in H as [H H0]. apply andb_true_iff in H as [H Hs]. apply andb_true_iff in H as [Hn _].
  unfold print_param. destruct (p_name p) as [|c n]; [done|]. exists c. eexists. split; [done|].
  rewrite cat_0 in *. cbn in Hn. apply andb_true_iff in Hn as [Hn _]. zprop. split; [done|]. split; [|done].
  intros ->. done.
Qed.

Lemma items_cons p ps : ps <> [] ->
  items (p :: ps) = (p, print_param p ++ cs "; ") :: items ps.
Proof. by destruct ps. Qed.

Lemma items_text_cons x l : items_text (x :: l) = x.2 ++ items_text l.
Proof. done. Qed.

(** The text of parameters begins with the name of the first one. *)
Lemma items_first nsiz p ps : param_ok nsiz p = true ->
  exists c t, items_text (items (p :: ps)) = c :: t /\ isspace c = false /\ c <> 59 /\ c <> 0.
Proof.
  intros Hp. destruct (decide (ps = [])) as [-> |Hne].
  - by apply (name_first nsiz).
  - rewrite items_cons, items_text_cons by done. cbn [snd]. rewrite <- app_assoc. by apply (name_first nsiz).
Qed.

Lemma next_param_end : next_param [] = ([], false).
Proof. done. Qed.

Lemma next_param_more c t : isspace c = false -> c <> 59 -> c <> 0 ->
  next_param (cs "; " ++ c :: t) = (c :: t, true) /\ skip_spaces (c :: t) = c :: t /\
  skip_inline (cs " " ++ c :: t) = c :: t.
Proof.
  intros Hs H59 H0. assert (iseol c = false) as He.
  { unfold isspace, iseol, CR, LF in *. zprop. apply orb_false_iff. split; apply Z.eqb_neq; lia. }
  assert (skip_inline (32 :: c :: t) = c :: t) as E.
  { unfold skip_inline. cbn [seek]. change (isspace 32 && negb (iseol 32)) with true. cbn [negb].
    by rewrite Hs. }
  split; [|split; [cbn; by rewrite Hs|exact E]].
  change (cs "; " ++ c :: t) with (59 :: 32 :: c :: t). unfold next_param.
  change (skip_sp (59 :: 32 :: c :: t)) with (59 :: 32 :: c :: t). rewrite cat_0.
  change (59 =? 59) with true. cbn [tl]. rewrite E, cat_0. by rewrite He.
Qed.

Section params.
Context (name : list Z).
Definition is_named (p : param) : bool := strcaseeq (p_name p) name.
Definition kept_params (del : bool) (l : list (param * list Z)) : list (param * list Z) :=
  List.filter (fun x => negb (del && is_named x.1)) l.
Definition last_value (siz : nat) (ps : list param) (v : list Z) : list Z :=
  fold_left (fun v p => if is_named p then fits siz (p_value p) else v) ps v.
Definition deleted (del : bool) (ps : list param) : Z :=
  zlen (List.filter (fun p => del && is_named p) ps).

Lemma kept_cons del p s l : items_text (kept_params del ((p, s) :: l)) =
  (if del && is_named p then [] else s) ++ items_text (kept_params del l).
Proof using Type.
  unfold kept_params. cbn [List.filter fst]. by destruct (del && is_named p).
Qed.

Lemma deleted_cons del p ps : deleted del (p :: ps) = (if del && is_named p then 1 else 0) + deleted del ps.
Proof using Type.
  unfold deleted. cbn [List.filter]. destruct (del && is_named p); [rewrite zlen_cons|]; lia.
Qed.

Lemma getParamX_loop_items siz del ps : forall fuel pre val ndel,
  forallb (param_ok 128) ps = true -> (length ps < fuel)%nat ->
  getParamX_loop fuel pre (items_text (items ps)) name siz del false val ndel =
  (pre ++ items_text (kept_params del (items ps)), last_value siz ps val, ndel + deleted del ps).
Proof using Type.
  induction ps as [|p ps IH]; intros fuel pre val ndel Hok Hf.
  - destruct fuel; [lia|]. cbn. f_equal. unfold deleted, zlen. simpl. lia.
  - cbn [forallb] in Hok. apply andb_true_iff in Hok as [Hp Hok]. cbn [length] in Hf.
    destruct fuel as [|fuel]; [lia|].
    destruct (items_first 128 p ps Hp) as (c & t & E & _). cbn [getParamX_loop].
    rewrite E at 1. cbn iota. rewrite deleted_cons.
    destruct (decide (ps = [])) as [-> |Hne].
    + assert (items_text (items [p]) = print_param p ++ []) as Et by done. rewrite Et.
      rewrite scan_param_item by (done || by left). rewrite next_param_end.
      change (items [p]) with [(p, print_param p)]. rewrite kept_cons.
      assert (before (print_param p ++ []) [] = print_param p) as -> by apply before_app.
      change (items_text (kept_params del [])) with (@nil Z). rewrite !app_nil_r.
      change (deleted del []) with 0. change (last_value siz [p] val) with (if is_named p then fits siz (p_value p) else val).
      fold (is_named p). destruct del, (is_named p); cbn [andb]; rewrite ?app_nil_r; f_equal; lia.
    + rewrite items_cons, items_text_cons, kept_cons by done. cbn [snd]. rewrite <- app_assoc.
      destruct ps as [|q ps]; [done|]. pose proof Hok as Hok'. cbn [forallb] in Hok.
      apply andb_true_iff in Hok as [Hq Hok].
      destruct (items_first 128 q ps Hq) as (d & r & Er & Hd & H59 & H0).
      rewrite scan_param_item by (done || by right; eexists). rewrite Er.
      destruct (next_param_more d r Hd H59 H0) as (-> & -> & _). rewrite <- Er.
      replace (before (print_param p ++ cs "; " ++ items_text (items (q :: ps))) (items_text (items (q :: ps))))
        with (print_param p ++ cs "; ") by (rewrite app_assoc; symmetry; apply before_app).
      pose proof (before_app [] (items_text (items (q :: ps)))) as Eb. cbn [app] in Eb. rewrite Eb, app_nil_r.
      rewrite IH by (done || lia). cbn [last_value fold_left]. fold (is_named p).
      destruct del, (is_named p); cbn [andb]; rewrite ?app_nil_l, ?(app_assoc pre); f_equal; lia.
Qed.
End params.

Lemma length_items ps : forallb (param_ok 128) ps = true -> (length ps <= length (items_text (items ps)))%nat.
Proof.
  induction ps as [|p ps IH]; [simpl; lia|]. cbn [forallb]. intros [Hp Hok]%andb_true_iff.
  destruct (decide (ps = [])) as [-> |Hne].
  - destruct (items_first 128 p [] Hp) as (c & t & -> & _). simpl. lia.
  - rewrite items_cons, items_text_cons, length_app by done. cbn [snd]. specialize (IH Hok).
    rewrite length_app. simpl length. lia.
Qed.

(** [getParam] of parameters as they are written, in quotes or not:
    the value is the one of the last parameter with the name, in any case of
    letters, cut to the size of the buffer, and empty if there is none;
    without [del] the text stays as it is, with it exactly the parameters of
    the name are taken out, and the number of them is returned. *)
Theorem getParam_params (ps : list param) (name : list Z) (siz : nat) (del : bool) :
  forallb (param_ok 128) ps = true ->
  getParam (items_text (items ps)) name siz del =
  (items_text (kept_params name del (items ps)), last_value name siz ps [], deleted name del ps).
Proof.
  intros Hok. destruct ps as [|p ps]; [by destruct del|]. pose proof Hok as Hok'.
  cbn [forallb] in Hok. apply andb_true_iff in Hok as [Hp _].
  destruct (items_first 128 p ps Hp) as (c & t & E & Hs & _ & H0).
  unfold getParam, getParamX. rewrite E at 1 2. rewrite !cat_0, (proj2 (Z.eqb_neq c 0)) by done.
  assert (iseol c = false) as He.
  { unfold isspace, iseol, CR, LF in *. zprop. apply orb_false_iff. split; apply Z.eqb_neq; lia. }
  rewrite He. cbn [orb].
  assert (skip_spaces (items_text (items (p :: ps))) = items_text (items (p :: ps))) as ->
    by (rewrite E; cbn; by rewrite Hs).
  pose proof (before_app [] (items_text (items (p :: ps)))) as Eb. cbn [app] in Eb. rewrite Eb.
  rewrite getParamX_loop_items by (done || pose proof (length_items _ Hok'); lia).
  by cbn [app].
Qed.

Definition ct_params : list param :=
  [mk_param (cs "charset") true (cs "us ascii"); mk_param (cs "q") false (cs "0.5");
   mk_param (cs "Charset") false (cs "utf-8")].
Lemma getParam_params_witness :
  getParam (items_text (items ct_params)) (cs "CHARSET") 64 true = (cs "q=0.5; ", cs "utf-8", 2).
Proof.
  rewrite (getParam_params ct_params (cs "CHARSET") 64 true eq_refl). by vm_compute.
Defined.

(** [delParam] takes out the same parameters. *)
Lemma delParam_loop_items name ps : forall fuel pre ndel,
  forallb (param_ok 32) ps = true -> (length ps < fuel)%nat ->
  delParam_loop fuel pre (items_text (items ps)) name ndel =
  Some (pre ++ items_text (kept_params name true (items ps)), ndel + deleted name true ps).
Proof.
  induction ps as [|p ps IH]; intros fuel pre ndel Hok Hf.
  - destruct fuel; [lia|]. cbn. rewrite app_nil_r. do 2 f_equal. unfold deleted, zlen. simpl. lia.
  - cbn [forallb] in Hok. apply andb_true_iff in Hok as [Hp Hok]. cbn [length] in Hf.
    destruct fuel as [|fuel]; [lia|].
    destruct (items_first 32 p ps Hp) as (c & t & E & _). cbn [delParam_loop].
    rewrite E at 1. cbn iota. rewrite deleted_cons. destruct (decide (ps = [])) as [-> |Hne].
    + assert (items_text (items [p]) = print_param p ++ []) as Et by done. rewrite Et.
      rewrite scan_param_item by (done || by left). cbn iota.
      change (items [p]) with [(p, print_param p)]. rewrite kept_cons.
      change (items_text (kept_params name true [])) with (@nil Z). change (deleted name true []) with 0.
      change (skip_inline (if cat [] 0 =? 59 then tl [] else [])) with (@nil Z).
      change (iseol (cat [] 0)) with false. cbn [andb]. rewrite before_app. fold (is_named name p).
      destruct fuel as [|fuel]; [simpl in Hf; lia|]. cbn [delParam_loop].
      destruct (is_named name p); rewrite ?app_nil_r; do 2 f_equal; lia.
    + rewrite items_cons, items_text_cons, kept_cons by done. cbn [snd]. rewrite <- app_assoc.
      destruct ps as [|q ps]; [done|]. pose proof Hok as Hok'. cbn [forallb] in Hok.
      apply andb_true_iff in Hok as [Hq Hok].
      destruct (items_first 32 q ps Hq) as (d & r & Er & Hd & H59 & H0).
      rewrite scan_param_item by (done || by right; eexists). rewrite Er.
      destruct (next_param_more d r Hd H59 H0) as (_ & _ & Hin).
      change (cs "; " ++ d :: r) with (59 :: cs " " ++ d :: r). rewrite cat_0.
      change (59 =? 59) with true. cbn [tl]. rewrite Hin, cat_0.
      assert (iseol d = false) as ->.
      { unfold isspace, iseol, CR, LF in *. zprop. apply orb_false_iff. split; apply Z.eqb_neq; lia. }
      cbn [andb]. rewrite <- Er.
      replace (before (print_param p ++ 59 :: cs " " ++ items_text (items (q :: ps))) (items_text (items (q :: ps))))
        with (print_param p ++ cs "; ")
        by (change (59 :: cs " " ++ ?x) with (cs "; " ++ x); rewrite app_assoc; symmetry; apply before_app).
      rewrite IH by (done || lia). fold (is_named name p).
      destruct (is_named name p); rewrite ?app_nil_l, ?(app_assoc pre); do 2 f_equal; lia.
Qed.

Lemma delParam_params ps name fuel : forallb (param_ok 32) ps = true -> (length ps < fuel)%nat ->
  delParam fuel (items_text (items ps)) name =
  Some (items_text (kept_params name true (items ps)), deleted name true ps).
Proof. intros Hok Hf. unfold delParam. by rewrite delParam_loop_items. Qed.

(** On a folded field [delParam] does not come to an end: behind the end of
    the line it does not go on. *)
Lemma delParam_stuck fuel : forall pre ndel,
  delParam_loop fuel pre (CRLF ++ cs " x=y") (cs "Secure") ndel = None.
Proof.
  induction fuel as [|fuel IH]; intros pre ndel; [done|]. cbn [delParam_loop].
  assert (scan_param (CRLF ++ cs " x=y") false 32 URLSZ = ([], None, CRLF ++ cs " x=y")) as E by (by vm_compute).
  rewrite E. change (cat (CRLF ++ cs " x=y") 0) with CR. cbn iota. cbn [app CRLF].
  change (skip_inline (CR :: LF :: cs " x=y")) with (CRLF ++ cs " x=y").
  change (CR =? 59) with false. cbn iota.
  change (strcaseeq [] (cs "Secure")) with false. cbn iota. apply IH.
Qed.
Lemma delParam_folded fuel : delParam fuel (cs "a=b;" ++ CRLF ++ cs " x=y") (cs "Secure") = None.
Proof.
  unfold delParam. destruct fuel as [|fuel]; [done|]. cbn [delParam_loop].
  assert (scan_param (cs "a=b;" ++ CRLF ++ cs " x=y") false 32 URLSZ =
    (cs "a", Some (cs "b"), cs ";" ++ CRLF ++ cs " x=y")) as E by (by vm_compute).
  rewrite E. apply delParam_stuck.
Qed.

(** [extractParam] finds a parameter in any case of letters and then looks
    for its text as it is given to delete it: the null pointer if the case
    is another one, another parameter if the name is part of its name. *)
Lemma extractParam_null : extractParam (cs "Cookie: a=b; sid=1" ++ CRLF) (cs "Cookie") (cs "Sid") 64 true = None.
Proof. by vm_compute. Qed.
Lemma extractParam_wrong :
  extractParam (cs "Cookie: xSid=b; Sid=1; c=d" ++ CRLF) (cs "Cookie") (cs "Sid") 64 true =
  Some (cs "Cookie: xSid=1; c=d" ++ CRLF, Some (cs "1")).
Proof. by vm_compute. Qed.
