(* ===== verification/MsgFile.v ===== *)
(** * Reading messages from files ([mimekit/rfc822.cpp])

    A file that is read is the rest of its characters.  [fgets] reads a line,
    or as much of it as fits; the functions here read heads, fields and
    bodies line by line.  The functions that put the file back to where it
    was ([fseek]) leave it as it is. *)
From S2P Require Import Prelude VStr Strings Text Field FieldSpec ValueSpec FieldSet.
From stdpp Require Import options.

(** [fgets(line,n,fp)]: the line, without what is behind a NUL in it, and the
    rest of the file; nothing at the end of the file. *)
Fixpoint get_line (n : nat) (fp : list Z) : list Z * list Z :=
  match n, fp with
  | S n, c :: fp => if c =? LF then ([c], fp) else let '(l, r) := get_line n fp in (c :: l, r)
  | _, _ => ([], fp)
  end.
Definition fgets (n : nat) (fp : list Z) : option (list Z * list Z) :=
  match fp with
  | [] => None
  | _ => Some (let '(l, r) := get_line (n - 1) fp in (cstr l, r))
  end.

Definition isEOR (line : list Z) : bool := (cat line 0 =? 46) && iseol (cat line 1).

(** [RFC822_fgetsHeaderField]: a field with the lines that go on with it, as
    long as there is room for 80 more characters. *)
Fixpoint cont_lines (fuel : nat) (line : list Z) (rem : nat) (fp : list Z) : list Z * list Z :=
  match fuel, fp with
  | S fuel, ch :: fp' =>
      if Nat.ltb 80 rem && (isblank ch || (ch =? 35)) then
        let line := line ++ [ch] in
        match fgets (rem - 1) fp' with
        | None => (line, fp')
        | Some (l, fp) => cont_lines fuel (line ++ l) (rem - 1 - length l) fp
        end
      else (line, fp)
  | _, _ => (line, fp)
  end.
Definition RFC822_fgetsHeaderField (size : nat) (fp : list Z) : option (list Z * list Z) :=
  match fgets size fp with
  | None => None
  | Some (line, fp) =>
      if (cat line 0 =? 0) || iseol (cat line 0) || isEOR line then Some (line, fp)
      else Some (cont_lines (S (length fp)) line (size - length line) fp)
  end.

(** [fgetsHeaderField]: the value of the last field of the name. *)
Fixpoint fgetsHeaderField_loop (fuel : nat) (hfp name : list Z) (size : nat) (value : option (list Z))
  : option (list Z) :=
  match fuel with
  | O => value
  | S fuel =>
      match RFC822_fgetsHeaderField 1024 hfp with
      | None => value
      | Some (line, hfp) =>
          if iseol (cat line 0) then value
          else
            let vp := skip_sp (drop (length name) line) in
            let value := if strncaseeq line name (length name) && (cat vp 0 =? 58)
                         then Some (RFC822_strip_lwsp (tl vp) size) else value in
            fgetsHeaderField_loop fuel hfp name size value
      end
  end.
Definition fgetsHeaderField (hfp name : list Z) (size : nat) : option (list Z) :=
  fgetsHeaderField_loop (S (length hfp)) hfp name size None.

(** [RFC822_readHeader]: the head with the line that ends it, up to the size
    of the buffer; a line of a dot ends it if [seeEOR]. *)
Fixpoint readHeader_loop (fuel : nat) (buff fp : list Z) (seeEOR : bool) : list Z * list Z :=
  match fuel with
  | O => (buff, fp)
  | S fuel =>
      if Nat.leb MAX_MIMEHEAD (length buff + 2) then (buff, fp)
      else match fgets (MAX_MIMEHEAD - length buff) fp with
           | None => (buff, fp)
           | Some (lp, fp) =>
               if iseol (cat lp 0) || seeEOR && isEOR lp then (buff ++ lp, fp)
               else readHeader_loop fuel (buff ++ lp) fp seeEOR
           end
  end.
Definition RFC822_readHeader (fp : list Z) (seeEOR : bool) : list Z * list Z :=
  readHeader_loop (S (length fp)) [] fp seeEOR.

(** [RFC821_skipheader]: 0 when the empty line has been read, [EOF] (-1)
    otherwise; what is written of the fields [field], of all lines without
    one.  [selected] is never set: the lines that go on with a field are
    taken for other fields. *)
Definition separator (field : list Z) : list Z :=
  if strcasecmp_eq field (cs "To") || strcasecmp_eq field (cs "Cc") then cs ", "
  else if strcasecmp_eq field (cs "Received") then cs "; " else cs " ".

Fixpoint skipheader_loop (fuel : nat) (afp : list Z) (out : option (list Z)) (field : option (list Z))
  (nputs : Z) : Z * list Z * option (list Z) :=
  match fuel with
  | O => (-1, afp, out)
  | S fuel =>
      match fgets 1024 afp with
      | None => (-1, afp, out)
      | Some (line, afp) =>
          if iseol (cat line 0) then (0, afp, out)
          else if isEOR line then (-1, afp, out)
          else
            let '(out, nputs) :=
              match out, field with
              | None, _ => (None, nputs)
              | Some o, None => (Some (o ++ line), nputs)
              | Some o, Some field =>
                  let flen := length field in
                  if (cat line (Z.of_nat flen) =? 58) && strncaseeq line field flen
                  then
                    let lp := skip_spaces (drop (S flen) line) in
                    let line_end := seek (fun c => iseol c || (c =? 12)) line in
                    let lp := if Nat.ltb (length lp) (length line_end) then lp
                              else take (length lp - length line_end) lp in
                    (Some (o ++ (if nputs =? 0 then [] else separator field) ++ lp), nputs + 1)
                  else (Some o, nputs)
              end in
            skipheader_loop fuel afp out field nputs
      end
  end.
Definition RFC821_skipheader (afp : list Z) (out field : option (list Z)) : Z * list Z * option (list Z) :=
  skipheader_loop (S (length afp)) afp out field 0.

(** [RFC821_skipbody]: the length, the rest of the file, and what is written. *)
Fixpoint skipbody_loop (fuel size : nat) (afp : list Z) (rcc : Z) (out : list Z) : Z * list Z * list Z :=
  match fuel with
  | O => (rcc, afp, out)
  | S fuel =>
      match fgets size afp with
      | None => (rcc, afp, out)
      | Some (line, afp) =>
          if isEOR line then (rcc, afp, out)
          else skipbody_loop fuel size afp (rcc + zlen line) (out ++ line)
      end
  end.
Definition RFC821_skipbody (size : nat) (afp out : list Z) : Z * list Z * list Z :=
  skipbody_loop (S (length afp)) size afp 0 out.

(** [relayRESPBODY]: the lines up to a line of a dot. *)
Definition relayRESPBODY (size : nat) (fs tc : list Z) : list Z * list Z :=
  let '(_, fs, tc) := RFC821_skipbody size fs tc in (fs, tc).

(** ** Cross references *)

Definition strsubstr (n1 n2 : list Z) : bool := is_prefix n2 n1 || is_prefix n1 n2.

Fixpoint findXref_loop (fuel : nat) (afp : list Z) (matchfunc : list Z -> list Z -> bool)
  (host : list Z) (size : nat) : option (list Z) :=
  match fuel with
  | O => None
  | S fuel =>
      match fgets 1024 afp with
      | None => None
      | Some (line, afp) =>
          if iseol (cat line 0) || isEOR line then None
          else if isspace (cat line 0) then findXref_loop fuel afp matchfunc host size
          else
            match seek (Z.eqb 58) line with
            | [] => findXref_loop fuel afp matchfunc host size
            | colon :: dp =>
                if strcasecmp_eq (before line (colon :: dp)) (cs "Xref") then
                  let dp := skip_spaces dp in
                  if matchfunc host (word_scan dp 256)
                  then Some (fits size (before dp (seek iseol dp)))
                  else findXref_loop fuel afp matchfunc host size
                else findXref_loop fuel afp matchfunc host size
            end
      end
  end.
Definition findXref (afp : list Z) (matchfunc : option (list Z -> list Z -> bool)) (host : list Z) (size : nat)
  : option (list Z) :=
  findXref_loop (S (length afp)) afp (default strsubstr matchfunc) host size.

(** [selectXref]: the [Xref] fields of the host, and the fields that go on
    with them; [getit] is kept over lines that begin with a blank. *)
Fixpoint selectXref_loop (host : list Z) (top getit : bool) (sp : list Z) : list Z :=
  match sp with
  | ch :: sp' =>
      let getit :=
        if top && negb (isblank ch) then
          if strncaseeq sp (cs "Xref") 4 then
            match seek (Z.eqb 58) sp with
            | _ :: xp =>
                let host1 := word_scan xp 512 in
                let c := cat host1 (zlen host) in
                strncaseeq host1 host (length host) && ((c =? 0) || (c =? 46))
            | [] => false
            end
          else false
        else getit in
      let rest := selectXref_loop host (ch =? LF) getit sp' in
      if getit then ch :: rest else rest
  | [] => []
  end.
Definition selectXref (host xref1 : list Z) : list Z := selectXref_loop host true false xref1.

(** ** Reading a head *)

Lemma get_line_whole x r n : noLF x -> (length x < n)%nat -> get_line n (x ++ LF :: r) = (x ++ [LF], r).
Proof.
  revert n. induction x as [|c x IH]; intros n Hx Hn; destruct n as [|n]; try (simpl in Hn; lia); [done|].
  apply noLF_cons in Hx as [Hc Hx]. cbn [app get_line]. rewrite (proj2 (Z.eqb_neq c LF)) by done.
  rewrite IH; [done|done|simpl in Hn; lia].
Qed.

Lemma fgets_whole x r n : cstr_ok x -> noLF x -> (S (length x) < n)%nat ->
  fgets n (x ++ LF :: r) = Some (x ++ [LF], r).
Proof.
  intros Hc Hx Hn. unfold fgets. destruct (x ++ LF :: r) as [|c s] eqn:E; [by destruct x|]. rewrite <- E.
  rewrite get_line_whole by (done || lia). rewrite cstr_ok_cstr; [done|].
  apply cstr_ok_app. split; [done|]. by repeat constructor.
Qed.

(** The line ends a head. *)
Definition head_end (seeEOR : bool) (l : list Z) : bool := iseol (cat l 0) || seeEOR && isEOR l.

Lemma readHeader_loop_lines seeEOR l b a : forall fuel buff,
  Forall (fun l => whole_line l /\ cstr_ok l) (a ++ [l]) ->
  Forall (fun l => head_end seeEOR l = false) a -> head_end seeEOR l = true ->
  (length buff + length (concat a ++ l) + 2 < MAX_MIMEHEAD)%nat -> (length a < fuel)%nat ->
  readHeader_loop fuel buff (concat (a ++ l :: b)) seeEOR = (buff ++ concat a ++ l, concat b).
Proof.
  assert (forall k, whole_line k /\ cstr_ok k -> forall buff r : list Z, (length buff + length k + 2 < MAX_MIMEHEAD)%nat ->
    Nat.leb MAX_MIMEHEAD (length buff + 2) = false /\
    fgets (MAX_MIMEHEAD - length buff) (k ++ r) = Some (k, r)) as Hget.
  { intros k [(x & Hx & ->) Hc] buff r Hl. rewrite length_app in Hl. simpl length in Hl.
    split; [apply Nat.leb_gt; lia|]. rewrite <- app_assoc. cbn [app]. apply cstr_ok_app in Hc as [Hc _].
    apply fgets_whole; [done|done|lia]. }
  induction a as [|k a IH]; intros fuel buff Hw Hno Hend Hlen Hf; (destruct fuel as [|fuel]; [lia|]).
  - apply Forall_cons in Hw as [Hl _]. cbn [app concat length] in *. cbn [readHeader_loop].
    destruct (Hget l Hl buff (concat b)) as [-> ->]; [lia|].
    change (head_end seeEOR l = true) in Hend. unfold head_end in Hend. by rewrite Hend.
  - cbn [app] in Hw. apply Forall_cons in Hw as [Hk Hw]. apply Forall_cons in Hno as [Hkn Hno].
    cbn [app concat length] in *. rewrite <- app_assoc, length_app in Hlen. cbn [readHeader_loop].
    destruct (Hget k Hk buff (concat (a ++ l :: b))) as [-> ->]; [lia|].
    unfold head_end in Hkn. rewrite Hkn. rewrite IH; [by rewrite <- !app_assoc|done..| |lia].
    rewrite length_app. lia.
Qed.

Lemma concat_length_le a : Forall (fun l : list Z => l <> []) a -> (length a <= length (concat a))%nat.
Proof.
  induction 1 as [|l a Hl _ IH]; [done|]. cbn [concat]. rewrite length_app. destruct l; [done|]. simpl. lia.
Qed.

(** From a message of lines, of which [l] is the first that ends a
    head, [RFC822_readHeader] reads the lines up to [l] and [l] itself, and
    leaves the rest in the file, if the head fits into its buffer; with
    [seeEOR] the head that is read ends, for the functions on heads, with
    this line. *)
Theorem readHeader_reads_head (seeEOR : bool) (a : list (list Z)) (l body : list Z) :
  Forall (fun l => whole_line l /\ cstr_ok l) (a ++ [l]) ->
  Forall (fun l => head_end seeEOR l = false) a -> head_end seeEOR l = true ->
  zlen (concat a ++ l) + 2 < Z.of_nat MAX_MIMEHEAD ->
  RFC822_readHeader (concat a ++ l ++ body) seeEOR = (concat a ++ l, body) /\
  (seeEOR = true -> strSeekEOH (concat a ++ l) = l).
Proof.
  intros Hw Hno Hend Hlen. split.
  - unfold RFC822_readHeader. pose proof (readHeader_loop_lines seeEOR l [body] a
      (S (length (concat a ++ l ++ body))) [] Hw Hno Hend) as H.
    rewrite concat_app in H. cbn [concat app] in H. rewrite app_nil_r in H. apply H.
    + unfold zlen in Hlen. simpl length. lia.
    + rewrite length_app. assert (length a <= length (concat a))%nat; [|lia]. apply concat_length_le.
      apply Forall_app in Hw as [Hw _]. eapply Forall_impl; [exact Hw|].
      intros k [(x & _ & ->) _]. by destruct x.
  - intros ->. clear Hlen. unfold strSeekEOH, strSeekEOHX. cbn [Nat.eqb].
    assert (strSeekEOH_loop None true (concat a ++ l) = Some l) as ->; [|done].
    assert (forall x s, (x ++ LF :: s) <> [] -> head_end true (x ++ [LF]) =
      iseol (cat (x ++ LF :: s) 0) || (cat (x ++ LF :: s) 0 =? 46) && iseol (cat (x ++ LF :: s) 1)) as Hh.
    { intros x s _. unfold head_end, isEOR. cbn [andb]. destruct x as [|c [|d x]]; done. }
    induction a as [|k a IH].
    + cbn [concat app] in *. apply Forall_cons in Hw as [[(x & Hx & ->) _] _].
      rewrite (Hh x []) in Hend by (by destruct x). destruct (x ++ [LF]) as [|c s] eqn:E; [by destruct x|].
      rewrite seek_top. rewrite cat_0 in Hend. change (cat (c :: s) 1) with (cat (c :: s) (0 + 1)) in Hend.
      rewrite cat_succ in Hend by lia. by rewrite Hend.
    + cbn [app] in Hw. apply Forall_cons in Hw as [[(x & Hx & ->) _] Hw]. apply Forall_cons in Hno as [Hk Hno].
      cbn [concat]. rewrite <- !app_assoc. cbn [app]. rewrite (Hh x (concat a ++ l)) in Hk by (by destruct x).
      destruct (x ++ LF :: concat a ++ l) as [|c s] eqn:E; [by destruct x|]. rewrite seek_top.
      rewrite cat_0 in Hk. change (cat (c :: s) 1) with (cat (c :: s) (0 + 1)) in Hk.
      rewrite cat_succ in Hk by lia. rewrite Hk, <- E, seek_in by done. by apply IH.
Qed.

Definition msg_lines : list (list Z) := [ln "To: a"; ln " b"].
Lemma readHeader_reads_head_witness :
  RFC822_readHeader (concat msg_lines ++ CRLF ++ cs "body") true = (concat msg_lines ++ CRLF, cs "body").
Proof.
  apply (readHeader_reads_head true msg_lines CRLF (cs "body")).
  - repeat constructor; try (by apply (bool_decide_unpack _); vm_compute).
    + exists (cs "To: a" ++ [CR]). split; [apply (bool_decide_unpack _); by vm_compute|done].
    + exists (cs " b" ++ [CR]). split; [apply (bool_decide_unpack _); by vm_compute|done].
    + exists [CR]. split; [apply (bool_decide_unpack _); by vm_compute|done].
  - by repeat constructor.
  - done.
  - by vm_compute.
Defined.

(** [RFC821_skipheader] writes of a folded field its first line only. *)
Lemma skipheader_folded :
  RFC821_skipheader (ln "To: a," ++ ln " b" ++ CRLF) (Some []) (Some (cs "To")) = (0, [], Some (cs "a,")).
Proof. by vm_compute. Qed.
(** Of two fields of one name [fgetsHeaderField] gives the last one, and
    [getFieldValue] the first one. *)
Lemma field_first_or_last :
  let head := ln "X: 1" ++ ln "X: 2" ++ CRLF in
  fgetsHeaderField head (cs "X") 64 = Some (cs "2") /\ getFieldValue head (cs "X") 64 = Some (cs "1").
Proof. by vm_compute. Qed.
