(* ===== verification/Glob.v ===== *)
(** * Pattern matching ([rary/String.cpp])

    [rexpmatchX], the glob matcher that compares host names with the
    patterns of a host list.  A pointer into a C string is the suffix it points at,
    so [*sp] is the head of a list and NUL at its end.

    [rexpmatchX] keeps one point to go back to, after the last star it met.
    That this is enough is the theorem: it decides the declarative relation
    [gmatch], in which a star stands for any string.  Its loop is not
    structural; [rexp_fuel] bounds its steps. *)
From S2P Require Import Prelude Strings.
From stdpp Require Import options.

Definition STAR : Z := 42.
Definition RX_IGNCASE : Z := 2.

Fixpoint rexp_opts (ropts : list Z) : Z :=
  match ropts with
  | [] => 0
  | op :: ropts' =>
      Z.lor (if op =? 99 then RX_IGNCASE else 0) (rexp_opts ropts')
  end.

(** One character of the pattern against one of the text. *)
Definition rexp_char (opts : Z) (r s : Z) : bool :=
  (r =? s) || negb (Z.land opts RX_IGNCASE =? 0) && negb (r =? 0) && chrcaseeq s r.

Fixpoint skip_stars (rp : list Z) : list Z :=
  match rp with
  | c :: rp' => if c =? STAR then skip_stars rp' else rp
  | [] => []
  end.

(** The loop over [sp], [rp], and [star] with [mark]: the pattern after the
    last star and the text from the mark on. *)
Fixpoint rexp_loop (fuel : nat) (opts : Z) (rp sp : list Z)
  (star : option (list Z * list Z)) : option bool :=
  match fuel with
  | O => None
  | S fuel' =>
      match sp with
      | [] => Some (match skip_stars rp with [] => true | _ => false end)
      | s :: sp' =>
          let r := cat rp 0 in
          if r =? STAR then rexp_loop fuel' opts (tl rp) sp (Some (tl rp, sp))
          else if rexp_char opts r s then rexp_loop fuel' opts (tl rp) sp' star
          else match star with
               | Some (srp, mark) =>
                   rexp_loop fuel' opts srp (tl mark) (Some (srp, tl mark))
               | None => Some false
               end
      end
  end.

Definition rexp_fuel (rexp str : list Z) : nat :=
  ((length str + 2) * (length rexp + 1) + 1)%nat.
Definition rexpmatchX (rexp str ropts : list Z) : option bool :=
  rexp_loop (rexp_fuel rexp str) (rexp_opts ropts) rexp str None.
Definition rexpmatch (rexp str : list Z) : option bool := rexpmatchX rexp str [].

Example rexpmatch_1 : rexpmatch (cs "*.example.*") (cs "www.example.example.com") = Some true.
Proof. vm_compute. reflexivity. Qed.
Example rexpmatch_2 : rexpmatch (cs "a*b*c") (cs "abbcb") = Some false.
Proof. vm_compute. reflexivity. Qed.
Example rexpmatch_3 : rexpmatchX (cs "WWW.*") (cs "www.jp") (cs "c") = Some true.
Proof. vm_compute. reflexivity. Qed.

(** ** What a pattern stands for *)

Inductive gmatch (opts : Z) : list Z -> list Z -> Prop :=
| gm_nil : gmatch opts [] []
| gm_star p s1 s2 : gmatch opts p s2 -> gmatch opts (STAR :: p) (s1 ++ s2)
| gm_char r p s str : r <> STAR -> rexp_char opts r s = true ->
    gmatch opts p str -> gmatch opts (r :: p) (s :: str).

Lemma gmatch_star_inv opts p s :
  gmatch opts (STAR :: p) s -> exists s1 s2, s = s1 ++ s2 /\ gmatch opts p s2.
Proof. inversion 1; subst; [eauto|done]. Qed.

Lemma gmatch_char_inv opts r p s :
  r <> STAR -> gmatch opts (r :: p) s ->
  exists c s', s = c :: s' /\ rexp_char opts r c = true /\ gmatch opts p s'.
Proof. intros Hr. inversion 1; subst; [done|eauto]. Qed.

Lemma gmatch_nil_r opts p :
  gmatch opts p [] <-> skip_stars p = [].
Proof.
  induction p as [|r p IH]; simpl.
  - split; [done|constructor].
  - destruct (Z.eqb_spec r STAR) as [->|Hr].
    + rewrite <- IH. split.
      * intros (s1 & s2 & E & H)%gmatch_star_inv. symmetry in E.
        by apply app_nil in E as [-> ->].
      * intros H. by apply (gm_star _ p [] []).
    + split; [|done]. intros (c & s' & E & _)%gmatch_char_inv; done.
Qed.

(** ** Backtracking to the last star is enough

    Between the last star and [rp] the pattern has a star-free part [seg]
    that was matched by as many characters after the mark. *)
Definition rexp_inv (rp sp : list Z) (star : option (list Z * list Z)) : Prop :=
  match star with
  | None => True
  | Some (srp, mark) => exists seg txt, srp = seg ++ rp /\ mark = txt ++ sp /\
      length seg = length txt /\ ~ In STAR seg
  end.

(** What remains to be matched from a state of the loop. *)
Definition rexp_goal (opts : Z) (rp sp : list Z)
  (star : option (list Z * list Z)) : Prop :=
  gmatch opts rp sp \/
  match star with
  | None => False
  | Some (srp, mark) => exists a b, tl mark = a ++ b /\ mark <> [] /\ gmatch opts srp b
  end.

(** A star-free part takes as many characters as it has. *)
Lemma gmatch_seg opts seg p s :
  ~ In STAR seg -> gmatch opts (seg ++ p) s ->
  exists t u, s = t ++ u /\ length t = length seg /\ gmatch opts p u.
Proof.
  revert s. induction seg as [|r seg IH]; intros s Hn H; [exists [], s; auto|].
  simpl in H. apply gmatch_char_inv in H as (c & s' & -> & _ & H).
  - destruct (IH s') as (t & u & -> & Hl & Hu); [simpl in Hn; tauto|done|].
    exists (c :: t), u. split_and!; [done|simpl; lia|done].
  - intros ->. apply Hn. by left.
Qed.

Lemma rexp_goal_star opts rp sp star :
  rexp_inv (STAR :: rp) sp star -> sp <> [] ->
  rexp_goal opts (STAR :: rp) sp star <-> rexp_goal opts rp sp (Some (rp, sp)).
Proof.
  intros Hinv Hsp. split.
  - intros [H|H].
    + apply gmatch_star_inv in H as (s1 & s2 & -> & H).
      destruct s1 as [|c s1]; [by left|]. right. exists s1, s2. by split_and!.
    + destruct star as [[srp mark]|]; [|done]. destruct H as (a & b & Ht & Hm & H).
      destruct Hinv as (seg & txt & -> & -> & Hl & Hn).
      apply gmatch_seg in H as (t & u & -> & Hlt & H); [|done].
      apply gmatch_star_inv in H as (s1 & s2 & -> & H).
      (* s2 is a proper suffix of sp *)
      assert (Hlen : length (tl (txt ++ sp)) = (length txt + length sp - 1)%nat).
      { rewrite <- length_app. destruct (txt ++ sp); simpl; lia. }
      rewrite Ht, !length_app in Hlen. right.
      assert (Hsuf : exists x, sp = x ++ s2 /\ (0 < length x)%nat).
      { assert (E : (firstn 1 (txt ++ sp) ++ a ++ t ++ s1) ++ s2 = txt ++ sp).
        { rewrite <- !app_assoc, <- Ht. by destruct (txt ++ sp). }
        assert (Hx : length (firstn 1 (txt ++ sp)) = 1%nat)
          by (by destruct (txt ++ sp)).
        exists (drop (length txt) (firstn 1 (txt ++ sp) ++ a ++ t ++ s1)).
        rewrite length_drop, !length_app. split; [|lia].
        rewrite <- (drop_app_length txt sp) at 1. rewrite <- E at 1.
        rewrite drop_app_le; [done|]. rewrite !length_app. lia. }
      destruct Hsuf as ([|c x] & -> & Hx); [simpl in Hx; lia|].
      exists x, s2. by split_and!.
  - intros [H|(a & b & Ht & _ & H)]; left.
    + by apply (gm_star _ rp [] sp).
    + destruct sp as [|c sp]; [done|]. simpl in Ht. rewrite Ht.
      by apply (gm_star _ rp (c :: a) b).
Qed.

Lemma rexp_goal_char opts r rp s sp star :
  r <> STAR -> rexp_char opts r s = true -> rexp_inv (r :: rp) (s :: sp) star ->
  rexp_goal opts (r :: rp) (s :: sp) star <-> rexp_goal opts rp sp star.
Proof.
  intros Hr Hc Hinv. unfold rexp_goal. split; intros [H|H]; try (by right).
  - apply gmatch_char_inv in H as (c & s' & [= <- <-] & _ & H); [|done]. by left.
  - left. by constructor.
Qed.

Lemma rexp_goal_back opts rp s sp srp mark :
  (rp = [] \/ exists r rp', rp = r :: rp' /\ r <> STAR /\ rexp_char opts r s = false) ->
  rexp_inv rp (s :: sp) (Some (srp, mark)) ->
  rexp_goal opts rp (s :: sp) (Some (srp, mark)) <->
  rexp_goal opts srp (tl mark) (Some (srp, tl mark)).
Proof.
  intros Hrp (seg & txt & -> & -> & Hl & Hn).
  assert (Hm : txt ++ s :: sp <> []) by (by destruct txt).
  split.
  - intros [H|(a & b & Ht & _ & H)].
    + destruct Hrp as [->|(r & rp' & -> & Hr & Hc)]; [inversion H|].
      apply gmatch_char_inv in H as (c & s' & [= <- <-] & H & _); congruence.
    + destruct a as [|c a]; [left; by rewrite Ht|].
      right. exists a, b. rewrite Ht. by split_and!.
  - intros [H|(a & b & Ht & Hne & H)]; right.
    + by exists [], (tl (txt ++ s :: sp)).
    + destruct (tl (txt ++ s :: sp)) as [|c m] eqn:E; [done|].
      simpl in Ht. subst m. by exists (c :: a), b.
Qed.

(** The number of steps that are left: a round consumes pattern, or moves
    the mark and starts over after the star. *)
Definition rexp_left (k n : nat) (rp : list Z) (star : option (list Z * list Z)) : nat :=
  match star with
  | None => (S n * k + length rp)%nat
  | Some (_, mark) => (length mark * k + length rp)%nat
  end.

(** The states the loop goes through: [k] bounds the pattern, [n] the text. *)
Definition rexp_wf (k n : nat) (rp sp : list Z) (star : option (list Z * list Z)) : Prop :=
  cstr_ok sp /\ rexp_inv rp sp star /\ (length rp < k)%nat /\ (length sp <= n)%nat /\
  match star with
  | Some (srp, mark) => (length srp < k)%nat /\ cstr_ok mark /\ (length mark <= n)%nat
  | None => True
  end.

Lemma rexp_wf_star k n r rp s sp star :
  rexp_wf k n (r :: rp) (s :: sp) star ->
  rexp_wf k n rp (s :: sp) (Some (rp, s :: sp)) /\
  (rexp_left k n rp (Some (rp, s :: sp)) < rexp_left k n (r :: rp) star)%nat.
Proof.
  intros (Hsp & Hinv & Hrp & Hn & Hstar). simpl length in Hrp. split.
  - split_and!; try done; [|lia|lia]. exists [], []. by split_and!; [..|intros []].
  - unfold rexp_left. simpl length in *. destruct star as [[srp mark]|]; [|nia].
    destruct Hinv as (seg & txt & _ & -> & _). rewrite length_app. simpl length. nia.
Qed.

Lemma rexp_wf_char k n r rp s sp star :
  r <> STAR -> rexp_wf k n (r :: rp) (s :: sp) star ->
  rexp_wf k n rp sp star /\ (rexp_left k n rp star < rexp_left k n (r :: rp) star)%nat.
Proof.
  intros Hr (Hsp & Hinv & Hrp & Hn & Hstar). apply Forall_cons in Hsp as [_ Hsp].
  simpl length in *. split.
  - split_and!; try done; [|lia|lia]. destruct star as [[srp mark]|]; [|done].
    destruct Hinv as (seg & txt & -> & -> & Hl & Hseg).
    exists (seg ++ [r]), (txt ++ [s]). rewrite <- !app_assoc, !length_app.
    split_and!; [done..|simpl; lia|].
    intros [?|[?|[]]]%in_app_iff; [done|congruence].
  - unfold rexp_left. simpl length. destruct star as [[? ?]|]; lia.
Qed.

Lemma rexp_wf_back k n rp s sp srp mark :
  rexp_wf k n rp (s :: sp) (Some (srp, mark)) ->
  rexp_wf k n srp (tl mark) (Some (srp, tl mark)) /\
  (rexp_left k n srp (Some (srp, tl mark)) < rexp_left k n rp (Some (srp, mark)))%nat.
Proof.
  intros (Hsp & (seg & txt & E1 & E2 & Hl & Hseg) & Hrp & Hn & Hk & Hm & Hmn).
  assert (Hlen : (length mark = S (length (tl mark)))%nat)
    by (subst mark; destruct txt; simpl; lia).
  assert (Htl : cstr_ok (tl mark))
    by (destruct mark; [done|]; by apply Forall_cons in Hm as [_ ?]).
  split; [|unfold rexp_left; nia].
  split_and!; try done; [|lia|lia]. exists [], []. by split_and!; [..|intros []].
Qed.

Lemma rexp_stuck opts rp s :
  cchar_ok s -> cat rp 0 <> STAR -> rexp_char opts (cat rp 0) s = false ->
  rp = [] \/ exists r rp', rp = r :: rp' /\ r <> STAR /\ rexp_char opts r s = false.
Proof. destruct rp as [|r rp]; [by left|]. rewrite cat_0. eauto 10. Qed.

Lemma rexp_end k n opts rp star :
  rexp_wf k n rp [] star ->
  (match skip_stars rp with [] => true | _ => false end) = true <->
  rexp_goal opts rp [] star.
Proof.
  intros (_ & Hinv & _). unfold rexp_goal. rewrite gmatch_nil_r.
  destruct (skip_stars rp); [by split; [left|]|]. split; [done|].
  intros [H|H]; [done|]. destruct star as [[srp mark]|]; [|done].
  destruct H as (a & b & Ht & Hm & H). destruct Hinv as (seg & txt & -> & -> & Hl & Hseg).
  apply gmatch_seg in H as (t & u & -> & Hlt & _); [|done].
  exfalso. rewrite app_nil_r in *. destruct txt as [|c txt]; [done|].
  simpl in Ht. apply (f_equal length) in Ht. rewrite !length_app in Ht. simpl in Hl. lia.
Qed.

Lemma rexp_char_0 opts s : cchar_ok s -> rexp_char opts 0 s = false.
Proof.
  unfold cchar_ok, rexp_char. intros. rewrite (proj2 (Z.eqb_neq 0 s)) by lia.
  by rewrite andb_false_r.
Qed.

Lemma rexp_loop_spec opts k n fuel : forall rp sp star,
  rexp_wf k n rp sp star -> (rexp_left k n rp star < fuel)%nat ->
  exists b, rexp_loop fuel opts rp sp star = Some b /\
    (b = true <-> rexp_goal opts rp sp star).
Proof.
  induction fuel as [|fuel IH]; intros rp sp star Hwf Hf; [lia|].
  cbn [rexp_loop]. destruct sp as [|s sp].
  { eexists; split; [done|]. by eapply rexp_end. }
  pose proof Hwf as (Hsp & Hinv & _).
  pose proof (proj1 (Forall_cons cchar_ok s sp) Hsp) as [Hs _].
  destruct (Z.eqb_spec (cat rp 0) STAR) as [Hr|Hr].
  - destruct rp as [|r rp]; [done|]. rewrite cat_0 in Hr. subst r. cbn [tl].
    destruct (rexp_wf_star _ _ _ _ _ _ _ Hwf) as [Hwf' Hlt].
    destruct (IH _ _ _ Hwf') as (b & -> & Hb); [lia|].
    exists b. split; [done|]. by rewrite rexp_goal_star.
  - destruct (rexp_char opts (cat rp 0) s) eqn:Hc.
    + destruct rp as [|r rp]; [by rewrite rexp_char_0 in Hc|]. rewrite cat_0 in Hr, Hc.
      cbn [tl]. destruct (rexp_wf_char _ _ _ _ _ _ _ Hr Hwf) as [Hwf' Hlt].
      destruct (IH _ _ _ Hwf') as (b & -> & Hb); [lia|].
      exists b. split; [done|]. by rewrite rexp_goal_char.
    + apply rexp_stuck in Hc; [|done..]. destruct star as [[srp mark]|].
      * destruct (rexp_wf_back _ _ _ _ _ _ _ Hwf) as [Hwf' Hlt].
        destruct (IH _ _ _ Hwf') as (b & -> & Hb); [lia|].
        exists b. split; [done|]. by rewrite rexp_goal_back.
      * exists false. split; [done|]. split; [done|]. intros [H|[]].
        destruct Hc as [->|(r & rp' & -> & Hr' & Hc)]; [inversion H|].
        apply gmatch_char_inv in H as (c & s' & [= <- <-] & H & _); congruence.
Qed.

Lemma rexpmatchX_gmatch (rexp str ropts : list Z) :
  cstr_ok str ->
  exists b, rexpmatchX rexp str ropts = Some b /\
    (b = true <-> gmatch (rexp_opts ropts) rexp str).
Proof.
  intros Hs. unfold rexpmatchX, rexp_fuel.
  destruct (rexp_loop_spec (rexp_opts ropts) (S (length rexp)) (length str)
    ((length str + 2) * (length rexp + 1) + 1) rexp str None) as (b & -> & Hb).
  - split_and!; try done; lia.
  - unfold rexp_left. nia.
  - exists b. split; [done|]. rewrite Hb. unfold rexp_goal. tauto.
Qed.

(** C26. The glob matcher terminates on every pattern and text, and answers
    exactly whether the text is one the pattern stands for, where a star
    stands for any string at any position and, with the option [c], letters
    match in either case. *)
Theorem rexpmatchX_decides_gmatch (rexp str ropts : list Z) :
  cstr_ok str ->
  exists b, rexpmatchX rexp str ropts = Some b /\
    (b = true <-> gmatch (rexp_opts ropts) rexp str).
Proof. apply rexpmatchX_gmatch. Qed.

Lemma rexpmatchX_decides_gmatch_witness :
  exists b, rexpmatchX (cs "*.ab.*") (cs "x.a.ab.c") [] = Some b /\
    (b = true <-> gmatch 0 (cs "*.ab.*") (cs "x.a.ab.c")).
Proof.
  apply (rexpmatchX_decides_gmatch (cs "*.ab.*") (cs "x.a.ab.c") []).
  by apply (bool_decide_unpack _).
Defined.
