(* ===== verification/ListOps.v ===== *)
(** * Operations on lists in texts ([rary/String.cpp])

    Splitting a string at a separator ([stoV]), the difference of two lists
    ([subSetList]), and the search in a list with options ([isinListX]).
    Strings are taken to be shorter than the buffers they are copied to. *)
From S2P Require Import Prelude Strings ScanList.
From stdpp Require Import options.

(** [stoVX(a,mac,av,sep,0)]: at most [mac] pieces, the last one with all the
    rest; nothing behind a separator at the end. *)
Fixpoint stoV (mac : nat) (s : list Z) (sep : Z) : list (list Z) :=
  match mac, s with
  | O, _ | _, [] => []
  | S mac', _ =>
      match mac' with
      | O => [s]
      | _ => match index_of sep s with
             | Some i => take i s :: stoV mac' (drop (S i) s) sep
             | None => [s]
             end
      end
  end.

(** [subSetList(s1,s2)]: the elements of [s1] that are not in [s2], each with
    a comma behind it.  The callback moves the pointer [sb] of [subSetList]
    to the end of the text, through its address, so that the last comma is
    not there to be removed.  ([sb] is a constant parameter: a compiler that
    relies on that removes the comma.) *)
Definition subSetList2 (s1 : list Z) (_ : unit) (s2 : list Z) (_ : option (list Z)) : unit * Z :=
  (tt, if streq s2 s1 then 1 else 0).
Definition subSetList1 (l2 : list Z) (sb : option (list Z)) (s1 : list Z)
  (_ : option (list Z)) : option (list Z) * Z :=
  (match sb, scan_ListLX (subSetList2 s1) true false l2 COMMA tt with
   | Some sb, Some (_, rcode, _) => Some (if rcode =? 0 then sb ++ s1 ++ [COMMA] else sb)
   | _, _ => None
   end, 0).
Definition subSetList (s1 s2 : list Z) : option (list Z) :=
  '(sb, _, _) ← scan_ListLX (subSetList1 s2) true false s1 COMMA (Some []); sb.

(** A list with commas between its elements. *)
Fixpoint commas (l : list (list Z)) : list Z :=
  match l with
  | [] => []
  | [s] => s
  | s :: l' => s ++ COMMA :: commas l'
  end.

(** [isinListX] without the option [o].  The result tells how it matched. *)
Definition SM_HEADX : Z := 32.
Record sm_opts := SmOpts {
  sm_white : bool; sm_case : bool; sm_substr : bool; sm_head : bool; sm_tail : bool;
  sm_headx : bool; sm_del : Z
}.
Definition sm_option (o : sm_opts) (c : Z) : sm_opts :=
  let on x y := x || (c =? y) in
  SmOpts (on (sm_white o) 119) (on (sm_case o) 99) (on (sm_substr o) 115) (on (sm_head o) 104)
    (on (sm_tail o) 116) (on (sm_headx o) 72)
    (if existsb (Z.eqb c) (cs "+,./:;&| " ++ [9; 13; 10]) then c else sm_del o).

Definition sm_heads (o : sm_opts) (s p : list Z) : bool :=
  let n := length p in
  if sm_case o then strncaseeq s p n else bool_decide (take n s = p).
Definition sm2X (o : sm_opts) (word : list Z) (mtch : Z) (s1 : list Z) (_ : option (list Z)) : Z * Z :=
  let s1 := if sm_white o && negb (cat word 0 =? SP) && negb (cat word 0 =? TAB)
            then skip_blanks s1 else s1 in
  let mtch := if sm_headx o && sm_heads o s1 word then Z.lor mtch SM_HEADX else mtch in
  let b :=
    if sm_head o then sm_heads o word s1
    else if sm_tail o then bool_decide (strtailstr word s1 <> None)
    else if sm_substr o
    then if sm_case o then strcasestr word s1 else bool_decide (strstr word s1 <> None)
    else if sm_case o then strcasecmp_eq s1 word else streq s1 word in
  (if b then Z.lor mtch 1 else mtch, 0).
Definition isinListX (list word sopts : list Z) : option Z :=
  let o := fold_left sm_option sopts (SmOpts false false false false false false COMMA) in
  (fun r => r.1.1) <$> scan_ListLX (sm2X o word) true false list (sm_del o) 0.

Example stoV_1 : stoV 3 (cs "http/{80,8080}/GET/x") 47 = [cs "http"; cs "{80,8080}"; cs "GET/x"].
Proof. reflexivity. Qed.
Example stoV_2 : stoV 3 (cs "a/") 47 = [cs "a"] /\ stoV 3 (cs "//M") 47 = [[]; []; cs "M"].
Proof. done. Qed.
Example subSetList_1 : subSetList (cs "80,8080,81") (cs "{8080}") = Some (cs "80,81,").
Proof. vm_compute. reflexivity. Qed.
Example isinListX_1 : isinListX (cs "{GET,Head}") (cs "HEAD") (cs "c") = Some 1
  /\ isinListX (cs "udp.tcp") (cs "tcp") (cs ".") = Some 1.
Proof. vm_compute. done. Qed.

(** ** Laws *)

Lemma stoV_nosep n s sep : existsb (Z.eqb sep) s = false -> s <> [] ->
  stoV (S n) s sep = [s].
Proof.
  intros Hs Hne. cbn [stoV]. destruct s as [|c s]; [done|]. destruct n; [done|].
  assert (index_of sep (c :: s) = None) as ->; [|done].
  revert Hs. generalize (c :: s). clear. intros l. induction l as [|x l IH]; [done|].
  cbn [existsb index_of]. rewrite Z.eqb_sym. destruct (x =? sep); [done|].
  intros H. by rewrite (IH H).
Qed.


Lemma stoV_cons n a b sep : existsb (Z.eqb sep) a = false ->
  stoV (S (S n)) (a ++ sep :: b) sep = a :: stoV (S n) b sep.
Proof.
  intros Ha. cbn [stoV]. destruct (a ++ sep :: b) as [|x l] eqn:E; [by destruct a|].
  rewrite <- E, index_of_app by done.
  rewrite take_app_length, (drop_app_ge _ _ (S _)) by lia.
  by replace (S (length a) - length a)%nat with 1%nat by lia.
Qed.

(** Splitting what was joined. *)
Lemma stoV_commas n l : Forall (fun s => existsb (Z.eqb COMMA) s = false /\ s <> []) l ->
  (length l <= n)%nat -> stoV n (commas l) COMMA = l.
Proof.
  intros Hl. revert n. induction Hl as [|s l (Hs & Hne) Hl IH]; intros n Hn.
  - by destruct n.
  - destruct n as [|n]; [simpl in Hn; lia|]. destruct l as [|s' l].
    + by apply stoV_nosep.
    + destruct n as [|n]; [simpl in Hn; lia|].
      change (commas (s :: s' :: l)) with (s ++ COMMA :: commas (s' :: l)).
      rewrite stoV_cons by done. f_equal. apply IH. simpl in *. lia.
Qed.

Lemma commas_join l : commas l = join COMMA (map (fun t => (t, t)) l).
Proof.
  induction l as [|s l IH]; [done|]. destruct l as [|s' l]; [done|].
  change (commas (s :: s' :: l)) with (s ++ COMMA :: commas (s' :: l)). by rewrite IH.
Qed.
Lemma commas_app a b : a <> [] -> b <> [] -> commas (a ++ b) = commas a ++ COMMA :: commas b.
Proof.
  intros Ha Hb. induction a as [|s a IH]; [done|]. destruct a as [|s' a].
  - by destruct b.
  - change (commas ((s :: s' :: a) ++ b)) with (s ++ COMMA :: commas ((s' :: a) ++ b)).
    rewrite IH by done. change (commas (s :: s' :: a)) with (s ++ COMMA :: commas (s' :: a)).
    by rewrite <- app_assoc.
Qed.
Lemma commas_texts_ok l : Forall (fun t => balanced COMMA 0 t = true /\ cat t 0 <> LBRACE /\ t <> []) l ->
  texts_ok COMMA (map (fun t => (t, t)) l).
Proof.
  intros Hl. split.
  - apply Forall_map. eapply Forall_impl; [exact Hl|]. intros t (H1 & H2 & _).
    by apply balanced_elem.
  - induction Hl as [|t l (_ & _ & Ht) _ IH]; [done|]. by destruct l.
Qed.
Lemma balanced_commas sep l : sep_ok sep -> sep <> COMMA ->
  Forall (fun t => balanced sep 0 t = true) l -> balanced sep 0 (commas l) = true.
Proof.
  intros Hsep Hc Hl. induction Hl as [|t l Ht _ IH]; [done|]. destruct l as [|t' l]; [done|].
  change (commas (t :: t' :: l)) with (t ++ [COMMA] ++ commas (t' :: l)).
  apply balanced_app; [done|]. apply balanced_app; [|done].
  apply balanced_plain. cbn [forallb]. unfold special.
  by rewrite (proj2 (Z.eqb_neq COMMA sep)).
Qed.
Lemma cat_commas l : Forall (fun t => t <> []) l -> cat (commas l) 0 = cat (default [] (head l)) 0.
Proof.
  intros Hl. destruct Hl as [|t l Ht _]; [done|]. destruct l; [done|]. by destruct t.
Qed.

Lemma isinListX_some list word sopts : exists n, isinListX list word sopts = Some n.
Proof.
  unfold isinListX. set (o := fold_left _ _ _).
  destruct (scan_ListLX_some (sm2X o word) true false list (sm_del o) 0) as [r ->].
  cbn. eauto.
Qed.

(** A difference of lists that is not empty ends with a comma. *)
Lemma subSetList_comma : subSetList (cs "80,443") (cs "80") = Some (cs "443,").
Proof. vm_compute. reflexivity. Qed.
