(* ===== verification/Clock.v ===== *)
(** * Clocks and broken-down times ([rary/Strftime.cpp])

    A clock is the number of seconds since 1970 and a [tm] the fields of a
    time.  [Timegm] and [Timelocal] make a clock of fields; [GmtimeX] makes
    fields of a clock without a call of the C library.  [localtime] of the C
    library, whose answer depends on the time zone, is an argument; it fails
    for a clock whose year does not fit. *)
From S2P Require Import Prelude VStr Strings.
From stdpp Require Import options.

Record tm := Tm {
  tm_sec : Z; tm_min : Z; tm_hour : Z; tm_mday : Z; tm_mon : Z; tm_year : Z;
  tm_wday : Z; tm_yday : Z }.

(** [year2internal]: years behind 1900, two digits as a year from 1970 on. *)
Definition year2internal (year : Z) : Z :=
  if (0 <=? year) && (year <? 70) then year + 100
  else if 1900 <=? year then year - 1900 else year.
Definition cyear (year : Z) : Z := Z.rem year 100.

(** ** Names *)

Definition Month : list (list Z) :=
  map cs ["Jan"; "Feb"; "Mar"; "Apr"; "May"; "Jun"; "Jul"; "Aug"; "Sep"; "Oct"; "Nov"; "Dec"]%string.
Definition Wdays : list (list Z) := map cs ["Sun"; "Mon"; "Tue"; "Wed"; "Thu"; "Fri"; "Sat"]%string.
Definition WDays : list (list Z) :=
  map cs ["Sunday"; "Monday"; "Tuesday"; "Wednesday"; "Thursday"; "Friday"; "Saturday"]%string.
Fixpoint find_index (p : list Z -> bool) (i : Z) (l : list (list Z)) : option Z :=
  match l with [] => None | x :: l => if p x then Some i else find_index p (i + 1) l end.
Definition montoi (mon : list Z) : Z := default (-1) (find_index (fun mo => bool_decide (mo = mon)) 0 Month).
Definition Montoi (mon : list Z) : Z := default (-1) (find_index (fun mo => strncaseeq mo mon 3) 0 Month).
Definition wdaytoi (wday : list Z) : Z :=
  let two := if zlen wday =? 2 then find_index (fun wd => strncaseeq wd wday 2) 0 Wdays else None in
  match two with
  | Some i => i
  | None =>
      match find_index (fun wd => bool_decide (wd = wday)) 0 Wdays with
      | Some i => i
      | None => default (-1) (find_index (fun wd => bool_decide (wd = wday)) 0 WDays)
      end
  end.

(** ** Clocks of fields *)

Definition yday_base : list Z := [0; 31; 59; 90; 120; 151; 181; 212; 243; 273; 304; 334; 1000].

(** [Timegm]: [None] for a month that is not in the table. *)
Definition Timegm (t : tm) : option Z :=
  let yoff := tm_year t - 70 in
  if tm_mon t <? 0 then None
  else
    base ← yday_base !! Z.to_nat (tm_mon t);
    let yday := base + (tm_mday t - 1) in
    let yday := if (1 <? tm_mon t) && (Z.rem (yoff - 2) 4 =? 0) then yday + 1 else yday in
    Some (((((yoff * 365 + Z.quot (yoff + 1) 4 + yday) * 24) + tm_hour t) * 60 + tm_min t) * 60 + tm_sec t).

Definition toclockGMT (y m d H M S : Z) : option Z :=
  clock ← Timegm (Tm S M H d (m - 1) y 0 0); Some (s32 clock).

Definition tmcmp (tm1 tm2 : tm) : Z :=
  if negb (tm_year tm1 =? tm_year tm2) then tm_year tm1 - tm_year tm2
  else if negb (tm_mon tm1 =? tm_mon tm2) then tm_mon tm1 - tm_mon tm2
  else if negb (tm_mday tm1 =? tm_mday tm2) then tm_mday tm1 - tm_mday tm2
  else if negb (tm_hour tm1 =? tm_hour tm2) then tm_hour tm1 - tm_hour tm2
  else if negb (tm_min tm1 =? tm_min tm2) then tm_min tm1 - tm_min tm2
  else if negb (tm_sec tm1 =? tm_sec tm2) then tm_sec tm1 - tm_sec tm2
  else 0.

(** ** Fields of a clock *)

(** The loop over the months, from [mon] on: the month and [mday]. *)
Fixpoint gm_month (fuel : nat) (yoff yday : Z) (mon : nat) : Z * Z :=
  match fuel with
  | O => (Z.of_nat mon, 0)
  | S fuel =>
      if yday <? nth (S mon) yday_base 0 then
        let mday := yday - nth mon yday_base 0 in
        (Z.of_nat mon, if (1 <? Z.of_nat mon) && (Z.rem (yoff - 2) 4 =? 0) then mday + 1 else mday)
      else gm_month fuel yoff yday (S mon)
  end.

(** The loop over the years; [None] behind the last one, where [yday] is not
    set. *)
Fixpoint gm_year (fuel : nat) (yoff days tdays : Z) : option (Z * Z) :=
  match fuel with
  | O => None
  | S fuel =>
      let ydays := 365 + (if Z.rem (yoff - 2) 4 =? 0 then 1 else 0) in
      if tdays + ydays <? days then gm_year fuel (yoff + 1) days (tdays + ydays)
      else Some (yoff, days - tdays)
  end.

(** [GmtimeX] of an [unsigned int]. *)
Definition GmtimeX (clock : Z) : option tm :=
  let days := clock / 3600 / 24 in
  '(yoff, yday) ← gm_year 70 0 days 0;
  let '(mon, mday) := gm_month 12 yoff yday 0 in
  Some (Tm (clock mod 60) (clock / 60 mod 60) (clock / 3600 mod 24) (mday + 1) mon (70 + yoff)
           (Z.rem (days + 4) 7) yday).
Definition Gmtime (clock : Z) : option tm := GmtimeX (u32 clock).
Definition Localtime (Gmt_off clock : Z) : option tm := GmtimeX (u32 (clock + Gmt_off)).

(** [NthWeek]: the number of the week, where weeks start on [wday1]. *)
Definition NthWeek (t : tm) (wday1 : Z) : Z :=
  let yday := tm_yday t in
  let rm := Z.rem yday 7 in
  let off := if rm <? tm_wday t then tm_wday t - rm else tm_wday t + 7 - rm in
  let sun1st := Z.rem (if wday1 =? 1 then 7 - off + 1 else 7 - off) 7 in
  if yday <? sun1st then 0
  else
    let remain := yday - sun1st + 1 in
    Z.quot remain 7 + (if negb (Z.rem remain 7 =? 0) then 1 else 0).

Section zone.
Context (localtime gmtime : Z -> option tm).

(** [gmtimeX] and [localtimeX]: [nossig] is [lMTSS_NOSSIG()], [own] says that
    conversions of the program's own are asked for, and [mainth] that this is
    the main thread. *)
Definition gmtimeX (nossig own mainth : bool) (clock : Z) : option tm :=
  if nossig then gmtime clock
  else if own then Gmtime clock
  else if negb mainth then Gmtime clock else gmtime clock.
Definition localtimeX (Gmt_off : Z) (nossig own mainth : bool) (clock : Z) : option tm :=
  if nossig then localtime clock
  else if own then Localtime Gmt_off clock
  else if negb mainth then Localtime Gmt_off clock else localtime clock.

(** [Gmtoff], which keeps the offset of the second day of 1970 for later
    calls. *)
Definition Gmtoff : option Z :=
  let clock := 24 * 3600 in
  t ← localtime clock; g ← Timegm t; Some (s32 (g - clock)).
Definition Timelocal (t : tm) : option Z := g ← Timegm t; off ← Gmtoff; Some (g - off).
Definition xTimelocal (Tx : tm) : option Z :=
  T1 ← Timelocal Tx; Ty ← localtime T1; T2 ← Timelocal Ty; Some (T1 + (T1 - T2)).
Definition toclockLocal (y m d H M S : Z) : option Z :=
  clock ← xTimelocal (Tm S M H d (m - 1) y 0 0); Some (s32 clock).
(** The fields in the order of the arguments. *)
Definition fromclockLocal (clock : Z) : option (list Z) :=
  t ← localtime clock;
  Some [tm_wday t; tm_year t; tm_mon t + 1; tm_mday t; tm_hour t; tm_min t; tm_sec t].
Definition timeBaseDayLocal (clock : Z) : option Z :=
  t ← localtime clock;
  Timelocal (Tm 0 0 0 (tm_mday t) (tm_mon t) (tm_year t) (tm_wday t) (tm_yday t)).
End zone.
