(* ===== verification/ClockSpec.v ===== *)
(** * Clocks are the seconds of the civil calendar

    The calendar is defined by the lengths of its years and months.  [Timegm]
    computes it without a loop from 1970 to 2099 ([Timegm_is_civil]);
    [tmcmp] orders times as their clocks are ([tmcmp_orders]); what
    [fromclockLocal] takes apart is put together again by [toclockLocal]
    ([toclockLocal_roundtrip]).  The interface [LocalTime] says what is
    expected of [localtime] for a zone with a constant offset. *)
From S2P Require Import Prelude VStr Strings Clock.
From stdpp Require Import options.

(** ** The calendar *)

Definition leap (year : Z) : bool :=
  (year mod 4 =? 0) && negb (year mod 100 =? 0) || (year mod 400 =? 0).
Definition month_days (lp : bool) (m : nat) : Z :=
  nth m [31; if lp then 29 else 28; 31; 30; 31; 30; 31; 31; 30; 31; 30; 31] 0.
(** Years are counted from 1970 on. *)
Definition lp (n : nat) : bool := leap (1970 + Z.of_nat n).
Definition ylen (n : nat) : Z := if lp n then 366 else 365.
Fixpoint ybefore (n : nat) : Z := match n with O => 0 | S n => ybefore n + ylen n end.
Fixpoint mbefore (b : bool) (m : nat) : Z :=
  match m with O => 0 | S m => mbefore b m + month_days b m end.
Definition yix (t : tm) : nat := Z.to_nat (tm_year t - 70).
Definition mix (t : tm) : nat := Z.to_nat (tm_mon t).
Definition daynum (t : tm) : Z := ybefore (yix t) + mbefore (lp (yix t)) (mix t) + (tm_mday t - 1).
Definition civil (t : tm) : Z :=
  daynum t * 86400 + tm_hour t * 3600 + tm_min t * 60 + tm_sec t.

Definition in_calendar (t : tm) : Prop := 70 <= tm_year t < 200 /\ 0 <= tm_mon t < 12.
Definition valid_tm (t : tm) : Prop :=
  in_calendar t /\ 1 <= tm_mday t <= month_days (lp (yix t)) (mix t) /\
  0 <= tm_hour t < 24 /\ 0 <= tm_min t < 60 /\ 0 <= tm_sec t < 60.
(** The first clock behind the years of the calendar. *)
Definition END : Z := ybefore 130 * 86400.

(** For [n < 130] the lengths are those of the program. *)
Lemma lp_rem n : (n < 130)%nat -> lp n = (Z.rem (Z.of_nat n - 2) 4 =? 0).
Proof.
  intros H. assert (forallb (fun n => eqb (lp n) (Z.rem (Z.of_nat n - 2) 4 =? 0)) (seq 0 130) = true) as A
    by reflexivity.
  rewrite forallb_forall in A. apply eqb_prop, A, in_seq. lia.
Qed.
Lemma ybefore_closed n : (n <= 130)%nat -> ybefore n = Z.of_nat n * 365 + Z.quot (Z.of_nat n + 1) 4.
Proof.
  intros H. assert (forallb (fun n => ybefore n =? Z.of_nat n * 365 + Z.quot (Z.of_nat n + 1) 4) (seq 0 131) = true)
    as A by reflexivity.
  rewrite forallb_forall in A. apply Z.eqb_eq, A, in_seq. lia.
Qed.
Lemma mbefore_base b m : (m < 12)%nat ->
  mbefore b m = nth m yday_base 0 + (if (1 <? Z.of_nat m) && b then 1 else 0).
Proof. intros H. do 12 (destruct m as [|m]; [by destruct b|]). lia. Qed.
Lemma base_nonneg m : (m < 12)%nat -> 0 <= nth m yday_base 0.
Proof. intros H. do 12 (destruct m as [|m]; [by cbn|]). lia. Qed.
Lemma base_lookup m : (m < 12)%nat -> yday_base !! m = Some (nth m yday_base 0).
Proof. intros H. do 12 (destruct m as [|m]; [done|]). lia. Qed.

Lemma Timegm_civil t : in_calendar t -> Timegm t = Some (civil t).
Proof.
  intros [Hy Hm]. unfold Timegm, civil, daynum. rewrite (proj2 (Z.ltb_ge (tm_mon t) 0)) by lia.
  fold (mix t). assert (mix t < 12)%nat as Hmx by (unfold mix; lia).
  assert (yix t < 130)%nat as Hyx by (unfold yix; lia).
  rewrite base_lookup by done. cbn [mbind option_bind]. rewrite mbefore_base, ybefore_closed, lp_rem by lia.
  replace (Z.of_nat (yix t)) with (tm_year t - 70) by (unfold yix; lia).
  replace (Z.of_nat (mix t)) with (tm_mon t) by (unfold mix; lia). f_equal. destruct (_ && _); lia.
Qed.

(** C34. From 1970 to 2099, for every month and also for days, hours, minutes
    and seconds out of their ranges, [Timegm] gives the seconds of the
    calendar: the lengths of the years and of the months before the date are
    added up. *)
Theorem Timegm_is_civil (t : tm) : in_calendar t -> Timegm t = Some (civil t).
Proof. apply Timegm_civil. Qed.
Lemma Timegm_is_civil_witness :
  in_calendar (Tm 59 59 23 29 1 124 4 59) /\
  Timegm (Tm 59 59 23 29 1 124 4 59) = Some (civil (Tm 59 59 23 29 1 124 4 59)).
Proof. split; [by compute|]. apply (Timegm_is_civil (Tm 59 59 23 29 1 124 4 59)). by compute. Defined.

(** ** The order of times *)

Lemma month_days_pos b m : (m < 12)%nat -> 28 <= month_days b m.
Proof. intros H. do 12 (destruct m as [|m]; [by destruct b|]). lia. Qed.
Lemma ybefore_lt n1 n2 : (n1 < n2)%nat -> ybefore n1 + ylen n1 <= ybefore n2.
Proof.
  induction 1 as [|n2 _ IH]; [done|]. cbn [ybefore]. unfold ylen at 2. destruct (lp n2); lia.
Qed.
Lemma mbefore_lt b m1 m2 : (m1 < m2 <= 12)%nat -> mbefore b m1 + month_days b m1 <= mbefore b m2.
Proof.
  intros [H H2]. induction H as [|m2 H IH]; [done|]. cbn [mbefore].
  pose proof (month_days_pos b m2). lia.
Qed.
Lemma mbefore_ylen n : mbefore (lp n) 12 = ylen n.
Proof. unfold ylen. by destruct (lp n). Qed.

(** The place of a date in its year. *)
Lemma year_part t : valid_tm t -> 0 <= mbefore (lp (yix t)) (mix t) + (tm_mday t - 1) < ylen (yix t).
Proof.
  intros ([Hy Hm] & Hd & _). assert (mix t < 12)%nat as Hmx by (unfold mix; lia).
  pose proof (mbefore_lt (lp (yix t)) (mix t) 12 ltac:(lia)) as H. rewrite mbefore_ylen in H.
  rewrite mbefore_base in * by done. split; [|lia].
  pose proof (base_nonneg (mix t) Hmx). destruct (_ && _); lia.
Qed.

Lemma civil_lt_year t1 t2 : valid_tm t1 -> valid_tm t2 -> tm_year t1 < tm_year t2 -> daynum t1 < daynum t2.
Proof.
  intros V1 V2 H. pose proof (year_part t1 V1). pose proof (year_part t2 V2).
  destruct V1 as [[? _] _], V2 as [[? _] _]. unfold daynum.
  pose proof (ybefore_lt (yix t1) (yix t2) ltac:(unfold yix; lia)). lia.
Qed.
Lemma civil_lt_mon t1 t2 : valid_tm t1 -> valid_tm t2 -> tm_year t1 = tm_year t2 ->
  tm_mon t1 < tm_mon t2 -> daynum t1 < daynum t2.
Proof.
  intros ([? ?] & ? & _) ([? ?] & ? & _) Hy L. unfold daynum.
  assert (yix t1 = yix t2) as Ey by (unfold yix; by rewrite Hy). rewrite Ey in *.
  pose proof (mbefore_lt (lp (yix t2)) (mix t1) (mix t2) ltac:(unfold mix; lia)). lia.
Qed.

Lemma tmcmp_sign t1 t2 : valid_tm t1 -> valid_tm t2 ->
  (tmcmp t1 t2 < 0 /\ civil t1 < civil t2) \/ (tmcmp t1 t2 = 0 /\ civil t1 = civil t2 /\
    tm_year t1 = tm_year t2 /\ tm_mon t1 = tm_mon t2 /\ tm_mday t1 = tm_mday t2 /\
    tm_hour t1 = tm_hour t2 /\ tm_min t1 = tm_min t2 /\ tm_sec t1 = tm_sec t2) \/
  (0 < tmcmp t1 t2 /\ civil t2 < civil t1).
Proof.
  intros V1 V2. unfold tmcmp, civil.
  destruct (V1) as (_ & D1 & H1 & M1 & S1), (V2) as (_ & D2 & H2 & M2 & S2).
  destruct (Z.lt_trichotomy (tm_year t1) (tm_year t2)) as [L|[Ey|L]];
    [pose proof (civil_lt_year t1 t2 V1 V2 L); zcases; lia| |pose proof (civil_lt_year t2 t1 V2 V1 L); zcases; lia].
  destruct (Z.lt_trichotomy (tm_mon t1) (tm_mon t2)) as [L|[Em|L]];
    [pose proof (civil_lt_mon t1 t2 V1 V2 Ey L); zcases; lia| |
     pose proof (civil_lt_mon t2 t1 V2 V1 (eq_sym Ey) L); zcases; lia].
  assert (daynum t1 - tm_mday t1 = daynum t2 - tm_mday t2) as E
    by (unfold daynum, yix, mix; rewrite Ey, Em; lia).
  zcases; lia.
Qed.

(** For valid dates of the calendar [tmcmp] has the sign of the
    difference of the clocks; it is 0 only for the same clock. *)
Theorem tmcmp_orders (t1 t2 : tm) : valid_tm t1 -> valid_tm t2 ->
  Z.sgn (tmcmp t1 t2) = Z.sgn (civil t1 - civil t2).
Proof. intros V1 V2. destruct (tmcmp_sign t1 t2 V1 V2) as [H|[H|H]]; lia. Qed.
Lemma tmcmp_orders_witness :
  valid_tm (Tm 59 59 23 31 11 99 5 364) /\ valid_tm (Tm 0 0 0 1 0 100 6 0) /\
  Z.sgn (tmcmp (Tm 59 59 23 31 11 99 5 364) (Tm 0 0 0 1 0 100 6 0)) =
  Z.sgn (civil (Tm 59 59 23 31 11 99 5 364) - civil (Tm 0 0 0 1 0 100 6 0)).
Proof.
  assert (valid_tm (Tm 59 59 23 31 11 99 5 364)) as V1 by (repeat split; by compute).
  assert (valid_tm (Tm 0 0 0 1 0 100 6 0)) as V2 by (repeat split; by compute).
  split; [exact V1|]. split; [exact V2|].
  apply (tmcmp_orders (Tm 59 59 23 31 11 99 5 364) (Tm 0 0 0 1 0 100 6 0) V1 V2).
Defined.

(** ** Local times *)

(** A zone with the offset [off] in all the years of the calendar. *)
Class LocalTime (localtime : Z -> option tm) (off : Z) : Prop := {
  lt_off : Z.abs off < 86400;
  lt_tm c : 0 <= c + off < END -> exists t, localtime c = Some t /\ valid_tm t /\
    civil t = c + off /\ tm_wday t = (4 + (c + off) / 86400) mod 7 }.

Section zone.
Context (localtime : Z -> option tm) (off : Z) {LT : LocalTime localtime off}.

Lemma valid_civil t : valid_tm t -> 0 <= civil t < END.
Proof using Type.
  intros V. pose proof (year_part t V) as Hp. destruct V as ([Hy _] & _ & Hh & Hm & Hs).
  assert (0 <= ybefore (yix t)) by (rewrite ybefore_closed by (unfold yix; lia); Z.to_euclidean_division_equations; lia).
  pose proof (ybefore_lt (yix t) 130 ltac:(unfold yix; lia)). unfold civil, daynum, END in *. lia.
Qed.

Lemma Gmtoff_off : Gmtoff localtime = Some off.
Proof using LT.
  pose proof lt_off as Ho. unfold Gmtoff.
  destruct (lt_tm (24 * 3600)) as (t & -> & V & E & _); [split; [lia|]; transitivity (86400 * 3); [lia|by compute]|].
  cbn [mbind option_bind]. rewrite (Timegm_civil t) by apply V. cbn [mbind option_bind]. rewrite E. f_equal.
  unfold s32. rewrite Z.mod_small by lia. lia.
Qed.

Lemma Timelocal_civil t : in_calendar t -> Timelocal localtime t = Some (civil t - off).
Proof using LT. intros H. unfold Timelocal. by rewrite (Timegm_civil t H), Gmtoff_off. Qed.

Lemma toclock_civil y m d H M S : let t := Tm S M H d (m - 1) y 0 0 in
  in_calendar t -> 0 <= civil t < END -> - 2 ^ 31 <= civil t - off < 2 ^ 31 ->
  toclockLocal localtime y m d H M S = Some (civil t - off).
Proof using LT.
  intros t Hc Hr Hs. unfold toclockLocal, xTimelocal. fold t. rewrite Timelocal_civil by done. cbn [mbind option_bind].
  destruct (lt_tm (civil t - off)) as (t2 & -> & V & E & _); [lia|]. cbn [mbind option_bind].
  rewrite Timelocal_civil by apply V. cbn [mbind option_bind]. f_equal. rewrite E. unfold s32.
  rewrite Z.mod_small; lia.
Qed.

Lemma civil_fields t :
  civil (Tm (tm_sec t) (tm_min t) (tm_hour t) (tm_mday t) (tm_mon t + 1 - 1) (tm_year t) 0 0) = civil t.
Proof using Type. unfold civil, daynum, yix, mix. cbn. by replace (tm_mon t + 1 - 1) with (tm_mon t) by lia. Qed.

(** C35. In a zone whose offset is constant, which one with summer time is
    not, every clock of an [int] from the
    start of 1970 on is taken apart by [fromclockLocal], and [toclockLocal]
    makes the same clock of the fields, with nothing lost for the leap seconds
    that it looks for. *)
Theorem toclockLocal_roundtrip (c : Z) : 0 <= c + off < END -> c < 2 ^ 31 ->
  exists w y m d H M S, fromclockLocal localtime c = Some [w; y; m; d; H; M; S] /\
    toclockLocal localtime y m d H M S = Some c.
Proof using LT.
  intros Hc H31. unfold fromclockLocal. destruct (lt_tm c Hc) as (t & -> & V & E & _).
  pose proof (valid_civil t V). pose proof lt_off. do 7 eexists. split; [done|].
  rewrite toclock_civil; cbv zeta; rewrite ?civil_fields; [f_equal; lia| |lia|lia].
  destruct V as [[? ?] _]. split; cbn; lia.
Qed.
End zone.

(** ** A conversion *)

(** The first block of lengths [len n], [len (n+1)], … that [d] is in. *)
Fixpoint block (len : nat -> Z) (k n : nat) (d : Z) : nat * Z :=
  match k with
  | O => (n, d)
  | S k => if d <? len n then (n, d) else block len k (S n) (d - len n)
  end.
Lemma block_spec len (bef : nat -> Z) : (forall n, bef (S n) = bef n + len n) -> forall k n d,
  0 <= d < bef (n + k)%nat - bef n ->
  let '(n', r) := block len k n d in (n <= n' < n + k)%nat /\ 0 <= r < len n' /\ bef n + d = bef n' + r.
Proof.
  intros Hb. induction k as [|k IH]; intros n d H; cbn [block]; [rewrite Nat.add_0_r in H; lia|].
  destruct (Z.ltb_spec d (len n)); [split_and!; lia|].
  specialize (IH (S n) (d - len n)). rewrite Hb in IH. replace (S n + k)%nat with (n + S k)%nat in IH by lia.
  destruct (block len k (S n) (d - len n)) as [n' r]. destruct IH as (? & ? & ?); [lia|]. split; lia.
Qed.

(** Coordinated universal time. *)
Definition utc (c : Z) : option tm :=
  if (c <? 0) || (END <=? c) then None
  else
    let '(y, yd) := block ylen 130 0 (c / 86400) in
    let '(m, md) := block (month_days (lp y)) 12 0 yd in
    Some (Tm (c mod 60) (c / 60 mod 60) (c / 3600 mod 24) (md + 1) (Z.of_nat m) (70 + Z.of_nat y)
             ((4 + c / 86400) mod 7) yd).

Lemma clock_parts c : 0 <= c ->
  c = c / 86400 * 86400 + c / 3600 mod 24 * 3600 + c / 60 mod 60 * 60 + c mod 60 /\
  0 <= c / 3600 mod 24 < 24 /\ 0 <= c / 60 mod 60 < 60 /\ 0 <= c mod 60 < 60.
Proof.
  intros _. split_and!; try (apply Z.mod_pos_bound; lia).
  replace 86400 with (60 * 60 * 24) by lia. replace 3600 with (60 * 60) by lia.
  rewrite <- !Z.div_div by lia. Z.to_euclidean_division_equations. lia.
Qed.

#[global] Instance utc_local : LocalTime utc 0.
Proof.
  split; [done|]. intros c Hc. rewrite Z.add_0_r in *. unfold utc.
  rewrite (proj2 (Z.ltb_ge c 0)), (proj2 (Z.leb_gt END c)) by lia. cbn [orb].
  assert (0 <= c / 86400 < ybefore 130 - 0) as Hd.
  { split; [apply Z.div_pos; lia|]. apply Z.div_lt_upper_bound; [lia|]. unfold END in Hc. lia. }
  pose proof (block_spec ylen ybefore ltac:(done) 130 0 (c / 86400) Hd) as Hy.
  destruct (block ylen 130 0 (c / 86400)) as [y yd]. destruct Hy as (Hy & Hyd & Ey).
  assert (0 <= yd < mbefore (lp y) 12 - 0) as Hm by (rewrite mbefore_ylen; lia).
  pose proof (block_spec (month_days (lp y)) (mbefore (lp y)) ltac:(done) 12 0 yd Hm) as Hmd.
  destruct (block (month_days (lp y)) 12 0 yd) as [m md]. destruct Hmd as (Hm2 & Hmd & Em).
  destruct (clock_parts c ltac:(lia)) as (Ec & Hh & Hmi & Hs).
  eexists. split; [done|]. unfold valid_tm, in_calendar, civil, daynum, yix, mix.
  cbn [tm_sec tm_min tm_hour tm_mday tm_mon tm_year tm_wday].
  replace (70 + Z.of_nat y - 70) with (Z.of_nat y) by lia. rewrite !Nat2Z.id.
  cbn [ybefore mbefore] in Ey, Em. split_and!; try lia; done.
Qed.

Lemma toclockLocal_roundtrip_witness :
  0 <= 1700000000 + 0 < END /\
  exists w y m d H M S, fromclockLocal utc 1700000000 = Some [w; y; m; d; H; M; S] /\
    toclockLocal utc y m d H M S = Some 1700000000.
Proof. split; [by compute|]. apply (toclockLocal_roundtrip utc 0 1700000000); by compute. Defined.

(** ** The conversion of the program's own *)

Lemma gm_year_spec days k : forall n, (n + k <= 70)%nat -> (0 < k)%nat -> 0 <= days - ybefore n ->
  days <= ybefore (n + k) -> exists n', gm_year k (Z.of_nat n) days (ybefore n) = Some (Z.of_nat n', days - ybefore n') /\
    (n <= n' < n + k)%nat /\ 0 <= days - ybefore n' <= ylen n'.
Proof.
  induction k as [|k IH]; intros n Hn H0 Hd Hk; [lia|]. cbn [gm_year]. rewrite <- lp_rem by lia.
  replace (365 + (if lp n then 1 else 0)) with (ylen n) by (unfold ylen; destruct (lp n); lia).
  destruct (Z.ltb_spec (ybefore n + ylen n) days).
  - change (ybefore n + ylen n) with (ybefore (S n)) in *. replace (Z.of_nat n + 1) with (Z.of_nat (S n)) by lia.
    destruct k as [|k]; [rewrite Nat.add_1_r in Hk; lia|].
    destruct (IH (S n)) as (n' & -> & ?); [lia..| |]; [by replace (S n + S k)%nat with (n + S (S k))%nat by lia|].
    exists n'. split; [done|]. lia.
  - exists n. split; [done|]. lia.
Qed.

Lemma gm_month_spec yoff yday : yday < 1000 -> forall k m, (m + k = 12)%nat -> (0 < k)%nat ->
  nth m yday_base 0 <= yday -> exists m', (m' < 12)%nat /\ nth m' yday_base 0 <= yday /\
  gm_month k yoff yday m = (Z.of_nat m', yday - nth m' yday_base 0 +
    (if (1 <? Z.of_nat m') && (Z.rem (yoff - 2) 4 =? 0) then 1 else 0)).
Proof.
  intros H1000. induction k as [|k IH]; intros m Hm Hk Hb; [lia|]. cbn [gm_month].
  destruct (Z.ltb_spec yday (nth (S m) yday_base 0)) as [?|Hge].
  - exists m. split_and!; [lia|done|]. f_equal. destruct (_ && _); lia.
  - destruct k as [|k]; [assert (m = 11)%nat as -> by lia; cbn in Hge; lia|]. apply IH; lia.
Qed.

(** What [GmtimeX] gives is a day of the calendar if one goes on counting
    behind the end of a month; in leap years, from March on, it is two days
    late. *)
Lemma GmtimeX_clock c : 0 <= c < 2 ^ 31 -> exists t, GmtimeX c = Some t /\ in_calendar t /\
  tm_wday t = (4 + c / 86400) mod 7 /\
  civil t = c + (if (1 <? tm_mon t) && lp (yix t) then 2 * 86400 else 0).
Proof.
  intros Hc. unfold GmtimeX. replace (c / 3600 / 24) with (c / 86400) by (by rewrite Z.div_div by lia).
  assert (0 <= c / 86400) as Hd0 by (apply Z.div_pos; lia).
  assert (c / 86400 <= ybefore 70) as Hd.
  { transitivity (2 ^ 31 / 86400); [apply Z.div_le_mono; lia|by compute]. }
  destruct (gm_year_spec (c / 86400) 70 0 ltac:(lia) ltac:(lia) ltac:(cbn; lia) Hd) as (y & E & Hy & Hyd).
  change (gm_year 70 0 (c / 86400) 0) with (gm_year 70 (Z.of_nat 0) (c / 86400) (ybefore 0)).
  rewrite E. cbn [mbind option_bind]. set (yday := c / 86400 - ybefore y) in *.
  assert (ylen y <= 366) by (unfold ylen; destruct (lp y); lia).
  destruct (gm_month_spec (Z.of_nat y) yday ltac:(lia) 12 0 eq_refl ltac:(lia) ltac:(cbn; lia)) as (m & Hm & Hb & ->).
  destruct (clock_parts c ltac:(lia)) as (Ec & _).
  eexists. split; [done|]. unfold in_calendar, civil, daynum, yix, mix.
  cbn [tm_sec tm_min tm_hour tm_mday tm_mon tm_year tm_wday].
  replace (70 + Z.of_nat y - 70) with (Z.of_nat y) by lia. rewrite !Nat2Z.id. split; [lia|]. split.
  - rewrite Z.rem_mod_nonneg by lia. by rewrite Z.add_comm.
  - rewrite mbefore_base, <- lp_rem by lia. destruct (_ && _); unfold yday; lia.
Qed.

(** The first of January of 1971, and the first of March of 1972. *)
Lemma GmtimeX_new_year : GmtimeX (365 * 86400) = Some (Tm 0 0 0 32 11 70 5 365).
Proof. reflexivity. Qed.
Lemma GmtimeX_march : GmtimeX (790 * 86400) = Some (Tm 0 0 0 3 2 72 3 60) /\
  utc (790 * 86400) = Some (Tm 0 0 0 1 2 72 3 60).
Proof. split; by vm_compute. Qed.
(** 1968, which is a leap year, starts a day late, and 2100 is taken for a
    leap year. *)
Lemma Timegm_1968 : Timegm (Tm 0 0 0 1 0 68 1 0) = Some (- 730 * 86400) /\ leap 1968 = true /\ leap 1969 = false.
Proof. done. Qed.
Lemma Timegm_2100 : Timegm (Tm 0 0 0 1 2 200 1 59) = Some ((ybefore 130 + 60) * 86400) /\ leap 2100 = false.
Proof. split; by vm_compute. Qed.
(** A thirteenth month is one of a thousand days; there is no fourteenth. *)
Lemma Timegm_months : Timegm (Tm 0 0 0 1 12 124 0 0) = Some ((ybefore 54 + 1001) * 86400) /\
  Timegm (Tm 0 0 0 1 13 124 0 0) = None.
Proof. split; by vm_compute. Qed.
