(* ===== verification/Strftime.v ===== *)
(** * Texts of times ([rary/Strftime.cpp])

    [Strftime0] writes the fields of a time by a format; the formats are those
    of mail, news, HTTP and the like.  Texts are written without the size of
    the buffer.  What is
    asked of the C library ([localtime], [gmtime], [timegm]) is an argument,
    and so is the present time.  [None] is what the code does not define: a
    look behind the end of a format or of a table, or an unset time. *)
From S2P Require Import Prelude VStr Strings Text Clock.
From stdpp Require Import options.

Definition TIMEFORM_mdHMS : list Z := cs "%m/%d %H:%M:%S".
Definition TIMEFORM_mdHMSm : list Z := cs "%m/%d %H:%M:%S%.3s".
Definition TIMEFORM_HTTPD : list Z := cs "%d/%b/%Y:%H:%M:%S %z".
Definition TIMEFORM_GOPHER : list Z := cs "%Y%m%d%H%M%S".
Definition TIMEFORM_USENET : list Z := cs "%d %b %Y %H:%M:%S %z".
Definition TIMEFORM_RFC822 : list Z := cs "%a, %d %b %Y %H:%M:%S %z".
Definition TIMEFORM_RFC850 : list Z := cs "%A, %d-%b-%y %H:%M:%S %z".
Definition TIMEFORM_ANSI_C : list Z := cs "%a %b %d %H:%M:%S %Y".
Definition TIMEFORM_UXDATE : list Z := cs "%a %b %d %H:%M:%S %z %Y".
Definition TIMEFORM_COOKIE : list Z := cs "%a, %d-%b-%Y %H:%M:%S GMT".
Definition TIMEFORM_RFC0 : list Z := cs "%P%B %Y".
Definition TIMEFORM_RFC1 : list Z := cs "%P%d %B %Y".
Definition TIMEFORM_RFC2 : list Z := cs "%P%B %d, %Y".
Definition TIMEFORM_RFC3 : list Z := cs "%P%B %d %Y".
Definition TIMEFORM_RFC4 : list Z := cs "%d/%m/%y".

(** ** Printing *)

(** A number or text of [printf] with a width. *)
Definition pad (c : Z) (w : nat) (s : list Z) : list Z := repeat c (w - length s) ++ s.
Definition fmt_02 (n : Z) : list Z :=
  if n <? 0 then 45 :: pad 48 1 (fmt_d (- n)) else pad 48 2 (fmt_d n).

Definition digit_at (i : Z) : option Z := if i <? 0 then None else cs "0123456789" !! Z.to_nat i.
Definition sprint02d (n : Z) : option (list Z) :=
  d1 ← digit_at (Z.rem (Z.quot n 10) 10); d0 ← digit_at (Z.rem n 10); Some [d1; d0].
Definition sprint1d (n : Z) : option (list Z) := d0 ← digit_at (Z.rem n 10); Some [d0].
Definition name_at (l : list (list Z)) (i : Z) : option (list Z) := if i <? 0 then None else l !! Z.to_nat i.

(** [lsDate] at the time [now]. *)
Definition lsDate (now clock : Z) (t : tm) : option (list Z) :=
  clock ← (if clock <? 0 then Timegm t else Some clock);
  mon ← name_at Month (tm_mon t);
  if clock <? now - 3600 * 24 * 31 * 6
  then Some (mon ++ SP :: pad SP 2 (fmt_d (tm_mday t)) ++ SP :: pad SP 5 (fmt_d (tm_year t + 1900)))
  else Some (mon ++ SP :: pad SP 2 (fmt_d (tm_mday t)) ++ SP :: fmt_02 (tm_hour t) ++ 58 :: fmt_02 (tm_min t)).

(** The quotient rounded to the nearest, to an even one between two. *)
Definition div_even (a b : Z) : Z :=
  let q := a / b in let r := a mod b in
  if 2 * r <? b then q else if b <? 2 * r then q + 1 else if Z.even q then q else q + 1.
(** [usecond/1000000.0] as a [double]: [m] with [k] such that it is
    [m / 2^k]. *)
Definition usec_double (u : Z) : Z * Z :=
  if u =? 0 then (0, 0)
  else
    let k := 71 - Z.log2 u in
    let k := if Z.shiftl u k / 1000000 <? 2 ^ 52 then k + 1 else k in
    (div_even (Z.shiftl u k) 1000000, k).
(** [%.nf] of it. *)
Definition fmt_f (n : Z) (usec : Z) : list Z :=
  let '(m, k) := usec_double (Z.abs usec) in
  let r := div_even (m * 10 ^ n) (2 ^ k) in
  (if usec <? 0 then [45] else []) ++ fmt_d (r / 10 ^ n) ++
  (if n =? 0 then [] else 46 :: pad 48 (Z.to_nat n) (fmt_d (r mod 10 ^ n))).

(** The width and, behind a dot, the number of digits. *)
Definition precision_of (p : list Z) : option (Z * option Z) :=
  let w := dec_value 0 p in
  let r := skip_digits p in
  if cat r 0 =? 0 then Some (w, None)
  else if isdigits (tl r) || bool_decide (tl r = []) then Some (w, Some (dec_value 0 (tl r))) else None.
Definition pad_of (p : list Z) (w : Z) (s : list Z) : list Z :=
  pad (if cat p 0 =? 48 then 48 else SP) (Z.to_nat w) s.

(** [SUBSECS]: behind the first character of the text. *)
Definition subsecs (precision : list Z) (usecond : Z) : option (list Z) :=
  '(w, n) ← precision_of precision;
  let buf := pad_of precision w (fmt_f (default 6 n) usecond) in
  let buf := if strneq buf (cs "1.0") 3
             then take (Z.to_nat (2 + atoi (tl precision))) (cs "0.999999999") else buf in
  match buf with [] => None | _ :: s => Some s end.

Section print.
Context (localtime gmtime : Z -> option tm) (timegm : tm -> Z) (now : Z).

(** One conversion. *)
Definition conv (c : Z) (precision : list Z) (t : tm) (usecond : Z) (zone : list Z) : option (list Z) :=
  if c =? 0 then None
  else if c =? 37 then Some [37]
  else if c =? 65 then name_at WDays (tm_wday t)
  else if c =? 97 then name_at Wdays (tm_wday t)
  else if c =? 98 then name_at Month (tm_mon t)
  else if c =? 122 then Some zone
  else if c =? 76 then lsDate now (-1) t
  else if c =? 119 then sprint1d (tm_wday t)
  else if c =? 117 then sprint1d (Z.rem (tm_wday t + 6) 7 + 1)
  else if c =? 100 then sprint02d (tm_mday t)
  else if c =? 101 then Some (pad SP 2 (fmt_d (tm_mday t)))
  else if c =? 109 then sprint02d (tm_mon t + 1)
  else if c =? 72 then sprint02d (tm_hour t)
  else if c =? 77 then sprint02d (tm_min t)
  else if c =? 83 then
    s ← sprint02d (tm_sec t);
    if cat precision 0 =? 46 then f ← subsecs precision usecond; Some (s ++ f) else Some s
  else if c =? 85 then sprint02d (NthWeek t 0)
  else if c =? 87 then sprint02d (NthWeek t 1)
  else if c =? 121 then sprint02d (cyear (tm_year t))
  else if c =? 89 then Some (fmt_d (tm_year t + 1900))
  else if c =? 115 then
    if strchr precision 46 then subsecs precision usecond
    else Some (pad_of precision (dec_value 0 precision) (fmt_d (timegm t)))
  else Some [].

(** The loop over the format; the fuel is its length. *)
Fixpoint Strftime_loop (fuel : nat) (fp : list Z) (t : tm) (usecond : Z) (zone : list Z) : option (list Z) :=
  match fuel, fp with
  | _, [] => Some []
  | O, _ => None
  | S fuel, c :: fp =>
      if negb (c =? 37) then s ← Strftime_loop fuel fp t usecond zone; Some (c :: s)
      else
        let '(precision, fp) := span (fun c => (c =? 46) || isdigit c) 15 fp in
        x ← conv (cat fp 0) precision t usecond zone;
        s ← Strftime_loop fuel (tl fp) t usecond zone;
        Some (x ++ s)
  end.
(** [Strftime0] sets the month also where the day of the week is bad. *)
Definition set_mon (t : tm) (m : Z) : tm :=
  Tm (tm_sec t) (tm_min t) (tm_hour t) (tm_mday t) m (tm_year t) (tm_wday t) (tm_yday t).
Definition Strftime0 (fmt : list Z) (t : tm) (usecond : Z) (zone : list Z) : option (list Z) :=
  let t := if (tm_mon t <? 0) || (12 <=? tm_mon t) then set_mon t 0 else t in
  let t := if (tm_wday t <? 0) || (7 <=? tm_wday t) then set_mon t 0 else t in
  Strftime_loop (length fmt) fmt t usecond zone.

(** [gmtoff]: the first offset in hours of which the second day of 1970 has
    the local time. *)
Definition same_time (a b : option tm) : bool :=
  match a, b with
  | Some a, Some b => (tmcmp a b =? 0) && (tm_wday a =? tm_wday b)
  | _, _ => false
  end.
Fixpoint gmtoff_loop (k : nat) (off : Z) : option Z :=
  match k with
  | O => None
  | S k =>
      if same_time (localtime (24 * 3600)) (gmtime (24 * 3600 + off * 3600)) then Some off
      else gmtoff_loop k (off + 1)
  end.
Definition fmt_04 (n : Z) : list Z := if n <? 0 then 45 :: pad 48 3 (fmt_d (- n)) else pad 48 4 (fmt_d n).
Definition gmtoff : list Z :=
  match gmtoff_loop 25 (-12) with
  | Some off => (if 0 <=? off then [43] else [45]) ++ fmt_04 (off * 100)
  | None => cs "+0000"
  end.
(** The offset that it leaves for [Localtime]. *)
Definition gmtoff_secs : Z := 3600 * default 13 (gmtoff_loop 25 (-12)).

(** [StrftimeLocal] and [StrftimeGMT]; [usnow] is the time with its
    microseconds for [clock] and [usecond] both -1. *)
Definition tmerr : tm := Tm 0 0 0 0 0 0 0 0.
Definition StrftimeLocal (usnow : Z * Z) (fmt : list Z) (clock usecond : Z) : option (list Z) :=
  let '(clock, usecond) := if (clock =? -1) && (usecond =? -1) then usnow else (clock, usecond) in
  Strftime0 fmt (default tmerr (localtime clock)) usecond gmtoff.
Definition StrftimeGMT (fmt : list Z) (clock usecond : Z) : option (list Z) :=
  t ← gmtime clock; Strftime0 fmt t usecond (cs "GMT").
Definition rsctime (clock : Z) : option (list Z) := t ← localtime clock; lsDate now clock t.
End print.
