(* ===== verification/Scanftime.v ===== *)
(** * Times of texts ([rary/Strftime.cpp])

    [scanftimeX] reads a clock by a format, [scanftimeY] one of the present
    day; around them are the readers of dates of HTTP, news and mail, and of
    listings.  [localtime], [gmtime] and [timegm] of the C library and the
    present time are arguments.  [None] is what the code does not define: a
    look behind the end of a format or of a table, or a null pointer. *)
From S2P Require Import Prelude VStr Strings Text Clock Strftime.
From stdpp Require Import options.

(** ** Scanners *)

(** [awordscan] and [wordScan] into a buffer of [siz] bytes: the word and
    the rest. *)
Definition awordscan (str : list Z) (siz : nat) : list Z * list Z := span isalpha (siz - 1) str.
Definition wordScan (s : list Z) (siz : nat) : list Z * list Z :=
  span (fun ch => negb (is_wsp ch)) (siz - 1) (skip_wsp s).

(** ** Scanning *)

(** The variables of [scanftimeX]: what was read, the rest, and the year of
    the text that may be made one of four digits. *)
Record scan := Scan {
  f_year : Z; f_mon : Z; f_mday : Z; f_hour : Z; f_min : Z; f_sec : Z;
  f_zone : list Z; f_localzone : bool; f_partial : bool; f_yyp : option (list Z) }.
Definition scan0 : scan := Scan (-1) (-1) (-1) (-1) (-1) (-1) [] false false None.
Definition put_year (f : scan) (x : Z) : scan :=
  Scan x (f_mon f) (f_mday f) (f_hour f) (f_min f) (f_sec f) (f_zone f) (f_localzone f) (f_partial f) (f_yyp f).
Definition put_mon (f : scan) (x : Z) : scan :=
  Scan (f_year f) x (f_mday f) (f_hour f) (f_min f) (f_sec f) (f_zone f) (f_localzone f) (f_partial f) (f_yyp f).
Definition put_mday (f : scan) (x : Z) : scan :=
  Scan (f_year f) (f_mon f) x (f_hour f) (f_min f) (f_sec f) (f_zone f) (f_localzone f) (f_partial f) (f_yyp f).
Definition put_hour (f : scan) (x : Z) : scan :=
  Scan (f_year f) (f_mon f) (f_mday f) x (f_min f) (f_sec f) (f_zone f) (f_localzone f) (f_partial f) (f_yyp f).
Definition put_min (f : scan) (x : Z) : scan :=
  Scan (f_year f) (f_mon f) (f_mday f) (f_hour f) x (f_sec f) (f_zone f) (f_localzone f) (f_partial f) (f_yyp f).
Definition put_sec (f : scan) (x : Z) : scan :=
  Scan (f_year f) (f_mon f) (f_mday f) (f_hour f) (f_min f) x (f_zone f) (f_localzone f) (f_partial f) (f_yyp f).
Definition put_zone (f : scan) (x : list Z) (l : bool) : scan :=
  Scan (f_year f) (f_mon f) (f_mday f) (f_hour f) (f_min f) (f_sec f) x l (f_partial f) (f_yyp f).
Definition put_partial (f : scan) : scan :=
  Scan (f_year f) (f_mon f) (f_mday f) (f_hour f) (f_min f) (f_sec f) (f_zone f) (f_localzone f) true (f_yyp f).
Definition put_yyp (f : scan) (x : option (list Z)) : scan :=
  Scan (f_year f) (f_mon f) (f_mday f) (f_hour f) (f_min f) (f_sec f) (f_zone f) (f_localzone f) (f_partial f) x.

Definition set_num (put : scan -> Z -> scan) (f : scan) (sp : list Z) : option (scan * list Z) :=
  let '(n, sp) := scanint sp in Some (put f n, sp).

(** One conversion; [None] is the jump to [EXIT]. *)
Definition scan_conv (c : Z) (f : scan) (sp : list Z) : option (scan * list Z) :=
  if c =? 80 then Some (put_partial f, sp)
  else if c =? 37 then (if cat sp 0 =? 37 then Some (f, tl sp) else None)
  else if (c =? 65) || (c =? 97) || (c =? 85) || (c =? 87) then Some (f, (awordscan sp 128).2)
  else if c =? 98 then let '(sym, sp) := awordscan sp 128 in Some (put_mon f (montoi sym), sp)
  else if c =? 66 then let '(sym, sp) := awordscan sp 128 in Some (put_mon f (Montoi sym), sp)
  else if c =? 100 then set_num put_mday f sp
  else if c =? 109 then set_num (fun f n => put_mon f (n - 1)) f sp
  else if c =? 122 then let '(zone, sp) := wordScan sp 128 in Some (put_zone f zone (f_localzone f), sp)
  else if c =? 90 then
    let '(zone, sp) := wordScan sp 128 in
    Some (put_zone f zone (f_localzone f || negb (streq zone (cs "GMT") || streq zone (cs "UTC"))), sp)
  else if c =? 72 then set_num put_hour f sp
  else if c =? 77 then set_num put_min f sp
  else if c =? 83 then set_num put_sec f sp
  else if (c =? 121) || (c =? 89) then
    let f := if isdigit (cat sp 0) && (atoi sp <? 200) then put_yyp f (Some sp) else f in
    let '(year, sp) := scanint sp in
    if f_partial f && (c =? 89) && (1 <=? year) && (year <=? 31) then Some (put_year f (-1), sp)
    else Some (put_year f (year2internal year), sp)
  else Some (f, sp).

(** The loop over the format: what was read when it ends or jumps to
    [EXIT]. *)
Fixpoint scanf_loop (fuel : nat) (fp : list Z) (f : scan) (sp : list Z) : option scan :=
  match fuel, fp with
  | _, [] => Some f
  | O, _ => None
  | S fuel, ch :: fp =>
      if (ch =? SP) || (ch =? TAB) then scanf_loop fuel fp f (skip_blanks sp)
      else if negb (ch =? 37) then
        if cat sp 0 =? ch then scanf_loop fuel fp f (tl sp) else Some f
      else
        match fp with
        | [] => None
        | c :: fp => match scan_conv c f sp with
                     | Some (f, sp) => scanf_loop fuel fp f sp
                     | None => Some f
                     end
        end
  end.

(** What is missing of a part of a date; [None] where the date is not one. *)
Definition complete (f : scan) : option scan :=
  if f_partial f && (0 <? f_year f) && (0 <=? f_mon f) then
    let f := if f_mday f <? 0 then put_mday f 1 else f in
    let f := if f_hour f <? 0 then put_hour f 0 else f in
    let f := if f_min f <? 0 then put_min f 0 else f in
    Some (if f_sec f <? 0 then put_sec f 0 else f)
  else if (f_year f <? 0) || (f_mon f <? 0) || (f_mday f <? 0) || (f_hour f <? 0) || (f_min f <? 0) || (f_sec f <? 0)
  then None else Some f.
Definition zone_shift (zone : list Z) : Z :=
  let off := atoi (tl zone) in
  let gmtoff := 3600 * Z.quot off 100 + 60 * Z.rem off 100 in
  if cat zone 0 =? 43 then - gmtoff else if cat zone 0 =? 45 then gmtoff else 0.

Section scanning.
Context (localtime gmtime : Z -> option tm) (now : Z).

(** [scanftimeX]: the clock and the text. *)
Definition scanftimeX (stime fmt : list Z) (canon : bool) : option (Z * list Z) :=
  f ← scanf_loop (length fmt) fmt scan0 stime;
  match complete f with
  | None => Some (-1, stime)
  | Some f =>
      let t := Tm (f_sec f) (f_min f) (f_hour f) (f_mday f) (f_mon f) (f_year f) 0 0 in
      clock ← (if f_localzone f then Timelocal localtime t else Timegm t);
      let clock := if (0 <=? clock) && negb (bool_decide (f_zone f = [])) then clock + zone_shift (f_zone f) else clock in
      let stime :=
        match f_yyp f with
        | Some yyp =>
            if canon then before stime yyp ++ fmt_d (1900 + f_year f) ++ (scanint yyp).2 else stime
        | None => stime
        end in
      Some (clock, stime)
  end.
Definition scanftime (stime fmt : list Z) : option Z := '(clock, _) ← scanftimeX stime fmt false; Some clock.

(** The first of the formats by which the text is a date. *)
Fixpoint scan_forms (stime : list Z) (fmts : list (list Z)) : option Z :=
  match fmts with
  | [] => Some (-1)
  | fmt :: fmts => itime ← scanftime stime fmt; if 0 <=? itime then Some itime else scan_forms stime fmts
  end.
Definition scanANSItime (stime : list Z) : option Z := scan_forms stime [TIMEFORM_ANSI_C].
Definition scanHTTPtime (stime : list Z) : option Z :=
  scan_forms stime [TIMEFORM_RFC822; TIMEFORM_RFC850; TIMEFORM_ANSI_C].
Definition scanNNTPtime (stime : list Z) : option Z :=
  scan_forms stime [TIMEFORM_RFC822; TIMEFORM_RFC850; TIMEFORM_ANSI_C; TIMEFORM_USENET;
    TIMEFORM_RFC0; TIMEFORM_RFC1; TIMEFORM_RFC2; TIMEFORM_RFC3; TIMEFORM_RFC4].
Definition scanUNIXDATE (stime : list Z) : option Z := scanftime stime TIMEFORM_UXDATE.
Definition scanUNIXFROMtime (stime : list Z) : option Z :=
  itime ← scanftime stime TIMEFORM_ANSI_C;
  if 0 <=? itime then off ← Gmtoff localtime; Some (itime - off) else scanNNTPtime stime.

(** [canon_date]: the text with a year of four digits. *)
Fixpoint canon_forms (stime : list Z) (fmts : list (list Z)) : option (list Z) :=
  match fmts with
  | [] => Some stime
  | fmt :: fmts => '(itime, s) ← scanftimeX stime fmt true; if 0 <=? itime then Some s else canon_forms s fmts
  end.
Definition canon_date (stime : list Z) : option (list Z) :=
  let sp := skip_blanks stime in
  s ← canon_forms sp [TIMEFORM_RFC822; TIMEFORM_RFC850; TIMEFORM_ANSI_C; TIMEFORM_USENET];
  Some (before stime sp ++ s).

(** [scanftimeY], which takes what a text leaves open from the present time,
    at fields of a fixed length. *)
Definition scanint2 (s : list Z) : option (Z * list Z) :=
  if (isdigit (cat s 0) || isspace (cat s 0)) && isdigit (cat s 1)
  then Some (atoi (take 2 s), drop 2 s) else None.
Definition scanint4 (s : list Z) : option (Z * list Z) :=
  if isdigit (cat s 0) && isdigit (cat s 1) && isdigit (cat s 2) && isdigit (cat s 3)
  then Some (atoi (take 4 s), drop 4 s) else None.
Definition set_num2 (put : scan -> Z -> scan) (f : scan) (sp : list Z) : scan * option (list Z) :=
  match scanint2 sp with Some (n, sp) => (put f n, Some sp) | None => (f, None) end.

(** One conversion, with the null pointer for a field that is not there. *)
Definition scan_convY (c : Z) (f : scan) (sp : list Z) : scan * option (list Z) :=
  if c =? 37 then (f, if cat sp 0 =? 37 then Some (tl sp) else None)
  else if (c =? 65) || (c =? 97) || (c =? 85) || (c =? 87) then (f, Some (awordscan sp 128).2)
  else if c =? 98 then let '(sym, sp) := awordscan sp 128 in (put_mon f (montoi sym), Some sp)
  else if c =? 66 then let '(sym, sp) := awordscan sp 128 in (put_mon f (Montoi sym), Some sp)
  else if c =? 100 then set_num2 put_mday f sp
  else if c =? 109 then set_num2 (fun f n => put_mon f (n - 1)) f sp
  else if (c =? 122) || (c =? 90) then
    if (cat sp 0 =? 43) || (cat sp 0 =? 45)
    then (put_zone f (f_zone f) true, match scanint4 (tl sp) with Some (_, sp) => Some sp | None => None end)
    else
      let '(zone, sp) := wordScan sp 128 in
      (put_zone f zone (f_localzone f && negb (streq zone (cs "GMT") || streq zone (cs "UTC"))), Some sp)
  else if c =? 72 then set_num2 put_hour f sp
  else if c =? 77 then set_num2 put_min f sp
  else if c =? 83 then set_num2 put_sec f sp
  else if c =? 89 then
    match scanint4 sp with Some (n, sp) => (put_year f (year2internal n), Some sp) | None => (f, None) end
  else if c =? 121 then set_num2 (fun f n => put_year f (year2internal n)) f sp
  else (f, Some sp).

(** The loop ends with the text; [Some None] is a jump to [EXIT], where it is
    rejected.  The null pointer of a zone is followed if the format goes
    on. *)
Fixpoint scanfY_loop (fuel : nat) (fp : list Z) (f : scan) (sp : list Z) : option (option (scan * list Z)) :=
  match fuel, fp with
  | _, [] => Some (Some (f, sp))
  | O, _ => None
  | S fuel, ch :: fp =>
      if cat sp 0 =? 0 then Some (Some (f, sp))
      else if (ch =? SP) || (ch =? TAB) then scanfY_loop fuel fp f (skip_blanks sp)
      else if negb (ch =? 37) then
        if cat sp 0 =? ch then scanfY_loop fuel fp f (tl sp) else Some None
      else
        match fp with
        | [] => None
        | c :: fp =>
            match scan_convY c f sp with
            | (f, Some sp) => scanfY_loop fuel fp f sp
            | (_, None) => if ((c =? 122) || (c =? 90)) && negb (bool_decide (fp = [])) then None else Some None
            end
        end
  end.

(** The fields of the present time with those of the text. *)
Definition fill (t : tm) (f : scan) : tm :=
  let or a b := if 0 <=? a then a else b in
  let min := if (0 <=? f_hour f) && ((f_min f <? 0) || (f_sec f <? 0)) then 0 else tm_min t in
  let sec := if (0 <=? f_min f) && (f_sec f <? 0) then 0 else tm_sec t in
  Tm (or (f_sec f) sec) (or (f_min f) min) (or (f_hour f) (tm_hour t)) (or (f_mday f) (tm_mday t))
     (or (f_mon f) (tm_mon t)) (or (f_year f) (tm_year t)) 0 0.
Definition scanftimeY (stime fmt : list Z) : option Z :=
  r ← scanfY_loop (length fmt) fmt (put_zone scan0 [] true) stime;
  match r with
  | None => Some (-1)
  | Some (f, sp) =>
      if negb (cat sp 0 =? 0) then Some (-1)
      else
        t ← (if f_localzone f then localtime now else gmtime now);
        if f_localzone f then Timelocal localtime (fill t f) else Timegm (fill t f)
  end.
Fixpoint scan_formsY (stime : list Z) (fmts : list (list Z)) : option Z :=
  match fmts with
  | [] => Some (-1)
  | fmt :: fmts => itime ← scanftimeY stime fmt; if 0 <=? s32 itime then Some (s32 itime) else scan_formsY stime fmts
  end.
Definition scanTime (stime : list Z) : option Z :=
  scan_formsY stime [cs "%M"; cs "%H:%M"; cs "%H:%M:%S"; TIMEFORM_mdHMS; TIMEFORM_RFC822; TIMEFORM_RFC850;
    TIMEFORM_ANSI_C; TIMEFORM_USENET; TIMEFORM_GOPHER].
End scanning.

(** [scanYmdHMS_GMT]: seven pairs of digits; [timegm] is of the C library. *)
Fixpoint pairs (k : nat) (s : list Z) : list Z :=
  match k, s with
  | S k, a :: b :: s => atoi [a; b] :: pairs k s
  | _, _ => []
  end.
Definition scanYmdHMS_GMT (timegm : tm -> Z) (stime : list Z) : Z :=
  let v2v := pairs 8 stime in
  let v i := nth i v2v 0 in
  if negb (zlen v2v =? 7) then -1
  else timegm (Tm (v 6) (v 5) (v 4) (v 3) (v 2 - 1) (v 0 * 100 + v 1 - 1900) 0 0)%nat.

(** [scanLsDate]: the date of a line of a listing, and the rest; [None] where
    there is none. *)
Definition scanLsDate (str : list Z) : option (list Z * list Z) :=
  let str := skip_sp str in
  let '(mon, sp) := wordScan str 128 in
  let '(day, sp) := wordScan sp 128 in
  let '(plus, sp) := wordScan sp 128 in
  if existsb (fun m => bool_decide (take (length mon) m = mon)) Month
  then if 0 <? atoi day then Some (before str sp, sp) else None
  else
    let monx := atoi mon in
    let dayx := atoi day in
    let plusx := atoi plus in
    if (1 <=? monx) && (monx <=? 12) && (1 <=? dayx) && (dayx <=? 31) then
      if negb (strchr plus 58) && (plusx <? 1970) then None
      else
        let plus := if strchr plus 58 then plus else fmt_d plusx in
        Some (nth (Z.to_nat (monx - 1)) Month [] ++ SP :: pad SP 2 (fmt_d dayx) ++ SP :: pad SP 5 plus, sp)
    else None.
