(* ===== verification/DateSpec.v ===== *)
(** * Dates are read as they are written

    A date that [Strftime0] writes in one of the formats of HTTP is read by
    [scanHTTPtime] as the clock it was written for ([http_date_read],
    [http_date_roundtrip]); what is written for zones west of Greenwich is
    not ([west_date]). *)
From S2P Require Import Prelude VStr Strings Text Clock ClockSpec Strftime Scanftime.
From stdpp Require Import options.

(** ** The parts of a date *)

(** A number of two digits. *)
Definition two (n : Z) : list Z := [48 + n / 10; 48 + n mod 10].

Lemma digit_at_ok i : 0 <= i < 10 -> digit_at i = Some (48 + i).
Proof.
  intros H. assert (forallb (fun n => bool_decide (digit_at (Z.of_nat n) = Some (48 + Z.of_nat n))) (seq 0 10) = true) as A
    by reflexivity.
  rewrite forallb_forall in A. specialize (A (Z.to_nat i) ltac:(apply in_seq; lia)).
  apply bool_decide_eq_true in A. by rewrite Z2Nat.id in A by lia.
Qed.
Lemma sprint02d_two n : 0 <= n < 100 -> sprint02d n = Some (two n).
Proof.
  intros H. unfold sprint02d. rewrite Z.quot_div_nonneg, !Z.rem_mod_nonneg by (try lia; apply Z.div_pos; lia).
  assert (0 <= n / 10 < 10) by (split; [apply Z.div_pos; lia|apply Z.div_lt_upper_bound; lia]).
  rewrite (Z.mod_small (n / 10)) by lia. rewrite !digit_at_ok by (try lia; apply Z.mod_pos_bound; lia). done.
Qed.

(** A text that a literal or a blank may be in front of. *)
Definition starts (s : list Z) : Prop := isblank (cat s 0) = false.
Definition no_digit (s : list Z) : Prop := isdigit (cat s 0) = false.

Lemma digit_two n : 0 <= n < 100 -> isdigit (48 + n / 10) = true /\ isdigit (48 + n mod 10) = true.
Proof.
  intros H. pose proof (Z.mod_pos_bound n 10).
  assert (0 <= n / 10 < 10) by (split; [apply Z.div_pos; lia|apply Z.div_lt_upper_bound; lia]).
  unfold isdigit. rewrite !andb_true_iff, !Z.leb_le. lia.
Qed.
Lemma isdigit_starts c s : isdigit c = true -> starts (c :: s).
Proof.
  unfold starts, isdigit, isblank, SP, TAB. rewrite cat_0, andb_true_iff, !Z.leb_le. intros H.
  by rewrite !(proj2 (Z.eqb_neq _ _)) by lia.
Qed.
Lemma starts_two n r : 0 <= n < 100 -> starts (two n ++ r).
Proof. intros H. by apply isdigit_starts, digit_two. Qed.
Lemma starts_fmt_d n r : 0 <= n < 2 ^ 31 -> starts (fmt_d n ++ r).
Proof. intros H. destruct (fmt_d_nonempty n H) as (d & ds & -> & Hd). by apply isdigit_starts. Qed.

Lemma scanint_two n r : 0 <= n < 100 -> no_digit r -> scanint (two n ++ r) = (n, r).
Proof.
  intros H Hr. destruct (digit_two n H) as [H1 H2]. unfold scanint.
  rewrite (scanint_loop_spec _ 0 0), skip_digits_app by (done || by repeat constructor). f_equal.
  unfold two. cbn [app dec_value]. rewrite H1, H2, dec_value_stop by done. unfold INT_MAX.
  pose proof (Z.div_mod n 10). lia.
Qed.
Lemma scanint_fmt_d n r : 0 <= n < 2 ^ 31 -> no_digit r -> scanint (fmt_d n ++ r) = (n, r).
Proof.
  intros H Hr. unfold scanint. rewrite (scanint_loop_spec _ 0 0), skip_digits_app, dec_value_fmt_d; try done.
  - f_equal. unfold INT_MAX. lia.
  - by destruct (fmt_d_spec n H) as (_ & ? & _).
Qed.

(** A name of letters in front of something else. *)
Definition is_name (w : list Z) : Prop := w <> [] /\ forallb isalpha w = true /\ (length w <= 10)%nat.
Definition no_alpha (s : list Z) : Prop := isalpha (cat s 0) = false.
Lemma awordscan_name w r : is_name w -> no_alpha r -> awordscan (w ++ r) 128 = (w, r).
Proof. intros (_ & Hw & Hl) Hr. apply span_all; [done|by left|lia]. Qed.
Lemma starts_name w r : is_name w -> starts (w ++ r).
Proof.
  intros (H & Hw & _). destruct w as [|c w]; [done|]. cbn [forallb] in Hw. apply andb_prop in Hw as [Hc _].
  unfold starts, isblank, SP, TAB, isalpha, isupper, islower in *. cbn [app]. rewrite cat_0.
  rewrite orb_true_iff, !andb_true_iff, !Z.leb_le in Hc. by rewrite !(proj2 (Z.eqb_neq _ _)) by lia.
Qed.

Lemma wday_name l w : l = Wdays \/ l = WDays -> 0 <= w < 7 -> exists s, name_at l w = Some s /\ is_name s.
Proof.
  intros Hl H. assert (w = 0 \/ w = 1 \/ w = 2 \/ w = 3 \/ w = 4 \/ w = 5 \/ w = 6) as Hw by lia.
  destruct Hl as [-> | ->]; destruct_or! Hw; subst w; eexists; (split; [reflexivity|]); unfold is_name; split_and!; first [done|cbn; lia].
Qed.
Lemma month_name m : 0 <= m < 12 -> exists s, name_at Month m = Some s /\ is_name s /\ montoi s = m.
Proof.
  intros H. assert (m = 0 \/ m = 1 \/ m = 2 \/ m = 3 \/ m = 4 \/ m = 5 \/ m = 6 \/ m = 7 \/ m = 8 \/ m = 9 \/ m = 10 \/ m = 11)
    as Hm by lia.
  destruct_or! Hm; subst m; eexists; (split; [reflexivity|]); unfold is_name; split_and!; first [done|cbn; lia].
Qed.

(** The name of a zone at the end. *)
Definition is_zone (z : list Z) : Prop :=
  z <> [] /\ forallb (fun c => negb (is_wsp c)) z = true /\ (length z <= 10)%nat.
Lemma skip_wsp_no z : forallb (fun c => negb (is_wsp c)) z = true -> skip_wsp z = z.
Proof. destruct z as [|c z]; [done|]. cbn. intros [Hc _]%andb_prop. by destruct (is_wsp c). Qed.
Lemma wordScan_zone z : is_zone z -> wordScan z 128 = (z, []).
Proof.
  intros (_ & Hz & Hl). unfold wordScan. rewrite skip_wsp_no by done.
  rewrite <- (app_nil_r z) at 1. apply span_all; [done|by right|lia].
Qed.
Lemma starts_zone z : is_zone z -> starts z.
Proof.
  intros (Hne & Hz & _). destruct z as [|c z]; [done|]. cbn in Hz. apply andb_prop in Hz as [Hc _].
  unfold starts, isblank, is_wsp, SP, TAB in *. rewrite cat_0. by destruct (c =? 32), (c =? 9).
Qed.

(** ** Steps of the scanner *)

Section steps.
Context (n : nat) (fp : list Z) (f : scan).
Lemma scan_blank sp : starts sp -> scanf_loop (S n) (32 :: fp) f (32 :: sp) = scanf_loop n fp f sp.
Proof using Type.
  intros H. cbn. f_equal. destruct sp as [|c sp]; [done|]. unfold starts, isblank in H. rewrite cat_0 in H. cbn. by rewrite H.
Qed.
Lemma scan_blank0 sp : starts sp -> scanf_loop (S n) (32 :: fp) f sp = scanf_loop n fp f sp.
Proof using Type.
  intros H. cbn. f_equal. destruct sp as [|c sp]; [done|]. unfold starts, isblank in H. rewrite cat_0 in H. cbn. by rewrite H.
Qed.
Lemma scan_lit c sp : c <> 32 -> c <> 9 -> c <> 37 -> scanf_loop (S n) (c :: fp) f (c :: sp) = scanf_loop n fp f sp.
Proof using Type.
  intros H1 H2 H3. cbn [scanf_loop]. unfold SP, TAB. rewrite !(proj2 (Z.eqb_neq _ _)) by done. cbn [orb negb].
  by rewrite cat_0, Z.eqb_refl.
Qed.
Lemma scan_stop c sp : c <> 32 -> c <> 9 -> c <> 37 -> cat sp 0 <> c -> scanf_loop (S n) (c :: fp) f sp = Some f.
Proof using Type.
  intros H1 H2 H3 H. cbn [scanf_loop]. unfold SP, TAB. rewrite !(proj2 (Z.eqb_neq c _)) by done. cbn [orb negb].
  by rewrite (proj2 (Z.eqb_neq _ _) H).
Qed.
Lemma scan_conv_step c sp : scanf_loop (S n) (37 :: c :: fp) f sp =
  match scan_conv c f sp with Some (f, sp) => scanf_loop n fp f sp | None => Some f end.
Proof using Type. done. Qed.
Lemma scan_name c w sp : c = 65 \/ c = 97 -> is_name w -> no_alpha sp ->
  scanf_loop (S n) (37 :: c :: fp) f (w ++ sp) = scanf_loop n fp f sp.
Proof using Type.
  intros Hc Hw Hs. rewrite scan_conv_step. replace (scan_conv c f (w ++ sp)) with (Some (f, (awordscan (w ++ sp) 128).2))
    by (by destruct Hc as [-> | ->]). by rewrite awordscan_name.
Qed.
Lemma scan_mon w sp : is_name w -> no_alpha sp ->
  scanf_loop (S n) (37 :: 98 :: fp) f (w ++ sp) = scanf_loop n fp (put_mon f (montoi w)) sp.
Proof using Type.
  intros Hw Hs. rewrite scan_conv_step.
  replace (scan_conv 98 f (w ++ sp)) with (let '(sym, sp) := awordscan (w ++ sp) 128 in Some (put_mon f (montoi sym), sp))
    by done. by rewrite awordscan_name.
Qed.
Lemma scan_mon_none sp : no_alpha sp ->
  scanf_loop (S n) (37 :: 98 :: fp) f sp = scanf_loop n fp (put_mon f (-1)) sp.
Proof using Type.
  intros Hs. rewrite scan_conv_step.
  replace (scan_conv 98 f sp) with (let '(sym, sp) := awordscan sp 128 in Some (put_mon f (montoi sym), sp)) by done.
  unfold awordscan. change sp with ([] ++ sp). rewrite span_all by (done || (by left) || cbn; lia). done.
Qed.
Lemma scan_hour_none sp : no_digit sp ->
  scanf_loop (S n) (37 :: 72 :: fp) f sp = scanf_loop n fp (put_hour f 0) sp.
Proof using Type.
  intros Hs. rewrite scan_conv_step. replace (scan_conv 72 f sp) with (set_num put_hour f sp) by done.
  unfold set_num, scanint. destruct sp as [|c sp]; [done|]. unfold no_digit in Hs. rewrite cat_0 in Hs.
  cbn [scanint_loop]. by rewrite Hs.
Qed.
Lemma scan_num c put k sp : (c, put) ∈ [(100, put_mday); (72, put_hour); (77, put_min); (83, put_sec)] ->
  0 <= k < 100 -> no_digit sp -> scanf_loop (S n) (37 :: c :: fp) f (two k ++ sp) = scanf_loop n fp (put f k) sp.
Proof using Type.
  intros Hc Hk Hs. rewrite scan_conv_step. replace (scan_conv c f (two k ++ sp)) with (set_num put f (two k ++ sp)).
  - unfold set_num. by rewrite scanint_two.
  - apply elem_of_cons in Hc as [[= -> ->]|Hc]; [done|]. apply elem_of_cons in Hc as [[= -> ->]|Hc]; [done|].
    apply elem_of_cons in Hc as [[= -> ->]|Hc]; [done|]. by apply list_elem_of_singleton in Hc as [= -> ->].
Qed.
(** A year of which [k] is what is written. *)
Lemma scan_year c s k sp : c = 121 \/ c = 89 -> f_partial f = false -> scanint (s ++ sp) = (k, sp) ->
  scanf_loop (S n) (37 :: c :: fp) f (s ++ sp) = scanf_loop n fp (put_yyp (put_year f (year2internal k))
    (if isdigit (cat (s ++ sp) 0) && (atoi (s ++ sp) <? 200) then Some (s ++ sp) else f_yyp f)) sp.
Proof using Type.
  intros Hc Hp Hs.
  rewrite scan_conv_step. replace (scan_conv c f (s ++ sp)) with
    (let f := if isdigit (cat (s ++ sp) 0) && (atoi (s ++ sp) <? 200) then put_yyp f (Some (s ++ sp)) else f in
     let '(year, sp) := scanint (s ++ sp) in
     if f_partial f && (c =? 89) && (1 <=? year) && (year <=? 31) then Some (put_year f (-1), sp)
     else Some (put_year f (year2internal year), sp)) by (by destruct Hc as [-> | ->]).
  rewrite Hs. destruct f, (_ && _); cbn in Hp |- *; by rewrite Hp.
Qed.
Lemma scan_zone z : is_zone z ->
  scanf_loop (S n) (37 :: 122 :: fp) f z = scanf_loop n fp (put_zone f z (f_localzone f)) [].
Proof using Type.
  intros Hz. rewrite scan_conv_step. replace (scan_conv 122 f z) with
    (let '(zone, sp) := wordScan z 128 in Some (put_zone f zone (f_localzone f), sp)) by done.
  by rewrite wordScan_zone.
Qed.
End steps.

(** ** Steps of the printer *)

Section out.
Context (gmtm : tm -> Z) (now : Z) (t : tm) (u : Z) (z : list Z).
Lemma out_lit n c fp : c <> 37 ->
  Strftime_loop gmtm now (S n) (c :: fp) t u z = (s ← Strftime_loop gmtm now n fp t u z; Some (c :: s)).
Proof using Type. intros H. cbn [Strftime_loop]. by rewrite (proj2 (Z.eqb_neq _ _) H). Qed.
Lemma out_conv n c fp : (c =? 46) || isdigit c = false ->
  Strftime_loop gmtm now (S n) (37 :: c :: fp) t u z =
  (x ← conv gmtm now c [] t u z; s ← Strftime_loop gmtm now n fp t u z; Some (x ++ s)).
Proof using Type. intros H. cbn [Strftime_loop span]. rewrite H. done. Qed.
Lemma out_name n c l w fp : (c, l) ∈ [(97, Wdays); (65, WDays)] -> name_at l (tm_wday t) = Some w ->
  Strftime_loop gmtm now (S n) (37 :: c :: fp) t u z = (s ← Strftime_loop gmtm now n fp t u z; Some (w ++ s)).
Proof using Type.
  intros Hc E. apply elem_of_cons in Hc as [[= -> ->]|Hc]; [|apply list_elem_of_singleton in Hc as [= -> ->]];
    rewrite out_conv by done.
  - change (conv gmtm now 97 [] t u z) with (name_at Wdays (tm_wday t)). by rewrite E.
  - change (conv gmtm now 65 [] t u z) with (name_at WDays (tm_wday t)). by rewrite E.
Qed.
Lemma out_mon n w fp : name_at Month (tm_mon t) = Some w ->
  Strftime_loop gmtm now (S n) (37 :: 98 :: fp) t u z = (s ← Strftime_loop gmtm now n fp t u z; Some (w ++ s)).
Proof using Type.
  intros E. rewrite out_conv by done. change (conv gmtm now 98 [] t u z) with (name_at Month (tm_mon t)). by rewrite E.
Qed.
Lemma out_num n c k fp : (c, k) ∈ [(100, tm_mday t); (72, tm_hour t); (77, tm_min t); (121, cyear (tm_year t))] ->
  0 <= k < 100 ->
  Strftime_loop gmtm now (S n) (37 :: c :: fp) t u z = (s ← Strftime_loop gmtm now n fp t u z; Some (two k ++ s)).
Proof using Type.
  intros Hc Hk. apply sprint02d_two in Hk. rewrite !elem_of_cons in Hc.
  destruct Hc as [[= -> ->]|[[= -> ->]|[[= -> ->]|[[= -> ->]|Hc]]]]; [..|by apply elem_of_nil in Hc];
    rewrite out_conv by done;
    [change (conv gmtm now 100 [] t u z) with (sprint02d (tm_mday t))|
     change (conv gmtm now 72 [] t u z) with (sprint02d (tm_hour t))|
     change (conv gmtm now 77 [] t u z) with (sprint02d (tm_min t))|
     change (conv gmtm now 121 [] t u z) with (sprint02d (cyear (tm_year t)))]; by rewrite Hk.
Qed.
Lemma out_sec n fp : 0 <= tm_sec t < 100 ->
  Strftime_loop gmtm now (S n) (37 :: 83 :: fp) t u z = (s ← Strftime_loop gmtm now n fp t u z; Some (two (tm_sec t) ++ s)).
Proof using Type.
  intros Hk%sprint02d_two. rewrite out_conv by done.
  change (conv gmtm now 83 [] t u z) with (s ← sprint02d (tm_sec t); Some s). by rewrite Hk.
Qed.
Lemma out_text n c x fp : (c, x) ∈ [(122, z); (89, fmt_d (tm_year t + 1900))] ->
  Strftime_loop gmtm now (S n) (37 :: c :: fp) t u z = (s ← Strftime_loop gmtm now n fp t u z; Some (x ++ s)).
Proof using Type.
  intros Hc. apply elem_of_cons in Hc as [[= -> ->]|Hc]; [|apply list_elem_of_singleton in Hc as [= -> ->]];
    by rewrite out_conv by done.
Qed.
Lemma out_end n : Strftime_loop gmtm now n [] t u z = Some [].
Proof using Type. by destruct n. Qed.
End out.

(** A member of an explicit list. *)
Ltac in_list := repeat (apply elem_of_cons; first [left; reflexivity|right]).

(** Replaces formats by their characters. *)
Ltac formats :=
  let f1 := eval vm_compute in TIMEFORM_RFC822 in
  let f2 := eval vm_compute in TIMEFORM_RFC850 in
  let f3 := eval vm_compute in TIMEFORM_ANSI_C in
  change TIMEFORM_RFC822 with f1 in *; change TIMEFORM_RFC850 with f2 in *; change TIMEFORM_ANSI_C with f3 in *.

(** ** Dates *)

Lemma year_full y : 0 <= y -> year2internal (y + 1900) = y.
Proof.
  intros H. unfold year2internal. rewrite (proj2 (Z.ltb_ge (y + 1900) 70)), andb_false_r, (proj2 (Z.leb_le 1900 _)) by lia. lia.
Qed.
Lemma year_short y : 70 <= y < 170 -> year2internal (cyear y) = y.
Proof.
  intros H. unfold year2internal, cyear. rewrite Z.rem_mod_nonneg by lia. pose proof (Z.mod_pos_bound y 100 ltac:(lia)).
  rewrite (proj2 (Z.leb_le 0 _)) by lia. cbn [andb]. destruct (Z.ltb_spec (y mod 100) 70); [|rewrite (proj2 (Z.leb_gt 1900 _)) by lia];
    Z.to_euclidean_division_equations; lia.
Qed.

Section dates.
Context (localtime : Z -> option tm) (gmtm : tm -> Z) (now : Z).
Context (t : tm) (u : Z) (z : list Z).
Hypothesis Ht : valid_tm t.
Hypothesis Hw : 0 <= tm_wday t < 7.
Hypothesis Hz : is_zone z.

(** The texts, with the names of the day and of the month. *)
Definition hms (r : list Z) : list Z :=
  two (tm_hour t) ++ 58 :: two (tm_min t) ++ 58 :: two (tm_sec t) ++ 32 :: r.
Definition text822 (w mo : list Z) : list Z :=
  w ++ 44 :: 32 :: two (tm_mday t) ++ 32 :: mo ++ 32 :: fmt_d (tm_year t + 1900) ++ 32 :: hms z.
Definition text850 (w mo : list Z) : list Z :=
  w ++ 44 :: 32 :: two (tm_mday t) ++ 45 :: mo ++ 45 :: two (cyear (tm_year t)) ++ 32 :: hms z.
Definition textansi (w mo : list Z) : list Z :=
  w ++ 32 :: mo ++ 32 :: two (tm_mday t) ++ 32 :: hms (fmt_d (tm_year t + 1900)).

Lemma fields_ok : 0 <= tm_mday t < 100 /\ 0 <= tm_hour t < 100 /\ 0 <= tm_min t < 100 /\ 0 <= tm_sec t < 100 /\
  0 <= cyear (tm_year t) < 100 /\ 0 <= tm_year t + 1900 < 2 ^ 31 /\ 0 <= tm_mon t < 12.
Proof using Ht.
  destruct Ht as ([Hy Hm] & Hd & Hh & Hmi & Hs). unfold cyear. rewrite Z.rem_mod_nonneg by lia.
  pose proof (Z.mod_pos_bound (tm_year t) 100).
  assert (month_days (lp (yix t)) (mix t) <= 31).
  { generalize (mix t). intros m. do 12 (destruct m as [|m]; [by destruct (lp _)|]). by destruct m. }
  lia.
Qed.

Lemma write_dates : exists w w2 mo, is_name w /\ is_name w2 /\ is_name mo /\ montoi mo = tm_mon t /\
  Strftime0 gmtm now TIMEFORM_RFC822 t u z = Some (text822 w mo) /\
  Strftime0 gmtm now TIMEFORM_RFC850 t u z = Some (text850 w2 mo) /\
  Strftime0 gmtm now TIMEFORM_ANSI_C t u z = Some (textansi w mo).
Proof using Ht Hw.
  destruct fields_ok as (Hd & Hh & Hmi & Hs & Hcy & _ & Hm).
  destruct (wday_name Wdays (tm_wday t) ltac:(by left) Hw) as (w & Ew & Nw).
  destruct (wday_name WDays (tm_wday t) ltac:(by right) Hw) as (w2 & Ew2 & Nw2).
  destruct (month_name (tm_mon t) Hm) as (mo & Emo & Nmo & Imo).
  exists w, w2, mo. split_and!; try done; formats; unfold Strftime0;
    rewrite (proj2 (Z.ltb_ge (tm_mon t) 0)), (proj2 (Z.leb_gt 12 (tm_mon t))) by lia; cbn [orb];
    rewrite (proj2 (Z.ltb_ge (tm_wday t) 0)), (proj2 (Z.leb_gt 7 (tm_wday t))) by lia;
    cbn [orb length];
    repeat first
      [rewrite out_lit by done | rewrite (out_name _ _ _ _ _ _ 97 Wdays w) by (exact Ew || in_list)
      |rewrite (out_name _ _ _ _ _ _ 65 WDays w2) by (exact Ew2 || in_list) | rewrite (out_mon _ _ _ _ _ _ mo) by done
      |rewrite (out_num _ _ _ _ _ _ _ (tm_mday t)) by (done || in_list)
      |rewrite (out_num _ _ _ _ _ _ _ (tm_hour t)) by (done || in_list)
      |rewrite (out_num _ _ _ _ _ _ _ (tm_min t)) by (done || in_list)
      |rewrite (out_num _ _ _ _ _ _ _ (cyear (tm_year t))) by (done || in_list)
      |rewrite out_sec by done | rewrite (out_text _ _ _ _ _ _ _ z) by in_list
      |rewrite (out_text _ _ _ _ _ _ _ (fmt_d (tm_year t + 1900))) by in_list | rewrite out_end];
    cbn [mbind option_bind app]; rewrite ?app_nil_r; done.
Qed.

(** What was read of all fields. *)
Definition read_all (f : scan) (zone : list Z) : Prop :=
  f_zone f = zone /\
  f_year f = tm_year t /\ f_mon f = tm_mon t /\ f_mday f = tm_mday t /\ f_hour f = tm_hour t /\ f_min f = tm_min t /\
  f_sec f = tm_sec t /\ f_localzone f = false /\ f_partial f = false.
Lemma scan_done stime fmt f zone : scanf_loop (length fmt) fmt scan0 stime = Some f -> read_all f zone ->
  scanftime localtime stime fmt = Some (civil t + zone_shift zone).
Proof using Ht.
  intros E (<- & Ey & Emo & Ed & Eh & Emi & Es & El & Ep). unfold scanftime, scanftimeX. rewrite E. cbn [mbind option_bind].
  pose proof Ht as ([Hy Hm] & Hd & Hh & Hmi & Hs). unfold complete. rewrite Ep. cbn [andb].
  rewrite Ey, Emo, Ed, Eh, Emi, Es, !(proj2 (Z.ltb_ge _ _)) by lia. cbn [orb]. rewrite El, Ey, Emo, Ed, Eh, Emi, Es.
  rewrite (Timegm_civil (Tm _ _ _ _ _ _ _ _)) by done. cbn [mbind option_bind].
  replace (civil (Tm _ _ _ _ _ _ _ _)) with (civil t) by done.
  pose proof (valid_civil t Ht) as Hc. rewrite (proj2 (Z.leb_le 0 (civil t))) by lia. cbn [andb].
  destruct (bool_decide_reflect (f_zone f = [])) as [-> |]; [|done]. cbn [negb].
  change (zone_shift []) with 0. by rewrite Z.add_0_r.
Qed.
(** A text that does not have the month or the year. *)
Lemma scan_fail stime fmt f : scanf_loop (length fmt) fmt scan0 stime = Some f -> f_partial f = false ->
  f_mon f < 0 \/ f_year f < 0 -> scanftime localtime stime fmt = Some (-1).
Proof using Type.
  intros E Ep H. unfold scanftime, scanftimeX. rewrite E. cbn [mbind option_bind]. unfold complete. rewrite Ep. cbn [andb].
  destruct H as [H|H]; rewrite (proj2 (Z.ltb_lt _ 0) H); by rewrite ?orb_true_r.
Qed.

Ltac scan_side := first [done | apply starts_two; lia | by apply starts_name | by apply starts_zone | apply starts_fmt_d; lia | in_list].
Ltac scan_steps :=
  cbn [length]; repeat first
    [ rewrite scan_lit by done | rewrite scan_blank by scan_side
    | rewrite scan_name by (done || in_list || auto) | rewrite scan_mon by done
    | rewrite (scan_num _ _ _ 100 put_mday) by (in_list || done) | rewrite (scan_num _ _ _ 72 put_hour) by (in_list || done)
    | rewrite (scan_num _ _ _ 77 put_min) by (in_list || done) | rewrite (scan_num _ _ _ 83 put_sec) by (in_list || done)
    | rewrite scan_zone by done ].

Lemma year_pos : 0 <= tm_year t.
Proof using Ht. destruct Ht as ([? _] & _). lia. Qed.

Lemma read_822 w mo : is_name w -> is_name mo -> montoi mo = tm_mon t ->
  scanftime localtime (text822 w mo) TIMEFORM_RFC822 = Some (civil t + zone_shift z).
Proof using Ht Hz.
  intros Hw1 Hmo Em. destruct fields_ok as (Hd & Hh & Hmi & Hs & Hcy & Hy & Hm).
  eapply scan_done.
  - formats. unfold text822, hms. scan_steps.
    rewrite (scan_year _ _ _ 89 (fmt_d (tm_year t + 1900)) (tm_year t + 1900)) by
      first [by right|done|apply scanint_fmt_d; [lia|done]].
    scan_steps. cbn [scanf_loop]. reflexivity.
  - split_and!; try done. apply year_full, year_pos.
Qed.
Lemma read_850 w mo : is_name w -> is_name mo -> montoi mo = tm_mon t -> tm_year t < 170 ->
  scanftime localtime (text850 w mo) TIMEFORM_RFC850 = Some (civil t + zone_shift z).
Proof using Ht Hz.
  intros Hw1 Hmo Em H170. destruct fields_ok as (Hd & Hh & Hmi & Hs & Hcy & Hy & Hm).
  eapply scan_done.
  - formats. unfold text850, hms. scan_steps.
    rewrite (scan_year _ _ _ 121 (two (cyear (tm_year t))) (cyear (tm_year t))) by
      first [by left|done|apply scanint_two; [lia|done]].
    scan_steps. cbn [scanf_loop]. reflexivity.
  - split_and!; try done. apply year_short. destruct Ht as ([? _] & _). lia.
Qed.
Lemma read_ansi w mo : is_name w -> is_name mo -> montoi mo = tm_mon t ->
  scanftime localtime (textansi w mo) TIMEFORM_ANSI_C = Some (civil t).
Proof using Ht.
  intros Hw1 Hmo Em. destruct fields_ok as (Hd & Hh & Hmi & Hs & Hcy & Hy & Hm).
  rewrite <- (Z.add_0_r (civil t)). change 0 with (zone_shift []). eapply scan_done.
  - formats. unfold textansi, hms. scan_steps. rewrite <- (app_nil_r (fmt_d (tm_year t + 1900))).
    scan_steps.
    rewrite (scan_year _ _ _ 89 (fmt_d (tm_year t + 1900)) (tm_year t + 1900)) by
      first [by right|done|apply scanint_fmt_d; [lia|done]].
    cbn [scanf_loop]. reflexivity.
  - split_and!; try done. apply year_full, year_pos.
Qed.

(** The formats that are tried before. *)
Lemma skip_850_822 w mo : is_name w -> is_name mo ->
  scanftime localtime (text850 w mo) TIMEFORM_RFC822 = Some (-1).
Proof using Ht.
  intros Hw1 Hmo. destruct fields_ok as (Hd & Hh & Hmi & Hs & Hcy & Hy & Hm).
  eapply scan_fail.
  - formats. unfold text850, hms. scan_steps.
    rewrite scan_blank0, scan_mon_none, scan_blank0 by done.
    match goal with |- scanf_loop _ _ _ ?sp = _ => change sp with ([] ++ sp) end.
    rewrite (scan_year _ _ _ 89 [] 0) by first [by right|done].
    rewrite scan_blank0, scan_hour_none, scan_stop by done. reflexivity.
  - done.
  - by left.
Qed.
Lemma skip_ansi w mo fmt : is_name w -> is_name mo -> fmt = TIMEFORM_RFC822 \/ fmt = TIMEFORM_RFC850 ->
  scanftime localtime (textansi w mo) fmt = Some (-1).
Proof using Ht.
  intros Hw1 Hmo Hf. apply (scan_fail _ _ scan0); [|done|by right].
  destruct Hf as [-> | ->]; formats; unfold textansi, hms; cbn [length];
    rewrite scan_name by (done || auto); by rewrite scan_stop by done.
Qed.

Lemma forms_hit s fmt fmts c : scanftime localtime s fmt = Some c -> 0 <= c ->
  scan_forms localtime s (fmt :: fmts) = Some c.
Proof using Type. intros E Hc. cbn [scan_forms]. rewrite E. cbn [mbind option_bind]. by rewrite (proj2 (Z.leb_le 0 c) Hc). Qed.
Lemma forms_miss s fmt fmts : scanftime localtime s fmt = Some (-1) ->
  scan_forms localtime s (fmt :: fmts) = scan_forms localtime s fmts.
Proof using Type. intros E. cbn [scan_forms]. by rewrite E. Qed.

(** A date of the calendar that [Strftime0] writes with the name of a
    zone in a format of HTTP (for RFC 850, which has two digits of the year,
    until 2069) is read by [scanHTTPtime], which tries the formats in turn, as
    the clock of the date, moved by what the zone says; the format without a
    zone is read without. *)
Lemma http_date_read : exists s1 s2 s3,
  Strftime0 gmtm now TIMEFORM_RFC822 t u z = Some s1 /\
  Strftime0 gmtm now TIMEFORM_RFC850 t u z = Some s2 /\
  Strftime0 gmtm now TIMEFORM_ANSI_C t u z = Some s3 /\
  (0 <= civil t + zone_shift z ->
   scanHTTPtime localtime s1 = Some (civil t + zone_shift z) /\
   (tm_year t < 170 -> scanHTTPtime localtime s2 = Some (civil t + zone_shift z))) /\
  scanHTTPtime localtime s3 = Some (civil t).
Proof using Ht Hw Hz.
  destruct write_dates as (w & w2 & mo & Nw & Nw2 & Nmo & Em & E1 & E2 & E3).
  exists (text822 w mo), (text850 w2 mo), (textansi w mo). split_and!; [done..| |].
  - intros Hc. unfold scanHTTPtime. split; [by apply forms_hit; [apply read_822|]|]. intros H170.
    rewrite forms_miss by by apply skip_850_822. by apply forms_hit; [apply read_850|].
  - unfold scanHTTPtime. do 2 rewrite forms_miss by (apply skip_ansi; auto).
    apply forms_hit; [by apply read_ansi|]. apply (valid_civil t Ht).
Qed.
End dates.

(** ** Zones *)

Lemma zone_text h : 0 <= h <= 12 ->
  is_zone ([43] ++ fmt_04 (h * 100)) /\ zone_shift ([43] ++ fmt_04 (h * 100)) = - (3600 * h).
Proof.
  intros H. assert (h = 0 \/ h = 1 \/ h = 2 \/ h = 3 \/ h = 4 \/ h = 5 \/ h = 6 \/ h = 7 \/ h = 8 \/ h = 9 \/ h = 10 \/ h = 11 \/ h = 12)
    as E by lia. clear H.
  destruct_or! E; subst h; unfold is_zone; split_and!; first [done|by vm_compute|vm_compute; lia].
Qed.

Section zones.
Context (localtime gmtime : Z -> option tm) (h : Z).
Context {LT : LocalTime localtime (3600 * h)} {GT : LocalTime gmtime 0}.
Hypothesis Hh : -12 <= h <= 12.

Lemma same_time_iff o : -12 <= o <= 12 ->
  same_time (localtime (24 * 3600)) (gmtime (24 * 3600 + o * 3600)) = (o =? h).
Proof using LT GT Hh.
  intros Ho. assert (86400 * 3 < END) by by compute.
  destruct (lt_tm (LocalTime := LT) (24 * 3600)) as (t1 & -> & V1 & E1 & W1); [lia|].
  destruct (lt_tm (LocalTime := GT) (24 * 3600 + o * 3600)) as (t2 & -> & V2 & E2 & W2); [lia|].
  unfold same_time. destruct (tmcmp_sign t1 t2 V1 V2) as [[Hc Hl]|[[Hc [Hl _]]|[Hc Hl]]].
  - rewrite (proj2 (Z.eqb_neq (tmcmp t1 t2) 0)) by lia. cbn [andb]. symmetry. apply Z.eqb_neq. lia.
  - rewrite Hc. cbn [Z.eqb andb]. rewrite W1, W2. replace (24 * 3600 + o * 3600 + 0) with (24 * 3600 + 3600 * h) by lia.
    rewrite Z.eqb_refl. symmetry. apply Z.eqb_eq. lia.
  - rewrite (proj2 (Z.eqb_neq (tmcmp t1 t2) 0)) by lia. cbn [andb]. symmetry. apply Z.eqb_neq. lia.
Qed.
Lemma gmtoff_found k : forall o, -12 <= o <= h -> h < o + Z.of_nat k -> gmtoff_loop localtime gmtime k o = Some h.
Proof using LT GT Hh.
  induction k as [|k IH]; intros o Ho Hk; [lia|]. cbn [gmtoff_loop]. rewrite same_time_iff by lia.
  destruct (Z.eqb_spec o h) as [-> |]; [done|]. apply IH; lia.
Qed.
Lemma gmtoff_text : gmtoff localtime gmtime = (if 0 <=? h then [43] else [45]) ++ fmt_04 (h * 100).
Proof using LT GT Hh. unfold gmtoff. by rewrite gmtoff_found by lia. Qed.
(** East of Greenwich the text is the offset. *)
Lemma gmtoff_east : 0 <= h -> is_zone (gmtoff localtime gmtime) /\ zone_shift (gmtoff localtime gmtime) = - (3600 * h).
Proof using LT GT Hh.
  intros H0. rewrite gmtoff_text, (proj2 (Z.leb_le 0 h) H0). apply zone_text. lia.
Qed.

(** C36. In a zone with a constant offset of 0 to 12 whole hours east of
    Greenwich, the date that [StrftimeLocal] writes of a clock from 1970 to 2099 in the formats of
    RFC 822, and until 2069 of RFC 850, with the offset that it finds for the
    zone, is read by [scanHTTPtime] as this clock. *)
Theorem http_date_roundtrip (gmtm : tm -> Z) (now c u : Z) (un : Z * Z) :
  0 <= h -> 0 <= c -> c + 3600 * h < END ->
  exists s1 s2, StrftimeLocal localtime gmtime gmtm now un TIMEFORM_RFC822 c u = Some s1 /\
    scanHTTPtime localtime s1 = Some c /\
    StrftimeLocal localtime gmtime gmtm now un TIMEFORM_RFC850 c u = Some s2 /\
    (c + 3600 * h < ybefore 100 * 86400 -> scanHTTPtime localtime s2 = Some c).
Proof using LT GT Hh.
  intros H0 Hc He. destruct (gmtoff_east H0) as [Hz Hs]. unfold StrftimeLocal.
  rewrite (proj2 (Z.eqb_neq c (-1))) by lia. cbn [andb].
  destruct (lt_tm (LocalTime := LT) c) as (t & -> & V & E & W); [lia|]. cbn [default].
  assert (0 <= tm_wday t < 7) as Hw by (rewrite W; apply Z.mod_pos_bound; lia).
  destruct (http_date_read localtime gmtm now t u (gmtoff localtime gmtime) V Hw Hz) as (s1 & s2 & s3 & E1 & E2 & _ & Hr & _).
  rewrite Hs, E in Hr. replace (c + 3600 * h + - (3600 * h)) with c in Hr by lia. destruct (Hr Hc) as [R1 R2].
  exists s1, s2. split_and!; try done. intros H100. apply R2.
  destruct (decide (tm_year t < 170)) as [|Hge]; [done|]. exfalso. pose proof (year_part t V) as Hp.
  destruct V as ([Hy _] & _ & ? & ? & ?).
  assert (ybefore 100 <= ybefore (yix t)) as Hb.
  { destruct (decide (yix t = 100%nat)) as [-> |Hne]; [done|].
    pose proof (ybefore_lt 100 (yix t) ltac:(unfold yix in *; lia)). assert (0 <= ylen 100) by by compute. lia. }
  unfold civil, daynum in E. lia.
Qed.
End zones.

(** A zone with a constant offset. *)
Lemma shifted_local off : Z.abs off < 86400 -> LocalTime (fun c => utc (c + off)) off.
Proof.
  intros H. split; [done|]. intros c Hc. destruct (lt_tm (LocalTime := utc_local) (c + off)) as (t & E & V & Ec & Ew); [lia|].
  exists t. rewrite Z.add_0_r in *. done.
Qed.
Lemma http_date_roundtrip_witness : exists s1 s2,
  StrftimeLocal (fun c => utc (c + 32400)) utc (fun _ => 0) 0 (0, 0) TIMEFORM_RFC822 1700000000 0 = Some s1 /\
    scanHTTPtime (fun c => utc (c + 32400)) s1 = Some 1700000000 /\
    StrftimeLocal (fun c => utc (c + 32400)) utc (fun _ => 0) 0 (0, 0) TIMEFORM_RFC850 1700000000 0 = Some s2 /\
    (1700000000 + 3600 * 9 < ybefore 100 * 86400 -> scanHTTPtime (fun c => utc (c + 32400)) s2 = Some 1700000000).
Proof.
  apply (http_date_roundtrip (fun c => utc (c + 32400)) utc 9 (LT := shifted_local 32400 ltac:(lia)) ltac:(lia)
    (fun _ => 0) 0 1700000000 0 (0, 0)); [lia|lia|by compute].
Defined.

(** ** Other dates *)

(** West of Greenwich the sign is written twice, and the date is read as one
    of another time. *)
Lemma west_date : gmtoff (fun c => utc (c + -18000)) utc = cs "--500" /\
  (s ← StrftimeLocal (fun c => utc (c + -18000)) utc (fun _ => 0) 0 (0, 0) TIMEFORM_RFC822 1700000000 0;
   scanHTTPtime utc s) = Some (1700000000 - 36000).
Proof. split; by vm_compute. Qed.
(** Where the offset is not of whole hours, it is written as none, and 13
    hours are used for the conversions of the program's own. *)
Lemma half_hour : gmtoff (fun c => utc (c + 19800)) utc = cs "+0000" /\
  gmtoff_secs (fun c => utc (c + 19800)) utc = 13 * 3600.
Proof. split; by vm_compute. Qed.
(** The zone of a date is not used by [scanTime]. *)
Lemma scanTime_zone : scanTime utc utc 0 (cs "Tue, 14 Nov 2023 22:13:20 +0900") =
  scanTime utc utc 0 (cs "Tue, 14 Nov 2023 22:13:20 GMT").
Proof. by vm_compute. Qed.
(** A date in the last of the formats of news is read as none. *)
Lemma scanNNTPtime_slash : scanNNTPtime utc (cs "12/11/2023") = Some (-1).
Proof. by vm_compute. Qed.
(** A day of the week out of range changes the month. *)
Lemma Strftime_wday : Strftime0 (fun _ => 0) 0 (cs "%b") (Tm 0 0 0 1 5 124 7 0) 0 [] = Some (cs "Jan").
Proof. done. Qed.
(** Seven pairs and a half are seven pairs. *)
Lemma scanYmdHMS_half gmtm : scanYmdHMS_GMT gmtm (cs "202311142213205") = scanYmdHMS_GMT gmtm (cs "20231114221320").
Proof. done. Qed.
