(* ===== verification/Sched.v ===== *)
(** * The scheduler ([rary/sched.cpp])

    [CRON] rules are compiled to a vector of lists, one for each unit of
    time; [sched_eval] causes the actions that are due and returns the time of
    the next one.  [localtime] of the C library is an argument, and so are the
    results of the actions and the time they take. *)
From S2P Require Import Prelude VStr Strings Text ScanList ListOps Clock.
From stdpp Require Import options.

(** ** Units of time *)

Definition CSEC : nat := 0.
Definition SEC : nat := 1.
Definition MiN : nat := 2.
Definition HOUR : nat := 3.
Definition MDAY : nat := 4.
Definition MON : nat := 5.
Definition YEAR : nat := 6.
Definition WDAY : nat := 7.

Definition turange : list (Z * Z) :=
  [(0, 99); (0, 59); (0, 59); (0, 23); (1, 31); (1, 12); (0, 128); (0, 6)].
Definition ut_min (ti : nat) : Z := (nth ti turange (0, 0)).1.
Definition ut_max (ti : nat) : Z := (nth ti turange (0, 0)).2.

(** [Tunit]: fields of 8 bits. *)
Record tunit := Tunit { t_fmt : Z; t_inc : Z }.
Definition TMU_EVERY : Z := 255.
Definition TMU_INC : Z := 254.

(** [c_tfv[ti]] is the list of the units of [ti]; its length is [CNTF]. *)
Record cronent := CronEnt {
  c_cronspec : list Z; c_timespec : list Z; c_tfv : list (list tunit);
  c_nexttime : Z; c_prevtime : Z; c_prevcode : Z; c_relative : bool;
  c_maxtime : Z; c_action : list Z }.
Definition units (cep : cronent) (ti : nat) : list tunit := nth ti (c_tfv cep) [].
Definition CFMT (cep : cronent) (ti : nat) : Z := t_fmt (nth 0 (units cep ti) (Tunit 0 0)).
Definition CINC (cep : cronent) (ti : nat) : Z := t_inc (nth 0 (units cep ti) (Tunit 0 0)).

(** [st_left] is [c_relative] of the entry behind the last one, which a rule
    with an error may have set. *)
Record crontab := CronTab { st_cronvec : list cronent; st_nexttime : Z; st_left : bool }.
Definition sched_create : crontab := CronTab [] 0 false.

(** ** Reading rules *)

(** [scan_timeform2]: the fields of time, for [CSEC] to [WDAY], and the
    action. *)
Definition scan_timeform2 (cronspec : list Z) : option (list (list Z) * list Z) :=
  let tfx := stoV 8 cronspec 58 in
  let f i := nth i tfx [] in
  if 7 <? zlen tfx
  then Some ([cs "0"; f 6; f 5; f 4; f 3; f 2; f 1; f 0]%nat, f 7%nat)
  else
    let tfx := stoV 6 cronspec SP in
    let f i := nth i tfx [] in
    if zlen tfx <? 5 then None
    else Some ([cs "0"; cs "0"; f 0; f 1; f 2; f 3; cs "*"; f 4]%nat, f 5%nat).

(** [timeunit1]: one element of a field, appended to the units; the flag says
    that it is relative. *)
Definition timeunit1 (ti : nat) (mac : Z) (acc : list tunit * bool) (tf1 : list Z)
  : (list tunit * bool) * Z :=
  let '(tuv1, rel) := acc in
  let u :=
    if cat tf1 0 =? 43 then
      let inc := atoi (tl tf1) in
      Some (TMU_INC, if inc =? 0 then 1 else inc, true)
    else if bool_decide (tf1 = []) || bool_decide (tf1 = cs "*") then Some (TMU_EVERY, 1, rel)
    else
      let fmt := if Nat.eqb ti WDAY && negb (isdigit (cat tf1 0)) then wdaytoi tf1 else atoi tf1 in
      if (fmt <? ut_min ti) || (ut_max ti <? fmt) then None else Some (fmt, 0, rel) in
  match u with
  | None => ((tuv1, rel), -1)
  | Some (fmt, inc, rel) =>
      if mac <=? zlen tuv1 + 1 then ((tuv1, rel), -1)
      else ((tuv1 ++ [Tunit (uchar fmt) (uchar inc)], rel), 0)
  end.
Definition scan_units (ti : nat) (mac : Z) (rel : bool) (tf : list Z) : (list tunit * bool) * Z :=
  match scan_ListX (fun acc e _ => timeunit1 ti mac acc e) false false tf COMMA ([], rel) with
  | Some (acc, rcode, _) => (acc, rcode)
  | None => (([], rel), -1)
  end.

(** [@timespec]: [scan_timeform1] makes the canonical form of it; [None]
    where it leaves its result as it was, uninitialised. *)
Definition tm_unit (c : Z) : option nat :=
  if c =? 67 then Some CSEC else if c =? 83 then Some SEC else if c =? 77 then Some MiN
  else if c =? 72 then Some HOUR else if c =? 100 then Some MDAY else if c =? 109 then Some WDAY
  else if c =? 121 then Some YEAR else None.
Definition tmform1 (tuv : list (list tunit)) (tfm : list Z) : list (list tunit) * Z :=
  match tm_unit (cat tfm 0) with
  | None => (tuv, -1)
  | Some ti =>
      let '((u, _), _) := timeunit1 ti 64 (nth ti tuv [], false) (tl tfm) in (<[ti := u]> tuv, 0)
  end.
Definition put_units (us : list tunit) : list Z :=
  match us with
  | [] => [42]
  | u :: _ =>
      if t_fmt u =? TMU_EVERY then [42]
      else if t_fmt u =? TMU_INC then 43 :: fmt_d (t_inc u)
      else concat (match map (fun u => fmt_d (t_fmt u)) us with
                   | [] => [] | x :: l => x :: map (cons COMMA) l end)
  end.
Definition scan_timeform1 (cronspec : list Z) : option (list Z) :=
  let rest := seek (fun c => (c =? 58) || (c =? SP) || (c =? TAB)) cronspec in
  match scan_ListX (fun tuv e _ => tmform1 tuv e) false false (before cronspec rest) COMMA (repeat [] 8) with
  | Some (tuv, 0, _) =>
      Some (concat (map (fun ti => put_units (nth ti tuv []) ++ [58]) [7; 6; 5; 4; 3; 2; 1]%nat) ++ tl rest)
  | _ => None
  end.

Section sched.
Context (localtime : Z -> option tm).

(** The time values of [CSEC] to [WDAY] for a clock. *)
Definition base_time (clock : Z) : option (list Z) :=
  v ← fromclockLocal localtime clock;
  let f i := nth i v 0 in Some (0 :: [f 6; f 5; f 4; f 3; f 2; f 1; f 0]%nat).
Definition vat (v : list Z) (ti : nat) : Z := nth ti v 0.
Definition clock_of (v : list Z) : option Z :=
  toclockLocal localtime (vat v YEAR) (vat v MON) (vat v MDAY) (vat v HOUR) (vat v MiN) (vat v SEC).

(** The last time that a rule can give. *)
Definition last_unit (ti : nat) (us : list tunit) : Z :=
  fold_left (fun mx u => if (t_fmt u =? TMU_EVERY) || (t_fmt u =? TMU_INC) then ut_max ti
                         else Z.max mx (t_fmt u)) us (ut_min ti).
Definition lasttime (tfv : list (list tunit)) : option Z :=
  clock_of (map (fun ti => last_unit ti (nth ti tfv [])) (seq 0 7)).

(** The rest of [sched_append] for the fields of time: the vectors, or the
    error; and whether the rule is relative. *)
Fixpoint append_units (ti : nat) (rel : bool) (tf : list (list Z)) (tfv : list (list tunit))
  : (list (list tunit) * bool) * Z :=
  match tf with
  | [] => ((tfv, rel), 0)
  | f :: tf =>
      let '((us, rel), rcode) := scan_units ti 100 rel f in
      if negb (rcode =? 0) then ((tfv, rel), rcode) else append_units (S ti) rel tf (tfv ++ [us])
  end.

(** [sched_append]: [None] where it reads what was not initialised. *)
Definition sched_append (Cron : crontab) (cronspec : list Z) : option (crontab * Z) :=
  if existsb (fun c => if strstr cronspec (c_cronspec c) then true else false) (st_cronvec Cron)
  then Some (Cron, 0)
  else
    spec ← (if cat cronspec 0 =? 64 then scan_timeform1 (tl cronspec) else Some cronspec);
    match scan_timeform2 spec with
    | None => Some (Cron, -1)
    | Some (tf, action) =>
        let '((tfv, rel), rcode) := append_units 0 (st_left Cron) tf [] in
        if negb (rcode =? 0)
        then Some (CronTab (st_cronvec Cron) (st_nexttime Cron) rel, rcode)
        else
          let f i := nth i tf [] in
          let timespec := f WDAY ++ concat (map (fun ti => 58 :: f ti) [YEAR; MON; MDAY; HOUR; MiN; SEC]) in
          last ← lasttime tfv;
          let cep := CronEnt spec timespec tfv 0 0 0 rel last action in
          Some (CronTab (st_cronvec Cron ++ [cep]) (st_nexttime Cron) false, 0)
    end.

(** ** The next time of a rule *)

(** [vcmp(v1,v2,n)], with [k] for [n+1]. *)
Fixpoint vcmp (v1 v2 : list Z) (k : nat) : Z :=
  match k with
  | O => 0
  | S i => let d := vat v1 i - vat v2 i in if d =? 0 then vcmp v1 v2 i else d
  end.

(** [nearest1] over the units [tus]; [gt] is [0 < vcmp(ot,bt,ti-1)]. *)
Definition OUTRANGE : Z := 1000.
Fixpoint nearest1 (xtu bu : Z) (gt : bool) (tus : list Z) (smaller larger : Z) : Z :=
  match tus with
  | tu :: tus =>
      if (tu =? bu) && gt then tu
      else nearest1 xtu bu gt tus (if (tu <? bu) && (tu <? smaller) then tu else smaller)
                    (if (bu <? tu) && (tu <? larger) then tu else larger)
  | [] => if negb (larger =? OUTRANGE) then larger
          else if negb (smaller =? OUTRANGE) then smaller else xtu
  end.

Definition nearestWdayMday (cep : cronent) (bt ot : list Z) : Z :=
  let cwday := vat bt WDAY in
  let gt := 0 <? vcmp ot bt (S HOUR) in
  let mn := fold_left (fun mn u =>
    let nday := if (cwday <? t_fmt u) || ((cwday =? t_fmt u) && gt) then t_fmt u - cwday
                else 7 - (cwday - t_fmt u) in
    if nday <? mn then nday else mn) (units cep WDAY) 8 in
  if mn =? 8 then 0 else mn.

(** The loop for [lastcarry] counts up, to [ti] at most, where the carry has
    just been set. *)
Definition reset_lowerorder (ti : nat) (cep : cronent) (ot : list Z) (carry : list bool) : list Z :=
  let lastcarry := if nth (ti - 1) carry false then (ti - 1)%nat else ti in
  fold_left (fun ot tj =>
    let tu := CFMT cep tj in
    if tu =? TMU_EVERY then <[tj := ut_min tj]> ot
    else if tu =? TMU_INC then
      if (CFMT cep ti =? TMU_INC) || negb (Nat.eqb lastcarry tj) then <[tj := ut_min tj]> ot else ot
    else <[tj := tu]> ot) (seq 0 ti) ot.

Definition calc1 (cep : cronent) (bt it : list Z) (st : list Z * list bool) (ti : nat)
  : list Z * list bool :=
  let '(ot, carry) := st in
  let tu := CFMT cep ti in
  let gt := 0 <? vcmp ot bt ti in
  let o :=
    if (tu =? TMU_EVERY) || (tu =? TMU_INC) then
      if (vat it ti =? 0) && gt then vat bt ti
      else
        let next := vat bt ti + Z.max (CINC cep ti) (vat it ti) in
        if next <=? ut_max ti then next else next - ut_max ti - 1 + ut_min ti
    else nearest1 tu (vat bt ti) gt (map t_fmt (units cep ti)) OUTRANGE OUTRANGE in
  let ot := <[ti := o]> ot in
  if negb (o =? vat bt ti)
  then let carry := <[ti := true]> carry in (reset_lowerorder ti cep ot carry, carry)
  else (ot, carry).

(** The time that is tried, from the time [bt]. *)
Definition next_vector (cep : cronent) (bt : list Z) : list Z :=
  let it := repeat 0 8 in
  let st := fold_left (calc1 cep bt it) [CSEC; SEC; MiN; HOUR] (repeat 0 8, repeat false 8) in
  let it := if (CFMT cep MDAY =? TMU_EVERY) && negb (CFMT cep WDAY =? TMU_EVERY)
            then <[MDAY := nearestWdayMday cep bt st.1]> it else it in
  (fold_left (calc1 cep bt it) [MDAY; MON; YEAR] st).1.

Definition set_nexttime (cep : cronent) (next : Z) : cronent :=
  CronEnt (c_cronspec cep) (c_timespec cep) (c_tfv cep) next (c_prevtime cep) (c_prevcode cep)
    (c_relative cep) (c_maxtime cep) (c_action cep).

(** [calc_nexttime]: [None] when [fuel] calls do not suffice, or when there
    is no local time. *)
Fixpoint calc_nexttime (fuel : nat) (cep : cronent) (now prev : Z) : option (cronent * Z) :=
  match fuel with
  | O => None
  | S fuel =>
      if c_maxtime cep <? now then Some (cep, 0)
      else
        let base := if (now <? prev) || (negb (prev =? 0) && c_relative cep) then prev else now in
        bt ← base_time base;
        next ← clock_of (next_vector cep bt);
        let every := CFMT cep SEC =? TMU_EVERY in
        if next =? prev then
          if every then Some (set_nexttime cep (next + 1), next + 1)
          else calc_nexttime fuel cep (next + 1) (next + 1)
        else if next <=? now then
          if every then Some (set_nexttime cep (now + 1), now + 1)
          else calc_nexttime fuel cep now now
        else Some (set_nexttime cep next, next)
  end.

(** ** The evaluation *)

Definition FARFUTURE : Z := 2147483647.

(** A call of the action: its text, and the time and the result of the
    previous one. *)
Record acall := ACall { a_action : list Z; a_prevtime : Z; a_prevcode : Z }.

Definition due (now : Z) (cep : cronent) : bool :=
  negb (c_nexttime cep =? 0) && (c_nexttime cep <=? now).

(** The first loop; [answers] are the results of the actions in order. *)
Fixpoint cause (now : Z) (vec : list cronent) (answers : list Z) : list cronent * list acall :=
  match vec with
  | [] => ([], [])
  | cep :: vec =>
      if due now cep then
        let '(v, calls) := cause now vec (tl answers) in
        (CronEnt (c_cronspec cep) (c_timespec cep) (c_tfv cep) 0 (c_nexttime cep) (cat answers 0)
           (c_relative cep) (c_maxtime cep) (c_action cep) :: v,
         ACall (c_action cep) (c_prevtime cep) (c_prevcode cep) :: calls)
      else let '(v, calls) := cause now vec answers in (cep :: v, calls)
  end.

(** The second loop: [next] is an [int], and so is [nx1]. *)
Fixpoint reschedule (fuel : nat) (now : Z) (vec : list cronent) (next : Z) : option (list cronent * Z) :=
  match vec with
  | [] => Some ([], next)
  | cep :: vec =>
      '(cep, nx1) ← (if now <? c_nexttime cep then Some (cep, s32 (c_nexttime cep))
                     else '(cep, nx) ← calc_nexttime fuel cep now (c_prevtime cep); Some (cep, s32 nx));
      '(vec, next) ← reschedule fuel now vec (if (now <=? nx1) && (nx1 <? next) then nx1 else next);
      Some (cep :: vec, next)
  end.

(** [sched_eval]: the table, what is returned, and the calls; [elapsed] is the
    time that the actions took. *)
Definition sched_eval (fuel : nat) (Cron : crontab) (now elapsed : Z) (answers : list Z)
  : option (crontab * Z * list acall) :=
  match st_cronvec Cron with
  | [] => Some (Cron, -1, [])
  | _ =>
      if now <? st_nexttime Cron then Some (Cron, st_nexttime Cron, [])
      else
        let '(vec, calls) := cause now (st_cronvec Cron) answers in
        let now := now + elapsed in
        '(vec, next) ← reschedule fuel now vec FARFUTURE;
        if (next =? FARFUTURE) || (next <? now)
        then Some (CronTab vec (st_nexttime Cron) (st_left Cron), -1, calls)
        else Some (CronTab vec next (st_left Cron), next, calls)
  end.
End sched.
