(* ===== verification/SchedSpec.v ===== *)
(** * When rules are due

    A rule for the seconds, minutes and hours of every day is due next at the
    first time behind now that is in it ([daily_next]).  The arithmetic goes
    unit by unit, as in the code: the value of a unit and of the ones below
    it is the next one in the rule, or the first one with a carry. *)
From Stdlib Require Import Sorted.
From S2P Require Import Prelude VStr Strings Text ScanList ListOps Clock ClockSpec Sched.
From stdpp Require Import options.

(** ** One unit *)

Definition EVERY1 : list tunit := [Tunit TMU_EVERY 1].
Definition ok_list (ti : nat) (us : list tunit) : Prop :=
  us <> [] /\ StronglySorted Z.lt (map t_fmt us) /\
  Forall (fun u => ut_min ti <= t_fmt u <= ut_max ti) us.
Definition ok_unit (ti : nat) (us : list tunit) : Prop := us = EVERY1 \/ ok_list ti us.
(** The value [u] is in the unit of the rule. *)
Definition in_unit (ti : nat) (us : list tunit) (u : Z) : Prop :=
  ut_min ti <= u <= ut_max ti /\ (us = EVERY1 \/ u ∈ map t_fmt us).

(** The value that [calc1] gives a unit that is not relative. *)
Definition step1 (ti : nat) (us : list tunit) (bu : Z) (gt : bool) : Z :=
  let tu := t_fmt (nth 0 us (Tunit 0 0)) in
  if tu =? TMU_EVERY
  then if gt then bu
       else let next := bu + t_inc (nth 0 us (Tunit 0 0)) in
            if next <=? ut_max ti then next else next - ut_max ti - 1 + ut_min ti
  else nearest1 tu bu gt (map t_fmt us) OUTRANGE OUTRANGE.

(** The next value behind [b] in [P], or the first one if [gt] is false. *)
Definition next_in (P : Z -> Prop) (b r : Z) (gt : bool) : Prop :=
  P r /\
  (gt = true -> b < r /\ forall x, P x -> b < x -> r <= x) /\
  (gt = false -> (forall x, P x -> x <= b) /\ forall x, P x -> r <= x).

Definition least (P : Z -> Prop) (m : Z) : Prop := P m /\ forall x, P x -> m <= x.

Lemma nearest1_gt xtu bu l : forall sm la, bu ∈ l -> nearest1 xtu bu true l sm la = bu.
Proof.
  induction l as [|u l IH]; intros sm la Hin; [by apply elem_of_nil in Hin|]. cbn [nearest1].
  destruct (Z.eqb_spec u bu) as [-> |Hne]; [done|]. cbn [andb]. apply IH.
  apply elem_of_cons in Hin as [E|Hin]; [congruence|done].
Qed.

(** Without [bu] to stop at, the loop finds the least larger value and the
    least smaller one. *)
Lemma nearest1_scan xtu bu gt l : (gt = true -> bu ∉ l) -> Forall (fun u => u < OUTRANGE) l ->
  forall sm la, sm <= OUTRANGE -> la <= OUTRANGE -> exists sm' la',
  nearest1 xtu bu gt l sm la =
    (if negb (la' =? OUTRANGE) then la' else if negb (sm' =? OUTRANGE) then sm' else xtu) /\
  (forall u, u ∈ l -> bu < u -> la' <= u) /\ la' <= la /\ (la' = la \/ la' ∈ l /\ bu < la') /\
  (forall u, u ∈ l -> u < bu -> sm' <= u) /\ sm' <= sm /\ (sm' = sm \/ sm' ∈ l /\ sm' < bu).
Proof.
  intros Hg Hl. induction Hl as [|u l Hu Hl IH]; intros sm la Hs Ha.
  - exists sm, la. split_and!; try done; try lia; try (intros u Hin; by apply elem_of_nil in Hin); by left.
  - cbn [nearest1]. assert (((u =? bu) && gt) = false) as ->.
    { destruct gt; [|by rewrite andb_false_r]. destruct (Z.eqb_spec u bu) as [-> |]; [|done].
      exfalso. by apply Hg; [|constructor]. }
    destruct (IH ltac:(intros E Hin; by apply Hg; [|constructor])
      (if (u <? bu) && (u <? sm) then u else sm) (if (bu <? u) && (u <? la) then u else la)) as
      (sm' & la' & E & H1 & H2 & H3 & H4 & H5 & H6); [by destruct (_ && _); lia|by destruct (_ && _); lia|].
    exists sm', la'. split; [done|].
    destruct (Z.ltb_spec bu u), (Z.ltb_spec u la), (Z.ltb_spec u bu), (Z.ltb_spec u sm); cbn [andb] in *;
      (split_and!; [intros x [-> |Hx]%elem_of_cons Hb; [lia|by apply H1]|lia| |
        intros x [-> |Hx]%elem_of_cons Hb; [lia|by apply H4]|lia|]);
      (destruct H3 as [-> |[H3 H3']]; [|right; split; [by constructor|done]]) ||
      (destruct H6 as [-> |[H6 H6']]; [|right; split; [by constructor|done]]); try (by left);
      right; (split; [by constructor|lia]).
Qed.

(** The units of the code that are used here. *)
Definition sane (ti : nat) : Prop := ut_min ti < ut_max ti < TMU_INC.

Lemma ok_list_not_every ti us : sane ti -> ok_list ti us -> us <> EVERY1.
Proof.
  intros Hs (_ & _ & Hr) ->. apply Forall_cons in Hr as [Hu _]. cbn in Hu. unfold sane, TMU_INC in Hs.
  unfold TMU_EVERY in Hu. lia.
Qed.

Lemma ok_list_in ti us u : sane ti -> ok_list ti us -> in_unit ti us u <-> u ∈ map t_fmt us.
Proof.
  intros Hs Hok. pose proof (ok_list_not_every ti us Hs Hok) as Hne. destruct Hok as (_ & _ & Hr). split.
  - by intros [_ [E|H]].
  - intros H. split; [|by right]. apply list_elem_of_fmap in H as (x & -> & Hx).
    rewrite Forall_forall in Hr. by apply Hr.
Qed.

Lemma ok_list_least ti us : sane ti -> ok_list ti us ->
  least (in_unit ti us) (t_fmt (nth 0 us (Tunit 0 0))).
Proof.
  intros Hs Hok. assert (forall u, in_unit ti us u <-> u ∈ map t_fmt us) as Hin by (intros; by apply ok_list_in).
  destruct Hok as (H0 & Hso & _). destruct us as [|u us]; [done|]. cbn [nth map] in *. split.
  - apply Hin. by constructor.
  - intros x Hx. apply Hin, elem_of_cons in Hx as [-> |Hx]; [lia|].
    apply StronglySorted_inv in Hso as [_ Hso]. rewrite Forall_forall in Hso. specialize (Hso x Hx). lia.
Qed.

Lemma step1_spec ti us bu gt : sane ti -> ok_unit ti us -> ut_min ti <= bu <= ut_max ti ->
  let o := step1 ti us bu gt in
  in_unit ti us o /\
  (gt = true /\ in_unit ti us bu /\ o = bu \/
   ~ (gt = true /\ in_unit ti us bu) /\
   (bu < o /\ (forall u, in_unit ti us u -> bu < u -> o <= u) \/
    (forall u, in_unit ti us u -> u <= bu) /\ (forall u, in_unit ti us u -> o <= u))).
Proof.
  intros Hs Hok Hb o. destruct Hok as [-> |Hok].
  - unfold o, step1. cbn [nth EVERY1 t_fmt t_inc]. rewrite Z.eqb_refl. unfold sane in Hs.
    destruct gt; [split; [by split; [|left]|]; left; split_and!; [done|by split; [|left]|done]|].
    destruct (Z.leb_spec (bu + 1) (ut_max ti)).
    + split; [split; [lia|by left]|]. right. split; [by intros [? _]|]. left. split; [lia|]. intros; lia.
    + split; [split; [lia|by left]|]. right. split; [by intros [? _]|]. right. split; intros u [Hu _]; lia.
  - assert (forall u, in_unit ti us u <-> u ∈ map t_fmt us) as Hin by (intros; by apply ok_list_in).
    pose proof (ok_list_least ti us Hs Hok) as [Hl1 Hl2].
    destruct Hok as (H0 & _ & Hr). set (tu := t_fmt (nth 0 us (Tunit 0 0))) in *.
    assert ((tu =? TMU_EVERY) = false) as E by (apply Z.eqb_neq; destruct Hl1 as [Hl1 _]; unfold sane, TMU_INC, TMU_EVERY in *; lia).
    unfold o, step1. fold tu. rewrite E. clear E o.
    destruct (decide (gt = true /\ bu ∈ map t_fmt us)) as [[-> Hbu]|Hno].
    + rewrite nearest1_gt by done. split; [by apply Hin|]. left. by rewrite Hin.
    + destruct (nearest1_scan tu bu gt (map t_fmt us) ltac:(intros E ?; by apply Hno)
        ltac:(rewrite Forall_map; eapply Forall_impl; [exact Hr|]; intros u Hu; cbv beta in Hu;
              unfold sane, TMU_INC, OUTRANGE in *; cbn; lia) OUTRANGE OUTRANGE ltac:(lia) ltac:(lia))
        as (sm & la & -> & H1 & _ & H2 & H3 & _ & H4).
      assert (~ (gt = true /\ in_unit ti us bu)) as Hno' by (by rewrite Hin).
      assert (forall u, in_unit ti us u -> u < OUTRANGE) as Hlt
        by (intros u [Hu _]; unfold sane, TMU_INC, OUTRANGE in *; lia).
      destruct (Z.eqb_spec la OUTRANGE) as [Ela|Ela]; cbn [negb].
      * assert (forall u, in_unit ti us u -> u <= bu) as Hle.
        { intros u Hu. destruct (decide (bu < u)); [|lia]. apply Hlt in Hu as Hu'.
          apply Hin in Hu. specialize (H1 u Hu ltac:(done)). lia. }
        destruct (Z.eqb_spec sm OUTRANGE) as [Esm|Esm]; cbn [negb].
        -- split; [done|]. right. split; [done|]. right. by split.
        -- destruct H4 as [|[Hsm Hsb]]; [done|]. split; [by apply Hin|]. right. split; [done|]. right. split; [done|].
           intros u Hu. destruct (decide (u < bu)); [by apply H3; [apply Hin|]|]. specialize (Hle u Hu). lia.
      * destruct H2 as [|[Hla Hlb]]; [done|]. split; [by apply Hin|]. right. split; [done|]. left. split; [done|].
        intros u Hu Hbu. by apply H1; [apply Hin|].
Qed.

(** ** A unit above others *)

(** [x] with its high part in [U] and its low part in [P]. *)
Definition two (W : Z) (U P : Z -> Prop) (x : Z) : Prop := U (x / W) /\ P (x mod W).

Lemma split_W W q m : 0 <= m < W -> (q * W + m) / W = q /\ (q * W + m) mod W = m.
Proof.
  intros Hm. split.
  - rewrite Z.add_comm, Z.div_add, Z.div_small by lia. lia.
  - rewrite Z.add_comm, Z.mod_add, Z.mod_small by lia. done.
Qed.

Lemma two_least W U P u m : (forall x, P x -> 0 <= x < W) -> least U u -> least P m -> least (two W U P) (u * W + m).
Proof.
  intros HW [Hu1 Hu2] [Hm1 Hm2]. pose proof (HW m Hm1) as Hm. split.
  - unfold two. by destruct (split_W W u m Hm) as [-> ->].
  - intros x [Hx1 Hx2]. apply Hu2 in Hx1. pose proof (HW _ Hx2). apply Hm2 in Hx2.
    rewrite (Z.div_mod x W) by lia. nia.
Qed.

Lemma next_digit W ti us P bu bl r gt m :
  sane ti -> ok_unit ti us -> ut_min ti <= bu <= ut_max ti ->
  (forall x, P x -> 0 <= x < W) -> 0 <= bl < W -> least P m -> next_in P bl r gt ->
  let o := step1 ti us bu gt in
  let low := if o =? bu then r else m in
  let b := bu * W + bl in
  next_in (two W (in_unit ti us) P) b (o * W + low) (b <? o * W + low).
Proof.
  intros Hs Hok Hb HP Hbl Hm (Hr & Hg & Hng). cbv zeta. set (U := in_unit ti us).
  destruct (step1_spec ti us bu gt Hs Hok Hb) as [Ho Hcase]. fold U in Ho, Hcase. cbv zeta in *.
  set (o := step1 ti us bu gt) in *. destruct Hm as [Hm1 Hm2].
  pose proof (HP r Hr) as Hrr. pose proof (HP m Hm1) as Hmm.
  assert (forall x, two W U P x -> x = x / W * W + x mod W /\ 0 <= x mod W < W) as Hx.
  { intros x [_ H]. split; [rewrite Z.mul_comm; apply Z.div_mod; lia|by apply HP]. }
  unfold next_in.
  destruct Hcase as [(Hgt & Hbu & Eo)|(Hno & [(Hlt & Hleast)|(Hmax & Hmin)])].
  - rewrite Eo, Z.eqb_refl. destruct (Hg Hgt) as [Hg1 Hg2].
    rewrite (proj2 (Z.ltb_lt _ _)) by lia. split.
    + unfold two. destruct (split_W W bu r Hrr) as [-> ->]. by split.
    + split; [|done]. intros _. split; [lia|]. intros x Hx1 Hx2. destruct (Hx x Hx1) as [Ex Hxm].
      destruct Hx1 as [Hx1 Hxp]. destruct (Z.lt_trichotomy (x / W) bu) as [?|[?|?]]; [nia| |nia].
      assert (bl < x mod W) by nia. specialize (Hg2 _ Hxp ltac:(done)). nia.
  - rewrite (proj2 (Z.eqb_neq o bu)) by lia. rewrite (proj2 (Z.ltb_lt _ _)) by nia. split.
    + unfold two. destruct (split_W W o m Hmm) as [-> ->]. by split.
    + split; [|done]. intros _. split; [nia|]. intros x Hx1 Hx2. destruct (Hx x Hx1) as [Ex Hxm].
      destruct Hx1 as [Hx1 Hxp]. destruct (Z.lt_trichotomy (x / W) bu) as [?|[E|?]]; [nia| |].
      * exfalso. apply Hno. rewrite <- E. split; [|done]. destruct gt; [done|].
        destruct (Hng eq_refl) as [Hng1 _]. specialize (Hng1 _ Hxp). nia.
      * specialize (Hleast _ Hx1 ltac:(done)). specialize (Hm2 _ Hxp). nia.
  - assert (forall x, two W U P x -> x <= bu * W + bl) as Hnone.
    { intros x Hx1. destruct (Hx x Hx1) as [Ex Hxm]. destruct Hx1 as [Hx1 Hxp].
      specialize (Hmax _ Hx1) as Hle. destruct (decide (x / W = bu)) as [E|]; [|nia].
      destruct gt; [exfalso; apply Hno; by rewrite <- E|]. destruct (Hng eq_refl) as [Hng1 _].
      specialize (Hng1 _ Hxp). nia. }
    assert (two W U P (o * W + (if o =? bu then r else m))) as Hin.
    { unfold two. destruct (o =? bu); [destruct (split_W W o r Hrr) as [-> ->]|destruct (split_W W o m Hmm) as [-> ->]];
        by split. }
    rewrite (proj2 (Z.ltb_ge _ _)) by by apply Hnone. split; [done|]. split; [done|]. intros _. split; [done|].
    intros x Hx1. destruct (Hx x Hx1) as [Ex Hxm]. destruct Hx1 as [Hx1 Hxp]. specialize (Hmin _ Hx1).
    destruct (Z.eqb_spec o bu) as [E|E].
    + assert (gt = false) as Egt by (destruct gt; [|done]; exfalso; apply Hno; by rewrite <- E).
      destruct (Hng Egt) as [_ Hng2]. specialize (Hng2 _ Hxp). nia.
    + specialize (Hm2 _ Hxp). nia.
Qed.

(** ** The units of a rule *)

Definition first (ti : nat) (us : list tunit) : Z :=
  let tu := t_fmt (nth 0 us (Tunit 0 0)) in if tu =? TMU_EVERY then ut_min ti else tu.

Lemma first_least ti us : sane ti -> ok_unit ti us -> least (in_unit ti us) (first ti us).
Proof.
  intros Hs [-> |Hok]; unfold first.
  - cbn [nth EVERY1 t_fmt]. rewrite Z.eqb_refl. unfold sane in Hs. split; [split; [lia|by left]|intros x [Hx _]; lia].
  - pose proof (ok_list_least ti us Hs Hok) as Hl. destruct Hl as [[Hr Hl1] Hl2].
    rewrite (proj2 (Z.eqb_neq _ TMU_EVERY)) by (unfold sane, TMU_INC, TMU_EVERY in *; lia). by split; [split|].
Qed.

Lemma ok_unit_not_inc ti us : sane ti -> ok_unit ti us -> t_fmt (nth 0 us (Tunit 0 0)) <> TMU_INC.
Proof.
  intros Hs [-> |Hok]; [by cbn|]. pose proof (ok_list_least ti us Hs Hok) as [[Hl _] _].
  unfold sane in Hs. lia.
Qed.

Section rule.
Context (cep : cronent).
Hypothesis Hunits : forall ti, (ti < 8)%nat -> ok_unit ti (units cep ti).

Lemma sane_all ti : (ti < 8)%nat -> sane ti.
Proof using Type. intros H. do 8 (destruct ti as [|ti]; [by compute|]). lia. Qed.

Definition firsts (ti : nat) (ot : list Z) : list Z :=
  fold_left (fun ot tj => <[tj := first tj (units cep tj)]> ot) (seq 0 ti) ot.

Lemma reset_firsts ti ot carry : (ti < 8)%nat -> reset_lowerorder ti cep ot carry = firsts ti ot.
Proof using Hunits.
  intros Hti. unfold reset_lowerorder, firsts. set (last := if nth (ti - 1) carry false then _ else _).
  assert (forall l, Forall (fun tj => (tj < 8)%nat) l -> forall ot,
    fold_left (fun (ot : list Z) tj =>
      let tu := CFMT cep tj in
      if tu =? TMU_EVERY then <[tj := ut_min tj]> ot
      else if tu =? TMU_INC
      then if (CFMT cep ti =? TMU_INC) || negb (Nat.eqb last tj) then <[tj := ut_min tj]> ot else ot
      else <[tj := tu]> ot) l ot =
    fold_left (fun (ot : list Z) tj => <[tj := first tj (units cep tj)]> ot) l ot) as H.
  { induction 1 as [|tj l Htj _ IH]; intros o; [done|]. cbn [fold_left]. rewrite IH. f_equal.
    unfold first. fold (CFMT cep tj). cbv zeta. destruct (CFMT cep tj =? TMU_EVERY) eqn:E; [done|].
    rewrite (proj2 (Z.eqb_neq (CFMT cep tj) TMU_INC)); [done|].
    apply (ok_unit_not_inc tj); [by apply sane_all|by apply Hunits]. }
  apply H. apply Forall_forall. intros x Hx. apply elem_of_seq in Hx. lia.
Qed.

Lemma calc1_step bt it ot carry ti : (ti < 8)%nat -> vat it ti = 0 ->
  calc1 cep bt it (ot, carry) ti =
  let o := step1 ti (units cep ti) (vat bt ti) (0 <? vcmp ot bt ti) in
  if o =? vat bt ti then (<[ti := o]> ot, carry)
  else (firsts ti (<[ti := o]> ot), <[ti := true]> carry).
Proof using Hunits.
  intros Hti Hit. unfold calc1. cbv zeta. set (gt := 0 <? vcmp ot bt ti).
  assert ((if (CFMT cep ti =? TMU_EVERY) || (CFMT cep ti =? TMU_INC)
    then if (vat it ti =? 0) && gt then vat bt ti
         else if vat bt ti + Z.max (CINC cep ti) (vat it ti) <=? ut_max ti
              then vat bt ti + Z.max (CINC cep ti) (vat it ti)
              else vat bt ti + Z.max (CINC cep ti) (vat it ti) - ut_max ti - 1 + ut_min ti
    else nearest1 (CFMT cep ti) (vat bt ti) gt (map t_fmt (units cep ti)) OUTRANGE OUTRANGE) =
    step1 ti (units cep ti) (vat bt ti) gt) as ->.
  { pose proof (Hunits ti Hti) as Hok. pose proof (ok_unit_not_inc ti _ (sane_all ti Hti) Hok) as Hni.
    fold (CFMT cep ti) in Hni. rewrite (proj2 (Z.eqb_neq _ TMU_INC)) by done. rewrite orb_false_r, Hit.
    unfold step1. fold (CFMT cep ti). destruct (CFMT cep ti =? TMU_EVERY) eqn:E; [|done].
    destruct Hok as [Hok|Hok].
    - unfold CINC. rewrite Hok. cbn [nth EVERY1 t_inc]. by change (Z.max 1 0) with 1.
    - exfalso. apply Z.eqb_eq in E. pose proof (ok_list_least ti _ (sane_all ti Hti) Hok) as [[Hl _] _].
      fold (CFMT cep ti) in Hl. pose proof (sane_all ti Hti) as Hs. unfold sane, TMU_INC, TMU_EVERY in *. lia. }
  destruct (_ =? vat bt ti); [done|]. cbn [negb]. by rewrite reset_firsts.
Qed.

(** *** Seconds, minutes and hours *)

Definition times : Z -> Prop :=
  two 3600 (in_unit HOUR (units cep HOUR))
    (two 60 (in_unit MiN (units cep MiN)) (two 1 (in_unit SEC (units cep SEC)) (eq 0))).
Definition enc (h m s : Z) : Z := h * 3600 + (m * 60 + (s * 1 + 0)).

Lemma enc_lt W bu bl o low : 0 <= bl < W -> 0 <= low < W ->
  (bu * W + bl <? o * W + low) = if o =? bu then bl <? low else bu <? o.
Proof using Type. intros H1 H2. zcases; nia. Qed.

Hypothesis Hcsec : units cep CSEC = [Tunit 0 0].

Lemma first_0 : first 0%nat (units cep 0%nat) = 0.
Proof using Hcsec. fold CSEC. by rewrite Hcsec. Qed.

Lemma range1 x : two 1 (in_unit SEC (units cep SEC)) (eq 0) x -> 0 <= x < 60.
Proof using Type. intros [[H _] _]. rewrite Z.div_1_r in H. cbn in H. lia. Qed.
Lemma range2 x : two 60 (in_unit MiN (units cep MiN)) (two 1 (in_unit SEC (units cep SEC)) (eq 0)) x -> 0 <= x < 3600.
Proof using Type.
  intros [[H _] H2%range1]. cbn in H. pose proof (Z.div_mod x 60). lia.
Qed.

Definition L1 := first SEC (units cep SEC).
Definition L2 := first MiN (units cep MiN).
Definition L3 := first HOUR (units cep HOUR).
Lemma least1 : least (two 1 (in_unit SEC (units cep SEC)) (eq 0)) (L1 * 1 + 0).
Proof using Hunits.
  apply two_least; [intros x <-; lia| |by split; [|intros; lia]].
  apply first_least; [apply sane_all; by compute; lia|apply Hunits; unfold SEC; lia].
Qed.
Lemma least2 : least (two 60 (in_unit MiN (units cep MiN)) (two 1 (in_unit SEC (units cep SEC)) (eq 0)))
  (L2 * 60 + (L1 * 1 + 0)).
Proof using Hunits.
  apply two_least; [apply range1| |apply least1].
  apply first_least; [apply sane_all|apply Hunits]; unfold MiN; lia.
Qed.
Lemma least3 : least times (enc L3 L2 L1).
Proof using Hunits.
  apply two_least; [apply range2| |apply least2].
  apply first_least; [apply sane_all|apply Hunits]; unfold HOUR; lia.
Qed.

Lemma vcmp_S ot bt k : (0 <? vcmp ot bt (S k)) =
  if vat ot k =? vat bt k then 0 <? vcmp ot bt k else vat bt k <? vat ot k.
Proof using Type. cbn [vcmp]. zcases. Qed.

(** The units of the day of a time: [l1] and [l2] are what is below. *)
Definition dayv (s m h : Z) : list Z := [0; s; m; h; 0; 0; 0; 0].

Lemma calc_csec bt it carry : vat bt CSEC = 0 -> vat it CSEC = 0 ->
  calc1 cep bt it (repeat 0 8, carry) CSEC = (repeat 0 8, carry).
Proof using Hunits Hcsec.
  intros Hb Hi. rewrite calc1_step by (done || unfold CSEC; lia). rewrite Hcsec, Hb. reflexivity.
Qed.

Lemma calc_sec bt it carry : vat bt CSEC = 0 -> vat it SEC = 0 ->
  let o := step1 SEC (units cep SEC) (vat bt SEC) false in
  exists carry', calc1 cep bt it (repeat 0 8, carry) SEC = (dayv o 0 0, carry') /\
  (0 <? vcmp (dayv o 0 0) bt 2) = (vat bt SEC * 1 + 0 <? o * 1 + 0).
Proof using Hunits Hcsec.
  intros Hb Hi o. rewrite calc1_step by (done || unfold SEC; lia).
  replace (0 <? vcmp (repeat 0 8) bt SEC) with false
    by (unfold SEC, CSEC in *; rewrite vcmp_S, Hb; by cbn).
  fold o. cbv zeta. assert (firsts SEC (<[SEC:=o]> (repeat 0 8)) = dayv o 0 0) as E
    by (unfold firsts, SEC; cbn [seq fold_left]; by rewrite first_0).
  exists (if o =? vat bt SEC then carry else <[SEC:=true]> carry).
  split; [by destruct (o =? vat bt SEC); rewrite ?E|].
  rewrite !vcmp_S. clearbody o. unfold vat, dayv, SEC, CSEC in *. cbn [nth vcmp] in *. rewrite Hb. zcases.
Qed.

Lemma calc_min bt it carry s : vat it MiN = 0 ->
  let gt := 0 <? vcmp (dayv s 0 0) bt 2 in
  let o := step1 MiN (units cep MiN) (vat bt MiN) gt in
  let x := if o =? vat bt MiN then s else L1 in
  exists carry', calc1 cep bt it (dayv s 0 0, carry) MiN = (dayv x o 0, carry').
Proof using Hunits Hcsec.
  intros Hi gt o x. rewrite calc1_step by (done || unfold MiN; lia).
  change (0 <? vcmp (dayv s 0 0) bt MiN) with gt. fold o. cbv zeta.
  assert (firsts MiN (<[MiN:=o]> (dayv s 0 0)) = dayv L1 o 0) as E
    by (unfold firsts, MiN; cbn [seq fold_left]; by rewrite first_0).
  unfold x. exists (if o =? vat bt MiN then carry else <[MiN:=true]> carry).
  by destruct (o =? vat bt MiN); rewrite ?E.
Qed.

Lemma calc_hour bt it carry s m : vat it HOUR = 0 ->
  let gt := 0 <? vcmp (dayv s m 0) bt 3 in
  let o := step1 HOUR (units cep HOUR) (vat bt HOUR) gt in
  let c := o =? vat bt HOUR in
  exists carry', calc1 cep bt it (dayv s m 0, carry) HOUR =
    (dayv (if c then s else L1) (if c then m else L2) o, carry').
Proof using Hunits Hcsec.
  intros Hi gt o c. rewrite calc1_step by (done || unfold HOUR; lia).
  change (0 <? vcmp (dayv s m 0) bt HOUR) with gt. fold o. cbv zeta.
  assert (firsts HOUR (<[HOUR:=o]> (dayv s m 0)) = dayv L1 L2 o) as E
    by (unfold firsts, HOUR; cbn [seq fold_left]; by rewrite first_0).
  unfold c. exists (if o =? vat bt HOUR then carry else <[HOUR:=true]> carry).
  by destruct (o =? vat bt HOUR); rewrite ?E.
Qed.

(** The comparison of the vectors is the one of the times of the day. *)
Lemma vcmp_enc bt s m h : vat bt CSEC = 0 -> 0 <= vat bt SEC < 60 -> 0 <= vat bt MiN < 60 ->
  0 <= s < 60 -> 0 <= m < 60 ->
  (0 <? vcmp (dayv s m h) bt 3) = (vat bt MiN * 60 + (vat bt SEC * 1 + 0) <? m * 60 + (s * 1 + 0)) /\
  (0 <? vcmp (dayv s m h) bt 4) = (enc (vat bt HOUR) (vat bt MiN) (vat bt SEC) <? enc h m s).
Proof using Type.
  intros Hb Hs Hm Hs' Hm'. unfold enc, vat, HOUR, MiN, SEC, CSEC, dayv in *.
  assert ((0 <? vcmp [0; s; m; h; 0; 0; 0; 0] bt 3) =
    (nth 2 bt 0 * 60 + (nth 1 bt 0 * 1 + 0) <? m * 60 + (s * 1 + 0))) as E.
  { rewrite enc_lt by lia. rewrite !vcmp_S. unfold vat. cbn [nth vcmp] in *. rewrite Hb. zcases. }
  split; [done|]. rewrite enc_lt by lia. rewrite vcmp_S. unfold vat. cbn [nth]. by rewrite E.
Qed.

(** The time of the day that is next behind the one of [bt], or the first one
    of all. *)
Lemma calc_day bt it : vat bt CSEC = 0 -> 0 <= vat bt SEC < 60 -> 0 <= vat bt MiN < 60 ->
  0 <= vat bt HOUR < 24 -> vat it CSEC = 0 -> vat it SEC = 0 -> vat it MiN = 0 -> vat it HOUR = 0 ->
  exists s m h carry,
    fold_left (calc1 cep bt it) [CSEC; SEC; MiN; HOUR] (repeat 0 8, repeat false 8) = (dayv s m h, carry) /\
    let b := enc (vat bt HOUR) (vat bt MiN) (vat bt SEC) in
    (0 <? vcmp (dayv s m h) bt 4) = (b <? enc h m s) /\ next_in times b (enc h m s) (b <? enc h m s).
Proof using Hunits Hcsec.
  intros Hb0 Hbs Hbm Hbh I0 I1 I2 I3.
  assert (forall ti, (ti < 8)%nat -> sane ti /\ ok_unit ti (units cep ti)) as HU
    by (intros ti Hti; split; [by apply sane_all|by apply Hunits]).
  cbn [fold_left]. rewrite calc_csec by done.
  destruct (calc_sec bt it (repeat false 8) Hb0 I1) as (c1 & -> & G1).
  set (s := step1 SEC (units cep SEC) (vat bt SEC) false) in *.
  pose proof (next_digit 1 SEC (units cep SEC) (eq 0) (vat bt SEC) 0 0 false 0) as D1.
  destruct (HU SEC) as [S1 U1]; [unfold SEC; lia|].
  specialize (D1 S1 U1 ltac:(by cbn; lia) ltac:(intros x <-; lia) ltac:(lia) ltac:(by split; [|intros; lia])).
  cbv zeta in D1. fold s in D1. replace (if s =? vat bt SEC then 0 else 0) with 0 in D1 by (by destruct (_ =? _)).
  rewrite <- G1 in D1.
  specialize (D1 ltac:(by split; [|split; [|split; intros ? <-]])).
  destruct (calc_min bt it c1 s I2) as (c2 & ->).
  set (gt1 := 0 <? vcmp (dayv s 0 0) bt 2) in *.
  set (m := step1 MiN (units cep MiN) (vat bt MiN) gt1) in *.
  set (s2 := if m =? vat bt MiN then s else L1) in *.
  destruct (HU MiN) as [S2 U2]; [unfold MiN; lia|].
  pose proof (next_digit 60 MiN _ _ (vat bt MiN) (vat bt SEC * 1 + 0) (s * 1 + 0) gt1 (L1 * 1 + 0)
    S2 U2 ltac:(by cbn; lia) range1 ltac:(lia) least1 D1) as D2.
  cbv zeta in D2. fold m in D2.
  replace (if m =? vat bt MiN then s * 1 + 0 else L1 * 1 + 0) with (s2 * 1 + 0) in D2 by (unfold s2; by destruct (_ =? _)).
  assert (0 <= s2 < 60 /\ 0 <= m < 60) as [Hs2 Hm].
  { destruct (step1_spec SEC _ (vat bt SEC) false S1 U1 ltac:(by cbn; lia)) as [[Hs _] _]. fold s in Hs.
    destruct (step1_spec MiN _ (vat bt MiN) gt1 S2 U2 ltac:(by cbn; lia)) as [[Hm _] _]. fold m in Hm.
    destruct least1 as [HL%range1 _]. cbn in Hs, Hm. unfold s2. destruct (_ =? _); lia. }
  destruct (vcmp_enc bt s2 m 0 Hb0 Hbs Hbm Hs2 Hm) as [G2 _]. rewrite <- G2 in D2.
  destruct (calc_hour bt it c2 s2 m I3) as (c3 & ->).
  set (gt2 := 0 <? vcmp (dayv s2 m 0) bt 3) in *.
  set (h := step1 HOUR (units cep HOUR) (vat bt HOUR) gt2) in *.
  destruct (HU HOUR) as [S3 U3]; [unfold HOUR; lia|].
  pose proof (next_digit 3600 HOUR _ _ (vat bt HOUR) (vat bt MiN * 60 + (vat bt SEC * 1 + 0))
    (m * 60 + (s2 * 1 + 0)) gt2 (L2 * 60 + (L1 * 1 + 0))
    S3 U3 ltac:(by cbn; lia) range2 ltac:(lia) least2 D2) as D3. cbv zeta in D3. fold h in D3.
  destruct least1 as [HL1%range1 _]. destruct least2 as [[HL2 _] _].
  destruct (split_W 60 L2 (L1 * 1 + 0) HL1) as [E2 _]. rewrite E2 in HL2. destruct HL2 as [HL2 _]. cbn in HL2.
  set (c := h =? vat bt HOUR) in *.
  exists (if c then s2 else L1), (if c then m else L2), h, c3. split; [done|].
  assert (0 <= (if c then s2 else L1) < 60) by (destruct c; lia).
  assert (0 <= (if c then m else L2) < 60) by (destruct c; lia).
  cbv zeta. split; [by apply vcmp_enc|]. unfold enc.
  replace ((if c then m else L2) * 60 + ((if c then s2 else L1) * 1 + 0)) with
    (if c then m * 60 + (s2 * 1 + 0) else L2 * 60 + (L1 * 1 + 0)) by (by destruct c). exact D3.
Qed.

(** *** The date *)

Hypothesis Hdate : forall ti, (MDAY <= ti <= WDAY)%nat -> units cep ti = EVERY1.

(** The vector with the time of day [s], [m], [h] and a date. *)
Definition datev (s m h d mo y : Z) : list Z := [0; s; m; h; d; mo; y; 0].

Lemma calc_date bt it ot carry ti : (MDAY <= ti <= YEAR)%nat -> vat it ti = 0 ->
  exists carry', calc1 cep bt it (ot, carry) ti =
    (let o := step1 ti EVERY1 (vat bt ti) (0 <? vcmp ot bt ti) in
     if o =? vat bt ti then <[ti := o]> ot else firsts ti (<[ti := o]> ot), carry').
Proof using Hunits Hdate.
  unfold MDAY, YEAR. intros Hti Hi. rewrite calc1_step by (done || lia). rewrite Hdate by (unfold MDAY, WDAY; lia).
  cbv zeta. by destruct (_ =? vat bt ti); eexists.
Qed.

Lemma firsts_mon o1 o2 o3 o4 o5 o6 : firsts MON [0; o1; o2; o3; o4; o5; o6; 0] = [0; L1; L2; L3; 1; o5; o6; 0].
Proof using Hdate Hcsec.
  unfold firsts, MON. cbn [seq fold_left]. rewrite first_0, (Hdate 4) by (unfold MDAY, WDAY; lia). done.
Qed.
Lemma firsts_year o1 o2 o3 o4 o5 o6 : firsts YEAR [0; o1; o2; o3; o4; o5; o6; 0] = [0; L1; L2; L3; 1; 1; o6; 0].
Proof using Hdate Hcsec.
  unfold firsts, YEAR. cbn [seq fold_left].
  rewrite first_0, (Hdate 4), (Hdate 5) by (unfold MDAY, WDAY; lia). done.
Qed.
Lemma firsts_mday o1 o2 o3 o4 o5 o6 : firsts MDAY [0; o1; o2; o3; o4; o5; o6; 0] = [0; L1; L2; L3; o4; o5; o6; 0].
Proof using Hdate Hcsec. unfold firsts, MDAY. cbn [seq fold_left]. by rewrite first_0. Qed.

(** The value of a unit of the date. *)
Definition bump (ti : nat) (b : Z) (gt : bool) : Z :=
  if gt then b else if b + 1 <=? ut_max ti then b + 1 else ut_min ti.
Lemma step1_bump ti b gt : b <= ut_max ti -> step1 ti EVERY1 b gt = bump ti b gt.
Proof using Type. intros H. unfold step1, bump. cbn [nth EVERY1 t_fmt t_inc]. rewrite Z.eqb_refl.
  destruct gt; [done|]. zcases; lia.
Qed.
Lemma bump_gt ti b : ut_min ti < ut_max ti -> ut_min ti <= b <= ut_max ti ->
  bump ti b false <> b /\ (b <? bump ti b false) = (b + 1 <=? ut_max ti).
Proof using Type. intros H Hb. unfold bump. zcases; lia. Qed.

(** A unit of the date of which nothing is left to carry. *)
Lemma calc_keep bt ot carry ti : (MDAY <= ti <= YEAR)%nat -> vat bt ti <= ut_max ti ->
  (0 <? vcmp ot bt ti) = true ->
  exists carry', calc1 cep bt (repeat 0 8) (ot, carry) ti = (<[ti := vat bt ti]> ot, carry').
Proof using Hunits Hdate.
  intros Hti Hb Hgt. destruct (calc_date bt (repeat 0 8) ot carry ti Hti) as (c & ->).
  - unfold MDAY, YEAR in Hti. do 8 (destruct ti as [|ti]; [by cbn|]). lia.
  - exists c. rewrite Hgt, step1_bump by done. cbn [bump]. by rewrite Z.eqb_refl.
Qed.

(** One that changes. *)
Lemma calc_bump bt ot carry ti : (MDAY <= ti <= YEAR)%nat -> ut_min ti <= vat bt ti <= ut_max ti ->
  (0 <? vcmp ot bt ti) = false ->
  exists carry', calc1 cep bt (repeat 0 8) (ot, carry) ti = (firsts ti (<[ti := bump ti (vat bt ti) false]> ot), carry').
Proof using Hunits Hdate.
  intros Hti Hb Hgt. destruct (calc_date bt (repeat 0 8) ot carry ti Hti) as (c & ->).
  - unfold MDAY, YEAR in Hti. do 8 (destruct ti as [|ti]; [by cbn|]). lia.
  - exists c. rewrite Hgt, step1_bump by lia. destruct (bump_gt ti (vat bt ti)) as [H _]; [|done|].
    + apply sane_all. unfold YEAR in Hti. lia.
    + cbv zeta. by rewrite (proj2 (Z.eqb_neq _ _) H).
Qed.

(** The date behind one, as the vector has it. *)
Definition tomorrow (d mo y : Z) : Z * Z * Z :=
  if d + 1 <=? 31 then (d + 1, mo, y) else if mo + 1 <=? 12 then (1, mo + 1, y) else (1, 1, y + 1).

Lemma calc_dates bs bm bh d mo y w s m h carry : let bt := [0; bs; bm; bh; d; mo; y; w] in
  1 <= d <= 31 -> 1 <= mo <= 12 -> 0 <= y < 128 ->
  (fold_left (calc1 cep bt (repeat 0 8)) [MDAY; MON; YEAR] (dayv s m h, carry)).1 =
  if 0 <? vcmp (dayv s m h) bt 4 then datev s m h d mo y
  else let '(d, mo, y) := tomorrow d mo y in datev L1 L2 L3 d mo y.
Proof using Hunits Hdate Hcsec.
  intros bt Hd Hmo Hy. cbn [fold_left].
  assert (forall ot k, (0 <? vcmp ot bt (S k)) = if vat ot k =? vat bt k then 0 <? vcmp ot bt k else vat bt k <? vat ot k)
    as HV by (intros; apply vcmp_S).
  destruct (0 <? vcmp (dayv s m h) bt 4) eqn:G.
  - destruct (calc_keep bt (dayv s m h) carry MDAY) as (c1 & ->); [unfold MDAY, YEAR; lia|by cbn; lia|done|].
    change (<[MDAY:=vat bt MDAY]> (dayv s m h)) with (datev s m h d 0 0).
    assert ((0 <? vcmp (datev s m h d 0 0) bt 5) = true) as G5 by (rewrite HV; cbn [vat nth datev bt]; by rewrite Z.eqb_refl).
    destruct (calc_keep bt (datev s m h d 0 0) c1 MON) as (c2 & ->); [unfold MDAY, MON, YEAR; lia|by cbn; lia|done|].
    change (<[MON:=vat bt MON]> (datev s m h d 0 0)) with (datev s m h d mo 0).
    assert ((0 <? vcmp (datev s m h d mo 0) bt 6) = true) as G6 by (rewrite HV; cbn [vat nth datev bt]; by rewrite Z.eqb_refl).
    destruct (calc_keep bt (datev s m h d mo 0) c2 YEAR) as (c3 & ->); [unfold MDAY, YEAR; lia|by cbn; lia|done|done].
  - destruct (calc_bump bt (dayv s m h) carry MDAY) as (c1 & ->); [unfold MDAY, YEAR; lia|by cbn; lia|done|].
    change (<[MDAY:=bump MDAY (vat bt MDAY) false]> (dayv s m h)) with (datev s m h (bump MDAY d false) 0 0).
    unfold datev at 1. rewrite firsts_mday. fold (datev L1 L2 L3 (bump MDAY d false) 0 0).
    set (v1 := datev L1 L2 L3 (bump MDAY d false) 0 0).
    assert ((0 <? vcmp v1 bt 5) = (d + 1 <=? 31)) as G5.
    { rewrite HV. cbn [vat nth datev bt v1]. destruct (bump_gt MDAY d ltac:(done) Hd) as [Hne ->].
      by rewrite (proj2 (Z.eqb_neq _ _) Hne). }
    unfold tomorrow. destruct (d + 1 <=? 31) eqn:Ed.
    + assert (bump MDAY d false = d + 1) as Eb by (unfold bump; cbn [ut_max]; change (ut_max MDAY) with 31; by rewrite Ed).
      destruct (calc_keep bt v1 c1 MON) as (c2 & ->); [unfold MDAY, MON, YEAR; lia|by cbn; lia|done|].
      change (<[MON:=vat bt MON]> v1) with (datev L1 L2 L3 (bump MDAY d false) mo 0).
      assert ((0 <? vcmp (datev L1 L2 L3 (bump MDAY d false) mo 0) bt 6) = true) as G6.
      { rewrite HV. cbn [vat nth datev bt]. rewrite Z.eqb_refl, HV. cbn [vat nth datev bt].
        destruct (bump_gt MDAY d ltac:(done) Hd) as [Hne ->]. rewrite (proj2 (Z.eqb_neq _ _) Hne). done. }
      destruct (calc_keep bt (datev L1 L2 L3 (bump MDAY d false) mo 0) c2 YEAR) as (c3 & ->);
        [unfold MDAY, YEAR; lia|by cbn; lia|done|]. cbn [fst]. by rewrite Eb.
    + destruct (calc_bump bt v1 c1 MON) as (c2 & ->); [unfold MDAY, MON, YEAR; lia|by cbn; lia|done|].
      change (<[MON:=bump MON (vat bt MON) false]> v1) with
        (datev L1 L2 L3 (bump MDAY d false) (bump MON mo false) 0).
      unfold datev at 1. rewrite firsts_mon. fold (datev L1 L2 L3 1 (bump MON mo false) 0).
      set (v2 := datev L1 L2 L3 1 (bump MON mo false) 0).
      assert ((0 <? vcmp v2 bt 6) = (mo + 1 <=? 12)) as G6.
      { rewrite HV. cbn [vat nth datev bt v2]. destruct (bump_gt MON mo ltac:(done) Hmo) as [Hne ->].
        by rewrite (proj2 (Z.eqb_neq _ _) Hne). }
      destruct (mo + 1 <=? 12) eqn:Em.
      * destruct (calc_keep bt v2 c2 YEAR) as (c3 & ->); [unfold MDAY, YEAR; lia|by cbn; lia|done|]. cbn [fst].
        assert (bump MON mo false = mo + 1) as Eb by (unfold bump; change (ut_max MON) with 12; by rewrite Em).
        unfold v2. by rewrite Eb.
      * destruct (calc_bump bt v2 c2 YEAR) as (c3 & ->); [unfold MDAY, YEAR; lia|by cbn; lia|done|]. cbn [fst].
        change (<[YEAR:=bump YEAR (vat bt YEAR) false]> v2) with
          (datev L1 L2 L3 1 (bump MON mo false) (bump YEAR y false)).
        unfold datev at 1. rewrite firsts_year. unfold bump. change (ut_max YEAR) with 128.
        by rewrite (proj2 (Z.leb_le (y + 1) 128)) by lia.
Qed.

Lemma range3 x : times x -> 0 <= x < 86400.
Proof using Type. intros [[H _] H2%range2]. cbn in H. pose proof (Z.div_mod x 3600). lia. Qed.

(** The vector that is tried from a time on. *)
Lemma next_vector_daily bs bm bh d mo y w : 0 <= bs < 60 -> 0 <= bm < 60 -> 0 <= bh < 24 ->
  1 <= d <= 31 -> 1 <= mo <= 12 -> 0 <= y < 128 ->
  exists s m h d' mo' y', next_vector cep [0; bs; bm; bh; d; mo; y; w] = datev s m h d' mo' y' /\
  let b := enc bh bm bs in
  (b < enc h m s /\ times (enc h m s) /\ (forall x, times x -> b < x -> enc h m s <= x) /\ (d', mo', y') = (d, mo, y) \/
   (forall x, times x -> x <= b) /\ least times (enc h m s) /\ (d', mo', y') = tomorrow d mo y).
Proof using Hunits Hdate Hcsec.
  intros Hs Hm Hh Hd Hmo Hy. set (bt := [0; bs; bm; bh; d; mo; y; w]).
  destruct (calc_day bt (repeat 0 8)) as (s & m & h & c & E & G & Hn); try done. cbv zeta in G, Hn.
  change (vat bt HOUR) with bh in *. change (vat bt MiN) with bm in *. change (vat bt SEC) with bs in *.
  assert (next_vector cep bt = (fold_left (calc1 cep bt (repeat 0 8)) [MDAY; MON; YEAR] (dayv s m h, c)).1) as ->.
  { unfold next_vector, CFMT at 2. rewrite (Hdate WDAY) by (unfold MDAY, WDAY; lia). cbn [nth EVERY1 t_fmt].
    rewrite Z.eqb_refl, andb_false_r. cbv zeta. by rewrite E. }
  unfold bt at 1. rewrite calc_dates by done. fold bt. rewrite G.
  destruct (Z.ltb_spec (enc bh bm bs) (enc h m s)).
  - destruct Hn as (Ht & Hg & _). exists s, m, h, d, mo, y. split; [done|]. left. split_and!; [done..| |done]. by apply Hg.
  - destruct Hn as (_ & _ & Hg). destruct (Hg eq_refl) as [Hle _]. destruct (tomorrow d mo y) as [[d' mo'] y'].
    exists L1, L2, L3, d', mo', y'. split; [done|]. right. split_and!; [done|apply least3|done].
Qed.
End rule.
