(* ===== verification/SchedDaily.v ===== *)
(** * Rules for every day are caused when they are due

    In a zone with a constant offset, a rule that leaves the date open is
    programmed for the first time behind now that is in it ([daily_next]).
    [sched_eval] causes the entries with such rules whose time has come, in
    their order, and returns the time of the next one
    ([sched_eval_daily]). *)
From Stdlib Require Import Sorted.
From S2P Require Import Prelude VStr Strings Text ScanList ListOps Clock ClockSpec Sched SchedSpec.
From stdpp Require Import options.

Lemma month_days_le b m : month_days b m <= 31.
Proof. do 12 (destruct m as [|m]; [by destruct b|]). by destruct m. Qed.

(** The date behind a valid one. *)
Lemma tomorrow_daynum t s m h : valid_tm t -> tm_year t < 199 ->
  let '(d, mo, y) := tomorrow (tm_mday t) (tm_mon t + 1) (tm_year t) in
  let t' := Tm s m h d (mo - 1) y 0 0 in in_calendar t' /\ daynum t' = daynum t + 1.
Proof.
  intros ([Hy Hm] & Hd & _) H199. unfold tomorrow. change (tm_mon t + 1 + 1) with (Z.succ (tm_mon t + 1)).
  destruct (Z.leb_spec (tm_mday t + 1) 31).
  - unfold in_calendar, daynum, yix, mix. cbn. replace (tm_mon t + 1 - 1) with (tm_mon t) by lia. lia.
  - pose proof (month_days_le (lp (yix t)) (mix t)).
    assert (month_days (lp (yix t)) (mix t) = 31) as E31 by lia.
    destruct (Z.leb_spec (Z.succ (tm_mon t + 1)) 12).
    + unfold in_calendar, daynum. cbn [tm_year tm_mon tm_mday]. split; [lia|].
      unfold yix, mix in *. cbn [tm_year tm_mon].
      replace (Z.to_nat (Z.succ (tm_mon t + 1) - 1)) with (S (Z.to_nat (tm_mon t))) by lia. cbn [mbefore]. lia.
    + unfold in_calendar, daynum. cbn [tm_year tm_mon tm_mday]. split; [lia|].
      unfold yix, mix in *. cbn [tm_year tm_mon].
      replace (Z.to_nat (tm_year t + 1 - 70)) with (S (Z.to_nat (tm_year t - 70))) by lia. cbn [ybefore mbefore Z.to_nat].
      pose proof (mbefore_ylen (Z.to_nat (tm_year t - 70))) as E. cbn [mbefore] in E.
      assert (Z.to_nat (tm_mon t) = 11%nat) as Em by lia. rewrite Em in *. change (Z.to_nat (1 - 1)) with 0%nat. cbn [mbefore]. lia.
Qed.

Section daily.
Context (localtime : Z -> option tm) (off : Z) {LT : LocalTime localtime off}.

(** An entry as [sched_append] makes it of a rule that leaves the date open
    and is not relative. *)
Record daily (cep : cronent) : Prop := {
  d_units : forall ti, (ti < 8)%nat -> ok_unit ti (units cep ti);
  d_csec : units cep CSEC = [Tunit 0 0];
  d_date : forall ti, (MDAY <= ti <= WDAY)%nat -> units cep ti = EVERY1;
  d_relative : c_relative cep = false;
  d_last : lasttime localtime (c_tfv cep) = Some (c_maxtime cep) }.

(** The clock [x] is in the rule. *)
Definition in_rule (cep : cronent) (x : Z) : Prop := times cep ((x + off) mod 86400).
(** The next clock behind [now] that is in the rule. *)
Definition next_due (cep : cronent) (now x : Z) : Prop :=
  now < x /\ in_rule cep x /\ forall y, in_rule cep y -> now < y -> x <= y.
(** The clocks before the last year of the units. *)
Definition in_range (now : Z) : Prop := 0 <= now + off < ybefore 58 * 86400.

Lemma last_unit_range ti us : ok_unit ti us -> ut_min ti <= ut_max ti < 250 ->
  ut_min ti <= last_unit ti us <= ut_max ti.
Proof using Type.
  intros Hok Hr. unfold last_unit.
  assert (Forall (fun u => t_fmt u = TMU_EVERY \/ ut_min ti <= t_fmt u <= ut_max ti) us) as H.
  { destruct Hok as [-> |(_ & _ & H)]; [by repeat constructor; left|].
    eapply Forall_impl; [exact H|]. intros u Hu. by right. }
  clear Hok. assert (forall mx, ut_min ti <= mx <= ut_max ti -> ut_min ti <= fold_left
    (fun mx u => if (t_fmt u =? TMU_EVERY) || (t_fmt u =? TMU_INC) then ut_max ti else Z.max mx (t_fmt u)) us mx
    <= ut_max ti) as G; [|apply G; lia].
  induction H as [|u us Hu _ IH]; intros mx Hm; cbn [fold_left]; [done|]. apply IH.
  destruct Hu as [-> |Hu]; [cbn; lia|]. destruct (_ || _); lia.
Qed.

(** The times that are tried have a clock. *)
Lemma clock_datev s m h d mo y : in_calendar (Tm s m h d (mo - 1) y 0 0) ->
  let D := daynum (Tm s m h d (mo - 1) y 0 0) in
  let x := D * 86400 + enc h m s in
  0 <= x < ybefore 60 * 86400 ->
  clock_of localtime (datev s m h d mo y) = Some (x - off).
Proof using LT.
  intros Hc D x Hx. unfold clock_of. cbn [vat nth datev YEAR MON MDAY HOUR MiN SEC].
  assert (civil (Tm s m h d (mo - 1) y 0 0) = x) as E by (unfold civil, x, enc; cbn [tm_hour tm_min tm_sec]; fold D; lia).
  pose proof (lt_off (LocalTime := LT)). assert (ybefore 60 * 86400 < 2 ^ 31 - 86400 /\ ybefore 60 * 86400 < END) by by compute.
  rewrite (toclock_civil localtime off) by (rewrite ?E; done || lia). by rewrite E.
Qed.

Lemma daily_last cep now : daily cep -> in_range now -> now <= c_maxtime cep.
Proof using LT.
  intros [Hu Hs Hd _ Hl] Hn. revert Hl. unfold lasttime.
  change (map (fun ti => last_unit ti (nth ti (c_tfv cep) [])) (seq 0 7)) with
    [last_unit CSEC (units cep CSEC); last_unit SEC (units cep SEC); last_unit MiN (units cep MiN);
     last_unit HOUR (units cep HOUR); last_unit MDAY (units cep MDAY); last_unit MON (units cep MON);
     last_unit YEAR (units cep YEAR)].
  rewrite Hs, (Hd MDAY), (Hd MON), (Hd YEAR) by (unfold MDAY, MON, YEAR, WDAY; lia).
  pose proof (last_unit_range SEC _ (Hu SEC ltac:(unfold SEC; lia)) ltac:(by cbn)) as R1.
  pose proof (last_unit_range MiN _ (Hu MiN ltac:(unfold MiN; lia)) ltac:(by cbn)) as R2.
  pose proof (last_unit_range HOUR _ (Hu HOUR ltac:(unfold HOUR; lia)) ltac:(by cbn)) as R3.
  set (s := last_unit SEC _) in *. set (m := last_unit MiN _) in *. set (h := last_unit HOUR _) in *.
  change (clock_of localtime _) with (clock_of localtime (datev s m h 31 12 128)).
  cbn in R1, R2, R3. assert (daynum (Tm s m h 31 (12 - 1) 128 0 0) = ybefore 59 - 1) as E by (by vm_compute).
  assert (ybefore 59 * 86400 < ybefore 60 * 86400) by by compute.
  assert (ybefore 58 * 86400 <= (ybefore 59 - 1) * 86400) by by compute.
  assert (0 <= ybefore 58) by by compute.
  rewrite clock_datev; rewrite ?E; [|by cbn|unfold enc; lia]. intros Ex%(inj Some). unfold in_range, enc in *. lia.
Qed.

(** What is tried for a time of the calendar is the next time of the rule. *)
Lemma next_vector_due cep now : daily cep -> in_range now ->
  exists bt next, base_time localtime now = Some bt /\ clock_of localtime (next_vector cep bt) = Some next /\
    next_due cep now next /\ next + off < ybefore 58 * 86400 + 86400.
Proof using LT.
  intros [Hu Hs Hd _ _] Hn. unfold base_time, fromclockLocal.
  assert (ybefore 58 * 86400 < END) as Hend by by compute.
  destruct (lt_tm now) as (t & -> & V & E & _); [unfold in_range in Hn; lia|]. cbn [mbind option_bind nth].
  set (bt := [0; tm_sec t; _; _; _; _; _; _]). pose proof V as ([Hy Hm] & Hmd & Hh & Hmi & Hsec).
  pose proof (month_days_le (lp (yix t)) (mix t)).
  assert (daynum t < ybefore 58) as HD by (unfold civil, in_range in *; lia).
  assert (tm_year t < 128) as Hy58.
  { destruct (decide (tm_year t < 128)) as [|Hge]; [done|]. exfalso. pose proof (year_part t V). unfold daynum in HD.
    destruct (decide (yix t = 58%nat)) as [Ey|Hne]; [rewrite Ey in *; lia|].
    pose proof (ybefore_lt 58 (yix t) ltac:(unfold yix in *; lia)). assert (0 <= ylen 58) by by compute. lia. }
  destruct (next_vector_daily cep Hu Hs Hd (tm_sec t) (tm_min t) (tm_hour t) (tm_mday t) (tm_mon t + 1) (tm_year t) (tm_wday t))
    as (s & m & h & d & mo & y & Ev & Hcase); [lia..|]. fold bt in Ev.
  set (b := enc (tm_hour t) (tm_min t) (tm_sec t)) in *. set (e := enc h m s) in *.
  assert (now + off = daynum t * 86400 + b) as Enow by (unfold civil, b, enc in *; lia).
  assert (0 <= b < 86400) as Hb by (unfold b, enc; lia).
  exists bt. rewrite Ev. clear Ev.
  assert (forall x, times cep x -> 0 <= x < 86400) as Hr by apply range3.
  assert (times cep e) as He by (destruct Hcase as [(_ & H' & _)|(_ & [H' _] & _)]; done). pose proof (Hr e He) as Her.
  assert (in_calendar (Tm s m h d (mo - 1) y 0 0) /\ daynum (Tm s m h d (mo - 1) y 0 0) =
    daynum t + (if b <? e then 0 else 1)) as [Hcal ED].
  { destruct Hcase as [(Hlt & _ & _ & [= -> -> ->])|(Hno & _ & Et)].
    - rewrite (proj2 (Z.ltb_lt _ _) Hlt). unfold in_calendar, daynum, yix, mix. cbn.
      replace (tm_mon t + 1 - 1) with (tm_mon t) by lia. lia.
    - rewrite (proj2 (Z.ltb_ge b e)) by by apply Hno.
      pose proof (tomorrow_daynum t s m h V ltac:(lia)) as T. rewrite <- Et in T. exact T. }
  assert (0 <= daynum t) by (pose proof (valid_civil t V); unfold civil in *; lia).
  assert (ybefore 58 + 2 < ybefore 60) by by compute.
  exists ((daynum t + (if b <? e then 0 else 1)) * 86400 + e - off). split; [done|]. split.
  { rewrite <- ED. apply clock_datev; [done|]. fold e. rewrite ED. destruct (b <? e); lia. }
  assert (forall D, in_rule cep (D * 86400 + e - off)) as Hin.
  { intros D. unfold in_rule. replace (D * 86400 + e - off + off) with (e + D * 86400) by lia.
    by rewrite Z.mod_add, Z.mod_small by lia. }
  split; [|destruct (b <? e); lia]. split; [destruct (Z.ltb_spec b e); lia|]. split; [apply Hin|].
  intros x Hx Hnx. pose proof (Z.div_mod (x + off) 86400 ltac:(lia)) as Hdm. pose proof (Hr _ Hx) as Hxr.
  unfold in_rule in Hx. set (q := (x + off) / 86400) in *. set (r := (x + off) mod 86400) in *.
  destruct Hcase as [(Hlt & _ & Hmin & _)|(Hno & [_ Hmin] & _)].
  - rewrite (proj2 (Z.ltb_lt _ _) Hlt). specialize (Hmin r Hx). destruct (decide (q = daynum t)) as [->|]; [|nia]. lia.
  - rewrite (proj2 (Z.ltb_ge b e)) by by apply Hno. specialize (Hno r Hx). specialize (Hmin r Hx).
    destruct (decide (q = daynum t)) as [->|]; [lia|]. nia.
Qed.

Lemma calc_daily fuel cep now prev : daily cep -> in_range now -> prev <= now ->
  exists next, calc_nexttime localtime (S fuel) cep now prev = Some (set_nexttime cep next, next) /\
    next_due cep now next /\ next + off < ybefore 58 * 86400 + 86400.
Proof using LT.
  intros Hd Hn Hp. destruct (next_vector_due cep now Hd Hn) as (bt & next & Eb & Ec & Hnd & Hb).
  exists next. split; [|by split]. cbn [calc_nexttime]. pose proof (daily_last cep now Hd Hn).
  rewrite (proj2 (Z.ltb_ge (c_maxtime cep) now)), (proj2 (Z.ltb_ge now prev)), (d_relative cep Hd), andb_false_r by lia.
  cbn [orb]. rewrite Eb. cbn [mbind option_bind]. rewrite Ec. cbn [mbind option_bind]. destruct Hnd as [Hlt _].
  by rewrite (proj2 (Z.eqb_neq next prev)), (proj2 (Z.leb_gt next now)) by lia.
Qed.

(** C32. In a zone with a constant offset and before 2028, a rule that lists
    seconds, minutes and hours in ascending order, or leaves them open, and
    leaves the date open, is programmed for the least clock behind now whose
    local time of the day is in the rule: on the same day, or on the next one,
    over the ends of months and years.  One call suffices. *)
Theorem daily_next (fuel : nat) (cep : cronent) (now prev : Z) :
  daily cep -> in_range now -> prev <= now ->
  exists next, calc_nexttime localtime (S fuel) cep now prev = Some (set_nexttime cep next, next) /\
    next_due cep now next.
Proof using LT.
  intros Hd Hn Hp. destruct (calc_daily fuel cep now prev Hd Hn Hp) as (next & H & Hn' & _). by exists next.
Qed.

(** ** The evaluation of a table *)

(** The state of an entry after an evaluation at [t]. *)
Record prog (t : Z) (cep : cronent) : Prop := {
  p_daily : daily cep;
  p_prev : c_prevtime cep <= t;
  p_next : c_nexttime cep = 0 \/ next_due cep t (c_nexttime cep) /\ c_nexttime cep + off < ybefore 58 * 86400 + 86400 }.

Definition call_of (cep : cronent) : acall := ACall (c_action cep) (c_prevtime cep) (c_prevcode cep).
(** The entry of which the action was caused. *)
Definition caused (now : Z) (cep cep' : cronent) : Prop :=
  if due now cep
  then exists code, cep' = CronEnt (c_cronspec cep) (c_timespec cep) (c_tfv cep) 0 (c_nexttime cep) code
         (c_relative cep) (c_maxtime cep) (c_action cep)
  else cep' = cep.

Lemma cause_spec now vec : forall answers, exists vec',
  cause now vec answers = (vec', map call_of (List.filter (due now) vec)) /\ Forall2 (caused now) vec vec'.
Proof using Type.
  induction vec as [|cep vec IH]; intros answers; cbn [cause List.filter]; [by exists []; split|].
  destruct (due now cep) eqn:E.
  - destruct (IH (tl answers)) as (vec' & -> & H). eexists. split; [done|]. constructor; [|done].
    unfold caused. rewrite E. by eexists.
  - destruct (IH answers) as (vec' & -> & H). eexists. split; [done|]. constructor; [|done].
    unfold caused. by rewrite E.
Qed.

(** An entry for the second loop at [now], and behind it. *)
Definition ready (now : Z) (cep : cronent) : Prop :=
  daily cep /\ c_prevtime cep <= now /\
  (now < c_nexttime cep -> next_due cep now (c_nexttime cep) /\ c_nexttime cep + off < ybefore 58 * 86400 + 86400).
Definition waiting (now : Z) (cep : cronent) : Prop :=
  prog now cep /\ now < c_nexttime cep < FARFUTURE.

Lemma waiting_of now cep next : 0 <= now -> daily cep -> c_prevtime cep <= now -> next_due cep now next ->
  next + off < ybefore 58 * 86400 + 86400 -> waiting now (set_nexttime cep next) /\ s32 next = next.
Proof using LT.
  intros H0 Hd Hp Hn Hb. pose proof (lt_off (LocalTime := LT)).
  assert (ybefore 58 * 86400 + 86400 < FARFUTURE - 86400) by by compute. destruct Hn as [Hlt Hn]. split.
  - split; [|cbn; lia]. destruct Hd. split; [by constructor|done|]. right. by split.
  - unfold s32, FARFUTURE in *. rewrite Z.mod_small; lia.
Qed.

Lemma reschedule_spec fuel now vec : 0 <= now -> in_range now -> Forall (ready now) vec -> forall next,
  exists vec' next', reschedule localtime (S fuel) now vec next = Some (vec', next') /\
    Forall (waiting now) vec' /\ length vec' = length vec /\ next' <= next /\ Forall (fun cep => next' <= c_nexttime cep) vec' /\
    (next' = next \/ Exists (fun cep => c_nexttime cep = next') vec').
Proof using LT.
  intros H0 Hr Hv. induction Hv as [|cep vec (Hd & Hp & Hn) _ IH]; intros next; cbn [reschedule].
  - exists [], next. split_and!; try done. by left.
  - assert (exists cep' nx, (if now <? c_nexttime cep then Some (cep, s32 (c_nexttime cep))
      else '(cep, nx) ← calc_nexttime localtime (S fuel) cep now (c_prevtime cep); Some (cep, s32 nx)) = Some (cep', nx) /\
      waiting now cep' /\ nx = c_nexttime cep') as (cep' & nx & -> & Hs & ->).
    { destruct (Z.ltb_spec now (c_nexttime cep)) as [Hlt|Hge].
      - destruct (Hn Hlt) as [Hnd Hb]. destruct (waiting_of now cep (c_nexttime cep) H0 Hd Hp Hnd Hb) as [Hs ->].
        exists cep, (c_nexttime cep). destruct cep. by split_and!.
      - destruct (calc_daily fuel cep now (c_prevtime cep) Hd Hr Hp) as (nx & -> & Hnd & Hb).
        destruct (waiting_of now cep nx H0 Hd Hp Hnd Hb) as [Hs E]. cbn [mbind option_bind]. rewrite E. by do 2 eexists. }
    cbn [mbind option_bind]. set (nxt := if (now <=? _) && _ then _ else _).
    assert (nxt = Z.min (c_nexttime cep') next) as E.
    { unfold nxt. destruct Hs as [_ [Hs _]]. rewrite (proj2 (Z.leb_le _ _)) by lia. cbn [andb]. zcases. }
    destruct (IH nxt) as (vec' & next' & -> & Hvs & Hlen & Hle & Hall & Hex). cbn [mbind option_bind].
    exists (cep' :: vec'), next'. split; [done|]. split_and!; [by constructor|cbn; lia|lia|constructor; [lia|done]|].
    destruct Hex as [Hex|Hex]; [|by right; right].
    destruct (decide (c_nexttime cep' < next)); [right; left; lia|left; lia].
Qed.

Lemma ready_of t now el cep cep' : prog t cep -> 0 <= t <= now -> 0 <= el -> caused now cep cep' -> ready (now + el) cep'.
Proof using Type.
  intros [Hd Hp Hn] Ht He. unfold caused, due. destruct (Z.eqb_spec (c_nexttime cep) 0) as [E|E]; cbn [negb andb].
  - intros ->. split; [done|]. split; [lia|]. rewrite E. lia.
  - destruct Hn as [|[[Hlt [Hin Hmin]] Hb]]; [done|]. destruct (Z.leb_spec (c_nexttime cep) now) as [Hle|Hgt].
    + intros [code ->]. split; [by destruct Hd; constructor|]. cbn [c_prevtime c_nexttime]. split; [lia|lia].
    + intros ->. split; [done|]. split; [lia|]. intros Hx. split; [|done]. split_and!; [done..|].
      intros y Hy Hyx. apply Hmin; [done|lia].
Qed.

(** C33. In a zone with a constant offset and before 2028, a table of rules
    for every day whose seconds, minutes and hours are listed in ascending
    order or left open: when it is evaluated, the actions that are called are
    the ones of exactly those entries that have a time of their rule since the
    last evaluation and up to this one, in the order of the table; every entry
    is programmed for the next time of its rule behind the end of the actions,
    and what is returned, and kept as the time of the next evaluation, is the
    first of these times.  A time of a rule that falls into the run of the
    actions is passed over ([rule_lost]). *)
Theorem sched_eval_daily (fuel : nat) (Cron : crontab) (t now elapsed : Z) (answers : list Z) :
  st_cronvec Cron <> [] -> Forall (fun cep => prog t cep /\ c_nexttime cep <> 0) (st_cronvec Cron) ->
  0 <= t <= now -> 0 <= elapsed -> in_range (now + elapsed) -> st_nexttime Cron <= now ->
  exists vec next,
    sched_eval localtime (S fuel) Cron now elapsed answers =
      Some (CronTab vec next (st_left Cron), next, map call_of (List.filter (due now) (st_cronvec Cron))) /\
    Forall (fun cep => due now cep = true <-> exists x, t < x <= now /\ in_rule cep x) (st_cronvec Cron) /\
    Forall (fun cep => prog (now + elapsed) cep /\ now + elapsed < next <= c_nexttime cep) vec /\
    Exists (fun cep => c_nexttime cep = next) vec /\ length vec = length (st_cronvec Cron).
Proof using LT.
  intros Hne Hv Ht He Hr Hst. destruct (cause_spec now (st_cronvec Cron) answers) as (v1 & Ec & H1).
  assert (Forall (ready (now + elapsed)) v1) as Hready.
  { clear -Hv Ht He H1. induction H1 as [|cep cep' v v1 H _ IH]; [done|].
    apply Forall_cons in Hv as [[Hc _] Hv]. constructor; [by eapply ready_of|by apply IH]. }
  destruct (reschedule_spec fuel (now + elapsed) v1 ltac:(lia) Hr Hready FARFUTURE) as
    (vec & next & Er & Hw & Hlen & Hle & Hmin & Hex).
  assert (v1 <> []) as Hv1 by (intros ->; by apply Forall2_nil_inv_r in H1).
  assert (Exists (fun cep => c_nexttime cep = next) vec) as Hex'.
  { destruct Hex as [->|Hex]; [|done]. exfalso. destruct vec as [|c vec]; [by destruct v1|].
    apply Forall_cons in Hw as [[_ Hw] _]. apply Forall_cons in Hmin as [Hmin _]. lia. }
  assert (now + elapsed < next < FARFUTURE) as Hnext.
  { apply Exists_exists in Hex' as (c & Hc & <-). rewrite Forall_forall in Hw. by destruct (Hw c Hc). }
  exists vec, next. split_and!.
  - unfold sched_eval. rewrite (proj2 (Z.ltb_ge now (st_nexttime Cron))) by lia.
    destruct (st_cronvec Cron) eqn:E; [done|]. rewrite Ec, Er. cbn [mbind option_bind].
    by rewrite (proj2 (Z.eqb_neq next FARFUTURE)), (proj2 (Z.ltb_ge next (now + elapsed))) by lia.
  - eapply Forall_impl; [exact Hv|]. intros cep [[_ _ [H|[[Hlt [Hin Hm]] _]]] H0]; [done|]. unfold due.
    rewrite (proj2 (Z.eqb_neq _ 0) H0). cbn [negb andb]. rewrite Z.leb_le. split; [intros; by exists (c_nexttime cep)|].
    intros (x & Hx & Hi). specialize (Hm x Hi). lia.
  - apply Forall_forall. intros c Hc. rewrite Forall_forall in Hw, Hmin. destruct (Hw c Hc) as [Hp _].
    specialize (Hmin c Hc). split; [done|lia].
  - done.
  - rewrite Hlen. symmetry. by eapply Forall2_length.
Qed.
End daily.

(** ** A rule *)

(** What [sched_append] makes of [30 3 * * * x]. *)
Definition ex_entry : cronent :=
  CronEnt (cs "30 3 * * * x") (cs "*:*:*:*:3:30:0")
    [[Tunit 0 0]; [Tunit 0 0]; [Tunit 30 0]; [Tunit 3 0]; EVERY1; EVERY1; EVERY1; EVERY1]
    0 0 0 false 1861846200 (cs "x").
Lemma ex_append : sched_append utc sched_create (cs "30 3 * * * x") = Some (CronTab [ex_entry] 0 false, 0).
Proof. by vm_compute. Qed.
Lemma ex_daily : daily utc ex_entry.
Proof.
  split; [|done| |done|by vm_compute].
  - intros ti Hti. assert (forall z, ut_min ti <= z <= ut_max ti -> ok_unit ti [Tunit z 0]) as H.
    { intros z Hz. right. split; [done|]. split; cbn.
      - apply SSorted_cons; [apply SSorted_nil|constructor].
      - by constructor. }
    do 8 (destruct ti as [|ti]; [first [by left|apply H; by cbn]|]). lia.
  - unfold MDAY, WDAY. intros ti Hti. do 8 (destruct ti as [|ti]; [first [done|lia]|]). lia.
Qed.
Lemma ex_in_rule x : in_rule 0 ex_entry x <-> x mod 86400 = 12600.
Proof.
  unfold in_rule, times, two. rewrite Z.add_0_r. set (r := x mod 86400).
  assert (forall ti z u, in_unit ti [Tunit z 0] u <-> ut_min ti <= u <= ut_max ti /\ u = z) as H.
  { intros ti z u. unfold in_unit. cbn [map t_fmt]. rewrite list_elem_of_singleton. naive_solver. }
  change (units ex_entry HOUR) with [Tunit 3 0]. change (units ex_entry MiN) with [Tunit 30 0].
  change (units ex_entry SEC) with [Tunit 0 0]. rewrite !H. cbn. rewrite Z.div_1_r, Z.mod_1_r.
  Z.to_euclidean_division_equations. lia.
Qed.

Lemma daily_next_witness :
  daily utc ex_entry /\ in_range 0 1700000000 /\
  exists next, calc_nexttime utc 1 ex_entry 1700000000 0 = Some (set_nexttime ex_entry next, next) /\
    next_due 0 ex_entry 1700000000 next.
Proof.
  split; [apply ex_daily|]. split; [by vm_compute|].
  apply (daily_next utc 0 0 ex_entry 1700000000 0); [apply ex_daily|by vm_compute|lia].
Defined.

(** The table of the entry as it is programmed at 1700000000, and evaluated a
    day later. *)
Definition ex_prog : cronent := set_nexttime ex_entry 1700019000.
Lemma ex_prog_ok : prog utc 0 1700000000 ex_prog.
Proof.
  split; [by destruct ex_daily; split|by cbn|]. right. split; [|by vm_compute].
  split; [by cbn|]. assert (forall x, in_rule 0 ex_prog x <-> x mod 86400 = 12600) as H by apply ex_in_rule.
  split; [by apply H|]. intros y Hy%H Hlt. cbn. Z.to_euclidean_division_equations. lia.
Qed.
Lemma sched_eval_daily_witness :
  (prog utc 0 1700000000 ex_prog /\ in_range 0 (1700086400 + 5)) /\
  exists vec next,
    sched_eval utc 1 (CronTab [ex_prog] 1700019000 false) 1700086400 5 [0] =
      Some (CronTab vec next false, next, map call_of (List.filter (due 1700086400) [ex_prog])) /\
    Forall (fun cep => due 1700086400 cep = true <-> exists x, 1700000000 < x <= 1700086400 /\ in_rule 0 cep x) [ex_prog] /\
    Forall (fun cep => prog utc 0 (1700086400 + 5) cep /\ 1700086400 + 5 < next <= c_nexttime cep) vec /\
    Exists (fun cep => c_nexttime cep = next) vec /\ length vec = 1%nat.
Proof.
  split; [split; [apply ex_prog_ok|by vm_compute]|].
  apply (sched_eval_daily utc 0 0 (CronTab [ex_prog] 1700019000 false) 1700000000 1700086400 5 [0]);
    [done|constructor; [split; [apply ex_prog_ok|done]|constructor]|lia|lia|by vm_compute|by cbn].
Defined.

(** ** Other rules *)

(** The date and the day of the week that a rule is programmed for. *)
Definition next_date (spec : string) (y m d H M : Z) : option (list Z) :=
  now ← toclockLocal utc y m d H M 0;
  '(C, _) ← sched_append utc sched_create (cs spec);
  cep ← head (st_cronvec C);
  '(_, next) ← calc_nexttime utc 10 cep now 0;
  v ← fromclockLocal utc next; Some v.

(** A rule for the 31st is caused on the third of March. *)
Lemma rule_mday_31 : next_date "0 0 31 * * x" 123 2 5 1 1 = Some [5; 123; 3; 3; 0; 0; 0].
Proof. by vm_compute. Qed.
(** A rule for Sundays is caused on Wednesday, the first of March, when the
    next Sunday is in the next month. *)
Lemma rule_wday_month : next_date "0 0 * * Sun x" 123 2 20 1 1 = Some [0; 123; 2; 26; 0; 0; 0] /\
  next_date "0 0 * * Sun x" 123 2 27 1 1 = Some [3; 123; 3; 1; 0; 0; 0].
Proof. split; by vm_compute. Qed.
(** Of the minutes [30,0] the first one in the list is tried for a new hour. *)
Lemma rule_unsorted : next_date "30,0 3 * * * x" 123 2 5 1 1 = Some [0; 123; 2; 5; 3; 30; 0] /\
  next_date "0,30 3 * * * x" 123 2 5 1 1 = Some [0; 123; 2; 5; 3; 0; 0].
Proof. split; by vm_compute. Qed.
(** There is no time behind 2028. *)
Lemma rule_2028 : next_date "0 3 * * * x" 128 12 31 5 1 = Some [4; 70; 1; 1; 0; 0; 0].
Proof. by vm_compute. Qed.
(** An increment of 300 hours is one of 44. *)
Lemma rule_inc : match sched_append utc sched_create (cs "0 +300 * * * x") with
  | Some (C, 0) => map (fun cep => units cep HOUR) (st_cronvec C) = [[Tunit TMU_INC 44]]
  | _ => False end.
Proof. by vm_compute. Qed.
(** A rule that has another one in its text is not added. *)
Lemma rule_substring : match sched_append utc sched_create (cs "0 3 * * * x") with
  | Some (C, 0) => sched_append utc C (cs "10 3 * * * x") = Some (C, 0)
  | _ => False end.
Proof. by vm_compute. Qed.
(** [@m5] is Friday, not May. *)
Lemma rule_month : scan_timeform1 (cs "m5:x") = Some (cs "5:*:*:*:*:*:*:x").
Proof. by vm_compute. Qed.
(** An action that takes two minutes: the rule of a minute later is not caused
    on that day. *)
Lemma rule_lost : match
    ('(C, _) ← sched_append utc sched_create (cs "0 12 * * * a");
     '(C, _) ← sched_append utc C (cs "1 12 * * * b");
     '(C, next, _) ← sched_eval utc 1 C 1700000000 0 [];
     '(C, next2, calls) ← sched_eval utc 1 C next 120 [0];
     Some (C, next, next2, calls))
  with
  | Some (C, next, next2, calls) =>
      map a_action calls = [cs "a"] /\ next2 = next + 86400 /\
      map c_nexttime (st_cronvec C) = [next + 86400; next + 60 + 86400]
  | None => False end.
Proof. vm_compute. by split_and!. Qed.
