(* ===== verification/UrlEsc.v ===== *)
(** * Escapes in URLs ([rary/urlesc.cpp])

    Escaping and unescaping of characters in URLs, and the comparison of a
    URL with a pattern that may be escaped.  What is written to a destination
    is the list of its characters; [siz] is the size that the caller gives.
    A NUL that is written ends the string, so the result of an unescape is
    taken up to it. *)
From S2P Require Import Prelude Strings.
From stdpp Require Import options.

Definition is_set (s : list Z) (c : Z) : bool := existsb (Z.eqb c) s.

(** [%xx] and its digits. *)
Definition hex_at (r : list Z) : bool := isxdigit (cat r 0) && isxdigit (cat r 1).
Definition xx (c1 c2 : Z) : Z := 16 * hexval c1 + hexval c2.
Definition xx_at (r : list Z) : Z := xx (cat r 0) (cat r 1).
Definition hex2L (c : Z) : list Z := [hexLower (c / 16); hexLower (c mod 16)].
Definition hex2U (c : Z) : list Z := [hexUpper (c / 16); hexUpper (c mod 16)].

(** ** [unescape_specials], [url_unescape], [nonxalpha_unescape] *)

(** Only the first escape, when it is of the set and [succ] follows. *)
Definition unescape_specials (str set succ : list Z) : list Z :=
  match index_of PCT str with
  | Some i =>
      let ep := drop i str in
      let x := xx_at (drop 1 ep) in
      if hex_at (drop 1 ep) && is_prefix succ (drop 3 ep) && strchr set x
      then cstr (take i str ++ x :: drop 3 ep) else str
  | None => str
  end.

(** [dp] is behind [url] by [zlen out] and [sp] by [n]; when they are the same
    at the end the string is as it was. *)
Fixpoint url_unescape_loop (siz : Z) (set sp out : list Z) (n unesc : Z) : list Z * Z :=
  let done := ((if zlen out =? n then out ++ sp else cstr out), unesc) in
  match sp with
  | [] => done
  | ch :: r =>
      if siz - 1 <=? zlen out then done
      else
        let one := url_unescape_loop siz set r (out ++ [ch]) (n + 1) unesc in
        match r with
        | x1 :: x2 :: r' =>
            if (ch =? PCT) && isxdigit x1 && isxdigit x2
            then let dch := xx x1 x2 in
                 url_unescape_loop siz set r'
                   (out ++ if bool_decide (set <> []) && negb (strchr set dch)
                           then [PCT; x1; x2] else [dch]) (n + 3) (unesc + 1)
            else one
        | _ => one
        end
  end.
Definition url_unescape (url : list Z) (siz : Z) (set : list Z) : list Z * Z :=
  url_unescape_loop siz set url [] 0 0.

Fixpoint nonxalpha_loop (spacealso : bool) (cp out : list Z) (num : Z) : list Z * Z :=
  match cp with
  | [] => (cstr out, num)
  | ch :: r =>
      let one := nonxalpha_loop spacealso r (out ++ [ch]) num in
      match r with
      | x1 :: x2 :: r' =>
          if (ch =? PCT) && isxdigit x1 && isxdigit x2
             && (spacealso || negb (strchr [SP; TAB; CR; LF] (xx x1 x2)))
          then nonxalpha_loop spacealso r' (out ++ [xx x1 x2]) (num + 1)
          else one
      | _ => one
      end
  end.
Definition nonxalpha_unescape (src : list Z) (spacealso : bool) : list Z * Z :=
  nonxalpha_loop spacealso src [] 0.

(** ** [url_escapeY] and [url_escapeX] *)

(** The flags in front of [escs]. *)
Record esc_opts := EscOpts {
  nodflt : bool; escctl : bool; escbin : bool; escspc : bool; eschtm : bool; escqpt : bool;
  escdel : bool; escurl : bool; o_escs : list Z
}.
Fixpoint esc_flags (nd ctl bin spc htm qpt del url : bool) (escs : list Z) : esc_opts :=
  let stop := EscOpts nd ctl bin spc htm qpt del url escs in
  match escs with
  | p :: f :: r =>
      if negb (p =? PCT) then stop
      else if f =? PCT then esc_flags (negb nd) ctl bin spc htm qpt del url r
      else if f =? 67 then esc_flags nd true bin spc htm qpt del url r
      else if f =? 72 then esc_flags nd ctl true spc htm qpt del url r
      else if f =? 83 then esc_flags nd ctl bin true htm qpt del url r
      else if f =? 85 then esc_flags nd ctl bin spc htm qpt del true r
      else if f =? 38 then esc_flags nd ctl bin spc true qpt del url r
      else if f =? 61 then esc_flags nd ctl bin spc htm true del url r
      else if f =? 35 then esc_flags nd ctl bin spc htm qpt true url r
      else stop
  | _ => stop
  end.
Definition esc_options (escs : list Z) : esc_opts :=
  esc_flags false false false false false false false false escs.

Definition esc_needed (o : esc_opts) (in2byte : bool) (ch : Z) : bool :=
  negb (nodflt o) && ((128 <=? ch) || iscntrl ch || (ch =? PCT))
  || escctl o && iscntrl ch || escbin o && (128 <=? ch) || escspc o && isspace ch
  || (negb in2byte || escurl o) && is_set (o_escs o) ch.
Definition esc_buf (o : esc_opts) (ch : Z) : list Z :=
  if escdel o then []
  else if escqpt o then EQ :: hex2U ch
  else if eschtm o
  then if ch =? 34 then cs "%26quot%3B" else cs "%26%23" ++ fmt_d ch ++ cs "%3B"
  else PCT :: hex2L ch.
(** [ESC $] begins two byte characters, [ESC (] ends them. *)
Definition next2 (in2byte : bool) (ch : Z) (r : list Z) : bool :=
  if ch =? ESC
  then if cat r 0 =? 36 then true else if cat r 0 =? 40 then false else in2byte
  else in2byte.

(** [dp] is null until the first escape; [src] is the text and [pos] where
    [sp] is.  The result is the number of escapes and what is in [dst], where
    [None] stands for nothing. *)
Fixpoint url_escapeY_loop (o : esc_opts) (sbrk : option (list Z)) (siz : Z) (src sp : list Z)
  (pos : Z) (in2byte : bool) (nesc : Z) (dp : option (list Z)) : Z * option (list Z) :=
  match sp with
  | [] => (nesc, dp)
  | ch :: r =>
      if match sbrk with Some b => is_set b ch | None => false end
      then (nesc, (fun out => out ++ take (Z.to_nat (siz - 1 - zlen out - 1)) sp) <$> dp)
      else if match dp with Some out => (0 <? siz) && (siz - 1 <=? zlen out) | None => false end
      then (nesc, dp)
      else
        let in2byte := next2 in2byte ch r in
        if esc_needed o in2byte ch
        then
          if bool_decide (dp = None) && (siz <=? pos)
          then (nesc, Some (take (Z.to_nat (siz - 1)) src))
          else
            let out := default (take (Z.to_nat pos) src) dp in
            let buf := esc_buf o ch in
            if bool_decide (buf <> []) && (siz - 1 <=? zlen out + zlen buf)
            then (nesc, Some out)
            else url_escapeY_loop o sbrk siz src r (pos + 1) in2byte (nesc + 1) (Some (out ++ buf))
        else url_escapeY_loop o sbrk siz src r (pos + 1) in2byte nesc ((fun out => out ++ [ch]) <$> dp)
  end.
Definition url_escapeY (src : list Z) (siz : Z) (escs : list Z) (sbrk : option (list Z))
  : Z * option (list Z) :=
  url_escapeY_loop (esc_options escs) sbrk siz src src 0 false 0 None.

(** [inplace] says that source and destination are the same string. *)
Definition url_escapeX (inplace : bool) (src : list Z) (siz : Z) (escs : list Z)
  (sbrk : option (list Z)) : Z * list Z :=
  let '(nesc, dst) := url_escapeY src (if inplace then Z.min 4096 siz else siz) escs sbrk in
  if nesc =? 0
  then (nesc, if inplace then src else take (Z.to_nat (siz - 1)) src)
  else (nesc, default src dst).

Definition logurl_escapeX (inplace : bool) (src : list Z) (siz : Z) : list Z :=
  (url_escapeX inplace src siz ([SP; TAB; CR; LF; PCT; 34] ++ cs "<>") None).2.
Definition nonxalpha_escapeX (inplace : bool) (src : list Z) (siz : Z) : list Z :=
  (url_escapeX inplace src siz ([SP; TAB; LF] ++ cs "%?#") None).2.
Definition safe_escapeX (inplace : bool) (src : list Z) (siz : Z) : list Z :=
  (url_escapeX inplace src siz ([SP; TAB; LF; 34] ++ cs "#%&'/<>?") None).2.

(** ** [url_strstrX] *)

Definition h2toi (h2 : list Z) : Z := if hex_at h2 then xx_at h2 else -1.
(** [isupper(c) ? tolower(c) : c] is [tolower c].  The result is what of the
    URL was matched, [None] a read behind an end. *)
Fixpoint url_strstrX_loop (fuel : nat) (url pat : list Z) (nocase : bool) (ulen plen : Z)
  : option Z :=
  match fuel with
  | O => None
  | S fuel' =>
      let pch := schar (cat pat plen) in
      if zlen pat <? plen then None
      else if pch =? 0 then Some ulen
      else if zlen url <? ulen then None
      else
          let uch := schar (cat url ulen) in
          let ulen := ulen + 1 in
          let next u p := url_strstrX_loop fuel' url pat nocase (ulen + u) (plen + 1 + p) in
          let xuch := h2toi (drop (Z.to_nat ulen) url) in
          let xpch := h2toi (drop (Z.to_nat (plen + 1)) pat) in
          if (uch =? pch) && negb (uch =? PCT) then next 0 0
          else if negb (uch =? PCT) && nocase && (tolower uch =? tolower pch) then next 0 0
          else if (uch =? PCT) && (xuch =? pch) then next 2 0
          else if (pch =? PCT) && (xpch =? uch) then next 0 2
          else if (uch =? PCT) && (pch =? PCT) && (xuch =? xpch) then next 2 2
          else Some 0
  end.
Definition url_strstrX (url pat : list Z) (nocase : bool) : option Z :=
  url_strstrX_loop (S (length pat)) url pat nocase 0 0.

(** ** [URL_unescape] and [URL_reescape] *)

Definition isRESERVED (ch : Z) : bool := strchr (cs ":/@.?&=+#") ch.
(** [rsp] is what is in front of the position, last character first. *)
Definition set2B (rsp : list Z) (in2byte : bool) : bool :=
  match rsp with
  | _ :: b2 :: b3 :: _ =>
      if b3 =? ESC then if b2 =? 36 then true else if b2 =? 40 then false else in2byte
      else in2byte
  | _ => in2byte
  end.
Definition PLUS : Z := 43.

Fixpoint URL_unescape_loop (isform escrsvd : bool) (sp rsp rdp : list Z) (in2 out2 : bool)
  (nesc : Z) : list Z * Z :=
  match sp with
  | [] => (cstr (rev rdp), nesc)
  | ch :: r =>
      let in2 := set2B rsp in2 in
      let out2 := set2B rdp out2 in
      let put l n := URL_unescape_loop isform escrsvd r (ch :: rsp) (rev l ++ rdp) in2 out2 (nesc + n) in
      let other :=
        if out2 then put [ch] 0
        else if escrsvd && ((ch =? PCT) || isRESERVED ch) then put (PCT :: hex2U ch) 1
        else if negb escrsvd && (ch =? PLUS) && isform then put [SP] 1
        else put [ch] 0 in
      if in2 then put [ch] 0
      else
        match r with
        | x1 :: x2 :: r' =>
            if (ch =? PCT) && isxdigit x1 && isxdigit x2
            then if escrsvd && (xx x1 x2 =? PCT) then put [PCT] 0
                 else URL_unescape_loop isform escrsvd r' (x2 :: x1 :: ch :: rsp)
                        (xx x1 x2 :: rdp) in2 out2 (nesc + 1)
            else other
        | _ => other
        end
  end.
Definition URL_unescape (src : list Z) (isform escrsvd : bool) : list Z * Z :=
  URL_unescape_loop isform escrsvd src [] [] false false 0.

Fixpoint URL_reescape_loop (isform rstrsvd : bool) (sp rsp rdp : list Z) (in2 : bool) (nesc : Z)
  : list Z * Z :=
  match sp with
  | [] => (cstr (rev rdp), nesc)
  | ch :: r =>
      let in2 := set2B rsp in2 in
      let put l n := URL_reescape_loop isform rstrsvd r (ch :: rsp) (rev l ++ rdp) in2 (nesc + n) in
      let other :=
        if negb rstrsvd && negb in2 && isRESERVED ch then put [ch] 0
        else if isalnum ch || (ch =? 95) || (ch =? 45) then put [ch] 0
        else if negb rstrsvd && negb in2 && (ch =? SP) && isform then put [PLUS] 1
        else put (PCT :: hex2U ch) 1 in
      match r with
      | x1 :: x2 :: r' =>
          if negb in2 && rstrsvd && (ch =? PCT) && isxdigit x1 && isxdigit x2
          then if isRESERVED (xx x1 x2)
               then URL_reescape_loop isform rstrsvd r' (x2 :: x1 :: ch :: rsp) (xx x1 x2 :: rdp)
                      in2 nesc
               else if xx x1 x2 =? PCT then put [PCT] 0 else other
          else other
      | _ => other
      end
  end.
Definition URL_reescape (src : list Z) (isform rstrsvd : bool) : list Z * Z :=
  URL_reescape_loop isform rstrsvd src [] [] false 0.

Fixpoint URL_unescape2B (src : list Z) : list Z :=
  match src with
  | [] => []
  | ch :: r =>
      match r with
      | x1 :: x2 :: r' =>
          if (ch =? PCT) && isxdigit x1 && isxdigit x2 && (128 <=? xx x1 x2)
          then xx x1 x2 :: URL_unescape2B r' else ch :: URL_unescape2B r
      | _ => ch :: URL_unescape2B r
      end
  end.
Fixpoint URL_escape2B (src : list Z) : list Z :=
  match src with
  | [] => []
  | ch :: r => (if 128 <=? ch then PCT :: hex2U ch else [ch]) ++ URL_escape2B r
  end.


(** ** Two digits *)
Definition is_hex2 (h1 h2 c : Z) : Prop := isxdigit h1 = true /\ isxdigit h2 = true /\ xx h1 h2 = c.
Lemma hex2L_spec c : 0 <= c < 256 -> is_hex2 (hexLower (c / 16)) (hexLower (c mod 16)) c.
Proof.
  intros Hc. pose (p c := isxdigit (hexLower (c / 16)) && isxdigit (hexLower (c mod 16))
    && (xx (hexLower (c / 16)) (hexLower (c mod 16)) =? c)).
  assert (Hp : p c = true) by (apply (zrange_all_spec 256); [by vm_compute|lia]).
  apply andb_prop in Hp as [[H1 H2]%andb_prop H3%Z.eqb_eq]. done.
Qed.
Lemma hex2U_spec c : 0 <= c < 256 -> is_hex2 (hexUpper (c / 16)) (hexUpper (c mod 16)) c.
Proof.
  intros Hc. pose (p c := isxdigit (hexUpper (c / 16)) && isxdigit (hexUpper (c mod 16))
    && (xx (hexUpper (c / 16)) (hexUpper (c mod 16)) =? c)).
  assert (Hp : p c = true) by (apply (zrange_all_spec 256); [by vm_compute|lia]).
  apply andb_prop in Hp as [[H1 H2]%andb_prop H3%Z.eqb_eq]. done.
Qed.

(** A text that stands for [s]: characters other than the percent sign stand
    for themselves, any character may be written by its number. *)
Inductive encodes : list Z -> list Z -> Prop :=
| en_nil : encodes [] []
| en_raw c s t : c <> PCT -> encodes s t -> encodes (c :: s) (c :: t)
| en_esc c h1 h2 s t : is_hex2 h1 h2 c -> encodes s t -> encodes (c :: s) (PCT :: h1 :: h2 :: t).

Lemma nonxalpha_loop_encodes s t : encodes s t -> forall out num, exists num',
  nonxalpha_loop true t out num = (cstr (out ++ s), num').
Proof.
  induction 1 as [|c s t Hc _ IH|c h1 h2 s t (H1 & H2 & Hx) _ IH]; intros out num.
  - exists num. by rewrite app_nil_r.
  - destruct (IH (out ++ [c]) num) as [num' E]. exists num'. cbn [nonxalpha_loop].
    rewrite <- app_assoc in E. destruct t as [|x1 [|x2 t']]; try exact E.
    by rewrite (proj2 (Z.eqb_neq _ _) Hc).
  - destruct (IH (out ++ [c]) (num + 1)) as [num' E]. exists num'. cbn [nonxalpha_loop].
    rewrite Z.eqb_refl, H1, H2, Hx. by rewrite <- app_assoc in E.
Qed.

(** ** Escaping is character by character *)
Fixpoint esc_text (o : esc_opts) (in2byte : bool) (s : list Z) : list Z :=
  match s with
  | [] => []
  | ch :: r => let in2byte := next2 in2byte ch r in
               (if esc_needed o in2byte ch then esc_buf o ch else [ch]) ++ esc_text o in2byte r
  end.
Fixpoint esc_count (o : esc_opts) (in2byte : bool) (s : list Z) : Z :=
  match s with
  | [] => 0
  | ch :: r => let in2byte := next2 in2byte ch r in
               (if esc_needed o in2byte ch then 1 else 0) + esc_count o in2byte r
  end.
Lemma esc_count_nonneg o s : forall in2, 0 <= esc_count o in2 s.
Proof.
  induction s as [|c s IH]; intros in2; cbn [esc_count]; [done|].
  specialize (IH (next2 in2 c s)). destruct (esc_needed _ _ _); lia.
Qed.
Lemma esc_count_0 o s : forall in2, esc_count o in2 s = 0 -> esc_text o in2 s = s.
Proof.
  induction s as [|c s IH]; intros in2; cbn [esc_count esc_text]; [done|].
  pose proof (esc_count_nonneg o s (next2 in2 c s)). destruct (esc_needed _ _ _); [lia|].
  intros Hc. by rewrite IH.
Qed.

Lemma escapeY_some o siz src s : forall pos in2 nesc out,
  zlen out + zlen (esc_text o in2 s) + 1 < siz ->
  url_escapeY_loop o None siz src s pos in2 nesc (Some out) =
  (nesc + esc_count o in2 s, Some (out ++ esc_text o in2 s)).
Proof.
  induction s as [|c s IH]; intros pos in2 nesc out Hsiz; cbn [url_escapeY_loop esc_count esc_text].
  - by rewrite app_nil_r, Z.add_0_r.
  - cbn [esc_text] in Hsiz. set (in2' := next2 in2 c s) in *. rewrite zlen_app in Hsiz.
    pose proof (zlen_nonneg (esc_text o in2' s)). pose proof (zlen_nonneg out).
    destruct (esc_needed o in2' c) eqn:En.
    + pose proof (zlen_nonneg (esc_buf o c)).
      rewrite (proj2 (Z.leb_gt (siz - 1) (zlen out))), andb_false_r by lia.
      rewrite bool_decide_false by done. cbn [andb default from_option id].
      rewrite (proj2 (Z.leb_gt (siz - 1) _)), andb_false_r by lia.
      rewrite IH by (rewrite zlen_app; lia). by rewrite <- app_assoc, <- Z.add_assoc.
    + rewrite zlen_cons, zlen_nil in Hsiz.
      rewrite (proj2 (Z.leb_gt (siz - 1) (zlen out))), andb_false_r by lia.
      cbn [fmap option_fmap option_map]. rewrite IH by (rewrite zlen_app, zlen_cons, zlen_nil; lia).
      by rewrite <- app_assoc.
Qed.
Lemma escapeY_none o siz src s : forall pre in2, src = pre ++ s ->
  zlen pre + zlen (esc_text o in2 s) + 1 < siz ->
  url_escapeY_loop o None siz src s (zlen pre) in2 0 None =
  (esc_count o in2 s, if esc_count o in2 s =? 0 then None else Some (pre ++ esc_text o in2 s)).
Proof.
  induction s as [|c s IH]; intros pre in2 Hsrc Hsiz; cbn [url_escapeY_loop esc_count esc_text]; [done|].
  cbn [esc_text] in Hsiz. set (in2' := next2 in2 c s) in *. rewrite zlen_app in Hsiz.
  pose proof (zlen_nonneg (esc_text o in2' s)). pose proof (zlen_nonneg pre).
  pose proof (esc_count_nonneg o s in2') as Hn.
  destruct (esc_needed o in2' c).
  - pose proof (zlen_nonneg (esc_buf o c)). rewrite (proj2 (Z.leb_gt siz (zlen pre))), andb_false_r by lia.
    assert (Hpre : take (Z.to_nat (zlen pre)) src = pre).
    { rewrite Hsrc. unfold zlen. rewrite Nat2Z.id. apply take_app_length. }
    cbn [default from_option id]. rewrite Hpre.
    rewrite (proj2 (Z.leb_gt (siz - 1) _)), andb_false_r by lia.
    rewrite escapeY_some by (rewrite zlen_app; lia).
    rewrite (proj2 (Z.eqb_neq _ 0)) by lia. rewrite <- app_assoc. done.
  - cbn [fmap option_fmap option_map]. rewrite zlen_cons, zlen_nil in Hsiz.
    replace (zlen pre + 1) with (zlen (pre ++ [c])) by (rewrite zlen_app, zlen_cons, zlen_nil; lia).
    rewrite IH; [|by rewrite <- app_assoc|rewrite zlen_app, zlen_cons, zlen_nil; lia].
    rewrite <- app_assoc. done.
Qed.
(** With room for the text and two characters more it is the escaped text. *)
Lemma url_escapeX_text (inplace : bool) s siz escs : let o := esc_options escs in
  zlen (esc_text o false s) + 1 < (if inplace then Z.min 4096 siz else siz) ->
  url_escapeX inplace s siz escs None = (esc_count o false s, esc_text o false s).
Proof.
  intros o Hsiz. unfold url_escapeX, url_escapeY. fold o.
  pose proof (escapeY_none o (if inplace then Z.min 4096 siz else siz) s s [] false eq_refl Hsiz) as E.
  change (zlen (@nil Z)) with 0 in E. rewrite E. destruct (Z.eqb_spec (esc_count o false s) 0) as [E0|]; [|done].
  rewrite E0. f_equal. rewrite (esc_count_0 o s false E0) in *. destruct inplace; [done|].
  apply take_ge. unfold zlen in Hsiz. lia.
Qed.

Definition plain_opts (o : esc_opts) : Prop :=
  nodflt o = false /\ eschtm o = false /\ escqpt o = false /\ escdel o = false.
Lemma esc_text_encodes o s : plain_opts o -> cstr_ok s -> forall in2, encodes s (esc_text o in2 s).
Proof.
  intros (Hn & Hh & Hq & Hd). induction 1 as [|c s Hc Hs IH]; intros in2; cbn [esc_text]; [constructor|].
  set (in2' := next2 in2 c s). destruct (esc_needed o in2' c) eqn:En.
  - unfold esc_buf. rewrite Hd, Hq, Hh. cbn [app]. apply en_esc; [|done]. apply hex2L_spec.
    unfold cchar_ok in Hc. lia.
  - apply en_raw; [|done]. intros ->. unfold esc_needed in En. rewrite Hn in En.
    rewrite orb_true_r in En. done.
Qed.

(** Escaped texts read as they were: with room for the escaped text and
    two characters more, what [url_escapeX] writes is unescaped by
    [nonxalpha_unescape] to the text, whatever set of characters is escaped,
    as long as the flags in front of the set do not ask for another form. *)
Theorem url_escape_roundtrip (inplace : bool) (s escs : list Z) (siz : Z) :
  let o := esc_options escs in
  cstr_ok s -> plain_opts o -> zlen (esc_text o false s) + 1 < (if inplace then Z.min 4096 siz else siz) ->
  (nonxalpha_unescape (url_escapeX inplace s siz escs None).2 true).1 = s.
Proof.
  intros o Hs Ho Hsiz. rewrite url_escapeX_text by done. unfold nonxalpha_unescape. cbn [snd].
  destruct (nonxalpha_loop_encodes s _ (esc_text_encodes o s Ho Hs false) [] 0) as [n E].
  fold o. rewrite E. by apply cstr_ok_cstr.
Qed.
Lemma url_escape_roundtrip_witness :
  let s := ESC :: cs "$B%41/ <b>(%)" in
  (nonxalpha_unescape (url_escapeX true s 64 (cs " <>") None).2 true).1 = s.
Proof.
  apply (url_escape_roundtrip true).
  - apply (bool_decide_unpack _). by vm_compute.
  - done.
  - by vm_compute.
Defined.

(** ** [URL_reescape] and [URL_unescape] *)
Definition no_esc (l : list Z) : Prop := Forall (fun c => c <> ESC) l.
Lemma set2B_no_esc rsp : no_esc rsp -> set2B rsp false = false.
Proof.
  intros H. destruct rsp as [|b1 [|b2 [|b3 rsp]]]; try done. cbn [set2B].
  apply Forall_cons in H as [_ [_ [H3 _]%Forall_cons]%Forall_cons].
  by rewrite (proj2 (Z.eqb_neq _ _) H3).
Qed.
Lemma hex_no_esc h : isxdigit h = true -> h <> ESC.
Proof. by intros H ->. Qed.

(** What a character is escaped to, by position and mode. *)
Definition plain_char (c : Z) : bool := isalnum c || (c =? 95) || (c =? 45).
Definition re_char (isform in2 : bool) (c : Z) : list Z :=
  if negb in2 && isRESERVED c || plain_char c then [c]
  else if negb in2 && (c =? SP) && isform then [PLUS] else PCT :: hex2U c.
Fixpoint re_text (isform : bool) (rsp : list Z) (in2 : bool) (sp : list Z) : list Z :=
  match sp with
  | [] => []
  | ch :: r => let in2 := set2B rsp in2 in
               re_char isform in2 ch ++ re_text isform (ch :: rsp) in2 r
  end.

Lemma reescape_loop_text isform sp : forall rsp rdp in2 n,
  (URL_reescape_loop isform false sp rsp rdp in2 n).1 = cstr (rev rdp ++ re_text isform rsp in2 sp).
Proof.
  induction sp as [|c sp IH]; intros rsp rdp in2 n; cbn [URL_reescape_loop re_text].
  - by rewrite app_nil_r.
  - set (in2' := set2B rsp in2). rewrite andb_false_r. cbn [andb negb].
    match goal with |- context [match sp with [] => ?o | _ => _ end] => set (other := o) end.
    assert (E : match sp with x1 :: x2 :: _ => other | _ => other end = other)
      by (by destruct sp as [|? [|? ?]]).
    rewrite E. subst other. unfold re_char, plain_char.
    assert (Hput : forall l k, (URL_reescape_loop isform false sp (c :: rsp) (rev l ++ rdp) in2' (n + k)).1
      = cstr (rev rdp ++ l ++ re_text isform (c :: rsp) in2' sp)).
    { intros l k. by rewrite IH, rev_app_distr, rev_involutive, <- app_assoc. }
    destruct (negb in2' && isRESERVED c); [apply (Hput [c])|]. cbn [orb].
    destruct (isalnum c || (c =? 95) || (c =? 45)); [apply (Hput [c])|].
    destruct (negb in2' && (c =? SP) && isform); [apply (Hput [PLUS])|apply Hput].
Qed.

(** One step of [URL_unescape] on a character that is not a percent sign, and
    on an escape. *)
Lemma unescape_raw isform escrsvd c t rsp rdp out2 n : no_esc rsp -> c <> PCT ->
  escrsvd && isRESERVED c = false -> (isform = true -> set2B rdp out2 = true \/ c <> PLUS) ->
  exists n', URL_unescape_loop isform escrsvd (c :: t) rsp rdp false out2 n =
    URL_unescape_loop isform escrsvd t (c :: rsp) (c :: rdp) false (set2B rdp out2) n'.
Proof.
  intros Hr Hc He Hf. cbn [URL_unescape_loop]. rewrite set2B_no_esc by done.
  rewrite (proj2 (Z.eqb_neq c PCT) Hc). cbn [orb andb].
  assert (E : escrsvd && isRESERVED c = false) by done. rewrite E.
  assert (Hp : set2B rdp out2 = false -> negb escrsvd && (c =? PLUS) && isform = false).
  { intros H2. destruct isform; [|by rewrite andb_false_r]. destruct Hf as [Hf|Hf]; [done|congruence|].
    by rewrite (proj2 (Z.eqb_neq _ _) Hf), andb_false_r. }
  destruct (set2B rdp out2); [|rewrite Hp by done]; cbn [rev app]; exists (n + 0);
    by destruct t as [|? [|? ?]].
Qed.
Lemma unescape_esc isform escrsvd c h1 h2 t rsp rdp out2 n : no_esc rsp -> is_hex2 h1 h2 c ->
  escrsvd && (c =? PCT) = false ->
  URL_unescape_loop isform escrsvd (PCT :: h1 :: h2 :: t) rsp rdp false out2 n =
  URL_unescape_loop isform escrsvd t (h2 :: h1 :: PCT :: rsp) (c :: rdp) false (set2B rdp out2) (n + 1).
Proof.
  intros Hr (H1 & H2 & Hx) He. cbn [URL_unescape_loop]. rewrite set2B_no_esc by done.
  rewrite Z.eqb_refl, H1, H2, Hx. cbn [andb]. by rewrite He.
Qed.
Lemma unescape_pct isform h1 h2 t u rsp rdp out2 n : no_esc rsp -> is_hex2 h1 h2 PCT ->
  u = h1 :: h2 :: t ->
  URL_unescape_loop isform true (PCT :: u) rsp rdp false out2 n =
  URL_unescape_loop isform true u (PCT :: rsp) (PCT :: rdp) false (set2B rdp out2) (n + 0).
Proof.
  intros Hr (H1 & H2 & Hx) Hu. cbn [URL_unescape_loop]. rewrite set2B_no_esc by done.
  set (rec := URL_unescape_loop isform true u). clearbody rec. subst u. by rewrite Z.eqb_refl, H1, H2, Hx.
Qed.
Lemma no_esc_hex h1 h2 c rsp : is_hex2 h1 h2 c -> no_esc rsp -> no_esc (h2 :: h1 :: PCT :: rsp).
Proof. intros (H1 & H2 & _) Hr. repeat constructor; [by apply hex_no_esc..|done|done]. Qed.

Lemma unescape_re_text isform s : forall rsp rsp' in2 n, no_esc rsp' ->
  Forall (fun c => 0 < c < 256 /\ (isform = true -> c <> PLUS)) s ->
  (URL_unescape_loop isform false (re_text isform rsp in2 s) rsp' rsp false in2 n).1 =
  cstr (rev rsp ++ s).
Proof.
  induction s as [|c s IH]; intros rsp rsp' in2 n Hr Hs; cbn [re_text]; [by rewrite app_nil_r|].
  apply Forall_cons in Hs as [[Hc Hp] Hs]. set (in2' := set2B rsp in2). unfold re_char.
  assert (Hrest : forall rsp' n', no_esc rsp' ->
    (URL_unescape_loop isform false (re_text isform (c :: rsp) in2' s) rsp' (c :: rsp) false in2' n').1
    = cstr (rev rsp ++ c :: s)).
  { intros r n' Hno. rewrite IH by done. cbn [rev]. by rewrite <- app_assoc. }
  destruct (negb in2' && isRESERVED c || plain_char c) eqn:Eraw.
  - cbn [app]. assert (Hne : c <> PCT /\ c <> ESC).
    { split; intros ->; by destruct in2'. }
    destruct Hne as [Hne He].
    destruct (unescape_raw isform false c (re_text isform (c :: rsp) in2' s) rsp' rsp in2 n Hr Hne eq_refl)
      as [n' ->]; [intros Hf; right; by apply Hp|]. apply Hrest. by constructor.
  - destruct (negb in2' && (c =? SP) && isform) eqn:Esp.
    + apply andb_prop in Esp as [[H2%negb_true_iff ->%Z.eqb_eq]%andb_prop ->]. cbn [app].
      cbn [URL_unescape_loop]. rewrite set2B_no_esc by done. fold in2'. rewrite H2.
      change (PLUS =? PCT) with false. change (PLUS =? PLUS) with true. cbn [orb andb negb rev app].
      assert (Hno : no_esc (PLUS :: rsp')) by (by constructor).
      specialize (Hrest _ (n + 1) Hno). rewrite H2 in Hrest.
      destruct (re_text true (SP :: rsp) false s) as [|? [|? ?]]; exact Hrest.
    + cbn [app hex2U]. pose proof (hex2U_spec c ltac:(lia)) as Hx.
      change (PCT :: hex2U c ++ re_text isform (c :: rsp) in2' s) with
        (PCT :: hexUpper (c / 16) :: hexUpper (c mod 16) :: re_text isform (c :: rsp) in2' s).
      rewrite (unescape_esc isform false c) by done. apply Hrest. by eapply no_esc_hex.
Qed.

Lemma esc_cstr_ok c l : 0 <= c < 256 -> cstr_ok l -> cstr_ok ((PCT :: hex2U c) ++ l).
Proof.
  intros Hc Hl. destruct (hex2U_spec c Hc) as (H1 & H2 & _).
  assert (Hd : forall h, isxdigit h = true -> cchar_ok h).
  { intros h. unfold isxdigit, isdigit, cchar_ok. lia. }
  apply Forall_cons. split; [by unfold cchar_ok, PCT|].
  apply Forall_cons. split; [by apply Hd|]. apply Forall_cons. split; [by apply Hd|done].
Qed.

(** [URL_unescape] undoes [URL_reescape], in forms too, where a space is
    written as a plus sign and back; only a plus sign that is in the text of
    a form is not escaped. *)
Theorem URL_reescape_roundtrip (s : list Z) (isform : bool) :
  cstr_ok s -> (isform = true -> ~ In PLUS s) ->
  (URL_unescape (URL_reescape s isform false).1 isform false).1 = s.
Proof.
  intros Hs Hp. unfold URL_reescape, URL_unescape. rewrite reescape_loop_text.
  assert (Hchars : Forall (fun c => 0 < c < 256 /\ (isform = true -> c <> PLUS)) s).
  { apply Forall_forall. intros c Hc. split; [by eapply Forall_forall in Hs|].
    intros Hf ->. apply Hp; [done|]. by apply list_elem_of_In. }
  assert (Hc : cstr_ok (re_text isform [] false s)).
  { clear Hp Hchars. generalize (@nil Z), false. induction Hs as [|c s Hc _ IH]; intros rsp b;
      cbn [re_text]; [constructor|]. apply cstr_ok_app. split; [|apply IH]. unfold re_char.
    destruct (_ || _); [by repeat constructor; apply Hc|]. destruct (_ && isform); [by repeat constructor|].
    rewrite <- (app_nil_r (PCT :: hex2U c)). apply esc_cstr_ok; [unfold cchar_ok in Hc; lia|constructor]. }
  cbn [rev app]. rewrite (cstr_ok_cstr _ Hc), unescape_re_text; [|constructor|done].
  by apply cstr_ok_cstr.
Qed.
Lemma URL_reescape_roundtrip_witness :
  (URL_unescape (URL_reescape (cs "a b/c%d?=e") true false).1 true false).1 = cs "a b/c%d?=e".
Proof.
  apply URL_reescape_roundtrip; [apply (bool_decide_unpack _); by vm_compute|].
  intros _ H. by vm_compute in H; intuition discriminate.
Defined.
(** A plus sign of a form becomes a space. *)
Lemma form_plus_is_lost :
  (URL_unescape (URL_reescape (URL_unescape (cs "a%2Bb") true false).1 true false).1 true false).1
  = cs "a b".
Proof. vm_compute. reflexivity. Qed.

(** ** URLs through [URL_unescape] and back

    [cv_text u m]: the URL [u] has its reserved characters as they are, and
    escapes (with upper case digits) of the characters that need one; [m] is
    what a character code conversion gets to see of it, where the reserved
    characters are the ones that are escaped. *)
Definition is_rsvd (c : Z) : bool := is_set (cs ":/@.?&=+#") c.
Inductive cv_text : list Z -> list Z -> Prop :=
| cv_nil : cv_text [] []
| cv_plain c u m : plain_char c = true -> cv_text u m -> cv_text (c :: u) (c :: m)
| cv_rsvd c u m : is_rsvd c = true -> cv_text u m -> cv_text (c :: u) ((PCT :: hex2U c) ++ m)
| cv_pct u m : cv_text u m -> cv_text ((PCT :: hex2U PCT) ++ u) ((PCT :: hex2U PCT) ++ m)
| cv_esc c u m : 0 < c < 256 -> plain_char c = false -> c <> PCT -> c <> ESC -> cv_text u m ->
    cv_text ((PCT :: hex2U c) ++ u) (c :: m).

Lemma plain_char_not c : plain_char c = true ->
  c <> PCT /\ c <> ESC /\ isRESERVED c = false /\ cchar_ok c.
Proof.
  intros Hc. assert (Hr : 0 < c < 128).
  { unfold plain_char, isalnum, isalpha, isupper, islower, isdigit in Hc. lia. }
  split_and!; try (by intros ->); [|unfold cchar_ok; lia].
  pose (p c := negb (plain_char c) || negb (isRESERVED c)).
  assert (Hp : p c = true) by (apply (zrange_all_spec 128); [by vm_compute|lia]).
  unfold p in Hp. rewrite Hc in Hp. by apply negb_true_iff in Hp.
Qed.
Lemma is_rsvd_cases c : is_rsvd c = true ->
  isRESERVED c = true /\ c <> PCT /\ c <> ESC /\ 0 < c < 256 /\ plain_char c = false.
Proof.
  unfold is_rsvd, is_set. intros H. apply existsb_exists in H as (x & Hx & ->%Z.eqb_eq).
  cbn in Hx. decompose [or] Hx; try done; subst; by vm_compute.
Qed.

Section convert.
Context (isform : bool).

Lemma unescape_cv u m : cv_text u m -> forall rsp rdp n, no_esc rsp -> no_esc rdp ->
  (URL_unescape_loop isform true u rsp rdp false false n).1 = cstr (rev rdp ++ m).
Proof using.
  induction 1 as [|c u m Hc _ IH|c u m Hc _ IH|u m _ IH|c u m Hc Hp Hpct He _ IH]; intros rsp rdp n Hr Hd.
  - by rewrite app_nil_r.
  - destruct (plain_char_not c Hc) as (H1 & H2 & H3 & _).
    destruct (unescape_raw isform true c u rsp rdp false n Hr H1 H3) as [n' ->].
    { intros _. right. intros ->. done. }
    rewrite (set2B_no_esc rdp Hd), IH by (by constructor). cbn [rev]. by rewrite <- app_assoc.
  - destruct (is_rsvd_cases c Hc) as (H1 & H2 & H3 & H4 & _). cbn [URL_unescape_loop].
    rewrite !set2B_no_esc by done. rewrite (proj2 (Z.eqb_neq _ _) H2), H1. cbn [orb andb].
    set (rdp' := rev (PCT :: hex2U c) ++ rdp).
    assert (E : (URL_unescape_loop isform true u (c :: rsp) rdp' false false (n + 1)).1 =
      cstr (rev rdp ++ (PCT :: hex2U c) ++ m)).
    { destruct (hex2U_spec c ltac:(lia)) as (X1 & X2 & _). rewrite IH.
      - subst rdp'. by rewrite rev_app_distr, rev_involutive, <- app_assoc.
      - by constructor.
      - subst rdp'. cbn [rev app hex2U]. by apply (no_esc_hex _ _ c); [apply hex2U_spec; lia|]. }
    destruct u as [|? [|? ?]]; exact E.
  - change ((PCT :: hex2U PCT) ++ u) with (PCT :: 50 :: 53 :: u).
    rewrite (unescape_pct isform 50 53 u) by done. rewrite (set2B_no_esc rdp Hd).
    destruct (unescape_raw isform true 50 (53 :: u) (PCT :: rsp) (PCT :: rdp) false (n + 0)) as [n' ->];
      [by constructor|done|done|by right|].
    rewrite (set2B_no_esc (PCT :: rdp)) by (by constructor).
    destruct (unescape_raw isform true 53 u (50 :: PCT :: rsp) (50 :: PCT :: rdp) false n') as [n'' ->];
      [by repeat constructor|done|done|by right|].
    rewrite (set2B_no_esc (50 :: PCT :: rdp)) by (by repeat constructor).
    rewrite IH by (by repeat constructor). cbn [rev]. by rewrite <- !app_assoc.
  - pose proof (hex2U_spec c ltac:(lia)) as Hx.
    change ((PCT :: hex2U c) ++ u) with (PCT :: hexUpper (c / 16) :: hexUpper (c mod 16) :: u).
    rewrite (unescape_esc isform true c); [|done|done|by rewrite (proj2 (Z.eqb_neq _ _) Hpct)].
    rewrite (set2B_no_esc rdp Hd), IH; [|by eapply no_esc_hex|by constructor].
    cbn [rev]. by rewrite <- app_assoc.
Qed.

Lemma reescape_raw c m rsp rdp n : no_esc rsp -> c <> PCT ->
  exists n', URL_reescape_loop isform true (c :: m) rsp rdp false n =
    URL_reescape_loop isform true m (c :: rsp)
      (rev (if plain_char c then [c] else PCT :: hex2U c) ++ rdp) false n'.
Proof using.
  intros Hr Hc. cbn [URL_reescape_loop]. rewrite set2B_no_esc by done.
  rewrite (proj2 (Z.eqb_neq c PCT) Hc). cbn [negb andb].
  unfold plain_char. destruct (isalnum c || _ || _); [exists (n + 0)|exists (n + 1)];
    by destruct m as [|? [|? ?]].
Qed.
Lemma reescape_pct h1 h2 t m rsp rdp n : no_esc rsp -> is_hex2 h1 h2 PCT -> m = h1 :: h2 :: t ->
  URL_reescape_loop isform true (PCT :: m) rsp rdp false n =
  URL_reescape_loop isform true m (PCT :: rsp) (PCT :: rdp) false (n + 0).
Proof using.
  intros Hr (H1 & H2 & Hx) Hm. cbn [URL_reescape_loop]. rewrite set2B_no_esc by done.
  set (rec := URL_reescape_loop isform true m). clearbody rec. subst m.
  by rewrite Z.eqb_refl, H1, H2, Hx.
Qed.
Lemma reescape_cv u m : cv_text u m -> forall rsp rdp n, no_esc rsp ->
  (URL_reescape_loop isform true m rsp rdp false n).1 = cstr (rev rdp ++ u).
Proof using.
  induction 1 as [|c u m Hc _ IH|c u m Hc _ IH|u m _ IH|c u m Hc Hp Hpct He _ IH]; intros rsp rdp n Hr.
  - by rewrite app_nil_r.
  - destruct (plain_char_not c Hc) as (H1 & H2 & _).
    destruct (reescape_raw c m rsp rdp n Hr H1) as [n' ->]. rewrite Hc.
    rewrite IH by (by constructor). cbn [rev app]. by rewrite <- app_assoc.
  - destruct (is_rsvd_cases c Hc) as (H1 & _ & _ & H4 & _).
    pose proof (hex2U_spec c ltac:(lia)) as Hx. pose proof Hx as (X1 & X2 & X3).
    change ((PCT :: hex2U c) ++ m) with (PCT :: hexUpper (c / 16) :: hexUpper (c mod 16) :: m).
    cbn [URL_reescape_loop]. rewrite set2B_no_esc by done.
    rewrite Z.eqb_refl, X1, X2, X3, H1. cbn [negb andb].
    rewrite IH by (by eapply no_esc_hex). cbn [rev]. by rewrite <- app_assoc.
  - change ((PCT :: hex2U PCT) ++ m) with (PCT :: 50 :: 53 :: m).
    rewrite (reescape_pct 50 53 m) by done.
    destruct (reescape_raw 50 (53 :: m) (PCT :: rsp) (PCT :: rdp) (n + 0)) as [n' ->];
      [by constructor|done|].
    destruct (reescape_raw 53 m (50 :: PCT :: rsp) (rev (if plain_char 50 then [50] else PCT :: hex2U 50)
      ++ PCT :: rdp) n') as [n'' ->]; [by repeat constructor|done|].
    rewrite IH by (by repeat constructor). change (plain_char 50) with true. change (plain_char 53) with true.
    cbn [rev app]. by rewrite <- !app_assoc.
  - destruct (reescape_raw c m rsp rdp n Hr Hpct) as [n' ->]. rewrite Hp.
    rewrite IH by (by constructor). by rewrite rev_app_distr, rev_involutive, <- app_assoc.
Qed.
End convert.

Lemma cv_text_ok u m : cv_text u m -> cstr_ok u /\ cstr_ok m.
Proof.
  induction 1 as [|c u m Hc _ [IH1 IH2]|c u m Hc _ [IH1 IH2]|u m _ [IH1 IH2]|c u m Hc Hp Hpct He _ [IH1 IH2]].
  - split; constructor.
  - destruct (plain_char_not c Hc) as (_ & _ & _ & H1). split; by constructor.
  - destruct (is_rsvd_cases c Hc) as (_ & _ & _ & H1 & _). split; [by constructor|apply esc_cstr_ok; [lia|done]].
  - split; apply esc_cstr_ok; done.
  - split; [apply esc_cstr_ok; [lia|done]|by constructor].
Qed.

(** A URL goes through the conversion of its characters and back
    unchanged: [URL_unescape] gives the text with only the reserved
    characters escaped, and [URL_reescape] gives the URL again, its reserved
    characters as they were, escaped or not. *)
Theorem URL_conversion_roundtrip (u m : list Z) (isform : bool) :
  cv_text u m ->
  (URL_unescape u isform true).1 = m /\ (URL_reescape m isform true).1 = u.
Proof.
  intros Hcv. destruct (cv_text_ok u m Hcv) as [Hu Hm]. unfold URL_unescape, URL_reescape.
  rewrite (unescape_cv isform u m Hcv), (reescape_cv isform u m Hcv) by constructor.
  by rewrite !cstr_ok_cstr.
Qed.
Lemma URL_conversion_roundtrip_witness :
  (URL_reescape (URL_unescape (cs "/a%2F%E3%81?%25x=") false true).1 false true).1
  = cs "/a%2F%E3%81?%25x=".
Proof.
  destruct (URL_conversion_roundtrip (cs "/a%2F%E3%81?%25x=")
    (cs "%2Fa/" ++ [227; 129] ++ cs "%3F%25x%3D") false) as [E1 E2].
  - apply (cv_rsvd 47); [done|]. apply cv_plain; [done|]. apply (cv_esc 47); [lia|done..|].
    apply (cv_esc 227); [lia|done..|]. apply (cv_esc 129); [lia|done..|]. apply (cv_rsvd 63); [done|].
    apply cv_pct. apply cv_plain; [done|]. apply (cv_rsvd 61); [done|]. constructor.
  - by rewrite E1.
Defined.

(** ** What goes wrong *)

(** Behind [ESC $] the characters of the set are not escaped, although the
    escape character itself is. *)
Lemma safe_escape_leaks :
  safe_escapeX false (ESC :: cs "$B<b>") 99 = cs "%1b$B<b>".
Proof. vm_compute. reflexivity. Qed.
(** When the first escape does not fit, the text is copied without escapes. *)
Lemma escape_too_long : safe_escapeX false (cs "abcd<b>") 8 = cs "abcd<b>".
Proof. vm_compute. reflexivity. Qed.

Example url_unescape_1 : url_unescape (cs "a%2fb%2Ec") 99 (cs "/") = (cs "a/b%2Ec", 2).
Proof. vm_compute. reflexivity. Qed.
Example url_escapeX_1 : url_escapeX false (cs "a b%c") 99 (cs " ") None = (2, cs "a%20b%25c").
Proof. vm_compute. reflexivity. Qed.
Example url_escapeX_2 : url_escapeX true (cs "<a>") 99 (cs "%%%&<>") None = (2, cs "%26%2360%3Ba%26%2362%3B").
Proof. vm_compute. reflexivity. Qed.
Example url_escapeX_3 : url_escapeX false (cs "a b;c d") 99 (cs " ") (Some (cs ";")) = (1, cs "a%20b;c d").
Proof. vm_compute. reflexivity. Qed.
Example url_strstrX_1 : url_strstrX (cs "/a%2Fb/c") (cs "/a/B") true = Some 6
  /\ url_strstrX (cs "/a/b") (cs "/a%2fb") false = Some 4 /\ url_strstrX (cs "/ab") (cs "/a/") false = Some 0.
Proof. vm_compute. done. Qed.
Example URL_unescape_1 : URL_unescape (cs "a%41/b%2fc%25d") false true = (cs "aA%2Fb/c%25d", 3).
Proof. vm_compute. reflexivity. Qed.
Example URL_reescape_1 : URL_reescape (cs "aA%2Fb/c%25d e") false true = (cs "aA/b%2Fc%25d%20e", 2).
Proof. vm_compute. reflexivity. Qed.
