(* ===== verification/Service.v ===== *)
(** * The table of services ([src/svconf.cpp], [src/service.cpp])

    The names of the protocols with their ports and the functions that serve
    them.  The first entry of the array is not used, and the searches end at
    the first one without a name; [None] is the table that has no such entry
    any more.  [SERVICE] adds names.  [DGAUTHpro] is ["dgauth"], and
    [SERV_HTTP] the server given with the entry of [http]. *)
From S2P Require Import Prelude VStr Strings Glob ListOps.
From stdpp Require Import options.

(** Distinct functions, compared and never called here. *)
Inductive servFunc :=
  | service_tcprelay | service_ftp | service_ftps | service_telnet | service_smtp
  | service_smtps | service_whois | service_domain | service_gopher | service_http
  | service_ftpxhttp | service_https | service_ftpxhttps | service_pop | service_imap
  | service_nntp | service_nbt | service_udprelay | service_wais | service_ldap | service_lpr
  | service_X | service_XSFlash | service_XCFlash | service_Y11 | service_yymux
  | service_yysh | service_syslog | service_socks | service_icap | service_icp | service_pam
  | service_DGAuth | service_delegate | service_tcprelay2 | service_udprelay1
  | service_teleport | service_coupler | service_vsap | service_sockmux | service_sudo
  | service_console | service_ecc | service_tunnel1 | service_file | service_cgi
  | service_cfi | service_exec | service_admin.
#[global] Instance servFunc_eq_dec : EqDecision servFunc.
Proof. solve_decision. Defined.

Definition PI_CLNT : Z := 1.
Definition PI_SERV : Z := 2.
Definition PI_BOTH : Z := 3.
Definition NSERVICES : nat := 100.
Definition SV_DISABLE : Z := 1.
Definition VPORT : Z := 65536.

Record Service := MkService {
  s_withcache : Z; s_initfrom : Z; s_selfack : Z;
  s_name : option (list Z);
  s_iport : Z;
  s_client : option servFunc;
  s_stls : Z;
  s_Host : option (list Z);
  s_stats : Z
}.
Definition no_service : Service := MkService 0 0 0 None 0 None 0 None 0.
Definition row (withcache initfrom selfack : Z) (name : list Z) (iport : Z)
  (client : option servFunc) (stls : Z) : Service :=
  MkService withcache initfrom selfack (Some name) iport client stls None 0.
Definition DGAUTHpro : list Z := cs "dgauth".

Definition service_rows : list Service :=
  [row 0 PI_BOTH 0 (cs "ftp-data") 20 (Some service_tcprelay) 0;
   row 0 PI_BOTH 0 (cs "ftp-bounce") (-20) (Some service_tcprelay) 0;
   row 1 PI_SERV 0 (cs "ftp") 21 (Some service_ftp) 1;
   row 1 PI_SERV 0 (cs "ftps") 990 (Some service_ftps) 0;
   row 1 PI_SERV 0 (cs "telnet") 23 (Some service_telnet) 0;
   row 1 PI_SERV 0 (cs "telnets") 992 (Some service_telnet) 0;
   row 0 PI_SERV 0 (cs "smtp") 25 (Some service_smtp) 1;
   row 0 PI_SERV 0 (cs "smtp-data") 25 (Some service_smtp) 0;
   row 0 PI_SERV 0 (cs "smtps") 465 (Some service_smtps) 1;
   row 1 PI_CLNT 0 (cs "whois") 43 (Some service_whois) 0;
   row 1 PI_CLNT 0 (cs "domain") 53 (Some service_domain) 0;
   row 1 PI_CLNT 0 (cs "dns") 53 (Some service_domain) 0;
   row 1 PI_CLNT 0 (cs "gopher") 70 (Some service_gopher) 0;
   row 0 PI_CLNT 0 (cs "finger") 79 (Some service_tcprelay) 0;
   row 1 PI_CLNT 1 (cs "http") 80 (Some service_http) 1;
   row 1 PI_CLNT 1 (cs "ftpxhttp") 80 (Some service_ftpxhttp) 0;
   row 1 PI_CLNT 1 (cs "httpft") 80 (Some service_http) 0;
   row 1 PI_CLNT 1 (cs "htmux") 80 (Some service_http) 0;
   row 1 PI_CLNT 0 (cs "https") 443 (Some service_https) 0;
   row 1 PI_CLNT 0 (cs "ftpxhttps") 443 (Some service_ftpxhttps) 0;
   row 1 PI_CLNT 0 (cs "ssltunnel") 443 (Some service_https) 0;
   row 1 PI_SERV 0 (cs "pop") 110 (Some service_pop) 1;
   row 1 PI_SERV 0 (cs "pop3s") 995 (Some service_pop) 0;
   row 0 PI_SERV 0 (cs "imap") 143 (Some service_imap) 1;
   row 0 PI_SERV 0 (cs "imaps") 993 (Some service_imap) 0;
   row 0 PI_CLNT 0 (cs "ident") 113 (Some service_tcprelay) 0;
   row 1 PI_SERV 0 (cs "nntp") 119 (Some service_nntp) 0;
   row 1 PI_SERV 0 (cs "nntps") 563 (Some service_nntp) 0;
   row 1 PI_SERV 0 (cs "news") 119 (Some service_nntp) 0;
   row 0 PI_CLNT 0 (cs "nbt") 139 (Some service_nbt) 0;
   row 0 PI_CLNT 0 (cs "prospero") 191 (Some service_udprelay) 0;
   row 0 PI_CLNT 0 (cs "archie") 191 (Some service_udprelay) 0;
   row 0 PI_CLNT 0 (cs "wais") 210 (Some service_wais) 0;
   row 0 PI_CLNT 0 (cs "tsp") 318 (Some service_tcprelay) 0;
   row 0 PI_CLNT 0 (cs "ldap") 389 (Some service_ldap) 0;
   row 0 PI_CLNT 0 (cs "ldaps") 636 (Some service_ldap) 0;
   row 1 PI_CLNT 0 (cs "lpr") 515 (Some service_lpr) 0;
   row 0 PI_CLNT 0 (cs "X") 6000 (Some service_X) 0;
   row 0 PI_CLNT 0 (cs "XSFlash") 6001 (Some service_XSFlash) 0;
   row 1 PI_CLNT 0 (cs "XCFlash") 6002 (Some service_XCFlash) 0;
   row 0 PI_SERV 0 (cs "y11") 6010 (Some service_Y11) 0;
   row 0 PI_SERV 0 (cs "yy11") 6010 (Some service_Y11) 0;
   row 0 PI_SERV 0 (cs "yymux") 6060 (Some service_yymux) 0;
   row 0 PI_SERV 0 (cs "yy") 6060 (Some service_yymux) 0;
   row 0 PI_CLNT 0 (cs "yysh") 6023 (Some service_yysh) 0;
   row 0 PI_CLNT 0 (cs "syslog") 514 (Some service_syslog) 0;
   row 0 PI_CLNT 0 (cs "ntp") 123 (Some service_udprelay) 0;
   row 0 PI_SERV 0 (cs "rsync") 873 (Some service_tcprelay) 0;
   row 0 PI_CLNT 0 (cs "talk") 517 (Some service_tcprelay) 0;
   row 1 PI_CLNT 0 (cs "socks") 1080 (Some service_socks) 0;
   row 1 PI_CLNT 0 (cs "socks4") 1080 (Some service_socks) 0;
   row 1 PI_CLNT 0 (cs "socks5") 1080 (Some service_socks) 0;
   row 1 PI_CLNT 0 (cs "icap") 1344 (Some service_icap) 0;
   row 0 PI_CLNT 0 (cs "cuseeme") 7648 (Some service_tcprelay) 0;
   row 0 PI_CLNT 0 (cs "icp") 3130 (Some service_icp) 0;
   row 1 PI_CLNT 1 (cs "http-proxy") 8080 (Some service_http) 0;
   row 1 PI_CLNT 1 (cs "mitm") 8080 (Some service_http) 0;
   row 0 PI_CLNT 0 (cs "pam") 8686 (Some service_pam) 0;
   row 0 PI_CLNT 0 (cs "httpam") 8686 (Some service_pam) 0;
   row 0 PI_CLNT 0 (DGAUTHpro) 8787 (Some service_DGAuth) 0;
   row 0 PI_CLNT 0 (cs "delegate") 8700 (Some service_delegate) 0;
   row 0 PI_BOTH 0 (cs "tcprelay2") 8701 (Some service_tcprelay2) 0;
   row 0 PI_BOTH 0 (cs "tcprelay") 8701 (Some service_tcprelay) 0;
   row 0 PI_BOTH 0 (cs "udprelay") 8702 (Some service_udprelay) 0;
   row 0 PI_BOTH 0 (cs "udprelay1") 8703 (Some service_udprelay1) 0;
   row 0 PI_CLNT 0 (cs "teleport") 8704 (Some service_teleport) 0;
   row 0 PI_CLNT 0 (cs "coupler") 8705 (Some service_coupler) 0;
   row 1 PI_CLNT 0 (cs "vsap") 8706 (Some service_vsap) 0;
   row 1 PI_BOTH 0 (cs "sockmux") 8707 (Some service_sockmux) 0;
   row 1 PI_SERV 0 (cs "sox") 8707 (Some service_sockmux) 0;
   row 1 PI_CLNT 0 (cs "thruway") 8715 None 0;
   row 1 PI_CLNT 0 (cs "sudo") 8777 (Some service_sudo) 0;
   row 1 PI_CLNT 0 (cs "console") 8723 (Some service_console) 0;
   row 0 PI_CLNT 0 (cs "htaccept") 8780 (Some service_http) 0;
   row 0 PI_CLNT 0 (cs "incoming") 8781 None 0;
   row 0 PI_CLNT 0 (cs "http-sp") 8888 (Some service_ecc) 0;
   row 0 PI_CLNT 0 (cs "ecc") 8888 (Some service_ecc) 0;
   row 0 PI_SERV 0 (cs "vnc") 5900 (Some service_tcprelay) 0;
   row 0 PI_SERV 0 (cs "sftp") 22 None 0;
   row 0 PI_SERV 0 (cs "ssh") 22 None 0;
   row 0 PI_CLNT 0 (cs "tunnel1") (-10) (Some service_tunnel1) 0;
   row 0 PI_CLNT 0 (cs "file") (-21) (Some service_file) 0;
   row 0 PI_CLNT 0 (cs "cgi") (-22) (Some service_cgi) 0;
   row 0 PI_CLNT 0 (cs "cfi") (-23) (Some service_cfi) 0;
   row 1 PI_CLNT 0 (cs "exec") (-35) (Some service_exec) 0;
   row 1 PI_CLNT 0 (cs "data") (-40) (Some service_http) 0;
   row 1 PI_CLNT 0 (cs "admin") (-80) (Some service_admin) 0;
   row 0 PI_CLNT 0 (cs "builtin") (-91) None 0;
   row 0 PI_CLNT 0 (cs "override") (-92) None 0;
   row 0 PI_CLNT 0 (cs "readonly") (-93) None 0;
   row 0 PI_CLNT 0 (cs "tar") (-94) None 0].
(** [SERV_HTTP] is the default server of [http]. *)
Definition services_tab (SERV_HTTP : list Z) : list Service :=
  let set_host s :=
    if bool_decide (s_name s = Some (cs "http"))
    then MkService (s_withcache s) (s_initfrom s) (s_selfack s) (s_name s) (s_iport s) (s_client s)
           (s_stls s) (Some SERV_HTTP) (s_stats s)
    else s in
  no_service :: map set_host service_rows
    ++ repeat no_service (NSERVICES - 1 - length service_rows).

Section services.
Variable services : list Service.

(** The loops [for( si = 1; services[si].s_name; si++ )]. *)
Definition named (l : list Service) : list (list Z * Service) :=
  (fix go l := match l with
               | sp :: l' => match s_name sp with Some n => (n, sp) :: go l' | None => [] end
               | [] => []
               end) (tl l).
Definition servicex (service : list Z) : nat :=
  (fix go si l := match l with
                  | (n, _) :: l' => if strcaseeq n service then si else go (S si) l'
                  | [] => 0%nat
                  end) 1%nat (named services).
Definition service_at (si : nat) : Service := nth si services no_service.

Definition servicename (port : Z) : option (list Z) :=
  fst <$> find (fun p => s_iport p.2 =? port) (named services).
Definition serviceport (service : list Z) : Z :=
  let si := servicex service in
  if Nat.eqb si 0 then 0 else s_iport (service_at si).
Definition withcache (service : list Z) : Z :=
  let si := servicex service in
  if Nat.eqb si 0 then 0 else s_withcache (service_at si).
Definition serviceWithSTLS (service : list Z) : Z :=
  let si := servicex service in
  if Nat.eqb si 0 then 0 else s_stls (service_at si).
Definition get_initfrom (DST_PROTO : list Z) : Z :=
  let si := servicex DST_PROTO in
  if Nat.eqb si 0 then 0 else s_initfrom (service_at si).

Definition protoeq (proto1 proto2 : list Z) : bool :=
  if negb (strcaseeq proto1 proto2) then true
  else bool_decide
    (s_client (service_at (servicex proto1)) = s_client (service_at (servicex proto2))).

(** The names served by the same function, and how many. *)
Definition foreach_eqproto {A} (proto : list Z) (func : A -> list Z -> A) (a : A) : A * Z :=
  let sx := servicex proto in
  match (if Nat.eqb sx 0 then None else s_client (service_at sx)) with
  | None => (a, 0)
  | Some svfunc =>
      let eqs := filter (fun p => s_client p.2 = Some svfunc) (named services) in
      (fold_left func (map fst eqs) a, zlen eqs)
  end.

(** [enableServs]. *)
Definition set_stats (enable : Z) (sp : Service) : Service :=
  MkService (s_withcache sp) (s_initfrom sp) (s_selfack sp) (s_name sp) (s_iport sp) (s_client sp)
    (s_stls sp) (s_Host sp)
    (if 0 <? enable then Z.land (s_stats sp) (Z.lnot SV_DISABLE)
     else Z.lor (s_stats sp) SV_DISABLE).
Definition enableServs (proto : list Z) (enable : Z) : list Service :=
  if streq proto [STAR]
  then let n := length (named services) in
       take 1 services ++ map (set_stats enable) (take n (drop 1 services))
         ++ drop (S n) services
  else let si := servicex proto in
       if Nat.eqb si 0 then services else alter (set_stats enable) si services.
Definition service_disabled (proto : list Z) : Z :=
  let si := servicex proto in
  if Nat.eqb si 0 then -1
  else if Z.land (s_stats (service_at si)) SV_DISABLE =? 0 then 0 else 1.

(** [SERVICE=name:port:service]. *)
Definition free_entry : nat := S (Nat.min (length (named services)) (NSERVICES - 2)).
Definition scan_SERVICE (desc : list Z) : option (list Service) :=
  let ib := cstr (v_buf (linescanX desc (vnew 64) 64).1) in
  let iv := stoV 3 ib 58 in
  let name := nth 0 iv [] in
  let port := atoi (nth 1 iv []) in
  let equiv := nth 2 iv [] in
  let sn := servicex name in
  let sn := if Nat.eqb sn 0 then free_entry else sn in
  let si := if bool_decide (equiv = []) then 0%nat else servicex equiv in
  if bool_decide (equiv <> []) && Nat.eqb si 0 then Some services
  else
    let copy := negb (Nat.eqb sn si) && negb (Nat.eqb si 0) in
    (* the last entry ends the table *)
    if copy && Nat.eqb sn (NSERVICES - 1) then None
    else
      let tab :=
        if copy
        then let s := service_at si in
             <[sn := MkService (s_withcache s) (s_initfrom s) (s_selfack s) (Some name) (s_iport s)
                       (s_client s) (s_stls s) (s_Host s) (s_stats s)]> services
        else services in
      Some (if port =? 0 then tab
            else alter (fun s => MkService (s_withcache s) (s_initfrom s) (s_selfack s) (s_name s)
                          port (s_client s) (s_stls s) (s_Host s) (s_stats s)) sn tab).

(** [get_servfunc]: the function for a new connection; the protocol, port
    and host that it leaves in [Conn->sv_dflt]. *)
Record servsel := ServSel {
  g_func : option servFunc; g_withcache : Z; g_selfack : Z; g_initfrom : Z;
  g_proto : list Z; g_port : Z; g_host : list Z
}.
Definition get_servfunc (CLIF_PORT Console_Port Port_Proto : Z) (DFLT_PROTO : list Z)
  (DFLT_PORT : Z) (DFLT_HOST : list Z) : servsel :=
  if negb (CLIF_PORT =? 0) && (CLIF_PORT =? Console_Port)
  then ServSel (Some service_console) 0 0 0 DFLT_PROTO DFLT_PORT DFLT_HOST
  else
    let byport := streq DFLT_PROTO (cs "-") in
    let iport := if negb byport && negb (Port_Proto =? 0) then Port_Proto else DFLT_PORT in
    let byport := byport || negb (Port_Proto =? 0) in
    match find (fun p => negb byport && strcaseeq p.1 DFLT_PROTO
                         || byport && negb (iport =? 0) && (s_iport p.2 =? iport))
            (named services) with
    | Some (n, sp) =>
        ServSel (s_client sp) (s_withcache sp) (s_selfack sp) (s_initfrom sp)
          (if byport then n else DFLT_PROTO)
          (if DFLT_PORT =? 0 then s_iport sp else DFLT_PORT)
          (if bool_decide (DFLT_HOST = []) then default [] (s_Host sp) else DFLT_HOST)
    | None => ServSel (Some service_delegate) 0 0 PI_CLNT DFLT_PROTO DFLT_PORT DFLT_HOST
    end.
End services.

(** The names that [PERMIT] chooses from. *)
Definition service_names (services : list Service) : list (list Z) := map fst (named services).

Definition services0 : list Service := services_tab [].

Example serviceport_1 : serviceport services0 (cs "HTTPS") = 443
  /\ serviceport services0 (cs "file") = -21 /\ serviceport services0 (cs "x") = 6000
  /\ serviceport services0 (cs "none") = 0.
Proof. vm_compute. done. Qed.
Example scan_SERVICE_1 :
  (fun t => (serviceport t (cs "myhttp"), protoeq t (cs "myhttp") (cs "http")))
    <$> scan_SERVICE services0 (cs "myhttp:8081:http") = Some (8081, true).
Proof. vm_compute. reflexivity. Qed.
Example get_servfunc_1 :
  g_func (get_servfunc services0 0 0 0 (cs "-") 25 []) = Some service_smtp
  /\ g_proto (get_servfunc services0 0 0 0 (cs "-") 25 []) = cs "smtp"
  /\ g_func (get_servfunc services0 0 0 0 (cs "nosuch") 25 []) = Some service_delegate.
Proof. vm_compute. done. Qed.

(** Services with different names are equal: the comparison is the wrong way
    around. *)
Lemma protoeq_of_different : protoeq services0 (cs "http") (cs "ftp") = true.
Proof. vm_compute. reflexivity. Qed.
(** A service that is defined by a name and a port is not found: the free
    entry gets the port, but no name. *)
Lemma scan_SERVICE_unnamed :
  (fun t => (servicex t (cs "myproto"), s_iport (service_at t (free_entry services0))))
    <$> scan_SERVICE services0 (cs "myproto:8888") = Some (0%nat, 8888).
Proof. vm_compute. reflexivity. Qed.
