(* ===== verification/Bsort.v ===== *)
(** * [Bsort] ([rary/bsort.cpp]): sorting by repeated selection

    In each round the elements that are left are read in order, and one is
    kept: the current one, or the one it is compared with when the comparison
    says that this one belongs in front.  The order need not be transitive,
    and the one of the table of [MOUNT] is not; what is shown here holds for
    any comparison. *)
From S2P Require Import Prelude.
From Stdlib Require Import Sorting.Sorted.
From stdpp Require Import options.

Section sort.
Context {A : Type} (compar : A -> A -> Z).

(** One round: the position of what is kept, [max] being the one kept so far
    and [di] the position of the next one. *)
Fixpoint bsort_max (max : A) (mi di : nat) (l : list A) : nat :=
  match l with
  | [] => mi
  | x :: l' => if 0 <? compar max x then bsort_max x di (S di) l' else bsort_max max mi (S di) l'
  end.
Definition bsort_pick (l : list A) : option (A * list A) :=
  match l with
  | [] => None
  | x :: l' => let mi := bsort_max x 0 1 l' in m ← l !! mi; Some (m, delete mi l)
  end.
Fixpoint Bsort_loop (nel : nat) (l : list A) : list A :=
  match nel with
  | O => []
  | S nel' => match bsort_pick l with
              | Some (m, r) => m :: Bsort_loop nel' r
              | None => []
              end
  end.
Definition Bsort (l : list A) : list A := Bsort_loop (length l) l.

(** ** The result is a permutation *)
Fixpoint bsort_kept (max : A) (l : list A) : A :=
  match l with
  | [] => max
  | x :: l' => bsort_kept (if 0 <? compar max x then x else max) l'
  end.
Lemma bsort_max_lookup (l : list A) : forall (max : A) (mi di : nat) (l0 : list A), l0 !! mi = Some max ->
  (forall k : nat, l !! k = l0 !! (di + k)%nat) -> l0 !! bsort_max max mi di l = Some (bsort_kept max l).
Proof using.
  induction l as [|x l IH]; intros max mi di l0 Hm Hl; cbn [bsort_max bsort_kept]; [done|].
  assert (Hl' : forall k : nat, l !! k = l0 !! (S di + k)%nat).
  { intros k. etrans; [exact (Hl (S k))|]. f_equal. lia. }
  destruct (0 <? compar max x); [|by apply IH]. apply IH; [|done].
  pose proof (Hl 0%nat) as H0. rewrite Nat.add_0_r in H0. by rewrite <- H0.
Qed.
Lemma bsort_pick_some x l : exists i, (x :: l) !! i = Some (bsort_kept x l) /\
  bsort_pick (x :: l) = Some (bsort_kept x l, delete i (x :: l)).
Proof using.
  pose proof (bsort_max_lookup l x 0 1 (x :: l) eq_refl (fun _ => eq_refl)) as Hm.
  exists (bsort_max x 0 1 l). unfold bsort_pick. by rewrite Hm.
Qed.
Lemma Bsort_loop_perm n : forall l, length l = n -> Bsort_loop n l ≡ₚ l.
Proof using.
  induction n as [|n IH]; intros l Hn; [by destruct l|]. destruct l as [|x l]; [done|].
  cbn [Bsort_loop]. destruct (bsort_pick_some x l) as (i & Hm & ->).
  rewrite IH; [symmetry; by apply delete_Permutation|].
  rewrite length_delete by (by eexists). cbn in *. lia.
Qed.
Lemma Bsort_perm l : Bsort l ≡ₚ l.
Proof using. by apply Bsort_loop_perm. Qed.

(** ** What has to be in front is in front

    [P c a]: [c] has to be in front of [a].  It is enough that the comparison
    says so, and that among elements in the order [E] that they are given in
    [P] goes back along the comparison. *)
Context (E P : A -> A -> Prop).
Hypothesis P_beats : forall c a, P c a -> 0 < compar a c.
Hypothesis P_not : forall c a, P c a -> compar c a <= 0.
Hypothesis P_back : forall c x a, E x a -> 0 < compar x a -> P c a -> P c x.

Lemma bsort_kept_back c l : forall max, StronglySorted E (max :: l) -> P c (bsort_kept max l) -> P c max.
Proof using P_back.
  induction l as [|x l IH]; intros max Hs Hp; [done|]. cbn [bsort_kept] in Hp.
  apply StronglySorted_inv in Hs as [Hs Hx]. destruct (Z.ltb_spec 0 (compar max x)).
  - apply IH in Hp; [|done]. apply (P_back c max x); [|done|done]. by apply Forall_cons in Hx as [? _].
  - apply IH; [|done]. apply StronglySorted_inv in Hs as [Hs _]. constructor; [done|].
    by apply Forall_cons in Hx as [_ ?].
Qed.
Lemma bsort_kept_first c l : forall max, StronglySorted E (max :: l) ->
  In c (max :: l) -> ~ P c (bsort_kept max l).
Proof using P_beats P_not P_back.
  induction l as [|x l IH]; intros max Hs Hc Hp.
  - destruct Hc as [->|[]]. apply P_beats in Hp as H1. apply P_not in Hp. cbn in *. lia.
  - cbn [bsort_kept] in Hp. pose proof Hs as [Hs' Hx]%StronglySorted_inv.
    destruct (Z.ltb_spec 0 (compar max x)) as [Hlt|Hle].
    + destruct Hc as [->|Hc]; [|by eapply IH]. apply bsort_kept_back in Hp; [|done].
      apply P_not in Hp. lia.
    + apply StronglySorted_inv in Hs' as [Hs' _].
      assert (Hs2 : StronglySorted E (max :: l)) by (apply SSorted_cons; [done|by apply Forall_cons in Hx as [_ ?]]).
      destruct Hc as [Hc|[Hc|Hc]];
        [exact (IH max Hs2 (or_introl Hc) Hp)| |exact (IH max Hs2 (or_intror Hc) Hp)].
      subst c. apply bsort_kept_back in Hp; [|done]. apply P_beats in Hp. lia.
Qed.
Lemma StronglySorted_delete i l : StronglySorted E l -> StronglySorted E (delete i l).
Proof using.
  intros Hs. revert i. induction Hs as [|x l Hs IH Hx]; intros i; [destruct i; constructor|].
  destruct i as [|i]; [done|]. cbn. constructor; [apply IH|].
  apply Forall_forall. intros y Hy. rewrite Forall_forall in Hx. apply Hx.
  eapply elem_of_sublist; [exact Hy|apply sublist_delete].
Qed.
Lemma Bsort_in_front l : StronglySorted E l -> StronglySorted (fun a b => ~ P b a) (Bsort l).
Proof using P_beats P_not P_back.
  unfold Bsort. remember (length l) as n eqn:Hn. revert l Hn.
  induction n as [|n IH]; intros l Hn Hs; [constructor|]. destruct l as [|x l]; [done|].
  cbn [Bsort_loop]. destruct (bsort_pick_some x l) as (i & Hm & ->). cbn in Hn.
  assert (Hlen : length (delete i (x :: l)) = n) by (rewrite length_delete by (by eexists); cbn; lia).
  constructor; [apply IH; [done|by apply StronglySorted_delete]|].
  rewrite (Bsort_loop_perm _ _ Hlen). apply Forall_forall. intros c Hc.
  apply bsort_kept_first; [done|]. apply list_elem_of_In.
  eapply elem_of_sublist; [exact Hc|apply sublist_delete].
Qed.
End sort.
