(* ===== verification/UvFmt.v ===== *)
(** * Formats of rewriting rules ([rary/String.cpp])

    [uvfromsfX] takes a text apart by a format like [%S/%S.html], [uvtosf]
    puts one together, and [uvfmtreverse] makes the formats of the reverse
    direction.  A pattern of characters is matched by [RexpMatch].

    A tag is the text it points at.  [None] is what the code does not define:
    a read or a store outside of a text, or a loop that does not end.  The
    formats are modelled without the size of the buffers (1024 characters)
    that [uvfmtreverse] builds them in. *)
From S2P Require Import Prelude Strings.
From stdpp Require Import options.

Definition PCNT : Z := 37.
Definition NTAGS : nat := 32.

(** ** [RexpMatch]: sets in brackets and literal characters *)

(** A set, from behind its opening: the result and the rest behind the
    closing bracket, or [None] where the set has no end. *)
Fixpoint rexp_set (fuel : nat) (negate m : bool) (sch : Z) (rp : list Z) : bool * option (list Z) :=
  match fuel, rp with
  | S fuel', rch1 :: rp1 =>
      let '(m, rp1) :=
        if negb (Bool.eqb negate m) then (m, rp1)
        else let '(rch2, rp1) := if (cat rp1 0 =? 45) && negb (cat rp1 1 =? 0)
                                 then (cat rp1 1, drop 2 rp1) else (rch1, rp1) in
             let m := (rch1 <=? sch) && (sch <=? rch2) in
             (if negate then negb m else m, rp1) in
      if rch1 =? 93 then (m, Some rp1) else rexp_set fuel' negate m sch rp1
  | _, _ => (m, None)
  end.
Fixpoint RexpMatch_loop (fuel : nat) (m : bool) (sp : option (list Z)) (rp : list Z) : option bool :=
  match fuel with
  | O => None
  | S fuel' =>
      if negb m then Some false
      else match rp with
           | [] => Some true
           | rch1 :: rp' =>
               match sp with
               | None => None
               | Some s =>
                   let sch := cat s 0 in
                   let sp' := match s with [] => None | _ :: s' => Some s' end in
                   if rch1 =? 91
                   then let negate := cat rp' 0 =? 94 in
                        let '(m, r) := rexp_set (length rp') negate negate sch
                                         (if negate then tl rp' else rp') in
                        match r with
                        | Some rp'' => RexpMatch_loop fuel' m sp' rp''
                        | None => if m then None else Some false
                        end
                   else RexpMatch_loop fuel' (rch1 =? sch) sp' rp'
               end
           end
  end.
Definition RexpMatch (str rexp : list Z) : option bool :=
  RexpMatch_loop (S (length rexp)) true (Some str) rexp.

(** ** The length of one conversion *)
Fixpoint until_close (fx : Z) (fp : list Z) : Z :=
  match fp with [] => 0 | c :: fp' => if c =? fx then 1 else 1 + until_close fx fp' end.
Fixpoint skip_width (fp : list Z) : list Z :=
  match fp with c :: fp' => if isdigit c || (c =? 46) then skip_width fp' else fp | [] => [] end.
Definition fmtlen (fmt : list Z) : Z :=
  if negb (cat fmt 0 =? PCNT) then 0
  else
    let fp := tl fmt in
    let fp := if cat fp 0 =? 45 then tl fp else fp in
    let fp := skip_width fp in
    let n := zlen fmt - zlen fp in
    if cat fp 0 =? 91 then n + until_close 93 fp
    else if cat fp 0 =? 40 then n + until_close 41 fp
    else n + 1.

(** The conversions of a format; one that is not ended, as a percent sign at
    the end, is one character longer than the format. *)
Fixpoint fmtvec (mac : nat) (fuel : nat) (fp : list Z) : list (list Z) :=
  match fuel, fp with
  | S fuel', c :: fp' =>
      if c =? PCNT
      then let flen := fmtlen fp in
           if cat fp (flen - 1) =? PCNT then fmtvec mac fuel' (tl fp')
           else match mac with
                | O => []
                | S mac' => take (Z.to_nat flen) (fp ++ [0]) :: fmtvec mac' fuel' fp'
                end
      else fmtvec mac fuel' fp'
  | _, _ => []
  end.

(** ** The formats of the reverse direction *)

(** The format to take the output apart: [ov] are the numbers of the tags in
    the order of the output. *)
Definition conv_back (sv1 : list Z) (next : Z) : list Z :=
  if List.last sv1 0 =? 115
  then removelast sv1 ++ [91; 94; if next =? 0 then SP else next; 93]
  else sv1.
Fixpoint rev_dst (fuel : nat) (sv : list (list Z)) (ti : Z) (ip out : list Z) (ov : list Z)
  : option (list Z * list Z) :=
  match fuel, ip with
  | S fuel', ic :: ip' =>
      if ic =? PCNT
      then
        let flen := fmtlen ip in
        if zlen ip <? flen then None
        else
          let last := cat ip (flen - 1) in
          let rest := drop (Z.to_nat flen) ip in
          let num := if last =? 83 then ti else if last =? 41 then atoi (drop 2 ip) else -1 in
          let ti := if last =? 83 then ti + 1 else ti in
          if num <? zlen sv
          then if 0 <=? num
               then if Nat.leb NTAGS (length ov) then None
                    else rev_dst fuel' sv ti rest
                           (out ++ conv_back (nth (Z.to_nat num) sv []) (cat rest 0)) (ov ++ [num])
               else rev_dst fuel' sv ti rest (out ++ take (Z.to_nat flen) ip) ov
          else rev_dst fuel' sv ti rest out ov
      else rev_dst fuel' sv ti ip' (out ++ [ic]) ov
  | _, _ => Some (out, ov)
  end.
(** The format to put the input together again. *)
Fixpoint rev_src (fuel : nat) (ov : list Z) (ii : Z) (ip out : list Z) : option (list Z) :=
  match fuel, ip with
  | S fuel', ic :: ip' =>
      if ic =? PCNT
      then
        let flen := fmtlen ip in
        if zlen ip <? flen then None
        else
          let rest := drop (Z.to_nat flen) ip in
          match (if cat ip (flen - 1) =? PCNT then None
                 else list_find (fun v => v = ii) ov) with
          | Some (oi, _) => rev_src fuel' ov (ii + 1) rest
                              (out ++ cs "%(" ++ fmt_d (Z.of_nat oi) ++ [41])
          | None => rev_src fuel' ov ii rest (out ++ take (Z.to_nat flen) ip)
          end
      else rev_src fuel' ov ii ip' (out ++ [ic])
  | _, _ => Some out
  end.
(** [*rsrc] and [*rdst]. *)
Definition uvfmtreverse (src dst : list Z) : option (list Z * list Z) :=
  let sv := fmtvec NTAGS (length src) src in
  '(rdst, ov) ← rev_dst (length dst) sv 0 dst [] [];
  rsrc ← rev_src (length src) ov 0 src [];
  Some (rsrc, rdst).

(** ** Putting together *)

(** [utosX] of a tag that is set, or not: what it appends to [out], whose end
    is [xp]. *)
Definition utosX (tag : option (list Z)) (xp : Z) (out : list Z) : option (list Z) :=
  match tag with
  | None => match out with [] => None | _ => Some (removelast out) end
  | Some t => if xp - zlen out - 1 <? 0 then None
              else Some (out ++ take (Z.to_nat (xp - zlen out - 1)) t)
  end.
(** The separator in [%(n-m sep)], at its first character; [None] is the
    loop that does not end, where the parenthesis is not closed. *)
Fixpoint uv_sep (fp acc : list Z) : option (list Z * list Z) :=
  match fp with
  | [] => None
  | fc :: fp' =>
      if fc =? 41 then Some (acc, fp')
      else uv_sep fp' (if Nat.leb 31 (length acc) then [fc] else acc ++ [fc])
  end.
(** Tags [tj] to [tj2]; when the first is the greater one they are counted
    down from the smaller one, and below 0. *)
Fixpoint uv_range (fuel : nat) (tags : list (list Z)) (down : bool) (sep : list Z) (xp tj1 tj tj2 : Z)
  (out : list Z) : option (list Z) :=
  match fuel with
  | O => None
  | S fuel' =>
      if zlen tags <=? tj then Some out
      else if tj <? 0 then None
      else
        let out := if bool_decide (sep <> []) && negb (tj =? tj1) then out ++ sep else out in
        out ← utosX (Some (nth (Z.to_nat tj) tags [])) xp out;
        if tj =? tj2 then Some out
        else uv_range fuel' tags down sep xp tj1 (if down then tj - 1 else tj + 1) tj2 out
  end.
Definition uv_paren (tags : list (list Z)) (xp : Z) (fp out : list Z) : option (list Z * list Z) :=
  match fp with
  | [] => None
  | d1 :: fp =>
      if negb (isdigit d1) then Some (out, fp)
      else
        let tj1 := d1 - 48 in
        let '(tj2, fp) :=
          if cat fp 0 =? 45
          then let fp := tl fp in
               if isdigit (cat fp 0) then (cat fp 0 - 48, tl fp) else (zlen tags - 1, fp)
          else (tj1, fp) in
        '(sep, fp) ← uv_sep fp [];
        out ← uv_range (S (S NTAGS)) tags (tj2 <? tj1) sep xp (Z.min tj1 tj2) (Z.min tj1 tj2)
                (Z.max tj1 tj2) out;
        Some (out, fp)
  end.
Fixpoint uvtosf_loop (fuel : nat) (tags : list (list Z)) (xp : Z) (ti : nat) (fp out : list Z)
  : option (list Z) :=
  match fuel with
  | O => None
  | S fuel' =>
      match fp with
      | [] => Some out
      | fc :: fp1 =>
          if xp <=? zlen out then Some out
          else if negb (fc =? PCNT) then uvtosf_loop fuel' tags xp ti fp1 (out ++ [fc])
          else
            match fp1 with
            | [] => Some out
            | c :: fp2 =>
                if c =? PCNT then uvtosf_loop fuel' tags xp ti fp2 (out ++ [PCNT])
                else if (c =? 83) || (c =? 115)
                then if Nat.leb NTAGS ti then uvtosf_loop fuel' tags xp ti fp2 out
                     else out ← utosX (tags !! ti) xp out; uvtosf_loop fuel' tags xp (S ti) fp2 out
                else if c =? 40
                then '(out, fp3) ← uv_paren tags xp fp2 out; uvtosf_loop fuel' tags xp ti fp3 out
                else uvtosf_loop fuel' tags xp ti fp2 out
            end
      end
  end.
Definition uvtosf (siz : Z) (fmt : list Z) (tags : list (list Z)) : option (list Z) :=
  uvtosf_loop (S (length fmt)) tags (siz - 1) 0 fmt [].

(** ** Taking apart *)

(** Is [sc] in the set from [s1] to its end [set]? *)
Fixpoint in_set (fuel : nat) (sc : Z) (set : list Z) : bool :=
  match fuel, set with
  | S fuel', s1 :: r =>
      if s1 =? sc then true
      else match r with
           | d :: r' =>
               if d =? 45
               then match r' with
                    | [] => false
                    | s2 :: r'' => if (s1 <=? sc) && (sc <=? s2) then true else in_set fuel' sc r''
                    end
               else in_set fuel' sc r
           | [] => false
           end
  | _, _ => false
  end.
(** [%*5S]: is the tag suppressed, the width, and the rest. *)
Fixpoint conv_flags (supp : bool) (width : Z) (fp : list Z) : bool * Z * list Z :=
  match fp with
  | fc :: fp' =>
      if fc =? 42 then conv_flags true width fp'
      else if (49 <=? fc) && (fc <? 57) then conv_flags supp (width * 10 + (fc - 48)) fp'
      else (supp, width, fp)
  | [] => (supp, width, [])
  end.
(** One conversion at [fp], behind its flags: the tag and the rests, or where
    it does not match only the rests. *)
Definition uv_conv (width : Z) (osp ofp : list Z) (sp fp : list Z)
  : (list Z * list Z * list Z) + (list Z * list Z) :=
  match fp with
  | [] => inr (sp, fp)
  | fc :: fp1 =>
      if fc =? 100
      then
        let st := (span isspace (length sp) sp).2 in
        let '(sgn, d) := if (cat st 0 =? 43) || (cat st 0 =? 45) then (take 1 st, tl st) else ([], st) in
        if negb (isdigit (cat d 0)) then inr (d, fp)
        else let '(ds, r) := span isdigit (length d) d in inl (sgn ++ ds, r, fp1)
      else if fc =? 99
      then let n := Z.to_nat (if width =? 0 then 1 else width) in inl (take n sp, drop n sp, fp1)
      else if fc =? 83
      then
        let lit := (span (fun c => negb (c =? PCNT)) (length fp1) fp1).1 in
        let estr := take 31 lit in
        (* where the literal does not fit its last character is read again *)
        let fp' := if Nat.leb 31 (length lit) then drop 30 fp1 else drop (length lit) fp1 in
        if bool_decide (estr = [])
        then let '(t, r) := span (fun c => negb (isspace c)) (length sp) sp in inl (t, r, fp')
        else match strstr sp estr with
             | Some r => inl (take (length sp - length r) sp, drop (length estr) r, fp')
             | None => inr (osp, ofp)
             end
      else if fc =? 115
      then
        let st := (span isspace (length sp) sp).2 in
        match st with
        | [] => inr ([], fp)
        | _ => let '(t, r) := span (fun c => negb (isspace c)) (length st) st in inl (t, r, fp1)
        end
      else if fc =? 91
      then
        let neg := cat fp1 0 =? 94 in
        let tp := if neg then tl fp1 else fp1 in
        let '(set, r) := span (fun c => negb (c =? 93)) (length tp) tp in
        let n := if width =? 0 then length sp else Z.to_nat width in
        let '(t, rs) := span (fun c => xorb neg (in_set (length set) c set)) n sp in
        inl (t, rs, if cat r 0 =? 93 then tl r else r)
      else inr (sp, fp)
  end.
(** The tags, and what is left of the text and of the format; without a limit
    of the text ([siz] is 0). *)
Fixpoint uvfromsf_loop (fuel : nat) (sp fp : list Z) (tags : list (list Z))
  : option (list (list Z) * list Z * list Z) :=
  match fuel with
  | O => None
  | S fuel' =>
      match fp with
      | [] => Some (tags, sp, fp)
      | fc :: fp1 =>
          if Nat.leb NTAGS (length tags) then Some (tags, sp, fp)
          else if (fc =? SP) || (fc =? TAB)
          then let blank c := (c =? SP) || (c =? TAB) in
               uvfromsf_loop fuel' (span blank (length sp) sp).2 (span blank (length fp) fp).2 tags
          else if negb (fc =? PCNT)
          then match sp with
               | c :: sp' => if c =? fc then uvfromsf_loop fuel' sp' fp1 tags else Some (tags, sp, fp)
               | [] => Some (tags, sp, fp)
               end
          else
            let '(supp, width, fp2) := conv_flags false 0 fp1 in
            match uv_conv width sp fp sp fp2 with
            | inr (sp, fp) => Some (tags, sp, fp)
            | inl (t, sp, fp) => uvfromsf_loop fuel' sp fp (if supp then tags else tags ++ [t])
            end
      end
  end.
Definition uvfromsfX (str fmt : list Z) : option (list (list Z) * list Z * list Z) :=
  uvfromsf_loop (S (length fmt)) str fmt [].

Example uvfromsfX_1 : uvfromsfX (cs "abc/def.html?x") (cs "%S/%S.%[a-y]") =
  Some ([cs "abc"; cs "def"; cs "html"], cs "?x", []).
Proof. vm_compute. reflexivity. Qed.
Example uvtosf_1 : uvtosf 100 (cs "%(1)/%(0).%(0-1,)%%%s") [cs "abc"; cs "def"] =
  Some (cs "def/abc.abc,def%abc").
Proof. vm_compute. reflexivity. Qed.
Example uvfmtreverse_1 : uvfmtreverse (cs "%S/%s") (cs "%(1).%(0)") =
  Some (cs "%(1)/%(0)", cs "%[^.].%S").
Proof. vm_compute. reflexivity. Qed.
Example RexpMatch_1 : RexpMatch (cs "abc") (cs "[x-za]b") = Some true
  /\ RexpMatch (cs "]bc") (cs "[a]") = Some true /\ RexpMatch [] (cs "[^a][^b]") = None.
Proof. vm_compute. done. Qed.

(** ** What was taken apart is put together again *)

(** Formats of literal characters and of [%S]. *)
Definition fmt_item (i : option Z) : list Z := match i with Some c => [c] | None => [PCNT; 83] end.
Definition fmt_of (items : list (option Z)) : list Z := concat (map fmt_item items).
Definition item_ok (i : option Z) : Prop :=
  match i with Some c => c <> PCNT /\ c <> SP /\ c <> TAB | None => True end.
#[export] Instance item_ok_dec i : Decision (item_ok i).
Proof. destruct i; apply _. Defined.
Fixpoint lits (items : list (option Z)) : list Z :=
  match items with Some c :: l => c :: lits l | _ => [] end.
Fixpoint behind (items : list (option Z)) : list (option Z) :=
  match items with Some _ :: l => behind l | _ => items end.
(** No literal is as long as the buffer it is copied to. *)
Fixpoint lits_fit (items : list (option Z)) : Prop :=
  match items with
  | [] => True
  | Some _ :: l => lits_fit l
  | None :: l => (length (lits l) < 31)%nat /\ lits_fit l
  end.

Lemma fmt_of_cons i l : fmt_of (i :: l) = fmt_item i ++ fmt_of l.
Proof. done. Qed.
Lemma fmt_of_lits items : fmt_of items = lits items ++ fmt_of (behind items).
Proof. induction items as [|[c|] l IH]; [done| |done]. rewrite fmt_of_cons, IH. done. Qed.
Lemma behind_pct items : cat (fmt_of (behind items)) 0 = PCNT \/ fmt_of (behind items) = [].
Proof. induction items as [|[c|] l IH]; [by right|done|by left]. Qed.
Lemma lits_ok items : Forall item_ok items -> Forall item_ok (behind items)
  /\ Forall (fun c => c <> PCNT /\ c <> SP /\ c <> TAB) (lits items).
Proof.
  induction items as [|[c|] l IH]; intros H; [done| |by split].
  apply Forall_cons in H as [Hc Hl]. destruct (IH Hl). split; [done|]. by constructor.
Qed.
Lemma lits_fit_behind items : lits_fit items -> lits_fit (behind items).
Proof. induction items as [|[c|] l IH]; [done|done|done]. Qed.
Lemma span_lits items : Forall item_ok items ->
  span (fun c => negb (c =? PCNT)) (length (fmt_of items)) (fmt_of items) =
  (lits items, fmt_of (behind items)).
Proof.
  intros H. destruct (lits_ok items H) as [_ Hl]. rewrite (fmt_of_lits items). apply span_all.
  - apply forallb_forall. intros c Hc. rewrite Forall_forall in Hl. apply list_elem_of_In, Hl in Hc.
    destruct Hc as [Hc _]. apply Z.eqb_neq in Hc. by rewrite Hc.
  - destruct (behind_pct items) as [->| ->]; [by left|by right].
  - rewrite length_app. lia.
Qed.

(** One [%S], with the literal behind it. *)
Lemma uv_conv_S sp ofp items t sp' fp' : Forall item_ok items -> (length (lits items) < 31)%nat ->
  uv_conv 0 sp ofp sp (83 :: fmt_of items) = inl (t, sp', fp') ->
  fp' = fmt_of (behind items) /\ sp = t ++ lits items ++ sp'.
Proof.
  intros Hok Hlen. unfold uv_conv. change (83 =? 100) with false. change (83 =? 99) with false.
  change (83 =? 83) with true. cbv iota. rewrite span_lits by done. cbn [fst].
  rewrite (proj2 (Nat.leb_gt _ _)) by lia. rewrite take_ge by lia.
  replace (drop (length (lits items)) (fmt_of items)) with (fmt_of (behind items))
    by (rewrite (fmt_of_lits items); by rewrite drop_app_length).
  case_bool_decide as El.
  - destruct (span _ _ sp) as [w r] eqn:E. intros [= <- <- <-]. rewrite El. split; [done|].
    by apply span_app in E.
  - pose proof (strstr_spec sp (lits items)) as Hs. destruct (strstr sp (lits items)) as [r|]; [|done].
    destruct Hs as (a & b & -> & ->). intros [= <- <- <-]. split; [done|].
    rewrite drop_app_length, length_app. replace (length a + length (lits items ++ b) - length (lits items ++ b))%nat
      with (length a) by lia. by rewrite take_app_length.
Qed.

(** The two directions, side by side. *)
Definition rebuilds (items : list (option Z)) (tags new : list (list Z)) (text : list Z) : Prop :=
  forall siz n out, zlen (out ++ text) < siz - 1 -> (length (fmt_of items) < n)%nat ->
  (length (tags ++ new) <= NTAGS)%nat ->
  uvtosf_loop n (tags ++ new) (siz - 1) (length tags) (fmt_of items) out = Some (out ++ text).

Lemma rebuilds_nil tags : rebuilds [] tags [] [].
Proof. intros siz n out _ Hn _. destruct n; [cbn in Hn; lia|]. cbn. by rewrite app_nil_r. Qed.
Lemma rebuilds_lit c items tags new text : c <> PCNT -> rebuilds items tags new text ->
  rebuilds (Some c :: items) tags new (c :: text).
Proof.
  intros Hc H siz n out Hsiz Hn Hlen. destruct n; [cbn in Hn; lia|].
  cbn [uvtosf_loop]. rewrite fmt_of_cons. cbn [fmt_item app]. rewrite zlen_app, zlen_cons in Hsiz.
  pose proof (zlen_nonneg text). rewrite (proj2 (Z.leb_gt _ _)) by lia.
  rewrite (proj2 (Z.eqb_neq _ _)) by done. cbn [negb].
  rewrite H; [by rewrite <- app_assoc| |cbn in Hn; unfold fmt_of in *; lia|done].
  rewrite !zlen_app, zlen_cons, zlen_nil. lia.
Qed.
Lemma rebuilds_lits items tags new text : Forall item_ok items -> rebuilds (behind items) tags new text ->
  rebuilds items tags new (lits items ++ text).
Proof.
  induction items as [|[c|] l IH]; intros Hok H; [done| |done].
  apply Forall_cons in Hok as [[Hc _] Hl]. cbn [lits app]. by apply rebuilds_lit, IH.
Qed.
Lemma rebuilds_tag items tags t new text : rebuilds items (tags ++ [t]) new text ->
  rebuilds (None :: items) tags (t :: new) (t ++ text).
Proof.
  intros H siz n out Hsiz Hn Hlen. destruct n; [cbn in Hn; lia|].
  cbn [uvtosf_loop]. rewrite fmt_of_cons. cbn [fmt_item app]. rewrite !zlen_app in Hsiz.
  pose proof (zlen_nonneg text). pose proof (zlen_nonneg t).
  rewrite (proj2 (Z.leb_gt _ _)) by lia. change (PCNT =? PCNT) with true. cbn [negb].
  change (83 =? PCNT) with false. change ((83 =? 83) || (83 =? 115)) with true. cbv iota.
  assert (Ht : (length tags < NTAGS)%nat) by (rewrite length_app in Hlen; cbn in Hlen; lia).
  rewrite (proj2 (Nat.leb_gt _ _)) by lia.
  rewrite lookup_app_r, Nat.sub_diag by lia. cbn [lookup list_lookup]. unfold utosX.
  rewrite (proj2 (Z.ltb_ge _ _)) by lia. rewrite take_ge by (unfold zlen in *; lia). cbn [mbind option_bind].
  replace (S (length tags)) with (length (tags ++ [t])) by (rewrite length_app; cbn; lia).
  change (t :: new) with ([t] ++ new) in *. rewrite app_assoc in *.
  rewrite H; [by rewrite <- app_assoc| |cbn in Hn; unfold fmt_of in *; lia|done].
  rewrite !zlen_app. lia.
Qed.

Lemma uvfromsf_rebuilds n : forall items sp tags tags' r,
  Forall item_ok items -> lits_fit items ->
  uvfromsf_loop n sp (fmt_of items) tags = Some (tags', r, []) ->
  exists new text, tags' = tags ++ new /\ sp = text ++ r /\ rebuilds items tags new text.
Proof.
  induction n as [|n IH]; intros items sp tags tags' r Hok Hfit E; [done|].
  cbn [uvfromsf_loop] in E. destruct items as [|i items].
  { injection E as <- <-. exists [], []. rewrite app_nil_r. split_and!; [done..|apply rebuilds_nil]. }
  rewrite fmt_of_cons in E. pose proof Hok as [Hi Hok']%Forall_cons. destruct i as [c|]; cbn [fmt_item app] in E.
  - destruct Hi as (Hc & Hsp & Htab). destruct (Nat.leb _ _) in E; [done|].
    rewrite (proj2 (Z.eqb_neq _ _) Hc), (proj2 (Z.eqb_neq _ _) Hsp), (proj2 (Z.eqb_neq _ _) Htab) in E.
    cbn [orb negb] in E. destruct sp as [|x sp]; [done|]. destruct (Z.eqb_spec x c) as [->|]; [|done].
    destruct (IH items sp tags tags' r Hok' Hfit E) as (new & text & -> & -> & H).
    exists new, (c :: text). split_and!; [done..|by apply rebuilds_lit].
  - destruct Hfit as [Hlen Hfit]. destruct (Nat.leb _ _) in E; [done|].
    change ((PCNT =? SP) || (PCNT =? TAB)) with false in E. change (negb (PCNT =? PCNT)) with false in E.
    cbv iota in E. change (conv_flags false 0 (83 :: ?l)) with (false, 0, 83 :: l) in E. cbv iota beta in E.
    destruct (uv_conv 0 sp (PCNT :: 83 :: fmt_of items) sp (83 :: fmt_of items)) as [[[t sp'] fp']|[sp' fp']] eqn:Ec.
    + destruct (uv_conv_S _ _ _ _ _ _ Hok' Hlen Ec) as [-> ->].
      destruct (IH (behind items) sp' (tags ++ [t]) tags' r) as (new & text & -> & -> & H).
      * by apply lits_ok.
      * by apply lits_fit_behind.
      * done.
      * exists (t :: new), (t ++ lits items ++ text). rewrite <- !app_assoc. split_and!; [done..|].
        by apply rebuilds_tag, rebuilds_lits.
    + injection E as <- <- ->. exfalso. revert Ec. unfold uv_conv.
      change (83 =? 100) with false. change (83 =? 99) with false. change (83 =? 83) with true. cbv iota.
      case_bool_decide; [by destruct (span _ _ sp)|]. by destruct (strstr _ _).
Qed.

Lemma uvfromsf_count n : forall sp fp tags tags' r f, (length tags <= NTAGS)%nat ->
  uvfromsf_loop n sp fp tags = Some (tags', r, f) -> (length tags' <= NTAGS)%nat.
Proof.
  induction n as [|n IH]; intros sp fp tags tags' r f Ht E; [done|]. cbn [uvfromsf_loop] in E.
  destruct fp as [|fc fp1]; [by injection E as <-|].
  destruct (Nat.leb_spec NTAGS (length tags)); [by injection E as <-|].
  destruct (_ || _); [by eapply IH|]. destruct (negb _).
  - destruct sp as [|c sp']; [by injection E as <-|]. destruct (c =? fc); [by eapply IH|by injection E as <-].
  - destruct (conv_flags _ _ _) as [[supp width] fp2].
    destruct (uv_conv _ _ _ _ _) as [[[t sp'] fp']|[sp' fp']]; [|by injection E as <-].
    eapply IH; [|exact E]. destruct supp; [done|]. rewrite length_app. cbn. lia.
Qed.

(** What a format takes apart it puts together again: when a format of
    literal characters and [%S] matches the beginning of a text completely,
    writing the tags with the same format gives that beginning. *)
Theorem uvtosf_uvfromsfX items str tags r siz :
  Forall item_ok items -> lits_fit items ->
  uvfromsfX str (fmt_of items) = Some (tags, r, []) -> zlen str < siz - 1 ->
  exists text, str = text ++ r /\ uvtosf siz (fmt_of items) tags = Some text.
Proof.
  intros Hok Hfit E Hsiz. assert (Hc : (length tags <= NTAGS)%nat)
    by (eapply uvfromsf_count; [|exact E]; cbn; lia).
  destruct (uvfromsf_rebuilds _ _ _ _ _ _ Hok Hfit E) as (new & text & -> & -> & H).
  exists text. split; [done|]. unfold uvtosf. apply (H siz); [|lia|done].
  rewrite zlen_app in Hsiz. pose proof (zlen_nonneg r). cbn [app]. lia.
Qed.
Definition ex_items : list (option Z) := [None] ++ map Some (cs "/v") ++ [None] ++ map Some (cs ".html").
Lemma uvtosf_uvfromsfX_witness :
  exists text, cs "abc/v12.html?q" = text ++ cs "?q" /\
    uvtosf 1024 (fmt_of ex_items) [cs "abc"; cs "12"] = Some text.
Proof.
  apply (uvtosf_uvfromsfX ex_items).
  - apply (bool_decide_unpack _). by vm_compute.
  - cbn. lia.
  - by vm_compute.
  - by vm_compute.
Defined.

(** ** What the code does otherwise than meant *)

(** A closing bracket is itself in each set. *)
Lemma RexpMatch_bracket : RexpMatch (cs "]") (cs "[a]") = Some true.
Proof. by vm_compute. Qed.
(** A width with the digit 9 or 0 is no width. *)
Lemma width_without_9 : uvfromsfX (cs "abc") (cs "%9c") = Some ([], cs "abc", cs "9c").
Proof. by vm_compute. Qed.
(** A range of tags from a greater number to a smaller one, and one to the
    last tag where there are fewer, reads below the first tag. *)
Lemma reversed_range : uvtosf 100 (cs "%(1-0)") [cs "a"; cs "b"] = None
  /\ uvtosf 100 (cs "%(1-)") [cs "a"] = None.
Proof. by vm_compute. Qed.
(** A tag that the other side does not use ends the reversing of the tags
    behind it. *)
Lemma reverse_skips : uvfmtreverse (cs "%S/%S") (cs "%(1)") = Some (cs "%S/%S", cs "%S").
Proof. by vm_compute. Qed.
