(* ===== verification/Url.v ===== *)
(** * URLs ([src/url.cpp])

    Taking URLs apart (scheme, site, user, password, host, port, path),
    putting hosts and ports together, and normalizing paths.  Where the code
    copies into a buffer of its own its size is modelled; what is stored to
    the caller's is the text. *)
From S2P Require Import Prelude VStr Strings Text UrlEsc Service.
From stdpp Require Import options.

Definition AT : Z := 64.
Definition SLSH : Z := 47.
Definition COLN : Z := 58.
Definition QUES : Z := 63.
Definition DOT : Z := 46.

(** [strrchr(s,c) - s]. *)
Definition last_index (c : Z) (s : list Z) : option nat :=
  (fun i => (length s - 1 - i)%nat) <$> index_of c (rev s).
(** The part in front of the first [c], and what is behind it. *)
Definition cut_at (c : Z) (s : list Z) : list Z * option (list Z) :=
  match index_of c s with Some i => (take i s, Some (drop (S i) s)) | None => (s, None) end.

(** ** Schemes and sites *)

(** The scheme and the rest. *)
Definition scan_URI_scheme (url : list Z) (size : nat) : list Z * list Z :=
  span (fun uc => negb ((uc =? COLN) || isspace uc)) (size - 1) url.

Definition site_chars : list Z := cs "-.:@%$_!~*'(),;&=+#".
Definition scan_URI_site (url : list Z) (size : nat) : list Z * list Z :=
  let size := if Nat.eqb size 0 then 248%nat else size in
  let site := (span (fun c => isalnum c || is_set site_chars c) (Nat.min size 512 - 1) url).1 in
  (site, drop (length site) url).

(** [sscanf("%[^:]:%s")]. *)
Definition decomp_URL_site (site : list Z) : list Z * list Z :=
  match last_index AT site with
  | Some u =>
      match cut_at COLN (drop u site) with
      | (h, Some port) => (take u site ++ h, port)
      | (_, None) => (site, [])
      end
  | None =>
      match cut_at COLN site with
      | (h, Some port) =>
          if bool_decide (h = []) then ([], [])
          else (h, (span (fun c => negb (isspace c)) (length port) (skip_spaces port)).1)
      | (h, None) => (h, [])
      end
  end.
Record url_site := UrlSite {
  us_userpass : list Z; us_user : list Z; us_pass : list Z; us_hostport : list Z;
  us_host : list Z; us_port : list Z
}.
Definition decomp_URL_siteX (site : list Z) : url_site :=
  let '(userpass, user, pass, hostport) :=
    match last_index AT site with
    | Some u =>
        let up := take u site in
        let '(user, pass) := cut_at COLN up in
        (up, (nonxalpha_unescape user true).1, (nonxalpha_unescape (default [] pass) true).1,
         drop (S u) site)
    | None => ([], [], [], site)
    end in
  let '(host, port) := cut_at COLN hostport in
  UrlSite userpass user pass hostport host (default [] port).

(** [scan_userpassX]: the user and the password, in 64 bytes each, and the
    position of the at sign, or the end: it is looked for in a copy without
    the white space in front, and its offset there is taken in the text. *)
Definition scan_userpassX (userpass : list Z) : list Z * list Z * list Z :=
  let line := linescan userpass 64 in
  let line := (span (fun c => negb (is_set [SLSH; QUES; CR; LF] c)) (length line) line).1 in
  let '(up, hp) := match last_index AT line with
                   | Some i => (take i line, Some i)
                   | None => (line, None)
                   end in
  let '(user, pass) := cut_at COLN up in
  (user, match pass with Some p => (wordscan p 64 [94; CR; LF]).1 | None => [] end,
   match hp with Some i => drop i userpass | None => [] end).

Definition scan_url_userpass (server dfltuser : list Z) : list Z * list Z * list Z :=
  let '(user, pass, sp) := scan_userpassX server in
  if negb (cat sp 0 =? AT) then (dfltuser, [], server)
  else ((nonxalpha_unescape (word_scan user 128) true).1,
        (nonxalpha_unescape (wordscan pass 128 [94; CR; LF]).1 true).1, tl sp).

Section ports.
Context (services : list Service).

(** Scheme, site and port: 3 with a port, 2 without, 0 when it is no URL. *)
Definition scan_protositeport (url : list Z) : Z * (list Z * list Z * list Z) :=
  let '(proto, sp) := if cat url 0 =? SLSH then ([], url) else scan_URI_scheme url 64 in
  let sp := if cat sp 0 =? COLN then tl sp else sp in
  let sp := if is_prefix [SLSH; SLSH] sp then Some (drop 2 sp)
            else if cat sp 0 =? SLSH then Some (tl sp) else None in
  match sp with
  | None => (0, (proto, [], []))
  | Some sp =>
      let '(userpasshost, port) := decomp_URL_site (scan_URI_site sp 256).1 in
      (if bool_decide (port = []) then 2 else 3, (proto, userpasshost, port))
  end.
Definition url_serviceport (url : list Z) : Z := serviceport services (scan_URI_scheme url 32).1.

(** [decomp_absurlX]; [ulen] is the number of characters of the URL that the
    path is taken from, [None] when the path is not asked for.  The last
    result is [urlpathp]. *)
Definition SITEC (c : Z) : bool :=
  (c <? 128) && (32 <? c) && negb (c =? SLSH) && negb (c =? QUES).
Definition PATHC (c : Z) : bool := negb (c =? CR) && negb (c =? LF).
Record absurl := AbsUrl {
  au_n : Z; au_proto : list Z; au_login : list Z; au_upath : list Z; au_rest : option (list Z)
}.
Definition decomp_absurlX (url : list Z) (ulen : option Z) : absurl :=
  let '(proto, up) := span (fun c => negb (c =? COLN)) 31 url in
  if negb (cat up 0 =? COLN) then AbsUrl 0 proto [] [] None
  else if negb (cat up 1 =? SLSH) then AbsUrl 1 proto [] [] None
  else if negb (cat up 2 =? SLSH) then AbsUrl 1 proto [] [] None
  else
    let '(login, up) := span SITEC 255 (drop 3 up) in
    if negb (cat up 0 =? QUES) && negb (cat up 0 =? SLSH) then AbsUrl 2 proto login [] (Some up)
    else
      let path := if cat up 0 =? QUES then up else tl up in
      let upath := match ulen with
                   | None => []
                   | Some n => (span PATHC (Z.to_nat (n - 1 - (zlen url - zlen path))) path).1
                   end in
      AbsUrl 3 proto login upath (Some up).
Definition decomp_absurl (url : list Z) (ulen : Z) : absurl := decomp_absurlX url (Some ulen).

(** The URL without its scheme and site. *)
Definition strip_urlhead (url : list Z) : absurl * list Z :=
  let r := decomp_absurlX url None in
  (r, if 2 <=? au_n r
      then let rest := default [] (au_rest r) in if cat rest 0 =? SLSH then rest else SLSH :: rest
      else url).

(** [decomp_siteX]: user, password, host and port; the port is stored as an
    unsigned short. *)
Definition EOHN : list Z := [94; COLN; SLSH; QUES; SP; TAB; CR; LF; 12; 34].
Record site_auth := SiteAuth { sa_user : list Z; sa_pass : list Z; sa_host : list Z; sa_port : Z }.
Definition decomp_siteX (proto site : list Z) : site_auth :=
  let '(user, pass, xp) := scan_userpassX site in
  let '(user, pass, site) := if cat xp 0 =? AT then (user, pass, tl xp) else ([], [], site) in
  let '(host, pp) := wordscan site 102 EOHN in
  let pp := if cat pp 0 =? COLN then tl pp else [] in
  SiteAuth user pass host
    ((if bool_decide (pp <> []) then atoi pp else serviceport services proto) mod 65536).

Definition site_strippass (site : list Z) : list Z :=
  let '(user, _, xp) := scan_userpassX site in
  if cat xp 0 =? AT then user ++ xp else site.
Definition url_strippass (url : list Z) : list Z :=
  match strstr url (cs "://") with
  | Some r => take (length url - length r + 3) url ++ site_strippass (drop 3 r)
  | None => url
  end.

(** ** Hosts and ports *)
Definition scan_hostportX (proto hostport : list Z) (hsiz : nat) : list Z * Z :=
  let '(host, pp) := wordscan hostport hsiz EOHN in
  let port := if cat pp 0 =? COLN then atoi (tl pp) else 0 in
  (host, if port =? 0 then serviceport services proto else port).
Definition scan_hostport0 (hostport : list Z) : list Z * Z :=
  let '(host, r) := span (fun c => negb (is_set [COLN; SLSH; SP; TAB; CR; LF] c)) (length hostport)
                      hostport in
  (host, if cat r 0 =? COLN then atoi (tl r) else 0).
Definition scan_hostport (proto hostport : list Z) : list Z * Z :=
  let '(host, iport) := scan_hostport0 hostport in
  (host, if iport =? 0 then serviceport services proto else iport).
(** The same with an array of [size] bytes for the host: when it is full
    before the host has ended, the port is not looked at. *)
Definition scan_hostport_in (size : nat) (proto hostport : list Z) : list Z * Z :=
  let '(host, iport) := scan_hostport0 hostport in
  let '(host, iport) := if (size - 1 <=? length host)%nat then (take (size - 1) host, 0)
                        else (host, iport) in
  (host, if iport =? 0 then serviceport services proto else iport).
(** [scan_hostport1X]: an at sign drops what is in front of it; the port is
    not taken for a name, but is read through. *)
Fixpoint scan_hostport1_loop (room : Z) (sp out : list Z) (pp : option nat) (port : Z)
  : list Z * Z :=
  let stop := (match pp with Some n => take n out | None => out end, port) in
  match sp with
  | [] => stop
  | ch :: sp' =>
      if room <=? zlen out then stop
      else if is_set [SLSH; QUES; SP; TAB; CR; LF; 12] ch then stop
      else if ch =? COLN then scan_hostport1_loop room sp' out (Some (length out)) (atoi sp')
      else if ch =? AT then scan_hostport1_loop room sp' [] None 0
      else if (128 <=? ch) || (ch <=? 32) then stop
      else scan_hostport1_loop room sp' (out ++ [ch]) pp port
  end.
Definition scan_hostport1X (hostport : list Z) (hsiz : Z) : list Z * Z :=
  scan_hostport1_loop (hsiz - 1) hostport [] None 0.
Definition HostPort (proto host : list Z) (port : Z) : list Z :=
  if serviceport services proto =? port then host else host ++ COLN :: fmt_d port.
End ports.

Definition isSchemeChar (ch : Z) : bool := isalnum ch || (ch =? 43) || (ch =? 45) || (ch =? DOT).
Definition localPathProto (proto : list Z) : bool :=
  streq proto (cs "file") || streq proto (cs "proc") || streq proto (cs "cgi") || streq proto (cs "cfi").
(** [isURN]: the length of the scheme. *)
Definition isURN (urn : list Z) : Z :=
  let scheme s n := is_prefix (cs s) urn && negb (cat urn n =? SLSH) in
  if scheme "news:" 5 then 4
  else if scheme "mailto:" 7 then 6
  else if scheme "data:" 5 then 4
  else if scheme "myfile:" 8 then 6
  else if scheme "string:" 7 then 6
  else if is_prefix (cs "gendata:") urn then 7
  else if scheme "builtin:" 8 then 7
  else if scheme "command:" 8 then 7
  else 0.
(** [url_rmprefix]: the protocol without its prefix, and the prefix. *)
Definition NDGU_MARK : list Z := cs "-_-".
Definition url_rmprefix (proto : list Z) : list Z * list Z :=
  if is_prefix NDGU_MARK proto
  then let dch := cat proto 3 in
       if (dch =? 61) || (dch =? SLSH)
       then match index_of dch (drop 4 proto) with
            | Some i => (drop (i + 5) proto, take (i + 5) proto)
            | None => (proto, [])
            end
       else (proto, [])
  else (proto, []).
(** [file_hostpath]: the protocol, the host and the path of a local URL. *)
Definition file_hostpath (url : list Z) : option (list Z * list Z * list Z) :=
  match index_of COLN url with
  | None => None
  | Some _ =>
      let '(proto, path) := span isalnum (length url) url in
      if negb (localPathProto proto) then None
      else if negb (cat path 0 =? COLN) then None
      else
        let path := tl path in
        if is_prefix [SLSH; SLSH] path
        then let path := drop 2 path in
             if cat path 0 =? SLSH then Some (proto, cs "localhost", path)
             else let '(login, path) := span (fun c => negb (c =? SLSH)) (length path) path in
                  Some (proto, login, path)
        else Some (proto, [], path)
  end.
Definition isFullURL (url : list Z) : bool :=
  let '(proto, up) := span isSchemeChar 32 url in
  isSchemeChar (cat url 0) && (cat up 0 =? COLN)
  && (is_prefix [SLSH; SLSH] (drop 1 up) || localPathProto proto && (cat up 1 =? SLSH)
      || streq proto (cs "builtin") || streq proto (cs "news") || streq proto (cs "mailto")
      || streq proto (cs "data")).
Definition isLoadableURL (url : list Z) : bool :=
  existsb (fun p => strncaseeq url p (length p))
    [cs "ftp://"; cs "file:"; cs "data:"; cs "enc:"; cs "myfile:"; cs "builtin:"; cs "http://"].

(** ** Paths *)

(** The length of the path up to its last slash. *)
Definition url_upathbaselen (base : list Z) (blen : Z) : Z :=
  let part := (span (fun c => negb (c =? QUES)) (Z.to_nat blen) base).1 in
  match last_index SLSH part with Some i => Z.of_nat i + 1 | None => 0 end.

(** Empty when the URLs agree up to their third slash. *)
Fixpoint url_relative_loop (absurl baseurl : list Z) (nsl : Z) : bool :=
  match absurl, baseurl with
  | a :: absurl', b :: baseurl' =>
      if negb (a =? b) then false
      else let nsl := if a =? SLSH then nsl + 1 else nsl in
           (nsl =? 3) || url_relative_loop absurl' baseurl' nsl
  | _, _ => false
  end.
Definition url_relative (absurl baseurl : list Z) : list Z :=
  if url_relative_loop absurl baseurl 0 then [] else absurl.

Definition UREND (ch : Z) : bool := (ch =? 34) || (ch =? 62) || isspace ch || (ch =? 0).
(** What is behind a [.] or a [..] that is a whole element. *)
Definition CURDIR (u : list Z) : option (list Z) :=
  if (cat u 0 =? DOT) && ((cat u 1 =? SLSH) || UREND (cat u 1)) then Some (drop 1 u) else None.
Definition UPDIR (u : list Z) : option (list Z) :=
  if cat u 0 =? DOT then CURDIR (drop 1 u) else None.
Definition skip_slash (np : list Z) : list Z := if cat np 0 =? SLSH then tl np else np.

(** [urlpath_normalize] on one string, which is what it is used for: [out]
    is what was written, [up] what is to be read.  Going up drops the last
    character and goes back behind a slash, or to the beginning. *)
Definition up_out (out : list Z) : list Z :=
  match last_index SLSH (removelast out) with
  | Some i => take (S i) out
  | None => if cat out 0 =? SLSH then take 1 out else []
  end.
Definition path_char (uc : Z) : bool := negb ((uc =? SLSH) || (uc =? QUES) || UREND uc).
(** One element of the path. *)
Definition normalize_elem (next : list Z -> list Z -> option (list Z)) (up out : list Z)
  : option (list Z) :=
  if (cat up 0 =? QUES) || UREND (cat up 0) then Some (out ++ up)
  else
    match CURDIR up, UPDIR up with
    | Some np, _ => next (skip_slash np) out
    | None, Some np => next (skip_slash np) (up_out out)
    | None, None => let '(e, r) := span path_char (length up) up in next r (out ++ e)
    end.
Fixpoint urlpath_normalize_loop (fuel : nat) (up out : list Z) : option (list Z) :=
  match fuel with
  | O => None
  | S fuel' =>
      match up with
      | [] => Some out
      | uc :: r =>
          if uc =? SLSH then normalize_elem (urlpath_normalize_loop fuel') r (out ++ [SLSH])
          else normalize_elem (urlpath_normalize_loop fuel') up out
      end
  end.
Definition urlpath_normalize (url : list Z) : option (list Z) :=
  urlpath_normalize_loop (S (length url)) url [].

(** [url_normalize]: the length of the base and the number of characters of
    the URL that the elements [.] and [..] in front of it take. *)
Fixpoint back_slash (n : nat) (base : list Z) (b : nat) : nat :=
  match n, b with
  | S n', S b' => if nth b' base 0 =? SLSH then b' else back_slash n' base b'
  | _, _ => b
  end.
Fixpoint ups (fuel : nat) (base up : list Z) (bp : nat) (nup : Z) : list Z * nat * Z :=
  match fuel with
  | O => (up, bp, nup)
  | S fuel' =>
      match UPDIR up with
      | None => (up, bp, nup)
      | Some xp =>
          let bp := back_slash bp base bp in
          if negb (cat xp 0 =? SLSH) then (xp, bp, nup + 1) else ups fuel' base (tl xp) bp (nup + 1)
      end
  end.
Definition url_normalize (base url : list Z) : Z * Z :=
  match CURDIR url, UPDIR url with
  | None, None => (zlen base, 0)
  | cur, _ =>
      let up := match cur with Some xp => skip_slash xp | None => url end in
      let '(up, bp, nup) := ups (length url) base up (length base) 0 in
      let bp := if nup =? 0 then bp else back_slash bp base bp in
      (Z.of_nat bp, zlen url - zlen up)
  end.

Example decomp_siteX_1 : decomp_siteX services0 (cs "http") (cs "u:p@h.org:80/x") =
  SiteAuth (cs "u") (cs "p") (cs "h.org") 80
  /\ sa_port (decomp_siteX services0 (cs "https") (cs "h.org/x")) = 443.
Proof. vm_compute. done. Qed.
Example decomp_absurl_1 : decomp_absurl (cs "http://u@h:80/a/b?c") 99 =
  AbsUrl 3 (cs "http") (cs "u@h:80") (cs "a/b?c") (Some (cs "/a/b?c")).
Proof. vm_compute. reflexivity. Qed.
Example decomp_URL_site_1 : decomp_URL_site (cs "u:p@h:80") = (cs "u:p@h", cs "80")
  /\ decomp_URL_site (cs "h:80") = (cs "h", cs "80").
Proof. vm_compute. done. Qed.
Example urlpath_normalize_1 : urlpath_normalize (cs "/a/./b/../../c//../d/..?x=/../y") =
  Some (cs "/c/d/..?x=/../y").
Proof. vm_compute. reflexivity. Qed.
Example urlpath_normalize_2 : urlpath_normalize (cs "../../etc/.. z") = Some (cs " z").
Proof. vm_compute. reflexivity. Qed.
Example url_normalize_1 : url_normalize (cs "a/b/c/") (cs "../../x") = (1, 6).
Proof. vm_compute. reflexivity. Qed.
Example isFullURL_1 : isFullURL (cs "http://x") && isFullURL (cs "file:/x") && negb (isFullURL (cs "http:/x")) = true.
Proof. vm_compute. reflexivity. Qed.
