(* ===== verification/UrlSpec.v ===== *)
(** * URLs: what is taken apart is what was put together

    Normalizing a path is removing its dot segments; sites, hosts and ports
    read as they were written. *)
From S2P Require Import Prelude VStr Strings UrlEsc Service Url.
From stdpp Require Import options.

(** ** Dot segments *)

(** A path of segments, each behind a slash. *)
Definition path (es : list (list Z)) : list Z := concat (map (fun e => SLSH :: e) es).
Definition is_dot (e : list Z) : bool := streq e [DOT].
Definition is_dots (e : list Z) : bool := streq e [DOT; DOT].
(** The segments behind [st], which are final: [.] stands for the place where
    it is, [..] takes back the segment in front. *)
Fixpoint remove_dots (st es : list (list Z)) : list (list Z) :=
  match es with
  | [] => st
  | e :: es' =>
      let st' := if is_dot e then st else if is_dots e then removelast st else st ++ [e] in
      match es' with
      | [] => if is_dot e || is_dots e then st' ++ [[]] else st'
      | _ => remove_dots st' es'
      end
  end.

Definition seg_ok (e : list Z) : Prop := forallb path_char e = true.
(** What follows the path: nothing, the end of the URL in a text, or a query
    that is not directly behind a dot segment. *)
Definition tail_ok (es : list (list Z)) (q : list Z) : Prop :=
  q = [] \/ UREND (cat q 0) = true \/
  cat q 0 = QUES /\ is_dot (List.last es []) = false /\ is_dots (List.last es []) = false.

Lemma path_app es es' : path (es ++ es') = path es ++ path es'.
Proof. unfold path. by rewrite map_app, concat_app. Qed.
Lemma path_one st e : path (st ++ [e]) = path st ++ SLSH :: e.
Proof. rewrite path_app. unfold path. cbn. by rewrite app_nil_r. Qed.
Lemma path_nil st : path (st ++ [[]]) = path st ++ [SLSH].
Proof. apply path_one. Qed.

Lemma existsb_rev {A} (f : A -> bool) l : existsb f (rev l) = existsb f l.
Proof.
  induction l as [|x l IH]; [done|]. cbn [rev existsb]. rewrite existsb_app, IH. cbn.
  by rewrite orb_false_r, orb_comm.
Qed.
Lemma last_index_app c r s : existsb (Z.eqb c) s = false -> last_index c (r ++ c :: s) = Some (length r).
Proof.
  intros Hs. unfold last_index. rewrite rev_app_distr. cbn [rev]. rewrite <- app_assoc. cbn [app].
  rewrite index_of_app by (by rewrite existsb_rev). cbn [fmap option_fmap option_map]. f_equal.
  rewrite length_rev, length_app. cbn [length]. lia.
Qed.
Lemma last_index_none c s : existsb (Z.eqb c) s = false -> last_index c s = None.
Proof. intros Hs. unfold last_index. by rewrite index_of_none by (by rewrite existsb_rev). Qed.
Lemma cut_at_app c s r : existsb (Z.eqb c) s = false -> cut_at c (s ++ c :: r) = (s, Some r).
Proof.
  intros Hs. unfold cut_at. rewrite index_of_app by done. rewrite take_app_length.
  by rewrite drop_app_ge, Nat.sub_succ_l, Nat.sub_diag by lia.
Qed.
Lemma cut_at_none c s : existsb (Z.eqb c) s = false -> cut_at c s = (s, None).
Proof. intros Hs. unfold cut_at. by rewrite index_of_none. Qed.

Lemma up_out_path st : Forall seg_ok st -> up_out (path st ++ [SLSH]) = path (removelast st) ++ [SLSH].
Proof.
  intros Hst. unfold up_out. rewrite removelast_last. destruct (decide (st = [])) as [->|Hne]; [done|].
  destruct (exists_last Hne) as (st' & s & ->). rewrite removelast_last. apply Forall_app in Hst as [_ [Hs _]%Forall_cons].
  rewrite path_one.
  rewrite last_index_app by (by eapply forallb_no).
  rewrite <- !app_assoc. rewrite take_app_ge, Nat.sub_succ_l, Nat.sub_diag by lia. done.
Qed.

(** ** [urlpath_normalize] removes the dot segments *)
Lemma path_char_first e : seg_ok e -> e <> [] ->
  (cat e 0 =? QUES) || UREND (cat e 0) = false /\ cat e 0 <> SLSH.
Proof.
  intros He Hne. destruct e as [|c e]; [done|]. unfold seg_ok in He. cbn [forallb] in He.
  apply andb_prop in He as [Hc _]. rewrite cat_0. unfold path_char in Hc.
  apply negb_true_iff, orb_false_elim in Hc as [[H1%Z.eqb_neq H2]%orb_false_elim H3]. by rewrite H2, H3.
Qed.
Lemma slash_not_end : (SLSH =? QUES) || UREND SLSH = false.
Proof. done. Qed.

(** What comes behind a segment: a slash, or the tail. *)
Definition stops (r : list Z) : Prop :=
  r = [] \/ cat r 0 = SLSH \/ cat r 0 = QUES \/ UREND (cat r 0) = true.
Lemma stops_path_char r : stops r -> path_char (cat r 0) = false \/ r = [].
Proof.
  intros [->|[->|[->|H]]]; [by right|by left..|]. left. unfold path_char.
  by rewrite H, !orb_true_r.
Qed.
Lemma stops_tail es q e : tail_ok (e :: es) q -> stops (path es ++ q).
Proof.
  intros Hq. destruct es as [|e' es]; [|by right; left].
  destruct Hq as [->|[Hq|(Hq & _)]]; unfold stops; cbn; tauto.
Qed.

(** A name of a segment is not taken for a dot segment. *)
Lemma dir_none e r : seg_ok e -> e <> [] -> is_dot e = false -> is_dots e = false -> stops r ->
  CURDIR (e ++ r) = None /\ UPDIR (e ++ r) = None.
Proof.
  intros He Hne Hd Hdd Hr. unfold seg_ok in He.
  assert (Hpc : forall c, path_char c = true -> (c =? SLSH) || UREND c = false).
  { intros c Hc. unfold path_char in Hc. apply negb_true_iff, orb_false_elim in Hc as [Hc H2].
    apply orb_false_elim in Hc as [-> _]. done. }
  destruct e as [|c1 e]; [done|]. cbn [forallb] in He. apply andb_prop in He as [_ He].
  unfold UPDIR. unfold CURDIR at 1. cbn [app drop]. rewrite cat_0.
  assert (E1 : forall l, cat (c1 :: l) 1 = cat l 0) by (intros l; by rewrite <- (cat_succ c1 l 0)).
  rewrite E1. destruct (Z.eqb_spec c1 DOT) as [->|]; [|done]. cbn [andb].
  destruct e as [|c2 e]; [done|]. cbn [forallb] in He. apply andb_prop in He as [H2 He].
  cbn [app drop]. rewrite !cat_0, Hpc by done. split; [done|]. unfold CURDIR. rewrite cat_0.
  assert (E2 : forall l, cat (c2 :: l) 1 = cat l 0) by (intros l; by rewrite <- (cat_succ c2 l 0)).
  rewrite E2. destruct (Z.eqb_spec c2 DOT) as [->|]; [|done]. cbn [andb].
  destruct e as [|c3 e]; [done|]. cbn [forallb] in He. apply andb_prop in He as [H3 He].
  cbn [app drop]. by rewrite cat_0, Hpc.
Qed.

Lemma remove_dots_cons st e es : es <> [] -> remove_dots st (e :: es) =
  remove_dots (if is_dot e then st else if is_dots e then removelast st else st ++ [e]) es.
Proof. by destruct es. Qed.

Section normalize.
Variable q : list Z.
Lemma tail_first es : tail_ok es q ->
  q = [] \/ cat q 0 <> SLSH /\ (cat q 0 =? QUES) || UREND (cat q 0) = true.
Proof using.
  intros [->|[H|(-> & _)]]; [by left|right..|right]; [|done]. rewrite H, orb_true_r. split; [|done].
  by intros E; rewrite E in H.
Qed.
Lemma tail_next e e' es : tail_ok (e :: e' :: es) q -> tail_ok (e' :: es) q.
Proof using. done. Qed.
(** [next] normalizes what is left, at a slash or behind one. *)
Variable next : list Z -> list Z -> option (list Z).
Variable k : nat.
Hypothesis next_slash : forall st e es, Forall seg_ok st -> Forall seg_ok (e :: es) ->
  tail_ok (e :: es) q -> (length (path (e :: es) ++ q) < k)%nat ->
  next (path (e :: es) ++ q) (path st) = Some (path (remove_dots st (e :: es)) ++ q).
Hypothesis next_elem : forall st e es, Forall seg_ok st -> Forall seg_ok (e :: es) ->
  tail_ok (e :: es) q -> (length (e ++ path es ++ q) < k)%nat ->
  next (e ++ path es ++ q) (path st ++ [SLSH]) = Some (path (remove_dots st (e :: es)) ++ q).
Hypothesis next_tail : forall out, (q = [] \/ cat q 0 <> SLSH /\ (cat q 0 =? QUES) || UREND (cat q 0) = true) ->
  (length q < k)%nat -> next q out = Some (out ++ q).

(** Behind a dot segment: the next segment without its slash, or the tail. *)
Lemma next_dir st e es : Forall seg_ok st -> Forall seg_ok es -> tail_ok (e :: es) q ->
  (length (path es ++ q) < k)%nat ->
  next (skip_slash (path es ++ q)) (path st ++ [SLSH]) =
  Some (path (match es with [] => st ++ [[]] | _ => remove_dots st es end) ++ q).
Proof using next_slash next_elem next_tail.
  intros Hst Hes Hq Hk. destruct es as [|e' es].
  - cbn [path map concat app] in *. pose proof (tail_first _ Hq) as Hq'. rewrite path_nil.
    unfold skip_slash. destruct Hq' as [Hq'|[H1 H2]].
    + subst q. apply (next_tail (path st ++ [SLSH])); [by left|done].
    + rewrite (proj2 (Z.eqb_neq _ _) H1). apply next_tail; [by right|done].
  - change (path (e' :: es) ++ q) with (SLSH :: (e' ++ path es) ++ q) in *.
    unfold skip_slash. rewrite cat_0. change (SLSH =? SLSH) with true. cbn [tl].
    rewrite <- app_assoc. apply next_elem; [done..|]. cbn [length] in Hk.
    rewrite <- app_assoc in Hk. lia.
Qed.

Lemma elem_spec st e es : Forall seg_ok st -> Forall seg_ok (e :: es) -> tail_ok (e :: es) q ->
  (length (path es ++ q) < k)%nat ->
  normalize_elem next (e ++ path es ++ q) (path st ++ [SLSH]) =
  Some (path (remove_dots st (e :: es)) ++ q).
Proof using next_slash next_elem next_tail.
  intros Hst Hes Hq Hk. pose proof Hes as [He Hes']%Forall_cons. unfold normalize_elem.
  pose proof (stops_tail es q e Hq) as Hstop.
  destruct (decide (e = [])) as [->|Hne].
  - cbn [app]. destruct es as [|e' es].
    + change (path [] ++ q) with q in *. assert (H2 : (cat q 0 =? QUES) || UREND (cat q 0) = true)
        by (destruct (tail_first _ Hq) as [->|[_ H2]]; done).
      rewrite H2. change (remove_dots st [[]]) with (st ++ [[]]). by rewrite path_nil.
    + change (path (e' :: es) ++ q) with (SLSH :: (e' ++ path es) ++ q) in *. rewrite cat_0, slash_not_end.
      change (CURDIR (SLSH :: (e' ++ path es) ++ q)) with (@None (list Z)).
      change (UPDIR (SLSH :: (e' ++ path es) ++ q)) with (@None (list Z)). cbv iota.
      change (span path_char (length (SLSH :: (e' ++ path es) ++ q)) (SLSH :: (e' ++ path es) ++ q))
        with (@nil Z, SLSH :: (e' ++ path es) ++ q). cbv iota. rewrite app_nil_r, <- path_nil.
      change (SLSH :: (e' ++ path es) ++ q) with (path (e' :: es) ++ q).
      rewrite next_slash; [done|apply Forall_app; split; [done|by repeat constructor]|done|done|exact Hk].
  - destruct (path_char_first e He Hne) as [Hf _].
    assert (Hcat : cat (e ++ path es ++ q) 0 = cat e 0) by (by destruct e).
    rewrite Hcat, Hf. destruct (is_dot e) eqn:Ed; [|destruct (is_dots e) eqn:Edd].
    + apply bool_decide_eq_true_1 in Ed as ->.
      assert (Ec : CURDIR ([DOT] ++ path es ++ q) = Some (path es ++ q)).
      { unfold CURDIR. change (cat ([DOT] ++ path es ++ q) 1) with (cat (path es ++ q) 0).
        destruct es; [|done]. cbn [path map concat app]. destruct Hq as [->|[H|(_ & H & _)]]; [done| |done].
        by rewrite H, orb_true_r. }
      rewrite Ec, (next_dir st [DOT] es) by done. by destruct es.
    + apply bool_decide_eq_true_1 in Edd as ->.
      assert (Ec : CURDIR ([DOT; DOT] ++ path es ++ q) = None) by done.
      assert (Eu : UPDIR ([DOT; DOT] ++ path es ++ q) = Some (path es ++ q)).
      { unfold UPDIR, CURDIR. cbn [app drop]. rewrite !cat_0. change (DOT =? DOT) with true. cbn [andb].
        change (cat (DOT :: path es ++ q) 1) with (cat (path es ++ q) 0).
        destruct es; [|done]. cbn [path map concat app]. destruct Hq as [->|[H|(_ & _ & H)]]; [done| |done].
        by rewrite H, orb_true_r. }
      rewrite Ec, Eu, up_out_path by done.
      rewrite (next_dir (removelast st) [DOT; DOT] es); [by destruct es| |done|done|done].
      clear -Hst. induction st as [|x st IH] using rev_ind; [done|]. rewrite removelast_last.
      by apply Forall_app in Hst as [? _].
    + destruct (dir_none e (path es ++ q) He Hne Ed Edd Hstop) as [-> ->].
      rewrite span_all; [|done|by apply stops_path_char|rewrite length_app; lia].
      rewrite <- app_assoc. cbn [app]. rewrite <- path_one.
      destruct es as [|e' es].
      * cbn [path map concat app remove_dots] in *. rewrite Ed, Edd. cbn [orb].
        apply next_tail; [by eapply tail_first|done].
      * rewrite next_slash; [|apply Forall_app; split; [done|by repeat constructor]|done|done|exact Hk].
        by rewrite (remove_dots_cons st e), Ed, Edd by done.
Qed.
End normalize.

Lemma loop_spec q k :
  (forall st e es, Forall seg_ok st -> Forall seg_ok (e :: es) -> tail_ok (e :: es) q ->
     (length (path (e :: es) ++ q) < k)%nat ->
     urlpath_normalize_loop k (path (e :: es) ++ q) (path st) = Some (path (remove_dots st (e :: es)) ++ q))
  /\ (forall st e es, Forall seg_ok st -> Forall seg_ok (e :: es) -> tail_ok (e :: es) q ->
     (length (e ++ path es ++ q) < k)%nat ->
     urlpath_normalize_loop k (e ++ path es ++ q) (path st ++ [SLSH]) =
     Some (path (remove_dots st (e :: es)) ++ q))
  /\ (forall out, (q = [] \/ cat q 0 <> SLSH /\ (cat q 0 =? QUES) || UREND (cat q 0) = true) ->
     (length q < k)%nat -> urlpath_normalize_loop k q out = Some (out ++ q)).
Proof.
  induction k as [|k (IHs & IHe & IHt)]; [by split_and!; intros; lia|].
  assert (Ht : forall out, (q = [] \/ cat q 0 <> SLSH /\ (cat q 0 =? QUES) || UREND (cat q 0) = true) ->
     urlpath_normalize_loop (S k) q out = Some (out ++ q)).
  { intros out Hq. cbn [urlpath_normalize_loop]. destruct q as [|c q']; [by rewrite app_nil_r|].
    destruct Hq as [|[H1 H2]]; [done|]. rewrite cat_0 in H1. rewrite (proj2 (Z.eqb_neq _ _) H1).
    unfold normalize_elem. by rewrite H2. }
  split_and!; [| |by intros out Hq _; apply Ht].
  - intros st e es Hst Hes Hq Hk. change (path (e :: es) ++ q) with (SLSH :: (e ++ path es) ++ q) in *.
    cbn [urlpath_normalize_loop length] in *. change (SLSH =? SLSH) with true. cbv iota.
    rewrite <- app_assoc in *. apply (elem_spec q _ k); try done. rewrite length_app in Hk. lia.
  - intros st e es Hst Hes Hq Hk. destruct e as [|c e]; [destruct es as [|e es]|].
    + change (remove_dots st [[]]) with (st ++ [[]]). rewrite path_nil. apply Ht, (tail_first _ _ Hq).
    + change ([] ++ path (e :: es) ++ q) with (SLSH :: (e ++ path es) ++ q) in *.
      cbn [urlpath_normalize_loop length] in *. change (SLSH =? SLSH) with true. cbv iota.
      rewrite <- app_assoc in *. rewrite <- path_nil.
      change (remove_dots st ([] :: e :: es)) with (remove_dots (st ++ [[]]) (e :: es)).
      apply (elem_spec q _ k); try done; [apply Forall_app; split; [done|by repeat constructor] | |].
      * by apply Forall_cons in Hes as [_ ?].
      * rewrite length_app in Hk. lia.
    + assert (Hc : (c =? SLSH) = false).
      { apply Forall_cons in Hes as [He _]. destruct (path_char_first _ He) as [_ H]; [done|]. by apply Z.eqb_neq. }
      cbn [app urlpath_normalize_loop length] in *. rewrite Hc.
      apply (elem_spec q _ k IHs IHe IHt st (c :: e) es); try done. rewrite length_app in Hk. lia.
Qed.

(** C23. Normalizing the path of a URL is removing its dot segments, when no
    query is directly behind one: each [.] goes, each [..] goes with the
    segment in front of it, whatever follows the path (nothing, the end of the
    URL in a text, or a query whose last segment in front is not a dot
    segment) is kept, and the fuel is enough.  A dot segment directly in front
    of a [?] is not removed ([query_keeps_dots]). *)
Theorem urlpath_normalize_removes_dots e es q :
  Forall seg_ok (e :: es) -> tail_ok (e :: es) q ->
  urlpath_normalize (path (e :: es) ++ q) = Some (path (remove_dots [] (e :: es)) ++ q).
Proof.
  intros Hes Hq. unfold urlpath_normalize.
  apply (proj1 (loop_spec q (S (length (path (e :: es) ++ q)))) [] e es); [done..|lia].
Qed.

Lemma urlpath_normalize_removes_dots_witness :
  urlpath_normalize (path [cs "a"; cs "."; cs "b"; cs ".."; cs ".."; cs ".."; cs "c"; []; cs "d"] ++ cs "?x=/../y") =
  Some (cs "/c//d?x=/../y").
Proof.
  rewrite urlpath_normalize_removes_dots.
  - by vm_compute.
  - by repeat constructor.
  - right. right. by vm_compute.
Defined.

Definition not_dots (e : list Z) : Prop := is_dot e = false /\ is_dots e = false.
Lemma remove_dots_not_dots es : forall st, Forall not_dots st -> Forall not_dots (remove_dots st es).
Proof.
  induction es as [|e es IH]; intros st Hst; [done|]. cbn [remove_dots].
  assert (Hst' : Forall not_dots (if is_dot e then st else if is_dots e then removelast st else st ++ [e])).
  { destruct (is_dot e) eqn:Ed; [done|]. destruct (is_dots e) eqn:Edd.
    - destruct (decide (st = [])) as [->|Hne]; [done|]. rewrite (app_removelast_last [] Hne) in Hst.
      by apply Forall_app in Hst as [? _].
    - apply Forall_app. split; [done|by repeat constructor]. }
  destruct es as [|e' es]; [|by apply IH].
  destruct (is_dot e || is_dots e); [|done]. apply Forall_app. split; [done|by repeat constructor].
Qed.
(** No [.] and no [..] is left in a normalized path, so that it does
    not lead out of the directory that it is looked up in. *)
Theorem urlpath_normalize_stays_inside e es q :
  Forall seg_ok (e :: es) -> tail_ok (e :: es) q ->
  exists es', urlpath_normalize (path (e :: es) ++ q) = Some (path es' ++ q) /\ Forall not_dots es'.
Proof.
  intros Hes Hq. exists (remove_dots [] (e :: es)). split; [|by apply remove_dots_not_dots].
  unfold urlpath_normalize.
  apply (proj1 (loop_spec q (S (length (path (e :: es) ++ q)))) [] e es); [done..|lia].
Qed.
Lemma urlpath_normalize_stays_inside_witness :
  exists es', urlpath_normalize (cs "/../../etc/../passwd") = Some (path es' ++ []) /\ Forall not_dots es'.
Proof.
  apply (urlpath_normalize_stays_inside [46; 46] [cs ".."; cs "etc"; cs ".."; cs "passwd"] []).
  - by repeat constructor.
  - by left.
Defined.

(** ** A URL is taken apart into what it was put together from *)
Definition HOSTC (c : Z) : bool := SITEC c && negb (c =? COLN).

Lemma forallb_impl {A} (p p' : A -> bool) s :
  (forall c, p c = true -> p' c = true) -> forallb p s = true -> forallb p' s = true.
Proof. intros H Hs. rewrite forallb_forall in *. auto. Qed.
Lemma fmt_d_digits z : 0 <= z < 2 ^ 31 -> forallb isdigit (fmt_d z) = true.
Proof.
  intros Hz. destruct (fmt_d_spec z Hz) as (_ & Hds & _). induction Hds as [|d ds Hd _ IH]; [done|].
  cbn [forallb]. by rewrite Hd.
Qed.
Lemma HostPort_SITEC services proto host port :
  forallb HOSTC host = true -> 0 < port < 2 ^ 31 ->
  forallb SITEC (HostPort services proto host port) = true.
Proof.
  intros Hh Hp. unfold HostPort. assert (Hs : forallb SITEC host = true).
  { eapply forallb_impl; [|done]. intros c Hc. unfold HOSTC in Hc. by apply andb_prop in Hc as [? _]. }
  destruct (serviceport services proto =? port); [done|]. rewrite forallb_app, Hs. cbn [forallb].
  change (SITEC COLN) with true. cbn [andb]. eapply forallb_impl; [|by apply fmt_d_digits; lia].
  intros c Hc. unfold isdigit, SITEC, SLSH, QUES in *. lia.
Qed.
Lemma decomp_absurl_url proto site upath n :
  forallb (fun c => negb (c =? COLN)) proto = true -> (length proto <= 31)%nat ->
  forallb SITEC site = true -> (length site <= 255)%nat -> forallb PATHC upath = true ->
  zlen (proto ++ cs "://" ++ site ++ SLSH :: upath) < n ->
  decomp_absurl (proto ++ cs "://" ++ site ++ SLSH :: upath) n =
  AbsUrl 3 proto site upath (Some (SLSH :: upath)).
Proof.
  intros Hp Hlp Hs Hls Hu Hn. unfold decomp_absurl, decomp_absurlX.
  change (cs "://" ++ site ++ SLSH :: upath) with (COLN :: SLSH :: SLSH :: (site ++ SLSH :: upath)) in *.
  rewrite span_all by (done || by left).
  change (cat (COLN :: ?l) 0) with COLN. change (cat (COLN :: SLSH :: ?l) 1) with SLSH.
  change (cat (COLN :: SLSH :: SLSH :: ?l) 2) with SLSH. cbn [drop].
  change (negb (COLN =? COLN)) with false. change (negb (SLSH =? SLSH)) with false. cbv iota.
  rewrite drop_0, span_all by (done || by left). rewrite cat_0. change (SLSH =? QUES) with false. cbn [tl negb andb].
  change (negb (SLSH =? SLSH)) with false. cbv iota. set (m := Z.to_nat _).
  assert (Hm : (length upath <= m)%nat); [|by rewrite <- (app_nil_r upath) at 1; rewrite span_all; [|done|by right|]].
  subst m.
  rewrite !zlen_app in Hn |- *. unfold zlen in *. cbn [length] in *. rewrite length_app in *. cbn [length] in *. lia.
Qed.

Lemma isHOSTC_end c : HOSTC c = true -> negb (is_set [COLN; SLSH; SP; TAB; CR; LF] c) = true.
Proof.
  unfold HOSTC, SITEC, is_set, SLSH, QUES, COLN, SP, TAB, CR, LF. intros Hc. cbn [existsb]. lia.
Qed.
Lemma scan_hostport_HostPort services proto host port :
  forallb HOSTC host = true -> 0 < port < 2 ^ 31 ->
  scan_hostport services proto (HostPort services proto host port) = (host, port).
Proof.
  intros Hh Hp. pose proof (forallb_impl _ _ _ isHOSTC_end Hh) as Hh'.
  unfold scan_hostport, scan_hostport0, HostPort.
  destruct (Z.eqb_spec (serviceport services proto) port) as [<-|Hne].
  - rewrite <- (app_nil_r host) at 2. rewrite span_all; [done|done|by right|done].
  - rewrite span_all; [|done|by left|rewrite length_app; lia]. rewrite cat_0.
    change (COLN =? COLN) with true. cbn [tl]. rewrite atoi_fmt_d by lia.
    by rewrite (proj2 (Z.eqb_neq port 0)) by lia.
Qed.

(** C24. A URL put together from a scheme, a host, a port and a path is
    taken apart into them: [decomp_absurl] finds the scheme, the site and the
    path, and [scan_hostport] finds the host and the port in the site, also
    when [HostPort] left the port out as the service's own. *)
Theorem url_decomp_roundtrip services proto host port upath n :
  forallb (fun c => negb (c =? COLN)) proto = true -> (length proto <= 31)%nat ->
  forallb HOSTC host = true -> 0 < port < 2 ^ 31 ->
  (length (HostPort services proto host port) <= 255)%nat -> forallb PATHC upath = true ->
  let url := proto ++ cs "://" ++ HostPort services proto host port ++ SLSH :: upath in
  zlen url < n ->
  exists login, decomp_absurl url n = AbsUrl 3 proto login upath (Some (SLSH :: upath))
    /\ scan_hostport services proto login = (host, port).
Proof.
  intros Hp Hlp Hh Hport Hl Hu url Hn. exists (HostPort services proto host port).
  split; [|by apply scan_hostport_HostPort].
  apply decomp_absurl_url; try done. by apply HostPort_SITEC.
Qed.

Lemma url_decomp_roundtrip_witness :
  let url := cs "http" ++ cs "://" ++ HostPort services0 (cs "http") (cs "www.delegate.org") 8080 ++ SLSH :: cs "a/b?c" in
  url = cs "http://www.delegate.org:8080/a/b?c" /\
  exists login, decomp_absurl url 1024 = AbsUrl 3 (cs "http") login (cs "a/b?c") (Some (cs "/a/b?c"))
    /\ scan_hostport services0 (cs "http") login = (cs "www.delegate.org", 8080).
Proof.
  split; [by vm_compute|].
  apply (url_decomp_roundtrip services0 (cs "http") (cs "www.delegate.org") 8080 (cs "a/b?c") 1024);
    first [by vm_compute|apply (bool_decide_unpack _); by vm_compute].
Defined.

(** ** What the code does otherwise than meant *)

(** A dot segment that a query follows is kept. *)
Lemma query_keeps_dots : urlpath_normalize (cs "/a/..?x") = Some (cs "/a/..?x")
  /\ urlpath_normalize (cs "/a/..") = Some (cs "/").
Proof. by vm_compute. Qed.
(** A user and a password that do not fit in 64 bytes with the at sign: the
    password is not stripped. *)
Lemma long_password_is_kept :
  let up := cs "user:" ++ repeat 112 60 in
  site_strippass (up ++ cs "@host") = up ++ cs "@host"
  /\ site_strippass (cs "user:pass@host") = cs "user@host".
Proof. by vm_compute. Qed.
