(* ===== verification/ProtoV.v ===== *)
(** * Lists of protocols with ports and methods ([src/master.cpp])

    An element of such a list is [proto/ports/methods].  [addProto1] makes a
    vector of elements from the text of a list, choosing from the protocols
    that are available; [makeProtoV] makes the vector of [Server]s that is
    asked with [protoMatch1] and [methodMatch]; [sprintProtoV] writes it
    back.  Texts are cut to the arrays they are copied to.  [None] is a store
    behind the end of the vector [protoV[MAXPROTO]] or of the text [portb] of
    the callers, or a scan of a list that fails. *)
From S2P Require Import Prelude Strings Glob ScanList ListOps Service.
From stdpp Require Import options.

Definition MAXPROTO : nat := 64.
Definition SLASH : Z := 47.
Definition COLON : Z := 58.
Definition DASH : Z := 45.

(** [p_portV] is a null pointer for any port. *)
Record Server := MkServer {
  p_name : list Z;
  p_portV : option (list Z);
  p_methods : option (list Z)
}.
Definition p_portN (s : Server) : Z := zlen (default [] (p_portV s)).

Definition is_all (proto : list Z) : bool := streq proto [STAR] || streq proto (cs "all").

(** Protocol, ports and methods, into arrays of the sizes [np], [nn] and
    [nm] of the caller. *)
Definition scanProtoPort (np nn nm : nat) (protoport : list Z) : list Z * list Z * list Z :=
  let buf := clip 1024 protoport in
  let pv := stoV 3 buf (if existsb (Z.eqb COLON) buf then COLON else SLASH) in
  (clip np (nth 0 pv []), clip nn (nth 1 pv []), clip nm (nth 2 pv [])).

(** *** [makeProtoV], without an old vector: the servers, and how many times
    [DO_METHOD_FILTER] is counted up. *)
Definition make_server (proto1 : list Z) : Server :=
  let '(proto, ports, methods) := scanProtoPort 64 1024 512 proto1 in
  MkServer proto
    (if bool_decide (ports <> []) && negb (streq ports [STAR])
     then let ports := if cat ports 0 =? LBRACE then tl ports else ports in
          Some (map atoi (stoV MAXPROTO ports COMMA))
     else None)
    (if bool_decide (methods <> []) then Some methods else None).
Fixpoint makeProtoV (protov : list (list Z)) : list Server :=
  match protov with
  | [] => []
  | proto1 :: protov' =>
      if cat proto1 0 =? DASH then makeProtoV protov'
      else make_server proto1 :: makeProtoV protov'
  end.
Definition method_filters (protoV : list Server) : Z :=
  zlen (filter (fun s => p_methods s <> None) protoV).

(** *** [sprintProtoV] *)
Definition sprint_ports (s : Server) : list Z :=
  match p_portV s with
  | Some (p :: ps) =>
      let l := commas (map fmt_d (p :: ps)) in
      SLASH :: (if bool_decide (ps = []) then l else LBRACE :: l ++ [RBRACE])
  | _ => []
  end.
Definition sprint_methods (s : Server) : list Z :=
  match p_methods s with
  | Some mp => (if p_portN s =? 0 then [SLASH; STAR] else []) ++ SLASH :: mp
  | None => []
  end.
Definition sprint_server (s : Server) : list Z := p_name s ++ sprint_ports s ++ sprint_methods s.
Definition sprintProtoV (protoV : list Server) : list Z := commas (map sprint_server protoV).

(** *** The vector of elements

    The texts of the elements are in the array [portb] of the caller, each
    behind the one before; [portp] is the place for the next one. *)
Definition PORTB : Z := 2048.
Record pvec := PVec { pv_elems : list (list Z); pv_portp : Z }.
(** A text is cut at the end of [portb]; behind the end nothing is stored,
    but the place is still read. *)
Definition put_portb (text : list Z) (portp : Z) : option (list Z * Z) :=
  if PORTB <=? portp then None
  else let text := take (Z.to_nat (PORTB - 1 - portp)) text in
       Some (text, portp + zlen text + 1).

Fixpoint subProto1 (pv : list (list Z)) (proto ports : list Z) (portp : Z) : option pvec :=
  match pv with
  | [] => Some (PVec [] portp)
  | proto1 :: pv' =>
      let len := length proto in
      '(r, portp) ←
          (if bool_decide (take len proto1 = proto)
           then if bool_decide (drop len proto1 = []) then Some (None, portp)
                else if cat (drop len proto1) 0 =? SLASH
                then ports1 ← subSetList (drop (S len) proto1) ports;
                     let ports1 := clip 256 ports1 in
                     if bool_decide (ports1 = []) then Some (None, portp)
                     else '(text, portp) ← put_portb (take (S len) proto1 ++ ports1) portp;
                          Some (Some text, portp)
                else Some (Some proto1, portp)
           else Some (Some proto1, portp));
      '(PVec l portp) ← subProto1 pv' proto ports portp;
      Some (PVec (if is_all proto then l else match r with Some p => p :: l | None => l end) portp)
  end.

(** The element that is stored for a protocol. *)
Definition proto_text (proto ports methods : list Z) : list Z :=
  proto ++ (if bool_decide (ports <> []) then SLASH :: ports else [])
    ++ (if bool_decide (methods <> []) then SLASH :: methods else []).

Section addProto.
Variable services : list Service.
Variable tv : list (list Z).        (** the protocols that are available *)
Variable iproto : list Z.

Definition addProto_elem (protoport : list Z) (v : pvec) : option pvec * Z :=
  let '(PVec pv portp) := v in
  let '(proto, ports, methods) := scanProtoPort 64 256 512 protoport in
  if (cat proto 0 =? 33) || (cat proto 0 =? DASH) then (subProto1 pv (tl proto) ports portp, 0)
  else
    let proto := if streq proto (cs ".") then clip 64 iproto else proto in
    if is_all proto
    then (Some (PVec (take (MAXPROTO - 1) (filter (fun t => 0 <= serviceport services t) tv)) portp), 0)
    else if existsb (strcasecmp_eq proto) tv
    then
      if (MAXPROTO <=? length pv)%nat then (Some v, -1)
      (* the null pointer behind the new element is stored at pv[MAXPROTO] *)
      else if (length pv =? MAXPROTO - 1)%nat then (None, 0)
      else
        let ports := if bool_decide (ports = []) && bool_decide (methods <> []) then [STAR]
                     else ports in
        ('(text, portp) ← put_portb (proto_text proto ports methods) portp;
         Some (PVec (pv ++ [text]) portp), 0)
    else (Some v, 0).

(** A single dot stands for the protocols that the server's own function
    serves. *)
Definition addProto1 (protoport : list Z) (v : pvec) : option pvec * Z :=
  if streq protoport (cs ".")
  then
    let '(r, n) := foreach_eqproto services iproto
                     (fun o name => v ← o; (addProto_elem name v).1) (Some v) in
    if negb (n =? 0) then (r, 0) else addProto_elem protoport v
  else addProto_elem protoport v.

Definition addProto_step (o : option pvec) (elem : list Z) (_ : option (list Z)) : option pvec * Z :=
  match o with
  | Some v => addProto1 elem v
  | None => (None, 0)
  end.
(** The scan of a whole list, [scan_commaListL(protoL,STR_VOLA,addProto1)]. *)
Definition protoList (protoL : list Z) : option (list (list Z)) :=
  res ← scan_ListLX addProto_step true false protoL COMMA (Some (PVec [] 0)); pv_elems <$> res.1.1.
End addProto.

(** *** Questions *)
Definition portMatch (s : Server) (port : Z) : bool :=
  match p_portV s with
  | None => true
  | Some l => existsb (fun p => p =? port) l
  end.
Definition name_matches (proto aproto : list Z) : bool :=
  (cat proto 0 =? STAR) || (cat aproto 0 =? STAR) || strcasecmp_eq proto aproto.

(** [protoMatch1]: the first server with the name and the port; without a
    check of ports the last one with the name. *)
Definition protoMatch1 (no_dstcheck_port : bool) (protoV : list Server) (proto : list Z)
  (port : Z) : option Server :=
  match find (fun s => name_matches proto (p_name s) && portMatch s port) protoV with
  | Some s => Some s
  | None => if no_dstcheck_port then last (filter (fun s => name_matches proto (p_name s)) protoV)
            else None
  end.

Definition dash_proto (proto : list Z) : bool * list Z :=
  if cat proto 0 =? DASH then (true, tl proto) else (false, proto).
Definition protoMatch3 (protoV : list Server) (proto : list Z) : bool :=
  let '(exactmatch, proto) := dash_proto proto in
  existsb (fun s => negb (exactmatch && (cat (p_name s) 0 =? STAR))
                    && name_matches proto (p_name s)) protoV.
(** [protoMatch2]: [cmap] is [CMAPmethod] of the connection, [None] without
    one; the first server with the name decides. *)
Definition protoMatch2 (cmap : option (list Z)) (protoV : option (list Server)) (proto : list Z)
  : option bool :=
  match protoV with
  | None => Some true
  | Some protoV =>
      let '(exactmatch, proto) := dash_proto proto in
      match find (fun s => negb (exactmatch && (cat (p_name s) 0 =? STAR))
                           && name_matches proto (p_name s)) protoV with
      | None => Some false
      | Some s =>
          match cmap, p_methods s with
          | Some CMAPmethod, Some m =>
              if bool_decide (CMAPmethod <> [])
              then (fun r => negb (r =? 0)) <$> isinList m CMAPmethod
              else Some true
          | _, _ => Some true
          end
      end
  end.

(** [methodMatch]: a null [method] is [None]. *)
Definition methodMatch (forreject : bool) (s : Server) (method : option (list Z)) : option bool :=
  match p_methods s with
  | None => Some true
  | Some methods =>
      if bool_decide (methods = []) || streq methods [STAR] then Some true
      else
        star ← (if cat methods 0 =? LBRACE then isinListX methods [STAR] [] else Some 0);
        if negb (star =? 0) then Some true
        else if bool_decide (method = Some (cs ".REJECT")) then Some false
        else if streq methods (cs "readonly") then Some (negb forreject)
        else match method with
             | None | Some [] => Some (negb forreject)
             | Some m =>
                 if streq m [STAR] then Some true
                 else (fun r => negb (r =? 0)) <$> isinList methods m
             end
  end.

Lemma methodMatch_some fr s method : exists b, methodMatch fr s method = Some b.
Proof.
  unfold methodMatch. destruct (p_methods s) as [m|]; [|eauto]. destruct (_ || _); [eauto|].
  assert (E : exists n, (if cat m 0 =? LBRACE then isinListX m [STAR] [] else Some 0) = Some n)
    by (destruct (_ =? _); [apply isinListX_some|eauto]).
  destruct E as [star ->]. cbn [mbind option_bind]. destruct (negb _); [eauto|].
  destruct (bool_decide _); [eauto|]. destruct (streq _ _); [eauto|].
  destruct method as [[|c l]|]; [eauto| |eauto]. destruct (streq _ _); [eauto|].
  destruct (isinList_some m (c :: l)) as [n ->]. cbn. eauto.
Qed.

(** Does the server have no list of methods, or one with [*]?  Then it
    matches without a method; otherwise it does not in [REJECT]. *)
Definition any_method (s : Server) : bool :=
  match p_methods s with
  | None => true
  | Some methods =>
      bool_decide (methods = []) || streq methods [STAR]
      || (cat methods 0 =? LBRACE) && negb (default 0 (isinListX methods [STAR] []) =? 0)
  end.
Lemma methodMatch_none fr s : methodMatch fr s None = Some (any_method s || negb fr).
Proof.
  unfold methodMatch, any_method. destruct (p_methods s) as [m|]; [|done].
  destruct (_ || streq m [STAR]); [done|].
  destruct (cat m 0 =? LBRACE); cbn [andb mbind option_bind].
  - destruct (isinListX_some m [STAR] []) as [n ->]. cbn [default from_option id mbind option_bind].
    destruct (negb (n =? 0)); [done|]. by destruct (streq _ _).
  - by destruct (streq _ _).
Qed.

Definition plist (iproto protoL : list Z) : option (list (list Z)) :=
  protoList services0 (service_names services0) iproto protoL.
Example protoList_1 : plist (cs "http") (cs "http/{80,8080}/GET,ftp,nosuch,pop//DELE,-ftp") =
  Some [cs "http/{80,8080}/GET"; cs "pop/*/DELE"].
Proof. vm_compute. reflexivity. Qed.
Example protoList_2 : plist (cs "https") (cs ".,-ssltunnel") = Some [cs "https"].
Proof. vm_compute. reflexivity. Qed.
Example makeProtoV_1 : makeProtoV [cs "http/{80,8080}/GET"; cs "pop/*/DELE"; cs "-ftp"] =
  [MkServer (cs "http") (Some [80; 8080]) (Some (cs "GET"));
   MkServer (cs "pop") None (Some (cs "DELE"))].
Proof. vm_compute. reflexivity. Qed.
Example sprintProtoV_1 :
  sprintProtoV (makeProtoV [cs "http/{80,8080}/GET"; cs "pop/*/DELE"; cs "ftp/21"]) =
  cs "http/{80,8080}/GET,pop/*/DELE,ftp/21".
Proof. vm_compute. reflexivity. Qed.
Example methodMatch_1 :
  let s := make_server (cs "http//{GET,HEAD}") in
  (methodMatch false s (Some (cs "HEAD")), methodMatch false s (Some (cs "PUT")),
   methodMatch false s None, methodMatch true s None) =
  (Some true, Some false, Some true, Some false).
Proof. vm_compute. reflexivity. Qed.

(** ** Writing and reading *)

Definition no_sep (l : list Z) : Prop :=
  existsb (Z.eqb COLON) l = false /\ existsb (Z.eqb SLASH) l = false.
(** The texts of the ports and methods. *)
Definition ports_text (s : Server) : list Z :=
  match p_portV s with
  | Some (p :: ps) =>
      let l := commas (map fmt_d (p :: ps)) in
      if bool_decide (ps = []) then l else LBRACE :: l ++ [RBRACE]
  | _ => match p_methods s with Some _ => [STAR] | None => [] end
  end.
(** The texts fit the arrays of [makeProtoV]. *)
Definition texts_fit (s : Server) : Prop :=
  (length (p_name s) < 64)%nat /\ (length (ports_text s) < 1024)%nat /\
  (length (default [] (p_methods s)) < 512)%nat /\ (length (sprint_server s) < 1024)%nat.
Definition server_ok (s : Server) : Prop :=
  no_sep (p_name s) /\ p_name s <> [] /\ cat (p_name s) 0 <> DASH /\
  match p_portV s with
  | Some l => l <> [] /\ (length l <= MAXPROTO)%nat /\ Forall (fun p => 0 <= p < 2 ^ 31) l
  | None => True
  end /\
  match p_methods s with
  | Some m => m <> [] /\ existsb (Z.eqb COLON) m = false
  | None => True
  end /\ texts_fit s.

#[export] Instance server_ok_dec s : Decision (server_ok s).
Proof. unfold server_ok, no_sep, texts_fit. destruct (p_portV s), (p_methods s); apply _. Defined.

Lemma digits_no c ds : Forall (fun c => isdigit c = true) ds -> isdigit c = false ->
  existsb (Z.eqb c) ds = false.
Proof.
  intros Hds Hc. induction Hds as [|d ds Hd _ IH]; [done|]. cbn [existsb].
  rewrite IH, orb_false_r. apply Z.eqb_neq. intros ->. congruence.
Qed.
Lemma fmt_d_no c z : 0 <= z < 2 ^ 31 -> isdigit c = false -> existsb (Z.eqb c) (fmt_d z) = false.
Proof. intros Hz. apply digits_no, fmt_d_spec, Hz. Qed.

Lemma commas_no c l : Forall (fun s => existsb (Z.eqb c) s = false) l -> c <> COMMA ->
  existsb (Z.eqb c) (commas l) = false.
Proof.
  intros Hl Hc. induction Hl as [|s l Hs _ IH]; [done|]. destruct l as [|s' l]; [done|].
  change (commas (s :: s' :: l)) with (s ++ COMMA :: commas (s' :: l)).
  rewrite existsb_app, Hs. cbn [existsb orb]. by rewrite (proj2 (Z.eqb_neq _ _) Hc).
Qed.

(** The numbers of a port list, and of one with its closing brace. *)
Lemma ports_read r : isdigit (cat r 0) = false -> existsb (Z.eqb COMMA) r = false ->
  forall l n, l <> [] -> (length l <= n)%nat -> Forall (fun p => 0 <= p < 2 ^ 31) l ->
  map atoi (stoV n (commas (map fmt_d l) ++ r) COMMA) = l.
Proof.
  intros Hr Hc. induction l as [|p l IH]; intros n Hne Hn Hl; [done|].
  apply Forall_cons in Hl as [Hp Hl].
  assert (Ha : forall r', isdigit (cat r' 0) = false -> atoi (fmt_d p ++ r') = p)
    by (intros r' Hr'; unfold atoi; by rewrite scan_d_fmt_d).
  destruct n as [|n]; [simpl in Hn; lia|]. destruct l as [|p' l].
  - cbn [map commas]. rewrite stoV_nosep; [cbn [map]; by rewrite Ha| |].
    + by rewrite existsb_app, fmt_d_no, Hc.
    + destruct (fmt_d_nonempty p Hp) as (d & ds & -> & _). done.
  - destruct n as [|n]; [simpl in Hn; lia|].
    change (commas (map fmt_d (p :: p' :: l)) ++ r)
      with ((fmt_d p ++ COMMA :: commas (map fmt_d (p' :: l))) ++ r).
    rewrite <- app_assoc. cbn [app]. rewrite stoV_cons by (by apply fmt_d_no).
    cbn [map]. rewrite <- (app_nil_r (fmt_d p)), Ha by done. f_equal.
    apply (IH (S n)); [done|simpl in *; lia|done].
Qed.

Lemma scanProtoPort_text np nn nm proto ports methods : no_sep proto -> proto <> [] ->
  no_sep ports -> existsb (Z.eqb COLON) methods = false -> (methods <> [] -> ports <> []) ->
  (length (proto_text proto ports methods) < 1024)%nat ->
  scanProtoPort np nn nm (proto_text proto ports methods) =
  (clip np proto, clip nn ports, clip nm methods).
Proof.
  intros (Hc & Hs) Hne (Hpc & Hps) Hm Himp Hfit. unfold scanProtoPort.
  rewrite (clip_fits 1024) by done. clear Hfit. unfold proto_text.
  assert (Hcol : existsb (Z.eqb COLON) (proto ++ (if bool_decide (ports <> []) then SLASH :: ports else [])
    ++ (if bool_decide (methods <> []) then SLASH :: methods else [])) = false).
  { rewrite !existsb_app, Hc. by do 2 case_bool_decide; cbn [existsb orb]; rewrite ?Hpc, ?Hm. }
  rewrite Hcol. case_bool_decide as Ep; [|subst ports].
  - rewrite <- app_comm_cons, stoV_cons by done. case_bool_decide as Em.
    + rewrite stoV_cons by done. cbn [stoV nth]. by destruct methods.
    + subst methods. rewrite app_nil_r.
      rewrite stoV_nosep by done. done.
  - case_bool_decide as Em; [by destruct (Himp Em)|]. subst methods.
    rewrite !app_nil_r, stoV_nosep by done. done.
Qed.

Lemma sprint_text s : server_ok s ->
  sprint_server s = proto_text (p_name s) (ports_text s) (default [] (p_methods s)).
Proof.
  intros (_ & _ & _ & Hp & Hm & _).
  unfold sprint_server, proto_text, sprint_ports, sprint_methods, ports_text, p_portN.
  f_equal. destruct (p_portV s) as [[|p ps]|].
  - by destruct Hp.
  - assert (Hne : (if bool_decide (ps = []) then commas (map fmt_d (p :: ps))
                   else LBRACE :: commas (map fmt_d (p :: ps)) ++ [RBRACE]) <> []).
    { case_bool_decide; [|done]. subst ps. destruct Hp as (_ & _ & Hp).
      apply Forall_cons in Hp as [Hp _]. cbn. destruct (fmt_d_nonempty p Hp) as (d & ds & -> & _). done. }
    rewrite (bool_decide_true _ Hne). f_equal. cbn [default from_option id].
    rewrite zlen_cons, (proj2 (Z.eqb_neq _ 0)) by (pose proof (zlen_nonneg ps); lia).
    destruct (p_methods s) as [m|]; [|done]. cbn [default from_option id]. by rewrite bool_decide_true by apply Hm.
  - destruct (p_methods s) as [m|]; [|done]. cbn [default from_option id].
    by rewrite !bool_decide_true by (done || apply Hm).
Qed.

Lemma ports_text_no c s : server_ok s -> isdigit c = false -> c <> COMMA -> c <> LBRACE ->
  c <> RBRACE -> c <> STAR -> existsb (Z.eqb c) (ports_text s) = false.
Proof.
  intros (_ & _ & _ & Hp & _) Hc H1 H2 H3 H4. unfold ports_text.
  destruct (p_portV s) as [[|p ps]|]; [by destruct Hp| |destruct (p_methods s); cbn; [|done]].
  - assert (Hl : existsb (Z.eqb c) (commas (map fmt_d (p :: ps))) = false).
    { apply commas_no; [|done]. apply Forall_map. eapply Forall_impl; [apply Hp|].
      intros z Hz. by apply fmt_d_no. }
    case_bool_decide; [done|]. cbn [existsb]. rewrite existsb_app, Hl. cbn [existsb].
    by rewrite (proj2 (Z.eqb_neq _ _) H2), (proj2 (Z.eqb_neq _ _) H3).
  - by rewrite (proj2 (Z.eqb_neq _ _) H4).
Qed.

Lemma ports_text_methods s : server_ok s -> default [] (p_methods s) <> [] -> ports_text s <> [].
Proof.
  intros (_ & _ & _ & Hp & Hm). unfold ports_text. destruct (p_methods s) as [m|]; [|done]. intros _.
  destruct (p_portV s) as [[|p ps]|]; [done| |done]. case_bool_decide; [|done]. subst ps.
  destruct Hp as (_ & _ & Hp). apply Forall_cons in Hp as [Hp _]. cbn.
  destruct (fmt_d_nonempty p Hp) as (d & ds & -> & _). done.
Qed.

Lemma make_sprint s : server_ok s -> make_server (sprint_server s) = s.
Proof.
  intros Hok. rewrite sprint_text by done. unfold make_server.
  pose proof Hok as (Hn & Hne & _ & Hp & Hm & F1 & F2 & F3 & F4). rewrite scanProtoPort_text; cycle 1.
  - done.
  - done.
  - split; by apply ports_text_no.
  - by destruct (p_methods s); [apply Hm|].
  - by apply ports_text_methods.
  - by rewrite <- sprint_text.
  - rewrite !clip_fits by done. clear F1 F2 F3 F4.
    destruct s as [name portV methods]. cbn [p_name p_portV p_methods] in *. f_equal.
    + unfold ports_text. cbn [p_portV p_methods]. destruct portV as [[|p ps]|]; [by destruct Hp| |].
      * destruct Hp as (_ & Hlen & Hp). destruct (bool_decide_reflect (ps = [])) as [E|E].
        -- subst ps. cbn [map commas]. apply Forall_cons in Hp as [Hp0 _].
           destruct (fmt_d_nonempty p Hp0) as (d & ds & Ed & Hd).
           assert (Hd' : d <> 42 /\ d <> 123) by (split; intros ->; done).
           rewrite bool_decide_true by (by rewrite Ed). rewrite Ed at 1.
           unfold streq. rewrite bool_decide_false by (intros [=]; tauto). cbn [andb negb].
           rewrite Ed at 1. rewrite cat_0, (proj2 (Z.eqb_neq _ _)) by apply Hd'.
           f_equal. rewrite <- (app_nil_r (fmt_d p)).
           by apply (ports_read [] eq_refl eq_refl [p]); [|exact Hlen|by apply Forall_singleton].
        -- rewrite bool_decide_true by done. unfold streq. rewrite bool_decide_false by done.
           cbn [andb negb]. rewrite cat_0. change (LBRACE =? LBRACE) with true. cbv iota. cbn [tl].
           f_equal. by apply (ports_read [RBRACE]).
      * by destruct methods.
    + destruct methods as [m|]; cbn [default]; [|done]. by rewrite bool_decide_true by apply Hm.
Qed.

Lemma sprint_head s : server_ok s -> cat (sprint_server s) 0 <> DASH.
Proof.
  intros (_ & Hne & Hd & _). unfold sprint_server. by destruct (p_name s).
Qed.
Lemma makeProtoV_sprint V : Forall server_ok V -> makeProtoV (map sprint_server V) = V.
Proof.
  induction 1 as [|s V Hs _ IH]; [done|]. cbn [map makeProtoV].
  rewrite (proj2 (Z.eqb_neq _ _)) by (by apply sprint_head). by rewrite make_sprint, IH.
Qed.

(** ** Scanning what was written *)
Section listed.
Variables (services : list Service) (tv : list (list Z)) (iproto : list Z).

(** A server with the name of a protocol that is available, whose text is one
    element of a comma list. *)
Definition entry_ok (s : Server) : Prop :=
  server_ok s /\ balanced COMMA 0 (sprint_server s) = true /\
  cat (p_name s) 0 <> LBRACE /\ cat (p_name s) 0 <> 33 /\ p_name s <> cs "." /\
  is_all (p_name s) = false /\ existsb (strcasecmp_eq (p_name s)) tv = true /\
  (length (ports_text s) < 256)%nat.
#[export] Instance entry_ok_dec s : Decision (entry_ok s).
Proof using. unfold entry_ok. apply _. Defined.

Lemma sprint_cat s : p_name s <> [] -> cat (sprint_server s) 0 = cat (p_name s) 0.
Proof using. unfold sprint_server. by destruct (p_name s). Qed.

Lemma addProto1_entry s pv portp : entry_ok s -> (length pv < MAXPROTO - 1)%nat ->
  0 <= portp -> portp + zlen (sprint_server s) < PORTB ->
  addProto1 services tv iproto (sprint_server s) (PVec pv portp) =
  (Some (PVec (pv ++ [sprint_server s]) (portp + zlen (sprint_server s) + 1)), 0).
Proof using.
  intros (Hok & _ & Hb & Hex & Hdot & Hall & Htv & Hps) Hlen Hpos Hroom.
  pose proof Hok as (Hn & Hne & Hdash & Hp & Hm & F1 & _ & F3 & F4). unfold addProto1, streq.
  rewrite bool_decide_false.
  2: { intros E. apply Hdot. unfold sprint_server in E. destruct (p_name s) as [|c n]; [done|].
       injection E as Hc E. apply app_eq_nil in E as [-> _]. by rewrite Hc. }
  unfold addProto_elem. rewrite sprint_text by done. rewrite scanProtoPort_text; cycle 1.
  - done.
  - done.
  - split; by apply ports_text_no.
  - by destruct (p_methods s); [apply Hm|].
  - by apply ports_text_methods.
  - by rewrite <- sprint_text.
  - rewrite (clip_fits 64), (clip_fits 256), (clip_fits 512) by done. rewrite (proj2 (Z.eqb_neq _ 33)), (proj2 (Z.eqb_neq _ DASH)) by done. cbn [orb].
    unfold streq. rewrite bool_decide_false by done. rewrite Hall, Htv.
    rewrite (proj2 (Nat.leb_gt _ _)) by lia. rewrite (proj2 (Nat.eqb_neq _ _)) by lia.
    assert (E : bool_decide (ports_text s = []) && bool_decide (default [] (p_methods s) <> []) = false).
    { case_bool_decide as E1; [|done]. case_bool_decide as E2; [|done].
      by apply ports_text_methods in E2. }
    rewrite E, <- sprint_text by done. unfold put_portb, PORTB in *.
    pose proof (zlen_nonneg (sprint_server s)). rewrite (proj2 (Z.leb_gt _ _)) by lia.
    by rewrite take_ge by (unfold zlen in *; lia).
Qed.

Lemma elems_fold_entries V : Forall entry_ok V -> forall pv portp n,
  (length pv + length V <= MAXPROTO - 1)%nat ->
  0 <= portp -> portp + zlen (sprintProtoV V) < PORTB ->
  pv_elems <$> (elems_fold (addProto_step services tv iproto) COMMA
     (map (fun t => (t, t)) (map sprint_server V)) (Some (PVec pv portp)) n).1.1 =
  Some (pv ++ map sprint_server V).
Proof using.
  induction 1 as [|s V Hs _ IH]; intros pv portp n Hn Hpos Hroom; [by rewrite app_nil_r|].
  cbn [length] in Hn. pose proof (zlen_nonneg (sprint_server s)) as Hs0.
  assert (Hs1 : portp + zlen (sprint_server s) < PORTB /\
    (V <> [] -> portp + zlen (sprint_server s) + 1 + zlen (sprintProtoV V) < PORTB)).
  { unfold sprintProtoV in *. destruct V as [|s' V].
    - cbn [map commas] in Hroom. split; [lia|done].
    - cbn [map] in *. change (commas (?a :: ?b :: ?l)) with (a ++ COMMA :: commas (b :: l)) in Hroom.
      rewrite zlen_app, zlen_cons in Hroom.
      pose proof (zlen_nonneg (commas (sprint_server s' :: map sprint_server V))). split; [lia|].
      intros _. lia. }
  destruct Hs1 as [Hs1 Hs2]. cbn [map elems_fold fst]. unfold addProto_step at 1.
  rewrite addProto1_entry by (done || lia). change (negb (0 =? 0)) with false. cbv iota.
  destruct V as [|s' V]; [done|].
  rewrite IH; [by rewrite <- app_assoc| |lia|by apply Hs2]. rewrite length_app. cbn [length] in *. lia.
Qed.

Lemma entry_texts V : Forall entry_ok V ->
  Forall (fun t => balanced COMMA 0 t = true /\ cat t 0 <> LBRACE /\ t <> []) (map sprint_server V).
Proof using.
  intros HV. apply Forall_map. eapply Forall_impl; [exact HV|].
  intros s ((_ & Hne & _) & Hb & Hc & _). rewrite sprint_cat by done. split_and!; [done..|].
  unfold sprint_server. by destruct (p_name s).
Qed.

(** A list that was written is read as it was. *)
Lemma protoList_sprint V : Forall entry_ok V -> (length V <= MAXPROTO - 1)%nat ->
  zlen (sprintProtoV V) < PORTB ->
  protoList services tv iproto (sprintProtoV V) = Some (map sprint_server V).
Proof using.
  intros HV Hlen Hroom. pose proof (elems_fold_entries V HV [] 0) as Hfold.
  unfold protoList, sprintProtoV in *. pose proof (entry_texts V HV) as Ht.
  rewrite scan_ListLX_plain.
  2: { rewrite cat_commas by (eapply Forall_impl; [exact Ht|]; by intros t (_ & _ & ?)).
       destruct Ht as [|t l (_ & H & _) _]; [done|exact H]. }
  rewrite commas_join, scan_ListX_fold; [|done|by apply commas_texts_ok|by right; left].
  cbn [mbind option_bind]. by rewrite Hfold.
Qed.
End listed.
