(* ===== verification/HashTab.v ===== *)
(** * Hash tables ([rary/hash.cpp])

    A table of fixed size with open addressing: [Hsearch] looks a key up,
    inserts it or changes its data, depending on the data it is given.  The
    array is a list of optional entries; a key is its text (the table keeps
    the pointer, and no caller changes the text behind it).  The theorem is a
    refinement: on every table that the operations produce, [Hsearch] is
    lookup and insertion in a finite map. *)
From S2P Require Import Prelude.
From stdpp Require Import gmap.
From stdpp Require Import options.
Local Open Scope Z_scope.

(** [elfhash]: [kx] is an [unsigned long]. *)
Definition elfhash_step (kx c : Z) : Z :=
  let kx := u64 (Z.shiftl kx 4 + c) in
  let g := Z.land kx 4026531840 in
  let kx := if g =? 0 then kx else Z.lxor kx (Z.shiftr g 24) in
  Z.land kx (Z.lxor g (2 ^ 64 - 1)).
Definition elfhash (key : list Z) : Z := fold_left elfhash_step key 0.

Abbreviation hentry := (option (list Z * Z)).
Record HTable := MkHTable {
  ht_array : list hentry;
  ht_acc : Z;
  ht_col : Z;
  ht_nulval : Z
}.
Definition hsize (ht : HTable) : Z := zlen (ht_array ht).

Definition Hcreate (nelem nulval : Z) : HTable :=
  MkHTable (repeat None (Z.to_nat nelem)) 0 0 nulval.

(** The probing loop from [kx] with [kn] rounds left: the new array, the
    value returned, and the collisions. *)
Fixpoint Hsearch_loop (kn : nat) (arr : list hentry) (nulval : Z) (key : list Z) (data : Z)
  (kx col : Z) : list hentry * Z * Z :=
  match kn with
  | O => (arr, nulval, col)
  | S kn' =>
      let hsize := zlen arr in
      let kx := if hsize <=? kx then kx mod hsize else kx in
      match arr !! Z.to_nat kx with
      | Some (Some (k, d)) =>
          if bool_decide (k = key)
          then if negb (data =? nulval)
               then (<[Z.to_nat kx := Some (k, data)]> arr, data, col)
               else (arr, d, col)
          else Hsearch_loop kn' arr nulval key data (kx + 1) (col + 1)
      | _ =>
          if data =? nulval then (arr, nulval, col)
          else (<[Z.to_nat kx := Some (key, data)]> arr, data, col)
      end
  end.

Definition Hsearch (ht : HTable) (key : list Z) (data : Z) : HTable * Z :=
  let '(arr, r, col) :=
    Hsearch_loop (length (ht_array ht)) (ht_array ht) (ht_nulval ht) key data
      (u32 (elfhash key)) (ht_col ht) in
  (MkHTable arr (ht_acc ht + 1) col (ht_nulval ht), r).

(** [Hnext]: the next entry behind [kx]; a negative [kx] is the beginning
    (and position 0 is never left out then). *)
Fixpoint Hnext_loop (arr : list hentry) (kx : Z) : option (Z * list Z * Z) :=
  match arr with
  | [] => None
  | Some (k, d) :: _ => Some (kx, k, d)
  | None :: arr' => Hnext_loop arr' (kx + 1)
  end.
Definition Hnext (ht : HTable) (kx : Z) : option (Z * list Z * Z) :=
  let kx := if kx <? 0 then 0 else kx + 1 in
  Hnext_loop (drop (Z.to_nat kx) (ht_array ht)) kx.

(** ** The table as a finite map *)

(** The [i]-th position that is probed for a key. *)
Definition slot (arr : list hentry) (key : list Z) (i : nat) : nat :=
  Z.to_nat ((u32 (elfhash key) + Z.of_nat i) mod zlen arr).

(** Every key is reachable: the positions probed before it hold other keys. *)
Definition reachable (arr : list hentry) : Prop :=
  forall p k d, arr !! p = Some (Some (k, d)) ->
    exists i, (i < length arr)%nat /\ p = slot arr k i /\
      forall j, (j < i)%nat -> exists k' d', arr !! slot arr k j = Some (Some (k', d')) /\ k' <> k.

(** The table holds exactly the entries of a map. *)
Definition represents (arr : list hentry) (m : gmap (list Z) Z) : Prop :=
  reachable arr /\
  forall k d, m !! k = Some d <-> exists p, arr !! p = Some (Some (k, d)).

Lemma slot_lt arr key i : arr <> [] -> (slot arr key i < length arr)%nat.
Proof.
  intros H. unfold slot, zlen.
  assert (0 < Z.of_nat (length arr)) by (destruct arr; [done|simpl; lia]).
  pose proof (Z.mod_pos_bound (u32 (elfhash key) + Z.of_nat i) (Z.of_nat (length arr))). lia.
Qed.

(** A key is stored at one position only. *)
Lemma reachable_unique arr k p1 d1 p2 d2 : reachable arr ->
  arr !! p1 = Some (Some (k, d1)) -> arr !! p2 = Some (Some (k, d2)) -> p1 = p2.
Proof.
  intros Hr H1 H2. destruct (Hr _ _ _ H1) as (i1 & _ & -> & Hj1).
  destruct (Hr _ _ _ H2) as (i2 & _ & -> & Hj2).
  destruct (lt_eq_lt_dec i1 i2) as [[Hlt | ->]|Hlt]; [|done|].
  - destruct (Hj2 _ Hlt) as (k' & d' & E & Hne). congruence.
  - destruct (Hj1 _ Hlt) as (k' & d' & E & Hne). congruence.
Qed.

(** What the probing loop finds: the key, an empty position behind other
    keys, or only other keys. *)
Inductive probe_res (arr : list hentry) (key : list Z) : Type :=
  | Found (p : nat) (d : Z) : arr !! p = Some (Some (key, d)) -> probe_res arr key
  | Empty (i : nat) : (i < length arr)%nat -> arr !! slot arr key i = Some None ->
      (forall j, (j < i)%nat -> exists k' d', arr !! slot arr key j = Some (Some (k', d')) /\ k' <> key) ->
      probe_res arr key
  | Full : (forall j, (j < length arr)%nat ->
        exists k' d', arr !! slot arr key j = Some (Some (k', d')) /\ k' <> key) -> probe_res arr key.

Definition probe_out {arr key} (r : probe_res arr key) (nulval data : Z) : list hentry * Z :=
  match r with
  | Found _ _ p d _ => if negb (data =? nulval) then (<[p := Some (key, data)]> arr, data) else (arr, d)
  | Empty _ _ i _ _ _ =>
      if data =? nulval then (arr, nulval)
      else (<[slot arr key i := Some (key, data)]> arr, data)
  | Full _ _ _ => (arr, nulval)
  end.

Lemma Hsearch_loop_probe kn arr nulval key data : arr <> [] -> forall i kx col,
  (i + kn = length arr)%nat -> 0 <= kx ->
  kx mod zlen arr = (u32 (elfhash key) + Z.of_nat i) mod zlen arr ->
  (forall j, (j < i)%nat ->
    exists k' d', arr !! slot arr key j = Some (Some (k', d')) /\ k' <> key) ->
  exists r : probe_res arr key,
    (Hsearch_loop kn arr nulval key data kx col).1 = probe_out r nulval data.
Proof.
  intros Hne. assert (Hn : 0 < zlen arr) by (unfold zlen; destruct arr; [done|simpl; lia]).
  induction kn as [|kn IH]; intros i kx col Hi Hkx Hmod Hj; cbn [Hsearch_loop].
  - rewrite Nat.add_0_r in Hi. subst i. by exists (Full _ _ Hj).
  - assert (Hpos : Z.to_nat (if zlen arr <=? kx then kx mod zlen arr else kx) = slot arr key i).
    { unfold slot. rewrite <- Hmod. destruct (Z.leb_spec (zlen arr) kx); [done|].
      by rewrite Z.mod_small by lia. }
    pose proof (slot_lt arr key i Hne) as Hlt.
    set (kx1 := if zlen arr <=? kx then kx mod zlen arr else kx) in *.
    rewrite Hpos. destruct (lookup_lt_is_Some_2 arr _ Hlt) as [e He]. rewrite He.
    destruct e as [[k d]|].
    + destruct (decide (k = key)) as [->|Hk].
      * rewrite bool_decide_true by done. exists (Found _ _ _ _ He). simpl.
        by destruct (negb _).
      * rewrite bool_decide_false by done. apply (IH (S i)); [lia| | |].
        -- clear -Hn Hkx. subst kx1. pose proof (Z.mod_pos_bound kx (zlen arr) Hn).
           destruct (Z.leb_spec (zlen arr) kx); lia.
        -- assert (E : kx1 mod zlen arr = kx mod zlen arr)
             by (subst kx1; destruct (zlen arr <=? kx); [by rewrite Z.mod_mod by lia|done]).
           rewrite Z.add_mod, E, Hmod, <- Z.add_mod by lia. f_equal. lia.
        -- intros j Hj'. destruct (decide (j = i)) as [->|]; [eauto|]. apply Hj. lia.
    + assert (Hil : (i < length arr)%nat) by lia.
      exists (Empty _ _ i Hil He Hj). simpl. by destruct (data =? nulval).
Qed.

Lemma Hsearch_probe ht key data : ht_array ht <> [] ->
  exists r : probe_res (ht_array ht) key,
    (ht_array (Hsearch ht key data).1, (Hsearch ht key data).2) =
      probe_out r (ht_nulval ht) data /\
    ht_nulval (Hsearch ht key data).1 = ht_nulval ht.
Proof.
  intros Hne. destruct (Hsearch_loop_probe (length (ht_array ht)) (ht_array ht) (ht_nulval ht)
    key data Hne 0 (u32 (elfhash key)) (ht_col ht)) as [r Hr].
  - lia.
  - apply Z.mod_pos_bound. lia.
  - by rewrite Z.add_0_r.
  - lia.
  - exists r. unfold Hsearch.
    destruct (Hsearch_loop _ _ _ _ _ _ _) as [[arr v] col]. simpl in *. by rewrite Hr.
Qed.

(** Which of the three cases applies is decided by the map. *)
Lemma probe_in_map arr m key d (r : probe_res arr key) :
  represents arr m -> m !! key = Some d ->
  exists p H, r = Found arr key p d H.
Proof.
  intros [Hr Hm] Hd. apply Hm in Hd as [p Hp].
  destruct (Hr _ _ _ Hp) as (i & Hi & -> & Hbefore). destruct r as [p' d' H|i' Hi' He Hj|Hj].
  - assert (p' = slot arr key i) as -> by (eapply reachable_unique; done).
    assert (d' = d) as -> by congruence. eauto.
  - exfalso. destruct (lt_eq_lt_dec i i') as [[Hlt | ->]|Hlt].
    + destruct (Hj _ Hlt) as (k' & d' & E & Hne). congruence.
    + congruence.
    + destruct (Hbefore _ Hlt) as (k' & d' & E & Hne). congruence.
  - exfalso. destruct (Hj i Hi) as (k' & d' & E & Hne). congruence.
Qed.

Lemma probe_not_in_map arr m key (r : probe_res arr key) :
  represents arr m -> m !! key = None -> forall p d H, r <> Found arr key p d H.
Proof.
  intros [_ Hm] Hn p d H _. assert (m !! key = Some d) by (apply Hm; eauto). congruence.
Qed.

(** A full table holds as many keys as it has positions. *)
Lemma slot_surj arr key p : (p < length arr)%nat ->
  exists i, (i < length arr)%nat /\ slot arr key i = p.
Proof.
  intros Hp. assert (Hn : 0 < zlen arr) by (unfold zlen; lia).
  exists (Z.to_nat ((Z.of_nat p - u32 (elfhash key)) mod zlen arr)).
  pose proof (Z.mod_pos_bound (Z.of_nat p - u32 (elfhash key)) (zlen arr) Hn).
  split; [unfold zlen in *; lia|]. unfold slot. rewrite Z2Nat.id by lia.
  rewrite Zplus_mod_idemp_r. replace (u32 (elfhash key) + (Z.of_nat p - u32 (elfhash key)))
    with (Z.of_nat p) by lia.
  rewrite Z.mod_small by (unfold zlen; lia). lia.
Qed.

Lemma full_size arr m : represents arr m ->
  (forall p, (p < length arr)%nat -> exists k d, arr !! p = Some (Some (k, d))) ->
  (length arr <= size m)%nat.
Proof.
  intros [Hr Hm] Hfull.
  set (keys := omap (fun e : hentry => fst <$> e) arr).
  assert (Hlen : length keys = length arr).
  { clear Hr Hm. subst keys. induction arr as [|e arr IH]; [done|].
    destruct (Hfull 0%nat ltac:(simpl; lia)) as (k & d & [= ->]). simpl. f_equal. apply IH.
    intros p Hp. apply (Hfull (S p)). simpl. lia. }
  assert (Hat : forall i k, keys !! i = Some k -> exists d, arr !! i = Some (Some (k, d))).
  { clear Hr Hm Hlen. subst keys. induction arr as [|e arr IH]; [done|]. intros i k.
    destruct (Hfull 0%nat ltac:(simpl; lia)) as (k0 & d0 & [= ->]). simpl.
    destruct i as [|i]; simpl; [intros [= ->]; eauto|]. apply IH.
    intros p Hp. apply (Hfull (S p)). simpl. lia. }
  assert (Hnd : NoDup keys).
  { apply NoDup_alt. intros i j k Hi Hj. destruct (Hat _ _ Hi) as [d1 H1].
    destruct (Hat _ _ Hj) as [d2 H2]. by eapply reachable_unique. }
  rewrite <- Hlen, <- (size_list_to_set (C := gset (list Z)) keys) by done.
  rewrite <- (size_dom (D := gset (list Z)) m). apply subseteq_size.
  intros k Hk. apply elem_of_list_to_set in Hk. apply list_elem_of_lookup in Hk as [i Hi].
  destruct (Hat _ _ Hi) as [d Hd]. apply elem_of_dom. exists d. apply Hm. eauto.
Qed.

Lemma length_omap_le {A B} (f : A -> option B) l : (length (omap f l) <= length l)%nat.
Proof. induction l as [|x l IH]; csimpl; [lia|]. destruct (f x); csimpl; lia. Qed.

Lemma hole_size arr m p : represents arr m -> arr !! p = Some None -> (size m < length arr)%nat.
Proof.
  intros [_ Hm] Hp. set (keys := omap (fun e : hentry => fst <$> e) arr).
  assert (Hlt : (length keys < length arr)%nat).
  { subst keys. clear Hm. revert p Hp. induction arr as [|e arr IH]; intros [|p]; [done..| |].
    - intros [= ->]. csimpl. apply Nat.lt_succ_r, length_omap_le.
    - intros Hp. specialize (IH p Hp). destruct e; csimpl; lia. }
  assert (Hsub : dom m ⊆@{gset (list Z)} list_to_set keys).
  { intros k Hk. apply elem_of_dom in Hk as [d Hd]. apply Hm in Hd as [q Hq].
    apply elem_of_list_to_set. subst keys. apply list_elem_of_omap. exists (Some (k, d)).
    split; [by eapply list_elem_of_lookup_2|done]. }
  apply subseteq_size in Hsub. rewrite size_dom in Hsub.
  assert (Hs : (size (list_to_set keys : gset (list Z)) <= length keys)%nat).
  { clear. induction keys as [|k keys IH]; csimpl; [done|].
    rewrite size_union_alt, size_singleton.
    assert (H : (size (list_to_set keys ∖ {[k]} : gset (list Z)) <=
             size (list_to_set keys : gset (list Z)))%nat) by (apply subseteq_size; set_solver).
    lia. }
  lia.
Qed.

(** ** Updates keep the table a map *)

Lemma slot_insert arr p e key i : slot (<[p := e]> arr) key i = slot arr key i.
Proof. unfold slot, zlen. by rewrite length_insert. Qed.

Lemma represents_update arr m p key d data :
  represents arr m -> arr !! p = Some (Some (key, d)) ->
  represents (<[p := Some (key, data)]> arr) (<[key := data]> m).
Proof.
  intros [Hr Hm] Hp. pose proof (lookup_lt_Some _ _ _ Hp) as Hlt.
  assert (Hkeys : forall q k d', arr !! q = Some (Some (k, d')) ->
    exists d'', <[p := Some (key, data)]> arr !! q = Some (Some (k, d''))).
  { intros q k d' Hq. destruct (decide (q = p)) as [->|Hne].
    - rewrite list_lookup_insert_eq by done. assert (k = key) as -> by congruence. eauto.
    - rewrite list_lookup_insert_ne by done. eauto. }
  assert (Hback : forall q k d', <[p := Some (key, data)]> arr !! q = Some (Some (k, d')) ->
    (q = p /\ k = key /\ d' = data) \/ (q <> p /\ arr !! q = Some (Some (k, d')))).
  { intros q k d' Hq. destruct (decide (q = p)) as [->|Hne].
    - rewrite list_lookup_insert_eq in Hq by done. left. split_and!; congruence.
    - rewrite list_lookup_insert_ne in Hq by done. by right. }
  split.
  - intros q k d' Hq. assert (exists d0, arr !! q = Some (Some (k, d0))) as [d0 Hq0].
    { destruct (Hback _ _ _ Hq) as [(-> & -> & ->)|[_ ?]]; eauto. }
    destruct (Hr _ _ _ Hq0) as (i & Hi & -> & Hj). exists i. rewrite length_insert.
    split_and!; [done|by rewrite slot_insert|]. intros j Hji. rewrite slot_insert.
    destruct (Hj j Hji) as (k' & d1 & E & Hne). destruct (Hkeys _ _ _ E) as [d2 E2]. eauto.
  - intros k d'. destruct (decide (k = key)) as [->|Hne].
    + rewrite lookup_insert_eq. split.
      * intros [= <-]. exists p. by rewrite list_lookup_insert_eq.
      * intros [q Hq]. destruct (Hback _ _ _ Hq) as [(_ & _ & ->)|[Hq' Hq2]]; [done|].
        exfalso. apply Hq'. by eapply reachable_unique.
    + rewrite lookup_insert_ne by done. rewrite Hm. split; intros [q Hq].
      * exists q. rewrite list_lookup_insert_ne; [done|]. intros ->. congruence.
      * destruct (Hback _ _ _ Hq) as [(_ & ? & _)|[_ ?]]; [congruence|eauto].
Qed.

Lemma represents_insert arr m key data i :
  represents arr m -> (i < length arr)%nat -> arr !! slot arr key i = Some None ->
  (forall j, (j < i)%nat -> exists k' d', arr !! slot arr key j = Some (Some (k', d')) /\ k' <> key) ->
  m !! key = None ->
  represents (<[slot arr key i := Some (key, data)]> arr) (<[key := data]> m).
Proof.
  intros [Hr Hm] Hi He Hj Hnone. pose proof (lookup_lt_Some _ _ _ He) as Hlt.
  set (p := slot arr key i) in *.
  assert (Hkeep : forall q k d', arr !! q = Some (Some (k, d')) ->
    <[p := Some (key, data)]> arr !! q = Some (Some (k, d'))).
  { intros q k d' Hq. rewrite list_lookup_insert_ne; [done|]. intros <-. congruence. }
  assert (Hback : forall q k d', <[p := Some (key, data)]> arr !! q = Some (Some (k, d')) ->
    (q = p /\ k = key /\ d' = data) \/ arr !! q = Some (Some (k, d'))).
  { intros q k d' Hq. destruct (decide (q = p)) as [->|Hne].
    - rewrite list_lookup_insert_eq in Hq by done. left. split_and!; congruence.
    - rewrite list_lookup_insert_ne in Hq by done. by right. }
  split.
  - intros q k d' Hq. rewrite length_insert.
    destruct (Hback _ _ _ Hq) as [(-> & -> & ->)|Hq0].
    + exists i. split_and!; [done|by rewrite slot_insert|]. intros j Hji. rewrite slot_insert.
      destruct (Hj j Hji) as (k' & d1 & E & Hne). eauto 10.
    + destruct (Hr _ _ _ Hq0) as (i0 & Hi0 & -> & Hj0). exists i0.
      split_and!; [done|by rewrite slot_insert|]. intros j Hji. rewrite slot_insert.
      destruct (Hj0 j Hji) as (k' & d1 & E & Hne). eauto 10.
  - intros k d'. destruct (decide (k = key)) as [->|Hne].
    + rewrite lookup_insert_eq. split.
      * intros [= <-]. exists p. by rewrite list_lookup_insert_eq.
      * intros [q Hq]. destruct (Hback _ _ _ Hq) as [(_ & _ & ->)|Hq2]; [done|].
        assert (m !! key = Some d') by (apply Hm; eauto). congruence.
    + rewrite lookup_insert_ne by done. rewrite Hm. split; intros [q Hq]; [eauto|].
      destruct (Hback _ _ _ Hq) as [(_ & ? & _)|?]; [congruence|eauto].
Qed.

Lemma Hcreate_represents nelem nulval : represents (ht_array (Hcreate nelem nulval)) ∅.
Proof.
  assert (H : forall p k d, ht_array (Hcreate nelem nulval) !! p <> Some (Some (k, d))).
  { intros p k d E. simpl in E. apply list_elem_of_lookup_2 in E.
    apply list_elem_of_In, repeat_spec in E. done. }
  split.
  - intros p k d E. by destruct (H p k d).
  - intros k d. rewrite lookup_empty. split; [done|]. intros [p E]. by destruct (H p k d).
Qed.

(** [Hsearch] as an operation of a map with room for [size] keys. *)
Definition map_search (hsz nulval : Z) (m : gmap (list Z) Z) (key : list Z) (data : Z)
  : gmap (list Z) Z * Z :=
  if data =? nulval then (m, default nulval (m !! key))
  else if bool_decide (m !! key <> None) || (Z.of_nat (size m) <? hsz)
  then (<[key := data]> m, data) else (m, nulval).

Lemma Hsearch_refines_map (ht : HTable) (m : gmap (list Z) Z) (key : list Z) (data : Z) :
  represents (ht_array ht) m -> ht_array ht <> [] ->
  let '(ht', r) := Hsearch ht key data in
  let '(m', r') := map_search (hsize ht) (ht_nulval ht) m key data in
  hsize ht' = hsize ht /\ ht_nulval ht' = ht_nulval ht /\ r = r' /\
  represents (ht_array ht') m'.
Proof.
  intros Hrep Hne. destruct (Hsearch_probe ht key data Hne) as (pr & E & Hnul).
  destruct (Hsearch ht key data) as [ht' r] eqn:Ehs. cbn [fst snd] in E, Hnul.
  assert (Ea : ht_array ht' = (probe_out pr (ht_nulval ht) data).1) by (by rewrite <- E).
  assert (Er : r = (probe_out pr (ht_nulval ht) data).2) by (by rewrite <- E).
  clear E. unfold map_search, hsize in *. rewrite Ea.
  destruct (m !! key) as [d|] eqn:Em.
  - destruct (probe_in_map _ _ _ _ pr Hrep Em) as (p & Hp & ->). cbn [probe_out] in *.
    rewrite bool_decide_true by done. cbn [orb default].
    destruct (data =? ht_nulval ht); cbn [negb] in *; subst r; cbn [fst snd] in *.
    + by split_and!.
    + unfold zlen. rewrite length_insert. split_and!; [done..|].
      by eapply represents_update.
  - rewrite bool_decide_false by (intros H; by apply H). cbn [orb default].
    pose proof (probe_not_in_map _ _ _ pr Hrep Em) as Hnf.
    destruct pr as [p d Hp|i Hi He Hj|Hj]; [by destruct (Hnf p d Hp)| |]; cbn [probe_out] in *.
    + destruct (data =? ht_nulval ht); subst r; cbn [fst snd] in *; [by split_and!|].
      pose proof (hole_size _ _ _ Hrep He).
      rewrite (proj2 (Z.ltb_lt _ _)) by (unfold zlen; lia).
      unfold zlen. rewrite length_insert. split_and!; [done..|]. by apply represents_insert.
    + cbn [fst snd] in *. subst r.
      assert (Hsz : (length (ht_array ht) <= size m)%nat).
      { apply (full_size _ _ Hrep). intros p Hp. destruct (slot_surj _ key _ Hp) as (j & Hjl & <-).
        destruct (Hj j Hjl) as (k & d & Hkd & _). eauto. }
      rewrite (proj2 (Z.ltb_ge _ _)) by (unfold zlen; lia).
      destruct (data =? ht_nulval ht); by split_and!.
Qed.

(** Sequences of searches, on a table and on a map. *)
Fixpoint Hsearches (ht : HTable) (ops : list (list Z * Z)) : HTable * list Z :=
  match ops with
  | [] => (ht, [])
  | (key, data) :: ops' =>
      let '(ht, r) := Hsearch ht key data in
      let '(ht, rs) := Hsearches ht ops' in (ht, r :: rs)
  end.
Fixpoint map_searches (hsz nulval : Z) (m : gmap (list Z) Z) (ops : list (list Z * Z))
  : gmap (list Z) Z * list Z :=
  match ops with
  | [] => (m, [])
  | (key, data) :: ops' =>
      let '(m, r) := map_search hsz nulval m key data in
      let '(m, rs) := map_searches hsz nulval m ops' in (m, r :: rs)
  end.

Lemma Hsearches_simulates ops : forall ht m,
  represents (ht_array ht) m -> ht_array ht <> [] ->
  (Hsearches ht ops).2 = (map_searches (hsize ht) (ht_nulval ht) m ops).2 /\
  represents (ht_array (Hsearches ht ops).1) (map_searches (hsize ht) (ht_nulval ht) m ops).1.
Proof.
  induction ops as [|[key data] ops IH]; intros ht m Hrep Hne; [done|].
  cbn [Hsearches map_searches]. pose proof (Hsearch_refines_map ht m key data Hrep Hne) as H.
  destruct (Hsearch ht key data) as [ht' r].
  destruct (map_search (hsize ht) (ht_nulval ht) m key data) as [m' r'].
  destruct H as (Hs & Hn & -> & Hrep').
  assert (Hne' : ht_array ht' <> []).
  { intros E. unfold hsize, zlen in Hs. rewrite E in Hs.
    destruct (ht_array ht); [done|simpl in Hs; lia]. }
  destruct (IH ht' m' Hrep' Hne') as [E1 E2]. rewrite Hs, Hn in E1, E2.
  destruct (Hsearches ht' ops), (map_searches (hsize ht) (ht_nulval ht) m' ops).
  cbn [fst snd] in *. by subst.
Qed.

(** C27. The hash table is a finite map.  On a new table of [n] positions
    every sequence of searches, insertions and changes gives the answers of
    a map with room for [n] keys: a search without data gives what the map
    holds, one with data changes the data of a key that is there and adds a
    key while there is room; a full table refuses a new key and stays as it
    is. *)
Theorem Hsearch_is_map (n nulval : Z) (ops : list (list Z * Z)) :
  0 < n ->
  (Hsearches (Hcreate n nulval) ops).2 = (map_searches n nulval ∅ ops).2 /\
  represents (ht_array (Hsearches (Hcreate n nulval) ops).1) (map_searches n nulval ∅ ops).1.
Proof.
  intros Hn. assert (Hs : hsize (Hcreate n nulval) = n)
    by (unfold hsize, zlen; simpl; rewrite repeat_length; lia).
  pose proof (Hsearches_simulates ops (Hcreate n nulval) ∅ (Hcreate_represents n nulval)) as H.
  rewrite Hs in H. apply H. intros E. unfold hsize, zlen in Hs. rewrite E in Hs. simpl in Hs. lia.
Qed.

Lemma Hsearch_is_map_witness :
  (Hsearches (Hcreate 2 (-1)) [(cs "a", 1); (cs "b", 2); (cs "a", 3); (cs "c", 4);
     (cs "a", -1); (cs "c", -1)]).2 = [1; 2; 3; -1; 3; -1].
Proof.
  rewrite (proj1 (Hsearch_is_map 2 (-1) [(cs "a", 1); (cs "b", 2); (cs "a", 3); (cs "c", 4);
     (cs "a", -1); (cs "c", -1)] ltac:(lia))).
  by vm_compute.
Defined.
