(* ===== verification/StrId.v ===== *)
(** * String identifiers ([rary/strid.cpp])

    [strid] keeps a number for each name: a name that is known has its number
    back, an unknown one gets the number given, unless that is -1.  The
    clients (the table of host lists) rely on the interface [IdTable]; the
    hash table of [HashTab] implements it.  The copies of the names
    ([newStr]) are not modelled: a key of the table is its text. *)
From S2P Require Import Prelude HashTab.
From stdpp Require Import gmap.
From stdpp Require Import options.
Local Open Scope Z_scope.

(** [NULLVAL], the pointer -1. *)
Definition NULLVAL : Z := -1.

Definition strid_create (nelem : Z) : HTable := Hcreate nelem NULLVAL.

(** [stridX] of a valid table; the counters and [rkey] are not modelled. *)
Definition stridX (tab : HTable) (str : list Z) (id : Z) : HTable * Z :=
  let '(tab, sid) := Hsearch tab str NULLVAL in
  if negb (sid =? NULLVAL) then (tab, sid)
  else let '(tab, _) := Hsearch tab str id in (tab, id).
Definition strid (tab : HTable) (str : list Z) (id : Z) : HTable * Z := stridX tab str id.

(** [strid_next] and [strid_find]: the first name with a number, in the order
    of the table; the parameter [hx] of [strid_find] is not used by it.
    Position 0 is visited by the call with a negative position only, which
    this loop never makes: it begins behind position 0. *)
Definition strid_next (tab : HTable) (hx : Z) : option (Z * list Z * Z) := Hnext tab hx.
Fixpoint strid_find_loop (fuel : nat) (tab : HTable) (hx id : Z) : option (list Z) :=
  match fuel with
  | O => None
  | S fuel' =>
      match strid_next tab hx with
      | None => None
      | Some (nhx, str, id1) =>
          if id1 =? id then Some str else strid_find_loop fuel' tab nhx id
      end
  end.
Definition strid_find (tab : HTable) (id : Z) : option (list Z) :=
  strid_find_loop (length (ht_array tab)) tab 0 id.

(** ** The interface *)

Class IdTable (T : Type) := {
  it_create : Z -> T;
  it_strid : T -> list Z -> Z -> T * Z;
  (** What the table means, and how many names fit. *)
  it_rep : T -> gmap (list Z) Z -> Prop;
  it_room : T -> Z;
  it_create_ok n : 0 < n -> it_rep (it_create n) ∅ /\ it_room (it_create n) = n;
  it_known t m s id i : it_rep t m -> m !! s = Some i -> i <> NULLVAL ->
    (it_strid t s id).2 = i /\ it_rep (it_strid t s id).1 m /\
    it_room (it_strid t s id).1 = it_room t;
  it_unknown t m s id : it_rep t m -> m !! s = None ->
    (it_strid t s id).2 = id /\ it_room (it_strid t s id).1 = it_room t /\
    it_rep (it_strid t s id).1
      (if (id =? NULLVAL) || negb (Z.of_nat (size m) <? it_room t) then m else <[s := id]> m)
}.

(** The hash table does what the interface promises. *)
Definition hash_rep (t : HTable) (m : gmap (list Z) Z) : Prop :=
  represents (ht_array t) m /\ ht_array t <> [] /\ ht_nulval t = NULLVAL.

Lemma Hsearch_hash_rep t m s data : hash_rep t m ->
  hash_rep (Hsearch t s data).1 (map_search (hsize t) NULLVAL m s data).1 /\
  hsize (Hsearch t s data).1 = hsize t /\
  (Hsearch t s data).2 = (map_search (hsize t) NULLVAL m s data).2.
Proof.
  intros (Hr & Hne & Hnul). pose proof (Hsearch_refines_map t m s data Hr Hne) as H.
  rewrite Hnul in H. destruct (Hsearch t s data) as [t' r].
  destruct (map_search (hsize t) NULLVAL m s data) as [m' r'].
  destruct H as (Hs & Hn & -> & Hr'). cbn [fst snd]. split_and!; try done.
  split_and!; try done. intros E. unfold hsize, zlen in Hs. rewrite E in Hs.
  destruct (ht_array t); [done|simpl in Hs; lia].
Qed.

Lemma strid_known t m s id i : hash_rep t m -> m !! s = Some i -> i <> NULLVAL ->
  (strid t s id).2 = i /\ hash_rep (strid t s id).1 m /\ hsize (strid t s id).1 = hsize t.
Proof.
  intros Ht Hm Hi. destruct (Hsearch_hash_rep t m s NULLVAL Ht) as (Hr & Hs & Hv).
  unfold map_search in Hr, Hv. rewrite Z.eqb_refl, Hm in *. cbn [fst snd default] in *.
  unfold strid, stridX. destruct (Hsearch t s NULLVAL) as [t' v]. cbn [fst snd] in *.
  subst v. simpl. by rewrite (proj2 (Z.eqb_neq i NULLVAL) Hi).
Qed.

Lemma strid_unknown t m s id : hash_rep t m -> m !! s = None ->
  (strid t s id).2 = id /\ hsize (strid t s id).1 = hsize t /\
  hash_rep (strid t s id).1
    (if (id =? NULLVAL) || negb (Z.of_nat (size m) <? hsize t) then m else <[s := id]> m).
Proof.
  intros Ht Hm. destruct (Hsearch_hash_rep t m s NULLVAL Ht) as (Hr & Hs & Hv).
  unfold map_search in Hr, Hv. rewrite Z.eqb_refl, Hm in *. cbn [fst snd default] in *.
  unfold strid, stridX. destruct (Hsearch t s NULLVAL) as [t' v]. cbn [fst snd] in *.
  subst v. rewrite Z.eqb_refl. cbn [negb].
  destruct (Hsearch_hash_rep t' m s id Hr) as (Hr2 & Hs2 & _).
  destruct (Hsearch t' s id) as [t2 v2]. cbn [fst snd] in *.
  split_and!; [done|congruence|]. unfold map_search in Hr2. rewrite Hs in Hr2.
  destruct (id =? NULLVAL); [exact Hr2|]. cbn [orb].
  rewrite Hm, bool_decide_false in Hr2 by (intros H; by apply H). cbn [orb] in Hr2.
  by destruct (Z.of_nat (size m) <? hsize t).
Qed.

#[export] Program Instance hash_id_table : IdTable HTable := {
  it_create := strid_create;
  it_strid := strid;
  it_rep := hash_rep;
  it_room := hsize
}.
Next Obligation.
  intros n Hn. unfold hsize, strid_create, zlen. simpl. rewrite repeat_length. split; [|lia].
  split_and!; [apply Hcreate_represents| |done].
  simpl. destruct (Z.to_nat n) eqn:E; [lia|done].
Qed.
Next Obligation. intros. by eapply strid_known. Qed.
Next Obligation. intros. by apply strid_unknown. Qed.

(** A name keeps the number it was first given: in a table with room,
    [strid] of a new name with a number returns that number, and from then
    on the same number whatever number the call passes; other names keep
    theirs.  With -1, [strid] only looks the name up. *)
Theorem strid_stable {T} `{IdTable T} (t : T) (m : gmap (list Z) Z) (s : list Z) (id id' : Z) :
  it_rep t m -> m !! s = None -> id <> NULLVAL -> Z.of_nat (size m) < it_room t ->
  let t1 := (it_strid t s id).1 in
  (it_strid t s id).2 = id /\ (it_strid t1 s id').2 = id /\
  it_rep (it_strid t1 s id').1 (<[s := id]> m) /\
  (forall s', s' <> s -> (<[s := id]> m) !! s' = m !! s') /\
  (it_strid t s NULLVAL).2 = NULLVAL /\ it_rep (it_strid t s NULLVAL).1 m.
Proof.
  intros Ht Hs Hid Hroom t1. destruct (it_unknown t m s id Ht Hs) as (E1 & E2 & E3).
  rewrite (proj2 (Z.eqb_neq id NULLVAL) Hid), (proj2 (Z.ltb_lt _ _) Hroom) in E3.
  cbn [orb negb] in E3.
  destruct (it_known t1 (<[s := id]> m) s id' id E3) as (F1 & F2 & _);
    [apply lookup_insert_eq|done|].
  destruct (it_unknown t m s NULLVAL Ht Hs) as (G1 & _ & G3). rewrite Z.eqb_refl in G3.
  split_and!; try done. intros s' Hs'. by apply lookup_insert_ne.
Qed.

Lemma strid_stable_witness :
  (strid (strid (strid_create 4) (cs "N") 7).1 (cs "N") 9).2 = 7.
Proof.
  destruct (it_create_ok (T := HTable) 4 ltac:(lia)) as [Hr _].
  destruct (strid_stable (strid_create 4) ∅ (cs "N") 7 9 Hr) as (_ & H & _);
    [apply lookup_empty|done|by vm_compute|exact H].
Defined.

(** The name at position 0 of the table is never found by its number. *)
Lemma strid_find_misses_first :
  strid_find (strid (strid_create 1) (cs "N") 7).1 7 = None.
Proof. by vm_compute. Qed.
