(* ===== verification/HostAddr.v ===== *)
(** * Addresses and netmasks ([include/vaddr.h], [src/vaddr.cpp],
      [src/hostlist.cpp])

    An address is four 32-bit words in host byte order; an IPv4 address has
    only the last one.  A virtual address adds the port, the name and flags. *)
From S2P Require Import Prelude Strings.
From stdpp Require Import options.

Record addr := Addr { I0 : Z; I1 : Z; I2 : Z; I3 : Z }.
#[export] Instance addr_eq_dec : EqDecision addr.
Proof. solve_decision. Defined.

Record vaddr := VAddr {
  a_ints : addr; a_port : Z; a_name : list Z; a_flags : Z
}.

Definition F4 : Z := 4294967295.
Definition AddrZero : vaddr := VAddr (Addr 0 0 0 0) 0 [] 0.
Definition AddrNull : vaddr := VAddr (Addr F4 F4 F4 F4) 0 [] 0.
Definition MaskZero : addr := Addr F4 F4 F4 0.

(** [a_flags]. *)
Definition VA_REMOTE : Z := 1.
Definition VA_RSLVERR : Z := 64.
Definition VA_RSLVINVERR : Z := 128.
Definition VA_RSLVED : Z := 240.

Definition CLASS_MASK : Z := 0.
Definition HEURISTIC_MASK : Z := 1.

Definition AddrEQ (a b : addr) : bool :=
  (I0 a =? I0 b) && (I1 a =? I1 b) && (I2 a =? I2 b) && (I3 a =? I3 b).
Definition AddrAND (a b : addr) : addr :=
  Addr (Z.land (I0 a) (I0 b)) (Z.land (I1 a) (I1 b))
       (Z.land (I2 a) (I2 b)) (Z.land (I3 a) (I3 b)).
Definition AddrInvalid (a : addr) : bool :=
  AddrEQ a (a_ints AddrZero) || AddrEQ a (a_ints AddrNull).
Definition isV6 (a : addr) : bool :=
  negb (I0 a =? 0) || negb (I1 a =? 0) || negb (I2 a =? 0).

Definition addr_ok (a : addr) : Prop :=
  0 <= I0 a < 2 ^ 32 /\ 0 <= I1 a < 2 ^ 32 /\ 0 <= I2 a < 2 ^ 32 /\ 0 <= I3 a < 2 ^ 32.
Definition v4 (ip : Z) : addr := Addr 0 0 0 ip.
Definition ipv4 (a b c d : Z) : Z := a * 2 ^ 24 + b * 2 ^ 16 + c * 2 ^ 8 + d.

(** RFC 1597 private addresses, as unsigned words. *)
Definition PRIVATEC : Z := u32 (Z.lor (Z.shiftl 192 24) (Z.shiftl 168 16)).
Definition PRIVATEBL : Z := u32 (Z.lor (Z.shiftl 172 24) (Z.shiftl 16 16)).
Definition PRIVATEBH : Z := u32 (Z.lor (Z.shiftl 172 24) (Z.shiftl 31 16)).
Definition PRIVATEA : Z := u32 (Z.shiftl 10 24).

(** [default_netmask]: the new mask and the value returned. *)
Definition default_netmask (Mask Vaddr : addr) : addr * bool :=
  if isV6 Vaddr
  then (if I3 Mask =? HEURISTIC_MASK then Addr (I0 Mask) (I1 Mask) 0 0 else Mask, false)
  else if negb (I3 Mask =? CLASS_MASK) && negb (I3 Mask =? HEURISTIC_MASK)
  then (Mask, false)
  else
    let ip4c := Z.land (Z.shiftr (I3 Vaddr) 24) 255 in
    let mask1 := if ip4c <? 128 then 4278190080
                 else if ip4c <? 192 then 4294901760 else 4294967040 in
    let mask1 :=
      if I3 Mask =? HEURISTIC_MASK
      then let net := Z.land (I3 Vaddr) mask1 in
           if (net =? PRIVATEC) || (PRIVATEBL <=? net) && (net <=? PRIVATEBH)
              || (net =? PRIVATEA)
           then mask1
           else if ip4c <? 128 then 4294967040 else mask1
      else mask1 in
    (Addr (I0 MaskZero) (I1 MaskZero) (I2 MaskZero) mask1, true).

(** [match_addrrange]: [addr] is an [int]; the shift of a negative one keeps
    the sign, and the byte is masked out. *)
Fixpoint addrrange_loop (n : nat) (ai : Z) (ranges : list (Z * Z)) (addr : Z) : bool :=
  match n with
  | O => true
  | S n' =>
      let a1 := Z.land (Z.shiftr addr ((3 - ai) * 8)) 255 in
      let '(lo, hi) := nth (Z.to_nat ai) ranges (0, 0) in
      if (a1 <? lo) || (hi <? a1) then false
      else addrrange_loop n' (ai + 1) ranges addr
  end.
Definition match_addrrange (ranges : list (Z * Z)) (Vaddr : addr) : bool :=
  addrrange_loop 4 0 ranges (s32 (I3 Vaddr)).

(** [isnetmasklen]: a prefix length from 1 to 31. *)
Definition isnetmasklen (mask : list Z) : Z :=
  if isdigit (cat mask 0) && (cat mask 1 =? 0)
     || isdigit (cat mask 0) && isdigit (cat mask 1) && (cat mask 2 =? 0)
  then let masklen := atoi mask in
       if (1 <=? masklen) && (masklen <=? 31) then masklen else 0
  else 0.
(** [mask.I3 = 0xFFFFFFFF << (32-submask)]. *)
Definition netmask_of_len (submask : Z) : Z := u32 (Z.shiftl F4 (32 - submask)).

(** [scan_addrrange]: octets and ranges between dots into [Uchar]s; on a
    syntax error (the flag) the ranges that were not read stay zero. *)
Fixpoint split_dot (s : list Z) : list Z * option (list Z) :=
  match s with
  | [] => ([], None)
  | c :: s' => if c =? 46 then ([], Some s')
               else let '(a, r) := split_dot s' in (c :: a, r)
  end.
Definition scan_octet (ap : list Z) : option (Z * Z) :=
  if cat ap 0 =? 91
  then match scan_d (tl ap) with
       | Some (lo, r) =>
           if cat r 0 =? 45
           then match scan_d (tl r) with Some (hi, _) => Some (lo, hi) | None => None end
           else None
       | None => None
       end
  else Some (atoi ap, atoi ap).
Fixpoint scan_addrrange_loop (n : nat) (ap : list Z) : list (Z * Z) * bool :=
  match n with
  | O => ([], true)
  | S n' =>
      let '(a, dp) := split_dot ap in
      match scan_octet a with
      | None => (repeat (0, 0) n, false)
      | Some (lo, hi) =>
          match dp with
          | None => ((uchar lo, uchar hi) :: repeat (0, 255) n', true)
          | Some ap => let '(r, ok) := scan_addrrange_loop n' ap in
                       ((uchar lo, uchar hi) :: r, ok)
          end
      end
  end.
Definition scan_addrrange (addr : list Z) : list (Z * Z) * bool :=
  scan_addrrange_loop 4 addr.

Example addrrange_1 :
  scan_addrrange (cs "192.31.[197-206]") = ([(192, 192); (31, 31); (197, 206); (0, 255)], true).
Proof. vm_compute. reflexivity. Qed.

(** ** Netmasks *)

Lemma land_high_mask ip n :
  0 <= ip < 2 ^ 32 -> 0 <= n <= 32 ->
  Z.land ip (u32 (Z.shiftl F4 (32 - n))) = ip / 2 ^ (32 - n) * 2 ^ (32 - n).
Proof.
  intros Hip Hn. rewrite <- Z.shiftr_div_pow2, <- Z.shiftl_mul_pow2 by lia.
  apply Z.bits_inj'. intros i Hi. rewrite Z.land_spec.
  change F4 with (Z.ones 32). unfold u32. rewrite <- Z.land_ones by lia.
  rewrite Z.land_spec, Z.shiftl_spec, Z.shiftl_spec by lia.
  destruct (Z.ltb_spec i (32 - n)).
  - rewrite (Z.testbit_neg_r (Z.ones 32)), (Z.testbit_neg_r (Z.shiftr _ _)) by lia.
    apply andb_false_r.
  - rewrite Z.shiftr_spec, Z.sub_add by lia.
    destruct (Z.ltb_spec i 32).
    + rewrite !Z.ones_spec_low by lia. by rewrite !andb_true_r.
    + rewrite (bits_high 32 ip) by lia. done.
Qed.

Lemma netmask_of_len_range n : 0 <= netmask_of_len n < 2 ^ 32.
Proof. apply Z.mod_pos_bound. lia. Qed.

(** A mask with a prefix length: an address matches a network under
    [/n] exactly when the two agree in their first [n] bits. *)
Theorem netmask_matches_prefix (ip net n : Z) (mask : list Z) :
  0 <= ip < 2 ^ 32 -> 0 <= net < 2 ^ 32 -> isnetmasklen mask = n -> 0 < n ->
  1 <= n <= 31 /\
  AddrEQ (AddrAND (v4 ip) (Addr F4 F4 F4 (netmask_of_len n)))
         (AddrAND (v4 net) (Addr F4 F4 F4 (netmask_of_len n))) =
  (ip / 2 ^ (32 - n) =? net / 2 ^ (32 - n)).
Proof.
  intros Hip Hnet Hm Hn. unfold isnetmasklen in Hm.
  assert (Hr : 1 <= n <= 31).
  { destruct (_ || _); [|lia]. destruct (1 <=? atoi mask) eqn:E1; [|simpl in Hm; lia].
    destruct (atoi mask <=? 31) eqn:E2; simpl in Hm; lia. }
  split; [done|]. unfold AddrEQ, AddrAND, v4, netmask_of_len. cbn [I0 I1 I2 I3].
  rewrite !Z.land_0_l, !Z.eqb_refl, !land_high_mask by lia. cbn [andb].
  assert (0 < 2 ^ (32 - n)) by (apply Z.pow_pos_nonneg; lia).
  destruct (Z.eqb_spec (ip / 2 ^ (32 - n)) (net / 2 ^ (32 - n))) as [->|Hne];
    [by rewrite Z.eqb_refl|].
  apply Z.eqb_neq. intros H'. by apply Z.mul_reg_r in H'; [|lia].
Qed.

Lemma netmask_matches_prefix_witness :
  AddrEQ (AddrAND (v4 (ipv4 192 168 1 9)) (Addr F4 F4 F4 (netmask_of_len 24)))
         (AddrAND (v4 (ipv4 192 168 1 0)) (Addr F4 F4 F4 (netmask_of_len 24))) = true.
Proof.
  rewrite (proj2 (netmask_matches_prefix (ipv4 192 168 1 9) (ipv4 192 168 1 0) 24 (cs "24")
    ltac:(by compute) ltac:(by compute) ltac:(by vm_compute) ltac:(lia))).
  by vm_compute.
Defined.

(** A length of 32 is not one: the text after the slash is read as an address
    or a hexadecimal mask. *)
Lemma isnetmasklen_32 : isnetmasklen (cs "32") = 0.
Proof. by vm_compute. Qed.

(** The first octet, and the network of an address under a mask. *)
Definition octet (ip k : Z) : Z := ip / 2 ^ (8 * (3 - k)) mod 256.

Lemma octet_land ip k : 0 <= ip < 2 ^ 32 -> 0 <= k <= 3 ->
  Z.land (Z.shiftr ip (8 * (3 - k))) 255 = octet ip k.
Proof.
  intros Hip Hk. change 255 with (Z.ones 8). rewrite Z.land_ones by lia.
  rewrite Z.shiftr_div_pow2 by lia. done.
Qed.

Lemma octet0 ip : 0 <= ip < 2 ^ 32 -> octet ip 0 = ip / 2 ^ 24 /\ 0 <= octet ip 0 < 256.
Proof.
  intros. unfold octet. change (8 * (3 - 0)) with 24. split; [|by apply Z.mod_pos_bound].
  apply Z.mod_small. split; [apply Z.div_pos; lia|]. apply Z.div_lt_upper_bound; lia.
Qed.

(** The prefix length that [default_netmask] gives an IPv4 address: the one
    of its class, or with [heur] 24 in the public class A networks. *)
Definition class_len (heur : bool) (o : Z) : Z :=
  if o <? 128 then if heur && negb (o =? 10) then 24 else 8
  else if o <? 192 then 16 else 24.

(** The default netmask.  Only a mask that is not given is replaced:
    under the class mask by the mask of the address's class, under the
    heuristic mask by /24 for public class A addresses and else the class;
    for IPv6 the heuristic mask becomes 64 bits. *)
Theorem default_netmask_classes (Mask Vaddr : addr) :
  addr_ok Vaddr ->
  default_netmask Mask Vaddr =
    if isV6 Vaddr
    then (if I3 Mask =? HEURISTIC_MASK then Addr (I0 Mask) (I1 Mask) 0 0 else Mask, false)
    else if (I3 Mask =? CLASS_MASK) || (I3 Mask =? HEURISTIC_MASK)
    then (Addr F4 F4 F4
            (netmask_of_len (class_len (I3 Mask =? HEURISTIC_MASK) (octet (I3 Vaddr) 0))), true)
    else (Mask, false).
Proof.
  intros (_ & _ & _ & Hip). unfold default_netmask. destruct (isV6 Vaddr); [done|].
  rewrite <- negb_orb. destruct ((I3 Mask =? CLASS_MASK) || _) eqn:E; [|done]. cbn [negb].
  set (ip := I3 Vaddr) in *. set (heur := I3 Mask =? HEURISTIC_MASK).
  assert (Eo : Z.land (Z.shiftr ip 24) 255 = octet ip 0) by (apply (octet_land ip 0); lia).
  rewrite Eo. destruct (octet0 ip Hip) as [Ho Hr]. set (o := octet ip 0) in *. cbv zeta.
  do 2 f_equal. unfold class_len.
  change 4278190080 with (netmask_of_len 8). change 4294901760 with (netmask_of_len 16).
  change 4294967040 with (netmask_of_len 24).
  destruct (Z.ltb_spec o 128).
  - destruct heur; [|done]. cbn [andb].
    assert (En : Z.land ip (netmask_of_len 8) = ip / 2 ^ 24 * 2 ^ 24)
      by (apply (land_high_mask ip 8); lia).
    rewrite En. rewrite <- Ho.
    change PRIVATEC with 3232235520. change PRIVATEBL with 2886729728.
    change PRIVATEBH with 2887712768. change PRIVATEA with (10 * 2 ^ 24).
    assert (E1 : (o * 2 ^ 24 =? 3232235520) = false) by lia.
    assert (E2 : (2886729728 <=? o * 2 ^ 24) = false) by lia.
    assert (E3 : (o * 2 ^ 24 =? 10 * 2 ^ 24) = (o =? 10)) by lia.
    rewrite E1, E2, E3. cbn [andb orb]. by destruct (o =? 10).
  - destruct (o <? 192), heur; try done;
      match goal with |- (if ?b then _ else _) = _ => by destruct b end.
Qed.

Lemma default_netmask_classes_witness :
  (default_netmask (Addr F4 F4 F4 HEURISTIC_MASK) (v4 (ipv4 20 1 2 3))).1 =
  Addr F4 F4 F4 (netmask_of_len 24).
Proof.
  rewrite (default_netmask_classes (Addr F4 F4 F4 HEURISTIC_MASK) (v4 (ipv4 20 1 2 3))
    ltac:(by compute)).
  by vm_compute.
Defined.

(** [match_addrrange]: an IPv4 address is in a range exactly when each
    of its four octets is between its bounds. *)
Theorem match_addrrange_octets (ranges : list (Z * Z)) (a : addr) :
  addr_ok a ->
  match_addrrange ranges a = true <->
  forall k, 0 <= k < 4 ->
    (nth (Z.to_nat k) ranges (0, 0)).1 <= octet (I3 a) k <= (nth (Z.to_nat k) ranges (0, 0)).2.
Proof.
  intros (_ & _ & _ & Hip). unfold match_addrrange.
  assert (Hb : forall k, 0 <= k < 4 ->
    Z.land (Z.shiftr (s32 (I3 a)) ((3 - k) * 8)) 255 = octet (I3 a) k).
  { intros k Hk. rewrite <- octet_land, (Z.mul_comm 8) by lia. unfold s32.
    change 255 with (Z.ones 8). rewrite !Z.land_ones, !Z.shiftr_div_pow2 by lia.
    assert (E : exists m, (I3 a + 2 ^ 31) mod 2 ^ 32 - 2 ^ 31 = I3 a + m * 2 ^ 32).
    { destruct (Z.ltb_spec (I3 a) (2 ^ 31)).
      - exists 0. rewrite Z.mod_small by lia. lia.
      - exists (-1). rewrite <- (Z.mod_unique _ _ 1 (I3 a - 2 ^ 31)) by lia. lia. }
    destruct E as [m ->].
    replace (m * 2 ^ 32) with (m * 2 ^ (8 * (k + 1)) * 2 ^ ((3 - k) * 8))
      by (rewrite <- Z.mul_assoc, <- Z.pow_add_r by lia; do 2 f_equal; lia).
    rewrite Z.div_add by lia.
    replace (8 * (k + 1)) with (8 * k + 8) by lia. rewrite Z.pow_add_r by lia.
    change (2 ^ 8) with 256. rewrite Z.mul_assoc. by rewrite Z.mod_add by lia. }
  cbn [addrrange_loop].
  rewrite (Hb 0), (Hb (0 + 1)), (Hb (0 + 1 + 1)), (Hb (0 + 1 + 1 + 1)) by lia.
  change (0 + 1 + 1 + 1) with 3. change (0 + 1 + 1) with 2. change (0 + 1) with 1.
  split.
  - intros H k Hk. assert (k = 0 \/ k = 1 \/ k = 2 \/ k = 3) as Hk' by lia.
    destruct (nth (Z.to_nat 0) ranges (0, 0)) eqn:E0, (nth (Z.to_nat 1) ranges (0, 0)) eqn:E1,
      (nth (Z.to_nat 2) ranges (0, 0)) eqn:E2, (nth (Z.to_nat 3) ranges (0, 0)) eqn:E3.
    destruct Hk' as [-> | [-> | [-> | ->]]]; rewrite ?E0, ?E1, ?E2, ?E3; simpl; zcases.
  - intros H. pose proof (H 0 ltac:(lia)). pose proof (H 1 ltac:(lia)).
    pose proof (H 2 ltac:(lia)). pose proof (H 3 ltac:(lia)).
    destruct (nth (Z.to_nat 0) ranges (0, 0)), (nth (Z.to_nat 1) ranges (0, 0)),
      (nth (Z.to_nat 2) ranges (0, 0)), (nth (Z.to_nat 3) ranges (0, 0)); simpl in *; zcases.
Qed.

Lemma match_addrrange_octets_witness :
  197 <= octet (ipv4 192 31 200 7) 2 <= 206.
Proof.
  apply (proj1 (match_addrrange_octets [(192, 192); (31, 31); (197, 206); (0, 255)]
    (v4 (ipv4 192 31 200 7)) ltac:(by compute)) ltac:(by vm_compute) 2). lia.
Defined.
