(* ===== verification/HostMatch.v ===== *)
(** * Host lists: matching ([src/hostlist.cpp])

    The access control language of the program: is a host, with a protocol,
    a port and a user, in a list of host patterns?  [VA_hostIsinListX]
    interprets a list item by item, with the operators AND, OR and NEG
    between items, lists that refer to other lists by number, and patterns
    over names, addresses, interfaces, time and authentication.

    What the interpreter asks of other components is the record [hl_env]:
    name resolution, routing, the regular expressions of user names, host
    comparison, sets of hosts in files, the clock.  Every theorem holds for
    each value of it.  The clock is a number of seconds with a fraction in
    microseconds, and the products with it are exact; the code computes in
    double precision.  Messages are not modelled. *)
From S2P Require Import Prelude Strings Glob HostAddr.
From stdpp Require Import options.

Inductive hop := ON_EQ | ON_NEQ | OFF_EQ | OFF_NEQ | OP_AND | OP_OR | OP_NEG | OP_HOUR.
#[export] Instance hop_eq_dec : EqDecision hop.
Proof. solve_decision. Defined.

Record Host := MkHost {
  h_asis : bool;
  h_name : list Z;
  h_mask : addr;
  h_Addr : addr;
  h_ranges : list (Z * Z);
  h_proto : option (list (list Z));
  h_port : option (list (list Z));
  h_user : option (list (list Z));
  h_userRexp : list (option (list Z));   (** the compiled pattern of a user, by its text *)
  h_op : hop;
  h_listid : Z;
  h_vdomain : option (list Z);
  h_type : Z
}.
(** [NewStruct(Host)]: all zero. *)
Definition NewHost : Host :=
  MkHost false [] (Addr 0 0 0 0) (Addr 0 0 0 0) [(0,0);(0,0);(0,0);(0,0)]
         None None None [] ON_EQ 0 None 0.

Definition HT_CLIF : Z := 1.
Definition HT_BYHOST : Z := 16.
Definition HT_BYAUTH : Z := 32.
Definition HT_BYCERT : Z := 64.
Definition HT_BYANY : Z := 240.
Definition HT_BYAGENT : Z := 256.
Definition HT_IPV4 : Z := 512.
Definition HT_IPV6 : Z := 1024.
Definition HT_BYFILE : Z := 2048.
Definition HT_RIDPEER : Z := 8192.
Definition HT_UNKNOWN : Z := 16384.
Definition has (flags bit : Z) : bool := negb (Z.land flags bit =? 0).
Definition HT_BYUSER (h : Host) : bool := has (h_type h) (Z.lor HT_BYAUTH HT_BYCERT).

Record HostList := MkHostList {
  hl_what : list Z;
  hl_List : list Host;     (** [hl_List[1..hl_cnt]] *)
  hl_flags : Z;
  hl_noIdent : bool
}.
Definition hl_cnt (hl : HostList) : Z := zlen (hl_List hl).
Definition HL_APPEND : Z := 1.
Definition HL_PROTECT : Z := 2.
Definition HL_NOIDENT : Z := 4.
Definition HL_NORESOLV : Z := 8.
Definition HL_BYCLHOST : Z := 32.
Definition HL_BYADDR : Z := 64.
Definition HL_BYAUTH : Z := 128.
Definition HL_BYAGENT : Z := 512.
Definition HL_XRANDOM : Z := 4096.
Definition HL_XRANDSET : Z := 8192.
Definition HL_BYNAMEONLY : Z := 16384.
Definition HL_MAXDEPTH : Z := 10.

Definition AUTH_SET : Z := 2.
Record AuthInfo := MkAuth {
  i_stat : Z; i_user : list Z; i_Host : list Z; i_Port : Z
}.

Record ClientInfo := MkClient {
  currentTime : Z;      (** whole seconds *)
  currentUsec : Z;      (** and the fraction *)
  clientsideHost : vaddr;
  clientSockHost : vaddr;
  clientHost : vaddr;
  e_agentname : list Z;
  fromself : bool
}.

(** What other components answer. *)
Record hl_env := HlEnv {
  hostIsResolvable : list Z -> bool;
  isinetAddr : list Z -> bool;
  hostcmp_eq : list Z -> list Z -> bool;
  frex_match : list Z -> list Z -> option (list Z);
  VA_hostIFto : vaddr -> addr -> addr;
  VA_resolv : vaddr -> vaddr;
  addrGroup : list Z -> list Z -> vaddr -> bool;
  matchHostSetX : list Z -> addr -> vaddr -> addr -> Z -> bool;
  StrftimeLocal : list Z -> Z -> list Z
}.

(** ** Lists of protocols, users and ports

    An item with [!] in front takes a match out of the list; a list that
    begins with such an item contains everything else. *)

(** One item [p1]: its operator and what follows the mark. *)
Definition list_item (p1 : list Z) : hop * list Z :=
  if cat p1 0 =? 33 then (OFF_EQ, tl p1) else (ON_EQ, p1).

Fixpoint matchProto_loop (isin : bool) (protolist : list (list Z)) (proto : list Z) : bool :=
  match protolist with
  | [] => isin
  | proto1 :: l =>
      let '(op, proto1) := list_item proto1 in
      let mtch := if streq proto1 [STAR] then true else streq proto1 proto in
      let isin := if mtch && bool_decide (op = ON_EQ) then true
                  else if mtch && bool_decide (op = OFF_EQ) then false else isin in
      matchProto_loop isin l proto
  end.
(** [*protolist[0]] of an empty list is a null dereference: [None]. *)
Definition matchProto (protolist : list (list Z)) (proto : list Z) : option bool :=
  match protolist with
  | [] => None
  | p0 :: _ => Some (matchProto_loop (cat p0 0 =? 33) protolist proto)
  end.

(** [makeUserRexp]: the patterns that are compiled. *)
Definition makeUserRexp (userlist : list (list Z)) : list (option (list Z)) :=
  map (fun user =>
    let user := if cat user 0 =? 33 then tl user else user in
    if negb (streq user [STAR]) && existsb (fun c => (c =? STAR) || (c =? 91)) user
    then Some user else None) userlist.

Section users.
Variable frexmatch : list Z -> list Z -> option (list Z).

Fixpoint matchUser_loop (isin : bool) (userlist : list (list Z))
  (rexplist : list (option (list Z))) (username : list Z) : bool :=
  match userlist with
  | [] => isin
  | user :: l =>
      let '(op, user) := list_item user in
      let mtch :=
        if streq user [STAR] then true
        else match hd None rexplist with
             | Some rexp => match frexmatch rexp username with
                            | Some tail => bool_decide (tail = [])
                            | None => false
                            end
             | None => streq user username
             end in
      let isin := if mtch && bool_decide (op = ON_EQ) then true
                  else if mtch && bool_decide (op = OFF_EQ) then false else isin in
      matchUser_loop isin l (tl rexplist) username
  end.
Definition matchUser (userlist : list (list Z)) (rexplist : list (option (list Z)))
  (username : list Z) : option bool :=
  match userlist with
  | [] => None
  | u0 :: _ => Some (matchUser_loop (cat u0 0 =? 33) userlist rexplist username)
  end.
End users.

(** [sscanf(ports,"%d-%d",&port0,&port1)] against a port number. *)
Definition port_item (ports : list Z) (portnum : Z) : bool :=
  match scan_d ports with
  | None => false
  | Some (port0, r) =>
      match (if cat r 0 =? 45 then scan_d (tl r) else None) with
      | None => port0 =? portnum
      | Some (port1, _) => (port0 <=? portnum) && (portnum <=? port1)
      end
  end.
Fixpoint matchPort_loop (isin : bool) (portlist : list (list Z)) (portnum : Z) : bool :=
  match portlist with
  | [] => isin
  | ports :: l =>
      let '(op, ports) := list_item ports in
      let mtch := if streq ports [STAR] then true else port_item ports portnum in
      let isin := if mtch && bool_decide (op = ON_EQ) then true
                  else if mtch && bool_decide (op = OFF_EQ) then false else isin in
      matchPort_loop isin l portnum
  end.
Definition matchPort (portlist : list (list Z)) (portnum : Z) : bool :=
  matchPort_loop (match portlist with [] => false | p0 :: _ => cat p0 0 =? 33 end)
    portlist portnum.

(** ** Time periods *)

(** [WHMtoi]: the digits given, completed with those of the default; [buf]
    is 8 bytes long. *)
Fixpoint overwrite (buf st : list Z) : list Z :=
  match buf, st with
  | _ :: buf', c :: st' => c :: overwrite buf' st'
  | _, [] => buf
  | [], _ => []
  end.
Definition WHMtoi (st dflt : list Z) : Z :=
  atoi (cstr (overwrite (dflt ++ repeat 0 (8 - length dflt)) st)).

(** [Xsscanf(pp,"%[0-9]-%[0-9]",sh1,sh2)]: the strings that were read. *)
Fixpoint take_digits (s : list Z) : list Z :=
  match s with
  | c :: s' => if isdigit c then c :: take_digits s' else []
  | [] => []
  end.
Definition scan_hours (pp : list Z) : list (list Z) :=
  let sh1 := take_digits pp in
  match sh1 with
  | [] => []
  | _ => let r := skip_digits pp in
         if cat r 0 =? 45
         then match take_digits (tl r) with [] => [sh1] | sh2 => [sh1; sh2] end
         else [sh1]
  end.

Definition matchTimePeriod (env : hl_env) (ci : ClientInfo) (period : list Z) (mask : Z) : bool :=
  if 0 <? mask
  then (* the code leaves m1 and m2 uninitialized when the scan fails *)
    match scan_d period with
    | None => false
    | Some (m1, r) =>
        match (if cat r 0 =? 45 then scan_d (tl r) else None) with
        | None => false
        | Some (m2, _) =>
            let mc := Z.rem (Z.quot (currentUsec ci * mask) 1000000) mask in
            (m1 <=? mc) && (mc <=? m2)
        end
    end
  else
    let '(fmt, smin, smax, pp, md) :=
      if cat period 0 =? 119 then (cs "%w%H%M", cs "00000", cs "62359", tl period, 70000)
      else if cat period 0 =? 117 then (cs "%u%H%M", cs "10000", cs "72359", tl period, 80000)
      else (cs "%H%M", cs "0000", cs "2359", period, 10000) in
    match scan_hours pp with
    | [] => false
    | sh1 :: r =>
        let h1 := WHMtoi sh1 smin in
        let h2 := WHMtoi (hd sh1 r) smax in
        let min := atoi smin in
        let max := atoi smax in
        let h1 := Z.rem h1 md in
        let h2 := Z.rem h2 md in
        let hc := atoi (StrftimeLocal env fmt (currentTime ci)) in
        if h1 <=? h2 then (h1 <=? hc) && (hc <=? h2)
        else (h1 <=? hc) && (hc <=? max) || (min <=? hc) && (hc <=? h2)
    end.

(** ** One item of a host list *)

(** [scanVdomain]: the text before [.-] and the letters and digits behind it;
    [None] when there is no such part or it is empty. *)
Fixpoint before_vdom (hostname : list Z) : option (list Z * list Z) :=
  match hostname with
  | [] => None
  | c :: s =>
      if is_prefix (cs ".-") hostname then Some ([], tl s)
      else match before_vdom s with
           | Some (a, b) => Some (c :: a, b)
           | None => None
           end
  end.
Definition scanVdomain (hostname : list Z) : option (list Z * list Z) :=
  match before_vdom hostname with
  | None => None
  | Some (pre, post) =>
      match List.filter isalnum post with
      | [] => None
      | vdomain => Some (pre, vdomain)
      end
  end.

Definition HostOutgoingIF (hp : list Z) : bool := streq hp (cs ".o").
Definition HostIncomingIF (hp : list Z) : bool := streq hp (cs ".i") || streq hp (cs "-").
Definition HostIncomingIFX (hp : list Z) : bool :=
  (cat hp 0 =? 45) && (cat hp 1 =? 80) || (cat hp 0 =? 45) && (cat hp 1 =? 81).
Definition HostOnClientside (hp : list Z) : bool := streq hp (cs "-C") || streq hp (cs ".C").
Definition TimePeriod (hp : list Z) : bool :=
  (cat hp 0 =? 45) && (cat hp 1 =? 84) && (cat hp 2 =? 46).
Definition HostUnknown (hp : list Z) : bool := streq hp (cs "?").
Definition CantResolve (hp : list Z) : bool := streq hp (cs "?*").
Definition HostMatchExactly (hp hn : list Z) : bool := strcasecmp_eq hp hn.

Definition glob (pat str : list Z) : bool := bool_decide (rexpmatch pat str = Some true).

(** What a call is about. *)
Record hl_query := HlQuery {
  q_proto : option (list Z);     (** [ANYP] is [None] *)
  q_cname : list Z;
  q_alias : option (list Z);
  q_Vaddr : vaddr;
  q_username : option (list Z);
  q_av : list AuthInfo           (** [av[0..ac-1]] *)
}.

(** The addresses that an item compares: [chost] of the item, [ahost] of the
    host, and what its branch makes of [hosti], [hostname], [portnum] and
    [RidentPeer].  [None] is [continue]. *)
Record hl_addrs := HlAddrs {
  d_chost : addr; d_mask : addr; d_hosti : vaddr; d_hostname : list Z; d_portnum : Z;
  d_peer : vaddr;
  d_isalias : bool     (** [hostname == alias] *)
}.

Section item.
Variable env : hl_env.

Definition notResolved (Vaddr : vaddr) (name : list Z) : bool :=
  AddrInvalid (a_ints Vaddr) || isinetAddr env name.
Definition notResolvable (Vaddr : vaddr) (name : list Z) : Z :=
  if has (a_flags Vaddr) (Z.lor VA_RSLVERR VA_RSLVINVERR) then 4
  else if notResolved Vaddr name then 1
  else if bool_decide (strtailstrX name (cs ".in-addr.arpa") true <> None)
       || bool_decide (strtailstrX name (cs ".ip6.int") true <> None) then 2
  else if negb (hostIsResolvable env name) then 3 else 0.

Definition d_ahost (d : hl_addrs) : addr := AddrAND (a_ints (d_hosti d)) (d_mask d).

Definition item_addrs (ci : ClientInfo) (Hp : Host) (hosti : vaddr) (hostname : list Z)
  (isalias : bool) (portnum : Z) (peer : vaddr) : option hl_addrs :=
  let hostpat := h_name Hp in
  let mask := h_mask Hp in
  if HostOnClientside hostpat
  then let mask := (default_netmask mask (a_ints (clientsideHost ci))).1 in
       Some (HlAddrs (AddrAND mask (a_ints (clientsideHost ci))) mask hosti hostname portnum peer isalias)
  else if HostOutgoingIF hostpat
  then if AddrInvalid (a_ints hosti)
       then let a := a_ints hosti in
            Some (HlAddrs (Addr (I0 a) (I1 a) (I2 a) (Z.lxor (I3 a) F4))
                    (a_ints AddrNull) hosti hostname portnum peer isalias)
       else let mask := (default_netmask mask (a_ints hosti)).1 in
            let ohost := VA_hostIFto env hosti mask in
            Some (HlAddrs (AddrAND ohost mask) mask hosti hostname portnum peer isalias)
  else if has (h_type Hp) HT_CLIF
  then let sock := clientSockHost ci in
       let mask := (default_netmask mask (a_ints sock)).1 in
       let chost := if negb (AddrEQ (h_Addr Hp) (a_ints AddrZero))
                    then AddrAND mask (h_Addr Hp) else AddrAND mask (a_ints sock) in
       Some (HlAddrs chost mask sock (a_name sock) (a_port sock) peer false)
  else if has (h_type Hp) HT_RIDPEER
  then if negb (has (a_flags peer) VA_REMOTE) then None
       else let peer := if negb (has (a_flags peer) VA_RSLVED) then VA_resolv env peer
                        else peer in
            Some (HlAddrs (AddrAND mask (h_Addr Hp)) mask peer (a_name peer) (a_port peer) peer false)
  else if HostIncomingIF hostpat
  then let sock := clientSockHost ci in
       if AddrInvalid (a_ints sock) then None
       else let mask := (default_netmask mask (a_ints sock)).1 in
            Some (HlAddrs (AddrAND mask (a_ints sock)) mask hosti hostname portnum peer isalias)
  else Some (HlAddrs (AddrAND mask (h_Addr Hp)) mask hosti hostname portnum peer isalias).

(** The comparison of a host by name and address. *)
Definition byhost_match (Hp : Host) (d : hl_addrs) (cname : list Z) (alias : option (list Z))
  : bool :=
  let hostpat := h_name Hp in
  let hostname := d_hostname d in
  let domhost := if (cat hostpat 0 =? STAR) && (cat hostpat 1 =? 46)
                 then Some (drop 2 hostpat) else None in
  if CantResolve hostpat || has (h_type Hp) HT_UNKNOWN
  then negb (notResolvable (d_hosti d) hostname =? 0)
  else if HostUnknown hostpat && notResolved (d_hosti d) hostname then true
  else if match domhost with Some dh => HostMatchExactly dh hostname | None => false end
  then true
  else if HostMatchExactly hostpat hostname then true
  else if negb (AddrEQ (d_ahost d) (a_ints AddrZero)) && negb (AddrEQ (d_chost d) (a_ints AddrZero))
  then AddrEQ (d_ahost d) (d_chost d)
  else if negb (AddrEQ (d_ahost d) (a_ints AddrZero)) && negb ((hd (0, 0) (h_ranges Hp)).2 =? 0)
  then match_addrrange (h_ranges Hp) (d_ahost d)
  else
    let mtch := glob hostpat hostname || streq hostpat hostname in
    if mtch then true
    else match alias with
         | Some alias =>
             if negb (d_isalias d) && negb (strcaseeq alias cname)
             then let mtch := glob hostpat alias || strcaseeq hostpat alias in
                  if mtch then true
                  else match domhost with Some dh => strcaseeq dh alias | None => false end
             else false
         | None => false
         end.

(** [USERPORT]: the protocol, the port and the user of the item.  A null
    [username] is compared as [?]. *)
Definition userport (Hp : Host) (mtch : bool) (proto : option (list Z)) (portnum : Z)
  (username : option (list Z)) : option bool :=
  match (match h_proto Hp, proto with
         | Some pl, Some p => if mtch then matchProto pl p else Some mtch
         | _, _ => Some mtch
         end) with
  | None => None
  | Some mtch =>
      let mtch := match h_port Hp with
                  | Some pl => if mtch && negb (portnum =? 0) then matchPort pl portnum else mtch
                  | None => mtch
                  end in
      match h_user Hp with
      | Some ul => if mtch then matchUser (frex_match env) ul (h_userRexp Hp)
                                (default (cs "?") username)
                   else Some mtch
      | None => Some mtch
      end
  end.

(** [AUTHMATCH]: one authentication of the client satisfies the item. *)
Definition auth_match1 (Hp : Host) (ap : AuthInfo) : option bool :=
  let type := if has (i_stat ap) AUTH_SET then HT_BYAUTH else HT_BYCERT in
  if negb (has (h_type Hp) type) then Some false
  else
    match (match h_user Hp with
           | Some ul => matchUser (frex_match env) ul (h_userRexp Hp) (i_user ap)
           | None => Some true
           end) with
    | None => None
    | Some mtch =>
        let mtch := mtch && (streq (h_name Hp) (i_Host ap) || glob (h_name Hp) (i_Host ap)
                             || hostcmp_eq env (h_name Hp) (i_Host ap)) in
        Some (match h_port Hp with
              | Some pl => if mtch && (0 <? i_Port ap) then matchPort pl (i_Port ap) else mtch
              | None => mtch
              end)
    end.
Fixpoint auth_match (Hp : Host) (av : list AuthInfo) : option bool :=
  match av with
  | [] => Some false
  | ap :: av' => match auth_match1 Hp ap with
                 | None => None
                 | Some true => Some true
                 | Some false => auth_match Hp av'
                 end
  end.

(** [EXIT_BYHOST]. *)
Definition exit_byhost (Hp : Host) (byauth mtch : bool) (username : option (list Z))
  (av : list AuthInfo) : option bool :=
  if negb mtch && HT_BYUSER Hp && bool_decide (av = [])
     && match username with Some u => streq u [STAR] | None => false end
  then Some true
  else if negb mtch && (byauth || HT_BYUSER Hp) && negb (bool_decide (av = []))
  then auth_match Hp av
  else Some mtch.
End item.

(** ** The interpreter *)

(** The outcome of a list: the value returned and [RidentPeer]; a read
    through a null pointer; or no fuel left. *)
Inductive hl_res := Ret (hi : Z) (peer : vaddr) | NullDeref | NoFuel.

(** What one item leaves to the items behind it: the variables of the whole
    function that its loop never sets again, [exp], [hosti] and [portnum],
    and the global [RidentPeer].  (The variable [username], too, keeps the
    [?] that a null name is replaced with; nothing tells the two apart.) *)
Record hl_vars := HlVars { v_exp : Z; v_peer : vaddr; v_hosti : vaddr; v_portnum : Z }.

(** The outcome of one item: nothing to do, a match or not, the return of
    0 for lists nested too deep, or one of the failures. *)
Inductive item_res :=
  | Next (v : hl_vars)
  | Match (mtch : bool) (v : hl_vars)
  | TooDeep (peer : vaddr)
  | Fails (r : hl_res).

Definition of_opt (o : option bool) (v : hl_vars) : item_res :=
  match o with Some m => Match m v | None => Fails NullDeref end.

(** [ACCUM]. *)
Definition accum (op : hop) (mtch isin : bool) : bool :=
  match op with
  | ON_EQ => if mtch then true else isin
  | ON_NEQ => if negb mtch then true else isin
  | OFF_EQ => if mtch then false else isin
  | OFF_NEQ => if negb mtch then false else isin
  | _ => isin
  end.
(** "Nothing will happen". *)
Definition noeffect (op : hop) (isin : bool) : bool :=
  isin && (bool_decide (op = ON_EQ) || bool_decide (op = ON_NEQ)) ||
  negb isin && (bool_decide (op = OFF_EQ) || bool_decide (op = OFF_NEQ)).

Section hostlist.
Variable env : hl_env.
Variable tab : Z -> option HostList.   (** [hostListTab.ht_list] *)
Variable ci : ClientInfo.

Section items.
(** The call on another list. *)
Variable rec : HostList -> hl_query -> vaddr -> hl_res.
Variable hostlist : HostList.
Variable q : hl_query.
Variable lev : Z.

Definition byclhost : bool := has (hl_flags hostlist) HL_BYCLHOST.
Definition byauth : bool := has (hl_flags hostlist) HL_BYAUTH.
Definition byagent : bool := has (hl_flags hostlist) HL_BYAGENT.
Definition hosti0 : vaddr := if byclhost then clientHost ci else q_Vaddr q.
Definition cname0 : list Z := if byclhost then a_name (clientHost ci) else q_cname q.
Definition alias0 : option (list Z) := if byclhost then None else q_alias q.
Definition vdom0 : option (list Z) := snd <$> scanVdomain cname0.
Definition cname1 : list Z :=
  map tolower (match scanVdomain cname0 with Some (pre, _) => pre | None => cname0 end).

(** From the comparison of virtual domains to [ACCUM]. *)
Definition host_item (Hp : Host) (isin : bool) (v : hl_vars) : item_res :=
  let hostpat := h_name Hp in
  let ints := a_ints (q_Vaddr q) in
  if negb (bool_decide (vdom0 = h_vdomain Hp)) then Next v
  else if noeffect (h_op Hp) isin then Next v
  else if (cat hostpat 0 =? 45) && strneq hostpat (cs "--expire.") 9
  then Next (HlVars (atoi (drop 9 hostpat)) (v_peer v) (v_hosti v) (v_portnum v))
  else if byagent || (h_type Hp =? HT_BYAGENT)
  then Match (bool_decide (strstr (e_agentname ci) hostpat <> None)) v
  else if has (h_type Hp) (Z.lor HT_IPV4 HT_IPV6) &&
          (AddrEQ ints (a_ints AddrNull) || has (h_type Hp) HT_IPV4 && isV6 ints ||
           has (h_type Hp) HT_IPV6 && negb (isV6 ints))
  then Next v
  else
    let isalias := h_asis Hp && bool_decide (alias0 <> None) in
    let hostname := if isalias then default [] alias0 else cname1 in
    if negb (h_listid Hp =? 0)
    then
      if HL_MAXDEPTH <? lev then TooDeep (v_peer v)
      else match tab (h_listid Hp) with
           | None => Fails NullDeref
           | Some hl =>
               match rec hl q (v_peer v) with
               | Ret hi peer =>
                   match userport env Hp (negb (hi =? 0)) (q_proto q) (v_portnum v)
                           (q_username q) with
                   | None => Fails NullDeref
                   | Some m => of_opt (exit_byhost env Hp byauth m (q_username q) (q_av q))
                                 (HlVars (v_exp v) peer (v_hosti v) (v_portnum v))
                   end
               | r => Fails r
               end
           end
    else if TimePeriod hostpat
    then Match (matchTimePeriod env ci (drop 3 hostpat) (s32 (I3 (h_mask Hp)))) v
    else if strcaseeq hostpat (cs "--self") then Match (fromself ci) v
    else if strncaseeq hostpat (cs "_mx") 3
    then Match (hostIsResolvable env (cs "-MX." ++ hostname)) v
    else if bool_decide (strtailstr hostpat (cs ".mac.list.-") <> None)
         || bool_decide (strtailstr hostpat (cs ".ip4.list.-") <> None)
         || bool_decide (strtailstr hostpat (cs ".ip6.list.-") <> None)
         || bool_decide (strtailstr hostpat (cs ".ima.list.-") <> None)
    then Match (addrGroup env hostpat hostname (v_hosti v)) v
    else
      match item_addrs env ci Hp (v_hosti v) hostname isalias (v_portnum v) (v_peer v) with
      | None => Next v
      | Some d =>
          let v := HlVars (v_exp v) (d_peer d) (d_hosti d) (d_portnum d) in
          if byauth && negb (has (h_type Hp) HT_CLIF)
          then of_opt (auth_match env Hp (q_av q)) v
          else if has (h_type Hp) HT_BYFILE
          then Match (matchHostSetX env hostpat (d_ahost d) (d_hosti d) (d_mask d) (v_exp v)) v
          else if negb (has (h_type Hp) HT_BYHOST)
          then of_opt (exit_byhost env Hp byauth false (q_username q) (q_av q)) v
          else
            match userport env Hp (byhost_match env Hp d cname1 alias0) (q_proto q)
                    (d_portnum d) (q_username q) with
            | None => Fails NullDeref
            | Some m => of_opt (exit_byhost env Hp byauth m (q_username q) (q_av q)) v
            end
      end.

(** The loop over the items from number [hi] on.  [skipping] is the inner
    loop that looks for the next OR after an AND has failed. *)
Fixpoint hl_loop (hs : list Host) (hi : Z) (skipping isin : bool) (v : hl_vars) : hl_res :=
  match hs with
  | [] => Ret (if isin then hi else 0) (v_peer v)
  | Hp :: hs' =>
      if skipping
      then hl_loop hs' (hi + 1) (negb (bool_decide (h_op Hp = OP_OR))) isin v
      else match h_op Hp with
           | OP_AND => if isin then hl_loop hs' (hi + 1) false false v
                       else hl_loop hs' (hi + 1) true isin v
           | OP_OR => if isin then Ret hi (v_peer v)
                      else hl_loop hs' (hi + 1) false isin v
           | OP_NEG => hl_loop hs' (hi + 1) false (negb isin) v
           | op =>
               match host_item Hp isin v with
               | Next v => hl_loop hs' (hi + 1) false isin v
               | Match m v => hl_loop hs' (hi + 1) false (accum op m isin) v
               | TooDeep peer => Ret 0 peer
               | Fails r => r
               end
           end
  end.

(** The variables when the loop starts. *)
Definition vars0 (peer : vaddr) : hl_vars := HlVars 0 peer hosti0 (a_port (q_Vaddr q)).
End items.

(** [VA_hostIsinListX]; [fuel] bounds the nesting of lists. *)
Fixpoint VA_hostIsinListX (fuel : nat) (lev : Z) (hostlist : HostList) (q : hl_query)
  (peer : vaddr) : hl_res :=
  match fuel with
  | O => NoFuel
  | S fuel' =>
      if byauth hostlist && bool_decide (q_av q = []) then Ret 0 peer
      else hl_loop (VA_hostIsinListX fuel' (lev + 1)) hostlist q lev (hl_List hostlist)
             1 false false (vars0 hostlist q peer)
  end.

(** The calls of other components start at level 0. *)
Definition hl_fuel : nat := Z.to_nat (HL_MAXDEPTH + 2).
Definition hostIsinListX (hostlist : HostList) (q : hl_query) (peer : vaddr) : hl_res :=
  VA_hostIsinListX hl_fuel 0 hostlist q peer.
End hostlist.
