(* ===== verification/HostSpec.v ===== *)
(** * Host lists: what the interpreter promises

    The specification of [HostMatch]: a list means an OR of ANDs of segments
    of items, evaluated from left to right; in a segment the last item that
    matches decides.  The theorems say that the loop with its flags implements
    it, that the interpretation of lists that refer to each other always
    ends, and what the items of the most common kinds match. *)
From S2P Require Import Prelude Strings Glob HostAddr HostMatch.
From stdpp Require Import options.

(** Splits the outermost condition of the goal. *)
Ltac case_if :=
  match goal with
  | |- (if ?b then _ else _) <> _ => destruct b
  | |- (if ?b then _ else _) = _ => destruct b
  end.

(** ** Lists of protocols, users and ports *)

(** The last item that matches decides. *)
Fixpoint decided (mtch : list Z -> bool) (l : list (list Z)) : option bool :=
  match l with
  | [] => None
  | p :: l' =>
      match decided mtch l' with
      | Some b => Some b
      | None => if mtch (list_item p).2 then Some (bool_decide ((list_item p).1 = ON_EQ)) else None
      end
  end.

(** A list that begins with a negated item contains what it does not decide. *)
Definition in_list (mtch : list Z -> bool) (l : list (list Z)) : bool :=
  default (match l with p0 :: _ => cat p0 0 =? 33 | [] => false end) (decided mtch l).

Lemma list_item_op p : (list_item p).1 = ON_EQ \/ (list_item p).1 = OFF_EQ.
Proof. unfold list_item. destruct (_ =? _); auto. Qed.

(** One step of the three loops. *)
Lemma decided_step m isin p l :
  default (if m (list_item p).2 && bool_decide ((list_item p).1 = ON_EQ) then true
           else if m (list_item p).2 && bool_decide ((list_item p).1 = OFF_EQ) then false
           else isin) (decided m l) = default isin (decided m (p :: l)).
Proof.
  cbn [decided]. destruct (decided m l); [done|]. cbn [default].
  destruct (m (list_item p).2); [|done]. cbn [andb].
  destruct (list_item_op p) as [-> | ->]; done.
Qed.

Lemma matchPort_loop_spec portnum l : forall isin,
  matchPort_loop isin l portnum =
  default isin (decided (fun p => if streq p [STAR] then true else port_item p portnum) l).
Proof.
  induction l as [|p l IH]; intros isin; [done|]. cbn [matchPort_loop].
  rewrite <- decided_step. destruct (list_item p). apply IH.
Qed.

Lemma matchProto_loop_spec proto l : forall isin,
  matchProto_loop isin l proto =
  default isin (decided (fun p => if streq p [STAR] then true else streq p proto) l).
Proof.
  induction l as [|p l IH]; intros isin; [done|]. cbn [matchProto_loop].
  rewrite <- decided_step. destruct (list_item p). apply IH.
Qed.

(** The test of one user: by its compiled pattern when it has one. *)
Definition user_item (frexmatch : list Z -> list Z -> option (list Z)) (username user : list Z)
  : bool :=
  if streq user [STAR] then true
  else if existsb (fun c => (c =? STAR) || (c =? 91)) user
  then bool_decide (frexmatch user username = Some [])
  else streq user username.

Lemma matchUser_loop_spec frexmatch username l : forall isin,
  matchUser_loop frexmatch isin l (makeUserRexp l) username =
  default isin (decided (user_item frexmatch username) l).
Proof.
  induction l as [|u l IH]; intros isin; [done|]. cbn [matchUser_loop].
  rewrite <- decided_step. cbn [makeUserRexp map hd tl]. unfold list_item at 1 2 3.
  assert (E : forall user, (if streq user [STAR] then true
    else match (if negb (streq user [STAR]) && existsb (fun c => (c =? STAR) || (c =? 91)) user
                then Some user else None) with
         | Some rexp => match frexmatch rexp username with
                        | Some tail => bool_decide (tail = []) | None => false end
         | None => streq user username end) = user_item frexmatch username user).
  { intros user. unfold user_item. destruct (streq user [STAR]); [done|]. cbn [negb andb].
    destruct (existsb _ user); [|done]. destruct (frexmatch user username) as [[|]|]; done. }
  unfold list_item. destruct (cat u 0 =? 33); cbn [fst snd]; rewrite E; apply IH.
Qed.

(** The lists of protocols, ports and users of an item: the last entry
    that matches decides, negated or not; when none does, exactly the lists
    that begin with a negated entry contain the value.  User patterns are
    matched through the compiled form that [makeUserRexp] makes of them. *)
Theorem last_entry_decides (frexmatch : list Z -> list Z -> option (list Z))
  (l : list (list Z)) (proto user : list Z) (port : Z) :
  matchPort l port =
    in_list (fun p => if streq p [STAR] then true else port_item p port) l /\
  (l <> [] ->
   matchProto l proto =
     Some (in_list (fun p => if streq p [STAR] then true else streq p proto) l) /\
   matchUser frexmatch l (makeUserRexp l) user = Some (in_list (user_item frexmatch user) l)).
Proof.
  unfold matchPort, in_list. rewrite matchPort_loop_spec. split; [done|].
  intros Hl. destruct l as [|p l]; [done|]. unfold matchProto, matchUser.
  by rewrite matchProto_loop_spec, matchUser_loop_spec.
Qed.

Lemma last_entry_decides_witness :
  matchPort [cs "!25"; cs "1000-2000"; cs "!1080"] 1080 = false /\
  matchProto [cs "!ftp"] (cs "http") = Some true.
Proof.
  split.
  - rewrite (proj1 (last_entry_decides (fun _ _ => None)
      [cs "!25"; cs "1000-2000"; cs "!1080"] [] [] 1080)). by vm_compute.
  - rewrite (proj1 (proj2 (last_entry_decides (fun _ _ => None) [cs "!ftp"] (cs "http") [] 0)
      ltac:(done))). by vm_compute.
Defined.

(** ** Lists of lists always end *)

Definition host_wf (tab : Z -> option HostList) (h : Host) : Prop :=
  h_proto h <> Some [] /\ h_user h <> Some [] /\
  (h_listid h <> 0 -> exists hl, tab (h_listid h) = Some hl).
Definition list_wf (tab : Z -> option HostList) (hl : HostList) : Prop :=
  Forall (host_wf tab) (hl_List hl).
Definition tab_wf (tab : Z -> option HostList) : Prop :=
  forall i hl, tab i = Some hl -> list_wf tab hl.

Definition returns (n : Z) (r : hl_res) : Prop :=
  exists hi peer, r = Ret hi peer /\ 0 <= hi <= n.

Section ends.
Context (env : hl_env) (tab : Z -> option HostList) (ci : ClientInfo).

Lemma matchUser_some h : h_user h <> Some [] -> forall ul, h_user h = Some ul ->
  forall u, exists b, matchUser (frex_match env) ul (h_userRexp h) u = Some b.
Proof. intros H [|u0 ul] E u; [congruence|]. simpl. eauto. Qed.

Lemma userport_some h m proto port user : host_wf tab h ->
  exists b, userport env h m proto port user = Some b.
Proof.
  intros (Hp & Hu & _). unfold userport.
  assert (E : exists b, match h_proto h, proto with
    | Some pl, Some p => if m then matchProto pl p else Some m | _, _ => Some m end = Some b).
  { destruct (h_proto h) as [[|]|], proto, m; try congruence; eauto. }
  destruct E as [b ->]. destruct (h_user h) as [ul|] eqn:Eu; [|eauto].
  destruct (match h_port h with Some _ => _ | None => _ end); [|eauto].
  eapply matchUser_some; [|done]. congruence.
Qed.

Lemma auth_match_some h av : host_wf tab h -> exists b, auth_match env h av = Some b.
Proof.
  intros (_ & Hu & _). induction av as [|ap av [b IH]]; [simpl; eauto|]. cbn [auth_match].
  assert (E : exists b, auth_match1 env h ap = Some b).
  { unfold auth_match1. destruct (negb _); [eauto|].
    destruct (h_user h) as [ul|] eqn:Eu; [|eauto].
    destruct (matchUser_some h ltac:(congruence) ul Eu (i_user ap)) as [b1 ->]. eauto. }
  destruct E as [[|] ->]; eauto.
Qed.

Lemma exit_byhost_some h by_ m u av : host_wf tab h ->
  exists b, exit_byhost env h by_ m u av = Some b.
Proof.
  intros Hh. unfold exit_byhost. destruct (_ && match u with Some _ => _ | None => _ end); [eauto|].
  destruct (_ && negb (bool_decide (av = []))); [by apply auth_match_some|eauto].
Qed.

Section items.
Context (rec : HostList -> hl_query -> vaddr -> hl_res) (hostlist : HostList)
  (q : hl_query) (lev : Z) (Htab : tab_wf tab).
Hypothesis Hrec : lev <= HL_MAXDEPTH -> forall hl peer, list_wf tab hl ->
  returns (hl_cnt hl + 1) (rec hl q peer).

Lemma host_item_ok h isin v r : host_wf tab h ->
  host_item env tab ci rec hostlist q lev h isin v <> Fails r.
Proof using All.
  intros Hh. unfold host_item. cbv zeta.
  assert (Hof : forall o w, (exists b, o = Some b) -> of_opt o w <> Fails r)
    by (intros o w [b ->]; done).
  repeat (lazymatch goal with |- (if ?b then _ else _) <> _ => case_if; [done|] end).
  destruct (negb (h_listid h =? 0)) eqn:El.
  - destruct (Z.ltb_spec HL_MAXDEPTH lev); [done|].
    destruct Hh as (H1 & H2 & H3). destruct (H3 ltac:(lia)) as [hl Ehl]. rewrite Ehl.
    destruct (Hrec ltac:(lia) hl (v_peer v)) as (hi & peer' & -> & _); [by eapply Htab|].
    destruct (userport_some h (negb (hi =? 0)) (q_proto q) (v_portnum v)
      (q_username q)) as [m ->]; [by split_and!|]. apply Hof, exit_byhost_some. by split_and!.
  - repeat (lazymatch goal with |- (if ?b then _ else _) <> _ => case_if; [done|] end).
    destruct (item_addrs _ _ _ _ _ _ _ _) as [d|]; [|done].
    case_if; [by apply Hof, auth_match_some|]. case_if; [done|].
    case_if; [by apply Hof, exit_byhost_some|].
    destruct (userport_some h (byhost_match env h d (cname1 ci hostlist q) (alias0 hostlist q))
      (q_proto q) (d_portnum d) (q_username q) Hh) as [m ->].
    by apply Hof, exit_byhost_some.
Qed.

Lemma hl_loop_returns hs : forall hi sk isin v,
  Forall (host_wf tab) hs -> 0 <= hi ->
  returns (hi + zlen hs)
    (hl_loop env tab ci rec hostlist q lev hs hi sk isin v).
Proof using All.
  induction hs as [|h hs IH]; intros hi sk isin v Hhs Hi; cbn [hl_loop].
  - eexists _, _. split; [done|]. unfold zlen; simpl. destruct isin; lia.
  - apply Forall_cons in Hhs as [Hh Hhs].
    assert (Hnext : forall sk isin v, returns (hi + zlen (h :: hs))
      (hl_loop env tab ci rec hostlist q lev hs (hi + 1) sk isin v)).
    { intros. destruct (IH (hi + 1) sk0 isin0 v0 Hhs ltac:(lia))
        as (hi' & p' & -> & Hr). eexists _, _. split; [done|]. rewrite zlen_cons. lia. }
    pose proof (zlen_nonneg hs).
    assert (Hret : forall i p, 0 <= i <= hi -> returns (hi + zlen (h :: hs)) (Ret i p)).
    { intros i p Hip. eexists _, _. split; [done|]. rewrite zlen_cons. lia. }
    destruct sk; [done|].
    assert (Hitem : returns (hi + zlen (h :: hs))
      (match host_item env tab ci rec hostlist q lev h isin v with
       | Next v0 =>
           hl_loop env tab ci rec hostlist q lev hs (hi + 1) false isin v0
       | Match m v0 => hl_loop env tab ci rec hostlist q lev hs (hi + 1) false
                                 (accum (h_op h) m isin) v0
       | TooDeep peer0 => Ret 0 peer0
       | Fails r => r
       end)).
    { pose proof (host_item_ok h isin v) as Hf.
      destruct (host_item _ _ _ _ _ _ _ _ _ _); [done|done|apply Hret; lia|].
      by destruct (Hf r Hh). }
    destruct (h_op h); try exact Hitem; destruct isin; try done; apply Hret; lia.
Qed.
End items.

Lemma VA_hostIsinListX_returns : tab_wf tab -> forall fuel lev hl q peer,
  list_wf tab hl -> HL_MAXDEPTH + 2 <= lev + Z.of_nat fuel -> lev <= HL_MAXDEPTH + 1 ->
  returns (hl_cnt hl + 1) (VA_hostIsinListX env tab ci fuel lev hl q peer).
Proof.
  intros Htab. induction fuel as [|fuel IH]; intros lev hl q peer Hhl Hf Hlev; [lia|].
  cbn [VA_hostIsinListX]. destruct (_ && _).
  { exists 0, peer. split; [done|]. unfold hl_cnt. pose proof (zlen_nonneg (hl_List hl)). lia. }
  rewrite Z.add_comm. apply hl_loop_returns; [done| |done|lia].
  intros Hl hl' peer' Hhl'. apply IH; [done|lia|lia].
Qed.
End ends.

(** The interpretation of a host list always ends, also when lists
    refer to each other in a circle: with the fixed depth bound it returns
    0 or a position of the list (one past its end for a list evaluated to
    its end), and never reads through a null pointer when every item has a
    known list and no empty protocol or user list. *)
Theorem hostIsinListX_total (env : hl_env) (tab : Z -> option HostList) (ci : ClientInfo)
  (hl : HostList) (q : hl_query) (peer : vaddr) :
  tab_wf tab -> list_wf tab hl ->
  exists hi peer', hostIsinListX env tab ci hl q peer = Ret hi peer' /\ 0 <= hi <= hl_cnt hl + 1.
Proof.
  intros Htab Hhl. apply VA_hostIsinListX_returns; [done..| |];
    unfold hl_fuel, HL_MAXDEPTH; lia.
Qed.

(** ** [RidentPeer] without a peer *)

Section peer.
Context (env : hl_env) (tab : Z -> option HostList) (ci : ClientInfo) (peer : vaddr).
Hypothesis Hpeer : has (a_flags peer) VA_REMOTE = false.

Definition keeps_peer (r : hl_res) : Prop :=
  match r with Ret _ p => p = peer | _ => True end.
Definition item_keeps (i : item_res) : Prop :=
  match i with
  | Next v | Match _ v => v_peer v = peer
  | TooDeep p => p = peer
  | Fails r => keeps_peer r
  end.

Lemma item_addrs_peer Hp hosti hostname isalias port d :
  item_addrs env ci Hp hosti hostname isalias port peer = Some d -> d_peer d = peer.
Proof using Hpeer.
  unfold item_addrs. cbv zeta. rewrite Hpeer. cbn [negb].
  repeat (case_match; try done); by intros [= <-].
Qed.
Lemma of_opt_keeps o v : v_peer v = peer -> item_keeps (of_opt o v).
Proof using. by destruct o. Qed.

Lemma host_item_keeps rec hl q lev h isin v : v_peer v = peer ->
  (forall hl', keeps_peer (rec hl' q peer)) ->
  item_keeps (host_item env tab ci rec hl q lev h isin v).
Proof using Hpeer.
  intros Hv Hrec. unfold host_item. cbv zeta. rewrite Hv.
  repeat (lazymatch goal with |- item_keeps (if negb (h_listid _ =? 0) then _ else _) => fail
          | |- item_keeps (if ?b then _ else _) => destruct b; [first [exact Hv|exact eq_refl]|] end).
  destruct (negb (h_listid h =? 0)).
  - destruct (HL_MAXDEPTH <? lev); [exact eq_refl|]. destruct (tab (h_listid h)) as [hl'|]; [|exact I].
    pose proof (Hrec hl') as Hk. destruct (rec hl' q peer) as [hi p| |]; [|exact I..].
    cbn in Hk. subst p. destruct (userport _ _ _ _ _ _); [by apply of_opt_keeps|exact I].
  - repeat (lazymatch goal with |- item_keeps (if ?b then _ else _) => destruct b; [first [exact Hv|exact eq_refl]|] end).
    destruct (item_addrs _ _ _ _ _ _ _ _) as [d|] eqn:Ed; [|exact Hv].
    apply item_addrs_peer in Ed.
    repeat (lazymatch goal with |- item_keeps (if ?b then _ else _) =>
              destruct b; [first [exact Ed|by apply of_opt_keeps]|] end).
    destruct (userport _ _ _ _ _ _); [by apply of_opt_keeps|exact I].
Qed.

Lemma hl_loop_keeps rec hl q lev hs :
  (forall hl', keeps_peer (rec hl' q peer)) -> forall hi sk isin v,
  v_peer v = peer -> keeps_peer (hl_loop env tab ci rec hl q lev hs hi sk isin v).
Proof using Hpeer.
  intros Hrec. induction hs as [|h hs IH]; intros hi sk isin v Hv; cbn [hl_loop]; [exact Hv|].
  destruct sk; [by apply IH|].
  pose proof (host_item_keeps rec hl q lev h isin v Hv Hrec) as Hi.
  assert (Hitem : keeps_peer
    (match host_item env tab ci rec hl q lev h isin v with
     | Next v0 => hl_loop env tab ci rec hl q lev hs (hi + 1) false isin v0
     | Match m v0 => hl_loop env tab ci rec hl q lev hs (hi + 1) false
                               (accum (h_op h) m isin) v0
     | TooDeep peer0 => Ret 0 peer0
     | Fails r => r
     end)).
  { destruct (host_item _ _ _ _ _ _ _ _ _ _); cbn in Hi; try done; by apply IH. }
  destruct (h_op h); try exact Hitem; destruct isin; try exact Hv; by apply IH.
Qed.

(** When no peer was told of, the lists do not change what is known of it. *)
Lemma VA_hostIsinListX_keeps fuel : forall lev hl q,
  keeps_peer (VA_hostIsinListX env tab ci fuel lev hl q peer).
Proof using Hpeer.
  induction fuel as [|fuel IH]; intros lev hl q; cbn [VA_hostIsinListX]; [done|].
  destruct (_ && _); [done|]. apply hl_loop_keeps; [|done]. intros hl'. apply IH.
Qed.
Lemma hostIsinListX_keeps hl q : keeps_peer (hostIsinListX env tab ci hl q peer).
Proof using Hpeer. apply VA_hostIsinListX_keeps. Qed.
Lemma hostIsinListX_answers hl q : tab_wf tab -> list_wf tab hl ->
  exists hi, hostIsinListX env tab ci hl q peer = Ret hi peer /\ 0 <= hi.
Proof using Hpeer.
  intros Ht Hl. destruct (VA_hostIsinListX_returns env tab ci Ht hl_fuel 0 hl q peer Hl)
    as (hi & p & E & Hhi); [unfold hl_fuel, HL_MAXDEPTH; lia..|].
  pose proof (hostIsinListX_keeps hl q) as Hk. fold (hostIsinListX env tab ci hl q peer) in E.
  rewrite E in Hk. cbn in Hk. subst p. exists hi. split; [done|lia].
Qed.
End peer.

(** ** More named lists *)

Section more.
Context (env : hl_env) (tab tab' : Z -> option HostList) (ci : ClientInfo) (Htab : tab_wf tab).
Hypothesis Hmore : forall i hl, tab i = Some hl -> tab' i = Some hl.

Lemma host_item_more rec rec' hl q lev h isin v : host_wf tab h ->
  (forall hl' p, list_wf tab hl' -> rec hl' q p = rec' hl' q p) ->
  host_item env tab ci rec hl q lev h isin v =
  host_item env tab' ci rec' hl q lev h isin v.
Proof using Htab Hmore.
  intros (_ & _ & Hid) Hrec. unfold host_item. cbv zeta.
  destruct (Z.eqb_spec (h_listid h) 0) as [|Hne]; [done|]. cbn [negb].
  destruct (Hid Hne) as [hl' E]. rewrite (Hmore _ _ E), E, Hrec; [done|].
  by eapply Htab.
Qed.
Lemma hl_loop_more rec rec' hl q lev hs : Forall (host_wf tab) hs ->
  (forall hl' p, list_wf tab hl' -> rec hl' q p = rec' hl' q p) -> forall hi sk isin v,
  hl_loop env tab ci rec hl q lev hs hi sk isin v =
  hl_loop env tab' ci rec' hl q lev hs hi sk isin v.
Proof using Htab Hmore.
  intros Hhs Hrec. induction Hhs as [|h hs Hh _ IH]; intros hi sk isin v; [done|].
  cbn [hl_loop]. rewrite (host_item_more rec rec') by done.
  destruct sk; [apply IH|]. destruct (h_op h); try (destruct isin; try done; apply IH);
    try (destruct (host_item _ _ _ _ _ _ _ _ _ _); try done; apply IH).
Qed.
(** A list means the same when there are other named lists besides. *)
Lemma VA_hostIsinListX_more q fuel : forall lev hl peer, list_wf tab hl ->
  VA_hostIsinListX env tab ci fuel lev hl q peer = VA_hostIsinListX env tab' ci fuel lev hl q peer.
Proof using Htab Hmore.
  induction fuel as [|fuel IH]; intros lev hl peer Hl; [done|]. cbn [VA_hostIsinListX].
  destruct (_ && _); [done|]. apply hl_loop_more; [done|]. intros hl' p Hl'. by apply IH.
Qed.
Lemma hostIsinListX_more hl q peer : list_wf tab hl ->
  hostIsinListX env tab ci hl q peer = hostIsinListX env tab' ci hl q peer.
Proof using Htab Hmore. apply VA_hostIsinListX_more. Qed.
End more.

(** An environment without names, routes and files, to compute with. *)
Definition env0 : hl_env :=
  HlEnv (fun _ => true) (fun n => isdigit (cat n 0)) strcasecmp_eq (fun _ _ => None)
    (fun _ _ => Addr 0 0 0 0) (fun v => v) (fun _ _ _ => false) (fun _ _ _ _ _ => false)
    (fun _ _ => []).
Definition ci0 : ClientInfo := MkClient 0 0 AddrNull AddrNull AddrNull [] false.

(** A list that contains itself. *)
Definition loop_item : Host :=
  MkHost false (cs "L") (Addr F4 F4 F4 F4) (Addr 0 0 0 0) [] None None None [] ON_EQ 1 None
    HT_BYHOST.
Definition loop_list : HostList := MkHostList (cs "L") [loop_item] 0 false.
Definition loop_tab (i : Z) : option HostList := if i =? 1 then Some loop_list else None.

Lemma hostIsinListX_total_witness :
  exists hi peer', hostIsinListX env0 loop_tab ci0 loop_list
    (HlQuery None (cs "www") None AddrNull None []) AddrNull = Ret hi peer' /\ 0 <= hi <= 2.
Proof.
  apply (hostIsinListX_total env0 loop_tab ci0 loop_list); unfold tab_wf, list_wf, loop_tab.
  - intros i hl. destruct (i =? 1); intros [= <-]. repeat constructor; [done..|].
    intros _. by exists loop_list.
  - repeat constructor; [done..|]. intros _. by exists loop_list.
Defined.

(** ** The operators *)

(** The value of a part of a list: a verdict with the state after it, or the
    outcome of the whole list. *)
Inductive seg_res := SVal (isin : bool) (v : hl_vars) | SStop (r : hl_res).

(** The parts of a list between the items that satisfy [p]. *)
Fixpoint split_at {A} (p : A -> bool) (l : list A) : list (list A) :=
  match l with
  | [] => [[]]
  | x :: l' =>
      if p x then [] :: split_at p l'
      else match split_at p l' with
           | g :: gs => (x :: g) :: gs
           | [] => [[x]]
           end
  end.
Definition is_op (op : hop) (h : Host) : bool := bool_decide (h_op h = op).

Section dnf.
Context (env : hl_env) (tab : Z -> option HostList) (ci : ClientInfo)
  (rec : HostList -> hl_query -> vaddr -> hl_res) (hostlist : HostList)
  (q : hl_query) (lev : Z).
Abbreviation item := (host_item env tab ci rec hostlist q lev).

(** A segment: NEG negates, every other item may switch the verdict. *)
Fixpoint seg_eval (items : list Host) (isin : bool) (v : hl_vars) : seg_res :=
  match items with
  | [] => SVal isin v
  | h :: items' =>
      if is_op OP_NEG h then seg_eval items' (negb isin) v
      else match item h isin v with
           | Next v => seg_eval items' isin v
           | Match m v => seg_eval items' (accum (h_op h) m isin) v
           | TooDeep peer => SStop (Ret 0 peer)
           | Fails r => SStop r
           end
  end.

(** All segments have to be true; the first false one ends the part. *)
Fixpoint and_eval (segs : list (list Host)) (isin : bool) (v : hl_vars) : seg_res :=
  match segs with
  | [] => SVal isin v
  | s :: segs' =>
      match seg_eval s isin v with
      | SVal true v => match segs' with
                              | [] => SVal true v
                              | _ => and_eval segs' false v
                              end
      | r => r
      end
  end.

(** One part has to be true; the first true one ends the list. *)
Fixpoint or_eval (parts : list (list Host)) (isin : bool) (v : hl_vars) : seg_res :=
  match parts with
  | [] => SVal isin v
  | g :: parts' =>
      match and_eval (split_at (is_op OP_AND) g) isin v with
      | SVal false v => match parts' with
                               | [] => SVal false v
                               | _ => or_eval parts' false v
                               end
      | r => r
      end
  end.

Definition hl_meaning (hs : list Host) (isin : bool) (v : hl_vars) : seg_res :=
  or_eval (split_at (is_op OP_OR) hs) isin v.

(** The value of the loop that stands for a meaning. *)
Definition means (r : hl_res) (s : seg_res) : Prop :=
  match s with
  | SVal true v => exists hi, r = Ret hi (v_peer v) /\ 0 < hi
  | SVal false v => r = Ret 0 (v_peer v)
  | SStop r' => r = r'
  end.

Lemma split_at_cons {A} (p : A -> bool) l : exists g gs, split_at p l = g :: gs.
Proof. induction l as [|x l (g & gs & E)]; simpl; [eauto|]. destruct (p x); [eauto|]. rewrite E. eauto. Qed.

(** The first item of a list, in the meaning. *)
Lemma meaning_or h hs isin v : h_op h = OP_OR ->
  hl_meaning (h :: hs) isin v =
  if isin then SVal true v else hl_meaning hs false v.
Proof.
  intros E. unfold hl_meaning. cbn [split_at]. unfold is_op at 1. rewrite E.
  rewrite bool_decide_true by done. destruct (split_at_cons (is_op OP_OR) hs) as (g & gs & ->).
  cbn [or_eval split_at and_eval seg_eval]. by destruct isin.
Qed.

Lemma meaning_and h hs isin v : h_op h = OP_AND ->
  hl_meaning (h :: hs) isin v =
  if isin then hl_meaning hs false v
  else match split_at (is_op OP_OR) hs with
       | _ :: (_ :: _) as gs => or_eval gs false v
       | _ => SVal false v
       end.
Proof.
  intros E. unfold hl_meaning. cbn [split_at]. unfold is_op at 1. rewrite E.
  rewrite bool_decide_false by done. destruct (split_at_cons (is_op OP_OR) hs) as (g & gs & ->).
  cbn [or_eval split_at]. unfold is_op at 1. rewrite E, bool_decide_true by done.
  destruct (split_at_cons (is_op OP_AND) g) as (s & ss & Es).
  cbn [and_eval seg_eval]. rewrite Es. destruct isin; [done|]. by destruct gs.
Qed.

Lemma meaning_item h hs isin v : h_op h <> OP_OR -> h_op h <> OP_AND ->
  hl_meaning (h :: hs) isin v =
  if is_op OP_NEG h then hl_meaning hs (negb isin) v
  else match item h isin v with
       | Next v => hl_meaning hs isin v
       | Match m v => hl_meaning hs (accum (h_op h) m isin) v
       | TooDeep peer => SStop (Ret 0 peer)
       | Fails r => SStop r
       end.
Proof.
  intros H1 H2. unfold hl_meaning. cbn [split_at]. unfold is_op at 1.
  rewrite bool_decide_false by done. destruct (split_at_cons (is_op OP_OR) hs) as (g & gs & ->).
  cbn [or_eval split_at]. unfold is_op at 1. rewrite bool_decide_false by done.
  destruct (split_at_cons (is_op OP_AND) g) as (s & ss & Es). rewrite Es.
  cbn [and_eval seg_eval]. destruct (is_op OP_NEG h); [done|].
  by destruct (host_item _ _ _ _ _ _ _ _ _ _).
Qed.

Lemma hl_loop_means hs : forall hi isin v, 0 < hi ->
  means (hl_loop env tab ci rec hostlist q lev hs hi false isin v)
        (hl_meaning hs isin v) /\
  means (hl_loop env tab ci rec hostlist q lev hs hi true false v)
    match split_at (is_op OP_OR) hs with
    | _ :: (_ :: _) as gs => or_eval gs false v
    | _ => SVal false v
    end.
Proof.
  induction hs as [|h hs IH]; intros hi isin v Hhi.
  - simpl. destruct isin; simpl; eauto.
  - split.
    + cbn [hl_loop]. destruct (h_op h) eqn:E;
        try (rewrite meaning_item by congruence; unfold is_op; rewrite E;
             rewrite bool_decide_false by done;
             destruct (host_item _ _ _ _ _ _ _ _ _ _);
             [apply IH; lia|rewrite <- E; apply IH; lia|done|done]).
      * rewrite meaning_and by done. destruct isin; apply (IH (hi + 1) false); lia.
      * rewrite meaning_or by done. destruct isin; [simpl; eauto|apply IH; lia].
      * rewrite meaning_item by congruence. unfold is_op. rewrite E, bool_decide_true by done.
        apply IH. lia.
    + cbn [hl_loop]. cbn [split_at]. unfold is_op at 1.
      destruct (split_at_cons (is_op OP_OR) hs) as (g & gs & Es).
      destruct (decide (h_op h = OP_OR)) as [E|E].
      * rewrite !bool_decide_true by done. rewrite Es. cbn [negb].
        destruct (IH (hi + 1) false v ltac:(lia)) as [H _].
        unfold hl_meaning in H. by rewrite Es in H.
      * rewrite !bool_decide_false by done. cbn [negb].
        destruct (IH (hi + 1) false v ltac:(lia)) as [_ H]. rewrite Es in H |- *.
        destruct gs; exact H.
Qed.
End dnf.

(** C14. The interpreter implements the operators of host lists: the value
    of a list is its meaning as an OR of ANDs of segments, evaluated from
    left to right with short cuts.  A list that is true returns a positive
    position, a false one 0; every part after a failed AND is skipped up to
    the next OR, each segment starts from false, and NEG negates the verdict
    of its segment so far.  The items see what the items in front of them
    left in the variables of the function: the time of expiry, the address
    and the port that are compared, and [RidentPeer]. *)
Theorem hostIsinListX_operators (env : hl_env) (tab : Z -> option HostList) (ci : ClientInfo)
  (hl : HostList) (q : hl_query) (peer : vaddr) :
  let rec := VA_hostIsinListX env tab ci (hl_fuel - 1) 1 in
  means (hostIsinListX env tab ci hl q peer)
    (if has (hl_flags hl) HL_BYAUTH && bool_decide (q_av q = []) then SVal false (vars0 ci hl q peer)
     else hl_meaning env tab ci rec hl q 0 (hl_List hl) false (vars0 ci hl q peer)).
Proof.
  intros rec. unfold hostIsinListX. change hl_fuel with (S (hl_fuel - 1)).
  cbn [VA_hostIsinListX]. unfold byauth. destruct (_ && _); [done|].
  apply hl_loop_means. lia.
Qed.

Lemma hostIsinListX_operators_witness :
  means (hostIsinListX env0 (fun _ => None) ci0
           (MkHostList [] [NewHost] 0 false) (HlQuery None (cs "a") None AddrNull None []) AddrNull)
    (hl_meaning env0 (fun _ => None) ci0
       (VA_hostIsinListX env0 (fun _ => None) ci0 11 1) (MkHostList [] [NewHost] 0 false)
       (HlQuery None (cs "a") None AddrNull None []) 0 [NewHost] false
       (HlVars 0 AddrNull AddrNull 0)).
Proof.
  apply (hostIsinListX_operators env0 (fun _ => None) ci0 (MkHostList [] [NewHost] 0 false)
    (HlQuery None (cs "a") None AddrNull None []) AddrNull).
Defined.

(** ** Lists of host names *)

(** A pattern [*.dom] stands for the domain itself, too. *)
Definition dom_of (pat : list Z) : option (list Z) :=
  if (cat pat 0 =? STAR) && (cat pat 1 =? 46) then Some (drop 2 pat) else None.

(** Does the pattern match the host, by its name or else by its alias? *)
Definition name_match (pat hostname : list Z) (alias : option (list Z)) : bool :=
  match dom_of pat with Some dh => strcasecmp_eq dh hostname | None => false end
  || strcasecmp_eq pat hostname || glob pat hostname
  || match alias with
     | Some a => negb (strcaseeq a hostname) &&
         (glob pat a || strcaseeq pat a ||
          match dom_of pat with Some dh => strcaseeq dh a | None => false end)
     | None => false
     end.

(** Items that are name patterns, as they stand in most lists. *)
Definition name_item (h : Host) : Prop :=
  (h_op h = ON_EQ \/ h_op h = OFF_EQ) /\
  h_asis h = false /\ h_Addr h = Addr 0 0 0 0 /\ (hd (0, 0) (h_ranges h)).2 = 0 /\
  h_proto h = None /\ h_port h = None /\ h_user h = None /\ h_listid h = 0 /\
  h_vdomain h = None /\ h_type h = HT_BYHOST /\
  In (cat (h_name h) 0) (cs "*0123456789abcdefghijklmnopqrstuvwxyzABCDEFGHIJKLMNOPQRSTUVWXYZ") /\
  strtailchr (h_name h) <> 45.

Lemma strtailstr_last s p : strtailchr s <> strtailchr p -> p <> [] -> strtailstr s p = None.
Proof.
  intros H Hp. pose proof (strtailstrX_suffix s p false) as Hs. unfold strtailstr.
  destruct (strtailstrX s p false) as [t|]; [|done]. destruct Hs as (a & -> & ->).
  exfalso. apply H. unfold strtailchr. destruct (exists_last Hp) as (p' & c & ->).
  by rewrite app_assoc, !last_last.
Qed.

Lemma streq_hd a b : cat a 0 <> cat b 0 -> streq a b = false.
Proof. intros H. apply bool_decide_false. by intros ->. Qed.

Lemma strcasecmp_hd a b : tolower (cat a 0) <> tolower (cat b 0) -> strcasecmp_eq a b = false.
Proof.
  intros H. apply bool_decide_false. intros E. apply H. destruct a, b; try done.
  injection E as E _. exact E.
Qed.

(** A property of the first characters of name items, by computation. *)
Lemma name_hd h (p : Z -> bool) : name_item h ->
  forallb p (cs "*0123456789abcdefghijklmnopqrstuvwxyzABCDEFGHIJKLMNOPQRSTUVWXYZ") = true ->
  p (cat (h_name h) 0) = true.
Proof.
  intros (_ & _ & _ & _ & _ & _ & _ & _ & _ & _ & Hin & _) Hp.
  by apply (proj1 (forallb_forall _ _) Hp).
Qed.

Lemma name_not h c : name_item h ->
  forallb (fun d => negb (tolower d =? tolower c))
    (cs "*0123456789abcdefghijklmnopqrstuvwxyzABCDEFGHIJKLMNOPQRSTUVWXYZ") = true ->
  tolower (cat (h_name h) 0) <> tolower c /\ cat (h_name h) 0 <> c.
Proof.
  intros Hh Hc. pose proof (name_hd h _ Hh Hc) as E. cbv beta in E. zprop.
  split; [done|]. by intros <-.
Qed.

Section names.
Context (env : hl_env) (tab : Z -> option HostList) (ci : ClientInfo)
  (rec : HostList -> hl_query -> vaddr -> hl_res) (hostlist : HostList)
  (q : hl_query) (lev : Z).
Hypothesis Hflags : hl_flags hostlist = 0.
Hypothesis Hvdom : scanVdomain (q_cname q) = None.

Lemma byhost_names h d :
  name_item h -> d_isalias d = false -> AddrEQ (d_chost d) (a_ints AddrZero) = true ->
  byhost_match env h d (d_hostname d) (q_alias q) =
  name_match (h_name h) (d_hostname d) (q_alias q).
Proof using.
  intros Hh Hd Hc.
  destruct (name_not h 63 Hh eq_refl) as [_ Hq].
  pose proof Hh as (_ & _ & _ & Hr & _ & _ & _ & _ & _ & Ht & _).
  unfold byhost_match, CantResolve, HostUnknown, HostMatchExactly. cbv zeta.
  rewrite (streq_hd _ (cs "?*")), (streq_hd _ (cs "?")) by done.
  rewrite Ht, Hd, Hc, Hr. change (has HT_BYHOST HT_UNKNOWN) with false.
  cbn [andb orb negb Z.eqb]. rewrite !andb_false_r. cbv iota.
  unfold name_match. fold (dom_of (h_name h)).
  assert (Hs : streq (h_name h) (d_hostname d) = true ->
               strcasecmp_eq (h_name h) (d_hostname d) = true).
  { unfold streq, strcasecmp_eq. intros E%bool_decide_eq_true. by apply bool_decide_true; f_equal. }
  destruct (dom_of (h_name h)) as [dh|].
  - destruct (strcasecmp_eq dh (d_hostname d)); [done|]. cbn [orb].
    destruct (strcasecmp_eq (h_name h) (d_hostname d)); [done|]. cbn [orb].
    destruct (glob (h_name h) (d_hostname d)); [done|]. cbn [orb].
    destruct (streq (h_name h) (d_hostname d)); [by discriminate Hs|].
    destruct (q_alias q) as [a|]; [|done].
    destruct (strcaseeq a (d_hostname d)); [done|]. cbn [negb andb].
    by destruct (glob (h_name h) a || strcaseeq (h_name h) a).
  - cbn [orb]. destruct (strcasecmp_eq (h_name h) (d_hostname d)); [done|]. cbn [orb].
    destruct (glob (h_name h) (d_hostname d)); [done|]. cbn [orb].
    destruct (streq (h_name h) (d_hostname d)); [by discriminate Hs|].
    destruct (q_alias q) as [a|]; [|done].
    destruct (strcaseeq a (d_hostname d)); [done|]. cbn [negb andb].
    by destruct (glob (h_name h) a || strcaseeq (h_name h) a).
Qed.

Lemma host_item_names h isin v : name_item h ->
  host_item env tab ci rec hostlist q lev h isin v =
  if noeffect (h_op h) isin then Next v
  else Match (name_match (h_name h) (map tolower (q_cname q)) (q_alias q)) v.
Proof using Hflags Hvdom.
  intros Hh.
  destruct (name_not h 45 Hh eq_refl) as [Hm1 Hm]. destruct (name_not h 46 Hh eq_refl) as [_ Hdot].
  destruct (name_not h 95 Hh eq_refl) as [Hu _].
  pose proof Hh as (_ & Has & Ha & _ & Hp & Hpt & Hus & Hl & Hv & Ht & _ & Hlast).
  unfold host_item. cbv zeta.
  assert (Ec : cname0 ci hostlist q = q_cname q) by (unfold cname0, byclhost; by rewrite Hflags).
  assert (Ec1 : cname1 ci hostlist q = map tolower (q_cname q))
    by (unfold cname1; by rewrite Ec, Hvdom).
  assert (Ev : vdom0 ci hostlist q = None) by (unfold vdom0; by rewrite Ec, Hvdom).
  assert (Ea : alias0 hostlist q = q_alias q) by (unfold alias0, byclhost; by rewrite Hflags).
  rewrite Ev, Hv, bool_decide_true by done. cbn [negb].
  destruct (noeffect (h_op h) isin); [done|].
  rewrite (proj2 (Z.eqb_neq _ 45) Hm). cbn [andb].
  unfold byagent, byauth. rewrite Hflags, Ht, Hl, Has. change (has 0 HL_BYAGENT) with false.
  change (HT_BYHOST =? HT_BYAGENT) with false. change (has HT_BYHOST (Z.lor HT_IPV4 HT_IPV6)) with false.
  cbn [andb orb negb Z.eqb]. unfold TimePeriod. rewrite (proj2 (Z.eqb_neq _ 45) Hm). cbn [andb].
  unfold strcaseeq. rewrite (strcasecmp_hd _ (cs "--self")) by done. rewrite andb_false_r.
  unfold strncaseeq. rewrite (strcasecmp_hd (take 3 _)) by (by destruct (h_name h)).
  rewrite !(strtailstr_last (h_name h)) by done. cbn [orb].
  rewrite !bool_decide_false by (by intros H). cbn [orb].
  unfold item_addrs, HostOnClientside, HostOutgoingIF, HostIncomingIF. cbv zeta.
  rewrite !streq_hd by done. rewrite Ht. change (has HT_BYHOST HT_CLIF) with false.
  change (has HT_BYHOST HT_RIDPEER) with false. cbn [orb].
  change (has 0 HL_BYAUTH) with false. change (has HT_BYHOST HT_BYFILE) with false.
  change (has HT_BYHOST HT_BYHOST) with true. cbn [andb negb].
  match goal with |- context [HlAddrs ?c ?m ?hh ?n ?pt ?pr ?al] =>
    set (d := HlAddrs c m hh n pt pr al) end.
  rewrite Ec1, Ea. rewrite <- Ec1. change (cname1 ci hostlist q) with (d_hostname d) at 1 2.
  rewrite byhost_names; [|done|done|].
  - unfold userport. rewrite Hp, Hpt, Hus. unfold exit_byhost, HT_BYUSER. rewrite Ht.
    change (has HT_BYHOST (Z.lor HT_BYAUTH HT_BYCERT)) with false. cbn [orb].
    rewrite !andb_false_r. by destruct v.
  - subst d. cbn [d_chost]. rewrite Ha. unfold AddrAND, AddrEQ. cbn [I0 I1 I2 I3 a_ints AddrZero].
    by rewrite !Z.land_0_r.
Qed.
End names.

(** The verdict of the last item that matches. *)
Fixpoint last_match (m : Host -> bool) (hs : list Host) : option bool :=
  match hs with
  | [] => None
  | h :: hs' =>
      match last_match m hs' with
      | Some b => Some b
      | None => if m h then Some (bool_decide (h_op h = ON_EQ)) else None
      end
  end.

Lemma noeffect_on isin : noeffect ON_EQ isin = isin.
Proof. by destruct isin. Qed.
Lemma noeffect_off isin : noeffect OFF_EQ isin = negb isin.
Proof. by destruct isin. Qed.

Lemma seg_eval_names env tab ci rec hl q lev hs v :
  hl_flags hl = 0 -> scanVdomain (q_cname q) = None -> Forall name_item hs -> forall isin,
  seg_eval env tab ci rec hl q lev hs isin v =
  SVal (default isin (last_match
    (fun h => name_match (h_name h) (map tolower (q_cname q)) (q_alias q)) hs)) v.
Proof.
  intros Hf Hv. induction 1 as [|h hs Hh _ IH]; intros isin; [done|].
  cbn [seg_eval last_match]. pose proof Hh as (Hop & _).
  assert (Hneg : is_op OP_NEG h = false)
    by (unfold is_op; destruct Hop as [-> | ->]; by apply bool_decide_false).
  rewrite Hneg, host_item_names by done.
  destruct Hop as [-> | ->]; rewrite ?noeffect_on, ?noeffect_off;
    destruct (name_match _ _ _), isin; cbn [negb accum]; rewrite IH;
    destruct (last_match _ hs); try done; by rewrite ?bool_decide_true, ?bool_decide_false.
Qed.

Lemma split_at_none {A} (p : A -> bool) l : Forall (fun x => p x = false) l -> split_at p l = [l].
Proof. induction 1 as [|x l Hx _ IH]; [done|]. simpl. by rewrite Hx, IH. Qed.

Lemma meaning_names env tab ci rec hl q lev hs isin v : Forall name_item hs ->
  hl_meaning env tab ci rec hl q lev hs isin v =
  seg_eval env tab ci rec hl q lev hs isin v.
Proof.
  intros Hhs. unfold hl_meaning. rewrite split_at_none.
  2: { eapply Forall_impl; [exact Hhs|]. intros h ([Hop|Hop] & _);
       apply bool_decide_false; congruence. }
  cbn [or_eval]. rewrite split_at_none.
  2: { eapply Forall_impl; [exact Hhs|]. intros h ([Hop|Hop] & _);
       apply bool_decide_false; congruence. }
  cbn [and_eval]. by destruct (seg_eval _ _ _ _ _ _ _ _ _ _) as [[]|].
Qed.

Lemma hostIsinListX_name_list (env : hl_env) (tab : Z -> option HostList) (ci : ClientInfo)
  (hl : HostList) (q : hl_query) (peer : vaddr) :
  hl_flags hl = 0 -> Forall name_item (hl_List hl) -> scanVdomain (q_cname q) = None ->
  exists hi, hostIsinListX env tab ci hl q peer = Ret hi peer /\
    (0 < hi <->
     last_match (fun h => name_match (h_name h) (map tolower (q_cname q)) (q_alias q))
       (hl_List hl) = Some true) /\ 0 <= hi.
Proof.
  intros Hf Hn Hv. pose proof (hl_loop_means env tab ci
    (VA_hostIsinListX env tab ci (hl_fuel - 1) 1) hl q 0 (hl_List hl) 1 false (vars0 ci hl q peer)
    ltac:(lia)) as [H _].
  rewrite meaning_names, seg_eval_names in H by done.
  unfold hostIsinListX. change hl_fuel with (S (hl_fuel - 1)). cbn [VA_hostIsinListX].
  unfold byauth. rewrite Hf. change (has 0 HL_BYAUTH && bool_decide (q_av q = [])) with false.
  cbv iota. change (0 + 1) with 1.
  destruct (last_match _ (hl_List hl)) as [[|]|]; cbn [default means] in H.
  - destruct H as (hi & -> & Hhi). exists hi. split_and!; [done|split; [done|lia]|lia].
  - rewrite H. exists 0. split_and!; [done|split; [lia|done]|lia].
  - rewrite H. exists 0. split_and!; [done|split; [lia|done]|lia].
Qed.

(** In a list of host names and name patterns the last one that matches
    decides: the list contains the host exactly when that item is not a
    negated one, whatever the short cuts of the interpreter leave out.  Names
    match in either case, [*] stands for any string, [*.dom] also for [dom],
    and a pattern that does not match the name may match the alias. *)
Theorem hostIsinListX_names (env : hl_env) (tab : Z -> option HostList) (ci : ClientInfo)
  (hl : HostList) (q : hl_query) (peer : vaddr) :
  hl_flags hl = 0 -> Forall name_item (hl_List hl) -> scanVdomain (q_cname q) = None ->
  exists hi, hostIsinListX env tab ci hl q peer = Ret hi peer /\
    (0 < hi <->
     last_match (fun h => name_match (h_name h) (map tolower (q_cname q)) (q_alias q))
       (hl_List hl) = Some true) /\ 0 <= hi.
Proof. apply hostIsinListX_name_list. Qed.

Definition name_host (op : hop) (name : list Z) : Host :=
  MkHost false name (Addr F4 F4 F4 F4) (Addr 0 0 0 0) [] None None None [] op 0 None HT_BYHOST.
Definition ex_names : HostList :=
  MkHostList [] [name_host ON_EQ (cs "*.example.com"); name_host OFF_EQ (cs "bad.*");
                 name_host ON_EQ (cs "bad.example.com")] 0 false.

(** An item [-P] puts the port of the client's socket in the place of the
    port that is asked for, and the items behind it compare that one: behind
    [-P8080/.], [www:80] does not contain [www:80]. *)
Definition sock_item : Host :=
  MkHost false (cs "-P8080") (Addr F4 F4 F4 F4) (Addr 0 0 0 0) [] None (Some [cs "8080"]) None []
    ON_EQ 0 None (Z.lor HT_CLIF HT_BYHOST).
Definition port_host : Host :=
  MkHost false (cs "www") (Addr F4 F4 F4 F4) (Addr 0 0 0 0) [] None (Some [cs "80"]) None []
    ON_EQ 0 None HT_BYHOST.
Lemma sock_item_taints :
  let ci := MkClient 0 0 AddrNull (VAddr (Addr 0 0 0 0) 9000 (cs "gate") 0) AddrNull [] false in
  let q := HlQuery None (cs "www") None (VAddr (Addr 0 0 0 0) 80 (cs "www") 0) None [] in
  hostIsinListX env0 (fun _ => None) ci (MkHostList [] [port_host] 0 false) q AddrNull
    = Ret 2 AddrNull /\
  hostIsinListX env0 (fun _ => None) ci (MkHostList [] [sock_item; port_host] 0 false) q AddrNull
    = Ret 0 AddrNull.
Proof. by vm_compute. Qed.

Lemma hostIsinListX_names_witness :
  exists hi, hostIsinListX env0 (fun _ => None) ci0 ex_names
    (HlQuery None (cs "Bad.example.com") None AddrNull None []) AddrNull = Ret hi AddrNull /\ 0 < hi.
Proof.
  destruct (hostIsinListX_names env0 (fun _ => None) ci0 ex_names
    (HlQuery None (cs "Bad.example.com") None AddrNull None []) AddrNull) as (hi & E & H & _).
  - reflexivity.
  - repeat (apply Forall_cons; split); [..|by apply Forall_nil];
      (split_and!; [auto|reflexivity..|simpl; tauto|by compute]).
  - reflexivity.
  - exists hi. split; [exact E|]. apply H. by vm_compute.
Defined.
