(* ===== verification/HostParse.v ===== *)
(** * Host lists: reading ([src/hostlist.cpp])

    [addHostList1] reads one element of a host list, [makeHost] one item of
    it, [addHostListTab] a named list of [HOSTLIST], [makePathListX] the
    lists of other parameters.

    The state holds the host lists by reference, since a list is changed
    while other lists refer to it, and the tables of their names.  A name
    gets its number through the interface [IdTable].  The strings are taken
    to be shorter than the code's buffers, and the vector of a list to grow
    as needed.  [h_route] is written and never read; only the effects of its
    construction are kept.  [None] stands for what the code does not define:
    the use of a string that was not read, reads behind the end of one, and
    stores outside of a table. *)
From S2P Require Import Prelude Strings ScanList Glob StrId HostAddr HostMatch.
From stdpp Require Import gmap.
From stdpp Require Import options.
Local Open Scope Z_scope.

(** What other components answer to the reader. *)
Record hp_env := HpEnv {
  VA_strtoVAddr : list Z -> option addr;
  VSA_strisaddr : list Z -> bool;
  VA_gethostVAddr : list Z -> option (list Z * addr);
  GetHostname : list Z;
  MYSELF : list Z;
  DELEGATE_LOCALNET : list Z
}.
Definition isMYSELF (env : hp_env) (host : list Z) : bool :=
  streq host (MYSELF env) || streq host (cs "-").

(** References to the lists every process has. *)
Definition RLex : nat := 0%nat.
Definition RVirt : nat := 1%nat.
Definition RIdent : nat := 2%nat.

Section state.
Context {T : Type} `{IdTable T}.

Record hp_st := HpSt {
  p_hash : T;                    (** [hostListTab.ht_hash] *)
  p_id : Z;                      (** [ht_id] *)
  p_size : Z;                    (** [ht_size] *)
  p_tab : gmap Z nat;            (** [ht_list] *)
  p_store : list HostList;
  p_predef : list (list Z)       (** names given to [sethostcache_predef] *)
}.

Definition get_list (st : hp_st) (r : nat) : HostList :=
  nth r (p_store st) (MkHostList [] [] 0 false).
Definition set_list (st : hp_st) (r : nat) (hl : HostList) : hp_st :=
  HpSt (p_hash st) (p_id st) (p_size st) (p_tab st) (<[r := hl]> (p_store st)) (p_predef st).
Definition set_flag (hl : HostList) (flag : Z) : HostList :=
  MkHostList (hl_what hl) (hl_List hl) (Z.lor (hl_flags hl) flag) (hl_noIdent hl).
Definition set_items (hl : HostList) (hs : list Host) : HostList :=
  MkHostList (hl_what hl) hs (hl_flags hl) (hl_noIdent hl).
Definition new_list (st : hp_st) (hl : HostList) : hp_st * nat :=
  (HpSt (p_hash st) (p_id st) (p_size st) (p_tab st) (p_store st ++ [hl]) (p_predef st),
   length (p_store st)).
Definition set_predef (st : hp_st) (name : list Z) : hp_st :=
  HpSt (p_hash st) (p_id st) (p_size st) (p_tab st) (p_store st) (p_predef st ++ [name]).
Definition list_id (st : hp_st) (name : list Z) : Z := (it_strid (p_hash st) name (-1)).2.
End state.
Arguments hp_st T : clear implicits.

(** ** Pieces of an item *)

(** [canonWildcardAddr]: one octet up to and with its dot. *)
Fixpoint scan_label (n : nat) (hp : list Z) (isdg : bool) : list Z * bool * list Z :=
  match n, hp with
  | S n', ch :: hp' =>
      if ch =? 46 then ([ch], isdg, hp')
      else let '(b, d, r) := scan_label n' hp' (isdg && isdigit ch) in (ch :: b, d, r)
  | _, _ => ([], isdg, hp)
  end.
Fixpoint canon_loop (fuel : nat) (hp ap : list Z) (noct : Z) : option (list Z * Z) :=
  match fuel with
  | O => None
  | S fuel' =>
      match hp with
      | [] => Some (ap, noct)
      | _ =>
          let '(buff, isdg, hp) := scan_label 127 hp true in
          let next ap := if (4 <=? noct + 1) && bool_decide (hp <> []) then None
                         else canon_loop fuel' hp ap (noct + 1) in
          if (cat buff 0 =? STAR) && ((cat buff 1 =? 0) || (cat buff 1 =? 46))
          then next (ap ++ cs "[0-255]" ++ tl buff)
          else if isdigit (cat buff 0) && isdg
          then let octv := atoi buff in
               if (octv <? 0) || (255 <? octv) then None else next (ap ++ buff)
          else None
      end
  end.
(** The new host name; it is the old one when that is not an address. *)
Definition canonWildcardAddr (hostname : list Z) : list Z :=
  if existsb (Z.eqb STAR) hostname && existsb (Z.eqb 46) hostname
  then match canon_loop (S (length hostname)) hostname [] 0 with
       | Some (addr, noct) => if (2 <=? noct) && (noct <=? 4) then addr else hostname
       | None => hostname
       end
  else hostname.

(** [hostpart]: the users and the hosts at the first [@], unless that is
    behind a slash (a mask). *)
Definition hostpart (hostmask : list Z) : option (list Z * list Z) :=
  match index_of 64 hostmask with
  | None => None
  | Some i =>
      if Nat.eqb i 0 || negb (cat hostmask (Z.of_nat i - 1) =? 47)
      then Some (take i hostmask, drop (S i) hostmask) else None
  end.

(** [sscanf(mp,"%x",&mask.I3)]; 0 is kept when nothing is read. *)
Fixpoint hex_value (acc : Z) (s : list Z) : Z :=
  match s with
  | c :: s' => if isxdigit c then hex_value (acc * 16 + hexval c) s' else acc
  | [] => acc
  end.
Definition scan_x (s : list Z) : Z :=
  let s := skip_spaces s in
  let neg := cat s 0 =? 45 in
  let s := if neg || (cat s 0 =? 43) then tl s else s in
  let s := if (cat s 0 =? 48) && ((cat s 1 =? 120) || (cat s 1 =? 88)) && isxdigit (cat s 2)
           then drop 2 s else s in
  let v := Z.min (2 ^ 64 - 1) (hex_value 0 s) in
  u32 (if neg then - v else v).

(** The prefix [-I/] of an item: the identities that it is matched by. *)
Fixpoint mtype_loop (fuel : nat) (dp : list Z) (mtype : Z) : Z * list Z :=
  match fuel with
  | O => (mtype, dp)
  | S fuel' =>
      match dp with
      | c :: 47 :: dp' =>
          let go bit := mtype_loop fuel' dp' (Z.lor mtype bit) in
          if c =? 42 then go HT_BYANY
          else if c =? 82 then go HT_RIDPEER
          else if c =? 85 then go HT_UNKNOWN
          else if c =? 65 then go HT_BYAGENT
          else if c =? 97 then go HT_BYAUTH
          else if c =? 99 then go HT_BYCERT
          else if c =? 104 then go HT_BYHOST
          else (mtype, dp)
      | _ => (mtype, dp)
      end
  end.

(** The mask behind the slash. *)
Definition parse_mask (env : hp_env) (host mp : list Z) : option addr :=
  let mask i3 := Addr (I0 MaskZero) (I1 MaskZero) (I2 MaskZero) i3 in
  if TimePeriod host then Some (mask (u32 (atoi mp)))
  else if negb (isnetmasklen mp =? 0) then Some (mask (netmask_of_len (isnetmasklen mp)))
  else if streq mp (cs ".") then Some (mask HEURISTIC_MASK)
  else if existsb (Z.eqb 46) mp || VSA_strisaddr env mp
  then Some (default (a_ints AddrNull) (VA_strtoVAddr env mp))
  else if cat mp 0 =? 64
  then if cat mp 1 =? 0 then None
       else
         let mask1 := if cat mp 1 =? 65 then 4278190080
                      else if cat mp 1 =? 66 then 4294901760
                      else if cat mp 1 =? 67 then 4294967040 else CLASS_MASK in
         let submask := atoi (drop 2 mp) in
         (* a shift by 32 or more, or by a negative number, is not defined *)
         if (submask <? 0) || (32 <=? submask) then None
         else Some (mask (Z.shiftr mask1 submask))
  else Some (mask (scan_x mp)).

(** The elements of a comma list, as [addStrVec1] and [addUSER1] collect them
    (at most 128). *)
Definition addStrVec1 (mac : Z) (sv : list (list Z)) (str : list Z) (_ : option (list Z))
  : list (list Z) * Z :=
  if mac <=? zlen sv then (sv, -1) else (sv ++ [str], 0).
Definition comma_vec (list : list Z) : option (List.list (List.list Z)) :=
  (fun r => r.1.1) <$> scan_ListX (addStrVec1 128) false false list COMMA [].

(** [Strins(hostnameb+2,"*:")] of a bare [-Pnum]. *)
Definition fix_clif (name : list Z) : list Z :=
  if HostIncomingIFX name && bool_decide (drop 2 name <> []) &&
     negb (existsb (Z.eqb 58) (drop 2 name))
  then take 2 name ++ cs "*:" ++ drop 2 name else name.

(** The ports behind [:] or [..]. *)
Definition split_ports (name : list Z) : list Z * option (list Z) :=
  match index_of 58 name with
  | Some i => (take i name, Some (drop (S i) name))
  | None =>
      match strstr name (cs "..") with
      | Some dp =>
          if isdigit (cat dp 2) || (cat dp 2 =? LBRACE)
          then (take (length name - length dp) name, Some (drop 2 dp))
          else (name, None)
      | None => (name, None)
      end
  end.

(** [_4.] and [_6.] in front of a name. *)
Definition split_family (name : list Z) : Z * list Z :=
  if (cat name 0 =? 95) && ((cat name 1 =? 52) || (cat name 1 =? 54))
     && ((cat name 2 =? 46) || (cat name 2 =? 0))
  then (if cat name 1 =? 52 then HT_IPV4 else HT_IPV6,
        if cat name 2 =? 0 then [STAR] else drop 3 name)
  else (0, name).

(** The users of an item: the text before [@] or in the braces. *)
Definition users_text (name : list Z) (i : nat) : list Z :=
  if cat name 0 =? LBRACE
  then let users := tl name in
       match index_of RBRACE users with
       | Some j => take j users
       | None => take (i - 1) users
       end
  else take i name.

(** [Xsscanf(hostmask,"%[^:]://%s",proto,hostmaskb)]: the protocol and the
    item; [hostmaskb] is not set when the scan does not reach it. *)
Fixpoint until_space (s : list Z) : list Z :=
  match s with
  | c :: s' => if isspace c then [] else c :: until_space s'
  | [] => []
  end.
Definition split_proto (hostmask : list Z) : option (list Z * list Z) :=
  match strstr hostmask (cs "://") with
  | None => Some ([], hostmask)
  | Some _ =>
      match index_of 58 hostmask with
      | Some (S i) =>
          let r := drop (S i) hostmask in
          let hostmaskb := until_space (skip_spaces (drop 3 r)) in
          if is_prefix (cs "://") r && bool_decide (hostmaskb <> [])
          then Some (take (S i) hostmask, hostmaskb) else None
      | _ => None
      end
  end.

(** A vector [pv[128]] that is closed with a null pointer. *)
Definition vec128 (list : list Z) : option (List.list (List.list Z)) :=
  match comma_vec list with
  | Some v => if zlen v <? 128 then Some v else None
  | None => None
  end.

(** Assignments to the fields of a [Host]. *)
Definition put_name (h : Host) (name : list Z) : Host :=
  MkHost (h_asis h) name (h_mask h) (h_Addr h) (h_ranges h) (h_proto h) (h_port h) (h_user h)
    (h_userRexp h) (h_op h) (h_listid h) (h_vdomain h) (h_type h).
Definition put_op (h : Host) (op : hop) : Host :=
  MkHost (h_asis h) (h_name h) (h_mask h) (h_Addr h) (h_ranges h) (h_proto h) (h_port h)
    (h_user h) (h_userRexp h) op (h_listid h) (h_vdomain h) (h_type h).
Definition put_type (h : Host) (bits : Z) : Host :=
  MkHost (h_asis h) (h_name h) (h_mask h) (h_Addr h) (h_ranges h) (h_proto h) (h_port h)
    (h_user h) (h_userRexp h) (h_op h) (h_listid h) (h_vdomain h) (Z.lor (h_type h) bits).
Definition put_mask (h : Host) (mask : addr) : Host :=
  MkHost (h_asis h) (h_name h) mask (h_Addr h) (h_ranges h) (h_proto h) (h_port h) (h_user h)
    (h_userRexp h) (h_op h) (h_listid h) (h_vdomain h) (h_type h).
Definition put_addr (h : Host) (a : addr) : Host :=
  MkHost (h_asis h) (h_name h) (h_mask h) a (h_ranges h) (h_proto h) (h_port h) (h_user h)
    (h_userRexp h) (h_op h) (h_listid h) (h_vdomain h) (h_type h).
Definition put_users (h : Host) (users : list (list Z)) : Host :=
  MkHost (h_asis h) (h_name h) (h_mask h) (h_Addr h) (h_ranges h) (h_proto h) (h_port h)
    (Some users) (makeUserRexp users) (h_op h) (h_listid h) (h_vdomain h) (h_type h).
Definition put_port (h : Host) (v : list (list Z)) : Host :=
  MkHost (h_asis h) (h_name h) (h_mask h) (h_Addr h) (h_ranges h) (h_proto h) (Some v) (h_user h)
    (h_userRexp h) (h_op h) (h_listid h) (h_vdomain h) (h_type h).
Definition put_proto (h : Host) (v : list (list Z)) : Host :=
  MkHost (h_asis h) (h_name h) (h_mask h) (h_Addr h) (h_ranges h) (Some v) (h_port h) (h_user h)
    (h_userRexp h) (h_op h) (h_listid h) (h_vdomain h) (h_type h).
Definition put_listid (h : Host) (id : Z) : Host :=
  MkHost (h_asis h) (h_name h) (h_mask h) (h_Addr h) (h_ranges h) (h_proto h) (h_port h)
    (h_user h) (h_userRexp h) (h_op h) id (h_vdomain h) (h_type h).
Definition put_asis (h : Host) : Host :=
  MkHost true (h_name h) (h_mask h) (h_Addr h) (h_ranges h) (h_proto h) (h_port h)
    (h_user h) (h_userRexp h) (h_op h) (h_listid h) (h_vdomain h) (h_type h).
Definition put_ranges (h : Host) (r : list (Z * Z)) : Host :=
  MkHost (h_asis h) (h_name h) (h_mask h) (h_Addr h) r (h_proto h) (h_port h)
    (h_user h) (h_userRexp h) (h_op h) (h_listid h) (h_vdomain h) (h_type h).
Definition put_vdomain (h : Host) (vdom : option (list Z)) : Host :=
  MkHost (h_asis h) (h_name h) (h_mask h) (h_Addr h) (h_ranges h) (h_proto h) (h_port h)
    (h_user h) (h_userRexp h) (h_op h) (h_listid h) vdom (h_type h).

(** The operator in front of an item, [!!] being nothing. *)
Definition split_op (hostmask : list Z) : hop * list Z :=
  let hostmask := if (cat hostmask 0 =? 33) && (cat hostmask 1 =? 33) then drop 2 hostmask
                  else hostmask in
  if cat hostmask 0 =? 33 then (OFF_EQ, tl hostmask)
  else (ON_EQ, if cat hostmask 0 =? 43 then tl hostmask else hostmask).

(** The users of an item, and the rest of its name; [None] outside when
    there are none. *)
Definition split_users (name : list Z) : option (option (list (list Z) * list Z)) :=
  match index_of 64 name with
  | None => Some None
  | Some i => match vec128 (users_text name i) with
              | Some uv => Some (Some (uv, drop (S i) name))
              | None => None
              end
  end.

(** ** One item *)
Section reader.
Context {T : Type} `{IdTable T} (env : hp_env).
(** [addHostList1] on the list with a reference. *)
Variable rec : nat -> list Z -> hp_st T -> option (hp_st T).

(** [scan_commaList] and [scan_commaListL] with it. *)
Definition rec_elem (r : nat) (a : option (hp_st T)) (elem : list Z) (_ : option (list Z))
  : option (hp_st T) * Z :=
  (a ≫= rec r elem, 0).
Definition scan_commaList (list : list Z) (r : nat) (st : hp_st T) : option (hp_st T) :=
  res ← scan_ListX (rec_elem r) true false list COMMA (Some st); res.1.1.
Definition scan_commaListL (list : list Z) (r : nat) (st : hp_st T) : option (hp_st T) :=
  res ← scan_ListLX (rec_elem r) true false list COMMA (Some st); res.1.1.

(** *** The table of named lists *)

(** The names of the lists [li..ht_size-1] into the new hash table. *)
Fixpoint rehash_loop (n : nat) (li : Z) (st : hp_st T) (hash : T) : option T :=
  match n with
  | O => Some hash
  | S n' =>
      r ← p_tab st !! li;
      rehash_loop n' (li + 1) st (it_strid hash (hl_what (get_list st r)) li).1
  end.
Definition resize_hostlisttab (st : hp_st T) : option (hp_st T) :=
  let newsize := if p_size st =? 0 then 16 else p_size st * 2 in
  hash ← rehash_loop (Z.to_nat (p_size st - 1)) 1 st (it_create (newsize * 2));
  Some (HpSt hash (p_id st) newsize (p_tab st) (p_store st) (p_predef st)).

(** [ht_list[listid] = HL] under a new number; outside of the table for
    [None]. *)
Definition put_listtab (st : hp_st T) (aname : list Z) (r : nat) : option (hp_st T) :=
  let listid := p_id st in
  if listid <? p_size st
  then Some (HpSt (it_strid (p_hash st) aname listid).1 (p_id st) (p_size st)
               (<[listid := r]> (p_tab st)) (p_store st) (p_predef st))
  else None.
Definition next_id (st : hp_st T) : hp_st T :=
  HpSt (p_hash st) (p_id st + 1) (p_size st) (p_tab st) (p_store st) (p_predef st).
Definition putHostListTab (aname : list Z) (r : nat) (st : hp_st T) : option (hp_st T) :=
  if list_id st aname <? 0 then put_listtab (next_id st) aname r else Some st.

(** The letters behind the slash of a list's name. *)
Definition name_flags (aflags : list Z) (noresolv : bool) : Z :=
  let f c bit := if strchr aflags c then bit else 0 in
  Z.lor (f 112 HL_PROTECT) (Z.lor (f 99 HL_BYCLHOST) (Z.lor (f 105 HL_NOIDENT)
    (Z.lor (if strchr aflags 114 || noresolv then HL_NORESOLV else 0)
    (Z.lor (f 97 HL_BYADDR) (Z.lor (f 117 HL_BYAUTH) (f 65 HL_BYAGENT)))))).
(** The name, the letters and the leading dash of [dname]. *)
Definition split_dname (dname : list Z) : list Z * list Z * bool :=
  let noresolv := cat dname 0 =? 45 in
  let dname := if noresolv then tl dname else dname in
  match index_of 47 dname with
  | Some i => ((wordscan dname 64 (cs "^/")).1, drop (S i) dname, noresolv)
  | None => (dname, [], noresolv)
  end.

Definition addHostListTab (dname dhostlist : list Z) (st : hp_st T) : option (hp_st T) :=
  let '(aname, aflags, noresolv) := split_dname dname in
  let apptype := strchr aflags 43 in
  let applist := is_prefix (cs "+,") dhostlist in
  let ahostlist := if applist then drop 2 dhostlist else dhostlist in
  let listid := list_id st aname in
  '(st, r) ←
    (if 0 <? listid
     then
       r ← p_tab st !! listid;
       let HL := get_list st r in
       Some (if has (hl_flags HL) HL_PROTECT then (st, r)
             else if has (hl_flags HL) HL_APPEND || apptype || applist then (st, r)
             else (set_list st r (MkHostList (hl_what HL) [] (hl_flags HL) false), r))
     else
       let st := next_id st in
       st ← (if p_size st <=? p_id st then resize_hostlisttab st else Some st);
       let '(st, r) := new_list st (MkHostList aname [] (if apptype then HL_APPEND else 0) false) in
       st ← put_listtab st aname r;
       Some (st, r));
  let st := set_list st r (set_flag (get_list st r) (name_flags aflags noresolv)) in
  scan_commaListL ahostlist r st.

(** The table is there when it has a size. *)
Definition init_hostListTab (st : hp_st T) : option (hp_st T) :=
  if p_size st =? 0
  then
    st ← resize_hostlisttab st;
    st ← addHostListTab (cs ".localnet") (DELEGATE_LOCALNET env) st;
    st ← addHostListTab (cs ".RELIABLE") (cs "*") st;
    addHostListTab (cs ".socksdst") (cs "!.localnet") st
  else Some st.

(** [enableClientIdent] ([src/master.cpp]), on [IdentHosts]. *)
Definition enableClientIdent (host : list Z) (st : hp_st T) : option (hp_st T) :=
  scan_commaList host RIdent st.

(** What kind of name the item has: the chain of conditions at the end of
    [makeHost]. *)
Definition classify (r : nat) (h : Host) (name : list Z) (st : hp_st T)
  : option (hp_st T * Host) :=
  let listid := list_id st name in
  let byname := has (hl_flags (get_list st r)) HL_BYNAMEONLY in
  let virt st := if Nat.eqb r RVirt then Some st else rec RVirt name st in
  if strneq name (cs "--expire.") 9 then Some (st, put_name h name)
  else if 0 <? listid then Some (st, put_name (put_listid h listid) name)
  else if HostOnClientside name then Some (st, put_name h name)
  else if HostIncomingIFX name
  then let name := drop 2 name in
       let h := put_type h HT_CLIF in
       let h := if existsb (Z.eqb STAR) name then h
                else match VA_strtoVAddr env name with Some a => put_addr h a | None => h end in
       Some (st, put_name h name)
  else if HostIncomingIF name || HostOutgoingIF name || TimePeriod name
  then Some (st, put_name h name)
  else if (cat name 0 =? 45) && negb (isMYSELF env name)
  then
    match VA_strtoVAddr env (tl name) with
    | Some a => Some (st, put_name (put_addr h a) name)
    | None =>
        let h := put_asis h in
        let stripped := tl name in
        if byname
        then st ← (if Nat.eqb r RVirt then Some st else rec RVirt stripped st);
             Some (st, put_name h stripped)
        else
          st ← (if Nat.eqb r RLex then Some st else rec RLex name st);
          let st := if existsb (Z.eqb STAR) stripped then st
                    else match VA_gethostVAddr env stripped with
                         | Some _ => st
                         | None => set_predef st stripped
                         end in
          Some (st, put_name h stripped)
    end
  else if (cat name 0 =? 95) && (cat name 1 =? 95)
  then Some (st, put_name (put_type h HT_BYFILE) (drop 2 name))
  else if existsb (Z.eqb 91) name
  then Some (st, put_name (put_ranges h (scan_addrrange name).1) name)
  else if existsb (Z.eqb STAR) name || streq name (cs "?") then Some (st, put_name h name)
  else if bool_decide (strtailstr name (cs ".-") <> None) then Some (st, put_name h name)
  else if byname
  then st ← virt st; Some (st, put_name (put_asis h) name)
  else match VA_gethostVAddr env name with
       | None => Some (st, put_name h name)
       | Some (primary, a) =>
           let name := if bool_decide (primary <> []) then primary else name in
           let h := put_addr h a in
           Some (st, put_name (put_mask h (default_netmask (h_mask h) a).1) name)
       end.

(** From the users of the item on; [h] has its operator, the types given
    with [-I/] and its mask. *)
Definition makeHost_name (r : nat) (proto : list Z) (vdom : option (list Z)) (h : Host)
  (hostname : list Z) (st : hp_st T) : option (hp_st T * Host) :=
  u ← split_users hostname;
  '(h, hostname, st) ←
    (match u with
     | None => Some (h, hostname, st)
     | Some (uv, hostname) =>
         let h := put_users h uv in
         let neg := cat hostname 0 =? 33 in
         st ← (if (negb (has (h_type h) HT_BYANY) || has (h_type h) HT_BYHOST)
                  && negb (hl_noIdent (get_list st r)) && negb neg
               then enableClientIdent hostname st else Some st);
         Some (if neg
               then (put_op h (if bool_decide (h_op h = ON_EQ) then OFF_EQ else ON_EQ),
                     tl hostname, st)
               else (h, hostname, st))
     end);
  let h := if has (h_type h) HT_BYANY then h
           else put_type h (match h_user h with None => HT_BYHOST | Some _ => HT_BYANY end) in
  let hostname := fix_clif hostname in
  let '(hostname, ports) := split_ports hostname in
  h ← (match ports with
       | Some p => pv ← vec128 p; Some (put_port h pv)
       | None => Some h
       end);
  h ← (if bool_decide (proto <> []) then pv ← vec128 proto; Some (put_proto h pv)
       else Some h);
  let hostname := canonWildcardAddr hostname in
  let '(family, hostname) := split_family hostname in
  '(st, h) ← classify r (put_type h family) hostname st;
  Some (st, put_vdomain h vdom).

(** From the operators on. *)
Definition makeHost_item (r : nat) (proto hostmask : list Z) (st : hp_st T)
  : option (hp_st T * Host) :=
  if streq hostmask (cs "&") then Some (st, put_op NewHost OP_AND)
  else if streq hostmask (cs "|") then Some (st, put_op NewHost OP_OR)
  else if streq hostmask (cs "!") then Some (st, put_op NewHost OP_NEG)
  else
    let '(op, hostmask) := split_op hostmask in
    let h := put_op NewHost op in
    let '(hostmask, vdom) := match scanVdomain hostmask with
                             | Some (pre, vdom) => (pre, Some vdom)
                             | None => (hostmask, None)
                             end in
    let '(mtype, dp) := if cat hostmask 0 =? 45
                        then mtype_loop (length hostmask) (tl hostmask) 0 else (0, hostmask) in
    let hostmask := if mtype =? 0 then hostmask else dp in
    let h := put_type h mtype in
    if has (hl_flags (get_list st r)) HL_BYAGENT || has (h_type h) HT_BYAGENT
    then Some (st, put_name h hostmask)
    else
      '(hostmask, mask) ←
        (match index_of 47 hostmask with
         | Some i => let host := take i hostmask in
                     m ← parse_mask env host (drop (S i) hostmask); Some (host, m)
         | None => Some (hostmask, Addr F4 F4 F4 F4)
         end);
      let hostname := if streq hostmask (cs ".") then GetHostname env else hostmask in
      makeHost_name r proto vdom (put_mask h mask) hostname st.

(** The route behind [//] is made first, by itself; [fuel] bounds the
    number of routes. *)
Fixpoint makeHost (fuel : nat) (r : nat) (hostmask : list Z) (st : hp_st T)
  : option (hp_st T * Host) :=
  match fuel with
  | O => None
  | S fuel' =>
      st ← init_hostListTab st;
      '(proto, hostmask) ← split_proto hostmask;
      match strstr hostmask (cs "//") with
      | Some route =>
          '(st, _) ← makeHost fuel' r (drop 2 route) st;
          makeHost_item r proto (take (length hostmask - length route) hostmask) st
      | None => makeHost_item r proto hostmask st
      end
  end.

(** ** One element of a list *)

(** [addHL]: an item with a list of hosts in braces stands for as many
    items; [None] is the pointer moved behind an empty string. *)
Definition addHL (hostmask : list Z) (r : nat) (st : hp_st T) : option (hp_st T * bool) :=
  if bool_decide (hostmask = []) then None
  else
    let '(op, list) := if strchr (cs "+!-?") (cat hostmask 0)
                       then (cat hostmask 0, tl hostmask) else (43, hostmask) in
    let '(users, hosts) := match hostpart list with
                           | Some (u, h) => (Some u, h)
                           | None => (None, list)
                           end in
    if negb (cat hosts 0 =? LBRACE) then Some (st, false)
    else if negb (strtailchr hosts =? RBRACE) then Some (st, false)
    else
      let addHL1 (hostmask : List.list Z) :=
        match users with
        | Some u => op :: u ++ 64 :: hostmask
        | None => op :: hostmask
        end in
      res ← scan_ListLX (fun a elem _ => (a ≫= rec r (addHL1 elem), 0)) true false hosts
              COMMA (Some st);
      st ← res.1.1;
      Some (st, true).

Definition addHostList1_step (hostmask : list Z) (r : nat) (st : hp_st T)
  : option (hp_st T) :=
  let hl := get_list st r in
  if streq hostmask (cs "/a") then Some (set_list st r (set_flag hl HL_BYADDR))
  else if streq hostmask (cs "/u") then Some (set_list st r (set_flag hl HL_BYAUTH))
  else if streq hostmask (cs "/R") then Some (set_list st r (set_flag hl HL_XRANDOM))
  else
    let hostmask := if is_prefix (cs "!!") hostmask then drop 2 hostmask else hostmask in
    let hostmask := if is_prefix (cs "+!") hostmask then tl hostmask else hostmask in
    '(st, done) ← addHL hostmask r st;
    if (done : bool) then Some st
    else
      st ← (if bool_decide (hl_List (get_list st r) = []) && (cat hostmask 0 =? 33)
               && negb (streq hostmask (cs "!*"))
            then rec r (cs "*") st else Some st);
      (* the new item is in the list while it is made *)
      let idx := length (hl_List (get_list st r)) in
      let st := set_list st r
                  (set_items (get_list st r) (hl_List (get_list st r) ++ [NewHost])) in
      '(st, h) ← makeHost (S (length hostmask)) r hostmask st;
      Some (set_list st r (set_items (get_list st r) (<[idx := h]> (hl_List (get_list st r))))).
End reader.

(** Elements make other elements: the lists in braces, the hosts whose
    clients are asked for their identity, the names kept in [lexHosts] and
    [virtualHosts].  [fuel] bounds the depth of that. *)
Fixpoint addHostList1 {T} `{IdTable T} (env : hp_env) (fuel : nat) (r : nat)
  (hostmask : list Z) (st : hp_st T) : option (hp_st T) :=
  match fuel with
  | O => None
  | S fuel' => addHostList1_step env (addHostList1 env fuel') hostmask r st
  end.

(** ** The parameters *)
Section params.
Context {T : Type} `{IdTable T} (env : hp_env) (fuel : nat).

(** [NewStruct(HostListEnv)] with its two lists, and a new [IdentHosts].
    There is no table yet, and its hash is not looked at before there is. *)
Definition minit_hostlist : hp_st T :=
  HpSt (it_create 1) 0 0 ∅
    [MkHostList (cs "LexHosts") [] 0 false;
     MkHostList (cs "virtualHosts") [] HL_BYNAMEONLY false;
     MkHostList [] [] 0 false] [].

(** [HOSTLIST=name:list]. *)
Definition scan_HOSTLIST (listdef : list Z) (st : hp_st T) : option (hp_st T) :=
  match index_of 58 listdef with
  | None => Some st
  | Some i =>
      st ← init_hostListTab env (addHostList1 env fuel) st;
      addHostListTab (addHostList1 env fuel) (wordscan listdef 32 (cs "^:")).1
        (drop (S i) listdef) st
  end.

(** [makePathListX]: the lists of other parameters, found again by their
    text and options. *)
Record PathList := MkPath { pl_path : list Z; pl_opts : list Z; pl_hlist : nat }.
Fixpoint find_path (hi : Z) (pls : list PathList) (path opts : list Z) : option Z :=
  match pls with
  | [] => None
  | pl :: pls' => if streq path (pl_path pl) && streq opts (pl_opts pl) then Some (hi + 1)
                  else find_path (hi + 1) pls' path opts
  end.
Definition makePathListX (what path opts : list Z) (pls : list PathList) (st : hp_st T)
  : option (list PathList * hp_st T * Z) :=
  match find_path 0 pls path opts with
  | Some hi => Some (pls, st, hi)
  | None =>
      let '(st, r) := new_list st
        (MkHostList what [] (if strchr opts 110 then HL_BYNAMEONLY else 0) false) in
      st ← scan_commaListL (addHostList1 env fuel) path r st;
      Some (pls ++ [MkPath path opts r], st, zlen pls + 1)
  end.
Definition makePathList (what path : list Z) (pls : list PathList) (st : hp_st T) :=
  makePathListX what path [] pls st.

(** [getHostInList]: the name, address and port of entry [hi] of a list;
    the random base [hl_base] is an argument.  [None] is a read outside of
    the list. *)
Definition getHostInList (pls : list PathList) (st : hp_st T) (hl_base hlid hi : Z)
  : option (Z * option (list Z * addr * Z)) :=
  if (hlid <? 1) || (zlen pls <? hlid) then Some (-1, None)
  else
    pl ← pls !! Z.to_nat (hlid - 1);
    let HL := get_list st (pl_hlist pl) in
    if (hi <? 0) || (hl_cnt HL <? hi) then Some (-1, None)
    else
      if has (hl_flags HL) HL_XRANDOM && (hl_cnt HL =? 0) then None
      else
        let ix := if has (hl_flags HL) HL_XRANDOM then (hi + hl_base) mod hl_cnt HL else hi in
        Hp ← hl_List HL !! Z.to_nat ix;
        Some (0, Some (h_name Hp, h_Addr Hp,
                       match h_port Hp with Some (p :: _) => atoi p | _ => 0 end)).
Definition getHostListSize (pls : list PathList) (st : hp_st T) (hlid : Z) : option Z :=
  if (hlid <? 1) || (zlen pls <? hlid) then Some (-1)
  else pl ← pls !! Z.to_nat (hlid - 1); Some (hl_cnt (get_list st (pl_hlist pl))).
End params.

(** ** Asking *)
Section ask.
Context {T : Type} `{IdTable T} (henv : hl_env) (env : hp_env) (ci : ClientInfo).

(** [hostListTab.ht_list[id]]. *)
Definition tab_of (st : hp_st T) (id : Z) : option HostList := get_list st <$> p_tab st !! id.

(** [CTX_hostIsinListX], without the [-EHa] option: the query about a host
    given by its name. *)
Definition ask_query (hl : HostList) (proto : option (list Z)) (hostname : list Z)
  (portnum : Z) (username : option (list Z)) (av : list AuthInfo) : hl_query :=
  let vdom := scanVdomain hostname in
  let rhostname := match vdom with Some (pre, _) => pre | None => hostname end in
  let with_addr (a : addr) :=
    VAddr a (portnum mod 2 ^ 16) [] 0 in
  let va name := default (a_ints AddrNull) (VA_strtoVAddr env name) in
  if (cat hostname 0 =? 45) && negb (isMYSELF env hostname)
  then HlQuery proto (tl hostname) (Some (tl hostname)) (with_addr (va (tl hostname))) username av
  else if has (hl_flags hl) HL_BYNAMEONLY && negb (isMYSELF env hostname)
  then HlQuery proto hostname (Some hostname) (with_addr (va hostname)) username av
  else
    let '(primary, a) := default ([], a_ints AddrNull) (VA_gethostVAddr env rhostname) in
    let a := if has (hl_flags hl) HL_BYADDR then default a (VA_strtoVAddr env rhostname) else a in
    let hostname := if bool_decide (primary <> [])
                    then primary ++ match vdom with Some (_, v) => v | None => [] end
                    else hostname in
    HlQuery proto hostname (Some rhostname) (with_addr a) username av.
Definition CTX_hostIsinListX (hl : HostList) (proto : option (list Z)) (hostname : list Z)
  (portnum : Z) (username : option (list Z)) (av : list AuthInfo) (st : hp_st T)
  (peer : vaddr) : hl_res :=
  hostIsinListX henv (tab_of st) ci hl (ask_query hl proto hostname portnum username av) peer.
Definition hostIsinList (hl : HostList) (proto : option (list Z)) (hostname : list Z)
  (portnum : Z) (username : option (list Z)) (st : hp_st T) (peer : vaddr) : hl_res :=
  CTX_hostIsinListX hl proto hostname portnum username [] st peer.

Definition isinHOSTLIST (lname : list Z) (proto : option (list Z)) (host : list Z) (port : Z)
  (user : option (list Z)) (st : hp_st T) (peer : vaddr) : hl_res :=
  let listid := list_id st lname in
  if 0 <? listid
  then match tab_of st listid with
       | Some HL => hostIsinList HL proto host port user st peer
       | None => NullDeref
       end
  else Ret (-1) peer.

Definition matchPath1 (pls : list PathList) (hlid : Z) (user : option (list Z))
  (host : list Z) (port : Z) (st : hp_st T) (peer : vaddr) : hl_res :=
  if (hlid <? 1) || (zlen pls <? hlid) then Ret 0 peer
  else match pls !! Z.to_nat (hlid - 1) with
       | None => NullDeref
       | Some pl => hostIsinList (get_list st (pl_hlist pl)) (Some [STAR]) host port user st peer
       end.

(** [VA_hostIsinList] on a bare name, as [hostcmp_lexical] asks it. *)
Definition name_in (r : nat) (h : list Z) (st : hp_st T) (peer : vaddr) : hl_res :=
  hostIsinListX henv (tab_of st) ci (get_list st r)
    (HlQuery (Some [STAR]) h (Some h) AddrNull (Some []) []) peer.
(** Are two hosts to be compared by their text? *)
Definition or_else (a : hl_res) (b : vaddr -> hl_res) : hl_res :=
  match a with Ret 0 peer => b peer | _ => a end.
Definition lexical_hosts (h1 h2 : list Z) (st : hp_st T) (peer : vaddr) : hl_res :=
  or_else
    (if hl_cnt (get_list st RVirt) =? 0 then Ret 0 peer
     else or_else (name_in RVirt h1 st peer) (name_in RVirt h2 st))
    (fun peer => or_else (name_in RLex h1 st peer) (name_in RLex h2 st)).
(** [hostcmp_lexical(h1,h2) == 0]; [hostcmp] and [hostcmp_incache] are
    [cmp]. *)
Definition hostcmp_lexical (cmp : list Z -> list Z -> bool) (h1 h2 : list Z) (st : hp_st T)
  (peer : vaddr) : option (bool * vaddr) :=
  match lexical_hosts h1 h2 st peer with
  | Ret 0 peer => Some (cmp h1 h2, peer)
  | Ret _ peer => Some (strcasecmp_eq h1 h2, peer)
  | _ => None
  end.

Definition hostListIsAny (hl : HostList) : bool :=
  match hl_List hl with
  | [Hp] => streq (h_name Hp) [STAR]
  | _ => false
  end.
End ask.
