(* ===== verification/Mount.v ===== *)
(** * [MOUNT]: the table of rewriting rules ([src/mount.cpp])

    A rule maps virtual URLs to real ones and back.  Here are its data, the
    reader of its parameter with its options, and the order of the table;
    [MountInit] compiles the rules, [MountTo] and [MountFrom] apply them.

    A null pointer is [None].  The fields of [Url] that are set when the rule
    is compiled are in [UrlCom].  The cells of [u_condList], unions in the
    code, are of the types [cval].  Texts are modelled without the sizes of the
    buffers (1024 characters) they are copied through, and log lines are left
    out.  The threads' mutual exclusion and the dumps are not modelled. *)
From S2P Require Import Prelude Strings ScanList ListOps UrlEsc Service UvFmt Url Bsort.
From S2P Require Import StrId HostMatch HostParse.
From Stdlib Require Import QArith.
From stdpp Require Import options gmap.
#[local] Open Scope Z_scope.

Definition MTAB_SIZE : Z := 256.
Definition ASIS : list Z := cs "=".
Definition ORIGDST_HOST : list Z := cs "odst.-".

Definition C_CLHOST : Z := 0x1.
Definition C_CLFROM : Z := 0x2.
Definition C_CLVIA : Z := 0x4.
Definition C_CLPATH : Z := 0x8.
Definition C_CLAUTH : Z := 0x10.
Definition C_CLCONDS : Z := 0x1F.
Definition C_METHOD : Z := 0x20.
Definition C_WITHQUERY : Z := 0x40.
Definition C_ASPROXY : Z := 0x80.
Definition C_DIRECTION : Z := 0x100.
Definition C_DSTPROTO : Z := 0x200.
Definition C_QHOST : Z := 0x400.
Definition C_RHOST : Z := 0x800.
Definition C_DSTHOST : Z := Z.lor C_QHOST C_RHOST.
Definition C_DEFAULT : Z := 0x1000.
Definition C_VHOST : Z := 0x2000.
Definition C_REQMATCH : Z := 0x4000.
Definition C_NOCASE : Z := 0x8000.
Definition C_FILEIS : Z := 0x10000.
Definition C_WITH_SSL : Z := 0x20000.
Definition C_UDST : Z := 0x00400000.
Definition C_ALL : Z := 0x43FFFF.

Definition U_MOUNT : Z := 0x80000000.
Definition U_MOVED_TO : Z := 0x40000000.
Definition U_USE_PROXY : Z := 0x20000000.
Definition U_RECURSIVE : Z := 0x10000000.
Definition U_DISPPORT : Z := 0x08000000.
Definition U_PORTMAP : Z := 0x04000000.
Definition U_RESOLV : Z := 0x02000000.
Definition U_MYFILE : Z := 0x01000000.
Definition U_MYBASE : Z := 0x00800000.
Definition U_AGAIN : Z := 0x00200000.
Definition U_PRIORITY : Z := 0x00100000.
Definition U_WHERE : Z := 0x00080000.
Definition U_ON_ERROR : Z := 0x00040000.
Definition U_ALL : Z := 0xFFFC0000.

Definition VSERV_NVSERV : Z := 1.
Definition VSERV_RSERV : Z := 2.
Definition VSERV_AUTO : Z := 4.
Definition VSERV_BYNAME : Z := 7.
Definition VSERV_BYANY : Z := 8.
Definition VSERV_AVSERV : Z := 8.
Definition VSERV_THRU : Z := 16.
Definition VSERV_ORIGDST : Z := 32.
Definition VHOST_BYNAME : Z := 1.
Definition VHOST_ORIGDST : Z := 2.
Definition VHOST_AVHOST : Z := 4.
Definition VHOST_TLSSNI : Z := 8.

Definition DH_VHOST : Z := 1.
Definition DH_VPORT : Z := 2.
Definition DH_VHOSTPORT : Z := 3.
Definition DH_IHOST : Z := 4.
Definition DH_IPORT : Z := 8.
Definition DH_IHOSTPORT : Z := 12.
Definition DH_PHOST : Z := 16.
Definition DIRMATCH : Z := 2.

(** The cells of [u_condList]. *)
Definition L_VIA : Z := 1.
Definition L_PATH : Z := 2.
Definition L_CLIF : Z := 3.
Definition L_FROM : Z := 4.
Definition L_DST : Z := 5.
Definition L_VHOST : Z := 6.
Definition R_REQMATCH : Z := 7.
Definition S_USEPROXY : Z := 9.
Definition S_METHOD : Z := 10.
Definition S_DSTPROTO : Z := 11.
Definition L_AUTH : Z := 12.
Definition S_MYBASE : Z := 14.
Definition L_UDST : Z := 15.
Definition S_ON_ERROR : Z := 16.
Definition ENUMBASE : Z := 17.
Definition N_DIRECTION : Z := 17.
Definition N_MOVED_TO : Z := 18.
Definition N_WITH_SSL : Z := 19.
Definition N_WHERE : Z := 20.

Definition D_FORWONLY : Z := 1.
Definition D_BACKONLY : Z := 2.
Definition D_BACKIFFORW : Z := 3.
Definition W_ANY : Z := 0xFF.
Definition W_REQUEST : Z := 0x0F.
Definition W_REQURL : Z := 0x01.
Definition W_REFERER : Z := 0x02.
Definition W_REQVIA : Z := 0x04.
Definition W_COOKIE : Z := 0x08.
Definition W_RESPONSE : Z := 0xF0.
Definition W_LOCATION : Z := 0x10.
Definition S_WITHCL : Z := 1.
Definition S_WITHSV : Z := 2.
Definition S_WITHOUTCL : Z := 4.
Definition S_WITHOUTSV : Z := 8.

(** ** Rules *)
Record UrlCom := MkUrlCom {
  u_asis : bool;
  u_any : bool;
  u_emptysite : bool;
  u_path2site : bool;
  u_prefix : list Z;
  u_proto : option (list Z);
  u_userpass : list Z;
  u_user : list Z;
  u_pass : list Z;
  u_hostList : Z;
  u_hostn : option (list Z);
  u_hosta : option (list Z);
  u_iport : Z;
  u_stdport : Z;
  u_portmap : option (list Z);
  u_path : option (list Z);
  u_query : option (list Z);
  u_proto_ASIS : bool;
  u_dhost : Z;
  u_genvhost : option (list Z)
}.
Definition UrlCom0 (asis any : bool) : UrlCom :=
  MkUrlCom asis any false false [] None [] [] [] 0 None None 0 0 None None None false 0 None.
Definition u_plen (u : UrlCom) : Z := zlen (default [] (u_path u)).
Definition u_qlen (u : UrlCom) : Z := zlen (default [] (u_query u)).

Record Url := MkUrl {
  u_src : list Z;
  u_fullurl : bool;
  u_isurn : Z;
  u_remain : bool;
  u_uvfmt : bool;
  u_format : option (list Z);
  u_format_toEOL : bool;
  u_rformat : option (list Z);
  u_subst : bool;
  u_vserv : Z;
  u_com : UrlCom
}.

Inductive cval := CNull | CStr (s : list Z) | CInt (z : Z) | CRex (rexp : list Z).
Record Cond1 := MkCond { c_direction : Z; c_val : cval }.
(** What the options say. *)
Record MtCond := MkMtCond {
  u_flags : Z;
  u_priority : Q;
  u_conds : Z;
  u_conds_neg : Z;
  u_condList : gmap Z Cond1;
  m_vserv : Z                 (** of [Src] *)
}.
Definition MtCond0 : MtCond := MkMtCond 0 0%Q 0 0 ∅ 0.
Definition cond1 (c : MtCond) (i : Z) : Cond1 := default (MkCond 0 CNull) (u_condList c !! i).
Definition c_int (c : MtCond) (i : Z) : Z := match c_val (cond1 c i) with CInt z => z | _ => 0 end.
Definition c_str (c : MtCond) (i : Z) : option (list Z) :=
  match c_val (cond1 c i) with CStr s => Some s | _ => None end.
Definition c_rex (c : MtCond) (i : Z) : option (list Z) :=
  match c_val (cond1 c i) with CRex s => Some s | _ => None end.
Definition set_uflags (f : Z) (c : MtCond) : MtCond :=
  MkMtCond f (u_priority c) (u_conds c) (u_conds_neg c) (u_condList c) (m_vserv c).
Definition or_flags (f : Z) (c : MtCond) : MtCond := set_uflags (Z.lor (u_flags c) f) c.
Definition or_conds (neg : bool) (f : Z) (c : MtCond) : MtCond :=
  MkMtCond (u_flags c) (u_priority c) (Z.lor (u_conds c) f)
    (if neg then Z.lor (u_conds_neg c) f else u_conds_neg c) (u_condList c) (m_vserv c).
Definition set_priority (p : Q) (c : MtCond) : MtCond :=
  MkMtCond (u_flags c) p (u_conds c) (u_conds_neg c) (u_condList c) (m_vserv c).
Definition or_vserv (f : Z) (c : MtCond) : MtCond :=
  MkMtCond (u_flags c) (u_priority c) (u_conds c) (u_conds_neg c) (u_condList c) (Z.lor (m_vserv c) f).
Definition set_cell (i : Z) (cell : Cond1) (c : MtCond) : MtCond :=
  MkMtCond (u_flags c) (u_priority c) (u_conds c) (u_conds_neg c) (<[i := cell]> (u_condList c))
    (m_vserv c).

Record Mtab := MkMtab {
  u_serno : Z;
  u_compiled : bool;
  u_disabled : bool;
  u_dirmatch : bool;
  u_cond : MtCond;
  u_conds_value : Z;
  u_conds_param : list Z;
  Src : Url;
  Dst : Url;
  u_xcond : Z;
  u_whole : list Z;
  u_opts : list Z;
  u_iport_mapped : Z          (** of [Dst] *)
}.
Definition flag_of (m : Z) (mt : Mtab) : bool := has (u_flags (u_cond mt)) m.
Definition cond_of (m : Z) (mt : Mtab) : bool := has (u_conds (u_cond mt)) m.
Definition list_of (i : Z) (mt : Mtab) : Z := c_int (u_cond mt) i.
Definition dir_of (i : Z) (mt : Mtab) : Z := c_direction (cond1 (u_cond mt) i).

(** What [set_MOUNT] has of the process: the options about virtual hosts, and
    the numbers that [sscanf] reads with [%lf]. *)
Record mount_conf := MountConf {
  nvserv_none : bool; nvserv_all : bool; nvserv_gen : bool; nvserv_alias : bool;
  scan_lf : list Z -> option Q
}.
(** [src/cond.cpp]. *)
Definition getCondition : Z := 0.
Definition evalCondition (condid : Z) : bool := true.

(** ** Options *)
Record mount_opt := MountOpt {
  o_direction : Z; o_name : list Z; o_flags : Z; o_value : Z; o_listx : Z; o_enum : Z; o_rex : Z
}.
Definition CFO : Z := 1.
Definition CBO : Z := 2.
Definition CFB : Z := 3.
Definition opt_ (d : Z) (n : string) (f v l e r : Z) : mount_opt := MountOpt d (cs n) f v l e r.
Definition plain_opt (n : string) : mount_opt := opt_ 0 n 0 0 0 0 0.
Definition mount_opts : list mount_opt :=
  [opt_ 0 "default" C_DEFAULT 0 0 0 0;
   opt_ 0 "pri" U_PRIORITY 0 0 0 0;
   opt_ 0 "dstproto" C_DSTPROTO S_DSTPROTO 0 0 0;
   opt_ 0 "dst" C_DSTHOST 0 L_DST 0 0;
   opt_ 0 "odst" C_DSTHOST 0 L_DST 0 0;
   opt_ CFO "udst" C_UDST 0 L_UDST 0 0;
   opt_ 0 "qhost" C_QHOST 0 L_DST 0 0;
   opt_ 0 "rhost" C_RHOST 0 L_DST 0 0;
   opt_ CFO "vhost" C_VHOST 0 L_VHOST 0 0;
   opt_ CFO "avhost" C_VHOST 0 L_VHOST 0 0;
   opt_ CFO "nvhost" C_VHOST 0 L_VHOST 0 0;
   opt_ CFO "sni" C_VHOST 0 L_VHOST 0 0;
   opt_ 0 "from" C_CLFROM 0 L_FROM 0 0;
   opt_ 0 "auth" C_CLAUTH 0 L_AUTH 0 0;
   opt_ 0 "host" C_CLHOST 0 L_CLIF 0 0;
   opt_ 0 "path" C_CLPATH 0 L_PATH 0 0;
   opt_ 0 "src" C_CLVIA 0 L_VIA 0 0;
   opt_ 0 "via" C_CLVIA 0 L_VIA 0 0;
   opt_ 0 "method" C_METHOD S_METHOD 0 0 0;
   opt_ 0 "direction" C_DIRECTION 0 0 N_DIRECTION 0;
   opt_ 0 "asproxy" C_ASPROXY 0 0 0 0;
   opt_ 0 "withquery" C_WITHQUERY 0 0 0 0;
   plain_opt "ident";
   opt_ 0 "qmatch" C_REQMATCH 0 0 0 R_REQMATCH;
   opt_ 0 "nocase" C_NOCASE 0 0 0 0;
   opt_ 0 "withssl" C_WITH_SSL 0 0 N_WITH_SSL 0;
   plain_opt "srcproto";
   opt_ 0 "onerror" U_ON_ERROR S_ON_ERROR 0 0 0;
   opt_ 0 "moved" U_MOVED_TO 0 0 N_MOVED_TO 0;
   opt_ 0 "where" U_WHERE 0 0 N_WHERE 0;
   opt_ 0 "referer" U_WHERE 0 0 N_WHERE 0;
   opt_ 0 "useproxy" U_USE_PROXY S_USEPROXY 0 0 0;
   opt_ 0 "resolv" U_RESOLV 0 0 0 0;
   opt_ 0 "again" U_AGAIN 0 0 0 0;
   opt_ 0 "mybase" U_MYBASE S_MYBASE 0 0 0]
  ++ map plain_opt
       ["htmlconv"; "uriconv"; "ftocl"; "ftosv"; "ro"; "rw"; "-f"; "-b"; "owner"; "delay";
        "forbidden"; "unknown"]%string
  ++ [opt_ 0 "fileis" C_FILEIS 0 0 0 0]
  ++ map plain_opt
       ["expire"; "cache"; "expires"; "master"; "proxy"; "authru"; "cgi"; "genvhost"; "avserv";
        "nvserv"; "rserv"; "robots"; "charcode"; "rcode"; "rhead"; "authorizer"; "thru"; "sign";
        "verify"; "hide"; "upact"; "pathhost"]%string.

Definition V_DIRECTION : list Z := cs "fo,bo,bif".
Definition I_DIRECTION : list Z := [D_FORWONLY; D_BACKONLY; D_BACKIFFORW].
Definition V_WHERE : list Z := cs ",any,req,ref,via,coo,res,loc".
Definition I_WHERE : list Z :=
  [W_REFERER; W_ANY; W_REQUEST; W_REFERER; W_REQVIA; W_COOKIE; W_RESPONSE; W_LOCATION].
Definition V_MOVED_TO : list Z := cs ",300,301,302,303".
Definition I_MOVED_TO : list Z := [302; 300; 301; 302; 303].
Definition V_WITH_SSL : list Z := cs ",cl,sv,nocl,nosv".
Definition I_WITH_SSL : list Z := [S_WITHCL; S_WITHCL; S_WITHSV; S_WITHOUTCL; S_WITHOUTSV].
Definition enumlist : list (list Z * list Z) :=
  [(V_DIRECTION, I_DIRECTION); (V_MOVED_TO, I_MOVED_TO); (V_WITH_SSL, I_WITH_SSL); (V_WHERE, I_WHERE)].
Definition enumopt (lidx : Z) (val : list Z) : option Z :=
  '(e_list, e_value) ← enumlist !! Z.to_nat (lidx - ENUMBASE);
  vidx ← isinList e_list val;
  if 0 <? vidx then e_value !! Z.to_nat (vidx - 1) else Some 0.

(** [optmatch]: the value, and how it was found. *)
Definition optmatch (name : list Z) (value : list Z) (opt1 : list Z) (_ : option (list Z))
  : list Z * Z :=
  if strncaseeq opt1 name (length name)
  then let r := drop (length name) opt1 in
       if bool_decide (r = []) then ([], 1)
       else if cat r 0 =? 61
       then if (cat r 1 =? LBRACE) && (strtailchr opt1 =? RBRACE) then (removelast (drop 2 r), 2)
            else (drop 1 r, 2)
       else (value, 0)
  else (value, 0).
Definition getOpt1 (opts name : list Z) : option (Z * list Z) :=
  '(value, found, _) ← scan_ListLX (optmatch name) true true opts COMMA [];
  Some (found, value).

(** [replo1] appends one option, or the new value of the one of the name. *)
Definition replo1 (name value : list Z) (nopts : list Z) (opt1 : list Z) (_ : option (list Z))
  : list Z * Z :=
  let nopts := if bool_decide (nopts = []) then [] else nopts ++ [COMMA] in
  (nopts ++
   match strheadstrX opt1 name true with
   | Some vp => if (cat vp 0 =? 0) || (cat vp 0 =? 61)
                then if bool_decide (value = []) then name else name ++ [61] ++ value
                else opt1
   | None => opt1
   end, 0).
(** The new options where they differ. *)
Definition replaceOpt1 (opts name val : list Z) : option (option (list Z)) :=
  '(nopts, _, _) ← scan_ListLX (replo1 name val) true true opts COMMA [];
  Some (if bool_decide (opts = nopts) then None else Some nopts).

Section read.
Context {T : Type} `{IdTable T} (env : hp_env) (fuel : nat) (mc : mount_conf).

(** The state that options are read to: the rule, the direction, and the
    lists of hosts. *)
Record opt_st := OptSt { os_cond : MtCond; os_dir : Z; os_pls : list PathList; os_hp : hp_st T }.
Definition with_cond (f : MtCond -> MtCond) (st : opt_st) : opt_st :=
  OptSt (f (os_cond st)) (os_dir st) (os_pls st) (os_hp st).

(** The list of hosts of an option. *)
Definition scanopt_list (o : mount_opt) (val : list Z) (direction : Z) (st : opt_st) : option opt_st :=
  let nam1 := o_name o in
  let list1 := o_listx o in
  let what := cs "MOUNT." ++ nam1 in
  let st := if streq nam1 (cs "odst") then with_cond (or_vserv VHOST_ORIGDST) st else st in
  let st := if streq nam1 (cs "avhost") then with_cond (or_vserv VHOST_AVHOST) st else st in
  let make vs opts st :=
    let st := with_cond (or_vserv vs) st in
    '(pls, hp, hl) ← makePathListX env fuel what val opts (os_pls st) (os_hp st);
    Some (OptSt (set_cell list1 (MkCond direction (CInt hl)) (os_cond st)) (os_dir st) pls hp) in
  if streq val (cs "-thru")
  then Some (with_cond (set_cell list1 (MkCond direction (c_val (cond1 (os_cond st) list1)))) st)
  else if streq nam1 (cs "nvhost") then make VHOST_BYNAME (cs "n") st
  else if streq nam1 (cs "sni") then make VHOST_TLSSNI (cs "n") st
  else make 0 [] st.
(** What the entry of the table does for an option. *)
Definition scanopt_entry (o : mount_opt) (neg : bool) (val : list Z) (direction : Z) (st : opt_st)
  : option opt_st :=
  let st := with_cond (or_flags (Z.land (o_flags o) U_ALL)) st in
  let st := with_cond (or_conds neg (Z.land (o_flags o) C_ALL)) st in
  if o_flags o =? U_PRIORITY
  then Some (match scan_lf mc val with Some p => with_cond (set_priority p) st | None => st end)
  else
    let st := if o_value o =? 0 then st
              else with_cond (set_cell (o_value o) (MkCond direction (CStr val))) st in
    st ← (if o_listx o =? 0 then Some st else scanopt_list o val direction st);
    st ← (if o_enum o =? 0 then Some st
          else ival ← enumopt (o_enum o) val;
               Some (with_cond (set_cell (o_enum o) (MkCond direction (CInt ival))) st));
    Some (if o_rex o =? 0 then st
          else with_cond (set_cell (o_rex o) (MkCond direction (CRex (nonxalpha_unescape val true).1))) st).
Definition scanopt (opt : list Z) (st : opt_st) : option opt_st :=
  let direction :=
    if cat opt 0 =? 45
    then if cat opt 1 =? 102 then CFO else if cat opt 1 =? 98 then CBO
         else if cat opt 1 =? 120 then CFB else os_dir st
    else os_dir st in
  if (cat opt 0 =? 45) && (cat opt 2 =? 0)
  then Some (OptSt (os_cond st) direction (os_pls st) (os_hp st))
  else
    match (if cat opt 0 =? 45 then (fun i => (direction, drop (S i) opt)) <$> index_of 46 opt
           else Some (0, opt)) with
    | None => Some st
    | Some (d1, opt) =>
        let neg := cat opt 0 =? 33 in
        let opt := if neg then tl opt else opt in
        let '(name, val) := cut_at 61 opt in
        match find (fun o => streq name (o_name o)) mount_opts with
        | None => Some st
        | Some o =>
            let direction := if (d1 =? 0) && negb (o_direction o =? 0) then o_direction o
                             else direction in
            scanopt_entry o neg (default [] val) direction st
        end
    end.
Definition scan_opts (opts : list Z) (st : opt_st) : option opt_st :=
  '(st, _, _) ← scan_ListX (fun st opt _ => (st ≫= scanopt opt, 0)) false true opts COMMA (Some st);
  st.

(** ** The table *)
Record mount_st := MountSt {
  ms_tab : list Mtab;
  ms_init_from : Z;
  ms_last_hit : Z;
  ms_pls : list PathList;
  ms_hp : hp_st T
}.
Definition mtabN (ms : mount_st) : Z := zlen (ms_tab ms).
Definition clear_mtab (ms : mount_st) : mount_st := MountSt [] 0 0 (ms_pls ms) (ms_hp ms).

(** The left hand: its text, what remains is matched, and the format. *)
Definition src_url (src : list Z) : Url :=
  let full := isFullURL src in
  let urn := isURN src in
  let mk s remain uv fmt eol := MkUrl s full urn remain uv fmt eol None false 0 (UrlCom0 false false) in
  match strstr src (cs "*%") with
  | Some dp =>
      let fmt := tl dp in
      let eol := strtailchr fmt =? 36 in
      mk (take (length src - length dp) src) true true
        (Some (if eol then removelast fmt else fmt)) eol
  | None =>
      if strtailchr src =? 42
      then
        let s := removelast src in
        if strtailchr s =? 93
        then match last_index 91 s with
             | Some i => mk (take i s) true false (Some (drop i s)) false
             | None => mk s true false None false
             end
        else mk s true false None false
      else mk src false false None false
  end.
(** The right hand, with the schemes that are left out. *)
Definition dst_text (dst : list Z) : list Z :=
  if is_prefix (cs "///") dst then cs "=://=:=/" ++ drop 3 dst
  else if is_prefix (cs "//") dst then cs "=://" ++ drop 2 dst
  else if cat dst 0 =? SLSH then cs "file://" ++ dst
  else dst.
Definition dst_subst (dst : list Z) : bool :=
  match strstr dst (cs "#{") with Some dp => strchr (drop 2 dp) RBRACE | None => false end.
(** Both hands, with the formats of the reverse direction. *)
Definition hands (src dst : list Z) : option (Url * Url) :=
  let s := src_url src in
  let dst := dst_text dst in
  let sub := dst_subst dst in
  let mk t remain uv fmt eol rfmt := MkUrl t false 0 remain uv fmt eol rfmt sub 0 (UrlCom0 false false) in
  match strstr dst (cs "*%") with
  | Some dp =>
      let fmt := tl dp in
      let eol := strtailchr fmt =? 36 in
      let fmt := if eol then removelast fmt else fmt in
      let sfmt := match u_format s with
                  | Some f => f
                  | None => if streq (u_src s) ASIS then fmt else u_src s
                  end in
      '(rsrc, rdst) ← uvfmtreverse sfmt fmt;
      Some (MkUrl (u_src s) (u_fullurl s) (u_isurn s) (u_remain s) (u_uvfmt s) (Some sfmt)
              (u_format_toEOL s) (Some rsrc) false 0 (u_com s),
            mk (take (length dst - length dp) dst) true true (Some fmt) eol (Some rdst))
  | None =>
      let '(t, fmt) :=
        if strtailchr dst =? 93
        then match last_index 91 dst with
             | Some i => if Nat.ltb 0 i && (nth (i - 1) dst 0 =? 42)
                         then (take i dst, Some (cut_at 93 (drop (S i) dst)).1)
                         else (dst, None)
             | None => (dst, None)
             end
        else (dst, None) in
      let remain := strtailchr t =? 42 in
      Some (s, mk (if remain then removelast t else t) remain false fmt false None)
  end.

(** [nvhost=-thru] becomes [nvhost=host] with the name of the server. *)
Definition thru_opts (dsrc opts : list Z) : option (list Z) :=
  if nvserv_none mc then Some opts
  else
    '(found, vhost) ← getOpt1 opts (cs "nvhost");
    if negb (found =? 0) && streq vhost (cs "-thru")
    then
      '(_, nv) ← getOpt1 opts (cs "nvserv");
      '(_, av) ← getOpt1 opts (cs "avserv");
      '(_, gv) ← getOpt1 opts (cs "genvhost");
      let vserv := if bool_decide (nv <> []) then nv
                   else if bool_decide (av <> []) then av
                   else if bool_decide (gv <> []) then gv
                   else au_login (decomp_absurlX dsrc None) in
      r ← replaceOpt1 opts (cs "nvhost") vserv;
      Some (default opts r)
    else Some opts.

(** A rule is put at the end of the table, if it is not there and there is
    room. *)
Definition add_MOUNT (src dst opts : list Z) (ms : mount_st) : option mount_st :=
  let whole := src ++ [SP] ++ dst ++ [SP] ++ opts in
  if existsb (fun mt => streq (u_whole mt) whole) (ms_tab ms) then Some ms
  else if MTAB_SIZE <=? mtabN ms then Some ms
  else
    '(s, d) ← hands src dst;
    opts ← thru_opts (u_src d) opts;
    st ← scan_opts opts (OptSt MtCond0 CFB (ms_pls ms) (ms_hp ms));
    let s := MkUrl (u_src s) (u_fullurl s) (u_isurn s) (u_remain s) (u_uvfmt s) (u_format s)
               (u_format_toEOL s) (u_rformat s) false (m_vserv (os_cond st)) (u_com s) in
    Some (MountSt
      (ms_tab ms ++ [MkMtab (mtabN ms + 1) false false false (os_cond st) 0 [] s d getCondition whole
                       opts 0])
      (ms_init_from ms) (ms_last_hit ms) (os_pls st) (os_hp st)).
(** An empty table gets the two rules that stand for what is not mounted. *)
Definition set_MOUNT (src dst opts : list Z) (ms : mount_st) : option mount_st :=
  ms ← (match ms_tab ms with
        | [] => ms ← add_MOUNT (cs "/-*") ASIS (cs "default") ms;
                add_MOUNT (cs "/=*") ASIS (cs "default") ms
        | _ => Some ms
        end);
  add_MOUNT src dst opts ms.
Definition set_MOUNT_ifndef (src dst opts : list Z) (ms : mount_st) : option (mount_st * Z) :=
  let srcbuf := if strtailchr src =? 42 then removelast src else src in
  if existsb (fun mt => streq (u_src (Src mt)) srcbuf && streq (u_opts mt) opts) (ms_tab ms)
  then Some (ms, 0)
  else
    let opts := if bool_decide (opts = []) then cs "default" else opts in
    ms ← set_MOUNT src dst opts ms;
    Some (ms, 1).

(** [sscanf("%s %s %[^\r\n]")]. *)
Definition scan_MOUNT (spec : list Z) (ms : mount_st) : option mount_st :=
  let word s := span (fun c => negb (isspace c)) (length s) (skip_spaces s) in
  let '(src, r) := word spec in
  let '(dst, r) := word r in
  let opts := (span (fun c => negb ((c =? CR) || (c =? LF))) (length r) (skip_spaces r)).1 in
  if bool_decide (src = []) || bool_decide (dst = []) then Some ms
  else
    let cut c := (fun op => take (length opts - length op) opts) <$> strchrX opts c (cs "{(") (cs ")}") in
    let opts := match cut SP with
                | Some o => o
                | None => default opts (cut TAB)
                end in
    set_MOUNT src dst opts ms.
End read.
