(* ===== verification/MountInit.v ===== *)
(** * [MOUNT]: ordering and compiling the table ([src/mount.cpp])

    [init_mtab] sorts the rules and takes both hands of each new one apart.
    The resolver and the file system are the record [mi_env].  [None] is a
    read through a null pointer, or a list of hosts that cannot be read. *)
From S2P Require Import Prelude Strings ScanList UrlEsc Service UvFmt Url Bsort.
From S2P Require Import StrId HostMatch HostParse Mount.
From Stdlib Require Import QArith.
From stdpp Require Import options gmap.
#[local] Open Scope Z_scope.

(** ** The order of the table *)
Definition S2_S1 : Z := 1.
Definition S1_S2 : Z := -1.
Definition first_if (b : bool) (c : Z) (k : Z) : Z := if b then c else k.
(** Rules of the same left hand. *)
Definition same_src_comp (mt1 mt2 : Mtab) : Z :=
  let f1 := u_format (Src mt1) in
  let f2 := u_format (Src mt2) in
  let has_f f := bool_decide (f <> None) in
  let within a b := match a, b with
                    | Some a, Some b => bool_decide (strstr a b <> None)
                    | _, _ => false
                    end in
  let c1 := u_conds (u_cond mt1) in
  let c2 := u_conds (u_cond mt2) in
  first_if (u_remain (Src mt1) && negb (u_remain (Src mt2))) S2_S1
  (first_if (u_remain (Src mt2) && negb (u_remain (Src mt1))) S1_S2
  (first_if (has_f f1 && negb (has_f f2)) S1_S2
  (first_if (negb (has_f f1) && has_f f2) S2_S1
  (first_if (within f1 f2) S1_S2
  (first_if (within f2 f1) S2_S1
  (first_if (cond_of C_DEFAULT mt1) S2_S1
  (first_if (cond_of C_DEFAULT mt2) S1_S2
  (first_if (c2 <? c1) S1_S2
  (first_if (c1 <? c2) S2_S1
  (if u_serno mt1 <? u_serno mt2 then S2_S1 else S1_S2)))))))))).
Definition mtabcomp (mt1 mt2 : Mtab) : Z :=
  let s1 := u_src (Src mt1) in
  let s2 := u_src (Src mt2) in
  match Qcompare (u_priority (u_cond mt1)) (u_priority (u_cond mt2)) with
  | Lt => S2_S1
  | Gt => S1_S2
  | Eq =>
      if streq s1 s2 then same_src_comp mt1 mt2
      else if bool_decide (strstr s1 s2 <> None) && u_remain (Src mt2) then S1_S2
      else if bool_decide (strstr s2 s1 <> None) && u_remain (Src mt1) then S2_S1
      else if u_serno mt1 <? u_serno mt2 then S1_S2 else S2_S1
  end.
Definition sort_mtab (tab : list Mtab) : list Mtab := Bsort mtabcomp tab.

(** ** Compiling *)
Record mi_env := MiEnv {
  gethostaddr : list Z -> option (list Z);
  IsResolvable : list Z -> bool;
  fullpathDATA : list Z -> option (list Z);
  chdir_cwd : list Z -> list Z          (** from the current directory *)
}.
Definition isFullpath (path : list Z) : bool := cat path 0 =? SLSH.
Definition BSL : Z := 92.
Definition backToSlash (path : list Z) : list Z := map (fun c => if c =? BSL then SLSH else c) path.
Definition toMountSafePath (path : list Z) (size : Z) : list Z :=
  let path := if strtailchr path =? BSL then backToSlash path else path in
  (url_escapeX true path size (SP :: TAB :: cs "*%#") None).2.

Section init.
Context {T : Type} `{IdTable T} (env : hp_env) (fuel : nat) (mc : mount_conf) (mi : mi_env).
Context (services : list Service).

Definition set_com (u : Url) (c : UrlCom) : Url :=
  MkUrl (u_src u) (u_fullurl u) (u_isurn u) (u_remain u) (u_uvfmt u) (u_format u) (u_format_toEOL u)
    (u_rformat u) (u_subst u) (u_vserv u) c.
Definition set_vserv (v : Z) (u : Url) : Url :=
  MkUrl (u_src u) (u_fullurl u) (u_isurn u) (u_remain u) (u_uvfmt u) (u_format u) (u_format_toEOL u)
    (u_rformat u) (u_subst u) v (u_com u).
Definition predef (host : list Z) (hp : hp_st T) : hp_st T :=
  if IsResolvable mi host then set_predef hp host else hp.

(** The left hand.  The site is kept for the right hand. *)
Definition compile_src (s : Url) (login : list Z) (pls : list PathList) (hp : hp_st T)
  : option (Url * list Z * list PathList * hp_st T) :=
  let ssrc := u_src s in
  if streq ssrc ASIS then Some (set_com s (UrlCom0 true false), login, pls, hp)
  else if isFullURL ssrc
  then
    let a := decomp_absurl ssrc 1024 in
    let proto := au_proto a in
    let login := au_login a in
    let path := au_upath a in
    let com hl p := MkUrlCom false false false false [] (Some proto) [] [] [] hl None None 0 0 None p
                      None false 0 None in
    if bool_decide (login = []) then Some (set_com s (com 0 None), login, pls, hp)
    else
      let '(host, iport) := scan_hostport services proto login in
      if (au_n a <=? 2) && bool_decide (path = []) && u_remain s
      then Some (set_com s (com 0 (Some path)), login, pls, hp)
      else
        '(pls, hp, hl) ← makePathList env fuel (cs "MOUNT.vhost") (host ++ COLN :: fmt_d iport) pls hp;
        Some (set_com s (com hl (Some path)), login, pls, predef host hp)
  else Some (s, login, pls, hp).

(** The right hand: its protocol, site and path, and what else is said by its
    form. *)
Record rhand := RHand {
  rh_proto : list Z; rh_login : list Z; rh_dpath : list Z; rh_flag : Z;
  rh_path2site : bool; rh_emptysite : bool
}.
(** The path of a file, relative to the directory of the data or to the
    current one. *)
Definition local_path (upath : list Z) : list Z :=
  if cat upath 0 =? SLSH then tl upath
  else if isFullpath upath then upath
  else
    let '(up, query) := cut_at QUES upath in
    let path := match fullpathDATA mi up with
                | Some x => x
                | None => chdir_cwd mi up ++ [SLSH]
                end ++ match query with Some q => QUES :: q | None => [] end in
    if cat path 0 =? SLSH then tl path else path.
Definition right_hand (d : Url) (login0 : list Z) : option rhand :=
  let dsrc := u_src d in
  let dproto := (scan_URI_scheme dsrc 256).1 in
  if is_prefix (cs "vurl:") dsrc then Some (RHand dproto [] (drop 5 dsrc) U_RECURSIVE false false)
  else if is_prefix (cs "file::") dsrc then Some (RHand dproto [] (drop 5 dsrc) U_MYFILE false false)
  else if negb (isURN dsrc =? 0)
  then Some (RHand dproto [] (drop (length dproto + 1) dsrc) 0 false false)
  else if u_remain d && streq (drop (length dproto) dsrc) (cs "://")
  then Some (RHand dproto [] [] 0 true false)
  else if localPathProto dproto
  then match file_hostpath dsrc with
       | None => Some (RHand [] login0 [] 0 false false)
       | Some (proto, login, upath) =>
           Some (RHand proto (if bool_decide (login = []) then cs "localhost" else login)
                   (toMountSafePath (local_path upath) 1024) 0 false false)
       end
  else
    let '(proto, r) := span (fun c => negb (c =? COLN)) (length dsrc) dsrc in
    let loginpath := drop 3 r in
    if bool_decide (proto <> []) && is_prefix (cs "://") r && bool_decide (loginpath <> [])
    then
      if (cat loginpath 0 =? SLSH) || (cat loginpath 0 =? QUES)
      then Some (RHand proto [] (tl loginpath) 0 false true)
      else let '(login, path) := span (fun c => negb ((c =? SLSH) || (c =? QUES)))
                                   (length loginpath) loginpath in
           Some (RHand proto login (if cat path 0 =? SLSH then tl path else path) 0 false false)
    else None.

(** The options about virtual hosts: the name of the virtual host and the
    flags.  Each one that is given replaces the name if it has one. *)
Definition vserv_opt (opts name : list Z) (flag : Z) (st : option (list Z) * Z)
  : option (option (list Z) * Z) :=
  '(found, vhost) ← getOpt1 opts name;
  let '(gv, vs) := st in
  if found =? 0 then Some (gv, vs)
  else
    let vs := Z.lor vs flag in
    if bool_decide (vhost = []) && negb (streq name (cs "genvhost")) then Some (gv, vs)
    else Some (Some vhost, if streq vhost (cs "-thru") then Z.lor vs VSERV_THRU else vs).
Definition vserv_opts (opts host : list Z) : option (option (list Z) * Z) :=
  let st := (None, 0) in
  st ← (if nvserv_none mc then Some st
        else st ← vserv_opt opts (cs "genvhost") 0 st; vserv_opt opts (cs "nvserv") VSERV_NVSERV st);
  '(gv, vs) ← vserv_opt opts (cs "avserv") VSERV_BYANY st;
  '(rs, _) ← getOpt1 opts (cs "rserv");
  let vs := if rs =? 0 then vs else Z.lor vs VSERV_RSERV in
  Some (gv, if streq host ORIGDST_HOST then Z.lor vs (Z.lor VSERV_ORIGDST VSERV_RSERV) else vs).

Definition dhost_of (host port : list Z) (remain : bool) : Z :=
  let h := if streq host (cs "-") then DH_VHOSTPORT
           else if streq host ASIS then DH_VHOST
           else if streq host (cs "-P") || streq host (cs ".i") then DH_IHOST else 0 in
  let p := if streq port ASIS then DH_VPORT
           else if streq port (cs "-P") || streq host (cs ".i") then DH_IPORT else 0 in
  let d := Z.lor h p in
  if (d =? 0) && remain && (strtailchr host =? DOT) then DH_PHOST else d.

(** The name of the host of the right hand and its address. *)
Definition dst_host (host : list Z) (vserv dhost : Z) : list Z * option (list Z) :=
  if has vserv VSERV_RSERV || negb (dhost =? 0) then (host, None)
  else if (cat host 0 =? 45) && isMYSELF env host then (host, None)
  else if (cat host 0 =? 45) && negb (cat host 1 =? 0) then (tl host, None)
  else (host, gethostaddr mi host).

Definition compile_dst (mt : Mtab) (login0 : list Z) (pls : list PathList) (hp : hp_st T)
  : option (Mtab * list Z * list PathList * hp_st T) :=
  let d := Dst mt in
  let dsrc := u_src d in
  let c := u_cond mt in
  let put (d : Url) (disabled dirm : bool) (c : MtCond) :=
    MkMtab (u_serno mt) true (u_disabled mt || disabled) dirm c (u_conds_value mt) (u_conds_param mt)
      (Src mt) d (u_xcond mt) (u_whole mt) (u_opts mt) (u_iport_mapped mt) in
  if streq dsrc ASIS then Some (put (set_com d (UrlCom0 true false)) false false c, login0, pls, hp)
  else if bool_decide (dsrc = []) && u_remain d
  then Some (put (set_com d (UrlCom0 false true)) false false c, login0, pls, hp)
  else
    match right_hand d login0 with
    | None => Some (put d true false c, login0, pls, hp)
    | Some rh =>
        let login := rh_login rh in
        let us := decomp_URL_siteX login in
        '(genvhost, vserv) ← vserv_opts (u_opts mt) (us_host us);
        let '(proto, prefix) := url_rmprefix (rh_proto rh) in
        let dhost := dhost_of (us_host us) (us_port us) (u_remain d) in
        let '(host, iport, addr) :=
          if bool_decide (login = []) then ([], 0, None)
          else let '(host, iport) := scan_hostport services proto (us_hostport us) in
               let '(host, addr) := dst_host host vserv dhost in (host, iport, addr) in
        '(pls, hp, hl) ← (if negb (has vserv VSERV_RSERV) && (dhost =? 0)
                          then makePathList env fuel (cs "MOUNT.rhost") (us_hostport us) pls hp
                          else Some (pls, hp, 0));
        let portpart := (cut_at COLN (us_hostport us)).2 in
        let mapped := match portpart with
                      | Some p => (cat p 0 =? 43) || (cat p 0 =? 45)
                      | None => false
                      end in
        let '(dpath, query) := cut_at QUES (rh_dpath rh) in
        let c := or_flags (rh_flag rh) c in
        let c := if bool_decide (portpart <> None) then or_flags U_DISPPORT c else c in
        let c := if mapped then or_flags U_PORTMAP c else c in
        let com := MkUrlCom false false (rh_emptysite rh) (rh_path2site rh) prefix (Some proto)
                     (us_userpass us) (us_user us) (us_pass us) hl (Some host) addr iport
                     (serviceport services proto) (if mapped then portpart else None) (Some dpath)
                     query (streq proto ASIS) dhost genvhost in
        let dirm := u_remain (Src mt) && (strtailchr (u_src (Src mt)) =? SLSH) && u_remain d
                    && (strtailchr dsrc =? SLSH)
                    && negb (has (u_flags c) U_WHERE && negb (has (c_int c N_WHERE) W_REQURL)) in
        let c := if dirm then set_cell N_MOVED_TO (MkCond (c_direction (cond1 c N_MOVED_TO)) (CInt 302)) c
                 else c in
        let hp := if (dhost =? 0) && negb (has vserv VSERV_RSERV) then predef host hp else hp in
        Some (put (set_com (set_vserv vserv d) com) false dirm c, login, pls, hp)
    end.

Definition set_src (mt : Mtab) (s : Url) : Mtab :=
  MkMtab (u_serno mt) (u_compiled mt) (u_disabled mt) (u_dirmatch mt) (u_cond mt) (u_conds_value mt)
    (u_conds_param mt) s (Dst mt) (u_xcond mt) (u_whole mt) (u_opts mt) (u_iport_mapped mt).
Fixpoint compile_tab (tab : list Mtab) (login : list Z) (pls : list PathList) (hp : hp_st T)
  : option (list Mtab * list PathList * hp_st T) :=
  match tab with
  | [] => Some ([], pls, hp)
  | mt :: tab' =>
      '(mt, login, pls, hp) ←
        (if u_compiled mt then Some (mt, login, pls, hp)
         else '(s, login, pls, hp) ← compile_src (Src mt) login pls hp;
              compile_dst (set_src mt s) login pls hp);
      '(tab', pls, hp) ← compile_tab tab' login pls hp;
      Some (mt :: tab', pls, hp)
  end.

(** ** Virtual hosts *)
Definition dvserv (mt : Mtab) : Z := u_vserv (Dst mt).
Definition or_dvserv (f : Z) (mt : Mtab) : Mtab :=
  MkMtab (u_serno mt) (u_compiled mt) (u_disabled mt) (u_dirmatch mt) (u_cond mt) (u_conds_value mt)
    (u_conds_param mt) (Src mt) (set_vserv (Z.lor (dvserv mt) f) (Dst mt)) (u_xcond mt) (u_whole mt)
    (u_opts mt) (u_iport_mapped mt).
Definition eqservname (m1 m2 : Mtab) : Z :=
  let d1 := u_com (Dst m1) in
  let d2 := u_com (Dst m2) in
  let eq a b := match a, b with Some a, Some b => strcaseeq a b | _, _ => false end in
  if eq (u_hostn d1) (u_hostn d2) then 1
  else if eq (u_hostn d1) (u_genvhost d2) then 2
  else if eq (u_genvhost d1) (u_hostn d2) then 3
  else if eq (u_genvhost d1) (u_genvhost d2) then 4 else 0.
(** Each other rule that has no mark and satisfies [p] is marked; how many. *)
Definition mark_others (p : Mtab -> option bool) (mi0 : nat) (tab : list Mtab)
  : option (list Mtab * Z) :=
  foldl (fun st mj =>
    '(tab, n) ← st;
    mt ← tab !! mj;
    if Nat.eqb mj mi0 || has (dvserv mt) (Z.lor VSERV_BYNAME VSERV_BYANY) then Some (tab, n)
    else b ← p mt;
         if (b : bool) then Some (<[mj := or_dvserv VSERV_AUTO mt]> tab, n + 1) else Some (tab, n))
    (Some (tab, 0)) (seq 0 (length tab)).
Definition markvhosts1_rule (gen alias : bool) (st : list Mtab * Z) (i : nat)
  : option (list Mtab * Z) :=
  let '(tab, mvhost) := st in
  mti ← tab !! i;
  let mti := if gen && bool_decide (u_genvhost (u_com (Dst mti)) <> None)
                && negb (has (dvserv mti) (Z.lor VSERV_BYNAME VSERV_BYANY))
             then or_dvserv VSERV_AUTO mti else mti in
  let tab := <[i := mti]> tab in
  let d := u_com (Dst mti) in
  if match u_hosta d, u_hostn d with Some a, Some n => streq n a | _, _ => false end
     && bool_decide (u_genvhost d = None)
  then Some (tab, mvhost)
  else
    '(tab, mvhost) ←
      (if (alias : bool)
       then '(tab, nvhost) ← mark_others (fun mtj =>
                match u_hosta (u_com (Dst mtj)) with
                | None => Some false
                | Some aj => ai ← u_hosta d; Some (streq ai aj)
                end) i tab;
            if negb (has (dvserv mti) VSERV_BYANY) && negb (nvhost =? 0)
            then Some (<[i := or_dvserv VSERV_AUTO mti]> tab, mvhost + nvhost)
            else Some (tab, mvhost)
       else Some (tab, mvhost));
    mti ← tab !! i;
    if has (dvserv mti) VSERV_BYNAME
    then '(tab, _) ← mark_others (fun mtj => Some (negb (eqservname mti mtj =? 0))) i tab;
         Some (tab, mvhost)
    else Some (tab, mvhost).
Definition MOUNT_markvhosts1 (all gen alias : bool) (tab : list Mtab) : option (list Mtab * Z) :=
  let all := all || nvserv_all mc in
  let gen := gen || nvserv_gen mc in
  let alias := alias || nvserv_alias mc in
  if negb all && negb gen && negb alias then Some (tab, 0)
  else foldl (fun st i => st ≫= fun st => markvhosts1_rule gen alias st i) (Some (tab, 0))
         (seq 0 (length tab)).
Definition unmark_any (mt : Mtab) : Mtab :=
  if has (dvserv mt) VSERV_BYANY
  then MkMtab (u_serno mt) (u_compiled mt) (u_disabled mt) (u_dirmatch mt) (u_cond mt)
         (u_conds_value mt) (u_conds_param mt) (Src mt)
         (set_vserv (Z.ldiff (dvserv mt) VSERV_BYNAME) (Dst mt)) (u_xcond mt) (u_whole mt) (u_opts mt)
         (u_iport_mapped mt)
  else mt.
Definition MOUNT_markvhosts (all gen alias : bool) (tab : list Mtab) : option (list Mtab * Z) :=
  '(tab, mvhost) ← MOUNT_markvhosts1 all gen alias tab;
  Some (map unmark_any tab, mvhost).

(** [do_sort] is on by default. *)
Definition init_mtab (do_sort : bool) (ms : mount_st (T := T)) : option (mount_st (T := T)) :=
  if mtabN ms <=? ms_init_from ms then Some ms
  else
    let tab := if do_sort then sort_mtab (ms_tab ms) else ms_tab ms in
    '(tab, pls, hp) ← compile_tab tab [] (ms_pls ms) (ms_hp ms);
    '(tab, _) ← MOUNT_markvhosts false false false tab;
    Some (MountSt tab (mtabN ms) (ms_last_hit ms) pls hp).
End init.
