(* ===== verification/MountTo.v ===== *)
(** * [MOUNT]: from virtual URLs to real ones ([src/mount.cpp])

    [mount_url_toXX] looks for the first rule that matches a request and
    rewrites its URL.  A program changes the table (the conditions and the
    mapped ports are remembered in its rules), the last rule that was used,
    the name under which the server was asked for, and the address that the
    host lists keep of the peer.  What it asks about the connection is the
    record [mt_ctx].  [None] is a read outside of a text or through a null
    pointer, or a list scan that fails. *)
From S2P Require Import Prelude Strings Text ScanList ListOps UrlEsc Service UvFmt Url.
From S2P Require Import StrId HostAddr HostMatch HostParse Mount MountInit.
From stdpp Require Import options gmap.
#[local] Open Scope Z_scope.

Definition URLSZ : nat := Z.to_nat (16 * 1024).

(** ** [rewrite_path]: formats like [%1-/%0] over the elements of a path *)
Fixpoint slashes (l : list (list Z)) : list Z :=
  match l with [] => [] | [x] => x | x :: l' => x ++ SLSH :: slashes l' end.
Definition path_elems (uv : list (list Z)) (tailis : bool) (u1 : Z) (range : bool) : list Z :=
  let un := zlen uv in
  (if u1 <? un
   then if range then slashes (drop (Z.to_nat u1) uv) else nth (Z.to_nat u1) uv [] else [])
  ++ (if (range || (u1 =? un)) && tailis then [SLSH] else []).
Fixpoint rewrite_path_loop (fuel : nat) (uv : list (list Z)) (tailis : bool) (omax : Z)
  (fp out : list Z) : list Z :=
  match fuel, fp with
  | S fuel', fc :: fp1 =>
      if omax <=? zlen out then out
      else if negb (fc =? PCNT) then rewrite_path_loop fuel' uv tailis omax fp1 (out ++ [fc])
      else match fp1 with
           | [] => out
           | d :: fp2 =>
               if isdigit d
               then let range := cat fp2 0 =? 45 in
                    rewrite_path_loop fuel' uv tailis omax (if range then tl fp2 else fp2)
                      (out ++ path_elems uv tailis (d - 48) range)
               else rewrite_path_loop fuel' uv tailis omax fp2 out
           end
  | _, _ => out
  end.
Definition rewrite_path (fmt inp : list Z) : list Z :=
  let urlbuf := linescan inp 4096 in
  rewrite_path_loop (length fmt) (stoV 256 urlbuf SLSH) (strtailchr urlbuf =? SLSH)
    (Z.max 256 (zlen inp + 64)) fmt [].

(** ** Programs *)
Record mt_st := MtSt {
  t_tab : list Mtab; t_last_hit : Z; t_last_forw : Z; t_my_h : list Z; t_my_p : Z; t_peer : vaddr
}.
Definition mtm (A : Type) : Type := mt_st -> option (A * mt_st).
#[global] Instance mtm_ret : MRet mtm := fun _ a st => Some (a, st).
#[global] Instance mtm_bind : MBind mtm :=
  fun _ _ f p st => match p st with Some (a, st) => f a st | None => None end.
#[global] Instance mtm_fmap : FMap mtm := fun _ _ f p => a ← p; mret (f a).
Definition mlift {A} (o : option A) : mtm A := fun st => (fun a => (a, st)) <$> o.
Definition mget : mtm mt_st := fun st => Some (st, st).
Definition mupd (f : mt_st -> mt_st) : mtm unit := fun st => Some (tt, f st).
Definition with_tab (f : list Mtab -> list Mtab) (st : mt_st) : mt_st :=
  MtSt (f (t_tab st)) (t_last_hit st) (t_last_forw st) (t_my_h st) (t_my_p st) (t_peer st).
Definition set_last_hit (n : Z) (st : mt_st) : mt_st :=
  MtSt (t_tab st) n (t_last_forw st) (t_my_h st) (t_my_p st) (t_peer st).
Definition set_last_forw (n : Z) (st : mt_st) : mt_st :=
  MtSt (t_tab st) (t_last_hit st) n (t_my_h st) (t_my_p st) (t_peer st).
Definition set_my_h (h : list Z) (st : mt_st) : mt_st :=
  MtSt (t_tab st) (t_last_hit st) (t_last_forw st) h (t_my_p st) (t_peer st).
Definition set_my_p (p : Z) (st : mt_st) : mt_st :=
  MtSt (t_tab st) (t_last_hit st) (t_last_forw st) (t_my_h st) p (t_peer st).
Definition set_value (v : Z) (param : list Z) (mt : Mtab) : Mtab :=
  MkMtab (u_serno mt) (u_compiled mt) (u_disabled mt) (u_dirmatch mt) (u_cond mt) v param (Src mt)
    (Dst mt) (u_xcond mt) (u_whole mt) (u_opts mt) (u_iport_mapped mt).
Definition set_mapped (p : Z) (mt : Mtab) : Mtab :=
  MkMtab (u_serno mt) (u_compiled mt) (u_disabled mt) (u_dirmatch mt) (u_cond mt) (u_conds_value mt)
    (u_conds_param mt) (Src mt) (Dst mt) (u_xcond mt) (u_whole mt) (u_opts mt) p.
Definition set_disabled (b : bool) (mt : Mtab) : Mtab :=
  MkMtab (u_serno mt) (u_compiled mt) b (u_dirmatch mt) (u_cond mt) (u_conds_value mt)
    (u_conds_param mt) (Src mt) (Dst mt) (u_xcond mt) (u_whole mt) (u_opts mt) (u_iport_mapped mt).

(** What is known of the connection. *)
Record mt_ctx := MtCtx {
  CTX_asproxy : bool;
  CTX_clif_proto : list Z;
  CTX_clif_hostport : list Z;
  CTX_clif_host : list Z;
  CTX_clif_port : Z;
  CTX_vhost : list Z * Z;
  CTX_getodstAddr : list Z * Z;
  CTX_withSSL : bool;
  CTX_Rstat : list Z;
  CTX_reqstr : option (list Z);
  D_PATH : list Z;
  D_FROM : list Z;
  t_ClientAuth : AuthInfo;
  tlssni : option (list Z);
  lSINGLEP : bool;
  lMULTIST : bool;
  toMD5X : list Z -> list Z;
  gethostaddr_fromcache : list Z -> option (list Z);
  gethostintMin : bool -> list Z -> Z;      (** from the cache only, or not *)
  portMap : list Z -> list Z -> list Z -> Z;
  myfile_path : list Z -> list Z;
  File_is : list Z -> bool
}.
(** The module that substitutes [#{...}] is not in the source: a stub says
    that it has, and its buffer stays empty. *)
Definition pilsner (src : list Z) : Z * list Z := (-1, []).

Section mount.
Context {T : Type} `{IdTable T} (henv : hl_env) (penv : hp_env) (ci : ClientInfo).
Context (services : list Service) (pls : list PathList) (hp : hp_st T) (ctx : mt_ctx).

(** *** The lists of hosts ([src/ddi.cpp]) *)
Definition matchPath (hlid : Z) (user host : list Z) (port : Z) : mtm bool := fun st =>
  match matchPath1 henv penv ci pls hlid (Some user) host port hp (t_peer st) with
  | Ret hi peer => Some (negb (hi =? 0),
                         MtSt (t_tab st) (t_last_hit st) (t_last_forw st) (t_my_h st) (t_my_p st) peer)
  | _ => None
  end.
(** [Xsscanf(path1,"%[^:]:%d")]. *)
Definition path_host (path1 : list Z) : option (list Z * Z) :=
  match cut_at COLN path1 with
  | (h :: host, Some r) => (fun vr => (h :: host, vr.1)) <$> scan_d r
  | _ => None
  end.
(** The first host of a path that is in the list, or is not in it. *)
Definition path_find (inlist : bool) (hlid : Z) (path user : list Z) : mtm bool := fun st =>
  match scan_ListX (fun (acc : option mt_st) path1 _ =>
          match acc, path_host path1 with
          | Some st, Some (host, port) =>
              match matchPath hlid user host port st with
              | Some (m, st) => (Some st, if Bool.eqb m inlist then 1 else 0)
              | None => (None, 1)
              end
          | _, _ => (acc, 0)
          end) true true path 33 (Some st) with
  | Some (Some st, rc, _) => Some (negb (rc =? 0), st)
  | _ => None
  end.
Definition CTX_matchPATH1 (hlid : Z) (path : option (list Z)) (user : list Z) : mtm bool :=
  path_find true hlid (default (D_PATH ctx) path) user.
Definition CTX_matchPATHs (hlid : Z) (path : option (list Z)) : mtm bool :=
  negb <$> path_find false hlid (default (D_PATH ctx) path) (cs "-").
(** [Xsscanf(D_FROM,"%[^@]@[%[^]]] (port=%d; DeleGate%s)")]: user, host and
    port, which is not set where the text has another form. *)
Definition getFROM (from : list Z) : option (list Z * list Z * Z) :=
  '(user, r) ← (match cut_at AT from with (u :: us, Some r) => Some (u :: us, r) | _ => None end);
  if negb (cat r 0 =? 91) then None
  else
    '(host, r) ← (match cut_at 93 (tl r) with (h :: hs, Some r) => Some (h :: hs, r) | _ => None end);
    let r := skip_spaces r in
    if is_prefix (cs "(port=") r then '(port, _) ← scan_d (drop 6 r); Some (user, host, port) else None.
Definition matchFROM (hlid : Z) : mtm bool :=
  '(user, host, port) ← mlift (getFROM (D_FROM ctx));
  if port =? 0 then mret false else matchPath hlid user host port.
Definition matchAUTH (hlid : Z) : mtm bool :=
  let a := t_ClientAuth ctx in
  if bool_decide (i_user a = []) then mret false
  else matchPath hlid (i_user a) (i_Host a) (i_Port a).

(** *** Conditions *)
Definition mapPort1 (portspec : list Z) (port : Z) : Z :=
  if cat portspec 0 =? 43 then port + atoi (tl portspec)
  else if cat portspec 0 =? 45 then port - atoi (tl portspec)
  else atoi portspec.
Definition drop_at (n : nat) (s : list Z) : option (list Z) :=
  if Nat.leb n (length s) then Some (drop n s) else None.

(** Does the destination not match [dstL]? *)
Definition dst_known (dstL : Z) (proto host port : list Z) : mtm bool :=
  let porti := if bool_decide (port = []) then serviceport services proto else atoi port in
  negb <$> matchPath dstL (cs "-") host porti.
Definition dstNoMatch (mt : Mtab) (dstL : Z) (clif method : option (list Z)) (srcurl : list Z)
  : mtm bool :=
  let dstList := list_of L_DST mt in
  let d := u_com (Dst mt) in
  if has (u_vserv (Src mt)) VHOST_ORIGDST
  then
    let '(odaddr, odport) := CTX_getodstAddr ctx in
    if 0 <? odport then negb <$> matchPath dstList (cs "-") odaddr odport else mret true
  else if negb (u_path2site d) && (cat srcurl 0 =? SLSH)
  then
    m ← (match u_hostn d with
         | Some (h :: hs) => matchPath dstList (cs "-") (h :: hs) (u_iport d)
         | _ => mret false
         end);
    if (m : bool) then mret false
    else match clif with
         | Some clif => let '(host, port) := decomp_URL_site clif in
                        dst_known dstL (word_scan (CTX_clif_proto ctx) 256) host port
         | None => mret true
         end
  else if u_path2site d
  then
    r ← mlift (drop_at (length (u_src (Src mt))) srcurl);
    let site := (scan_URI_site r 256).1 in
    if bool_decide (site = []) then mret false
    else let '(host, port) := decomp_URL_site site in dst_known dstL (default [] (u_proto d)) host port
  else
    let '(got, (proto, host, port)) := scan_protositeport srcurl in
    if negb (got =? 0) then dst_known dstL proto host port
    else
      match method with
      | Some m =>
          if strcaseeq m (cs "CONNECT")
          then let '(host, port) := decomp_URL_site srcurl in
               if 0 <? atoi port then dst_known dstL proto host port else mret false
          else mret false
      | None => mret false
      end.

(** Each condition that does not hold ends the evaluation. *)
Definition require (c : mtm bool) (k : mtm bool) : mtm bool :=
  b ← c; if (b : bool) then k else mret false.
Definition unless (b : bool) (c : mtm bool) : mtm bool := if b then mret true else c.

(** The name that the virtual hosts of the rule are matched with, which is
    what the conditions behind it are matched with too. *)
Definition vhost_name (direction : Z) (mt : Mtab) (clif : list Z) : mtm (option (list Z)) :=
  let v := u_vserv (Src mt) in
  let by_host := cat clif 0 =? 45 in
  if has v VHOST_TLSSNI then Some <$> mlift (tlssni ctx)
  else if has v VHOST_AVHOST && by_host then mret (Some (tl clif))
  else if (dir_of L_VHOST mt =? CFB) && has v VHOST_BYNAME && (direction =? CBO) && negb by_host
  then mret (Some clif)
  else mret (if by_host then Some clif else None).
Definition match_hostport (hlid : Z) (clif : list Z) : mtm bool :=
  let '(host, port) := scan_hostport1X clif 256 in matchPath hlid (cs "-") host port.

(** The conditions behind the one on virtual hosts. *)
Definition evalCond1_rest (qtype rtype direction : Z) (mt : Mtab) (clif method : option (list Z))
  (moa_method : option (list Z)) (srcurl : option (list Z)) (rhost : option (list Z)) (rport : Z)
  : mtm bool :=
  let L i := list_of i mt in
  let toward i := has direction (dir_of i mt) in
  require (match clif with
           | Some clif => unless (negb (toward L_CLIF) || (L L_CLIF =? 0)) (match_hostport (L L_CLIF) clif)
           | None => mret true
           end)
  (require (match srcurl with
            | Some url => unless (L L_UDST =? 0)
                (if cond_of C_UDST mt then negb <$> dstNoMatch mt (L L_UDST) clif moa_method url
                 else mret false)
            | None => mret true
            end)
  (require (match srcurl with
            | Some url => unless (L L_DST =? 0)
                (if cond_of C_QHOST mt
                 then negb <$> dstNoMatch mt (L L_DST) clif moa_method
                         (if has qtype U_WHERE && has rtype W_REFERER then [SLSH] else url)
                 else mret false)
            | None => mret true
            end)
  (require (match rhost with
            | Some rhost => unless (L L_DST =? 0)
                (if cond_of C_RHOST mt then matchPath (L L_DST) (cs "-") rhost rport else mret false)
            | None => mret true
            end)
  (require (match c_str (u_cond mt) S_METHOD, method with
            | Some ms, Some m => mret (negb (toward S_METHOD) || streq ms (cs "*") || strcasestr ms m)
            | _, _ => mret true
            end)
  (require (unless (L L_PATH =? 0) (CTX_matchPATHs (L L_PATH) None))
  (require (unless (L L_VIA =? 0) (CTX_matchPATH1 (L L_VIA) None (cs "-")))
  (mret ((u_xcond mt =? 0) || evalCondition (u_xcond mt))))))))).
Definition evalCond1X (qtype rtype direction : Z) (mt : Mtab) (clif method moa_method : option (list Z))
  (srcurl rhost : option (list Z)) (rport : Z) : mtm bool :=
  let L i := list_of i mt in
  require (unless (L L_FROM =? 0) (matchFROM (L L_FROM)))
  (require (unless (L L_AUTH =? 0) (matchAUTH (L L_AUTH)))
  (let rest clif := evalCond1_rest qtype rtype direction mt clif method moa_method srcurl rhost rport in
   match clif with
   | Some c =>
       if has direction (dir_of L_VHOST mt) && negb (L L_VHOST =? 0)
       then r ← vhost_name direction mt c;
            match r with
            | Some c => require (match_hostport (L L_VHOST) c) (rest (Some c))
            | None => mret false
            end
       else rest clif
   | None => rest None
   end)).

(** The text under which the value of the conditions is remembered.  At the
    end there is as much of the URL as there is text in front of it. *)
Definition cond_head (direction : Z) (mt : Mtab) (clif method srcurl rhost : option (list Z)) : list Z :=
  let on (b : bool) (o : option (list Z)) := if b then default [] o else [] in
  let dst := negb (list_of L_DST mt =? 0) in
  [48 + direction; SLSH]
  ++ on (negb (list_of L_CLIF mt =? 0) || negb (list_of L_VHOST mt =? 0) || dst) clif ++ [SLSH]
  ++ on dst rhost ++ [SLSH]
  ++ on (bool_decide (c_str (u_cond mt) S_METHOD <> None)) method ++ [SLSH]
  ++ match srcurl with
     | Some url => if list_of L_UDST mt =? 0 then []
                   else au_login (decomp_absurlX url None) ++ [SLSH]
     | None => []
     end.
Definition cond_param (direction : Z) (mt : Mtab) (clif method srcurl rhost : option (list Z)) : list Z :=
  let pp := cond_head direction mt clif method srcurl rhost in
  pp ++ (if list_of L_DST mt =? 0 then [] else take (length pp - 1) (default [] srcurl)).
Definition odst_missing (mt : Mtab) : bool :=
  (has (u_vserv (Src mt)) VHOST_ORIGDST || has (u_vserv (Dst mt)) VSERV_ORIGDST)
  && ((CTX_getodstAddr ctx).2 <=? 0).
(** What is tested each time. *)
Definition cond_refused (mt : Mtab) (dstproto : option (list Z)) : option bool :=
  if odst_missing mt then Some true
  else
    inproto ← (match c_str (u_cond mt) S_DSTPROTO, dstproto with
               | Some l, Some p => wordIsinList l p
               | _, _ => Some true
               end);
    Some (negb inproto
          || match c_rex (u_cond mt) R_REQMATCH, CTX_reqstr ctx with
             | Some pat, Some req => bool_decide (frex_match henv pat req = None)
             | _, _ => false
             end).
Definition cond_key (direction : Z) (mt : Mtab) (clif method srcurl rhost : option (list Z)) : list Z :=
  let param := cond_param direction mt clif method srcurl rhost in
  if lMULTIST ctx then toMD5X ctx param else param.
(** Rule [ai] of the table; its remembered value is used where it is for the
    same text. *)
Definition evalCondX (qtype rtype direction : Z) (ai : nat) (clif dstproto method moa_method : option (list Z))
  (srcurl rhost : option (list Z)) (rport : Z) : mtm bool :=
  st ← mget;
  mt ← mlift (t_tab st !! ai);
  refused ← mlift (cond_refused mt dstproto);
  if (refused : bool) then mret false
  else
    let key := cond_key direction mt clif method srcurl rhost in
    if negb (u_conds_value mt =? 0) && streq (u_conds_param mt) key
    then mret (0 <? u_conds_value mt)
    else
      value ← evalCond1X qtype rtype direction mt clif method moa_method srcurl rhost rport;
      _ ← (match clif with
           | Some _ => mupd (with_tab (alter (set_value (if (value : bool) then 1 else -1) key) ai))
           | None => mret tt
           end);
      mret value.
Definition evalCond (direction : Z) (ai : nat) (clif dstproto method srcurl rhost : option (list Z))
  (rport : Z) : mtm bool :=
  evalCondX 0 0 direction ai clif dstproto method method srcurl rhost rport.
Definition reset_MOUNTconds : mtm unit :=
  mupd (fun st => set_last_forw (-1)
    (with_tab (map (fun mt => set_mapped 0 (set_value 0 (u_conds_param mt) mt))) st)).
Definition portmap (ai : nat) : mtm Z :=
  st ← mget;
  mt ← mlift (t_tab st !! ai);
  if negb (u_iport_mapped mt =? 0) then mret (u_iport_mapped mt)
  else
    let d := u_com (Dst mt) in
    spec ← mlift (u_portmap d);
    let mport := if has (u_vserv (Dst mt)) VSERV_ORIGDST then mapPort1 spec (CTX_getodstAddr ctx).2
                 else portMap ctx (default [] (u_proto d)) (default [] (u_hostn d)) spec in
    _ ← mupd (with_tab (alter (set_mapped mport) ai));
    mret mport.
(** Is [host] that of the right hand, by its name or its address? *)
Definition matchHost (d : UrlCom) (host : list Z) : bool :=
  strcaseeq host (default [] (u_hostn d))
  || match u_hosta d with
     | Some a => streq host a
                 || match gethostaddr_fromcache ctx host with Some h => streq h a | None => false end
     | None => false
     end.

(** *** Matching *)
Definition nocase (mt : Mtab) : bool := cond_of C_NOCASE mt.
(** How much of [url] the site and the path of the left hand take. *)
Definition matchURLX (mt : Mtab) (up : UrlCom) (url : list Z) : mtm Z :=
  let a := decomp_absurl url 1024 in
  let '(host, iport) := scan_hostport services (au_proto a) (au_login a) in
  if negb (u_hostList up =? 0) && bool_decide (u_proto up = Some (au_proto a))
  then m ← matchPath (u_hostList up) (cs "-") host iport;
       if (m : bool)
       then path ← mlift (u_path up);
            plen ← mlift (url_strstrX (au_upath a) path (nocase mt));
            mret (zlen url - zlen (au_upath a) + plen)
       else mret 0
  else mret 0.
Definition dirmatch (mt : Mtab) (patn url : list Z) : option Z :=
  if u_dirmatch mt && negb (strtailchr url =? SLSH)
  then dlen ← url_strstrX patn url (nocase mt);
       Some (if negb (dlen =? 0) && streq (drop (Z.to_nat dlen) patn) [SLSH] then dlen else 0)
  else Some 0.
(** The kind of the match and its length. *)
Definition xmatch (mt : Mtab) (patn url : list Z) : option (Z * Z) :=
  len ← (if bool_decide (patn = []) then Some 0 else url_strstrX url patn (nocase mt));
  if (bool_decide (patn = []) || negb (len =? 0)) && (u_remain (Src mt) || (cat url len =? 0))
  then Some (1, len)
  else len ← dirmatch mt patn url; Some (if len =? 0 then 0 else DIRMATCH, len).

(** The rule on the whole URL, or on its site and path. *)
Definition match_src (mt : Mtab) (isfull : bool) (iurl : list Z) : mtm (Z * Z) :=
  '(m, len) ← mlift (xmatch mt (u_src (Src mt)) iurl);
  if (m =? 0) && bool_decide (u_proto (u_com (Src mt)) <> None) && isfull
  then hlen ← matchURLX mt (u_com (Src mt)) iurl;
       if hlen =? 0 then mret (0, len)
       else path ← mlift (u_path (u_com (Src mt)));
            '(m, len) ← mlift (xmatch mt path (drop (Z.to_nat hlen) iurl));
            mret (m, if m =? 0 then len else len + hlen)
  else mret (m, len).

(** *** One rule on one URL *)

(** What a call is about. *)
Record mt_args := MtArgs {
  ma_qtype : Z; ma_rtype : Z; ma_clif : list Z; ma_method : option (list Z)
}.
(** The URL in front of the first space, its path normalized, and the rest;
    is it a full one, or one that only the rules on such names are for? *)
Record mt_req := MtReq {
  rq_iurl : list Z; rq_rest : list Z; rq_full : bool; rq_urn : bool
}.
Definition mt_request (url : list Z) : option mt_req :=
  let '(word, rest) := wordscan url URLSZ [94; SP; TAB; CR; LF] in
  iurl ← urlpath_normalize word;
  Some (MtReq iurl (take 1023 rest) (isFullURL word)
          (is_prefix (cs "command:") url || is_prefix (cs "string:") url)).
Definition mt_iurl (rq : mt_req) (mt : Mtab) : list Z :=
  if nocase mt then map tolower (rq_iurl rq) else rq_iurl rq.
(** The end of the loop for a rule: the next one, no result, or a result. *)
Inductive verdict :=
| Skip (url : list Z) | Stop (url : list Z) | Found (url : list Z) | Exit (url : list Z)
| Again (url : list Z).

(** Is the rule for requests of this kind at all? *)
Definition with_ssl (mt : Mtab) : bool :=
  negb (cond_of C_WITH_SSL mt)
  || negb (has (c_int (u_cond mt) N_WITH_SSL)
             (if CTX_withSSL ctx then Z.lor S_WITHOUTCL S_WITHOUTSV else Z.lor S_WITHCL S_WITHSV)).
Definition forwards (rq : mt_req) (mt : Mtab) : bool :=
  negb (u_asis (u_com (Src mt)) || u_disabled mt)
  && negb (c_int (u_cond mt) N_DIRECTION =? D_BACKONLY)
  && negb (rq_urn rq && (u_isurn (Src mt) =? 0))
  && with_ssl mt.
(** The client does not access files, but the server is for that. *)
Definition not_for_client (mt : Mtab) : option bool :=
  nfa ← isinListX (cs "smtp,pop,imap,nntp") (CTX_clif_proto ctx) (cs "c");
  match u_proto (u_com (Dst mt)) with
  | Some proto => if lSINGLEP ctx && negb (nfa =? 0)
                  then r ← isinListX (cs "file,ftp,http,https") proto (cs "c"); Some (negb (r =? 0))
                  else Some false
  | None => Some false
  end.
(** The format of the left hand on what is behind the match: no match, or the
    parts that it takes apart. *)
Definition mt_format (mt : Mtab) (rest : list Z) : option (option (list (list Z))) :=
  match u_format (Src mt) with
  | None => Some (Some [])
  | Some fmt =>
      if u_uvfmt (Src mt)
      then '(uv, rsp, rfp) ← uvfromsfX rest fmt;
           Some (if bool_decide (uv = []) || bool_decide (rsp <> [])
                    || (u_format_toEOL (Src mt) && bool_decide (rfp <> []))
                 then None else Some uv)
      else m ← RexpMatch rest fmt; Some (if (m : bool) then Some [] else None)
  end.
Definition for_proxy (mt : Mtab) : bool :=
  negb (cond_of C_ASPROXY mt)
  || Bool.eqb (CTX_asproxy ctx) (negb (has (u_conds_neg (u_cond mt)) C_ASPROXY)).
Definition for_error (qtype : Z) (mt : Mtab) : option bool :=
  if has qtype U_ON_ERROR
  then if negb (flag_of U_ON_ERROR mt) then Some false
       else match c_str (u_cond mt) S_ON_ERROR with
            | Some (c :: l) => r ← isinList (c :: l) (CTX_Rstat ctx); Some (negb (r =? 0))
            | _ => Some true
            end
  else Some (negb (flag_of U_ON_ERROR mt)).

(** The parts of the URL that the rule takes apart, if it is for the URL. *)
Definition mt_matches (a : mt_args) (rq : mt_req) (ai : nat) (mt : Mtab)
  : mtm (option (Z * Z * list (list Z))) :=
  let iurl := mt_iurl rq mt in
  if negb (forwards rq mt) then mret None
  else
    '(m, len) ← match_src mt (rq_full rq) iurl;
    if (m : Z) =? 0 then mret None
    else
      nfc ← mlift (not_for_client mt);
      if (nfc : bool) then mret None
      else
        ourl ← mlift (if u_any (u_com (Dst mt)) then drop_at (length (u_src (Src mt))) iurl
                      else Some iurl);
        let dstproto := if u_any (u_com (Dst mt)) then Some (scan_URI_scheme ourl 128).1 else None in
        ok ← evalCondX (ma_qtype a) (ma_rtype a) CFO ai (Some (ma_clif a)) dstproto (ma_method a)
               (ma_method a) (Some ourl) None 0;
        if negb ok then mret None
        else
          rest ← mlift (drop_at (Z.to_nat len) iurl);
          uv ← mlift (mt_format mt rest);
          match (uv : option (list (list Z))) with
          | None => mret None
          | Some uv =>
              if cond_of C_WITHQUERY mt && negb (strchr iurl QUES) then mret None
              else if negb (for_proxy mt) then mret None
              else
                fe ← mlift (for_error (ma_qtype a) mt);
                mret (if (fe : bool) then Some (m, len, uv) else None)
          end.

(** The protocol and the site of the result. *)
Definition disp_port (ai : nat) (mt : Mtab) (vp ip : Z) : mtm (list Z) :=
  let d := u_com (Dst mt) in
  if negb (flag_of U_DISPPORT mt) then mret []
  else
    mport ← (if has (u_dhost d) DH_VPORT then _ ← mupd (set_my_p vp); mret vp
             else if has (u_dhost d) DH_IPORT then _ ← mupd (set_my_p ip); mret ip
             else if flag_of U_PORTMAP mt then portmap ai
             else mret (u_iport d));
    mret (COLN :: fmt_d mport).
Definition mt_host (myhostport : list Z) (ai : nat) (mt : Mtab) (dproto addr : list Z) : mtm (list Z) :=
  let d := u_com (Dst mt) in
  let '(vh, vp) := scan_hostport services dproto myhostport in
  let '(ih, ip) := (CTX_clif_host ctx, CTX_clif_port ctx) in
  if has (u_vserv (Dst mt)) VSERV_ORIGDST
  then
    let '(odaddr, odport) := CTX_getodstAddr ctx in
    let mp := match u_portmap d with Some pm => mapPort1 pm odport | None => u_iport d end in
    mret (odaddr ++ if flag_of U_DISPPORT mt || negb (mp =? serviceport services dproto)
                    then COLN :: fmt_d mp else [])
  else if Z.land (u_dhost d) DH_VHOSTPORT =? DH_VHOSTPORT
  then _ ← mupd (set_my_h vh); _ ← mupd (set_my_p vp);
       mret (if vp =? serviceport services dproto then vh else myhostport)
  else
    host ← (if has (u_dhost d) DH_VHOST then _ ← mupd (set_my_h vh); mret vh
            else if has (u_dhost d) DH_IHOST
            then _ ← mupd (set_my_h ih);
                 if flag_of U_DISPPORT mt then mret ih
                 else _ ← mupd (set_my_p ip); mret (ih ++ COLN :: fmt_d ip)
            else mret addr);
    port ← disp_port ai mt vp ip;
    mret (host ++ port).
(** The text, and whether a path may follow as it is ([delput]). *)
Definition mt_site (myhostport : list Z) (ai : nat) (mt : Mtab) : mtm (list Z * bool) :=
  let d := u_com (Dst mt) in
  addr ← mlift (match u_hosta d with
                | Some a => if flag_of U_RESOLV mt then Some a else u_hostn d
                | None => u_hostn d
                end);
  dproto ← mlift (if u_proto_ASIS d then Some (CTX_clif_proto ctx) else u_proto d);
  let up := u_prefix d ++ dproto ++ [COLN] in
  if bool_decide (addr <> [])
  then host ← mt_host myhostport ai mt dproto addr;
       mret (up ++ cs "//" ++ (if bool_decide (u_userpass d = []) then [] else u_userpass d ++ [AT])
             ++ host, has (u_dhost d) DH_PHOST)
  else if u_emptysite d then mret (up ++ cs "//", false)
  else if u_path2site d then mret (up ++ cs "//", true)
  else mret (up, true).
(** The path, the query, and what remains of the URL. *)
Definition mt_path (mt : Mtab) (m : Z) (st : list Z * bool) : list Z * bool :=
  match u_path (u_com (Dst mt)) with
  | Some path =>
      let up := st.1 ++ (if st.2 then [] else [SLSH]) ++ path in
      (if has m DIRMATCH then removelast up else up, true)
  | None => st
  end.
Definition mt_query (mt : Mtab) (st : list Z * bool) : list Z * bool :=
  match u_query (u_com (Dst mt)) with
  | Some query => (st.1 ++ QUES :: query, true)
  | None => st
  end.
Definition mt_subst (mt : Mtab) (st : list Z * bool) : list Z * bool :=
  if u_subst (Dst mt)
  then let '(rc, buf) := pilsner st.1 in if rc =? 0 then st else (buf, st.2)
  else st.
Definition mt_remain (mt : Mtab) (rest : list Z) (uv : list (list Z)) (st : list Z * bool)
  : option (list Z) :=
  if bool_decide (rest = []) || negb (u_remain (Dst mt)) then Some st.1
  else
    let up := st.1 ++ (if st.2 then [] else [SLSH]) in
    match u_format (Dst mt) with
    | Some fmt => if u_uvfmt (Src mt) && u_uvfmt (Dst mt)
                  then o ← uvtosf (Z.of_nat URLSZ - zlen up) fmt uv; Some (up ++ o)
                  else Some (up ++ rewrite_path fmt rest)
    | None => Some (up ++ rest)
    end.
(** A file that must exist. *)
Definition mt_fileis (mt : Mtab) (url : list Z) : list Z * bool :=
  if negb (cond_of C_FILEIS mt) then (url, true)
  else if is_prefix (cs "file:") url && File_is ctx (drop 5 url)
  then (if (cat url 5 =? SLSH) && negb (cat url 6 =? SLSH)
        then take 5 url ++ cs "//localhost" ++ drop 5 url else url, true)
  else (url, false).
(** The rest is put where the URL ended before its file was looked for. *)
Definition put_rest (up : nat) (rest url : list Z) : list Z :=
  if bool_decide (rest = []) || Nat.ltb (length url) up then url else take up url ++ rest.
Definition mt_rewrite (a : mt_args) (rq : mt_req) (ai : nat) (mt : Mtab) (m len : Z)
  (uv : list (list Z)) : mtm verdict :=
  let clif := ma_clif a in
  st ← (if flag_of U_RECURSIVE mt then mret ([], true)
        else mt_site (if cat clif 0 =? 45 then tl clif else clif) ai mt);
  rest ← mlift (drop_at (Z.to_nat len) (mt_iurl rq mt));
  url ← mlift (mt_remain mt rest uv (mt_subst mt (mt_query mt (mt_path mt m st))));
  let up := length url in
  let url := if flag_of U_MYFILE mt then myfile_path ctx url else url in
  let '(url, ok) := mt_fileis mt url in
  if negb ok then mret (Skip url)
  else
    let url := put_rest up (rq_rest rq) url in
    _ ← mupd (set_last_hit (Z.of_nat ai + 1));
    mret (if flag_of (Z.lor U_RECURSIVE U_AGAIN) mt then Again url else Found url).

(** A directory without its slash is moved to the one with it. *)
Definition gen_moved (a : mt_args) (iurl : list Z) : list Z :=
  let clif := ma_clif a in
  if CTX_asproxy ctx then iurl ++ [SLSH]
  else CTX_clif_proto ctx ++ cs "://" ++ (if cat clif 0 =? 45 then tl clif else clif) ++ iurl ++ [SLSH].
(** Is the rule one on requests of another kind, which it ends without being
    applied? *)
Definition other_kind (a : mt_args) (mt : Mtab) : bool :=
  let q := has (ma_qtype a) in
  let f m := flag_of m mt in
  let where_ := c_int (u_cond mt) N_WHERE in
  (q U_WHERE && (negb (f U_WHERE) || negb (has where_ (ma_rtype a))))
  || (negb (q U_WHERE) && f U_WHERE && negb (has where_ W_REQURL))
  || (q U_MOVED_TO && negb (f U_MOVED_TO)) || (q U_USE_PROXY && negb (f U_USE_PROXY))
  || (negb (q U_MOVED_TO) && f U_MOVED_TO) || (negb (q U_USE_PROXY) && f U_USE_PROXY).
Definition mount_rule (a : mt_args) (rq : mt_req) (ai : nat) (url : list Z) : mtm verdict :=
  st ← mget;
  mt ← mlift (t_tab st !! ai);
  r ← mt_matches a rq ai mt;
  match (r : option (Z * Z * list (list Z))) with
  | None => mret (Skip url)
  | Some (m, len, uv) =>
      let iurl := mt_iurl rq mt in
      rest ← mlift (drop_at (Z.to_nat len) iurl);
      if has (ma_qtype a) U_MOVED_TO
         && (has m DIRMATCH || (u_path2site (u_com (Dst mt)) && negb (strchr rest SLSH)))
      then mret (Exit (gen_moved a iurl))
      else if other_kind a mt then mret (Found url)
      else if u_asis (u_com (Dst mt))
      then mret (if negb (cond_of C_DEFAULT mt) && bool_decide (u_opts mt <> []) then Found url
                 else Stop url)
      else if u_any (u_com (Dst mt)) then mret (Found (rest ++ rq_rest rq))
      else mt_rewrite a rq ai mt m len uv
  end.

(** *** The table *)
Fixpoint mount_rules (n ai : nat) (a : mt_args) (rq : mt_req) (url : list Z) : mtm (verdict * nat) :=
  match n with
  | O => mret (Stop url, ai)
  | S n' => v ← mount_rule a rq ai url;
            match (v : verdict) with
            | Skip url => mount_rules n' (S ai) a rq url
            | v => mret (v, ai)
            end
  end.
(** The options of the rule, the URL, and the rule. *)
Definition mt_result : Type := option (list Z) * list Z * option nat.
Definition mt_exit (ai : nat) (mt : Mtab) (url : list Z) : mtm mt_result :=
  _ ← mupd (set_last_forw (Z.of_nat ai)); mret (Some (u_opts mt), url, Some ai).
Definition mt_found (a : mt_args) (ai : nat) (mt : Mtab) (url : list Z) : mtm mt_result :=
  let q := has (ma_qtype a) in
  if q U_MOVED_TO
  then if flag_of U_MOVED_TO mt then mt_exit ai mt url else mret (None, url, Some ai)
  else if q U_WHERE
  then let url := if is_prefix (cs "string:") url then drop 7 url else url in
       if has (c_int (u_cond mt) N_WHERE) (ma_rtype a) then mt_exit ai mt url
       else mret (None, url, None)
  else if q U_USE_PROXY
  then if flag_of U_USE_PROXY mt then mt_exit ai mt url else mret (None, url, None)
  else if flag_of (Z.lor U_MOVED_TO U_USE_PROXY) mt then mret (None, url, None)
  else mt_exit ai mt url.
(** [lev] more levels of recursion are allowed. *)
Fixpoint mount_url_toXX (lev : nat) (a : mt_args) (url : list Z) : mtm mt_result :=
  _ ← mupd (set_my_h []);
  rq ← mlift (mt_request url);
  st ← mget;
  '(v, ai) ← mount_rules (length (t_tab st)) 0 a rq url;
  st ← mget;
  match v with
  | Skip url | Stop url => mret (None, url, None)
  | Found url => mt ← mlift (t_tab st !! (ai : nat)); mt_found a ai mt url
  | Exit url => mt ← mlift (t_tab st !! (ai : nat)); mt_exit ai mt url
  | Again url =>
      match lev with
      | O => mt ← mlift (t_tab st !! (ai : nat)); mt_found a ai mt url
      | S lev' => mount_url_toXX lev' a url
      end
  end.
Definition MOUNT_LEVELS : nat := 8.
Definition mount_url_toX (clif method : option (list Z)) (url : list Z) (qtype : Z) : mtm mt_result :=
  mount_url_toXX MOUNT_LEVELS (MtArgs qtype 0 (default (CTX_clif_hostport ctx) clif) method) url.
Definition CTX_mount_url_to (clif method : option (list Z)) (url : list Z)
  : mtm (option (list Z) * list Z) :=
  fst <$> mount_url_toX clif method url U_MOUNT.
Definition non_MOVED : Z := 100.
Definition CTX_moved_url_to (clif method : option (list Z)) (url : list Z) : mtm (Z * list Z) :=
  '(opts, url, rmt) ← mount_url_toX clif method url U_MOVED_TO;
  st ← mget;
  match opts : option (list Z), rmt : option nat with
  | Some _, Some ai => mt ← mlift (t_tab st !! ai); mret (c_int (u_cond mt) N_MOVED_TO, url)
  | None, Some _ => mret (non_MOVED, url)
  | _, None => mret (0, url)
  end.
Definition CTX_rewrite_referer (clif method : option (list Z)) (url : list Z)
  : mtm (option (list Z) * list Z) :=
  fst <$> mount_url_toXX MOUNT_LEVELS
            (MtArgs U_WHERE W_REFERER (default (CTX_clif_hostport ctx) clif) method) url.
Definition CTX_changeproxy_url_to (clif method : option (list Z)) (url : list Z)
  : mtm (option (list Z) * list Z * list Z) :=
  '(opts, url, rmt) ← mount_url_toX clif method url U_USE_PROXY;
  st ← mget;
  match opts : option (list Z), rmt : option nat with
  | Some _, Some ai => mt ← mlift (t_tab st !! ai);
                       mret (opts, url, default [] (c_str (u_cond mt) S_USEPROXY))
  | _, _ => mret (opts, url, [])
  end.
Definition CTX_onerror_url_to (clif method : option (list Z)) (url : list Z)
  : mtm (option (list Z) * list Z) :=
  fst <$> mount_url_toX clif method url U_ON_ERROR.
End mount.
