(* ===== verification/MountFrom.v ===== *)
(** * [MOUNT]: from real URLs to virtual ones, and the queries of the table
    ([src/mount.cpp])

    [CTX_mount_url_fromL] looks for the first rule whose right hand a URL of a
    server belongs to and gives the virtual URL that stands for it.  The
    client's name of this host ([delegate]) may be replaced on the way.  The
    pointer to the options by which the other components know a rule is its
    place in the table. *)
From S2P Require Import Prelude Strings Text ScanList ListOps UrlEsc Service UvFmt Url.
From S2P Require Import StrId HostAddr Glob HostMatch HostParse Mount MountInit MountTo.
From stdpp Require Import options gmap.
#[local] Open Scope Z_scope.

Section mount.
Context {T : Type} `{IdTable T} (henv : hl_env) (penv : hp_env) (ci : ClientInfo).
Context (services : list Service) (pls : list PathList) (hp : hp_st T) (ctx : mt_ctx).

(** [hostcmp(h1,h2) == 0] ([src/inets.cpp]). *)
Definition hostcmp (cacheonly : bool) (host1 host2 : list Z) : bool :=
  let hi := gethostintMin ctx cacheonly in
  strcasecmp_eq host1 host2 || (negb (hi host1 =? -1) && negb (hi host2 =? -1) && (hi host1 =? hi host2)).
(** The host if it is in the list, and the first host of the list if not
    ([src/hostlist.cpp]). *)
Definition topofPath1 (hlid : Z) (hostport : list Z) : mtm (list Z) := fun st =>
  let '(host, r) := if strchr hostport COLN then wordscan hostport 128 [94; COLN] else (hostport, []) in
  let port := if cat r 0 =? COLN then atoi (tl r) else 0 in
  pl ← pls !! Z.to_nat (hlid - 1);
  let HL := get_list hp (pl_hlist pl) in
  match hostIsinListX henv (tab_of hp) ci HL
          (HlQuery (Some [STAR]) host (Some host) (VAddr (a_ints AddrNull) (port mod 2 ^ 16) [] 0)
             (Some []) []) (t_peer st) with
  | Ret hi peer =>
      let st := MtSt (t_tab st) (t_last_hit st) (t_last_forw st) (t_my_h st) (t_my_p st) peer in
      if hi =? 0
      then Hp ← head (hl_List HL);
           Some (match h_port Hp with
                 | Some (p :: _) => clip 128 (h_name Hp ++ COLN :: fmt_d (atoi p))
                 | _ => h_name Hp
                 end, st)
      else Some (hostport, st)
  | _ => None
  end.

(** *** The right hand *)

(** The options [nvserv=] and [avserv=] with a name. *)
Definition vserv_match (mt : Mtab) (vserv host : list Z) (iport : Z) : mtm bool :=
  let av := has (dvserv mt) VSERV_AVSERV in
  let port_is (pp : list Z) :=
    ((cat pp 0 =? 0) && (iport =? u_stdport (u_com (Dst mt))))
    || ((cat pp 0 =? COLN) && (iport =? atoi (tl pp))) in
  if has (dvserv mt) VSERV_THRU
  then
    let '(vhost, vport) := CTX_vhost ctx in
    if negb (list_of L_VHOST mt =? 0)
    then matchPath henv penv ci pls hp (list_of L_VHOST mt) (cs "-") vhost vport
    else mret ((vport =? iport) && if av then hostcmp false vhost host else strcaseeq vhost host)
  else if av
  then let '(vhost, pp) := wordscan vserv 256 [94; COLN] in
       mret (hostcmp false vhost host && port_is pp)
  else mret (match strheadstrX vserv host true with Some pp => port_is pp | None => false end).
Definition path_match (mt : Mtab) (path : list Z) : option Z :=
  let upath := default [] (u_path (u_com (Dst mt))) in
  if is_prefix upath path then Some 1
  else d ← dirmatch mt upath path; Some (if d =? 0 then 0 else DIRMATCH).
Definition dstmatch (ai : nat) (mt : Mtab) (proto host : list Z) (iport : Z) (path : list Z) : mtm Z :=
  let d := u_com (Dst mt) in
  aproto ← mlift (if u_proto_ASIS d then Some (CTX_clif_proto ctx) else u_proto d);
  if negb (streq proto aproto) then mret 0
  else
    match (if has (dvserv mt) (Z.lor VSERV_BYNAME VSERV_AVSERV) then u_genvhost d else None) with
    | Some vserv => b ← vserv_match mt vserv host iport;
                    if (b : bool) then mlift (path_match mt path) else mret 0
    | None =>
        mport ← (if flag_of U_PORTMAP mt then portmap ctx ai else mret (u_iport d));
        if negb (mport =? 0) && negb (mport =? iport) then mret 0
        else
          st ← mget;
          ahost ← mlift (u_hostn d);
          let ok :=
            if negb (u_dhost d =? 0) && ((iport =? mport) || (iport =? t_my_p st))
               && hostcmp true host (t_my_h st)
            then true
            else if has (dvserv mt) VSERV_BYNAME then strcaseeq host ahost
            else bool_decide (ahost = []) || matchHost ctx d host in
          if (ok : bool) then mlift (path_match mt path) else mret 0
    end.

(** *** One rule *)
Record back_args := BackArgs {
  bk_proto : list Z; bk_hostport : list Z; bk_host : list Z; bk_port : Z; bk_path : list Z;
  bk_search : option (list Z); bk_dproto : list Z
}.
Definition backwards (ai : nat) (st : mt_st) (mt : Mtab) : bool :=
  negb (u_asis (u_com (Dst mt)) || u_disabled mt)
  && negb (flag_of U_WHERE mt && negb (has (c_int (u_cond mt) N_WHERE) W_RESPONSE))
  && negb (flag_of (Z.lor U_MOVED_TO U_USE_PROXY) mt)
  && negb (c_int (u_cond mt) N_DIRECTION =? D_FORWONLY)
  && negb ((c_int (u_cond mt) N_DIRECTION =? D_BACKIFFORW) && negb (t_last_forw st =? Z.of_nat ai))
  && for_proxy ctx mt.
Definition search_match (mt : Mtab) (search : option (list Z)) : bool :=
  match u_query (u_com (Dst mt)) with
  | None | Some [] => true
  | Some q => match search with
              | None => false
              | Some s => is_prefix q s && (u_remain (Dst mt) || streq s q)
              end
  end.
(** The name of this host in the result. *)
Definition back_base (mt : Mtab) (delegate : list Z) : mtm (list Z) :=
  if flag_of U_MYBASE mt then mlift (c_str (u_cond mt) S_MYBASE)
  else if cond_of C_VHOST mt && negb (list_of L_VHOST mt =? 0)
  then topofPath1 (list_of L_VHOST mt) delegate
  else mret delegate.
(** The path in the format of the left hand; [None] inside is no match. *)
Definition back_format (mt : Mtab) (path : list Z) : option (option (list Z)) :=
  match u_rformat (Dst mt) with
  | None => Some (Some path)
  | Some rfmt =>
      '(uv, rsp, rfp) ← uvfromsfX path rfmt;
      if bool_decide (uv = []) || bool_decide (rfp <> []) then Some None
      else if u_format_toEOL (Dst mt) && bool_decide (rsp <> []) then Some None
      else if is_set [0; SP; TAB; CR; LF] (cat rsp 0)
      then sfmt ← u_rformat (Src mt);
           x ← uvtosf (Z.of_nat URLSZ) sfmt uv; Some (Some (clip 1024 (clip 1024 x ++ rsp)))
      else Some (Some path)
  end.
(** The port is left out where it is that of the protocol. *)
Definition std_base (dproto delegate : list Z) : list Z :=
  match cut_at COLN delegate with
  | (_, Some r) =>
      if atoi r =? serviceport services dproto
      then let dhost := (wordscan delegate 128 [94; COLN]).1 in
           dhost ++ match cut_at SLSH r with
                    | (_, Some p) => word_scan (SLSH :: p) (128 - length dhost)
                    | (_, None) => []
                    end
      else delegate
  | (_, None) => delegate
  end.
Definition back_url (b : back_args) (mt : Mtab) (m plen : Z) (delegate path : list Z)
  : option (list Z) :=
  let base := std_base (bk_dproto b) delegate in
  let d := u_com (Dst mt) in
  let up := (if u_fullurl (Src mt) then [] else bk_dproto b ++ cs "://" ++ base) ++ u_src (Src mt) in
  let up := if has m DIRMATCH then removelast up else up in
  let up := up ++ (if bool_decide (u_proto d = None)
                   then bk_proto b ++ cs "://" ++ bk_hostport b ++ [SLSH] else []) in
  let up := up ++ (if u_path2site d && negb (streq (bk_hostport b) base)
                      && bool_decide (bk_hostport b <> [])
                   then bk_hostport b ++ [SLSH] else []) in
  let up := up ++ (if streq (bk_proto b) (cs "gopher")
                   then if strtailchr up =? SLSH then cs "1" else cs "/1" else []) in
  path ← drop_at (Z.to_nat plen) path;
  let up := up ++ path in
  match bk_search b with
  | None => Some up
  | Some s => if u_qlen d =? 0 then Some (up ++ QUES :: s)
              else s ← drop_at (Z.to_nat (u_qlen d)) s; Some (up ++ s)
  end.
(** The next rule with the name of the host for it, no result, or a result. *)
Inductive back_verdict :=
| BackSkip (delegate : list Z) | BackStop | Back (opts url : list Z).
Definition back_rule (b : back_args) (ai : nat) (delegate : list Z) : mtm back_verdict :=
  st ← mget;
  mt ← mlift (t_tab st !! ai);
  if negb (backwards ai st mt) then mret (BackSkip delegate)
  else
    m ← (if u_any (u_com (Dst mt)) then mret 1
         else dstmatch ai mt (bk_proto b) (bk_host b) (bk_port b) (bk_path b));
    if (m : Z) =? 0 then mret (BackSkip delegate)
    else if negb (search_match mt (bk_search b)) then mret (BackSkip delegate)
    else
      ok ← evalCond henv penv ci services pls hp ctx CBO ai (Some delegate) (Some (bk_proto b)) None
             None (Some (bk_host b)) (bk_port b);
      if negb ok then mret (BackSkip delegate)
      else
        let plen := u_plen (u_com (Dst mt)) - (if has m DIRMATCH then 1 else 0) in
        delegate ← back_base mt delegate;
        rest ← mlift (drop_at (Z.to_nat plen) (bk_path b));
        if negb (u_remain (Dst mt)) && bool_decide (rest <> []) then mret (BackSkip delegate)
        else
          path ← mlift (back_format mt (bk_path b));
          match (path : option (list Z)) with
          | None => mret (BackSkip delegate)
          | Some path =>
              if u_asis (u_com (Src mt)) then mret BackStop
              else
                url ← mlift (back_url b mt m plen delegate path);
                _ ← mupd (set_last_hit (Z.of_nat ai + 1));
                mret (Back (u_opts mt) url)
          end.

Fixpoint back_rules (n ai : nat) (b : back_args) (delegate : list Z)
  : mtm (option (list Z * list Z)) :=
  match n with
  | O => mret None
  | S n' => v ← back_rule b ai delegate;
            match (v : back_verdict) with
            | BackSkip delegate => back_rules n' (S ai) b delegate
            | BackStop => mret None
            | Back opts url => mret (Some (opts, url))
            end
  end.
(** The options of the rule and the virtual URL, which is taken to fit the
    caller's string. *)
Definition CTX_mount_url_fromL (proto hostport path : list Z) (search : option (list Z))
  (dproto delegate : list Z) : mtm (option (list Z * list Z)) :=
  let dproto := if bool_decide (dproto = []) then cs "http" else dproto in
  let '(host, iport) := if bool_decide (hostport = []) then ([], 0)
                        else scan_hostport_in services 128 proto hostport in
  st ← mget;
  back_rules (length (t_tab st)) 0 (BackArgs proto hostport host iport path search dproto) delegate.

(** *** The rules that hold for a client *)
Definition scan_mtab_entry (mt : Mtab)
  : option (list Z * option (list Z) * list Z * list Z * list Z * Z * option (list Z) * list Z) :=
  let d := u_com (Dst mt) in
  hostn ← u_hostn d;
  Some (u_src (Src mt), u_proto d, u_user d, u_pass d, hostn, u_iport d, u_path d, u_opts mt).
Fixpoint scan_mtab_loop (n ai : nat) (vhost clif : list Z)
  : mtm (list (list Z * option (list Z) * list Z * list Z * list Z * Z * option (list Z) * list Z)) :=
  match n with
  | O => mret []
  | S n' =>
      st ← mget;
      mt ← mlift (t_tab st !! ai);
      let name := if bool_decide (vhost <> []) && negb (list_of L_VHOST mt =? 0) then vhost else clif in
      ok ← evalCond henv penv ci services pls hp ctx CFB ai (Some name) None None None None 0;
      l ← scan_mtab_loop n' (S ai) vhost clif;
      mret (if (ok : bool) then option_list (scan_mtab_entry mt) ++ l else l)
  end.
Definition CTX_scan_mtabX (vhost : list Z)
  : mtm (list (list Z * option (list Z) * list Z * list Z * list Z * Z * option (list Z) * list Z)) :=
  st ← mget;
  scan_mtab_loop (length (t_tab st)) 0 vhost (CTX_clif_hostport ctx).
End mount.

(** ** One condition *)

(** A condition that is given as a text, on a client and the interface that
    it came to; the lists of hosts grow by its list. *)
Definition CTX_evalMountCond {T : Type} `{IdTable T} (henv : hl_env) (penv : hp_env) (fuel : nat)
  (ci : ClientInfo) (ctx : mt_ctx) (opts user chost : list Z) (cport : Z) (ihost : list Z) (iport : Z)
  (pls : list PathList) (hp : hp_st T) : mtm (bool * list PathList * hp_st T) :=
  let path := ihost ++ COLN :: fmt_d iport ++ 33 :: chost ++ COLN :: fmt_d cport in
  let with_list (what text : list Z) (f : list PathList -> hp_st T -> Z -> mtm bool) :=
    '(pls, hp, hl) ← mlift (makePathList penv fuel what text pls hp);
    b ← f pls hp hl; mret (b, pls, hp) in
  if is_prefix (cs "from=") opts
  then with_list (cs "SERVER.from") (drop 5 opts)
         (fun pls hp hl => matchPath henv penv ci pls hp hl user chost cport)
  else if is_prefix (cs "host=") opts
  then with_list (cs "SERVER.clif") (drop 5 opts)
         (fun pls hp hl => matchPath henv penv ci pls hp hl user ihost iport)
  else if is_prefix (cs "path=") opts
  then with_list (cs "SERVER.path") (drop 5 opts)
         (fun pls hp hl => CTX_matchPATHs henv penv ci pls hp ctx hl (Some path))
  else with_list (cs "SERVER.via")
         (if is_prefix (cs "via=") opts || is_prefix (cs "src=") opts then drop 4 opts else opts)
         (fun pls hp hl => CTX_matchPATH1 henv penv ci pls hp ctx hl (Some path) user).

(** ** Queries *)
Definition mount_disable_lasthit (ms_last : Z) (tab : list Mtab) : option (list Mtab * Z) :=
  if ms_last =? 0 then Some (tab, 0)
  else mt ← tab !! Z.to_nat (ms_last - 1);
       Some (<[Z.to_nat (ms_last - 1) := set_disabled true mt]> tab, ms_last).
Definition mount_enable (last : Z) (tab : list Mtab) : option (list Mtab) :=
  if last =? 0 then Some tab
  else mt ← tab !! Z.to_nat (last - 1); Some (<[Z.to_nat (last - 1) := set_disabled false mt]> tab).
Definition mount_nodefaults (on : bool) (tab : list Mtab) : list Mtab :=
  map (fun mt => if cond_of C_DEFAULT mt then set_disabled on mt else mt) tab.
Definition opts2mt (opts : option nat) (tab : list Mtab) : option Mtab := ai ← opts; tab !! ai.
Definition MountVbase (opts : option nat) (tab : list Mtab) : option (list Z) :=
  (fun mt => u_src (Src mt)) <$> opts2mt opts tab.
Definition MountRpath (opts : option nat) (tab : list Mtab) : option (list Z) :=
  mt ← opts2mt opts tab; u_path (u_com (Dst mt)).
Definition MountSerno (opts : option nat) (tab : list Mtab) : Z :=
  match opts2mt opts tab with Some mt => u_serno mt | None => 0 end.
Definition MountSernoOpts (serno : Z) (tab : list Mtab) : option (list Z) :=
  if (0 <? serno) && (serno <=? zlen tab) then u_opts <$> tab !! Z.to_nat (serno - 1) else None.
Definition MOUNT_nvserv (opts : option nat) (tab : list Mtab) : bool :=
  match opts2mt opts tab with Some mt => has (dvserv mt) VSERV_BYNAME | None => false end.
Definition getMountSrcByDst (dst : list Z) (tab : list Mtab) : option (list Z) :=
  (fun mt => u_src (Src mt)) <$> find (fun mt => streq (u_src (Dst mt)) dst) tab.
(** The options about the name of the virtual server, and of the real one. *)
Definition getOpt1Vserv (services : list Service) (ctx : mt_ctx) (dst_proto opts : list Z)
  : option (Z * list Z) :=
  '(g, gv) ← getOpt1 opts (cs "genvhost");
  '(a, av) ← getOpt1 opts (cs "avserv");
  '(n, nv) ← getOpt1 opts (cs "nvserv");
  let '(found, vserv) :=
    if negb (g =? 0) then (g, gv) else if negb (a =? 0) then (a, av)
    else if negb (n =? 0) then (if bool_decide (nv = []) then 0 else n, nv) else (0, nv) in
  Some (found,
        if negb (found =? 0) && streq vserv (cs "-thru")
        then let '(vhost, vport) := CTX_vhost ctx in HostPort services dst_proto vhost vport
        else vserv).
Definition getOpt1Rserv (ctx : mt_ctx) (opts : list Z) : option (Z * list Z) :=
  '(found, rserv) ← getOpt1 opts (cs "rserv");
  Some (if found =? 0 then (0, rserv)
        else (found,
              match strheadstrX rserv ORIGDST_HOST true with
              | Some pp =>
                  let '(odaddr, odport) := CTX_getodstAddr ctx in
                  odaddr ++ COLN :: fmt_d (if cat pp 0 =? COLN then mapPort1 (tl pp) odport else odport)
              | None => rserv
              end)).
Definition count_rules (p : Mtab -> bool) (tab : list Mtab) : Z := zlen (List.filter p tab).
Definition nondefaultMounted : list Mtab -> Z :=
  count_rules (fun mt => negb (u_asis (u_com (Dst mt))) && negb (cond_of C_DEFAULT mt)).
Definition Mounted : list Mtab -> Z := count_rules (fun mt => negb (u_asis (u_com (Dst mt)))).
Definition RefererMounts : list Mtab -> Z :=
  count_rules (fun mt => flag_of U_WHERE mt && has (c_int (u_cond mt) N_WHERE) W_REFERER).
Definition MountedByAuth (tab : list Mtab) : bool := existsb (fun mt => negb (list_of L_AUTH mt =? 0)) tab.
Definition MountedConditional : list Mtab -> Z := count_rules (cond_of C_CLCONDS).
