(* ===== verification/HostText.v ===== *)
(** * Host lists: from the text to the verdict

    [HostParse] and [HostMatch] together: what a list of host names and name
    patterns, negated with [!] or not, means when it is read and then asked.
    The reader is followed through [addHostList1], [makeHost] and
    [classify]; the items that come out are the ones that [HostSpec] gives a
    meaning to. *)
From S2P Require Import Prelude Strings Glob ScanList HashTab StrId HostAddr HostMatch HostSpec HostParse.
From stdpp Require Import options.
Local Open Scope Z_scope.

(** ** Searching for what is not there *)


Lemma strstr_none c p s : existsb (Z.eqb c) s = false -> strstr s (c :: p) = None.
Proof.
  induction s as [|x s IH]; [done|]. cbn [existsb strstr is_prefix].
  intros H. zprop. rewrite (proj2 (Z.eqb_neq c x)) by done. cbn [andb]. by apply IH.
Qed.


(** ** Names *)

Definition name_char (c : Z) : bool := isalnum c || (c =? 46) || (c =? 42) || (c =? 45).

(** A host name or a name pattern, without the forms that mean something
    else: an address pattern, a virtual domain [.-], a port behind two dots. *)
Definition plain_name (n : list Z) : Prop :=
  forallb name_char n = true /\
  In (cat n 0) (cs "*0123456789abcdefghijklmnopqrstuvwxyzABCDEFGHIJKLMNOPQRSTUVWXYZ") /\
  strtailchr n <> 45 /\ strstr n (cs ".-") = None /\ strstr n (cs "..") = None /\
  canonWildcardAddr n = n.

(** The text of an item: the name, maybe behind an exclamation mark. *)
Definition name_text (t : list Z) : Prop :=
  plain_name (list_item t).2.

Lemma plain_no n c : plain_name n -> name_char c = false -> existsb (Z.eqb c) n = false.
Proof. intros (H & _) Hc. by eapply forallb_no. Qed.

(** A property of the first characters of names, by computation. *)
Lemma plain_hd n (p : Z -> bool) : plain_name n ->
  forallb p (cs "*0123456789abcdefghijklmnopqrstuvwxyzABCDEFGHIJKLMNOPQRSTUVWXYZ") = true ->
  p (cat n 0) = true.
Proof. intros (_ & Hin & _) Hp. by apply (proj1 (forallb_forall _ _) Hp). Qed.

Lemma plain_hd_neq n c : plain_name n ->
  forallb (fun d => negb (d =? c))
    (cs "*0123456789abcdefghijklmnopqrstuvwxyzABCDEFGHIJKLMNOPQRSTUVWXYZ") = true ->
  (cat n 0 =? c) = false.
Proof. intros Hn Hc. pose proof (plain_hd n _ Hn Hc) as E. cbv beta in E. by apply negb_true_iff. Qed.

Lemma plain_cons n : plain_name n -> exists c n', n = c :: n'.
Proof.
  intros Hn. destruct n as [|c n']; [|eauto].
  pose proof (plain_hd_neq [] 0 Hn eq_refl). done.
Qed.

Lemma before_vdom_none n : strstr n (cs ".-") = None -> before_vdom n = None.
Proof.
  induction n as [|c n IH]; [done|]. cbn [strstr before_vdom].
  destruct (is_prefix (cs ".-") (c :: n)); [done|]. intros H. by rewrite IH.
Qed.
Lemma scanVdomain_none n : strstr n (cs ".-") = None -> scanVdomain n = None.
Proof. intros H. unfold scanVdomain. by rewrite before_vdom_none. Qed.

(** The items that a text makes. *)
Definition text_host (t : list Z) : Host :=
  MkHost false (list_item t).2 (Addr F4 F4 F4 F4) (Addr 0 0 0 0)
    [(0,0);(0,0);(0,0);(0,0)] None None None [] (list_item t).1 0 None HT_BYHOST.

Lemma text_host_name t : name_text t -> name_item (text_host t).
Proof.
  intros (_ & Hin & Hl & _). unfold name_item, text_host. cbn.
  split_and!; try done. apply list_item_op.
Qed.

Lemma name_text_cases t : name_text t ->
  (t = (list_item t).2 /\ (list_item t).1 = ON_EQ) \/
  (t = 33 :: (list_item t).2 /\ (list_item t).1 = OFF_EQ).
Proof.
  unfold name_text, list_item. destruct (Z.eqb_spec (cat t 0) 33) as [E|E]; [|auto].
  destruct t as [|c t]; [done|]. right. rewrite cat_0 in E. by subst c.
Qed.

Lemma text_no t c : name_text t -> name_char c = false -> c <> 33 ->
  existsb (Z.eqb c) t = false.
Proof.
  intros Ht Hc H33. destruct (name_text_cases t Ht) as [[-> _]|[-> _]]; [by apply plain_no|].
  cbn [existsb]. rewrite (proj2 (Z.eqb_neq c 33)) by done. by apply plain_no.
Qed.

(** ** The reader on a name *)
Section names.
Context {T : Type} `{IdTable T} (env : hp_env).

(** A name that is not resolved when it is read: a pattern, or an unknown
    host; and it is not the name of a list. *)
Definition stays_name (st : hp_st T) (n : list Z) : Prop :=
  list_id st n <= 0 /\ (existsb (Z.eqb STAR) n = true \/ VA_gethostVAddr env n = None).

Lemma streq_plain n p : plain_name n ->
  forallb (fun d => negb (d =? cat p 0))
    (cs "*0123456789abcdefghijklmnopqrstuvwxyzABCDEFGHIJKLMNOPQRSTUVWXYZ") = true ->
  streq n p = false.
Proof using. intros Hn Hp. apply streq_hd. by apply Z.eqb_neq, plain_hd_neq. Qed.

Lemma classify_name rec r h n st : plain_name n -> stays_name st n ->
  hl_flags (get_list st r) = 0 ->
  classify env rec r h n st = Some (st, put_name h n).
Proof using.
  intros Hn (Hid & Hres) Hf. unfold classify. cbv zeta.
  unfold strneq, HostOnClientside, HostIncomingIFX, HostIncomingIF, HostOutgoingIF, TimePeriod.
  rewrite (proj2 (Z.ltb_ge _ _) Hid), Hf.
  change (cat (cs "--expire.") 0) with 45.
  rewrite !(plain_hd_neq n 45), !(plain_hd_neq n 95) by done.
  rewrite !(streq_plain n) by done.
  rewrite (plain_no n 91) by done. change (has 0 HL_BYNAMEONLY) with false. cbn [andb orb].
  destruct (existsb (Z.eqb STAR) n) eqn:E; [done|].
  rewrite (strtailstr_last n (cs ".-")) by (try apply Hn; done).
  rewrite bool_decide_false by (intros H'; by apply H'). cbn [orb].
  destruct Hres as [?| ->]; done.
Qed.

Lemma split_ports_plain n : plain_name n -> split_ports n = (n, None).
Proof using.
  intros Hn. unfold split_ports. rewrite index_of_none by (by apply plain_no).
  destruct Hn as (_ & _ & _ & _ & -> & _). done.
Qed.

Lemma split_family_plain n : plain_name n -> split_family n = (0, n).
Proof using. intros Hn. unfold split_family. by rewrite (plain_hd_neq n 95). Qed.

Lemma makeHost_name_plain rec r h n st : plain_name n -> stays_name st n ->
  hl_flags (get_list st r) = 0 -> h_user h = None -> h_type h = 0 ->
  makeHost_name env rec r [] None h n st =
  Some (st, put_vdomain (put_name (put_type h HT_BYHOST) n) None).
Proof using.
  intros Hn Hs Hf Hu Ht. unfold makeHost_name, split_users.
  rewrite index_of_none by (by apply plain_no). cbn [mbind option_bind].
  rewrite Ht, Hu. change (has 0 HT_BYANY) with false. cbv iota.
  unfold fix_clif, HostIncomingIFX. rewrite !(plain_hd_neq n 45) by done. cbn [andb orb].
  rewrite split_ports_plain by done. cbn [mbind option_bind].
  rewrite bool_decide_false by (intros H'; by apply H').
  cbn [mbind option_bind]. destruct Hn as (H1 & H2 & H3 & H4 & H5 & H6).
  rewrite H6, split_family_plain by (by split_and!).
  rewrite classify_name; [|by split_and!|done|done]. cbn [mbind option_bind].
  unfold put_type. cbn. by rewrite Ht.
Qed.

Lemma makeHost_text rec fuel r t st : name_text t -> stays_name st (list_item t).2 ->
  hl_flags (get_list st r) = 0 -> p_size st <> 0 ->
  makeHost env rec (S fuel) r t st = Some (st, text_host t).
Proof using.
  intros Ht Hs Hf Hsz. cbn [makeHost]. unfold init_hostListTab.
  rewrite (proj2 (Z.eqb_neq _ 0) Hsz). cbn [mbind option_bind].
  assert (Hno : forall c p, name_char c = false -> c <> 33 -> strstr t (c :: p) = None)
    by (intros; by apply strstr_none, text_no).
  unfold split_proto. change (cs "://") with [58; 47; 47]. rewrite Hno by done.
  cbn [mbind option_bind]. change (cs "//") with [47; 47]. rewrite Hno by done.
  unfold makeHost_item.
  assert (Hop : split_op t = ((list_item t).1, (list_item t).2) /\
                forall p, In p [cs "&"; cs "|"; cs "!"] -> streq t p = false).
  { destruct (plain_cons _ Ht) as (c & n' & En).
    assert (Hc : (c =? 33) = false /\ (c =? 43) = false /\ (c =? 38) = false /\ (c =? 124) = false).
    { pose proof (fun k => plain_hd_neq _ k Ht) as Hk. rewrite En, cat_0 in Hk.
      split_and!; by apply Hk. }
    destruct Hc as (H1 & H2 & H3 & H4). split.
    - destruct (name_text_cases t Ht) as [[Et Eo]|[Et Eo]]; rewrite Eo.
      + rewrite En in Et |- *. subst t. unfold split_op. rewrite cat_0, H1. cbn [andb]. cbv zeta iota. by rewrite cat_0, H1, H2.
      + rewrite Et at 1. rewrite En. unfold split_op. rewrite cat_0. change (33 =? 33) with true.
        change 1 with (0 + 1). rewrite cat_succ, cat_0, H1 by done. done.
    - intros p Hp. apply bool_decide_false. intros E.
      destruct (name_text_cases t Ht) as [[Et _]|[Et _]]; rewrite Et, En in E;
        destruct Hp as [<-|[<-|[<-|[]]]]; injection E as E; subst; try done. }
  destruct Hop as [-> Hst]. rewrite !Hst by (cbn; tauto).
  set (n := (list_item t).2) in *. rewrite scanVdomain_none by apply Ht.
  rewrite (plain_hd_neq n 45) by done. cbv zeta iota. change (0 =? 0) with true.
  rewrite Hf. cbv iota. change (has 0 HL_BYAGENT) with false.
  change (has (h_type (put_type (put_op NewHost (list_item t).1) 0)) HT_BYAGENT) with false.
  cbn [orb]. rewrite index_of_none by (by apply plain_no). cbn [mbind option_bind].
  replace (streq n (cs ".")) with false by (symmetry; by apply streq_plain).
  by rewrite makeHost_name_plain.
Qed.

(** *** The state *)

Definition with_items (st : hp_st T) (r : nat) (hs : list Host) : hp_st T :=
  set_list st r (set_items (get_list st r) hs).
Definition items_of (st : hp_st T) (r : nat) : list Host := hl_List (get_list st r).

Lemma get_set (st : hp_st T) r hl : (r < length (p_store st))%nat ->
  get_list (set_list st r hl) r = hl.
Proof using.
  intros Hr. unfold get_list, set_list. cbn [p_store].
  rewrite nth_lookup, list_lookup_insert by done. by rewrite decide_True.
Qed.
Lemma set_set (st : hp_st T) r a b : set_list (set_list st r a) r b = set_list st r b.
Proof using. unfold set_list. cbn. by rewrite list_insert_insert, decide_True. Qed.
Lemma with_with st r a b : (r < length (p_store st))%nat ->
  with_items (with_items st r a) r b = with_items st r b.
Proof using. intros Hr. unfold with_items. by rewrite get_set, set_set. Qed.
Lemma items_with st r hs : (r < length (p_store st))%nat -> items_of (with_items st r hs) r = hs.
Proof using. intros Hr. unfold items_of, with_items. by rewrite get_set. Qed.

(** The reader works on a new list [r] without flags. *)
Definition ready (st : hp_st T) (r : nat) : Prop :=
  (r < length (p_store st))%nat /\ p_size st <> 0 /\ hl_flags (get_list st r) = 0.
Lemma ready_with st r hs : ready st r -> ready (with_items st r hs) r.
Proof using.
  intros (H1 & H2 & H3). unfold ready, with_items. rewrite get_set by done.
  split_and!; [|done|done]. unfold set_list. cbn. by rewrite length_insert.
Qed.
Lemma stays_with st r hs n : stays_name st n -> stays_name (with_items st r hs) n.
Proof using. done. Qed.

Lemma with_items_id st r : (r < length (p_store st))%nat -> with_items st r (items_of st r) = st.
Proof using.
  intros Hr. unfold with_items, items_of. destruct st as [a b c d s e].
  unfold set_list, get_list, set_items. cbn in *. f_equal.
  destruct (lookup_lt_is_Some_2 s r Hr) as [hl Ehl]. rewrite nth_lookup, Ehl. cbn.
  destruct hl. by apply list_insert_id.
Qed.

(** *** One element *)

Lemma strchr_none s c : existsb (Z.eqb c) s = false -> c <> 0 -> strchr s c = false.
Proof using. intros H1 H2. unfold strchr. by rewrite H1, (proj2 (Z.eqb_neq c 0)). Qed.

Lemma addHL_text rec r t (st : hp_st T) : name_text t -> addHL rec t r st = Some (st, false).
Proof using.
  intros Ht. unfold addHL. destruct (plain_cons _ Ht) as (c & n' & En).
  assert (Hne : t <> [])
    by (destruct (name_text_cases t Ht) as [[-> _]|[-> _]]; rewrite ?En; done).
  rewrite bool_decide_false by done.
  assert (E : exists op, (if strchr (cs "+!-?") (cat t 0) then (cat t 0, tl t) else (43, t)) =
                         (op, (list_item t).2)).
  { destruct (name_text_cases t Ht) as [[Et _]|[Et _]].
    - exists 43. assert (Hs : strchr (cs "+!-?") (cat t 0) = false).
      { rewrite Et. pose proof (plain_hd _ (fun c => negb (strchr (cs "+!-?") c)) Ht eq_refl) as Hc.
        by apply negb_true_iff in Hc. }
      by rewrite Hs, <- Et.
    - exists 33. by rewrite Et. }
  destruct E as [op ->]. unfold hostpart. rewrite index_of_none by (by apply plain_no).
  by rewrite (plain_hd_neq _ LBRACE).
Qed.

Definition star_first (t : list Z) : bool := (cat t 0 =? 33) && negb (streq t (cs "!*")).
Definition add_text (hs : list Host) (t : list Z) : list Host :=
  (if bool_decide (hs = []) && star_first t then [text_host [STAR]] else hs) ++ [text_host t].

Lemma addHostList1_text rec r t st : name_text t -> stays_name st (list_item t).2 ->
  ready st r ->
  (items_of st r = [] -> star_first t = true ->
   rec r [STAR] st = Some (with_items st r [text_host [STAR]])) ->
  addHostList1_step env rec t r st = Some (with_items st r (add_text (items_of st r) t)).
Proof using.
  intros Ht Hs Hr Hstar. unfold addHostList1_step. cbv zeta.
  destruct (plain_cons _ Ht) as (c & n' & En).
  pose proof (fun k => plain_hd_neq _ k Ht) as Hc. rewrite En, cat_0 in Hc.
  assert (Hsl : forall p, In p [cs "/a"; cs "/u"; cs "/R"] -> streq t p = false).
  { intros p Hp. apply streq_hd. destruct (name_text_cases t Ht) as [[-> _]|[-> _]].
    - rewrite En, cat_0. pose proof (Hc 47 eq_refl).
      destruct Hp as [<-|[<-|[<-|[]]]]; change (c <> 47); lia.
    - destruct Hp as [<-|[<-|[<-|[]]]]; done. }
  rewrite !Hsl by (cbn; tauto).
  assert (Hp : is_prefix (cs "!!") t = false /\ is_prefix (cs "+!") t = false).
  { change (cs "!!") with [33; 33]. change (cs "+!") with [43; 33].
    destruct (name_text_cases t Ht) as [[-> _]|[-> _]]; rewrite En; cbn [is_prefix];
      rewrite !(Z.eqb_sym _ c), (Hc 33) by done; [|done].
    by rewrite (Hc 43). }
  destruct Hp as [-> ->]. rewrite addHL_text by done. cbn [mbind option_bind].
  destruct Hr as (Hlen & Hsz & Hf).
  assert (E : (if bool_decide (hl_List (get_list st r) = []) && (cat t 0 =? 33)
                  && negb (streq t (cs "!*")) then rec r (cs "*") st else Some st) =
              Some (with_items st r (if bool_decide (items_of st r = []) && star_first t
                                     then [text_host [STAR]] else items_of st r))).
  { unfold items_of in *. rewrite <- andb_assoc. fold (star_first t).
    case_bool_decide as E; cbn [andb]; [destruct (star_first t) eqn:Es; [by apply Hstar|]|];
      by rewrite with_items_id. }
  rewrite E. cbn [mbind option_bind]. unfold add_text.
  set (hs := if bool_decide (items_of st r = []) && star_first t
             then [text_host [STAR]] else items_of st r).
  fold (items_of (with_items st r hs) r). rewrite items_with by done.
  fold (with_items (with_items st r hs) r (hs ++ [NewHost])). rewrite with_with by done.
  rewrite makeHost_text;
    [|done|by apply stays_with| |done]; cycle 1.
  { unfold with_items. by rewrite get_set. }
  cbn [mbind option_bind]. fold (items_of (with_items st r (hs ++ [NewHost])) r).
  rewrite items_with by done. fold (with_items (with_items st r (hs ++ [NewHost])) r
    (<[length hs := text_host t]> (hs ++ [NewHost]))).
  rewrite with_with by done. by rewrite insert_app_r_alt, Nat.sub_diag by done.
Qed.

(** *** A comma list of names *)

Definition comma_join (texts : list (list Z)) : list Z :=
  join COMMA (map (fun t => (t, t)) texts).

Lemma plain_star : plain_name [STAR].
Proof using. split_and!; try done. by left. Qed.

Lemma addHostList1_name fuel r t st : name_text t -> stays_name st (list_item t).2 ->
  stays_name st [STAR] -> ready st r ->
  addHostList1 env (S (S fuel)) r t st = Some (with_items st r (add_text (items_of st r) t)).
Proof using.
  intros Ht Hs Hst Hr. change (addHostList1 env (S (S fuel)) r t st) with
    (addHostList1_step env (addHostList1 env (S fuel)) t r st).
  apply addHostList1_text; [done..|]. intros Hnil _.
  change (addHostList1 env (S fuel) r [STAR] st) with
    (addHostList1_step env (addHostList1 env fuel) [STAR] r st).
  rewrite addHostList1_text; [|apply plain_star|done..]. unfold add_text.
  rewrite Hnil, bool_decide_true by done. done.
Qed.

Lemma name_text_elem t : name_text t -> elem_text COMMA t t.
Proof using.
  intros Ht. apply el_plain.
  - assert (Hno : Forall (fun c => c <> BSLASH /\ c <> LBRACE /\ c <> RBRACE /\ c <> COMMA) t).
    { apply Forall_forall. intros c Hc. apply list_elem_of_In in Hc.
      assert (Hex : forall k, existsb (Z.eqb k) t = false -> c <> k).
      { intros k Hk ->. apply not_true_iff_false in Hk. apply Hk, existsb_exists.
        exists k. by rewrite Z.eqb_refl. }
      split_and!; apply Hex, text_no; done. }
    clear Ht. induction Hno as [|c t' (H1 & H2 & H3 & H4) _ IH]; [constructor|].
    by apply et_char.
  - destruct (plain_cons _ Ht) as (c & n' & En).
    pose proof (plain_hd_neq _ LBRACE Ht eq_refl) as Hc. apply Z.eqb_neq in Hc.
    destruct (name_text_cases t Ht) as [[-> _]|[-> _]]; done.
Qed.

Lemma texts_elems texts : Forall name_text texts ->
  texts_ok COMMA (map (fun t => (t, t)) texts).
Proof using.
  intros Ht. split.
  - apply Forall_map. eapply Forall_impl; [exact Ht|]. intros t. apply name_text_elem.
  - induction Ht as [|t texts Ht Hts IH]; [done|]. destruct texts; [|done].
    cbn. destruct (plain_cons _ Ht) as (c & n' & En).
    destruct (name_text_cases t Ht) as [[-> _]|[-> _]]; [rewrite En|]; done.
Qed.

(** The state after some elements. *)
Lemma elems_fold_texts fuel r st : stays_name st [STAR] -> ready st r -> forall texts hs n,
  Forall name_text texts -> Forall (fun t => stays_name st (list_item t).2) texts ->
  (elems_fold (rec_elem (addHostList1 env (S (S fuel))) r) COMMA (map (fun t => (t, t)) texts)
     (Some (with_items st r hs)) n).1.1 =
  Some (with_items st r (fold_left add_text texts hs)).
Proof using.
  intros Hst Hr. induction texts as [|t texts IH]; intros hs n Ht Hs; [done|].
  apply Forall_cons in Ht as [Ht Hts]. apply Forall_cons in Hs as [Hs Hss].
  cbn [map elems_fold fold_left fst]. unfold rec_elem at 1. cbn [mbind option_bind].
  rewrite addHostList1_name; [|done|by apply stays_with..|by apply ready_with].
  rewrite items_with, with_with by apply Hr. change (negb (0 =? 0)) with false. cbv iota.
  by apply IH.
Qed.

Lemma read_names fuel r st texts : stays_name st [STAR] -> ready st r ->
  texts <> [] -> Forall name_text texts ->
  Forall (fun t => stays_name st (list_item t).2) texts ->
  scan_commaListL (addHostList1 env (S (S fuel))) (comma_join texts) r st =
  Some (with_items st r (fold_left add_text texts (items_of st r))).
Proof using.
  intros Hst Hr Hne Ht Hs. unfold scan_commaListL, comma_join.
  assert (Hhd : cat (join COMMA (map (fun t => (t, t)) texts)) 0 <> LBRACE).
  { destruct texts as [|t texts]; [done|]. apply Forall_cons in Ht as [Ht _].
    destruct (plain_cons _ Ht) as (c & n' & En).
    pose proof (plain_hd_neq _ LBRACE Ht eq_refl) as Hc. rewrite En, cat_0 in Hc.
    apply Z.eqb_neq in Hc.
    destruct (name_text_cases t Ht) as [[-> _]|[-> _]]; rewrite ?En; by destruct texts. }
  rewrite scan_ListLX_plain, scan_ListX_fold;
    [|done|by apply texts_elems|by right; left|done].
  cbn [mbind option_bind]. rewrite <- (with_items_id st r) at 1 by apply Hr.
  by apply elems_fold_texts.
Qed.
End names.

(** ** What the list means *)

Lemma cstr_ok_tolower s : cstr_ok s -> cstr_ok (map tolower s).
Proof.
  intros Hs. apply Forall_map. eapply Forall_impl; [exact Hs|].
  intros c Hc. unfold cchar_ok, tolower, isupper in *. cbv beta. zcases.
Qed.

Lemma glob_star s : cstr_ok s -> glob [STAR] s = true.
Proof.
  intros Hs. destruct (rexpmatchX_gmatch [STAR] s [] Hs) as (b & E & Hb).
  unfold glob, rexpmatch. rewrite E. apply bool_decide_true. f_equal. apply Hb.
  rewrite <- (app_nil_r s). apply gm_star. constructor.
Qed.

Lemma name_match_star s alias : cstr_ok s -> name_match [STAR] s alias = true.
Proof. intros Hs. unfold name_match. rewrite glob_star by done. by rewrite !orb_true_r. Qed.

Lemma last_match_texts m texts :
  last_match (fun h => m (h_name h)) (map text_host texts) = decided m texts.
Proof. induction texts as [|t texts IH]; [done|]. cbn [map last_match decided]. by rewrite IH. Qed.

Lemma fold_add_text texts : forall hs, hs <> [] ->
  fold_left add_text texts hs = hs ++ map text_host texts.
Proof.
  induction texts as [|t texts IH]; intros hs Hne; [by rewrite app_nil_r|].
  cbn [fold_left map]. unfold add_text at 2. rewrite bool_decide_false by done. cbn [andb].
  rewrite IH by (by destruct hs). by rewrite <- app_assoc.
Qed.

Lemma items_of_texts t texts :
  fold_left add_text (t :: texts) [] =
  (if star_first t then [text_host [STAR]] else []) ++ map text_host (t :: texts).
Proof.
  cbn [fold_left]. unfold add_text at 2. rewrite bool_decide_true by done. cbn [andb].
  rewrite fold_add_text by (by destruct (star_first t)). by rewrite <- app_assoc.
Qed.

Lemma read_verdict m t texts : m [STAR] = true ->
  last_match (fun h => m (h_name h)) (fold_left add_text (t :: texts) []) = Some true <->
  in_list m (t :: texts) = true.
Proof.
  intros Hm. rewrite items_of_texts. unfold in_list, star_first.
  destruct (Z.eqb_spec (cat t 0) 33) as [Hc|Hc]; cbn [andb].
  - unfold streq. case_bool_decide as Et; cbn [negb app].
    + rewrite last_match_texts. subst t. cbn [decided]. destruct (decided m texts) as [[|]|]; [done..|].
      change ((list_item (cs "!*")).2) with [STAR]. rewrite Hm. done.
    + cbn [last_match]. rewrite last_match_texts. destruct (decided m (t :: texts)) as [[|]|]; [done..|].
      change (h_name (text_host [STAR])) with [STAR]. rewrite Hm. done.
  - cbn [app]. rewrite last_match_texts. by destruct (decided m (t :: texts)) as [[|]|].
Qed.

(** A list that was read from names says what the names say. *)
Lemma add_text_names texts : Forall name_text texts ->
  Forall name_item (fold_left add_text texts []).
Proof.
  intros Ht. destruct texts as [|t texts]; [constructor|]. rewrite items_of_texts. apply Forall_app. split.
  - destruct (star_first t); repeat constructor; apply text_host_name, plain_star.
  - apply Forall_map. eapply Forall_impl; [exact Ht|]. intros. by apply text_host_name.
Qed.
Lemma names_verdict henv tab ci hl q peer texts : hl_flags hl = 0 ->
  hl_List hl = fold_left add_text texts [] -> texts <> [] -> Forall name_text texts ->
  cstr_ok (q_cname q) -> scanVdomain (q_cname q) = None ->
  exists hi, hostIsinListX henv tab ci hl q peer = Ret hi peer /\ 0 <= hi /\
    (0 < hi <->
     in_list (fun n => name_match n (map tolower (q_cname q)) (q_alias q)) texts = true).
Proof.
  intros Hf Hl Hne Ht Hc Hv.
  destruct (hostIsinListX_name_list henv tab ci hl q peer) as (hi & E & Hm & Hhi);
    [done|rewrite Hl; by apply add_text_names|done|].
  exists hi. split_and!; [done|done|]. rewrite Hm, Hl. destruct texts as [|t texts]; [done|].
  apply (read_verdict (fun n => name_match n (map tolower (q_cname q)) (q_alias q))).
  by apply name_match_star, cstr_ok_tolower.
Qed.

(** C5. A host list written as a comma list of names and name patterns,
    some negated with an exclamation mark, from the text to the verdict: the
    reader accepts it, and asked about a host the list says yes exactly when
    the last pattern that matches the host is not a negated one; a host that
    no pattern matches is in the lists that begin with a negated pattern.
    (The names are not resolved when they are read and do not name lists.) *)
Theorem host_list_text_verdict {T} `{IdTable T} (env : hp_env) (henv : hl_env) (ci : ClientInfo)
  (fuel r : nat) (st : hp_st T) (texts : list (list Z)) (q : hl_query) (peer : vaddr) :
  ready st r -> items_of st r = [] -> texts <> [] -> Forall name_text texts ->
  stays_name env st [STAR] -> Forall (fun t => stays_name env st (list_item t).2) texts ->
  cstr_ok (q_cname q) -> scanVdomain (q_cname q) = None ->
  exists st' hi,
    scan_commaListL (addHostList1 env (S (S fuel))) (comma_join texts) r st = Some st' /\
    hostIsinListX henv (tab_of st') ci (get_list st' r) q peer = Ret hi peer /\ 0 <= hi /\
    (0 < hi <->
     in_list (fun n => name_match n (map tolower (q_cname q)) (q_alias q)) texts = true).
Proof.
  intros Hr Hnil Hne Ht Hst Hs Hc Hv. pose proof (read_names env fuel r st texts Hst Hr Hne Ht Hs) as Hread.
  rewrite Hnil in Hread. set (hs := fold_left add_text texts []) in *.
  destruct (names_verdict henv (tab_of (with_items st r hs)) ci (get_list (with_items st r hs) r) q
    peer texts) as (hi & E & Hhi & Hm); [by apply (ready_with st r hs)|apply (items_with st r hs), Hr|done..|].
  by exists (with_items st r hs), hi.
Qed.

(** A process whose resolver knows no host. *)
Definition hp_env0 : hp_env :=
  HpEnv (fun _ => None) (fun _ => false) (fun _ => None) (cs "gw") (cs "localhost")
    (cs "localhost,./.,-C/.,10.0.*").
Definition hp_st0 : hp_st HTable :=
  default minit_hostlist
    (init_hostListTab hp_env0 (addHostList1 hp_env0 4) minit_hostlist).
Definition ex_st : hp_st HTable := (new_list hp_st0 (MkHostList (cs "PERMIT") [] 0 false)).1.
Definition ex_r : nat := length (p_store hp_st0).
Definition ex_texts : list (list Z) := [cs "!*.evil.org"; cs "www.evil.org"; cs "!www.*"].

Example init_1 : hl_cnt (get_list hp_st0 3) = 4 /\ p_id hp_st0 = 3 /\ list_id hp_st0 (cs ".socksdst") = 3.
Proof. vm_compute. done. Qed.

Lemma host_list_text_verdict_witness :
  exists st' hi,
    scan_commaListL (addHostList1 hp_env0 2) (cs "!*.evil.org,www.evil.org,!www.*") ex_r ex_st
      = Some st' /\
    hostIsinListX env0 (tab_of st') ci0 (get_list st' ex_r)
      (HlQuery None (cs "FTP.evil.org") None AddrNull None []) AddrNull = Ret hi AddrNull /\ hi = 0.
Proof.
  assert (Hnames : Forall name_text ex_texts).
  { repeat (apply Forall_cons; split); [..|by apply Forall_nil];
      (split; [reflexivity|split_and!; [simpl; tauto|by vm_compute|reflexivity..]]). }
  assert (Hstays : stays_name hp_env0 ex_st [STAR]
                   /\ Forall (fun t => stays_name hp_env0 ex_st (list_item t).2) ex_texts).
  { split; [split; [by vm_compute|by left]|].
    repeat (apply Forall_cons; split); [..|by apply Forall_nil];
      (split; [by vm_compute|by right]). }
  destruct (host_list_text_verdict hp_env0 env0 ci0 0 ex_r ex_st ex_texts
    (HlQuery None (cs "FTP.evil.org") None AddrNull None []) AddrNull)
    as (st' & hi & E & Hm & Hhi & Hv).
  - split_and!; [by vm_compute; lia|by vm_compute|by vm_compute].
  - by vm_compute.
  - done.
  - exact Hnames.
  - apply Hstays.
  - apply Hstays.
  - by apply (bool_decide_unpack _).
  - reflexivity.
  - exists st', hi. split_and!; [exact E|exact Hm|].
    assert (Hno : ~ 0 < hi) by (intros Hlt; apply Hv in Hlt; by vm_compute in Hlt).
    lia.
Defined.

(** A protected list is changed all the same: the error is logged, and the
    new element is added. *)
Lemma protected_list_is_changed :
  let add := addHostListTab (addHostList1 hp_env0 4) in
  (st ← add (cs "L/p") (cs "a.*") hp_st0; st ← add (cs "L") (cs "b.*") st;
   r ← p_tab st !! 4; Some (map h_name (items_of st r), has (hl_flags (get_list st r)) HL_PROTECT))
  = Some ([cs "a.*"; cs "b.*"], true).
Proof. vm_compute. reflexivity. Qed.
