(* ===== verification/MountOrder.v ===== *)
(** * [MOUNT]: the order of the rules

    The parameters are read to a table without duplicates, in the order of
    their serial numbers; its initialization puts the rules of a higher
    priority, and those whose virtual URL is more specific, in front. *)
From S2P Require Import Prelude Strings ScanList UrlEsc Service UvFmt Url Bsort.
From S2P Require Import HashTab StrId HostMatch HostParse Mount MountInit HostText.
From Stdlib Require Import QArith Sorted.
From stdpp Require Import options gmap list list_numbers.
#[local] Open Scope Z_scope.

(** ** What has to be in front *)

(** [c] is to be found before [a]: its priority is higher, or it is as high
    and its left hand is longer than the prefix that [a] matches, and
    contains it. *)
Definition precedes (c a : Mtab) : Prop :=
  (u_priority (u_cond a) < u_priority (u_cond c))%Q \/
  ((u_priority (u_cond a) == u_priority (u_cond c))%Q /\
   strstr (u_src (Src c)) (u_src (Src a)) <> None /\ u_src (Src c) <> u_src (Src a) /\
   u_remain (Src a) = true).
Definition serial_lt (x y : Mtab) : Prop := u_serno x < u_serno y.

(** What the order depends on, which no later step changes. *)
Definition rule_key (mt : Mtab) : Z * Q * list Z * bool * list Z * list Z :=
  (u_serno mt, u_priority (u_cond mt), u_src (Src mt), u_remain (Src mt), u_whole mt, u_opts mt).

Lemma strstr_within s p : strstr s p <> None <-> exists a b, s = a ++ p ++ b.
Proof.
  pose proof (strstr_spec s p) as H. destruct (strstr s p) as [r|].
  - destruct H as (a & b & -> & ->). split; [by exists a, b|done].
  - split; [done|]. intros (a & b & E). by apply H in E.
Qed.
Lemma strstr_trans a b c : strstr a b <> None -> strstr b c <> None -> strstr a c <> None.
Proof.
  rewrite !strstr_within. intros (x & y & ->) (x' & y' & ->). exists (x ++ x'), (y' ++ y).
  by rewrite <- !app_assoc.
Qed.
Lemma strstr_antisym a b : strstr a b <> None -> strstr b a <> None -> a = b.
Proof.
  rewrite !strstr_within. intros (x & y & Ha) (x' & y' & Hb).
  assert (length a = length x + length b + length y)%nat by (rewrite Ha, !length_app; lia).
  assert (length b = length x' + length a + length y')%nat by (rewrite Hb, !length_app; lia).
  assert (x = []) as -> by (apply nil_length_inv; lia).
  assert (y = []) as -> by (apply nil_length_inv; lia).
  by rewrite Ha, app_nil_r.
Qed.

(** [mtabcomp] answers as [precedes] says. *)
Lemma precedes_first c a : precedes c a -> mtabcomp a c = S2_S1.
Proof.
  unfold mtabcomp. intros [Hlt|(Heq & Hin & Hne & Hr)]; [by rewrite (proj1 (Qlt_alt _ _) Hlt)|].
  rewrite (proj1 (Qeq_alt _ _) Heq). unfold streq. rewrite bool_decide_false by congruence.
  rewrite bool_decide_false; [|intros H; apply Hne; by apply strstr_antisym].
  cbn [andb]. by rewrite bool_decide_true, Hr.
Qed.
Lemma precedes_second c a : precedes c a -> mtabcomp c a = S1_S2.
Proof.
  unfold mtabcomp. intros [Hlt|(Heq & Hin & Hne & Hr)]; [by rewrite (proj1 (Qgt_alt _ _) Hlt)|].
  apply Qeq_sym in Heq. rewrite (proj1 (Qeq_alt _ _) Heq). unfold streq.
  rewrite bool_decide_false by congruence. by rewrite bool_decide_true, Hr.
Qed.
(** Of two rules in serial order only one that the other does not precede is
    put in front, for a reason that does not depend on the numbers. *)
Lemma serial_first x a : serial_lt x a -> 0 < mtabcomp x a ->
  (u_priority (u_cond x) < u_priority (u_cond a))%Q \/
  ((u_priority (u_cond x) == u_priority (u_cond a))%Q /\
   (u_remain (Src a) = true -> strstr (u_src (Src a)) (u_src (Src x)) <> None /\ u_remain (Src x) = true)).
Proof.
  unfold serial_lt, mtabcomp. intros Hs.
  destruct (Qcompare_spec (u_priority (u_cond x)) (u_priority (u_cond a))) as [E|E|E];
    [|by left|done].
  intros Hc. right. split; [done|]. intros Hr. rewrite Hr in Hc.
  unfold streq in Hc. case_bool_decide as Hx.
  - rewrite Hx. split; [apply strstr_within; exists [], []; by rewrite app_nil_r|].
    destruct (u_remain (Src x)) eqn:Ex; [done|]. exfalso. unfold same_src_comp in Hc.
    rewrite Hr, Ex in Hc. by cbn in Hc.
  - rewrite andb_true_r in Hc. case_bool_decide as H1; [done|]. case_bool_decide as H2.
    + cbn [andb] in Hc. destruct (u_remain (Src x)); [done|].
      rewrite (proj2 (Z.ltb_lt _ _) Hs) in Hc. done.
    + cbn [andb] in Hc. rewrite (proj2 (Z.ltb_lt _ _) Hs) in Hc. done.
Qed.
Lemma precedes_back c x a : serial_lt x a -> 0 < mtabcomp x a -> precedes c a -> precedes c x.
Proof.
  intros Hs Hc Hp. destruct (serial_first x a Hs Hc) as [H|[H Hr]].
  - left. destruct Hp as [Hp|(Hp & _)]; [by eapply Qlt_trans|].
    eapply Qlt_le_trans; [exact H|]. rewrite Hp. apply Qle_refl.
  - destruct Hp as [Hp|(Hp & Hin & Hne & Ha)]; [left; by rewrite H|].
    destruct (Hr Ha) as [H1 H2]. right. split; [by rewrite H|]. split; [by eapply strstr_trans|].
    split; [|done]. intros E. rewrite E in *. apply Hne. by apply strstr_antisym.
Qed.
Lemma sort_mtab_ordered tab : StronglySorted serial_lt tab ->
  StronglySorted (fun a b => ~ precedes b a) (sort_mtab tab).
Proof.
  apply Bsort_in_front.
  - intros c a H. by rewrite precedes_first.
  - intros c a H. by rewrite precedes_second.
  - apply precedes_back.
Qed.

(** ** The table that the parameters are read to *)

(** The serial numbers are the places, no rule is there twice, and the array
    is not exceeded. *)
Record table_wf (tab : list Mtab) : Prop := {
  wf_serno : map u_serno tab = seqZ 1 (zlen tab);
  wf_whole : NoDup (map u_whole tab);
  wf_room : zlen tab <= MTAB_SIZE
}.
Lemma table_wf_nil : table_wf [].
Proof. split; [done|constructor|done]. Qed.
Lemma table_wf_serial tab : table_wf tab -> StronglySorted serial_lt tab.
Proof.
  intros [H _ _]. revert H. generalize 1. induction tab as [|mt tab IH]; intros k H; [constructor|].
  assert (zlen (mt :: tab) = Z.succ (zlen tab)) as Hz by (unfold zlen; cbn [length]; lia).
  rewrite Hz, seqZ_cons in H by (unfold zlen; lia). injection H as Hk Ht.
  rewrite Z.pred_succ in Ht. constructor; [by eapply IH|].
  apply Forall_forall. intros x Hx. assert (Hin : u_serno x ∈ map u_serno tab) by (by apply list_elem_of_fmap_2).
  rewrite Ht in Hin. apply elem_of_seqZ in Hin. unfold serial_lt. lia.
Qed.

Section read.
Context {T : Type} `{IdTable T} (env : hp_env) (fuel : nat) (mc : mount_conf).

(** A state whose table was not initialized yet. *)
Definition fresh (ms : mount_st (T := T)) : Prop := table_wf (ms_tab ms) /\ ms_init_from ms = 0.

Lemma add_MOUNT_tab src dst opts (ms ms' : mount_st (T := T)) : add_MOUNT env fuel mc src dst opts ms = Some ms' ->
  ms_init_from ms' = ms_init_from ms /\
  (ms_tab ms' = ms_tab ms \/
   exists mt, ms_tab ms' = ms_tab ms ++ [mt] /\ u_serno mt = zlen (ms_tab ms) + 1 /\
     zlen (ms_tab ms) < MTAB_SIZE /\ ~ In (u_whole mt) (map u_whole (ms_tab ms))).
Proof using.
  unfold add_MOUNT. destruct (existsb _ _) eqn:Ew; [intros [= <-]; by auto|].
  destruct (Z.leb_spec MTAB_SIZE (mtabN ms)); [intros [= <-]; by auto|].
  intros E. repeat (apply bind_Some in E as (? & ? & E); repeat case_match); simplify_eq.
  cbn. split; [done|]. right. eexists. split; [done|]. cbn. split; [done|]. split; [done|].
  intros (mt & Hmt & Hin)%in_map_iff.
  assert (X : existsb (fun mt => streq (u_whole mt) (src ++ [SP] ++ dst ++ [SP] ++ opts)) (ms_tab ms) = true).
  { apply existsb_exists. exists mt. split; [done|]. unfold streq. by apply bool_decide_true. }
  congruence.
Qed.
Lemma add_MOUNT_wf src dst opts (ms ms' : mount_st (T := T)) : add_MOUNT env fuel mc src dst opts ms = Some ms' ->
  fresh ms -> fresh ms'.
Proof using.
  unfold fresh. intros [-> H1]%add_MOUNT_tab [[Hs Hw Hr] Hf]. split; [|done].
  destruct H1 as [->|(mt & -> & Hn & Hlt & Hin)]; [by split|]. split.
  - rewrite map_app, Hs. cbn [map]. rewrite Hn. unfold zlen in *. rewrite length_app. cbn [length].
    rewrite Nat2Z.inj_add, seqZ_app by lia. f_equal. cbn. by rewrite Z.add_comm.
  - rewrite map_app. apply NoDup_app. split; [done|]. split; [|apply NoDup_singleton].
    intros x Hx Hy. apply list_elem_of_singleton in Hy as ->. apply Hin. by apply list_elem_of_In.
  - unfold zlen in *. rewrite length_app. cbn [length]. lia.
Qed.
Lemma set_MOUNT_wf src dst opts (ms ms' : mount_st (T := T)) : set_MOUNT env fuel mc src dst opts ms = Some ms' ->
  fresh ms -> fresh ms'.
Proof using.
  unfold set_MOUNT. intros (m1 & E1 & E)%bind_Some Hwf. eapply add_MOUNT_wf; [exact E|].
  destruct (ms_tab ms) eqn:Et; [|by injection E1 as <-].
  apply bind_Some in E1 as (m2 & E2 & E1). eapply add_MOUNT_wf; [exact E1|]. by eapply add_MOUNT_wf.
Qed.
Lemma scan_MOUNT_wf spec (ms ms' : mount_st (T := T)) : scan_MOUNT env fuel mc spec ms = Some ms' ->
  fresh ms -> fresh ms'.
Proof using.
  unfold scan_MOUNT. repeat case_match; first [by intros [= <-]|intros E; by eapply set_MOUNT_wf].
Qed.
(** The parameters, one after the other. *)
Definition scan_MOUNTs (specs : list (list Z)) (ms : mount_st (T := T)) : option (mount_st (T := T)) :=
  foldl (fun ms spec => ms ← ms; scan_MOUNT env fuel mc spec ms) (Some ms) specs.
Lemma scan_MOUNTs_wf specs (ms ms' : mount_st (T := T)) : scan_MOUNTs specs ms = Some ms' ->
  fresh ms -> fresh ms'.
Proof using.
  unfold scan_MOUNTs. revert ms. induction specs as [|s specs IH]; intros ms; cbn [foldl];
    [by intros [= <-]|]. cbn [mbind option_bind]. intros E Hwf.
  destruct (scan_MOUNT env fuel mc s ms) as [m1|] eqn:E1.
  - eapply IH; [exact E|]. by eapply scan_MOUNT_wf.
  - exfalso. clear -E. induction specs; [done|]. by apply IHspecs.
Qed.
End read.

(** ** Compiling keeps the order *)
Section init.
Context {T : Type} `{IdTable T} (env : hp_env) (fuel : nat) (mc : mount_conf) (mi : mi_env).
Context (services : list Service).

Lemma compile_src_key s login pls (hp : hp_st T) s' login' pls' hp' :
  compile_src env fuel mi services s login pls hp = Some (s', login', pls', hp') ->
  u_src s' = u_src s /\ u_remain s' = u_remain s.
Proof using.
  unfold compile_src. destruct (streq _ _); [by intros [= <- <- <- <-]|].
  destruct (isFullURL _); [|by intros [= <- <- <- <-]].
  case_bool_decide; [by intros [= <- <- <- <-]|].
  destruct (scan_hostport _ _ _) as [host iport].
  destruct (_ && _ && _); [by intros [= <- <- <- <-]|].
  intros ([[??]?] & _ & E)%bind_Some. by injection E as <- <- <- <-.
Qed.
Lemma priority_if (b : bool) c1 c2 : u_priority c1 = u_priority c2 ->
  u_priority (if b then c1 else c2) = u_priority c2.
Proof using. by destruct b. Qed.
Lemma compile_dst_key mt login pls (hp : hp_st T) mt' login' pls' hp' :
  compile_dst env fuel mc mi services mt login pls hp = Some (mt', login', pls', hp') ->
  rule_key mt' = rule_key mt.
Proof using.
  unfold compile_dst, rule_key. destruct (streq _ _); [by intros [= <- _ _ _]|].
  destruct (bool_decide _ && _); [by intros [= <- _ _ _]|].
  destruct (right_hand _ _ _) as [rh|]; [|by intros [= <- _ _ _]].
  intros ([gv vs] & _ & E)%bind_Some. destruct (url_rmprefix _) as [proto prefix].
  match type of E with match ?x with _ => _ end = _ => destruct x as [[host iport] addr] end.
  apply bind_Some in E as ([[pls1 hp1] hl] & _ & E). destruct (cut_at QUES _) as [dpath query].
  injection E as <- _ _ _. cbn [u_serno u_cond Src u_whole u_opts].
  by rewrite !priority_if.
Qed.
Lemma compile_tab_key tab : forall login pls (hp : hp_st T) tab' pls' hp',
  compile_tab env fuel mc mi services tab login pls hp = Some (tab', pls', hp') ->
  map rule_key tab' = map rule_key tab.
Proof using.
  induction tab as [|mt tab IH]; intros login pls hp tab' pls' hp'; cbn [compile_tab]; [by intros [= <- _ _]|].
  intros ([[[mt1 l1] p1] h1] & E1 & E)%bind_Some. apply bind_Some in E as ([[t1 p2] h2] & E2 & E).
  injection E as <- _ _. cbn [map]. f_equal; [|by eapply IH].
  destruct (u_compiled mt); [by injection E1 as <- _ _ _|].
  apply bind_Some in E1 as ([[[s1 l2] p3] h3] & Es & E1). apply compile_dst_key in E1 as ->.
  apply compile_src_key in Es as [Hs Hr]. unfold rule_key. cbn. by rewrite Hs, Hr.
Qed.

(** A step of a loop over the table that writes rules of the same key. *)
Lemma insert_key i mt mt' (tab : list Mtab) : tab !! i = Some mt -> rule_key mt' = rule_key mt ->
  map rule_key (<[i := mt']> tab) = map rule_key tab.
Proof using.
  intros Hi Hk. change (rule_key <$> <[i := mt']> tab = rule_key <$> tab).
  rewrite list_fmap_insert, Hk. apply list_insert_id. by rewrite list_lookup_fmap, Hi.
Qed.
Lemma foldl_none {A B} (f : option A -> B -> option A) l : (forall x, f None x = None) -> foldl f None l = None.
Proof using. intros Hf. induction l as [|x l IH]; [done|]. cbn. by rewrite Hf. Qed.
Lemma foldl_key {A B} (f : option (list Mtab * A) -> B -> option (list Mtab * A)) l :
  (forall x, f None x = None) ->
  (forall tab a x tab' a', f (Some (tab, a)) x = Some (tab', a') -> map rule_key tab' = map rule_key tab) ->
  forall tab a tab' a', foldl f (Some (tab, a)) l = Some (tab', a') -> map rule_key tab' = map rule_key tab.
Proof using.
  intros Hn Hf. induction l as [|x l IH]; intros tab a tab' a'; cbn [foldl]; [by intros [= <- _]|].
  destruct (f (Some (tab, a)) x) as [[t1 a1]|] eqn:E1; [|by rewrite foldl_none].
  intros E. apply IH in E as ->. by eapply Hf.
Qed.
Lemma mark_others_key p i tab tab' n : mark_others p i tab = Some (tab', n) ->
  map rule_key tab' = map rule_key tab.
Proof using.
  unfold mark_others. apply foldl_key; [done|]. intros t a j t' a' E.
  cbn in E. apply bind_Some in E as (mt & Hj & E). destruct (_ || _); [by injection E as <- _|].
  apply bind_Some in E as (b & _ & E). destruct b; injection E as <- _; [|done].
  by apply (insert_key j mt).
Qed.
Lemma markvhosts1_rule_key gen alias st i tab' n : markvhosts1_rule gen alias st i = Some (tab', n) ->
  map rule_key tab' = map rule_key st.1.
Proof using.
  destruct st as [tab mv]. unfold markvhosts1_rule. intros (mt & Hi & E)%bind_Some. cbn [fst].
  match type of E with context [if ?b then or_dvserv VSERV_AUTO mt else mt] =>
    set (mt1 := if b then or_dvserv VSERV_AUTO mt else mt) in E;
    assert (H1 : rule_key mt1 = rule_key mt) by (unfold mt1; by destruct b) end.
  clearbody mt1. rewrite <- (insert_key i mt mt1 tab) by done.
  assert (Hi1 : <[i := mt1]> tab !! i = Some mt1) by (apply list_lookup_insert_eq; by eapply lookup_lt_Some).
  set (tab1 := <[i := mt1]> tab) in *. clearbody tab1. clear tab Hi H1 mt.
  match type of E with (if ?b then _ else _) = _ => destruct b end; [by injection E as <- _|].
  apply bind_Some in E as ([t2 mv2] & E2 & E).
  assert (Hk : map rule_key t2 = map rule_key tab1).
  { destruct alias; [|by injection E2 as <- _]. apply bind_Some in E2 as ([t3 nv] & E3 & E2).
    apply mark_others_key in E3 as Hk3. rewrite <- Hk3.
    destruct (_ && _); injection E2 as <- _; [|done].
    assert (Hl : rule_key <$> t3 !! i = Some (rule_key mt1)).
    { rewrite <- list_lookup_fmap. change (fmap rule_key t3) with (map rule_key t3).
      by rewrite Hk3, list_lookup_fmap, Hi1. }
    apply fmap_Some in Hl as (mt3 & Hl & Hk4). by apply (insert_key i mt3). }
  rewrite <- Hk. apply bind_Some in E as (mt4 & _ & E).
  match type of E with (if ?b then _ else _) = _ => destruct b end; [|by injection E as <- _].
  apply bind_Some in E as ([t5 n5] & E5 & E). injection E as <- _. by eapply mark_others_key.
Qed.
Lemma MOUNT_markvhosts_key all gen alias tab tab' n : MOUNT_markvhosts mc all gen alias tab = Some (tab', n) ->
  map rule_key tab' = map rule_key tab.
Proof using.
  unfold MOUNT_markvhosts. intros ([t1 n1] & E1 & E)%bind_Some. injection E as <- _.
  rewrite map_map. rewrite (map_ext _ rule_key) by (intros mt; unfold unmark_any; by case_match).
  revert E1. unfold MOUNT_markvhosts1. destruct (_ && _); [by intros [= <- _]|].
  apply foldl_key; [done|]. intros t a x t' a' E. by apply (markvhosts1_rule_key _ _ (t, a)) in E.
Qed.
Lemma init_mtab_key (ms ms' : mount_st (T := T)) : init_mtab env fuel mc mi services true ms = Some ms' ->
  ms_init_from ms < mtabN ms -> map rule_key (ms_tab ms') = map rule_key (sort_mtab (ms_tab ms)).
Proof using.
  unfold init_mtab. intros E Hlt. rewrite (proj2 (Z.leb_gt _ _)) in E by done.
  apply bind_Some in E as ([[t1 p1] h1] & E1 & E). apply bind_Some in E as ([t2 n2] & E2 & E).
  injection E as <-. cbn [ms_tab]. apply MOUNT_markvhosts_key in E2 as ->. by apply compile_tab_key in E1.
Qed.

Lemma precedes_key a b a' b' : rule_key a = rule_key a' -> rule_key b = rule_key b' ->
  precedes b a -> precedes b' a'.
Proof using. unfold precedes. by intros [= _ -> -> -> _ _] [= _ -> -> _ _ _]. Qed.
Lemma ordered_key (l l' : list Mtab) : map rule_key l = map rule_key l' ->
  StronglySorted (fun a b => ~ precedes b a) l' -> StronglySorted (fun a b => ~ precedes b a) l.
Proof using.
  intros Hk Hs. revert l Hk. induction Hs as [|x l' Hs IH Hx]; intros [|y l] Hk; try done; [constructor|].
  cbn [map] in Hk. apply (f_equal tail) in Hk as Hk'. apply (f_equal head) in Hk as Hy. cbn in Hk'.
  assert (Hyx : rule_key y = rule_key x) by (change (Some (rule_key y) = Some (rule_key x)) in Hy; congruence). clear Hy Hk. constructor; [by apply IH|].
  rewrite Forall_forall in Hx |- *. intros z Hz Hp.
  assert (Hin : rule_key z ∈ map rule_key l') by (rewrite <- Hk'; by apply list_elem_of_fmap_2).
  apply list_elem_of_fmap in Hin as (z' & Hz' & Hin).
  apply (Hx z' Hin). by eapply precedes_key; [..|exact Hp].
Qed.

Lemma map_whole_key tab : map (fun k => k.1.2) (map rule_key tab) = map u_whole tab.
Proof using. by rewrite map_map. Qed.

(** C11. Whatever parameters are read to an empty table, its initialization
    keeps exactly their rules, at most as many as there is room for and none
    twice, and puts no rule behind one that it has to be in front of: a rule
    of a higher priority comes first, and at the same priority a rule whose
    virtual URL strictly contains that of a prefix rule comes first. *)
Theorem mount_most_specific_first specs (ms0 ms ms' : mount_st (T := T)) :
  ms_tab ms0 = [] -> ms_init_from ms0 = 0 ->
  scan_MOUNTs env fuel mc specs ms0 = Some ms -> init_mtab env fuel mc mi services true ms = Some ms' ->
  map rule_key (ms_tab ms') ≡ₚ map rule_key (ms_tab ms) /\
  NoDup (map u_whole (ms_tab ms')) /\ zlen (ms_tab ms') <= MTAB_SIZE /\
  StronglySorted (fun a b => ~ precedes b a) (ms_tab ms').
Proof using.
  intros H0 H1 Hs Hi.
  assert (Hf : fresh ms) by (eapply scan_MOUNTs_wf; [exact Hs|]; split; [rewrite H0; apply table_wf_nil|done]).
  destruct Hf as [Hwf Hfrom].
  assert (Hk : map rule_key (ms_tab ms') = map rule_key (sort_mtab (ms_tab ms))).
  { destruct (Z.lt_ge_cases 0 (mtabN ms)) as [Hn|Hn]; [apply (init_mtab_key ms); [done|lia]|].
    unfold init_mtab in Hi. rewrite (proj2 (Z.leb_le _ _)) in Hi by lia. injection Hi as <-.
    unfold mtabN in Hn. by destruct (ms_tab ms). }
  assert (Hp : map rule_key (ms_tab ms') ≡ₚ map rule_key (ms_tab ms)).
  { rewrite Hk. unfold sort_mtab. by rewrite Bsort_perm. }
  split; [done|]. split; [|split].
  - rewrite <- (map_whole_key (ms_tab ms')), Hp, map_whole_key. apply Hwf.
  - apply Permutation_length in Hp. rewrite !length_map in Hp. unfold zlen. rewrite Hp. apply Hwf.
  - apply (ordered_key _ _ Hk), sort_mtab_ordered. by apply table_wf_serial.
Qed.
End init.

(** An example with a priority, which is read by a [sscanf] that knows one
    number. *)
Definition mc0 : mount_conf :=
  MountConf false false false false (fun s => if streq s (cs "1") then Some 1%Q else None).
Definition mi0 : mi_env := MiEnv (fun _ => None) (fun _ => false) (fun _ => None) (fun _ => []).
Definition ms_empty : mount_st (T := HTable) := MountSt [] 0 0 [] minit_hostlist.
Definition ex_specs : list (list Z) :=
  [cs "/* http://w/*"; cs "/v/* http://h/r/*"; cs "/v/w/* http://h:81/q/*";
   cs "/v/* http://h/*"; cs "/u/* http://u/* pri=1"; cs "/v/* http://h/r/*"].
Definition ex_ms : mount_st := default ms_empty (scan_MOUNTs hp_env0 4 mc0 ex_specs ms_empty).
Definition ex_mt : mount_st := default ms_empty (init_mtab hp_env0 4 mc0 mi0 services0 true ex_ms).
Example ex_order : map (fun mt => (u_src (Src mt), u_src (Dst mt))) (ms_tab ex_mt) =
  [(cs "/u/", cs "http://u/"); (cs "/-", cs "="); (cs "/=", cs "="); (cs "/v/w/", cs "http://h:81/q/");
   (cs "/v/", cs "http://h/"); (cs "/v/", cs "http://h/r/"); (cs "/", cs "http://w/")].
Proof. vm_compute. reflexivity. Qed.
Lemma mount_most_specific_first_witness :
  map rule_key (ms_tab ex_mt) ≡ₚ map rule_key (ms_tab ex_ms) /\
  NoDup (map u_whole (ms_tab ex_mt)) /\ zlen (ms_tab ex_mt) <= MTAB_SIZE /\
  StronglySorted (fun a b => ~ precedes b a) (ms_tab ex_mt).
Proof.
  apply (mount_most_specific_first hp_env0 4 mc0 mi0 services0 ex_specs ms_empty ex_ms ex_mt);
    [done|done|by vm_compute|by vm_compute].
Defined.
