(* ===== verification/MountSpec.v ===== *)
(** * [MOUNT]: what the rewriting of URLs promises

    The programs that apply the table change no more of a rule than what it
    remembers; the values of its conditions are remembered soundly for the
    text that stands for a question; a rule is applied only to requests of its
    kind; and what a plain rule does to a URL is undone by the way back. *)
From S2P Require Import Prelude Strings ScanList ListOps UrlEsc Service UvFmt Url.
From S2P Require Import HashTab StrId HostAddr HostMatch HostSpec HostParse Mount MountInit MountTo MountFrom.
From S2P Require Import HostText MountOrder.
From stdpp Require Import options gmap.
#[local] Open Scope Z_scope.

(** ** What programs do to the table *)

(** Every run of [p] goes from a state to one that is in [R] to it. *)
Definition moves {A} (R : mt_st -> mt_st -> Prop) (p : mtm A) : Prop :=
  forall st a st', p st = Some (a, st') -> R st st'.
Definition same_tab (st st' : mt_st) : Prop := t_tab st' = t_tab st.
(** A rule without what it remembers. *)
Definition rule_core (mt : Mtab) : Mtab := set_mapped 0 (set_value 0 [] mt).
Definition same_rules (st st' : mt_st) : Prop := map rule_core (t_tab st') = map rule_core (t_tab st).
#[export] Instance same_tab_po : PreOrder same_tab.
Proof. split; [by intros st|by intros a b c; unfold same_tab; intros H1 H2; rewrite H2]. Qed.
#[export] Instance same_rules_po : PreOrder same_rules.
Proof. split; [by intros st|by intros a b c; unfold same_rules; intros H1 H2; rewrite H2]. Qed.

Lemma mtm_bind_inv {A B} (p : mtm A) (f : A -> mtm B) st b st' : (p ≫= f) st = Some (b, st') ->
  exists a st1, p st = Some (a, st1) /\ f a st1 = Some (b, st').
Proof. unfold mbind, mtm_bind. destruct (p st) as [[a st1]|]; [|done]. by exists a, st1. Qed.
Lemma mtm_lift_inv {A} (o : option A) st a st' : mlift o st = Some (a, st') -> o = Some a /\ st' = st.
Proof. unfold mlift. destruct o; [|done]. by intros [= <- <-]. Qed.

Create HintDb mount.
Section moves.
Context (R : mt_st -> mt_st -> Prop) `{!PreOrder R}.
Lemma moves_ret {A} (a : A) : moves R (mret a).
Proof using All. intros st b st' [= _ <-]. reflexivity. Qed.
Lemma moves_bind {A B} (p : mtm A) (f : A -> mtm B) : moves R p -> (forall a, moves R (f a)) -> moves R (p ≫= f).
Proof using All.
  intros Hp Hf st b st' (a & st1 & E1 & E2)%mtm_bind_inv. etrans; [by eapply Hp|by eapply Hf].
Qed.
Lemma moves_fmap {A B} (f : A -> B) (p : mtm A) : moves R p -> moves R (f <$> p).
Proof using All. intros Hp. apply moves_bind; [done|]. intros a. apply moves_ret. Qed.
Lemma moves_lift {A} (o : option A) : moves R (mlift o).
Proof using All. intros st a st' [_ ->]%mtm_lift_inv. reflexivity. Qed.
Lemma moves_get : moves R mget.
Proof using All. intros st a st' [= _ <-]. reflexivity. Qed.
Lemma moves_upd f : (forall st, R st (f st)) -> moves R (mupd f).
Proof using All. intros Hf st a st' [= _ <-]. apply Hf. Qed.
Lemma moves_if {A} (b : bool) (p q : mtm A) : moves R p -> moves R q -> moves R (if b then p else q).
Proof using All. by destruct b. Qed.
Lemma moves_require c k : moves R c -> moves R k -> moves R (require c k).
Proof using All. intros Hc Hk. apply moves_bind; [done|]. intros []; [done|apply moves_ret]. Qed.
Lemma moves_unless b c : moves R c -> moves R (unless b c).
Proof using All. intros Hc. destruct b; [apply moves_ret|done]. Qed.
End moves.
Lemma moves_mono {A} (p : mtm A) : moves same_tab p -> moves same_rules p.
Proof. intros H st a st' E. unfold same_rules. by rewrite (H _ _ _ E). Qed.

(** Follows the structure of a program. *)
Ltac moves_step :=
  match goal with
  | |- moves _ (mret _) => apply moves_ret; typeclasses eauto
  | |- moves _ (mlift _) => apply moves_lift; typeclasses eauto
  | |- moves _ mget => apply moves_get; typeclasses eauto
  | |- moves _ (_ <$> _) => apply moves_fmap; [typeclasses eauto|]
  | |- moves _ (require _ _) => apply moves_require; [typeclasses eauto| |]
  | |- moves _ (unless _ _) => apply moves_unless; [typeclasses eauto|]
  | |- moves _ (mupd _) => apply moves_upd; [typeclasses eauto|intros ?; solve [eauto with mount]]
  | |- moves _ (match ?x with _ => _ end) => destruct x
  | |- moves _ (_ ≫= _) => apply moves_bind; [typeclasses eauto| |intros ?]
  end.
Ltac moves := repeat first [solve [eauto with mount]|moves_step].

Section frame.
Context {T : Type} `{IdTable T} (henv : hl_env) (penv : hp_env) (ci : ClientInfo).
Context (services : list Service) (pls : list PathList) (hp : hp_st T) (ctx : mt_ctx).

Lemma matchPath_moves hlid user host port : moves same_tab (matchPath henv penv ci pls hp hlid user host port).
Proof using. intros st a st'. unfold matchPath. case_match; try done. by intros [= _ <-]. Qed.
#[local] Hint Resolve matchPath_moves : mount.
Lemma path_find_moves inl hlid path user : moves same_tab (path_find henv penv ci pls hp inl hlid path user).
Proof using.
  intros st a st'. unfold path_find. case_match; [|done]. repeat case_match; try done.
  intros [= _ <-]. subst.
  match goal with E : scan_ListX _ _ _ _ _ _ = Some _ |- _ =>
    apply (scan_ListX_inv _ (fun o : option mt_st => match o with Some s => same_tab st s | None => True end)) in E;
    [exact E| |reflexivity] end.
  intros [s|] e sl; cbn; [|done]. intros Hs. destruct (path_host e) as [[h p]|]; [|done].
  destruct (matchPath _ _ _ _ _ _ _ _ _ s) as [[mm0 s']|] eqn:E; [|done].
  apply matchPath_moves in E. by etrans.
Qed.
#[local] Hint Resolve path_find_moves : mount.
Lemma dst_known_moves dstL proto host port :
  moves same_tab (dst_known henv penv ci services pls hp dstL proto host port).
Proof using. unfold dst_known. moves. Qed.
#[local] Hint Resolve dst_known_moves : mount.
Lemma dstNoMatch_moves mt dstL clif method url :
  moves same_tab (dstNoMatch henv penv ci services pls hp ctx mt dstL clif method url).
Proof using. unfold dstNoMatch. moves. Qed.
#[local] Hint Resolve dstNoMatch_moves : mount.
Lemma match_hostport_moves hlid clif : moves same_tab (match_hostport henv penv ci pls hp hlid clif).
Proof using. unfold match_hostport. moves. Qed.
#[local] Hint Resolve match_hostport_moves : mount.
Lemma evalCond1_rest_moves q r d mt clif m mm url rh rp :
  moves same_tab (evalCond1_rest henv penv ci services pls hp ctx q r d mt clif m mm url rh rp).
Proof using. unfold evalCond1_rest, CTX_matchPATHs, CTX_matchPATH1. moves. Qed.
#[local] Hint Resolve evalCond1_rest_moves : mount.
Lemma evalCond1X_moves q r d mt clif m mm url rh rp :
  moves same_tab (evalCond1X henv penv ci services pls hp ctx q r d mt clif m mm url rh rp).
Proof using. unfold evalCond1X, matchFROM, matchAUTH, vhost_name. moves. Qed.
#[local] Hint Resolve evalCond1X_moves : mount.

(** *** What is remembered of a rule *)
#[local] Hint Resolve moves_mono : mount.
Lemma alter_rules f ai st : (forall mt, rule_core (f mt) = rule_core mt) ->
  same_rules st (with_tab (alter f ai) st).
Proof using.
  intros Hf. unfold same_rules, with_tab. cbn [t_tab]. apply list_eq. intros i.
  change (map rule_core) with (fmap (M := list) rule_core). rewrite !list_lookup_fmap.
  destruct (decide (i = ai)) as [->|Hn]; [|by rewrite list_lookup_alter_ne by done].
  rewrite list_lookup_alter_eq. destruct (t_tab st !! ai) as [mt|]; [|done].
  change (Some (rule_core (f mt)) = Some (rule_core mt)). by rewrite Hf.
Qed.
Lemma same_rules_set st st' : t_tab st' = t_tab st -> same_rules st st'.
Proof using. unfold same_rules. by intros ->. Qed.
#[local] Hint Extern 1 (same_rules _ _) => (by apply same_rules_set) : mount.
#[local] Hint Extern 1 (same_rules _ (with_tab (alter _ _) _)) => (by apply alter_rules) : mount.

Lemma evalCondX_moves q r d ai clif dp m mm url rh rp :
  moves same_rules (evalCondX henv penv ci services pls hp ctx q r d ai clif dp m mm url rh rp).
Proof using. unfold evalCondX. moves. Qed.
#[local] Hint Resolve evalCondX_moves : mount.
Lemma portmap_moves ai : moves same_rules (portmap ctx ai).
Proof using. unfold portmap. moves. Qed.
#[local] Hint Resolve portmap_moves : mount.
Lemma match_src_moves mt isfull iurl :
  moves same_rules (match_src henv penv ci services pls hp mt isfull iurl).
Proof using. apply moves_mono. unfold match_src, matchURLX. moves. Qed.
#[local] Hint Resolve match_src_moves : mount.
Lemma mt_matches_moves a rq ai mt :
  moves same_rules (mt_matches henv penv ci services pls hp ctx a rq ai mt).
Proof using. unfold mt_matches. moves. Qed.
#[local] Hint Resolve mt_matches_moves : mount.
Lemma mt_rewrite_moves a rq ai mt m len uv :
  moves same_rules (mt_rewrite services ctx a rq ai mt m len uv).
Proof using. unfold mt_rewrite, mt_site, mt_host, disp_port. moves. Qed.
#[local] Hint Resolve mt_rewrite_moves : mount.
Lemma mount_rule_moves a rq ai url :
  moves same_rules (mount_rule henv penv ci services pls hp ctx a rq ai url).
Proof using. unfold mount_rule. moves. Qed.
#[local] Hint Resolve mount_rule_moves : mount.
Lemma mount_rules_moves n : forall ai a rq url,
  moves same_rules (mount_rules henv penv ci services pls hp ctx n ai a rq url).
Proof using. induction n as [|n IH]; intros ai a rq url; cbn [mount_rules]; moves. Qed.
#[local] Hint Resolve mount_rules_moves : mount.
Lemma mount_url_toXX_moves lev : forall a url,
  moves same_rules (mount_url_toXX henv penv ci services pls hp ctx lev a url).
Proof using.
  induction lev as [|lev IH]; intros a url; cbn [mount_url_toXX]; unfold mt_found, mt_exit; moves.
Qed.

(** ** Remembered conditions *)

Lemma run_get {A} (f : mt_st -> mtm A) st : (mget ≫= f) st = f st st.
Proof using. done. Qed.
Lemma run_lift {A B} (a : A) (f : A -> mtm B) st : (mlift (Some a) ≫= f) st = f a st.
Proof using. done. Qed.
Abbreviation evaluate q r d ai clif dp m mm url rh rp :=
  (evalCondX henv penv ci services pls hp ctx q r d ai clif dp m mm url rh rp).

(** A question whose text is that of one that was just answered gets the
    same answer, and nothing changes. *)
Lemma evalCondX_reuse q r d ai c dp m mm url url2 rh rp v st st' mt :
  t_tab st !! ai = Some mt ->
  cond_key ctx d mt (Some c) m url2 rh = cond_key ctx d mt (Some c) m url rh ->
  evaluate q r d ai (Some c) dp m mm url rh rp st = Some (v, st') ->
  evaluate q r d ai (Some c) dp m mm url2 rh rp st' = Some (v, st').
Proof using.
  intros Hmt Hk. unfold evalCondX. rewrite run_get, Hmt, run_lift.
  intros (ref & s1 & [Hr ->]%mtm_lift_inv & E)%mtm_bind_inv. destruct ref.
  { injection E as <- <-. by rewrite run_get, Hmt, run_lift, Hr, run_lift. }
  case_match eqn:Em.
  { injection E as <- <-. rewrite run_get, Hmt, run_lift, Hr, run_lift. cbv zeta. by rewrite Hk, Em. }
  apply mtm_bind_inv in E as (val & s2 & Ev & E). apply evalCond1X_moves in Ev.
  injection E as <- <-. rewrite run_get.
  set (mt' := set_value (if val then 1 else -1) (cond_key ctx d mt (Some c) m url rh) mt).
  match goal with |- context [with_tab ?f s2] => assert (Hl : t_tab (with_tab f s2) !! ai = Some mt') end.
  { cbn [with_tab t_tab]. by rewrite Ev, list_lookup_alter_eq, Hmt. }
  rewrite Hl, run_lift. change (cond_refused henv ctx mt' dp) with (cond_refused henv ctx mt dp).
  rewrite Hr, run_lift. cbv zeta.
  change (cond_key ctx d mt' (Some c) m url2 rh) with (cond_key ctx d mt (Some c) m url2 rh).
  change (u_conds_param mt') with (cond_key ctx d mt (Some c) m url rh).
  rewrite Hk. unfold streq. rewrite bool_decide_true by done.
  change (u_conds_value mt') with (if val then 1 else -1). by destruct val.
Qed.

(** The value of the conditions of a rule is remembered: asked the same
    question again, it gives the same answer, asks nothing about the
    connection and changes nothing. *)
Theorem mount_conditions_remembered q r d ai c dp m mm url rh rp v st st' :
  evaluate q r d ai (Some c) dp m mm url rh rp st = Some (v, st') ->
  evaluate q r d ai (Some c) dp m mm url rh rp st' = Some (v, st') /\ same_rules st st'.
Proof using.
  intros E. split; [|by eapply evalCondX_moves].
  destruct (t_tab st !! ai) as [mt|] eqn:Hmt; [by eapply evalCondX_reuse|].
  unfold evalCondX in E. rewrite run_get, Hmt in E. done.
Qed.

(** The text ends with as much of the URL as is in front of it: URLs that
    agree so far share the answer of the first one, whatever hosts they are
    of. *)
Lemma dst_condition_of_another_url q r d ai c dp m mm url url2 rh rp v st st' mt :
  t_tab st !! ai = Some mt -> list_of L_UDST mt = 0 ->
  (let n := (length (cond_head d mt (Some c) m None rh) - 1)%nat in take n url2 = take n url) ->
  evaluate q r d ai (Some c) dp m mm (Some url) rh rp st = Some (v, st') ->
  evaluate q r d ai (Some c) dp m mm (Some url2) rh rp st' = Some (v, st').
Proof using.
  intros Hmt Hu Htake. eapply evalCondX_reuse; [exact Hmt|]. unfold cond_key, cond_param.
  assert (Hh : forall u, cond_head d mt (Some c) m (Some u) rh = cond_head d mt (Some c) m None rh).
  { intros u. unfold cond_head. by rewrite Hu. }
  rewrite !Hh. cbv zeta in Htake. change (default [] (Some url2)) with url2. by rewrite Htake.
Qed.

(** ** Which rules are applied *)

(** The rule is enabled, not for the way back only, and for requests of this
    kind: over SSL or not, as a proxy or not, and after an error or not. *)
Definition fits (q : Z) (mt : Mtab) : Prop :=
  u_disabled mt = false /\ u_asis (u_com (Src mt)) = false /\ c_int (u_cond mt) N_DIRECTION <> D_BACKONLY /\
  with_ssl ctx mt = true /\ for_proxy ctx mt = true /\ for_error ctx q mt = Some true.
(** A rule for redirections, for [Referer] and the like, or for proxies is
    only for such a question. *)
Definition kind_fits (a : mt_args) (mt : Mtab) : Prop :=
  if has (ma_qtype a) U_MOVED_TO then True
  else if has (ma_qtype a) U_WHERE then has (c_int (u_cond mt) N_WHERE) (ma_rtype a) = true
  else if has (ma_qtype a) U_USE_PROXY then flag_of U_USE_PROXY mt = true
  else flag_of (Z.lor U_MOVED_TO U_USE_PROXY) mt = false.
Lemma fits_core q mt mt' : rule_core mt' = rule_core mt -> fits q mt -> fits q mt'.
Proof using. intros E. change (fits q (rule_core mt) -> fits q (rule_core mt')). by rewrite E. Qed.
Lemma same_rules_lookup st st' i mt : same_rules st st' -> t_tab st !! i = Some mt ->
  exists mt', t_tab st' !! i = Some mt' /\ rule_core mt' = rule_core mt.
Proof using.
  unfold same_rules. change (map rule_core) with (fmap (M := list) rule_core). intros Hs Hi.
  assert (E : (rule_core <$> t_tab st') !! i = Some (rule_core mt)) by (by rewrite Hs, list_lookup_fmap, Hi).
  rewrite list_lookup_fmap in E. by apply fmap_Some in E as (mt' & ? & ?); exists mt'.
Qed.

Lemma forwards_fits rq q mt : forwards ctx rq mt = true -> for_proxy ctx mt = true ->
  for_error ctx q mt = Some true -> fits q mt.
Proof using.
  unfold forwards, fits. intros Hf Hp He.
  rewrite !andb_true_iff, !negb_true_iff, orb_false_iff, Z.eqb_neq in Hf. by destruct Hf as [[[[]]]].
Qed.
Lemma mt_matches_fits a rq ai mt st r st' :
  mt_matches henv penv ci services pls hp ctx a rq ai mt st = Some (Some r, st') -> fits (ma_qtype a) mt.
Proof using.
  unfold mt_matches. destruct (forwards ctx rq mt) eqn:Ef; [|done]. cbn [negb].
  intros ([m len] & s1 & _ & E)%mtm_bind_inv. destruct (m =? 0); [done|].
  apply mtm_bind_inv in E as (nfc & s2 & _ & E). destruct nfc; [done|].
  apply mtm_bind_inv in E as (ourl & s3 & _ & E).
  apply mtm_bind_inv in E as (ok & s4 & _ & E). destruct ok; [|done]. cbn [negb] in E.
  apply mtm_bind_inv in E as (rest & s5 & _ & E).
  apply mtm_bind_inv in E as ([uv|] & s6 & _ & E); [|done].
  destruct (_ && _); [done|]. destruct (for_proxy ctx mt) eqn:Ep; [|done]. cbn [negb] in E.
  apply mtm_bind_inv in E as ([] & s7 & [He ->]%mtm_lift_inv & E); [|done]. by eapply forwards_fits.
Qed.
Lemma mt_rewrite_no_exit a rq ai mt m len uv st u st' :
  mt_rewrite services ctx a rq ai mt m len uv st <> Some (Exit u, st').
Proof using.
  unfold mt_rewrite. intros (x1 & s4 & _ & E)%mtm_bind_inv. apply mtm_bind_inv in E as (x2 & s5 & _ & E).
  apply mtm_bind_inv in E as (x3 & s6 & _ & E). destruct (mt_fileis _ _ _) as [u1 ok].
  destruct ok; [|done]. cbn [negb] in E. apply mtm_bind_inv in E as (x4 & s7 & _ & E).
  revert E. by case_match.
Qed.
Lemma mount_rule_fits a rq ai url st v st' :
  mount_rule henv penv ci services pls hp ctx a rq ai url st = Some (v, st') ->
  (exists url', v = Skip url') \/
  (exists mt, t_tab st' !! ai = Some mt /\ fits (ma_qtype a) mt /\
     forall u, v = Exit u -> has (ma_qtype a) U_MOVED_TO = true).
Proof using.
  intros E. apply mount_rule_moves in E as Hs. revert E. unfold mount_rule. rewrite run_get.
  intros (mt & s1 & [Hmt ->]%mtm_lift_inv & E)%mtm_bind_inv.
  apply mtm_bind_inv in E as ([[[m len] uv]|] & s2 & Er & E); [|injection E as <- _; left; eauto].
  apply mt_matches_fits in Er. destruct (same_rules_lookup _ _ _ _ Hs Hmt) as (mt' & Hmt' & Hc).
  right. exists mt'. split; [done|]. split; [by eapply fits_core|]. intros u ->.
  apply mtm_bind_inv in E as (rest & s3 & _ & E). destruct (has _ _); [done|]. cbn [andb] in E.
  exfalso. destruct (other_kind a mt); [done|]. destruct (u_asis _); [revert E; by case_match|].
  destruct (u_any _); [done|]. by apply mt_rewrite_no_exit in E.
Qed.
Lemma mount_rules_fits n : forall ai a rq url st v aj st',
  mount_rules henv penv ci services pls hp ctx n ai a rq url st = Some ((v, aj), st') ->
  (exists url', v = Stop url') \/
  (exists mt, t_tab st' !! aj = Some mt /\ fits (ma_qtype a) mt /\
     forall u, v = Exit u -> has (ma_qtype a) U_MOVED_TO = true) /\ forall u, v <> Skip u.
Proof using.
  induction n as [|n IH]; intros ai a rq url st v aj st'; cbn [mount_rules]; [intros [= <- _ _]; left; eauto|].
  intros (v1 & s1 & E1 & E)%mtm_bind_inv.
  destruct (mount_rule_fits _ _ _ _ _ _ _ E1) as [[u ->]|Hf]; [by apply IH in E|].
  destruct v1 as [u|u|u|u|u]; [by apply IH in E|left|..]; injection E as <- <- <-; [eauto|right..]; done.
Qed.

(** The rule that a URL is rewritten by, in any round of the recursion,
    is one of the table as it was, enabled and for requests of this kind, and
    it is the one whose options the caller gets. *)
Theorem mount_applies_fitting_rule lev : forall a url st opts url' rmt st',
  mount_url_toXX henv penv ci services pls hp ctx lev a url st = Some ((Some opts, url', rmt), st') ->
  same_rules st st' /\
  exists ai mt, rmt = Some ai /\ t_tab st' !! ai = Some mt /\ u_opts mt = opts /\
    t_last_forw st' = Z.of_nat ai /\ fits (ma_qtype a) mt /\ kind_fits a mt.
Proof using.
  intros a url st opts url' rmt st' E. split; [by eapply mount_url_toXX_moves|].
  revert url st E. induction lev as [|lev IH]; intros url st; cbn [mount_url_toXX].
  all: intros (x1 & s1 & _ & E)%mtm_bind_inv; apply mtm_bind_inv in E as (rq & s2 & _ & E).
  all: rewrite run_get in E; apply mtm_bind_inv in E as ([v ai] & s3 & Er & E); rewrite run_get in E.
  all: destruct (mount_rules_fits _ _ _ _ _ _ _ _ _ Er) as [[u ->]|[(mt & Hmt & Hf & Hx) Hn]]; [done|].
  all: assert (Hfound : forall u, (mt ← mlift (t_tab s3 !! ai); mt_found a ai mt u) s3
         = Some ((Some opts, url', rmt), st') -> exists ai mt, rmt = Some ai /\ t_tab st' !! ai = Some mt /\
           u_opts mt = opts /\ t_last_forw st' = Z.of_nat ai /\ fits (ma_qtype a) mt /\ kind_fits a mt);
    [intros u; rewrite Hmt, run_lift; unfold mt_found, kind_fits|].
  1,3: intros Ef; exists ai, mt; revert Ef; repeat (case_match; try done); intros [= <- <- <- <-]; done.
  all: destruct v as [u|u|u|u|u]; [by destruct (Hn u)|done|by apply (Hfound u)| |].
  1,3: rewrite Hmt, run_lift in E; injection E as <- <- <- <-; exists ai, mt; unfold kind_fits;
       rewrite (Hx u eq_refl); done.
  - by apply (Hfound u).
  - by apply IH in E.
Qed.
End frame.

(** ** Examples *)

(** A connection of a client to "gw:8080" that is not a proxy's. *)
Definition ex_ctx : mt_ctx :=
  MtCtx false (cs "http") (cs "gw:8080") (cs "gw") 8080 ([], 0) ([], 0) false [] None [] []
    (MkAuth 0 [] [] 0) None false false (fun x => x) (fun _ => None) (fun _ _ => -1)
    (fun _ _ _ => 0) (fun x => x) (fun _ => false).
Definition ex_read (specs : list (list Z)) : mount_st (T := HTable) :=
  default ms_empty (ms ← scan_MOUNTs hp_env0 4 mc0 specs ms_empty;
                    init_mtab hp_env0 4 mc0 mi0 services0 true ms).
Definition ex_state (ms : mount_st (T := HTable)) : mt_st := MtSt (ms_tab ms) 0 (-1) [] 0 AddrNull.
Definition ex_to (ms : mount_st (T := HTable)) (url : list Z) (st : mt_st) :=
  CTX_mount_url_to env0 hp_env0 ci0 services0 (ms_pls ms) (ms_hp ms) ex_ctx None None url st.
Definition ex_from (ms : mount_st (T := HTable)) (proto hostport path : list Z) (st : mt_st) :=
  CTX_mount_url_fromL env0 hp_env0 ci0 services0 (ms_pls ms) (ms_hp ms) ex_ctx proto hostport path None
    (cs "http") (cs "gw:8080") st.

(** The rule for one server of a proxy. *)
Definition ex_dst : mount_st (T := HTable) := ex_read [cs "http://* http://cache/* dst=www.aa.org"].
Definition ex_eval (url : list Z) (st : mt_st) :=
  evalCondX env0 hp_env0 ci0 services0 (ms_pls ex_dst) (ms_hp ex_dst) ex_ctx U_MOUNT 0 CFO 2
    (Some (cs "gw:8080")) None None None (Some url) None 0 st.
Definition ex_st1 : mt_st :=
  match ex_eval (cs "http://www.aa.org/x") (ex_state ex_dst) with Some (_, st) => st | None => ex_state ex_dst end.
Lemma mount_conditions_remembered_witness :
  ex_eval (cs "http://www.aa.org/x") (ex_state ex_dst) = Some (true, ex_st1) /\
  ex_eval (cs "http://www.aa.org/x") ex_st1 = Some (true, ex_st1) /\ same_rules (ex_state ex_dst) ex_st1.
Proof.
  split; [by vm_compute|].
  apply (mount_conditions_remembered env0 hp_env0 ci0 services0 (ms_pls ex_dst) (ms_hp ex_dst) ex_ctx U_MOUNT 0 CFO
    2 (cs "gw:8080") None None None (Some (cs "http://www.aa.org/x")) None 0 true). by vm_compute.
Defined.
Definition ex_res (url : list Z) : option (option (list Z) * list Z * option nat * mt_st) :=
  mount_url_toXX env0 hp_env0 ci0 services0 (ms_pls ex_mt) (ms_hp ex_mt) ex_ctx MOUNT_LEVELS
    (MtArgs U_MOUNT 0 (cs "gw:8080") None) url (ex_state ex_mt).
Definition ex_st2 : mt_st :=
  match ex_res (cs "/v/w/x") with Some (_, st) => st | None => ex_state ex_mt end.
Lemma mount_applies_fitting_rule_witness :
  ex_res (cs "/v/w/x") = Some ((Some [], cs "http://h:81/q/x", Some 3%nat), ex_st2) /\
  same_rules (ex_state ex_mt) ex_st2 /\
  exists ai mt, Some 3%nat = Some ai /\ t_tab ex_st2 !! ai = Some mt /\ u_opts mt = [] /\
    t_last_forw ex_st2 = Z.of_nat ai /\ fits ex_ctx U_MOUNT mt /\
    kind_fits (MtArgs U_MOUNT 0 (cs "gw:8080") None) mt.
Proof.
  split; [by vm_compute|].
  apply (mount_applies_fitting_rule env0 hp_env0 ci0 services0 (ms_pls ex_mt) (ms_hp ex_mt) ex_ctx MOUNT_LEVELS
    (MtArgs U_MOUNT 0 (cs "gw:8080") None) (cs "/v/w/x") (ex_state ex_mt) [] (cs "http://h:81/q/x")
    (Some 3%nat) ex_st2). by vm_compute.
Defined.

(** ** What the code does otherwise than meant *)

Definition answers (r : option (option (list Z) * list Z * mt_st)) : option (list Z) :=
  match r with Some (Some _, url, _) => Some url | _ => None end.
Definition back_answer (r : option (option (list Z * list Z) * mt_st)) : option (list Z) :=
  match r with Some (Some (_, url), _) => Some url | _ => None end.
Definition ex_then (ms : mount_st (T := HTable)) (url url2 : list Z) : option (list Z) :=
  match ex_to ms url (ex_state ms) with Some (_, st) => answers (ex_to ms url2 st) | None => None end.
(** The value that was remembered for one server is used for another one. *)
Lemma dst_answer_of_another_server :
  ex_then ex_dst (cs "http://www.cc.org/") (cs "http://www.bb.org/x") = None /\
  ex_then ex_dst (cs "http://www.aa.org/") (cs "http://www.bb.org/x") = Some (cs "http://cache/www.bb.org/x").
Proof. by vm_compute. Qed.
(** A rule for [Referer] only, found first, ends the search for a request
    too: it counts as mounted, and is not rewritten. *)
Lemma referer_rule_hides_request_rule :
  let ms := ex_read [cs "/r/* http://r2/*"; cs "/r/* http://r/* referer"] in
  answers (ex_to ms (cs "/r/x") (ex_state ms)) = Some (cs "/r/x") /\
  let ms := ex_read [cs "/r/* http://r2/*"] in
  answers (ex_to ms (cs "/r/x") (ex_state ms)) = Some (cs "http://r2/x").
Proof. by vm_compute. Qed.
(** The name of this host from a rule that is then not applied is used for
    the next rule. *)
Lemma mybase_of_another_rule :
  let ms := ex_read [cs "/u http://h/d mybase=base.org"; cs "/v/* http://h/*"] in
  back_answer (ex_from ms (cs "http") (cs "h") (cs "d/x") (ex_state ms)) =
    Some (cs "http://base.org/v/d/x") /\
  back_answer (ex_from ms (cs "http") (cs "h") (cs "x") (ex_state ms)) =
    Some (cs "http://gw:8080/v/x").
Proof. by vm_compute. Qed.
(** A full virtual URL with a path is not found by its host and port: the
    path is looked for behind the path. *)
Lemma full_url_path_twice :
  let ms := ex_read [cs "http://w.org/a/* http://h/*"] in
  answers (ex_to ms (cs "http://w.org/a/b") (ex_state ms)) = Some (cs "http://h/b") /\
  answers (ex_to ms (cs "http://w.org:80/a/b") (ex_state ms)) = None /\
  answers (ex_to ms (cs "http://w.org:80/a/a/b") (ex_state ms)) = Some (cs "http://h/b").
Proof. by vm_compute. Qed.
(** A format on the way back is applied to the whole path, and what it makes
    is cut by the length of the path of the right hand. *)
Lemma format_behind_path_not_undone :
  let ms := ex_read [cs "/g/*%S/%S http://gtp/d/*%(1)/%(0)"] in
  answers (ex_to ms (cs "/g/a/b") (ex_state ms)) = Some (cs "http://gtp/d/b/a") /\
  back_answer (ex_from ms (cs "http") (cs "gtp") (cs "d/b/a") (ex_state ms)) =
    Some (cs "http://gw:8080/g/a/d").
Proof. by vm_compute. Qed.
(** A substitution [#{...}] leaves only what is behind it. *)
Lemma substitution_drops_url :
  let ms := ex_read [cs "/s/* http://x/#{a}/*"] in
  answers (ex_to ms (cs "/s/x") (ex_state ms)) = Some (cs "x").
Proof. by vm_compute. Qed.
