(* ===== verification/MountTrip.v ===== *)
(** * [MOUNT]: there and back

    A rule without options, "/v/* proto://host:port/path/*", found by a
    request, gives the URL of the server with what is behind the virtual URL
    put behind the real one; and that URL, taken apart, is given back as the
    one that was asked for. *)
From S2P Require Import Prelude Strings ScanList ListOps UrlEsc Service UvFmt Url UrlSpec.
From S2P Require Import HashTab StrId HostAddr HostMatch HostSpec HostParse Mount MountInit MountTo MountFrom.
From S2P Require Import HostText MountOrder MountSpec.
From stdpp Require Import options gmap list.
#[local] Open Scope Z_scope.

(** ** A prefix is found *)
Lemma Z2Nat_zlen {A} (l : list A) : Z.to_nat (zlen l) = length l.
Proof. apply Nat2Z.id. Qed.
Definition plain_char (c : Z) : bool := (0 <? c) && (c <? 256) && negb (c =? PCT).
Lemma url_strstrX_prefix s r nocase : forallb plain_char s = true ->
  url_strstrX (s ++ r) s nocase = Some (zlen s).
Proof.
  intros Hs. unfold url_strstrX.
  cut (forall t a, forallb plain_char t = true ->
    url_strstrX_loop (S (length t)) (a ++ t ++ r) (a ++ t) nocase (zlen a) (zlen a) = Some (zlen a + zlen t)).
  { intros Hc. exact (Hc s [] Hs). }
  clear s Hs. induction t as [|c t IH]; intros a Ht.
  - cbn [length url_strstrX_loop]. rewrite app_nil_r.
    assert (Hend : cat a (zlen a) = 0).
    { unfold cat, zlen. destruct (_ <? _); [done|]. rewrite Nat2Z.id. by apply nth_overflow. }
    rewrite Hend.
    rewrite (proj2 (Z.ltb_ge _ _)) by lia. change (schar 0 =? 0) with true. cbv iota.
    f_equal. unfold zlen. cbn. lia.
  - cbn [forallb] in Ht. apply andb_prop in Ht as [Hc Ht].
    unfold plain_char, PCT in Hc. change (length (c :: t)) with (S (length t)). set (n := S (length t)) in *. cbn [url_strstrX_loop].
    assert (Hca : forall l, cat (a ++ c :: l) (zlen a) = c).
    { intros l. unfold cat, zlen. rewrite (proj2 (Z.ltb_ge _ _)) by lia.
      by rewrite Nat2Z.id, app_nth2, Nat.sub_diag by lia. }
    cbn [app]. rewrite !Hca.
    assert (Hz : zlen (a ++ [c]) = zlen a + 1) by (unfold zlen; rewrite length_app; cbn; lia).
    assert (Hlen : forall l, zlen a <= zlen (a ++ c :: l)) by (intros l; unfold zlen; rewrite length_app; lia).
    rewrite !(proj2 (Z.ltb_ge _ _)) by apply Hlen.
    assert (Hsc : schar c <> 0 /\ schar c <> 37) by (unfold schar; destruct (Z.ltb_spec c 128); lia).
    rewrite (proj2 (Z.eqb_neq (schar c) 0)) by apply Hsc. unfold PCT.
    rewrite Z.eqb_refl, (proj2 (Z.eqb_neq (schar c) 37)) by apply Hsc. cbn [negb andb].
    rewrite !Z.add_0_r. specialize (IH (a ++ [c]) Ht). rewrite <- !app_assoc in IH. cbn [app] in IH.
    rewrite Hz in IH. rewrite IH. f_equal. unfold zlen. cbn [length]. lia.
Qed.

(** ** Rules without options *)

(** What the compiled rule of "[src]* proto://host:port/[path]*" is; [dp] says
    that the port is written. *)
Record plain_rule (mt : Mtab) (src proto host path : list Z) (port : Z) (dp : bool) : Prop := {
  pr_enabled : u_disabled mt = false;
  pr_conds : u_conds (u_cond mt) = 0;
  pr_flags : u_flags (u_cond mt) = if dp then U_DISPPORT else 0;
  pr_cells : delete N_MOVED_TO (u_condList (u_cond mt)) = ∅;
  pr_src : u_src (Src mt) = src;
  pr_sfull : u_fullurl (Src mt) = false;
  pr_sremain : u_remain (Src mt) = true;
  pr_sformat : u_format (Src mt) = None;
  pr_svserv : u_vserv (Src mt) = 0;
  pr_sasis : u_asis (u_com (Src mt)) = false;
  pr_dasis : u_asis (u_com (Dst mt)) = false;
  pr_dany : u_any (u_com (Dst mt)) = false;
  pr_dsite : u_path2site (u_com (Dst mt)) = false;
  pr_dremain : u_remain (Dst mt) = true;
  pr_dformat : u_format (Dst mt) = None;
  pr_drformat : u_rformat (Dst mt) = None;
  pr_dsubst : u_subst (Dst mt) = false;
  pr_dvserv : u_vserv (Dst mt) = 0;
  pr_dprefix : u_prefix (u_com (Dst mt)) = [];
  pr_dproto : u_proto (u_com (Dst mt)) = Some proto;
  pr_dasproto : u_proto_ASIS (u_com (Dst mt)) = false;
  pr_duser : u_userpass (u_com (Dst mt)) = [];
  pr_dhost : u_hostn (u_com (Dst mt)) = Some host;
  pr_dport : u_iport (u_com (Dst mt)) = port;
  pr_dpath : u_path (u_com (Dst mt)) = Some path;
  pr_dquery : u_query (u_com (Dst mt)) = None;
  pr_ddhost : u_dhost (u_com (Dst mt)) = 0
}.
(** The URLs that it maps to each other. *)
Definition rule_site (host : list Z) (port : Z) (dp : bool) : list Z :=
  host ++ if dp then COLN :: fmt_d port else [].
Definition real_url (proto host path : list Z) (port : Z) (dp : bool) (rest : list Z) : list Z :=
  proto ++ cs "://" ++ rule_site host port dp ++ SLSH :: path ++ rest.

(** ** The site of a real URL *)
Lemma rule_site_HOSTC host port dp : forallb HOSTC host = true -> 0 < port < 2 ^ 31 ->
  forallb SITEC (rule_site host port dp) = true.
Proof.
  intros Hh Hp. unfold rule_site. rewrite forallb_app. apply andb_true_intro. split.
  - eapply forallb_impl; [|done]. intros c Hc. unfold HOSTC in Hc. by apply andb_prop in Hc as [? _].
  - destruct dp; [|done]. cbn [forallb]. change (SITEC COLN) with true. cbn [andb].
    eapply forallb_impl; [|by apply fmt_d_digits; lia]. intros c Hc. unfold isdigit, SITEC, SLSH, QUES in *. lia.
Qed.
Lemma scan_hostport_site services proto host port dp : forallb HOSTC host = true -> 0 < port < 2 ^ 31 ->
  (dp = false -> serviceport services proto = port) ->
  scan_hostport services proto (rule_site host port dp) = (host, port).
Proof.
  intros Hh Hp Hd. pose proof (forallb_impl _ _ _ isHOSTC_end Hh) as Hh'.
  unfold scan_hostport, scan_hostport0, rule_site. destruct dp.
  - rewrite span_all; [|done|by left|rewrite length_app; lia]. rewrite cat_0.
    change (COLN =? COLN) with true. cbn [tl]. rewrite atoi_fmt_d by lia.
    by rewrite (proj2 (Z.eqb_neq port 0)) by lia.
  - rewrite span_all; [|done|by right|rewrite length_app; lia]. cbn. by rewrite Hd.
Qed.
Lemma scan_hostport_in_site services proto host port dp : forallb HOSTC host = true -> 0 < port < 2 ^ 31 ->
  (dp = false -> serviceport services proto = port) -> (length host <= 126)%nat ->
  scan_hostport_in services 128 proto (rule_site host port dp) = (host, port).
Proof.
  intros Hh Hp Hd Hl. pose proof (scan_hostport_site services proto host port dp Hh Hp Hd) as E.
  unfold scan_hostport in E. unfold scan_hostport_in.
  destruct (scan_hostport0 _) as [h p]. injection E as -> E.
  by rewrite (proj2 (Nat.leb_gt _ _)), E by lia.
Qed.
Definition url_char (c : Z) : bool := negb (strchr [SP; TAB; CR; LF] c).
Lemma mt_request_plain url iurl : cat url 0 = SLSH -> forallb url_char url = true -> (length url < URLSZ)%nat ->
  urlpath_normalize url = Some iurl -> mt_request url = Some (MtReq iurl [] false false).
Proof.
  intros H0 Hc Hl Hn. unfold mt_request, wordscan. change (pat_of _) with ([SP; TAB; CR; LF], true).
  rewrite <- (app_nil_r url) at 1. rewrite span_all; [| |by right|lia];
    [|eapply forallb_impl; [|exact Hc]; intros c; unfold url_char, in_pat; cbn; done].
  rewrite Hn. cbn [mbind option_bind]. unfold isFullURL. rewrite H0. destruct url as [|c url]; [done|].
  rewrite cat_0 in H0. subst c. destruct (span _ _ _). done.
Qed.

Section rule.
Context (src proto host path : list Z) (port : Z) (dp : bool).
Abbreviation plain mt := (plain_rule mt src proto host path port dp).

Lemma plain_cell mt i : plain mt -> i <> N_MOVED_TO -> cond1 (u_cond mt) i = MkCond 0 CNull.
Proof using.
  intros Hp Hi. unfold cond1. replace (u_condList (u_cond mt) !! i) with (@None Cond1); [done|].
  rewrite <- (lookup_delete_ne (u_condList (u_cond mt)) N_MOVED_TO i) by congruence.
  by rewrite (pr_cells _ _ _ _ _ _ _ Hp), lookup_empty.
Qed.
Lemma plain_list mt i : plain mt -> i <> N_MOVED_TO -> list_of i mt = 0.
Proof using. intros Hp Hi. unfold list_of, c_int. by rewrite plain_cell. Qed.
Lemma plain_dir mt i : plain mt -> i <> N_MOVED_TO -> dir_of i mt = 0.
Proof using. intros Hp Hi. unfold dir_of. by rewrite plain_cell. Qed.
Lemma plain_str mt i : plain mt -> i <> N_MOVED_TO -> c_str (u_cond mt) i = None.
Proof using. intros Hp Hi. unfold c_str. by rewrite plain_cell. Qed.
Lemma plain_rex mt i : plain mt -> i <> N_MOVED_TO -> c_rex (u_cond mt) i = None.
Proof using. intros Hp Hi. unfold c_rex. by rewrite plain_cell. Qed.
Lemma plain_int mt i : plain mt -> i <> N_MOVED_TO -> c_int (u_cond mt) i = 0.
Proof using. apply plain_list. Qed.
Lemma plain_cond mt m : plain mt -> cond_of m mt = false.
Proof using. intros Hp. unfold cond_of, has. by rewrite (pr_conds _ _ _ _ _ _ _ Hp). Qed.
Lemma plain_flag mt m : plain mt -> Z.land U_DISPPORT m = 0 -> flag_of m mt = false.
Proof using.
  intros Hp Hm. unfold flag_of, has. rewrite (pr_flags _ _ _ _ _ _ _ Hp). by destruct dp; rewrite ?Hm.
Qed.
Lemma plain_dispport mt : plain mt -> flag_of U_DISPPORT mt = dp.
Proof using. intros Hp. unfold flag_of. rewrite (pr_flags _ _ _ _ _ _ _ Hp). by destruct dp. Qed.
Lemma plain_value mt v p : plain mt -> plain (set_value v p mt).
Proof using. by intros []; split. Qed.

Context {T : Type} `{IdTable T} (henv : hl_env) (penv : hp_env) (ci : ClientInfo).
Context (services : list Service) (pls : list PathList) (hp : hp_st T) (ctx : mt_ctx).
Context (mt : Mtab) (Hplain : plain mt).

(** The table with what is remembered of the rule, which is not that it was
    refused. *)
Definition rule_at (pre post : list Mtab) (st : mt_st) : Prop :=
  exists v p, 0 <= v /\ t_tab st = pre ++ set_value v p mt :: post.
Lemma rule_at_lookup pre post st : rule_at pre post st ->
  exists v p, 0 <= v /\ t_tab st !! length pre = Some (set_value v p mt).
Proof using. intros (v & p & Hv & ->). exists v, p. by rewrite list_lookup_middle. Qed.

Lemma evalCond1X_plain q r d v p c m mm url rh rp st :
  evalCond1X henv penv ci services pls hp ctx q r d (set_value v p mt) (Some c) m mm url rh rp st =
  Some (true, st).
Proof using Hplain.
  pose proof (plain_value mt v p Hplain) as Hp.
  assert (HL : forall i, i <> N_MOVED_TO -> list_of i (set_value v p mt) = 0) by (intros; by apply plain_list).
  unfold evalCond1X. rewrite !HL by done. change (0 =? 0) with true. cbn [unless negb].
  rewrite andb_false_r. unfold evalCond1_rest. rewrite !HL by done. change (0 =? 0) with true.
  rewrite orb_true_r. cbn [unless]. rewrite (plain_str _ S_METHOD Hp) by done.
  destruct url, rh; cbn; unfold evalCondition; by rewrite orb_true_r.
Qed.
Lemma eval_plain q r d pre post c dstp m mm url rh rp st : rule_at pre post st ->
  exists st', evalCondX henv penv ci services pls hp ctx q r d (length pre) (Some c) dstp m mm url rh rp st =
    Some (true, st') /\ rule_at pre post st'.
Proof using Hplain.
  intros (v & p & Hv & Ht). pose proof (plain_value mt v p Hplain) as Hp.
  unfold evalCondX. rewrite run_get, Ht, list_lookup_middle, run_lift by done.
  assert (Hr : cond_refused henv ctx (set_value v p mt) dstp = Some false).
  { unfold cond_refused, odst_missing. rewrite (pr_svserv _ _ _ _ _ _ _ Hp), (pr_dvserv _ _ _ _ _ _ _ Hp).
    cbn [orb andb has]. rewrite (plain_str _ S_DSTPROTO Hp), (plain_rex _ R_REQMATCH Hp) by done. done. }
  rewrite Hr, run_lift. cbv zeta iota. set (key := cond_key _ _ _ _ _ _ _).
  case_match eqn:Em.
  { exists st. split; [|by exists v, p]. apply andb_prop in Em as [Em _].
    apply negb_true_iff, Z.eqb_neq in Em. cbn [u_conds_value set_value] in *.
    unfold mret, mtm_ret. rewrite (proj2 (Z.ltb_lt 0 v)) by lia. done. }
  unfold mbind at 1, mtm_bind at 1. rewrite evalCond1X_plain.
  eexists. split; [reflexivity|]. exists 1, key. split; [done|]. cbn [with_tab t_tab].
  rewrite Ht. rewrite alter_app_r_alt by lia. rewrite Nat.sub_diag. done.
Qed.

(** *** There *)

(** A rule in front that does not match. *)
Definition passes (rq : mt_req) (mt' : Mtab) : Prop :=
  forwards ctx rq mt' = false \/
  exists len, xmatch mt' (u_src (Src mt')) (mt_iurl rq mt') = Some (0, len).
Lemma mount_rule_passes a rq ai url st mt' : rq_full rq = false -> t_tab st !! ai = Some mt' -> passes rq mt' ->
  mount_rule henv penv ci services pls hp ctx a rq ai url st = Some (Skip url, st).
Proof using.
  intros Hf Hmt Hp. unfold mount_rule. rewrite run_get, Hmt, run_lift.
  enough (E : mt_matches henv penv ci services pls hp ctx a rq ai mt' st = Some (None, st))
    by (unfold mbind, mtm_bind; by rewrite E).
  unfold mt_matches. destruct Hp as [->|(len & Hx)]; [done|]. destruct (forwards ctx rq mt'); [|done].
  unfold match_src. cbn [negb]. rewrite Hx. unfold mbind, mtm_bind, mlift. cbn. by rewrite Hf, andb_false_r.
Qed.
Lemma mount_rules_pre a rq url n st pre : rq_full rq = false -> Forall (passes rq) pre ->
  forall front post, t_tab st = front ++ pre ++ post ->
  mount_rules henv penv ci services pls hp ctx (length pre + n) (length front) a rq url st =
  mount_rules henv penv ci services pls hp ctx n (length (front ++ pre)) a rq url st.
Proof using.
  intros Hf Hpre. induction Hpre as [|x pre Hx Hpre IH]; intros front post Ht; [by rewrite app_nil_r|].
  cbn [length Nat.add mount_rules]. unfold mbind at 1, mtm_bind at 1.
  rewrite (mount_rule_passes _ _ _ _ _ x); [|done| |done].
  - specialize (IH (front ++ [x]) post).
    replace (length (front ++ [x])) with (S (length front)) in IH by (rewrite length_app; cbn; lia).
    rewrite <- !app_assoc in IH. by apply IH.
  - rewrite Ht. cbn [app]. by rewrite list_lookup_middle.
Qed.

Lemma match_src_plain v p rest : forallb plain_char src = true -> src <> [] -> forall full st,
  match_src henv penv ci services pls hp (set_value v p mt) full (src ++ rest) st = Some ((1, zlen src), st).
Proof using Hplain.
  intros Hs Hne full st. unfold match_src.
  assert (Hx : xmatch (set_value v p mt) (u_src (Src (set_value v p mt))) (src ++ rest) = Some (1, zlen src)).
  { unfold xmatch. cbn [set_value Src].
    rewrite (pr_src _ _ _ _ _ _ _ Hplain), (pr_sremain _ _ _ _ _ _ _ Hplain).
    rewrite (bool_decide_false (src = [])) by done. rewrite url_strstrX_prefix by done. cbn [mbind option_bind].
    by rewrite (proj2 (Z.eqb_neq (zlen src) 0)) by (unfold zlen; destruct src; [done|cbn; lia]). }
  by rewrite Hx.
Qed.
Lemma mt_matches_plain rest method pre post clif st :
  forallb plain_char src = true -> src <> [] -> lSINGLEP ctx = false -> rule_at pre post st ->
  exists st' v p, mt_matches henv penv ci services pls hp ctx (MtArgs U_MOUNT 0 clif method)
      (MtReq (src ++ rest) [] false false) (length pre) (set_value v p mt) st =
    Some (Some (1, zlen src, []), st') /\ rule_at pre post st' /\
    t_tab st !! length pre = Some (set_value v p mt).
Proof using Hplain.
  intros Hs Hne Hl Hr. destruct (rule_at_lookup _ _ _ Hr) as (v & p & Hv & Ht).
  pose proof (plain_value mt v p Hplain) as Hp.
  destruct (eval_plain U_MOUNT 0 CFO pre post clif None method method
    (Some (src ++ rest)) None 0 st Hr) as (st' & Ee & Hr').
  exists st', v, p. split; [|done]. unfold mt_matches, forwards, with_ssl, mt_iurl, nocase.
  rewrite !(plain_cond _ _ Hp), (plain_int _ N_DIRECTION Hp) by done.
  rewrite (pr_sasis _ _ _ _ _ _ _ Hp), (pr_enabled _ _ _ _ _ _ _ Hp).
  change (0 =? D_BACKONLY) with false. cbn [orb negb andb rq_iurl rq_full rq_urn].
  unfold mbind at 1, mtm_bind at 1. rewrite match_src_plain by done. change (1 =? 0) with false. cbv iota.
  assert (Hn : not_for_client ctx (set_value v p mt) = Some false).
  { unfold not_for_client, isinListX. destruct (scan_ListLX_some (sm2X (fold_left sm_option (cs "c")
      (SmOpts false false false false false false COMMA)) (CTX_clif_proto ctx)) true false
      (cs "smtp,pop,imap,nntp") (sm_del (fold_left sm_option (cs "c")
      (SmOpts false false false false false false COMMA))) 0) as [r ->].
    cbn [fmap option_fmap option_map mbind option_bind]. rewrite (pr_dproto _ _ _ _ _ _ _ Hp). by rewrite Hl. }
  rewrite Hn, run_lift. rewrite (pr_dany _ _ _ _ _ _ _ Hp), run_lift.
  cbn [ma_qtype ma_rtype ma_clif ma_method]. unfold mbind at 1, mtm_bind at 1. rewrite Ee. cbn [negb].
  rewrite Z2Nat_zlen. unfold drop_at at 1. rewrite (proj2 (Nat.leb_le _ _)) by (rewrite length_app; lia).
  rewrite run_lift. unfold mt_format. rewrite (pr_sformat _ _ _ _ _ _ _ Hp), run_lift.
  unfold for_proxy, for_error. rewrite !(plain_cond _ _ Hp), (plain_flag _ U_ON_ERROR Hp) by done. done.
Qed.
Lemma mt_site_plain v p clif ai st : host <> [] ->
  mt_site services ctx clif ai (set_value v p mt) st =
  Some ((proto ++ cs "://" ++ rule_site host port dp, false), st).
Proof using Hplain.
  intros Hh. pose proof (plain_value mt v p Hplain) as Hp.
  unfold mt_site, mt_host, disp_port. rewrite (plain_flag _ U_RESOLV Hp) by done.
  replace (match u_hosta (u_com (Dst (set_value v p mt))) with Some _ => _ | None => _ end) with (Some host)
    by (rewrite (pr_dhost _ _ _ _ _ _ _ Hp); by case_match).
  rewrite run_lift, (pr_dasproto _ _ _ _ _ _ _ Hp), (pr_dproto _ _ _ _ _ _ _ Hp), run_lift.
  rewrite bool_decide_true by done. destruct (scan_hostport services proto clif) as [vh vp].
  rewrite (pr_dvserv _ _ _ _ _ _ _ Hp), (pr_ddhost _ _ _ _ _ _ _ Hp), (pr_dprefix _ _ _ _ _ _ _ Hp).
  rewrite (pr_duser _ _ _ _ _ _ _ Hp), (plain_dispport _ Hp), (plain_flag _ U_PORTMAP Hp) by done.
  rewrite (pr_dport _ _ _ _ _ _ _ Hp). unfold rule_site.
  assert (Hhas : forall m, has 0 m = false) by done. rewrite !Hhas.
  change (Z.land 0 DH_VHOSTPORT =? DH_VHOSTPORT) with false.
  destruct dp; unfold mbind, mtm_bind, mret, mtm_ret; cbn; rewrite ?app_nil_r, <- ?app_assoc; done.
Qed.
Lemma mount_rule_plain rest method pre post clif url st :
  forallb plain_char src = true -> src <> [] -> host <> [] -> lSINGLEP ctx = false -> rule_at pre post st ->
  exists st', mount_rule henv penv ci services pls hp ctx (MtArgs U_MOUNT 0 clif method)
      (MtReq (src ++ rest) [] false false) (length pre) url st =
    Some (Found (real_url proto host path port dp rest), st') /\ rule_at pre post st'.
Proof using Hplain.
  intros Hs Hne Hh Hl Hr. destruct (mt_matches_plain rest method pre post clif st Hs Hne Hl Hr)
    as (st' & v & p & Em & Hr' & Ht).
  pose proof (plain_value mt v p Hplain) as Hp.
  exists (set_last_hit (Z.of_nat (length pre) + 1) st'). split; [|done].
  unfold mount_rule. rewrite run_get, Ht, run_lift. unfold mbind at 1, mtm_bind at 1. rewrite Em.
  unfold mt_iurl, nocase. rewrite (plain_cond _ _ Hp). cbn [rq_iurl rq_rest]. rewrite Z2Nat_zlen.
  unfold drop_at. rewrite (proj2 (Nat.leb_le _ _)) by (rewrite length_app; lia). rewrite drop_app_length, run_lift.
  change (has (ma_qtype (MtArgs U_MOUNT 0 clif method)) U_MOVED_TO) with false. cbn [andb].
  assert (Ho : other_kind (MtArgs U_MOUNT 0 clif method) (set_value v p mt) = false).
  { unfold other_kind. by rewrite !(plain_flag _ _ Hp) by done. }
  rewrite Ho, (pr_dasis _ _ _ _ _ _ _ Hp), (pr_dany _ _ _ _ _ _ _ Hp).
  unfold mt_rewrite. rewrite (plain_flag _ U_RECURSIVE Hp) by done. unfold mbind at 1, mtm_bind at 1.
  rewrite mt_site_plain by done. unfold mt_iurl, nocase. rewrite (plain_cond _ _ Hp). cbn [rq_iurl rq_rest].
  rewrite Z2Nat_zlen. unfold drop_at. rewrite (proj2 (Nat.leb_le _ _)) by (rewrite length_app; lia).
  rewrite drop_app_length, run_lift.
  assert (Hurl : mt_remain (set_value v p mt) rest [] (mt_subst (set_value v p mt)
     (mt_query (set_value v p mt) (mt_path (set_value v p mt) 1
       (proto ++ cs "://" ++ rule_site host port dp, false)))) = Some (real_url proto host path port dp rest)).
  { unfold mt_remain, mt_subst, mt_query, mt_path. rewrite (pr_dpath _ _ _ _ _ _ _ Hp), (pr_dquery _ _ _ _ _ _ _ Hp).
    rewrite (pr_dsubst _ _ _ _ _ _ _ Hp), (pr_dremain _ _ _ _ _ _ _ Hp), (pr_dformat _ _ _ _ _ _ _ Hp).
    change (has 1 DIRMATCH) with false. cbv iota. cbn [fst snd negb]. rewrite orb_false_r. unfold real_url.
    case_bool_decide as Er; [rewrite Er, app_nil_r|]; f_equal; cbn [app]; by rewrite <- !app_assoc. }
  rewrite Hurl, run_lift, (plain_flag _ U_MYFILE Hp) by done.
  unfold mt_fileis. rewrite (plain_cond _ _ Hp). cbn [negb]. rewrite (plain_flag _ _ Hp) by done. done.
Qed.

(** *** And back *)
Definition back_passes (b : back_args) (mt' : Mtab) : Prop :=
  (forall ai st, backwards ctx ai st mt' = false) \/
  (u_any (u_com (Dst mt')) = false /\ forall ai st,
     dstmatch henv penv ci pls hp ctx ai mt' (bk_proto b) (bk_host b) (bk_port b) (bk_path b) st = Some (0, st)).
Lemma back_rule_passes b ai delegate st mt' : t_tab st !! ai = Some mt' -> back_passes b mt' ->
  back_rule henv penv ci services pls hp ctx b ai delegate st = Some (BackSkip delegate, st).
Proof using.
  intros Hmt Hp. unfold back_rule. rewrite run_get, Hmt, run_lift.
  destruct Hp as [Hb|[Ha Hd]]; [by rewrite Hb|]. destruct (backwards ctx ai st mt'); [|done].
  rewrite Ha. cbn [negb]. unfold mbind at 1, mtm_bind at 1. by rewrite Hd.
Qed.
Lemma back_rules_pre b delegate n st pre : Forall (back_passes b) pre ->
  forall front post, t_tab st = front ++ pre ++ post ->
  back_rules henv penv ci services pls hp ctx (length pre + n) (length front) b delegate st =
  back_rules henv penv ci services pls hp ctx n (length (front ++ pre)) b delegate st.
Proof using.
  intros Hpre. induction Hpre as [|x pre Hx Hpre IH]; intros front post Ht; [by rewrite app_nil_r|].
  cbn [length Nat.add back_rules]. unfold mbind at 1, mtm_bind at 1.
  rewrite (back_rule_passes _ _ _ _ x); [| |done].
  - specialize (IH (front ++ [x]) post).
    replace (length (front ++ [x])) with (S (length front)) in IH by (rewrite length_app; cbn; lia).
    rewrite <- !app_assoc in IH. by apply IH.
  - rewrite Ht. cbn [app]. by rewrite list_lookup_middle.
Qed.
Lemma dstmatch_plain v p ai rest st :
  dstmatch henv penv ci pls hp ctx ai (set_value v p mt) proto host port (path ++ rest) st = Some (1, st).
Proof using Hplain.
  pose proof (plain_value mt v p Hplain) as Hp. unfold dstmatch, dvserv.
  rewrite (pr_dasproto _ _ _ _ _ _ _ Hp), (pr_dproto _ _ _ _ _ _ _ Hp), run_lift.
  unfold streq at 1. rewrite bool_decide_true by done. cbn [negb].
  rewrite (pr_dvserv _ _ _ _ _ _ _ Hp), (plain_flag _ U_PORTMAP Hp) by done.
  assert (Hhas : forall m, has 0 m = false) by done. rewrite !Hhas.
  unfold mbind at 1, mtm_bind at 1, mret at 1, mtm_ret at 1.
  rewrite (pr_dport _ _ _ _ _ _ _ Hp), Z.eqb_refl. cbn [negb]. rewrite andb_false_r.
  rewrite run_get, (pr_dhost _ _ _ _ _ _ _ Hp), run_lift, (pr_ddhost _ _ _ _ _ _ _ Hp).
  change (negb (0 =? 0)) with false. cbn [andb].
  assert (Hm : matchHost ctx (u_com (Dst (set_value v p mt))) host = true).
  { unfold matchHost. rewrite (pr_dhost _ _ _ _ _ _ _ Hp). cbn [default from_option].
    unfold strcaseeq, strcasecmp_eq. rewrite Z.eqb_refl. by rewrite bool_decide_true. }
  rewrite Hm, orb_true_r. unfold path_match. rewrite (pr_dpath _ _ _ _ _ _ _ Hp). cbn [default from_option].
  assert (Hpre : is_prefix path (path ++ rest) = true) by (apply is_prefix_spec; eauto).
  change (id path) with path. by rewrite Hpre.
Qed.
Lemma back_rule_plain rest dproto delegate site pre post st : proto <> cs "gopher" -> rule_at pre post st ->
  exists st', back_rule henv penv ci services pls hp ctx
      (BackArgs proto site host port (path ++ rest) None dproto) (length pre) delegate st =
    Some (Back (u_opts mt) (dproto ++ cs "://" ++ std_base services dproto delegate ++ src ++ rest), st') /\
    rule_at pre post st'.
Proof using Hplain.
  intros Hg Hr. destruct (rule_at_lookup _ _ _ Hr) as (v & p & Hv & Ht).
  pose proof (plain_value mt v p Hplain) as Hp.
  destruct (eval_plain 0 0 CBO pre post delegate (Some proto) None None None (Some host) port st Hr)
    as (st' & Ee & Hr').
  exists (set_last_hit (Z.of_nat (length pre) + 1) st'). split; [|done].
  unfold back_rule. rewrite run_get, Ht, run_lift. unfold backwards, for_proxy.
  rewrite (pr_dasis _ _ _ _ _ _ _ Hp), (pr_enabled _ _ _ _ _ _ _ Hp), !(plain_cond _ _ Hp).
  rewrite !(plain_flag _ _ Hp), (plain_int _ N_DIRECTION Hp) by done.
  change (0 =? D_FORWONLY) with false. change (0 =? D_BACKIFFORW) with false. cbn [orb andb negb].
  rewrite (pr_dany _ _ _ _ _ _ _ Hp). cbn [bk_proto bk_host bk_port bk_path bk_search].
  unfold mbind at 1, mtm_bind at 1. rewrite dstmatch_plain. change (1 =? 0) with false. cbv iota.
  unfold search_match. rewrite (pr_dquery _ _ _ _ _ _ _ Hp). cbn [negb].
  unfold evalCond. unfold mbind at 1, mtm_bind at 1. rewrite Ee. cbn [negb].
  unfold back_base. rewrite (plain_flag _ U_MYBASE Hp), (plain_cond _ _ Hp) by done. cbn [andb].
  unfold mbind at 1, mtm_bind at 1, mret at 1, mtm_ret at 1.
  change (has 1 DIRMATCH) with false. cbv iota. unfold u_plen. rewrite (pr_dpath _ _ _ _ _ _ _ Hp), Z.sub_0_r.
  change (default [] (Some path)) with path. rewrite Z2Nat_zlen.
  assert (Hd : drop_at (length path) (path ++ rest) = Some rest).
  { unfold drop_at. rewrite (proj2 (Nat.leb_le _ _)) by (rewrite length_app; lia). by rewrite drop_app_length. }
  rewrite Hd, run_lift, (pr_dremain _ _ _ _ _ _ _ Hp). cbn [negb andb].
  unfold back_format. rewrite (pr_drformat _ _ _ _ _ _ _ Hp), run_lift, (pr_sasis _ _ _ _ _ _ _ Hp).
  assert (Hu : back_url services (BackArgs proto site host port (path ++ rest) None dproto) (set_value v p mt) 1
      (zlen path) delegate (path ++ rest) =
    Some (dproto ++ cs "://" ++ std_base services dproto delegate ++ src ++ rest)); [|by rewrite Hu].
  unfold back_url. rewrite (pr_sfull _ _ _ _ _ _ _ Hp), (pr_src _ _ _ _ _ _ _ Hp), (pr_dproto _ _ _ _ _ _ _ Hp).
  rewrite (pr_dsite _ _ _ _ _ _ _ Hp), Z2Nat_zlen, Hd. change (has 1 DIRMATCH) with false.
  cbn [bk_proto bk_hostport bk_search bk_dproto mbind option_bind andb].
  rewrite bool_decide_false by done. unfold streq. rewrite (bool_decide_false (proto = _)) by done.
  by rewrite !app_nil_r, <- !app_assoc.
Qed.

(** Rules in front that can be told from their texts. *)
Definition passes_b (rq : mt_req) (mt' : Mtab) : bool :=
  negb (forwards ctx rq mt')
  || match xmatch mt' (u_src (Src mt')) (mt_iurl rq mt') with Some (m, _) => m =? 0 | None => false end.
Lemma passes_b_ok rq l : forallb (passes_b rq) l = true -> Forall (passes rq) l.
Proof using.
  rewrite forallb_forall, Forall_forall. intros Hl mt' Hin. apply list_elem_of_In in Hin.
  specialize (Hl mt' Hin). unfold passes_b in Hl. unfold passes. destruct (forwards ctx rq mt'); [right|by left].
  cbn [negb orb] in Hl. destruct (xmatch _ _ _) as [[m len]|]; [|done]. apply Z.eqb_eq in Hl as ->. by exists len.
Qed.
Definition back_differs (b : back_args) (mt' : Mtab) : bool :=
  let d := u_com (Dst mt') in
  (u_asis d || u_disabled mt')
  || (negb (u_any d) && negb (u_proto_ASIS d)
      && match u_proto d, u_hostn d with
         | Some p, Some h =>
             negb (streq (bk_proto b) p)
             || (dvserv mt' =? 0) && negb (flag_of U_PORTMAP mt') && (u_dhost d =? 0)
                && ((negb (u_iport d =? 0) && negb (u_iport d =? bk_port b))
                    || (negb (bool_decide (h = [])) && negb (matchHost ctx d (bk_host b))))
         | _, _ => false
         end).
Lemma back_differs_ok b l : forallb (back_differs b) l = true -> Forall (back_passes b) l.
Proof using.
  rewrite forallb_forall, Forall_forall. intros Hl mt' Hin. apply list_elem_of_In in Hin.
  specialize (Hl mt' Hin). unfold back_differs in Hl. apply orb_true_iff in Hl as [Hl|Hl].
  { left. intros ai st. unfold backwards. by rewrite Hl. }
  right. apply andb_prop in Hl as [[Ha Hs]%andb_prop Hl]. apply negb_true_iff in Ha, Hs.
  split; [done|]. intros ai st. unfold dstmatch. rewrite Hs.
  destruct (u_proto _) as [p|]; [|done]. rewrite run_lift.
  destruct (u_hostn _) as [h|]; [|done]. destruct (streq (bk_proto b) p); [|done]. cbn [negb orb] in *.
  apply andb_prop in Hl as [[[Hv Hf]%andb_prop Hd]%andb_prop Hl]. apply Z.eqb_eq in Hv, Hd.
  apply negb_true_iff in Hf. rewrite Hv, Hf, Hd. change (has 0 _) with false. cbv iota.
  unfold mbind at 1, mtm_bind at 1, mret at 1, mtm_ret at 1.
  destruct (negb (u_iport _ =? 0) && negb (u_iport _ =? bk_port b)) eqn:Ep; [done|]. cbn [orb] in Hl.
  rewrite run_get, run_lift. change (has 0 _) with false. cbn [negb andb Z.eqb].
  apply andb_prop in Hl as [Hh Hm]. apply negb_true_iff in Hh, Hm. by rewrite Hh, Hm.
Qed.

(** *** The whole table *)
Context (Hsrc : forallb plain_char src = true) (Hsrc0 : src <> []) (Hhost : host <> []).
Context (pre post : list Mtab).
Lemma mount_to_plain url rest clif method st : lSINGLEP ctx = false ->
  cat url 0 = SLSH -> forallb url_char url = true -> (length url < URLSZ)%nat ->
  urlpath_normalize url = Some (src ++ rest) ->
  Forall (passes (MtReq (src ++ rest) [] false false)) pre -> rule_at pre post st ->
  exists st1, CTX_mount_url_to henv penv ci services pls hp ctx clif method url st =
    Some ((Some (u_opts mt), real_url proto host path port dp rest), st1) /\ rule_at pre post st1.
Proof using Hplain Hsrc Hsrc0 Hhost.
  intros Hsp Hu0 Huc Hul Hn Hpre Hr. set (clif' := default (CTX_clif_hostport ctx) clif).
  destruct (mount_rule_plain rest method pre post clif' url (set_my_h [] st) Hsrc Hsrc0 Hhost Hsp Hr)
    as (st1 & Er & v & p & Hv & Ht1). pose proof (plain_value mt v p Hplain) as Hp1.
  exists (set_last_forw (Z.of_nat (length pre)) st1). split; [|by exists v, p].
  unfold CTX_mount_url_to, mount_url_toX. fold clif'.
  enough (E : mount_url_toXX henv penv ci services pls hp ctx MOUNT_LEVELS (MtArgs U_MOUNT 0 clif' method) url st =
    Some ((Some (u_opts mt), real_url proto host path port dp rest, Some (length pre)),
          set_last_forw (Z.of_nat (length pre)) st1))
    by (unfold fmap, mtm_fmap, mbind, mtm_bind; by rewrite E).
  change MOUNT_LEVELS with (S 7). cbn [mount_url_toXX]. unfold mbind at 1, mtm_bind at 1, mupd at 1.
  rewrite (mt_request_plain url (src ++ rest)), run_lift, run_get by done.
  destruct Hr as (v0 & p0 & _ & Ht). cbn [set_my_h t_tab]. rewrite Ht, length_app. cbn [length].
  unfold mbind at 1, mtm_bind at 1.
  rewrite (mount_rules_pre _ (MtReq (src ++ rest) [] false false) _ _ _ pre eq_refl Hpre []
    (set_value v0 p0 mt :: post)) by done.
  cbn [app mount_rules]. unfold mbind at 1, mtm_bind at 1. rewrite Er.
  unfold mret at 1, mtm_ret at 1. rewrite run_get, Ht1, list_lookup_middle, run_lift by done.
  unfold mt_found. change (has _ U_MOVED_TO) with false. change (has _ U_WHERE) with false.
  change (has _ U_USE_PROXY) with false. cbv iota. by rewrite (plain_flag _ _ Hp1) by done.
Qed.
Lemma mount_from_plain rest dproto delegate st : proto <> cs "gopher" -> dproto <> [] ->
  forallb HOSTC host = true -> 0 < port < 2 ^ 31 -> (dp = false -> serviceport services proto = port) ->
  (length host <= 126)%nat ->
  Forall (back_passes (BackArgs proto (rule_site host port dp) host port (path ++ rest) None dproto)) pre ->
  rule_at pre post st ->
  exists st2, CTX_mount_url_fromL henv penv ci services pls hp ctx proto (rule_site host port dp) (path ++ rest)
      None dproto delegate st =
    Some (Some (u_opts mt, dproto ++ cs "://" ++ std_base services dproto delegate ++ src ++ rest), st2).
Proof using Hplain Hhost.
  intros Hg Hdp Hh Hport Hd Hl Hback Hr.
  destruct (back_rule_plain rest dproto delegate (rule_site host port dp) pre post st Hg Hr) as (st2 & Eb & _).
  exists st2. unfold CTX_mount_url_fromL. rewrite (bool_decide_false (dproto = [])) by done.
  rewrite (bool_decide_false (rule_site host port dp = [])) by (unfold rule_site; by destruct host).
  rewrite scan_hostport_in_site, run_get by done. destruct Hr as (v & p & _ & Ht).
  rewrite Ht, length_app. cbn [length].
  rewrite (back_rules_pre _ _ _ _ pre Hback [] (set_value v p mt :: post)) by done.
  cbn [app back_rules]. unfold mbind at 1, mtm_bind at 1. by rewrite Eb.
Qed.
End rule.

(** ** The round trip *)

(** C6. Let a virtual URL, of which no rule in front of a plain one matches
    and which that rule matches, be mapped to the URL of the server: it is
    the rule's, with the rest put behind its path.  If no rule in front
    matches this URL backwards, either, as one does that maps another virtual
    URL to the same server, then this URL, taken apart, is mapped back to the
    normalized one that was asked for, below the name that this host is known
    by.  It holds whatever is remembered of the other rules, and of this one
    anything but a refusal; the name of the server has at most 126
    characters, and the URL less than 1024. *)
Theorem mount_roundtrip {T : Type} `{IdTable T} (henv : hl_env) (penv : hp_env) (ci : ClientInfo)
    (services : list Service) (pls : list PathList) (hp : hp_st T) (ctx : mt_ctx)
    src proto host path port dp mt pre post url rest clif method dproto delegate st :
  plain_rule mt src proto host path port dp -> rule_at mt pre post st -> lSINGLEP ctx = false ->
  forallb plain_char src = true -> src <> [] ->
  forallb (fun c => negb (c =? COLN)) proto = true -> (length proto <= 31)%nat -> proto <> cs "gopher" ->
  forallb HOSTC host = true -> host <> [] -> 0 < port < 2 ^ 31 ->
  (dp = false -> serviceport services proto = port) -> (length host <= 126)%nat ->
  cat url 0 = SLSH -> forallb url_char url = true -> (length url < URLSZ)%nat ->
  urlpath_normalize url = Some (src ++ rest) ->
  Forall (passes ctx (MtReq (src ++ rest) [] false false)) pre ->
  forallb PATHC (path ++ rest) = true -> zlen (real_url proto host path port dp rest) < 1024 ->
  Forall (back_passes henv penv ci pls hp ctx
            (BackArgs proto (rule_site host port dp) host port (path ++ rest) None dproto)) pre ->
  dproto <> [] ->
  exists st1 st2,
    CTX_mount_url_to henv penv ci services pls hp ctx clif method url st =
      Some ((Some (u_opts mt), real_url proto host path port dp rest), st1) /\
    let u := decomp_absurl (real_url proto host path port dp rest) 1024 in
    CTX_mount_url_fromL henv penv ci services pls hp ctx (au_proto u) (au_login u) (au_upath u) None
      dproto delegate st1 =
      Some (Some (u_opts mt, dproto ++ cs "://" ++ std_base services dproto delegate ++ src ++ rest), st2).
Proof.
  intros Hp Hr Hsp Hsrc Hsrc0 Hproto Hlp Hg Hh Hh0 Hport Hd Hl Hu0 Huc Hul Hn Hpre Hpath Hlen Hback Hdp.
  edestruct (mount_to_plain src proto host path port dp henv penv ci services pls hp ctx mt Hp)
    as (st1 & E1 & Hr1); [done..|].
  edestruct (mount_from_plain src proto host path port dp henv penv ci services pls hp ctx mt Hp)
    as (st2 & E2); [done|exact Hg|exact Hdp|done|done|done|done|done|exact Hr1|].
  exists st1, st2. split; [exact E1|]. cbv zeta. unfold real_url.
  rewrite decomp_absurl_url; try done; [by apply rule_site_HOSTC|].
  unfold rule_site. rewrite length_app. destruct dp; [|cbn; lia]. cbn [length].
  pose proof (fmt_d_length port). lia.
Qed.

(** The table of [ex_mt], and the rule "/v/w/* http://h:81/q/*" in it. *)
Definition ex_rule : Mtab :=
  default (MkMtab 0 false false false MtCond0 0 [] (src_url []) (src_url []) 0 [] [] 0) (ms_tab ex_mt !! 3%nat).
Definition ex_url : list Z := cs "/v/w/../w/x/y?z".
Definition ex_real : list Z := cs "http://h:81/q/x/y?z".
Lemma mount_roundtrip_witness :
  real_url (cs "http") (cs "h") (cs "q/") 81 true (cs "x/y?z") = ex_real /\
  exists st1 st2,
    CTX_mount_url_to env0 hp_env0 ci0 services0 (ms_pls ex_mt) (ms_hp ex_mt) ex_ctx None None ex_url
      (ex_state ex_mt) =
      Some ((Some (u_opts ex_rule), real_url (cs "http") (cs "h") (cs "q/") 81 true (cs "x/y?z")), st1) /\
    let u := decomp_absurl (real_url (cs "http") (cs "h") (cs "q/") 81 true (cs "x/y?z")) 1024 in
    CTX_mount_url_fromL env0 hp_env0 ci0 services0 (ms_pls ex_mt) (ms_hp ex_mt) ex_ctx (au_proto u) (au_login u)
      (au_upath u) None (cs "http") (cs "gw:80") st1 =
      Some (Some (u_opts ex_rule, cs "http" ++ cs "://" ++ std_base services0 (cs "http") (cs "gw:80")
                                  ++ cs "/v/w/" ++ cs "x/y?z"), st2).
Proof.
  split; [by vm_compute|].
  apply (mount_roundtrip env0 hp_env0 ci0 services0 (ms_pls ex_mt) (ms_hp ex_mt) ex_ctx (cs "/v/w/") (cs "http")
    (cs "h") (cs "q/") 81 true ex_rule (take 3 (ms_tab ex_mt)) (drop 4 (ms_tab ex_mt)) ex_url (cs "x/y?z")
    None None (cs "http") (cs "gw:80") (ex_state ex_mt)).
  - split; by vm_compute.
  - exists 0, []. split; [done|]. by vm_compute.
  - by vm_compute.
  - by vm_compute.
  - done.
  - by vm_compute.
  - apply (bool_decide_unpack _). by vm_compute.
  - done.
  - by vm_compute.
  - done.
  - lia.
  - done.
  - apply (bool_decide_unpack _). by vm_compute.
  - by vm_compute.
  - by vm_compute.
  - apply (bool_decide_unpack _). by vm_compute.
  - by vm_compute.
  - apply passes_b_ok. by vm_compute.
  - by vm_compute.
  - by vm_compute.
  - apply back_differs_ok. by vm_compute.
  - done.
Defined.
