(* ===== verification/HostFrame.v ===== *)
(** * Host lists: what the reader leaves alone ([src/hostlist.cpp])

    Reading an element into a list changes that list, the lists [LexHosts],
    [virtualHosts] and [IdentHosts] that every process has, and, when it is
    the first one, makes the table of the named lists; it changes no other
    list and no entry of the table. *)
From S2P Require Import Prelude Strings ScanList Glob StrId HostAddr HostMatch HostParse HostText.
From stdpp Require Import gmap.
From stdpp Require Import options.
Local Open Scope Z_scope.

Section frame.
Context {T : Type} `{IdTable T} (env : hp_env).

(** The lists that every process has are there, the lists of the table are
    other ones, and there is no table without a size. *)
Definition tab_ok (st : hp_st T) : Prop :=
  (3 <= length (p_store st))%nat /\
  (forall id x, p_tab st !! id = Some x -> (3 <= x < length (p_store st))%nat) /\
  (p_size st = 0 -> p_tab st = ∅) /\ 0 <= p_id st.

(** Nothing but list [r] and the three lists has changed; what is new in the
    table are new lists. *)
Definition ext (r : nat) (st st' : hp_st T) : Prop :=
  (length (p_store st) <= length (p_store st'))%nat /\
  (forall x, (3 <= x < length (p_store st))%nat -> x <> r -> get_list st' x = get_list st x) /\
  p_tab st ⊆ p_tab st' /\
  (forall id x, p_tab st' !! id = Some x ->
     p_tab st !! id = Some x \/ (length (p_store st) <= x)%nat).
Definition frames (r : nat) (st st' : hp_st T) : Prop := tab_ok st -> tab_ok st' /\ ext r st st'.

Lemma frames_refl r st : frames r st st.
Proof using. intros Hok. split; [done|]. split_and!; [done..|]. by left. Qed.
Lemma frames_trans r r0 st st1 st2 : frames r st st1 -> frames r0 st1 st2 ->
  r0 = r \/ (r0 < 3)%nat -> frames r st st2.
Proof using.
  intros H1 H2 Hr Hok. destruct (H1 Hok) as (Hok1 & L1 & G1 & T1 & N1).
  destruct (H2 Hok1) as (Hok2 & L2 & G2 & T2 & N2). split; [done|]. split_and!.
  - lia.
  - intros x Hx Hne. rewrite G2, G1; [done|done|done|lia|]. destruct Hr; [congruence|lia].
  - by transitivity (p_tab st1).
  - intros id x Hx. destruct (N2 id x Hx) as [Hx1|Hx1]; [by apply N1|right; lia].
Qed.

Lemma get_set_other (st : hp_st T) r hl x : x <> r -> get_list (set_list st r hl) x = get_list st x.
Proof using.
  intros Hne. unfold get_list, set_list. cbn [p_store].
  by rewrite !nth_lookup, list_lookup_insert_ne.
Qed.
Lemma frames_set r st hl : frames r st (set_list st r hl).
Proof using.
  intros Hok. unfold tab_ok, ext, set_list in *. cbn [p_store p_tab p_size p_id].
  rewrite !length_insert. split; [exact Hok|]. split_and!; [lia| |done|by left].
  intros x _ Hx. by apply (get_set_other st r hl).
Qed.
Lemma frames_predef r st n : frames r st (set_predef st n).
Proof using. intros Hok. split; [exact Hok|]. split_and!; [done..|]. by left. Qed.

(** A new list. *)
Lemma get_new (st : hp_st T) hl x : (x < length (p_store st))%nat ->
  get_list (new_list st hl).1 x = get_list st x.
Proof using.
  intros Hx. unfold get_list, new_list. cbn [fst p_store]. by rewrite app_nth1.
Qed.
Lemma get_new_same (st : hp_st T) hl : get_list (new_list st hl).1 (length (p_store st)) = hl.
Proof using. unfold get_list, new_list. cbn [fst p_store]. by rewrite nth_middle. Qed.
Lemma frames_new r st hl : frames r st (new_list st hl).1.
Proof using.
  intros (H1 & H2 & H3 & H4). unfold tab_ok, ext. cbn [new_list fst p_store p_tab p_size p_id].
  rewrite !length_app. cbn [length]. split; split_and!; try done; try lia.
  - intros id x Hx. pose proof (H2 id x Hx). lia.
  - intros x Hx _. apply (get_new st hl). lia.
  - by left.
Qed.

(** ** The reader *)
Section reader.
Variable rec : nat -> list Z -> hp_st T -> option (hp_st T).
Hypothesis Hrec : forall r hm st st', rec r hm st = Some st' -> frames r st st'.

Lemma rec_elem_frames r st0 a e s :
  (forall st, a = Some st -> frames r st0 st) ->
  forall st, (rec_elem rec r a e s).1 = Some st -> frames r st0 st.
Proof using Hrec.
  intros Ha st. unfold rec_elem. cbn [fst]. destruct a as [st1|]; [|done]. cbn [mbind option_bind].
  intros E. eapply frames_trans; [by apply Ha|by eapply Hrec|by left].
Qed.
Lemma scan_commaList_frames list r st st' :
  scan_commaList rec list r st = Some st' -> frames r st st'.
Proof using Hrec.
  unfold scan_commaList. destruct (scan_ListX _ _ _ _ _ _) as [res|] eqn:E; [|done].
  cbn [mbind option_bind]. intros Er.
  pose proof (scan_ListX_inv (rec_elem rec r) (fun a => forall s, a = Some s -> frames r st s)
    (fun a e s Ha => rec_elem_frames r st a e s Ha) true false list COMMA (Some st) res) as Hi.
  apply Hi; [|done|done]. intros s [= <-]. apply frames_refl.
Qed.
Lemma scan_commaListL_frames list r st st' :
  scan_commaListL rec list r st = Some st' -> frames r st st'.
Proof using Hrec.
  unfold scan_commaListL. destruct (scan_ListLX _ _ _ _ _ _) as [res|] eqn:E; [|done].
  cbn [mbind option_bind]. intros Er.
  pose proof (scan_ListLX_inv (rec_elem rec r) (fun a => forall s, a = Some s -> frames r st s)
    (fun a e s Ha => rec_elem_frames r st a e s Ha) true false list COMMA (Some st) res) as Hi.
  apply Hi; [|done|done]. intros s [= <-]. apply frames_refl.
Qed.

(** *** The table is made *)

(** While the table is made its lists are new ones. *)
Definition making (L : nat) (st st' : hp_st T) : Prop :=
  tab_ok st -> (L <= length (p_store st))%nat ->
  (forall id x, p_tab st !! id = Some x -> (L <= x)%nat) ->
  tab_ok st' /\ (length (p_store st) <= length (p_store st'))%nat /\
  (forall x, (3 <= x < L)%nat -> get_list st' x = get_list st x) /\
  (forall id x, p_tab st' !! id = Some x -> (L <= x)%nat).

Lemma making_trans L st st1 st2 : making L st st1 -> making L st1 st2 -> making L st st2.
Proof using.
  intros H1 H2 Hok HL Ht. destruct (H1 Hok HL Ht) as (Hok1 & L1 & G1 & T1).
  destruct (H2 Hok1 ltac:(lia) T1) as (Hok2 & L2 & G2 & T2).
  split_and!; [done|lia| |done]. intros x Hx. by rewrite G2, G1.
Qed.
Lemma making_frames L r st st' : (L <= r)%nat -> frames r st st' -> making L st st'.
Proof using.
  intros Hr Hf Hok HL Ht. destruct (Hf Hok) as (Hok' & L1 & G1 & T1 & N1).
  split_and!; [done|done| |].
  - intros x Hx. apply G1; lia.
  - intros id x Hx. destruct (N1 id x Hx) as [Hx'|]; [by eapply Ht|lia].
Qed.

Lemma resize_making st st' : resize_hostlisttab st = Some st' ->
  p_tab st' = p_tab st /\ p_store st' = p_store st /\ p_size st' <> 0 /\ p_id st' = p_id st.
Proof using.
  unfold resize_hostlisttab. destruct (rehash_loop _ _ _ _) as [h|]; [|done]. intros [= <-].
  cbn [p_tab p_store p_size p_id]. split_and!; try done. destruct (Z.eqb_spec (p_size st) 0); lia.
Qed.

Lemma put_making L st st' n r : put_listtab st n r = Some st' -> (3 <= r)%nat ->
  (L <= r < length (p_store st))%nat -> making L st st'.
Proof using.
  unfold put_listtab. destruct (Z.ltb_spec (p_id st) (p_size st)); [|done].
  intros [= <-] Hr3 Hr (O1 & O2 & O3 & O4) HL Ht.
  unfold tab_ok. cbn [p_store p_tab p_size p_id]. split_and!; try done; try lia.
  - intros id x [[<- <-]|[_ Hx]]%lookup_insert_Some; [lia|by eapply O2].
  - intros id x [[<- <-]|[_ Hx]]%lookup_insert_Some; [lia|by eapply Ht].
Qed.

Lemma addHostListTab_making L st st' dname l : addHostListTab rec dname l st = Some st' ->
  (3 <= L)%nat -> making L st st'.
Proof using Hrec.
  unfold addHostListTab. destruct (split_dname dname) as [[aname aflags] nr]. cbv zeta.
  set (p := if 0 <? list_id st aname then _ else _). intros E HL.
  destruct p as [[st1 r]|] eqn:Ep; [|done]. cbn [mbind option_bind] in E.
  assert (Hp : tab_ok st -> (L <= length (p_store st))%nat ->
    (forall id x, p_tab st !! id = Some x -> (L <= x)%nat) -> (L <= r)%nat /\ making L st st1).
  { intros Hok HLs Ht. subst p. destruct (0 <? list_id st aname).
    - destruct (p_tab st !! list_id st aname) as [r0|] eqn:Er; [|done].
      assert (Hr0 : (L <= r0)%nat) by (by eapply Ht).
      cbn [mbind option_bind] in Ep.
      destruct (has _ HL_PROTECT); [injection Ep as <- <-|
        destruct (has _ HL_APPEND || _ || _); injection Ep as <- <-]; (split; [done|]);
        apply (making_frames L r0); auto using frames_refl, frames_set.
    - cbn [mbind option_bind] in Ep.
      set (q := if p_size (next_id st) <=? p_id (next_id st) then _ else _) in Ep.
      destruct q as [st2|] eqn:Eq; [|done]. cbn [mbind option_bind] in Ep.
      set (hl := MkHostList aname [] _ false) in Ep.
      change (new_list st2 hl) with ((new_list st2 hl).1, length (p_store st2)) in Ep.
      cbv beta iota in Ep.
      destruct (put_listtab (new_list st2 hl).1 aname (length (p_store st2))) as [st3|] eqn:Eput;
        [|done]. cbn [mbind option_bind] in Ep. injection Ep as <- <-.
      assert (H2 : p_tab st2 = p_tab st /\ p_store st2 = p_store st /\
                   (p_size st2 = 0 -> p_size st = 0) /\ p_id st2 = p_id st + 1).
      { subst q. destruct (_ <=? _); [|by injection Eq as <-].
        destruct (resize_making (next_id st) st2 Eq) as (? & ? & ? & ?). by split_and!. }
      destruct H2 as (T2 & S2 & Z2 & I2). split; [by rewrite S2|].
      assert (M2 : making L st st2).
      { intros (O1 & O2 & O3 & O4) HL2 Ht2. unfold tab_ok, get_list. rewrite T2, S2, I2.
        split_and!; auto; lia. }
      eapply making_trans; [exact M2|].
      eapply making_trans; [apply (making_frames L (length (p_store st2)));
        [by rewrite S2|apply frames_new]|].
      apply put_making with (1 := Eput).
      + rewrite S2. lia.
      + cbn [new_list fst p_store]. rewrite length_app, S2. cbn [length]. lia. }
  intros Hok HLs Ht. destruct (Hp Hok HLs Ht) as [Hr M1]. revert Hok HLs Ht.
  change (making L st st'). eapply making_trans; [exact M1|].
  eapply making_trans; [apply (making_frames L r); [done|apply frames_set]|].
  apply (making_frames L r); [done|]. by eapply scan_commaListL_frames.
Qed.

Lemma init_frames r st st' : init_hostListTab env rec st = Some st' -> frames r st st'.
Proof using Hrec.
  unfold init_hostListTab. destruct (Z.eqb_spec (p_size st) 0) as [Hz|];
    [|intros [= <-]; apply frames_refl].
  destruct (resize_hostlisttab st) as [st0|] eqn:E0; [|done]. cbn [mbind option_bind].
  destruct (addHostListTab _ _ _ st0) as [st1|] eqn:E1; [|done]. cbn [mbind option_bind].
  destruct (addHostListTab _ _ _ st1) as [st2|] eqn:E2; [|done]. cbn [mbind option_bind].
  intros E3 (O1 & O2 & O3 & O4). set (L := length (p_store st)) in *.
  apply (addHostListTab_making L) in E1; [|done]. apply (addHostListTab_making L) in E2; [|done].
  apply (addHostListTab_making L) in E3; [|done].
  pose proof (making_trans _ _ _ _ E1 (making_trans _ _ _ _ E2 E3)) as M.
  destruct (resize_making _ _ E0) as (T0 & S0 & _ & I0). specialize (O3 Hz).
  destruct M as (Hok & Hlen & Hget & Ht).
  - unfold tab_ok. rewrite T0, S0, I0, O3. split_and!; done.
  - by rewrite S0.
  - intros id x. by rewrite T0, O3, lookup_empty.
  - split; [done|]. split_and!.
    + by rewrite S0 in Hlen.
    + intros x Hx _. rewrite Hget by done. unfold get_list. by rewrite S0.
    + rewrite O3. apply map_empty_subseteq.
    + intros id x Hx. right. by eapply Ht.
Qed.

Lemma rec_small_frames r r0 hm st st' : (r0 < 3)%nat -> rec r0 hm st = Some st' -> frames r st st'.
Proof using Hrec.
  intros Hr E. eapply frames_trans; [apply frames_refl|by eapply Hrec|by right].
Qed.

Lemma classify_frames r h name st st' h' :
  classify env rec r h name st = Some (st', h') -> frames r st st'.
Proof using Hrec.
  unfold classify. cbv zeta.
  assert (Hvirt : forall (n : list Z) st1 , (if Nat.eqb r RVirt then Some st else rec RVirt n st) = Some st1 ->
    frames r st st1).
  { intros n st1. destruct (Nat.eqb r RVirt); [intros [= <-]; apply frames_refl|].
    apply rec_small_frames. unfold RVirt. lia. }
  repeat (lazymatch goal with |- (if ?b then Some _ else _) = _ -> _ =>
            destruct b; [intros [= <- _]; apply frames_refl|] end).
  destruct ((cat name 0 =? 45) && negb (isMYSELF env name)).
  { destruct (VA_strtoVAddr env (tl name)); [intros [= <- _]; apply frames_refl|].
    destruct (has (hl_flags (get_list st r)) HL_BYNAMEONLY).
    - destruct (if Nat.eqb r RVirt then Some st else rec RVirt (tl name) st) as [st1|] eqn:E; [|done].
      cbn [mbind option_bind]. intros [= <- _]. by eapply Hvirt.
    - destruct (if Nat.eqb r RLex then Some st else rec RLex name st) as [st1|] eqn:E; [|done].
      cbn [mbind option_bind]. intros [= <- _].
      assert (F1 : frames r st st1).
      { destruct (Nat.eqb r RLex); [injection E as <-; apply frames_refl|].
        revert E. apply rec_small_frames. unfold RLex. lia. }
      destruct (existsb (Z.eqb STAR) (tl name)); [done|].
      destruct (VA_gethostVAddr env (tl name)); [done|].
      eapply frames_trans; [exact F1|apply (frames_predef r)|by left]. }
  repeat (lazymatch goal with |- (if ?b then Some _ else _) = _ -> _ =>
            destruct b; [intros [= <- _]; apply frames_refl|] end).
  destruct (has (hl_flags (get_list st r)) HL_BYNAMEONLY).
  { destruct (if Nat.eqb r RVirt then Some st else rec RVirt name st) as [st1|] eqn:E; [|done].
    cbn [mbind option_bind]. intros [= <- _]. by eapply Hvirt. }
  destruct (VA_gethostVAddr env name) as [[p a]|]; intros [= <- _]; apply frames_refl.
Qed.

Lemma makeHost_name_frames r proto vdom h hostname st st' h' :
  makeHost_name env rec r proto vdom h hostname st = Some (st', h') -> frames r st st'.
Proof using Hrec.
  unfold makeHost_name. destruct (split_users hostname) as [u|]; [|done]. cbn [mbind option_bind].
  set (p := match u with Some _ => _ | None => _ end).
  destruct p as [[[h1 n1] st1]|] eqn:Ep; [|done]. cbn [mbind option_bind].
  assert (F1 : frames r st st1).
  { subst p. destruct u as [[uv n]|]; [|by injection Ep as _ _ <-; apply frames_refl].
    match type of Ep with (mbind _ ?q = _) => destruct q as [st2|] eqn:Eq; [|done] end.
    cbn [mbind option_bind] in Ep.
    assert (F2 : frames r st st2).
    { destruct (_ && _ && _); [|by injection Eq as <-; apply frames_refl].
      eapply frames_trans; [apply frames_refl|by eapply scan_commaList_frames|right; unfold RIdent; lia]. }
    destruct (cat n 0 =? 33); injection Ep as _ _ <-; exact F2. }
  destruct (split_ports (fix_clif n1)) as [n2 ports].
  destruct (match ports with Some _ => _ | None => _ end) as [h2|]; [|done]. cbn [mbind option_bind].
  destruct (if bool_decide (proto <> []) then _ else _) as [h3|]; [|done]. cbn [mbind option_bind].
  destruct (split_family (canonWildcardAddr n2)) as [fam n3].
  destruct (classify _ _ _ _ _ _) as [[st2 h4]|] eqn:Ec; [|done]. cbn [mbind option_bind].
  intros [= <- _]. eapply frames_trans; [exact F1|by eapply classify_frames|by left].
Qed.

Lemma makeHost_item_frames r proto hm st st' h' :
  makeHost_item env rec r proto hm st = Some (st', h') -> frames r st st'.
Proof using Hrec.
  unfold makeHost_item.
  repeat (lazymatch goal with |- (if ?b then Some _ else _) = _ -> _ =>
            destruct b; [intros [= <- _]; apply frames_refl|] end).
  destruct (split_op hm) as [op m]. cbv zeta.
  destruct (match scanVdomain m with Some _ => _ | None => _ end) as [m1 vdom].
  destruct (if cat m1 0 =? 45 then _ else _) as [mt dp].
  destruct (_ || _); [intros [= <- _]; apply frames_refl|].
  match goal with |- (mbind _ ?q = _) -> _ => destruct q as [[m2 mask]|]; [|done] end.
  cbn [mbind option_bind]. apply makeHost_name_frames.
Qed.

Lemma makeHost_frames fuel : forall r hm st st' h',
  makeHost env rec fuel r hm st = Some (st', h') -> frames r st st'.
Proof using Hrec.
  induction fuel as [|fuel IH]; intros r hm st st' h'; cbn [makeHost]; [done|].
  destruct (init_hostListTab env rec st) as [st1|] eqn:E1; [|done]. cbn [mbind option_bind].
  apply (init_frames r) in E1.
  destruct (split_proto hm) as [[proto m]|]; [|done]. cbn [mbind option_bind].
  destruct (strstr m (cs "//")) as [route|].
  - destruct (makeHost env rec fuel r _ st1) as [[st2 h2]|] eqn:E2; [|done].
    cbn [mbind option_bind]. intros E3%makeHost_item_frames. apply IH in E2.
    eapply frames_trans; [exact E1|eapply frames_trans; [exact E2|exact E3|by left]|by left].
  - intros E3%makeHost_item_frames. eapply frames_trans; [exact E1|exact E3|by left].
Qed.

Lemma addHL_frames hm r st st' b : addHL rec hm r st = Some (st', b) -> frames r st st'.
Proof using Hrec.
  unfold addHL. destruct (bool_decide (hm = [])); [done|].
  destruct (if strchr _ _ then _ else _) as [op l].
  destruct (match hostpart l with Some _ => _ | None => _ end) as [users hosts].
  destruct (negb (cat hosts 0 =? LBRACE)); [intros [= <- _]; apply frames_refl|].
  destruct (negb (strtailchr hosts =? RBRACE)); [intros [= <- _]; apply frames_refl|].
  cbv zeta. set (f := fun a elem _ => _).
  destruct (scan_ListLX f true false hosts COMMA (Some st)) as [res|] eqn:E; [|done].
  cbn [mbind option_bind]. destruct res.1.1 as [st1|] eqn:Er; [|done]. cbn [mbind option_bind].
  intros [= <- _].
  assert (Hf : forall a e s, (forall s1, a = Some s1 -> frames r st s1) ->
    forall s1, (f a e s).1 = Some s1 -> frames r st s1).
  { intros a e s Ha s1. subst f. cbn [fst]. destruct a as [s2|]; [|done]. cbn [mbind option_bind].
    intros E1. eapply frames_trans; [by apply Ha|by eapply Hrec|by left]. }
  apply (scan_ListLX_inv f (fun a => forall s, a = Some s -> frames r st s) Hf
    true false hosts COMMA (Some st) res); [|done|done].
  intros s [= <-]. apply frames_refl.
Qed.

Lemma step_frames hm r st st' : addHostList1_step env rec hm r st = Some st' -> frames r st st'.
Proof using Hrec.
  unfold addHostList1_step. cbv zeta.
  repeat (lazymatch goal with |- (if ?b then Some _ else _) = _ -> _ =>
            destruct b; [intros [= <-]; apply frames_set|] end).
  set (m := if is_prefix (cs "+!") _ then _ else _). clearbody m.
  destruct (addHL rec m r st) as [[st1 b]|] eqn:E1; [|done]. cbn [mbind option_bind].
  apply addHL_frames in E1. destruct b; [by intros [= <-]|].
  match goal with |- (mbind _ ?q = _) -> _ => destruct q as [st2|] eqn:E2; [|done] end.
  cbn [mbind option_bind].
  assert (F2 : frames r st1 st2)
    by (destruct (_ && _ && _); [by eapply Hrec|injection E2 as <-; apply frames_refl]).
  destruct (makeHost _ _ _ _ _ _) as [[st3 h]|] eqn:E3; [|done]. cbn [mbind option_bind].
  apply makeHost_frames in E3. intros [= <-].
  eapply frames_trans; [exact E1| |by left]. eapply frames_trans; [exact F2| |by left].
  eapply frames_trans; [apply (frames_set r)| |by left].
  eapply frames_trans; [exact E3|apply (frames_set r)|by left].
Qed.
End reader.

(** Reading an element, and reading lists. *)
Lemma addHostList1_frames fuel : forall r hm st st',
  addHostList1 env fuel r hm st = Some st' -> frames r st st'.
Proof using.
  induction fuel as [|fuel IH]; intros r hm st st'; cbn [addHostList1]; [done|].
  apply step_frames. exact IH.
Qed.
Lemma read_comma_frames fuel l r st st' :
  scan_commaList (addHostList1 env fuel) l r st = Some st' -> frames r st st'.
Proof using. apply scan_commaList_frames, addHostList1_frames. Qed.
Lemma read_list_frames fuel l r st st' :
  scan_commaListL (addHostList1 env fuel) l r st = Some st' -> frames r st st'.
Proof using. apply scan_commaListL_frames, addHostList1_frames. Qed.
End frame.
