(* ===== verification/Route.v ===== *)
(** * The tables of routes ([src/master.cpp])

    A [Route] is an entry of a table of the configuration: a list of
    protocols, a list of destinations, a list of sources and what is to be
    done for them.  The parameters [REMITTABLE], [PERMIT], [REJECT],
    [RELIABLE], [REACHABLE], [OWNER], [CMAP] and [SRCIF] are read into such
    tables here, those for routes to other servers in [Forward].

    The host lists of a route are references into the state of the host list
    reader, which the tables share.  [IdentHosts] is the reader's list
    [RIdent], and not in the table [USERIDENT].  [None] is a failure of the
    reader, of a list scan, or a vector of protocols without an end. *)
From S2P Require Import Prelude VStr Strings Glob ScanList ListOps Service Url ProtoV StrId.
From S2P Require Import HashTab HostAddr HostMatch HostParse HostSpec HostText.
From stdpp Require Import options.

Record Route := MkRoute {
  m_gw_proto : list Z; m_gw_host : list Z; m_gw_port : Z; m_gw_path : list Z;
  m_conn : list Z;
  m_protoV : option (list Server);
  m_protoV_NonHTTP : bool;
  m_dsts : nat;
  m_srcs : nat;
  m_owner : option (list Z);
  m_gw_auth : option site_auth;
  m_teleport : bool;
  m_cacheonly : bool;
  m_ConnectFlags : Z;
  m_Version : option (list Z);
  m_SERVER : option (list Z)
}.
Record RouteTab := MkTab {
  rt_name : list Z; rt_size : Z; rt_withsrc : Z; rt_routes : list Route
}.
Definition rt_filled (rt : RouteTab) : Z := zlen (rt_routes rt).
Definition RT_INCSIZE : Z := 16.

Definition routeTab_names : list (list Z) :=
  [cs "REMITTABLE"; cs "REACHABLE"; cs "RELIABLE"; cs "USERIDENT"; cs "CMAP"; cs "PERMIT";
   cs "MASTER"; cs "CONNECT"; cs "ROUTE"; cs "UCPROXY"; cs "OWNER"; cs "NOTIFYPLTFM";
   cs "SRCIF"; cs "REJECT"].
Definition routeTabs : list RouteTab := map (fun n => MkTab n 0 0 []) routeTab_names.
Definition R_REMITTABLE : nat := 0%nat.
Definition R_REACHABLE : nat := 1%nat.
Definition R_RELIABLE : nat := 2%nat.
Definition R_CMAP : nat := 4%nat.
Definition R_PERMIT : nat := 5%nat.
Definition R_MASTER : nat := 6%nat.
Definition R_CONNECT : nat := 7%nat.
Definition R_ROUTE : nat := 8%nat.
Definition R_OWNER : nat := 10%nat.
Definition R_NOTIFYPLTFM : nat := 11%nat.
Definition R_SRCIF : nat := 12%nat.
Definition R_REJECT : nat := 13%nat.
Definition RX_DST : bool := false.
Definition RX_SRC : bool := true.

(** [scanConnectFlags] ([src/stls.cpp]): is [ssl] an element of the list? *)
Definition COF_SSL_SV : Z := 64.
Definition is_in (list word sopts : List.list Z) : bool :=
  negb (default 0 (isinListX list word sopts) =? 0).
Definition scanConnectFlags (flags : list Z) (flagi : Z) : Z :=
  if is_in flags (cs "ssl") [SLASH] || is_in flags (cs "ssl") [46]
  then Z.lor flagi COF_SSL_SV else flagi.

Section routes.
Context {T : Type} `{IdTable T} (env : hp_env) (fuel : nat).
Variable services : list Service.

(** The host lists, the tables and [DO_METHOD_FILTER]. *)
Record rt_st := RtSt {
  r_hp : hp_st T; r_tabs : list RouteTab; DO_METHOD_FILTER : Z
}.
Definition RT_ROUTE (rtx : nat) (st : rt_st) : RouteTab :=
  nth rtx (r_tabs st) (MkTab [] 0 0 []).
Definition set_hp (st : rt_st) (hp : hp_st T) : rt_st := RtSt hp (r_tabs st) (DO_METHOD_FILTER st).
Definition alter_tab (f : RouteTab -> RouteTab) (rtx : nat) (st : rt_st) : rt_st :=
  RtSt (r_hp st) (alter f rtx (r_tabs st)) (DO_METHOD_FILTER st).

(** A table grows by [RT_INCSIZE] entries when it is full. *)
Definition newRoute (Rp : Route) (rt : RouteTab) : RouteTab :=
  MkTab (rt_name rt) (if rt_size rt <=? rt_filled rt then rt_size rt + RT_INCSIZE else rt_size rt)
    (rt_withsrc rt) (rt_routes rt ++ [Rp]).

Definition scan_hosts (list : List.list Z) (r : nat) (hp : hp_st T) : option (hp_st T) :=
  scan_commaListL (addHostList1 env fuel) list r hp.

(** The path of a [ROUTE] holds flags of the connection. *)
Definition route_flags (what path : list Z) : Z :=
  if streq what (cs "ROUTE") then scanConnectFlags path 0 else 0.
Definition has_auth (auth : option site_auth) : option site_auth :=
  a ← auth; if bool_decide (sa_user a <> []) || bool_decide (sa_pass a <> []) then Some a else None.
Definition addRoute1X (rtx : nat) (proto : list Z) (auth : option site_auth) (host : list Z) (port : Z)
  (path conn : list Z) (protov : option (list (list Z))) (dstlist srclist : list Z) (st : rt_st)
  : option rt_st :=
  let what := rt_name (RT_ROUTE rtx st) in
  let '(hp, dsts) := new_list (r_hp st) (MkHostList (what ++ cs "/DST") [] 0 true) in
  hp ← scan_hosts dstlist dsts hp;
  let '(hp, srcs) := new_list hp (MkHostList (what ++ cs "/SRC") [] 0 false) in
  hp ← scan_hosts srclist srcs hp;
  let protoV := makeProtoV <$> protov in
  let Rp := MkRoute proto host port path conn protoV false dsts srcs None (has_auth auth) false false
              (route_flags what path) None None in
  Some (RtSt hp (alter (newRoute Rp) rtx (r_tabs st))
          (DO_METHOD_FILTER st + method_filters (default [] protoV))).
Definition addRoute1 (rtx : nat) (proto host : list Z) (port : Z) (path conn : list Z)
  (protov : option (list (list Z))) (dstlist srclist : list Z) : rt_st -> option rt_st :=
  addRoute1X rtx proto None host port path conn protov dstlist srclist.

(** [hlist]: a list of the first route, which is made when it is asked for. *)
Definition no_route : Route :=
  MkRoute [] [] 0 [] [] None false 0 0 None None false false 0 None None.
Definition route_list (srcdst : bool) (Rp : Route) : nat :=
  if srcdst then m_srcs Rp else m_dsts Rp.
Definition hlist (rtx : nat) (srcdst : bool) (st : rt_st) : option (rt_st * nat) :=
  st ← (if bool_decide (rt_routes (RT_ROUTE rtx st) = [])
        then addRoute1 rtx [] [] 0 [] [] None [] [] st else Some st);
  Some (st, route_list srcdst (hd no_route (rt_routes (RT_ROUTE rtx st)))).
Definition ReliableHosts : rt_st -> option (rt_st * nat) := hlist R_RELIABLE RX_SRC.
Definition ReachableHosts : rt_st -> option (rt_st * nat) := hlist R_REACHABLE RX_DST.

(** An empty list rejects everything. *)
Definition or_none (list : List.list Z) : List.list Z :=
  if bool_decide (list = []) then cs "!*" else list.
Definition scan_RELIABLE (rels : list Z) (st : rt_st) : option rt_st :=
  '(st, r) ← ReliableHosts st;
  hp ← scan_commaList (addHostList1 env fuel) (or_none rels) r (r_hp st);
  hp ← putHostListTab (cs ".RELIABLE") r hp;
  Some (set_hp st hp).
Definition scan_REACHABLE (list : List.list Z) (st : rt_st) : option rt_st :=
  '(st, r) ← ReachableHosts st;
  let hl := get_list (r_hp st) r in
  let hp := set_list (r_hp st) r (MkHostList (hl_what hl) (hl_List hl) (hl_flags hl) true) in
  hp ← scan_commaList (addHostList1 env fuel) (or_none list) r hp;
  Some (set_hp st hp).
Definition NotifyPltfrmHosts (NOTIFY_PLATFORM : list Z) (st : rt_st) : option (rt_st * nat) :=
  '(st, r) ← hlist R_NOTIFYPLTFM RX_DST st;
  if (hl_cnt (get_list (r_hp st) r) =? 0) && bool_decide (NOTIFY_PLATFORM <> [])
  then hp ← scan_commaList (addHostList1 env fuel) NOTIFY_PLATFORM r (r_hp st);
       Some (set_hp st hp, r)
  else Some (st, r).

(** [OWNER=user:srcHostList]. *)
Definition scan_OWNER (ownerspec : list Z) (st : rt_st) : option rt_st :=
  (* Xsscanf(ownerspec,"%[^:]:%s",user,from) *)
  match index_of COLON ownerspec with
  | Some (S i) =>
      let from := until_space (skip_spaces (drop (S (S i)) ownerspec)) in
      if bool_decide (from <> [])
      then
        st ← addRoute1 R_OWNER [] [] 0 [] [] None [] from st;
        let put Rp := MkRoute (m_gw_proto Rp) (m_gw_host Rp) (m_gw_port Rp) (m_gw_path Rp)
                        (m_conn Rp) (m_protoV Rp) (m_protoV_NonHTTP Rp) (m_dsts Rp) (m_srcs Rp)
                        (Some (take (S i) ownerspec)) (m_gw_auth Rp) (m_teleport Rp)
                        (m_cacheonly Rp) (m_ConnectFlags Rp) (m_Version Rp) (m_SERVER Rp) in
        Some (alter_tab (fun rt => MkTab (rt_name rt) (rt_size rt) (rt_withsrc rt)
                 (alter put (pred (length (rt_routes rt))) (rt_routes rt))) R_OWNER st)
      else Some st
  | _ => Some st
  end.

(** *** [CMAP] *)

(** [xstrchr] finds the separator outside of braces; [stoVX] with it.  A
    vector that is filled has no end. *)
Fixpoint xstrchr (lev : Z) (str : list Z) (del : Z) : option nat :=
  match str with
  | [] => None
  | ch :: str' =>
      if ch =? LBRACE then S <$> xstrchr (lev + 1) str' del
      else if ch =? RBRACE then S <$> xstrchr (lev - 1) str' del
      else if (ch =? del) && (lev <=? 0) then Some 0%nat
      else S <$> xstrchr lev str' del
  end.
Fixpoint stoVX (mac : nat) (s : list Z) (sep : Z) : option (list (list Z)) :=
  match mac, s with
  | O, _ => None
  | _, [] => Some []
  | S mac', _ =>
      match xstrchr 0 s sep with
      | Some i => l ← stoVX mac' (drop (S i) s) sep;
                  if Nat.eqb mac' 0 then None else Some (take i s :: l)
      | None => if Nat.eqb mac' 0 then None else Some [s]
      end
  end.

Definition M_OUT : nat := 0%nat.
Definition M_NAME : nat := 1%nat.
Definition M_PROTo : nat := 2%nat.
Definition M_DSTH : nat := 3%nat.
Definition M_SRCH : nat := 4%nat.
Definition scanmap1 (mac : Z) (mapv : list (list Z)) (map1 : list Z) (_ : option (list Z))
  : list (list Z) * Z :=
  if mac <=? zlen mapv then (mapv, -1) else (mapv ++ [map1], 0).
Definition strip_braces (map1 : list Z) : list Z :=
  if (cat map1 0 =? LBRACE) && (strtailchr map1 =? RBRACE) then removelast (tl map1) else map1.
(** [mapv[M_PROTo]] is split in place; its first piece is the one that the
    braces are taken from. *)
Definition scan_CMAPX (map : list Z) (reverse defaultOK : bool) (st : rt_st) : option rt_st :=
  res ← scan_ListLX (scanmap1 8) true false (clip 1024 map) COLON [];
  let mapc := length res.1.1 in
  let elem i :=
    let e := nth i res.1.1 [] in
    if defaultOK && bool_decide (e = []) then [STAR] else e in
  let strip i e := if (i <? mapc)%nat then strip_braces e else e in
  protoV ← stoVX 32 (elem M_PROTo) COMMA;
  let protoV := match protoV with p :: l => strip M_PROTo p :: l | [] => [] end in
  let mapv i := strip i (elem i) in
  let namex := if reverse then M_OUT else M_NAME in
  let outx := if reverse then M_NAME else M_OUT in
  addRoute1 R_CMAP (cs "CMAP") (mapv namex) 0 (mapv outx) (cs "-") (Some protoV)
    (mapv M_DSTH) (mapv M_SRCH) st.
Definition scan_CMAP (map : list Z) : rt_st -> option rt_st := scan_CMAPX map false false.
Definition scan_CMAP2 (name map : list Z) : rt_st -> option rt_st :=
  scan_CMAPX (clip 1024 (name ++ COLON :: map)) true true.

(** [scan_CMAPi], [getCMAPi]: by number. *)
Definition Maps (st : rt_st) : list Route := rt_routes (RT_ROUTE R_CMAP st).
Fixpoint scan_CMAPi_loop (map : list Z) (mx : Z) (l : list Route) : option (Z * list Z) :=
  match l with
  | [] => None
  | Rp :: l' => if streq map (m_gw_host Rp) then Some (mx, m_gw_path Rp)
                else scan_CMAPi_loop map (mx + 1) l'
  end.
Definition scan_CMAPi (map : list Z) (mx0 : nat) (st : rt_st) : option (Z * list Z) :=
  scan_CMAPi_loop map (Z.of_nat mx0) (drop mx0 (Maps st)).
Definition getCMAPi (mi : nat) (st : rt_st) : option (list Z) := m_gw_path <$> Maps st !! mi.
Definition getCMAPiMap (mi : nat) (st : rt_st) : option (list Z) := m_gw_host <$> Maps st !! mi.

(** [RELAY=type,...:map;...] makes a [CMAP] of each. *)
Definition scan_RELAY (relay : list Z) (st : rt_st) : option rt_st :=
  res ← scan_ListX (fun (a : option rt_st) relay1 _ => (a ≫= scan_CMAP2 (cs "relay") relay1, 0))
          true false relay 59 (Some st);
  res.1.1.

(** *** [PERMIT], [REMITTABLE] and [REJECT] *)
Definition DELEGATE_RELIABLE : list Z := cs ".localnet".
Definition Remittable (st : rt_st) : option (list Server) :=
  match rt_routes (RT_ROUTE R_REMITTABLE st) with
  | Rp :: _ => Some (default [] (m_protoV Rp))
  | [] => None
  end.
Definition set_protoV (protoV : list Server) (Rp : Route) : Route :=
  MkRoute (m_gw_proto Rp) (m_gw_host Rp) (m_gw_port Rp) (m_gw_path Rp) (m_conn Rp) (Some protoV)
    (m_protoV_NonHTTP Rp) (m_dsts Rp) (m_srcs Rp) (m_owner Rp) (m_gw_auth Rp) (m_teleport Rp)
    (m_cacheonly Rp) (m_ConnectFlags Rp) (m_Version Rp) (m_SERVER Rp).
Definition put_Remittable (protov : list (list Z)) (st : rt_st) : option rt_st :=
  match Remittable st with
  | Some _ =>
      let protoV := makeProtoV protov in
      Some (RtSt (r_hp st)
              (alter (fun rt => MkTab (rt_name rt) (rt_size rt) (rt_withsrc rt)
                                  (alter (set_protoV protoV) 0%nat (rt_routes rt))) R_REMITTABLE
                 (r_tabs st))
              (DO_METHOD_FILTER st + method_filters protoV))
  | None => addRoute1 R_REMITTABLE [] [] 0 [] [] (Some protov) [STAR] [STAR] st
  end.
Definition count_withsrc (withsrc : bool) (rt : RouteTab) : RouteTab :=
  MkTab (rt_name rt) (rt_size rt) (rt_withsrc rt + if withsrc then 1 else 0) (rt_routes rt).

(** [forreject] and [DFLT_PROTO] are the connection's. *)
Definition scan_PERMITV (forreject : bool) (DFLT_PROTO : list Z) (list : List.list Z)
  (protov : List.list (List.list Z)) (st : rt_st) : option rt_st :=
  '(pc, l) ← scan_Listlist list COLON 3;
  let protoL := clip 2048 (nth 0 l []) in
  let dstL := clip 2048 (nth 1 l []) in
  let srcL := clip 2048 (nth 2 l []) in
  if negb forreject && (pc <=? 1)
  then
    let old := match Remittable st with Some V => sprintProtoV V | None => [] end in
    (* sprintProtoV reads on behind a text that does not fit protolist[1024] *)
    guard (length old < 1024)%nat;;
    let protoL := clip 1024 (old ++ (if bool_decide (old <> []) && bool_decide (protoL <> [])
                                     then [COMMA] else []) ++ protoL) in
    protoV ← protoList services protov DFLT_PROTO protoL;
    put_Remittable protoV st
  else
    let protov :=
      match Remittable st with
      | Some V => if forreject then protov else map p_name (take (pred MAXPROTO) V)
      | None => protov
      end in
    protoV ← protoList services protov DFLT_PROTO protoL;
    let withsrc := bool_decide (srcL <> []) in
    let dstL := if bool_decide (dstL = []) then [STAR] else dstL in
    let srcL := if withsrc then srcL else DELEGATE_RELIABLE in
    let rtx := if forreject then R_REJECT else R_PERMIT in
    st ← addRoute1 rtx [] [] 0 [] [] (Some protoV) dstL srcL st;
    Some (alter_tab (count_withsrc withsrc) rtx st).
Definition PERMIT_withSrc (st : rt_st) : Z := rt_withsrc (RT_ROUTE R_PERMIT st).
Definition withREMITTABLE (st : rt_st) : bool := bool_decide (Remittable st <> None).

(** [scan_PERMIT] and [scan_REJECT] ([src/service.cpp]). *)
Definition permit (forreject : bool) (DFLT_PROTO protolist : list Z) : rt_st -> option rt_st :=
  scan_PERMITV forreject DFLT_PROTO protolist (take (pred NSERVICES) (service_names services)).
Definition scan_PERMIT : list Z -> list Z -> rt_st -> option rt_st := permit false.
Definition scan_REJECT : list Z -> list Z -> rt_st -> option rt_st := permit true.

(** *** [SRCIF=host:port:proto:dst:src] *)

(** [sscanf(s,"%d-%d",&p1,&p2) == 2]. *)
Definition scan_range (s : list Z) : option (Z * Z) :=
  '(p1, r) ← scan_d s;
  if cat r 0 =? DASH then '(p2, _) ← scan_d (tl r); Some (p1, p2) else None.
Definition scan_SRCIF (ifspec : list Z) (st : rt_st) : option rt_st :=
  let specb := cstr (v_buf (linescanX ifspec (vnew 1024) 1024).1) in
  let specv := stoV 5 specb COLON in
  let spec i := nth i specv [STAR] in
  let sport := match scan_range (spec 1%nat) with
               | Some (p1, p2) => s32 (Z.lor (s32 (p1 * 2 ^ 16)) p2)
               | None => if streq (spec 1%nat) (cs "0") then s32 4294901760 else atoi (spec 1%nat)
               end in
  let protov := stoV 64 (spec 2%nat) COMMA in
  if (64 <=? length protov)%nat then None
  else addRoute1 R_SRCIF [] (spec 0%nat) sport [] [] (Some protov) (spec 3%nat) (spec 4%nat) st.
End routes.
Arguments rt_st T : clear implicits.

Definition rt_init {T} `{IdTable T} : rt_st T := RtSt minit_hostlist routeTabs 0.
Definition ex_permit (p : list Z) (st : rt_st HTable) : option (rt_st HTable) :=
  scan_PERMIT hp_env0 4 services0 (cs "http") p st.
Definition show_route (st : rt_st HTable) (Rp : Route) :=
  (sprintProtoV (default [] (m_protoV Rp)), map h_name (items_of (r_hp st) (m_dsts Rp)),
   map h_name (items_of (r_hp st) (m_srcs Rp))).
Example scan_PERMIT_1 :
  (st ← ex_permit (cs "!*,http,https/{80,443},gopher,ftp,wais") rt_init;
   st ← ex_permit (cs "ssltunnel") st;
   st ← ex_permit (cs "http,ftp//RETR,pop:*.dom:{10.0.*,!10.0.9.*}") st;
   Some (sprintProtoV (default [] (Remittable st)), map (show_route st) (rt_routes (RT_ROUTE R_PERMIT st)),
         PERMIT_withSrc st, DO_METHOD_FILTER st)) =
  Some (cs "http,https/{80,443},gopher,ftp,wais,ssltunnel",
        [(cs "http,ftp/*/RETR", [cs "*.dom"],
          [cs "10.0.[0-255]"; cs "10.0.9.[0-255]"])], 1, 1).
Proof. vm_compute. reflexivity. Qed.
Example scan_CMAP_1 :
  (st ← scan_CMAP hp_env0 4 (cs "out:name:{http,ftp//{GET,PUT}}:*:a.*") rt_init;
   Some (map (show_route st) (Maps st), getCMAPi 0 st, getCMAPiMap 0 st)) =
  Some ([(cs "http,ftp/*/{GET,PUT}", [cs "*"], [cs "a.*"])], Some (cs "out"), Some (cs "name")).
Proof. vm_compute. reflexivity. Qed.
