(* ===== verification/Forward.v ===== *)
(** * Routes to other servers: the parameters ([src/master.cpp])

    [MASTER], [DIRECT], [ROUTE], [FORWARD], [GATEWAY], [PROXY] and [CONNECT]:
    which server to go through, and by which methods to connect.  Each is
    read into a table of routes, which [Connect] looks into.

    Texts are taken to be shorter than the buffers they are copied to.  The
    lists of hosts are the reader's; [IsResolvable] of [scan_MASTER0] affects
    the log only. *)
From S2P Require Import Prelude VStr Strings Glob ScanList ListOps Service Url ProtoV StrId.
From S2P Require Import HashTab HostAddr HostMatch HostParse HostSpec HostText Route.
From stdpp Require Import options.

Definition DELMARK : list Z := cs "-_-".

(** [%[^c]] and [%s] of [sscanf]: at least one character. *)
Definition scan_set (stop : Z -> bool) (s : list Z) : option (list Z * list Z) :=
  let '(a, r) := span (fun c => negb (stop c)) (length s) s in
  if bool_decide (a = []) then None else Some (a, r).
Definition scan_not (c : Z) : list Z -> option (list Z * list Z) := scan_set (Z.eqb c).
Definition scan_s (s : list Z) : option (list Z * list Z) := scan_set isspace (skip_spaces s).

(** The gateway, and the hosts it is for. *)
Definition cut_delmark (forward : list Z) : list Z * list Z :=
  match strstr forward DELMARK with
  | Some r => (take (length forward - length r) forward, drop (length DELMARK) r)
  | None => (forward, [])
  end.
Definition noproxy (proto : list Z) : bool := streq proto (cs "direct") || streq proto (cs "noroute").

(** [Xsscanf(gateway,"%[^:]://%[^/]%s",...)]; the strings that are not
    scanned are empty. *)
Definition scan_gateway (gateway : list Z) : nat * (list Z * list Z * list Z) :=
  match scan_not COLON gateway with
  | Some (proto, r) =>
      if strneq r (cs "://") 3
      then match scan_not SLASH (drop 3 r) with
           | Some (hostport, r) =>
               match scan_s r with
               | Some (path, _) => (3%nat, (proto, hostport, path))
               | None => (2%nat, (proto, hostport, []))
               end
           | None => (1%nat, (proto, [], []))
           end
      else (1%nat, (proto, [], []))
  | None => (0%nat, ([], [], []))
  end.
(** [{dst}:{src}]: the lists of a [ROUTE], each in braces or not. *)
Definition route_src (srcp : list Z) : option (list Z) :=
  if cat srcp 0 =? LBRACE
  then (fun i => take i (tl srcp)) <$> index_of RBRACE (tl srcp)
  else Some srcp.
Definition route_lists (dp : list Z) : option (list Z * list Z) :=
  if cat dp 0 =? LBRACE
  then
    np ← index_of RBRACE (tl dp);
    let dst := take np (tl dp) in
    match drop (S np) (tl dp) with
    | [] => Some (dst, [])
    | c :: srcp => if c =? COLON then src ← route_src srcp; Some (dst, src) else None
    end
  else
    match index_of COLON dp with
    | Some np => src ← route_src (drop (S np) dp); Some (take np dp, src)
    | None => Some (dp, [])
    end.

(** *** [CONNECT] *)
Definition C_CACHE : Z := 99.
Definition C_ICP : Z := 105.
Definition C_FTP : Z := 102.
Definition C_SSLTUNNEL : Z := 104.
Definition C_MASTER : Z := 109.
Definition C_MASTERP : Z := 109.
Definition C_PROXY : Z := 112.
Definition C_DIRECT : Z := 100.
Definition C_VSAP : Z := 118.
Definition C_SOCKS : Z := 115.
Definition C_YYMUX : Z := 121.
Definition C_TELEPORT : Z := 116.
Definition C_UDP : Z := 117.
Definition C_INTERNAL : Z := 108.
Definition C_NONE_ : Z := 78.
Definition C_GATEWAY : Z := 103.
Definition c_types : list Z :=
  [C_CACHE; C_ICP; C_DIRECT; C_FTP; C_SSLTUNNEL; C_PROXY; C_MASTER; C_VSAP; C_YYMUX; C_SOCKS;
   C_TELEPORT; C_UDP; C_INTERNAL; C_NONE_; C_GATEWAY].

(** What [connect1] does: the orders it stores, [enable_cache], and the
    parameters [VSAP] it reads. *)
Record conn_arg := ConnArg {
  c_orders : list Z; c_enable_cache : bool; c_vsaps : list (list Z)
}.
Definition c_orderZ : Z := 32.
Definition ctype_of (conn : list Z) : option Z :=
  let c := cat conn 0 in
  if c =? C_MASTER
  then Some (match index_of SLASH conn with
             | Some i => if cat conn (Z.of_nat i + 1) =? 112 then C_MASTERP else C_MASTER
             | None => C_MASTER
             end)
  else if c =? C_TELEPORT then Some (if streq conn (cs "tcp") then C_DIRECT else C_TELEPORT)
  else if existsb (Z.eqb c) c_types then Some c else None.
Definition connect1 (Ca : conn_arg) (conn : list Z) (_ : option (list Z)) : conn_arg * Z :=
  match ctype_of conn with
  | None => (Ca, -1)
  | Some ctype =>
      let c := cat conn 0 in
      let cache := c_enable_cache Ca || (c =? C_CACHE) in
      let vsaps := c_vsaps Ca ++
        (if c =? C_VSAP
         then match index_of SLASH conn with
              | Some i => [drop (S i) conn ++ cs "/CONNECT"]
              | None => []
              end
         else []) in
      if c_orderZ - 1 <=? zlen (c_orders Ca) then (ConnArg (c_orders Ca) cache vsaps, -1)
      else (ConnArg (c_orders Ca ++ [ctype]) cache vsaps, 0)
  end.
(** [conn1]: the parts of the parameter, an empty one is [*]. *)
Definition conn1 (mac : Z) (connv : list (list Z)) (co1 : list Z) (_ : option (list Z))
  : list (list Z) * Z :=
  if mac <=? zlen connv then (connv, -1)
  else (connv ++ [if bool_decide (co1 = []) then [STAR] else co1], 0).
Definition part (connv : list (list Z)) (i : nat) : list Z := nth i connv [STAR].

(** What a text of [CONNECT] means; [None]: the server stops. *)
Record connect_spec := ConnSpec {
  cn_arg : conn_arg; cn_proto : list Z; cn_dst : list Z; cn_src : list Z
}.
Definition connect_text (connlist : list Z) : option connect_spec :=
  parts ← scan_ListX (conn1 4) true false connlist COLON [];
  let connv := parts.1.1 in
  orders ← scan_ListLX connect1 true false (part connv 0) COMMA (ConnArg [] false []);
  if orders.1.2 <? 0 then None
  else Some (ConnSpec orders.1.1 (part connv 1) (part connv 2) (part connv 3)).

Section forward.
Context {T : Type} `{IdTable T} (env : hp_env) (fuel : nat).
Variable services : list Service.

(** [stoV(proto,MAXPROTO,protoV,',')]: a vector that is filled has no end. *)
Definition proto_vector (proto : list Z) : option (list (list Z)) :=
  let protov := stoV MAXPROTO proto COMMA in
  if (MAXPROTO <=? length protov)%nat then None else Some protov.

(** [ROUTE=proto://host:port/path-_-{dstHostList}:{srcHostList}] *)
Definition scan_ROUTE (forward : list Z) (st : rt_st T) : option (rt_st T) :=
  let '(gateway, cmap) := cut_delmark forward in
  let '(n, (proto, hostport, path)) := scan_gateway gateway in
  if (n <? 2)%nat && negb (noproxy proto) then Some st
  else
    let au := decomp_siteX services proto hostport in
    match route_lists cmap with
    | None => Some st
    | Some (dstlist, srclist) =>
        addRoute1X env fuel R_ROUTE proto (Some au) (sa_host au) (sa_port au) path [] None dstlist
          srclist st
    end.

(** [FORWARD=gatewayURL[-_-connMap]] *)
Definition scan_FORWARDX (forward : list Z) (withproto : bool) (st : rt_st T) : option (rt_st T) :=
  let '(gateway, cmap) := cut_delmark forward in
  let url := decomp_absurl gateway 128 in
  let proto := au_proto url in
  let hostport := au_login url in
  if (bool_decide (proto = []) || bool_decide (hostport = [])) && negb (noproxy proto) then Some st
  else
    let au := decomp_siteX services proto hostport in
    let portb := (decomp_URL_site hostport).2 in
    let port := if atoi portb =? 0 then serviceport services proto else atoi portb in
    parts ← scan_ListLX (conn1 4) true false cmap COLON [];
    let connv := parts.1.1 in
    let '(svproto, dst, src) :=
      if withproto then (part connv 0, part connv 1, part connv 2)
      else ([STAR], part connv 0, part connv 1) in
    protoV ← proto_vector svproto;
    addRoute1X env fuel R_ROUTE proto (Some au) (sa_host au) port (au_upath url) [] (Some protoV) dst
      src st.
Definition scan_FORWARD (forward : list Z) : rt_st T -> option (rt_st T) :=
  scan_FORWARDX forward true.
Definition scan_GATEWAY (gateway : list Z) : rt_st T -> option (rt_st T) := scan_FORWARD gateway.

(** *** [MASTER=host:port[/masterControl][:dstHostList]] *)

Definition scan_MASTER0 (host : list Z) (port : Z) (route filter : list Z) (st : rt_st T)
  : option (rt_st T) :=
  let req opt := strcaseeq route opt in
  let ssl := is_in route (cs "ssl") [SLASH] in
  let flags := if bool_decide (route <> []) && ssl then scanConnectFlags route 0 else 0 in
  let nonhttp := bool_decide (route <> []) && negb ssl && req (cs "NonHTTP") in
  let tele := bool_decide (route <> []) && negb ssl && req (cs "teleport") in
  let cacheonly := bool_decide (route <> []) && negb ssl && req (cs "cache") in
  let '(hp, d) := new_list (r_hp st) (MkHostList (cs "MASTER/FILTER") [] 0 false) in
  hp ← scan_hosts env fuel filter d hp;
  let '(hp, s) := new_list hp (MkHostList [] [] 0 false) in
  let Rp := MkRoute [] host port [] [] None nonhttp d s None None tele cacheonly flags None None in
  Some (RtSt hp (alter (newRoute Rp) R_MASTER (r_tabs st)) (DO_METHOD_FILTER st)).
(** [ports0] is what the buffer for the port holds before it is used: with
    [*:filter] nothing is stored there. *)
Definition master_text (ports0 master : list Z) : option (list Z * list Z * list Z) :=
  if cat master 0 =? STAR
  then Some ([STAR], ports0,
             if cat master 1 =? COLON
             then match scan_s (drop 2 master) with Some (f, _) => f | None => [] end else [])
  else
    '(host, r) ← scan_not COLON master;
    if negb (cat r 0 =? COLON) then None
    else
      '(ports, r) ← scan_not COLON (tl r);
      Some (host, ports,
            if cat r 0 =? COLON
            then match scan_s (tl r) with Some (f, _) => f | None => [] end else []).
Definition scan_MASTER (ports0 master : list Z) (st : rt_st T) : option (rt_st T) :=
  match master_text ports0 master with
  | None => Some st
  | Some (host, ports, filter) =>
      let '(host, route) :=
        match index_of SLASH host with
        | Some (S i) => (take (S i) host, drop (S (S i)) host)
        | _ => (host, [])
        end in
      let '(ports, route) :=
        match index_of SLASH ports with
        | Some i => (take i ports, drop (S i) ports)
        | None => (ports, route)
        end in
      scan_MASTER0 host (atoi ports) route filter st
  end.
Definition scan_DIRECT (hosts : list Z) : rt_st T -> option (rt_st T) :=
  scan_MASTER0 [64] 0 [] hosts.

(** *** [PROXY=host:port[:dstHostList]] *)

(** The protocol of the proxy when the text names none. *)
Definition proxy_proto (in_clalg : bool) (REAL_PROTO DFLT_PROTO : list Z) : list Z :=
  if in_clalg then REAL_PROTO
  else if bool_decide (DFLT_PROTO <> []) then DFLT_PROTO else cs "http".
(** [Xsscanf(proxy,"%[^:]:%d:%s",host,&port,filter)]; with an empty text the
    host is not set. *)
Definition proxy_text (proxy : list Z) : option (list Z * Z * list Z) :=
  '(host, r) ← scan_not COLON proxy;
  if negb (cat r 0 =? COLON) then Some (host, 8080, [STAR])
  else match scan_d (tl r) with
       | None => Some (host, 8080, [STAR])
       | Some (port, r) =>
           if negb (cat r 0 =? COLON) then Some (host, port, [STAR])
           else match scan_s (tl r) with
                | Some (filter, _) => Some (host, port, filter)
                | None => Some (host, port, [STAR])
                end
       end.
Definition proxy_filter (filter : list Z) : list Z :=
  if cat filter 0 =? LBRACE
  then let f := tl filter in
       if (0 <? zlen f) && (strtailchr f =? RBRACE) then removelast f else f
  else filter.
Definition proxy_route (proto host : list Z) (port : Z) (filter : list Z) : list Z :=
  proto ++ cs "://" ++ host ++ COLON :: fmt_d port ++ SLASH :: DELMARK ++
  LBRACE :: filter ++ RBRACE :: COLON :: LBRACE :: STAR :: [RBRACE].
Definition scan_PROXY (ports0 proto proxy : list Z) (st : rt_st T) : option (rt_st T) :=
  let protob := match scan_not COLON proxy with Some (p, _) => p | None => [] end in
  let url := bool_decide (strstr proxy (cs "://") <> None)
             && (0 <? serviceport services protob) in
  let proxy' := if url then drop (length protob + 3) proxy else proxy in
  let proto := if url then protob else proto in
  if url && strcaseeq proto (cs "delegate") then scan_MASTER ports0 proxy' st
  else if bool_decide (proxy' = []) then None
  else match proxy_text proxy' with
       | None => Some st
       | Some (host, port, filter) =>
           scan_ROUTE (proxy_route proto host port (proxy_filter filter)) st
       end.

(** *** [CONNECT=connSeq[:connMap]] *)
Definition scan_CONNECT (connlist : list Z) (st : rt_st T) : option (conn_arg * rt_st T) :=
  sp ← connect_text connlist;
  protoV ← proto_vector (cn_proto sp);
  st ← addRoute1 env fuel R_CONNECT [] [] 0 [] (c_orders (cn_arg sp)) (Some protoV) (cn_dst sp)
         (cn_src sp) st;
  Some (cn_arg sp, st).

(** *** The versions of the masters *)
Definition Masters (st : rt_st T) : list Route := rt_routes (RT_ROUTE R_MASTER st).
Definition Forwards (st : rt_st T) : list Route := rt_routes (RT_ROUTE R_ROUTE st).
Definition Connects (st : rt_st T) : list Route := rt_routes (RT_ROUTE R_CONNECT st).
Definition Srcif (st : rt_st T) : list Route := rt_routes (RT_ROUTE R_SRCIF st).
Definition nMASTERS (st : rt_st T) : Z := zlen (Masters st).
Definition get_masterenv (mx : nat) (st : rt_st T) : option (list Z * list Z) :=
  Rp ← Masters st !! pred mx;
  v ← m_Version Rp; s ← m_SERVER Rp; Some (v, s).
Definition set_version (version server : list Z) (Rp : Route) : Route :=
  MkRoute (m_gw_proto Rp) (m_gw_host Rp) (m_gw_port Rp) (m_gw_path Rp) (m_conn Rp) (m_protoV Rp)
    (m_protoV_NonHTTP Rp) (m_dsts Rp) (m_srcs Rp) (m_owner Rp) (m_gw_auth Rp) (m_teleport Rp)
    (m_cacheonly Rp) (m_ConnectFlags Rp) (Some version) (Some server).
Definition set_masterenv (mx : nat) (version server : list Z) (st : rt_st T) : rt_st T :=
  alter_tab (fun rt => MkTab (rt_name rt) (rt_size rt) (rt_withsrc rt)
                         (alter (set_version version server) (pred mx) (rt_routes rt))) R_MASTER st.
(** The tunnels that [TeleportServer] binds: number, host and port. *)
Definition TeleportServer (st : rt_st T) : list (Z * list Z * Z) :=
  omap (fun p : nat * Route => if m_teleport p.2
          then Some (Z.of_nat p.1 + 1, m_gw_host p.2, m_gw_port p.2) else None)
    (imap pair (Masters st)).
End forward.

Definition show_gw (st : rt_st HTable) (Rp : Route) :=
  (m_gw_proto Rp, m_gw_host Rp, m_gw_port Rp, m_gw_path Rp, m_ConnectFlags Rp,
   (map h_name (items_of (r_hp st) (m_dsts Rp)), map h_name (items_of (r_hp st) (m_srcs Rp)))).
Definition show_auth (Rp : Route) := (fun a => (sa_user a, sa_pass a)) <$> m_gw_auth Rp.
Example scan_ROUTE_1 :
  (fun st => map (show_gw st) (Forwards st)) <$>
    (scan_ROUTE hp_env0 4 services0 (cs "socks://gw.dom:1081/ssl-_-{*.org}:{!*.b}") rt_init ≫=
     scan_PROXY hp_env0 4 services0 [] (cs "http") (cs "px:3128:{*.net}")) =
  Some [(cs "socks", cs "gw.dom", 1081, cs "/ssl", COF_SSL_SV, ([cs "*.org"], [cs "*"; cs "*.b"]));
        (cs "http", cs "px", 3128, cs "/", 0, ([cs "*.net"], [cs "*"]))].
Proof. vm_compute. reflexivity. Qed.
Example scan_FORWARD_1 :
  (fun st => map (fun Rp => (show_gw st Rp, show_auth Rp, sprintProtoV (default [] (m_protoV Rp))))
               (Forwards st)) <$>
    (scan_FORWARD hp_env0 4 services0 (cs "ssltunnel://u:p@gw:8080/x-_-https//GET:*.org") rt_init ≫=
     scan_GATEWAY hp_env0 4 services0 (cs "noroute-_-ftp")) =
  Some [((cs "ssltunnel", cs "gw", 8080, cs "x", 0, ([cs "*.org"], [cs "*"])),
         Some (cs "u", cs "p"), cs "https/*/GET");
        ((cs "noroute", [], 0, [], 0, ([cs "*"], [cs "*"])), None, cs "ftp")].
Proof. vm_compute. reflexivity. Qed.
Example scan_MASTER_1 :
  (fun st => map (fun Rp => (m_gw_host Rp, m_gw_port Rp, (m_teleport Rp, m_cacheonly Rp),
                             m_ConnectFlags Rp, map h_name (items_of (r_hp st) (m_dsts Rp))))
               (Masters st)) <$>
    ((scan_MASTER hp_env0 4 [] (cs "m1:8080/cache:*.org") rt_init ≫=
      scan_MASTER hp_env0 4 [] (cs "m2:1080/ssl")) ≫= scan_DIRECT hp_env0 4 (cs "*.jp")) =
  Some [(cs "m1", 8080, (false, true), 0, [cs "*.org"]);
        (cs "m2", 1080, (false, false), COF_SSL_SV, []);
        ([64], 0, (false, false), 0, [cs "*.jp"])].
Proof. vm_compute. reflexivity. Qed.
Example scan_CONNECT_1 :
  (fun p => (c_orders p.1, map (fun Rp => (m_conn Rp, sprintProtoV (default [] (m_protoV Rp))))
                              (Connects p.2))) <$>
    scan_CONNECT hp_env0 4 (cs "cache,icp,master/p,tcp,s:http,ftp:*.org") rt_init =
  Some (cs "cimds", [(cs "cimds", cs "http,ftp")]).
Proof. vm_compute. reflexivity. Qed.
(** An unknown method stops the server. *)
Example scan_CONNECT_2 : scan_CONNECT hp_env0 4 (cs "cache,xyz") rt_init = None.
Proof. vm_compute. reflexivity. Qed.
