(* ===== verification/Config.v ===== *)
(** * The access control parameters of a server ([src/delegated.cpp])

    The order in which the parameters are read and the defaults for those
    that are not given.  The other parameters of that part of the start-up
    do not touch the tables. *)
From S2P Require Import Prelude Strings Glob ScanList Service ProtoV StrId HashTab.
From S2P Require Import HostAddr HostMatch HostParse HostText Route.
From stdpp Require Import options.

Definition DELEGATE_G_PERMIT : list Z := cs "*".
Definition DELEGATE_S_PERMIT : list Z := cs "!*,.".
Definition DELEGATE_TELNET_PERMIT : list Z := cs "!*,telnet/{23,992,22}".
Definition DELEGATE_SOCKS_PERMIT : list Z := cs "!*,socks,tcprelay".
Definition DELEGATE_HTTP_PERMIT : list Z :=
  cs "!*,http,https/{80,443},gopher,ftp,wais".
Definition DELEGATE_RELAY : list Z :=
  cs "delegate,nojava:*:*:.localnet;vhost,nojava:http:{*:80}:.localnet;proxy".

Definition isHTTP (proto : list Z) : bool :=
  strcaseeq proto (cs "httpft") || strcaseeq proto (cs "htaccept")
  || strcaseeq proto (cs "http-proxy") || strcaseeq proto (cs "http")
  || strcaseeq proto (cs "https").

(** What the server is; [DFLT_PROTO] is the protocol it serves. *)
Record server_conf := ServerConf {
  BORN_SPECIALIST : bool; sc_proto : list Z; sc_iproto : list Z; sc_iport : Z;
  with_SERVER : bool; lHTTPACCEPT : bool
}.
(** The values of the parameters, in the order they are given. *)
Record ac_params := AcParams {
  P_OWNER : list (list Z); P_REMITTABLE : list (list Z); P_PERMIT : list (list Z);
  P_REJECT : list (list Z); P_RELIABLE : list (list Z); P_REACHABLE : list (list Z);
  P_RELAY : list (list Z)
}.

Section config.
Context {T : Type} `{IdTable T} (env : hp_env) (fuel : nat).
Variables (services : list Service) (sc : server_conf) (NOTIFY_PLATFORM : list Z).

Definition defaultPERMIT : list Z :=
  if BORN_SPECIALIST sc
  then if streq (sc_proto sc) (cs "telnet") && negb (sc_iport sc =? 0)
       then sc_iproto sc ++ SLASH :: fmt_d (sc_iport sc)
       else if streq (sc_proto sc) (cs "tunnel1") then DELEGATE_G_PERMIT
       else if isHTTP (sc_proto sc) || streq (sc_proto sc) (cs "icp") then DELEGATE_HTTP_PERMIT
       else if strneq (sc_proto sc) (cs "socks") 5 then DELEGATE_SOCKS_PERMIT
       else if streq (sc_proto sc) (cs "telnet") then DELEGATE_TELNET_PERMIT
       else DELEGATE_S_PERMIT
  else if with_SERVER sc then DELEGATE_G_PERMIT else DELEGATE_HTTP_PERMIT.

Definition permit1 (p : list Z) (st : rt_st T) : option (rt_st T) :=
  scan_PERMIT env fuel services (sc_proto sc) p st.
Definition scan_PERMITdflt (params : ac_params) (st : rt_st T) : option (rt_st T) :=
  if lHTTPACCEPT sc
  then
    st ← permit1 (defaultPERMIT ++ cs ",htaccept,incoming,ssltunnel") st;
    if bool_decide (P_REMITTABLE params = []) && bool_decide (P_PERMIT params = [])
    then
      st ← permit1 (cs "htaccept,ssltunnel:-P:.RELIABLE") st;
      st ← permit1 (cs "incoming:-P:*") st;
      if streq (sc_iproto sc) (cs "htmux") then Some st
      else permit1 (defaultPERMIT ++ cs ":-P:.RELIABLE") st
    else Some st
  else permit1 defaultPERMIT st.

(** [scan_PERMITX] with [PERMIT_GLOBAL]. *)
Definition scan_PERMITX (params : ac_params) (proto : list Z) (s : rt_st T * Z)
  : option (rt_st T * Z) :=
  let '(st, PERMIT_GLOBAL) := s in
  n ← num_ListElems proto COLON;
  if n =? 1
  then
    let proto := if cat proto 0 =? 43 then defaultPERMIT ++ tl proto else proto in
    st ← permit1 proto st; Some (st, PERMIT_GLOBAL + 1)
  else
    st ← (if PERMIT_GLOBAL =? 0 then scan_PERMITdflt params st else Some st);
    st ← permit1 proto st;
    Some (st, if PERMIT_GLOBAL =? 0 then PERMIT_GLOBAL + 1 else PERMIT_GLOBAL).

(** [scanEnv]: each of the values. *)
Definition scanEnv {S} (values : list (list Z)) (func : list Z -> S -> option S) (s : S) : option S :=
  fold_left (fun o v => o ≫= func v) values (Some s).

Definition scan_access (params : ac_params) (st : rt_st T) : option (rt_st T) :=
  '(st, _) ← NotifyPltfrmHosts env fuel NOTIFY_PLATFORM st;
  st ← scanEnv (P_OWNER params) (scan_OWNER env fuel) st;
  '(st, pg) ←
    (if bool_decide (P_REMITTABLE params <> [])
     then scanEnv (P_REMITTABLE params) (scan_PERMITX params) (st, 0)
     else if strcaseeq (sc_proto sc) (cs "dns") && bool_decide (P_PERMIT params <> [])
     then scan_PERMITX params (cs "+,udprelay") (st, 0)
     else Some (st, 0));
  '(st, _) ← scanEnv (P_PERMIT params) (scan_PERMITX params) (st, pg);
  st ← (if bool_decide (P_REMITTABLE params = []) && bool_decide (P_PERMIT params = [])
        then scan_PERMITdflt params st else Some st);
  st ← scanEnv (P_REJECT params) (scan_REJECT env fuel services (sc_proto sc)) st;
  st ← (if bool_decide (P_RELIABLE params <> [])
        then scanEnv (P_RELIABLE params) (scan_RELIABLE env fuel) st
        else if PERMIT_withSrc st =? 0 then scan_RELIABLE env fuel DELEGATE_RELIABLE st
        else Some st);
  st ← scanEnv (P_REACHABLE params) (scan_REACHABLE env fuel) st;
  if bool_decide (P_RELAY params <> [])
  then scanEnv (P_RELAY params) (scan_RELAY env fuel) st
  else scan_RELAY env fuel DELEGATE_RELAY st.
End config.

Definition http_server : server_conf := ServerConf true (cs "http") [] 0 false false.
Definition no_params : ac_params := AcParams [] [] [] [] [] [] [].
Definition show_tables (st : rt_st HTable) :=
  map (fun rt => (rt_name rt, map (show_route st) (rt_routes rt)))
    (filter (fun rt => rt_routes rt <> []) (r_tabs st)).
(** A proxy without parameters serves its own net. *)
Example scan_access_1 :
  (fun st => filter (fun t => t.1 <> cs "NOTIFYPLTFM") (show_tables st)) <$>
    scan_access hp_env0 4 services0 http_server (cs "*.delegate.org") no_params rt_init =
  Some [(cs "REMITTABLE", [(cs "http,https/{80,443},gopher,ftp,wais", [cs "*"], [cs "*"])]);
        (cs "RELIABLE", [([], [], [cs ".localnet"])]);
        (cs "CMAP", [(cs "*", [cs "*"], [cs ".localnet"]);
                     (cs "http", [cs "*"], [cs ".localnet"]);
                     (cs "*", [cs "*"], [cs "*"])])].
Proof. vm_compute. reflexivity. Qed.
