(* ===== verification/RouteSpec.v ===== *)
(** * The tables of routes: what reading a parameter keeps

    Every route has two host lists of its own, and the tables have room for
    their routes: an invariant of every parameter that is read.  A parameter
    that adds a route leaves the other routes, their lists and the named
    lists as they are. *)
From S2P Require Import Prelude Strings Glob ScanList ListOps HashTab Service Url ProtoV StrId.
From S2P Require Import HostAddr HostMatch HostParse HostText HostFrame Route Config.
From stdpp Require Import gmap.
From stdpp Require Import options.
Local Open Scope Z_scope.

(** The first program of a sequence, when it gives something. *)
Ltac bind_case x E :=
  lazymatch goal with
  | |- (mbind _ ?q = Some _) -> _ => destruct q as [x|] eqn:E; [|done]; cbn [mbind option_bind]
  end.

Ltac if_case := lazymatch goal with |- (if ?b then _ else _) = _ -> _ => destruct b end.

Lemma hd_lookup {A} (d : A) l : l <> [] -> l !! 0%nat = Some (hd d l).
Proof. by destruct l. Qed.

Section spec.
Context {T : Type} `{IdTable T} (env : hp_env) (fuel : nat).
Variable services : list Service.

(** The list of route [i] of a table. *)
Definition ref_at (st : rt_st T) (p : nat * nat * bool) : option nat :=
  route_list p.2 <$> rt_routes (RT_ROUTE p.1.1 st) !! p.1.2.

Record rt_ok (st : rt_st T) : Prop := {
  ok_hp : tab_ok (r_hp st);
  ok_tabs : map rt_name (r_tabs st) = routeTab_names;
  ok_size : Forall (fun rt => rt_filled rt <= rt_size rt) (r_tabs st);
  ok_refs p r : ref_at st p = Some r -> (3 <= r < length (p_store (r_hp st)))%nat;
  ok_own p q r : ref_at st p = Some r -> ref_at st q = Some r -> p = q
}.

Lemma ok_length st : rt_ok st -> length (r_tabs st) = 14%nat.
Proof using. intros Hok. by rewrite <- (length_map rt_name), (ok_tabs _ Hok). Qed.
Lemma RT_alter (f : RouteTab -> RouteTab) rtx rtx' (st : rt_st T) : (rtx < length (r_tabs st))%nat ->
  RT_ROUTE rtx' (alter_tab f rtx st) =
  if Nat.eqb rtx' rtx then f (RT_ROUTE rtx st) else RT_ROUTE rtx' st.
Proof using.
  intros Hr. unfold RT_ROUTE, alter_tab. cbn [r_tabs]. rewrite !nth_lookup.
  destruct (Nat.eqb_spec rtx' rtx) as [->|Hne].
  - rewrite list_lookup_alter_eq. destruct (lookup_lt_is_Some_2 (r_tabs st) rtx Hr) as [rt Ert].
    by rewrite Ert.
  - by rewrite list_lookup_alter_ne by done.
Qed.
Lemma RT_in (st : rt_st T) rtx : (rtx < length (r_tabs st))%nat -> RT_ROUTE rtx st ∈ r_tabs st.
Proof using. intros Hr. apply list_elem_of_In. by apply nth_In. Qed.

(** The host lists are changed, and what a table says of itself. *)
Lemma rt_ok_set_hp (st : rt_st T) hp : rt_ok st -> tab_ok hp ->
  (length (p_store (r_hp st)) <= length (p_store hp))%nat -> rt_ok (set_hp st hp).
Proof using.
  intros [O1 O2 O3 O4 O5] Hhp Hlen. constructor; try done.
  cbn [set_hp r_hp]. intros p r Hp. pose proof (O4 p r Hp). lia.
Qed.
Lemma rt_ok_alter (st : rt_st T) f rtx : rt_ok st ->
  (forall rt, rt_name (f rt) = rt_name rt) ->
  (forall rt, rt_filled rt <= rt_size rt -> rt_filled (f rt) <= rt_size (f rt)) ->
  (forall rt, map (fun Rp => (m_dsts Rp, m_srcs Rp)) (rt_routes (f rt)) =
              map (fun Rp => (m_dsts Rp, m_srcs Rp)) (rt_routes rt)) ->
  rt_ok (alter_tab f rtx st).
Proof using.
  intros Hok Hn Hs Hr.
  assert (Hrefs : forall p, ref_at (alter_tab f rtx st) p = ref_at st p).
  { intros [[t i] b]. unfold ref_at. cbn [fst snd].
    destruct (decide (rtx < length (r_tabs st))%nat) as [Hlt|Hge].
    - rewrite RT_alter by done. destruct (Nat.eqb_spec t rtx) as [->|]; [|done].
      pose proof (f_equal (fun l => l !! i) (Hr (RT_ROUTE rtx st))) as E. cbv beta in E.
      rewrite !list_lookup_fmap in E.
      destruct (rt_routes (f (RT_ROUTE rtx st)) !! i) as [Rp|], (rt_routes (RT_ROUTE rtx st) !! i) as [Rp'|];
        cbn in E |- *; try done. injection E as E1 E2. destruct b; cbn; congruence.
    - assert (E : alter f rtx (r_tabs st) = r_tabs st).
      { apply list_eq. intros j. destruct (decide (j = rtx)) as [->|Hne].
        - rewrite list_lookup_alter_eq, lookup_ge_None_2 by lia. done.
        - by rewrite list_lookup_alter_ne. }
      unfold RT_ROUTE, alter_tab. cbn [r_tabs]. by rewrite E. }
  destruct Hok as [O1 O2 O3 O4 O5]. constructor.
  - exact O1.
  - rewrite <- O2. cbn [alter_tab r_tabs]. apply list_eq. intros j. rewrite !list_lookup_fmap.
    destruct (decide (j = rtx)) as [->|Hne]; [|by rewrite list_lookup_alter_ne by done].
    rewrite list_lookup_alter_eq. destruct (r_tabs st !! rtx); cbn; [by rewrite Hn|done].
  - cbn [alter_tab r_tabs]. apply Forall_alter; [done|]. intros rt _. apply Hs.
  - intros p r. rewrite Hrefs. apply O4.
  - intros p q r. rewrite !Hrefs. apply O5.
Qed.

(** *** One more route *)

Definition new_route (what proto : list Z) (auth : option site_auth) (host : list Z) (port : Z)
  (path conn : list Z) (protov : option (list (list Z))) (d s : nat) : Route :=
  MkRoute proto host port path conn (makeProtoV <$> protov) false d s None (has_auth auth) false
    false (route_flags what path) None None.

(** The lists of a new route, each with the elements of its text. *)
Record lists_read (what dstlist srclist : list Z) (hp hp' : hp_st T) (d s : nat) : Prop := {
  lr_d : d = length (p_store hp);
  lr_dst : exists hp1,
    scan_hosts env fuel dstlist d (new_list hp (MkHostList (what ++ cs "/DST") [] 0 true)).1 = Some hp1 /\
    s = length (p_store hp1) /\
    scan_hosts env fuel srclist s (new_list hp1 (MkHostList (what ++ cs "/SRC") [] 0 false)).1 = Some hp'
}.
Lemma lists_read_frames what dl sl hp hp' d s : lists_read what dl sl hp hp' d s -> tab_ok hp ->
  tab_ok hp' /\ (length (p_store hp) <= d < s)%nat /\ (s < length (p_store hp'))%nat /\
  (forall x, (3 <= x < length (p_store hp))%nat -> get_list hp' x = get_list hp x) /\
  p_tab hp ⊆ p_tab hp'.
Proof using.
  intros [-> (hp1 & E1 & -> & E2)] Hok. apply read_list_frames in E1, E2.
  destruct (frames_new 0 hp (MkHostList (what ++ cs "/DST") [] 0 true) Hok) as (Ok1 & L1 & G1 & T1 & _).
  destruct (E1 Ok1) as (Ok2 & L2 & G2 & T2 & _).
  destruct (frames_new 0 hp1 (MkHostList (what ++ cs "/SRC") [] 0 false) Ok2) as (Ok3 & L3 & G3 & T3 & _).
  destruct (E2 Ok3) as (Ok4 & L4 & G4 & T4 & _).
  assert (N1 : length (p_store (new_list hp (MkHostList (what ++ cs "/DST") [] 0 true)).1) =
               S (length (p_store hp))) by (cbn; rewrite length_app; simpl; lia).
  assert (N3 : length (p_store (new_list hp1 (MkHostList (what ++ cs "/SRC") [] 0 false)).1) =
               S (length (p_store hp1))) by (cbn; rewrite length_app; simpl; lia).
  split_and!; [done|lia|lia|lia| |].
  - intros x Hx. rewrite G4, G3, G2, G1 by lia. done.
  - by repeat (etransitivity; [eassumption|]).
Qed.

Lemma addRoute1_unfold rtx proto auth host port path conn protov dl sl (st st' : rt_st T) :
  addRoute1X env fuel rtx proto auth host port path conn protov dl sl st = Some st' ->
  exists d s, lists_read (rt_name (RT_ROUTE rtx st)) dl sl (r_hp st) (r_hp st') d s /\
    st' = RtSt (r_hp st') (alter (newRoute (new_route (rt_name (RT_ROUTE rtx st)) proto auth
              host port path conn protov d s)) rtx (r_tabs st))
            (DO_METHOD_FILTER st + method_filters (default [] (makeProtoV <$> protov))).
Proof using.
  unfold addRoute1X. cbv zeta.
  set (hl1 := MkHostList (_ ++ cs "/DST") [] 0 true). change (new_list (r_hp st) hl1) with
    ((new_list (r_hp st) hl1).1, length (p_store (r_hp st))). cbv beta iota.
  bind_case hp1 E1.
  set (hl2 := MkHostList (_ ++ cs "/SRC") [] 0 false). change (new_list hp1 hl2) with
    ((new_list hp1 hl2).1, length (p_store hp1)). cbv beta iota.
  bind_case hp2 E2.
  intros [= <-]. cbn [r_hp]. exists (length (p_store (r_hp st))), (length (p_store hp1)).
  split; [|done]. constructor; [done|]. by exists hp1.
Qed.

Lemma addRoute1_ok rtx proto auth host port path conn protov dl sl (st st' : rt_st T) : rt_ok st ->
  (rtx < 14)%nat -> addRoute1X env fuel rtx proto auth host port path conn protov dl sl st = Some st' ->
  rt_ok st' /\ exists d s,
    lists_read (rt_name (RT_ROUTE rtx st)) dl sl (r_hp st) (r_hp st') d s /\
    forall rtx', RT_ROUTE rtx' st' =
      if Nat.eqb rtx' rtx
      then newRoute (new_route (rt_name (RT_ROUTE rtx st)) proto auth host port path conn protov d s)
             (RT_ROUTE rtx st)
      else RT_ROUTE rtx' st.
Proof using.
  intros Hok Hrtx E. apply addRoute1_unfold in E as (d & s & Hread & Est').
  pose proof (ok_length st Hok) as Hlen. pose proof Hok as [O1 O2 O3 O4 O5].
  destruct (lists_read_frames _ _ _ _ _ _ _ Hread O1) as (Hok' & Hd & Hs & _ & _).
  set (Rp := new_route (rt_name (RT_ROUTE rtx st)) proto auth host port path conn protov d s) in *.
  assert (Htab : forall rtx', RT_ROUTE rtx' st' =
    if Nat.eqb rtx' rtx then newRoute Rp (RT_ROUTE rtx st) else RT_ROUTE rtx' st).
  { intros rtx'. rewrite <- (RT_alter (newRoute Rp)) by lia. rewrite Est'. done. }
  split; [|by exists d, s].
  assert (Hrefs : forall p, ref_at st' p = ref_at st p \/
    p.1 = (rtx, length (rt_routes (RT_ROUTE rtx st))) /\
    ref_at st' p = Some (if p.2 then s else d)).
  { intros [[t i] b]. unfold ref_at. cbn [fst snd]. rewrite Htab.
    destruct (Nat.eqb_spec t rtx) as [->|]; [|by left]. cbn [newRoute rt_routes].
    set (l := rt_routes (RT_ROUTE rtx st)).
    destruct (decide (i < length l)%nat) as [Hi|Hi]; [left; by rewrite lookup_app_l|].
    rewrite lookup_app_r by lia. destruct (decide (i = length l)) as [->|Hne].
    - right. split; [done|]. rewrite Nat.sub_diag. by destruct b.
    - left. rewrite !lookup_ge_None_2; [done|lia|cbn [length]; lia]. }
  constructor.
  - by rewrite Est'.
  - rewrite Est'. cbn [r_tabs]. rewrite <- O2. apply list_eq. intros j. rewrite !list_lookup_fmap.
    destruct (decide (j = rtx)) as [->|Hne]; [|by rewrite list_lookup_alter_ne by done].
    rewrite list_lookup_alter_eq. by destruct (r_tabs st !! rtx).
  - rewrite Est'. cbn [r_tabs]. apply Forall_alter; [done|]. intros rt _ Hrt.
    unfold newRoute, rt_filled in *. cbn [rt_routes rt_size].
    rewrite zlen_app, zlen_cons, zlen_nil. unfold RT_INCSIZE.
    destruct (Z.leb_spec (rt_size rt) (zlen (rt_routes rt))); lia.
  - intros p r Hp. destruct (Hrefs p) as [E|[_ E]]; rewrite E in Hp.
    + pose proof (O4 p r Hp). rewrite Est'. cbn [r_hp]. lia.
    + injection Hp as <-. destruct O1 as (O1 & _). rewrite Est'. cbn [r_hp]. destruct p.2; lia.
  - intros p q r Hp Hq. destruct (Hrefs p) as [Ep|[Ep Ep']], (Hrefs q) as [Eq|[Eq Eq']].
    + rewrite Ep in Hp. rewrite Eq in Hq. by eapply O5.
    + rewrite Ep in Hp. rewrite Eq' in Hq. apply O4 in Hp. injection Hq as <-. destruct q.2; lia.
    + rewrite Ep' in Hp. rewrite Eq in Hq. apply O4 in Hq. injection Hp as <-. destruct p.2; lia.
    + rewrite Ep' in Hp. rewrite Eq' in Hq.
      destruct p as [p b], q as [q b']. cbn [fst snd] in *. rewrite Ep, Eq. f_equal.
      destruct b, b'; try done; injection Hp as <-; injection Hq as Hq; lia.
Qed.

(** ** The parameters *)

Lemma rt_ok_frames (st : rt_st T) r hp : rt_ok st -> frames r (r_hp st) hp -> rt_ok (set_hp st hp).
Proof using.
  intros Hok Hf. destruct (Hf (ok_hp _ Hok)) as (Hhp & Hlen & _). by apply rt_ok_set_hp.
Qed.

Lemma hlist_ok rtx b (st st' : rt_st T) r : rt_ok st -> (rtx < 14)%nat ->
  hlist env fuel rtx b st = Some (st', r) -> rt_ok st' /\ ref_at st' (rtx, 0%nat, b) = Some r.
Proof using.
  intros Hok Hrtx. unfold hlist.
  bind_case st1 E.
  intros [= <- <-].
  assert (Hst1 : rt_ok st1 /\ rt_routes (RT_ROUTE rtx st1) <> []).
  { case_bool_decide as Er; [|by injection E as <-].
    destruct (addRoute1_ok _ _ _ _ _ _ _ _ _ _ _ _ Hok Hrtx E) as (Hok1 & d & s & _ & Htab).
    split; [done|]. rewrite Htab, Nat.eqb_refl. cbn [newRoute rt_routes]. by destruct (rt_routes _). }
  destruct Hst1 as [Hok1 Hne]. split; [done|]. unfold ref_at. cbn [fst snd].
  by rewrite (hd_lookup no_route _ Hne).
Qed.

Lemma putHostListTab_ok n r (hp hp' : hp_st T) : putHostListTab n r hp = Some hp' -> tab_ok hp ->
  (3 <= r < length (p_store hp))%nat -> tab_ok hp' /\ p_store hp' = p_store hp.
Proof using.
  unfold putHostListTab, put_listtab. destruct (_ <? 0); [|by intros [= <-]].
  cbn [next_id p_id p_size p_tab p_store].
  destruct (Z.ltb_spec (p_id hp + 1) (p_size hp)); [|done]. intros [= <-] (O1 & O2 & O3 & O4) Hr.
  split; [|done]. unfold tab_ok. cbn [p_tab p_store p_size p_id]. split_and!; [done| |lia|lia].
  intros id x [[<- <-]|[_ Hx]]%lookup_insert_Some; [done|by eapply O2].
Qed.

Lemma scan_RELIABLE_ok rels (st st' : rt_st T) : rt_ok st ->
  scan_RELIABLE env fuel rels st = Some st' -> rt_ok st'.
Proof using.
  intros Hok. unfold scan_RELIABLE, ReliableHosts.
  destruct (hlist env fuel R_RELIABLE RX_SRC st) as [[st1 r]|] eqn:E1; [|done].
  cbn [mbind option_bind]. destruct (hlist_ok R_RELIABLE RX_SRC _ _ _ Hok ltac:(unfold R_RELIABLE; lia) E1)
    as [Hok1 Hr].
  bind_case hp E2.
  apply read_comma_frames in E2. destruct (E2 (ok_hp _ Hok1)) as (Hhp & Hlen & _).
  destruct (putHostListTab _ _ _) as [hp'|] eqn:E3; [|done]. cbn [mbind option_bind].
  intros [= <-]. apply (ok_refs _ Hok1) in Hr.
  destruct (putHostListTab_ok _ _ _ _ E3 Hhp ltac:(lia)) as [Hhp' Es].
  apply rt_ok_set_hp; [done|done|]. by rewrite Es.
Qed.
Lemma scan_REACHABLE_ok l (st st' : rt_st T) : rt_ok st ->
  scan_REACHABLE env fuel l st = Some st' -> rt_ok st'.
Proof using.
  intros Hok. unfold scan_REACHABLE, ReachableHosts.
  destruct (hlist env fuel R_REACHABLE RX_DST st) as [[st1 r]|] eqn:E1; [|done].
  cbn [mbind option_bind]. destruct (hlist_ok R_REACHABLE RX_DST _ _ _ Hok ltac:(unfold R_REACHABLE; lia) E1)
    as [Hok1 _]. cbv zeta.
  bind_case hp E2.
  intros [= <-]. apply (rt_ok_frames st1 r); [done|].
  eapply frames_trans; [apply (frames_set r)|by eapply read_comma_frames|by left].
Qed.
Lemma NotifyPltfrmHosts_ok np (st st' : rt_st T) r : rt_ok st ->
  NotifyPltfrmHosts env fuel np st = Some (st', r) -> rt_ok st'.
Proof using.
  intros Hok. unfold NotifyPltfrmHosts.
  destruct (hlist env fuel R_NOTIFYPLTFM RX_DST st) as [[st1 r1]|] eqn:E1; [|done].
  cbn [mbind option_bind].
  destruct (hlist_ok R_NOTIFYPLTFM RX_DST _ _ _ Hok ltac:(unfold R_NOTIFYPLTFM; lia) E1) as [Hok1 _].
  destruct (_ && _); [|by intros [= <- _]].
  bind_case hp E2.
  intros [= <- _]. apply (rt_ok_frames st1 r1); [done|by eapply read_comma_frames].
Qed.

Lemma rt_ok_routes (st : rt_st T) rtx f : rt_ok st ->
  (forall l, map (fun Rp => (m_dsts Rp, m_srcs Rp)) (f l) = map (fun Rp => (m_dsts Rp, m_srcs Rp)) l) ->
  rt_ok (alter_tab (fun rt => MkTab (rt_name rt) (rt_size rt) (rt_withsrc rt) (f (rt_routes rt))) rtx st).
Proof using.
  intros Hok Hf. apply rt_ok_alter; [done|done| |].
  - intros rt Hrt. unfold rt_filled in *. cbn [rt_routes rt_size].
    pose proof (f_equal length (Hf (rt_routes rt))) as E. rewrite !length_map in E.
    unfold zlen in *. lia.
  - intros rt. apply Hf.
Qed.
Lemma map_alter_same {A B} (g : A -> B) (f : A -> A) i l : (forall x, g (f x) = g x) ->
  map g (alter f i l) = map g l.
Proof using.
  intros Hg. apply list_eq. intros j. rewrite !list_lookup_fmap.
  destruct (decide (i = j)) as [->|Hne]; [|by rewrite list_lookup_alter_ne by done].
  rewrite list_lookup_alter_eq. destruct (l !! j); cbn; [by rewrite Hg|done].
Qed.

Lemma scan_OWNER_ok o (st st' : rt_st T) : rt_ok st -> scan_OWNER env fuel o st = Some st' -> rt_ok st'.
Proof using.
  intros Hok. unfold scan_OWNER. destruct (index_of COLON o) as [[|i]|]; [by intros [= <-]| |by intros [= <-]].
  cbv zeta. case_bool_decide; [|by intros [= <-]].
  bind_case st1 E.
  destruct (addRoute1_ok R_OWNER _ _ _ _ _ _ _ _ _ _ _ Hok ltac:(unfold R_OWNER; lia) E) as [Hok1 _].
  intros [= <-].
  apply (rt_ok_routes st1 R_OWNER (fun l => alter _ (pred (length l)) l)); [done|].
  intros l. by apply map_alter_same.
Qed.
Lemma scan_CMAPX_ok m r d (st st' : rt_st T) : rt_ok st -> scan_CMAPX env fuel m r d st = Some st' -> rt_ok st'.
Proof using.
  intros Hok. unfold scan_CMAPX. destruct (scan_ListLX _ _ _ _ _ _) as [res|]; [|done].
  cbn [mbind option_bind]. cbv zeta. destruct (stoVX _ _ _) as [pv|]; [|done]. cbn [mbind option_bind].
  intros E. by eapply (addRoute1_ok R_CMAP) in E; [apply E|done|unfold R_CMAP; lia].
Qed.
Lemma scan_RELAY_ok l (st st' : rt_st T) : rt_ok st -> scan_RELAY env fuel l st = Some st' -> rt_ok st'.
Proof using.
  intros Hok. unfold scan_RELAY. set (f := fun a relay1 _ => _).
  bind_case res E.
  intros Er.
  assert (Hf : forall a e s, (forall s1, a = Some s1 -> rt_ok s1) ->
    forall s1, (f a e s).1 = Some s1 -> rt_ok s1).
  { intros a e s Ha s1. subst f. cbn [fst]. destruct a as [s2|]; [|done]. cbn [mbind option_bind].
    apply scan_CMAPX_ok. by apply Ha. }
  apply (scan_ListX_inv f (fun a => forall s, a = Some s -> rt_ok s) Hf true false l 59 (Some st) res);
    [|done|done]. by intros s [= <-].
Qed.
Lemma scan_SRCIF_ok l (st st' : rt_st T) : rt_ok st -> scan_SRCIF env fuel l st = Some st' -> rt_ok st'.
Proof using.
  intros Hok. unfold scan_SRCIF. cbv zeta. destruct (_ <=? _)%nat; [done|].
  intros E. by eapply (addRoute1_ok R_SRCIF) in E; [apply E|done|unfold R_SRCIF; lia].
Qed.

Lemma put_Remittable_ok pv (st st' : rt_st T) : rt_ok st ->
  put_Remittable env fuel pv st = Some st' -> rt_ok st'.
Proof using.
  intros Hok. unfold put_Remittable. destruct (Remittable st).
  - cbv zeta. intros [= <-].
    pose proof (rt_ok_routes st R_REMITTABLE (alter (set_protoV (makeProtoV pv)) 0%nat) Hok
      ltac:(intros; by apply map_alter_same)) as [O1 O2 O3 O4 O5]. by constructor.
  - intros E. by eapply (addRoute1_ok R_REMITTABLE) in E; [apply E|done|unfold R_REMITTABLE; lia].
Qed.
Lemma scan_PERMITV_ok fr dp l pv (st st' : rt_st T) : rt_ok st ->
  scan_PERMITV env fuel services fr dp l pv st = Some st' -> rt_ok st'.
Proof using.
  intros Hok. unfold scan_PERMITV. destruct (scan_Listlist l COLON 3) as [[pc e]|]; [|done].
  cbn [mbind option_bind]. cbv zeta. destruct (_ && _).
  - case_guard; [|done]. cbn [mbind option_bind].
    destruct (protoList _ _ _ _) as [pv'|]; [|done]. cbn [mbind option_bind]. by apply put_Remittable_ok.
  - destruct (protoList _ _ _ _) as [pv'|]; [|done]. cbn [mbind option_bind].
    bind_case st1 E.
    intros [= <-].
    eapply addRoute1_ok in E as [Hok1 _]; [|done|destruct fr; unfold R_REJECT, R_PERMIT; lia].
    by apply rt_ok_alter.
Qed.

(** ** The configuration of a server *)

Lemma scanEnv_keeps {S} (P : S -> Prop) (func : list Z -> S -> option S) values s s' :
  (forall v s s', P s -> func v s = Some s' -> P s') -> P s ->
  scanEnv values func s = Some s' -> P s'.
Proof using.
  intros Hf. unfold scanEnv. revert s. induction values as [|v values IH]; intros s Hs.
  - by intros [= <-].
  - cbn [fold_left mbind option_bind]. destruct (func v s) as [s1|] eqn:E.
    + apply IH. by eapply Hf.
    + assert (Hn : fold_left (fun o v => o ≫= func v) values None = None)
        by (clear; by induction values). by rewrite Hn.
Qed.

Section server.
Variables (sc : server_conf) (NOTIFY_PLATFORM : list Z) (params : ac_params).
Lemma permit1_ok p (st st' : rt_st T) : rt_ok st -> permit1 env fuel services sc p st = Some st' -> rt_ok st'.
Proof using. apply scan_PERMITV_ok. Qed.
Lemma scan_PERMITdflt_ok (st st' : rt_st T) : rt_ok st ->
  scan_PERMITdflt env fuel services sc params st = Some st' -> rt_ok st'.
Proof using.
  intros Hok. unfold scan_PERMITdflt. destruct (lHTTPACCEPT sc); [|by apply permit1_ok].
  bind_case st1 E1.
  apply permit1_ok in E1; [|done]. destruct (_ && _); [|by intros [= <-]].
  bind_case st2 E2.
  apply permit1_ok in E2; [|done].
  bind_case st3 E3.
  apply permit1_ok in E3; [|done]. destruct (streq _ _); [by intros [= <-]|by apply permit1_ok].
Qed.
Lemma scan_PERMITX_ok p (s s' : rt_st T * Z) : rt_ok s.1 ->
  scan_PERMITX env fuel services sc params p s = Some s' -> rt_ok s'.1.
Proof using.
  destruct s as [st pg]. cbn [fst]. intros Hok. unfold scan_PERMITX.
  destruct (num_ListElems p COLON) as [n|]; [|done]. cbn [mbind option_bind]. destruct (n =? 1).
  - cbv zeta. bind_case st1 E1.
    intros [= <-]. by eapply permit1_ok.
  - bind_case st1 E1.
    assert (Hok1 : rt_ok st1)
      by (destruct (pg =? 0); [by eapply scan_PERMITdflt_ok|by injection E1 as <-]).
    bind_case st2 E2.
    intros [= <-]. by eapply permit1_ok.
Qed.

Lemma scan_access_ok (st st' : rt_st T) : rt_ok st ->
  scan_access env fuel services sc NOTIFY_PLATFORM params st = Some st' -> rt_ok st'.
Proof using.
  intros Hok. unfold scan_access.
  destruct (NotifyPltfrmHosts _ _ _ _) as [[st1 r]|] eqn:E1; [|done]. cbn [mbind option_bind].
  apply NotifyPltfrmHosts_ok in E1; [|done].
  bind_case st2 E2.
  apply (scanEnv_keeps rt_ok) in E2; [|intros v s s'; apply scan_OWNER_ok|done].
  destruct (if bool_decide (P_REMITTABLE params <> []) then _ else _) as [[st3 pg]|] eqn:E3; [|done].
  cbn [mbind option_bind].
  assert (Hok3 : rt_ok (st3, pg).1).
  { revert E3. if_case.
    - intros E3. apply (scanEnv_keeps (fun s => rt_ok s.1)) in E3;
        [done|intros v s s'; apply scan_PERMITX_ok|done].
    - if_case; [intros E3; by apply scan_PERMITX_ok in E3|by intros [= <- <-]]. }
  destruct (scanEnv _ _ (st3, pg)) as [[st4 pg4]|] eqn:E4; [|done]. cbn [mbind option_bind].
  apply (scanEnv_keeps (fun s => rt_ok s.1)) in E4; [|intros v s s'; apply scan_PERMITX_ok|done].
  cbn [fst] in E4.
  bind_case st5 E5.
  assert (Hok5 : rt_ok st5)
    by (revert E5; if_case; [by apply scan_PERMITdflt_ok|by intros [= <-]]).
  bind_case st6 E6.
  apply (scanEnv_keeps rt_ok) in E6; [|intros v s s'; unfold scan_REJECT, permit; apply scan_PERMITV_ok|done].
  bind_case st7 E7.
  assert (Hok7 : rt_ok st7).
  { revert E7. if_case.
    - intros E7. apply (scanEnv_keeps rt_ok) in E7; [done|intros v s s'; apply scan_RELIABLE_ok|done].
    - if_case; [by apply scan_RELIABLE_ok|by intros [= <-]]. }
  bind_case st8 E8.
  apply (scanEnv_keeps rt_ok) in E8; [|intros v s s'; apply scan_REACHABLE_ok|done].
  if_case; [|by apply scan_RELAY_ok].
  apply (scanEnv_keeps rt_ok); [intros v s s'; apply scan_RELAY_ok|done].
Qed.
End server.

Lemma rt_init_ok : rt_ok (rt_init : rt_st T).
Proof using.
  assert (Hno : forall p, ref_at (rt_init : rt_st T) p = None).
  { intros [[t i] b]. unfold ref_at. cbn [fst snd].
    assert (E : rt_routes (RT_ROUTE t (rt_init : rt_st T)) = []); [|by rewrite E].
    unfold RT_ROUTE, rt_init, routeTabs. cbn [r_tabs]. rewrite nth_lookup, list_lookup_fmap.
    by destruct (routeTab_names !! t). }
  constructor.
  - unfold tab_ok. cbn. split_and!; [lia| |done|lia]. intros id x. by rewrite lookup_empty.
  - done.
  - unfold rt_init, routeTabs. cbn [r_tabs]. apply Forall_map. apply Forall_true. intros n. unfold rt_filled, zlen. simpl. lia.
  - intros p r. by rewrite Hno.
  - intros p q r. by rewrite Hno.
Qed.

(** Whatever the access control parameters of a server are: when they
    have been read, the tables are the ones of the program and have room for
    their routes; the two host lists of every route are there, are not the
    lists of another route, and the named lists are there, apart from the
    three lists every process has. *)
Theorem scan_access_invariant (sc : server_conf) (NOTIFY_PLATFORM : list Z) (params : ac_params)
  (st' : rt_st T) :
  scan_access env fuel services sc NOTIFY_PLATFORM params rt_init = Some st' ->
  map rt_name (r_tabs st') = routeTab_names /\
  Forall (fun rt => rt_filled rt <= rt_size rt) (r_tabs st') /\
  (forall p r, ref_at st' p = Some r ->
     (3 <= r < length (p_store (r_hp st')))%nat /\ forall q, ref_at st' q = Some r -> q = p) /\
  (forall id x, p_tab (r_hp st') !! id = Some x -> (3 <= x < length (p_store (r_hp st')))%nat).
Proof using.
  intros E. destruct (scan_access_ok _ _ _ _ _ rt_init_ok E) as [O1 O2 O3 O4 O5].
  split_and!; [done|done| |apply O1]. intros p r Hp. split; [by eapply O4|].
  intros q Hq. by eapply O5.
Qed.
End spec.

(** The routes of a proxy without parameters. *)
Lemma scan_access_invariant_witness : exists st',
  scan_access hp_env0 4 services0 http_server (cs "*.delegate.org") no_params rt_init = Some st' /\
  map rt_name (r_tabs st') = routeTab_names /\
  (forall p r, ref_at st' p = Some r -> (3 <= r < length (p_store (r_hp st')))%nat).
Proof.
  destruct (scan_access hp_env0 4 services0 http_server (cs "*.delegate.org") no_params rt_init)
    as [st'|] eqn:E; [|by vm_compute in E].
  destruct (scan_access_invariant hp_env0 4 services0 http_server (cs "*.delegate.org") no_params st' E)
    as (H1 & _ & H3 & _).
  exists st'. split; [done|]. split; [exact H1|]. intros p r Hp. by apply H3 in Hp as [? _].
Defined.

(** The name [.RELIABLE] stays the list of all hosts when [RELIABLE] is
    given. *)
Lemma reliable_name_is_any :
  (fun st : rt_st HTable => map h_name (items_of (r_hp st)
     (default 0%nat (p_tab (r_hp st) !! list_id (r_hp st) (cs ".RELIABLE")))))
    <$> scan_RELIABLE hp_env0 4 (cs "*.dom") rt_init = Some [cs "*"].
Proof. vm_compute. reflexivity. Qed.
