(* ===== verification/Access.v ===== *)
(** * Access control ([src/access.cpp], [src/service.cpp], [src/master.cpp])

    Is a request permitted?  [service_permitted2] asks [PERMITTED_ACCESS],
    which asks the lists [RELIABLE] and [REACHABLE] and the tables [REJECT],
    [REMITTABLE] and [PERMIT] through [DELEGATE_permitMX]; [find_CMAPXi] and
    [findRoute] look into the other tables.

    The configuration does not change here; where the code makes an empty
    table when a list of it is asked for, the list is empty.  A program
    changes the connection, the information about the client that the host
    lists are matched with, and [RidentPeer].  [None] is a read through a
    null pointer, or a list scan that fails.  Log lines are left out; the
    effects of a rejection are recorded in order. *)
From S2P Require Import Prelude Strings Glob ScanList ListOps Service ProtoV StrId.
From S2P Require Import HostAddr HostMatch HostParse Route.
From stdpp Require Import options.

Definition VA_SOCKPAIR : Z := 2.
Definition COF_SCREENED : Z := 512.
Definition CO_REJECTED : Z := 1.
Definition ACC_OK : Z := 1.
Definition ACC_FORBIDDEN : Z := 2.
Definition hostmatch_ignauth : list Z := [STAR].

(** A server: protocol, host, port and user. *)
Record PortVect := MkPort { p_proto : list Z; p_host : list Z; p_port : Z; p_user : list Z }.

Record Connection := MkConn {
  from_myself : bool;
  ClientSock : Z;
  Client_VAddr : vaddr;             (** with [Client_Host] and [Client_Port] *)
  TeleportHost : list Z;
  TeleportPort : Z;
  ClientAuth : AuthInfo;
  i_meth : list Z;                  (** of [ClientAuth] *)
  ClientCert : AuthInfo;
  CMAPmethod : list Z;
  ImProxy : bool;
  ConnectFlags : Z;
  sv_dflt : PortVect;
  sv : PortVect;
  ConnError : Z;
  no_dstcheck : bool;
  no_dstcheck_proto : Z;
  no_dstcheck_port : bool;
  no_authcheck : bool;
  forreject : bool;
  reject_reason : list Z
}.
Definition Client_Host (c : Connection) : list Z := a_name (Client_VAddr c).
Definition Client_Port (c : Connection) : Z := a_port (Client_VAddr c).
Definition DFLT_PROTO (c : Connection) : list Z := p_proto (sv_dflt c).
Definition REAL_PROTO (c : Connection) : list Z := p_proto (sv c).
Definition DST (c : Connection) : PortVect :=
  if bool_decide (p_host (sv c) <> []) then sv c else sv_dflt c.
Definition DST_PROTO (c : Connection) : list Z := p_proto (DST c).
Definition DST_HOST (c : Connection) : list Z := p_host (DST c).
Definition DST_PORT (c : Connection) : Z := p_port (DST c).
Definition DST_USER (c : Connection) : option (list Z) :=
  if bool_decide (p_user (sv c) <> []) then Some (p_user (sv c)) else None.

(** *** Assignments *)
Definition set_addr (a : vaddr) (c : Connection) : Connection :=
  MkConn (from_myself c) (ClientSock c) a (TeleportHost c) (TeleportPort c) (ClientAuth c)
    (i_meth c) (ClientCert c) (CMAPmethod c) (ImProxy c) (ConnectFlags c) (sv_dflt c) (sv c)
    (ConnError c) (no_dstcheck c) (no_dstcheck_proto c) (no_dstcheck_port c) (no_authcheck c)
    (forreject c) (reject_reason c).
Definition set_meth (m : list Z) (c : Connection) : Connection :=
  MkConn (from_myself c) (ClientSock c) (Client_VAddr c) (TeleportHost c) (TeleportPort c)
    (ClientAuth c) m (ClientCert c) (CMAPmethod c) (ImProxy c) (ConnectFlags c) (sv_dflt c)
    (sv c) (ConnError c) (no_dstcheck c) (no_dstcheck_proto c) (no_dstcheck_port c)
    (no_authcheck c) (forreject c) (reject_reason c).
Definition set_error (e : Z) (c : Connection) : Connection :=
  MkConn (from_myself c) (ClientSock c) (Client_VAddr c) (TeleportHost c) (TeleportPort c)
    (ClientAuth c) (i_meth c) (ClientCert c) (CMAPmethod c) (ImProxy c) (ConnectFlags c)
    (sv_dflt c) (sv c) e (no_dstcheck c) (no_dstcheck_proto c) (no_dstcheck_port c)
    (no_authcheck c) (forreject c) (reject_reason c).
Definition set_checks (nd : bool) (ndp : Z) (na fr : bool) (c : Connection) : Connection :=
  MkConn (from_myself c) (ClientSock c) (Client_VAddr c) (TeleportHost c) (TeleportPort c)
    (ClientAuth c) (i_meth c) (ClientCert c) (CMAPmethod c) (ImProxy c) (ConnectFlags c)
    (sv_dflt c) (sv c) (ConnError c) nd ndp (no_dstcheck_port c) na fr (reject_reason c).
Definition set_dstcheck (nd : bool) (c : Connection) : Connection :=
  set_checks nd (no_dstcheck_proto c) (no_authcheck c) (forreject c) c.
Definition set_dstcheck_proto (ndp : Z) (c : Connection) : Connection :=
  set_checks (no_dstcheck c) ndp (no_authcheck c) (forreject c) c.
Definition set_authcheck (na : bool) (c : Connection) : Connection :=
  set_checks (no_dstcheck c) (no_dstcheck_proto c) na (forreject c) c.
Definition set_forreject (fr : bool) (c : Connection) : Connection :=
  set_checks (no_dstcheck c) (no_dstcheck_proto c) (no_authcheck c) fr c.
Definition set_reason (s : list Z) (c : Connection) : Connection :=
  MkConn (from_myself c) (ClientSock c) (Client_VAddr c) (TeleportHost c) (TeleportPort c)
    (ClientAuth c) (i_meth c) (ClientCert c) (CMAPmethod c) (ImProxy c) (ConnectFlags c)
    (sv_dflt c) (sv c) (ConnError c) (no_dstcheck c) (no_dstcheck_proto c) (no_dstcheck_port c)
    (no_authcheck c) (forreject c) s.

(** *** Programs *)
Inductive ac_event :=
  | addAccHist (ac : Z)
  | addtoHostSet (hostset host addr : list Z)
  | logReject (shost : list Z) (sport : Z)
  | delayReject (method sproto shost : list Z) (sport : Z) (reason : list Z)
  | set_Owner (owner : list Z).

Record ac_st := AcSt {
  s_conn : Connection; s_ci : ClientInfo; s_peer : vaddr; s_events : list ac_event
}.
Definition acc (A : Type) : Type := ac_st -> option (A * ac_st).
#[global] Instance acc_ret : MRet acc := fun _ a st => Some (a, st).
#[global] Instance acc_bind : MBind acc :=
  fun _ _ f p st => match p st with Some (a, st) => f a st | None => None end.
Definition conn : acc Connection := fun st => Some (s_conn st, st).
Definition upd (f : Connection -> Connection) : acc unit :=
  fun st => Some (tt, AcSt (f (s_conn st)) (s_ci st) (s_peer st) (s_events st)).
Definition set_ci (f : ClientInfo -> ClientInfo) : acc unit :=
  fun st => Some (tt, AcSt (s_conn st) (f (s_ci st)) (s_peer st) (s_events st)).
Definition emit (e : ac_event) : acc unit :=
  fun st => Some (tt, AcSt (s_conn st) (s_ci st) (s_peer st) (s_events st ++ [e])).
Definition lift {A} (o : option A) : acc A := fun st => (fun a => (a, st)) <$> o.

(** What other components answer, and options of the process. *)
Record ac_env := AcEnv {
  VA_getpeerNAME : Z -> vaddr -> vaddr;
  VA_HostPortIFclnt : Z -> vaddr;
  getClientIdentH0 : list Z -> Z -> option (list Z);
  VA_inetNtoah : vaddr -> list Z;
  Time : Z * Z;
  lSOCKPAIRNM : bool;
  lDOSRCREJECT : bool;
  ANYPORT : bool;                   (** in the environment *)
  P_RES_VRFY : bool;
  iSERVER_PROTO : list Z;
  iSERVER_PORT : Z
}.

Section access.
Context {T : Type} `{IdTable T} (env : ac_env) (henv : hl_env) (penv : hp_env).
Variable services : list Service.
Variable cf : rt_st T.

(** *** The client *)
Definition VA_getClientAddr : acc bool :=
  c ← conn;
  let pair c := (Client_Port c =? 0) && has (a_flags (Client_VAddr c)) VA_SOCKPAIR in
  _ ← (if negb (pair c) && (0 <=? ClientSock c) && (Client_Port c =? 0)
       then upd (set_addr (VA_getpeerNAME env (ClientSock c) (Client_VAddr c))) else mret tt);
  c ← conn;
  _ ← (if pair c && lSOCKPAIRNM env
       then let a := a_ints (Client_VAddr c) in
            upd (set_addr (VAddr (Addr (I0 a) (I1 a) (I2 a) F4) 65535
                             (cs "--Socket-Pair.-") (a_flags (Client_VAddr c))))
       else mret tt);
  c ← conn;
  mret (0 <? Client_Port c).
Definition getClientHostPort : acc (list Z * Z) :=
  _ ← VA_getClientAddr;
  c ← conn;
  mret (if Client_Port c <=? 0 then (cs "--Cant-GetPeerName", 0)
        else (Client_Host c, Client_Port c)).
Definition getClientUserC : acc (option (list Z)) :=
  ok ← VA_getClientAddr;
  c ← conn;
  mret (if (ok : bool) then getClientIdentH0 env (Client_Host c) (Client_Port c) else None).
Definition getClientAuthList : acc (list AuthInfo) :=
  c ← conn;
  mret ((if bool_decide (i_user (ClientAuth c) <> []) then [ClientAuth c] else [])
        ++ (if bool_decide (i_user (ClientCert c) <> []) then [ClientCert c] else [])).
(** The user to match with, and the authentications. *)
Definition client_user : acc (option (list Z)) :=
  suser ← getClientUserC;
  c ← conn;
  mret (if bool_decide (suser = None) && no_authcheck c then Some hostmatch_ignauth else suser).

Definition CTX_pushClientInfo : acc unit :=
  c ← conn;
  set_ci (fun ci => MkClient (Time env).1 (Time env).2 (Client_VAddr c)
    (if ClientSock c <? 0 then AddrZero else VA_HostPortIFclnt env (ClientSock c))
    (clientHost ci) (e_agentname ci) (from_myself c)).
Definition HL_popClientInfo : acc unit :=
  set_ci (fun ci => MkClient (currentTime ci) (currentUsec ci) AddrNull AddrNull
    (clientHost ci) (e_agentname ci) false).

(** *** Host lists *)
Definition hostIsin (hl : HostList) (proto : option (list Z)) (host : list Z) (port : Z)
  (user : option (list Z)) (av : list AuthInfo) : acc bool :=
  fun st =>
    match CTX_hostIsinListX henv penv (s_ci st) hl proto host port user av (r_hp cf) (s_peer st) with
    | Ret hi peer => Some (negb (hi =? 0), AcSt (s_conn st) (s_ci st) peer (s_events st))
    | _ => None
    end.
Definition dsts (Rp : Route) : HostList := get_list (r_hp cf) (m_dsts Rp).
Definition srcs (Rp : Route) : HostList := get_list (r_hp cf) (m_srcs Rp).
Definition no_list : HostList := MkHostList [] [] 0 false.
Definition ReliableList : HostList :=
  match rt_routes (RT_ROUTE R_RELIABLE cf) with Rp :: _ => srcs Rp | [] => no_list end.
Definition ReachableList : HostList :=
  match rt_routes (RT_ROUTE R_REACHABLE cf) with Rp :: _ => dsts Rp | [] => no_list end.
Definition Permits : list Route := rt_routes (RT_ROUTE R_PERMIT cf).
Definition Rejects : list Route := rt_routes (RT_ROUTE R_REJECT cf).

(** *** [PERMIT] and [REJECT] ([src/master.cpp]) *)

(** One route: [None] when it does not match. *)
Definition permit_route (c : Connection) (dstproto proto : list Z) (method : option (list Z))
  (dsthost : list Z) (dport : Z) (srchost : list Z) (sport : Z) (suser : option (list Z))
  (av : list AuthInfo) (Rp : Route) : acc (option bool) :=
  let pl :=
    match m_protoV Rp with
    | Some V => if negb (no_dstcheck c) || forreject c
                then Some (protoMatch1 (no_dstcheck_port c) V dstproto dport) else None
    | None => None
    end in
  match pl with
  | Some None => mret None
  | _ =>
      if forreject c && no_dstcheck c && negb (lDOSRCREJECT env) && negb (hostListIsAny (dsts Rp))
      then mret None
      else
        isdst ← (if no_dstcheck c then mret true
                 else hostIsin (dsts Rp) (Some proto) dsthost dport (DST_USER c) []);
        if negb isdst then mret None
        else
          issrc ← hostIsin (srcs Rp) None srchost sport suser av;
          if negb issrc then mret None
          else match pl with
               | Some (Some pl) => m ← lift (methodMatch (forreject c) pl method); mret (Some m)
               | _ => mret (Some true)
               end
  end.
Fixpoint permit_loop (try : Route -> acc (option bool)) (permits : list Route) : acc bool :=
  match permits with
  | [] => mret false
  | Rp :: permits' =>
      r ← try Rp;
      match r with
      | Some b => mret b
      | None => permit_loop try permits'
      end
  end.
Definition DELEGATE_permitMX (proto : list Z) (method : option (list Z)) (dsthost : list Z)
  (dport : Z) (srchost : list Z) (sport : Z) (suser : option (list Z)) (av : list AuthInfo)
  : acc bool :=
  c ← conn;
  let permits := if forreject c then Rejects else Permits in
  let dstproto :=
    if negb (no_dstcheck_proto c =? 0) && (no_dstcheck_proto c =? serviceport services proto)
       && negb (forreject c) then [STAR] else proto in
  remit ←
    (match Remittable cf with
     | Some V =>
         if negb (forreject c) && negb (no_dstcheck c)
         then match protoMatch1 (no_dstcheck_port c) V dstproto dport with
              | None =>
                  _ ← upd (set_reason (cs "'" ++ proto ++ cs "' is not REMITTABLE"));
                  mret false
              | Some pl => lift (methodMatch (forreject c) pl method)
              end
         else mret true
     | None => mret true
     end);
  if negb remit then mret false
  else if bool_decide (permits = []) then mret true
  else permit_loop (permit_route c dstproto proto method dsthost dport srchost sport suser av)
         permits.
Definition DELEGATE_permitM (proto : list Z) (method : option (list Z)) (dsthost : list Z)
  (dport : Z) (srchost : list Z) (sport : Z) : acc bool :=
  suser ← client_user;
  av ← getClientAuthList;
  DELEGATE_permitMX proto method dsthost dport srchost sport suser av.
Definition DELEGATE_rejectM (proto : list Z) (method : option (list Z)) (dsthost : list Z)
  (dport : Z) (srchost : list Z) (sport : Z) : acc bool :=
  if bool_decide (Rejects = []) then mret false
  else
    _ ← upd (set_forreject true);
    mtch ← DELEGATE_permitM proto method dsthost dport srchost sport;
    _ ← upd (set_forreject false);
    mret mtch.
Definition rejectMethod (proto : list Z) (method : option (list Z)) (dsthost : list Z)
  (dport : Z) (srchost : list Z) (sport : Z) : acc bool :=
  c ← conn;
  _ ← upd (set_dstcheck false);
  _ ← upd (set_dstcheck_proto 0);
  rej ← DELEGATE_rejectM proto method dsthost dport srchost sport;
  _ ← upd (set_dstcheck (no_dstcheck c));
  _ ← upd (set_dstcheck_proto (no_dstcheck_proto c));
  mret rej.
Definition notREMITTABLE (ndp : bool) (proto : list Z) (port : Z) : bool :=
  match Remittable cf with
  | Some V => match protoMatch1 ndp V proto port with Some _ => false | None => true end
  | None => false
  end.

(** *** [RELIABLE] and [REACHABLE] ([src/access.cpp]) *)
Definition RELIABLE_HOST (hostlist : HostList) (srchost : list Z) (srcport : Z) : acc bool :=
  if hl_cnt hostlist =? 0 then mret true
  else
    suser ← client_user;
    av ← getClientAuthList;
    c ← conn;
    hostIsin hostlist (Some (DFLT_PROTO c)) srchost srcport suser av.
(** [withconn] is false for a null [Conn]. *)
Definition REACHABLE_HOST (withconn : bool) (hostlist : HostList) (proto : option (list Z))
  (hostname : list Z) (dstport : Z) : acc bool :=
  c ← conn;
  if hl_cnt hostlist =? 0 then mret true
  else if withconn && no_dstcheck c then mret true
  else hostIsin hostlist proto hostname dstport (if withconn then DST_USER c else None) [].
Definition tobeREJECTED : acc bool :=
  if hl_cnt ReliableList =? 0 then mret false
  else
    '(shost, sport) ← getClientHostPort;
    if sport <=? 0 then mret false
    else
      c ← conn;
      isrel ← hostIsin ReliableList (Some (DFLT_PROTO c)) shost sport (Some hostmatch_ignauth) [];
      mret (negb isrel).

Definition PERMITTED_USER (hostlist : HostList) (hostname : list Z) (lport stdport : Z) : bool := true.
Definition PERMITTED_PORT (c : Connection) (proto host : list Z) (port : Z) : bool :=
  let stdport := serviceport services (cs "telnet") in
  if streq proto (cs "telnet") && negb (ANYPORT env) && negb (port =? 0) && negb (port =? stdport)
     && negb (ImProxy c)
     && negb (streq (iSERVER_PROTO env) (cs "telnet") && (port =? iSERVER_PORT env))
  then false
  else negb ((port =? 19) && (streq proto (cs "http") || streq proto (cs "gopher"))).

Definition refuse (reason : list Z) : acc bool := _ ← upd (set_reason reason); mret false.
Definition PERMITTED_ACCESS (shost : list Z) (sport stdport : Z) : acc bool :=
  _ ← upd (set_reason []);
  c ← conn;
  if negb (Z.land (ConnectFlags c) COF_SCREENED =? 0)
  then refuse (cs "'" ++ shost ++ cs "' by SCREEN")
  else
    reliable ← RELIABLE_HOST ReliableList shost sport;
    if negb reliable then refuse (cs "'" ++ shost ++ cs "' not RELIABLE")
    else if negb (PERMITTED_USER ReliableList shost sport stdport)
    then refuse (cs "not PERMITTED_USER")
    else
      c ← conn;
      reachable ← REACHABLE_HOST true ReachableList (Some (DST_PROTO c)) (DST_HOST c) (DST_PORT c);
      if negb reachable then refuse (cs "'" ++ DST_HOST c ++ cs "' not REACHABLE")
      else if negb (PERMITTED_PORT c (DST_PROTO c) (DST_HOST c) (DST_PORT c))
      then refuse (cs "not PERMITTED_PORT")
      else
        rejected ← DELEGATE_rejectM (DST_PROTO c) None (DST_HOST c) (DST_PORT c) shost sport;
        if (rejected : bool) then refuse (cs "matched REJECT")
        else
          pair ← DELEGATE_permitM (DST_PROTO c) None (DST_HOST c) (DST_PORT c) shost sport;
          if negb pair
          then c ← conn;
               refuse (if bool_decide (reject_reason c = []) then cs "unmatch PERMIT"
                       else reject_reason c)
          else mret true.

(** *** [service_permitted2] ([src/service.cpp]) *)

(** The client's host: when its name does not resolve its address is used
    for it, or the request is refused. *)
Definition client_name (shost : list Z) : acc (option (list Z)) :=
  if negb (isinetAddr henv shost) && negb (hostIsResolvable henv shost)
  then
    c ← conn;
    let addr := VA_inetNtoah env (Client_VAddr c) in
    if P_RES_VRFY env then mret None
    else if negb (isinetAddr henv addr) then mret None
    else
      let a := Client_VAddr c in
      _ ← upd (set_addr (VAddr (a_ints a) (a_port a) addr (a_flags a)));
      mret (Some addr)
  else mret (Some shost).
Definition service_permitted2 (service : list Z) (silent : Z) : acc bool :=
  c ← conn;
  if from_myself c then mret true
  else
    '(shost, sport) ← getClientHostPort;
    host ← client_name shost;
    match host with
    | None => mret false
    | Some shost =>
        if sport =? 0 then mret false
        else
          _ ← CTX_pushClientInfo;
          acceptable ← PERMITTED_ACCESS shost sport (serviceport services service);
          _ ← HL_popClientInfo;
          c ← conn;
          '(acceptable, shost, sport) ←
            (if acceptable && bool_decide (TeleportHost c <> [])
             then a ← PERMITTED_ACCESS (TeleportHost c) (TeleportPort c)
                        (serviceport services service);
                  mret (a, TeleportHost c, TeleportPort c)
             else mret (acceptable, shost, sport));
          _ ← (if silent =? 0
               then emit (addAccHist (if (acceptable : bool) then ACC_OK else ACC_FORBIDDEN))
               else mret tt);
          if (acceptable : bool) then mret true
          else
            c ← conn;
            _ ← (if streq (DST_PROTO c) (cs "ssltunnel") then mret tt
                 else emit (addtoHostSet (cs "rejected") shost (VA_inetNtoah env (Client_VAddr c))));
            _ ← (if negb (Z.land silent 2 =? 0) then emit (logReject shost sport)
                 else if silent =? 0
                 then _ ← emit (logReject shost sport);
                      emit (delayReject (cs "DELEGATE") service shost sport
                              (cs "Forbidden by DeleGate"))
                 else mret tt);
            _ ← upd (set_error CO_REJECTED);
            mret false
    end.

(** The destination is not known yet. *)
Definition source_permitted : acc bool :=
  c ← conn;
  _ ← upd (set_dstcheck true);
  ok ← service_permitted2 (DST_PROTO c) 1;
  _ ← upd (set_dstcheck (no_dstcheck c));
  mret ok.
Definition source_permittedX : acc bool :=
  _ ← upd (set_authcheck true);
  ok ← source_permitted;
  _ ← upd (set_authcheck false);
  mret ok.

(** *** Methods ([src/service.cpp]) *)
Definition method_permittedX (proto : list Z) (method : option (list Z)) (igncase : bool) : acc bool :=
  let method := if igncase then map toupper <$> method else method in
  '(shost, sport) ← getClientHostPort;
  _ ← CTX_pushClientInfo;
  c ← conn;
  acceptable ← DELEGATE_permitM proto method (DST_HOST c) (DST_PORT c) shost sport;
  acceptable ←
    (if (acceptable : bool)
     then c ← conn;
          rej ← DELEGATE_rejectM proto method (DST_HOST c) (DST_PORT c) shost sport;
          mret (negb rej)
     else mret false);
  _ ← HL_popClientInfo;
  mret acceptable.
Definition method_permitted (proto : list Z) (method : option (list Z)) (igncase : bool) : acc bool :=
  if DO_METHOD_FILTER cf =? 0 then mret true else method_permittedX proto method igncase.
Definition permitted_readonly (proto : list Z) : acc bool :=
  c ← conn;
  _ ← upd (set_dstcheck false);
  ro ← method_permittedX (cs "readonly") None false;
  ro ← (if (ro : bool) then mret true
        else
          listed ← method_permittedX proto (Some (cs ".REJECT")) false;
          if (listed : bool) then mret false
          else method_permittedX proto (Some (cs "readonly")) false);
  _ ← upd (set_dstcheck (no_dstcheck c));
  mret ro.

(** *** Other tables *)

(** [CMAP]: the number of the first entry from [i] on that matches, with its
    string. *)
Definition NonHTTP (Rp : Route) (proto : list Z) : bool :=
  m_protoV_NonHTTP Rp && strncaseeq proto (cs "http") 4.
Definition isin_or_empty (hl : HostList) (p : acc bool) : acc bool :=
  if hl_cnt hl =? 0 then mret true else p.
Definition cmap_matches (withconn : bool) (map proto dhost : list Z) (dport : Z)
  (shost : list Z) (sport : Z) (suser : option (list Z)) (av : list AuthInfo) (Rp : Route)
  : acc bool :=
  c ← conn;
  if negb (streq map (m_gw_host Rp)) || NonHTTP Rp proto then mret false
  else
    ok ← lift (protoMatch2 (if withconn then Some (CMAPmethod c) else None) (m_protoV Rp) proto);
    if negb ok then mret false
    else
      ok ← (if withconn && bool_decide (i_meth c <> [])
            then match m_protoV Rp with
                 | None => lift None
                 | Some V => match protoMatch1 (no_dstcheck_port c) V proto dport with
                             | Some pl => lift (methodMatch (forreject c) pl (Some (i_meth c)))
                             | None => mret true
                             end
                 end
            else mret true);
      if negb ok then mret false
      else
        isdst ← isin_or_empty (dsts Rp) (hostIsin (dsts Rp) (Some proto) dhost dport None av);
        if negb isdst then mret false
        else isin_or_empty (srcs Rp) (hostIsin (srcs Rp) None shost sport suser av).
Fixpoint find_CMAPXi_loop (matches : Route -> acc bool) (mx : Z) (l : list Route)
  : acc (option (Z * list Z)) :=
  match l with
  | [] => mret None
  | Rp :: l' =>
      ok ← matches Rp;
      if (ok : bool) then mret (Some (mx, m_gw_path Rp)) else find_CMAPXi_loop matches (mx + 1) l'
  end.
Definition find_CMAPXi (withconn : bool) (map : list Z) (i : nat) (proto dhost : list Z)
  (dport : Z) (shost : list Z) (sport : Z) (suser : option (list Z)) (av : list AuthInfo)
  : acc (option (Z * list Z)) :=
  find_CMAPXi_loop (cmap_matches withconn map proto dhost dport shost sport suser av)
    (Z.of_nat i) (drop i (Maps cf)).
Definition find_CMAPi (map : list Z) (i : nat) : acc (option (Z * list Z)) :=
  c ← conn;
  let proto := if bool_decide (REAL_PROTO c <> []) then REAL_PROTO c
               else if streq (DFLT_PROTO c) (cs "http") then cs "ANYP"
               else if bool_decide (DFLT_PROTO c <> []) then DFLT_PROTO c else cs "ANYP" in
  '(shost, sport) ← getClientHostPort;
  suser ← getClientUserC;
  av ← getClientAuthList;
  c ← conn;
  find_CMAPXi true map i proto (DST_HOST c) (DST_PORT c) shost sport suser av.
Definition find_CMAP (map : list Z) : acc (option (Z * list Z)) := find_CMAPi map 0.
Definition find_CMAPXX (map proto method dhost : list Z) (dport : Z) (shost : list Z)
  (sport : Z) (suser : option (list Z)) : acc (option (Z * list Z)) :=
  c ← conn;
  _ ← upd (set_meth method);
  midx ← find_CMAPXi true map 0 proto dhost dport shost sport suser [];
  _ ← upd (set_meth (i_meth c));
  mret midx.

(** [findRoute]; [from] is the number of the first route of the list. *)
Fixpoint findRoute_loop (routes : list Route) (cx : Z) (proto dsthost srchost : list Z)
  : acc Z :=
  match routes with
  | [] => mret (-1)
  | Rp :: routes' =>
      let next := findRoute_loop routes' (cx + 1) proto dsthost srchost in
      if NonHTTP Rp proto then next
      else
        (* the list of protocols is read even when it is null *)
        V ← lift (m_protoV Rp);
        if negb (protoMatch3 V proto) then next
        else
          isdst ← isin_or_empty (dsts Rp) (hostIsin (dsts Rp) (Some proto) dsthost 0 None []);
          if negb isdst then next
          else
            issrc ← isin_or_empty (srcs Rp)
                      (suser ← getClientUserC; hostIsin (srcs Rp) None srchost 0 suser []);
            if (issrc : bool) then mret cx else next
  end.
Definition findRoute (routes : list Route) (proto dsthost srchost : list Z) : acc Z :=
  _ ← CTX_pushClientInfo;
  found ← findRoute_loop routes 0 proto dsthost srchost;
  _ ← HL_popClientInfo;
  mret found.

(** [RELAY] ([src/access.cpp]), without the option for logs that [origdst]
    sets. *)
Definition RELAY_PROXY : Z := 1.
Definition RELAY_DELEGATE : Z := 6.
Definition RELAY_APPLET : Z := 256.
Definition RELAY_JAVA : Z := 768.
Definition RELAY_VHOST : Z := 2048.
Definition RELAY_ORIGDST : Z := 4096.
Definition RELAY_Y11 : Z := 8192.
Definition RELAY_YYMUX : Z := 16384.
Definition scan_relay1 (mask : Z) (r1 : list Z) (_ : option (list Z)) : Z * Z :=
  let on name bit mask := if streq r1 name then Z.lor mask bit else mask in
  let off name bit mask := if streq r1 name then Z.land mask (Z.lnot bit) else mask in
  (off (cs "nojava") RELAY_JAVA (off (cs "noapplet") RELAY_APPLET
    (on (cs "delegate") RELAY_DELEGATE (on (cs "proxy") RELAY_PROXY
    (on (cs "tproxy") RELAY_VHOST (on (cs "yy") RELAY_YYMUX (on (cs "y11") RELAY_Y11
    (on (cs "origdst") RELAY_ORIGDST (on (cs "vhost") RELAY_VHOST
    (off (cs "novhost") RELAY_VHOST mask))))))))), 0).
Definition scan_relay (realm : list Z) : option Z :=
  (fun r => r.1.1) <$>
    scan_ListX scan_relay1 true false realm COMMA (Z.lor RELAY_JAVA RELAY_APPLET).
Fixpoint do_RELAY_loop (fuel : nat) (found : nat) (what : Z) : acc Z :=
  match fuel with
  | O => lift None
  | S fuel' =>
      r ← find_CMAPi (cs "relay") found;
      match r with
      | None => mret 0
      | Some (found, realm) =>
          caps ← lift (scan_relay realm);
          if Z.land caps what =? what then mret caps
          else do_RELAY_loop fuel' (Z.to_nat (found + 1)) what
      end
  end.
Definition do_RELAY (what : Z) : acc Z :=
  c ← conn;
  if from_myself c then mret 1
  else
    _ ← CTX_pushClientInfo;
    relay ← do_RELAY_loop (S (length (Maps cf))) 0 what;
    _ ← HL_popClientInfo;
    mret relay.

Definition NotREACHABLE (proto host : list Z) (port : Z) : acc bool :=
  c ← conn;
  if no_dstcheck c then mret false
  else if negb (no_dstcheck_proto c =? 0) && (no_dstcheck_proto c =? serviceport services proto)
  then mret false
  else if notREMITTABLE (no_dstcheck_port c) proto port
  then _ ← upd (set_reason (proto ++ SLASH :: fmt_d port ++ cs " not REMITTABLE")); mret true
  else
    _ ← CTX_pushClientInfo;
    reach ← REACHABLE_HOST false ReachableList (Some proto) host port;
    _ ← HL_popClientInfo;
    mret (negb reach).

(** [set_OWNER] ([src/master.cpp]). *)
Fixpoint owner_loop (owners : list Route) (host : list Z) (port : Z) (user : list Z)
  : acc (option (list Z)) :=
  match owners with
  | [] => mret None
  | Rp :: owners' =>
      ok ← hostIsin (srcs Rp) None host port (Some user) [];
      if (ok : bool) then mret (m_owner Rp) else owner_loop owners' host port user
  end.
Definition set_OWNER (host : list Z) (port : Z) (user : list Z) : acc Z :=
  let owners := rt_routes (RT_ROUTE R_OWNER cf) in
  if bool_decide (owners = []) then mret 0
  else
    owner ← owner_loop owners host port user;
    match owner with
    | Some owner =>
        _ ← emit (set_Owner (if streq owner [STAR] then user else owner));
        mret 0
    | None => mret (-1)
    end.
End access.
