(* ===== verification/Connect.v ===== *)
(** * Connecting to a server ([src/master.cpp], [src/service.cpp])

    [connect_to_serverY] asks whether the access is permitted, finds the
    order of the methods ([setupConnect]) and the source address
    ([set_SRCIF]), and tries the methods in the order of the [CONNECT] that
    applies ([tryCONNECT]) or in the order built in: through a gateway
    ([forwardit] with [DELEGATE_forwardX]), an upper DeleGate ([open_master]
    with [DELEGATE_master] and [DELEGATE_Filter]), a tunnel, SOCKS, or directly.

    What is outside (opening a connection, negotiating with the server at the
    other end) is a call that is answered with a number and may change the
    variables that tell where the connection goes; the answer may depend on
    all calls before.  The calls are kept in order, with the log lines that
    tell which method is tried.  Log lines else, titles, times and the options
    of sockets are left out. *)
From S2P Require Import Prelude VStr Strings Glob ScanList ListOps Service Url ProtoV StrId.
From S2P Require Import HashTab HostAddr HostMatch HostParse HostSpec HostText Route Forward Access.
From stdpp Require Import options.

Definition CONN_NOPROXY : Z := 1.
Definition CONN_NOMASTER : Z := 2.
Definition CONN_NOSOCKS : Z := 4.
Definition CONN_DIRECTONLY : Z := 8.
Definition COF_NONDIRECT : Z := 128.

Inductive cn_call :=
  | Try (contype : Z)
  | OpenServer (wh proto host : list Z) (port : Z)
  | UDP_client_open (proto host : list Z) (port : Z)
  | client_open (wh proto host : list Z) (port : Z)
  | connectServer (wh proto host : list Z) (port : Z)
  | connectToSox (wh proto host : list Z) (port : Z)
  | connectViaSocks (host : list Z) (port : Z)
  | connectViaSocksX (skhost : list Z) (skport : Z) (opts host : list Z) (port : Z)
  | GetViaSocks (host : list Z) (port : Z)
  | ConnectViaSSLtunnel (host : list Z) (port : Z)
  | SSLtunnelNego (host : list Z) (port sock : Z)
  | ConnectViaYYMUX
  | ConnectViaYYMUXX (host : list Z) (port : Z)
  | CTX_VSAPconnect (peername : list Z)
  | ConnectViaICP
  | ConnectViaFtp
  | tryOpen
  | teleportOpen (mx : Z) (master : list Z) (mport : Z) (target : list Z)
  | connect_master (mx msock : Z) (cache_only : bool)
  | CCSV_reusing (msock : Z)
  | close (sock : Z)
  | forward_RIDENT (where_ svsock : Z).

(** Where the connection goes. *)
Record cn_vars := CnVars {
  FromS : Z; ToS : Z; FromSX : Z; ToSX : Z; ServerSock : Z;
  ConnType : Z; toProxy : bool; toMaster : Z;
  ServViaSocks : bool; ServViaVSAP : bool; ServViaCc : bool;
  GatewayProto : list Z; GatewayHost : list Z; GatewayPort : Z; GatewayPath : list Z;
  GatewayAuth : option site_auth
}.
Record cn_st := CnSt {
  k_ac : ac_st;
  k_vars : cn_vars;
  k_ConnectX : Z;                   (** [rt_filled] of the table [CONNECT] *)
  co_setup : bool;
  co_routex : Z;
  co_nonet : bool;
  co_nointernal : bool;
  DELEGATE_CACHE_CONTROL : Z;
  ca_objsize : Z;
  p_SRCIF : list Z;
  SRCHOST : list Z; SRCPORT : Z;
  MasterXo : Z;
  BREAK_STICKY : bool;
  k_calls : list cn_call
}.
Definition cn (A : Type) : Type := cn_st -> option (A * cn_st).
#[global] Instance cn_ret : MRet cn := fun _ a st => Some (a, st).
#[global] Instance cn_bind : MBind cn :=
  fun _ _ f p st => match p st with Some (a, st) => f a st | None => None end.

Definition get : cn cn_st := fun st => Some (st, st).
Definition vars : cn cn_vars := fun st => Some (k_vars st, st).
Definition kconn : cn Connection := fun st => Some (s_conn (k_ac st), st).
Definition put_ac (a : ac_st) (st : cn_st) : cn_st :=
  CnSt a (k_vars st) (k_ConnectX st) (co_setup st) (co_routex st) (co_nonet st)
    (co_nointernal st) (DELEGATE_CACHE_CONTROL st) (ca_objsize st) (p_SRCIF st) (SRCHOST st)
    (SRCPORT st) (MasterXo st) (BREAK_STICKY st) (k_calls st).
Definition put_vars (v : cn_vars) (st : cn_st) : cn_st :=
  CnSt (k_ac st) v (k_ConnectX st) (co_setup st) (co_routex st) (co_nonet st)
    (co_nointernal st) (DELEGATE_CACHE_CONTROL st) (ca_objsize st) (p_SRCIF st) (SRCHOST st)
    (SRCPORT st) (MasterXo st) (BREAK_STICKY st) (k_calls st).
Definition put_setup (cx : Z) (setup : bool) (routex : Z) (nonet noint : bool) (cc : Z)
  (st : cn_st) : cn_st :=
  CnSt (k_ac st) (k_vars st) cx setup routex nonet noint cc (ca_objsize st) (p_SRCIF st)
    (SRCHOST st) (SRCPORT st) (MasterXo st) (BREAK_STICKY st) (k_calls st).
Definition put_src (srcif host : list Z) (port : Z) (st : cn_st) : cn_st :=
  CnSt (k_ac st) (k_vars st) (k_ConnectX st) (co_setup st) (co_routex st) (co_nonet st)
    (co_nointernal st) (DELEGATE_CACHE_CONTROL st) (ca_objsize st) srcif host port
    (MasterXo st) (BREAK_STICKY st) (k_calls st).
Definition put_misc (objsize xo : Z) (sticky : bool) (st : cn_st) : cn_st :=
  CnSt (k_ac st) (k_vars st) (k_ConnectX st) (co_setup st) (co_routex st) (co_nonet st)
    (co_nointernal st) (DELEGATE_CACHE_CONTROL st) objsize (p_SRCIF st) (SRCHOST st) (SRCPORT st)
    xo sticky (k_calls st).
Definition put_call (c : cn_call) (st : cn_st) : cn_st :=
  CnSt (k_ac st) (k_vars st) (k_ConnectX st) (co_setup st) (co_routex st) (co_nonet st)
    (co_nointernal st) (DELEGATE_CACHE_CONTROL st) (ca_objsize st) (p_SRCIF st) (SRCHOST st)
    (SRCPORT st) (MasterXo st) (BREAK_STICKY st) (k_calls st ++ [c]).
Definition change (f : cn_st -> cn_st) : cn unit := fun st => Some (tt, f st).
Definition setv (f : cn_vars -> cn_vars) : cn unit := change (fun st => put_vars (f (k_vars st)) st).
Definition run_acc {A} (p : acc A) : cn A :=
  fun st => match p (k_ac st) with Some (a, ac) => Some (a, put_ac ac st) | None => None end.
Definition updc (f : Connection -> Connection) : cn unit := run_acc (upd f).
Definition liftk {A} (o : option A) : cn A := fun st => (fun a => (a, st)) <$> o.
Definition log_call (c : cn_call) : cn unit := change (put_call c).

(** *** Assignments *)
Definition set_Flags (f : Z) (c : Connection) : Connection :=
  MkConn (from_myself c) (ClientSock c) (Client_VAddr c) (TeleportHost c) (TeleportPort c)
    (ClientAuth c) (i_meth c) (ClientCert c) (CMAPmethod c) (ImProxy c) f (sv_dflt c) (sv c)
    (ConnError c) (no_dstcheck c) (no_dstcheck_proto c) (no_dstcheck_port c) (no_authcheck c)
    (forreject c) (reject_reason c).
Definition set_socks (fs ts : Z) (v : cn_vars) : cn_vars :=
  CnVars fs ts (FromSX v) (ToSX v) (ServerSock v) (ConnType v) (toProxy v) (toMaster v)
    (ServViaSocks v) (ServViaVSAP v) (ServViaCc v) (GatewayProto v) (GatewayHost v) (GatewayPort v)
    (GatewayPath v) (GatewayAuth v).
Definition set_FromSX (x : Z) (v : cn_vars) : cn_vars :=
  CnVars (FromS v) (ToS v) x (ToSX v) (ServerSock v) (ConnType v) (toProxy v) (toMaster v)
    (ServViaSocks v) (ServViaVSAP v) (ServViaCc v) (GatewayProto v) (GatewayHost v) (GatewayPort v)
    (GatewayPath v) (GatewayAuth v).
Definition set_ServerSock (x : Z) (v : cn_vars) : cn_vars :=
  CnVars (FromS v) (ToS v) (FromSX v) (ToSX v) x (ConnType v) (toProxy v) (toMaster v)
    (ServViaSocks v) (ServViaVSAP v) (ServViaCc v) (GatewayProto v) (GatewayHost v) (GatewayPort v)
    (GatewayPath v) (GatewayAuth v).
Definition set_ConnType (t : Z) (v : cn_vars) : cn_vars :=
  CnVars (FromS v) (ToS v) (FromSX v) (ToSX v) (ServerSock v) t (toProxy v) (toMaster v)
    (ServViaSocks v) (ServViaVSAP v) (ServViaCc v) (GatewayProto v) (GatewayHost v) (GatewayPort v)
    (GatewayPath v) (GatewayAuth v).
Definition set_toMaster (m : Z) (v : cn_vars) : cn_vars :=
  CnVars (FromS v) (ToS v) (FromSX v) (ToSX v) (ServerSock v) (ConnType v) (toProxy v) m
    (ServViaSocks v) (ServViaVSAP v) (ServViaCc v) (GatewayProto v) (GatewayHost v) (GatewayPort v)
    (GatewayPath v) (GatewayAuth v).
Definition set_via (socks vsap cc : bool) (v : cn_vars) : cn_vars :=
  CnVars (FromS v) (ToS v) (FromSX v) (ToSX v) (ServerSock v) (ConnType v) (toProxy v) (toMaster v)
    socks vsap cc (GatewayProto v) (GatewayHost v) (GatewayPort v) (GatewayPath v) (GatewayAuth v).
Definition set_Gateway (proto path : list Z) (auth : option site_auth) (v : cn_vars) : cn_vars :=
  CnVars (FromS v) (ToS v) (FromSX v) (ToSX v) (ServerSock v) (ConnType v) (toProxy v) (toMaster v)
    (ServViaSocks v) (ServViaVSAP v) (ServViaCc v) proto (GatewayHost v) (GatewayPort v) path auth.
Definition setToProxy (proto host : list Z) (port : Z) (v : cn_vars) : cn_vars :=
  CnVars (FromS v) (ToS v) (FromSX v) (ToSX v) (ServerSock v) (ConnType v) true (toMaster v)
    (ServViaSocks v) (ServViaVSAP v) (ServViaCc v) proto host port (GatewayPath v) (GatewayAuth v).

(** The answers of what is outside, and the state of the process and of the
    connection that does not change here. *)
Record cn_env := CnEnv {
  answer : list cn_call -> cn_call -> cn_vars -> Z * cn_vars;
  CONNERR : list cn_call -> Z;
  getpeerName : Z -> list Z;
  D_PATH : list Z;
  co_mask : Z;
  tryProxyOnly : bool;
  DontReadCache : bool;
  XF_FTOMD : bool;
  PF_UDP : bool;
  RequestMethod : list Z;
  MO_ProxyHost : list Z; MO_ProxyPort : Z;
  MO_MasterHost : list Z; MO_MasterPort : Z;
  MasterIsPrivate : bool; ACT_GENERALIST : bool; myPrivateMASTER : bool;
  MasterXi : Z; SERNO : Z; MASTER_ROUND_ROBIN : bool; FromTeleport : bool;
  remote_access : bool;
  isMYSELF : list Z -> bool;
  from_client : bool; from_cached : bool;
  getClientHostPortAddr : option (list Z);
  getpeerNAME : option (list Z);
  CLIF_HOST : list Z
}.

Section connect.
Context {T : Type} `{IdTable T} (env : ac_env) (henv : hl_env) (penv : hp_env).
Variable services : list Service.
Variable cf : rt_st T.
Variable E : cn_env.

(** A call to what is outside. *)
Definition ask (c : cn_call) : cn Z :=
  fun st => let '(r, v) := answer E (k_calls st) c (k_vars st) in
            Some (r, put_call c (put_vars v st)).

(** [initConnected] without the input that is relayed. *)
Definition initConnected (svsock : Z) : cn unit :=
  setv (fun v => set_ServerSock svsock (set_socks svsock svsock v)).
Definition setServ (svsock : Z) : cn unit :=
  setv (fun v =>
    let v := if negb (XF_FTOMD E) || ((ToSX v <? 0) && (ToS v <? 0))
             then set_socks (FromS v) svsock v else v in
    if (FromSX v <? 0) && (FromS v <? 0) then set_socks svsock (ToS v) v else v).

(** [ConnectToServer] ([src/ddi.cpp]): directly. *)
Definition ConnectToServer : cn Z :=
  c ← kconn;
  svsock ← (if PF_UDP E
            then ask (UDP_client_open (DST_PROTO c) (DST_HOST c) (DST_PORT c))
            else ask (OpenServer (cs "ConnectToServer") (DST_PROTO c) (DST_HOST c) (DST_PORT c)));
  if 0 <=? svsock then _ ← initConnected svsock; mret svsock
  else
    st ← get;
    _ ← updc (fun c => set_error (Z.lor (ConnError c) (CONNERR E (k_calls st))) c);
    mret (-1).
Definition ConnectViaSocks : cn Z :=
  if has (co_mask E) CONN_NOSOCKS then mret (-1)
  else
    c ← kconn;
    sock ← ask (connectViaSocks (DST_HOST c) (DST_PORT c));
    _ ← (if 0 <=? sock then initConnected sock else mret tt);
    mret sock.
Definition peername (c : Connection) : list Z := DST_HOST c ++ COLON :: fmt_d (DST_PORT c).
Definition ConnectViaVSAP : cn Z :=
  c ← kconn;
  sock ← ask (CTX_VSAPconnect (peername c));
  _ ← (if 0 <=? sock then initConnected sock else mret tt);
  mret sock.

(** *** Loops of relays *)

(** [CTX_findInPath] ([src/ddi.cpp]): is the server one that the request
    came through? *)
Definition findPath1 (hostport : list Z) (a : unit) (path1 : list Z) (_ : option (list Z)) : unit * Z :=
  (a, if streq path1 hostport then 1 else 0).
Definition CTX_findInPath (host : list Z) (port : Z) : bool :=
  match scan_ListX (findPath1 (host ++ COLON :: fmt_d port)) true false (D_PATH E) 33 tt with
  | Some r => negb (r.1.2 =? 0)
  | None => false
  end.

(** *** [DELEGATE_forwardX]: the first route that applies *)
Definition setConnectFlags (flagi : Z) : cn unit :=
  updc (fun c => set_Flags (Z.lor (ConnectFlags c) flagi) c).
Definition forward_applies (proto dsthost : list Z) (dstport : Z) (srchost : list Z) (Rp : Route)
  : cn bool :=
  c ← kconn;
  ok ← (match m_protoV Rp with
        | Some V =>
            if no_dstcheck c then mret true
            else match protoMatch1 (no_dstcheck_port c) V proto dstport with
                 | None => mret false
                 | Some pl =>
                     if negb (DO_METHOD_FILTER cf =? 0) && bool_decide (RequestMethod E <> [])
                     then liftk (methodMatch (forreject c) pl (Some (RequestMethod E)))
                     else mret true
                 end
        | None => mret true
        end);
  if negb ok then mret false
  else
    isdst ← run_acc (isin_or_empty (dsts cf Rp)
                       (hostIsin henv penv cf (dsts cf Rp) (Some proto) dsthost dstport None []));
    if negb isdst then mret false
    else run_acc (isin_or_empty (srcs cf Rp)
                    (suser ← getClientUserC env;
                     hostIsin henv penv cf (srcs cf Rp) None srchost 0 suser [])).
Fixpoint forward_loop (proto dsthost : list Z) (dstport : Z) (srchost : list Z) (l : list Route)
  : cn (option Route) :=
  match l with
  | [] => mret None
  | Rp :: l' =>
      ok ← forward_applies proto dsthost dstport srchost Rp;
      if (ok : bool) then _ ← setConnectFlags (m_ConnectFlags Rp); mret (Some Rp)
      else forward_loop proto dsthost dstport srchost l'
  end.
Definition DELEGATE_forwardX (proto dsthost : list Z) (dstport : Z) (srchost : list Z)
  : cn (option Route) :=
  if bool_decide (Forwards cf = []) then mret None
  else
    _ ← run_acc (CTX_pushClientInfo env);
    found ← forward_loop proto dsthost dstport srchost (Forwards cf);
    _ ← run_acc HL_popClientInfo;
    mret found.

(** [connectToUpper]: by the methods of the [CONNECT] for the gateway. *)
Definition find_CONNECT (proto host shost : list Z) : cn Z :=
  st ← get;
  run_acc (findRoute env henv penv cf (take (Z.to_nat (k_ConnectX st)) (Connects cf)) proto host shost).
Definition orders_of (routex : Z) : list Z :=
  match Connects cf !! Z.to_nat routex with Some Rp => m_conn Rp | None => [] end.
Definition has_order (orders : list Z) (ctype : Z) : bool := existsb (Z.eqb ctype) orders.
Definition connectToUpper (where_ proto host : list Z) (port : Z) : cn Z :=
  sock ← ask (connectToSox where_ proto host port);
  if 0 <=? sock then mret sock
  else
    c ← kconn;
    routex ← find_CONNECT proto host (Client_Host c);
    let orders := orders_of routex in
    if (0 <=? routex) && has_order orders C_SOCKS then ask (connectViaSocks host port)
    else if (0 <=? routex) && has_order orders C_SSLTUNNEL then ask (ConnectViaSSLtunnel host port)
    else ask (OpenServer (cs "ToUpper") proto host port).

(** *** [forwardit]: through a gateway *)

(** The gateway is used for the whole request: a proxy, a tunnel, or
    another DeleGate. *)
Definition forward_upper (Rp : Route) : cn bool :=
  let proto := m_gw_proto Rp in
  let host := m_gw_host Rp in
  let port := m_gw_port Rp in
  msock ← connectToUpper (cs "Forward") proto host port;
  if msock <? 0 then mret true
  else
    _ ← setv (fun v => set_socks msock msock (set_Gateway proto (m_gw_path Rp) (m_gw_auth Rp) v));
    let abandon := _ ← ask (close msock); setv (set_socks (-1) (-1)) in
    c ← kconn;
    _ ← (if streq proto (cs "ssltunnel")
         then
           n ← ask (SSLtunnelNego (DST_HOST c) (DST_PORT c) msock);
           if n <? 0 then abandon
           else setv (fun v => set_ConnType C_SSLTUNNEL (setToProxy proto host port v))
         else if streq proto (cs "http") || streq proto (cs "http-proxy") || streq proto (cs "ftp")
                 || streq proto (cs "telnet")
         then setv (setToProxy proto host port)
         else
           n ← ask (connect_master (-1) msock false);
           if n =? 0 then setv (set_toMaster 1) else abandon);
    mret true.
(** A gateway by circuit: a socket, or nothing. *)
Definition forward_circuit (Rp : Route) (call : Connection -> cn_call) (ctype : Z) : cn bool :=
  c ← kconn;
  _ ← setv (fun v => set_Gateway (m_gw_proto Rp) (GatewayPath v) (m_gw_auth Rp) v);
  msock ← ask (call c);
  if 0 <=? msock
  then _ ← setv (fun v => set_socks msock msock (set_ConnType ctype v)); mret true
  else mret false.
Definition forward_by (Rp : Route) : cn bool :=
  let proto := m_gw_proto Rp in
  let host := m_gw_host Rp in
  let port := m_gw_port Rp in
  if streq proto (cs "noroute") then _ ← setv (set_socks (-1) (-1)); mret true
  else if streq proto (cs "direct")
  then
    msock ← ConnectToServer;
    if 0 <=? msock
    then _ ← setv (fun v => set_socks msock msock (set_ConnType C_DIRECT v)); mret true
    else mret false
  else if streq proto (cs "socks")
  then forward_circuit Rp
         (fun c => connectViaSocksX host port (m_gw_path Rp) (DST_HOST c) (DST_PORT c)) C_SOCKS
  else if streq proto (cs "yymux") || streq proto (cs "yy")
  then forward_circuit Rp (fun _ => ConnectViaYYMUXX host port) C_YYMUX
  else forward_upper Rp.
Definition forwardit : cn bool :=
  if has (co_mask E) CONN_NOPROXY then mret false
  else
    msock ← (if bool_decide (MO_ProxyHost E <> []) && negb (MO_ProxyPort E =? 0)
             then connectToUpper (cs "PROXYmo") (iSERVER_PROTO env) (MO_ProxyHost E) (MO_ProxyPort E)
             else mret 0);
    if 0 <? msock
    then
      _ ← setv (fun v => setToProxy (iSERVER_PROTO env) (MO_ProxyHost E) (MO_ProxyPort E)
                           (set_socks msock msock v));
      mret true
    else
      '(clnt, port) ← run_acc (getClientHostPort env);
      let clnt := if port =? 0 then cs "?" else clnt in
      c ← kconn;
      forw ← DELEGATE_forwardX (DFLT_PROTO c) (p_host (sv_dflt c)) (p_port (sv_dflt c)) clnt;
      match forw with
      | None => mret false
      | Some Rp => if CTX_findInPath (m_gw_host Rp) (m_gw_port Rp) then mret false else forward_by Rp
      end.

(** *** [open_master]: through an upper DeleGate *)

(** [DELEGATE_master]: the number of the [ms]th master to be tried, and the
    master, but not a tunnel for a request that comes out of one. *)
Definition master_index (ms mn : Z) : Z :=
  if MASTER_ROUND_ROBIN E then (SERNO E + ms) mod mn else ms mod mn.
Definition DELEGATE_master (ms : Z) : cn (option (Z * option Route)) :=
  let mn := nMASTERS cf in
  if (mn =? 0) || (mn <=? ms) then mret None
  else
    let mi := master_index ms mn in
    Rp ← liftk (Masters cf !! Z.to_nat mi);
    if FromTeleport E && m_teleport Rp then mret (Some (mi + 1, None))
    else
      _ ← setConnectFlags (m_ConnectFlags Rp);
      mret (Some (mi + 1, Some Rp)).
(** [DELEGATE_Filter]: is the server one that the master is for? *)
Definition DELEGATE_Filter (Rp : Route) (dstproto dsthost : list Z) (dstport : Z) : cn bool :=
  if NonHTTP Rp dstproto then mret false
  else run_acc (isin_or_empty (dsts cf Rp)
                  (hostIsin henv penv cf (dsts cf Rp) (Some dstproto) dsthost dstport None [])).

Section master.
Variables (try_direct : bool) (server : list Z) (svport : Z) (sendhead : bool).

(** A connection to the master is there: is it one to be used? *)
Definition use_master (Rp : Route) (mx mi msock : Z) : cn (Z * bool) :=
  let viaMaster := if m_teleport Rp then 2 else 1 in
  if msock <? 0 then mret (msock, false)
  else
    reusing ← ask (CCSV_reusing msock);
    if negb (reusing =? 0) then _ ← setv (set_toMaster 1); mret (msock, true)
    else if negb sendhead then _ ← setv (set_toMaster viaMaster); mret (msock, true)
    else
      n ← ask (connect_master mx msock (m_cacheonly Rp));
      if n =? 0
      then
        _ ← setv (set_toMaster viaMaster);
        _ ← change (fun st => put_misc (ca_objsize st) (mi + 1) (BREAK_STICKY st) st);
        mret (msock, true)
      else _ ← ask (close msock); mret (-1, false).
(** A master that is to be tried: the socket, and whether it is the last. *)
Definition ask_master (mx : Z) (Rp : Route) (mi msock : Z) : cn (Z * bool) :=
  c ← kconn;
  let master := m_gw_host Rp in
  let mport := m_gw_port Rp in
  if m_cacheonly Rp && (DontReadCache E || (withcache services (DST_PROTO c) =? 0))
  then mret (msock, false)
  else
    ok ← DELEGATE_Filter Rp (DST_PROTO c) server svport;
    if negb ok || CTX_findInPath master mport then mret (msock, false)
    else
      let star := streq master [STAR] in
      if star && negb try_direct then mret (msock, false)
      else
        direct ← (if star then ConnectToServer else mret (-1));
        if 0 <=? direct then mret (direct, true)
        else
          msock ← (if m_teleport Rp then ask (teleportOpen mx master mport server)
                   else if negb (MasterIsPrivate E)
                   then connectToUpper (cs "MasterOpen") (cs "delegate") master mport
                   else ask (connectServer (cs "MasterOpen") (cs "delegate") master mport));
          use_master Rp mx mi msock.
Definition try_master (mi msock : Z) : cn (Z * bool) :=
  m ← DELEGATE_master mi;
  match m with
  | None => mret (-1, true)
  | Some (_, None) => mret (msock, false)
  | Some (mx, Some Rp) => ask_master mx Rp mi msock
  end.
Fixpoint masters_loop (mis : list Z) (msock : Z) : cn Z :=
  match mis with
  | [] => mret msock
  | mi :: mis' =>
      '(msock, stop) ← try_master mi msock;
      if (stop : bool) then mret msock else masters_loop mis' msock
  end.
End master.
(** The numbers of the masters, from the one that was used before. *)
Definition master_order : list Z :=
  let mi0 := if 1 <? MasterXi E then MasterXi E - 1 else 0 in
  map (fun mn => (mi0 + Z.of_nat mn) mod nMASTERS cf) (seq 0 (length (Masters cf))).
Definition withTmpMaster : bool :=
  bool_decide (MO_MasterHost E <> []) && negb (MO_MasterPort E =? 0).
Definition open_master (try_direct : bool) (server : list Z) (svport : Z) (sendhead : bool) : cn Z :=
  if has (co_mask E) CONN_NOMASTER || (MasterIsPrivate E && ACT_GENERALIST E) then mret (-1)
  else
    let server := match index_of AT server with Some i => drop (S i) server | None => server end in
    msock ← masters_loop try_direct server svport sendhead master_order (-1);
    msock ← (if (msock <? 0) && withTmpMaster
             then
               msock ← ask (connectServer (cs "MO-MasterOpen") (cs "delegate") (MO_MasterHost E)
                              (MO_MasterPort E));
               _ ← (if 0 <=? msock
                    then n ← ask (connect_master (-1) msock false);
                         if n =? 0 then setv (set_toMaster 1) else mret tt
                    else mret tt);
               mret msock
             else mret msock);
    _ ← (if (msock <? 0) && myPrivateMASTER E
         then change (fun st => put_misc (ca_objsize st) (MasterXo st) true st) else mret tt);
    mret msock.

(** *** [setupConnect]: the order of the methods *)
Definition setup_source : cn (option (list Z)) :=
  c ← kconn;
  mret (if from_myself c && negb (from_client E) then Some []
        else if from_cached E then getClientHostPortAddr E else getpeerNAME E).
Definition setupConnect : cn unit :=
  st ← get;
  if (k_ConnectX st =? 0) || co_setup st then mret tt
  else
    let put cx routex nonet noint cc := change (put_setup cx true routex nonet noint cc) in
    let cx := k_ConnectX st in
    let noint := co_nointernal st in
    let cc := DELEGATE_CACHE_CONTROL st in
    _ ← put cx (co_routex st) (co_nonet st) noint cc;
    if remote_access E then put 0 (co_routex st) false noint cc
    else
      shost ← setup_source;
      match shost with
      | None => mret tt
      | Some shost =>
          c ← kconn;
          routex ← find_CONNECT (DST_PROTO c) (DST_HOST c) shost;
          if routex <? 0 then put cx routex (co_nonet st) noint cc
          else
            let orders := orders_of routex in
            put cx routex
              (co_nonet st || (has_order orders C_CACHE && bool_decide (orders = [C_CACHE])))
              (noint || (has_order orders C_INTERNAL && negb (cat orders 0 =? C_INTERNAL)))
              (if has_order orders C_CACHE then 0 else -1)
      end.

(** *** [tryCONNECT] *)

(** One method: the socket. *)
Definition proxy_conn_type (v : cn_vars) : cn_vars :=
  if existsb (Z.eqb (ConnType v)) [C_DIRECT; C_SOCKS; C_SSLTUNNEL] then v
  else set_ConnType (if toProxy v then C_PROXY else C_MASTER) v.
Definition via_gateway (proxy : bool) : cn Z :=
  ok ← forwardit;
  if (ok : bool)
  then
    _ ← (if proxy then setv proxy_conn_type else mret tt);
    v ← vars; mret (ToS v)
  else mret (-1).
Definition via_socks (socksonly : bool) : cn Z :=
  c ← kconn;
  yes ← (if socksonly then mret 1 else ask (GetViaSocks (DST_HOST c) (DST_PORT c)));
  if yes =? 0 then mret (-1)
  else
    _ ← (if socksonly then updc (set_dstcheck true) else mret tt);
    svsock ← ConnectViaSocks;
    _ ← (if socksonly then updc (set_dstcheck (no_dstcheck c)) else mret tt);
    _ ← (if 0 <=? svsock then setv (fun v => set_via true (ServViaVSAP v) (ServViaCc v) v) else mret tt);
    mret svsock.
(** [only]: no other method is in the order. *)
Definition connect_by (contype : Z) (only : bool) : cn Z :=
  _ ← log_call (Try contype);
  c ← kconn;
  if contype =? C_ICP then ask ConnectViaICP
  else if contype =? C_SSLTUNNEL then ask (ConnectViaSSLtunnel (DST_HOST c) (DST_PORT c))
  else if contype =? C_FTP then ask ConnectViaFtp
  else if contype =? C_GATEWAY then via_gateway false
  else if (contype =? C_PROXY) || (contype =? C_MASTER)
  then
    svsock ← via_gateway true;
    if (0 <=? svsock) || (contype =? C_PROXY) then mret svsock
    else c ← kconn; open_master true (DST_HOST c) (DST_PORT c) true
  else if contype =? C_DIRECT then ConnectToServer
  else if contype =? C_VSAP
  then
    svsock ← ask (CTX_VSAPconnect (peername c));
    _ ← (if 0 <=? svsock then setv (fun v => set_via (ServViaSocks v) true (ServViaCc v) v) else mret tt);
    mret svsock
  else if contype =? C_YYMUX then ask ConnectViaYYMUX
  else if contype =? C_SOCKS then via_socks only
  else if contype =? C_UDP then ask (UDP_client_open (DST_PROTO c) (DST_HOST c) (DST_PORT c))
  else mret (-1).
Definition proxy_type (contype : Z) : bool :=
  existsb (Z.eqb contype) [C_CACHE; C_ICP; C_PROXY; C_MASTER].
(** The loop over the order: the socket and the last method, or that the
    search is given up. *)
Fixpoint orders_loop (first : bool) (order : list Z) (svsock last : Z) : cn (option (Z * Z)) :=
  match order with
  | [] => mret (Some (svsock, last))
  | contype :: order' =>
      if negb (svsock =? -1) then mret (Some (svsock, last))
      else if contype =? C_NONE_ then _ ← setv (set_ConnType C_NONE_); mret None
      else if tryProxyOnly E && negb (proxy_type contype) then mret None
      else
        svsock ← connect_by contype (first && bool_decide (order' = []));
        orders_loop false order' svsock contype
  end.
(** The result is the value returned, with [*svsockp]. *)
Definition tryCONNECT : cn (Z * Z) :=
  _ ← change (fun st => put_misc (-1) (MasterXo st) (BREAK_STICKY st) st);
  st ← get;
  if k_ConnectX st =? 0 then mret (0, -1)
  else
    _ ← (if co_setup st then mret tt else setupConnect);
    st ← get;
    if co_routex st <? 0 then mret (0, -1)
    else if co_nonet st then mret (-1, -1)
    else
      Rp ← liftk (Connects cf !! Z.to_nat (co_routex st));
      r ← orders_loop true (m_conn Rp) (-1) 0;
      match r with
      | None => mret (-1, -1)
      | Some (svsock, contype) =>
          _ ← (if 0 <=? svsock then setv (set_ConnType contype) else mret tt);
          mret (1, svsock)
      end.

(** *** The source address *)
Definition isCLIFHOST (host : list Z) : bool :=
  bool_decide (strtailstr host (cs "clif.-") <> None) && bool_decide (CLIF_HOST E <> []).
Fixpoint fmt_X_loop (fuel : nat) (z : Z) (out : list Z) : list Z :=
  match fuel with
  | O => out
  | S fuel' => let out := hexUpper (z mod 16) :: out in
               if z / 16 =? 0 then out else fmt_X_loop fuel' (z / 16) out
  end.
Definition fmt_X (z : Z) : list Z := fmt_X_loop 8 (z mod 2 ^ 32) [].
Definition srcif_host (Rp : Route) : list Z :=
  if isCLIFHOST (m_gw_host Rp) then CLIF_HOST E else m_gw_host Rp.
Definition srcif_text (Rp : Route) : list Z := srcif_host Rp ++ COLON :: fmt_X (m_gw_port Rp).
Definition find_SRCIF (proto host : list Z) : cn (option Route) :=
  c ← kconn;
  routex ← run_acc (findRoute env henv penv cf (Srcif cf) proto host (Client_Host c));
  if 0 <=? routex then liftk (Some <$> Srcif cf !! Z.to_nat routex) else mret None.
Definition set_SRCIF (proto host : list Z) : cn unit :=
  Rp ← find_SRCIF proto host;
  change (match Rp with
          | Some Rp => put_src (srcif_text Rp)
                         (if streq (m_gw_host Rp) [STAR] then [] else m_gw_host Rp) (m_gw_port Rp)
          | None => put_src [] [] 0
          end).
Definition SRCIFHPfor (proto host : list Z) : cn (option (list Z)) :=
  Rp ← find_SRCIF proto host; mret (srcif_text <$> Rp).
(** [lhost] and [lport] are what the caller has there. *)
Definition SRCIFfor (proto rhost lhost : list Z) (lport : Z) : cn (option (list Z * Z)) :=
  Rp ← find_SRCIF proto rhost;
  mret ((fun Rp =>
    (if isCLIFHOST (m_gw_host Rp) then CLIF_HOST E
     else if negb (cat (m_gw_host Rp) 0 =? STAR) then m_gw_host Rp else lhost,
     if negb (m_gw_port Rp =? 0) then m_gw_port Rp else lport)) <$> Rp).
Definition print_SRCIF (host : list Z) (port : Z) : list Z :=
  (if bool_decide (host = []) then [STAR] else host) ++ COLON ::
  (if negb (Z.land port 4294901760 =? 0)
   then fmt_d (Z.land 65535 (Z.shiftr port 16)) ++ DASH :: fmt_d (Z.land 65535 port)
   else if port =? 0 then [DASH] else fmt_d port).

(** *** [connect_to_serverY] *)

(** The order built in, when no [CONNECT] applies.  A method gets the socket
    of the one before it, and says whether it is connected. *)
Definition method : Type := Z -> cn (bool * Z).
Definition via_icp : method := fun _ =>
  svsock ← ask ConnectViaICP;
  if svsock <? 0 then mret (false, svsock)
  else
    v ← vars;
    n ← (if negb (toMaster v =? 0) then ask (connect_master (-1) svsock false) else mret 0);
    if n =? 0
    then _ ← setServ svsock; _ ← setv (set_ConnType C_ICP); mret (true, svsock)
    else _ ← ask (close svsock); mret (false, svsock).
Definition via_forward : method := fun svsock =>
  ok ← forwardit;
  if (ok : bool) then _ ← setv proxy_conn_type; v ← vars; mret (true, ToS v) else mret (false, svsock).
Definition by_default (p : cn Z) (serv : bool) (ctype : Z) : method := fun _ =>
  svsock ← p;
  if 0 <=? svsock
  then
    _ ← (if serv then setServ svsock else mret tt);
    _ ← setv (set_ConnType ctype);
    mret (true, svsock)
  else mret (false, svsock).
Definition directly : method := fun svsock =>
  c ← kconn;
  if has (ConnectFlags c) COF_NONDIRECT then mret (false, svsock)
  else by_default ConnectToServer false C_DIRECT svsock.
Fixpoint first_of (l : list method) (svsock : Z) : cn (bool * Z) :=
  match l with
  | [] => mret (false, svsock)
  | m :: l' => '(ok, svsock) ← m svsock;
               if (ok : bool) then mret (true, svsock) else first_of l' svsock
  end.
Definition default_methods (host : list Z) (port : Z) : list method :=
  [via_icp; via_forward] ++
  (if tryProxyOnly E then [fun _ => mret (false, -1)]
   else [by_default (open_master true host port true) true C_MASTER;
         by_default (ask (ConnectViaSSLtunnel host port)) true C_SSLTUNNEL;
         by_default (ask ConnectViaYYMUX) false C_YYMUX;
         by_default ConnectViaVSAP false C_VSAP;
         by_default ConnectViaSocks false C_SOCKS;
         directly]).
(** [connectToCache] ([src/ccache.cpp]): a connection that was kept. *)
Definition connectToCache : cn (option Z) :=
  sock ← ask tryOpen;
  if 0 <=? sock then _ ← setv (fun v => set_via (ServViaSocks v) (ServViaVSAP v) true v); mret (Some sock)
  else mret None.
Definition connected (host : list Z) (svsock : Z) : cn Z :=
  v ← vars;
  _ ← (if (ConnType v =? C_DIRECT) || (ConnType v =? C_SOCKS)
       then _ ← ask (forward_RIDENT (ConnType v) svsock); mret tt else mret tt);
  _ ← (if 0 <=? svsock then run_acc (emit (addtoHostSet (cs "server") host (getpeerName E svsock)))
       else mret tt);
  mret svsock.
(** The part behind the checks. *)
Definition C_REUSED : Z := 82.
Definition connect_methods (proto host : list Z) (port : Z) : cn Z :=
  kept ← (if negb (streq proto (cs "http")) && negb (streq proto (cs "https")) && negb (tryProxyOnly E)
          then connectToCache else mret None);
  match kept with
  | Some svsock => _ ← setServ svsock; _ ← setv (set_ConnType C_REUSED); connected host svsock
  | None =>
      '(tried, svsock) ← tryCONNECT;
      if negb (tried =? 0) then _ ← setServ svsock; connected host svsock
      else
        '(ok, svsock) ← first_of (default_methods host port) svsock;
        if (ok : bool) then connected host svsock else mret svsock
  end.
Definition internal_server (proto host : list Z) (port : Z) : bool :=
  (port =? 0) || (isMYSELF E host && strcaseeq proto (cs "smtp"))
  || strcaseeq proto (cs "dump") || strcaseeq proto (cs "pgps").
Definition service_permitted (service : list Z) : cn bool :=
  run_acc (service_permitted2 env henv penv services cf service 0).
Definition connect_to_serverY (proto host : list Z) (port : Z) : cn Z :=
  _ ← setv (fun v => set_toMaster 0 (set_FromSX (-1) (set_socks (-1) (-1) v)));
  if internal_server proto host port then mret (-1)
  else
    ok ← service_permitted proto;
    if negb ok then mret (-1)
    else
      c ← kconn;
      if has (co_mask E) CONN_DIRECTONLY
      then ask (client_open (DFLT_PROTO c) (DST_PROTO c) (DST_HOST c) (DST_PORT c))
      else
        _ ← setupConnect;
        _ ← set_SRCIF proto host;
        connect_methods proto host port.
(** [initConnect], for the next request of a connection. *)
Definition initConnect : cn unit :=
  change (fun st => put_setup (k_ConnectX st) false (co_routex st) (co_nonet st) (co_nointernal st)
                      (DELEGATE_CACHE_CONTROL st) st).
End connect.
