(* ===== verification/AccessSpec.v ===== *)
(** * Access control: what the tables mean

    The policy of a configuration, as a boolean over its lists, and the proof
    that the program decides by it: [PERMITTED_ACCESS], [service_permitted2]
    and [method_permittedX].  A route applies to a request when its three
    lists hold; of the [REJECT]s that apply the first one decides, and of the
    [PERMIT]s as well. *)
From S2P Require Import Prelude Strings Glob ScanList ListOps Service ProtoV StrId.
From S2P Require Import HashTab HostAddr HostMatch HostSpec HostParse HostText Route Access.
From stdpp Require Import options.

(** ** Runs of programs *)
Definition with_conn (st : ac_st) (c : Connection) : ac_st :=
  AcSt c (s_ci st) (s_peer st) (s_events st).
Lemma bind_run {A B} (p : acc A) (f : A -> acc B) st a st1 :
  p st = Some (a, st1) -> (p ≫= f) st = f a st1.
Proof. unfold mbind, acc_bind. by intros ->. Qed.
Lemma with_conn_conn st : with_conn st (s_conn st) = st.
Proof. by destruct st. Qed.

Lemma set_reason_id c : set_reason (reject_reason c) c = c.
Proof. by destruct c. Qed.
Lemma set_forreject_back c : forreject c = false -> set_forreject false (set_forreject true c) = c.
Proof. destruct c. simpl. by intros ->. Qed.

Section spec.
Context {T : Type} `{IdTable T} (env : ac_env) (henv : hl_env) (penv : hp_env).
Variable services : list Service.
Variable cf : rt_st T.

(** No item of a list refers to a list that is not there, or has an empty
    list of protocols or users. *)
Definition lists_wf (hp : hp_st T) : Prop := Forall (list_wf (tab_of hp)) (p_store hp).
Hypothesis Hwf : lists_wf (r_hp cf).

Lemma get_list_wf r : list_wf (tab_of (r_hp cf)) (get_list (r_hp cf) r).
Proof using Hwf.
  unfold get_list. rewrite nth_lookup. destruct (p_store (r_hp cf) !! r) as [hl|] eqn:E.
  - unfold lists_wf in Hwf. rewrite Forall_lookup in Hwf. by eapply Hwf.
  - constructor.
Qed.
Lemma tab_of_wf : tab_wf (tab_of (r_hp cf)).
Proof using Hwf.
  intros i hl. unfold tab_of. destruct (p_tab (r_hp cf) !! i) as [r|]; [|done].
  intros [= <-]. apply get_list_wf.
Qed.

(** ** The policy *)
Section policy.
Variables (ci : ClientInfo) (peer : vaddr) (c : Connection).

(** The answer of a list. *)
Definition asks (hl : HostList) (proto : option (list Z)) (host : list Z) (port : Z)
  (user : option (list Z)) (av : list AuthInfo) : bool :=
  match CTX_hostIsinListX henv penv ci hl proto host port user av (r_hp cf) peer with
  | Ret hi _ => negb (hi =? 0)
  | _ => false
  end.
(** The user of the client and its authentications. *)
Definition the_user : option (list Z) :=
  let suser := getClientIdentH0 env (Client_Host c) (Client_Port c) in
  if bool_decide (suser = None) && no_authcheck c then Some hostmatch_ignauth else suser.
Definition the_auths : list AuthInfo :=
  (if bool_decide (i_user (ClientAuth c) <> []) then [ClientAuth c] else [])
  ++ (if bool_decide (i_user (ClientCert c) <> []) then [ClientCert c] else []).

Variables (shost : list Z) (sport : Z).
Section pair.
Variables (proto dhost : list Z) (dport : Z).
Definition dst_proto (fr : bool) : list Z :=
  if negb (no_dstcheck_proto c =? 0) && (no_dstcheck_proto c =? serviceport services proto)
     && negb fr then [STAR] else proto.
(** The server of a route that is looked at: [None] when the list of
    protocols does not matter. *)
Definition chosen (fr : bool) (Rp : Route) : option (option Server) :=
  match m_protoV Rp with
  | Some V => if negb (no_dstcheck c) || fr
              then Some (protoMatch1 (no_dstcheck_port c) V (dst_proto fr) dport) else None
  | None => None
  end.
Definition route_applies (fr : bool) (Rp : Route) : bool :=
  (match chosen fr Rp with Some None => false | _ => true end)
  && negb (fr && no_dstcheck c && negb (lDOSRCREJECT env) && negb (hostListIsAny (dsts cf Rp)))
  && (no_dstcheck c || asks (dsts cf Rp) (Some proto) dhost dport (DST_USER c) [])
  && asks (srcs cf Rp) None shost sport the_user the_auths.
Definition route_verdict (fr : bool) (method : option (list Z)) (Rp : Route) : bool :=
  match chosen fr Rp with
  | Some (Some pl) => default false (methodMatch fr pl method)
  | _ => true
  end.
Definition first_verdict (fr : bool) (method : option (list Z)) (l : list Route) : bool :=
  match find (route_applies fr) l with
  | Some Rp => route_verdict fr method Rp
  | None => false
  end.
Definition remittable (method : option (list Z)) : bool :=
  no_dstcheck c ||
  match Remittable cf with
  | Some V => match protoMatch1 (no_dstcheck_port c) V (dst_proto false) dport with
              | Some pl => default false (methodMatch false pl method)
              | None => false
              end
  | None => true
  end.
Definition rejected (method : option (list Z)) : bool := first_verdict true method (Rejects cf).
Definition permitted (method : option (list Z)) : bool :=
  remittable method
  && (bool_decide (Permits cf = []) || first_verdict false method (Permits cf)).
End pair.

Definition screened : bool := negb (Z.land (ConnectFlags c) COF_SCREENED =? 0).
Definition reliable : bool :=
  (hl_cnt (ReliableList cf) =? 0)
  || asks (ReliableList cf) (Some (DFLT_PROTO c)) shost sport the_user the_auths.
Definition reachable : bool :=
  (hl_cnt (ReachableList cf) =? 0) || no_dstcheck c
  || asks (ReachableList cf) (Some (DST_PROTO c)) (DST_HOST c) (DST_PORT c) (DST_USER c) [].
Definition policy : bool :=
  negb screened && reliable && reachable
  && PERMITTED_PORT env services c (DST_PROTO c) (DST_HOST c) (DST_PORT c)
  && negb (rejected (DST_PROTO c) (DST_HOST c) (DST_PORT c) None)
  && permitted (DST_PROTO c) (DST_HOST c) (DST_PORT c) None.
End policy.

(** Without a method, the lists of methods matter in a [REJECT] only. *)
Lemma remittable_none c proto dport : remittable c proto dport None =
  no_dstcheck c ||
  match Remittable cf with
  | Some V => bool_decide (is_Some (protoMatch1 (no_dstcheck_port c) V (dst_proto c proto false) dport))
  | None => true
  end.
Proof using.
  unfold remittable. destruct (Remittable cf) as [V|]; [|done].
  destruct (protoMatch1 _ _ _ _) as [pl|]; [|by rewrite bool_decide_false by (by intros [? ?])].
  rewrite methodMatch_none, orb_true_r, bool_decide_true by done. done.
Qed.
Lemma first_verdict_permit ci peer c shost sport proto dhost dport l :
  first_verdict ci peer c shost sport proto dhost dport false None l =
  existsb (route_applies ci peer c shost sport proto dhost dport false) l.
Proof using.
  unfold first_verdict. induction l as [|Rp l IH]; cbn [find existsb]; [done|].
  destruct (route_applies _ _ _ _ _ _ _ _ _ Rp); [|exact IH]. cbn [orb].
  unfold route_verdict. destruct (chosen _ _ _ _ _) as [[pl|]|]; [|done..].
  by rewrite methodMatch_none, orb_true_r.
Qed.

(** ** The program *)

(** A client whose address is known, who has no other peer behind it. *)
Definition known (st : ac_st) (c : Connection) : Prop :=
  0 < Client_Port c /\ has (a_flags (s_peer st)) VA_REMOTE = false.

Lemma conn_run st : conn st = Some (s_conn st, st).
Proof using. done. Qed.
Lemma upd_run st f : upd f st = Some (tt, with_conn st (f (s_conn st))).
Proof using. done. Qed.

Lemma VA_getClientAddr_run st : known st (s_conn st) -> VA_getClientAddr env st = Some (true, st).
Proof using.
  intros [Hp _]. unfold VA_getClientAddr. erewrite bind_run by apply conn_run.
  rewrite (proj2 (Z.eqb_neq (Client_Port (s_conn st)) 0)) by lia. cbn [andb negb].
  rewrite andb_false_r. erewrite bind_run by done. erewrite bind_run by apply conn_run.
  rewrite (proj2 (Z.eqb_neq (Client_Port (s_conn st)) 0)) by lia. cbn [andb].
  erewrite bind_run by done. erewrite bind_run by apply conn_run.
  by rewrite (proj2 (Z.ltb_lt _ _) Hp).
Qed.
Lemma getClientHostPort_run st : known st (s_conn st) ->
  getClientHostPort env st = Some ((Client_Host (s_conn st), Client_Port (s_conn st)), st).
Proof using.
  intros Hk. unfold getClientHostPort. erewrite bind_run by (by apply VA_getClientAddr_run).
  erewrite bind_run by apply conn_run. destruct Hk as [Hp _].
  by rewrite (proj2 (Z.leb_gt _ _) Hp).
Qed.
Lemma client_user_run st : known st (s_conn st) ->
  client_user env st = Some (the_user (s_conn st), st).
Proof using.
  intros Hk. unfold client_user, getClientUserC, the_user. erewrite bind_run.
  2: { erewrite bind_run by (by apply VA_getClientAddr_run). by erewrite bind_run by apply conn_run. }
  by erewrite bind_run by apply conn_run.
Qed.
Lemma auths_run st : getClientAuthList st = Some (the_auths (s_conn st), st).
Proof using. done. Qed.
Lemma hostIsin_run st hl proto host port user av :
  list_wf (tab_of (r_hp cf)) hl -> has (a_flags (s_peer st)) VA_REMOTE = false ->
  hostIsin henv penv cf hl proto host port user av st =
  Some (asks (s_ci st) (s_peer st) hl proto host port user av, st).
Proof using Hwf.
  intros Hl Hp. unfold hostIsin, asks, CTX_hostIsinListX.
  destruct (hostIsinListX_answers henv (tab_of (r_hp cf)) (s_ci st) (s_peer st) Hp hl
    (ask_query penv hl proto host port user av) tab_of_wf Hl) as (hi & -> & _).
  by destruct st.
Qed.

Lemma permit_loop_run try (r : Route -> option bool) st l :
  (forall Rp, try Rp st = Some (r Rp, st)) ->
  permit_loop try l st =
  Some (match find (fun Rp => bool_decide (r Rp <> None)) l with
        | Some Rp => default false (r Rp)
        | None => false
        end, st).
Proof using.
  intros Hr. induction l as [|Rp l IH]; cbn [permit_loop find]; [done|].
  erewrite bind_run by apply Hr. destruct (r Rp) as [b|] eqn:E.
  - rewrite bool_decide_true by done. by rewrite E.
  - rewrite bool_decide_false by (intros Hn; by apply Hn). apply IH.
Qed.

Section run.
Variables (st : ac_st) (shost : list Z) (sport : Z) (proto dhost : list Z) (dport : Z)
  (method : option (list Z)).
Abbreviation c := (s_conn st).
Hypothesis Hk : known st c.

Lemma permit_route_run Rp :
  permit_route env henv penv cf c (dst_proto c proto (forreject c)) proto method dhost dport
    shost sport (the_user c) (the_auths c) Rp st =
  Some (if route_applies (s_ci st) (s_peer st) c shost sport proto dhost dport (forreject c) Rp
        then Some (route_verdict c proto dport (forreject c) method Rp) else None, st).
Proof using Hwf Hk.
  destruct Hk as [_ Hp].
  assert (Hrest : forall (m : acc (option bool)) v,
    m st = Some (Some v, st) ->
    (if forreject c && no_dstcheck c && negb (lDOSRCREJECT env) && negb (hostListIsAny (dsts cf Rp))
     then mret None
     else
       isdst ← (if no_dstcheck c then mret true
                else hostIsin henv penv cf (dsts cf Rp) (Some proto) dhost dport (DST_USER c) []);
       if negb isdst then mret None
       else
         issrc ← hostIsin henv penv cf (srcs cf Rp) None shost sport (the_user c) (the_auths c);
         if negb issrc then mret None else m) st =
    Some (if negb (forreject c && no_dstcheck c && negb (lDOSRCREJECT env)
                   && negb (hostListIsAny (dsts cf Rp)))
             && (no_dstcheck c || asks (s_ci st) (s_peer st) (dsts cf Rp) (Some proto) dhost dport
                                    (DST_USER c) [])
             && asks (s_ci st) (s_peer st) (srcs cf Rp) None shost sport (the_user c) (the_auths c)
          then Some v else None, st)).
  { intros m v Hm. destruct (forreject c && _ && _ && _); [done|]. cbn [negb andb].
    assert (E : (if no_dstcheck c then mret true
       else hostIsin henv penv cf (dsts cf Rp) (Some proto) dhost dport (DST_USER c) []) st =
       Some (no_dstcheck c || asks (s_ci st) (s_peer st) (dsts cf Rp) (Some proto) dhost dport
               (DST_USER c) [], st)).
    { destruct (no_dstcheck c); [done|]. apply hostIsin_run; [apply get_list_wf|done]. }
    erewrite bind_run by exact E. destruct (no_dstcheck c || _); [|done]. cbn [negb andb].
    erewrite bind_run by (apply hostIsin_run; [apply get_list_wf|done]).
    by destruct (asks _ _ (srcs cf Rp) _ _ _ _ _). }
  unfold permit_route, route_applies, route_verdict. fold (chosen c proto dport (forreject c) Rp).
  destruct (chosen c proto dport (forreject c) Rp) as [[pl|]|]; cbn [andb]; [|done|].
  - apply Hrest. destruct (methodMatch_some (forreject c) pl method) as [b Hb].
    by rewrite Hb.
  - by apply Hrest.
Qed.

(** The table that is asked. *)
Lemma routes_run :
  permit_loop (permit_route env henv penv cf c (dst_proto c proto (forreject c)) proto method dhost
    dport shost sport (the_user c) (the_auths c)) (if forreject c then Rejects cf else Permits cf) st =
  Some (first_verdict (s_ci st) (s_peer st) c shost sport proto dhost dport (forreject c) method
          (if forreject c then Rejects cf else Permits cf), st).
Proof using Hwf Hk.
  erewrite permit_loop_run by apply permit_route_run. unfold first_verdict. do 2 f_equal.
  generalize (if forreject c then Rejects cf else Permits cf). intros l.
  induction l as [|Rp l IH]; cbn [find]; [done|].
  destruct (route_applies _ _ _ _ _ _ _ _ _ Rp) eqn:E.
  - rewrite bool_decide_true by done. by rewrite E.
  - rewrite bool_decide_false by (intros Hn; by apply Hn). exact IH.
Qed.

(** A refusal by [REMITTABLE] has its reason. *)
Definition reason_of (x : list Z) (verdict : bool) : Prop :=
  x = reject_reason c \/ x <> [] /\ verdict = false.
Lemma permitMX_permit : forreject c = false ->
  let verdict := permitted (s_ci st) (s_peer st) c shost sport proto dhost dport method in
  exists x, DELEGATE_permitMX env henv penv services cf proto method dhost dport shost sport
    (the_user c) (the_auths c) st = Some (verdict, with_conn st (set_reason x c)) /\
    reason_of x verdict.
Proof using Hwf Hk.
  intros Hfr. unfold DELEGATE_permitMX, permitted, remittable. erewrite bind_run by apply conn_run.
  fold (dst_proto c proto (forreject c)).
  pose proof routes_run as Hroutes. rewrite Hfr in *. cbn [negb andb].
  assert (Hc : with_conn st (set_reason (reject_reason c) c) = st)
    by (by rewrite set_reason_id, with_conn_conn).
  assert (Htab : exists x, (if bool_decide (Permits cf = []) then mret true
    else permit_loop (permit_route env henv penv cf c (dst_proto c proto false) proto method dhost
           dport shost sport (the_user c) (the_auths c)) (Permits cf)) st =
    Some (bool_decide (Permits cf = []) || first_verdict (s_ci st) (s_peer st) c shost sport proto
            dhost dport false method (Permits cf), with_conn st (set_reason x c)) /\
    reason_of x (bool_decide (Permits cf = []) || first_verdict (s_ci st) (s_peer st) c shost sport
            proto dhost dport false method (Permits cf))).
  { exists (reject_reason c). rewrite Hc. split; [|by left].
    destruct (bool_decide (Permits cf = [])); [done|exact Hroutes]. }
  destruct (Remittable cf) as [V|]; [|by rewrite orb_true_r; erewrite bind_run by done].
  destruct (no_dstcheck c); cbn [negb orb andb]; [by erewrite bind_run by done|].
  destruct (protoMatch1 _ V _ dport) as [pl|].
  - destruct (methodMatch_some false pl method) as [b ->]. erewrite bind_run by done.
    destruct b; [exact Htab|]. exists (reject_reason c). rewrite Hc. split; [done|by left].
  - exists (cs "'" ++ proto ++ cs "' is not REMITTABLE"). erewrite bind_run by done.
    split; [done|by right].
Qed.
Lemma permitMX_reject : forreject c = true -> Rejects cf <> [] ->
  DELEGATE_permitMX env henv penv services cf proto method dhost dport shost sport
    (the_user c) (the_auths c) st =
  Some (rejected (s_ci st) (s_peer st) c shost sport proto dhost dport method, st).
Proof using Hwf Hk.
  intros Hfr Hne. unfold DELEGATE_permitMX, rejected. erewrite bind_run by apply conn_run.
  fold (dst_proto c proto (forreject c)).
  pose proof routes_run as Hroutes. rewrite Hfr in *. cbn [negb andb].
  erewrite bind_run by (by destruct (Remittable cf)). cbn [negb].
  by rewrite bool_decide_false by done.
Qed.
Lemma permitM_run b st1 :
  DELEGATE_permitMX env henv penv services cf proto method dhost dport shost sport
    (the_user c) (the_auths c) st = Some (b, st1) ->
  DELEGATE_permitM env henv penv services cf proto method dhost dport shost sport st = Some (b, st1).
Proof using Hwf Hk.
  intros E. unfold DELEGATE_permitM. erewrite bind_run by (by apply client_user_run).
  erewrite bind_run by apply auths_run. exact E.
Qed.
End run.

(** The two questions of [PERMITTED_ACCESS] and [method_permittedX]. *)
Lemma permitM_spec st shost sport proto dhost dport method : known st (s_conn st) ->
  forreject (s_conn st) = false ->
  let verdict := permitted (s_ci st) (s_peer st) (s_conn st) shost sport proto dhost dport method in
  exists x, DELEGATE_permitM env henv penv services cf proto method dhost dport shost sport st =
  Some (verdict, with_conn st (set_reason x (s_conn st))) /\ reason_of st x verdict.
Proof using Hwf.
  intros Hk Hfr. destruct (permitMX_permit st shost sport proto dhost dport method Hk Hfr)
    as (x & E & Hx). exists x. split; [by apply permitM_run|done].
Qed.
Lemma rejectM_spec st shost sport proto dhost dport method : known st (s_conn st) ->
  forreject (s_conn st) = false ->
  DELEGATE_rejectM env henv penv services cf proto method dhost dport shost sport st =
  Some (rejected (s_ci st) (s_peer st) (s_conn st) shost sport proto dhost dport method, st).
Proof using Hwf.
  intros Hk Hfr. unfold DELEGATE_rejectM. case_bool_decide as Hr.
  { unfold rejected. by rewrite Hr. }
  erewrite bind_run by apply upd_run.
  erewrite bind_run by (apply permitM_run; [done|by apply permitMX_reject]).
  erewrite bind_run by apply upd_run. unfold with_conn. cbn [s_conn s_ci s_peer s_events].
  rewrite set_forreject_back by done. by destruct st.
Qed.

Lemma RELIABLE_HOST_run st shost sport : known st (s_conn st) ->
  RELIABLE_HOST env henv penv cf (ReliableList cf) shost sport st =
  Some (reliable (s_ci st) (s_peer st) (s_conn st) shost sport, st).
Proof using Hwf.
  intros Hk. unfold RELIABLE_HOST, reliable. destruct (hl_cnt (ReliableList cf) =? 0); [done|].
  erewrite bind_run by (by apply client_user_run). erewrite bind_run by apply auths_run.
  erewrite bind_run by apply conn_run. apply hostIsin_run; [|apply Hk].
  unfold ReliableList. destruct (rt_routes _); [constructor|apply get_list_wf].
Qed.
Lemma REACHABLE_HOST_run st : known st (s_conn st) ->
  let c := s_conn st in
  REACHABLE_HOST henv penv cf true (ReachableList cf) (Some (DST_PROTO c)) (DST_HOST c) (DST_PORT c) st =
  Some (reachable (s_ci st) (s_peer st) c, st).
Proof using Hwf.
  intros Hk c. unfold REACHABLE_HOST, reachable. erewrite bind_run by apply conn_run.
  destruct (hl_cnt (ReachableList cf) =? 0); [done|]. cbn [andb orb]. fold c.
  destruct (no_dstcheck c); [done|]. apply hostIsin_run; [|apply Hk].
  unfold ReachableList. destruct (rt_routes _); [constructor|apply get_list_wf].
Qed.

(** The decision and its reason, which is there exactly when it is a
    refusal. *)
Lemma PERMITTED_ACCESS_spec st shost sport stdport : known st (s_conn st) ->
  forreject (s_conn st) = false ->
  let verdict := policy (s_ci st) (s_peer st) (s_conn st) shost sport in
  exists x, PERMITTED_ACCESS env henv penv services cf shost sport stdport st =
    Some (verdict, with_conn st (set_reason x (s_conn st))) /\ (x = [] <-> verdict = true).
Proof using Hwf.
  intros Hk Hfr. cbv zeta. unfold PERMITTED_ACCESS, policy. erewrite bind_run by apply upd_run.
  set (st1 := with_conn st (set_reason [] (s_conn st))).
  assert (Hrefuse : forall s, s <> [] ->
    exists x, refuse s st1 = Some (false, with_conn st (set_reason x (s_conn st))) /\
      (x = [] <-> false = true)) by (intros s Hs; by exists s).
  erewrite bind_run by apply conn_run.
  change (negb (Z.land (ConnectFlags (s_conn st1)) COF_SCREENED =? 0)) with (screened (s_conn st)).
  destruct (screened (s_conn st)); cbn [negb andb]; [by apply Hrefuse|].
  erewrite bind_run by (by apply RELIABLE_HOST_run).
  change (reliable (s_ci st1) (s_peer st1) (s_conn st1) shost sport)
    with (reliable (s_ci st) (s_peer st) (s_conn st) shost sport).
  destruct (reliable _ _ _ _ _); cbn [negb andb]; [|by apply Hrefuse].
  unfold PERMITTED_USER. cbn [negb]. erewrite bind_run by apply conn_run.
  erewrite bind_run by (by apply REACHABLE_HOST_run).
  change (reachable (s_ci st1) (s_peer st1) (s_conn st1))
    with (reachable (s_ci st) (s_peer st) (s_conn st)).
  destruct (reachable _ _ _); cbn [negb andb]; [|by apply Hrefuse].
  change (PERMITTED_PORT env services (s_conn st1) (DST_PROTO (s_conn st1)) (DST_HOST (s_conn st1))
            (DST_PORT (s_conn st1)))
    with (PERMITTED_PORT env services (s_conn st) (DST_PROTO (s_conn st)) (DST_HOST (s_conn st))
            (DST_PORT (s_conn st))).
  destruct (PERMITTED_PORT _ _ _ _ _ _); cbn [negb andb]; [|by apply Hrefuse].
  erewrite bind_run by (by apply rejectM_spec).
  change (rejected (s_ci st1) (s_peer st1) (s_conn st1)) with (rejected (s_ci st) (s_peer st) (s_conn st)).
  change (DST_PROTO (s_conn st1)) with (DST_PROTO (s_conn st)).
  change (DST_HOST (s_conn st1)) with (DST_HOST (s_conn st)).
  change (DST_PORT (s_conn st1)) with (DST_PORT (s_conn st)).
  destruct (rejected _ _ _ _ _ _ _ _ _); cbn [negb andb]; [by apply Hrefuse|].
  destruct (permitM_spec st1 shost sport (DST_PROTO (s_conn st)) (DST_HOST (s_conn st))
    (DST_PORT (s_conn st)) None Hk Hfr) as (x & E & Hx).
  erewrite bind_run by exact E. clear E.
  change (permitted (s_ci st1) (s_peer st1) (s_conn st1))
    with (permitted (s_ci st) (s_peer st) (s_conn st)) in *.
  destruct (permitted _ _ _ _ _ _ _ _ _); cbn [negb].
  - destruct Hx as [->|[_ ?]]; [|done]. by exists [].
  - erewrite bind_run by apply conn_run.
    change (reject_reason (s_conn (with_conn st1 (set_reason x (s_conn st1))))) with x.
    case_bool_decide as Ex; [by exists (cs "unmatch PERMIT")|by exists x].
Qed.

(** *** The whole request *)

(** What [CTX_pushClientInfo] and [HL_popClientInfo] leave. *)
Definition pushed (ci : ClientInfo) (c : Connection) : ClientInfo :=
  MkClient (Time env).1 (Time env).2 (Client_VAddr c)
    (if ClientSock c <? 0 then AddrZero else VA_HostPortIFclnt env (ClientSock c))
    (clientHost ci) (e_agentname ci) (from_myself c).
Definition popped (ci : ClientInfo) : ClientInfo :=
  MkClient (currentTime ci) (currentUsec ci) AddrNull AddrNull (clientHost ci) (e_agentname ci) false.

Definition name_known (c : Connection) : bool :=
  isinetAddr henv (Client_Host c) || hostIsResolvable henv (Client_Host c).

Section request.
Variables (st : ac_st) (service : list Z) (silent : Z).
Abbreviation c := (s_conn st).
(** The client, and the peer behind it when the client told of one. *)
Definition by_client : bool := policy (pushed (s_ci st) c) (s_peer st) c (Client_Host c) (Client_Port c).
Definition by_peer : bool :=
  bool_decide (TeleportHost c = [])
  || policy (popped (pushed (s_ci st) c)) (s_peer st) c (TeleportHost c) (TeleportPort c).
Definition verdict : bool := by_client && by_peer.
Definition peer_decides : bool := by_client && bool_decide (TeleportHost c <> []).
(** What is told of the decision. *)
Definition reports : list ac_event :=
  let shost := if peer_decides then TeleportHost c else Client_Host c in
  let sport := if peer_decides then TeleportPort c else Client_Port c in
  (if silent =? 0 then [addAccHist (if verdict then ACC_OK else ACC_FORBIDDEN)] else []) ++
  if verdict then []
  else (if streq (DST_PROTO c) (cs "ssltunnel") then []
        else [addtoHostSet (cs "rejected") shost (VA_inetNtoah env (Client_VAddr c))]) ++
       (if negb (Z.land silent 2 =? 0) then [logReject shost sport]
        else if silent =? 0
        then [logReject shost sport;
              delayReject (cs "DELEGATE") service shost sport (cs "Forbidden by DeleGate")]
        else []).

Lemma client_name_run : name_known c = true ->
  client_name env henv (Client_Host c) st = Some (Some (Client_Host c), st).
Proof using.
  unfold name_known, client_name. intros [E|E]%orb_prop; rewrite E; cbn [negb andb];
    rewrite ?andb_false_r; done.
Qed.
Lemma emit_run (st1 : ac_st) e :
  emit e st1 = Some (tt, AcSt (s_conn st1) (s_ci st1) (s_peer st1) (s_events st1 ++ [e])).
Proof using. done. Qed.

Lemma service_permitted2_run : from_myself c = false -> known st c -> forreject c = false ->
  name_known c = true ->
  exists x, service_permitted2 env henv penv services cf service silent st =
    Some (verdict,
          AcSt (if verdict then set_reason x c else set_error CO_REJECTED (set_reason x c))
            (popped (pushed (s_ci st) c)) (s_peer st) (s_events st ++ reports)) /\
    (x = [] <-> verdict = true).
Proof using Hwf.
  intros Hmy Hk Hfr Hname. unfold service_permitted2.
  erewrite bind_run by apply conn_run. rewrite Hmy.
  erewrite bind_run by (by apply getClientHostPort_run). cbv beta iota.
  erewrite bind_run by (by apply client_name_run). cbv beta iota.
  rewrite (proj2 (Z.eqb_neq (Client_Port c) 0)) by (destruct Hk; lia).
  set (st1 := AcSt c (pushed (s_ci st) c) (s_peer st) (s_events st)).
  erewrite (bind_run _ _ st tt st1) by done.
  destruct (PERMITTED_ACCESS_spec st1 (Client_Host c) (Client_Port c) (serviceport services service)
    Hk Hfr) as (x1 & E1 & Hx1).
  erewrite bind_run by exact E1. clear E1.
  change (policy (s_ci st1) (s_peer st1) (s_conn st1) (Client_Host c) (Client_Port c))
    with by_client in *.
  set (st2 := AcSt (set_reason x1 c) (popped (pushed (s_ci st) c)) (s_peer st) (s_events st)).
  erewrite (bind_run _ _ _ tt st2) by done. erewrite bind_run by apply conn_run.
  change (TeleportHost (s_conn st2)) with (TeleportHost c).
  change (TeleportPort (s_conn st2)) with (TeleportPort c).
  assert (Hsecond : exists x,
    (if by_client && bool_decide (TeleportHost c <> [])
     then a ← PERMITTED_ACCESS env henv penv services cf (TeleportHost c) (TeleportPort c)
                (serviceport services service);
          mret (a, TeleportHost c, TeleportPort c)
     else mret (by_client, Client_Host c, Client_Port c)) st2 =
    Some ((verdict, if peer_decides then TeleportHost c else Client_Host c,
           if peer_decides then TeleportPort c else Client_Port c),
          with_conn st2 (set_reason x c)) /\ (x = [] <-> verdict = true)).
  { unfold verdict, by_peer, peer_decides. destruct by_client; cbn [andb].
    - destruct (bool_decide_reflect (TeleportHost c = [])) as [Et|Et].
      + rewrite bool_decide_false by (intros Hn; by apply Hn). exists x1. split; [done|]. exact Hx1.
      + rewrite bool_decide_true by done. cbn [orb].
        destruct (PERMITTED_ACCESS_spec st2 (TeleportHost c) (TeleportPort c)
          (serviceport services service) Hk Hfr) as (x2 & E2 & Hx2).
        exists x2. erewrite bind_run by exact E2. split; [done|exact Hx2].
    - exists x1. split; [done|exact Hx1]. }
  destruct Hsecond as (x & E2 & Hx). exists x. split; [|exact Hx].
  erewrite bind_run by exact E2. clear E2. cbv beta iota. unfold reports.
  set (shost := if peer_decides then TeleportHost c else Client_Host c).
  set (sport := if peer_decides then TeleportPort c else Client_Port c).
  assert (Hacc : forall b st', (if silent =? 0
      then emit (addAccHist (if (b : bool) then ACC_OK else ACC_FORBIDDEN)) else mret tt) st' =
    Some (tt, AcSt (s_conn st') (s_ci st') (s_peer st') (s_events st' ++
      (if silent =? 0 then [addAccHist (if b then ACC_OK else ACC_FORBIDDEN)] else [])))).
  { intros b st'. destruct (silent =? 0); [done|]. rewrite app_nil_r. by destruct st'. }
  erewrite bind_run by apply Hacc. clear Hacc.
  destruct verdict; [by rewrite app_nil_r|].
  erewrite bind_run by apply conn_run.
  change (DST_PROTO (s_conn _)) with (DST_PROTO c).
  change (VA_inetNtoah env (Client_VAddr (s_conn _))) with (VA_inetNtoah env (Client_VAddr c)).
  assert (Hset : forall st', (if streq (DST_PROTO c) (cs "ssltunnel") then mret tt
      else emit (addtoHostSet (cs "rejected") shost (VA_inetNtoah env (Client_VAddr c)))) st' =
    Some (tt, AcSt (s_conn st') (s_ci st') (s_peer st') (s_events st' ++
      (if streq (DST_PROTO c) (cs "ssltunnel") then []
       else [addtoHostSet (cs "rejected") shost (VA_inetNtoah env (Client_VAddr c))])))).
  { intros st'. destruct (streq _ _); [|done]. rewrite app_nil_r. by destruct st'. }
  erewrite bind_run by apply Hset. clear Hset.
  assert (Hlog : forall st', (if negb (Z.land silent 2 =? 0) then emit (logReject shost sport)
      else if silent =? 0
      then _ ← emit (logReject shost sport);
           emit (delayReject (cs "DELEGATE") service shost sport (cs "Forbidden by DeleGate"))
      else mret tt) st' =
    Some (tt, AcSt (s_conn st') (s_ci st') (s_peer st') (s_events st' ++
      (if negb (Z.land silent 2 =? 0) then [logReject shost sport]
        else if silent =? 0
        then [logReject shost sport;
              delayReject (cs "DELEGATE") service shost sport (cs "Forbidden by DeleGate")]
        else [])))).
  { intros st'. destruct (negb _); [done|]. destruct (silent =? 0).
    - erewrite bind_run by apply emit_run. unfold emit. cbn [s_conn s_ci s_peer s_events].
      by rewrite <- app_assoc.
    - rewrite app_nil_r. by destruct st'. }
  erewrite bind_run by apply Hlog. clear Hlog.
  erewrite bind_run by apply upd_run. cbn [s_conn s_ci s_peer s_events with_conn st2].
  by rewrite <- !app_assoc.
Qed.
End request.

Lemma method_permittedX_run (st : ac_st) (proto : list Z) (method : option (list Z))
  (igncase : bool) : known st (s_conn st) ->
  forreject (s_conn st) = false ->
  let c := s_conn st in
  let m := if igncase then map toupper <$> method else method in
  let ci := pushed (s_ci st) c in
  let ok := permitted ci (s_peer st) c (Client_Host c) (Client_Port c) proto (DST_HOST c) (DST_PORT c) m
    && negb (rejected ci (s_peer st) c (Client_Host c) (Client_Port c) proto (DST_HOST c) (DST_PORT c) m) in
  exists x, method_permittedX env henv penv services cf proto method igncase st =
    Some (ok, AcSt (set_reason x c) (popped ci) (s_peer st) (s_events st)).
Proof using Hwf.
  intros Hk Hfr. cbv zeta. unfold method_permittedX.
  set (m := if igncase then map toupper <$> method else method). clearbody m.
  erewrite bind_run by (by apply getClientHostPort_run). cbv beta iota.
  set (c := s_conn st). set (st1 := AcSt c (pushed (s_ci st) c) (s_peer st) (s_events st)).
  erewrite (bind_run _ _ st tt st1) by done. erewrite bind_run by apply conn_run.
  destruct (permitM_spec st1 (Client_Host c) (Client_Port c) proto (DST_HOST c) (DST_PORT c) m Hk Hfr)
    as (x & E & _). exists x.
  change (DST_HOST (s_conn st1)) with (DST_HOST c). change (DST_PORT (s_conn st1)) with (DST_PORT c).
  erewrite bind_run by exact E. clear E.
  change (permitted (s_ci st1) (s_peer st1) (s_conn st1))
    with (permitted (pushed (s_ci st) c) (s_peer st) c).
  destruct (permitted _ _ _ _ _ _ _ _ _); cbn [andb]; [|by erewrite bind_run by done].
  set (st2 := with_conn st1 (set_reason x (s_conn st1))).
  erewrite bind_run; cycle 1.
  { erewrite bind_run by apply conn_run.
    erewrite bind_run by (apply (rejectM_spec st2); [exact Hk|exact Hfr]). done. }
  done.
Qed.

(** C1. The decision about a request is the policy of the configuration: a
    client is served exactly when it is not screened, is in [RELIABLE] (or
    that is empty), its server is in [REACHABLE] (or that is empty), the port
    is allowed, the first [REJECT] that applies does not reject it, and it is
    [REMITTABLE] and there are no [PERMIT]s or one that applies; and the
    same for the peer that a teleported client told of.  A reason is recorded
    exactly when the request is refused; the connection is changed only by
    that and the error code, and the decision is reported as [silent] says. *)
Theorem service_permitted2_policy (st : ac_st) (service : list Z) (silent : Z) :
  let c := s_conn st in
  from_myself c = false -> known st c -> forreject c = false -> name_known c = true ->
  let ci := pushed (s_ci st) c in
  let ok := policy ci (s_peer st) c (Client_Host c) (Client_Port c)
            && (bool_decide (TeleportHost c = [])
                || policy (popped ci) (s_peer st) c (TeleportHost c) (TeleportPort c)) in
  exists reason, service_permitted2 env henv penv services cf service silent st =
    Some (ok, AcSt (if ok then set_reason reason c else set_error CO_REJECTED (set_reason reason c))
                (popped ci) (s_peer st) (s_events st ++ reports st service silent)) /\
    (reason = [] <-> ok = true).
Proof using Hwf. intros c Hmy Hk Hfr Hn ci ok. by apply service_permitted2_run. Qed.

(** C12. A method is permitted for a client that is known exactly when the
    tables permit it and do not reject it: [REMITTABLE] and the first [PERMIT]
    that applies to the protocol, the client and the server have it in their
    lists of methods, and the first [REJECT] that applies to them does not;
    later rules are not looked at, whatever methods they have
    ([reject_shadowed]).  Nothing but the recorded reason changes in the
    connection. *)
Theorem method_permittedX_policy (st : ac_st) (proto : list Z) (method : option (list Z))
  (igncase : bool) :
  let c := s_conn st in
  known st c -> forreject c = false ->
  let m := if igncase then map toupper <$> method else method in
  let ci := pushed (s_ci st) c in
  let ok := permitted ci (s_peer st) c (Client_Host c) (Client_Port c) proto (DST_HOST c) (DST_PORT c) m
    && negb (rejected ci (s_peer st) c (Client_Host c) (Client_Port c) proto (DST_HOST c) (DST_PORT c) m) in
  exists reason, method_permittedX env henv penv services cf proto method igncase st =
    Some (ok, AcSt (set_reason reason c) (popped ci) (s_peer st) (s_events st)).
Proof using Hwf. intros c Hk Hfr. cbv zeta. by apply method_permittedX_run. Qed.
(** A client whose name does not resolve: with [RES_VRFY], or when its
    address is no address, it is refused at once, nothing is recorded or
    reported and no list is asked; else the request is decided as of a client
    with the address for its name. *)
Theorem service_permitted2_unresolved (st : ac_st) (service : list Z) (silent : Z) :
  let c := s_conn st in
  let a := Client_VAddr c in
  let addr := VA_inetNtoah env a in
  from_myself c = false -> known st c -> name_known c = false ->
  service_permitted2 env henv penv services cf service silent st =
  if P_RES_VRFY env || negb (isinetAddr henv addr) then Some (false, st)
  else service_permitted2 env henv penv services cf service silent
         (with_conn st (set_addr (VAddr (a_ints a) (a_port a) addr (a_flags a)) c)).
Proof using.
  intros c a addr Hmy Hk Hname. unfold service_permitted2 at 1.
  erewrite bind_run by apply conn_run. fold c. rewrite Hmy.
  erewrite bind_run by (by apply getClientHostPort_run). cbv beta iota.
  set (rest := fun host : option (list Z) => match host with Some _ => _ | None => _ end).
  set (st' := with_conn st _).
  assert (En : client_name env henv (Client_Host c) st =
    if P_RES_VRFY env || negb (isinetAddr henv addr) then Some (None, st) else Some (Some addr, st')).
  { unfold client_name. unfold name_known in Hname. apply orb_false_elim in Hname as [-> ->].
    cbn [negb andb]. erewrite bind_run by apply conn_run. fold c a addr.
    destruct (P_RES_VRFY env); [done|]. cbn [orb]. by destruct (isinetAddr henv addr). }
  destruct (P_RES_VRFY env || negb (isinetAddr henv addr)) eqn:Ev; [by erewrite bind_run by exact En|].
  erewrite bind_run by exact En. unfold service_permitted2.
  erewrite bind_run by apply conn_run. change (from_myself (s_conn st')) with (from_myself c). rewrite Hmy.
  erewrite bind_run by (by apply getClientHostPort_run). cbv beta iota.
  apply orb_false_elim in Ev as [_ Ev%negb_false_iff].
  assert (Eh : client_name env henv addr st' = Some (Some addr, st')) by (unfold client_name; by rewrite Ev).
  change (Client_Host (s_conn st')) with addr. by erewrite bind_run by exact Eh.
Qed.
End spec.

(** ** A configuration *)
Definition host_wfb {T} (hp : hp_st T) (h : Host) : bool :=
  bool_decide (h_proto h <> Some []) && bool_decide (h_user h <> Some [])
  && ((h_listid h =? 0) || bool_decide (is_Some (tab_of hp (h_listid h)))).
Lemma lists_wf_check {T} (hp : hp_st T) :
  forallb (fun hl => forallb (host_wfb hp) (hl_List hl)) (p_store hp) = true -> lists_wf hp.
Proof.
  intros Hb. apply Forall_forall. intros hl Hin. rewrite forallb_forall in Hb.
  apply list_elem_of_In in Hin. specialize (Hb hl Hin). apply Forall_forall. intros h Hh.
  rewrite forallb_forall in Hb. apply list_elem_of_In in Hh. specialize (Hb h Hh).
  apply andb_prop in Hb as [[H1 H2]%andb_prop H3].
  split_and!; [by apply bool_decide_eq_true_1 in H1|by apply bool_decide_eq_true_1 in H2|].
  intros Hid. rewrite (proj2 (Z.eqb_neq _ 0)) in H3 by done.
  by apply bool_decide_eq_true_1 in H3 as [hl' ?]; exists hl'.
Qed.

(** An HTTP proxy for the hosts of a domain. *)
Definition ex_cf : rt_st HTable :=
  default rt_init
    (st ← ex_permit (cs "!*,http,https/{80,443},ftp") rt_init;
     st ← ex_permit (cs "http,ftp//{RETR,LIST}:*:*.dom") st;
     st ← scan_REJECT hp_env0 4 services0 (cs "http") (cs "http:*.evil.org:*,ftp//DELE:*:*") st;
     scan_REJECT hp_env0 4 services0 (cs "http") (cs "ftp//DELE:*:*") st ≫=
     scan_RELIABLE hp_env0 4 (cs "*.dom,!bad.dom")).
Definition ex_env : ac_env :=
  AcEnv (fun _ a => a) (fun _ => AddrZero) (fun _ _ => None) (fun _ => cs "10.0.0.1") (0, 0)
    false false false false (cs "http") 80.
Definition ex_conn (client proto host : list Z) (port : Z) : Connection :=
  MkConn false 5 (VAddr (Addr 167772161 F4 F4 F4) 40000 client 0) [] 0 (MkAuth 0 [] [] 0) []
    (MkAuth 0 [] [] 0) [] true 0 (MkPort (cs "http") [] 0 []) (MkPort proto host port []) 0
    false 0 false false false [].
Definition ex_acst (client proto host : list Z) (port : Z) : ac_st :=
  AcSt (ex_conn client proto host port) ci0 AddrNull [].
Definition ex_serve (client proto host : list Z) (port : Z) : option (bool * list Z * list ac_event) :=
  (fun r => (r.1, reject_reason (s_conn r.2), s_events r.2)) <$>
    service_permitted2 ex_env env0 hp_env0 services0 ex_cf (cs "http") 1 (ex_acst client proto host port).

Example serve_1 : ex_serve (cs "pc.dom") (cs "http") (cs "www.org") 80 = Some (true, [], []).
Proof. vm_compute. reflexivity. Qed.
Example serve_2 : ex_serve (cs "pc.dom") (cs "https") (cs "www.org") 8443 =
  Some (false, cs "'https' is not REMITTABLE", [addtoHostSet (cs "rejected") (cs "pc.dom") (cs "10.0.0.1")]).
Proof. vm_compute. reflexivity. Qed.
Example serve_3 : (fun r => r.1.2) <$> ex_serve (cs "bad.dom") (cs "http") (cs "www.org") 80 =
  Some (cs "'bad.dom' not RELIABLE").
Proof. vm_compute. reflexivity. Qed.

Lemma ex_cf_wf : lists_wf (r_hp ex_cf).
Proof. apply lists_wf_check. vm_compute. reflexivity. Qed.

Lemma service_permitted2_policy_witness :
  exists st', service_permitted2 ex_env env0 hp_env0 services0 ex_cf (cs "http") 0
    (ex_acst (cs "pc.dom") (cs "http") (cs "www.evil.org") 80) = Some (false, st') /\
    ConnError (s_conn st') = CO_REJECTED /\ reject_reason (s_conn st') <> [] /\
    s_events st' = [addAccHist ACC_FORBIDDEN; addtoHostSet (cs "rejected") (cs "pc.dom") (cs "10.0.0.1");
                    logReject (cs "pc.dom") 40000;
                    delayReject (cs "DELEGATE") (cs "http") (cs "pc.dom") 40000
                      (cs "Forbidden by DeleGate")].
Proof.
  destruct (service_permitted2_policy ex_env env0 hp_env0 services0 ex_cf ex_cf_wf
    (ex_acst (cs "pc.dom") (cs "http") (cs "www.evil.org") 80) (cs "http") 0) as (x & E & Hx).
  - reflexivity.
  - split; by vm_compute.
  - reflexivity.
  - reflexivity.
  - eexists. split; [exact E|]. split; [reflexivity|]. split; [|vm_compute; reflexivity].
    intros Hnil. apply Hx in Hnil. vm_compute in Hnil. discriminate.
Defined.

(** No name resolves. *)
Definition env_dark : hl_env :=
  HlEnv (fun _ => false) (isinetAddr env0) (hostcmp_eq env0) (frex_match env0) (VA_hostIFto env0)
    (VA_resolv env0) (addrGroup env0) (matchHostSetX env0) (StrftimeLocal env0).
Lemma service_permitted2_unresolved_witness :
  service_permitted2 ex_env env_dark hp_env0 services0 ex_cf (cs "http") 0
    (ex_acst (cs "pc.dom") (cs "http") (cs "www.org") 80) =
  service_permitted2 ex_env env_dark hp_env0 services0 ex_cf (cs "http") 0
    (ex_acst (cs "10.0.0.1") (cs "http") (cs "www.org") 80).
Proof.
  pose proof (service_permitted2_unresolved ex_env env_dark hp_env0 services0 ex_cf
    (ex_acst (cs "pc.dom") (cs "http") (cs "www.org") 80) (cs "http") 0) as H. cbv zeta in H.
  rewrite H; [reflexivity|reflexivity|split; by vm_compute|reflexivity].
Defined.

(** [ftp//{RETR,LIST}] lets a method through that is in the list. *)
Lemma method_permittedX_policy_witness :
  exists st', method_permittedX ex_env env0 hp_env0 services0 ex_cf (cs "ftp") (Some (cs "retr")) true
    (ex_acst (cs "pc.dom") (cs "ftp") (cs "ftp.org") 21) = Some (true, st') /\
    s_events st' = [].
Proof.
  destruct (method_permittedX_policy ex_env env0 hp_env0 services0 ex_cf ex_cf_wf
    (ex_acst (cs "pc.dom") (cs "ftp") (cs "ftp.org") 21) (cs "ftp") (Some (cs "retr")) true)
    as (x & E).
  - split; by vm_compute.
  - reflexivity.
  - eexists. split; [exact E|reflexivity].
Defined.

(** The first [REJECT] that applies decides also when its list of methods
    does not hold: the second one here is never looked at. *)
Lemma reject_shadowed :
  (fun cf => (fun r => r.1) <$> service_permitted2 ex_env env0 hp_env0 services0 cf (cs "ftp") 1
     (ex_acst (cs "pc.dom") (cs "ftp") (cs "ftp.org") 21)) <$>
  (scan_REJECT hp_env0 4 services0 (cs "http") (cs "ftp//DELE:*:*") rt_init ≫=
   scan_REJECT hp_env0 4 services0 (cs "http") (cs "ftp:*:*")) = Some (Some true).
Proof. vm_compute. reflexivity. Qed.

(** A route without a list of protocols, as [ROUTE] makes them, is asked for
    one. *)
Lemma findRoute_reads_null :
  findRoute ex_env env0 hp_env0 ex_cf
    [MkRoute (cs "socks") (cs "gw") 1080 [] [] None false 0 0 None None false false 0 None None] (cs "http") (cs "www.org")
    (cs "pc.dom") (ex_acst (cs "pc.dom") (cs "http") (cs "www.org") 80) = None.
Proof. vm_compute. reflexivity. Qed.
