(* ===== verification/ConnectSpec.v ===== *)
(** * Connecting to a server: what is tried, and in which order

    A logic of calls: [runs P Q p] says that every call that a run of [p]
    makes satisfies [P] and its result satisfies [Q].  With it: no request is
    sent back to where it came through, nothing is opened for a request that
    is refused, and the methods of a [CONNECT] are tried in its order. *)
From S2P Require Import Prelude VStr Strings Glob ScanList ListOps Service Url ProtoV StrId.
From S2P Require Import HashTab HostAddr HostMatch HostParse HostSpec HostText Route Forward.
From S2P Require Import Access AccessSpec Connect.
From stdpp Require Import options.

Lemma cn_bind_run {A B} (p : cn A) (f : A -> cn B) st a st1 :
  p st = Some (a, st1) -> (p ≫= f) st = f a st1.
Proof. unfold mbind, cn_bind. by intros ->. Qed.
Lemma cn_bind_inv {A B} (p : cn A) (f : A -> cn B) st b st' : (p ≫= f) st = Some (b, st') ->
  exists a st1, p st = Some (a, st1) /\ f a st1 = Some (b, st').
Proof. unfold mbind, cn_bind. destruct (p st) as [[a st1]|]; [|done]. eauto. Qed.

(** ** Calls and results *)
Definition runs {A} (P : cn_call -> Prop) (Q : A -> Prop) (p : cn A) : Prop :=
  forall st a st', p st = Some (a, st') ->
    (exists cs, k_calls st' = k_calls st ++ cs /\ Forall P cs) /\ Q a.
Definition any {A} (_ : A) : Prop := True.

Section logic.
Context {P : cn_call -> Prop}.
Lemma runs_ret {A} (Q : A -> Prop) a : Q a -> runs P Q (mret a).
Proof using. intros HQ st a' st' [= <- <-]. split; [|done]. exists []. by rewrite app_nil_r. Qed.
Lemma runs_seq {A B} (R : A -> Prop) (Q : B -> Prop) p (f : A -> cn B) :
  runs P R p -> (forall a, R a -> runs P Q (f a)) -> runs P Q (p ≫= f).
Proof using.
  intros Hp Hf st b st' (a & st1 & E1 & E2)%cn_bind_inv.
  apply Hp in E1 as [(cs1 & Ec1 & H1) Ha].
  apply (Hf a Ha) in E2 as [(cs2 & Ec2 & H2) Hb]. split; [|done].
  exists (cs1 ++ cs2). rewrite Ec2, Ec1, app_assoc. split; [done|]. by apply Forall_app.
Qed.
Lemma runs_post {A} (Q Q' : A -> Prop) p : (forall a, Q a -> Q' a) -> runs P Q p -> runs P Q' p.
Proof using. intros HQ Hp st a st' E. apply Hp in E as [? ?]. eauto. Qed.
Lemma runs_silent {A} (Q : A -> Prop) (p : cn A) :
  (forall st a st', p st = Some (a, st') -> k_calls st' = k_calls st /\ Q a) -> runs P Q p.
Proof using.
  intros Hp st a st' E. apply Hp in E as [-> ?]. split; [|done]. exists []. by rewrite app_nil_r.
Qed.
Lemma runs_acc {A} (p : acc A) : runs P any (run_acc p).
Proof using.
  apply runs_silent. intros st a st'. unfold run_acc. destruct (p (k_ac st)) as [[b ac]|]; [|done].
  by intros [= <- <-].
Qed.
Lemma runs_change f : (forall st, k_calls (f st) = k_calls st) -> runs P any (change f).
Proof using. intros Hf. apply runs_silent. by intros st a st' [= <- <-]. Qed.
Lemma runs_setv f : runs P any (setv f).
Proof using. by apply runs_change. Qed.
Lemma runs_updc f : runs P any (updc f).
Proof using. apply runs_acc. Qed.
Lemma runs_get : runs P any get.
Proof using. apply runs_silent. by intros st a st' [= <- <-]. Qed.
Lemma runs_vars : runs P any vars.
Proof using. apply runs_silent. by intros st a st' [= <- <-]. Qed.
Lemma runs_kconn : runs P any kconn.
Proof using. apply runs_silent. by intros st a st' [= <- <-]. Qed.
Lemma runs_liftk {A} (o : option A) : runs P (fun a => o = Some a) (liftk o).
Proof using. apply runs_silent. intros st a st'. unfold liftk. destruct o; [|done]. by intros [= <- <-]. Qed.
Lemma runs_log c : P c -> runs P any (log_call c).
Proof using. intros Hc st a st' [= <- <-]. split; [|done]. exists [c]. by rewrite Forall_singleton. Qed.
Lemma runs_ask E c : P c -> runs P any (ask E c).
Proof using.
  intros Hc st a st'. unfold ask. destruct (answer E _ _ _) as [r v]. intros [= <- <-]. split; [|done].
  exists [c]. by rewrite Forall_singleton.
Qed.
End logic.
Create HintDb runs.
#[export] Hint Resolve runs_acc runs_setv runs_updc runs_get runs_vars runs_kconn runs_liftk : runs.

(** One step of a run; what is left are the calls. *)
Ltac runs_step :=
  match goal with
  | |- runs _ _ (mret _) => apply runs_ret; try done
  | |- runs _ _ (liftk _ ≫= _) => eapply runs_seq; [apply runs_liftk|intros ? ?]
  | |- runs _ _ (_ ≫= _) => apply (runs_seq any); [|intros ? _]
  | |- runs _ _ (if ?b then _ else _) => destruct b eqn:?
  | |- runs _ _ (let '(_, _) := ?p in _) => destruct p
  | |- runs _ _ (match ?x with _ => _ end) => destruct x eqn:?
  | |- runs _ ?Q (ask _ _) => first [apply runs_ask | apply (runs_post any Q); [done|apply runs_ask]]
  | |- runs _ ?Q (log_call _) => first [apply runs_log | apply (runs_post any Q); [done|apply runs_log]]
  | |- runs _ ?Q (change _) =>
      first [apply runs_change; done | apply (runs_post any Q); [done|apply runs_change; done]]
  | |- runs _ ?Q _ => first [solve [eauto with runs nocore]
                            | eapply runs_post; [|solve [eauto with runs nocore]]; done]
  end.
Ltac runs_all := repeat (cbv beta zeta; runs_step).

Section spec.
Context {T : Type} `{IdTable T} (env : ac_env) (henv : hl_env) (penv : hp_env).
Variable services : list Service.
Variable cf : rt_st T.
Variable E : cn_env.

(** ** No loops *)

(** The server that a call goes on to, other than the one of the request. *)
Definition upper_of (c : cn_call) : option (list Z * Z) :=
  match c with
  | OpenServer wh _ host port => if streq wh (cs "ToUpper") then Some (host, port) else None
  | connectServer _ _ host port => Some (host, port)
  | connectToSox _ _ host port => Some (host, port)
  | connectViaSocksX host port _ _ _ => Some (host, port)
  | ConnectViaYYMUXX host port => Some (host, port)
  | teleportOpen _ host port _ => Some (host, port)
  | _ => None
  end.
Definition gateways : list (list Z * Z) :=
  map (fun Rp => (m_gw_host Rp, m_gw_port Rp)) (Forwards cf ++ Masters cf).
Definition no_return (c : cn_call) : Prop :=
  forall hp, upper_of c = Some hp -> hp ∈ gateways /\ CTX_findInPath E hp.1 hp.2 = false.
(** No master or proxy is given for the request by a [MOUNT]. *)
Hypothesis HMO : MO_ProxyHost E = [] /\ MO_MasterHost E = [].

Lemma no_return_none c : upper_of c = None -> no_return c.
Proof using. by intros Hc hp; rewrite Hc. Qed.
Lemma no_return_gateway Rp c : Rp ∈ Forwards cf ++ Masters cf ->
  CTX_findInPath E (m_gw_host Rp) (m_gw_port Rp) = false ->
  upper_of c = None \/ upper_of c = Some (m_gw_host Rp, m_gw_port Rp) -> no_return c.
Proof using.
  intros Hin Hpath [Hc|Hc] hp; rewrite Hc; [done|]. intros [= <-]. split; [|done].
  by apply (list_elem_of_fmap_2 (fun Rp => (m_gw_host Rp, m_gw_port Rp))).
Qed.
#[local] Hint Extern 1 (no_return _) => (by apply no_return_none) : runs.

Lemma runs_ConnectToServer P : (forall c, upper_of c = None -> P c) -> runs P any (ConnectToServer E).
Proof using. intros HP. unfold ConnectToServer, initConnected. runs_all; by apply HP. Qed.
Lemma runs_ConnectViaSocks P : (forall c, upper_of c = None -> P c) -> runs P any (ConnectViaSocks E).
Proof using. intros HP. unfold ConnectViaSocks, initConnected. runs_all; by apply HP. Qed.
Lemma runs_setServ P s : runs P any (setServ E s).
Proof using. apply runs_setv. Qed.
Lemma runs_connectToUpper P wh proto host port :
  (forall c, upper_of c = None \/ upper_of c = Some (host, port) -> P c) ->
  runs P any (connectToUpper env henv penv cf E wh proto host port).
Proof using.
  intros HP. unfold connectToUpper, find_CONNECT. runs_all; apply HP; (by left) || (by right).
Qed.
Lemma runs_forward_loop P proto h p src l :
  runs P (fun r => forall Rp, r = Some Rp -> Rp ∈ l) (forward_loop env henv penv cf E proto h p src l).
Proof using.
  induction l as [|Rp l IH]; cbn [forward_loop]; [by apply runs_ret|].
  apply (runs_seq any).
  { unfold forward_applies, setConnectFlags. runs_all. }
  intros ok _. destruct ok.
  - eapply (runs_seq any); [apply runs_updc|]. intros _ _. apply runs_ret. intros ? [= <-]. by left.
  - eapply runs_post; [|exact IH]. intros r Hr Rp' E'. right. by apply Hr.
Qed.
Lemma runs_forwardX P proto h p src :
  runs P (fun r => forall Rp, r = Some Rp -> Rp ∈ Forwards cf)
    (DELEGATE_forwardX env henv penv cf E proto h p src).
Proof using.
  unfold DELEGATE_forwardX. runs_step; [by apply runs_ret|].
  eapply (runs_seq any); [apply runs_acc|intros _ _].
  eapply runs_seq; [apply runs_forward_loop|intros r Hr].
  eapply (runs_seq any); [apply runs_acc|intros _ _]. by apply runs_ret.
Qed.

Lemma runs_forward_by Rp : Rp ∈ Forwards cf ++ Masters cf ->
  CTX_findInPath E (m_gw_host Rp) (m_gw_port Rp) = false ->
  runs no_return any (forward_by env henv penv cf E Rp).
Proof using.
  intros Hin Hpath.
  assert (Hc : forall c, upper_of c = None \/ upper_of c = Some (m_gw_host Rp, m_gw_port Rp) -> no_return c)
    by (intros c; by apply no_return_gateway).
  pose proof (runs_ConnectToServer no_return no_return_none).
  pose proof (fun wh proto => runs_connectToUpper no_return wh proto _ _ Hc).
  unfold forward_by, forward_circuit, forward_upper. runs_all;
    try (apply Hc; by (left + right)); by eauto.
Qed.
Lemma runs_forwardit : runs no_return any (forwardit env henv penv cf E).
Proof using HMO.
  unfold forwardit. rewrite (proj1 HMO). cbn [andb]. rewrite bool_decide_false by (intros Hn; by apply Hn).
  cbn [andb]. runs_step; [by apply runs_ret|].
  eapply runs_seq; [by apply (runs_ret (fun m => m = 0))|intros m ->]. cbn.
  eapply (runs_seq any); [apply runs_acc|intros [clnt port] _].
  eapply (runs_seq any); [apply runs_kconn|intros c _].
  eapply runs_seq; [apply runs_forwardX|intros r Hr].
  destruct r as [Rp|]; [|by apply runs_ret]. destruct (CTX_findInPath _ _ _) eqn:Hp; [by apply runs_ret|].
  apply runs_forward_by; [|done]. apply elem_of_app. left. by apply Hr.
Qed.

(** A master is one of the table. *)
Lemma runs_DELEGATE_master P ms : runs P (fun m => forall mx Rp, m = Some (mx, Some Rp) -> Rp ∈ Masters cf)
  (DELEGATE_master cf E ms).
Proof using.
  unfold DELEGATE_master. destruct (_ || _); [by apply runs_ret|].
  eapply runs_seq; [apply runs_liftk|intros Rp HRp]. destruct (_ && _); [by apply runs_ret|].
  eapply (runs_seq any); [apply runs_updc|intros _ _]. apply runs_ret. intros mx ? [= _ <-].
  exact (list_elem_of_lookup_2 _ _ _ HRp).
Qed.
Lemma runs_try_master td server svport sh mi msock :
  runs no_return any (try_master env henv penv services cf E td server svport sh mi msock).
Proof using.
  unfold try_master. eapply runs_seq; [apply runs_DELEGATE_master|intros m Hm].
  destruct m as [[mx [Rp|]]|]; [|by apply runs_ret..]. unfold ask_master.
  eapply (runs_seq any); [apply runs_kconn|intros c _]. cbv zeta.
  destruct (_ && _); [by apply runs_ret|].
  eapply (runs_seq any); [unfold DELEGATE_Filter; runs_all|intros ok _].
  destruct (negb ok || _) eqn:Hp; [by apply runs_ret|]. apply orb_false_elim in Hp as [_ Hp].
  assert (Hc : forall c, upper_of c = None \/ upper_of c = Some (m_gw_host Rp, m_gw_port Rp) -> no_return c).
  { intros c'. apply no_return_gateway; [|done]. apply elem_of_app. right. by eapply Hm. }
  pose proof (runs_ConnectToServer no_return no_return_none).
  pose proof (fun wh proto => runs_connectToUpper no_return wh proto _ _ Hc).
  unfold use_master. runs_all; try (apply Hc; by (left + right)); by eauto.
Qed.
Lemma runs_open_master td server svport sh :
  runs no_return any (open_master env henv penv services cf E td server svport sh).
Proof using HMO.
  assert (Hloop : forall sv mis msock, runs no_return any
    (masters_loop env henv penv services cf E td sv svport sh mis msock)).
  { intros sv mis. induction mis as [|mi mis IH]; intros msock; cbn [masters_loop]; [by apply runs_ret|].
    apply (runs_seq any); [apply runs_try_master|intros [s stop] _]. destruct stop; [by apply runs_ret|apply IH]. }
  unfold open_master, withTmpMaster. rewrite (proj2 HMO).
  rewrite (bool_decide_false ([] <> [])) by (intros Hn; by apply Hn). cbn [andb].
  pose proof Hloop. runs_all; try (rewrite andb_false_r in *; done); by auto.
Qed.
#[local] Hint Resolve runs_forwardit runs_open_master runs_setServ : runs.

Lemma runs_connect_by contype only :
  runs no_return any (connect_by env henv penv services cf E contype only).
Proof using HMO.
  pose proof (runs_ConnectToServer no_return no_return_none).
  pose proof (runs_ConnectViaSocks no_return no_return_none).
  unfold connect_by, via_gateway, via_socks. runs_all; by auto with runs.
Qed.
Lemma runs_orders_loop first order svsock last :
  runs no_return any (orders_loop env henv penv services cf E first order svsock last).
Proof using HMO.
  revert first svsock last. induction order as [|t order IH]; intros; cbn [orders_loop]; [by apply runs_ret|].
  pose proof runs_connect_by. runs_all; by auto.
Qed.
Lemma runs_setupConnect P : runs P any (setupConnect env henv penv cf E).
Proof using. unfold setupConnect, setup_source, find_CONNECT. runs_all. Qed.
Lemma runs_tryCONNECT : runs no_return any (tryCONNECT env henv penv services cf E).
Proof using HMO.
  pose proof runs_orders_loop. pose proof (runs_setupConnect no_return).
  unfold tryCONNECT. runs_all; by auto.
Qed.
Lemma runs_first_of P (l : list method) s : Forall (fun m => forall s, runs P any (m s)) l ->
  runs P any (first_of l s).
Proof using.
  intros Hl. revert s. induction Hl as [|m l Hm Hl IH]; intros s; cbn [first_of]; [by apply runs_ret|].
  apply (runs_seq any); [apply Hm|intros [ok s'] _]. destruct ok; [by apply runs_ret|apply IH].
Qed.
Lemma runs_methods proto host port :
  runs no_return any (connect_methods env henv penv services cf E proto host port).
Proof using HMO.
  pose proof (runs_ConnectToServer no_return no_return_none) as Hd.
  pose proof (runs_ConnectViaSocks no_return no_return_none) as Hs.
  pose proof (fun td sv p sh => runs_open_master td sv p sh) as Hm.
  assert (Hdef : Forall (fun m : method => forall s, runs no_return any (m s))
                   (default_methods env henv penv services cf E host port)).
  { unfold default_methods. cbn [app]. destruct (tryProxyOnly E);
      repeat (apply Forall_cons; split); try by apply Forall_nil.
    all: intros s'; unfold via_icp, via_forward, by_default, directly, initConnected, ConnectViaVSAP,
           by_default; runs_all; by auto with runs. }
  pose proof runs_tryCONNECT. pose proof (fun s => runs_first_of no_return _ s Hdef).
  unfold connect_methods, connectToCache, connected. runs_all; by auto with runs.
Qed.

(** C3. When no MOUNT rule names a proxy or a master for the request
    ([MO_ProxyHost] and [MO_MasterHost] are empty), no request goes back to
    where it came through, whatever the answers from outside are: every host
    that [connect_to_serverY] turns to as a gateway of the tables FORWARD
    (with ROUTE and PROXY) and MASTER is one of the configured, and is not in
    the path of relays that the request came with.  These are the calls of
    [upper_of]: to an upper proxy or DeleGate, to a gateway of a FORWARD by
    SOCKS, SOX or YYMUX, and to a teleport master.  The servers of ICP, of
    the lists SOCKS, SSLTUNNEL and YYMUX and of VSAP are chosen by functions
    that are asked from outside, and are not among them. *)
Theorem connect_no_loop (proto host : list Z) (port : Z) (st st' : cn_st) (svsock : Z) :
  connect_to_serverY env henv penv services cf E proto host port st = Some (svsock, st') ->
  exists calls, k_calls st' = k_calls st ++ calls /\
    forall c h p, c ∈ calls -> upper_of c = Some (h, p) ->
      (h, p) ∈ gateways /\ CTX_findInPath E h p = false.
Proof using HMO.
  assert (Hr : runs no_return any (connect_to_serverY env henv penv services cf E proto host port)).
  { pose proof (runs_setupConnect no_return). pose proof runs_methods.
    unfold connect_to_serverY, service_permitted, set_SRCIF, find_SRCIF.
    runs_all; try (by apply no_return_none). apply runs_change. intros st1. by destruct a3. }
  intros Hrun. apply Hr in Hrun as [(cs & Hcs & Hall) _]. exists cs. split; [done|].
  intros c h p Hc Hu. rewrite Forall_forall in Hall. by apply (Hall c Hc (h, p)).
Qed.

(** ** What is refused *)
Hypothesis Hwf : lists_wf (r_hp cf).

(** C4. Nothing is opened for a request that is refused: when the policy of
    the tables does not hold for the request of a client that is known,
    [connect_to_serverY] returns -1 without a call to the outside; the
    variables are reset, the connection has the error code and a reason, and
    the refusal is what is reported. *)
Theorem connect_refused (proto host : list Z) (port : Z) (st : cn_st) :
  let ac := k_ac st in
  let c := s_conn ac in
  from_myself c = false -> known ac c -> forreject c = false -> name_known henv c = true ->
  internal_server E proto host port = false ->
  verdict env henv penv services cf ac = false ->
  exists reason,
    connect_to_serverY env henv penv services cf E proto host port st =
    Some (-1,
      put_ac (AcSt (set_error CO_REJECTED (set_reason reason c)) (popped (pushed env (s_ci ac) c)) (s_peer ac)
                (s_events ac ++ reports env henv penv services cf ac proto 0))
        (put_vars (set_toMaster 0 (set_FromSX (-1) (set_socks (-1) (-1) (k_vars st)))) st)) /\
    reason <> [].
Proof using Hwf.
  intros ac c Hmy Hk Hfr Hn Hint Hv.
  destruct (service_permitted2_run env henv penv services cf Hwf ac proto 0 Hmy Hk Hfr Hn) as (x & Ex & Hx).
  exists x. split; [|intros E'; apply Hx in E'; by rewrite Hv in E'].
  unfold connect_to_serverY. erewrite cn_bind_run by reflexivity. rewrite Hint.
  rewrite Hv in Ex. erewrite cn_bind_run; [|unfold service_permitted, run_acc; cbn [put_vars k_ac];
    fold ac; rewrite Ex; reflexivity].
  done.
Qed.

(** ** The order of the methods *)
Definition tries_of (cs : list cn_call) : list Z :=
  omap (fun c => match c with Try t => Some t | _ => None end) cs.
Definition no_try (c : cn_call) : Prop := forall t, c <> Try t.

Lemma tries_app cs cs' : tries_of (cs ++ cs') = tries_of cs ++ tries_of cs'.
Proof using. apply omap_app. Qed.
Lemma tries_none cs : Forall no_try cs -> tries_of cs = [].
Proof using.
  induction 1 as [|c cs Hc Hcs IH]; [done|]. unfold tries_of in *. cbn. destruct c; try done.
  by destruct (Hc contype).
Qed.
Lemma runs_forward_no_try : runs no_try any (forwardit env henv penv cf E).
Proof using.
  pose proof (runs_forwardX no_try) as Hf.
  assert (Hu : forall wh proto h p, runs no_try any (connectToUpper env henv penv cf E wh proto h p))
    by (intros; unfold connectToUpper, find_CONNECT; runs_all; by intros ?).
  assert (Hb : forall Rp, runs no_try any (forward_by env henv penv cf E Rp)).
  { intros Rp. unfold forward_by, forward_upper, forward_circuit, ConnectToServer, initConnected.
    runs_all; try (by intros ?); by auto. }
  unfold forwardit.
  runs_all; try (by apply Hu || by apply Hb || by intros ?).
Qed.
Lemma runs_master_no_try td server svport sh :
  runs no_try any (open_master env henv penv services cf E td server svport sh).
Proof using.
  assert (Hu : forall wh proto h p, runs no_try any (connectToUpper env henv penv cf E wh proto h p))
    by (intros; unfold connectToUpper, find_CONNECT; runs_all; by intros ?).
  assert (Ht : forall sv mi ms, runs no_try any (try_master env henv penv services cf E td sv svport sh mi ms)).
  { intros. unfold try_master, ask_master, use_master, DELEGATE_master, DELEGATE_Filter, setConnectFlags,
      ConnectToServer, initConnected. runs_all; try (by intros ?); by auto. }
  assert (Hl : forall sv mis ms, runs no_try any (masters_loop env henv penv services cf E td sv svport sh mis ms)).
  { intros sv mis. induction mis as [|mi mis IH]; intros ms; cbn [masters_loop]; [by apply runs_ret|].
    apply (runs_seq any); [apply Ht|intros [s stop] _]. destruct stop; [by apply runs_ret|apply IH]. }
  unfold open_master. runs_all; try (by intros ?); by auto.
Qed.
Lemma connect_by_tries t only st s st' :
  connect_by env henv penv services cf E t only st = Some (s, st') ->
  exists cs, k_calls st' = k_calls st ++ cs /\ tries_of cs = [t].
Proof using.
  unfold connect_by. intros ([] & st1 & [= <-] & Ec)%cn_bind_inv.
  apply (fun Hr : runs no_try any _ => Hr _ _ _) in Ec as [(cs & -> & Hcs) _].
  - exists (Try t :: cs). split; [cbn; by rewrite <- app_assoc|]. unfold tries_of in *. cbn.
    f_equal. by apply tries_none.
  - pose proof runs_forward_no_try. pose proof runs_master_no_try.
    unfold via_gateway, via_socks, ConnectViaSocks, ConnectToServer, initConnected.
    runs_all; try (by intros ?); by auto.
Qed.

Lemma last_cons (t d : Z) l : List.last (t :: l) d = List.last l t.
Proof using.
  revert t d. induction l as [|x l IH]; intros t d; [done|].
  change (List.last (t :: x :: l) d) with (List.last (x :: l) d). by rewrite !IH.
Qed.

(** A method that may be tried. *)
Definition allowed (t : Z) : bool := negb (t =? C_NONE_) && (negb (tryProxyOnly E) || proxy_type t).
Lemma orders_loop_tries first order last st r st' :
  orders_loop env henv penv services cf E first order (-1) last st = Some (r, st') ->
  exists k cs, k_calls st' = k_calls st ++ cs /\ tries_of cs = take k order /\ (k <= length order)%nat /\
    forallb allowed (take k order) = true /\
    match r with
    | Some (s, t) => t = List.last (take k order) last /\ (s = -1 -> k = length order) /\
                     (s <> -1 -> (0 < k)%nat)
    | None => exists t, order !! k = Some t /\ allowed t = false
    end.
Proof using.
  revert first last st. induction order as [|t order IH]; intros first last st; cbn [orders_loop].
  { intros [= <- <-]. exists 0%nat, []. rewrite app_nil_r. by split_and!. }
  change (negb (-1 =? -1)) with false. cbv iota.
  assert (Hno : allowed t = false -> exists k cs, k_calls st = k_calls st ++ cs /\
    tries_of cs = take k (t :: order) /\ (k <= length (t :: order))%nat /\
    forallb allowed (take k (t :: order)) = true /\ exists t', (t :: order) !! k = Some t' /\ allowed t' = false).
  { intros Ha. exists 0%nat, []. rewrite app_nil_r. split_and!; try done; [cbn; lia|by exists t]. }
  destruct (t =? C_NONE_) eqn:E1.
  { intros ([] & st1 & [= <-] & [= <- <-])%cn_bind_inv. cbn [put_vars k_calls]. apply Hno. unfold allowed. by rewrite E1. }
  destruct (tryProxyOnly E && negb (proxy_type t)) eqn:E2.
  { intros [= <- <-]. apply Hno. unfold allowed. rewrite E1. apply andb_prop in E2 as [-> E2].
    apply negb_true_iff in E2. by rewrite E2. }
  assert (Ha : allowed t = true).
  { unfold allowed. rewrite E1. cbn [negb andb]. revert E2. by destruct (tryProxyOnly E), (proxy_type t). }
  intros (s & st1 & Es & El)%cn_bind_inv. apply connect_by_tries in Es as (cs1 & Hc1 & Ht1).
  destruct (decide (s = -1)) as [->|Hs].
  - apply IH in El as (k & cs & Hc & Ht & Hk & Hal & Hr). exists (S k), (cs1 ++ cs).
    rewrite Hc, Hc1, app_assoc, tries_app, Ht1, Ht. cbn [take forallb length]. rewrite Ha, Hal.
    split_and!; try done; [lia|]. destruct r as [[s' t']|].
    + destruct Hr as (-> & H1 & H2). split_and!; [by rewrite last_cons|intros ->; f_equal; auto|intros; lia].
    + exact Hr.
  - assert (El' : Some (Some (s, t), st1) = Some (r, st')).
    { rewrite <- El. destruct order; cbn [orders_loop]; [done|].
      by rewrite (proj2 (Z.eqb_neq _ _) Hs). }
    injection El' as <- <-. exists 1%nat, cs1. cbn [take forallb length]. rewrite Ha.
    split_and!; try done; lia.
Qed.

(** C7. The methods are tried in the order of the [CONNECT] that applies,
    each at most once, until one of them gives a socket: what [tryCONNECT]
    tries is an initial part of the order, in which no method is forbidden
    ([None], or what is no proxy when only proxies are to be tried).  It gives
    up in front of a method that is forbidden; when no method gives a socket
    all were tried; and when one does it is the last that was tried, and the
    type of the connection is its letter. *)
Theorem tryCONNECT_order (st st' : cn_st) (Rp : Route) (tried svsock : Z) :
  k_ConnectX st <> 0 -> co_setup st = true -> 0 <= co_routex st -> co_nonet st = false ->
  Connects cf !! Z.to_nat (co_routex st) = Some Rp ->
  tryCONNECT env henv penv services cf E st = Some ((tried, svsock), st') ->
  let order := m_conn Rp in
  exists k calls, k_calls st' = k_calls st ++ calls /\ tries_of calls = take k order /\
    (k <= length order)%nat /\ forallb allowed (take k order) = true /\
    (tried = 1 /\ (svsock = -1 -> k = length order) /\
       (0 <= svsock -> last (take k order) = Some (ConnType (k_vars st'))) \/
     tried = -1 /\ svsock = -1 /\ exists t, order !! k = Some t /\ allowed t = false).
Proof using.
  intros Hx Hs Hr Hn HRp. unfold tryCONNECT. erewrite cn_bind_run by reflexivity.
  erewrite cn_bind_run by reflexivity. cbn [put_misc k_ConnectX co_setup].
  rewrite (proj2 (Z.eqb_neq _ _) Hx), Hs. erewrite cn_bind_run by reflexivity.
  erewrite cn_bind_run by reflexivity. cbn [put_misc co_routex co_nonet].
  rewrite (proj2 (Z.ltb_ge _ _) Hr), Hn.
  erewrite cn_bind_run by (unfold liftk; by rewrite HRp).
  intros (r & st1 & Eo & El)%cn_bind_inv.
  apply orders_loop_tries in Eo as (k & cs & Hc & Ht & Hk & Hal & Hres). cbn [put_misc k_calls] in Hc.
  exists k, cs. destruct r as [[s t]|].
  - destruct Hres as (Et & H1 & H2). apply cn_bind_inv in El as ([] & st2 & E2 & [= <- <- <-]).
    assert (Hc2 : k_calls st2 = k_calls st1).
    { revert E2. by destruct (0 <=? s); intros [= <-]. }
    rewrite Hc2. split_and!; try done. left. split_and!; try done. intros Hs0.
    rewrite (proj2 (Z.leb_le _ _) Hs0) in E2. injection E2 as <-. cbn.
    assert (Hk0 : (0 < k)%nat) by (apply H2; lia). subst t.
    assert (Hne : take k (m_conn Rp) <> []).
    { intros E'. apply (f_equal length) in E'. rewrite length_take in E'. cbn in E'. lia. }
    destruct (exists_last Hne) as (l & x & ->). by rewrite last_snoc, last_last.
  - injection El as <- <- <-. split_and!; try done. by right.
Qed.

(** ** The first entry that fits *)
Fixpoint first_fit {A} (f : A -> bool) (l : list A) (i : Z) : Z :=
  match l with [] => -1 | x :: l' => if f x then i else first_fit f l' (i + 1) end.

Section fits.
Variables (ci : ClientInfo) (peer : vaddr) (c : Connection).
Definition ident : option (list Z) := getClientIdentH0 env (Client_Host c) (Client_Port c).
Definition asks_or_empty (hl : HostList) (proto : option (list Z)) (host : list Z) (port : Z)
  (user : option (list Z)) : bool :=
  (hl_cnt hl =? 0) || asks henv penv cf ci peer hl proto host port user [].
(** An entry of [CONNECT] or [SRCIF] fits. *)
Definition entry_fits (proto host shost : list Z) (Rp : Route) : bool :=
  negb (NonHTTP Rp proto) && protoMatch3 (default [] (m_protoV Rp)) proto
  && asks_or_empty (dsts cf Rp) (Some proto) host 0 None
  && asks_or_empty (srcs cf Rp) None shost 0 ident.
(** A route to a gateway fits. *)
Definition protos_fit (proto : list Z) (dstport : Z) (Rp : Route) : bool :=
  match m_protoV Rp with
  | Some V =>
      no_dstcheck c ||
      match protoMatch1 (no_dstcheck_port c) V proto dstport with
      | Some pl =>
          if negb (DO_METHOD_FILTER cf =? 0) && bool_decide (RequestMethod E <> [])
          then default false (methodMatch (forreject c) pl (Some (RequestMethod E))) else true
      | None => false
      end
  | None => true
  end.
Definition gateway_fits (proto dsthost : list Z) (dstport : Z) (srchost : list Z) (Rp : Route) : bool :=
  protos_fit proto dstport Rp
  && asks_or_empty (dsts cf Rp) (Some proto) dsthost dstport None
  && asks_or_empty (srcs cf Rp) None srchost 0 ident.
End fits.

Lemma isin_or_empty_run ac hl proto host port user :
  list_wf (tab_of (r_hp cf)) hl -> has (a_flags (s_peer ac)) VA_REMOTE = false ->
  isin_or_empty hl (hostIsin henv penv cf hl proto host port user []) ac =
  Some (asks_or_empty (s_ci ac) (s_peer ac) hl proto host port user, ac).
Proof using Hwf.
  intros Hl Hp. unfold isin_or_empty, asks_or_empty. destruct (hl_cnt hl =? 0); [done|].
  cbn [orb]. by rewrite (hostIsin_run henv penv cf Hwf).
Qed.
Lemma ident_run ac : known ac (s_conn ac) ->
  getClientUserC env ac = Some (ident (s_conn ac), ac).
Proof using.
  intros Hk. unfold getClientUserC. erewrite bind_run by (by apply VA_getClientAddr_run).
  by erewrite bind_run by apply conn_run.
Qed.
Lemma source_run ac hl shost :
  list_wf (tab_of (r_hp cf)) hl -> known ac (s_conn ac) ->
  isin_or_empty hl (suser ← getClientUserC env; hostIsin henv penv cf hl None shost 0 suser []) ac =
  Some (asks_or_empty (s_ci ac) (s_peer ac) hl None shost 0 (ident (s_conn ac)), ac).
Proof using Hwf.
  intros Hl Hk. unfold isin_or_empty, asks_or_empty. destruct (hl_cnt hl =? 0); [done|].
  erewrite bind_run by (by apply ident_run). cbn [orb]. destruct Hk as [_ Hk].
  by rewrite (hostIsin_run henv penv cf Hwf).
Qed.
Lemma findRoute_loop_run ac routes i proto host shost : known ac (s_conn ac) ->
  Forall (fun Rp => is_Some (m_protoV Rp)) routes ->
  findRoute_loop env henv penv cf routes i proto host shost ac =
  Some (first_fit (entry_fits (s_ci ac) (s_peer ac) (s_conn ac) proto host shost) routes i, ac).
Proof using Hwf.
  intros Hk Hall. revert i.
  induction Hall as [|Rp routes [V HV] Hl IH]; intros i; cbn [findRoute_loop first_fit]; [done|].
  unfold entry_fits at 1. destruct (NonHTTP Rp proto); [exact (IH (i + 1))|]. rewrite HV.
  erewrite bind_run by reflexivity. cbn [negb andb default from_option id].
  destruct (protoMatch3 V proto); [|exact (IH (i + 1))]. cbn [negb andb].
  erewrite bind_run by (apply isin_or_empty_run; [by apply get_list_wf|apply Hk]).
  destruct (asks_or_empty _ _ (dsts cf Rp) _ _ _ _); [|exact (IH (i + 1))]. cbn [negb andb].
  erewrite bind_run by (by apply source_run; [apply get_list_wf|]).
  destruct (asks_or_empty _ _ (srcs cf Rp) _ _ _ _); [done|exact (IH (i + 1))].
Qed.

(** The client is matched as it is pushed. *)
Definition pushed_ac (ac : ac_st) : ac_st :=
  AcSt (s_conn ac) (pushed env (s_ci ac) (s_conn ac)) (s_peer ac) (s_events ac).
Definition popped_ac (c : Connection) (ac : ac_st) : ac_st :=
  AcSt c (popped (pushed env (s_ci ac) (s_conn ac))) (s_peer ac) (s_events ac).
Lemma findRoute_run ac routes proto host shost : known ac (s_conn ac) ->
  Forall (fun Rp => is_Some (m_protoV Rp)) routes ->
  findRoute env henv penv cf routes proto host shost ac =
  Some (first_fit (entry_fits (pushed env (s_ci ac) (s_conn ac)) (s_peer ac) (s_conn ac) proto host shost)
          routes 0, popped_ac (s_conn ac) ac).
Proof using Hwf.
  intros Hk Hall. unfold findRoute. erewrite (bind_run _ _ ac tt (pushed_ac ac)) by done.
  erewrite bind_run by (by apply findRoute_loop_run). by erewrite (bind_run _ _ _ tt) by reflexivity.
Qed.

Lemma forward_applies_run st proto dsthost dstport srchost Rp : known (k_ac st) (s_conn (k_ac st)) ->
  forward_applies env henv penv cf E proto dsthost dstport srchost Rp st =
  Some (gateway_fits (s_ci (k_ac st)) (s_peer (k_ac st)) (s_conn (k_ac st)) proto dsthost dstport srchost Rp, st).
Proof using Hwf.
  intros Hk. unfold forward_applies. erewrite cn_bind_run by reflexivity. unfold gateway_fits.
  set (c := s_conn (k_ac st)). erewrite (cn_bind_run _ _ st (protos_fit c proto dstport Rp) st).
  2: { unfold protos_fit.
       destruct (m_protoV Rp) as [V|]; [|done]. destruct (no_dstcheck c); cbn [orb]; [done|].
       destruct (protoMatch1 _ V proto dstport) as [pl|]; [|done].
       destruct (negb _ && _); [|done]. unfold liftk.
       by destruct (methodMatch_some (forreject c) pl (Some (RequestMethod E))) as [b ->]. }
  destruct (protos_fit _ _ _ _); [|done]. cbn [negb andb].
  assert (Hst : put_ac (k_ac st) st = st) by (by destruct st).
  erewrite (cn_bind_run _ _ st _ st).
  2: { unfold run_acc. rewrite isin_or_empty_run by (apply get_list_wf || apply Hk; done). by rewrite Hst. }
  destruct (asks_or_empty _ _ (dsts cf Rp) _ _ _ _); [|done]. cbn [negb andb].
  unfold run_acc. rewrite source_run by (done || by apply get_list_wf). by rewrite Hst.
Qed.
Lemma forward_loop_run st proto dsthost dstport srchost l : known (k_ac st) (s_conn (k_ac st)) ->
  let r := find (gateway_fits (s_ci (k_ac st)) (s_peer (k_ac st)) (s_conn (k_ac st)) proto dsthost dstport
                   srchost) l in
  forward_loop env henv penv cf E proto dsthost dstport srchost l st =
  Some (r, match r with
           | Some Rp => put_ac (with_conn (k_ac st) (set_Flags (Z.lor (ConnectFlags (s_conn (k_ac st)))
                                  (m_ConnectFlags Rp)) (s_conn (k_ac st)))) st
           | None => st
           end).
Proof using Hwf.
  intros Hk. induction l as [|Rp l IH]; cbn [forward_loop find]; [done|].
  erewrite cn_bind_run by (by apply forward_applies_run). by destruct (gateway_fits _ _ _ _ _ _ _ _).
Qed.

(** C9. The gateway of a request of a client that is known is the one of the
    first route that fits it, when the tables are as they are read from texts:
    [DELEGATE_forwardX] finds the first [ROUTE], [FORWARD] or [PROXY] whose
    protocols (with ports and methods), destinations and sources have the
    request, the client's user included, and none when none fits; the flags
    of that route are added to the connection's, and nothing else changes in
    it. *)
Theorem DELEGATE_forwardX_first (st : cn_st) (proto dsthost : list Z) (dstport : Z) (srchost : list Z) :
  let ac := k_ac st in
  let c := s_conn ac in
  known ac c ->
  let r := find (gateway_fits (pushed env (s_ci ac) c) (s_peer ac) c proto dsthost dstport srchost)
             (Forwards cf) in
  exists st', DELEGATE_forwardX env henv penv cf E proto dsthost dstport srchost st = Some (r, st') /\
    s_conn (k_ac st') = match r with
                        | Some Rp => set_Flags (Z.lor (ConnectFlags c) (m_ConnectFlags Rp)) c
                        | None => c
                        end /\
    k_calls st' = k_calls st /\ k_vars st' = k_vars st.
Proof using Hwf.
  intros ac c Hk r. unfold DELEGATE_forwardX. case_bool_decide as Hne.
  { subst r. rewrite Hne. by exists st. }
  set (st1 := put_ac (pushed_ac ac) st). erewrite (cn_bind_run _ _ st tt st1) by done.
  erewrite cn_bind_run by (by apply forward_loop_run).
  cbn [st1 k_ac put_ac pushed_ac s_conn s_ci s_peer]. fold ac c r.
  eexists. split; [reflexivity|]. by destruct r.
Qed.

(** ** The order that applies *)
Definition source_of (c : Connection) : option (list Z) :=
  if from_myself c && negb (from_client E) then Some []
  else if from_cached E then getClientHostPortAddr E else getpeerNAME E.
Definition connects_read : Prop := Forall (fun Rp => is_Some (m_protoV Rp)) (Connects cf).
(** The number of the [CONNECT] for the request. *)
Definition connect_index (st : cn_st) (shost : list Z) : Z :=
  let ac := k_ac st in
  let c := s_conn ac in
  first_fit (entry_fits (pushed env (s_ci ac) c) (s_peer ac) c (DST_PROTO c) (DST_HOST c) shost)
    (take (Z.to_nat (k_ConnectX st)) (Connects cf)) 0.
Lemma setupConnect_run st shost : connects_read -> known (k_ac st) (s_conn (k_ac st)) ->
  k_ConnectX st <> 0 -> co_setup st = false -> remote_access E = false ->
  source_of (s_conn (k_ac st)) = Some shost ->
  let i := connect_index st shost in
  let orders := orders_of cf i in
  setupConnect env henv penv cf E st =
  Some (tt, put_setup (k_ConnectX st) true i
    (co_nonet st || negb (i <? 0) && has_order orders C_CACHE && bool_decide (orders = [C_CACHE]))
    (co_nointernal st || negb (i <? 0) && has_order orders C_INTERNAL && negb (cat orders 0 =? C_INTERNAL))
    (if i <? 0 then DELEGATE_CACHE_CONTROL st else if has_order orders C_CACHE then 0 else -1)
    (put_ac (popped_ac (s_conn (k_ac st)) (k_ac st)) st)).
Proof using Hwf.
  intros Hread Hk Hx Hs Hrem Hsrc i orders. unfold setupConnect. erewrite cn_bind_run by reflexivity.
  rewrite (proj2 (Z.eqb_neq _ _) Hx), Hs. cbn [orb].
  set (st1 := put_setup (k_ConnectX st) true (co_routex st) (co_nonet st) (co_nointernal st)
    (DELEGATE_CACHE_CONTROL st) st). erewrite (cn_bind_run _ _ st tt st1) by done.
  rewrite Hrem. erewrite (cn_bind_run _ _ st1 (Some shost) st1).
  2: { unfold setup_source. erewrite cn_bind_run by reflexivity.
       change (s_conn (k_ac st1)) with (s_conn (k_ac st)). fold (source_of (s_conn (k_ac st))). by rewrite Hsrc. }
  erewrite cn_bind_run by reflexivity. change (s_conn (k_ac st1)) with (s_conn (k_ac st)).
  set (st2 := put_ac (popped_ac (s_conn (k_ac st)) (k_ac st)) st1).
  erewrite (cn_bind_run _ _ st1 i st2).
  2: { unfold find_CONNECT. erewrite cn_bind_run by reflexivity. unfold run_acc.
       change (k_ac st1) with (k_ac st). change (k_ConnectX st1) with (k_ConnectX st).
       rewrite findRoute_run; [done|done|]. by apply Forall_take. }
  fold orders. destruct (i <? 0) eqn:Ei; cbn [negb andb].
  - by rewrite !orb_false_r.
  - done.
Qed.

(** [CONNECT=cache] keeps a request off the network: when the first
    [CONNECT] that fits the request has no method but the cache,
    [tryCONNECT] gives up without a call to the outside. *)
Theorem cache_only_offline (st : cn_st) (shost : list Z) (Rp : Route) :
  connects_read -> known (k_ac st) (s_conn (k_ac st)) -> k_ConnectX st <> 0 -> co_setup st = false ->
  remote_access E = false -> source_of (s_conn (k_ac st)) = Some shost ->
  0 <= connect_index st shost -> Connects cf !! Z.to_nat (connect_index st shost) = Some Rp ->
  m_conn Rp = [C_CACHE] ->
  exists st', tryCONNECT env henv penv services cf E st = Some ((-1, -1), st') /\
    k_calls st' = k_calls st /\ k_vars st' = k_vars st /\ DELEGATE_CACHE_CONTROL st' = 0.
Proof using Hwf.
  intros Hread Hk Hx Hs Hrem Hsrc Hi HRp Horder. unfold tryCONNECT.
  set (st1 := put_misc (-1) (MasterXo st) (BREAK_STICKY st) st).
  erewrite (cn_bind_run _ _ st tt st1) by done. erewrite cn_bind_run by reflexivity.
  cbn [st1 put_misc k_ConnectX co_setup]. rewrite (proj2 (Z.eqb_neq _ _) Hx), Hs.
  erewrite cn_bind_run by (by apply (setupConnect_run st1)).
  change (connect_index st1 shost) with (connect_index st shost).
  assert (Ho : orders_of cf (connect_index st shost) = [C_CACHE]) by (unfold orders_of; by rewrite HRp).
  rewrite Ho, (proj2 (Z.ltb_ge _ _) Hi). cbn [negb andb].
  rewrite (bool_decide_true ([C_CACHE] = [C_CACHE])) by done.
  erewrite cn_bind_run by reflexivity. cbn [put_setup co_routex co_nonet].
  rewrite (proj2 (Z.ltb_ge _ _) Hi).
  change (has_order [C_CACHE] C_CACHE) with true. rewrite orb_true_r.
  eexists. split; [reflexivity|]. by cbn.
Qed.
(** Once a request of a connection was kept off, so are all that come after
    it: [initConnect] and [setupConnect] do not take it back. *)
Lemma nonet_stays (st : cn_st) (shost : list Z) :
  connects_read -> known (k_ac st) (s_conn (k_ac st)) -> k_ConnectX st <> 0 -> co_setup st = false ->
  remote_access E = false -> source_of (s_conn (k_ac st)) = Some shost ->
  0 <= connect_index st shost -> co_nonet st = true ->
  exists st', tryCONNECT env henv penv services cf E st = Some ((-1, -1), st') /\
    k_calls st' = k_calls st /\ co_nonet st' = true.
Proof using Hwf.
  intros Hread Hk Hx Hs Hrem Hsrc Hi Hn. unfold tryCONNECT.
  set (st1 := put_misc (-1) (MasterXo st) (BREAK_STICKY st) st).
  erewrite (cn_bind_run _ _ st tt st1) by done. erewrite cn_bind_run by reflexivity.
  cbn [st1 put_misc k_ConnectX co_setup]. rewrite (proj2 (Z.eqb_neq _ _) Hx), Hs.
  erewrite cn_bind_run by (by apply (setupConnect_run st1)).
  erewrite cn_bind_run by reflexivity. cbn [put_setup co_routex co_nonet].
  change (connect_index st1 shost) with (connect_index st shost).
  rewrite (proj2 (Z.ltb_ge _ _) Hi). cbn [st1 put_misc co_nonet]. rewrite Hn. cbn [orb].
  eexists. split; [reflexivity|]. done.
Qed.

(** ** The masters *)
Definition master_count : Z := nMASTERS cf.
(** The masters by number, in the order they are asked. *)
Definition turns : list Z := map (fun ms => master_index E ms master_count + 1) (master_order cf E).

Lemma turns_shift : exists d, turns =
  map (fun k => (d + Z.of_nat k) mod master_count + 1) (seq 0 (length (Masters cf))).
Proof using.
  exists ((if MASTER_ROUND_ROBIN E then SERNO E else 0) + (if 1 <? MasterXi E then MasterXi E - 1 else 0)).
  unfold turns, master_order. rewrite map_map. apply map_ext. intros k. unfold master_index. fold master_count.
  f_equal. destruct (MASTER_ROUND_ROBIN E).
  - rewrite Zplus_mod_idemp_r. f_equal. lia.
  - rewrite Zmod_mod. done.
Qed.
Lemma numbers_NoDup n : NoDup (map (fun k => Z.of_nat k + 1) (seq 0 n)).
Proof using.
  assert (Inj (=) (=) (fun k => Z.of_nat k + 1)) by (intros x y; lia).
  apply (NoDup_fmap_2 _), NoDup_seq.
Qed.
Lemma turns_all : Permutation turns (map (fun k => Z.of_nat k + 1) (seq 0 (length (Masters cf)))).
Proof using.
  destruct turns_shift as [d ->]. set (n := length (Masters cf)).
  assert (Hc : master_count = Z.of_nat n) by done. rewrite Hc.
  destruct (decide (n = 0%nat)) as [->|Hn]; [done|].
  assert (Hnz : 0 < Z.of_nat n) by lia.
  symmetry. apply submseteq_length_Permutation; [|by rewrite !length_map].
  apply NoDup_submseteq; [apply numbers_NoDup|]. intros x (k & -> & Hk)%list_elem_of_fmap. rewrite elem_of_seq in Hk.
  apply list_elem_of_fmap. exists (Z.to_nat ((Z.of_nat k - d) mod Z.of_nat n)).
  pose proof (Z.mod_pos_bound (Z.of_nat k - d) _ Hnz). split.
  - rewrite Z2Nat.id by lia. rewrite Zplus_mod_idemp_r.
    replace (d + (Z.of_nat k - d)) with (Z.of_nat k) by lia. by rewrite Z.mod_small by lia.
  - apply elem_of_seq. lia.
Qed.
Lemma turns_NoDup : NoDup turns.
Proof using.
  rewrite turns_all. apply numbers_NoDup.
Qed.

(** The masters that the request is sent to. *)
Definition sent_to (cs : list cn_call) : list Z :=
  omap (fun c => match c with connect_master mx _ _ => Some mx | _ => None end) cs.
Definition not_sent (c : cn_call) : Prop := sent_to [c] = [].
Lemma sent_app cs cs' : sent_to (cs ++ cs') = sent_to cs ++ sent_to cs'.
Proof using. apply omap_app. Qed.
Lemma sent_none cs : Forall not_sent cs -> sent_to cs = [].
Proof using.
  induction 1 as [|c cs Hc Hcs IH]; [done|]. change (c :: cs) with ([c] ++ cs).
  by rewrite sent_app, Hc, IH.
Qed.
Definition sends (l : list Z) {A} (p : cn A) : Prop :=
  forall st a st', p st = Some (a, st') ->
    exists cs, k_calls st' = k_calls st ++ cs /\ sublist (sent_to cs) l.
Lemma sends_quiet {A} (p : cn A) l : runs not_sent any p -> sends l p.
Proof using.
  intros Hp st a st' Hr. apply Hp in Hr as [(cs & Hc & Hall) _]. exists cs. split; [done|].
  rewrite sent_none by done. apply sublist_nil_l.
Qed.
Lemma sends_bind {A B} l l' (p : cn A) (f : A -> cn B) : sends l p -> (forall a, sends l' (f a)) ->
  sends (l ++ l') (p ≫= f).
Proof using.
  intros Hp Hf st b st' (a & st1 & E1 & E2)%cn_bind_inv.
  apply Hp in E1 as (cs1 & C1 & S1). apply Hf in E2 as (cs2 & C2 & S2). exists (cs1 ++ cs2).
  rewrite C2, C1, app_assoc, sent_app. split; [done|]. by apply sublist_app.
Qed.
Lemma sends_given {A B} l (R : A -> Prop) (p : cn A) (f : A -> cn B) : runs not_sent R p ->
  (forall a, R a -> sends l (f a)) -> sends l (p ≫= f).
Proof using.
  intros Hp Hf st b st' (a & st1 & E1 & E2)%cn_bind_inv. apply Hp in E1 as [(cs1 & C1 & S1) Ha].
  apply (Hf a Ha) in E2 as (cs2 & C2 & S2). exists (cs1 ++ cs2).
  by rewrite C2, C1, app_assoc, sent_app, sent_none.
Qed.
Lemma sends_after {A B} l (p : cn A) (f : A -> cn B) : runs not_sent any p -> (forall a, sends l (f a)) ->
  sends l (p ≫= f).
Proof using. intros Hp Hf. by apply (sends_given l any). Qed.

Lemma sends_use_master sh Rp mx mi ms : sends [mx] (use_master E sh Rp mx mi ms).
Proof using.
  unfold use_master. destruct (ms <? 0); [apply sends_quiet; by apply runs_ret|].
  apply sends_after; [by runs_all|intros a]. destruct (negb (a =? 0)); [apply sends_quiet; by runs_all|].
  destruct (negb sh); [apply sends_quiet; by runs_all|].
  apply (sends_bind [mx] []).
  - intros st r st'. unfold ask. destruct (answer E _ _ _) as [x v]. intros [= <- <-].
    eexists. split; [reflexivity|]. done.
  - intros n. destruct (n =? 0); apply sends_quiet; by runs_all.
Qed.
Lemma DELEGATE_master_number P ms : runs P (fun m => forall mx r, m = Some (mx, r) ->
  mx = master_index E ms master_count + 1) (DELEGATE_master cf E ms).
Proof using.
  unfold DELEGATE_master. destruct (_ || _); [by apply runs_ret|].
  eapply runs_seq; [apply runs_liftk|intros Rp _].
  destruct (_ && _); [apply runs_ret; by intros ? ? [= <- _]|].
  eapply (runs_seq any); [apply runs_updc|intros _ _]. apply runs_ret. by intros ? ? [= <- _].
Qed.
Lemma sends_try_master td server svport sh mi ms :
  sends [master_index E mi master_count + 1] (try_master env henv penv services cf E td server svport sh mi ms).
Proof using.
  assert (Hu : forall wh proto h p, runs not_sent any (connectToUpper env henv penv cf E wh proto h p))
    by (intros; unfold connectToUpper, find_CONNECT; by runs_all).
  apply (sends_given _ _ _ _ (DELEGATE_master_number not_sent mi)). intros m Hm.
  destruct m as [[mx [Rp|]]|]; [|apply sends_quiet; by apply runs_ret..].
  rewrite (Hm _ _ eq_refl). unfold ask_master. apply sends_after; [by runs_all|intros c]. cbv zeta.
  destruct (_ && _); [apply sends_quiet; by apply runs_ret|].
  apply sends_after; [unfold DELEGATE_Filter; by runs_all|intros ok].
  destruct (negb ok || _); [apply sends_quiet; by apply runs_ret|].
  destruct (_ && _); [apply sends_quiet; by apply runs_ret|].
  apply sends_after; [unfold ConnectToServer, initConnected; by runs_all|intros d].
  destruct (0 <=? d); [apply sends_quiet; by apply runs_ret|].
  apply sends_after; [by runs_all|intros s]. apply sends_use_master.
Qed.
Lemma sends_masters_loop td server svport sh mis ms :
  sends (map (fun mi => master_index E mi master_count + 1) mis)
    (masters_loop env henv penv services cf E td server svport sh mis ms).
Proof using.
  revert ms. induction mis as [|mi mis IH]; intros ms; [apply sends_quiet; by apply runs_ret|].
  cbn [masters_loop map]. apply (sends_bind [_]); [apply sends_try_master|].
  intros [s stop]. destruct stop; [apply sends_quiet; by apply runs_ret|apply IH].
Qed.

(** C10. When no MOUNT rule names a proxy or a master for the request, one
    run of [open_master] sends it to each master at most once: it asks the
    masters in the order of their numbers, from the one that was used before
    or, in round robin, from one that depends on the number of the process,
    and around the table; the order has each of the masters exactly once, and
    those that the request is sent to follow it.  (The master that a MOUNT
    names is asked again behind the loop.) *)
Theorem masters_once (td : bool) (server : list Z) (svport : Z) (sh : bool) (st st' : cn_st) (s : Z) :
  open_master env henv penv services cf E td server svport sh st = Some (s, st') ->
  exists calls, k_calls st' = k_calls st ++ calls /\ sublist (sent_to calls) turns /\
    NoDup turns /\ Permutation turns (map (fun k => Z.of_nat k + 1) (seq 0 (length (Masters cf)))).
Proof using HMO.
  assert (Hs : sends (turns ++ []) (open_master env henv penv services cf E td server svport sh)).
  { unfold open_master, withTmpMaster. rewrite (proj2 HMO).
    rewrite (bool_decide_false ([] <> [])) by (intros Hn; by apply Hn). cbn [andb].
    destruct (_ || _); [apply sends_quiet; by apply runs_ret|].
    apply sends_bind; [apply sends_masters_loop|intros ms]. rewrite andb_false_r.
    apply sends_quiet. by runs_all. }
  intros (cs & Hc & Hsub)%Hs. exists cs. rewrite app_nil_r in Hsub.
  split_and!; [done|done|apply turns_NoDup|apply turns_all].
Qed.

(** ** Connecting always comes to an end *)

(** What the runs keep: the client is known, and the number of the [CONNECT]
    is in the table, when there is one. *)
Definition ready (st : cn_st) : Prop :=
  known (k_ac st) (s_conn (k_ac st)) /\
  (Connects cf = [] /\ k_ConnectX st = 0 \/ Connects cf <> [] /\ co_routex st < zlen (Connects cf)).
Definition total {A} (p : cn A) : Prop :=
  forall st, ready st -> exists a st', p st = Some (a, st') /\ ready st'.
Definition ac_total {A} (p : acc A) : Prop :=
  forall ac, known ac (s_conn ac) -> exists a ac', p ac = Some (a, ac') /\ known ac' (s_conn ac').

Lemma total_ret {A} (a : A) : total (mret a).
Proof using. intros st Hst. by exists a, st. Qed.
Lemma total_bind {A B} (p : cn A) (f : A -> cn B) : total p -> (forall a, total (f a)) -> total (p ≫= f).
Proof using.
  intros Hp Hf st Hst. destruct (Hp st Hst) as (a & st1 & E1 & H1). destruct (Hf a st1 H1) as (b & st2 & E2 & H2).
  exists b, st2. by rewrite (cn_bind_run _ _ _ _ _ E1).
Qed.
Lemma total_change f : (forall st, ready st -> ready (f st)) -> total (change f).
Proof using. intros Hf st Hst. exists tt, (f st). split; [done|by apply Hf]. Qed.
Lemma total_setv f : total (setv f).
Proof using. by apply total_change. Qed.
Lemma total_ask c : total (ask E c).
Proof using.
  intros st Hst. unfold ask. destruct (answer E _ _ _) as [r v]. eexists _, _. split; [reflexivity|exact Hst].
Qed.
Lemma total_log c : total (log_call c).
Proof using. by apply total_change. Qed.
Lemma total_get : total get.
Proof using. intros st Hst. by exists st, st. Qed.
Lemma total_vars : total vars.
Proof using. intros st Hst. by exists (k_vars st), st. Qed.
Lemma total_kconn : total kconn.
Proof using. intros st Hst. by exists (s_conn (k_ac st)), st. Qed.
Lemma total_acc {A} (p : acc A) : ac_total p -> total (run_acc p).
Proof using.
  intros Hp st [Hk Hr]. destruct (Hp (k_ac st) Hk) as (a & ac & Ep & Hk'). unfold run_acc. rewrite Ep.
  exists a, (put_ac ac st). by split.
Qed.
Lemma total_updc f : (forall c, Client_Port (f c) = Client_Port c) -> total (updc f).
Proof using.
  intros Hf. apply total_acc. intros ac [H1 H2]. eexists _, _. split; [reflexivity|].
  by split; [cbn; rewrite Hf|].
Qed.
Lemma total_hosts hl proto host port user :
  list_wf (tab_of (r_hp cf)) hl ->
  total (run_acc (isin_or_empty hl (hostIsin henv penv cf hl proto host port user []))).
Proof using Hwf.
  intros Hl. apply total_acc. intros ac Hk. rewrite isin_or_empty_run by (done || apply Hk). eauto.
Qed.
Lemma total_find routes proto host shost : Forall (fun Rp => is_Some (m_protoV Rp)) routes ->
  total (run_acc (findRoute env henv penv cf routes proto host shost)).
Proof using Hwf.
  intros Hall. apply total_acc. intros ac Hk. rewrite findRoute_run by done. eauto.
Qed.
Lemma total_emit e : total (run_acc (emit e)).
Proof using. apply total_acc. intros ac Hk. rewrite emit_run. eauto. Qed.
Lemma total_clnt : total (run_acc (getClientHostPort env)).
Proof using. apply total_acc. intros ac Hk. rewrite getClientHostPort_run by done. eauto. Qed.

Hypotheses (Hconn : connects_read) (Hsrcif : Forall (fun Rp => is_Some (m_protoV Rp)) (Srcif cf)).

Lemma first_fit_bound {A} (f : A -> bool) l i : first_fit f l i = -1 \/ i <= first_fit f l i < i + zlen l.
Proof using.
  revert i. induction l as [|x l IH]; intros i; [by left|]. cbn [first_fit]. rewrite zlen_cons.
  pose proof (zlen_nonneg l). destruct (f x); [right; lia|]. destruct (IH (i + 1)); [by left|right; lia].
Qed.
Lemma total_find_CONNECT proto host shost : total (find_CONNECT env henv penv cf proto host shost).
Proof using Hwf Hconn.
  apply total_bind; [apply total_get|]. intros st. apply total_find. by apply Forall_take.
Qed.
Lemma total_match {A B} (o : option A) (f : A -> cn B) p : (forall a, total (f a)) -> total p ->
  total (match o with Some a => f a | None => p end).
Proof using. by destruct o. Qed.

#[local] Hint Resolve total_ret total_setv total_ask total_log total_get total_vars total_kconn total_emit
  total_clnt total_find_CONNECT : runs.
#[local] Hint Extern 1 (total (updc _)) => (apply total_updc; intros ?; reflexivity) : runs.
Ltac total_step :=
  match goal with
  | |- total (_ ≫= _) => apply total_bind; [|intros ?]
  | |- total (if ?b then _ else _) => destruct b eqn:?
  | |- total (let '(_, _) := ?p in _) => destruct p
  | |- total (match ?x with _ => _ end) => destruct x eqn:?
  | |- total (change _) => apply total_change; done
  | |- total _ => solve [eauto with runs nocore]
  end.
Ltac total_all := repeat (cbv beta zeta; total_step).

Lemma total_ConnectToServer : total (ConnectToServer E).
Proof using. unfold ConnectToServer, initConnected. total_all. Qed.
Lemma total_ConnectViaSocks : total (ConnectViaSocks E).
Proof using. unfold ConnectViaSocks, initConnected. total_all. Qed.
Lemma total_connectToUpper wh proto host port : total (connectToUpper env henv penv cf E wh proto host port).
Proof using Hwf Hconn. unfold connectToUpper. total_all. Qed.
#[local] Hint Resolve total_ConnectToServer total_ConnectViaSocks total_connectToUpper : runs.
Lemma total_forwardX proto h p src : total (DELEGATE_forwardX env henv penv cf E proto h p src).
Proof using Hwf.
  unfold DELEGATE_forwardX. destruct (bool_decide _); [apply total_ret|].
  apply total_bind; [apply total_acc; intros ac Hk; by eexists _, _|intros _].
  apply total_bind; [|intros r; apply total_bind; [apply total_acc; intros ac Hk; by eexists _, _|intros _];
                      apply total_ret].
  intros st [Hk Hr]. rewrite forward_loop_run by done. eexists _, _. split; [reflexivity|].
  by destruct (find _ _).
Qed.
#[local] Hint Resolve total_forwardX : runs.
Lemma total_forwardit : total (forwardit env henv penv cf E).
Proof using Hwf Hconn.
  unfold forwardit, forward_by, forward_circuit, forward_upper. total_all.
Qed.

Lemma master_index_bound ms : 0 < master_count -> 0 <= master_index E ms master_count < master_count.
Proof using. intros Hn. unfold master_index. destruct (MASTER_ROUND_ROBIN E); by apply Z.mod_pos_bound. Qed.
Lemma total_DELEGATE_master ms : total (DELEGATE_master cf E ms).
Proof using.
  unfold DELEGATE_master. fold master_count. destruct (master_count =? 0) eqn:E0; [apply total_ret|].
  cbn [orb]. destruct (master_count <=? ms); [apply total_ret|].
  assert (Hn : 0 < master_count).
  { apply Z.eqb_neq in E0. pose proof (zlen_nonneg (Masters cf)).
    change master_count with (zlen (Masters cf)) in *. lia. }
  pose proof (master_index_bound ms Hn) as Hb.
  destruct (Masters cf !! Z.to_nat (master_index E ms master_count)) as [Rp|] eqn:ER.
  - apply total_bind; [intros st Hst; by exists Rp, st|intros R]. unfold setConnectFlags. total_all.
  - apply lookup_ge_None in ER. change master_count with (Z.of_nat (length (Masters cf))) in *. lia.
Qed.
Lemma total_open_master td server svport sh : total (open_master env henv penv services cf E td server svport sh).
Proof using Hwf Hconn.
  pose proof total_DELEGATE_master as Hm.
  assert (Ht : forall sv mi ms, total (try_master env henv penv services cf E td sv svport sh mi ms)).
  { intros. unfold try_master, ask_master, use_master, DELEGATE_Filter.
    total_all; try (by apply total_hosts, get_list_wf). }
  assert (Hl : forall sv mis ms, total (masters_loop env henv penv services cf E td sv svport sh mis ms)).
  { intros sv mis. induction mis as [|mi mis IH]; intros ms; cbn [masters_loop]; total_all. }
  unfold open_master. total_all.
Qed.
#[local] Hint Resolve total_forwardit total_open_master : runs.

Lemma connect_index_bound st shost : connect_index st shost < zlen (Connects cf).
Proof using.
  unfold connect_index. set (f := entry_fits _ _ _ _ _ _).
  pose proof (first_fit_bound f (take (Z.to_nat (k_ConnectX st)) (Connects cf)) 0) as Hb.
  unfold zlen in *. rewrite length_take in Hb. lia.
Qed.
Lemma total_setupConnect : total (setupConnect env henv penv cf E).
Proof using Hwf Hconn.
  intros st [Hk Hr]. destruct (Z.eqb_spec (k_ConnectX st) 0) as [Hx|Hx].
  { exists tt, st. split; [|done]. unfold setupConnect. erewrite cn_bind_run by reflexivity. by rewrite Hx. }
  destruct (co_setup st) eqn:Hs.
  { exists tt, st. split; [|done]. unfold setupConnect. erewrite cn_bind_run by reflexivity.
    by rewrite Hs, orb_true_r. }
  destruct (remote_access E) eqn:Hrem; [|destruct (source_of (s_conn (k_ac st))) as [shost|] eqn:Hsrc].
  2: { rewrite (setupConnect_run st shost) by done. eexists _, _. split; [reflexivity|]. split; [done|].
       destruct Hr as [[_ ?]|[Hne _]]; [done|]. right. split; [done|apply connect_index_bound]. }
  all: unfold setupConnect; erewrite cn_bind_run by reflexivity;
    rewrite (proj2 (Z.eqb_neq _ _) Hx), Hs; cbn [orb]; erewrite cn_bind_run by reflexivity; rewrite Hrem.
  - eexists _, _. split; [reflexivity|]. split; [done|]. destruct Hr as [[Hr _]|Hr]; [by left|by right].
  - set (st1 := put_setup _ _ _ _ _ _ st). erewrite (cn_bind_run _ _ st1 None st1); [by eexists _, _|].
    unfold setup_source. erewrite cn_bind_run by reflexivity. unfold source_of in Hsrc. cbn. by rewrite Hsrc.
Qed.

Lemma total_orders_loop first order svsock last :
  total (orders_loop env henv penv services cf E first order svsock last).
Proof using Hwf Hconn.
  assert (Ht : forall t only, total (connect_by env henv penv services cf E t only))
    by (intros; unfold connect_by, via_gateway, via_socks; total_all).
  revert first svsock last. induction order as [|t order IH]; intros; cbn [orders_loop]; total_all.
Qed.
Lemma total_tryCONNECT : total (tryCONNECT env henv penv services cf E).
Proof using Hwf Hconn.
  unfold tryCONNECT. apply total_bind; [by apply total_change|intros _].
  intros st Hst. erewrite cn_bind_run by reflexivity.
  destruct (Z.eqb_spec (k_ConnectX st) 0) as [Hx|Hx]; [by eexists _, _|].
  assert (Hne : Connects cf <> []) by (by destruct Hst as [_ [[_ Hst]|[Hst _]]]).
  assert (Hset : exists st1, (if co_setup st then mret tt else setupConnect env henv penv cf E) st =
            Some (tt, st1) /\ ready st1).
  { destruct (co_setup st); [by exists st|].
    destruct (total_setupConnect st Hst) as ([] & st1 & E1 & H1). by exists st1. }
  destruct Hset as (st1 & E1 & H1). erewrite cn_bind_run by exact E1. erewrite cn_bind_run by reflexivity.
  destruct (Z.ltb_spec (co_routex st1) 0) as [Hneg|Hpos]; [by eexists _, _|].
  destruct (co_nonet st1); [by eexists _, _|].
  destruct H1 as [Hk1 [[Hnil _]|[_ Hlt]]]; [done|].
  destruct (Connects cf !! Z.to_nat (co_routex st1)) as [Rp|] eqn:ER.
  2: { apply lookup_ge_None in ER. unfold zlen in Hlt. lia. }
  erewrite (cn_bind_run _ _ st1 Rp st1) by done. pose proof total_orders_loop as Ho.
  assert (Ht : total (r ← orders_loop env henv penv services cf E true (m_conn Rp) (-1) 0;
    match r with
    | None => mret (-1, -1)
    | Some (svsock, contype) =>
        _ ← (if 0 <=? svsock then setv (set_ConnType contype) else mret tt); mret (1, svsock)
    end)) by total_all.
  apply Ht. split; [done|right; done].
Qed.
Lemma total_first_of (l : list method) s : Forall (fun m => forall s, total (m s)) l -> total (first_of l s).
Proof using.
  intros Hl. revert s. induction Hl as [|m l Hm Hl IH]; intros s; cbn [first_of]; [apply total_ret|].
  apply total_bind; [apply Hm|intros [ok s']]. destruct ok; [apply total_ret|apply IH].
Qed.
Lemma total_methods proto host port : total (connect_methods env henv penv services cf E proto host port).
Proof using Hwf Hconn.
  assert (Hdef : Forall (fun m : method => forall s, total (m s))
                   (default_methods env henv penv services cf E host port)).
  { unfold default_methods. cbn [app]. destruct (tryProxyOnly E);
      repeat (apply Forall_cons; split); try by apply Forall_nil.
    all: intros s'; unfold via_icp, via_forward, by_default, directly, setServ, ConnectViaVSAP, initConnected,
           by_default; total_all. }
  pose proof total_tryCONNECT. pose proof (fun s => total_first_of _ s Hdef).
  unfold connect_methods, connectToCache, connected, setServ. total_all.
Qed.
Lemma total_set_SRCIF proto host : total (set_SRCIF env henv penv cf E proto host).
Proof using Hwf Hsrcif.
  unfold set_SRCIF. apply total_bind; [|intros [Rp|]; by apply total_change].
  intros st [Hk Hr]. unfold find_SRCIF. erewrite cn_bind_run by reflexivity.
  set (c := s_conn (k_ac st)). pose proof (findRoute_run (k_ac st) (Srcif cf) proto host (Client_Host c) Hk Hsrcif) as Ef.
  set (i := first_fit _ _ _) in Ef. erewrite (cn_bind_run _ _ st i).
  2: { unfold run_acc. by rewrite Ef. }
  destruct (Z.leb_spec 0 i) as [Hi|Hi]; [|by eexists _, _].
  assert (Hb : i = -1 \/ 0 <= i < 0 + zlen (Srcif cf)) by apply first_fit_bound.
  destruct (Srcif cf !! Z.to_nat i) as [Rp|] eqn:ER.
  - by eexists _, _.
  - apply lookup_ge_None in ER. unfold zlen in Hb. lia.
Qed.

(** Connecting comes to an end, whatever is answered from outside: for a
    client that is known, with tables that were read from their texts,
    [connect_to_serverY] returns a socket or a negative number; it reads
    through no null pointer and not behind the end of a table. *)
Theorem connect_returns (proto host : list Z) (port : Z) (st : cn_st) :
  let c := s_conn (k_ac st) in
  ready st -> from_myself c = true \/ forreject c = false /\ name_known henv c = true ->
  exists svsock st', connect_to_serverY env henv penv services cf E proto host port st = Some (svsock, st') /\
    ready st'.
Proof using Hwf Hconn Hsrcif.
  intros c Hst Hc. unfold connect_to_serverY. erewrite cn_bind_run by reflexivity.
  destruct (internal_server _ _ _ _); [by eexists _, _|].
  set (st1 := put_vars _ st). change (ready st1) in Hst.
  assert (Hp : exists ok st2, service_permitted env henv penv services cf proto st1 = Some (ok, st2) /\ ready st2).
  { unfold service_permitted, run_acc. change (k_ac st1) with (k_ac st) in *.
    destruct (from_myself c) eqn:Hmy.
    - unfold service_permitted2. erewrite bind_run by apply conn_run. fold c. rewrite Hmy. by eexists _, _.
    - destruct Hc as [|[Hfr Hn]]; [done|]. destruct Hst as [Hk Hr].
      destruct (service_permitted2_run env henv penv services cf Hwf (k_ac st) proto 0 Hmy Hk Hfr Hn)
        as (x & -> & _). eexists _, _. split; [reflexivity|]. split; [|done].
      by destruct (verdict _ _ _ _ _ _). }
  destruct Hp as (ok & st2 & Ep & H2). erewrite cn_bind_run by exact Ep.
  pose proof total_setupConnect. pose proof total_set_SRCIF. pose proof total_methods.
  assert (Ht : total (if negb ok then mret (-1)
    else c ← kconn;
      if has (co_mask E) CONN_DIRECTONLY
      then ask E (client_open (DFLT_PROTO c) (DST_PROTO c) (DST_HOST c) (DST_PORT c))
      else _ ← setupConnect env henv penv cf E; _ ← set_SRCIF env henv penv cf E proto host;
           connect_methods env henv penv services cf E proto host port)) by total_all.
  by apply Ht.
Qed.
End spec.

(** ** On the proxy of [AccessSpec], with gateways *)
Definition ex_kcf : rt_st HTable :=
  default rt_init
    (st ← scan_FORWARD hp_env0 4 services0 (cs "socks://gw.dom:1080-_-*:*.org") ex_cf;
     st ← scan_FORWARD hp_env0 4 services0 (cs "http://px.dom:3128-_-http") st;
     st ← scan_MASTER hp_env0 4 [] (cs "m1.dom:8080/ssl:*.jp") st;
     st ← scan_MASTER hp_env0 4 [] (cs "m2.dom:8080") st;
     st ← snd <$> scan_CONNECT hp_env0 4 (cs "cache:http:*.old.dom") st;
     st ← snd <$> scan_CONNECT hp_env0 4 (cs "direct,master,vsap:http") st;
     scan_SRCIF hp_env0 4 (cs "10.0.0.9:0:http") st).
(** Only the gateway of [socks] and the second master are reached. *)
Definition ex_answer (_ : list cn_call) (c : cn_call) (v : cn_vars) : Z * cn_vars :=
  (match c with
   | OpenServer _ _ h _ => if streq h (cs "m2.dom") then 9 else -1
   | connectViaSocksX _ _ _ _ _ => 8
   | connect_master _ _ _ | CCSV_reusing _ | forward_RIDENT _ _ | close _ => 0
   | _ => -1
   end, v).
Definition ex_E (path : list Z) : cn_env :=
  CnEnv ex_answer (fun _ => 0) (fun _ => cs "10.0.0.2") path 0 false false false false (cs "GET") [] 0 [] 0
    false false false 1 5 true false false (fun _ => false) true false None (Some (cs "pc.dom")) [].
Definition ex_kconn (proto host : list Z) (port : Z) : Connection :=
  MkConn false 5 (VAddr (Addr 167772161 F4 F4 F4) 40000 (cs "pc.dom") 0) [] 0 (MkAuth 0 [] [] 0) []
    (MkAuth 0 [] [] 0) [] true 0 (MkPort proto host port []) (MkPort proto host port []) 0
    false 0 false false false [].
Definition ex_kst (proto host : list Z) (port : Z) : cn_st :=
  CnSt (AcSt (ex_kconn proto host port) ci0 AddrNull [])
    (CnVars (-1) (-1) (-1) (-1) (-1) 0 false 0 false false false [] [] 0 [] None)
    2 false 0 false false (-1) 0 [] [] 0 0 false [].
Definition ex_connect (path proto host : list Z) (port : Z) : option (Z * Z * list cn_call) :=
  (fun r => (r.1, ConnType (k_vars r.2), k_calls r.2)) <$>
    connect_to_serverY ex_env env0 hp_env0 services0 ex_kcf (ex_E path) proto host port (ex_kst proto host port).

Lemma ex_kcf_wf : lists_wf (r_hp ex_kcf).
Proof. apply lists_wf_check. vm_compute. reflexivity. Qed.
Lemma ex_kcf_read : connects_read ex_kcf /\ Forall (fun Rp => is_Some (m_protoV Rp)) (Srcif ex_kcf).
Proof. split; apply (bool_decide_unpack _); by vm_compute. Qed.

(** The direct connection fails, the gateway of [socks] takes the request. *)
Example connect_1 : ex_connect [] (cs "http") (cs "www.org") 80 =
  Some (8, C_MASTER,
        [Try C_DIRECT; OpenServer (cs "ConnectToServer") (cs "http") (cs "www.org") 80;
         Try C_MASTER; connectViaSocksX (cs "gw.dom") 1080 [] (cs "www.org") 80]).
Proof. vm_compute. reflexivity. Qed.
(** The request came through that gateway; the second master takes it. *)
Example connect_2 : ex_connect (cs "gw.dom:1080") (cs "http") (cs "www.org") 80 =
  Some (9, C_MASTER,
        [Try C_DIRECT; OpenServer (cs "ConnectToServer") (cs "http") (cs "www.org") 80;
         Try C_MASTER; connectToSox (cs "MasterOpen") (cs "delegate") (cs "m2.dom") 8080;
         OpenServer (cs "ToUpper") (cs "delegate") (cs "m2.dom") 8080;
         CCSV_reusing 9; connect_master 2 9 false]).
Proof. vm_compute. reflexivity. Qed.

Lemma ex_kst_known proto host port :
  known (k_ac (ex_kst proto host port)) (s_conn (k_ac (ex_kst proto host port))).
Proof. split; by vm_compute. Qed.
Lemma ex_connect_inv path proto host port s t calls : ex_connect path proto host port = Some (s, t, calls) ->
  exists st', connect_to_serverY ex_env env0 hp_env0 services0 ex_kcf (ex_E path) proto host port
                (ex_kst proto host port) = Some (s, st') /\ k_calls st' = calls.
Proof.
  unfold ex_connect. destruct (connect_to_serverY _ _ _ _ _ _ _ _ _ _) as [[s' st']|]; [|done].
  intros [= <- <- <-]. eauto.
Qed.
Lemma connect_no_loop_witness : exists calls : list cn_call,
  (exists st', connect_to_serverY ex_env env0 hp_env0 services0 ex_kcf (ex_E (cs "gw.dom:1080"))
    (cs "http") (cs "www.org") 80 (ex_kst (cs "http") (cs "www.org") 80) = Some (9, st') /\ k_calls st' = calls) /\
  connectToSox (cs "MasterOpen") (cs "delegate") (cs "m2.dom") 8080 ∈ calls /\
  forall c h p, c ∈ calls -> upper_of c = Some (h, p) -> (h, p) <> (cs "gw.dom", 1080).
Proof.
  destruct (ex_connect_inv _ _ _ _ _ _ _ connect_2) as (st' & E & E2).
  destruct (connect_no_loop ex_env env0 hp_env0 services0 ex_kcf (ex_E (cs "gw.dom:1080"))
    (conj eq_refl eq_refl) _ _ _ _ _ _ E) as (calls & Ec & Hall).
  exists calls. cbn [ex_kst k_calls app] in Ec. split; [exact (ex_intro _ st' (conj E Ec))|]. split.
  - rewrite <- Ec, E2. do 3 right. by left.
  - assert (Hin : CTX_findInPath (ex_E (cs "gw.dom:1080")) (cs "gw.dom") 1080 = true) by (vm_compute; reflexivity).
    intros c h p Hc Hu. destruct (Hall c h p Hc Hu) as [_ Hp]. intros E'.
    assert (E3 : (h, p).1 = cs "gw.dom" /\ (h, p).2 = 1080) by (rewrite E'; by split).
    cbn [fst snd] in E3, Hp. destruct E3 as [-> ->]. rewrite Hin in Hp. discriminate Hp.
Defined.
Lemma connect_refused_witness : exists st',
  connect_to_serverY ex_env env0 hp_env0 services0 ex_kcf (ex_E []) (cs "https") (cs "www.org") 8443
    (ex_kst (cs "https") (cs "www.org") 8443) = Some (-1, st') /\ k_calls st' = [].
Proof.
  destruct (connect_refused ex_env env0 hp_env0 services0 ex_kcf (ex_E []) ex_kcf_wf
    (cs "https") (cs "www.org") 8443 (ex_kst (cs "https") (cs "www.org") 8443)) as (x & E & _).
  - reflexivity.
  - apply ex_kst_known.
  - reflexivity.
  - reflexivity.
  - reflexivity.
  - by vm_compute.
  - eexists. split; [exact E|reflexivity].
Defined.

(** The order is [direct,master,vsap]; the method that is tried last gives the
    socket. *)
Definition ex_setup (routex : Z) (st : cn_st) : cn_st :=
  put_setup (k_ConnectX st) true routex false false (-1) st.
Lemma ex_fmap {A B} (f : A -> B) (o : option A) b : f <$> o = Some b -> exists a, o = Some a /\ f a = b.
Proof. destruct o; [|done]. intros [= <-]. eauto. Qed.
Lemma ex_orders : (exists Rp, Connects ex_kcf !! 0%nat = Some Rp /\ m_conn Rp = [C_CACHE]) /\
  (exists Rp, Connects ex_kcf !! 1%nat = Some Rp /\ m_conn Rp = [C_DIRECT; C_MASTER; C_VSAP]).
Proof. split; apply ex_fmap; vm_compute; reflexivity. Qed.
Lemma ex_tried : exists r, tryCONNECT ex_env env0 hp_env0 services0 ex_kcf (ex_E [])
  (ex_setup 1 (ex_kst (cs "http") (cs "www.org") 80)) = Some r /\ r.1 = (1, 8).
Proof. apply ex_fmap. vm_compute. reflexivity. Qed.
Lemma tryCONNECT_order_witness : exists st' k,
  tryCONNECT ex_env env0 hp_env0 services0 ex_kcf (ex_E []) (ex_setup 1 (ex_kst (cs "http") (cs "www.org") 80)) =
    Some ((1, 8), st') /\
  tries_of (k_calls st') = take k [C_DIRECT; C_MASTER; C_VSAP] /\
  last (take k [C_DIRECT; C_MASTER; C_VSAP]) = Some (ConnType (k_vars st')).
Proof.
  destruct ex_orders as [_ (Rp & ER & Ho)]. destruct ex_tried as ([r st'] & Et & Er).
  cbn [fst] in Er. subst r. rewrite <- Ho.
  assert (H2 : (2 : Z) <> 0) by lia. assert (H1 : 0 <= 1) by lia.
  destruct (tryCONNECT_order ex_env env0 hp_env0 services0 ex_kcf (ex_E [])
    (ex_setup 1 (ex_kst (cs "http") (cs "www.org") 80)) st' Rp 1 8 H2 eq_refl H1 eq_refl ER Et)
    as (k & calls & Ec & Ht & _ & _ & [(_ & _ & Hl)|(Hn & _)]);
    [|discriminate Hn].
  exists st', k. split; [exact Et|]. split; [rewrite Ec; exact Ht|apply Hl; lia].
Defined.
Lemma ex_forward : exists r, DELEGATE_forwardX ex_env env0 hp_env0 ex_kcf (ex_E []) (cs "http") (cs "www.jp") 80
  (cs "pc.dom") (ex_kst (cs "http") (cs "www.jp") 80) = Some r /\ option_map m_gw_host r.1 = Some (cs "px.dom").
Proof. apply ex_fmap. vm_compute. reflexivity. Qed.
Lemma same_result {A B} (o : option (A * B)) (r : A * B) a b : o = Some r -> o = Some (a, b) -> a = r.1.
Proof. by intros -> [= ->]. Qed.
Lemma DELEGATE_forwardX_first_witness :
  let ac := k_ac (ex_kst (cs "http") (cs "www.jp") 80) in
  exists Rp,
  find (gateway_fits ex_env env0 hp_env0 ex_kcf (ex_E []) (pushed ex_env (s_ci ac) (s_conn ac))
          (s_peer ac) (s_conn ac) (cs "http") (cs "www.jp") 80 (cs "pc.dom"))
    (Forwards ex_kcf) = Some Rp /\ m_gw_host Rp = cs "px.dom".
Proof.
  destruct (DELEGATE_forwardX_first ex_env env0 hp_env0 ex_kcf (ex_E []) ex_kcf_wf
    (ex_kst (cs "http") (cs "www.jp") 80) (cs "http") (cs "www.jp") 80 (cs "pc.dom") (ex_kst_known _ _ _))
    as (st' & E & _).
  destruct ex_forward as (r & E2 & Hr). apply (same_result _ _ _ _ E2) in E. rewrite <- E in Hr.
  intros ac. destruct (find _ _) as [Rp|]; [|discriminate Hr].
  injection Hr as Hr. exists Rp. split; [reflexivity|exact Hr].
Defined.
Lemma ex_connect_index :
  connect_index ex_env env0 hp_env0 ex_kcf (ex_kst (cs "http") (cs "x.old.dom") 80) (cs "pc.dom") = 0.
Proof. vm_compute. reflexivity. Qed.
Lemma cache_only_offline_witness : exists st',
  tryCONNECT ex_env env0 hp_env0 services0 ex_kcf (ex_E []) (ex_kst (cs "http") (cs "x.old.dom") 80) =
    Some ((-1, -1), st') /\ k_calls st' = [].
Proof.
  destruct ex_orders as [(Rp & ER & Ho) _]. assert (H2 : (2 : Z) <> 0) by lia.
  destruct (cache_only_offline ex_env env0 hp_env0 services0 ex_kcf (ex_E []) ex_kcf_wf
    (ex_kst (cs "http") (cs "x.old.dom") 80) (cs "pc.dom") Rp (proj1 ex_kcf_read) (ex_kst_known _ _ _)
    H2 eq_refl eq_refl eq_refl) as (st' & E & Hc & _).
  - rewrite ex_connect_index. lia.
  - rewrite ex_connect_index. exact ER.
  - exact Ho.
  - exists st'. split; [exact E|exact Hc].
Defined.
Lemma ex_masters : exists r, open_master ex_env env0 hp_env0 services0 ex_kcf (ex_E []) true (cs "www.jp") 80 true
    (ex_kst (cs "http") (cs "www.jp") 80) = Some r /\ (r.1, sent_to (k_calls r.2)) = (9, [2]).
Proof. apply (ex_fmap (fun r => (r.1, sent_to (k_calls r.2)))). vm_compute. reflexivity. Qed.
Lemma masters_once_witness : exists st' : cn_st,
  open_master ex_env env0 hp_env0 services0 ex_kcf (ex_E []) true (cs "www.jp") 80 true
    (ex_kst (cs "http") (cs "www.jp") 80) = Some (9, st') /\
  sublist [2] (turns ex_kcf (ex_E [])).
Proof.
  destruct ex_masters as ([s st'] & E & Er). cbn [fst snd] in Er. injection Er as -> Hs.
  destruct (masters_once ex_env env0 hp_env0 services0 ex_kcf (ex_E []) (conj eq_refl eq_refl) _ _ _ _ _ _ _ E)
    as (calls & Ec & Hsub & _).
  exists st'. split; [exact E|]. cbn [ex_kst k_calls app] in Ec. rewrite <- Ec, Hs in Hsub. exact Hsub.
Defined.
Lemma connect_returns_witness : exists svsock st',
  connect_to_serverY ex_env env0 hp_env0 services0 ex_kcf (ex_E []) (cs "ftp") (cs "www.jp") 21
    (ex_kst (cs "ftp") (cs "www.jp") 21) = Some (svsock, st').
Proof.
  assert (Hn : name_known env0 (ex_kconn (cs "ftp") (cs "www.jp") 21) = true) by (vm_compute; reflexivity).
  assert (Hne : Connects ex_kcf <> [] /\ 0 < zlen (Connects ex_kcf)).
  { destruct ex_orders as [(Rp & ER & _) _]. destruct (Connects ex_kcf); [discriminate ER|]. split; [done|].
    rewrite zlen_cons. pose proof (zlen_nonneg l). lia. }
  destruct (connect_returns ex_env env0 hp_env0 services0 ex_kcf (ex_E []) ex_kcf_wf (proj1 ex_kcf_read)
    (proj2 ex_kcf_read) (cs "ftp") (cs "www.jp") 21 (ex_kst (cs "ftp") (cs "www.jp") 21)
    (conj (ex_kst_known _ _ _) (or_intror Hne)) (or_intror (conj eq_refl Hn))) as (s & st' & E & _).
  exists s, st'. exact E.
Defined.

(** *** What is not as it is meant *)
Definition ex_calls (cf : option (rt_st HTable)) (nconn : Z) : option (Z * list cn_call) :=
  cf ≫= fun cf => (fun r => (r.1, k_calls r.2)) <$>
    connect_to_serverY ex_env env0 hp_env0 services0 cf (ex_E []) (cs "http") (cs "www.jp") 80
      (put_setup nconn false 0 false false (-1) (ex_kst (cs "http") (cs "www.jp") 80)).
(** [DIRECT] makes a master [@], which [open_master] takes for a host. *)
Lemma direct_is_no_master :
  ex_calls (st ← scan_DIRECT hp_env0 4 (cs "*.jp") ex_cf;
            snd <$> scan_CONNECT hp_env0 4 (cs "master") st) 1 =
  Some (-1, [Try C_MASTER; connectToSox (cs "MasterOpen") (cs "delegate") [64] 0;
             OpenServer (cs "ToUpper") (cs "delegate") [64] 0]).
Proof. vm_compute. reflexivity. Qed.
(** A master [*] that fails to connect directly is looked up as a host. *)
Lemma star_is_a_host :
  ex_calls (st ← scan_MASTER hp_env0 4 (cs "0") (cs "*:*.jp") ex_cf;
            snd <$> scan_CONNECT hp_env0 4 (cs "master") st) 1 =
  Some (-1, [Try C_MASTER; OpenServer (cs "ConnectToServer") (cs "http") (cs "www.jp") 80;
             connectToSox (cs "MasterOpen") (cs "delegate") [STAR] 0;
             OpenServer (cs "ToUpper") (cs "delegate") [STAR] 0]).
Proof. vm_compute. reflexivity. Qed.
(** [noroute] forbids the server, and the next method connects to it. *)
Lemma noroute_bypassed :
  ex_calls (st ← scan_FORWARD hp_env0 4 services0 (cs "noroute-_-*:*.jp") ex_cf;
            snd <$> scan_CONNECT hp_env0 4 (cs "master,direct") st) 1 =
  Some (-1, [Try C_MASTER; Try C_DIRECT;
             OpenServer (cs "ConnectToServer") (cs "http") (cs "www.jp") 80]) /\
  ex_calls (scan_FORWARD hp_env0 4 services0 (cs "noroute-_-*:*.jp") ex_cf) 0 = Some (-1, [ConnectViaICP]).
Proof. split; vm_compute; reflexivity. Qed.
(** The flags of a master that is not for the server are kept. *)
Lemma flags_of_skipped_master :
  (st ← scan_MASTER hp_env0 4 [] (cs "m1.dom:8080/ssl:*.org") ex_cf;
   (fun r => (r.1, ConnectFlags (s_conn (k_ac r.2)), k_calls r.2)) <$>
     open_master ex_env env0 hp_env0 services0 st (ex_E []) true (cs "www.jp") 80 true
       (ex_kst (cs "http") (cs "www.jp") 80)) = Some (-1, COF_SSL_SV, []).
Proof. vm_compute. reflexivity. Qed.
(** The list of ports is torn. *)
Lemma forward_tears_ports :
  (fun st => map (fun Rp => map p_name (default [] (m_protoV Rp))) (Forwards st)) <$>
    scan_FORWARD hp_env0 4 services0 (cs "socks://gw:1080-_-https/{80,443}") rt_init =
  Some [[cs "https"; cs "443}"]].
Proof. vm_compute. reflexivity. Qed.
