(* ===== verification/PermitSpec.v ===== *)
(** * Access control: what one more parameter does

    In the tables, a [REJECT] that is added never permits anything, a [PERMIT]
    that is added to others never forbids anything, and one that is added to
    an empty table only restricts.
    A [PERMIT] or [REJECT] written as lists of protocols and names, from its
    text to the requests that it applies to. *)
From S2P Require Import Prelude Strings Glob ScanList ListOps HashTab Service ProtoV StrId.
From S2P Require Import HostAddr HostMatch HostSpec HostParse HostText HostFrame Route Config RouteSpec.
From S2P Require Import Access AccessSpec.
From stdpp Require Import gmap.
From stdpp Require Import options.
Local Open Scope Z_scope.

Section mono.
Context {T : Type} `{IdTable T} (env : ac_env) (henv : hl_env) (penv : hp_env).
Variables (services : list Service) (fuel : nat).

(** What was there is there, with the same lists. *)
Record extends (cf cf' : rt_st T) : Prop := {
  ex_lists rtx Rp : Rp ∈ rt_routes (RT_ROUTE rtx cf) ->
    dsts cf' Rp = dsts cf Rp /\ srcs cf' Rp = srcs cf Rp;
  ex_named i hl : tab_of (r_hp cf) i = Some hl -> tab_of (r_hp cf') i = Some hl
}.
(** One route more, in a table. *)
Definition one_more (rtx : nat) (Rp : Route) (cf cf' : rt_st T) : Prop :=
  forall rtx', rt_routes (RT_ROUTE rtx' cf') =
    rt_routes (RT_ROUTE rtx' cf) ++ (if Nat.eqb rtx' rtx then [Rp] else []).

Definition rule_table (fr : bool) : nat := if fr then R_REJECT else R_PERMIT.
(** A [PERMIT] with more than a list of protocols, or a [REJECT]. *)
Definition is_rule (fr : bool) (text : list Z) : Prop :=
  fr = true \/ exists pc l, scan_Listlist text COLON 3 = Some (pc, l) /\ 1 < pc.

Lemma route_ref (cf : rt_st T) rtx Rp b : Rp ∈ rt_routes (RT_ROUTE rtx cf) ->
  exists p, ref_at cf p = Some (route_list b Rp).
Proof using.
  intros [i Hi]%list_elem_of_lookup. exists (rtx, i, b). unfold ref_at. cbn [fst snd]. by rewrite Hi.
Qed.
Lemma read_extends n (cf cf' : rt_st T) what dl sl d s : rt_ok cf ->
  lists_read penv n what dl sl (r_hp cf) (r_hp cf') d s -> extends cf cf'.
Proof using.
  intros Hok Hread. destruct (lists_read_frames _ _ _ _ _ _ _ _ _ Hread (ok_hp _ Hok))
    as (_ & _ & _ & Hsame & Htab). split.
  - intros rtx Rp Hin. unfold dsts, srcs. split; apply Hsame.
    + destruct (route_ref cf rtx Rp false Hin) as [p Hp]. by apply (ok_refs _ Hok) in Hp.
    + destruct (route_ref cf rtx Rp true Hin) as [p Hp]. by apply (ok_refs _ Hok) in Hp.
  - intros i hl. unfold tab_of. destruct (p_tab (r_hp cf) !! i) as [x|] eqn:E; [|done].
    intros [= <-]. rewrite (lookup_weaken _ _ _ _ E Htab). cbn. f_equal. apply Hsame.
    by apply (ok_hp _ Hok) in E.
Qed.

Lemma counted_one_more b rtx Rp (cf cf1 : rt_st T) : (rtx < length (r_tabs cf1))%nat ->
  (forall rtx', RT_ROUTE rtx' cf1 =
     if Nat.eqb rtx' rtx then newRoute Rp (RT_ROUTE rtx cf) else RT_ROUTE rtx' cf) ->
  one_more rtx Rp cf (alter_tab (count_withsrc b) rtx cf1).
Proof using.
  intros Hlt Htab rtx'. rewrite RT_alter, !Htab by done.
  destruct (Nat.eqb_spec rtx' rtx) as [->|]; [by rewrite Nat.eqb_refl|by rewrite app_nil_r].
Qed.
Lemma permit_adds (fr : bool) dp text (cf cf' : rt_st T) : rt_ok cf -> is_rule fr text ->
  permit penv fuel services fr dp text cf = Some cf' ->
  exists Rp, one_more (rule_table fr) Rp cf cf' /\ extends cf cf'.
Proof using.
  intros Hok Hrule. unfold permit, scan_PERMITV.
  destruct (scan_Listlist text COLON 3) as [[pc l]|] eqn:El; [|done]. cbn [mbind option_bind]. cbv zeta.
  assert (Hc : negb fr && (pc <=? 1) = false).
  { destruct Hrule as [->|(pc' & l' & E & Hpc)]; [done|]. rewrite El in E. injection E as <- <-.
    rewrite (proj2 (Z.leb_gt _ _)) by lia. apply andb_false_r. }
  rewrite Hc. destruct (protoList _ _ _ _) as [pv|]; [|done]. cbn [mbind option_bind].
  fold (rule_table fr). destruct (addRoute1 _ _ _ _ _ _ _ _ _ _ _ _) as [cf1|] eqn:E; [|done].
  cbn [mbind option_bind]. intros [= <-].
  assert (Hlt : (rule_table fr < 14)%nat) by (destruct fr; unfold rule_table, R_REJECT, R_PERMIT; lia).
  apply addRoute1_ok in E as (Hok1 & d & s & Hread & Htab); [|done|done].
  eexists. split.
  - eapply counted_one_more; [by rewrite (ok_length _ Hok1)|exact Htab].
  - eapply read_extends; [done|exact Hread].
Qed.

(** ** The same answers *)
Section same.
Variables (cf cf' : rt_st T).
Hypotheses (Hwf : lists_wf (r_hp cf)) (Hext : extends cf cf').

Lemma asks_extends ci peer hl proto host port user av : list_wf (tab_of (r_hp cf)) hl ->
  asks henv penv cf' ci peer hl proto host port user av =
  asks henv penv cf ci peer hl proto host port user av.
Proof using Hwf Hext.
  intros Hl. unfold asks, CTX_hostIsinListX.
  rewrite (hostIsinListX_more henv (tab_of (r_hp cf)) (tab_of (r_hp cf')) ci (tab_of_wf _ Hwf)
             (ex_named _ _ Hext)) by done. done.
Qed.
Variables (ci : ClientInfo) (peer : vaddr) (c : Connection) (shost : list Z) (sport : Z).
Lemma route_applies_extends proto dhost dport fr rtx Rp : Rp ∈ rt_routes (RT_ROUTE rtx cf) ->
  route_applies env henv penv services cf' ci peer c shost sport proto dhost dport fr Rp =
  route_applies env henv penv services cf ci peer c shost sport proto dhost dport fr Rp.
Proof using Hwf Hext.
  intros Hin. unfold route_applies. destruct (ex_lists _ _ Hext rtx Rp Hin) as [-> ->].
  by rewrite !asks_extends by (apply (get_list_wf cf Hwf)).
Qed.

Lemma find_app {A} (f : A -> bool) l l' :
  find f (l ++ l') = match find f l with Some x => Some x | None => find f l' end.
Proof using. induction l as [|x l IH]; [done|]. cbn [app find]. by destruct (f x). Qed.
Lemma find_ext_in {A} (f g : A -> bool) l : (forall x, x ∈ l -> f x = g x) -> find f l = find g l.
Proof using.
  intros Hfg. induction l as [|x l IH]; [done|]. cbn [find]. rewrite Hfg by (by left).
  rewrite IH; [done|]. intros y Hy. apply Hfg. by right.
Qed.

(** The verdict of a table that was added to. *)
Lemma first_verdict_more proto dhost dport fr method rtx l :
  first_verdict env henv penv services cf' ci peer c shost sport proto dhost dport fr method
    (rt_routes (RT_ROUTE rtx cf) ++ l) =
  match find (route_applies env henv penv services cf ci peer c shost sport proto dhost dport fr)
          (rt_routes (RT_ROUTE rtx cf)) with
  | Some Rp => route_verdict services c proto dport fr method Rp
  | None => first_verdict env henv penv services cf' ci peer c shost sport proto dhost dport fr method l
  end.
Proof using Hwf Hext.
  unfold first_verdict. rewrite find_app.
  rewrite (find_ext_in _ (route_applies env henv penv services cf ci peer c shost sport proto dhost
    dport fr)) by (intros Rp Hin; by eapply route_applies_extends).
  by destruct (find _ _).
Qed.
Lemma first_verdict_same proto dhost dport fr method rtx :
  first_verdict env henv penv services cf' ci peer c shost sport proto dhost dport fr method
    (rt_routes (RT_ROUTE rtx cf)) =
  first_verdict env henv penv services cf ci peer c shost sport proto dhost dport fr method
    (rt_routes (RT_ROUTE rtx cf)).
Proof using Hwf Hext.
  pose proof (first_verdict_more proto dhost dport fr method rtx []) as E. rewrite app_nil_r in E.
  rewrite E. unfold first_verdict. by destruct (find _ (rt_routes _)).
Qed.

(** What does not depend on the table. *)
Variables (fr : bool) (Rp : Route).
Hypothesis Hone : one_more (rule_table fr) Rp cf cf'.
Lemma other_table rtx : rtx <> rule_table fr ->
  rt_routes (RT_ROUTE rtx cf') = rt_routes (RT_ROUTE rtx cf).
Proof using Hone.
  intros Hne. rewrite (Hone rtx), (proj2 (Nat.eqb_neq _ _)) by done. apply app_nil_r.
Qed.
Lemma Remittable_same : Remittable cf' = Remittable cf.
Proof using Hone. unfold Remittable. by rewrite other_table by (by destruct fr). Qed.
Lemma reliable_same : reliable env henv penv cf' ci peer c shost sport =
  reliable env henv penv cf ci peer c shost sport.
Proof using Hwf Hext Hone.
  assert (E : ReliableList cf' = ReliableList cf).
  { unfold ReliableList. rewrite other_table by (by destruct fr).
    destruct (rt_routes (RT_ROUTE R_RELIABLE cf)) as [|Rp' l] eqn:E; [done|].
    apply (ex_lists _ _ Hext R_RELIABLE). rewrite E. by left. }
  unfold reliable. rewrite E, asks_extends; [done|].
  unfold ReliableList. destruct (rt_routes _); [constructor|apply (get_list_wf cf Hwf)].
Qed.
Lemma reachable_same : reachable henv penv cf' ci peer c = reachable henv penv cf ci peer c.
Proof using Hwf Hext Hone.
  assert (E : ReachableList cf' = ReachableList cf).
  { unfold ReachableList. rewrite other_table by (by destruct fr).
    destruct (rt_routes (RT_ROUTE R_REACHABLE cf)) as [|Rp' l] eqn:E; [done|].
    apply (ex_lists _ _ Hext R_REACHABLE). rewrite E. by left. }
  unfold reachable. rewrite E, asks_extends; [done|].
  unfold ReachableList. destruct (rt_routes _); [constructor|apply (get_list_wf cf Hwf)].
Qed.
End same.

(** C13. A rule that [scan_PERMITV] adds to the tables of a server, which are
    otherwise the same before and after.  A [REJECT] never lets a request
    through that was refused.  A [PERMIT] of more than protocols never
    refuses a request that was permitted, if the table of [PERMIT]s was not
    empty; into an empty table it never lets one through that was refused.
    (This is the step on the tables.  When a server starts, a first [PERMIT]
    with sources has the further effect that the default [RELIABLE] is not
    read, and that lets clients in: [first_permit_admits].) *)
Theorem rules_monotone (fr : bool) (dp text : list Z) (cf cf' : rt_st T) (ci : ClientInfo)
  (peer : vaddr) (c : Connection) (shost : list Z) (sport : Z) :
  rt_ok cf -> lists_wf (r_hp cf) -> is_rule fr text ->
  permit penv fuel services fr dp text cf = Some cf' ->
  let old := policy env henv penv services cf ci peer c shost sport in
  let new := policy env henv penv services cf' ci peer c shost sport in
  if fr || bool_decide (Permits cf = []) then new = true -> old = true else old = true -> new = true.
Proof using.
  intros Hok Hwf Hrule E. destruct (permit_adds _ _ _ _ _ Hok Hrule E) as (Rp & Hone & Hext).
  cbv zeta. unfold policy, permitted, remittable, rejected.
  rewrite (reliable_same cf cf' Hwf Hext _ _ _ _ _ fr Rp Hone),
    (reachable_same cf cf' Hwf Hext _ _ _ fr Rp Hone), (Remittable_same cf cf' fr Rp Hone).
  set (proto := DST_PROTO c). set (dhost := DST_HOST c). set (dport := DST_PORT c).
  set (pre := negb (screened c) && _ && _ && _). clearbody pre.
  set (rem := no_dstcheck c || _). clearbody rem.
  unfold Rejects, Permits in *. destruct fr; cbn [orb].
  - assert (Ep : rt_routes (RT_ROUTE R_PERMIT cf') = rt_routes (RT_ROUTE R_PERMIT cf))
      by (by apply (other_table cf cf' true Rp)).
    rewrite Ep, (first_verdict_same cf cf' Hwf Hext), (Hone R_REJECT).
    change (Nat.eqb R_REJECT (rule_table true)) with true. cbv iota.
    rewrite (first_verdict_more cf cf' Hwf Hext).
    set (oldv := first_verdict _ _ _ _ cf _ _ _ _ _ _ _ _ true _ _).
    assert (Hr : oldv = match find (route_applies env henv penv services cf ci peer c shost sport
      proto dhost dport true) (rt_routes (RT_ROUTE R_REJECT cf)) with
      | Some Rp => route_verdict services c proto dport true None Rp | None => false end) by done.
    rewrite Hr. destruct (find _ _); [done|].
    intros [[-> _]%andb_prop Hperm]%andb_prop. by rewrite Hperm.
  - assert (Er : rt_routes (RT_ROUTE R_REJECT cf') = rt_routes (RT_ROUTE R_REJECT cf))
      by (by apply (other_table cf cf' false Rp)).
    rewrite Er, (first_verdict_same cf cf' Hwf Hext), (Hone R_PERMIT).
    change (Nat.eqb R_PERMIT (rule_table false)) with true. cbv iota.
    set (rej := first_verdict _ _ _ _ cf _ _ _ _ _ _ _ _ true _ _). clearbody rej.
    case_bool_decide as Enil.
    + by intros [-> [-> _]%andb_prop]%andb_prop.
    + rewrite bool_decide_false by (by destruct (rt_routes (RT_ROUTE R_PERMIT cf))). cbn [orb].
      rewrite (first_verdict_more cf cf' Hwf Hext).
      assert (Hv : first_verdict env henv penv services cf ci peer c shost sport proto dhost dport
        false None (rt_routes (RT_ROUTE R_PERMIT cf)) =
        match find (route_applies env henv penv services cf ci peer c shost sport
          proto dhost dport false) (rt_routes (RT_ROUTE R_PERMIT cf)) with
        | Some Rp => route_verdict services c proto dport false None Rp | None => false end) by done.
      rewrite Hv. destruct (find _ _); [done|]. by rewrite !andb_false_r.
Qed.

(** ** From the text of a rule to the requests that it applies to *)

Definition rule_text (V : list Server) (dn sn : list (list Z)) : list Z :=
  sprintProtoV V ++ COLON :: comma_join dn ++ COLON :: comma_join sn.
(** The protocols that a rule can name. *)
Definition available (fr : bool) (cf : rt_st T) : list (list Z) :=
  match Remittable cf with
  | Some V => if fr then take (pred NSERVICES) (service_names services)
              else map p_name (take (pred MAXPROTO) V)
  | None => take (pred NSERVICES) (service_names services)
  end.

Lemma name_text_balanced sep t : name_text t -> name_char sep = false -> sep <> 33 ->
  balanced sep 0 t = true.
Proof using.
  intros Ht Hs H33. apply (balanced_sep COMMA sep); [by apply text_no|]. apply balanced_plain.
  apply forallb_forall. intros c Hc. apply negb_true_iff. unfold special.
  assert (Hno : forall k, existsb (Z.eqb k) t = false -> (c =? k) = false).
  { intros k Hk. apply Z.eqb_neq. intros ->. apply not_true_iff_false in Hk. apply Hk, existsb_exists.
    exists k. by rewrite Z.eqb_refl. }
  by rewrite !Hno by (apply text_no; done).
Qed.
Lemma names_text dn : Forall name_text dn -> dn <> [] ->
  balanced COLON 0 (comma_join dn) = true /\ cat (comma_join dn) 0 <> LBRACE /\ comma_join dn <> [].
Proof using.
  intros Hd Hne. unfold comma_join. rewrite <- commas_join.
  assert (Hnil : Forall (fun t => t <> [] /\ cat t 0 <> LBRACE) dn).
  { eapply Forall_impl; [exact Hd|]. intros t Ht. destruct (plain_cons _ Ht) as (c & n' & En).
    pose proof (plain_hd_neq _ LBRACE Ht eq_refl) as Hc. rewrite En, cat_0 in Hc. apply Z.eqb_neq in Hc.
    destruct (name_text_cases t Ht) as [[-> _]|[-> _]]; rewrite ?En; done. }
  split_and!.
  - apply balanced_commas; [by apply (bool_decide_unpack _)|done|]. eapply Forall_impl; [exact Hd|].
    intros t Ht. by apply name_text_balanced.
  - rewrite cat_commas by (eapply Forall_impl; [exact Hnil|]; by intros t [? _]).
    destruct Hnil as [|t l [_ Ht] _]; done.
  - destruct Hnil as [|t l [Ht _] _]; [done|]. destruct l; cbn; [done|]. by destruct t.
Qed.
Lemma servers_text tv V : Forall (entry_ok tv) V ->
  balanced COLON 0 (sprintProtoV V) = true /\ cat (sprintProtoV V) 0 <> LBRACE.
Proof using.
  intros HV. pose proof (entry_texts tv V HV) as Ht. unfold sprintProtoV. split.
  - apply balanced_commas; [by apply (bool_decide_unpack _)|done|]. apply Forall_map.
    eapply Forall_impl; [exact HV|]. intros s (Hok & Hb & _). apply (balanced_sep COMMA); [|done].
    pose proof Hok as ((Hc & _) & _ & _ & _ & Hm & _). rewrite sprint_text by done. unfold proto_text.
    rewrite !existsb_app, Hc. cbn [orb].
    assert (Hp : existsb (Z.eqb COLON) (ports_text s) = false) by (by apply ports_text_no).
    destruct (p_methods s) as [m|]; cbn [default from_option id];
      do 2 (case_bool_decide; cbn [existsb orb]; rewrite ?Hp, ?(proj2 Hm)); done.
  - rewrite cat_commas by (eapply Forall_impl; [exact Ht|]; by intros t (_ & _ & ?)).
    by destruct Ht as [|t l (_ & Hc & _) _].
Qed.

(** The parts of the text of a rule. *)
Definition rule_parts (V : list Server) (dn sn : list (list Z)) : list (list Z * list Z) :=
  map (fun t => (t, t)) [sprintProtoV V; comma_join dn; comma_join sn].
Lemma rule_plain V dn sn tv : Forall (entry_ok tv) V -> Forall name_text dn -> dn <> [] ->
  Forall name_text sn -> sn <> [] -> plain_list COLON (rule_parts V dn sn).
Proof using.
  intros HV Hd Hdne Hs Hsne. destruct (servers_text tv V HV) as [BV CV].
  destruct (names_text dn Hd Hdne) as (Bd & Cd & Nd). destruct (names_text sn Hs Hsne) as (Bs & Cs & Ns).
  split; [split|].
  - repeat (apply Forall_cons; split); [by apply balanced_elem..|constructor].
  - done.
  - repeat (apply Forall_cons; split); [by eapply balanced_escapes..|constructor].
Qed.
Lemma rule_split V dn sn tv : Forall (entry_ok tv) V -> Forall name_text dn -> dn <> [] ->
  Forall name_text sn -> sn <> [] ->
  scan_Listlist (rule_text V dn sn) COLON 3 =
  Some (3, [sprintProtoV V; comma_join dn; comma_join sn]).
Proof using.
  intros HV Hd Hdne Hs Hsne. change (rule_text V dn sn) with (ScanList.join COLON (rule_parts V dn sn)).
  rewrite scan_Listlist_list; [done| | |done|lia].
  - by apply (bool_decide_unpack _).
  - by apply (rule_plain V dn sn tv).
Qed.

(** The names of a query, and lists of names. *)
Definition plain_query (q : hl_query) : Prop := cstr_ok (q_cname q) /\ scanVdomain (q_cname q) = None.
Definition in_names (texts : list (list Z)) (q : hl_query) : bool :=
  in_list (fun n => name_match n (map tolower (q_cname q)) (q_alias q)) texts.
Definition names_stay (hp : hp_st T) (texts : list (list Z)) : Prop :=
  Forall name_text texts /\ texts <> [] /\
  Forall (fun t => stays_name penv hp (list_item t).2) texts.

Lemma read_new_list f (hp : hp_st T) hl texts : p_size hp <> 0 -> hl_flags hl = 0 -> hl_List hl = [] ->
  stays_name penv hp [STAR] -> names_stay hp texts ->
  let st := (new_list hp hl).1 in
  exists hp', scan_commaListL (addHostList1 penv (S (S f))) (comma_join texts) (length (p_store hp)) st =
    Some hp' /\ p_size hp' <> 0 /\ p_hash hp' = p_hash hp /\
    length (p_store hp') = S (length (p_store hp)) /\
    hl_flags (get_list hp' (length (p_store hp))) = 0 /\
    hl_List (get_list hp' (length (p_store hp))) = fold_left add_text texts [] /\
    (forall x, (x < length (p_store hp))%nat -> get_list hp' x = get_list hp x).
Proof using.
  intros Hsz Hf Hnil Hstar (Ht & Hne & Hs) st. set (r := length (p_store hp)).
  assert (Hlen : length (p_store st) = S r) by (subst st r; cbn; rewrite length_app; simpl; lia).
  assert (Hready : ready st r).
  { split_and!; [lia|exact Hsz|]. subst st r. by rewrite get_new_same. }
  assert (Hitems : items_of st r = []) by (unfold items_of; subst st r; by rewrite get_new_same).
  pose proof (read_names penv f r st texts Hstar Hready Hne Ht Hs) as E. rewrite Hitems in E.
  exists (with_items st r (fold_left add_text texts [])).
  pose proof (ready_with st r (fold_left add_text texts []) Hready) as (_ & _ & Hf').
  split_and!; [exact E|exact Hsz|done| |exact Hf'|by apply (items_with st r); lia|].
  - unfold with_items, set_list. cbn [p_store]. by rewrite length_insert.
  - intros x Hx. unfold with_items. rewrite get_set_other by lia. by apply (get_new hp hl).
Qed.

Lemma names_asks (cf : rt_st T) ci peer hl proto host port user av texts :
  hl_flags hl = 0 -> hl_List hl = fold_left add_text texts [] -> texts <> [] ->
  Forall name_text texts -> plain_query (ask_query penv no_list proto host port user av) ->
  asks henv penv cf ci peer hl proto host port user av =
  in_names texts (ask_query penv no_list proto host port user av).
Proof using.
  intros Hf Hl Hne Ht.
  assert (E : ask_query penv no_list proto host port user av = ask_query penv hl proto host port user av)
    by (unfold ask_query; by rewrite Hf).
  rewrite E. intros [Hc Hv]. unfold asks, CTX_hostIsinListX, in_names.
  destruct (names_verdict henv (tab_of (r_hp cf)) ci hl (ask_query penv hl proto host port user av) peer
    texts Hf Hl Hne Ht Hc Hv) as (hi & -> & Hhi & Hin).
  destruct (in_list _ texts).
  - assert (0 < hi) by (by apply Hin). destruct (Z.eqb_spec hi 0); [lia|done].
  - destruct (Z.eqb_spec hi 0); [done|]. assert (Hpos : 0 < hi) by lia. by apply Hin in Hpos.
Qed.

(** A route with two lists of names. *)
Lemma addRoute1_names rtx proto auth host port path conn f (cf : rt_st T) pv dn sn : p_size (r_hp cf) <> 0 ->
  stays_name penv (r_hp cf) [STAR] -> names_stay (r_hp cf) dn -> names_stay (r_hp cf) sn ->
  exists hp' d s,
    addRoute1X penv (S (S f)) rtx proto auth host port path conn (Some pv) (comma_join dn)
      (comma_join sn) cf =
    Some (RtSt hp' (alter (newRoute (new_route (rt_name (RT_ROUTE rtx cf)) proto auth host port path
                      conn (Some pv) d s)) rtx (r_tabs cf))
            (DO_METHOD_FILTER cf + method_filters (makeProtoV pv))) /\
    lists_read penv (S (S f)) (rt_name (RT_ROUTE rtx cf)) (comma_join dn) (comma_join sn)
      (r_hp cf) hp' d s /\
    (hl_flags (get_list hp' d) = 0 /\ hl_List (get_list hp' d) = fold_left add_text dn []) /\
    hl_flags (get_list hp' s) = 0 /\ hl_List (get_list hp' s) = fold_left add_text sn [].
Proof using.
  intros Hsz Hstar Hdn Hsn. set (what := rt_name (RT_ROUTE rtx cf)).
  destruct (read_new_list f (r_hp cf) (MkHostList (what ++ cs "/DST") [] 0 true) dn Hsz eq_refl eq_refl
    Hstar Hdn) as (hp1 & E1 & Sz1 & Hh1 & L1 & F1 & I1 & G1).
  assert (Hst1 : forall n, stays_name penv (r_hp cf) n -> stays_name penv hp1 n)
    by (intros n; unfold stays_name, list_id; by rewrite Hh1).
  assert (Hsn1 : names_stay hp1 sn).
  { destruct Hsn as (? & ? & Hst). split_and!; [done..|]. eapply Forall_impl; [exact Hst|]. intros t.
    apply Hst1. }
  destruct (read_new_list f hp1 (MkHostList (what ++ cs "/SRC") [] 0 false) sn Sz1 eq_refl eq_refl
    (Hst1 _ Hstar) Hsn1) as (hp2 & E2 & Sz2 & Hh2 & L2 & F2 & I2 & G2).
  exists hp2, (length (p_store (r_hp cf))), (length (p_store hp1)). split_and!; try done.
  - unfold addRoute1X, scan_hosts. fold what.
    change (new_list (r_hp cf) (MkHostList (what ++ cs "/DST") [] 0 true)) with
      ((new_list (r_hp cf) (MkHostList (what ++ cs "/DST") [] 0 true)).1, length (p_store (r_hp cf))).
    cbv beta iota zeta. rewrite E1. cbn [mbind option_bind].
    change (new_list hp1 (MkHostList (what ++ cs "/SRC") [] 0 false)) with
      ((new_list hp1 (MkHostList (what ++ cs "/SRC") [] 0 false)).1, length (p_store hp1)).
    cbv beta iota zeta. by rewrite E2.
  - constructor; [done|]. by exists hp1.
  - by rewrite G2 by lia.
  - by rewrite G2 by lia.
Qed.

(** The lists of a rule fit the arrays [protoL], [dstL] and [srcL]. *)
Definition rule_fits (V : list Server) (dn sn : list (list Z)) : Prop :=
  zlen (sprintProtoV V) < 2048 /\ zlen (comma_join dn) < 2048 /\ zlen (comma_join sn) < 2048.

(** C2. A [PERMIT] or [REJECT] written as a list of protocols, a list of
    destinations and a list of sources, the hosts by names and patterns,
    from its text to its meaning.  Let the protocols be available ones, with
    texts that fit the arrays of the reader (63 bytes for a name, 255 for the
    ports, 511 for the methods), at most 63 of them, and each of the three
    lists of less than 2048 bytes.  Then reading it succeeds, adds one rule to
    the table and leaves everything else as it is; and the rule applies to a
    request, whose destination is checked and whose two hosts are plain
    names, exactly when its protocol and port are of a server in the list,
    the destination is in the one list of names and the source in the
    other. *)
Theorem rule_text_applies (fr : bool) (f : nat) (dp : list Z) (cf : rt_st T) (V : list Server)
  (dn sn : list (list Z)) :
  rt_ok cf -> p_size (r_hp cf) <> 0 -> Forall (entry_ok (available fr cf)) V ->
  (length V <= pred MAXPROTO)%nat -> stays_name penv (r_hp cf) [STAR] ->
  names_stay (r_hp cf) dn -> names_stay (r_hp cf) sn -> rule_fits V dn sn ->
  exists cf' Rp,
    permit penv (S (S f)) services fr dp (rule_text V dn sn) cf = Some cf' /\
    one_more (rule_table fr) Rp cf cf' /\ extends cf cf' /\ m_protoV Rp = Some V /\
    forall ci peer c shost sport proto dhost dport,
      no_dstcheck c = false ->
      let qd := ask_query penv no_list (Some proto) dhost dport (DST_USER c) [] in
      let qs := ask_query penv no_list None shost sport (the_user env c) (the_auths c) in
      plain_query qd -> plain_query qs ->
      route_applies env henv penv services cf' ci peer c shost sport proto dhost dport fr Rp =
      bool_decide (is_Some (protoMatch1 (no_dstcheck_port c) V (dst_proto services c proto fr) dport))
      && in_names dn qd && in_names sn qs.
Proof using.
  intros Hok Hsz HV Hlen Hstar Hdn Hsn (F1 & F2 & F3).
  pose proof Hdn as (Hd & Hdne & _). pose proof Hsn as (Hs & Hsne & _).
  unfold permit, scan_PERMITV. rewrite (rule_split V dn sn (available fr cf)) by done.
  cbn [mbind option_bind nth]. rewrite andb_false_r, !clip_zlen by done.
  assert (Hav : match Remittable cf with
    | Some V => if fr then take (pred NSERVICES) (service_names services)
                else map p_name (take (pred MAXPROTO) V)
    | None => take (pred NSERVICES) (service_names services) end = available fr cf) by done.
  rewrite Hav, (protoList_sprint services (available fr cf) dp V HV Hlen F1). clear Hav.
  cbn [mbind option_bind].
  destruct (names_text dn Hd Hdne) as (_ & _ & Nd). destruct (names_text sn Hs Hsne) as (_ & _ & Ns).
  rewrite (bool_decide_false (comma_join dn = [])) by done.
  rewrite (bool_decide_true (comma_join sn <> [])) by done. fold (rule_table fr). cbv iota.
  unfold addRoute1. destruct (addRoute1_names (rule_table fr) [] None [] 0 [] [] f cf (map sprint_server V) dn sn Hsz Hstar Hdn Hsn)
    as (hp' & d & s & E & Hread & [Fd Id] & Fs & Is).
  assert (Hmake : makeProtoV (map sprint_server V) = V).
  { apply makeProtoV_sprint. eapply Forall_impl; [exact HV|]. by intros x [? _]. }
  rewrite Hmake in E. rewrite E. cbn [mbind option_bind]. set (Rp := new_route _ _ _ _ _ _ _ _ d s).
  assert (Hlt : (rule_table fr < 14)%nat) by (destruct fr; unfold rule_table, R_REJECT, R_PERMIT; lia).
  eexists _, Rp. split; [reflexivity|]. split_and!.
  - apply counted_one_more; [cbn [r_tabs]; by rewrite length_alter, (ok_length _ Hok)|].
    intros rtx'. rewrite <- (RT_alter (newRoute Rp)) by (by rewrite (ok_length _ Hok)). done.
  - eapply (read_extends (S (S f)) cf); [exact Hok|exact Hread].
  - cbn [Rp new_route m_protoV]. cbn. by rewrite Hmake.
  - intros ci peer c shost sport proto dhost dport Hnd Hqd Hqs.
    unfold route_applies, chosen. rewrite Hnd. cbn [negb orb andb]. rewrite andb_false_r. cbn [negb andb].
    change (m_protoV Rp) with (Some (makeProtoV (map sprint_server V))). rewrite Hmake. cbv iota.
    set (cf' := alter_tab _ _ _) in *.
    rewrite (names_asks cf' ci peer (dsts cf' Rp) _ _ _ _ _ dn Fd Id Hdne Hd Hqd).
    rewrite (names_asks cf' ci peer (srcs cf' Rp) _ _ _ _ _ sn Fs Is Hsne Hs Hqs).
    destruct (protoMatch1 _ V _ dport) as [pl|].
    + by rewrite bool_decide_true by done.
    + by rewrite bool_decide_false by (by intros [? ?]).
Qed.

(** ** [REMITTABLE] *)
Lemma sprintProtoV_nil V tv : Forall (entry_ok tv) V -> sprintProtoV V = [] -> V = [].
Proof using.
  intros HV. pose proof (entry_texts tv V HV) as Ht. unfold sprintProtoV.
  destruct V as [|x V]; [done|]. cbn [map] in *. apply Forall_cons in Ht as [(_ & _ & Hx) _].
  destruct V; cbn; [done|]. by destruct (sprint_server x).
Qed.
Lemma servers_split V tv : Forall (entry_ok tv) V -> V <> [] ->
  scan_Listlist (sprintProtoV V) COLON 3 = Some (1, [sprintProtoV V]).
Proof using.
  intros HV Hne. destruct (servers_text tv V HV) as [BV CV].
  set (l := [(sprintProtoV V, sprintProtoV V)]).
  change (sprintProtoV V) with (ScanList.join COLON l) at 1.
  rewrite scan_Listlist_list; [done| | |done|lia].
  - by apply (bool_decide_unpack _).
  - split; [split|].
    + repeat (apply Forall_cons; split); [by apply balanced_elem..|constructor].
    + cbn. by intros E%(sprintProtoV_nil V tv HV).
    + repeat (apply Forall_cons; split); [by eapply balanced_escapes..|constructor].
Qed.
Lemma sprintProtoV_app V V' tv : Forall (entry_ok tv) V -> Forall (entry_ok tv) V' -> V' <> [] ->
  sprintProtoV V ++
    (if bool_decide (sprintProtoV V <> []) && bool_decide (sprintProtoV V' <> []) then [COMMA] else [])
    ++ sprintProtoV V' = sprintProtoV (V ++ V').
Proof using.
  intros HV HV' Hne. rewrite (bool_decide_true (sprintProtoV V' <> [])), andb_true_r.
  2: { intros E. by apply Hne, (sprintProtoV_nil V' tv). }
  case_bool_decide as E.
  - unfold sprintProtoV. rewrite map_app, commas_app; [done|by destruct V|by destruct V'].
  - apply (sprintProtoV_nil V tv HV) in E as ->. done.
Qed.
Lemma star_stays (hp : hp_st T) : stays_name penv hp [STAR] -> names_stay hp [[STAR]].
Proof using.
  intros Hs. split_and!; [|done|by apply Forall_singleton].
  apply Forall_singleton. split; [done|]. split_and!; [by left|by vm_compute|done..].
Qed.
Lemma Remittable_set V1 pv n (hp : hp_st T) (cf : rt_st T) : rt_ok cf -> Remittable cf = Some V1 ->
  Remittable (RtSt hp (alter (fun rt => MkTab (rt_name rt) (rt_size rt) (rt_withsrc rt)
    (alter (set_protoV pv) 0%nat (rt_routes rt))) R_REMITTABLE (r_tabs cf)) n) = Some pv.
Proof using.
  intros Hok. set (f := fun rt => _). unfold Remittable.
  change (RT_ROUTE R_REMITTABLE (RtSt hp _ n)) with (RT_ROUTE R_REMITTABLE (alter_tab f R_REMITTABLE cf)).
  rewrite RT_alter by (rewrite (ok_length _ Hok); unfold R_REMITTABLE; lia). rewrite Nat.eqb_refl.
  subst f. cbn [rt_routes]. by destruct (rt_routes (RT_ROUTE R_REMITTABLE cf)).
Qed.

(** [REMITTABLE] accumulates: a [PERMIT] that is only a list of
    protocols, written with the names of services, adds them to the ones that
    are there, in the order of the text, with their ports and methods, when the text
    of all of them has less than 1024 bytes; no
    other table and no other list changes. *)
Theorem remittable_adds (f : nat) (dp : list Z) (cf : rt_st T) (V : list Server) :
  let V0 := default [] (Remittable cf) in
  rt_ok cf -> p_size (r_hp cf) <> 0 -> stays_name penv (r_hp cf) [STAR] -> V <> [] ->
  Forall (entry_ok (take (pred NSERVICES) (service_names services))) (V0 ++ V) ->
  (length (V0 ++ V) <= pred MAXPROTO)%nat -> zlen (sprintProtoV (V0 ++ V)) < 1024 ->
  exists cf',
    scan_PERMIT penv (S (S f)) services dp (sprintProtoV V) cf = Some cf' /\
    Remittable cf' = Some (V0 ++ V) /\ extends cf cf' /\
    forall rtx, rtx <> R_REMITTABLE -> RT_ROUTE rtx cf' = RT_ROUTE rtx cf.
Proof using.
  intros V0 Hok Hsz Hstar Hne HV Hlen Hfit. pose proof HV as [HV0 HV1]%Forall_app.
  unfold scan_PERMIT, permit, scan_PERMITV. set (tv := take _ _) in *.
  rewrite (servers_split V tv HV1 Hne). cbn [mbind option_bind nth negb andb]. cbv iota zeta.
  change (1 <=? 1) with true. cbv iota.
  assert (Eold : match Remittable cf with Some V => sprintProtoV V | None => [] end = sprintProtoV V0)
    by (subst V0; by destruct (Remittable cf)).
  pose proof (sprintProtoV_app V0 V tv HV0 HV1 Hne) as Eapp.
  assert (Hold : zlen (sprintProtoV V0) < 1024 /\ zlen (sprintProtoV V) < 1024).
  { rewrite <- Eapp, !zlen_app in Hfit. pose proof (zlen_nonneg (sprintProtoV V0)).
    pose proof (zlen_nonneg (sprintProtoV V)). pose proof (zlen_nonneg
      (if bool_decide (sprintProtoV V0 <> []) && bool_decide (sprintProtoV V <> []) then [COMMA] else [])).
    lia. }
  rewrite Eold, (clip_zlen 2048) by lia. rewrite option_guard_True by (unfold zlen in *; lia).
  cbn [mbind option_bind].
  rewrite Eapp, clip_zlen, (protoList_sprint services tv dp _ HV Hlen) by (unfold PORTB; lia).
  cbn [mbind option_bind]. clear Eold. set (pv := map sprint_server (V0 ++ V)).
  assert (Hmake : makeProtoV pv = V0 ++ V).
  { apply makeProtoV_sprint. eapply Forall_impl; [exact HV|]. by intros x [? _]. }
  assert (Hlt : (R_REMITTABLE < length (r_tabs cf))%nat)
    by (rewrite (ok_length _ Hok); unfold R_REMITTABLE; lia).
  unfold put_Remittable. destruct (Remittable cf) as [V1|] eqn:Er.
  - rewrite Hmake. cbv zeta. eexists. split; [reflexivity|]. split_and!.
    + by eapply Remittable_set.
    + by split.
    + intros rtx Hrtx. unfold RT_ROUTE. cbn [r_tabs]. rewrite !nth_lookup.
      by rewrite list_lookup_alter_ne by done.
  - unfold addRoute1.
    destruct (addRoute1_names R_REMITTABLE [] None [] 0 [] [] f cf pv [[STAR]] [[STAR]] Hsz Hstar (star_stays _ Hstar)
      (star_stays _ Hstar)) as (hp' & d & s & E & Hread & _ & _).
    change (comma_join [[STAR]]) with [STAR] in E. rewrite E. clear E. eexists. split; [reflexivity|].
    split_and!.
    + unfold Remittable in *. set (Rp := new_route _ _ _ _ _ _ _ _ d s).
      change (RT_ROUTE R_REMITTABLE (RtSt hp' _ _)) with
        (RT_ROUTE R_REMITTABLE (alter_tab (newRoute Rp) R_REMITTABLE cf)).
      rewrite RT_alter by done. rewrite Nat.eqb_refl. cbn [newRoute rt_routes].
      destruct (rt_routes (RT_ROUTE R_REMITTABLE cf)); [|done].
      change (Some (makeProtoV pv) = Some (V0 ++ V)). by rewrite Hmake.
    + eapply (read_extends (S (S f)) cf); [exact Hok|exact Hread].
    + intros rtx Hrtx. unfold RT_ROUTE. cbn [r_tabs]. rewrite !nth_lookup.
      by rewrite list_lookup_alter_ne by done.
Qed.
End mono.

(** ** On the proxy of [AccessSpec] *)
Lemma ex_cf_ok : rt_ok ex_cf.
Proof.
  unfold ex_cf, ex_permit, scan_PERMIT, scan_REJECT, permit, default.
  destruct (_ ≫= _) as [cf|] eqn:E; [|apply rt_init_ok]. cbn [from_option id]. revert E.
  bind_case st1 E1. apply scan_PERMITV_ok in E1; [|apply rt_init_ok].
  bind_case st2 E2. apply scan_PERMITV_ok in E2; [|done].
  bind_case st3 E3. apply scan_PERMITV_ok in E3; [|done].
  bind_case st4 E4. apply scan_PERMITV_ok in E4; [|done]. by apply scan_RELIABLE_ok.
Qed.
Definition reject_org : list Z := cs "http,https:www.org:*".
Definition ex_cf2 : rt_st HTable := default rt_init (permit hp_env0 4 services0 true (cs "http") reject_org ex_cf).

Lemma rules_monotone_witness :
  policy ex_env env0 hp_env0 services0 ex_cf2 ci0 AddrNull
    (ex_conn (cs "bad.dom") (cs "http") (cs "www.org") 80) (cs "bad.dom") 40000 = false.
Proof.
  assert (E : permit hp_env0 4 services0 true (cs "http") reject_org ex_cf = Some ex_cf2)
    by (vm_compute; reflexivity).
  pose proof (rules_monotone ex_env env0 hp_env0 services0 4 true (cs "http") reject_org ex_cf ex_cf2
    ci0 AddrNull (ex_conn (cs "bad.dom") (cs "http") (cs "www.org") 80) (cs "bad.dom") 40000
    ex_cf_ok ex_cf_wf (or_introl eq_refl) E) as H. cbn [orb] in H.
  apply not_true_iff_false. intros Hn. apply H in Hn. vm_compute in Hn. discriminate.
Defined.

(** The first [PERMIT] with sources of a proxy: the default [RELIABLE] is not
    read any more, and a client of another net is let in that was refused. *)
Definition started (permits : list (list Z)) : rt_st HTable :=
  default rt_init (scan_access hp_env0 4 services0 http_server (cs "*.delegate.org")
    (AcParams [] [] permits [] [] [] []) rt_init).
Definition pc_asks (cf : rt_st HTable) : bool :=
  let side := VAddr (Addr 3232235777 F4 F4 F4) 8080 (cs "gw") 0 in
  policy ex_env env0 hp_env0 services0 cf (MkClient 0 0 side side side [] false) AddrNull
    (ex_conn (cs "pc.dom") (cs "http") (cs "www.org") 80) (cs "pc.dom") 40000.
Lemma first_permit_admits :
  pc_asks (started []) = false /\ pc_asks (started [cs "http:*:*.dom"]) = true.
Proof. vm_compute. done. Qed.

(** [ftp//RETR] to the hosts of a domain but one, from the clients of it. *)
Definition ex_V : list Server := [MkServer (cs "ftp") None (Some (cs "RETR")); MkServer (cs "https") (Some [443]) None].
Definition ex_dn : list (list Z) := [cs "*.dom"; cs "!www.dom"].
Definition ex_sn : list (list Z) := [cs "*.dom"].
Example rule_text_1 : rule_text ex_V ex_dn ex_sn = cs "ftp/*/RETR,https/443:*.dom,!www.dom:*.dom".
Proof. vm_compute. reflexivity. Qed.
Lemma ex_names_stay : names_stay hp_env0 (r_hp ex_cf) ex_dn /\ names_stay hp_env0 (r_hp ex_cf) ex_sn.
Proof.
  assert (Hn : forall l, l <> [] -> Forall (fun t => name_text t /\
    stays_name hp_env0 (r_hp ex_cf) (list_item t).2) l -> names_stay hp_env0 (r_hp ex_cf) l).
  { intros l Hl [H1 H2]%Forall_and. done. }
  split; apply Hn; [done| |done|];
    (repeat (apply Forall_cons; split); [..|by apply Forall_nil]);
    (split; [split; [reflexivity|split_and!; [simpl; tauto|by vm_compute|reflexivity..]]
            |split; [by vm_compute|by right]]).
Qed.
Lemma rule_text_applies_witness : exists cf' Rp,
  permit hp_env0 4 services0 false (cs "http") (cs "ftp/*/RETR,https/443:*.dom,!www.dom:*.dom") ex_cf
    = Some cf' /\
  route_applies ex_env env0 hp_env0 services0 cf' ci0 AddrNull
    (ex_conn (cs "pc.dom") (cs "https") (cs "www.dom") 443) (cs "pc.dom") 40000 (cs "https") (cs "www.dom")
    443 false Rp = false.
Proof.
  destruct (rule_text_applies ex_env env0 hp_env0 services0 false 2 (cs "http") ex_cf ex_V ex_dn ex_sn)
    as (cf' & Rp & E & _ & _ & _ & Happ).
  - apply ex_cf_ok.
  - by vm_compute.
  - apply (bool_decide_unpack _). by vm_compute.
  - vm_compute; lia.
  - split; [by vm_compute|by left].
  - apply ex_names_stay.
  - apply ex_names_stay.
  - apply (bool_decide_unpack _). by vm_compute.
  - exists cf', Rp. split; [exact E|]. rewrite Happ; [by vm_compute|done|split|split];
      (apply (bool_decide_unpack _); by vm_compute).
Defined.

Lemma remittable_adds_witness : exists cf',
  scan_PERMIT hp_env0 4 services0 (cs "http") (cs "gopher,nntp/119") ex_cf = Some cf' /\
  sprintProtoV <$> Remittable cf' = Some (cs "http,https/{80,443},ftp,gopher,nntp/119").
Proof.
  destruct (remittable_adds hp_env0 services0 2 (cs "http") ex_cf
    [MkServer (cs "gopher") None None; MkServer (cs "nntp") (Some [119]) None]) as (cf' & E & Hr & _).
  - apply ex_cf_ok.
  - by vm_compute.
  - split; [by vm_compute|by left].
  - done.
  - apply (bool_decide_unpack _). by vm_compute.
  - vm_compute; lia.
  - by vm_compute.
  - exists cf'. split; [exact E|]. rewrite Hr. by vm_compute.
Defined.
