(* ===== verification/DnsNode.v ===== *)
(** * The tree of domain names ([resolvy/dnsnode.cpp])

    The resolver keeps what it knows in a tree with a node for each label: a
    node has a number, by which the other parts refer to a name, and a list
    of attributes, the resource records of the name.

    A node is known by its number, its position in [Nodes]; node 0 stands for
    unknown names and node 1 is the root.  [n_child] holds the children as
    the chain of [n_peer] links them, the newest first.  The allocation of
    nodes, labels and records in banks is not modelled.  Names are shorter
    than the buffer of their labels (512).  The clock is an argument. *)
From S2P Require Import Prelude Strings.
From stdpp Require Import options.

Record Attr := MkAttr {
  a_flag : Z;
  a_date : Z;            (** cached time *)
  a_ttl : Z;
  a_data : list Z        (** of [a_leng] bytes *)
}.
Record Node := MkNode {
  n_flag : Z;
  n_label : list Z;
  n_phase : Z;
  n_attr : list Attr;
  n_parent : option nat;
  n_child : list nat
}.
Definition NF_LEAF : Z := 1.
Definition MAXLEV : nat := 36.
Definition NoNode : Node := MkNode NF_LEAF [63] 0 [] None [].
Definition TopNodeBuf : Node := MkNode NF_LEAF [] 0 [] None [].
Definition Nodes0 : list Node := [NoNode; TopNodeBuf].
Definition TopNode : nat := 1.

Definition getnode (nodes : list Node) (nid : nat) : Node := nth nid nodes NoNode.

Definition put_child (n : Node) (c : nat) : Node :=
  MkNode (n_flag n) (n_label n) (n_phase n) (n_attr n) (n_parent n) (c :: n_child n).
Definition put_flag (n : Node) (flag : Z) : Node :=
  MkNode (Z.lor (n_flag n) flag) (n_label n) (n_phase n) (n_attr n) (n_parent n) (n_child n).
Definition put_attrs (n : Node) (attrs : list Attr) : Node :=
  MkNode (n_flag n) (n_label n) (n_phase n) attrs (n_parent n) (n_child n).

(** ** Searching *)

(** One label, and what follows its dot. *)
Fixpoint next_label (np : list Z) : list Z * list Z :=
  match np with
  | [] => ([], [])
  | oct :: np' => if oct =? 46 then ([], np')
                  else let '(l, r) := next_label np' in (oct :: l, r)
  end.
(** [labelv]: at most [MAXLEV] labels. *)
Fixpoint split_labels (n : nat) (np : list Z) : list (list Z) :=
  match n, np with
  | S n', _ :: _ => let '(l, r) := next_label np in l :: split_labels n' r
  | _, _ => []
  end.

Fixpoint find_child (nodes : list Node) (cs : list nat) (label : list Z) : option nat :=
  match cs with
  | [] => None
  | c :: cs' => if strcasecmp_eq (n_label (getnode nodes c)) label then Some c
                else find_child nodes cs' label
  end.

(** [newnode] with the assignments that follow it: the new node is linked in
    front of the children. *)
Definition newnode (nodes : list Node) (Np : nat) (label : list Z) : list Node * nat :=
  let nid := length nodes in
  (<[Np := put_child (getnode nodes Np) nid]> nodes ++ [MkNode 0 label 0 [] (Some Np) []], nid).

(** The loop from the last label to the first; 0 is [NoNode]. *)
Fixpoint nsearch_loop (create : bool) (nodes : list Node) (Np : nat) (labels : list (list Z))
  : list Node * nat :=
  match labels with
  | [] => (nodes, Np)
  | label :: labels' =>
      match find_child nodes (n_child (getnode nodes Np)) label with
      | Some Lp => nsearch_loop create nodes Lp labels'
      | None =>
          if create
          then let '(nodes, Lp) := newnode nodes Np label in nsearch_loop create nodes Lp labels'
          else (nodes, 0%nat)
      end
  end.
Definition nsearch (nodes : list Node) (name : list Z) (create : bool) : list Node * nat :=
  let labelv := split_labels MAXLEV name in
  let '(nodes, Np) :=
    match labelv with
    | [[]] => (nodes, TopNode)
    | _ => nsearch_loop create nodes TopNode (rev labelv)
    end in
  if create then (<[Np := put_flag (getnode nodes Np) NF_LEAF]> nodes, Np) else (nodes, Np).

(** The labels from a node up to the root, each with a dot but the last;
    [fuel] bounds the depth. *)
Fixpoint getnodename (fuel : nat) (nodes : list Node) (Np : nat) : option (list Z) :=
  match fuel with
  | O => None
  | S fuel' =>
      let n := getnode nodes Np in
      match n_parent n with
      | None => Some (n_label n ++ [46])
      | Some p =>
          if Nat.eqb p TopNode then Some (n_label n)
          else match getnodename fuel' nodes p with
               | Some r => Some (n_label n ++ 46 :: r)
               | None => None
               end
      end
  end.

Definition DNS_putbyname (nodes : list Node) (name : list Z) : list Node * nat :=
  nsearch nodes name true.
Definition DNS_getbyname (nodes : list Node) (name : list Z) : nat :=
  (nsearch nodes name false).2.
Definition DNS_parent (nodes : list Node) (nid : nat) : nat :=
  default 0%nat (n_parent (getnode nodes nid)).
(** [None] for a number outside of the table. *)
Definition DNS_nodename (nodes : list Node) (nid : nat) : option (list Z) :=
  if Nat.leb (length nodes) nid then None else getnodename (length nodes) nodes nid.

(** ** Attributes *)

Definition same_attr (flag : Z) (data : list Z) (Ap : Attr) : bool :=
  (flag =? a_flag Ap) && bool_decide (a_data Ap = data).
(** [DNS_putattr] at time [now]: a record that is there already keeps its
    date. *)
Definition DNS_putattr (nodes : list Node) (nid : nat) (flag ttl : Z) (data : list Z) (now : Z)
  : list Node * bool :=
  let Np := getnode nodes nid in
  if existsb (same_attr flag data) (n_attr Np) then (nodes, false)
  else (<[nid := put_attrs Np (MkAttr flag now ttl data :: n_attr Np)]> nodes, true).

Definition has_flag (flag : Z) (Ap : Attr) : bool := negb (Z.land flag (a_flag Ap) =? 0).
Definition expired (ttl now : Z) (Ap : Attr) : bool :=
  (a_date Ap + a_ttl Ap <=? now) || (a_date Ap + ttl <=? now).
(** When one record of the type has expired, all of them are dropped. *)
Definition expireattr (nodes : list Node) (nid : nat) (flag ttl now : Z) : list Node :=
  let Np := getnode nodes nid in
  if ttl <=? 0 then nodes
  else if existsb (fun Ap => has_flag flag Ap && expired ttl now Ap) (n_attr Np)
  then <[nid := put_attrs Np
           (map (fun Ap => if has_flag flag Ap
                           then MkAttr 0 (a_date Ap) (a_ttl Ap) (a_data Ap) else Ap)
                (n_attr Np))]> nodes
  else nodes.
(** [DNS_getattr] into a vector of [ac] records. *)
Definition DNS_getattr (nodes : list Node) (nid : nat) (flag ttl : Z) (ac : nat) (now : Z)
  : list Node * list (list Z) :=
  let nodes := expireattr nodes nid flag ttl now in
  (nodes, take (Nat.max 1 ac) (map a_data (List.filter (has_flag flag) (n_attr (getnode nodes nid))))).

Definition DNS_nodephase (nodes : list Node) (nid : nat) (phase : Z) : list Node * Z :=
  let n := getnode nodes nid in
  (<[nid := MkNode (n_flag n) (n_label n) phase (n_attr n) (n_parent n) (n_child n)]> nodes,
   n_phase n).

Example dns_1 :
  let '(t, a) := DNS_putbyname Nodes0 (cs "www.example.org") in
  let '(t, b) := DNS_putbyname t (cs "ftp.Example.ORG.") in
  (a, b, DNS_getbyname t (cs "EXAMPLE.org"), DNS_nodename t b, DNS_nodename t 1, DNS_nodename t 0) =
  (4%nat, 5%nat, 3%nat, Some (cs "ftp.example.org"), Some (cs "."), Some (cs "?.")).
Proof. vm_compute. reflexivity. Qed.

(** ** The invariant *)

(** The names that a tree distinguishes: labels in lower case. *)
Definition lower (l : list Z) : list Z := map tolower l.
Definition labels (name : list Z) : list (list Z) :=
  match split_labels MAXLEV name with [[]] => [] | l => l end.
Definition key (name : list Z) : list (list Z) := map lower (labels name).

Definition nolabel (l : list Z) : Prop := existsb (Z.eqb 46) l = false.

Record tree_wf (t : list Node) : Prop := {
  wf_len : (2 <= length t)%nat;
  wf_none : n_parent (getnode t 0) = None /\ n_child (getnode t 0) = [] /\
            n_label (getnode t 0) = [63];
  wf_top : n_parent (getnode t TopNode) = None /\ n_label (getnode t TopNode) = [];
  wf_parent i : (2 <= i < length t)%nat ->
    exists p, n_parent (getnode t i) = Some p /\ (1 <= p < i)%nat;
  wf_child p c : In c (n_child (getnode t p)) <->
    (c < length t)%nat /\ n_parent (getnode t c) = Some p;
  wf_uniq i j p : n_parent (getnode t i) = Some p -> n_parent (getnode t j) = Some p ->
    lower (n_label (getnode t i)) = lower (n_label (getnode t j)) -> i = j;
  wf_label i : (2 <= i < length t)%nat -> nolabel (n_label (getnode t i))
}.

(** The labels of a node up to the root. *)
Inductive path (t : list Node) : nat -> list (list Z) -> Prop :=
| path_top : path t TopNode []
| path_node i p ls : n_parent (getnode t i) = Some p -> path t p ls ->
    path t i (lower (n_label (getnode t i)) :: ls).

Lemma getnode_insert t i x j : getnode (<[i := x]> t) j =
  if decide (i = j /\ (i < length t)%nat) then x else getnode t j.
Proof.
  unfold getnode. rewrite !nth_lookup. destruct (decide (i = j)) as [->|Hij].
  - destruct (decide (j < length t)%nat) as [Hj|Hj].
    + rewrite list_lookup_insert, decide_True by done. by rewrite decide_True.
    + rewrite list_insert_ge by lia. by rewrite decide_False by tauto.
  - rewrite list_lookup_insert_ne by done. by rewrite decide_False by tauto.
Qed.

Lemma getnode_app t x j : getnode (t ++ [x]) j =
  if decide (j = length t) then x else getnode t j.
Proof.
  unfold getnode. destruct (decide (j = length t)) as [->|Hj].
  - by rewrite nth_middle.
  - destruct (decide (j < length t)%nat).
    + by rewrite app_nth1.
    + rewrite !nth_overflow; [done|lia|rewrite length_app; simpl; lia].
Qed.

Lemma getnode_none t j : (length t <= j)%nat -> getnode t j = NoNode.
Proof. intros. unfold getnode. by rewrite nth_overflow. Qed.

(** A node with a parent is a node of the tree. *)
Lemma parent_inv t i p : tree_wf t -> n_parent (getnode t i) = Some p ->
  (2 <= i < length t)%nat /\ (1 <= p < i)%nat.
Proof.
  intros Hwf Hp. destruct (decide (length t <= i)%nat) as [Hl|Hl].
  { rewrite getnode_none in Hp by done. done. }
  destruct i as [|[|i]].
  - pose proof (wf_none t Hwf) as (H & _). congruence.
  - pose proof (wf_top t Hwf) as (H & _). unfold TopNode in H. congruence.
  - destruct (wf_parent t Hwf (S (S i)) ltac:(lia)) as (p' & Hp' & Hr).
    rewrite Hp in Hp'. injection Hp' as <-. lia.
Qed.

Lemma path_range t i ls : tree_wf t -> path t i ls -> (1 <= i < length t)%nat.
Proof.
  intros Hwf. destruct 1 as [|i p ls Hp _].
  - pose proof (wf_len t Hwf). unfold TopNode. lia.
  - apply parent_inv in Hp; [lia|done].
Qed.

Lemma path_unique t i ls ls' : tree_wf t -> path t i ls -> path t i ls' -> ls = ls'.
Proof.
  intros Hwf H. revert ls'. induction H as [|i p ls Hp _ IH]; intros ls' H'.
  - inversion H' as [|? p ? Hp]; [done|]. subst.
    pose proof (wf_top t Hwf) as (Ht & _). congruence.
  - inversion H' as [|? p' ls2 Hp' Hl]; subst.
    + pose proof (wf_top t Hwf) as (Ht & _). congruence.
    + rewrite Hp in Hp'. injection Hp' as <-. f_equal. by apply IH.
Qed.

Lemma path_inj t i j ls : tree_wf t -> path t i ls -> path t j ls -> i = j.
Proof.
  intros Hwf H. revert j. induction H as [|i p ls Hp _ IH]; intros j Hj.
  - by inversion Hj.
  - inversion Hj as [|? p' ls2 Hp' Hl' Heq]; subst.
    match goal with E : lower _ = lower _ |- _ => symmetry in E end.
    rewrite <- (IH _ Hl') in Hp'. by eapply wf_uniq.
Qed.

Lemma path_total t : tree_wf t -> forall i, (1 <= i < length t)%nat -> exists ls, path t i ls.
Proof.
  intros Hwf i. induction (lt_wf i) as [i _ IH]. intros Hi.
  destruct (decide (i = 1%nat)) as [->|]; [eexists; apply path_top|].
  destruct (wf_parent t Hwf i ltac:(lia)) as (p & Hp & Hr).
  destruct (IH p) as [ls Hls]; [lia..|]. eexists. by eapply path_node.
Qed.

(** The old nodes of a larger tree. *)
Definition extends (t t' : list Node) : Prop :=
  (length t <= length t')%nat /\
  forall i, (i < length t)%nat ->
    n_label (getnode t' i) = n_label (getnode t i) /\
    n_parent (getnode t' i) = n_parent (getnode t i) /\
    n_attr (getnode t' i) = n_attr (getnode t i) /\
    n_phase (getnode t' i) = n_phase (getnode t i).

Lemma extends_refl t : extends t t.
Proof. by split. Qed.
Lemma extends_trans t1 t2 t3 : extends t1 t2 -> extends t2 t3 -> extends t1 t3.
Proof.
  intros [L1 H1] [L2 H2]. split; [lia|]. intros i Hi.
  destruct (H1 i Hi) as (A & B & C & D).
  destruct (H2 i ltac:(lia)) as (A' & B' & C' & D'). split_and!; congruence.
Qed.

Lemma path_extends t t' i ls : tree_wf t -> extends t t' -> path t i ls -> path t' i ls.
Proof.
  intros Hwf [Hl He]. induction 1 as [|i p ls Hp _ IH]; [constructor|].
  destruct (parent_inv t i p Hwf Hp) as [Hi _].
  destruct (He i ltac:(lia)) as (El & Ep & _). rewrite <- El. eapply path_node; [|done]. congruence.
Qed.

(** ** Growing the tree *)

Lemma find_child_spec t cs label :
  match find_child t cs label with
  | Some c => In c cs /\ lower (n_label (getnode t c)) = lower label
  | None => forall c, In c cs -> lower (n_label (getnode t c)) <> lower label
  end.
Proof.
  induction cs as [|c cs IH]; [by intros c []|]. cbn [find_child].
  unfold strcasecmp_eq. case_bool_decide as E.
  - split; [by left|done].
  - destruct (find_child t cs label) as [c'|]; [destruct IH; split; [by right|done]|].
    intros c' [<-|Hc]; [done|by apply IH].
Qed.

Lemma getnode_newnode t Np label j : tree_wf t -> (Np < length t)%nat ->
  getnode (newnode t Np label).1 j =
  if decide (j = length t) then MkNode 0 label 0 [] (Some Np) []
  else if decide (j = Np) then put_child (getnode t Np) (length t) else getnode t j.
Proof.
  intros Hwf HNp. unfold newnode. cbn [fst]. rewrite getnode_app, length_insert.
  destruct (decide (j = length t)); [done|]. rewrite getnode_insert.
  destruct (decide (j = Np)) as [->|Hne].
  - by rewrite decide_True.
  - rewrite decide_False; [done|]. intros [H _]. by symmetry in H.
Qed.

Lemma newnode_extends t Np label : tree_wf t -> (Np < length t)%nat ->
  extends t (newnode t Np label).1.
Proof.
  intros Hwf HNp. split.
  - unfold newnode. cbn [fst]. rewrite length_app, length_insert. lia.
  - intros i Hi. rewrite getnode_newnode by done. rewrite decide_False by lia.
    by destruct (decide (i = Np)) as [->|].
Qed.

Lemma newnode_wf t Np label : tree_wf t -> (1 <= Np < length t)%nat -> nolabel label ->
  (forall c, In c (n_child (getnode t Np)) -> lower (n_label (getnode t c)) <> lower label) ->
  tree_wf (newnode t Np label).1.
Proof.
  intros Hwf HNp Hlab Hnew. set (t' := (newnode t Np label).1).
  assert (Hget := fun j => getnode_newnode t Np label j Hwf ltac:(lia)). fold t' in Hget.
  assert (Hlen : length t' = S (length t)).
  { unfold t', newnode. cbn [fst]. rewrite length_app, length_insert. simpl. lia. }
  destruct (newnode_extends t Np label Hwf ltac:(lia)) as [_ Hold]. fold t' in Hold.
  pose proof (wf_len t Hwf) as H2.
  assert (Hpar : forall i p, n_parent (getnode t' i) = Some p <->
    n_parent (getnode t i) = Some p \/ i = length t /\ p = Np).
  { intros i p. rewrite Hget. destruct (decide (i = length t)) as [->|].
    - cbn [n_parent]. rewrite (getnode_none t) by done.
      split; [intros [= <-]; by right|]. by intros [?|[_ ->]].
    - destruct (decide (i = Np)) as [->|]; cbn [put_child n_parent];
        (split; [by left|by intros [?|[? _]]]). }
  assert (Hlt : forall i p, n_parent (getnode t i) = Some p -> (i < length t)%nat).
  { intros i p Hp. apply parent_inv in Hp; [lia|done]. }
  split.
  - lia.
  - rewrite Hget, decide_False, decide_False by lia. apply Hwf.
  - destruct (Hold TopNode ltac:(unfold TopNode; lia)) as (-> & -> & _). apply Hwf.
  - intros i Hi. destruct (decide (i = length t)) as [->|].
    + exists Np. split; [apply Hpar; by right|lia].
    + destruct (wf_parent t Hwf i ltac:(lia)) as (p & Hp & Hr). exists p. split; [|done].
      apply Hpar. by left.
  - intros p c. rewrite Hpar, Hlen, Hget.
    assert (Hnone : In c (n_child (getnode t p)) <-> n_parent (getnode t c) = Some p).
    { rewrite (wf_child t Hwf). split; [tauto|]. intros Hp. split; [by eapply Hlt|done]. }
    destruct (decide (p = length t)) as [->|Hp].
    + cbn [n_child]. split; [done|]. intros [_ [Hp|[_ Hp]]]; [|lia].
      apply parent_inv in Hp; [lia|done].
    + destruct (decide (p = Np)) as [->|Hp'].
      * cbn [put_child n_child In]. rewrite Hnone. split.
        -- intros [<-|Hc]; [split; [lia|by right]|]. split; [apply Hlt in Hc; lia|by left].
        -- intros [_ [Hc|[-> _]]]; [by right|by left].
      * rewrite Hnone. split.
        -- intros Hc. split; [apply Hlt in Hc; lia|by left].
        -- intros [_ [Hc|[_ ?]]]; [done|lia].
  - assert (Hnl : forall i, n_parent (getnode t i) = Some Np ->
      lower (n_label (getnode t i)) <> lower label).
    { intros i Hi. apply Hnew, (wf_child t Hwf). split; [by eapply Hlt|done]. }
    assert (Hlb : n_label (getnode t' (length t)) = label) by (rewrite Hget; by rewrite decide_True).
    intros i j p Hi Hj. rewrite Hpar in Hi, Hj.
    destruct Hi as [Hi|[-> ->]], Hj as [Hj|[-> Hj]].
    + destruct (Hold i (Hlt _ _ Hi)) as (-> & _). destruct (Hold j (Hlt _ _ Hj)) as (-> & _).
      by eapply wf_uniq.
    + subst p. destruct (Hold i (Hlt _ _ Hi)) as (-> & _). rewrite Hlb. intros E. by apply Hnl in E.
    + destruct (Hold j (Hlt _ _ Hj)) as (-> & _). rewrite Hlb. intros E. symmetry in E.
      by apply Hnl in E.
    + done.
  - intros i Hi. rewrite Hget. destruct (decide (i = length t)); [done|].
    destruct (decide (i = Np)) as [->|]; cbn [put_child n_label]; apply (wf_label t Hwf); lia.
Qed.

Lemma newnode_path t Np label ls : tree_wf t -> path t Np ls ->
  tree_wf (newnode t Np label).1 ->
  path (newnode t Np label).1 (newnode t Np label).2 (lower label :: ls).
Proof.
  intros Hwf Hp Hwf'. pose proof (path_range t Np ls Hwf Hp) as HNp.
  change (newnode t Np label).2 with (length t).
  assert (Hget := getnode_newnode t Np label (length t) Hwf ltac:(lia)).
  rewrite decide_True in Hget by done.
  pose proof (path_node (newnode t Np label).1 (length t) Np ls) as H. rewrite Hget in H.
  apply H; [done|].
  eapply path_extends; [exact Hwf|by apply newnode_extends; [|lia]|done].
Qed.

(** ** Searching *)

Lemma find_child_path t Np label ls : tree_wf t -> path t Np ls ->
  match find_child t (n_child (getnode t Np)) label with
  | Some c => path t c (lower label :: ls)
  | None => forall j, ~ path t j (lower label :: ls)
  end.
Proof.
  intros Hwf Hp. pose proof (find_child_spec t (n_child (getnode t Np)) label) as H.
  destruct (find_child t _ label) as [c|].
  - destruct H as [Hc <-]. apply (wf_child t Hwf) in Hc as [_ Hc]. by eapply path_node.
  - intros j Hj. inversion Hj as [|? p' ls2 Hp' Hl' E]; subst.
    rewrite (path_inj t _ _ _ Hwf Hl' Hp) in Hp'. apply (H j); [|done].
    apply (wf_child t Hwf). split; [|done]. apply parent_inv in Hp'; [lia|done].
Qed.

(** The path that the loop follows from a node with path [ls]. *)
Lemma nsearch_create labels : forall t Np ls, tree_wf t -> path t Np ls -> Forall nolabel labels ->
  let r := nsearch_loop true t Np labels in
  tree_wf r.1 /\ extends t r.1 /\ path r.1 r.2 (rev (map lower labels) ++ ls).
Proof.
  induction labels as [|label labels IH]; intros t Np ls Hwf Hp Hl; cbn [nsearch_loop].
  { split_and!; [done|apply extends_refl|done]. }
  apply Forall_cons in Hl as [Hlab Hl]. cbn [map rev]. rewrite <- app_assoc. cbn [app].
  pose proof (find_child_path t Np label ls Hwf Hp) as Hc.
  pose proof (find_child_spec t (n_child (getnode t Np)) label) as Hs.
  destruct (find_child t _ label) as [c|]; [by apply IH|].
  pose proof (path_range t Np ls Hwf Hp) as HNp.
  pose proof (newnode_wf t Np label Hwf HNp Hlab Hs) as Hwf'.
  pose proof (newnode_extends t Np label Hwf ltac:(lia)) as Hext.
  pose proof (newnode_path t Np label ls Hwf Hp Hwf') as Hp'.
  destruct (newnode t Np label) as [t' c]. cbn [fst snd] in *.
  destruct (IH t' c _ Hwf' Hp' Hl) as (H1 & H2 & H3).
  split_and!; [done|by eapply extends_trans|done].
Qed.

Lemma path_suffix t : forall pre j ls, path t j (pre ++ ls) -> exists i, path t i ls.
Proof.
  induction pre as [|x pre IH]; intros j ls Hj; [eauto|].
  inversion Hj; subst. by eapply IH.
Qed.

Lemma nsearch_find labels : forall t Np ls, tree_wf t -> path t Np ls ->
  let r := nsearch_loop false t Np labels in
  r.1 = t /\
  ((r.2 <> 0%nat /\ path t r.2 (rev (map lower labels) ++ ls)) \/
   (r.2 = 0%nat /\ forall j, ~ path t j (rev (map lower labels) ++ ls))).
Proof.
  induction labels as [|label labels IH]; intros t Np ls Hwf Hp; cbn [nsearch_loop].
  { split; [done|]. left. split; [|done]. apply path_range in Hp; [cbn; lia|done]. }
  cbn [map rev]. rewrite <- app_assoc. cbn [app].
  pose proof (find_child_path t Np label ls Hwf Hp) as Hc.
  destruct (find_child t _ label) as [c|]; [by apply IH|].
  split; [done|]. right. split; [done|]. intros j Hj.
  destruct (path_suffix t _ _ _ Hj) as [i Hi]. by apply (Hc i).
Qed.

Lemma next_label_nolabel np : nolabel (next_label np).1.
Proof.
  induction np as [|c np IH]; [done|]. cbn [next_label].
  destruct (Z.eqb_spec c 46) as [|Hc]; [done|]. destruct (next_label np) as [l r].
  unfold nolabel in *. cbn [fst existsb] in *. rewrite IH, Z.eqb_sym.
  by rewrite (proj2 (Z.eqb_neq c 46) Hc).
Qed.
Lemma split_labels_nolabel n : forall np, Forall nolabel (split_labels n np).
Proof.
  induction n as [|n IH]; intros np; [constructor|]. destruct np as [|c np]; [constructor|].
  cbn [split_labels]. pose proof (next_label_nolabel (c :: np)) as Hl.
  destruct (next_label (c :: np)) as [l r]. constructor; [done|apply IH].
Qed.

(** [nsearch] in terms of [labels]. *)
Lemma nsearch_labels t name create :
  nsearch t name create =
  let r := nsearch_loop create t TopNode (rev (labels name)) in
  if create then (<[r.2 := put_flag (getnode r.1 r.2) NF_LEAF]> r.1, r.2) else r.
Proof.
  assert (E : forall X : list Node * nat,
    (let '(nodes, Np) := X in
     if create then (<[Np := put_flag (getnode nodes Np) NF_LEAF]> nodes, Np) else (nodes, Np)) =
    (if create then (<[X.2 := put_flag (getnode X.1 X.2) NF_LEAF]> X.1, X.2) else X))
    by (intros [? ?]; by destruct create).
  unfold nsearch, labels. rewrite E.
  by destruct (split_labels MAXLEV name) as [|[|c l] [|l2 ls]].
Qed.

(** Changing flags, attributes or phases. *)
Lemma same_links_wf t t' : tree_wf t -> length t' = length t ->
  (forall j, n_label (getnode t' j) = n_label (getnode t j) /\
    n_parent (getnode t' j) = n_parent (getnode t j) /\
    n_child (getnode t' j) = n_child (getnode t j)) -> tree_wf t'.
Proof.
  intros Hwf Hlen H. split.
  - rewrite Hlen. apply Hwf.
  - destruct (H 0%nat) as (-> & -> & ->). apply Hwf.
  - destruct (H TopNode) as (-> & -> & _). apply Hwf.
  - intros j Hj. destruct (H j) as (_ & -> & _). apply (wf_parent t Hwf). lia.
  - intros p c. destruct (H p) as (_ & _ & ->). destruct (H c) as (_ & -> & _).
    rewrite Hlen. apply (wf_child t Hwf).
  - intros a b p. destruct (H a) as (-> & -> & _). destruct (H b) as (-> & -> & _).
    apply (wf_uniq t Hwf).
  - intros j Hj. destruct (H j) as (-> & _). apply (wf_label t Hwf). lia.
Qed.

Lemma put_flag_wf t i f : tree_wf t -> (i < length t)%nat ->
  tree_wf (<[i := put_flag (getnode t i) f]> t) /\ extends t (<[i := put_flag (getnode t i) f]> t).
Proof.
  intros Hwf Hi.
  assert (Hlen : length (<[i := put_flag (getnode t i) f]> t) = length t) by apply length_insert.
  split; [apply (same_links_wf t)|split]; [done|done| |lia|]; intros j; try intros _;
    rewrite getnode_insert; destruct (decide (i = j /\ _)) as [[-> _]|]; done.
Qed.

Lemma put_attrs_wf t i l : tree_wf t -> tree_wf (<[i := put_attrs (getnode t i) l]> t).
Proof.
  intros Hwf. apply (same_links_wf t); [done|apply length_insert|]. intros j.
  rewrite getnode_insert; destruct (decide (i = j /\ _)) as [[-> _]|]; done.
Qed.

Lemma labels_nolabel name : Forall nolabel (rev (labels name)).
Proof.
  apply Forall_rev. pose proof (split_labels_nolabel MAXLEV name) as H. unfold labels.
  by destruct (split_labels MAXLEV name) as [|[|] [|]].
Qed.
Lemma rev_lower_key name : rev (map lower (rev (labels name))) = key name.
Proof. by rewrite map_rev, rev_involutive. Qed.

Lemma putbyname_path t name : tree_wf t ->
  let r := DNS_putbyname t name in
  tree_wf r.1 /\ extends t r.1 /\ path r.1 r.2 (key name).
Proof.
  intros Hwf. unfold DNS_putbyname. rewrite nsearch_labels. cbv zeta.
  destruct (nsearch_create _ t TopNode [] Hwf (path_top t) (labels_nolabel name)) as (H1 & H2 & H3).
  rewrite app_nil_r, rev_lower_key in H3.
  destruct (nsearch_loop true t TopNode (rev (labels name))) as [t' i]. cbn [fst snd] in *.
  pose proof (path_range t' i _ H1 H3) as Hi.
  destruct (put_flag_wf t' i NF_LEAF H1 ltac:(lia)) as (H4 & H5).
  split_and!; [done|by apply (extends_trans t t')|by apply (path_extends t')].
Qed.

Lemma getbyname_path t name : tree_wf t ->
  let i := DNS_getbyname t name in
  (i <> 0%nat /\ path t i (key name)) \/ (i = 0%nat /\ forall j, ~ path t j (key name)).
Proof.
  intros Hwf. unfold DNS_getbyname. rewrite nsearch_labels. cbv zeta.
  destruct (nsearch_find (rev (labels name)) t TopNode [] Hwf (path_top t)) as (_ & H).
  by rewrite app_nil_r, rev_lower_key in H.
Qed.

(** The tree is a table of names without regard to case: a name that is
    put keeps its number, later searches find it under every spelling of the
    name and under no other name, no name is lost or renumbered, and no
    attribute is touched. *)
Theorem DNS_names (t : list Node) (name : list Z) :
  tree_wf t ->
  let '(t', i) := DNS_putbyname t name in
  tree_wf t' /\ i <> 0%nat /\
  (forall name2, DNS_getbyname t' name2 = i <-> key name2 = key name) /\
  (forall name2, DNS_getbyname t name2 <> 0%nat ->
     DNS_getbyname t' name2 = DNS_getbyname t name2) /\
  (DNS_getbyname t name <> 0%nat -> DNS_getbyname t name = i) /\
  (forall j, (j < length t)%nat -> n_attr (getnode t' j) = n_attr (getnode t j)).
Proof.
  intros Hwf. pose proof (putbyname_path t name Hwf) as (Hwf' & Hext & Hi).
  destruct (DNS_putbyname t name) as [t' i]. cbn [fst snd] in *.
  pose proof (path_range t' i _ Hwf' Hi) as Hr.
  assert (Hold : forall name2, DNS_getbyname t name2 <> 0%nat ->
    DNS_getbyname t' name2 = DNS_getbyname t name2).
  { intros name2 Hne. destruct (getbyname_path t name2 Hwf) as [[_ H2]|[? _]]; [|done].
    apply (path_extends t t' _ _ Hwf Hext) in H2.
    destruct (getbyname_path t' name2 Hwf') as [[_ H3]|[_ H3]]; [|by apply H3 in H2].
    by eapply path_inj. }
  assert (Hkey : forall name2, DNS_getbyname t' name2 = i <-> key name2 = key name).
  { intros name2. destruct (getbyname_path t' name2 Hwf') as [[Hne H2]|[H0 H2]]; split.
    - intros <-. by eapply path_unique.
    - intros E. rewrite E in H2. by eapply path_inj.
    - intros E. lia.
    - intros E. rewrite E in H2. by apply H2 in Hi. }
  split_and!; [done|lia|done|done| |].
  - intros Hne. rewrite <- Hold by done. by apply Hkey.
  - intros j Hj. apply Hext in Hj. by destruct Hj as (_ & _ & ? & _).
Qed.

Lemma Nodes0_wf : tree_wf Nodes0.
Proof.
  assert (H : forall i, n_parent (getnode Nodes0 i) = None /\ n_child (getnode Nodes0 i) = []).
  { intros [|[|i]]; [done|done|]. by rewrite getnode_none by (simpl; lia). }
  split; try done.
  - intros i. simpl. lia.
  - intros p c. destruct (H p) as [_ ->]. destruct (H c) as [-> _]. split; [done|by intros [_ ?]].
  - intros i j p Hi. destruct (H i) as [E _]. congruence.
  - intros i. simpl. lia.
Qed.

Lemma DNS_names_witness :
  let t := (DNS_putbyname Nodes0 (cs "example.org")).1 in
  DNS_getbyname t (cs "EXAMPLE.ORG") = 3%nat /\ DNS_getbyname t (cs "www.example.org") <> 3%nat.
Proof.
  pose proof (DNS_names Nodes0 (cs "example.org") Nodes0_wf) as H.
  change (DNS_putbyname Nodes0 (cs "example.org")) with
    ((DNS_putbyname Nodes0 (cs "example.org")).1, (DNS_putbyname Nodes0 (cs "example.org")).2) in H.
  destruct H as (_ & _ & H & _). split.
  - apply H. by vm_compute.
  - intros E. change 3%nat with (DNS_putbyname Nodes0 (cs "example.org")).2 in E.
    apply H in E. by vm_compute in E.
Defined.

(** The text of a path: the labels with dots between them. *)
Fixpoint dotted (ls : list (list Z)) : list Z :=
  match ls with
  | [] => []
  | [l] => l
  | l :: ls' => l ++ 46 :: dotted ls'
  end.
Lemma dotted_cons l ls : ls <> [] -> dotted (l :: ls) = l ++ 46 :: dotted ls.
Proof. by destruct ls. Qed.

Lemma getnodename_path t i ls : tree_wf t -> path t i ls -> ls <> [] ->
  forall fuel, (i < fuel)%nat ->
  exists s, getnodename fuel t i = Some s /\ lower s = dotted ls.
Proof.
  intros Hwf. induction 1 as [|i p ls Hp Hpath IH]; intros Hne fuel Hf; [done|].
  destruct fuel as [|fuel]; [lia|]. cbn [getnodename]. rewrite Hp.
  destruct (parent_inv t i p Hwf Hp) as [Hi Hpi].
  destruct (Nat.eqb_spec p TopNode) as [->|HpT].
  - inversion Hpath as [|? q ? Hq]; subst.
    + eexists. split; [done|]. done.
    + pose proof (wf_top t Hwf) as [Ht _]. congruence.
  - assert (Hls : ls <> []) by (by inversion Hpath; subst).
    destruct (IH Hls fuel ltac:(lia)) as (s & -> & Es). eexists. split; [done|].
    rewrite dotted_cons by done. unfold lower in *. rewrite map_app. cbn [map]. by rewrite Es.
Qed.

Lemma nodename_path t i ls : tree_wf t -> path t i ls -> ls <> [] ->
  exists s, DNS_nodename t i = Some s /\ lower s = dotted ls.
Proof.
  intros Hwf Hp Hne. pose proof (path_range t i ls Hwf Hp). unfold DNS_nodename.
  rewrite (proj2 (Nat.leb_gt _ _)) by lia. by apply getnodename_path; [| | |lia].
Qed.

(** The number of a name leads back to the name: the labels from the
    node up to the root, without regard to case. *)
Theorem DNS_nodename_putbyname (t : list Node) (name : list Z) :
  tree_wf t -> labels name <> [] ->
  let '(t', i) := DNS_putbyname t name in
  exists s, DNS_nodename t' i = Some s /\ lower s = dotted (key name).
Proof.
  intros Hwf Hne. pose proof (putbyname_path t name Hwf) as (Hwf' & _ & Hi).
  destruct (DNS_putbyname t name) as [t' i]. cbn [fst snd] in *.
  pose proof (path_range t' i _ Hwf' Hi) as Hr. apply nodename_path; [done|done|].
  unfold key. by destruct (labels name).
Qed.

Lemma DNS_nodename_putbyname_witness :
  exists s, DNS_nodename (DNS_putbyname Nodes0 (cs "Example.org.")).1
              (DNS_putbyname Nodes0 (cs "Example.org.")).2 = Some s /\ lower s = cs "example.org".
Proof.
  apply (DNS_nodename_putbyname Nodes0 (cs "Example.org.") Nodes0_wf). by vm_compute.
Defined.
