(* ===== verification/DnsMsg.v ===== *)
(** * DNS messages ([resolvy/dns.h], [resolvy/resolv.cpp])

    The format of messages: headers, names with compression pointers,
    questions and resource records.  A message is the list of the bytes of
    its buffer and a position is an offset into it; a read outside of the
    buffer is [None].  What is written is a list of bytes, whose room is
    checked where it is put together ([DnsServ]); names that are decoded are
    cut to their buffer as the code cuts them.  The messages of the debugger are not modelled. *)
From S2P Require Import Prelude Strings.
From stdpp Require Import options.

Definition TY_A : Z := 1.
Definition TY_NS : Z := 2.
Definition TY_CNAME : Z := 5.
Definition TY_SOA : Z := 6.
Definition TY_PTR : Z := 12.
Definition TY_MX : Z := 15.
Definition TY_AAAA : Z := 28.
Definition TY_SRV : Z := 33.
Definition TY_QMAILA : Z := 254.
Definition TY_QALL : Z := 255.
Definition CL_IN : Z := 1.

(** ** Reading *)

Definition uc (msg : list Z) (p : Z) : option Z :=
  if p <? 0 then None else msg !! Z.to_nat p.
Definition getShort (msg : list Z) (p : Z) : option (Z * Z) :=
  a ← uc msg p; b ← uc msg (p + 1); Some (Z.lor (Z.shiftl a 8) b, p + 2).
Definition getLong (msg : list Z) (p : Z) : option (Z * Z) :=
  a ← uc msg p; b ← uc msg (p + 1); c ← uc msg (p + 2); d ← uc msg (p + 3);
  Some (s32 (Z.lor (Z.shiftl a 24) (Z.lor (Z.shiftl b 16) (Z.lor (Z.shiftl c 8) d))), p + 4).
Definition getBytes (msg : list Z) (p len : Z) : option (list Z) :=
  if (p <? 0) || (zlen msg <? p + len) then None
  else Some (take (Z.to_nat len) (drop (Z.to_nat p) msg)).

(** ** Writing: the bytes appended *)

Definition putShort (v : Z) : list Z := [uchar (Z.shiftr v 8); uchar v].
Definition putLong (v : Z) : list Z :=
  [uchar (Z.shiftr v 24); uchar (Z.shiftr v 16); uchar (Z.shiftr v 8); uchar v].
Definition putLongVStr (v : Z) : list Z :=
  [Z.land 255 (Z.shiftr v 24); Z.land 255 (Z.shiftr v 16); Z.land 255 (Z.shiftr v 8); Z.land 255 v].

(** ** Headers *)

Record Header := MkHeader {
  H_id : Z; H_M : Z; qdcount : Z; ancount : Z; nscount : Z; arcount : Z
}.
Definition H_QR (M : Z) : Z := Z.shiftr (Z.land M 32768) 15.
Definition H_OPCODE (M : Z) : Z := Z.shiftr (Z.land M 30720) 11.
Definition H_AA (M : Z) : Z := Z.shiftr (Z.land M 1024) 10.
Definition H_TC (M : Z) : Z := Z.shiftr (Z.land M 512) 9.
Definition H_RD (M : Z) : Z := Z.shiftr (Z.land M 256) 8.
Definition H_RA (M : Z) : Z := Z.shiftr (Z.land M 128) 7.
Definition H_Z (M : Z) : Z := Z.shiftr (Z.land M 112) 4.
Definition H_RCODE (M : Z) : Z := Z.land M 15.

(** [M & ~mask | mask & (v << sh)]. *)
Definition set_bits (mask sh M v : Z) : Z :=
  Z.lor (Z.land M (Z.lnot mask)) (Z.land mask (Z.shiftl v sh)).
Definition SET_QR : Z -> Z -> Z := set_bits 32768 15.
Definition SET_OPCODE : Z -> Z -> Z := set_bits 30720 11.
Definition SET_AA : Z -> Z -> Z := set_bits 1024 10.
Definition SET_RD : Z -> Z -> Z := set_bits 256 8.
Definition SET_RA : Z -> Z -> Z := set_bits 128 7.
Definition SET_RCODE : Z -> Z -> Z := set_bits 15 0.

Definition makeHeader (id qr opcode aa tc rd ra z rcode qdc anc nsc arc : Z) : list Z :=
  [Z.land (Z.shiftr id 8) 255; Z.land id 255;
   uchar (Z.lor (Z.shiftl qr 7) (Z.lor (Z.shiftl opcode 3) (Z.lor (Z.shiftl aa 2)
     (Z.lor (Z.shiftl tc 1) rd))));
   uchar (Z.lor (Z.shiftl ra 7) (Z.lor (Z.shiftl z 4) rcode));
   Z.land (Z.shiftr qdc 8) 255; Z.land qdc 255; Z.land (Z.shiftr anc 8) 255; Z.land anc 255;
   Z.land (Z.shiftr nsc 8) 255; Z.land nsc 255; Z.land (Z.shiftr arc 8) 255; Z.land arc 255].
Definition scanHeader (msg : list Z) (head : Z) : option (Header * Z) :=
  '(id, hp) ← getShort msg head; '(M, hp) ← getShort msg hp; '(qd, hp) ← getShort msg hp;
  '(an, hp) ← getShort msg hp; '(ns, hp) ← getShort msg hp; '(ar, _) ← getShort msg hp;
  Some (MkHeader id M qd an ns ar, head + 12).

(** ** Names *)

(** The characters up to a dot, at most 63. *)
Fixpoint take_label (n : nat) (np : list Z) : list Z * list Z :=
  match n, np with
  | S n', c :: np' => if c =? 46 then ([], np)
                      else let '(l, r) := take_label n' np' in (c :: l, r)
  | _, _ => ([], np)
  end.
(** A label that is too long is cut, and the character at the cut is lost
    with the [np++] that skips a dot. *)
Fixpoint putName_loop (fuel : nat) (np : list Z) : list Z :=
  match fuel, np with
  | S fuel', c :: _ =>
      if c =? 46 then []
      else let '(label, r) := take_label 63 np in
           zlen label :: label ++ match r with [] => [] | _ :: r' => putName_loop fuel' r' end
  | _, _ => []
  end.
Definition putName (name : list Z) : list Z := putName_loop (length name) name ++ [0].

(** [sprintf] of [%x]. *)
Fixpoint fmt_x_loop (fuel : nat) (z : Z) (acc : list Z) : list Z :=
  match fuel with
  | O => acc
  | S fuel' => let acc := hexLower (z mod 16) :: acc in
               if z / 16 =? 0 then acc else fmt_x_loop fuel' (z / 16) acc
  end.
Definition fmt_x (z : Z) : list Z := fmt_x_loop 8 z [].

(** The loop of [scanName] from [sp] on, with the name [np] so far; [rec] is
    the call on a pointer's target, [ssp] the start of this name.  What the
    code writes of a bad pointer is cut at the end of the [siz] bytes. *)
Section loop.
Variable rec : Z -> Z -> option (list Z * Z).
Fixpoint scanName_loop (n : nat) (msg : list Z) (ssp siz sp : Z) (np : list Z)
  : option (list Z * Z) :=
  match n with
  | O => None
  | S n' =>
      len ← uc msg sp;
      let sp := sp + 1 in
      let room := clip (Z.to_nat (siz - zlen np)) in
      if len =? 0 then Some (np, sp)
      else if negb (Z.land len 192 =? 0)
      then
        if negb (Z.land len 192 =? 192) then Some (np ++ room (cs "BAD-POINTER-" ++ fmt_x len), sp)
        else
          low ← uc msg sp;
          let sp := sp + 1 in
          let off := Z.lor (Z.shiftl (Z.land len 63) 8) low in
          let here := sp in
          if here <=? off
          then Some (np ++ room (cs "BAD-POINTER-" ++ fmt_x len ++ 45 :: fmt_x low), sp)
          else if (off <? here) && (here - 2 <=? off) || (ssp <=? off)
          then Some (np ++ room (cs "LOOP-POINTER-" ++ fmt_x off), sp)
          else '(rest, _) ← rec off (siz - zlen np); Some (np ++ rest, sp)
      else if siz - zlen np <? len + 2 then Some (np, sp)
      else
        label ← getBytes msg sp len;
        let np := np ++ label in
        let sp := sp + len in
        c ← uc msg sp;
        scanName_loop n' msg ssp siz sp (if c =? 0 then np else np ++ [46])
  end.
End loop.
(** [scanName] with [lev = 32 - k]. *)
Fixpoint scanName (k : nat) (msg : list Z) (ssp siz : Z) : option (list Z * Z) :=
  if siz <=? 1 then Some ([], ssp)
  else match k with
       | O => Some ([], ssp)
       | S k' => scanName_loop (scanName k' msg) (S (length msg)) msg ssp siz ssp []
       end.
Definition MAXPTR : nat := 32.

Definition makeQuestion (name : list Z) (type xclass : Z) : option (list Z) :=
  let qp := putName name in
  if cat qp 0 =? 0 then None
  else Some (qp ++ [Z.land 255 (Z.shiftr type 8); Z.land 255 type;
                    Z.land 255 (Z.shiftr xclass 8); Z.land 255 xclass]).
Definition scanQuery (msg : list Z) (question nsiz : Z) : option (list Z * Z * Z * Z) :=
  '(name, qp) ← scanName MAXPTR msg question nsiz;
  '(type, qp) ← getShort msg qp; '(xclass, qp) ← getShort msg qp;
  Some (name, type, xclass, qp).

Definition putRR (name : list Z) (type ttl : Z) (data : list Z) : list Z :=
  putName name ++ putShort type ++ putShort CL_IN ++ putLong ttl ++ putShort (zlen data) ++ data.

Example putName_1 : putName (cs "www.jp") = 3 :: cs "www" ++ 2 :: cs "jp" ++ [0].
Proof. vm_compute. reflexivity. Qed.
(** The name at 9 of [www.example.jp] at 0 with a pointer to [example]. *)
Example scanName_1 :
  scanName MAXPTR (putName (cs "a.example.jp") ++ 1 :: 98 :: 192 :: 2 :: []) 14 512 =
    Some (cs "b.example.jp", 18) /\
  scanName MAXPTR (putName (cs "a") ++ 1 :: 98 :: 192 :: 3 :: []) 3 512 =
    Some (cs "b.LOOP-POINTER-3", 7).
Proof. vm_compute. done. Qed.
