(* ===== verification/DnsName.v ===== *)
(** * DNS messages: what the codec promises

    Headers and questions come back as they were written; a compressed name
    is decoded to its labels, and decoding hostile bytes always ends and
    stays in the buffer of the name. *)
From S2P Require Import Prelude Strings DnsNode DnsMsg.
From stdpp Require Import options.

(** ** Shorts *)

Lemma uc_app_r pre l i : 0 <= i -> uc (pre ++ l) (zlen pre + i) = uc l i.
Proof.
  intros Hi. unfold uc. pose proof (zlen_nonneg pre).
  rewrite !(proj2 (Z.ltb_ge _ 0)) by lia.
  rewrite lookup_app_r by (unfold zlen; lia). f_equal. unfold zlen. lia.
Qed.
Lemma uc_app_0 pre c l : uc (pre ++ c :: l) (zlen pre) = Some c.
Proof. replace (zlen pre) with (zlen pre + 0) by lia. by rewrite uc_app_r. Qed.
Lemma uc_cons c l i : 0 <= i -> uc (c :: l) (i + 1) = uc l i.
Proof.
  intros Hi. replace (i + 1) with (zlen [c] + i) by (unfold zlen; simpl; lia).
  by apply (uc_app_r [c] l).
Qed.

Lemma short_value v : 0 <= v < 2 ^ 16 ->
  Z.lor (Z.shiftl (Z.land (Z.shiftr v 8) 255) 8) (Z.land v 255) = v /\
  Z.land (Z.shiftr v 8) 255 = uchar (Z.shiftr v 8) /\ Z.land v 255 = uchar v.
Proof.
  intros Hv. split_and!.
  - apply Z.bits_inj'. intros i Hi. rewrite Z.lor_spec, Z.shiftl_spec by lia.
    change 255 with (Z.ones 8). rewrite !Z.land_spec.
    destruct (Z.ltb_spec i 8).
    + rewrite (Z.testbit_neg_r _ (i - 8)) by lia. cbn [andb orb].
      rewrite (Z.ones_spec_low 8 i) by lia. by rewrite andb_true_r.
    + rewrite (Z.ones_spec_high 8 i) by lia. rewrite andb_false_r, orb_false_r.
      rewrite Z.shiftr_spec by lia. replace (i - 8 + 8) with i by lia.
      destruct (Z.ltb_spec i 16).
      * rewrite Z.ones_spec_low by lia. by rewrite andb_true_r.
      * rewrite (bits_high 16 v i) by lia. done.
  - unfold uchar. change 255 with (Z.ones 8). by rewrite Z.land_ones.
  - unfold uchar. change 255 with (Z.ones 8). by rewrite Z.land_ones.
Qed.

Lemma getShort_at msg p a b : uc msg p = Some a -> uc msg (p + 1) = Some b ->
  getShort msg p = Some (Z.lor (Z.shiftl a 8) b, p + 2).
Proof. unfold getShort. by intros -> ->. Qed.

Lemma getShort_put pre v post : 0 <= v < 2 ^ 16 ->
  getShort (pre ++ putShort v ++ post) (zlen pre) = Some (v, zlen pre + 2).
Proof.
  intros Hv. destruct (short_value v Hv) as (E & E1 & E2). unfold putShort.
  rewrite <- E1, <- E2. cbn [app].
  rewrite (getShort_at _ _ (Z.land (Z.shiftr v 8) 255) (Z.land v 255)); [by rewrite E| |].
  - apply uc_app_0.
  - rewrite uc_app_r by lia. by rewrite (uc_cons _ _ 0).
Qed.

(** ** Headers *)

Definition flag_ok (f : Z) : Prop := 0 <= f < 2.

(** The fields of the flags word, by computation over all words. *)
Definition flags_word (qr opcode aa tc rd ra z rcode : Z) : Z :=
  Z.lor (Z.shiftl (uchar (Z.lor (Z.shiftl qr 7) (Z.lor (Z.shiftl opcode 3)
    (Z.lor (Z.shiftl aa 2) (Z.lor (Z.shiftl tc 1) rd))))) 8)
    (uchar (Z.lor (Z.shiftl ra 7) (Z.lor (Z.shiftl z 4) rcode))).

Definition high_ok (qr opcode aa tc rd : Z) : bool :=
  let M := Z.shiftl (uchar (Z.lor (Z.shiftl qr 7) (Z.lor (Z.shiftl opcode 3)
    (Z.lor (Z.shiftl aa 2) (Z.lor (Z.shiftl tc 1) rd))))) 8 in
  (H_QR M =? qr) && (H_OPCODE M =? opcode) && (H_AA M =? aa) && (H_TC M =? tc) && (H_RD M =? rd)
  && (H_RA M =? 0) && (H_Z M =? 0) && (H_RCODE M =? 0).
Definition low_ok (ra z rcode : Z) : bool :=
  let M := uchar (Z.lor (Z.shiftl ra 7) (Z.lor (Z.shiftl z 4) rcode)) in
  (H_QR M =? 0) && (H_OPCODE M =? 0) && (H_AA M =? 0) && (H_TC M =? 0) && (H_RD M =? 0)
  && (H_RA M =? ra) && (H_Z M =? z) && (H_RCODE M =? rcode).

Lemma high_ok_all qr opcode aa tc rd :
  flag_ok qr -> 0 <= opcode < 16 -> flag_ok aa -> flag_ok tc -> flag_ok rd ->
  high_ok qr opcode aa tc rd = true.
Proof.
  intros H1 H2 H3 H4 H5.
  pose proof (zrange_all_spec 2 (fun qr => zrange_all 16 (fun op => zrange_all 2 (fun aa =>
    zrange_all 2 (fun tc => zrange_all 2 (fun rd => high_ok qr op aa tc rd))))) eq_refl qr H1) as H.
  eapply zrange_all_spec in H; [|exact H2]. eapply zrange_all_spec in H; [|exact H3].
  eapply zrange_all_spec in H; [|exact H4]. eapply zrange_all_spec in H; [|exact H5]. exact H.
Qed.
Lemma low_ok_all ra z rcode : flag_ok ra -> 0 <= z < 8 -> 0 <= rcode < 16 ->
  low_ok ra z rcode = true.
Proof.
  intros H1 H2 H3.
  pose proof (zrange_all_spec 2 (fun ra => zrange_all 8 (fun z => zrange_all 16 (fun rc =>
    low_ok ra z rc))) eq_refl ra H1) as H.
  eapply zrange_all_spec in H; [|exact H2]. eapply zrange_all_spec in H; [|exact H3]. exact H.
Qed.

Lemma flags_fields qr opcode aa tc rd ra z rcode :
  flag_ok qr -> 0 <= opcode < 16 -> flag_ok aa -> flag_ok tc -> flag_ok rd ->
  flag_ok ra -> 0 <= z < 8 -> 0 <= rcode < 16 ->
  let M := flags_word qr opcode aa tc rd ra z rcode in
  (H_QR M, H_OPCODE M, H_AA M, H_TC M, H_RD M, H_RA M, H_Z M, H_RCODE M) =
  (qr, opcode, aa, tc, rd, ra, z, rcode).
Proof.
  intros H1 H2 H3 H4 H5 H6 H7 H8 M.
  pose proof (high_ok_all qr opcode aa tc rd H1 H2 H3 H4 H5) as Hh.
  pose proof (low_ok_all ra z rcode H6 H7 H8) as Hl.
  unfold high_ok, low_ok in *. cbv zeta in *. zprop.
  subst M. unfold flags_word, H_QR, H_OPCODE, H_AA, H_TC, H_RD, H_RA, H_Z, H_RCODE in *.
  rewrite !Z.land_lor_distr_l, !Z.shiftr_lor.
  repeat match goal with E : _ = _ |- _ => rewrite E; clear E end.
  by rewrite !Z.lor_0_r.
Qed.

(** The header of a message reads as it was written: the identifier,
    each field of the flags and the four counts. *)
Theorem header_roundtrip (id qr opcode aa tc rd ra z rcode qdc anc nsc arc : Z) (post : list Z) :
  0 <= id < 2 ^ 16 -> 0 <= qdc < 2 ^ 16 -> 0 <= anc < 2 ^ 16 -> 0 <= nsc < 2 ^ 16 ->
  0 <= arc < 2 ^ 16 ->
  flag_ok qr -> 0 <= opcode < 16 -> flag_ok aa -> flag_ok tc -> flag_ok rd ->
  flag_ok ra -> 0 <= z < 8 -> 0 <= rcode < 16 ->
  exists M,
    scanHeader (makeHeader id qr opcode aa tc rd ra z rcode qdc anc nsc arc ++ post) 0 =
      Some (MkHeader id M qdc anc nsc arc, 12) /\
    (H_QR M, H_OPCODE M, H_AA M, H_TC M, H_RD M, H_RA M, H_Z M, H_RCODE M) =
    (qr, opcode, aa, tc, rd, ra, z, rcode).
Proof.
  intros Hid Hqd Han Hns Har H1 H2 H3 H4 H5 H6 H7 H8.
  exists (flags_word qr opcode aa tc rd ra z rcode). split; [|by apply flags_fields].
  unfold scanHeader, makeHeader. cbn [app].
  repeat (erewrite getShort_at; [|reflexivity|reflexivity]; cbn [mbind option_bind]; simpl (_ + _)).
  rewrite !(fun v H => proj1 (short_value v H)) by done. done.
Qed.

Lemma header_roundtrip_witness :
  exists M, scanHeader (makeHeader 4660 1 0 1 0 1 0 0 3 1 0 1 0) 0 =
    Some (MkHeader 4660 M 1 0 1 0, 12) /\ H_RCODE M = 3.
Proof.
  destruct (header_roundtrip 4660 1 0 1 0 1 0 0 3 1 0 1 0 []) as (M & E & H);
    unfold flag_ok; try lia.
  exists M. split; [exact E|]. congruence.
Defined.

(** ** Names *)

(** [dname msg d ssp sp ls e]: the name that starts at [ssp], read from [sp]
    on, has the labels [ls] and ends at [e]; it goes through at most [d]
    pointers, each to a place before the start of the name that holds it. *)
Inductive dname (msg : list Z) : nat -> Z -> Z -> list (list Z) -> Z -> Prop :=
| dn_root d ssp sp : uc msg sp = Some 0 -> dname msg d ssp sp [] (sp + 1)
| dn_label d ssp sp len label ls e :
    uc msg sp = Some len -> 1 <= len < 64 -> getBytes msg (sp + 1) len = Some label ->
    dname msg d ssp (sp + 1 + len) ls e -> dname msg d ssp sp (label :: ls) e
| dn_ptr d ssp sp hi low off ls e :
    uc msg sp = Some hi -> uc msg (sp + 1) = Some low -> Z.land hi 192 = 192 ->
    off = Z.lor (Z.shiftl (Z.land hi 63) 8) low -> off < ssp -> ssp <= sp -> ls <> [] ->
    dname msg d off off ls e -> dname msg (S d) ssp sp ls (sp + 2).

Lemma dname_mono msg d ssp sp ls e : dname msg d ssp sp ls e ->
  forall d', (d <= d')%nat -> dname msg d' ssp sp ls e.
Proof.
  induction 1; intros d' Hd; [by apply dn_root|eapply dn_label; eauto|].
  destruct d' as [|d']; [lia|]. eapply dn_ptr; eauto. apply IHdname. lia.
Qed.

(** What the first byte tells. *)
Lemma dname_first msg d ssp sp ls e : dname msg d ssp sp ls e ->
  exists c, uc msg sp = Some c /\ (c = 0 <-> ls = []).
Proof.
  destruct 1 as [|? ? ? len ? ? ? Hl Hr|? ? ? hi ? ? ? ? Hhi _ Hm _ _ _ Hne].
  - exists 0. done.
  - exists len. split; [done|]. split; [lia|done].
  - exists hi. split; [done|]. split; [intros ->; done|done].
Qed.

Lemma land_192_small len : 0 <= len < 64 -> Z.land len 192 = 0.
Proof.
  intros Hl. pose proof (zrange_all_spec 64 (fun l => Z.land l 192 =? 0) eq_refl len Hl) as H.
  by apply Z.eqb_eq in H.
Qed.

Lemma getBytes_length msg p len l : 0 <= len -> getBytes msg p len = Some l -> zlen l = len.
Proof.
  intros Hl. unfold getBytes. destruct (_ || _) eqn:E; [done|]. intros [= <-]. zprop.
  unfold zlen in *. rewrite length_take, length_drop. lia.
Qed.

Lemma uc_lt msg p c : uc msg p = Some c -> 0 <= p < zlen msg.
Proof.
  unfold uc. destruct (Z.ltb_spec p 0); [done|]. intros Hc%lookup_lt_Some. unfold zlen. lia.
Qed.

Lemma zlen_dotted_cons l ls : ls <> [] -> zlen (dotted (l :: ls)) = zlen l + 1 + zlen (dotted ls).
Proof. intros H. rewrite dotted_cons, zlen_app, zlen_cons by done. lia. Qed.

Lemma scanName_loop_dname msg d ssp sp ls e : dname msg d ssp sp ls e ->
  forall k n siz np, (d <= k)%nat -> (Z.to_nat (zlen msg - sp) < n)%nat ->
  zlen np + zlen (dotted ls) + 2 <= siz ->
  scanName_loop (scanName k msg) n msg ssp siz sp np = Some (np ++ dotted ls, e).
Proof.
  induction 1 as [d ssp sp H0|d ssp sp len label ls e Hl Hr Hb Hd IH
    |d ssp sp hi low off ls e Hhi Hlow Hm Hoff Hlt Hle Hne Hd IH];
    intros k n siz np Hk Hn Hsiz; (destruct n as [|n]; [lia|]); cbn [scanName_loop].
  - rewrite H0. cbn. by rewrite app_nil_r.
  - rewrite Hl. cbn [mbind option_bind]. rewrite (proj2 (Z.eqb_neq len 0)) by lia.
    rewrite land_192_small by lia. cbn [negb Z.eqb]. cbv zeta.
    assert (Hlen : zlen label = len) by (eapply getBytes_length; [|exact Hb]; lia).
    destruct (dname_first _ _ _ _ _ _ Hd) as (c & Hc & Hc0).
    assert (Hz : zlen np + len + 2 <= siz).
    { destruct ls as [|l ls]; [cbn [dotted] in Hsiz; lia|].
      rewrite zlen_dotted_cons in Hsiz by done. pose proof (zlen_nonneg (dotted (l :: ls))). lia. }
    rewrite (proj2 (Z.ltb_ge (siz - zlen np) (len + 2))) by lia.
    rewrite Hb. cbn [mbind option_bind]. rewrite Hc. cbn [mbind option_bind].
    pose proof (uc_lt _ _ _ Hl) as Hsp. rewrite (IH k n siz); [|done|lia|].
    + f_equal. f_equal. destruct (Z.eqb_spec c 0) as [->|Hne].
      * rewrite (proj1 Hc0) by done. cbn [dotted]. by rewrite app_nil_r.
      * rewrite dotted_cons by tauto. by rewrite <- !app_assoc.
    + destruct (Z.eqb_spec c 0) as [->|Hne].
      * rewrite (proj1 Hc0), zlen_app by done. cbn [dotted]. rewrite zlen_nil. lia.
      * rewrite zlen_dotted_cons in Hsiz by tauto. rewrite !zlen_app. change (zlen [46]) with 1. lia.
  - rewrite Hhi. cbn [mbind option_bind].
    rewrite (proj2 (Z.eqb_neq hi 0)) by (intros ->; done). rewrite Hm. cbn [negb Z.eqb Pos.eqb].
    rewrite Hlow. cbn [mbind option_bind]. cbv zeta. rewrite <- Hoff.
    pose proof (uc_lt _ _ _ Hhi) as Hsp.
    rewrite (proj2 (Z.leb_gt (sp + 1 + 1) off)) by lia.
    rewrite (proj2 (Z.leb_gt (sp + 1 + 1 - 2) off)) by lia.
    rewrite (proj2 (Z.leb_gt ssp off)) by lia. rewrite andb_false_r. cbn [orb].
    destruct k as [|k]; [lia|]. cbn [scanName].
    pose proof (zlen_nonneg np). pose proof (zlen_nonneg (dotted ls)).
    destruct (Z.leb_spec (siz - zlen np) 1); [lia|].
    assert (Hoff0 : 0 <= off) by (destruct (dname_first _ _ _ _ _ _ Hd) as (c & Hc & _);
      apply uc_lt in Hc; lia).
    rewrite (IH k (S (length msg)) (siz - zlen np) []);
      [|lia|unfold zlen; lia|rewrite zlen_nil; lia].
    cbn. do 2 f_equal. lia.
Qed.

(** ** Encoded names *)

Definition label_ok (l : list Z) : Prop :=
  (1 <= length l <= 63)%nat /\ existsb (Z.eqb 46) l = false.

Lemma take_label_all n l r : (length l <= n)%nat -> existsb (Z.eqb 46) l = false ->
  (r = [] \/ exists r', r = 46 :: r') -> take_label n (l ++ r) = (l, r).
Proof.
  revert l. induction n as [|n IH]; intros l Hn Hl Hr.
  - destruct l; [|simpl in Hn; lia]. by destruct Hr as [->|[r' ->]].
  - destruct l as [|c l].
    + by destruct Hr as [->|[r' ->]].
    + cbn [app take_label existsb] in *. rewrite Z.eqb_sym. apply orb_false_iff in Hl as [Hc Hl].
      rewrite Hc. by rewrite IH by (simpl in *; try lia; done).
Qed.

Lemma putName_labels ls : Forall label_ok ls -> forall fuel, (length (dotted ls) <= fuel)%nat ->
  putName_loop fuel (dotted ls) = concat (map (fun l => zlen l :: l) ls).
Proof.
  induction 1 as [|l ls Hl Hls IH]; intros fuel Hf; [by destruct fuel|].
  destruct l as [|c l]; [destruct Hl as [Hl _]; simpl in Hl; lia|].
  destruct Hl as [Hlen Hdot].
  assert (Hc : (c =? 46) = false) by (cbn [existsb] in Hdot; zprop; apply Z.eqb_neq; lia).
  set (r := match ls with [] => [] | _ => 46 :: dotted ls end).
  assert (Hd : dotted ((c :: l) :: ls) = (c :: l) ++ r)
    by (destruct ls; [by rewrite app_nil_r|done]).
  rewrite Hd in *. destruct fuel as [|fuel]; [simpl in Hf; lia|].
  assert (Ht : take_label 63 ((c :: l) ++ r) = (c :: l, r)).
  { apply take_label_all; [lia|done|]. subst r. destruct ls; [by left|right; eauto]. }
  change ((c :: l) ++ r) with (c :: (l ++ r)) in *. cbn [putName_loop]. rewrite Hc, Ht.
  cbn [map concat]. change ((zlen (c :: l) :: c :: l) ++ concat (map (fun l => zlen l :: l) ls))
    with (zlen (c :: l) :: (c :: l) ++ concat (map (fun l => zlen l :: l) ls)).
  do 2 f_equal. subst r. destruct ls as [|l2 ls]; [done|]. apply IH.
  cbn [length] in Hf. rewrite length_app in Hf. cbn [length] in Hf. lia.
Qed.

Lemma zlen_putName ls : Forall label_ok ls -> ls <> [] ->
  zlen (putName (dotted ls)) = zlen (dotted ls) + 2.
Proof.
  intros Hls Hne. unfold putName. rewrite putName_labels, zlen_app by done. change (zlen [0]) with 1.
  enough (H : zlen (concat (map (fun l => zlen l :: l) ls)) = zlen (dotted ls) + 1) by lia.
  clear Hls. induction ls as [|l ls IH]; [done|]. cbn [map concat]. rewrite zlen_app, zlen_cons.
  destruct ls as [|l2 ls]; [cbn [map concat dotted]; rewrite zlen_nil; lia|].
  rewrite IH by done. rewrite (dotted_cons l) by done. rewrite zlen_app, (zlen_cons 46). lia.
Qed.

Lemma dname_labels msg d ssp ls : Forall label_ok ls -> forall pre post,
  msg = pre ++ concat (map (fun l => zlen l :: l) ls) ++ 0 :: post ->
  dname msg d ssp (zlen pre) ls
    (zlen pre + zlen (concat (map (fun l => zlen l :: l) ls)) + 1).
Proof.
  induction 1 as [|l ls [Hl _] Hls IH]; intros pre post Hm; cbn [map concat] in *.
  - replace (zlen pre + zlen (@nil Z) + 1) with (zlen pre + 1) by (unfold zlen; simpl; lia).
    apply dn_root. subst msg. apply uc_app_0.
  - set (c := concat (map (fun l => zlen l :: l) ls)) in *.
    assert (Hm2 : msg = (pre ++ zlen l :: l) ++ c ++ 0 :: post)
      by (rewrite Hm, <- !app_assoc; done).
    specialize (IH _ _ Hm2). rewrite zlen_app, zlen_cons in IH.
    replace (zlen pre + zlen ((zlen l :: l) ++ c) + 1)
      with (zlen pre + (zlen l + 1) + zlen c + 1) by (rewrite zlen_app, zlen_cons; lia).
    apply (dn_label msg d ssp (zlen pre) (zlen l)).
    + rewrite Hm. apply uc_app_0.
    + unfold zlen. lia.
    + unfold getBytes. pose proof (zlen_nonneg pre).
      destruct (Z.ltb_spec (zlen pre + 1) 0); [lia|]. cbn [orb].
      destruct (Z.ltb_spec (zlen msg) (zlen pre + 1 + zlen l)) as [Hx|_].
      { rewrite Hm, !zlen_app, zlen_cons in Hx. pose proof (zlen_nonneg c).
        pose proof (zlen_nonneg (0 :: post)). lia. }
      f_equal. rewrite Hm. replace (Z.to_nat (zlen pre + 1)) with (length pre + 1)%nat
        by (unfold zlen; lia).
      rewrite <- drop_drop, drop_app_length. cbn [app drop].
      rewrite drop_0, <- app_assoc. by rewrite take_app_length' by (unfold zlen; lia).
    + replace (zlen pre + 1 + zlen l) with (zlen pre + (zlen l + 1)) by lia. exact IH.
Qed.

Lemma scanName_S k msg ssp siz : 1 < siz ->
  scanName (S k) msg ssp siz =
  scanName_loop (scanName k msg) (S (length msg)) msg ssp siz ssp [].
Proof. intros H. cbn [scanName]. by rewrite (proj2 (Z.leb_gt siz 1)). Qed.

Lemma scanName_dname (msg : list Z) (d : nat) (start siz : Z) (ls : list (list Z)) (e : Z) :
  dname msg d start start ls e -> (d < MAXPTR)%nat -> zlen (dotted ls) + 2 <= siz ->
  scanName MAXPTR msg start siz = Some (dotted ls, e).
Proof.
  intros Hd Hk Hsiz. pose proof (zlen_nonneg (dotted ls)).
  change MAXPTR with (S 31) in *. rewrite scanName_S by lia.
  assert (0 <= start) by (destruct (dname_first _ _ _ _ _ _ Hd) as (c & Hc & _);
    apply uc_lt in Hc; lia).
  by rewrite (scanName_loop_dname _ _ _ _ _ _ Hd 31 (S (length msg)) siz [])
    by (rewrite ?zlen_nil; unfold zlen in *; lia).
Qed.

(** A compressed name is decoded to its labels with dots between them,
    through any chain of up to 31 pointers that lead backward, when the
    buffer has room for it; the position behind the name in the message is
    returned, and nothing behind it is read. *)
Theorem scanName_decodes (msg : list Z) (d : nat) (start siz : Z) (ls : list (list Z)) (e : Z) :
  dname msg d start start ls e -> (d < MAXPTR)%nat -> zlen (dotted ls) + 2 <= siz ->
  scanName MAXPTR msg start siz = Some (dotted ls, e).
Proof. apply scanName_dname. Qed.

(** The name [b.example.jp] whose tail is behind a pointer. *)
Definition ex_msg : list Z :=
  putName (cs "a.example.jp") ++ 1 :: 98 :: 192 :: 2 :: [0; 1].
Lemma ex_msg_name : dname ex_msg 1 14 14 [cs "b"; cs "example"; cs "jp"] 18.
Proof.
  apply (dn_label _ _ _ _ 1); [done|lia|done|].
  apply (dn_ptr _ 0 14 16 192 2 2 [cs "example"; cs "jp"] 14); try done.
  apply (dn_label _ _ _ _ 7); [done|lia|done|]. apply (dn_label _ _ _ _ 2); [done|lia|done|].
  apply (dn_root _ 0 2 13). done.
Qed.

Lemma scanName_decodes_witness :
  scanName MAXPTR ex_msg 14 512 = Some (cs "b.example.jp", 18).
Proof.
  rewrite (scanName_decodes ex_msg 1 14 512 [cs "b"; cs "example"; cs "jp"] 18 ex_msg_name);
    [reflexivity|unfold MAXPTR; lia|by vm_compute].
Defined.

(** Any name in a message that [putName] wrote. *)
Lemma scanName_putName pre ls post siz : Forall label_ok ls -> zlen (dotted ls) + 2 <= siz ->
  scanName MAXPTR (pre ++ putName (dotted ls) ++ post) (zlen pre) siz =
  Some (dotted ls, zlen pre + zlen (putName (dotted ls))).
Proof.
  intros Hls Hsiz. unfold putName. rewrite putName_labels by done.
  set (c := concat (map (fun l => zlen l :: l) ls)).
  set (msg := pre ++ (c ++ [0]) ++ post).
  pose proof (dname_labels msg 0 (zlen pre) ls Hls pre post
    ltac:(subst msg c; by rewrite <- app_assoc)) as Hd. fold c in Hd.
  replace (zlen pre + zlen (c ++ [0])) with (zlen pre + zlen c + 1)
    by (rewrite zlen_app; change (zlen [0]) with 1; lia).
  pose proof (zlen_nonneg (dotted ls)). pose proof (zlen_nonneg pre).
  change MAXPTR with (S 31). rewrite scanName_S by lia.
  by rewrite (scanName_loop_dname _ _ _ _ _ _ Hd 31 (S (length msg)) siz [])
    by (rewrite ?zlen_nil; unfold zlen in *; lia).
Qed.

Lemma makeQuestion_reads (pre post : list Z) (ls : list (list Z)) (type xclass nsiz : Z) :
  Forall label_ok ls -> ls <> [] -> zlen (dotted ls) + 2 <= nsiz ->
  0 <= type < 2 ^ 16 -> 0 <= xclass < 2 ^ 16 ->
  exists q, makeQuestion (dotted ls) type xclass = Some q /\
    scanQuery (pre ++ q ++ post) (zlen pre) nsiz =
      Some (dotted ls, type, xclass, zlen pre + zlen q).
Proof.
  intros Hls Hne Hsiz Ht Hc. unfold makeQuestion.
  set (n := putName (dotted ls)).
  set (tail := [Z.land 255 (Z.shiftr type 8); Z.land 255 type;
                Z.land 255 (Z.shiftr xclass 8); Z.land 255 xclass]).
  assert (Htail : tail = putShort type ++ putShort xclass).
  { subst tail. unfold putShort. rewrite !(Z.land_comm 255).
    destruct (short_value type Ht) as (_ & -> & ->).
    by destruct (short_value xclass Hc) as (_ & -> & ->). }
  exists (n ++ tail). split.
  - assert (H0 : (cat n 0 =? 0) = false).
    { apply Z.eqb_neq. subst n. unfold putName. rewrite putName_labels by done.
      destruct ls as [|l ls]; [done|]. cbn [map concat app].
      apply Forall_cons in Hls as [[Hl _] _]. change (zlen l <> 0). unfold zlen. lia. }
    by rewrite H0.
  - unfold scanQuery. rewrite <- app_assoc. subst n. rewrite scanName_putName by done.
    cbn [mbind option_bind]. rewrite Htail. set (n := putName (dotted ls)).
    replace (zlen pre + zlen n) with (zlen (pre ++ n)) by apply zlen_app.
    rewrite (app_assoc pre), <- (app_assoc (putShort type)), getShort_put by done.
    cbn [mbind option_bind].
    replace (zlen (pre ++ n) + 2) with (zlen ((pre ++ n) ++ putShort type))
      by (rewrite !zlen_app; reflexivity).
    rewrite (app_assoc (pre ++ n)), getShort_put by done. cbn [mbind option_bind].
    do 2 f_equal. rewrite !zlen_app. change (zlen (putShort type)) with 2.
    change (zlen (putShort xclass)) with 2. lia.
Qed.

(** A question reads as it was written: name, type and class, at any
    place of a message, up to the position behind it. *)
Theorem question_roundtrip (pre post : list Z) (ls : list (list Z)) (type xclass nsiz : Z) :
  Forall label_ok ls -> ls <> [] -> zlen (dotted ls) + 2 <= nsiz ->
  0 <= type < 2 ^ 16 -> 0 <= xclass < 2 ^ 16 ->
  exists q, makeQuestion (dotted ls) type xclass = Some q /\
    scanQuery (pre ++ q ++ post) (zlen pre) nsiz =
      Some (dotted ls, type, xclass, zlen pre + zlen q).
Proof. apply makeQuestion_reads. Qed.

Lemma question_roundtrip_witness :
  exists q, makeQuestion (cs "www.example.jp") TY_MX CL_IN = Some q /\
    scanQuery (repeat 0 12 ++ q ++ []) 12 512 = Some (cs "www.example.jp", TY_MX, CL_IN, 12 + zlen q).
Proof.
  apply (question_roundtrip (repeat 0 12) [] [cs "www"; cs "example"; cs "jp"] TY_MX CL_IN 512);
    [|done|by vm_compute|done|done].
  repeat (apply Forall_cons; split); [..|by apply Forall_nil]; (split; [simpl; lia|reflexivity]).
Defined.

(** ** Hostile names *)

Section hostile.
Context (m : list Z) (Hbytes : bytes_ok m).

Lemma uc_in p : 0 <= p < zlen m -> exists c, uc m p = Some c /\ 0 <= c < 256.
Proof using Hbytes.
  intros Hp. unfold uc. destruct (Z.ltb_spec p 0); [lia|]. unfold zlen in Hp.
  destruct (lookup_lt_is_Some_2 m (Z.to_nat p) ltac:(lia)) as [c Hc]. exists c.
  split; [done|]. exact (Forall_lookup_1 _ _ _ _ Hbytes Hc).
Qed.

(** What reading a name gives: a name that fits, and a position that is not
    further on than the size of the buffer and one pointer. *)
Definition bounded (ssp siz : Z) (r : option (list Z * Z)) : Prop :=
  exists name e, r = Some (name, e) /\ zlen name < siz /\ ssp <= e <= ssp + siz + 2.

Lemma bounded_clip ssp siz np text e : zlen np < siz -> ssp <= e <= ssp + siz + 2 ->
  bounded ssp siz (Some (np ++ clip (Z.to_nat (siz - zlen np)) text, e)).
Proof using.
  clear. intros Hnp He. eexists _, _. split; [done|]. split; [|done].
  rewrite zlen_app. unfold clip, zlen in *. rewrite length_take. lia.
Qed.

(** Where the loop is when the name so far is [np]: one byte for each
    character and its dot, and one more at the end of the name. *)
Definition at_name (ssp sp : Z) (np : list Z) : Prop :=
  ssp <= sp /\ (sp <= ssp + zlen np \/ sp <= ssp + zlen np + 1 /\ uc m sp = Some 0).

Lemma loop_bounded rec siz ssp : 0 <= ssp -> ssp + siz + 2 <= zlen m ->
  (forall off s, 0 <= off < ssp -> 1 <= s <= siz -> bounded off s (rec off s)) ->
  forall n sp np, at_name ssp sp np ->
  (Z.to_nat (zlen m - sp) < n)%nat -> zlen np < siz ->
  bounded ssp siz (scanName_loop rec n m ssp siz sp np).
Proof using Hbytes.
  intros Hssp Hlim Hrec. pose proof (fun l => zlen_nonneg (A:=Z) l) as Hpos.
  induction n as [|n IH]; intros sp np [Hsp Hat] Hn Hnp; [lia|]. cbn [scanName_loop].
  destruct (uc_in sp) as (len & Hlen & Hr); [lia|]. rewrite Hlen. cbn [mbind option_bind]. cbv zeta.
  destruct (Z.eqb_spec len 0) as [|Hne]; [exists np, (sp + 1); split_and!; [done|lia..]|].
  assert (Hsp2 : sp <= ssp + zlen np) by (destruct Hat as [|[_ H0]]; [done|congruence]).
  destruct (negb (Z.land len 192 =? 0)) eqn:Hm.
  - destruct (negb (Z.land len 192 =? 192)); [apply bounded_clip; lia|].
    destruct (uc_in (sp + 1)) as (low & -> & Hlow); [lia|]. cbn [mbind option_bind].
    set (off := Z.lor (Z.shiftl (Z.land len 63) 8) low). cbv zeta.
    destruct (sp + 1 + 1 <=? off); [apply bounded_clip; lia|].
    destruct ((off <? sp + 1 + 1) && (sp + 1 + 1 - 2 <=? off) || (ssp <=? off)) eqn:El;
      [apply bounded_clip; lia|].
    assert (0 <= off) by (apply Z.lor_nonneg; split; [apply Z.shiftl_nonneg, Z.land_nonneg|]; lia).
    zprop. specialize (Hpos np). destruct (Hrec off (siz - zlen np)) as (rest & e & -> & Hl & _); [lia|lia|].
    cbn [mbind option_bind]. exists (np ++ rest), (sp + 1 + 1). split; [done|].
    split; [rewrite zlen_app; lia|lia].
  - destruct (Z.ltb_spec (siz - zlen np) (len + 2)) as [|Es]; [exists np, (sp + 1); split_and!; [done|lia..]|].
    destruct (getBytes m (sp + 1) len) as [label|] eqn:Eg.
    2: { unfold getBytes in Eg. destruct (_ || _) eqn:E; [|done]. zprop; lia. }
    apply getBytes_length in Eg; [|lia]. cbn [mbind option_bind].
    destruct (uc_in (sp + 1 + len)) as (c & Hc & _); [lia|]. rewrite Hc. cbn [mbind option_bind].
    apply IH; [|lia|]; destruct (Z.eqb_spec c 0) as [->|];
      unfold at_name; rewrite !zlen_app; change (zlen [46]) with 1; [|lia..].
    split; [lia|right; split; [lia|done]].
Qed.

Lemma scanName_bounded k : forall ssp siz, 0 <= ssp -> 1 <= siz -> ssp + siz + 2 <= zlen m ->
  bounded ssp siz (scanName k m ssp siz).
Proof using Hbytes.
  induction k as [|k IH]; intros ssp siz Hssp Hsiz Hlim; cbn [scanName];
    (destruct (siz <=? 1) eqn:E; [exists [], ssp; split_and!; [done|rewrite zlen_nil; lia|lia..]|]).
  { exists [], ssp. split_and!; [done|rewrite zlen_nil; lia|lia..]. }
  apply Z.leb_gt in E. apply loop_bounded; [lia|lia| |split; [lia|left; rewrite zlen_nil; lia]
    |unfold zlen; lia|rewrite zlen_nil; lia].
  intros off s Hoff Hs. by apply IH; lia.
Qed.
End hostile.

(** Decoding a name always ends and stays in the buffer of the name,
    whatever the bytes of the memory are: pointers cannot lead it in circles,
    and a name longer than the room it has is cut.  The end of the message is
    not looked at, so it may read on behind it, but not further from its
    start than the size of the buffer and a pointer. *)
Theorem scanName_hostile (m : list Z) (start siz : Z) :
  bytes_ok m -> 0 <= start -> 1 <= siz -> start + siz + 2 <= zlen m ->
  exists name e, scanName MAXPTR m start siz = Some (name, e) /\
    zlen name < siz /\ start <= e <= start + siz + 2.
Proof. intros Hm Hs Hsiz Hl. by apply (scanName_bounded m Hm MAXPTR). Qed.

(** Two names that point at each other. *)
Lemma scanName_hostile_witness :
  exists name e, scanName MAXPTR ([1; 97; 192; 4; 1; 98; 192; 0] ++ replicate 30 63) 4 32
    = Some (name, e) /\ zlen name < 32 /\ 4 <= e <= 4 + 32 + 2.
Proof.
  apply (scanName_hostile _ 4 32); [by apply (bool_decide_unpack _)|lia|lia|vm_compute; congruence].
Defined.
