(* ===== verification/DnsServ.v ===== *)
(** * The DNS server ([resolvy/resolv.cpp])

    Messages in and out: the records of a response are put into the tree of
    names ([dumpResourceRecord], [dumpResponse]); a query is answered from
    the resolver's answers or from the records in the tree ([dns_search]).

    The record [dns_env] holds what the resolver and the configuration
    answer; the resolver may change the state.  [LastSOAdom] and
    [RES_CACHED_UNKNOWN] are fields of the state.  Domain names that the
    messages hold are used as C strings.

    The records of an answer are written into [RRbuf] of 2048 bytes with
    stores that are not checked ([putShort]), and are copied from there into
    the caller's buffer for the reply; the data of a record of names is
    written into [rbuff] of 512 bytes first.  What would not fit is marked
    ([r_fit]), and the server's result is then [None]: the code stores or
    reads outside of an array, or sends a record that is cut in a name.

    Not modelled: debugging output, and the counters and timeouts. *)
From S2P Require Import Prelude Strings DnsNode DnsMsg.
From stdpp Require Import options.

Record hostent := HostEnt {
  h_name : list Z; h_addrtype : Z; h_length : Z; h_addr_list : list (list Z)
}.
Record dns_st := DnsSt {
  d_nodes : list Node;
  d_LastSOAdom : list Z;
  RES_CACHED_UNKNOWN : Z
}.
Definition set_nodes (st : dns_st) (t : list Node) : dns_st :=
  DnsSt t (d_LastSOAdom st) (RES_CACHED_UNKNOWN st).
Record dns_env := DnsEnv {
  gethostbyNX : list Z -> option (list Z) -> dns_st -> option hostent * dns_st;
  GETHOSTBYADDR : list Z -> Z -> dns_st -> option hostent * dns_st;
  getRRbynameaddr : list Z -> Z -> dns_st -> dns_st;
  RES_proxy : bool;
  VSA_dnstosa : list Z -> option (list Z * Z);
  VSA_ltoa6 : list Z -> list Z;
  ipv6_domain : list Z -> list Z;
  AF_INET6 : Z;
  DNS_DOMAIN : list Z; DNS_ORIGIN : list Z; DNS_ADMIN : list Z; DNS_MX : option (list Z);
  DNS_SERIAL : Z; DNS_REFRESH : Z; DNS_RETRY : Z; DNS_EXPIRE : Z; DNS_MINTTL : Z;
  dns_now : Z
}.

Definition REVERSE_DOM : list Z := cs "in-addr.arpa".

Definition tail_of (s t : list Z) : bool := bool_decide (strtailstr s t <> None).

(** [1<<type] of 32 bits; a machine shifts by the low 5 bits of the count. *)
Definition typemask (type : Z) : Z := s32 (Z.shiftl 1 (Z.land type 31)).

(** ** Records out: the number of records, their bytes, and whether the data
    fitted in [rbuff] *)

Record rrs := Rrs { r_anc : Z; r_bytes : list Z; r_fit : bool }.
Definition none_rr : rrs := Rrs 0 [] true.
Definition app_rrs (a b : rrs) : rrs :=
  Rrs (r_anc a + r_anc b) (r_bytes a ++ r_bytes b) (r_fit a && r_fit b).
Definition rbuff_size : Z := 512.
Definition RRbuf_size : Z := 2048.
(** One record whose data is in [rbuff]. *)
Definition rbuff_rr (name : list Z) (type ttl : Z) (rbuff : list Z) : rrs :=
  Rrs 1 (putRR name type ttl rbuff) (zlen rbuff <=? rbuff_size).
Definition fits_RRbuf (r : rrs) : bool := r_fit r && (zlen (r_bytes r) <=? RRbuf_size).

Section serv.
Variable env : dns_env.

(** [DNS_putbyaddr] ([resolvy/dnsnode.cpp]). *)
Definition DNS_putbyaddr (t : list Node) (addr : list Z) : list Node * nat :=
  DNS_putbyname t
    (match scan_4d addr with
     | Some (a1, a2, a3, a4) => fmt_4d a4 a3 a2 a1 ++ 46 :: REVERSE_DOM
     | None => ipv6_domain env addr
     end).

(** ** Records in *)

(** The data of a record as it is kept: its type, its class and the bytes. *)
Definition put_rr (store : bool) (t : list Node) (nid : nat) (type ttl xclass : Z) (data : list Z)
  : list Node :=
  if store
  then (DNS_putattr t nid (typemask type) ttl (uchar type :: uchar xclass :: data) (dns_now env)).1
  else t.

(** The cases of [dumpResourceRecord] on the type, with its data at [mp];
    [put t data] keeps the record. *)
Definition rr_addr (msg : list Z) (mp type : Z) (put : list Node -> list Z -> list Node)
  (t : list Node) : option (list Node) :=
  if type =? TY_AAAA
  then
    a ← getBytes msg mp 16;
    let '(t, _) := DNS_putbyaddr t (VSA_ltoa6 env a) in Some (put t a)
  else
    a ← getBytes msg mp 4;
    let '(t, _) := DNS_putbyaddr t (fmt_4d (cat a 0) (cat a 1) (cat a 2) (cat a 3)) in
    Some (put t a).
Definition rr_name (msg : list Z) (mp type : Z) (put : list Node -> list Z -> list Node)
  (t : list Node) : option (list Node) :=
  '(rname, _) ← scanName MAXPTR msg (if type =? TY_MX then mp + 2 else mp) 512;
  let rname := cstr rname in
  if bool_decide (rname = []) then Some t
  else
    let '(t, rnid) := DNS_putbyname t rname in
    pref ← (if type =? TY_MX then getBytes msg mp 2 else Some []);
    Some (put t (putLongVStr (Z.of_nat rnid) ++ pref)).
Definition rr_soa (msg : list Z) (mp : Z) (put : list Node -> list Z -> list Node)
  (t : list Node) : option (list Node) :=
  '(mname, sp) ← scanName MAXPTR msg mp 512;
  '(rname, sp) ← scanName MAXPTR msg sp 512;
  '(serial, sp) ← getLong msg sp; '(refresh, sp) ← getLong msg sp;
  '(retry, sp) ← getLong msg sp; '(expire, sp) ← getLong msg sp;
  '(minimum, sp) ← getLong msg sp;
  let '(t, mnid) := DNS_putbyname t (cstr mname) in
  let '(t, rnid) := DNS_putbyname t (cstr rname) in
  Some (put t (putLongVStr (Z.of_nat mnid) ++ putLongVStr (Z.of_nat rnid) ++
    putLongVStr serial ++ putLongVStr refresh ++ putLongVStr retry ++
    putLongVStr expire ++ putLongVStr minimum)).
Definition rr_data (msg : list Z) (mp type : Z) (put : list Node -> list Z -> list Node)
  (t : list Node) : option (list Node) :=
  if (type =? TY_AAAA) || (type =? TY_A) then rr_addr msg mp type put t
  else if (type =? TY_MX) || (type =? TY_NS) || (type =? TY_CNAME) || (type =? TY_PTR)
  then rr_name msg mp type put t
  else if type =? TY_SOA then rr_soa msg mp put t
  else Some t.

(** [dumpResourceRecord]: the position behind the record, or a null pointer
    when it is not accepted. *)
Definition dumpResourceRecord (msg : list Z) (size rr : Z) (store : bool) (st : dns_st)
  : option (dns_st * option Z) :=
  if size <=? rr then Some (st, None)
  else
    '(name, mp) ← scanName MAXPTR msg rr 512;
    let name := cstr name in
    let '(t, nid) := DNS_putbyname (d_nodes st) name in
    '(type, mp) ← getShort msg mp;
    '(xclass, mp) ← getShort msg mp;
    '(ttl, mp) ← getLong msg mp;
    '(rdlength, mp) ← getShort msg mp;
    if negb (type =? TY_AAAA) && ((type <=? 0) || (16 <? type) || (xclass <=? 0) || (4 <? xclass))
    then Some (set_nodes st t, None)
    else
      t ← rr_data msg mp type (fun t data => put_rr store t nid type ttl xclass data) t;
      Some (DnsSt t (if type =? TY_SOA then take 127 name else d_LastSOAdom st)
                  (RES_CACHED_UNKNOWN st),
            Some (mp + rdlength)).

Definition dumpQuestion (msg : list Z) (size question : Z) (st : dns_st)
  : option (dns_st * option Z) :=
  if size <=? question then Some (st, None)
  else
    '(name, _, _, qp) ← scanQuery msg question 512;
    let '(t, _) := DNS_putbyname (d_nodes st) (cstr name) in
    let '(t, _) := DNS_putbyname t (cstr name) in
    Some (set_nodes st t, Some qp).

(** A section of [cnt] records; [false] is the return at an overrun. *)
Fixpoint dump_loop (dump1 : Z -> dns_st -> option (dns_st * option Z)) (cnt : nat) (size : Z)
  (mp : option Z) (st : dns_st) : option (dns_st * option Z * bool) :=
  match cnt, mp with
  | S cnt', Some p =>
      if size - 1 <=? p then Some (st, mp, false)
      else '(st, mp) ← dump1 p st; dump_loop dump1 cnt' size mp st
  | _, _ => Some (st, mp, true)
  end.
(** [dumpResponse] without the check for vulnerabilities disabled. *)
Definition dumpResponse (resp : list Z) (rc : Z) (store : bool) (st : dns_st)
  : option (dns_st * Header * Z) :=
  '(hp, mp) ← scanHeader resp 0;
  let cnt := ancount hp + nscount hp + arcount hp in
  let rr p st := dumpResourceRecord resp rc p store st in
  '(st, mp, go) ← dump_loop (fun p st =>
       _ ← scanName MAXPTR resp p 1024; dumpQuestion resp rc p st)
     (Z.to_nat (qdcount hp)) rc (Some mp) st;
  if negb go then Some (st, hp, cnt) else
  '(st, mp, go) ← dump_loop rr (Z.to_nat (ancount hp)) rc mp st;
  if negb go then Some (st, hp, cnt) else
  '(st, mp, go) ← dump_loop rr (Z.to_nat (nscount hp)) rc mp st;
  if negb go then Some (st, hp, cnt) else
  '(st, _, _) ← dump_loop rr (Z.to_nat (arcount hp)) rc mp st;
  Some (st, hp, cnt).

(** ** Addresses and names *)

(** The records of a host's addresses, copied straight into [RRbuf]. *)
Definition addr_rrs (name : list Z) (type : Z) (ht : hostent) : rrs :=
  Rrs (zlen (h_addr_list ht))
    (concat (map (fun baddr => putRR name type (DNS_MINTTL env) (take (Z.to_nat (h_length ht)) baddr))
       (h_addr_list ht))) true.
Definition putRR_A (name : list Z) (st : dns_st) : rrs * dns_st :=
  let '(ht, st) := gethostbyNX env name (Some (cs "4")) st in
  match ht with
  | None => (none_rr, st)
  | Some ht => if h_addrtype ht =? AF_INET6 env then (none_rr, st)
               else (addr_rrs name TY_A ht, st)
  end.
Definition putRR_AAAA (name : list Z) (st : dns_st) : rrs * dns_st :=
  let xname := clip 512 (cs "-AAAA." ++ name) in
  let '(ht, st) := gethostbyNX env xname (Some (cs "6")) st in
  match ht with
  | None => (none_rr, st)
  | Some ht => (addr_rrs name TY_AAAA ht, st)
  end.

(** The exchangers of the addresses of [ht], each with preference 0. *)
Fixpoint mx_loop (name : list Z) (addrs : list (list Z)) (btype : Z) (st : dns_st)
  : rrs * dns_st :=
  match addrs with
  | [] => (none_rr, st)
  | baddr :: addrs' =>
      let '(ht1, st) := GETHOSTBYADDR env baddr btype st in
      let '(r, st) := mx_loop name addrs' btype st in
      match ht1 with
      | None => (r, st)
      | Some ht1 =>
          (app_rrs (rbuff_rr name TY_MX (DNS_MINTTL env) (putShort 0 ++ putName (h_name ht1))) r, st)
      end
  end.
Definition putRR_name (ht : hostent) (type : Z) (name : list Z) (st : dns_st) : rrs * dns_st :=
  if type =? TY_MX
  then mx_loop name (map (take (Z.to_nat (h_length ht))) (take 16 (h_addr_list ht)))
         (h_addrtype ht) st
  else (rbuff_rr name type (DNS_MINTTL env) (putName (h_name ht)), st).

(** A record of the tree: [None] outside when its data are too short or a
    number is outside of the table. *)
Definition nodename_of (t : list Node) (ival : Z) : option (list Z) :=
  if ival <? 0 then None else DNS_nodename t (Z.to_nat ival).
Definition relay_rr (t : list Node) (name : list Z) (qtype : Z) (a1 : list Z) : option rrs :=
  ty ← uc a1 0;
  if negb (schar ty =? qtype) then Some none_rr
  else
    '(ival, ap) ← getLong a1 2;
    if schar ty =? TY_SOA
    then
      mname ← nodename_of t ival;
      '(ival, ap) ← getLong a1 ap;
      rname ← nodename_of t ival;
      '(v1, ap) ← getLong a1 ap; '(v2, ap) ← getLong a1 ap; '(v3, ap) ← getLong a1 ap;
      '(v4, ap) ← getLong a1 ap; '(v5, ap) ← getLong a1 ap;
      Some (rbuff_rr name TY_SOA (DNS_MINTTL env)
        (putName mname ++ putName rname ++ putLongVStr v1 ++ putLongVStr v2 ++ putLongVStr v3 ++
         putLongVStr v4 ++ putLongVStr v5))
    else
      '(pri, _) ← getShort a1 ap;
      dname ← nodename_of t ival;
      Some (rbuff_rr name (schar ty) (DNS_MINTTL env) (putShort pri ++ putName dname)).
Fixpoint relay_loop (t : list Node) (name : list Z) (qtype : Z) (av : list (list Z)) : option rrs :=
  match av with
  | [] => Some none_rr
  | a1 :: av' =>
      r1 ← relay_rr t name qtype a1;
      r2 ← relay_loop t name qtype av';
      Some (app_rrs r1 r2)
  end.
Definition relay_cachedRR (name : list Z) (qtype : Z) (st : dns_st) : option (rrs * dns_st) :=
  let nid := DNS_getbyname (d_nodes st) name in
  if Nat.eqb nid 0 then Some (none_rr, st)
  else
    let '(t, av) := DNS_getattr (d_nodes st) nid (typemask qtype) 0 8 (dns_now env) in
    r ← relay_loop t name qtype av;
    Some (r, set_nodes st t).

(** The domain behind the leading labels that begin with an underscore. *)
Fixpoint skip_services (fuel : nat) (hp : list Z) : list Z :=
  match fuel with
  | O => hp
  | S fuel' => if cat hp 0 =? 95
               then match index_of 46 hp with
                    | Some i => skip_services fuel' (drop (S i) hp)
                    | None => hp
                    end
               else hp
  end.
Definition relay_cachedRRs (name : list Z) (qtype : Z) (st : dns_st) : option (rrs * dns_st) :=
  '(r, st) ← relay_cachedRR name qtype st;
  if negb (r_anc r =? 0) then Some (r, st)
  else
    '(r, st) ← (if cat name 0 =? 95
                then relay_cachedRR (skip_services (length name) name) qtype st
                else Some (r, st));
    if negb (r_anc r =? 0) then Some (r, st)
    else if bool_decide (d_LastSOAdom st <> []) && tail_of name (d_LastSOAdom st)
    then relay_cachedRR (d_LastSOAdom st) qtype st
    else Some (r, st).

Definition own_SOA : rrs :=
  let rdata := putName (DNS_ORIGIN env) ++ putName (DNS_ADMIN env) ++
    putLong (DNS_SERIAL env) ++ putLong (DNS_REFRESH env) ++ putLong (DNS_RETRY env) ++
    putLong (DNS_EXPIRE env) ++ putLong (DNS_MINTTL env) in
  Rrs 1 (putName (DNS_DOMAIN env) ++ putShort TY_SOA ++ putShort CL_IN ++ putLong 0 ++
         putShort (zlen rdata) ++ rdata) (zlen rdata <=? rbuff_size).
Definition putRR_SOA (name : list Z) (st : dns_st) : option (rrs * dns_st) :=
  let own st :=
    let '(ht, st) := gethostbyNX env name (Some (cs "4")) st in
    Some (match ht with None => none_rr | Some _ => own_SOA end, st) in
  if negb (tail_of name (DNS_DOMAIN env))
  then
    if negb (RES_proxy env) then Some (none_rr, st)
    else
      let st := getRRbynameaddr env name TY_SOA st in
      '(r, st) ← relay_cachedRRs name TY_SOA st;
      if 0 <? r_anc r then Some (r, st) else own st
  else own st.

Definition putRR_SRV (name : list Z) (st : dns_st) : option (rrs * dns_st) :=
  if tail_of name (DNS_DOMAIN env) then Some (none_rr, st)
  else if negb (RES_proxy env) then Some (none_rr, st)
  else relay_cachedRRs name TY_SRV (getRRbynameaddr env name TY_SRV st).

Definition putRR_MX (name : list Z) (st : dns_st) : option (rrs * dns_st) :=
  let '(ht, st) := gethostbyNX env (clip 512 (cs "-MX." ++ name)) None st in
  '(r, st) ← (match ht with
              | Some _ => relay_cachedRR name TY_MX st
              | None => Some (none_rr, st)
              end);
  if negb (r_anc r =? 0) then Some (r, st)
  else
    let '(ht, st) :=
      match ht with
      | Some _ => (ht, st)
      | None =>
          let '(ht, st) := match DNS_MX env with
                           | Some mx => gethostbyNX env mx None st
                           | None => (None, st)
                           end in
          match ht with Some _ => (ht, st) | None => gethostbyNX env name None st end
      end in
    match ht with
    | None => Some (none_rr, st)
    | Some ht => Some (putRR_name ht TY_MX name st)
    end.

Definition putRR_PTR (name : list Z) (st : dns_st) : rrs * dns_st :=
  if negb (strcasestr name REVERSE_DOM) && negb (strcasestr name (cs ".IP6.INT"))
  then (none_rr, st)
  else match VSA_dnstosa env name with
       | None => (none_rr, st)
       | Some (baddr, btype) =>
           let '(ht, st) := GETHOSTBYADDR env baddr btype st in
           match ht with
           | None => (none_rr, st)
           | Some ht => putRR_name ht TY_PTR name st
           end
       end.

(** ** The answer to a query *)

Definition add_rrs (f : dns_st -> option (rrs * dns_st)) (acc : option (rrs * dns_st))
  : option (rrs * dns_st) :=
  '(r, st) ← acc; '(r', st) ← f st; Some (app_rrs r r', st).
Definition total (f : dns_st -> rrs * dns_st) (st : dns_st) : option (rrs * dns_st) := Some (f st).

Definition answers (qtype : Z) (name : list Z) (st : dns_st) : option (rrs * dns_st) :=
  let start := Some (none_rr, st) in
  if qtype =? TY_SRV then add_rrs (putRR_SRV name) start
  else if qtype =? TY_A then add_rrs (total (putRR_A name)) start
  else if qtype =? TY_AAAA then add_rrs (total (putRR_AAAA name)) start
  else if qtype =? TY_PTR then add_rrs (total (putRR_PTR name)) start
  else if (qtype =? TY_MX) || (qtype =? TY_QMAILA) then add_rrs (putRR_MX name) start
  else if qtype =? TY_QALL
  then add_rrs (total (putRR_PTR name)) (add_rrs (putRR_SOA name) (add_rrs (putRR_MX name)
         (add_rrs (total (putRR_AAAA name)) (add_rrs (total (putRR_A name)) start))))
  else start.

Definition authority (qtype : Z) (name : list Z) (anc : Z) (st : dns_st) : option (rrs * dns_st) :=
  if (RES_CACHED_UNKNOWN st =? 0) && ((anc =? 0) || (qtype =? TY_SOA) || (qtype =? TY_SRV))
  then putRR_SOA name st else Some (none_rr, st).
(** Whether the name is unknown, and the records that are written into
    [RRbuf] behind the answer to find it out. *)
Definition name_unknown (qtype : Z) (name : list Z) (anc nauth : Z) (st : dns_st)
  : bool * rrs * dns_st :=
  if (qtype =? TY_SOA) || (qtype =? TY_SRV) then ((anc =? 0) && (nauth =? 0), none_rr, st)
  else if negb (anc =? 0) then (false, none_rr, st)
  else
    let '(a, st) := putRR_A name st in
    if negb (r_anc a =? 0) then (false, a, st)
    else let '(p, st) := putRR_PTR name st in (r_anc p =? 0, app_rrs a p, st).

(** What is found for a query: the answers, the authorities, the records
    that were tried, and whether the name is unknown. *)
Record found := Found { f_ans : rrs; f_auth : rrs; f_tried : rrs; f_unknown : bool }.
Definition find_answers (qtype : Z) (name : list Z) (st : dns_st) : option (found * dns_st) :=
  '(ans, st) ← answers qtype name st;
  '(auth, st) ← authority qtype name (r_anc ans) st;
  let '(unknown, tried, st) := name_unknown qtype name (r_anc ans) (r_anc auth) st in
  Some (Found ans auth tried unknown, st).
Definition unsupported (Head : Header) : bool := 2 <=? H_OPCODE (H_M Head).
Definition find_for (Head : Header) (qtype : Z) (name : list Z) (st : dns_st)
  : option (found * dns_st) :=
  let st := DnsSt (d_nodes st) (d_LastSOAdom st) 0 in
  if unsupported Head then Some (Found none_rr none_rr none_rr true, st)
  else find_answers qtype name st.

(** The flags of the reply. *)
Definition reply_flags (QM anc : Z) (unknown isauth unsupported : bool) : Z :=
  let RM := SET_QR 0 1 in
  let RM := SET_OPCODE RM (H_OPCODE QM) in
  let RM := SET_AA RM (if negb unknown || isauth then 1 else 0) in
  let RM := SET_RD RM (if RES_proxy env then H_RD QM else 0) in
  let RM := SET_RA RM 0 in
  if negb (anc =? 0) then RM
  else
    let RM := if unknown
              then if isauth then SET_RCODE RM 3
                   else if RES_proxy env then SET_RCODE RM 3 else SET_RCODE RM 5
              else RM in
    if unsupported then SET_RCODE RM 4 else RM.

(** [dns_search] up to the reply, into a buffer of [size] bytes; [None]
    inside is the return of -1. *)
Definition dns_reply (size : Z) (query : list Z) (st : dns_st)
  : option (dns_st * Z * option (list Z)) :=
  '(Head, qp) ← scanHeader query 0;
  '(name, qtype, qclass, _) ← scanQuery query qp 512;
  let name := cstr name in
  if negb (H_QR (H_M Head) =? 0) then Some (st, H_id Head, None)
  else
    '(f, st) ← find_for Head qtype name st;
    let rr := app_rrs (f_ans f) (f_auth f) in
    let anc := r_anc (f_ans f) in
    let nauth := r_anc (f_auth f) in
    if negb (fits_RRbuf (app_rrs rr (f_tried f))) then None
    else
      let isauth := negb (unsupported Head) && tail_of name (DNS_DOMAIN env) in
      let RM := reply_flags (H_M Head) anc (f_unknown f) isauth (unsupported Head) in
      let head := putShort (H_id Head) ++ putShort RM ++ putShort 1 ++ putShort anc ++
                  putShort nauth ++ putShort 0 in
      let question := match makeQuestion name qtype qclass with
                      | Some q => Some q
                      | None => makeQuestion (cs "-") qtype qclass
                      end in
      match question with
      | None => Some (st, H_id Head, None)
      | Some q =>
          let reply := head ++ q ++
            (if negb (anc =? 0) || negb (nauth =? 0) then r_bytes rr else []) in
          if size <? zlen reply then None else Some (st, H_id Head, Some reply)
      end.
(** The reply is dumped without being stored; over TCP its length comes
    first, and the query has its length in front.  [ob] is the buffer for the
    reply, as it was. *)
Definition dns_search (ob : list Z) (cltcp : bool) (query : list Z) (st : dns_st)
  : option (dns_st * option (list Z)) :=
  '(st, _, reply) ← dns_reply (zlen ob) (if cltcp then drop 2 query else query) st;
  match reply with
  | None => Some (st, None)
  | Some reply =>
      let rleng := zlen reply in
      '(st, _, _) ← dumpResponse (reply ++ drop (length reply) ob) rleng false st;
      if cltcp
      then if zlen ob <? rleng + 2 then None
           else Some (st, Some (uchar (Z.shiftr rleng 8) :: uchar rleng :: reply))
      else Some (st, Some reply)
  end.
End serv.
