(* ===== verification/DnsSpec.v ===== *)
(** * The DNS server: what it promises

    The records of the tree stay well formed whatever responses come in, so
    that answers can be made from them ([DnsReply], [DnsRelay]), and how far
    behind a message its reader looks. *)
From S2P Require Import Prelude Strings DnsNode DnsMsg DnsName DnsServ.
From stdpp Require Import options.

(** ** The invariant *)

(** What is relayed of a record's data: the numbers of known names. *)
Definition rec_wf (n : nat) (data : list Z) : Prop :=
  match data with
  | ty :: _ :: body =>
      schar ty <> TY_SRV /\
      (schar ty = TY_MX -> exists nid pref, (nid < n)%nat /\ length pref = 2%nat /\
         body = putLongVStr (Z.of_nat nid) ++ pref) /\
      (schar ty = TY_SOA -> exists m r rest, (m < n)%nat /\ (r < n)%nat /\ length rest = 20%nat /\
         body = putLongVStr (Z.of_nat m) ++ putLongVStr (Z.of_nat r) ++ rest)
  | _ => False
  end.
Record tree_ok (t : list Node) : Prop := {
  ok_tree : tree_wf t;
  ok_records i a : In a (n_attr (getnode t i)) -> rec_wf (length t) (a_data a)
}.

Lemma rec_wf_mono n n' data : (n <= n')%nat -> rec_wf n data -> rec_wf n' data.
Proof.
  intros Hn. destruct data as [|ty [|cl body]]; try done. intros (H1 & H2 & H3).
  split_and!; [done| |].
  - intros E. destruct (H2 E) as (nid & pref & ? & ? & ?). exists nid, pref. split_and!; [lia|done..].
  - intros E. destruct (H3 E) as (m & r & rest & ? & ? & ? & ?). exists m, r, rest.
    split_and!; [lia|lia|done..].
Qed.

Lemma Nodes0_ok : tree_ok Nodes0.
Proof. split; [apply Nodes0_wf|]. by intros [|[|[|i]]] a H. Qed.

(** ** Changes of the tree *)

Lemma nsearch_attr create labels : forall t Np, tree_wf t -> (1 <= Np < length t)%nat ->
  Forall nolabel labels -> forall i,
  n_attr (getnode (nsearch_loop create t Np labels).1 i) = n_attr (getnode t i).
Proof.
  induction labels as [|label labels IH]; intros t Np Hwf HNp Hl i; [done|]. cbn [nsearch_loop].
  apply Forall_cons in Hl as [Hlab Hl].
  pose proof (find_child_spec t (n_child (getnode t Np)) label) as Hs.
  destruct (find_child t _ label) as [c|].
  - apply IH; [done| |done]. destruct Hs as [Hc _]. apply (wf_child t Hwf) in Hc as [_ Hc].
    apply parent_inv in Hc; [lia|done].
  - destruct create; [|done].
    pose proof (newnode_wf t Np label Hwf HNp Hlab Hs) as Hwf'.
    pose proof (getnode_newnode t Np label i Hwf ltac:(lia)) as Hg.
    assert (Hlen : length (newnode t Np label).1 = S (length t)).
    { unfold newnode. cbn [fst]. rewrite length_app, length_insert. simpl. lia. }
    change (newnode t Np label) with ((newnode t Np label).1, length t). cbn [fst snd] in *.
    rewrite IH, Hg; [|done|lia|done]. destruct (decide (i = length t)) as [->|].
    + by rewrite (getnode_none t) by done.
    + by destruct (decide (i = Np)) as [->|].
Qed.

Lemma putbyname_attr t name i : tree_wf t ->
  n_attr (getnode (DNS_putbyname t name).1 i) = n_attr (getnode t i).
Proof.
  intros Hwf. unfold DNS_putbyname. rewrite nsearch_labels. cbv zeta. cbn [fst].
  rewrite getnode_insert.
  assert (Hl : Forall nolabel (rev (labels name))) by apply labels_nolabel.
  pose proof (wf_len t Hwf) as H2.
  pose proof (nsearch_attr true (rev (labels name)) t TopNode Hwf
    ltac:(unfold TopNode; lia) Hl) as H.
  destruct (decide _) as [[<- _]|]; [|apply H]. rewrite <- H. done.
Qed.

(** No record is added or lost. *)
Definition same_attrs (t t' : list Node) : Prop :=
  forall i, n_attr (getnode t' i) = n_attr (getnode t i).
Lemma same_attrs_trans t1 t2 t3 : same_attrs t1 t2 -> same_attrs t2 t3 -> same_attrs t1 t3.
Proof. intros H1 H2 i. by rewrite H2, H1. Qed.

Lemma putbyname_ok t name : tree_ok t ->
  let r := DNS_putbyname t name in
  tree_ok r.1 /\ (length t <= length r.1)%nat /\ (1 <= r.2 < length r.1)%nat /\
  same_attrs t r.1.
Proof.
  intros [Hwf Hrec]. destruct (putbyname_path t name Hwf) as (Hwf' & [Hlen _] & Hp).
  cbv zeta. split_and!; [|done| | |intros i; by apply putbyname_attr];
    [|apply path_range in Hp; [lia|done]..].
  split; [done|]. intros i a Ha. rewrite putbyname_attr in Ha by done.
  eapply rec_wf_mono; [exact Hlen|by eapply Hrec].
Qed.

Lemma putattr_ok t nid flag ttl data now : tree_ok t -> rec_wf (length t) data ->
  let r := DNS_putattr t nid flag ttl data now in
  tree_ok r.1 /\ length r.1 = length t.
Proof.
  intros [Hwf Hrec] Hdata. unfold DNS_putattr. cbv zeta.
  destruct (existsb _ _); [done|]. cbn [fst]. rewrite length_insert. split; [|done].
  split; [by apply put_attrs_wf|]. rewrite length_insert. intros i a. rewrite getnode_insert.
  destruct (decide _) as [[<- _]|]; [|apply Hrec]. cbn [put_attrs n_attr].
  intros [<-|Ha]; [done|by eapply Hrec].
Qed.

Lemma getattr_ok t nid flag ttl ac now : tree_ok t ->
  let r := DNS_getattr t nid flag ttl ac now in
  tree_ok r.1 /\ length r.1 = length t /\ Forall (rec_wf (length t)) r.2.
Proof.
  intros Hok. unfold DNS_getattr. cbv zeta. cbn [fst snd].
  assert (He : tree_ok (expireattr t nid flag ttl now) /\
    length (expireattr t nid flag ttl now) = length t).
  { unfold expireattr. destruct (_ <=? _); [done|]. destruct (existsb _ _); [|done].
    destruct Hok as [Hwf Hrec]. rewrite length_insert. split; [|done].
    split; [by apply put_attrs_wf|]. rewrite length_insert. intros i a. rewrite getnode_insert.
    destruct (decide _) as [[<- _]|]; [|apply Hrec]. cbn [put_attrs n_attr].
    intros (b & <- & Hb)%in_map_iff. destruct (has_flag flag b); by eapply (Hrec nid b). }
  destruct He as [Hok' Hlen]. split_and!; [done|done|]. apply Forall_take, Forall_map.
  apply List.Forall_forall. intros a Ha%filter_In. destruct Ha as [Ha _]. rewrite <- Hlen.
  by eapply (ok_records _ Hok').
Qed.

(** ** Records in *)

Lemma schar_uchar type : 0 <= type < 128 -> schar (uchar type) = type.
Proof.
  intros H. unfold schar, uchar. rewrite Z.mod_small by lia. by rewrite (proj2 (Z.ltb_lt _ _)) by lia.
Qed.


Lemma put_rr_ok env store t nid type ttl xclass data :
  tree_ok t -> rec_wf (length t) (uchar type :: uchar xclass :: data) ->
  tree_ok (put_rr env store t nid type ttl xclass data) /\
  length (put_rr env store t nid type ttl xclass data) = length t.
Proof. intros Ht Hd. unfold put_rr. destruct store; [|done]. by apply putattr_ok. Qed.

(** Data of a type that is not relayed. *)
Lemma rec_wf_other n type xclass data : 0 <= type < 128 ->
  type <> TY_SRV -> type <> TY_MX -> type <> TY_SOA -> rec_wf n (uchar type :: uchar xclass :: data).
Proof. intros Hr H1 H2 H3. cbn [rec_wf]. by rewrite schar_uchar. Qed.

Lemma putbyaddr_ok env t addr : tree_ok t ->
  tree_ok (DNS_putbyaddr env t addr).1 /\ (length t <= length (DNS_putbyaddr env t addr).1)%nat /\
  same_attrs t (DNS_putbyaddr env t addr).1.
Proof. intros Ht. unfold DNS_putbyaddr. by edestruct putbyname_ok as (? & ? & _ & ?). Qed.

(** ** Reading a message of any bytes *)

(** The code may look 1570 bytes behind a message: the names of a record's
    owner and of the two in an SOA run over the end by their buffers of 512
    and a pointer each, and the fixed fields follow. *)
Section reading.
Context (m : list Z) (size : Z) (Hbytes : bytes_ok m).
Hypothesis (Hsize : 0 <= size) (Hroom : size + 1570 <= zlen m).

Lemma getShort_safe p : 0 <= p -> p + 2 <= zlen m ->
  exists v, getShort m p = Some (v, p + 2) /\ 0 <= v.
Proof using Hbytes.
  clear Hroom Hsize. intros H0 Hp.
  destruct (uc_in m Hbytes p ltac:(lia)) as (a & Ha & Hra).
  destruct (uc_in m Hbytes (p + 1) ltac:(lia)) as (b & Hb & Hrb).
  rewrite (getShort_at _ _ _ _ Ha Hb). eexists. split; [done|].
  apply Z.lor_nonneg. split; [apply Z.shiftl_nonneg|]; lia.
Qed.
Lemma getLong_safe p : 0 <= p -> p + 4 <= zlen m -> exists v, getLong m p = Some (v, p + 4).
Proof using Hbytes.
  clear Hroom Hsize. intros H0 Hp. unfold getLong.
  destruct (uc_in m Hbytes p ltac:(lia)) as (a & -> & _).
  destruct (uc_in m Hbytes (p + 1) ltac:(lia)) as (b & -> & _).
  destruct (uc_in m Hbytes (p + 2) ltac:(lia)) as (c & -> & _).
  destruct (uc_in m Hbytes (p + 3) ltac:(lia)) as (d & -> & _). by eexists.
Qed.
Lemma getBytes_safe p len : 0 <= p -> 0 <= len -> p + len <= zlen m ->
  exists l, getBytes m p len = Some l /\ zlen l = len.
Proof using.
  clear Hroom Hsize Hbytes. intros H0 Hlen Hp. destruct (getBytes m p len) as [l|] eqn:E.
  - exists l. split; [done|]. by apply getBytes_length in E.
  - unfold getBytes in E. destruct (_ || _) eqn:E'; [|done]. zprop; lia.
Qed.
Lemma scanName_safe p siz : 0 <= p -> 1 <= siz -> p + siz + 2 <= zlen m ->
  exists name e, scanName MAXPTR m p siz = Some (name, e) /\ p <= e <= p + siz + 2.
Proof using Hbytes.
  clear Hroom Hsize. intros Hp Hs Hl. destruct (scanName_bounded m Hbytes MAXPTR p siz Hp Hs Hl)
    as (name & e & -> & _ & He). by eauto.
Qed.

Variable env : dns_env.

(** Data kept by [put], which does not touch the names. *)
Section data.
Variable put : list Node -> list Z -> list Node.
Variable type xclass : Z.
Variable store : bool.
Hypothesis (Htype : 0 <= type < 128).
Hypothesis (Hput : forall t data, tree_ok t -> rec_wf (length t) (uchar type :: uchar xclass :: data) ->
  tree_ok (put t data) /\ length (put t data) = length t).
Hypothesis (Hquiet : forall t data, store = false -> put t data = t).

Definition grown (t : list Node) (r : option (list Node)) : Prop :=
  exists t', r = Some t' /\ tree_ok t' /\ (length t <= length t')%nat /\
    (store = false -> same_attrs t t').

Lemma put_grown t t1 data : tree_ok t1 -> (length t <= length t1)%nat -> same_attrs t t1 ->
  rec_wf (length t1) (uchar type :: uchar xclass :: data) -> grown t (Some (put t1 data)).
Proof using Hput Hquiet.
  clear Hroom Hsize Hbytes. intros H1 Hl Hs Hd. destruct (Hput t1 data H1 Hd) as (H2 & E).
  exists (put t1 data). split_and!; [done|done|lia|]. intros Hst. by rewrite Hquiet.
Qed.

Lemma rr_addr_ok p t : tree_ok t -> 0 <= p <= size + 522 -> type = TY_AAAA \/ type = TY_A ->
  grown t (rr_addr env m p type put t).
Proof using Hsize Hroom Htype Hput Hquiet.
  intros Ht Hp Hk. unfold rr_addr. destruct (Z.eqb_spec type TY_AAAA) as [E|E].
  - destruct (getBytes_safe p 16) as (a & -> & Ha); [lia..|]. cbn [mbind option_bind].
    pose proof (putbyaddr_ok env t (VSA_ltoa6 env a) Ht) as (Ht2 & Hl2 & Hs2).
    destruct (DNS_putbyaddr env t (VSA_ltoa6 env a)) as [t2 an]. cbn [fst] in *.
    apply put_grown; [done..|]. by apply rec_wf_other; rewrite ?E.
  - destruct Hk as [|E2]; [done|].
    destruct (getBytes_safe p 4) as (a & -> & Ha); [lia..|]. cbn [mbind option_bind].
    set (addr := fmt_4d _ _ _ _). pose proof (putbyaddr_ok env t addr Ht) as (Ht2 & Hl2 & Hs2).
    destruct (DNS_putbyaddr env t addr) as [t2 an]. cbn [fst] in *.
    apply put_grown; [done..|]. by apply rec_wf_other; rewrite ?E2.
Qed.

Lemma rr_name_ok p t : tree_ok t -> 0 <= p <= size + 522 ->
  type <> TY_SOA -> type <> TY_SRV -> grown t (rr_name m p type put t).
Proof using Hbytes Hsize Hroom Htype Hput Hquiet.
  intros Ht Hp Ns Nv. unfold rr_name.
  destruct (scanName_safe (if type =? TY_MX then p + 2 else p) 512) as (rname & e2 & -> & _);
    [destruct (type =? TY_MX); lia|lia|destruct (type =? TY_MX); lia|]. cbn [mbind option_bind].
  case_bool_decide; [by exists t|].
  pose proof (putbyname_ok t (cstr rname) Ht) as (Ht2 & Hl2 & Hn2 & Hs2).
  destruct (DNS_putbyname t (cstr rname)) as [t2 rnid]. cbn [fst snd] in *.
  assert (Hpref : exists pref, (if type =? TY_MX then getBytes m p 2 else Some []) = Some pref /\
    (type = TY_MX -> length pref = 2%nat)).
  { destruct (Z.eqb_spec type TY_MX) as [->|]; [|by exists []].
    destruct (getBytes_safe p 2) as (a & -> & Ha); [lia..|]. exists a. unfold zlen in Ha.
    split; [done|lia]. }
  destruct Hpref as (pref & -> & Hpref). cbn [mbind option_bind].
  apply put_grown; [done..|]. cbn [rec_wf]. rewrite schar_uchar by lia.
  split_and!; [done| |done]. intros E. exists rnid, pref. split_and!; [lia|by apply Hpref|done].
Qed.

Lemma rr_soa_ok p t : tree_ok t -> 0 <= p <= size + 522 -> type = TY_SOA ->
  grown t (rr_soa m p put t).
Proof using Hbytes Hsize Hroom Htype Hput Hquiet.
  intros Ht Hp E. unfold rr_soa.
  destruct (scanName_safe p 512) as (mname & e2 & -> & He2); [lia..|]. cbn [mbind option_bind].
  destruct (scanName_safe e2 512) as (rname & e3 & -> & He3); [lia..|]. cbn [mbind option_bind].
  destruct (getLong_safe e3) as (v1 & ->); [lia..|]. cbn [mbind option_bind].
  destruct (getLong_safe (e3 + 4)) as (v2 & ->); [lia..|]. cbn [mbind option_bind].
  destruct (getLong_safe (e3 + 4 + 4)) as (v3 & ->); [lia..|]. cbn [mbind option_bind].
  destruct (getLong_safe (e3 + 4 + 4 + 4)) as (v4 & ->); [lia..|]. cbn [mbind option_bind].
  destruct (getLong_safe (e3 + 4 + 4 + 4 + 4)) as (v5 & ->); [lia..|]. cbn [mbind option_bind].
  pose proof (putbyname_ok t (cstr mname) Ht) as (Ht2 & Hl2 & Hn2 & Hs2).
  destruct (DNS_putbyname t (cstr mname)) as [t2 mnid]. cbn [fst snd] in *.
  pose proof (putbyname_ok t2 (cstr rname) Ht2) as (Ht3 & Hl3 & Hn3 & Hs3).
  destruct (DNS_putbyname t2 (cstr rname)) as [t3 rnid]. cbn [fst snd] in *.
  apply put_grown; [done|lia|by eapply same_attrs_trans|]. cbn [rec_wf]. rewrite schar_uchar by done. rewrite E.
  split_and!; [done|done|]. intros _. eexists mnid, rnid, _. split_and!; [lia|lia| |reflexivity].
  done.
Qed.

Lemma rr_data_ok p t : tree_ok t -> 0 <= p <= size + 522 -> type <> TY_SRV ->
  grown t (rr_data env m p type put t).
Proof using Hbytes Hsize Hroom Htype Hput Hquiet.
  intros Ht Hp Nv. unfold rr_data.
  destruct ((type =? TY_AAAA) || _) eqn:E1.
  { apply rr_addr_ok; [done|done|].
    apply orb_true_iff in E1 as [?%Z.eqb_eq|?%Z.eqb_eq]; [by left|by right]. }
  destruct ((type =? TY_MX) || _ || _ || _) eqn:E2.
  { apply rr_name_ok; [done|done| |done]. unfold TY_SOA, TY_MX, TY_NS, TY_CNAME, TY_PTR in *.
    zprop; lia. }
  destruct (Z.eqb_spec type TY_SOA); [by apply rr_soa_ok|by exists t].
Qed.
End data.

(** What is made of a state when records are read from it. *)
Definition kept (store : bool) (st st' : dns_st) : Prop :=
  tree_ok (d_nodes st') /\ (length (d_nodes st) <= length (d_nodes st'))%nat /\
  (store = false -> same_attrs (d_nodes st) (d_nodes st')).
Definition next_ok (next : option Z) : Prop := forall p, next = Some p -> 0 <= p.

Lemma kept_refl store st : tree_ok (d_nodes st) -> kept store st st.
Proof using. by split. Qed.
Lemma kept_trans store s1 s2 s3 : kept store s1 s2 -> kept store s2 s3 -> kept store s1 s3.
Proof using.
  intros (_ & L1 & S1) (T2 & L2 & S2). split_and!; [done|by etransitivity|].
  intros E. eapply same_attrs_trans; [by apply S1|by apply S2].
Qed.

Lemma dumpResourceRecord_ok rr store st : tree_ok (d_nodes st) -> 0 <= rr < size - 1 ->
  exists st' next, dumpResourceRecord env m (size) rr store st = Some (st', next) /\
    kept store st st' /\ next_ok next.
Proof using Hbytes Hsize Hroom.
  intros Ht Hrr. unfold dumpResourceRecord. destruct (Z.leb_spec (size) rr) as [|Hlt].
  { exists st, None. split_and!; [done|by apply kept_refl|done]. }
  destruct (scanName_safe rr 512) as (name & e & -> & He); [lia..|]. cbn [mbind option_bind].
  pose proof (putbyname_ok (d_nodes st) (cstr name) Ht) as (Ht1 & Hl1 & Hn1 & Hs1).
  destruct (DNS_putbyname (d_nodes st) (cstr name)) as [t nid]. cbn [fst snd] in *.
  destruct (getShort_safe e) as (type & -> & Htype); [lia..|]. cbn [mbind option_bind].
  destruct (getShort_safe (e + 2)) as (xclass & -> & _); [lia..|]. cbn [mbind option_bind].
  destruct (getLong_safe (e + 2 + 2)) as (ttl & ->); [lia..|]. cbn [mbind option_bind].
  destruct (getShort_safe (e + 2 + 2 + 4)) as (rdl & -> & Hrdl); [lia..|]. cbn [mbind option_bind].
  destruct (negb (type =? TY_AAAA) && _) eqn:Hg; [by exists (set_nodes st t), None|].
  assert (Hrange : 0 <= type < 33) by (unfold TY_AAAA in *; zprop; lia).
  destruct (rr_data_ok (fun t data => put_rr env store t nid type ttl xclass data) type xclass store
    ltac:(lia) ltac:(intros; by apply put_rr_ok) ltac:(by intros ? ? ->) (e + 2 + 2 + 4 + 2) t Ht1)
    as (t' & -> & Ht' & Hl' & Hs'); [lia|unfold TY_SRV; lia|].
  cbn [mbind option_bind]. eexists _, _. split; [reflexivity|].
  split; [|intros q [= <-]; lia]. split_and!; cbn [d_nodes]; [done|lia|].
  intros Hst. eapply same_attrs_trans; [done|by apply Hs'].
Qed.

Lemma dumpQuestion_ok q store st : tree_ok (d_nodes st) -> 0 <= q ->
  exists st' next, dumpQuestion m (size) q st = Some (st', next) /\
    kept store st st' /\ next_ok next.
Proof using Hbytes Hsize Hroom.
  intros Ht Hq. unfold dumpQuestion, scanQuery. destruct (Z.leb_spec (size) q) as [|Hlt].
  { exists st, None. split_and!; [done|by apply kept_refl|done]. }
  destruct (scanName_safe q 512) as (name & e & -> & He); [lia..|]. cbn [mbind option_bind].
  destruct (getShort_safe e) as (type & -> & Htype); [lia..|]. cbn [mbind option_bind].
  destruct (getShort_safe (e + 2)) as (xclass & -> & _); [lia..|]. cbn [mbind option_bind].
  pose proof (putbyname_ok (d_nodes st) (cstr name) Ht) as (Ht1 & Hl1 & _ & Hs1).
  destruct (DNS_putbyname (d_nodes st) (cstr name)) as [t nid]. cbn [fst snd] in *.
  pose proof (putbyname_ok t (cstr name) Ht1) as (Ht2 & Hl2 & _ & Hs2).
  destruct (DNS_putbyname t (cstr name)) as [t2 nid2]. cbn [fst snd] in *.
  eexists _, _. split; [reflexivity|].
  split; [|intros p [= <-]; lia]. split_and!; cbn [d_nodes set_nodes]; [done|lia|]. intros _. by eapply same_attrs_trans.
Qed.

Lemma dump_loop_ok store dump1 cnt : forall next st,
  (forall p st, tree_ok (d_nodes st) -> 0 <= p < size - 1 -> exists st' next,
     dump1 p st = Some (st', next) /\ kept store st st' /\ next_ok next) ->
  tree_ok (d_nodes st) -> next_ok next ->
  exists st' next' go, dump_loop dump1 cnt (size) next st = Some (st', next', go) /\
    kept store st st' /\ next_ok next'.
Proof using.
  clear Hroom Hsize. induction cnt as [|cnt IH]; intros next st H1 Ht Hn.
  - exists st, next, true. split_and!; [done|by apply kept_refl|done].
  - destruct next as [p|];
      [|exists st, None, true; split_and!; [done|by apply kept_refl|done]].
    cbn [dump_loop]. specialize (Hn p eq_refl) as Hp. destruct (Z.leb_spec (size - 1) p).
    { exists st, (Some p), false. split_and!; [done|by apply kept_refl|done]. }
    destruct (H1 p st Ht ltac:(lia)) as (st1 & next1 & -> & Hk1 & Hn1). cbn [mbind option_bind].
    destruct (IH next1 st1 H1) as (st2 & next2 & go & E & Hk2 & Hn2); [apply Hk1|done|].
    exists st2, next2, go. split_and!; [done|by eapply kept_trans|done].
Qed.
End reading.

(** C17. Reading a response of any bytes is safe up to the buffer it is in:
    whatever lengths, counts and pointers the message holds and whatever bytes
    are behind it, [dumpResponse] ends, reads at most 1570 bytes behind the
    message, and leaves a well-formed tree in which every record can be
    relayed; without [store] no record of the tree is changed.  The end of
    the message is looked at only where a record begins, so a message needs
    that much room behind it in the buffer, as one of at most 478 bytes has
    in that of [recvResponse]: with less, the bytes behind the buffer can be
    read ([dumpResponse_reads_behind]). *)
Theorem dumpResponse_safe (env : dns_env) (resp behind : list Z) (store : bool) (st : dns_st) :
  bytes_ok resp -> bytes_ok behind -> 1570 <= zlen behind -> tree_ok (d_nodes st) ->
  exists st' hp cnt,
    dumpResponse env (resp ++ behind) (zlen resp) store st = Some (st', hp, cnt) /\
    tree_ok (d_nodes st') /\
    (length (d_nodes st) <= length (d_nodes st'))%nat /\
    (store = false -> forall i, n_attr (getnode (d_nodes st') i) = n_attr (getnode (d_nodes st) i)).
Proof.
  intros Hb1 Hb2 Hl Ht. set (m := resp ++ behind). set (size := zlen resp).
  assert (Hb : bytes_ok m) by (by apply Forall_app).
  assert (Hsize : 0 <= size) by apply zlen_nonneg.
  assert (Hroom : size + 1570 <= zlen m) by (subst m size; rewrite zlen_app; lia).
  unfold dumpResponse, scanHeader.
  assert (Hs : forall p, 0 <= p <= 10 -> exists v, getShort m p = Some (v, p + 2) /\ 0 <= v).
  { intros p Hp. apply getShort_safe; [done|lia|lia]. }
  destruct (Hs 0) as (id & -> & _); [lia|]. cbn [mbind option_bind].
  destruct (Hs (0 + 2)) as (M & -> & _); [lia|]. cbn [mbind option_bind].
  destruct (Hs (0 + 2 + 2)) as (qd & -> & _); [lia|]. cbn [mbind option_bind].
  destruct (Hs (0 + 2 + 2 + 2)) as (an & -> & _); [lia|]. cbn [mbind option_bind].
  destruct (Hs (0 + 2 + 2 + 2 + 2)) as (ns & -> & _); [lia|]. cbn [mbind option_bind].
  destruct (Hs (0 + 2 + 2 + 2 + 2 + 2)) as (ar & -> & _); [lia|]. cbn [mbind option_bind].
  cbn [qdcount ancount nscount arcount].
  assert (Hrr : forall p st, tree_ok (d_nodes st) -> 0 <= p < size - 1 -> exists st' next,
    dumpResourceRecord env m size p store st = Some (st', next) /\
    kept store st st' /\ next_ok next).
  { intros p s Hs' Hp. apply dumpResourceRecord_ok; [done..|lia]. }
  edestruct (dump_loop_ok size store (fun p st =>
       _ ← scanName MAXPTR m p 1024; dumpQuestion m size p st) (Z.to_nat qd) (Some (0 + 12)) st)
    as (st1 & n1 & go & -> & Hk1 & Hn1); [|done|intros p [= <-]; lia|].
  { intros p s Hs' Hp. destruct (scanName_safe m Hb p 1024) as (nm & e & -> & _);
      [lia|lia|lia|].
    cbn [mbind option_bind]. apply dumpQuestion_ok; [done..|lia]. }
  cbn [mbind option_bind]. destruct go; cbn [negb]; [|by eexists _, _, _].
  destruct (dump_loop_ok size store _ (Z.to_nat an) n1 st1 Hrr) as (st2 & n2 & go & -> & Hk2 & Hn2);
    [apply Hk1|done|]. pose proof (kept_trans _ _ _ _ Hk1 Hk2) as Hk2'.
  cbn [mbind option_bind]. destruct go; cbn [negb]; [|by eexists _, _, _].
  destruct (dump_loop_ok size store _ (Z.to_nat ns) n2 st2 Hrr) as (st3 & n3 & go & -> & Hk3 & Hn3);
    [apply Hk2|done|]. pose proof (kept_trans _ _ _ _ Hk2' Hk3) as Hk3'.
  cbn [mbind option_bind]. destruct go; cbn [negb]; [|by eexists _, _, _].
  destruct (dump_loop_ok size store _ (Z.to_nat ar) n3 st3 Hrr) as (st4 & n4 & go & -> & Hk4 & Hn4);
    [apply Hk3|done|]. pose proof (kept_trans _ _ _ _ Hk3' Hk4) as Hk4'.
  cbn [mbind option_bind]. by eexists _, _, _.
Qed.

(** A resolver that knows the addresses of one host. *)
Definition ex_host : hostent :=
  HostEnt (cs "www.example.jp") 2 4 [[192; 0; 2; 1]; [192; 0; 2; 2]].
Definition ex_env : dns_env :=
  DnsEnv (fun name _ st => (if bool_decide (name = cs "www.example.jp") then Some ex_host else None, st))
    (fun _ _ st => (None, st)) (fun _ _ st => st) true (fun _ => None) id id 10
    (cs "example.jp") (cs "ns.example.jp") (cs "root.example.jp") None 1 2 3 4 5 1000.
Definition ex_st : dns_st := DnsSt Nodes0 [] 0.

(** A header that promises records which are not there, and a name that
    points at itself, in a buffer with the rest of an earlier message. *)
Lemma dumpResponse_safe_witness :
  let resp := [0; 1; 128; 0; 0; 1; 255; 255; 0; 0; 0; 0; 1; 97; 192; 12; 0; 1; 0; 1; 192; 20; 0; 15] in
  exists st' hp cnt,
    dumpResponse ex_env (resp ++ replicate 1570 63) (zlen resp) true ex_st = Some (st', hp, cnt) /\
    tree_ok (d_nodes st').
Proof.
  intros resp.
  destruct (dumpResponse_safe ex_env resp (replicate 1570 63) true ex_st) as (st' & hp & cnt & E & Ht & _);
    [by apply (bool_decide_unpack _)|by apply Forall_replicate|vm_compute; congruence|apply Nodes0_ok|].
  by exists st', hp, cnt.
Defined.

(** The buffer of [recvResponse] has 2048 bytes: a message that fills it and
    whose last record begins a label is read behind the buffer. *)
Definition long_resp : list Z :=
  makeHeader 1 1 0 1 0 1 1 0 0 0 2 0 0 ++
  [0; 0; 1; 0; 1; 0; 0; 0; 0; 7; 228] ++ repeat 0 2020 ++ [63; 97; 97; 97; 97].
Lemma dumpResponse_reads_behind :
  zlen long_resp = 2048 /\ dumpResponse ex_env long_resp 2048 true ex_st = None.
Proof. vm_compute. done. Qed.
