(* ===== verification/DnsReply.v ===== *)
(** * The DNS server: replies

    What is sent for a query, under the interface to the resolver: its
    functions may change the tree but keep it well formed; and when what was
    found does not fit the arrays that it is put into. *)
From S2P Require Import Prelude Strings DnsNode DnsMsg DnsName DnsServ DnsSpec.
From stdpp Require Import options.

(** A state whose node numbers fit the records. *)
Definition st_ok (st : dns_st) : Prop :=
  tree_ok (d_nodes st) /\ Z.of_nat (length (d_nodes st)) < 2 ^ 31.

(** What the server asks of the resolver. *)
Record env_ok (env : dns_env) : Prop := {
  eo_host name fam st : st_ok st -> st_ok (gethostbyNX env name fam st).2;
  eo_addr addr type st : st_ok st -> st_ok (GETHOSTBYADDR env addr type st).2;
  eo_rr name type st : st_ok st -> st_ok (getRRbynameaddr env name type st)
}.

(** ** Records *)

Record rr := Rr { o_name : list Z; o_type : Z; o_ttl : Z; o_data : list Z }.
Definition enc (r : rr) : list Z := putRR (o_name r) (o_type r) (o_ttl r) (o_data r).
(** Addresses are copied; the data of other records are put together in
    [rbuff]. *)
Definition fits_rbuff (r : rr) : bool :=
  (o_type r =? TY_A) || (o_type r =? TY_AAAA) || (zlen (o_data r) <=? rbuff_size).
Definition bytes_of (l : list rr) : list Z := concat (map enc l).

(** [r] are the records [l]. *)
Record recs (r : rrs) (l : list rr) : Prop := {
  re_bytes : r_bytes r = bytes_of l;
  re_anc : r_anc r = zlen l;
  re_fit : r_fit r = forallb fits_rbuff l
}.
Definition some_recs (r : rrs) : Prop := exists l, recs r l.

Lemma recs_none : recs none_rr [].
Proof. by split. Qed.
Lemma recs_one name type ttl data : type <> TY_A -> type <> TY_AAAA ->
  recs (rbuff_rr name type ttl data) [Rr name type ttl data].
Proof.
  intros H1 H2. split; [by cbn; rewrite app_nil_r|done|].
  cbn [r_fit rbuff_rr forallb]. unfold fits_rbuff. cbn [o_type o_data].
  by rewrite !(proj2 (Z.eqb_neq type _)), andb_true_r.
Qed.
Lemma recs_app r1 r2 l1 l2 : recs r1 l1 -> recs r2 l2 -> recs (app_rrs r1 r2) (l1 ++ l2).
Proof.
  intros [B1 N1 F1] [B2 N2 F2]. split; cbn [app_rrs r_bytes r_anc r_fit].
  - unfold bytes_of. by rewrite map_app, concat_app, B1, B2.
  - by rewrite zlen_app, N1, N2.
  - by rewrite forallb_app, F1, F2.
Qed.
Lemma some_none : some_recs none_rr.
Proof. eexists. apply recs_none. Qed.
Lemma some_one name type ttl data : type <> TY_A -> type <> TY_AAAA ->
  some_recs (rbuff_rr name type ttl data).
Proof. intros. eexists. by apply recs_one. Qed.
Lemma some_app r1 r2 : some_recs r1 -> some_recs r2 -> some_recs (app_rrs r1 r2).
Proof. intros [l1 H1] [l2 H2]. eexists. by apply recs_app. Qed.

Lemma addr_rrs_recs env name type ht : type = TY_A \/ type = TY_AAAA ->
  recs (addr_rrs env name type ht)
    (map (fun a => Rr name type (DNS_MINTTL env) (take (Z.to_nat (h_length ht)) a)) (h_addr_list ht)).
Proof.
  intros Ht. split; cbn [addr_rrs r_bytes r_anc r_fit].
  - unfold bytes_of. by rewrite map_map.
  - unfold zlen. by rewrite length_map.
  - symmetry. apply forallb_forall. intros r (a & <- & _)%in_map_iff.
    unfold fits_rbuff. cbn [o_type]. by destruct Ht as [-> | ->].
Qed.
Lemma some_addr env name type ht : type = TY_A \/ type = TY_AAAA ->
  some_recs (addr_rrs env name type ht).
Proof. intros. eexists. by apply addr_rrs_recs. Qed.

(** ** Numbers in records *)

Lemma long_value v : 0 <= v < 2 ^ 32 ->
  Z.lor (Z.shiftl (Z.land 255 (Z.shiftr v 24)) 24) (Z.lor (Z.shiftl (Z.land 255 (Z.shiftr v 16)) 16)
    (Z.lor (Z.shiftl (Z.land 255 (Z.shiftr v 8)) 8) (Z.land 255 v))) = v.
Proof.
  intros Hv. apply Z.bits_inj'. intros i Hi. change 255 with (Z.ones 8).
  rewrite !Z.lor_spec, !Z.shiftl_spec, !Z.land_spec by lia.
  assert (Hb : forall s, 0 <= s -> Z.testbit (Z.ones 8) (i - s) && Z.testbit (Z.shiftr v s) (i - s) =
    (s <=? i) && (i <? s + 8) && Z.testbit v i).
  { intros s Hs. destruct (Z.leb_spec s i) as [Hle|Hlt].
    - rewrite Z.shiftr_spec by lia. replace (i - s + s) with i by lia.
      destruct (Z.ltb_spec i (s + 8)).
      + by rewrite Z.ones_spec_low by lia.
      + by rewrite Z.ones_spec_high by lia.
    - by rewrite (Z.testbit_neg_r (Z.ones 8)) by lia. }
  rewrite !Hb by lia. pose proof (Hb 0 ltac:(lia)) as H0. rewrite Z.shiftr_0_r, Z.sub_0_r in H0.
  rewrite H0. destruct (Z.ltb_spec i 32) as [Hlt|Hge].
  - destruct (Z.testbit v i); rewrite ?andb_false_r, ?andb_true_r; [|done].
    destruct (Z.leb_spec 24 i); destruct (Z.leb_spec 16 i); destruct (Z.leb_spec 8 i);
      destruct (Z.leb_spec 0 i); destruct (Z.ltb_spec i (24 + 8)); destruct (Z.ltb_spec i (16 + 8));
      destruct (Z.ltb_spec i (8 + 8)); destruct (Z.ltb_spec i (0 + 8)); cbn; (lia || done).
  - rewrite (bits_high 32 v i) by lia. by rewrite !andb_false_r.
Qed.

Lemma s32_small v : 0 <= v < 2 ^ 31 -> s32 v = v.
Proof. intros H. unfold s32. rewrite Z.mod_small; lia. Qed.

Lemma getLong_put pre v post : 0 <= v < 2 ^ 31 ->
  getLong (pre ++ putLongVStr v ++ post) (zlen pre) = Some (v, zlen pre + 4).
Proof.
  intros Hv. unfold getLong, putLongVStr. cbn [app]. pose proof (zlen_nonneg pre).
  rewrite uc_app_0. cbn [mbind option_bind]. rewrite !uc_app_r by lia.
  assert (H3 : forall a b c d l, uc (a :: b :: c :: d :: l) 1 = Some b /\
    uc (a :: b :: c :: d :: l) 2 = Some c /\ uc (a :: b :: c :: d :: l) 3 = Some d) by done.
  edestruct H3 as (-> & -> & ->). cbn [mbind option_bind].
  rewrite long_value by lia. by rewrite s32_small.
Qed.

Lemma getLong_some l p : 0 <= p -> p + 4 <= zlen l -> exists v, getLong l p = Some (v, p + 4).
Proof.
  intros H0 Hp. unfold getLong, uc.
  assert (H : forall q, 0 <= q < zlen l -> exists c, l !! Z.to_nat q = Some c).
  { intros q Hq. apply lookup_lt_is_Some_2. unfold zlen in Hq. lia. }
  rewrite !(proj2 (Z.ltb_ge _ 0)) by lia.
  destruct (H p) as [a ->]; [lia|]. destruct (H (p + 1)) as [b ->]; [lia|].
  destruct (H (p + 2)) as [c ->]; [lia|]. destruct (H (p + 3)) as [d ->]; [lia|]. by eexists.
Qed.

Lemma nodename_some t i : tree_wf t -> (i < length t)%nat ->
  exists s, nodename_of t (Z.of_nat i) = Some s.
Proof.
  intros Hwf Hi. unfold nodename_of. rewrite (proj2 (Z.ltb_ge _ 0)) by lia. rewrite Nat2Z.id.
  assert (Hroot : forall j, (j < length t)%nat -> n_parent (getnode t j) = None ->
    exists s, DNS_nodename t j = Some s).
  { intros j Hj Hp. unfold DNS_nodename. rewrite (proj2 (Nat.leb_gt _ _)) by lia.
    destruct (length t) as [|n]; [lia|]. cbn [getnodename]. rewrite Hp. by eexists. }
  destruct i as [|[|i]].
  - apply Hroot; [lia|apply Hwf].
  - apply Hroot; [lia|apply (wf_top t Hwf)].
  - destruct (path_total t Hwf (S (S i)) ltac:(lia)) as [ls Hls].
    edestruct (nodename_path t (S (S i)) ls) as (s & -> & _); [done|done| |by eexists].
    inversion Hls; subst; done.
Qed.

(** ** Relaying *)

(** The types that are relayed. *)
Definition relayed (qtype : Z) : Prop := qtype = TY_MX \/ qtype = TY_SOA \/ qtype = TY_SRV.

Section reply.
Variable env : dns_env.

Lemma relay_rr_ok t name qtype a1 : tree_ok t -> Z.of_nat (length t) < 2 ^ 31 ->
  rec_wf (length t) a1 -> relayed qtype ->
  exists r, relay_rr env t name qtype a1 = Some r /\ some_recs r.
Proof using.
  intros Ht Hsmall Hrec Hq. destruct a1 as [|ty [|cl body]]; try done. unfold relay_rr.
  change (uc (ty :: cl :: body) 0) with (Some ty). cbn [mbind option_bind].
  destruct (Z.eqb_spec (schar ty) qtype) as [E|]; cbn [negb];
    [|exists none_rr; split; [done|apply some_none]].
  destruct Hrec as (Hsrv & Hmx & Hsoa).
  assert (Hget : forall pre v post, (v < length t)%nat -> ty :: cl :: body = pre ++ putLongVStr (Z.of_nat v) ++ post ->
    forall p, p = zlen pre -> getLong (ty :: cl :: body) p = Some (Z.of_nat v, p + 4)).
  { intros pre v post Hv -> p ->. apply getLong_put. lia. }
  destruct Hq as [-> | [-> | ->]]; [| |done].
  - destruct (Hmx E) as (nid & pref & Hn & Hp & Hb).
    rewrite (Hget [ty; cl] nid pref Hn); [|by rewrite Hb|done]. cbn [mbind option_bind].
    rewrite E. change (TY_MX =? TY_SOA) with false. cbv iota.
    destruct pref as [|p1 [|p2 [|]]]; try done.
    erewrite getShort_at; [|by rewrite Hb|by rewrite Hb]. cbn [mbind option_bind].
    destruct (nodename_some t nid (ok_tree _ Ht) Hn) as (s & ->). cbn [mbind option_bind].
    eexists. split; [done|by apply some_one].
  - destruct (Hsoa E) as (m & r & rest & Hm & Hr & Hlen & Hb).
    rewrite (Hget [ty; cl] m (putLongVStr (Z.of_nat r) ++ rest) Hm); [|by rewrite Hb|done].
    cbn [mbind option_bind]. rewrite E. change (TY_SOA =? TY_SOA) with true. cbv iota.
    destruct (nodename_some t m (ok_tree _ Ht) Hm) as (s & ->). cbn [mbind option_bind].
    rewrite (Hget ([ty; cl] ++ putLongVStr (Z.of_nat m)) r rest Hr); [|by rewrite Hb|done].
    cbn [mbind option_bind].
    destruct (nodename_some t r (ok_tree _ Ht) Hr) as (s2 & ->). cbn [mbind option_bind].
    assert (Hlong : forall p, 0 <= p <= 26 -> exists v, getLong (ty :: cl :: body) p = Some (v, p + 4)).
    { intros p Hp. apply getLong_some; [lia|]. rewrite Hb, !zlen_cons, !zlen_app.
      change (zlen (putLongVStr (Z.of_nat m))) with 4. change (zlen (putLongVStr (Z.of_nat r))) with 4.
      unfold zlen. lia. }
    do 5 (edestruct Hlong as (? & ->); [|cbn [mbind option_bind]];
      [rewrite ?zlen_app, ?zlen_cons; change (zlen (putLongVStr (Z.of_nat m))) with 4;
       rewrite ?zlen_nil; lia|]).
    eexists. split; [done|by apply some_one].
Qed.

Definition answered (r : option (rrs * dns_st)) : Prop :=
  exists rr st', r = Some (rr, st') /\ some_recs rr /\ st_ok st'.
Lemma answered_some rr st : some_recs rr -> st_ok st -> answered (Some (rr, st)).
Proof using. by exists rr, st. Qed.

Lemma relay_loop_ok t name qtype av : tree_ok t -> Z.of_nat (length t) < 2 ^ 31 ->
  Forall (rec_wf (length t)) av -> relayed qtype ->
  exists r, relay_loop env t name qtype av = Some r /\ some_recs r.
Proof using.
  intros Ht Hs Hav Hq. induction Hav as [|a1 av Ha _ IH].
  - exists none_rr. split; [done|apply some_none].
  - cbn [relay_loop]. destruct (relay_rr_ok t name qtype a1 Ht Hs Ha Hq) as (r1 & -> & H1).
    destruct IH as (r2 & -> & H2). cbn [mbind option_bind].
    eexists. split; [done|by apply some_app].
Qed.

Lemma relay_cachedRR_ok name qtype st : st_ok st -> relayed qtype ->
  answered (relay_cachedRR env name qtype st).
Proof using.
  intros [Ht Hs] Hq. unfold relay_cachedRR.
  destruct (Nat.eqb _ 0); [by apply answered_some; [apply some_none|]|].
  pose proof (getattr_ok (d_nodes st) (DNS_getbyname (d_nodes st) name) (typemask qtype) 0 8
    (dns_now env) Ht) as (Ht' & Hl & Hav).
  destruct (DNS_getattr _ _ _ _ _ _) as [t av]. cbn [fst snd] in *. rewrite <- Hl in Hs, Hav.
  destruct (relay_loop_ok t name qtype av Ht' Hs Hav Hq) as (r & -> & Hr). cbn [mbind option_bind].
  by apply answered_some.
Qed.

(** The first of two, if it answers. *)
Lemma answered_bind r f : answered r ->
  (forall rr st, some_recs rr -> st_ok st -> answered (f rr st)) ->
  answered ('(rr, st) ← r; f rr st).
Proof using. intros (rr & st & -> & H1 & H2) Hf. by apply Hf. Qed.

Lemma relay_cachedRRs_ok name qtype st : st_ok st -> relayed qtype ->
  answered (relay_cachedRRs env name qtype st).
Proof using.
  intros Hst Hq. unfold relay_cachedRRs. apply answered_bind; [by apply relay_cachedRR_ok|].
  intros r1 st1 H1 Hst1. destruct (negb _); [by apply answered_some|].
  apply answered_bind; [destruct (_ =? _); [by apply relay_cachedRR_ok|by apply answered_some]|].
  intros r2 st2 H2 Hst2. destruct (negb _); [by apply answered_some|].
  destruct (_ && _); [by apply relay_cachedRR_ok|by apply answered_some].
Qed.

(** ** Answers *)

Hypothesis (Henv : env_ok env).

Lemma putRR_A_ok name st : st_ok st ->
  some_recs (putRR_A env name st).1 /\ st_ok (putRR_A env name st).2.
Proof using Henv.
  intros Hst. unfold putRR_A. pose proof (eo_host env Henv name (Some (cs "4")) st Hst) as H.
  destruct (gethostbyNX _ _ _ _) as [[ht|] st1]; [|by split; [apply some_none|]].
  destruct (_ =? _); [by split; [apply some_none|]|]. split; [apply some_addr; auto|done].
Qed.

Lemma putRR_AAAA_ok name st : st_ok st ->
  some_recs (putRR_AAAA env name st).1 /\ st_ok (putRR_AAAA env name st).2.
Proof using Henv.
  intros Hst. unfold putRR_AAAA.
  pose proof (eo_host env Henv (clip 512 (cs "-AAAA." ++ name)) (Some (cs "6")) st Hst) as H.
  destruct (gethostbyNX _ _ _ _) as [[ht|] st1]; [|by split; [apply some_none|]].
  split; [apply some_addr; auto|done].
Qed.

Lemma mx_loop_ok name btype addrs : forall st, st_ok st ->
  some_recs (mx_loop env name addrs btype st).1 /\ st_ok (mx_loop env name addrs btype st).2.
Proof using Henv.
  induction addrs as [|a addrs IH]; intros st Hst; [by split; [apply some_none|]|].
  cbn [mx_loop]. pose proof (eo_addr env Henv a btype st Hst) as H.
  destruct (GETHOSTBYADDR _ _ _ _) as [ht1 st1]. cbn [snd] in H.
  destruct (IH st1 H) as [H1 H2]. destruct (mx_loop _ _ _ _ _) as [r st2]. cbn [fst snd] in *.
  destruct ht1; [|done]. cbn [fst snd]. split; [|done]. apply some_app; [by apply some_one|done].
Qed.

Lemma putRR_name_ok ht type name st : st_ok st -> type <> TY_A -> type <> TY_AAAA ->
  some_recs (putRR_name env ht type name st).1 /\ st_ok (putRR_name env ht type name st).2.
Proof using Henv.
  intros Hst H1 H2. unfold putRR_name. destruct (_ =? _); [by apply mx_loop_ok|].
  split; [by apply some_one|done].
Qed.

Lemma putRR_PTR_ok name st : st_ok st ->
  some_recs (putRR_PTR env name st).1 /\ st_ok (putRR_PTR env name st).2.
Proof using Henv.
  intros Hst. unfold putRR_PTR. destruct (_ && _); [by split; [apply some_none|]|].
  destruct (VSA_dnstosa env name) as [[a type]|]; [|by split; [apply some_none|]].
  pose proof (eo_addr env Henv a type st Hst) as H.
  destruct (GETHOSTBYADDR _ _ _ _) as [[ht|] st1]; [|by split; [apply some_none|]].
  by apply putRR_name_ok.
Qed.

Lemma putRR_SOA_ok name st : st_ok st -> answered (putRR_SOA env name st).
Proof using Henv.
  intros Hst. unfold putRR_SOA.
  assert (Hown : forall st, st_ok st -> answered (let '(ht, st) := gethostbyNX env name (Some (cs "4")) st in
    Some (match ht with None => none_rr | Some _ => own_SOA env end, st))).
  { intros s Hs. pose proof (eo_host env Henv name (Some (cs "4")) s Hs) as H.
    destruct (gethostbyNX _ _ _ _) as [[ht|] st1]; (apply answered_some; [|done]).
    - by apply (some_one (DNS_DOMAIN env) TY_SOA 0).
    - apply some_none. }
  destruct (negb _); [|by apply Hown].
  destruct (negb _); [by apply answered_some; [apply some_none|]|].
  apply answered_bind.
  - apply relay_cachedRRs_ok; [by apply eo_rr|by right; left].
  - intros r st1 Hr Hst1. destruct (_ <? _); [by apply answered_some|by apply Hown].
Qed.

Lemma putRR_SRV_ok name st : st_ok st -> answered (putRR_SRV env name st).
Proof using Henv.
  intros Hst. unfold putRR_SRV. destruct (tail_of _ _); [by apply answered_some; [apply some_none|]|].
  destruct (negb _); [by apply answered_some; [apply some_none|]|].
  apply relay_cachedRRs_ok; [by apply eo_rr|by right; right].
Qed.

Lemma putRR_MX_ok name st : st_ok st -> answered (putRR_MX env name st).
Proof using Henv.
  intros Hst. unfold putRR_MX. pose proof (eo_host env Henv (clip 512 (cs "-MX." ++ name)) None st Hst) as H.
  destruct (gethostbyNX _ _ _ _) as [ht st1]. cbn [snd] in H. apply answered_bind.
  { destruct ht; [apply relay_cachedRR_ok; [done|by left]|apply answered_some; [apply some_none|done]]. }
  intros r st2 Hr Hst2. destruct (negb _); [by apply answered_some|].
  set (X := match ht with Some _ => _ | None => _ end).
  assert (HX : st_ok X.2).
  { subst X. destruct ht; [done|]. destruct (DNS_MX env) as [mx|].
    - pose proof (eo_host env Henv mx None st2 Hst2) as H2.
      destruct (gethostbyNX env mx None st2) as [[h2|] st3]; [done|].
      by apply (eo_host env Henv name None st3).
    - by apply (eo_host env Henv name None st2). }
  destruct X as [[h|] st3]; cbn [snd] in HX; [|apply answered_some; [apply some_none|done]].
  destruct (putRR_name_ok h TY_MX name st3 HX ltac:(done) ltac:(done)) as [H1 H2].
  destruct (putRR_name _ _ _ _ _) as [r' st4]. by apply answered_some.
Qed.

Lemma add_rrs_ok f acc : answered acc -> (forall st, st_ok st -> answered (f st)) ->
  answered (add_rrs f acc).
Proof using.
  intros (r & st & -> & Hr & Hst) Hf. unfold add_rrs. cbn [mbind option_bind].
  destruct (Hf st Hst) as (r' & st' & -> & Hr' & Hst'). cbn [mbind option_bind].
  apply answered_some; [by apply some_app|done].
Qed.
Lemma total_ok f st : some_recs (f st).1 /\ st_ok (f st).2 -> answered (total f st).
Proof using. unfold total. destruct (f st). intros [H1 H2]. by apply answered_some. Qed.

Lemma answers_ok qtype name st : st_ok st -> answered (answers env qtype name st).
Proof using Henv.
  intros Hst. unfold answers.
  assert (H0 : answered (Some (none_rr, st))) by (apply answered_some; [apply some_none|done]).
  assert (Ht : forall (f : dns_st -> rrs * dns_st) acc, answered acc ->
    (forall st, st_ok st -> some_recs (f st).1 /\ st_ok (f st).2) -> answered (add_rrs (total f) acc)).
  { intros f acc Ha Hf. apply add_rrs_ok; [done|]. intros s Hs. by apply total_ok, Hf. }
  destruct (_ =? TY_SRV); [apply add_rrs_ok; [done|]; apply putRR_SRV_ok|].
  destruct (_ =? TY_A); [apply Ht; [done|]; apply putRR_A_ok|].
  destruct (_ =? TY_AAAA); [apply Ht; [done|]; apply putRR_AAAA_ok|].
  destruct (_ =? TY_PTR); [apply Ht; [done|]; apply putRR_PTR_ok|].
  destruct (_ || _); [apply add_rrs_ok; [done|]; apply putRR_MX_ok|].
  destruct (_ =? TY_QALL); [|done].
  apply Ht; [|apply putRR_PTR_ok]. apply add_rrs_ok; [|apply putRR_SOA_ok].
  apply add_rrs_ok; [|apply putRR_MX_ok]. apply Ht; [|apply putRR_AAAA_ok].
  apply Ht; [done|]. apply putRR_A_ok.
Qed.

Lemma authority_ok qtype name anc st : st_ok st -> answered (authority env qtype name anc st).
Proof using Henv.
  intros Hst. unfold authority.
  destruct (_ && _); [by apply putRR_SOA_ok|apply answered_some; [apply some_none|done]].
Qed.
Lemma name_unknown_ok qtype name anc nauth st : st_ok st ->
  let r := name_unknown env qtype name anc nauth st in some_recs r.1.2 /\ st_ok r.2.
Proof using Henv.
  intros Hst. unfold name_unknown. destruct (_ || _); [by split; [apply some_none|]|].
  destruct (negb _); [by split; [apply some_none|]|].
  destruct (putRR_A_ok name st Hst) as [Ha H3]. destruct (putRR_A env name st) as [a st3].
  destruct (negb _); [done|]. destruct (putRR_PTR_ok name st3 H3) as [Hp H4].
  destruct (putRR_PTR env name st3) as [p st4]. by split; [apply some_app|].
Qed.

(** What is found for a query are records. *)
Record found_ok (f : found) (ans auth tried : list rr) : Prop := {
  fo_ans : recs (f_ans f) ans;
  fo_auth : recs (f_auth f) auth;
  fo_tried : recs (f_tried f) tried
}.

Lemma find_for_ok Head qtype name st : st_ok st ->
  exists f st' ans auth tried, find_for env Head qtype name st = Some (f, st') /\
    st_ok st' /\ found_ok f ans auth tried /\ (unsupported Head = true -> ans ++ auth = []).
Proof using Henv.
  intros Hst. unfold find_for. destruct (unsupported Head) eqn:E.
  { eexists _, _, [], [], []. split_and!; [done|done|split; apply recs_none|done]. }
  unfold find_answers. set (st0 := DnsSt _ _ 0). assert (Hst0 : st_ok st0) by done.
  destruct (answers_ok qtype name st0 Hst0) as (ans & st1 & -> & [la Ha] & Hst1).
  cbn [mbind option_bind].
  destruct (authority_ok qtype name (r_anc ans) st1 Hst1) as (auth & st2 & -> & [lu Hu] & Hst2).
  cbn [mbind option_bind].
  pose proof (name_unknown_ok qtype name (r_anc ans) (r_anc auth) st2 Hst2) as [[lt Ht] Hst3].
  destruct (name_unknown _ _ _ _ _ _) as [[u tried] st3].
  by exists (Found ans auth tried u), st3, la, lu, lt.
Qed.
End reply.

(** ** The reply *)

Lemma putShort_mod v : putShort v = putShort (v mod 2 ^ 16).
Proof.
  unfold putShort, uchar. change (2 ^ 16) with 65536. f_equal.
  - rewrite !Z.shiftr_div_pow2 by lia. change (2 ^ 8) with 256.
    change 65536 with (256 * 256). rewrite Z.rem_mul_r by lia.
    rewrite (Z.mul_comm 256 (_ mod _)), Z.div_add, (Z.div_small (v mod 256)), Z.add_0_l, Z.mod_mod;
      [done|lia|apply Z.mod_pos_bound; lia|lia].
  - f_equal. symmetry. apply Z.mod_mod_divide. by exists 256.
Qed.
Lemma getShort_putm pre v post :
  getShort (pre ++ putShort v ++ post) (zlen pre) = Some (v mod 2 ^ 16, zlen pre + 2).
Proof. rewrite putShort_mod. apply getShort_put. apply Z.mod_pos_bound. lia. Qed.

Definition reply_head (id RM anc nauth : Z) : list Z :=
  putShort id ++ putShort RM ++ putShort 1 ++ putShort anc ++ putShort nauth ++ putShort 0.

Lemma reply_head_reads id RM anc nauth post : 0 <= id < 2 ^ 16 -> 0 <= RM < 2 ^ 16 ->
  scanHeader (reply_head id RM anc nauth ++ post) 0 =
    Some (MkHeader id RM 1 (anc mod 2 ^ 16) (nauth mod 2 ^ 16) 0, 12).
Proof.
  intros Hid HRM. unfold scanHeader, reply_head. rewrite <- !app_assoc.
  set (msg := putShort id ++ _).
  assert (H : forall pre v post' p, msg = pre ++ putShort v ++ post' -> p = zlen pre ->
    getShort msg p = Some (v mod 2 ^ 16, p + 2))
    by (intros pre v post' p -> ->; apply getShort_putm).
  set (s1 := putShort id) in *. set (s2 := putShort RM) in *. set (s3 := putShort 1) in *.
  set (s4 := putShort anc) in *. set (s5 := putShort nauth) in *.
  erewrite (H [] id) by reflexivity. cbn [mbind option_bind].
  erewrite (H s1 RM) by reflexivity. cbn [mbind option_bind].
  erewrite (H (s1 ++ s2) 1) by reflexivity. cbn [mbind option_bind].
  erewrite (H (s1 ++ s2 ++ s3) anc) by reflexivity. cbn [mbind option_bind].
  erewrite (H (s1 ++ s2 ++ s3 ++ s4) nauth) by reflexivity. cbn [mbind option_bind].
  erewrite (H (s1 ++ s2 ++ s3 ++ s4 ++ s5) 0) by reflexivity.
  cbn [mbind option_bind]. by rewrite !(Z.mod_small id), !(Z.mod_small RM).
Qed.

(** The fields of the flags, by computation. *)
Definition code_of (proxy anc unknown isauth unsupported : bool) : Z :=
  if negb anc then 0
  else if unsupported then 4
  else if unknown then (if isauth || proxy then 3 else 5) else 0.
Definition flags_as (proxy anc unknown isauth unsupported : bool) (op rd RM : Z) : Prop :=
  0 <= RM < 2 ^ 16 /\ H_QR RM = 1 /\ H_OPCODE RM = op /\
  H_AA RM = (if negb unknown || isauth then 1 else 0) /\ H_TC RM = 0 /\
  H_RD RM = (if proxy then rd else 0) /\ H_RA RM = 0 /\ H_Z RM = 0 /\
  H_RCODE RM = code_of proxy anc unknown isauth unsupported.
#[export] Instance flags_as_dec p a k i u op rd RM : Decision (flags_as p a k i u op rd RM).
Proof. unfold flags_as. apply _. Defined.

Definition flags_of (proxy anc unknown isauth unsupported : bool) (op rd : Z) : Z :=
  let RM := SET_RA (SET_RD (SET_AA (SET_OPCODE (SET_QR 0 1) op)
    (if negb unknown || isauth then 1 else 0)) (if proxy then rd else 0)) 0 in
  if negb anc then RM
  else
    let RM := if unknown then SET_RCODE RM (if isauth then 3 else if proxy then 3 else 5) else RM in
    if unsupported then SET_RCODE RM 4 else RM.

Lemma flags_of_all p a k i u op rd : 0 <= op < 16 -> 0 <= rd < 2 ->
  flags_as p a k i u op rd (flags_of p a k i u op rd).
Proof.
  intros Hop Hrd.
  assert (H : zrange_all 16 (fun op => zrange_all 2 (fun rd =>
    bool_decide (flags_as p a k i u op rd (flags_of p a k i u op rd)))) = true)
    by (destruct p, a, k, i, u; vm_compute; reflexivity).
  eapply zrange_all_spec in H; [|exact Hop]. eapply zrange_all_spec in H; [|exact Hrd].
  by apply bool_decide_eq_true in H.
Qed.

Lemma reply_flags_as env M anc unknown isauth unsupported :
  flags_as (RES_proxy env) (anc =? 0) unknown isauth unsupported (H_OPCODE M) (H_RD M)
    (reply_flags env M anc unknown isauth unsupported).
Proof.
  replace (reply_flags env M anc unknown isauth unsupported) with
    (flags_of (RES_proxy env) (anc =? 0) unknown isauth unsupported (H_OPCODE M) (H_RD M))
    by (unfold flags_of, reply_flags; by destruct unknown, isauth, (RES_proxy env)).
  assert (Hm : forall n M, 0 <= n -> 0 <= Z.land M (Z.ones n) < 2 ^ n)
    by (intros; rewrite Z.land_ones by lia; apply Z.mod_pos_bound; lia).
  apply flags_of_all.
  - unfold H_OPCODE. rewrite Z.shiftr_land. by apply (Hm 4).
  - unfold H_RD. rewrite Z.shiftr_land. by apply (Hm 1).
Qed.

(** ** Queries *)

(** The query [query] with header [Head] asks for the records of [qtype] of
    the name with the labels [ls]. *)
Record is_query (query : list Z) (Head : Header) (ls : list (list Z)) (qtype qclass : Z) : Prop := {
  iq_bytes : bytes_ok query;
  iq_head : scanHeader query 0 = Some (Head, 12);
  iq_labels : Forall label_ok ls;
  iq_nul : Forall (fun l => ~ In 0 l) ls;
  iq_ne : ls <> [];
  iq_size : zlen (dotted ls) + 2 <= 512;
  iq_name : exists d e, (d < MAXPTR)%nat /\ dname query d 12 12 ls e /\
    getShort query e = Some (qtype, e + 2) /\ getShort query (e + 2) = Some (qclass, e + 4)
}.

Lemma cstr_nonul l : ~ In 0 l -> cstr l = l.
Proof.
  induction l as [|c l IH]; [done|]. intros H. cbn [cstr].
  destruct (Z.eqb_spec c 0) as [->|]; [by destruct H; left|]. rewrite IH; [done|].
  intros Hl. apply H. by right.
Qed.
Lemma dotted_nonul ls : Forall (fun l => ~ In 0 l) ls -> ~ In 0 (dotted ls).
Proof.
  induction 1 as [|l ls Hl _ IH]; [by intros []|]. destruct ls as [|l2 ls]; [done|].
  rewrite dotted_cons by done. intros [H|[H|H]]%in_app_iff; [done|lia|done].
Qed.

Lemma short_bytes a b : 0 <= b < 2 ^ 8 -> Z.lor (Z.shiftl a 8) b = a * 256 + b.
Proof.
  intros Hb. pose proof (Z.add_lor_land (Z.shiftl a 8) b) as H.
  assert (E : Z.land (Z.shiftl a 8) b = 0).
  { apply Z.bits_inj'. intros i Hi. rewrite Z.land_spec, Z.bits_0, Z.shiftl_spec by lia.
    destruct (Z.ltb_spec i 8); [by rewrite Z.testbit_neg_r by lia|].
    rewrite (bits_high 8 b i) by lia. by rewrite andb_false_r. }
  rewrite (Z.shiftl_mul_pow2 a) in * by lia. change (2 ^ 8) with 256 in *. lia.
Qed.
Lemma uc_range msg p c : bytes_ok msg -> uc msg p = Some c -> 0 <= c < 2 ^ 8.
Proof.
  intros Hb. unfold uc. destruct (p <? 0); [done|]. intros H. exact (Forall_lookup_1 _ _ _ _ Hb H).
Qed.
Lemma getShort_inv msg p v q : bytes_ok msg -> getShort msg p = Some (v, q) ->
  exists a b, uc msg p = Some a /\ uc msg (p + 1) = Some b /\ 0 <= a < 2 ^ 8 /\ 0 <= b < 2 ^ 8 /\
    v = a * 256 + b.
Proof.
  intros Hb. unfold getShort.
  destruct (uc msg p) as [a|] eqn:Ea; [|done]. destruct (uc msg (p + 1)) as [b|] eqn:Eb; [|done].
  intros [= <- _]. apply uc_range in Ea, Eb; [|done..]. exists a, b.
  split_and!; try done; try lia. by apply short_bytes.
Qed.
Lemma getShort_range msg p v q : bytes_ok msg -> getShort msg p = Some (v, q) -> 0 <= v < 2 ^ 16.
Proof.
  intros Hb (a & b & _ & _ & ? & ? & ->)%getShort_inv; [|done].
  change (2 ^ 8) with 256 in *. change (2 ^ 16) with 65536. lia.
Qed.

Lemma scanHeader_id msg Head e : bytes_ok msg -> scanHeader msg 0 = Some (Head, e) ->
  0 <= H_id Head < 2 ^ 16.
Proof.
  intros Hb. unfold scanHeader. destruct (getShort msg 0) as [[id p]|] eqn:E; [|done].
  apply (getShort_range _ _ _ _ Hb) in E. cbn [mbind option_bind].
  repeat (destruct (getShort msg _) as [[? ?]|]; [cbn [mbind option_bind]|done]).
  by intros [= <- _].
Qed.

Lemma query_reads query Head ls qtype qclass : is_query query Head ls qtype qclass ->
  (exists e, scanQuery query 12 512 = Some (dotted ls, qtype, qclass, e)) /\
  cstr (dotted ls) = dotted ls /\ 0 <= qtype < 2 ^ 16 /\ 0 <= qclass < 2 ^ 16 /\
  0 <= H_id Head < 2 ^ 16.
Proof.
  intros [Hb Hh Hl Hn Hne Hs (d & e & Hd & Hname & Ht & Hc)]. split_and!.
  - exists (e + 4). unfold scanQuery. rewrite (scanName_dname _ _ _ _ _ _ Hname Hd Hs).
    cbn [mbind option_bind]. rewrite Ht. cbn [mbind option_bind]. rewrite Hc. done.
  - by apply cstr_nonul, dotted_nonul.
  - by eapply getShort_range.
  - by eapply getShort_range.
  - by eapply getShort_range.
  - by eapply getShort_range.
  - by eapply scanHeader_id.
  - by eapply scanHeader_id.
Qed.

(** A reply to a query reads as what it was made of: the question and the
    records [ans] and [auth] with their counts. *)
Definition reply_reads (ls : list (list Z)) (qtype qclass : Z) (reply : list Z)
  (id RM : Z) (ans auth : list rr) : Prop :=
  scanHeader reply 0 =
    Some (MkHeader id RM 1 (zlen ans mod 2 ^ 16) (zlen auth mod 2 ^ 16) 0, 12) /\
  exists e, scanQuery reply 12 512 = Some (dotted ls, qtype, qclass, e) /\
    drop (Z.to_nat e) reply = bytes_of (ans ++ auth).

Lemma reply_reads_intro query Head ls qtype qclass RM q ans auth :
  is_query query Head ls qtype qclass -> 0 <= RM < 2 ^ 16 ->
  makeQuestion (dotted ls) qtype qclass = Some q ->
  reply_reads ls qtype qclass
    (reply_head (H_id Head) RM (zlen ans) (zlen auth) ++ q ++ bytes_of (ans ++ auth))
    (H_id Head) RM ans auth.
Proof.
  intros Hq HRM Hmk.
  destruct (query_reads _ _ _ _ _ Hq) as (_ & _ & Ht & Hc & Hid).
  split; [by apply reply_head_reads|].
  set (head := reply_head _ _ _ _). set (bytes := bytes_of _).
  destruct (makeQuestion_reads head bytes ls qtype qclass 512)
    as (q' & Hmk' & Hs); [by apply Hq|by apply Hq|by apply Hq|done|done|].
  rewrite Hmk in Hmk'. injection Hmk' as <-. change (zlen head) with 12 in Hs.
  exists (12 + zlen q). split; [done|].
  rewrite Z2Nat.inj_add by (try apply zlen_nonneg; lia). unfold zlen. rewrite Nat2Z.id.
  rewrite <- drop_drop. change (Z.to_nat 12) with (length head).
  by rewrite !drop_app_length.
Qed.

Lemma zlen_makeQuestion ls qtype qclass q : Forall label_ok ls -> ls <> [] ->
  makeQuestion (dotted ls) qtype qclass = Some q -> zlen q = zlen (dotted ls) + 6.
Proof.
  intros Hls Hne. unfold makeQuestion. destruct (_ =? 0); [done|]. intros [= <-].
  rewrite zlen_app, zlen_putName by done. unfold zlen. simpl. lia.
Qed.

(** What fits: the data of each record in [rbuff], the records in [RRbuf] and
    the reply in its buffer. *)
Definition reply_fits (size : Z) (ls : list (list Z)) (ans auth tried : list rr) : bool :=
  forallb fits_rbuff (ans ++ auth ++ tried) &&
  (zlen (bytes_of (ans ++ auth ++ tried)) <=? RRbuf_size) &&
  (zlen (dotted ls) + 18 + zlen (bytes_of (ans ++ auth)) <=? size).

(** [dns_reply] for a query that parses, from what was found. *)
Lemma dns_reply_eq env size query Head ls qtype qclass st f st' ans auth tried :
  is_query query Head ls qtype qclass -> H_QR (H_M Head) = 0 ->
  find_for env Head qtype (dotted ls) st = Some (f, st') -> found_ok f ans auth tried ->
  let isauth := negb (unsupported Head) && tail_of (dotted ls) (DNS_DOMAIN env) in
  let RM := reply_flags env (H_M Head) (zlen ans) (f_unknown f) isauth (unsupported Head) in
  flags_as (RES_proxy env) (zlen ans =? 0) (f_unknown f) isauth (unsupported Head)
    (H_OPCODE (H_M Head)) (H_RD (H_M Head)) RM /\
  if reply_fits size ls ans auth tried
  then exists reply, dns_reply env size query st = Some (st', H_id Head, Some reply) /\
    reply_reads ls qtype qclass reply (H_id Head) RM ans auth
  else dns_reply env size query st = None.
Proof.
  intros Hq HQR Hfound [[Ba Na Fa] [Bu Nu Fu] [Bt Nt Ft]] isauth RM.
  pose proof (reply_flags_as env (H_M Head) (zlen ans) (f_unknown f) isauth (unsupported Head)) as Hf.
  fold RM in Hf. split; [done|].
  destruct (query_reads _ _ _ _ _ Hq) as ((e & Hs) & Hcstr & Ht & Hc & Hid).
  destruct (makeQuestion_reads [] [] ls qtype qclass 512) as (q & Hmk & _);
    [by apply Hq|by apply Hq|by apply Hq|done|done|].
  pose proof (zlen_makeQuestion ls qtype qclass q ltac:(apply Hq) ltac:(apply Hq) Hmk) as Hlq.
  pose proof (reply_reads_intro _ _ _ _ _ RM q ans auth Hq (proj1 Hf) Hmk) as Hreads.
  unfold dns_reply. rewrite (iq_head _ _ _ _ _ Hq). cbn [mbind option_bind]. rewrite Hs.
  cbn [mbind option_bind]. rewrite Hcstr, HQR. cbn [Z.eqb negb]. rewrite Hfound.
  cbn [mbind option_bind]. cbv zeta. fold isauth. rewrite Na, Nu. fold RM. rewrite Hmk.
  unfold fits_RRbuf. cbn [app_rrs r_fit r_bytes]. rewrite Ba, Bu, Bt, Fa, Fu, Ft.
  assert (Hb : forall l l', bytes_of l ++ bytes_of l' = bytes_of (l ++ l'))
    by (intros; unfold bytes_of; by rewrite map_app, concat_app).
  rewrite !Hb, <- !forallb_app, <- app_assoc. unfold reply_fits.
  destruct (_ && (_ <=? RRbuf_size)); cbn [negb andb]; [|done].
  assert (E : (if negb (zlen ans =? 0) || negb (zlen auth =? 0) then bytes_of (ans ++ auth) else []) =
    bytes_of (ans ++ auth)).
  { destruct ans; [|rewrite zlen_cons, (proj2 (Z.eqb_neq _ 0)); [done|pose proof (zlen_nonneg ans); lia]].
    destruct auth; [done|]. by rewrite (zlen_cons r), (proj2 (Z.eqb_neq (_ + 1) 0));
      [|pose proof (zlen_nonneg auth); lia]. }
  rewrite E. clear E. change (putShort (H_id Head) ++ ?x) with (reply_head (H_id Head) RM (zlen ans) (zlen auth)).
  set (reply := _ ++ q ++ _) in *.
  assert (L : zlen reply = zlen (dotted ls) + 18 + zlen (bytes_of (ans ++ auth))).
  { subst reply. rewrite !zlen_app, Hlq. change (zlen (reply_head _ _ _ _)) with 12. lia. }
  rewrite L. destruct (Z.ltb_spec size (zlen (dotted ls) + 18 + zlen (bytes_of (ans ++ auth)))).
  - by rewrite (proj2 (Z.leb_gt _ size)).
  - rewrite (proj2 (Z.leb_le _ size)) by done. by exists reply.
Qed.

(** C18. A query for a name is answered from what is found for it, a list of
    answers and one of authorities, exactly when they fit: when the data of
    each record, apart from addresses, have at most 512 bytes, all records,
    with those that are only tried to see whether the name is known, at most
    2048, and the reply not more than its buffer.  The reply then has the
    query's identifier, opcode and question, is marked as a response without
    recursion, and holds exactly these records and their numbers.  Its code
    is 4 for an opcode that is not supported, and else 0, or when there are
    no answers 3 or 5; 5 is only given for names outside of the own domain
    when not acting as a proxy.  When something does not fit there is no
    result: the code stores and reads outside of its arrays, or cuts a name
    in the data of a record. *)
Theorem dns_reply_answers (env : dns_env) (size : Z) (query : list Z) (Head : Header)
  (ls : list (list Z)) (qtype qclass : Z) (st : dns_st) :
  env_ok env -> st_ok st -> is_query query Head ls qtype qclass -> H_QR (H_M Head) = 0 ->
  exists f st' ans auth tried,
    find_for env Head qtype (dotted ls) st = Some (f, st') /\ st_ok st' /\
    found_ok f ans auth tried /\
    if reply_fits size ls ans auth tried
    then exists reply RM,
      dns_reply env size query st = Some (st', H_id Head, Some reply) /\
      reply_reads ls qtype qclass reply (H_id Head) RM ans auth /\
      (H_QR RM, H_OPCODE RM, H_TC RM, H_RA RM) = (1, H_OPCODE (H_M Head), 0, 0) /\
      H_RD RM = (if RES_proxy env then H_RD (H_M Head) else 0) /\
      (2 <= H_OPCODE (H_M Head) -> H_RCODE RM = 4 /\ ans ++ auth = []) /\
      (H_OPCODE (H_M Head) < 2 -> H_RCODE RM = 0 \/ ans = [] /\
         H_RCODE RM = (if tail_of (dotted ls) (DNS_DOMAIN env) || RES_proxy env then 3 else 5))
    else dns_reply env size query st = None.
Proof.
  intros Henv Hst Hq HQR.
  destruct (find_for_ok env Henv Head qtype (dotted ls) st Hst)
    as (f & st' & ans & auth & tried & Hf & Hst' & Hok & Hu).
  exists f, st', ans, auth, tried. split_and!; [done..|].
  destruct (dns_reply_eq env size query Head ls qtype qclass st f st' ans auth tried Hq HQR Hf Hok)
    as [Hflags Hr].
  destruct (reply_fits size ls ans auth tried); [|done]. destruct Hr as (reply & Hr & Hreads).
  eexists reply, _. split_and!; [exact Hr|exact Hreads|..];
    destruct Hflags as (_ & HQ & HO & _ & HT & HRD & HRA & _ & HC); [by rewrite HQ, HO, HT, HRA|done| |].
  - intros Hop. assert (E : unsupported Head = true) by (by apply Z.leb_le). specialize (Hu E).
    split; [|done]. rewrite HC. apply app_eq_nil in Hu as [-> ->]. unfold code_of. by rewrite E.
  - intros Hop. assert (E : unsupported Head = false) by (by apply Z.leb_gt). rewrite HC.
    unfold code_of. rewrite E. cbn [negb andb]. destruct (Z.eqb_spec (zlen ans) 0) as [Hz|]; [|by left].
    cbn [negb]. destruct (f_unknown f); [right|by left].
    split; [|done]. destruct ans; [done|]. rewrite zlen_cons in Hz. pose proof (zlen_nonneg ans). lia.
Qed.

(** The record of an address. *)
Definition A_rr (env : dns_env) (ls : list (list Z)) (ht : hostent) (a : list Z) : rr :=
  Rr (dotted ls) TY_A (DNS_MINTTL env) (take (Z.to_nat (h_length ht)) a).

Lemma find_A env Head ls st ht st' : H_OPCODE (H_M Head) < 2 ->
  gethostbyNX env (dotted ls) (Some (cs "4")) (DnsSt (d_nodes st) (d_LastSOAdom st) 0) = (Some ht, st') ->
  h_addrtype ht <> AF_INET6 env -> h_addr_list ht <> [] ->
  find_for env Head TY_A (dotted ls) st =
    Some (Found (app_rrs none_rr (addr_rrs env (dotted ls) TY_A ht)) none_rr none_rr false, st').
Proof.
  intros Hop Hht Htype Hne. unfold find_for, unsupported. rewrite (proj2 (Z.leb_gt 2 _)) by done.
  unfold find_answers, answers. change (TY_A =? TY_SRV) with false.
  change (TY_A =? TY_A) with true. cbv iota. cbn [add_rrs mbind option_bind].
  unfold total, putRR_A. rewrite Hht, (proj2 (Z.eqb_neq _ _)) by done. cbn [mbind option_bind].
  set (r := app_rrs _ _).
  assert (Hn : (r_anc r =? 0) = false).
  { apply Z.eqb_neq. cbn. destruct (h_addr_list ht) as [|a l]; [done|]. rewrite zlen_cons.
    pose proof (zlen_nonneg l). lia. }
  unfold authority, name_unknown. rewrite Hn. change (TY_A =? TY_SOA) with false.
  change (TY_A =? TY_SRV) with false. cbn [orb]. by rewrite andb_false_r.
Qed.

(** A query for the address of a host that the resolver knows is
    answered with one record for each of its addresses, in order, with the
    queried name, and nothing else, when the records have at most 2048 bytes
    and the reply fits its buffer. *)
Theorem A_query_addresses (env : dns_env) (size : Z) (query : list Z) (Head : Header)
  (ls : list (list Z)) (qclass : Z) (st st' : dns_st) (ht : hostent) :
  is_query query Head ls TY_A qclass -> H_QR (H_M Head) = 0 -> H_OPCODE (H_M Head) < 2 ->
  gethostbyNX env (dotted ls) (Some (cs "4")) (DnsSt (d_nodes st) (d_LastSOAdom st) 0) = (Some ht, st') ->
  h_addrtype ht <> AF_INET6 env -> h_addr_list ht <> [] ->
  let records := map (A_rr env ls ht) (h_addr_list ht) in
  zlen (bytes_of records) <= 2048 -> zlen (dotted ls) + 18 + zlen (bytes_of records) <= size ->
  exists reply RM,
    dns_reply env size query st = Some (st', H_id Head, Some reply) /\
    reply_reads ls TY_A qclass reply (H_id Head) RM records [] /\
    H_RCODE RM = 0 /\ H_AA RM = 1.
Proof.
  intros Hq HQR Hop Hht Htype Hne records Hrr Hsize.
  pose proof (find_A env Head ls st ht st' Hop Hht Htype Hne) as Hf.
  pose proof (recs_app _ _ _ _ recs_none (addr_rrs_recs env (dotted ls) TY_A ht (or_introl eq_refl))) as Hrec.
  destruct (dns_reply_eq env size query Head ls TY_A qclass st _ st' records [] [] Hq HQR Hf)
    as [Hflags Hr]; [by split; [|apply recs_none|apply recs_none]|].
  assert (E : reply_fits size ls records [] [] = true).
  { unfold reply_fits. rewrite !app_nil_r, (proj2 (Z.leb_le _ RRbuf_size)), (proj2 (Z.leb_le _ size)) by done.
    rewrite !andb_true_r. apply forallb_forall. by intros r (a & <- & _)%in_map_iff. }
  rewrite E in Hr. destruct Hr as (reply & Hr & Hreads).
  assert (Hn : zlen records <> 0).
  { subst records. unfold zlen. rewrite length_map. by destruct (h_addr_list ht). }
  eexists reply, _. split_and!; [exact Hr|exact Hreads|..];
    destruct Hflags as (_ & _ & _ & HA & _ & _ & _ & _ & HC); rewrite ?HA, ?HC; [|done].
  unfold code_of. by rewrite (proj2 (Z.eqb_neq _ _)).
Qed.

(** ** A query of [www.example.jp] *)

Definition ex_query : list Z :=
  makeHeader 4660 0 0 0 0 1 0 0 0 1 0 0 0 ++
  putName (cs "www.example.jp") ++ putShort TY_A ++ putShort CL_IN.
Definition ex_ls : list (list Z) := [cs "www"; cs "example"; cs "jp"].
Definition ex_head : Header := MkHeader 4660 256 1 0 0 0.

Lemma ex_is_query : is_query ex_query ex_head ex_ls TY_A CL_IN.
Proof.
  split; [by apply (bool_decide_unpack _)|by vm_compute|..].
  - repeat (apply Forall_cons; split); [..|by apply Forall_nil]; (split; [simpl; lia|reflexivity]).
  - repeat (apply Forall_cons; split); [..|by apply Forall_nil];
      by rewrite <- list_elem_of_In; apply (bool_decide_unpack _).
  - done.
  - by vm_compute.
  - exists 0%nat, 28. split_and!; [unfold MAXPTR; lia| |by vm_compute|by vm_compute].
    apply (dn_label _ _ _ _ 3); [done|lia|done|]. apply (dn_label _ _ _ _ 7); [done|lia|done|].
    apply (dn_label _ _ _ _ 2); [done|lia|done|]. by apply (dn_root _ _ _ 27).
Qed.

Lemma ex_env_ok : env_ok ex_env.
Proof. by split. Qed.

Lemma dns_reply_answers_witness :
  exists f st' ans auth tried,
    find_for ex_env ex_head TY_A (cs "www.example.jp") ex_st = Some (f, st') /\
    found_ok f ans auth tried /\
    if reply_fits 2048 ex_ls ans auth tried
    then exists reply RM, dns_reply ex_env 2048 ex_query ex_st = Some (st', 4660, Some reply) /\
      reply_reads ex_ls TY_A CL_IN reply 4660 RM ans auth /\ H_RD RM = 1
    else dns_reply ex_env 2048 ex_query ex_st = None.
Proof.
  destruct (dns_reply_answers ex_env 2048 ex_query ex_head ex_ls TY_A CL_IN ex_st ex_env_ok)
    as (f & st' & ans & auth & tried & H1 & _ & H2 & H3);
    [by split; [apply Nodes0_ok|]|apply ex_is_query|done|].
  exists f, st', ans, auth, tried. split_and!; [exact H1|exact H2|].
  destruct (reply_fits 2048 ex_ls ans auth tried); [|exact H3].
  destruct H3 as (reply & RM & H & Hr & _ & Hrd & _). by exists reply, RM.
Defined.

Lemma A_query_addresses_witness :
  exists reply RM,
    dns_reply ex_env 2048 ex_query ex_st = Some (ex_st, 4660, Some reply) /\
    reply_reads ex_ls TY_A CL_IN reply 4660 RM
      [Rr (cs "www.example.jp") TY_A 5 [192; 0; 2; 1]; Rr (cs "www.example.jp") TY_A 5 [192; 0; 2; 2]] [].
Proof.
  destruct (A_query_addresses ex_env 2048 ex_query ex_head ex_ls CL_IN ex_st ex_st ex_host)
    as (reply & RM & H1 & H2 & _);
    [apply ex_is_query|done|done|by vm_compute|done|done|by vm_compute|by vm_compute|].
  by exists reply, RM.
Defined.

(** Eight addresses of a name of 253 characters are 2152 bytes: more than
    [RRbuf] has. *)
Definition long_label : list Z := repeat 97 62.
Definition long_name : list Z := dotted [long_label; long_label; long_label; long_label; [97]].
Definition long_env : dns_env :=
  DnsEnv (fun _ _ st => (Some (HostEnt long_name 2 4 (repeat [192; 0; 2; 1] 8)), st))
    (fun _ _ st => (None, st)) (fun _ _ st => st) true (fun _ => None) id id 10
    (cs "example.jp") (cs "ns.example.jp") (cs "root.example.jp") None 1 2 3 4 5 1000.
Lemma many_addresses_overflow :
  zlen long_name = 253 /\
  dns_reply long_env 2048
    (makeHeader 4660 0 0 0 0 1 0 0 0 1 0 0 0 ++ putName long_name ++ putShort TY_A ++ putShort CL_IN)
    ex_st = None.
Proof. vm_compute. done. Qed.
