(* ===== verification/DnsRelay.v ===== *)
(** * The DNS server: relaying exchangers

    A mail exchanger that a response names is kept in the tree and answered
    to the next query with its preference and its name, in front of those
    that were known before. *)
From S2P Require Import Prelude Strings DnsNode DnsMsg DnsName DnsServ DnsSpec DnsReply.
From stdpp Require Import options.

(** ** Names with few enough labels for the tree *)

Definition name_ok (ls : list (list Z)) : Prop :=
  Forall label_ok ls /\ Forall (fun l => ~ In 0 l) ls /\ ls <> [] /\
  (length ls <= MAXLEV)%nat /\ zlen (dotted ls) + 2 <= 512.

Lemma next_label_app l r : existsb (Z.eqb 46) l = false ->
  next_label (l ++ r) = match r with
                        | [] => (l, [])
                        | c :: r' => if c =? 46 then (l, r') else let '(a, b) := next_label r in (l ++ a, b)
                        end.
Proof.
  induction l as [|c l IH]; intros Hl.
  - destruct r as [|c r]; [done|]. cbn [app next_label]. destruct (c =? 46); [done|].
    by destruct (next_label r).
  - cbn [existsb] in Hl. apply orb_false_iff in Hl as [Hc Hl]. cbn [app next_label].
    rewrite Z.eqb_sym, Hc, IH by done. destruct r as [|d r]; [done|].
    destruct (d =? 46); [done|]. by destruct (next_label (d :: r)).
Qed.

Lemma split_labels_dotted ls : Forall label_ok ls -> forall n, (length ls <= n)%nat ->
  split_labels n (dotted ls) = ls.
Proof.
  induction 1 as [|l ls [Hlen Hdot] Hls IH]; intros n Hn; [by destruct n|].
  destruct n as [|n]; [simpl in Hn; lia|].
  destruct l as [|c l]; [simpl in Hlen; lia|].
  assert (E : dotted ((c :: l) :: ls) = (c :: l) ++ match ls with [] => [] | _ => 46 :: dotted ls end)
    by (destruct ls; [by rewrite app_nil_r|done]).
  rewrite E. change ((c :: l) ++ ?r) with (c :: (l ++ r)). cbn [split_labels].
  change (c :: (l ++ ?r)) with ((c :: l) ++ r). rewrite next_label_app by done.
  destruct ls as [|l2 ls]; [by destruct n|]. cbn [Z.eqb Pos.eqb].
  by rewrite IH by (simpl in Hn |- *; lia).
Qed.

Lemma labels_dotted ls : name_ok ls -> labels (dotted ls) = ls.
Proof.
  intros (Hl & _ & Hne & Hlen & _). unfold labels. rewrite split_labels_dotted by done.
  destruct ls as [|[|c l] [|l2 ls]]; try done. apply Forall_cons in Hl as [[Hx _] _].
  simpl in Hx. lia.
Qed.

Lemma lower_dotted ls : lower (dotted ls) = dotted (map lower ls).
Proof.
  induction ls as [|l ls IH]; [done|]. destruct ls as [|l2 ls]; [done|].
  rewrite dotted_cons by done. cbn [map]. rewrite (dotted_cons (lower l)) by done.
  cbn [map] in IH.
  rewrite <- IH. unfold lower. by rewrite map_app.
Qed.
Lemma key_dotted ls : name_ok ls -> dotted (key (dotted ls)) = lower (dotted ls).
Proof. intros H. unfold key. by rewrite labels_dotted, lower_dotted. Qed.

(** ** The tree *)

Lemma path_same_links t t' i ls :
  (forall j, n_label (getnode t' j) = n_label (getnode t j) /\
             n_parent (getnode t' j) = n_parent (getnode t j)) ->
  path t i ls -> path t' i ls.
Proof.
  intros H. induction 1 as [|i p ls Hp _ IH]; [constructor|]. destruct (H i) as [<- E].
  eapply path_node; [by rewrite E|done].
Qed.

Lemma getbyname_of_path t i name : tree_wf t -> path t i (key name) -> DNS_getbyname t name = i.
Proof.
  intros Hwf Hp. destruct (getbyname_path t name Hwf) as [[_ H]|[_ H]]; [by eapply path_inj|].
  by apply H in Hp.
Qed.

(** The node of a new name has no records. *)
Lemma putbyname_new t name : tree_wf t -> DNS_getbyname t name = 0%nat ->
  n_attr (getnode (DNS_putbyname t name).1 (DNS_putbyname t name).2) = [].
Proof.
  intros Hwf H0. rewrite putbyname_attr by done.
  destruct (putbyname_path t name Hwf) as (Hwf' & Hext & Hp).
  destruct (DNS_putbyname t name) as [t' i]. cbn [fst snd] in *.
  destruct (decide (length t <= i)%nat) as [Hge|Hlt]; [by rewrite getnode_none|].
  pose proof (path_range t' i _ Hwf' Hp) as Hr.
  destruct (path_total t Hwf i ltac:(lia)) as [ls Hls].
  pose proof (path_extends t t' i ls Hwf Hext Hls) as Hls'.
  rewrite (path_unique t' i _ _ Hwf' Hls' Hp) in Hls.
  apply (getbyname_of_path t i name Hwf) in Hls. rewrite H0 in Hls. subst i. lia.
Qed.

(** The mail exchangers that the tree has for a name, the newest first. *)
Definition MX_records (t : list Node) (name : list Z) : list (list Z) :=
  let i := DNS_getbyname t name in
  if Nat.eqb i 0 then []
  else map a_data (List.filter (has_flag (typemask TY_MX)) (n_attr (getnode t i))).

Lemma putbyname_records t name : tree_wf t ->
  let r := DNS_putbyname t name in
  map a_data (List.filter (has_flag (typemask TY_MX)) (n_attr (getnode r.1 r.2))) = MX_records t name.
Proof.
  intros Hwf r. subst r. unfold MX_records. destruct (getbyname_path t name Hwf) as [[Hi Hp]|[Hi _]].
  - rewrite (proj2 (Nat.eqb_neq _ 0)) by done. rewrite putbyname_attr by done.
    destruct (putbyname_path t name Hwf) as (Hwf' & Hext & Hp').
    pose proof (path_extends _ _ _ _ Hwf Hext Hp) as Hp2.
    by rewrite (path_inj _ _ _ _ Hwf' Hp' Hp2).
  - rewrite Hi. cbn [Nat.eqb]. by rewrite putbyname_new.
Qed.

(** A new record is found first. *)
Lemma putattr_getattr t i flag ttl data now now' : (i < length t)%nat -> Z.land flag flag <> 0 ->
  let old := map a_data (List.filter (has_flag flag) (n_attr (getnode t i))) in
  ~ In data old ->
  let t' := (DNS_putattr t i flag ttl data now).1 in
  (DNS_getattr t' i flag 0 8 now').2 = data :: take 7 old /\ (DNS_getattr t' i flag 0 8 now').1 = t'.
Proof.
  intros Hi Hf old Hnew. unfold DNS_putattr.
  assert (E : has_flag flag (MkAttr flag now ttl data) = true).
  { unfold has_flag. cbn [a_flag]. by rewrite (proj2 (Z.eqb_neq _ _)). }
  destruct (existsb (same_attr flag data) _) eqn:Es.
  { destruct Hnew. apply existsb_exists in Es as (a & Ha & Hs). unfold same_attr in Hs.
    apply andb_true_iff in Hs as [E1%Z.eqb_eq E2%bool_decide_eq_true]. rewrite <- E2.
    apply in_map, filter_In. split; [done|]. unfold has_flag. rewrite <- E1.
    by rewrite (proj2 (Z.eqb_neq _ _)). }
  cbn [fst]. split; [|done]. unfold DNS_getattr. change (expireattr ?t _ _ 0 _) with t. cbn [snd].
  rewrite getnode_insert, decide_True by done. cbn [put_attrs n_attr List.filter]. by rewrite E.
Qed.

(** ** Reading the record *)

(** An [MX] record of the name [ls] at [p] of the message: the exchanger [ms]
    with the preference [pri]; both names may be compressed. *)
Record is_mx (m : list Z) (p : Z) (ls : list (list Z)) (ttl pri : Z) (ms : list (list Z)) (next : Z)
  : Prop := IsMx {
  im_owner : exists d e rdlength, (d < MAXPTR)%nat /\ dname m d p p ls e /\
    getShort m e = Some (TY_MX, e + 2) /\ getShort m (e + 2) = Some (CL_IN, e + 2 + 2) /\
    getLong m (e + 2 + 2) = Some (ttl, e + 2 + 2 + 4) /\
    getShort m (e + 2 + 2 + 4) = Some (rdlength, e + 2 + 2 + 4 + 2) /\
    getShort m (e + 2 + 2 + 4 + 2) = Some (pri, e + 2 + 2 + 4 + 2 + 2) /\
    next = e + 2 + 2 + 4 + 2 + rdlength /\
    exists d' e', (d' < MAXPTR)%nat /\
      dname m d' (e + 2 + 2 + 4 + 2 + 2) (e + 2 + 2 + 4 + 2 + 2) ms e'
}.

Lemma getShort_bytes m p v q : bytes_ok m -> getShort m p = Some (v, q) -> 0 <= p ->
  getBytes m p 2 = Some (putShort v) /\ 0 <= v < 2 ^ 16.
Proof.
  intros Hb Hg Hp. split; [|by eapply getShort_range].
  destruct (getShort_inv _ _ _ _ Hb Hg) as (a & b & Ea & Eb & Ha & Hb' & ->).
  unfold uc in *. destruct (Z.ltb_spec p 0); [lia|]. destruct (Z.ltb_spec (p + 1) 0); [lia|].
  unfold getBytes. destruct (Z.ltb_spec p 0); [lia|]. cbn [orb].
  replace (Z.to_nat (p + 1)) with (S (Z.to_nat p)) in Eb by lia.
  pose proof (lookup_lt_Some _ _ _ Eb) as Hl. unfold zlen.
  destruct (Z.ltb_spec (Z.of_nat (length m)) (p + 2)); [lia|]. f_equal.
  change (Z.to_nat 2) with 2%nat. rewrite (drop_S _ _ _ Ea), (drop_S _ _ _ Eb). cbn [take].
  unfold putShort, uchar. rewrite Z.shiftr_div_pow2 by lia. change (2 ^ 8) with 256 in *.
  rewrite Z.div_add_l, (Z.div_small b), Z.add_0_r, (Z.mod_small a) by lia.
  by rewrite Z.add_comm, Z.mod_add, (Z.mod_small b) by lia.
Qed.

(** The data of an exchanger in the tree. *)
Definition mx_data (n : nat) (pri : Z) : list Z :=
  TY_MX :: CL_IN :: putLongVStr (Z.of_nat n) ++ putShort pri.

(** What is put into the tree. *)
Lemma dump_mx env m size p ls ttl pri ms next st :
  bytes_ok m -> is_mx m p ls ttl pri ms next -> p < size -> name_ok ls -> name_ok ms ->
  let r1 := DNS_putbyname (d_nodes st) (dotted ls) in
  let r2 := DNS_putbyname r1.1 (dotted ms) in
  0 <= pri < 2 ^ 16 /\
  dumpResourceRecord env m size p true st =
    Some (DnsSt (DNS_putattr r2.1 r1.2 (typemask TY_MX) ttl (mx_data r2.2 pri) (dns_now env)).1
            (d_LastSOAdom st) (RES_CACHED_UNKNOWN st), Some next).
Proof.
  intros Hb [(d & e & rdl & Hd & Hname & H1 & H2 & H3 & H4 & H5 & -> & d' & e' & Hd' & Hex)] Hp Hls Hms r1 r2.
  assert (Hnul : forall ls, name_ok ls -> cstr (dotted ls) = dotted ls).
  { intros l (_ & Hn & _). by apply cstr_nonul, dotted_nonul. }
  assert (0 <= e) by (unfold getShort, uc in H1; destruct (Z.ltb_spec e 0); [done|lia]).
  destruct (getShort_bytes m _ _ _ Hb H5) as [Hpref Hpri]; [lia|]. split; [done|].
  unfold dumpResourceRecord. destruct (Z.leb_spec size p); [lia|].
  rewrite (scanName_dname _ _ _ 512 _ _ Hname Hd) by apply Hls. cbn [mbind option_bind].
  rewrite Hnul by done. change (DNS_putbyname (d_nodes st) (dotted ls)) with r1.
  destruct r1 as [t1 nid] eqn:E1. rewrite H1. cbn [mbind option_bind]. rewrite H2.
  cbn [mbind option_bind]. rewrite H3. cbn [mbind option_bind]. rewrite H4.
  cbn [mbind option_bind]. change (negb (TY_MX =? TY_AAAA) && _) with false. cbv iota.
  change (TY_MX =? TY_SOA) with false. cbv iota. cbn [fst snd] in *.
  set (mp := e + 2 + 2 + 4 + 2) in *.
  assert (Hdata : forall put, rr_data env m mp TY_MX put t1 =
    Some (put r2.1 (putLongVStr (Z.of_nat r2.2) ++ putShort pri))).
  { intros put. change (rr_name m mp TY_MX put t1 =
      Some (put r2.1 (putLongVStr (Z.of_nat r2.2) ++ putShort pri))).
    unfold rr_name. change (TY_MX =? TY_MX) with true. cbv iota.
    rewrite (scanName_dname _ _ _ 512 _ _ Hex Hd') by apply Hms. cbn [mbind option_bind].
    rewrite Hnul by done. rewrite bool_decide_false.
    2: { intros E. pose proof (labels_dotted ms Hms) as Hl. rewrite E in Hl.
         destruct Hms as (_ & _ & Hne & _). by destruct Hne. }
    change (DNS_putbyname t1 (dotted ms)) with r2. destruct r2 as [t2 rnid]. cbn [fst snd].
    by rewrite Hpref. }
  rewrite Hdata. reflexivity.
Qed.

(** ** The record out *)

Lemma take_label_len n np : zlen (take_label n np).1 + zlen (take_label n np).2 = zlen np.
Proof.
  revert np. induction n as [|n IH]; intros [|c np]; [done..|].
  cbn [take_label]. destruct (c =? 46); [cbn [fst snd]; rewrite zlen_nil; lia|].
  specialize (IH np). destruct (take_label n np) as [l r]. cbn [fst snd] in *.
  rewrite !zlen_cons. lia.
Qed.
Lemma putName_len name : zlen (putName name) <= zlen name + 2.
Proof.
  unfold putName. rewrite zlen_app. change (zlen [0]) with 1.
  enough (H : forall fuel np, zlen (putName_loop fuel np) <= zlen np + 1)
    by (specialize (H (length name) name); lia).
  induction fuel as [|fuel IH]; intros np; pose proof (zlen_nonneg np); cbn [putName_loop];
    [rewrite zlen_nil; lia|]. destruct np as [|c np]; [rewrite zlen_nil; lia|].
  destruct (c =? 46); [rewrite zlen_nil; lia|].
  pose proof (take_label_len 63 (c :: np)) as Hl. destruct (take_label 63 (c :: np)) as [l r].
  cbn [fst snd] in Hl. rewrite zlen_cons, zlen_app.
  destruct r as [|x r]; [rewrite zlen_nil in *; lia|]. rewrite zlen_cons in Hl. specialize (IH r). lia.
Qed.

(** The record of an exchanger whose node has the path [key]. *)
Lemma relay_rr_mx env t name rnid pri ms : tree_wf t -> Z.of_nat (length t) < 2 ^ 31 ->
  0 <= pri < 2 ^ 16 -> name_ok ms -> zlen (dotted ms) <= 508 -> path t rnid (key (dotted ms)) ->
  exists s, lower s = lower (dotted ms) /\
    relay_rr env t name TY_MX (mx_data rnid pri) =
      Some (Rrs 1 (putRR name TY_MX (DNS_MINTTL env) (putShort pri ++ putName s)) true).
Proof.
  intros Hwf Hsmall Hpri Hms Hlen Hp. pose proof (path_range t rnid _ Hwf Hp) as Hr.
  destruct (nodename_path t rnid _ Hwf Hp) as (s & Hs & Hl).
  { unfold key. rewrite labels_dotted by done. destruct Hms as (_ & _ & Hne & _). by destruct ms. }
  assert (Hlow : lower s = lower (dotted ms)) by (by rewrite Hl, key_dotted).
  exists s. split; [done|].
  set (d := mx_data rnid pri). unfold relay_rr.
  change (uc d 0) with (Some TY_MX). cbn [mbind option_bind].
  change (schar TY_MX) with TY_MX. change (TY_MX =? TY_MX) with true.
  change (TY_MX =? TY_SOA) with false. cbn [negb].
  pose proof (getLong_put [TY_MX; CL_IN] (Z.of_nat rnid) (putShort pri) ltac:(lia)) as HL.
  change (getLong d 2 = Some (Z.of_nat rnid, 6)) in HL. rewrite HL. cbn [mbind option_bind].
  pose proof (getShort_put (TY_MX :: CL_IN :: putLongVStr (Z.of_nat rnid)) pri [] Hpri) as HS.
  rewrite app_nil_r in HS. change (getShort d 6 = Some (pri, 8)) in HS. rewrite HS.
  cbn [mbind option_bind]. unfold nodename_of. rewrite (proj2 (Z.ltb_ge _ _)) by lia.
  rewrite Nat2Z.id, Hs. cbn [mbind option_bind]. unfold rbuff_rr.
  rewrite (proj2 (Z.leb_le _ rbuff_size)); [done|]. rewrite zlen_app. pose proof (putName_len s).
  change (zlen (putShort pri)) with 2. unfold rbuff_size.
  assert (zlen s = zlen (dotted ms)) by (apply (f_equal length) in Hlow; unfold lower in Hlow;
    rewrite !length_map in Hlow; unfold zlen; lia). lia.
Qed.

Lemma put_mx_ok t i n ttl pri now : tree_ok t -> (n < length t)%nat ->
  let t' := (DNS_putattr t i (typemask TY_MX) ttl (mx_data n pri) now).1 in
  tree_ok t' /\ length t' = length t /\ (forall j ls, path t j ls -> path t' j ls).
Proof.
  intros Ht Hn t'. destruct (putattr_ok t i (typemask TY_MX) ttl (mx_data n pri) now Ht) as [H1 H2].
  { cbn [rec_wf mx_data]. split_and!; [done| |done]. intros _. by exists n, (putShort pri). }
  split_and!; [done|done|]. intros j ls. apply path_same_links. intros k. subst t'. unfold DNS_putattr.
  destruct (existsb _ _); [done|]. cbn [fst]. rewrite getnode_insert.
  by destruct (decide _) as [[<- _]|].
Qed.

(** C19. A mail exchanger that a response names is relayed: when the record
    is read, wherever it is in the message and with names compressed or not,
    the tree has the exchanger, and what is then answered from the tree for
    the name begins with a record that has the preference and the exchanger
    of the response, if the tree did not have this record already.  The
    records that follow are those of at most seven of the exchangers that
    the tree had for the name, the newest first.  The names have at most 36
    labels and the exchanger's at most 508 characters, which is what the
    buffer for the data of a record takes, and the tree less than [2 ^ 31]
    nodes, whose numbers the records hold. *)
Theorem MX_relayed (env : dns_env) (m : list Z) (size p : Z) (ls ms : list (list Z))
  (ttl pri next : Z) (st : dns_st) :
  bytes_ok m -> is_mx m p ls ttl pri ms next -> p < size ->
  name_ok ls -> name_ok ms -> zlen (dotted ms) <= 508 -> tree_ok (d_nodes st) ->
  let old := MX_records (d_nodes st) (dotted ls) in
  let n := (DNS_putbyname (DNS_putbyname (d_nodes st) (dotted ls)).1 (dotted ms)).2 in
  ~ In (mx_data n pri) old ->
  exists st',
    dumpResourceRecord env m size p true st = Some (st', Some next) /\ tree_ok (d_nodes st') /\
    (Z.of_nat (length (d_nodes st')) < 2 ^ 31 ->
     exists s earlier, lower s = lower (dotted ms) /\
       relay_loop env (d_nodes st') (dotted ls) TY_MX (take 7 old) = Some earlier /\
       relay_cachedRR env (dotted ls) TY_MX st' =
         Some (app_rrs (Rrs 1 (putRR (dotted ls) TY_MX (DNS_MINTTL env) (putShort pri ++ putName s)) true)
                 earlier, st')).
Proof.
  intros Hb Hmx Hp Hls Hms H508 Ht old n Hnew.
  destruct (dump_mx env m size p ls ttl pri ms next st Hb Hmx Hp Hls Hms) as [Hpri Hd].
  eexists. split; [exact Hd|]. cbn [d_nodes]. clear Hd.
  pose proof (putbyname_ok _ (dotted ls) Ht) as (Ht1 & _ & Hn1 & _).
  pose proof (putbyname_records _ (dotted ls) (ok_tree _ Ht)) as Hold. fold old in Hold.
  destruct (putbyname_path _ (dotted ls) (ok_tree _ Ht)) as (_ & _ & Hp1).
  subst n. destruct (DNS_putbyname (d_nodes st) (dotted ls)) as [t1 nid]. cbn [fst snd] in *.
  pose proof (putbyname_attr t1 (dotted ms) nid (ok_tree _ Ht1)) as Hattr.
  pose proof (putbyname_ok _ (dotted ms) Ht1) as (Ht2 & _ & Hn2 & _).
  destruct (putbyname_path _ (dotted ms) (ok_tree _ Ht1)) as (Hwf2 & Hext & Hp2).
  destruct (DNS_putbyname t1 (dotted ms)) as [t2 rnid]. cbn [fst snd] in *.
  pose proof (path_extends t1 t2 nid _ (ok_tree _ Ht1) Hext Hp1) as Hp12.
  pose proof (path_range t2 nid _ Hwf2 Hp12) as Hr. rewrite <- Hattr in Hold. clear Hattr.
  rewrite <- Hold in Hnew.
  destruct (putattr_getattr t2 nid (typemask TY_MX) ttl (mx_data rnid pri) (dns_now env) (dns_now env)
    ltac:(lia) ltac:(done) Hnew) as [Hget Ht3].
  destruct (put_mx_ok t2 nid rnid ttl pri (dns_now env) Ht2 ltac:(lia)) as (Hok3 & Hl3 & Hpath).
  set (t3 := (DNS_putattr t2 nid _ _ _ _).1) in *. split; [done|]. intros Hsmall.
  destruct (relay_rr_mx env t3 (dotted ls) rnid pri ms (ok_tree _ Hok3) Hsmall Hpri Hms H508 (Hpath _ _ Hp2))
    as (s & Hs & Hrr).
  pose proof (getattr_ok t3 nid (typemask TY_MX) 0 8 (dns_now env) Hok3) as (_ & _ & Hav).
  rewrite Hget, Hold in Hav. apply Forall_cons in Hav as [_ Hav].
  destruct (relay_loop_ok env t3 (dotted ls) TY_MX _ Hok3 Hsmall Hav (or_introl eq_refl)) as (earlier & Hre & _).
  exists s, earlier. split_and!; [done|done|]. unfold relay_cachedRR. cbn [d_nodes].
  rewrite (getbyname_of_path t3 nid _ (ok_tree _ Hok3) (Hpath _ _ Hp12)).
  rewrite (proj2 (Nat.eqb_neq nid 0)) by lia.
  destruct (DNS_getattr t3 nid (typemask TY_MX) 0 8 (dns_now env)) as [t4 av]. cbn [fst snd] in *.
  subst av t4. rewrite Hold. cbn [relay_loop]. rewrite Hrr. cbn [mbind option_bind]. by rewrite Hre.
Qed.

#[export] Instance name_ok_dec ls : Decision (name_ok ls).
Proof.
  unfold name_ok, label_ok.
  assert (forall l : list Z, Decision (~ In 0 l)) by (intros l; apply not_dec, in_dec, Z.eq_dec).
  apply _.
Defined.

(** A message with the record of [example.org] whose exchanger [Mail] is
    written with a pointer to the name, for a tree that knows the name. *)
Definition ex_mx : list Z :=
  0 :: 0 :: putName (cs "example.org") ++ putShort TY_MX ++ putShort CL_IN ++ putLong 3600 ++
  putShort 9 ++ putShort 10 ++ 4 :: cs "Mail" ++ [192; 2].
Definition ex_mx_ls : list (list Z) := [cs "example"; cs "org"].
Definition ex_mx_ms : list (list Z) := [cs "Mail"; cs "example"; cs "org"].
Definition ex_mx_st : dns_st := DnsSt (DNS_putbyname Nodes0 (cs "example.org")).1 [] 0.
Lemma ex_is_mx : is_mx ex_mx 2 ex_mx_ls 3600 10 ex_mx_ms 34.
Proof.
  split. exists 0%nat, 15, 9. split_and!; [unfold MAXPTR; lia| |by vm_compute..|].
  - apply (dn_label _ _ _ _ 7); [done|lia|done|]. apply (dn_label _ _ _ _ 3); [done|lia|done|].
    by apply (dn_root _ _ _ 14).
  - exists 1%nat, 34. split; [unfold MAXPTR; lia|]. apply (dn_label _ _ _ _ 4); [done|lia|done|].
    apply (dn_ptr _ 0 27 32 192 2 2 ex_mx_ls 15); try done.
    apply (dn_label _ _ _ _ 7); [done|lia|done|]. apply (dn_label _ _ _ _ 3); [done|lia|done|].
    by apply (dn_root _ _ _ 14).
Qed.

Lemma MX_relayed_witness :
  exists st',
    dumpResourceRecord ex_env ex_mx 34 2 true ex_mx_st = Some (st', Some 34) /\ tree_ok (d_nodes st') /\
    (Z.of_nat (length (d_nodes st')) < 2 ^ 31 ->
     exists s earlier, lower s = cs "mail.example.org" /\
       relay_loop ex_env (d_nodes st') (cs "example.org") TY_MX [] = Some earlier /\
       relay_cachedRR ex_env (cs "example.org") TY_MX st' =
         Some (app_rrs (Rrs 1 (putRR (cs "example.org") TY_MX 5 (putShort 10 ++ putName s)) true) earlier, st')).
Proof.
  apply (MX_relayed ex_env ex_mx 34 2 ex_mx_ls ex_mx_ms 3600 10 34 ex_mx_st);
    [by apply (bool_decide_unpack _)|apply ex_is_mx|lia|by apply (bool_decide_unpack _)..
    |by vm_compute|apply (putbyname_ok Nodes0 (cs "example.org") Nodes0_ok)|by vm_compute].
Defined.
