(* ===== verification/Vsa.v ===== *)
(** * Socket addresses ([rary/vsaddr.cpp])

    [VSAddr] is the memory of a [sockaddr_in], a [sockaddr_in6] or a
    [sockaddr_un], which lie over each other.  [vsaddr] has its parts by
    their offset: the family, the port at 2, the word at 4 ([sin_addr] of
    IPv4, [sin6_flowinfo] of IPv6), the 16 bytes at 8 ([sin6_addr]), the
    scope at 24 and what is behind.  Addresses are lists of bytes in network
    order, a port is the value of [ntohs].

    [inet_aton], [inet_addr] and [inet_ntoa] of the C library are
    definitions; its functions on IPv6 addresses are the class [libc6].  The
    machine is little endian with 32-bit [int]s. *)
From S2P Require Import Prelude VStr Strings.
From stdpp Require Import options.

Definition AF_UNIX : Z := 1.
Definition AF_INET : Z := 2.
Definition AF_INET6 : Z := 10.
Definition sizeof_SIN : Z := 16.
Definition sizeof_SIN6 : Z := 28.
Definition sizeof_SUN : Z := 110.
Definition MaxHostNameLen : Z := 256.
Definition IPV6_ADDRLENG : Z := 20.

Record vsaddr := VSA {
  sa_family : Z;
  sa_port : Z;
  sa_w1 : list Z;
  sa_a6 : list Z;
  sa_scope : Z;
  sa_rest : list Z
}.

(** An address of zeros; [bzero] of the three sizes. *)
Definition vsa0 : vsaddr := VSA 0 0 (repeat 0 4) (repeat 0 16) 0 [].
Definition bzero_SIN (sa : vsaddr) : vsaddr :=
  VSA 0 0 (repeat 0 4) (repeat 0 8 ++ drop 8 (sa_a6 sa)) (sa_scope sa) (sa_rest sa).
Definition bzero_SIN6 (sa : vsaddr) : vsaddr :=
  VSA 0 0 (repeat 0 4) (repeat 0 16) 0 (sa_rest sa).

Definition set_family (sa : vsaddr) (f : Z) : vsaddr :=
  VSA f (sa_port sa) (sa_w1 sa) (sa_a6 sa) (sa_scope sa) (sa_rest sa).
Definition set_port (sa : vsaddr) (p : Z) : vsaddr :=
  VSA (sa_family sa) (p mod 65536) (sa_w1 sa) (sa_a6 sa) (sa_scope sa) (sa_rest sa).
Definition set_w1 (sa : vsaddr) (b : list Z) : vsaddr :=
  VSA (sa_family sa) (sa_port sa) b (sa_a6 sa) (sa_scope sa) (sa_rest sa).
Definition set_a6 (sa : vsaddr) (b : list Z) : vsaddr :=
  VSA (sa_family sa) (sa_port sa) (sa_w1 sa) b (sa_scope sa) (sa_rest sa).
Definition set_scope (sa : vsaddr) (i : Z) : vsaddr :=
  VSA (sa_family sa) (sa_port sa) (sa_w1 sa) (sa_a6 sa) (u32 i) (sa_rest sa).

(** Numbers in network order. *)
Fixpoint be_value (b : list Z) (acc : Z) : Z :=
  match b with [] => acc | x :: b' => be_value b' (acc * 256 + x) end.
Fixpoint be_bytes (n : nat) (v : Z) : list Z :=
  match n with O => [] | S n' => (v / 256 ^ Z.of_nat n') mod 256 :: be_bytes n' v end.
Definition btos (b : list Z) : Z := be_value (take 2 b) 0.
Definition stob (p : Z) : list Z := [uchar (Z.shiftr p 8); uchar p].
(** An [int] of memory, little endian. *)
Definition le_value (b : list Z) : Z := be_value (rev b) 0.

(** [sun_path], from the port on. *)
Definition mem2 (sa : vsaddr) : list Z :=
  be_bytes 2 (sa_port sa) ++ sa_w1 sa ++ sa_a6 sa ++ rev (be_bytes 4 (sa_scope sa)) ++ sa_rest sa.
Definition set_mem2 (sa : vsaddr) (m : list Z) : vsaddr :=
  VSA (sa_family sa) (be_value (take 2 m) 0) (take 4 (drop 2 m)) (take 16 (drop 6 m))
    (le_value (take 4 (drop 22 m))) (drop 26 m).
Definition sun_path (sa : vsaddr) : list Z := cstr (mem2 sa).

(** ** The C library *)

(** [strtoul(s,&e,0)] of a text that begins with a digit. *)
Fixpoint base_value (base : Z) (acc : Z) (s : list Z) : Z * list Z :=
  match s with
  | c :: s' =>
      if isxdigit c && (hexval c <? base)
      then base_value base (acc * base + hexval c) s' else (acc, s)
  | [] => (acc, [])
  end.
Definition strtoul0 (s : list Z) : Z * list Z :=
  if cat s 0 =? 48
  then if ((cat s 1 =? 120) || (cat s 1 =? 88)) && isxdigit (cat s 2)
       then base_value 16 0 (drop 2 s) else base_value 8 0 s
  else base_value 10 0 s.

(** [inet_aton]: up to four numbers, the last one for the bytes that are
    left; white space may follow.  [n] is one less than these bytes. *)
Fixpoint inet_aton_loop (n : nat) (acc : list Z) (cp : list Z) : option (list Z) :=
  if negb (isdigit (cat cp 0)) then None
  else
    let '(val, e) := strtoul0 cp in
    if 2 ^ 32 <=? val then None
    else if cat e 0 =? 46
    then match n with
         | O => None
         | S n' => if 255 <? val then None else inet_aton_loop n' (acc ++ [val]) (tl e)
         end
    else if negb (cat e 0 =? 0) && negb (isspace (cat e 0)) then None
    else if 256 ^ (Z.of_nat n + 1) <=? val then None
    else Some (acc ++ be_bytes (S n) val).
Definition inet_aton (cp : list Z) : option (list Z) := inet_aton_loop 3 [] cp.
Definition INADDR_None : list Z := [255; 255; 255; 255].
Definition inet_addr (cp : list Z) : list Z := default INADDR_None (inet_aton cp).
Definition inet_ntoa (b : list Z) : list Z := fmt_4d (cat b 0) (cat b 1) (cat b 2) (cat b 3).

(** What the program asks the C library about IPv6, and its option
    [IPV6_unify4mapped].  [getaddrinfo] gives the address and its length. *)
Class libc6 := {
  inet_pton6 : list Z -> option (list Z);
  inet_ntop6 : list Z -> option (list Z);
  getaddrinfo : list Z -> option (vsaddr * Z);
  IPV6_unify4mapped : bool
}.

(** ** Texts of addresses *)

Definition isNum (c : Z) : bool := (48 <=? c) && (c <=? 57).
Definition isHex (c : Z) : bool := (65 <=? c) && (c <=? 70) || (97 <=? c) && (c <=? 102).

(** [strcanbeHostaddr]: the counts of dots and colons. *)
Fixpoint strcanbeHostaddr_loop (af : Z) (nd nc : Z) (ap : list Z) : bool :=
  match ap with
  | [] => negb ((nd =? 0) && (nc =? 0) || (0 <? nd) && negb (nd =? 3) || (0 <? nc) && (nc <? 2))
  | ac :: ap' =>
      let nac := cat ap' 0 in
      if isNum ac then strcanbeHostaddr_loop af nd nc ap'
      else if (ac =? 46) && isNum nac then strcanbeHostaddr_loop af (nd + 1) nc ap'
      else if af =? AF_INET6 then
        if isHex ac then strcanbeHostaddr_loop af nd nc ap'
        else if ((ac =? 95) || (ac =? 58)) &&
                ((nac =? 95) || (nac =? 58) || (nac =? 0) || isHex nac || isNum nac)
        then strcanbeHostaddr_loop af nd (nc + 1) ap'
        else if (2 <=? nc) && (ac =? 37) then strcanbeHostaddr_loop af nd nc ap'
        else false
      else false
  end.
Definition strcanbeHostaddr (af : Z) (addr : list Z) : bool := strcanbeHostaddr_loop af 0 0 addr.

(** [_toc]: the form [xxx.ipv6] with [-], or [_] up to a [%], to colons. *)
Fixpoint toc_under (s : list Z) : list Z :=
  match s with
  | c :: s' => if c =? 37 then s else (if c =? 95 then 58 else c) :: toc_under s'
  | [] => []
  end.
Definition toc (src : list Z) : list Z :=
  let dst := take 255 src in
  match strtailstr dst (cs ".ipv6") with
  | Some r => map (fun c => if c =? 45 then 58 else c) (take (length dst - 5) dst)
  | None => toc_under dst
  end.

Section text.
Context `{libc6}.

Definition xinet_pton (af : Z) (src : list Z) : option (list Z) :=
  if strcanbeHostaddr af src then inet_pton6 (toc src) else None.

Definition xgetaddrinfo (addr : list Z) : option (vsaddr * Z) := getaddrinfo (toc addr).

Definition VSA_strisaddr (addr : list Z) : Z :=
  match addr with
  | [] => 0
  | _ =>
      if 128 <=? zlen addr then 0
      else match inet_aton addr with
      | Some _ => 1
      | None =>
          let iaddr := if strchr addr 37
                       then v_str (v_at (fst (wordscanY addr (vnew 256) 256 (Some (cs "^%")))) 0)
                       else addr in
          match xinet_pton AF_INET6 iaddr with Some _ => AF_INET6 | None => 0 end
      end
  end.

Definition isinetAddr (saddr : list Z) : Z :=
  if negb (bool_decide (inet_addr saddr = INADDR_None)) then 4
  else if VSA_strisaddr saddr =? AF_INET6 then AF_INET6 else 0.

(** [VSA_ntoaX] of an IPv6 address: the loopback and the unspecified address
    and netmasks by hand, the others by the C library; [_] for colons. *)
Definition hbuf6 (bp : list Z) : option (list Z) :=
  if bool_decide (take 15 bp = repeat 0 15) && (cat bp 15 <=? 1)
  then Some (if cat bp 15 =? 0 then cs "::" else cs "::" ++ fmt_d (cat bp 15))
  else if bool_decide (take 14 bp = repeat 255 14)
  then Some (cs "FFFF:FFFF:FFFF:FFFF:FFFF:FFFF:FFFF:" ++
             map hexUpper [cat bp 14 / 16; cat bp 14 mod 16; cat bp 15 / 16; cat bp 15 mod 16])
  else inet_ntop6 bp.

(** The test for IPv4-mapped addresses compares the word of memory. *)
Definition is4mapped (a6 : list Z) : bool :=
  (le_value (take 4 a6) =? 0) && (le_value (take 4 (drop 4 a6)) =? 0)
  && (le_value (take 4 (drop 8 a6)) =? 65535).

Definition VSA_afunixaddr : list Z := cs "127.0.0.127".
Definition VSA_afunixport : Z := 65535.

Definition VSA_ntoa (sap : vsaddr) : list Z :=
  if sa_family sap =? AF_UNIX
  then match sun_path sap with [] => VSA_afunixaddr | p => p end
  else if sa_family sap =? AF_INET6 then
    if IPV6_unify4mapped && is4mapped (sa_a6 sap) then inet_ntoa (drop 12 (sa_a6 sap))
    else match hbuf6 (sa_a6 sap) with
    | Some h =>
        let h := map (fun c => if c =? 58 then 95 else c) h in
        let id := s32 (sa_scope sap) in
        take 63 (if negb (id =? 0) && negb (strchr h 37) then h ++ 37 :: fmt_d id else h)
    | None => cs ":::::::"
    end
  else inet_ntoa (sa_w1 sap).

Definition VSA_port (sap : vsaddr) : Z :=
  if sa_family sap =? AF_UNIX then VSA_afunixport else sa_port sap.

(** A copy of [len] bytes over memory; [Xbcopy] into the 4 bytes of
    [sin_addr] copies all or nothing. *)
Definition overlay (b m : list Z) : list Z := take (length m) (b ++ drop (length b) m).

Definition VSA_ltoa (baddr : list Z) (len type : Z) : list Z :=
  let sa := set_family vsa0 type in
  let b := take (Z.to_nat len) baddr in
  if type =? AF_INET6
  then VSA_ntoa (if (len <? 0) || (IPV6_ADDRLENG <? len) then sa
                 else set_scope (set_a6 sa (overlay b (sa_a6 sa)))
                        (le_value (overlay (drop 16 b) (repeat 0 4))))
  else VSA_ntoa (if (len <? 0) || (4 <? len) then sa else set_w1 sa (overlay b (sa_w1 sa))).

Definition VSA_xtoap (sa : vsaddr) : list Z := VSA_ntoa sa ++ 58 :: fmt_d (VSA_port sa).

End text.

(** ** The parts of an address *)

Definition VSA_addrisANY (sap : vsaddr) : bool :=
  if sa_family sap =? AF_INET6 then bool_decide (sa_a6 sap = repeat 0 16)
  else bool_decide (sa_w1 sap = repeat 0 4).

(** [ntohl] of an [int], which is signed. *)
Definition VSA_addr (sap : vsaddr) : Z :=
  if sa_family sap =? AF_UNIX then le_value (inet_addr VSA_afunixaddr)
  else if sa_family sap =? AF_INET6 then s32 (be_value (drop 12 (sa_a6 sap)) 0)
  else s32 (be_value (sa_w1 sap) 0).

Definition VSA_af (sap : vsaddr) : Z := sa_family sap.
Definition VSA_isaddr (sap : vsaddr) : bool :=
  if sa_family sap =? AF_INET then negb (bool_decide (sa_w1 sap = INADDR_None))
  else sa_family sap =? AF_INET6.
Definition VSA_size (sap : vsaddr) : Z :=
  if sa_family sap =? AF_INET6 then sizeof_SIN6 else sizeof_SIN.

(** [VSA_decomp]: the bytes of the address, the family, the bytes of the
    port and the length. *)
Definition VSA_decomp (sap : vsaddr) : list Z * Z * list Z * Z :=
  if sa_family sap =? AF_INET6
  then (sa_a6 sap, sa_family sap, stob (sa_port sap), 16)
  else (sa_w1 sap, sa_family sap, stob (sa_port sap), 4).

(** [VSA_stosa]: from the bytes of a SOCKS message, address and port. *)
Definition VSA_stosa (sap : vsaddr) (atype : Z) (socks : list Z) : vsaddr * Z :=
  (if atype =? AF_INET6
   then set_port (set_a6 (set_family (bzero_SIN6 sap) atype) (take 16 socks)) (btos (drop 16 socks))
   else set_port (set_w1 (set_family (bzero_SIN sap) atype) (take 4 socks)) (btos (drop 4 socks)),
   sizeof_SIN).

Definition VSA_btosa (sap : vsaddr) (atype : Z) (baddr : list Z) (port : Z) : vsaddr * Z :=
  let sip := bzero_SIN sap in
  (if atype =? AF_INET6
   then set_port (set_a6 (set_family sip atype) (take 16 baddr)) port
   else set_port (set_w1 (set_family sip atype) (take 4 baddr)) port,
   sizeof_SIN).

Definition VSA_setport (sap : vsaddr) (port : Z) : vsaddr :=
  if sa_family sap =? AF_UNIX then sap else set_port sap port.

Definition VSA_zero (sap : vsaddr) : vsaddr :=
  if sa_family sap =? AF_INET6 then bzero_SIN6 sap else bzero_SIN sap.
Definition VSA_addrcopy (dst src : vsaddr) : vsaddr :=
  if sa_family src =? AF_INET6 then set_a6 dst (sa_a6 src) else set_w1 dst (sa_w1 src).
Definition VSA_copy (dst src : vsaddr) : vsaddr :=
  if sa_family src =? AF_INET6
  then VSA (sa_family src) (sa_port src) (sa_w1 src) (sa_a6 src) (sa_scope src) (sa_rest dst)
  else VSA (sa_family src) (sa_port src) (sa_w1 src)
         (take 8 (sa_a6 src) ++ drop 8 (sa_a6 dst)) (sa_scope dst) (sa_rest dst).

(** ** Comparison *)

Definition VSA_comp (sa1 sa2 : vsaddr) : Z :=
  if negb (sa_family sa1 =? sa_family sa2) then 1
  else if negb (sa_port sa1 =? sa_port sa2) then 2
  else if negb (bool_decide (sa_w1 sa1 = sa_w1 sa2)) then 3
  else 0.
Definition VSA_netcomp (sa1 sa2 : vsaddr) : Z :=
  if negb (sa_family sa1 =? sa_family sa2) then 1
  else if sa_family sa1 =? AF_INET
  then if Z.land 4294967040 (be_value (sa_w1 sa1) 0) =? Z.land 4294967040 (be_value (sa_w1 sa2) 0)
       then 0 else 2
  else -1.
Definition VSA_addrcomp (sa1 sa2 : vsaddr) : Z :=
  if negb (sa_family sa1 =? sa_family sa2) then 1
  else if sa_family sa1 =? AF_INET
  then if bool_decide (sa_w1 sa1 = sa_w1 sa2) then 0 else 3
  else if sa_family sa1 =? AF_INET6
  then if bool_decide (sa_a6 sa1 = sa_a6 sa2) then 0 else 4
  else -1.

(** These two test words of memory too. *)
Definition VSA_islocal (vsa : vsaddr) : bool :=
  if sa_family vsa =? AF_INET6 then
    let ip i := le_value (take 4 (drop i (sa_a6 vsa))) in
    (ip 0%nat =? 0) && (ip 4%nat =? 0) && (ip 8%nat =? 0) && (ip 12%nat =? 1)
    || is4mapped (sa_a6 vsa) && (ip 12%nat =? 2130706433)
  else be_value (sa_w1 vsa) 0 =? 2130706433.
Definition VSA_6to4 (vsa : vsaddr) : vsaddr * bool :=
  if (sa_family vsa =? AF_INET6) && is4mapped (sa_a6 vsa)
  then (set_w1 (set_family vsa AF_INET) (drop 12 (sa_a6 vsa)), true)
  else (vsa, false).

(** ** From a text *)

(** [reverseDomainX] ([rary/String.cpp]): the parts of a name in reverse,
    each one but the last followed by [sep]; [n] bounds the number of parts. *)
Fixpoint rindex_of (c : Z) (s : list Z) : option nat :=
  match s with
  | [] => None
  | x :: s' => match rindex_of c s' with
               | Some i => Some (S i)
               | None => if x =? c then Some O else None
               end
  end.
Fixpoint reverseDomainX_loop (n : nat) (dombuf : list Z) (rdom : vstr) (dlm : Z) (sep : list Z) : vstr :=
  match n with
  | O => rdom
  | S n' =>
      match rindex_of dlm dombuf with
      | Some i =>
          reverseDomainX_loop n' (take i dombuf)
            (Xstrcat (Xstrcat rdom (drop (S i) dombuf)) sep) dlm sep
      | None => Xstrcat rdom dombuf
      end
  end.
Definition reverseDomainX (dom : list Z) (rdom : vstr) (dlm : Z) (sep : list Z) : vstr :=
  let dombuf := v_str (v_at (fst (linescanX dom (vnew 1024) 1024)) 0) in
  reverseDomainX_loop (S (length dombuf)) dombuf (setVStrEnd rdom 0) dlm sep.

(** [hostlocal2path]: from a name in [.af-local] to the path of a socket,
    [..] being a dot, a dot a slash and [=XX] a character; [root] is
    [VSA_afunixroot].  [None] for other names. *)
Definition VSA_afunixdom : list Z := cs ".af-local".
Definition isB16 (ch : Z) : bool :=
  (48 <=? ch) && (ch <=? 57) || (97 <=? ch) && (ch <=? 122) || (65 <=? ch) && (ch <=? 90).
Definition scan_x2 (a b : Z) : Z :=
  if isxdigit a then if isxdigit b then hexval a * 16 + hexval b else hexval a else 63.
Fixpoint local2path_loop (n : nat) (sp : list Z) (dp : vstr) : vstr :=
  match n, sp with
  | S n', ch :: sp' =>
      if v_tail dp <=? v_pos dp then dp
      else
        let '(ch, sp') :=
          if ch =? 46 then if cat sp' 0 =? 46 then (ch, tl sp') else (47, sp') else (ch, sp') in
        let '(ch, sp') :=
          if ((ch =? 61) || (ch =? 37)) && isB16 (cat sp' 0) && isB16 (cat sp' 1)
          then (scan_x2 (cat sp' 0) (cat sp' 1), drop 2 sp') else (ch, sp') in
        local2path_loop n' sp' (setVStrPtrInc dp ch)
  | _, _ => dp
  end.
Definition hostlocal2path (root host : list Z) (size : nat) : option (list Z) :=
  match strtailstr host VSA_afunixdom with
  | None => None
  | Some _ =>
      let path := v_str (v_at (fst (wordscanX host (vnew size) (Z.of_nat size))) 0) in
      let path := take (length path - 8) path in
      let buf := v_str (v_at (setVStrEnd (local2path_loop (length path) path (vnew 256)) 0) 0) in
      let path := v_str (v_at (reverseDomainX buf (vnew size) 47 (cs "/")) 0) in
      Some (root ++ path)
  end.

Section atosa.
Context `{libc6}.
Variable VSA_afunixroot : list Z.

Definition has_af6 (addr : list Z) : bool := VSA_strisaddr addr =? AF_INET6.

(** [VSA_atosa]: the address of a text, and its length. *)
Definition VSA_atosa (sa : vsaddr) (port : Z) (addr : list Z) : vsaddr * Z :=
  let addr := default addr (hostlocal2path VSA_afunixroot addr 1024) in
  if (cat addr 0 =? 47) || (cat addr 0 =? 92)
     || (cat addr 1 =? 58) && ((cat addr 2 =? 92) || (cat addr 2 =? 47))
  then
    (set_mem2 (set_family vsa0 AF_INET) (take 107 addr ++ repeat 0 (108 - length (take 107 addr))),
     sizeof_SUN)
  else
    let sidp := index_of 37 addr in
    let sid := match sidp with Some i => atoi (drop (S i) addr) | None => 0 end in
    let d1 := drop 2 addr in
    if is_prefix (cs "__") addr && (streq d1 [] || streq d1 (cs "0") || streq d1 (cs "1"))
    then
      (set_scope (set_a6 (set_port (set_family (bzero_SIN6 sa) AF_INET6) port)
                    (repeat 0 15 ++ [atoi d1])) sid, sizeof_SIN6)
    else
      match (if bool_decide (sidp = None) || (0 <? sid)
             then if has_af6 addr then xinet_pton AF_INET6 addr else None else None) with
      | Some i6 =>
          (set_scope (set_a6 (set_port (set_family (bzero_SIN6 sa) AF_INET6) port) (take 16 i6)) sid,
           sizeof_SIN6)
      | None =>
          match (if has_af6 addr then xgetaddrinfo addr else None) with
          | Some (ai, alen) => (set_port ai port, alen)
          | None =>
              (set_port (set_w1 (set_family (bzero_SIN sa) AF_INET) (inet_addr addr)) port, sizeof_SIN)
          end
      end.

(** [VSA_aptosa]: an address with its port. *)
Definition VSA_aptosa (addrport : list Z) : vsaddr * Z :=
  match index_of 58 addrport with
  | Some _ =>
      let addr := take 127 addrport in
      match index_of 58 addr with
      | Some i => VSA_atosa vsa0 (atoi (drop (S i) addr)) (take i addr)
      | None => VSA_atosa vsa0 0 addr
      end
  | None => VSA_atosa vsa0 0 []
  end.

Definition VSA_satoap (sa : vsaddr) : list Z := VSA_xtoap sa.

Definition VSA_atob (aaddr : list Z) : list Z * Z * Z :=
  let '(sa, _) := VSA_atosa vsa0 0 aaddr in
  let '(baddr, btype, _, bleng) := VSA_decomp sa in
  if bleng =? 16 then (baddr ++ rev (be_bytes 4 (sa_scope sa)), btype, IPV6_ADDRLENG)
  else (baddr, btype, bleng).
End atosa.

(** The argument of FTP's commands PORT and EPSV. *)
Definition VSA_prftp (sap : vsaddr) : list Z :=
  if sa_family sap =? AF_UNIX then VSA_afunixaddr ++ 58 :: fmt_d VSA_afunixport
  else if sa_family sap =? AF_INET6 then cs "|||" ++ fmt_d (sa_port sap) ++ cs "|"
  else
    let sp := stob (sa_port sap) in
    fmt_d (cat (sa_w1 sap) 0) ++ 44 :: fmt_d (cat (sa_w1 sap) 1) ++ 44 ::
    fmt_d (cat (sa_w1 sap) 2) ++ 44 :: fmt_d (cat (sa_w1 sap) 3) ++ 44 ::
    fmt_d (cat sp 0) ++ 44 :: fmt_d (cat sp 1).

(** ** Names of the reverse tree *)

(** [%x] of [sscanf]: blanks, a sign, [0x], digits. *)
Definition scan_x (s : list Z) : option (Z * list Z) :=
  let s := skip_spaces s in
  let neg := cat s 0 =? 45 in
  let s := if neg || (cat s 0 =? 43) then tl s else s in
  let s := if (cat s 0 =? 48) && ((cat s 1 =? 120) || (cat s 1 =? 88)) && isxdigit (cat s 2)
           then drop 2 s else s in
  if isxdigit (cat s 0)
  then let '(v, r) := base_value 16 0 s in Some (u32 (if neg then - v else v), r) else None.

(** [n] numbers with dots between them. *)
Fixpoint scan_xs (n : nat) (s : list Z) : option (list Z) :=
  match n with
  | O => Some []
  | S n' =>
      '(v, r) ← scan_x s;
      match n' with
      | O => Some [v]
      | _ => if cat r 0 =? 46 then l ← scan_xs n' (tl r); Some (v :: l) else None
      end
  end.

(** The bytes from pairs of nibbles, the last pair first. *)
Fixpoint nibbles (v : list Z) (acc : list Z) : list Z :=
  match v with
  | lo :: hi :: v' => nibbles v' (uchar (Z.lor (Z.shiftl hi 4) lo) :: acc)
  | _ => acc
  end.

Definition ip6_int : list Z := cs ".IP6.INT".

(** [domain_ipv6]: the first occurrence of the domain has to be the end. *)
Definition domain_ipv6 (revaddr : list Z) : option (list Z) :=
  match strstr (map tolower revaddr) (map tolower ip6_int) with
  | Some dp =>
      if zlen dp =? 8 then v ← scan_xs 32 revaddr; Some (nibbles v []) else None
  | None => None
  end.

Definition ipv6_domain `{libc6} (addr : list Z) : option (list Z) :=
  match xinet_pton AF_INET6 addr with
  | Some ap =>
      Some (concat (map (fun b => [hexLower (Z.land 15 b); 46; hexLower (Z.shiftr b 4); 46]) (rev ap))
            ++ cs "IP6.INT")
  | None => None
  end.

Definition VSA_dnstosa (sa : vsaddr) (port : Z) (revaddr : list Z) : vsaddr * Z :=
  match domain_ipv6 revaddr with
  | Some a6 =>
      (VSA AF_INET6 (le_value (be_bytes 2 port)) (repeat 0 4) a6 0 (sa_rest sa), sizeof_SIN6)
  | None =>
      match scan_4d revaddr with
      | Some (a, b, c, d) =>
          (VSA AF_INET (le_value (be_bytes 2 port)) (map uchar [d; c; b; a]) (sa_a6 sa) (sa_scope sa)
             (sa_rest sa), sizeof_SIN)
      | None => (sa, 0)
      end
  end.

(** ** Dotted addresses *)

Definition dotc (c : Z) : Prop := isdigit c = true \/ c = 46.

Lemma fmt_4d_chars a b c d : byte_ok a -> byte_ok b -> byte_ok c -> byte_ok d ->
  Forall dotc (fmt_4d a b c d).
Proof.
  unfold byte_ok. intros. unfold fmt_4d.
  assert (Hf : forall z, 0 <= z < 256 -> Forall dotc (fmt_d z)).
  { intros z Hz. destruct (fmt_d_spec z) as (_ & Hd & _); [lia|].
    eapply Forall_impl; [exact Hd|]. by left. }
  repeat (apply Forall_app; split; [by apply Hf; lia|constructor; [by right|]]).
  by apply Hf; lia.
Qed.

Lemma fmt_4d_length a b c d : byte_ok a -> byte_ok b -> byte_ok c -> byte_ok d ->
  7 <= zlen (fmt_4d a b c d) <= 15.
Proof.
  unfold byte_ok. intros.
  assert (Hf : forall z, 0 <= z < 256 -> 1 <= zlen (fmt_d z) <= 3).
  { intros z Hz. destruct (fmt_d_spec z) as (Hne & _ & _ & _ & H3 & _); [lia|].
    split; [|apply H3; lia].
    destruct (fmt_d z); [done|rewrite zlen_cons; pose proof (zlen_nonneg l); lia]. }
  unfold fmt_4d. repeat rewrite ?zlen_app, ?zlen_cons.
  pose proof (Hf a). pose proof (Hf b). pose proof (Hf c). pose proof (Hf d). lia.
Qed.

Lemma dotc_cases c : dotc c -> 46 <= c <= 57 /\ c <> 47.
Proof. intros [H| ->]; [unfold isdigit in H|]; lia. Qed.

Lemma cat_dotc s i : Forall dotc s -> cat s i = 0 \/ dotc (cat s i).
Proof.
  intros Hs. unfold cat. destruct (i <? 0); [by left|].
  destruct (decide (Z.to_nat i < length s)%nat) as [Hi|Hi].
  - right. rewrite Forall_forall in Hs. apply Hs. apply list_elem_of_In, nth_In. lia.
  - left. apply nth_overflow. lia.
Qed.

Lemma base10_digits ds r acc : Forall (fun c => isdigit c = true) ds ->
  isdigit (cat r 0) = false -> base_value 10 acc (ds ++ r) = (dec_value acc (ds ++ r), r).
Proof.
  intros Hds Hr. revert acc. induction Hds as [|c ds Hc _ IH]; intros acc; simpl.
  - destruct r as [|c r]; [done|]. simpl. change (cat (c :: r) 0) with c in Hr. rewrite Hr.
    destruct (isxdigit c && (hexval c <? 10)) eqn:E; [|done].
    exfalso. revert E Hr. unfold isxdigit, hexval, isdigit. zcases.
  - rewrite Hc. assert (Hx : isxdigit c && (hexval c <? 10) = true).
    { revert Hc. unfold isxdigit, hexval, isdigit. zcases. }
    rewrite Hx, IH. assert (hexval c = c - 48) as -> by (unfold hexval; by rewrite Hc). done.
Qed.

Lemma strtoul0_fmt_d z r : 0 <= z < 2 ^ 31 -> cat r 0 = 0 \/ cat r 0 = 46 ->
  strtoul0 (fmt_d z ++ r) = (z, r).
Proof.
  intros Hz Hr.
  assert (Hrd : isdigit (cat r 0) = false) by (destruct Hr as [-> | ->]; done).
  destruct (fmt_d_spec z Hz) as (Hne & Hds & Hp & H0 & _).
  destruct (decide (z = 0)) as [->|Hnz].
  - rewrite H0 by done. unfold strtoul0. simpl app.
    change (cat (48 :: r) 0 =? 48) with true.
    assert (cat (48 :: r) 1 = cat r 0) as -> by done.
    destruct r as [|c r]; [done|]. change (cat (c :: r) 0) with c in *.
    destruct Hr as [-> | ->]; done.
  - unfold strtoul0. pose proof (dec_value_fmt_d z r Hz Hrd) as Hv.
    pose proof (base10_digits (fmt_d z) r 0 Hds Hrd) as Hb.
    assert (H48 : (cat (fmt_d z ++ r) 0 =? 48) = false).
    { apply Z.eqb_neq. destruct (fmt_d z) as [|x xs]; [done|]. apply Hp. lia. }
    by rewrite H48, Hb, Hv.
Qed.

Lemma inet_aton_step n acc z r : 0 <= z < 256 ->
  inet_aton_loop (S n) acc (fmt_d z ++ 46 :: r) = inet_aton_loop n (acc ++ [z]) r.
Proof.
  intros Hz. simpl. rewrite strtoul0_fmt_d by (lia || by right).
  destruct (fmt_d_nonempty z) as (x & xs & E & Hx); [lia|]. rewrite E. simpl app.
  change (cat (x :: xs ++ 46 :: r) 0) with x. rewrite Hx. simpl negb. cbv iota.
  rewrite (proj2 (Z.leb_gt _ _)) by lia. change (cat (46 :: r) 0 =? 46) with true. cbv iota.
  by rewrite (proj2 (Z.ltb_ge 255 z)) by lia.
Qed.

Lemma inet_aton_fmt_4d a b c d : byte_ok a -> byte_ok b -> byte_ok c -> byte_ok d ->
  inet_aton (fmt_4d a b c d) = Some [a; b; c; d].
Proof.
  unfold byte_ok. intros. unfold inet_aton, fmt_4d. rewrite !inet_aton_step by lia.
  simpl. pose proof (strtoul0_fmt_d d []) as Hd. rewrite app_nil_r in Hd.
  rewrite Hd by (by left || lia).
  destruct (fmt_d_nonempty d) as (x & xs & E & Hx); [lia|]. rewrite E.
  change (cat (x :: xs) 0) with x. rewrite Hx. simpl negb. cbv iota.
  rewrite !(proj2 (Z.leb_gt _ d)) by lia. simpl.
  by rewrite Z.div_1_r, Z.mod_small by lia.
Qed.

Lemma dotted_no_tail s x t : Forall dotc s -> ~ dotc x -> strtailstr s (t ++ [x]) = None.
Proof.
  intros Hs Hx. unfold strtailstr, strtailstrX.
  destruct (t ++ [x]) as [|y l] eqn:E; [by destruct t|]. rewrite <- E, rev_app_distr. simpl.
  destruct (rev s) as [|c r] eqn:Er; [done|]. simpl.
  assert (Hc : dotc c).
  { rewrite Forall_forall in Hs. apply Hs. rewrite list_elem_of_In, in_rev, Er. by left. }
  destruct (Z.eqb_spec c x) as [->|]; [contradiction|done].
Qed.

Lemma dotted_no_char s x : Forall dotc s -> ~ dotc x -> index_of x s = None.
Proof.
  intros Hs Hx. induction Hs as [|c s Hc _ IH]; [done|]. simpl.
  destruct (Z.eqb_spec c x) as [->|]; [contradiction|]. by rewrite IH.
Qed.

Lemma dotc_not c : c < 46 \/ c = 47 \/ 57 < c -> ~ dotc c.
Proof. intros H Hd. apply dotc_cases in Hd. lia. Qed.

(** The address of an IPv4 host in memory. *)
Definition is_sin (sa : vsaddr) (ip : list Z) (port : Z) : Prop :=
  sa_family sa = AF_INET /\ sa_w1 sa = ip /\ sa_port sa = port.

Section dotted.
Context `{libc6}.
Variables (a b c d : Z).
Hypotheses (Ha : byte_ok a) (Hb : byte_ok b) (Hc : byte_ok c) (Hd : byte_ok d).

Lemma strisaddr_dotted : VSA_strisaddr (fmt_4d a b c d) = 1.
Proof using Ha Hb Hc Hd.
  unfold VSA_strisaddr. pose proof (fmt_4d_length a b c d Ha Hb Hc Hd) as Hl.
  destruct (fmt_4d a b c d) as [|x s] eqn:E; [rewrite zlen_nil in Hl; lia|].
  rewrite <- E, (proj2 (Z.leb_gt _ _)) by (rewrite E; lia).
  by rewrite inet_aton_fmt_4d.
Qed.

Lemma isinetAddr_dotted : [a; b; c; d] <> INADDR_None -> isinetAddr (fmt_4d a b c d) = 4.
Proof using Ha Hb Hc Hd.
  intros Hn. unfold isinetAddr, inet_addr. rewrite inet_aton_fmt_4d by done. simpl.
  by rewrite bool_decide_eq_false_2.
Qed.

Lemma VSA_atosa_dotted root sa port : 0 <= port < 65536 ->
  is_sin (fst (VSA_atosa root sa port (fmt_4d a b c d))) [a; b; c; d] port /\
  snd (VSA_atosa root sa port (fmt_4d a b c d)) = sizeof_SIN.
Proof using Ha Hb Hc Hd.
  intros Hp. pose proof (fmt_4d_chars a b c d Ha Hb Hc Hd) as Hs.
  unfold VSA_atosa, hostlocal2path.
  assert (Ht : strtailstr (fmt_4d a b c d) VSA_afunixdom = None).
  { apply (dotted_no_tail _ 108 (cs ".af-loca") Hs). apply dotc_not. lia. }
  rewrite Ht.
  simpl default. rewrite (dotted_no_char _ 37 Hs) by (apply dotc_not; lia).
  assert (Hcat : forall i x, ~ dotc x -> x <> 0 -> (cat (fmt_4d a b c d) i =? x) = false).
  { intros i x Hx Hx0. apply Z.eqb_neq. destruct (cat_dotc _ i Hs) as [->|Hi]; [lia|].
    intros <-. contradiction. }
  rewrite !Hcat by (try apply dotc_not; lia). simpl orb. cbv iota.
  assert (Hpre : is_prefix (cs "__") (fmt_4d a b c d) = false).
  { destruct Hs as [|x s Hx _]; [done|]. change (cs "__") with [95; 95].
    cbn [is_prefix]. rewrite (proj2 (Z.eqb_neq _ _)); [done|].
    intros <-. revert Hx. apply dotc_not. lia. }
  rewrite Hpre. unfold has_af6. rewrite strisaddr_dotted. simpl.
  unfold inet_addr. rewrite inet_aton_fmt_4d by done. simpl.
  unfold is_sin. simpl. by rewrite Z.mod_small.
Qed.

Lemma VSA_ntoa_sin sa port : is_sin sa [a; b; c; d] port -> VSA_ntoa sa = fmt_4d a b c d.
Proof using Type. intros (Hf & Hw & _). unfold VSA_ntoa. by rewrite Hf, Hw. Qed.
End dotted.

Lemma be_value_app b1 b2 acc : be_value (b1 ++ b2) acc = be_value b2 (be_value b1 acc).
Proof. revert acc. induction b1 as [|x b1 IH]; intros acc; simpl; [done|apply IH]. Qed.

Lemma stob_btos p r : 0 <= p < 65536 -> btos (stob p ++ r) = p.
Proof.
  intros Hp. unfold btos, stob, uchar. simpl. rewrite Z.shiftr_div_pow2 by lia.
  change (2 ^ 8) with 256. rewrite (Z.mod_small (p / 256)).
  - pose proof (Z.div_mod p 256). lia.
  - split; [apply Z.div_pos; lia|]. apply Z.div_lt_upper_bound; lia.
Qed.

Lemma stob_bytes p : bytes_ok (stob p) /\ length (stob p) = 2%nat.
Proof.
  split; [|done]. unfold stob, uchar.
  repeat constructor; apply Z.mod_pos_bound; lia.
Qed.

(** The bytes of a SOCKS message and the address that they are. *)
Definition packed (sa : vsaddr) : list Z :=
  let '(baddr, _, bport, _) := VSA_decomp sa in baddr ++ bport.

Definition vsaddr_ok (sa : vsaddr) : Prop :=
  0 <= sa_port sa < 65536 /\ bytes_ok (sa_w1 sa) /\ length (sa_w1 sa) = 4%nat /\
  bytes_ok (sa_a6 sa) /\ length (sa_a6 sa) = 16%nat.

#[export] Instance vsaddr_ok_dec sa : Decision (vsaddr_ok sa).
Proof. unfold vsaddr_ok. apply _. Defined.

Lemma stosa_packed_4 sa0 sa r : vsaddr_ok sa -> sa_family sa = AF_INET ->
  is_sin (fst (VSA_stosa sa0 AF_INET (packed sa ++ r))) (sa_w1 sa) (sa_port sa).
Proof.
  intros (Hp & _ & Hl & _ & _) Hf. unfold packed, VSA_decomp. rewrite Hf. simpl.
  rewrite <- app_assoc. unfold is_sin. simpl.
  rewrite take_app_length', drop_app_length' by done.
  split_and!; [done|done|]. etransitivity; [|apply Z.mod_small, Hp].
  f_equal. by apply stob_btos.
Qed.

Lemma stosa_packed_6 sa0 sa r : vsaddr_ok sa -> sa_family sa = AF_INET6 ->
  let s := fst (VSA_stosa sa0 AF_INET6 (packed sa ++ r)) in
  sa_family s = AF_INET6 /\ sa_a6 s = sa_a6 sa /\ sa_port s = sa_port sa.
Proof.
  intros (Hp & _ & _ & _ & Hl) Hf. unfold packed, VSA_decomp. rewrite Hf. simpl.
  rewrite <- app_assoc, take_app_length', drop_app_length' by done.
  split_and!; [done|done|]. etransitivity; [|apply Z.mod_small, Hp].
  f_equal. by apply stob_btos.
Qed.

(** On this machine the test of [VSA_6to4] does not know the IPv4-mapped
    addresses, whose last word but one has the bytes 0, 0, 255, 255, and
    [::1] is not local. *)
Example mapped_is_not_recognised :
  let sa := set_a6 (set_family vsa0 AF_INET6) (repeat 0 10 ++ [255; 255; 127; 0; 0; 1]) in
  snd (VSA_6to4 sa) = false /\ VSA_islocal sa = false /\
  VSA_islocal (set_a6 sa (repeat 0 15 ++ [1])) = false.
Proof. by vm_compute. Qed.
