(* ===== verification/Io.v ===== *)
(** * Programs that talk to their surroundings

    The servers of the gateway read from their client, ask other parts for
    permission and for sockets, and write replies.  A program [io ans A] is
    a tree: it has a result of [A], or it makes a call of [C], waits for an
    answer of [ans c] and goes on with it.  This file has

    - the monad, with stdpp's notation [x ← p; k];
    - [runs p tr x]: the calls and answers [tr] are a complete run of [p]
      with the result [x], whatever the surroundings are;
    - [run h s p]: the run of [p] in an environment [h] with a state;
    - [obeys]: every run of [p] is accepted by a monitor, as a recursive
      condition on the program, with the rules to prove it;
    - [guarded]: the property of traces that an event comes only after
      another one. *)
From S2P Require Import Prelude.
From stdpp Require Import options.

Section io.
Context {C : Type} (ans : C -> Type).

Inductive io (A : Type) : Type :=
| Ret (a : A)
| Ask (c : C) (k : ans c -> io A).
#[global] Arguments Ret {A} a.
#[global] Arguments Ask {A} c k.

Fixpoint io_bind {A B} (f : A -> io B) (p : io A) : io B :=
  match p with
  | Ret a => f a
  | Ask c k => Ask c (fun x => io_bind f (k x))
  end.

#[global] Instance io_ret : MRet io := fun _ a => Ret a.
#[global] Instance io_mbind : MBind io := fun _ _ f p => io_bind f p.

Definition call (c : C) : io (ans c) := Ask c Ret.

(** ** Traces *)

Record event := Ev { ev_call : C; ev_ans : ans ev_call }.

Inductive runs {A} : io A -> list event -> A -> Prop :=
| runs_ret a : runs (Ret a) [] a
| runs_ask c k x tr a : runs (k x) tr a -> runs (Ask c k) (Ev c x :: tr) a.

(** An environment answers a call by its state, and has a next state; it may
    have no answer. *)
Definition env (S : Type) := S -> forall c, option (ans c * S).

Fixpoint run {S A} (h : env S) (s : S) (p : io A) : option (list event * A * S) :=
  match p with
  | Ret a => Some ([], a, s)
  | Ask c k =>
      '(x, s1) ← h s c; '(tr, a, s2) ← run h s1 (k x); Some (Ev c x :: tr, a, s2)
  end.

Lemma run_runs {S A} (h : env S) (p : io A) s tr a s' :
  run h s p = Some (tr, a, s') -> runs p tr a.
Proof.
  revert s tr. induction p as [b|c k IH]; intros s tr E; simpl in E.
  - injection E as <- -> ->. constructor.
  - apply bind_Some in E as ([x s1] & Eh & E).
    apply bind_Some in E as ([[tr2 b] s2] & Er & E). injection E as <- -> ->.
    constructor. by eapply IH.
Qed.

Lemma run_bind {S A B} (h : env S) (p : io A) (f : A -> io B) s tr a s1 :
  run h s p = Some (tr, a, s1) ->
  run h s (p ≫= f) = '(t2, b, s2) ← run h s1 (f a); Some (tr ++ t2, b, s2).
Proof.
  unfold mbind at 1, io_mbind.
  revert s tr. induction p as [b|c k IH]; intros s tr E; simpl in E |- *.
  - injection E as <- -> ->. by destruct (run h s1 (f a)) as [[[t2 b] s2]|].
  - apply bind_Some in E as ([x s2] & Eh & E). rewrite Eh. simpl.
    apply bind_Some in E as ([[tr2 b] s3] & Er & E). injection E as <- -> ->.
    rewrite (IH _ _ _ Er). simpl. by destruct (run h s1 (f a)) as [[[t2 b] s4]|].
Qed.

Lemma runs_inv {A} (q : io A) tr b :
  runs q tr b ->
  match q with
  | Ret a => tr = [] /\ b = a
  | Ask c k => exists x tr', tr = Ev c x :: tr' /\ runs (k x) tr' b
  end.
Proof. destruct 1 as [a|c k x tr a H]; [done|by exists x, tr]. Qed.

Lemma runs_bind {A B} (p : io A) (f : A -> io B) tr b :
  runs (p ≫= f) tr b ->
  exists t1 a t2, tr = t1 ++ t2 /\ runs p t1 a /\ runs (f a) t2 b.
Proof.
  unfold mbind, io_mbind.
  revert tr. induction p as [a|c k IH]; simpl; intros tr H.
  - by exists [], a, tr; repeat constructor.
  - apply runs_inv in H as (x & tr' & -> & H).
    destruct (IH _ _ H) as (t1 & a1 & t2 & -> & H1 & H2).
    exists (Ev c x :: t1), a1, t2. by repeat constructor.
Qed.

(** ** Results

    [always P p]: whatever the answers are, a result of [p] is in [P]. *)
Definition always {A} (P : A -> Prop) (p : io A) : Prop := forall tr a, runs p tr a -> P a.

Lemma always_ret {A} (P : A -> Prop) a : P a -> always P (Ret a).
Proof. intros HP tr b Hr. apply runs_inv in Hr as [_ ->]. done. Qed.

Lemma always_bind {A B} (R : A -> Prop) (P : B -> Prop) (p : io A) (f : A -> io B) :
  always R p -> (forall a, R a -> always P (f a)) -> always P (p ≫= f).
Proof.
  intros Hp Hf tr b Hr. apply runs_bind in Hr as (t1 & a & t2 & _ & H1 & H2).
  eapply Hf; [by eapply Hp|exact H2].
Qed.

Lemma always_any {A B} (P : B -> Prop) (p : io A) (f : A -> io B) :
  (forall a, always P (f a)) -> always P (p ≫= f).
Proof. intros Hf. by apply (always_bind (fun _ => True)). Qed.

Lemma always_true {A} (p : io A) : always (fun _ => True) p.
Proof. by intros tr a _. Qed.

(** ** Monitors

    A monitor reads the events one after another; [None] is a violation. *)
Definition monitor (S : Type) := S -> forall c, ans c -> option S.

Fixpoint accepts {S} (m : monitor S) (s : S) (tr : list event) : option S :=
  match tr with
  | [] => Some s
  | Ev c x :: tr =>
      match m s c x with Some s' => accepts m s' tr | None => None end
  end.

(** Each run in which every answer is [ok] is accepted, and ends with a
    state and a result of [Q]. *)
Fixpoint obeys {S A} (m : monitor S) (ok : forall c, ans c -> Prop)
  (s : S) (p : io A) (Q : S -> A -> Prop) : Prop :=
  match p with
  | Ret a => Q s a
  | Ask c k => forall x, ok c x ->
      exists s', m s c x = Some s' /\ obeys m ok s' (k x) Q
  end.

Definition ev_ok (ok : forall c, ans c -> Prop) (e : event) : Prop :=
  ok (ev_call e) (ev_ans e).

Section rules.
Context {S : Type} (m : monitor S) (ok : forall c, ans c -> Prop).

Lemma obeys_sound {A} (p : io A) tr a s Q :
  obeys m ok s p Q -> runs p tr a -> Forall (ev_ok ok) tr ->
  exists s', accepts m s tr = Some s' /\ Q s' a.
Proof using Type.
  intros Ho Hr. revert s Ho. induction Hr as [a|c k x tr a Hr IH]; intros s Ho Ht.
  - by exists s.
  - apply Forall_cons in Ht as [Hx Ht]. simpl in *.
    destruct (Ho x Hx) as (s' & -> & Ho'). by apply IH.
Qed.

Lemma obeys_mono {A} (p : io A) s (Q R : S -> A -> Prop) :
  (forall s a, Q s a -> R s a) -> obeys m ok s p Q -> obeys m ok s p R.
Proof using Type.
  intros HQ. revert s. induction p as [a|c k IH]; intros s; simpl; [apply HQ|].
  intros H x Hx. destruct (H x Hx) as (s' & E & H'). exists s'. auto.
Qed.

Lemma obeys_bind {A B} (p : io A) (f : A -> io B) s Q :
  obeys m ok s p (fun s' a => obeys m ok s' (f a) Q) -> obeys m ok s (p ≫= f) Q.
Proof using Type.
  unfold mbind, io_mbind.
  revert s. induction p as [a|c k IH]; intros s; simpl; [done|].
  intros H x Hx. destruct (H x Hx) as (s' & E & H'). exists s'. auto.
Qed.

Lemma obeys_call {A} c (k : ans c -> io A) s Q :
  (forall x, ok c x -> exists s', m s c x = Some s' /\ obeys m ok s' (k x) Q) ->
  obeys m ok s (call c ≫= k) Q.
Proof using Type. done. Qed.

Lemma obeys_call_last c s (Q : S -> ans c -> Prop) :
  (forall x, ok c x -> exists s', m s c x = Some s' /\ Q s' x) -> obeys m ok s (call c) Q.
Proof using Type. done. Qed.

(** A state in which the monitor accepts everything and stays. *)
Lemma obeys_free {A} (p : io A) s :
  (forall c x, m s c x = Some s) -> obeys m ok s p (fun s' _ => s' = s).
Proof using Type.
  intros Hs. induction p as [a|c k IH]; simpl; [done|].
  intros x _. exists s. auto.
Qed.

End rules.

(** ** One event before another *)

(** Each event of [tr] that [needs] something has an event that [gives] it
    somewhere before. *)
Definition guarded (gives needs : event -> bool) (tr : list event) : Prop :=
  forall t1 e t2, tr = t1 ++ e :: t2 -> needs e = true ->
  exists g, g ∈ t1 /\ gives g = true.

(** The monitor of [guarded]: has a giving event been seen? *)
Definition guard_mon (gives needs : event -> bool) : monitor bool :=
  fun seen c x =>
    let e := Ev c x in
    if needs e && negb seen then None else Some (seen || gives e).

Lemma guard_mon_sound gives needs tr seen s' :
  accepts (guard_mon gives needs) seen tr = Some s' ->
  forall t1 e t2, tr = t1 ++ e :: t2 -> needs e = true ->
  seen = true \/ exists g, g ∈ t1 /\ gives g = true.
Proof using Type.
  revert seen. induction tr as [|[c x] tr IH]; intros seen H t1 e t2 E Hn.
  - by destruct t1.
  - simpl in H. unfold guard_mon in H at 1.
    destruct (needs (Ev c x) && negb seen) eqn:Eg; [done|].
    destruct t1 as [|e1 t1]; simpl in E; injection E as <- ->.
    + rewrite Hn in Eg. left. by destruct seen.
    + destruct (IH _ H t1 e t2 eq_refl Hn) as [Hs|(g & Hg & Hv)].
      * apply orb_true_iff in Hs as [Hs|Hs]; [by left|right].
        exists (Ev c x). split; [constructor|done].
      * right. exists g. split; [by constructor|done].
Qed.

Lemma guard_mon_guarded gives needs tr s' :
  accepts (guard_mon gives needs) false tr = Some s' -> guarded gives needs tr.
Proof using Type.
  intros H t1 e t2 E Hn.
  destruct (guard_mon_sound _ _ _ _ _ H t1 e t2 E Hn) as [?|?]; done.
Qed.

(** After the giving event nothing is left to prove. *)
Lemma guard_mon_open {A} gives needs ok (p : io A) :
  obeys (guard_mon gives needs) ok true p (fun s _ => s = true).
Proof using Type. apply obeys_free. intros c x. unfold guard_mon. by rewrite andb_false_r. Qed.

End io.

#[global] Arguments Ev {C ans} ev_call ev_ans.
#[global] Arguments ev_call {C ans} e.
#[global] Arguments ev_ans {C ans} e.
#[global] Arguments runs {C ans A} p tr a.
#[global] Arguments run {C ans S A} h s p.
#[global] Arguments call {C ans} c.
#[global] Arguments always {C ans A} P p.
#[global] Arguments obeys {C ans S A} m ok s p Q.
#[global] Arguments accepts {C ans S} m s tr.
#[global] Arguments guarded {C ans} gives needs tr.
#[global] Arguments guard_mon {C ans} gives needs.
#[global] Arguments Ret {C ans A} a.
#[global] Arguments Ask {C ans A} c k.

(** One call: its answer [x] with the condition [Hx] on it, and the next
    state of the monitor. *)
Tactic Notation "io_call" simple_intropattern(x) simple_intropattern(Hx) :=
  first [apply obeys_call | apply obeys_call_last];
  intros x Hx; eexists; split; [reflexivity|]; cbv beta iota.

(** The trace of a run in an environment, empty if there is none. *)
Definition trace_of {C : Type} {ans : C -> Type} {S A} (h : env ans S) (s : S) (p : io ans A)
  : list (event ans) :=
  match run h s p with Some (tr, _, _) => tr | None => [] end.
