(* ===== verification/Gateway.v ===== *)
(** * What the protocols ask of the gateway

    The calls of [io] that the SOCKS servers and clients make: the stream of
    the client, sockets and datagrams, and the functions of the gateway that
    decide and connect ([src/service.cpp], [src/inets.cpp], [src/vsocket.cpp],
    [src/socks.cpp]).  [gw_ans] is the type of the answer.  A call with
    string arguments that are results has the new strings in its answer.
    [Undefined] has no answer: the program does there what C does not
    define, such as a read outside of a buffer. *)
From S2P Require Import Prelude VStr Strings Vsa Io.
From stdpp Require Import options.

Inductive gw :=
(** the stream [FILE *fc] of the client, and output to it *)
| Getc
| Fread (n : Z)
| Feof
| Write (b : list Z)
(** sockets; an answer of [None] is an error or a result of -1 *)
| Send (sock : Z) (b : list Z)
| Recv (sock : Z) (n : Z)
| ReadsTO (sock : Z) (n timeout : Z)
| PollIn (sock : Z) (timeout : Z)
| PollIns (timeout : Z) (socks : list Z)
| Socket (af : Z)
| Connect (sock : Z) (sa : vsaddr) (len : Z)
| Sendto (sock : Z) (b : list Z) (to : vsaddr) (tolen : Z)
| Recvfrom (sock : Z) (n : Z)
| Getsockname (sock : Z)
| Close (fd : Z)
(** the gateway *)
| CTX_auth (up : option (list Z * list Z))
| VSocket (what : list Z) (sock : Z) (local remote opts : list Z)
| GetViaSocks (host : list Z) (port : Z)
| BindViaSocks (host : list Z) (port : Z)
| AcceptViaSocks (sock : Z)
| VSA_getViaSocksX (host : list Z) (port : Z)
| Set_realserver (proto host : list Z) (port : Z)
| Service_permitted (proto : list Z)
| Gethostaddr (host : list Z)
| GethostaddrX (host : list Z)
| GethostbyAddr (addr : list Z)
| SRCIFfor (what host : list Z) (port : Z)
| Findopen_port (what host : list Z) (port nlisten : Z)
| Tcp_relay2 (timeout s1 d1 s2 d2 : Z)
| CTX_ToS
| CTX_FromS
| FinishClnt
| FinishServ
| ServerAlive
| TimedOut
| Undefined.

(** [i_user] and [i_pass] of an [AuthInfo]. *)
Record AuthInfo := { i_user : list Z; i_pass : list Z }.

Definition gw_ans (c : gw) : Type :=
  match c with
  | Getc => Z                                  (* -1 at the end *)
  | Fread _ => list Z                          (* the bytes read *)
  | Feof => bool
  | Write _ => unit
  | Send _ _ => Z
  | Recv _ _ | ReadsTO _ _ _ => option (list Z)
  | PollIn _ _ => Z
  | PollIns _ _ => Z * list Z                  (* count, ready flags *)
  | Socket _ => Z
  | Connect _ _ _ => Z
  | Sendto _ _ _ _ => Z
  | Recvfrom _ _ => option (list Z * vsaddr)
  | Getsockname _ => vsaddr
  | Close _ => unit
  | CTX_auth _ => Z
  | VSocket _ _ _ _ _ => Z * list Z * list Z   (* socket, local, remote *)
  | GetViaSocks _ _ => bool
  | BindViaSocks _ _ => Z * list Z * Z         (* socket, host, port *)
  | AcceptViaSocks _ => Z * list Z * Z
  | VSA_getViaSocksX _ _ => option (vsaddr * AuthInfo)
  | Set_realserver _ _ _ => unit
  | Service_permitted _ => bool
  | Gethostaddr _ | GethostaddrX _ => option (list Z)
  | GethostbyAddr _ => list Z
  | SRCIFfor _ _ _ => option (list Z * Z)      (* host, port *)
  | Findopen_port _ _ _ _ => Z * list Z        (* socket, host *)
  | Tcp_relay2 _ _ _ _ _ => unit
  | CTX_ToS | CTX_FromS => Z
  | FinishClnt | FinishServ => unit
  | ServerAlive | TimedOut => bool
  | Undefined => Empty_set
  end.

Abbreviation gio := (io gw_ans).
Abbreviation gw_event := (event gw_ans).
Abbreviation ask c := (call (c : gw) : gio (gw_ans c)).

Definition undefined {A} : gio A :=
  Ask (Undefined : gw) (fun e : gw_ans Undefined => match e with end).
Definition get_opt {A} (o : option A) : gio A :=
  match o with Some a => Ret a | None => undefined end.

(** ** Buffers

    A buffer is a [vstr] at its base; [at_ v i f] does [f] at its offset
    [i], as [DVStr] does. *)
Definition vbuf (b : list Z) : vstr := VStr b 0 true.
Definition zeros (n : Z) : vstr := vbuf (repeat 0 (Z.to_nat n)).
Definition at_ (v : vstr) (i : Z) (f : vstr -> vstr) : vstr := v_at (f (v_at v i)) 0.

(** The first [n] bytes of an array, if it has that many; the bytes [i..i+n). *)
Definition vread (v : vstr) (n : Z) : option (list Z) :=
  if (0 <=? n) && (n <=? v_size v) then Some (take (Z.to_nat n) (v_buf v)) else None.
Definition vread_at (v : vstr) (i n : Z) : option (list Z) :=
  if (0 <=? n) && (0 <=? i) && (i + n <=? v_size v)
  then Some (take (Z.to_nat n) (drop (Z.to_nat i) (v_buf v))) else None.
(** The system stores [b] at offset [i]. *)
Definition vstore (v : vstr) (i : Z) (b : list Z) : vstr :=
  if (0 <=? i) && (i + zlen b <=? v_size v)
  then VStr (splice (v_buf v) (Z.to_nat i) b) (v_pos v) (v_ok v)
  else VStr (v_buf v) (v_pos v) false.

(** The bytes of a message for [send], if all stores and reads are inside. *)
Definition emit (v : vstr) (n : Z) : gio (list Z) :=
  get_opt (if v_ok v then vread v n else None).

(** The word of a string up to a character, scanned into an array of [n]. *)
Definition word_to (c : Z) (s : list Z) (n : nat) : list Z :=
  v_str (v_at (fst (wordscanY s (vnew n) (Z.of_nat n) (Some [94; c]))) 0).

(** [stob(s,&b[i])]: two stores that nothing checks. *)
Definition poke_stob (v : vstr) (i p : Z) : vstr :=
  poke (poke v i (Z.shiftr p 8)) (i + 1) p.

(** ** Messages that grow in a buffer *)

(** [v] begins with [l]. *)
Definition holds (v : vstr) (l : list Z) : Prop :=
  vwf v /\ v_pos v = 0 /\ zlen l <= v_size v /\ take (length l) (v_buf v) = l.

Lemma holds_nil v : vwf v -> v_pos v = 0 -> holds v [].
Proof.
  intros Hv Hp. unfold holds. pose proof Hv as (_ & ? & _).
  split; [done|]. split; [done|]. split; [change (zlen (@nil Z)) with 0; lia|done].
Qed.

Lemma holds_vread v l : holds v l -> vread v (zlen l) = Some l.
Proof.
  intros (Hv & Hp & Hl & E). unfold vread. pose proof (zlen_nonneg l).
  rewrite (proj2 (Z.leb_le 0 _)), (proj2 (Z.leb_le _ _)) by lia. simpl.
  unfold zlen. by rewrite Nat2Z.id, E.
Qed.

Lemma holds_prefix v l r : holds v (l ++ r) -> holds v l.
Proof.
  intros (Hv & Hp & Hl & E). rewrite zlen_app in Hl. pose proof (zlen_nonneg r).
  split; [done|]. split; [done|]. split; [lia|].
  apply (f_equal (take (length l))) in E.
  rewrite take_take, take_app_length, length_app in E. by rewrite Nat.min_l in E by lia.
Qed.

(** An operation that stores [m] at the end of what is there. *)
Lemma holds_splice v w l m r : holds v l -> v_pos w = 0 -> v_size w = v_size v ->
  v_ok w = v_ok v -> zlen l + zlen m <= v_size v ->
  v_buf w = splice (v_buf v) (length l) (m ++ r) -> holds w (l ++ m).
Proof.
  intros (Hv & Hp & Hl & E) Hpw Hz Hok Hs Eb. pose proof Hv as (Hvo & Hvs & Hvp).
  split; [unfold vwf; rewrite Hok, Hz, Hpw; repeat split; (done || lia)|].
  split; [done|]. split; [rewrite zlen_app; lia|].
  rewrite Eb. unfold splice. rewrite E, !app_assoc, <- (app_assoc _ r), <- app_assoc.
  by rewrite app_assoc, take_app_length'.
Qed.

Lemma to_nat_zlen {A} (l : list A) : Z.to_nat (zlen l) = length l.
Proof. unfold zlen. by rewrite Nat2Z.id. Qed.

Lemma holds_poke v l c : holds v l -> zlen l < v_size v ->
  holds (poke v (zlen l) c) (l ++ [uchar c]).
Proof.
  intros Hh Hl. pose proof Hh as (Hv & Hp & _). pose proof (zlen_nonneg l).
  apply (holds_splice v _ l [uchar c] []); [done|by rewrite v_pos_poke|apply v_size_poke
    |apply v_ok_poke; lia|change (zlen [uchar c]) with 1; lia|].
  by rewrite v_buf_poke, to_nat_zlen, app_nil_r by lia.
Qed.

Lemma holds_poke_at v l i c m : holds v l -> i = zlen l -> i < v_size v ->
  m = l ++ [uchar c] -> holds (poke v i c) m.
Proof. intros Hh -> Hl ->. by apply holds_poke. Qed.

Lemma rangeOK_in v x : v_pos v = 0 -> 0 <= x < v_size v -> rangeOK v x = true.
Proof. intros Hp Hx. unfold rangeOK, v_tail. rewrite Hp. lia. Qed.

Lemma holds_elem v l c : holds v l -> zlen l < v_size v ->
  holds (setVStrElem v (zlen l) c) (l ++ [uchar c]).
Proof.
  intros Hh Hl. pose proof Hh as (Hv & Hp & _). pose proof (zlen_nonneg l).
  unfold setVStrElem. rewrite rangeOK_in, Hp, Z.add_0_l by (done || lia). by apply holds_poke.
Qed.

Lemma holds_elem_inc v l c : holds v l -> zlen l < v_size v ->
  holds (fst (setVStrElemInc v (zlen l) c)) (l ++ [uchar c]) /\
  snd (setVStrElemInc v (zlen l) c) = zlen (l ++ [uchar c]).
Proof.
  intros Hh Hl. pose proof Hh as (Hv & Hp & _). pose proof (zlen_nonneg l).
  unfold setVStrElemInc. rewrite rangeOK_in, Hp, Z.add_0_l by (done || lia).
  split; [by apply holds_poke|by rewrite zlen_app].
Qed.

Lemma holds_stob v l p : holds v l -> zlen l + 2 <= v_size v ->
  holds (poke_stob v (zlen l) p) (l ++ stob p).
Proof.
  intros Hh Hl. unfold poke_stob, stob.
  pose proof (holds_poke v l (Z.shiftr p 8) Hh) as H1. specialize (H1 ltac:(lia)).
  pose proof (holds_poke _ _ p H1) as H2. rewrite zlen_app in H2.
  change (zlen [_]) with 1 in H2. rewrite v_size_poke in H2. specialize (H2 ltac:(lia)).
  by rewrite <- app_assoc in H2.
Qed.

Lemma v_at_id v p : v_buf (v_at v p) = v_buf v /\ v_pos (v_at v p) = p /\
  v_ok (v_at v p) = v_ok v /\ v_size (v_at v p) = v_size v.
Proof. done. Qed.

Lemma vwf_at v p : vwf v -> 0 <= p <= v_size v -> vwf (v_at v p).
Proof. intros (?&?&?) ?. by unfold vwf. Qed.

Lemma holds_strcpy0 v l s : holds v l -> cstr_ok s -> zlen l + zlen s < v_size v ->
  holds (at_ v (zlen l) (fun v => Xstrcpy v s)) (l ++ s ++ [0]).
Proof.
  intros Hh Hs Hl. pose proof Hh as (Hv & Hp & _). pose proof (zlen_nonneg l).
  pose proof (zlen_nonneg s). set (w := v_at v (zlen l)).
  assert (Hw : vwf w) by (apply vwf_at; [done|lia]).
  destruct (v_at_id v (zlen l)) as (Hbw & Hpw & Hkw & Hsz). fold w in Hbw, Hpw, Hkw, Hsz.
  unfold at_. fold w. unfold Xstrcpy.
  rewrite outofrange_0, (proj2 (Z.ltb_ge _ _)) by (done || (unfold v_tail; lia)).
  destruct (Xstrcpy_loop_spec (Z.to_nat (v_tail w - v_pos w + 1 - 1)) w (v_pos w) s)
    as [(H1 & H2 & H3) E]; [lia|unfold v_tail; lia|done|].
  rewrite take_ge in E by (unfold v_tail, zlen in *; lia).
  apply (holds_splice v _ l (s ++ [0]) []); [done|done|..];
    [..|rewrite zlen_app; change (zlen [0]) with 1; lia|].
  - by rewrite <- Hsz, <- H2.
  - by rewrite <- Hkw, <- H3.
  - cbn [v_at v_buf]. rewrite app_nil_r. by rewrite E, Hpw, Hbw, to_nat_zlen.
Qed.

Lemma holds_strcpy v l s : holds v l -> cstr_ok s -> zlen l + zlen s < v_size v ->
  holds (at_ v (zlen l) (fun v => Xstrcpy v s)) (l ++ s).
Proof. intros. apply (holds_prefix _ _ [0]). rewrite <- app_assoc. by apply holds_strcpy0. Qed.

Lemma holds_bcopy v l b n : holds v l -> bytes_ok b -> n = zlen b -> zlen l < v_size v ->
  zlen l + n <= v_size v -> holds (at_ v (zlen l) (fun v => Xbcopy b v n)) (l ++ b).
Proof.
  intros Hh Hb -> Hlt Hl. pose proof Hh as (Hv & Hp & _). pose proof (zlen_nonneg l).
  pose proof (zlen_nonneg b). set (w := v_at v (zlen l)).
  assert (Hw : vwf w) by (apply vwf_at; [done|lia]).
  destruct (v_at_id v (zlen l)) as (Hbw & Hpw & Hkw & Hsz). fold w in Hbw, Hpw, Hkw, Hsz.
  unfold at_. fold w.
  destruct (Xbcopy_all_or_nothing b w (zlen b) Hw Hb) as ((H1 & H2 & H3) & E & _); [lia|].
  apply (holds_splice v _ l b []); [done|done|..]; try lia.
  - by rewrite <- Hsz, <- H2.
  - by rewrite <- Hkw, <- H3.
  - cbn [v_at v_buf]. rewrite E by lia.
    by rewrite Hpw, Hbw, !to_nat_zlen, take_ge, app_nil_r by lia.
Qed.

(** A copy further back keeps what is there. *)
Lemma Xstrcpy_loop_frame k v e s : 0 <= e -> e + Z.of_nat k < v_size v ->
  same_frame v (Xstrcpy_loop k v e s) /\
  forall n, (n <= Z.to_nat e)%nat -> take n (v_buf (Xstrcpy_loop k v e s)) = take n (v_buf v).
Proof.
  assert (Hpoke : forall v e c n, 0 <= e < v_size v -> (n <= Z.to_nat e)%nat ->
    take n (v_buf (poke v e c)) = take n (v_buf v)).
  { intros v' e' c n He Hn. unfold poke. destruct (_ && _); [|done]. simpl.
    by rewrite take_insert_ge. }
  revert v e s. induction k as [|k IH]; intros v e s He Hk; simpl.
  - split; [apply same_frame_poke; lia|]. intros n Hn. apply Hpoke; lia.
  - destruct (cat s 0 =? 0).
    + split; [apply same_frame_poke; lia|]. intros n Hn. apply Hpoke; lia.
    + destruct (IH (poke v e (cat s 0)) (e + 1) (tl s)) as [Hf Ht]; [lia|rewrite v_size_poke; lia|].
      split; [eapply same_frame_trans; [|exact Hf]; apply same_frame_poke; lia|].
      intros n Hn. rewrite Ht by lia. apply Hpoke; lia.
Qed.

Lemma holds_strcpy_behind v l i s : holds v l -> zlen l <= i ->
  let w := at_ v i (fun v => Xstrcpy v s) in holds w l /\ v_size w = v_size v.
Proof.
  intros (Hv & Hp & Hl & E) Hi w. pose proof (zlen_nonneg l).
  assert (Hsame : holds v l /\ v_size v = v_size v) by done.
  subst w. unfold at_, Xstrcpy.
  destruct (outofrange (v_at v i) 0) eqn:Eo.
  - assert (v_at (v_at v i) 0 = v) as -> by (destruct v; simpl in *; by subst). done.
  - assert (Hlt : i < v_size v).
    { revert Eo. unfold outofrange, v_tail. simpl. change (v_size (v_at v i)) with (v_size v). lia. }
    match goal with |- context [Xstrcpy_loop ?k ?v ?e ?s] =>
      destruct (Xstrcpy_loop_frame k v e s) as [(H1 & H2 & H3) Ht];
        [simpl; lia|unfold v_tail; simpl; change (v_size (v_at ?x ?y)) with (v_size x); lia|];
      set (w := Xstrcpy_loop k v e s) in *; clearbody w
    end.
    change (v_size (v_at v i)) with (v_size v) in H2. change (v_ok (v_at v i)) with (v_ok v) in H3.
    pose proof Hv as (Hvo & Hvs & Hvp).
    split; [|exact H2]. unfold holds, vwf. cbn [v_at v_buf v_pos v_ok].
    rewrite H3. change (v_size (v_at w 0)) with (v_size w). rewrite H2.
    repeat split; try done; try lia. rewrite Ht; [exact E|]. simpl. unfold zlen in *. lia.
Qed.

(** ** Sizes do not change *)

Lemma v_size_Xstrcpy v s : v_size (Xstrcpy v s) = v_size v.
Proof.
  assert (Hl : forall k v e s, v_size (Xstrcpy_loop k v e s) = v_size v).
  { intros k. induction k as [|k IH]; intros v' e s'; simpl; [apply v_size_poke|].
    destruct (_ =? 0); [apply v_size_poke|]. by rewrite IH, v_size_poke. }
  unfold Xstrcpy. destruct (outofrange v 0); [done|apply Hl].
Qed.

Lemma v_size_Xbcopy b v n : v_size (Xbcopy b v n) = v_size v.
Proof.
  assert (Hl : forall k v e s, v_size (blockcopy k v e s) = v_size v).
  { intros k. induction k as [|k IH]; intros v' e s'; simpl; [done|]. by rewrite IH, v_size_poke. }
  unfold Xbcopy. destruct (outofrange v n); [done|]. destruct (_ <? 0); [done|apply Hl].
Qed.

Lemma v_size_setVStrElem v x c : v_size (setVStrElem v x c) = v_size v.
Proof.
  unfold setVStrElem, XsetVStrEnd.
  repeat case_match; simpl; rewrite ?v_size_poke; done.
Qed.

Lemma v_size_setVStrElemInc v x c : v_size (fst (setVStrElemInc v x c)) = v_size v.
Proof.
  unfold setVStrElemInc, XsetVStrEnd.
  repeat case_match; simpl; rewrite ?v_size_poke; done.
Qed.

Lemma v_size_at v p : v_size (v_at v p) = v_size v.
Proof. done. Qed.

(** ** An environment

    The client's bytes and those of the peer are a state; the rest of the
    gateway answers by functions of the call, a [policy]. *)
Record world := World { w_in : list Z; w_eof : bool; w_peer : list Z }.

Record policy := {
  pl_auth : option (list Z * list Z) -> Z;
  pl_vsocket : list Z -> Z -> list Z -> list Z -> list Z -> Z * list Z * list Z;
  pl_via : list Z -> Z -> bool;
  pl_bindvia : list Z -> Z -> Z * list Z * Z;
  pl_acceptvia : Z -> Z * list Z * Z;
  pl_viaserver : list Z -> Z -> option (vsaddr * AuthInfo);
  pl_permit : list Z -> bool;
  pl_addr : list Z -> option (list Z);
  pl_host : list Z -> list Z;
  pl_srcif : list Z -> list Z -> Z -> option (list Z * Z);
  pl_poll : Z -> list Z -> Z * list Z;
  pl_sockname : Z -> vsaddr;
  pl_tos : Z;
  pl_froms : Z
}.

Definition gw_env (P : policy) : env gw_ans world := fun w c =>
  match c return option (gw_ans c * world) with
  | Getc => match w_in w with
            | [] => Some (-1, World [] true (w_peer w))
            | b :: r => Some (b, World r (w_eof w) (w_peer w))
            end
  | Fread n =>
      Some (take (Z.to_nat n) (w_in w),
            World (drop (Z.to_nat n) (w_in w)) (w_eof w || (zlen (w_in w) <? n)) (w_peer w))
  | Feof => Some (w_eof w, w)
  | Write _ => Some (tt, w)
  | Send _ b => Some (zlen b, w)
  | Recv _ n | ReadsTO _ n _ =>
      Some (Some (take (Z.to_nat n) (w_peer w)), World (w_in w) (w_eof w) (drop (Z.to_nat n) (w_peer w)))
  | PollIn _ _ => Some (1, w)
  | PollIns ms socks => Some (pl_poll P ms socks, w)
  | Socket _ => Some (3, w)
  | Connect _ _ _ => Some (0, w)
  | Sendto _ b _ _ => Some (zlen b, w)
  | Recvfrom _ _ => Some (None, w)
  | Getsockname s => Some (pl_sockname P s, w)
  | Close _ => Some (tt, w)
  | CTX_auth up => Some (pl_auth P up, w)
  | VSocket what sock local remote opts => Some (pl_vsocket P what sock local remote opts, w)
  | GetViaSocks h p => Some (pl_via P h p, w)
  | BindViaSocks h p => Some (pl_bindvia P h p, w)
  | AcceptViaSocks s => Some (pl_acceptvia P s, w)
  | VSA_getViaSocksX h p => Some (pl_viaserver P h p, w)
  | Set_realserver _ _ _ => Some (tt, w)
  | Service_permitted s => Some (pl_permit P s, w)
  | Gethostaddr h | GethostaddrX h => Some (pl_addr P h, w)
  | GethostbyAddr a => Some (pl_host P a, w)
  | SRCIFfor s h p => Some (pl_srcif P s h p, w)
  | Findopen_port _ h _ _ => Some (-1, h, w)
  | Tcp_relay2 _ _ _ _ _ => Some (tt, w)
  | CTX_ToS => Some (pl_tos P, w)
  | CTX_FromS => Some (pl_froms P, w)
  | FinishClnt | FinishServ => Some (tt, w)
  | ServerAlive => Some (true, w)
  | TimedOut => Some (false, w)
  | Undefined => None
  end.

(** A library without IPv6, and a gateway that grants everything. *)
Definition no_libc6 : libc6 := {|
  inet_pton6 := fun _ => None; inet_ntop6 := fun _ => None;
  getaddrinfo := fun _ => None; IPV6_unify4mapped := true |}.

Definition grant_all : policy := {|
  pl_auth := fun _ => 0;
  pl_vsocket := fun _ _ _ remote _ => (5, cs "10.0.0.1:1234", remote);
  pl_via := fun _ _ => false;
  pl_bindvia := fun _ _ => (-1, [], 0);
  pl_acceptvia := fun _ => (-1, [], 0);
  pl_viaserver := fun _ _ => None;
  pl_permit := fun _ => true;
  pl_addr := fun _ => Some (cs "192.0.2.1");
  pl_host := fun _ => [];
  pl_srcif := fun _ _ _ => None;
  pl_poll := fun _ _ => (1, [0; 1]);
  pl_sockname := fun _ => VSA AF_INET 1234 [10; 0; 0; 1] (repeat 0 16) 0 [];
  pl_tos := 5; pl_froms := 5
|}.
