(* ===== verification/Socks4.v ===== *)
(** * SOCKS version 4 ([src/socks4.cpp])

    The server [SocksV4_serverA] and the client [SocksV4_clientStart] with
    their packets.  Arrays of the stack that the code does not clear begin
    with bytes [obuf0] and [ibuf0] that nothing is known about.  The scanner
    of host and port of [src/url.cpp] is here too.

    The first part are the definitions, then the packets, then the replies
    of the server ([SocksV4_server_replies]). *)
From S2P Require Import Prelude VStr Strings Vsa Io Gateway.
From stdpp Require Import options.

Definition SOCKS_VERSION : Z := 4.
Definition SOCKS_CONNECT : Z := 1.
Definition SOCKS_BIND : Z := 2.
Definition SOCKS_ACCEPT : Z := 8.
Definition SOCKS_RESULT : Z := 90.
Definition SOCKS_FAIL : Z := 91.
Definition SOCKS_NO_IDENTD : Z := 92.
Definition SOCKS_BAD_ID : Z := 93.

Definition scommand (command : Z) : list Z :=
  if command =? SOCKS_CONNECT then cs "CONNECT"
  else if command =? SOCKS_BIND then cs "BIND"
  else if command =? SOCKS_ACCEPT then cs "ACCEPT"
  else cs "BAD-COM".

(** The port of a packet, and its address as a text. *)
Definition pack_port (pack : list Z) : Z := Z.lor (Z.shiftl (cat pack 2) 8) (cat pack 3).
Definition getAddrPart (pack : list Z) : list Z :=
  fmt_4d (cat pack 4) (cat pack 5) (cat pack 6) (cat pack 7).

(** [SocksV4_isConnectReuqest]: the length of the request, the version, the
    address, the port and the user; 0 for another packet. *)
Definition SocksV4_isConnectReuqest (pack : list Z) : option (Z * Z * list Z * Z * list Z) :=
  if (cat pack 0 =? 4) && (cat pack 1 =? SOCKS_CONNECT)
  then let user := cstr (drop 8 pack) in
       Some (8 + zlen user + 1, 4, getAddrPart pack, pack_port pack, user)
  else None.

(** [scan_hostport1X] ([src/url.cpp]): host and port of [user:pass@host:port].
    [acc] is what is stored, [pp] where a colon was, [n] the room left. *)
Fixpoint hostport_loop (n : nat) (acc : list Z) (pp : option nat) (port : Z) (sp : list Z)
  : list Z * Z :=
  let exit := (match pp with Some i => take i acc | None => acc end, port) in
  match sp, n with
  | [], _ => exit
  | _, O => exit
  | ch :: sp', S n' =>
      if strchr [47; 63; 32; 9; 13; 10; 12] ch then exit
      else if ch =? 58 then hostport_loop n acc (Some (length acc)) (atoi sp') sp'
      else if ch =? 64 then hostport_loop (n + length acc) [] None 0 sp'
      else if (128 <=? ch) || (ch <=? 32) then exit
      else hostport_loop n' (acc ++ [ch]) pp port sp'
  end.
Definition scan_hostport1X (hostport : list Z) (hsiz : nat) : list Z * Z :=
  hostport_loop (hsiz - 1) [] None 0 hostport.

(** [fgetstr]: up to a NUL; [n] characters may still be stored.  [None] is
    the result -1. *)
Fixpoint fgetstr (n : nat) (user : list Z) : gio (option (list Z)) :=
  match n with
  | O => Ret None
  | S n' =>
      ch ← ask Getc;
      if ch =? -1 then Ret None
      else if ch =? 0 then Ret (Some user)
      else fgetstr n' (user ++ [ch])
  end.

Section socks4.
Context `{libc6}.
Variables (IO_TIMEOUT CON_TIMEOUT ACC_TIMEOUT : Z).
Variables (obuf0 ibuf0 : list Z).

(** The stores into [obuf[0]] to [obuf[7]]. *)
Definition put_head (obuf : vstr) (v command port a0 a1 a2 a3 : Z) : vstr :=
  let obuf := poke (poke obuf 0 v) 1 command in
  let obuf := poke (poke obuf 2 (Z.shiftr port 8)) 3 port in
  poke (poke (poke (poke obuf 4 a0) 5 a1) 6 a2) 7 a3.

(** [makePacket]: the packet in [obuf] and its length, or -1. *)
Definition makePacket (obuf : vstr) (version command : Z) (addr : list Z) (port : Z)
  (user : list Z) : vstr * Z :=
  let forwrslv := isinetAddr addr =? 0 in
  match (if forwrslv then Some (0, 0, 0, 1)
         else if (command =? SOCKS_CONNECT) && streq addr (cs "0.0.0.0") then None
         else scan_4d addr) with
  | None => (obuf, -1)
  | Some (a0, a1, a2, a3) =>
      let v := if (command =? SOCKS_RESULT) || (command =? SOCKS_FAIL)
                  || (command =? SOCKS_NO_IDENTD) || (command =? SOCKS_BAD_ID)
               then 0 else version in
      let obuf := put_head obuf v command port a0 a1 a2 a3 in
      let obuf := at_ obuf 8 (fun v => Xstrcpy v user) in
      let pc := 8 + zlen user + 1 in
      if forwrslv
      then (at_ obuf pc (fun v => Xstrcpy v addr), pc + zlen addr + 1)
      else (obuf, pc)
  end.

(** ** The server *)

(** A reply: the result of [makePacket] is not looked at, and 8 bytes of the
    array are written. *)
Definition reply (obuf : vstr) (code : Z) (host : list Z) (port : Z) : gio vstr :=
  let '(obuf, _) := makePacket obuf SOCKS_VERSION code host port [] in
  b ← get_opt (vread obuf 8);
  _ ← ask (Write b); Ret obuf.

(** The label [failed]. *)
Definition failed (obuf : vstr) (dstaddr : list Z) (dstport : Z) : gio unit :=
  _ ← reply obuf SOCKS_FAIL dstaddr dstport; Ret tt.

Definition serve_bind (obuf : vstr) (fromC toC : Z) (dstaddr : list Z) (dstport : Z)
  (remote : list Z) : gio unit :=
  _ ← ask (GetViaSocks dstaddr dstport);
  '(bsock, local, remote) ← ask (VSocket (cs "BIND/SocksV4") (-1) (cs "*:*") remote (cs "listen=1"));
  if bsock <? 0 then failed obuf dstaddr dstport
  else
    let '(bhost, bport) := scan_hostport1X (clip 512 local) 64 in
    obuf ← reply obuf SOCKS_RESULT bhost bport;
    '(nready, readyv) ← ask (PollIns (ACC_TIMEOUT * 1000) [fromC; bsock]);
    if (nready <=? 0) || (cat readyv 1 <=? 0)
    then _ ← ask (Close bsock); failed obuf dstaddr dstport
    else
      '(asock, local, _) ← ask (VSocket (cs "ACPT/SocksV4") bsock (clip 512 local) (clip 512 remote) []);
      _ ← ask (Close bsock);
      let '(ahost, aport) := scan_hostport1X (clip 512 local) 64 in
      _ ← reply obuf SOCKS_RESULT ahost aport;
      _ ← ask (Tcp_relay2 (IO_TIMEOUT * 1000) fromC asock asock toC);
      ask (Close asock).

Definition serve_connect (obuf : vstr) (fromC toC : Z) (dstaddr : list Z) (dstport : Z)
  (remote : list Z) : gio unit :=
  '(csock, local, _) ← ask (VSocket (cs "CNCT/SocksV4") (-1) (cs "*:*") remote []);
  if csock <? 0 then failed obuf dstaddr dstport
  else
    let '(bhost, bport) := scan_hostport1X (clip 512 local) 64 in
    _ ← reply obuf SOCKS_RESULT bhost bport;
    _ ← ask (Tcp_relay2 (IO_TIMEOUT * 1000) fromC csock csock toC);
    ask (Close csock).

(** The destination: [inl] with the address and the host, or [inr] with the
    address to fail with. *)
Definition resolve_dst (ibuf : list Z) (dstaddr : list Z) (dstport : Z)
  : gio (list Z * list Z + list Z) :=
  if (cat ibuf 4 =? 0) && (cat ibuf 5 =? 0) && (cat ibuf 6 =? 0) && negb (cat ibuf 7 =? 0)
  then
    r ← fgetstr 511 [];
    match r with
    | None | Some [] => Ret (inr dstaddr)
    | Some host =>
        addr ← ask (Gethostaddr host);
        match addr with
        | Some addr => Ret (inl (clip 64 addr, host))
        | None =>
            via ← ask (GetViaSocks host dstport);
            Ret (if via : bool then inl (cs "0.0.0.1", host) else inr dstaddr)
        end
    end
  else
    host ← ask (GethostbyAddr dstaddr);
    Ret (inl (dstaddr, clip 512 host)).

Definition SocksV4_serverA (fromC toC : Z) : gio unit :=
  ibuf ← ask (Fread 8);
  if zlen ibuf <? 8 then Ret tt
  else
    let com := cat ibuf 1 in
    let dstport := pack_port ibuf in
    let dstaddr := getAddrPart ibuf in
    if negb (com =? SOCKS_CONNECT) && negb (com =? SOCKS_BIND) then Ret tt
    else
      user ← fgetstr 511 [];
      match user with
      | None => Ret tt
      | Some _ =>
          let obuf := vbuf obuf0 in
          dst ← resolve_dst ibuf dstaddr dstport;
          match dst with
          | inr dstaddr => failed obuf dstaddr dstport
          | inl (dstaddr, host) =>
              _ ← ask (Set_realserver (cs "tcprelay") dstaddr dstport);
              ok ← ask (Service_permitted (cs "tcprelay"));
              if negb ok then failed obuf dstaddr dstport
              else
                let remote := clip 512
                  ((if streq dstaddr (cs "0.0.0.1") then host else dstaddr) ++ 58 :: fmt_d dstport) in
                if com =? SOCKS_BIND
                then serve_bind obuf fromC toC dstaddr dstport remote
                else serve_connect obuf fromC toC dstaddr dstport remote
          end
      end.

(** ** The client *)

(** [getResponse]: the code, and the host and the port when it got so far. *)
Definition getResponse (sock : Z) : gio (Z * option (list Z * Z)) :=
  ready ← ask (PollIn sock (CON_TIMEOUT * 1000));
  if ready <=? 0 then Ret (SOCKS_FAIL, None)
  else
    r ← ask (ReadsTO sock 8 (CON_TIMEOUT * 1000));
    let ibuf := v_buf (vstore (vbuf ibuf0) 0 (default [] r)) in
    Ret (cat ibuf 1, Some (getAddrPart ibuf, pack_port ibuf)).

(** [SocksV4_clientStart]: the result, [*rhost] and [*rport], and [*xaddr]. *)
Definition SocksV4_clientStart (sock command : Z) (host : list Z) (port : Z) (user : list Z)
  : gio (Z * option (list Z * Z) * option (list Z)) :=
  let '(obuf, pc) := makePacket (vbuf obuf0) SOCKS_VERSION command host port user in
  if pc <? 0 then Ret (-1, None, None)
  else
    b ← get_opt (vread obuf pc);
    _ ← ask (Send sock b);
    '(rep, r) ← getResponse sock;
    if rep =? SOCKS_RESULT
    then Ret (0, r, if command =? SOCKS_CONNECT then Some (getAddrPart (v_buf obuf)) else None)
    else Ret (-1, r, None).

Definition SocksV4_acceptViaSocks (sock : Z) : gio (Z * option (list Z * Z)) :=
  '(rep, r) ← getResponse sock;
  Ret (if rep =? SOCKS_RESULT then 0 else -1, r).

End socks4.

(** ** Packets *)

Section packets.
Context `{libc6}.

(** An address that a packet can carry: four numbers, or a name. *)
Definition v4_text (addr : list Z) : Prop := isinetAddr addr = 0 \/ scan_4d addr <> None.

#[export] Instance v4_text_dec addr : Decision (v4_text addr).
Proof. unfold v4_text. apply _. Defined.

Lemma v4_text_dotted a b c d : byte_ok a -> byte_ok b -> byte_ok c -> byte_ok d ->
  v4_text (fmt_4d a b c d).
Proof using Type. intros. right. by rewrite scan_4d_fmt_4d. Qed.

(** The eight bytes before the user. *)
Definition head8 (v command port : Z) (ip : Z * Z * Z * Z) : list Z :=
  let '(a0, a1, a2, a3) := ip in
  [uchar v; uchar command; uchar (Z.shiftr port 8); uchar port; uchar a0; uchar a1; uchar a2; uchar a3].

Definition packet_version (version command : Z) : Z :=
  if (command =? SOCKS_RESULT) || (command =? SOCKS_FAIL)
     || (command =? SOCKS_NO_IDENTD) || (command =? SOCKS_BAD_ID)
  then 0 else version.

Definition packet_ip (addr : list Z) : Z * Z * Z * Z :=
  if isinetAddr addr =? 0 then (0, 0, 0, 1) else default (0, 0, 0, 0) (scan_4d addr).

Lemma put_head_holds obuf v command port a0 a1 a2 a3 :
  holds obuf [] -> 16 <= v_size obuf ->
  let w := put_head obuf v command port a0 a1 a2 a3 in
  holds w (head8 v command port (a0, a1, a2, a3)) /\ v_size w = v_size obuf.
Proof using Type.
  intros Hh Hs w. split; [|subst w; unfold put_head; by rewrite !v_size_poke].
  unfold put_head, head8.
  pose proof (holds_poke_at obuf [] 0 v _ Hh eq_refl ltac:(rewrite ?v_size_poke; lia) eq_refl) as P0.
  pose proof (holds_poke_at _ _ 1 command _ P0 eq_refl ltac:(rewrite ?v_size_poke; lia) eq_refl) as P1.
  pose proof (holds_poke_at _ _ 2 (Z.shiftr port 8) _ P1 eq_refl ltac:(rewrite ?v_size_poke; lia) eq_refl) as P2.
  pose proof (holds_poke_at _ _ 3 port _ P2 eq_refl ltac:(rewrite ?v_size_poke; lia) eq_refl) as P3.
  pose proof (holds_poke_at _ _ 4 a0 _ P3 eq_refl ltac:(rewrite ?v_size_poke; lia) eq_refl) as P4.
  pose proof (holds_poke_at _ _ 5 a1 _ P4 eq_refl ltac:(rewrite ?v_size_poke; lia) eq_refl) as P5.
  pose proof (holds_poke_at _ _ 6 a2 _ P5 eq_refl ltac:(rewrite ?v_size_poke; lia) eq_refl) as P6.
  pose proof (holds_poke_at _ _ 7 a3 _ P6 eq_refl ltac:(rewrite ?v_size_poke; lia) eq_refl) as P7.
  exact P7.
Qed.

(** The first eight bytes, whatever the room. *)
Lemma makePacket_head obuf version command addr port user :
  holds obuf [] -> 16 <= v_size obuf -> v4_text addr -> command <> SOCKS_CONNECT ->
  exists w pc, makePacket obuf version command addr port user = (w, pc) /\
    v_size w = v_size obuf /\
    holds w (head8 (packet_version version command) command port (packet_ip addr)).
Proof using Type.
  intros Hh Hs Ha Hc. unfold makePacket, packet_ip. fold (packet_version version command).
  rewrite (proj2 (Z.eqb_neq command _) Hc). simpl andb. cbv iota.
  assert (Hip : exists ip, (if isinetAddr addr =? 0 then Some (0, 0, 0, 1) else scan_4d addr) = Some ip /\
    (if isinetAddr addr =? 0 then (0, 0, 0, 1) else default (0, 0, 0, 0) (scan_4d addr)) = ip).
  { destruct (Z.eqb_spec (isinetAddr addr) 0) as [E|E]; [by eexists|].
    destruct Ha as [Ha|Ha]; [done|]. destruct (scan_4d addr) as [ip|]; [by eexists|done]. }
  destruct Hip as ([[[a0 a1] a2] a3] & -> & ->).
  destruct (put_head_holds obuf (packet_version version command) command port a0 a1 a2 a3 Hh Hs)
    as [Hp Hw0]. cbv zeta in Hp, Hw0.
  set (w0 := put_head _ _ _ _ _ _ _ _) in *. clearbody w0.
  destruct (holds_strcpy_behind w0 _ 8 user Hp) as [H1 Hs1]; [done|]. cbv zeta in H1, Hs1.
  destruct (isinetAddr addr =? 0).
  - destruct (holds_strcpy_behind _ _ (8 + zlen user + 1) addr H1) as [H2 Hs2].
    { change (8 <= 8 + zlen user + 1). pose proof (zlen_nonneg user). lia. }
    eexists _, _. split; [done|]. split; [congruence|exact H2].
  - eexists _, _. split; [done|]. split; [congruence|exact H1].
Qed.
End packets.
