(* ===== verification/Socks4Spec.v ===== *)
(** * What the SOCKS4 server does ([src/socks4.cpp])

    The monitor [mon4] reads the trace of a run: it takes down the decision
    of [service_permitted], the sockets that were asked for, the packets that
    were written and the connections that were relayed, and it rejects a
    socket before the permission.  [verdict4] says which of these can come
    together: a request that is complete gets its answer, the answer tells
    what happened, and nothing is relayed that was not granted. *)
From S2P Require Import Prelude VStr Strings Vsa Io Gateway Socks4.
From stdpp Require Import options.

Record sum4 := Sum4 {
  p_perm : option bool;
  p_socks : list Z;
  p_replies : list (list Z);
  p_relays : list Z
}.
Definition sum4_0 : sum4 := Sum4 None [] [] [].

Definition mon4 : monitor gw_ans sum4 := fun s c =>
  match c return gw_ans c -> option sum4 with
  | Service_permitted _ => fun b => Some (Sum4 (Some b) (p_socks s) (p_replies s) (p_relays s))
  | VSocket _ _ _ _ _ => fun '(sock, _, _) =>
      if decide (p_perm s = Some true)
      then Some (Sum4 (p_perm s) (p_socks s ++ [sock]) (p_replies s) (p_relays s)) else None
  | Write b => fun _ => Some (Sum4 (p_perm s) (p_socks s) (p_replies s ++ [b]) (p_relays s))
  | Tcp_relay2 _ _ sv _ _ => fun _ => Some (Sum4 (p_perm s) (p_socks s) (p_replies s) (p_relays s ++ [sv]))
  | Undefined => fun _ => None
  | _ => fun _ => Some s
  end.

(** The code of a packet of eight bytes. *)
Definition is_reply (code : Z) (b : list Z) : Prop :=
  length b = 8%nat /\ cat b 0 = 0 /\ cat b 1 = code.

Definition verdict4 (s : sum4) : Prop :=
  match p_socks s, p_replies s, p_relays s with
  (* the request did not come to its end *)
  | [], [], [] => p_perm s = None
  (* the destination is unknown or not permitted *)
  | [], [b], [] => is_reply SOCKS_FAIL b /\ p_perm s <> Some true
  (* no connection *)
  | [sock], [b], [] => is_reply SOCKS_FAIL b /\ sock < 0
  (* CONNECT *)
  | [sock], [b], [sv] => is_reply SOCKS_RESULT b /\ 0 <= sock /\ sv = sock
  (* BIND, and nobody came *)
  | [sock], [b1; b2], [] => is_reply SOCKS_RESULT b1 /\ is_reply SOCKS_FAIL b2 /\ 0 <= sock
  (* BIND *)
  | [sock; asock], [b1; b2], [sv] =>
      is_reply SOCKS_RESULT b1 /\ is_reply SOCKS_RESULT b2 /\ 0 <= sock /\ sv = asock
  | _, _, _ => False
  end.

Section spec.
Context `{libc6}.

(** What the answers have to be: bytes, and addresses of IPv4 or names,
    which is what a packet can carry. *)
Definition ok4 (c : gw) : gw_ans c -> Prop :=
  match c return gw_ans c -> Prop with
  | Getc => fun ch => -1 <= ch < 256
  | Fread n => fun b => bytes_ok b
  | VSocket _ _ _ _ _ => fun '(_, local, _) => v4_text (fst (scan_hostport1X (clip 512 local) 64))
  | Gethostaddr _ => fun r => match r with Some a => v4_text (clip 64 a) | None => True end
  | _ => fun _ => True
  end.

Definition buf4 (obuf : vstr) : Prop := holds obuf [] /\ v_size obuf = 16.

Lemma is_reply_head code port ip b : code = SOCKS_RESULT \/ code = SOCKS_FAIL ->
  b = head8 (packet_version SOCKS_VERSION code) code port ip -> is_reply code b.
Proof using Type. intros [-> | ->] ->; by destruct ip as [[[a0 a1] a2] a3]. Qed.

Lemma obeys_reply {A} (obuf : vstr) code host port (k : vstr -> gio A) s Q :
  buf4 obuf -> v4_text host -> code = SOCKS_RESULT \/ code = SOCKS_FAIL ->
  (forall b w, is_reply code b -> buf4 w ->
     obeys mon4 ok4 (Sum4 (p_perm s) (p_socks s) (p_replies s ++ [b]) (p_relays s)) (k w) Q) ->
  obeys mon4 ok4 s (reply obuf code host port ≫= k) Q.
Proof using Type.
  intros [Hh Hs] Hv Hc Hk. unfold reply.
  destruct (makePacket_head obuf SOCKS_VERSION code host port [] Hh) as (w & pc & E & Hw & Hhd);
    [lia|done|by destruct Hc as [-> | ->]|].
  rewrite E. pose proof (holds_vread w _ Hhd) as Hr.
  assert (Hb : buf4 w) by (split; [by apply (holds_prefix w []  _ Hhd)|congruence]).
  set (b := head8 _ _ _ _) in *.
  assert (Hrep : is_reply code b) by by eapply is_reply_head.
  replace (zlen b) with 8 in Hr by (unfold zlen; by rewrite (proj1 Hrep)).
  rewrite Hr. simpl. intros [] _. eexists. split; [done|]. by apply Hk.
Qed.

Lemma obeys_failed (obuf : vstr) host port s Q :
  buf4 obuf -> v4_text host ->
  (forall b, is_reply SOCKS_FAIL b ->
     Q (Sum4 (p_perm s) (p_socks s) (p_replies s ++ [b]) (p_relays s)) tt) ->
  obeys mon4 ok4 s (failed obuf host port) Q.
Proof using Type.
  intros Hb Hv HQ. unfold failed. apply obeys_reply; [done|done|by right|].
  intros b w Hr _. simpl. by apply HQ.
Qed.

Lemma obeys_fgetstr n acc s : 
  obeys mon4 ok4 s (fgetstr n acc) (fun s' _ => s' = s).
Proof using Type.
  revert acc. induction n as [|n IH]; intros acc; simpl; [done|].
  intros ch Hch. exists s. split; [done|]. simpl in ch.
  destruct (ch =? -1); [done|]. destruct (ch =? 0); [done|]. apply IH.
Qed.

Variables (IO_TIMEOUT ACC_TIMEOUT : Z).

Lemma obeys_connect obuf fromC toC dstaddr dstport remote :
  buf4 obuf -> v4_text dstaddr ->
  obeys mon4 ok4 (Sum4 (Some true) [] [] [])
    (serve_connect IO_TIMEOUT obuf fromC toC dstaddr dstport remote) (fun s _ => verdict4 s).
Proof using Type.
  intros Hb Hd. unfold serve_connect. io_call [[csock local] rem] Hok. simpl in Hok. destruct (Z.ltb_spec csock 0).
  - by apply obeys_failed.
  - destruct (scan_hostport1X (clip 512 local) 64) as [bhost bport]. simpl in Hok.
    apply obeys_reply; [done|done|by left|]. intros b w Hr _.
    io_call [] _. io_call [] _. by simpl.
Qed.

Lemma obeys_bind4 obuf fromC toC dstaddr dstport remote :
  buf4 obuf -> v4_text dstaddr ->
  obeys mon4 ok4 (Sum4 (Some true) [] [] [])
    (serve_bind IO_TIMEOUT ACC_TIMEOUT obuf fromC toC dstaddr dstport remote) (fun s _ => verdict4 s).
Proof using Type.
  intros Hb Hd. unfold serve_bind. io_call via _.
  io_call [[bsock local] rem] Hok. simpl in Hok.
  destruct (Z.ltb_spec bsock 0).
  - by apply obeys_failed.
  - destruct (scan_hostport1X (clip 512 local) 64) as [bhost bport]. simpl in Hok.
    apply obeys_reply; [done|done|by left|]. intros b w Hr Hw.
    io_call [nready readyv] _.
    destruct ((nready <=? 0) || (cat readyv 1 <=? 0)).
    + io_call [] _. apply obeys_failed; [done|done|]. by intros b2 Hr2.
    + io_call [[asock local2] rem2] Hok2. simpl in Hok2.
      io_call [] _.
      destruct (scan_hostport1X (clip 512 local2) 64) as [ahost aport]. simpl in Hok2.
      apply obeys_reply; [done|done|by left|]. intros b2 w2 Hr2 _.
      io_call [] _. io_call [] _. by simpl.
Qed.

(** Either way the address is one that a packet can carry. *)
Lemma obeys_resolve ibuf dstport s : bytes_ok ibuf ->
  obeys mon4 ok4 s (resolve_dst ibuf (getAddrPart ibuf) dstport)
    (fun s' dst => s' = s /\
       match dst with inl (dstaddr, _) => v4_text dstaddr | inr dstaddr => v4_text dstaddr end).
Proof using Type.
  intros Hb.
  assert (Hd : v4_text (getAddrPart ibuf)).
  { assert (Hc : forall i, byte_ok (cat ibuf i)).
    { intros i. unfold cat. destruct (i <? 0); [by compute|].
      destruct (nth_in_or_default (Z.to_nat i) ibuf 0) as [Hi| ->]; [|by compute].
      unfold bytes_ok in Hb. rewrite Forall_forall in Hb. by apply Hb, list_elem_of_In. }
    by apply v4_text_dotted. }
  unfold resolve_dst. destruct (_ && _).
  - apply obeys_bind. eapply obeys_mono; [|apply obeys_fgetstr].
    intros s' [[|x host]|] ->; [by split| |by split].
    io_call addr Ha. simpl in addr, Ha.
    destruct addr as [addr|]; [done|].
    io_call via _. simpl. split; [done|].
    destruct via; [|done]. right. by vm_compute.
  - io_call host _. done.
Qed.

Lemma obeys_serverA obuf0 fromC toC : length obuf0 = 16%nat ->
  obeys mon4 ok4 sum4_0 (SocksV4_serverA IO_TIMEOUT ACC_TIMEOUT obuf0 fromC toC) (fun s _ => verdict4 s).
Proof using Type.
  intros Hl.
  assert (Hbuf : buf4 (vbuf obuf0)).
  { split; [|unfold v_size, zlen; simpl; lia].
    apply holds_nil; [|done]. unfold vwf, v_size, zlen. simpl. lia. }
  unfold SocksV4_serverA. io_call ibuf Hib. simpl in ibuf, Hib.
  destruct (zlen ibuf <? 8); [done|]. destruct (_ && _); [done|].
  apply obeys_bind. eapply obeys_mono; [|apply obeys_fgetstr].
  intros s' [user|] ->; [|done].
  apply obeys_bind. eapply obeys_mono; [|by apply obeys_resolve].
  intros s' [[dstaddr host]|dstaddr] [-> Hd].
  - io_call [] _. io_call ok _. simpl in ok. destruct ok; cbn [negb].
    + destruct (_ =? SOCKS_BIND); [by apply obeys_bind4|by apply obeys_connect].
    + by apply obeys_failed.
  - by apply obeys_failed.
Qed.

(** C20. The SOCKS4 server and its replies.  In each run of the server in
    which its surroundings answer with bytes, and the local addresses of its
    sockets and the addresses of hosts are texts of IPv4 or names (for others
    [makePacket] refuses, and bytes of an array that is not set are sent),
    sockets are asked for only after [service_permitted] has said yes,
    and the run ends in one of six ways: the request is incomplete or has
    another command, and nothing happens; the destination is unknown or
    refused, and exactly one packet with the code 91 is the answer; the
    connection fails, and it is the same; for CONNECT, one packet with 90 and
    then the relay to that socket; for BIND, one packet with 90 and, if nobody
    comes in time, one with 91; or a second one with 90 and the relay to what
    [accept] returned, also when that failed and is negative: a granted reply
    behind a failed [accept] is what the code sends. *)
Theorem SocksV4_server_replies obuf0 fromC toC tr r :
  length obuf0 = 16%nat ->
  runs (SocksV4_serverA IO_TIMEOUT ACC_TIMEOUT obuf0 fromC toC) tr r ->
  Forall (ev_ok gw_ans ok4) tr ->
  exists s, accepts mon4 sum4_0 tr = Some s /\ verdict4 s.
Proof using Type.
  intros Hl Hr Ht.
  exact (obeys_sound _ _ _ _ _ _ _ _ (obeys_serverA obuf0 fromC toC Hl) Hr Ht).
Qed.
End spec.

#[export] Instance ok4_dec `{libc6} c x : Decision (ok4 c x).
Proof.
  destruct c; simpl in *; repeat case_match; apply _.
Defined.

#[local] Existing Instance no_libc6.

(** A client asks for a connection to 192.0.2.1, port 80. *)
Definition request4 : list Z := [4; 1; 0; 80; 192; 0; 2; 1] ++ cs "me" ++ [0].

Lemma SocksV4_server_replies_witness :
  let tr := trace_of (gw_env grant_all) (World request4 false [])
              (SocksV4_serverA 600 30 (repeat 7 16) 0 1) in
  exists s, accepts mon4 sum4_0 tr = Some s /\ verdict4 s.
Proof.
  apply (SocksV4_server_replies 600 30 (repeat 7 16) 0 1 _ tt).
  - reflexivity.
  - apply (run_runs _ (gw_env grant_all) _ (World request4 false []) _ _ (World [] false [])).
    vm_compute. reflexivity.
  - apply (bool_decide_unpack _). vm_compute. exact I.
Defined.
