(* ===== verification/Socks5.v ===== *)
(** * SOCKS version 5 ([rary/socks5.cpp])

    The client ([SOCKS_startV5], [SOCKS_udpassocX], [SOCKS_sendto] and the
    like), the relay of datagrams ([udp_relay_socks]) and the server
    ([SOCKS_serverV5A]).  The tables of [Socks5Env] and the variables
    [socks_host], [socks_port] and [socks_sock] are a state that operations
    take and return; a table is the list of the entries in use.  Arrays of
    the stack are cleared ([JStr], [UJStr], [IStr]); a local [VSAddr] that
    is not set begins with zeros.  [ctx] tells if a context is there.

    Closing an association in a full table copies from behind the array:
    [SOCKS_udpclose] is [None] there.

    The relay loops for ever; it has a fuel, and [None] is its end.  The
    counters that only the log shows are not modelled. *)
From S2P Require Import Prelude VStr Strings Vsa Io Gateway.
From stdpp Require Import options.

Definition AUTH_M_NONE : Z := 0.
Definition AUTH_M_USERPASS : Z := 2.
Definition AUTH_M_ERROR : Z := 255.
Definition AUTH_R_OK : Z := 0.
Definition AUTH_R_ERR : Z := 1.

Record PackHead := { p_ver : Z; p_cmd : Z; p_rsv : Z; p_typ : Z; p_host : list Z; p_port : Z }.
Record SocksServ := { s_ssock : Z; s_rme : vsaddr; s_msock : Z; s_me : vsaddr }.
Record socks5 := Socks5 {
  socks_host : option (list Z);
  socks_port : Z;
  socks_sock : Z;
  socksServ : list SocksServ;
  to_socksV : list vsaddr
}.
Definition socks5_init : socks5 := Socks5 None 1080 (-1) [] [].

Definition set_socks_sock (st : socks5) (s : Z) : socks5 :=
  Socks5 (socks_host st) (socks_port st) s (socksServ st) (to_socksV st).
Definition set_socksServ (st : socks5) (l : list SocksServ) : socks5 :=
  Socks5 (socks_host st) (socks_port st) (socks_sock st) l (to_socksV st).

(** A message that is built with [addQbuf]: the buffer and [qcc]. *)
Definition addb (m : vstr * Z) (c : Z) : vstr * Z := setVStrElemInc (fst m) (snd m) c.
Definition adds (m : vstr * Z) (s : list Z) : vstr * Z :=
  (at_ (fst m) (snd m) (fun v => Xstrcpy v s), snd m + zlen s).
Definition addn (m : vstr * Z) (b : list Z) (n : Z) : vstr * Z :=
  (at_ (fst m) (snd m) (fun v => Xbcopy b v n), snd m + n).
Definition buf512 : vstr := zeros 512.
Definition is_nil {A} (l : list A) : bool := match l with [] => true | _ => false end.

Section socks5.
Context `{libc6}.
Variable VSA_afunixroot : list Z.
Abbreviation VSA_atosa := (VSA_atosa VSA_afunixroot).

(** ** Messages *)

(** [recv_mssg]: the buffer and the number of bytes. *)
Definition recv_mssg (sock : Z) (buf : vstr) (siz : Z) : gio (vstr * Z) :=
  r ← ask (Recv sock 10);
  match r with
  | None => Ret (buf, -1)
  | Some b =>
      let buf := vstore buf 0 b in
      let rcc := zlen b in
      if rcc <? 10 then Ret (buf, rcc)
      else if negb (cat (v_buf buf) 0 =? 5) then Ret (buf, rcc)
      else
        let atyp := cat (v_buf buf) 3 in
        let alen := if atyp =? 3 then 1 + cat (v_buf buf) 4 - 4
                    else if atyp =? 4 then 16 - 4 else 0 in
        if siz <? rcc + alen then Ret (buf, rcc)
        else if alen =? 0 then Ret (buf, rcc)
        else if alen <? 0 then undefined
        else
          r ← ask (Recv sock alen);
          Ret (match r with
               | Some b => (vstore buf rcc b, rcc + zlen b)
               | None => (buf, rcc - 1)
               end)
  end.

(** [scanPack]: [pack] has the [rcc] bytes; a byte that is missing is -1. *)
Definition getpc (l : list Z) : Z * list Z :=
  match l with b :: l' => (b, l') | [] => (-1, []) end.
Fixpoint getpcs (n : nat) (l : list Z) : list Z * list Z :=
  match n with
  | O => ([], l)
  | S n' => let '(b, l) := getpc l in let '(bs, l) := getpcs n' l in (uchar b :: bs, l)
  end.
Definition pack_host (typ : Z) (qh : list Z) : list Z :=
  if typ =? 1 then fmt_4d (cat qh 0) (cat qh 1) (cat qh 2) (cat qh 3)
  else if typ =? 3 then cstr qh
  else if typ =? 4 then VSA_ltoa qh 16 AF_INET6
  else [].
Definition scanPack (pack : list Z) : PackHead * Z :=
  let '(ver, l) := getpc pack in
  let '(cmd, l) := getpc l in
  let '(rsv, l) := getpc l in
  let '(typ, l) := getpc l in
  let typ := uchar typ in
  let '(aleng, l) := if typ =? 1 then (4, l) else if typ =? 3 then getpc l
                     else if typ =? 4 then (16, l) else (0, l) in
  let '(hostbuf, l) := getpcs (Z.to_nat aleng) l in
  let host := pack_host typ hostbuf in
  if zlen l <? 2 then (Build_PackHead (uchar ver) (uchar cmd) (uchar rsv) typ host (-1), -1)
  else
    let '(hi, l) := getpc l in
    let '(lo, l) := getpc l in
    (Build_PackHead (uchar ver) (uchar cmd) (uchar rsv) typ host (Z.lor (Z.shiftl hi 8) lo), 0).

(** [VSA_stosaX]: the address of a message. *)
Definition VSA_stosaX (sap : vsaddr) (resp : list Z) : vsaddr * Z :=
  VSA_stosa sap (if cat resp 3 =? 4 then AF_INET6 else AF_INET) (drop 4 resp).

(** ** Tables *)

Definition SOCKSSERVS : Z := 32.
(** The entry with the socket goes, and those behind it move up.  The last
    step of the loop copies [socksServ[socksServN]]: with a full table that is
    a read behind the end of the array, [None]. *)
Definition SOCKS_udpclose (st : socks5) (msock : Z) : option socks5 :=
  match list_find (fun e => s_msock e = msock) (socksServ st) with
  | None => Some st
  | Some (si, _) =>
      if SOCKSSERVS <=? zlen (socksServ st) then None
      else Some (set_socksServ st (delete si (socksServ st)))
  end.

Definition SOCKS_addserv (st : socks5) (dhost : list Z) (dport : Z) (shost : list Z) (sport : Z)
  : socks5 :=
  let st := Socks5 (Some shost) sport (socks_sock st) (socksServ st) (to_socksV st) in
  let wild := streq dhost (cs "*") in
  let dhost := if wild then cs "255.255.255.255" else dhost in
  if negb wild && (VSA_strisaddr dhost =? 0) then st
  else if 8 <=? zlen (to_socksV st) then st
  else
    let to := fst (VSA_atosa vsa0 dport dhost) in
    if existsb (fun v => VSA_comp to v =? 0) (to_socksV st) then st
    else Socks5 (socks_host st) (socks_port st) (socks_sock st) (socksServ st) (to_socksV st ++ [to]).

Definition SOCKS_via_socks (st : socks5) (dist : vsaddr) : bool :=
  existsb (fun can1 => (VSA_addr can1 =? -1) || (VSA_comp can1 dist =? 0)) (to_socksV st).

Definition UDPviaSocks (host : option (list Z)) : bool :=
  match host with Some h => negb (VSA_strisaddr h =? 0) | None => false end.

(** ** The client *)

(** The message with the user and the password. *)
Definition put_auth (qbuf : vstr) (user pass : list Z) : vstr * Z :=
  adds (addb (adds (addb (addb (qbuf, 0) 1) (zlen user)) user) (zlen pass)) pass.

(** [doAuth]: [aub] is the reply with the method. *)
Definition doAuth (sock : Z) (aub : list Z) (acc : Z) (auth : option AuthInfo) : gio Z :=
  if acc <? 2 then Ret (-1)
  else if cat aub 1 =? AUTH_M_NONE then Ret 0
  else if negb (cat aub 1 =? AUTH_M_USERPASS) then Ret (-2)
  else match auth with
  | None => Ret (-3)
  | Some au =>
      let '(qbuf, qcc) := put_auth buf512 (i_user au) (i_pass au) in
      b ← emit qbuf qcc;
      _ ← ask (Send sock b);
      r ← ask (Recv sock 2);
      let rbuf := vstore buf512 0 (default [] r) in
      Ret (if negb (cat (v_buf rbuf) 1 =? 0) then -4 else 0)
  end.

Definition CTX_VSA_SRCIFfor (ctx : bool) (wh : list Z) (me : vsaddr) : gio (bool * vsaddr) :=
  if negb ctx then Ret (false, me)
  else
    let ohost := clip 64 (VSA_ntoa me) in
    r ← ask (SRCIFfor wh ohost (VSA_port me));
    match r with
    | None => Ret (false, me)
    | Some (lhost, lport) =>
        let lport := if lport =? -65536 then 0 else lport in
        a ← ask (GethostaddrX lhost);
        laddr ← get_opt a;
        Ret (true, fst (VSA_atosa me lport (clip 64 laddr)))
    end.

(** [SOCKS_udpassoc0X]: the result, [*me] and [*rme]. *)
Definition put_udpassoc (me : vsaddr) : vstr * Z :=
  let '(baddr, btype, bport, bleng) := VSA_decomp me in
  let m := addb (addb (addb (buf512, 0) 5) 3) 0 in
  let m := addb m (if btype =? AF_INET6 then 4 else 1) in
  addn (addn m baddr bleng) bport 2.
Definition SOCKS_udpassoc0X (ctx : bool) (sock : Z) (me : vsaddr) (auth : option AuthInfo)
  : gio (Z * vsaddr * option vsaddr) :=
  let meth := match auth with
              | Some au => if is_nil (i_user au) then 0 else AUTH_M_USERPASS
              | None => 0
              end in
  _ ← ask (Send sock [5; 1; meth]);
  r ← ask (Recv sock 2);
  let resp := vstore buf512 0 (default [] r) in
  let rcc := match r with Some b => zlen b | None => -1 end in
  a ← doAuth sock (v_buf resp) rcc auth;
  if (a <? 0) && ((rcc <? 2) || negb (cat (v_buf resp) 1 =? 0))
  then _ ← ask (Close sock); Ret (-1, me, None)
  else
    '(_, me) ← CTX_VSA_SRCIFfor ctx (cs "socks-udp-tosv") me;
    let '(qbuf, qcc) := put_udpassoc me in
    b ← emit qbuf qcc;
    _ ← ask (Send sock b);
    '(resp, rcc) ← recv_mssg sock (poke (poke resp 0 0) 1 0) 512;
    let bad := (rcc <? 10) || negb (cat (v_buf resp) 1 =? 0) in
    if bad && negb (snd (scanPack (take (Z.to_nat rcc) (v_buf resp))) =? 0)
    then _ ← ask (Close sock); Ret (-1, me, None)
    else Ret (0, me, Some (fst (VSA_stosaX vsa0 (v_buf resp)))).

(** [SOCKS_udpassocX]: the result, [*me], [*rme] and the new state. *)
Definition SOCKS_udpassocX (ctx : bool) (st : socks5) (msock : Z) (me : vsaddr)
  : gio (Z * vsaddr * option vsaddr * socks5) :=
  match socks_host st with
  | None => Ret (-1, me, None, st)
  | Some host =>
      match List.find (fun e => VSA_comp (s_me e) me =? 0) (socksServ st) with
      | Some e => Ret (0, me, Some (s_rme e), set_socks_sock st (s_ssock e))
      | None =>
          if SOCKSSERVS <=? zlen (socksServ st) then Ret (-1, me, None, st)
          else
            let '(sab, salen) := VSA_atosa vsa0 (socks_port st) host in
            osock ← ask (Socket (VSA_af sab));
            '(sock, rcode) ←
              (if ctx then
                 let remote := clip 256 (host ++ 58 :: fmt_d (socks_port st)) in
                 '(sock, _, _) ← ask (VSocket (cs "CNCT/SocksV5") osock (cs "*:*") remote (cs "proto=socks"));
                 if negb (sock =? osock) then _ ← ask (Close osock); Ret (sock, 0) else Ret (sock, 0)
               else
                 rc ← ask (Connect osock sab salen); Ret (osock, rc));
            if rcode <? 0 then _ ← ask (Close sock); Ret (-1, me, None, st)
            else
              '(rc, me', rme) ← SOCKS_udpassoc0X ctx sock me None;
              if rc <? 0 then Ret (-1, me', None, st)
              else
                let e := Build_SocksServ osock (default vsa0 rme) msock me in
                Ret (0, me', Some (s_rme e),
                     set_socks_sock (set_socksServ st (socksServ st ++ [e])) sock)
      end
  end.

(** [SOCKS_sendto0]: a datagram with its header; the array has room for 32 KB
    behind ten bytes. *)
Definition put_udp (to : vsaddr) : vstr * Z :=
  let '(baddr, btype, bport, bleng) := VSA_decomp to in
  let m := addb (addb (addb (zeros 32778, 0) 0) 0) 0 in
  let m := addb m (if btype =? AF_INET6 then 4 else 1) in
  addn (addn m baddr bleng) bport 2.
Definition SOCKS_sendto0 (sock : Z) (msg : list Z) (to via : vsaddr) (isconn : bool) : gio Z :=
  let '(qbuf, qcc) := put_udp to in
  let qbuf := fst (addn (qbuf, qcc) msg (zlen msg)) in
  b ← emit qbuf (qcc + zlen msg);
  wcc ← (if isconn then ask (Send sock b) else Ret (-1));
  wcc ← (if wcc <? 0 then ask (Sendto sock b via (VSA_size via)) else Ret wcc);
  Ret (wcc - qcc).

Definition SOCKS_Sendto (st : socks5) (sock : Z) (msg : list Z) (to : vsaddr) : gio (Z * socks5) :=
  match List.find (fun e => s_msock e =? sock) (socksServ st) with
  | Some e => wcc ← SOCKS_sendto0 sock msg to (s_rme e) false; Ret (wcc, st)
  | None =>
      me ← ask (Getsockname sock);
      '(rc, _, rme, st) ← SOCKS_udpassocX false st sock me;
      if rc <? 0 then Ret (-1, st)
      else wcc ← SOCKS_sendto0 sock msg to (default vsa0 rme) false; Ret (wcc, st)
  end.

Definition SOCKS_sendto (st : socks5) (sock : Z) (buf : list Z) (to : vsaddr) (tolen : Z)
  : gio (Z * socks5) :=
  if UDPviaSocks (socks_host st) && SOCKS_via_socks st to
  then SOCKS_Sendto st sock buf to
  else wcc ← ask (Sendto sock buf to tolen); Ret (wcc, st).

(** [SOCKS_gotudp]: the payload and the sender of a datagram of [rcc] bytes
    in the buffer [msg]; the header is taken to have ten bytes. *)
Definition SOCKS_gotudp (msg : list Z) (rcc : Z) : option (list Z * vsaddr) :=
  if rcc <? 10 then None
  else Some (take (Z.to_nat (rcc - 10)) (drop 10 msg), fst (VSA_stosaX vsa0 msg)).

(** The result is the length with the payload and the sender. *)
Definition SOCKS_Recvfrom (sock : Z) (msg : vstr) (len : Z) : gio (option (list Z * vsaddr)) :=
  r ← ask (Recvfrom sock len);
  match r with
  | None | Some ([], _) => Ret None
  | Some (b, sab) =>
      let m := v_buf (vstore msg 0 b) in
      if negb (cat m 0 =? 0) || negb (cat m 1 =? 0) then Ret (Some (b, sab))
      else p ← get_opt (SOCKS_gotudp m (zlen b)); Ret (Some p)
  end.
Definition SOCKS_recvfrom (st : socks5) (sock : Z) (msg : vstr) (len : Z)
  : gio (option (list Z * vsaddr)) :=
  if UDPviaSocks (socks_host st) then SOCKS_Recvfrom sock msg len
  else
    r ← ask (Recvfrom sock len);
    Ret (match r with None | Some ([], _) => None | Some p => Some p end).

(** [RecvFrom] and [SendTo]: with the address as a text. *)
Definition RecvFrom (st : socks5) (sock : Z) (msg : vstr) (len : Z)
  : gio (option (list Z * list Z * Z)) :=
  r ← SOCKS_recvfrom st sock msg len;
  Ret ('(b, from) ← r; Some (b, VSA_ntoa from, VSA_port from)).
Definition SendTo (st : socks5) (sock : Z) (buf : list Z) (host : list Z) (port : Z)
  : gio (Z * socks5) :=
  let '(to, tolen) := VSA_atosa vsa0 port host in SOCKS_sendto st sock buf to tolen.

(** ** Opening a connection *)

(** [SOCKS_recvResponseV5]: the result, [*rhost] and [*rport]. *)
Definition SOCKS_recvResponseV5 (sock : Z) : gio (Z * option (list Z) * option Z) :=
  '(rbuf, rcc) ← recv_mssg sock buf512 512;
  let r := v_buf rbuf in
  if (rcc <? 10) || negb (cat r 1 =? 0) then Ret (-1, None, None)
  else if cat r 3 =? 1
  then Ret (0, Some (fmt_4d (cat r 4) (cat r 5) (cat r 6) (cat r 7)), Some (btos (drop 8 r)))
  else if cat r 3 =? 4
  then Ret (0, Some (VSA_ltoa (drop 4 r) 16 AF_INET6), None)
  else Ret (0, Some (cs "255.255.255.255"), Some 0).

(** The request: [stob] at its end is a store that nothing checks. *)
Definition put_request (command : Z) (host : list Z) (port : Z) : vstr * Z :=
  let m := addb (addb (addb (buf512, 0) 5) command) 0 in
  let m :=
    if negb (VSA_strisaddr host =? 0) then
      let '(baddr, btype, _, bleng) := VSA_decomp (fst (VSA_atosa vsa0 0 host)) in
      addn (addb m (if btype =? AF_INET6 then 4 else 1)) baddr bleng
    else adds (addb (addb m 3) (zlen host)) host in
  (poke_stob (fst m) (snd m) port, snd m + 2).

Definition send_request (sock command : Z) (host : list Z) (port : Z)
  : gio (Z * option (list Z) * option Z) :=
  let '(qbuf, qcc) := put_request command host port in
  b ← emit qbuf qcc;
  _ ← ask (Send sock b);
  SOCKS_recvResponseV5 sock.

Variable SOCKS_LOGIN_TIMEOUT : Z.

Definition SOCKS_startV5 (sock command : Z) (host : list Z) (port : Z) (user : list Z)
  (pass : option (list Z)) : gio (Z * option (list Z) * option Z) :=
  let qauth := match pass with Some _ => AUTH_M_USERPASS | None => AUTH_M_NONE end in
  _ ← ask (Send sock [5; 1; qauth]);
  late ← (if 0 <? SOCKS_LOGIN_TIMEOUT
          then n ← ask (PollIn sock (SOCKS_LOGIN_TIMEOUT * 1000)); Ret (n =? 0) else Ret false);
  if late : bool then Ret (-1, None, None)
  else
    r ← ask (Recv sock 2);
    let rbuf := vstore buf512 0 (default [] r) in
    let rcc := match r with Some b => zlen b | None => -1 end in
    let rauth := cat (v_buf rbuf) 1 in
    if (1 <? rcc) && (rauth =? 4) then Ret (4, None, None)
    else if (rcc <? 2) || negb (rauth =? qauth) && negb (rauth =? AUTH_M_NONE)
    then Ret (-1, None, None)
    else if rauth =? AUTH_M_USERPASS
    then
      let '(qbuf, qcc) := put_auth buf512 user (default [] pass) in
      b ← emit qbuf qcc;
      _ ← ask (Send sock b);
      r ← ask (Recv sock 2);
      let rbuf := vstore rbuf 0 (default [] r) in
      if negb (cat (v_buf rbuf) 1 =? 0) then Ret (-1, None, None)
      else send_request sock command host port
    else send_request sock command host port.

End socks5.

(** ** Messages that are built

    The message [l] in an array of [n] bytes. *)
Definition built (n : Z) (m : vstr * Z) (l : list Z) : Prop :=
  holds (fst m) l /\ snd m = zlen l /\ v_size (fst m) = n.

Lemma built_zeros n : 0 < n -> built n (zeros n, 0) [].
Proof.
  intros Hn. assert (Hs : v_size (zeros n) = n).
  { unfold v_size, zlen. simpl. rewrite repeat_length. lia. }
  split; [|split; [done|exact Hs]]. apply holds_nil; [|done]. unfold vwf. cbn [fst]. rewrite Hs. simpl. lia.
Qed.

Section built.
Variables (n : Z) (m : vstr * Z) (l : list Z).
Hypothesis Hm : built n m l.

Lemma built_addb c : zlen l < n -> built n (addb m c) (l ++ [uchar c]).
Proof using Hm.
  destruct Hm as (Hh & Hs & Hz). intros Hl. unfold addb. rewrite Hs.
  destruct (holds_elem_inc (fst m) l c Hh) as [H1 H2]; [lia|].
  split; [done|]. split; [done|]. by rewrite v_size_setVStrElemInc.
Qed.

Lemma built_adds s : cstr_ok s -> zlen l + zlen s < n -> built n (adds m s) (l ++ s).
Proof using Hm.
  destruct Hm as (Hh & Hs & Hz). intros Hc Hl. unfold adds, built. simpl. rewrite Hs.
  split; [apply holds_strcpy; [done|done|lia]|]. rewrite zlen_app. split; [done|].
  unfold at_. by rewrite v_size_at, v_size_Xstrcpy.
Qed.

Lemma built_addn b k : bytes_ok b -> k = zlen b -> zlen l < n -> zlen l + k <= n ->
  built n (addn m b k) (l ++ b).
Proof using Hm.
  destruct Hm as (Hh & Hs & Hz). intros Hb Hk Hl Hn. unfold addn, built. simpl. rewrite Hs.
  split; [apply holds_bcopy; (done || lia)|]. rewrite zlen_app. split; [by rewrite Hk|].
  unfold at_. by rewrite v_size_at, v_size_Xbcopy.
Qed.

Lemma built_stob p : zlen l + 2 <= n -> built n (poke_stob (fst m) (snd m) p, snd m + 2) (l ++ stob p).
Proof using Hm.
  destruct Hm as (Hh & Hs & Hz). intros Hl. unfold built. simpl. rewrite Hs.
  split; [apply holds_stob; [done|lia]|]. rewrite zlen_app. split; [done|].
  unfold poke_stob. by rewrite !v_size_poke.
Qed.

Lemma built_emit : emit (fst m) (snd m) = Ret l.
Proof using Hm.
  destruct Hm as (Hh & Hs & Hz). unfold emit. pose proof (holds_vread _ _ Hh) as Hr.
  destruct Hh as ((Hok & _) & _). rewrite Hok, Hs, Hr. done.
Qed.
End built.

(** The bytes of an address in a message. *)
Definition atyp_of (sa : vsaddr) : Z := if sa_family sa =? AF_INET6 then 4 else 1.

Lemma built_addr n m l sa : built n m l -> vsaddr_ok sa -> zlen l + 22 <= n ->
  let '(baddr, _, bport, bleng) := VSA_decomp sa in
  built n (addn (addn m baddr bleng) bport 2) (l ++ packed sa).
Proof.
  intros Hm (Hp & Hb4 & Hl4 & Hb6 & Hl6) Hl. unfold packed.
  destruct (stob_bytes (sa_port sa)) as [Hsb Hsl].
  unfold VSA_decomp. destruct (sa_family sa =? AF_INET6); rewrite app_assoc;
    apply built_addn; try done; try (unfold zlen in *; rewrite ?length_app; lia);
    apply built_addn; (done || unfold zlen in *; lia).
Qed.

Lemma built_udp to : vsaddr_ok to ->
  built 32778 (put_udp to) ([0; 0; 0; atyp_of to] ++ packed to).
Proof.
  intros Ht. unfold put_udp. pose proof (built_zeros 32778 eq_refl) as H0.
  pose proof (built_addb _ _ _ H0 0 ltac:(done)) as H1.
  pose proof (built_addb _ _ _ H1 0 ltac:(done)) as H2.
  pose proof (built_addb _ _ _ H2 0 ltac:(done)) as H3.
  pose proof (built_addb _ _ _ H3 (atyp_of to) ltac:(done)) as H4.
  assert (Hu : uchar (atyp_of to) = atyp_of to) by (unfold atyp_of; by case_match).
  rewrite Hu in H4. change (uchar 0) with 0 in H4. simpl app in H4.
  pose proof (built_addr _ _ _ to H4 Ht ltac:(done)) as H5.
  unfold VSA_decomp, atyp_of in *.
  destruct (sa_family to =? AF_INET6) eqn:E; cbv beta iota zeta; rewrite E; exact H5.
Qed.
