(* ===== verification/Socks5Udp.v ===== *)
(** * The relay of datagrams of SOCKS5 ([udp_relay_socks] of [rary/socks5.cpp])

    The relay has the control connection, the socket of the client and, when
    it does not share that one, a socket for the servers.  [relay_step] is
    one turn of its loop on the state [urelay]; [udp_relay_socks] sets the
    state up and repeats the step [fuel] times.  The receive buffer lives on
    from turn to turn, so what a short datagram does not overwrite is still
    there. *)
From S2P Require Import Prelude VStr Strings Vsa Io Gateway Socks5.
From stdpp Require Import options.

Definition F_USECLIENTSPORT : Z := 4.
Definition hlen : Z := 10.

Record urelay := URelay {
  u_rbuf : vstr;
  u_clnt : vsaddr;
  u_serv : vsaddr;
  u_svctrl : Z;
  u_via : option vsaddr;
  u_st : socks5
}.

Section udp.
Context `{libc6}.
Variable VSA_afunixroot : list Z.
Variables (SOCKS_QFLAGS UDPSOCKS_TIMEOUT : Z).
Abbreviation VSA_atosa := (VSA_atosa VSA_afunixroot).

(** [selectSockServ]: the address of the destination, if it is to be reached
    through a SOCKS server; [setupSockPort]: with the port of the socket. *)
Definition selectSockServ (PK : PackHead) : gio (option vsaddr) :=
  v ← ask (VSA_getViaSocksX (p_host PK) (p_port PK));
  Ret (match v with
       | Some _ => Some (fst (VSA_atosa vsa0 (p_port PK) (p_host PK)))
       | None => None
       end).
Definition setupSockPort (viaSocks : vsaddr) (svsock : Z) : gio vsaddr :=
  vme ← ask (Getsockname svsock);
  Ret (VSA_setport viaSocks (VSA_port vme)).

(** [setupSockServ]: the control connection, or a negative number, [*viaSocks]
    and [*serv]. *)
Definition setupSockServ (ctx : bool) (PK : PackHead) (viaSocks serv : vsaddr)
  : gio (Z * vsaddr * vsaddr) :=
  v ← ask (VSA_getViaSocksX (p_host PK) (p_port PK));
  match v with
  | None => Ret (-1, viaSocks, serv)
  | Some (sv, auth) =>
      let host := if streq (VSA_ntoa sv) (cs "0.0.0.0") then cs "-.-" else VSA_ntoa sv in
      let remote := clip 256 (host ++ 58 :: fmt_d (VSA_port sv)) in
      '(svctrl, _, _) ← ask (VSocket (cs "CNCT/SocksV5") (-1) (cs "*:*") remote (cs "proto=socks"));
      '(rc, viaSocks, rme) ← SOCKS_udpassoc0X VSA_afunixroot ctx svctrl viaSocks (Some auth);
      if negb (rc =? 0) then Ret (-2, viaSocks, serv)
      else Ret (svctrl, viaSocks, default serv rme)
  end.

(** [pollUDP]: until something is ready, the server process has gone or the
    time is over. *)
Fixpoint pollUDP (fuel : nat) (sockV : list Z) : gio (option (Z * list Z)) :=
  match fuel with
  | O => Ret None
  | S fuel' =>
      '(nready, sockR) ← ask (PollIns (5 * 1000) sockV);
      if negb (nready =? 0) then Ret (Some (nready, sockR))
      else
        alive ← ask ServerAlive;
        if negb alive then Ret (Some (0, sockR))
        else if 0 <? UDPSOCKS_TIMEOUT
        then late ← ask TimedOut;
             if late : bool then Ret (Some (0, sockR)) else pollUDP fuel' sockV
        else pollUDP fuel' sockV
  end.

(** ** One turn *)

Inductive turn := Continue (u : urelay) | Break (u : urelay).

(** From the label [SV2CL]: [rcc] bytes of a server are at offset 10. *)
Definition sv2cl (clsock : Z) (u : urelay) (from : vsaddr) (rcc : Z) : gio turn :=
  match u_via u with
  | Some _ =>
      b ← get_opt (vread_at (u_rbuf u) hlen rcc);
      _ ← ask (Sendto clsock b (u_clnt u) (VSA_size (u_clnt u)));
      Ret (Continue u)
  | None =>
      let '(baddr, _, bport, bleng) := VSA_decomp from in
      let m := addb (addb (addb (addb (u_rbuf u, 0) 0) 0) 0) 1 in
      let '(rbuf, qc) := addn (addn m baddr bleng) bport 2 in
      b ← emit rbuf (qc + rcc);
      _ ← ask (Sendto clsock b (u_clnt u) (VSA_size (u_clnt u)));
      Ret (Continue (URelay rbuf (u_clnt u) (u_serv u) (u_svctrl u) (u_via u) (u_st u)))
  end.

(** The part for the server's socket. *)
Definition got_server (clsock : Z) (u : urelay) (b : list Z) (from : vsaddr) : gio turn :=
  sv2cl clsock
    (URelay (vstore (u_rbuf u) hlen b) (u_clnt u) (u_serv u) (u_svctrl u) (u_via u) (u_st u))
    from (zlen b).
Definition from_server (clsock svsock : Z) (u : urelay) : gio turn :=
  r ← ask (Recvfrom svsock (v_size (u_rbuf u) - hlen));
  match r with
  | None | Some ([], _) => Ret (Break u)
  | Some (b, from) => got_server clsock u b from
  end.

(** From the label [DIRECT]: the datagram without its header to the address
    in the header.  The length of a datagram that is shorter than a header
    is negative, and the system refuses to send it. *)
Definition direct (svsock : Z) (u : urelay) (rcc : Z) : gio unit :=
  let '(to, tolen) := VSA_stosaX vsa0 (v_buf (u_rbuf u)) in
  if rcc <? hlen then Ret tt
  else
    b ← get_opt (vread_at (u_rbuf u) hlen (rcc - hlen));
    _ ← ask (Sendto svsock b to tolen); Ret tt.

(** Through another SOCKS server, as it is: [true] if the datagram is sent,
    [false] for [DIRECT]. *)
Definition via_socks (ctx : bool) (svsock : Z) (u : urelay) (via : vsaddr) (rcc : Z)
  : gio (bool * urelay) :=
  let PK := fst (scanPack (take (Z.to_nat rcc) (v_buf (u_rbuf u)))) in
  '(svctrl, via, serv, set) ←
    (if VSA_port (u_serv u) =? 0
     then '(c, via, serv) ← setupSockServ ctx PK via (u_serv u); Ret (c, via, serv, true)
     else Ret (u_svctrl u, via, u_serv u, false));
  let u := URelay (u_rbuf u) (u_clnt u) serv svctrl (Some via) (u_st u) in
  if (set : bool) && (svctrl <? 0) then Ret (false, u)
  else
    b ← get_opt (vread (u_rbuf u) rcc);
    _ ← ask (Sendto svsock b serv (VSA_size serv)); Ret (true, u).

(** The part for the client's socket, when the datagram is the client's. *)
Definition from_client (ctx : bool) (svsock : Z) (pi : nat) (u : urelay) (rcc : Z)
  : gio (bool * urelay) :=
  via ← (match u_via u, pi with
         | None, O =>
             v ← selectSockServ (fst (scanPack (take (Z.to_nat rcc) (v_buf (u_rbuf u)))));
             match v with
             | Some v => v ← setupSockPort v svsock; Ret (Some v)
             | None => Ret None
             end
         | v, _ => Ret v
         end);
  let u := URelay (u_rbuf u) (u_clnt u) (u_serv u) (u_svctrl u) via (u_st u) in
  match via with
  | Some via =>
      '(sent, u) ← via_socks ctx svsock u via rcc;
      if sent : bool then Ret (true, u) else _ ← direct svsock u rcc; Ret (false, u)
  | None => _ ← direct svsock u rcc; Ret (false, u)
  end.

(** Who sent the datagram on the client's socket: the client, which may be
    set by it, a server, or somebody else. *)
Inductive sender := Client (clnt : vsaddr) | Server | Stranger.
Definition who (ns : Z) (pi : nat) (clnt from : vsaddr) (rbuf : list Z) : sender :=
  let zero2 := (cat rbuf 0 =? 0) && (cat rbuf 1 =? 0) in
  if (VSA_addr clnt =? 0) || bool_decide (pi = O) && zero2 then Client from
  else if VSA_comp clnt from =? 0 then Client clnt
  else if (ns =? 2) || negb zero2 then Server
  else Stranger.

Definition serve (clsock svsock ns : Z) (u : urelay) (sockR : list Z) : gio (option turn) :=
  if (2 <? ns) && (0 <? cat sockR 2) then t ← from_server clsock svsock u; Ret (Some t)
  else Ret (Some (Continue u)).

(** A datagram [b] of [from] on the client's socket. *)
Definition got_client (ctx : bool) (clsock svsock ns : Z) (pi : nat) (u : urelay) (sockR : list Z)
  (b : list Z) (from : vsaddr) : gio (option turn) :=
  let rbuf := vstore (u_rbuf u) 0 b in
  let set clnt := URelay rbuf clnt (u_serv u) (u_svctrl u) (u_via u) (u_st u) in
  match who ns pi (u_clnt u) from (v_buf rbuf) with
  | Stranger => Ret (Some (Continue (set (u_clnt u))))
  | Server =>
      let data := vstore rbuf hlen b in
      if v_ok data then
        t ← sv2cl clsock
          (URelay data (u_clnt u) (u_serv u) (u_svctrl u) (u_via u) (u_st u)) from (zlen b);
        Ret (Some t)
      else undefined
  | Client clnt =>
      '(sent, u) ← from_client ctx svsock pi (set clnt) (zlen b);
      if sent : bool then Ret (Some (Continue u)) else serve clsock svsock ns u sockR
  end.

Definition relay_step (ctx : bool) (fuel : nat) (cntlsock clsock svsock ns : Z) (pi : nat)
  (u : urelay) : gio (option turn) :=
  p ← pollUDP fuel (if ns =? 2 then [cntlsock; clsock] else [cntlsock; clsock; svsock]);
  match p with
  | None => Ret None
  | Some (nready, sockR) =>
      if nready <=? 0 then Ret (Some (Break u))
      else if 0 <? cat sockR 0 then Ret (Some (Break u))
      else if 0 <? cat sockR 1 then
        r ← ask (Recvfrom clsock (v_size (u_rbuf u)));
        match r with
        | None | Some ([], _) => Ret (Some (Break u))
        | Some (b, from) => got_client ctx clsock svsock ns pi u sockR b from
        end
      else serve clsock svsock ns u sockR
  end.

Fixpoint relay_loop (ctx : bool) (fuel pf : nat) (cntlsock clsock svsock ns : Z) (pi : nat)
  (u : urelay) : gio (option urelay) :=
  match fuel with
  | O => Ret None
  | S fuel' =>
      t ← relay_step ctx pf cntlsock clsock svsock ns pi u;
      match t with
      | None => Ret None
      | Some (Break u) => Ret (Some u)
      | Some (Continue u) => relay_loop ctx fuel' pf cntlsock clsock svsock ns (S pi) u
      end
  end.

(** ** The relay *)

(** [Xsscanf(clname,"%[^:]:%d",clhost,&clport)], with the width of the array. *)
Fixpoint span_not (n : nat) (c : Z) (s : list Z) : list Z * list Z :=
  match n, s with
  | S n', x :: s' => if x =? c then ([], s) else let '(a, r) := span_not n' c s' in (x :: a, r)
  | _, _ => ([], s)
  end.
Definition scan_clname (clname : list Z) : list Z * Z :=
  let '(h, r) := span_not 255 58 clname in
  match h with
  | [] => ([], 0)
  | _ => (h, if cat r 0 =? 58 then atoi (tl r) else 0)
  end.

Definition any_port : list Z := cs "*:*".

(** The socket for the servers and how many sockets there are. *)
Definition server_sock (ctx : bool) (clsock flags : Z) : gio (Z * Z) :=
  clme ← ask (Getsockname clsock);
  '(set, clme) ← CTX_VSA_SRCIFfor VSA_afunixroot ctx (cs "socks-udp-tosv") clme;
  if set : bool
  then '(s, _, _) ← ask (VSocket (cs "BIND/SocksV5") (-1) (clip 256 (VSA_xtoap clme)) any_port (cs "protocol=udp"));
       Ret (s, 3)
  else if negb (VSA_islocal clme) && negb (Z.land (Z.lor flags SOCKS_QFLAGS) F_USECLIENTSPORT =? 0)
  then Ret (clsock, 2)
  else '(s, _, _) ← ask (VSocket (cs "BIND/SocksV5") (-1) any_port any_port (cs "protocol=udp"));
       Ret (s, 3).

Definition udp_relay_socks (fuel pf : nat) (ctx : bool) (st : socks5) (cntlsock clsock : Z)
  (clname : list Z) (flags : Z) (viaSocks : option vsaddr) : gio (option socks5) :=
  let '(clhost, clport) := scan_clname clname in
  clhost ← (if negb (clport =? 0) && streq clhost (cs "0.0.0.0")
            then '(_, _, remote) ← ask (VSocket (cs "Q/SocksV5") cntlsock [] [] []);
                 Ret (word_to 58 (clip 256 remote) 256)
            else Ret clhost);
  let clhost := if is_nil clhost then cs "0.0.0.0" else clhost in
  let clnt := fst (VSA_atosa vsa0 clport clhost) in
  '(svsock, ns) ← server_sock ctx clsock flags;
  '(via, serv, st) ←
    (match viaSocks with
     | None => Ret (None, vsa0, st)
     | Some via =>
         via ← setupSockPort via svsock;
         '(_, via, rme, st) ← SOCKS_udpassocX VSA_afunixroot ctx st svsock via;
         Ret (Some via, default vsa0 rme, st)
     end);
  r ← relay_loop ctx fuel pf cntlsock clsock svsock ns 0
        (URelay (zeros 8192) clnt serv (-1) via st);
  match r with
  | None => Ret None
  | Some u =>
      match u_via u with
      | Some _ =>
          _ ← (if 0 <=? u_svctrl u then ask (Close (u_svctrl u)) else Ret tt);
          st ← get_opt (SOCKS_udpclose (u_st u) svsock); Ret (Some st)
      | None => Ret (Some (u_st u))
      end
  end.

End udp.
