(* ===== verification/Socks5Serv.v ===== *)
(** * The SOCKS5 server ([rary/socks5.cpp])

    [send_resp], [AccByConn] and [SOCKS_serverV5A] with its parts: the choice
    of the method, the check of user and password, the request and the three
    commands.  [lNOAUTHPROXY] and [lSINGLEP] are options of the program.
    The result is the returned value with the state of the tables, and
    [None] when the fuel of the relay of datagrams is used up. *)
From S2P Require Import Prelude VStr Strings Vsa Io Gateway Socks5 Socks5Udp.
From stdpp Require Import options.

Definition ACCONN : list Z := cs ".accept.-".

(** The request as it is read. *)
Record request := { q_ver : Z; q_cmd : Z; q_rsv : Z; q_atyp : Z; q_host : list Z; q_port : Z }.

Section serv.
Context `{libc6}.
Variable VSA_afunixroot : list Z.
Variables (SOCKS_QFLAGS UDPSOCKS_TIMEOUT : Z) (lNOAUTHPROXY lSINGLEP : bool).
Abbreviation VSA_atosa := (VSA_atosa VSA_afunixroot).

(** [send_resp]: an IPv4 address that is mapped into IPv6 is sent as IPv4. *)
Definition resp_host (bound : list Z) : list Z * Z :=
  let bhost := clip 256 bound in
  match rindex_of 58 bhost with
  | Some i => (take i bhost, atoi (drop (S i) bhost))
  | None => (bhost, -1)
  end.
Definition unmap (bhost : list Z) : list Z :=
  if strncaseeq bhost (cs "__FFFF_") 7 && (VSA_strisaddr (drop 7 bhost) =? 1)
  then drop 7 bhost else bhost.
Definition put_resp (rep : Z) (bound : list Z) : vstr * Z :=
  let '(bhost, port) := resp_host bound in
  let rbuf := setVStrElem (setVStrElem (setVStrElem buf512 0 5) 1 rep) 2 0 in
  let m :=
    if negb (VSA_strisaddr bhost =? 0) then
      let '(baddr, btype, _, bleng) := VSA_decomp (fst (VSA_atosa vsa0 port (unmap bhost))) in
      addn (addb (rbuf, 3) (if btype =? AF_INET6 then 4 else 1)) baddr bleng
    else addn (addb (addb (rbuf, 3) 3) (zlen bhost)) bhost (zlen bhost) in
  (poke_stob (fst m) (snd m) port, snd m + 2).
Definition send_resp (rep : Z) (bound : list Z) : gio unit :=
  let '(rbuf, rcc) := put_resp rep bound in
  b ← emit rbuf rcc; ask (Write b).

(** The label [ERREXIT]. *)
Definition errexit (rep : Z) (bound : list Z) : gio Z := _ ← send_resp rep bound; Ret (-1).

(** ** Authentication *)

Definition has_method (methods : list Z) (n : Z) : bool :=
  existsb (Z.eqb AUTH_M_USERPASS) (take (Z.to_nat n) methods).

(** The greeting: the buffer and the method to reply with. *)
Definition greeting : gio (vstr * Z) :=
  ver ← ask Getc;
  nmethods ← ask Getc;
  let nmethods := uchar nmethods in
  let qbuf := poke (poke buf512 0 (uchar ver)) 1 nmethods in
  b ← ask (Fread nmethods);
  let qbuf := vstore qbuf 2 b in
  rauth ←
    (if lNOAUTHPROXY then Ret AUTH_M_NONE
     else
       a ← ask (CTX_auth None);
       Ret (if a =? 0 then AUTH_M_NONE
            else if has_method (drop 2 (v_buf qbuf)) nmethods then AUTH_M_USERPASS
            else AUTH_M_ERROR));
  rauth ←
    (if rauth =? AUTH_M_ERROR
     then a ← ask (CTX_auth (Some ([], []))); Ret (if 0 <=? a then AUTH_M_NONE else rauth)
     else Ret rauth);
  _ ← ask (Write [5; rauth]);
  Ret (qbuf, rauth).

(** A string of [len] bytes: [None] for the end of the input. *)
Definition read_string (len : Z) : gio (option (list Z)) :=
  if len =? -1 then Ret None
  else if len =? 0 then Ret (Some [])
  else u ← ask (Fread len); Ret (if zlen u <? len then None else Some (cstr u)).

(** User and password: [None] for [ERREXIT], else the result of [CTX_auth]. *)
Definition userpass : gio (option Z) :=
  ver ← ask Getc;
  ulen ← ask Getc;
  user ← read_string ulen;
  match user with
  | None => Ret None
  | Some user =>
      if ver =? -1 then Ret None
      else
        plen ← ask Getc;
        pass ← read_string plen;
        match pass with
        | None => Ret None
        | Some pass =>
            eof ← ask Feof;
            if eof : bool then Ret None
            else
              rcode ← ask (CTX_auth (Some (user, pass)));
              _ ← ask (Write [1; if rcode <? 0 then AUTH_R_ERR else AUTH_R_OK]);
              Ret (Some rcode)
        end
  end.

(** ** The request *)

Definition read_request (qbuf : vstr) : gio request :=
  ver ← ask Getc;
  cmd ← ask Getc;
  rsv ← ask Getc;
  atyp ← ask Getc;
  let atyp := uchar atyp in
  aleng ← (if atyp =? 1 then Ret 4 else if atyp =? 3 then ask Getc
           else if atyp =? 4 then Ret 16 else Ret 0);
  let qbuf := poke qbuf 4 0 in
  qbuf ← (if 0 <? aleng then b ← ask (Fread aleng); Ret (vstore qbuf 4 b) else Ret qbuf);
  let qh := drop 4 (v_buf qbuf) in
  let host :=
    if atyp =? 1 then fmt_4d (cat qh 0) (cat qh 1) (cat qh 2) (cat qh 3)
    else if atyp =? 3 then take (Z.to_nat aleng) (cstr qh)
    else if atyp =? 4 then clip 256 (VSA_ltoa qh 16 AF_INET6)
    else [] in
  hi ← ask Getc;
  lo ← ask Getc;
  Ret (Build_request (uchar ver) (uchar cmd) (uchar rsv) atyp host (Z.lor (Z.shiftl hi 8) lo)).

(** ** The commands *)

(** [AccByConn]: a CONNECT to the name [host.accept.-] waits for somebody to
    come. *)
Definition AccByConn (rep fc tc toms : Z) (host : list Z) (port : Z) : gio Z :=
  match strtailstr host ACCONN with
  | None => Ret (-1)
  | Some _ =>
      let local := take (length host - length ACCONN) host in
      '(asock, local) ← ask (Findopen_port (cs "XSOCKS") local port 20);
      '(nready, rv) ← ask (PollIns toms [fc; asock]);
      if (nready =? 0) || negb (cat rv 0 =? 0) then Ret (-1)
      else
        '(csock, _, remote) ← ask (VSocket (cs "ACPT/SocksV5") asock (clip 256 local) [] []);
        _ ← send_resp rep (clip 256 remote);
        _ ← ask (Tcp_relay2 toms fc csock csock tc);
        _ ← ask (Close csock); Ret 1
  end.

Definition do_connect (fromcl tocl timeout_ms : Z) (remote : list Z) : gio Z :=
  '(svsock, local, _) ← ask (VSocket (cs "CNCT/SocksV5") (-1) any_port remote []);
  if svsock <? 0 then errexit 1 []
  else
    _ ← send_resp 0 (clip 256 local);
    tos ← ask CTX_ToS;
    froms ← ask CTX_FromS;
    _ ← ask (Tcp_relay2 timeout_ms fromcl tos froms tocl);
    _ ← ask FinishClnt;
    _ ← ask FinishServ;
    tos ← ask CTX_ToS;
    _ ← (if negb (tos =? svsock) then ask (Close tos) else Ret tt);
    froms ← ask CTX_FromS;
    _ ← (if negb (froms =? svsock) then ask (Close froms) else Ret tt);
    _ ← ask (Close svsock);
    _ ← (if negb (tocl =? fromcl) then _ ← ask (Close tocl); ask (Close fromcl) else Ret tt);
    Ret 0.

(** The listening socket of BIND: with [bound] and whether it is another
    SOCKS server's. *)
Definition bind_sock (host : list Z) (port : Z) (remote : list Z) : gio (Z * list Z * list Z * bool) :=
  via ← ask (GetViaSocks host port);
  if via : bool then
    '(bsock, rhost, rport) ← ask (BindViaSocks host port);
    if bsock <? 0 then Ret (bsock, any_port, remote, false)
    else Ret (bsock, clip 256 (clip 256 rhost ++ 58 :: fmt_d rport), remote, true)
  else
    '(bsock, local, remote) ← ask (VSocket (cs "BIND/SocksV5") (-1) any_port remote (cs "listen=1"));
    Ret (bsock, clip 256 local, clip 256 remote, false).

Definition do_bind (fromcl tocl timeout_ms : Z) (host : list Z) (port : Z) (remote : list Z) : gio Z :=
  '(bsock, local, remote, viasocks) ← bind_sock host port remote;
  if bsock <? 0 then errexit 1 []
  else
    _ ← send_resp 0 local;
    '(svsock, local, remote) ←
      (if viasocks : bool then
         '(rc, rhost, rport) ← ask (AcceptViaSocks bsock);
         Ret (if rc <? 0 then (-1, local, remote)
              else (bsock, local, clip 256 (clip 256 rhost ++ 58 :: fmt_d rport)))
       else
         '(svsock, local, remote) ← ask (VSocket (cs "ACPT/SocksV5") bsock local remote []);
         _ ← ask (Close bsock); Ret (svsock, clip 256 local, clip 256 remote));
    if svsock <? 0 then errexit 1 local
    else
      _ ← send_resp 0 remote;
      _ ← ask (Tcp_relay2 timeout_ms fromcl svsock svsock tocl);
      _ ← ask (Close svsock);
      Ret 0.

(** The socket of UDP ASSOCIATE: up to four attempts, the last one with any
    port; [local] and [remote] with it. *)
Definition udp_opt : list Z := cs "protocol=udp,noreuseaddr".
Definition udp_bind (local remote : list Z) : gio (Z * list Z * list Z) :=
  '(bsock, local, remote) ← ask (VSocket (cs "BIND/SocksV5") (-1) local remote udp_opt);
  Ret (bsock, clip 256 local, remote).
Definition udp_sock (host : list Z) (port : Z) (remote : list Z) : gio (Z * list Z * list Z) :=
  let sif := fst (VSA_atosa vsa0 port host) in
  '(sifset, sif) ← CTX_VSA_SRCIFfor VSA_afunixroot true (cs "socks-udp-tocl") sif;
  '(bsock, local) ←
    (if sifset : bool
     then '(b, l, _) ← udp_bind (clip 256 (VSA_xtoap sif)) any_port; Ret (b, l)
     else Ret (-1, any_port));
  '(bsock, local) ←
    (if (bsock <? 0) && negb (port =? 0)
     then '(b, l, _) ← udp_bind (clip 256 (host ++ 58 :: fmt_d port)) any_port; Ret (b, l)
     else Ret (bsock, local));
  '(bsock, local) ←
    (if (bsock <? 0) && negb (port =? 0)
     then '(b, l, _) ← udp_bind (clip 256 (host ++ cs ":*")) any_port; Ret (b, l)
     else Ret (bsock, local));
  if bsock <? 0 then
    let any := if negb sifset && bool_decide (strheadstrX remote (cs "0.0.0.0:") false <> None)
               then cs "0.0.0.0" else any_port in
    '(b, l, r) ← udp_bind any remote; Ret (b, l, clip 256 r)
  else Ret (bsock, local, remote).

(** The wild card address is replaced by that of the client's interface. *)
Definition udp_local (fromcl : Z) (local : list Z) : gio (list Z) :=
  let v6 := is_prefix (cs "__:") local in
  if is_prefix (cs "0.0.0.0:") local || v6 then
    let port := atoi (drop (if v6 then 3 else 8) local) in
    '(_, clifhp, _) ← ask (VSocket (cs "Q/SocksV5") fromcl [] [] []);
    Ret (clip 256 (word_to 58 (clip 256 clifhp) 256 ++ 58 :: fmt_d port))
  else Ret local.

Definition do_udp (fuel pf : nat) (st : socks5) (fromcl : Z) (rsv : Z) (host : list Z) (port : Z)
  (remote : list Z) : gio (option (Z * socks5)) :=
  viasocks ← ask (GetViaSocks host port);
  let qp := if viasocks : bool then Some (fst (VSA_atosa vsa0 port host)) else None in
  '(bsock, local, remote) ← udp_sock host port remote;
  if bsock <? 0 then r ← errexit 1 []; Ret (Some (r, st))
  else
    local ← udp_local fromcl local;
    _ ← send_resp 0 local;
    r ← udp_relay_socks VSA_afunixroot SOCKS_QFLAGS UDPSOCKS_TIMEOUT fuel pf true st
          fromcl bsock remote rsv qp;
    match r with
    | None => Ret None
    | Some st =>
        _ ← ask (Close bsock);
        if 0 <=? socks_sock st
        then _ ← ask (Close (socks_sock st)); Ret (Some (0, set_socks_sock st (-1)))
        else Ret (Some (0, st))
    end.

(** ** The server *)

Definition execute (fuel pf : nat) (st : socks5) (fromcl tocl timeout_ms : Z) (q : request)
  : gio (option (Z * socks5)) :=
  let host := q_host q in
  let port := q_port q in
  let cmd := q_cmd q in
  if (cmd =? 1) && lSINGLEP && bool_decide (strtailstr host ACCONN <> None)
  then _ ← AccByConn 0 fromcl tocl timeout_ms host port; Ret (Some (0, st))
  else
    let remote := clip 256 (host ++ 58 :: fmt_d port) in
    if cmd =? 1 then r ← do_connect fromcl tocl timeout_ms remote; Ret (Some (r, st))
    else if cmd =? 2 then r ← do_bind fromcl tocl timeout_ms host port remote; Ret (Some (r, st))
    else if cmd =? 3 then do_udp fuel pf st fromcl (q_rsv q) host port remote
    else r ← errexit 7 []; Ret (Some (r, st)).

Definition SOCKS_serverV5A (fuel pf : nat) (st : socks5) (fromcl tocl timeout_ms : Z)
  : gio (option (Z * socks5)) :=
  '(qbuf, rauth) ← greeting;
  if rauth =? AUTH_M_ERROR then Ret (Some (-1, st))
  else
    let go := q ← read_request qbuf; execute fuel pf st fromcl tocl timeout_ms q in
    if rauth =? AUTH_M_USERPASS then
      a ← userpass;
      match a with
      | None => r ← errexit 0 []; Ret (Some (r, st))
      | Some rcode => if rcode <? 0 then Ret (Some (-1, st)) else go
      end
    else go.

End serv.
