(* ===== verification/Socks5Spec.v ===== *)
(** * Nothing is served before authentication, and the tables stay well-formed

    Theorems about all runs of the SOCKS5 server, whatever the client sends
    and the gateway answers. *)
From S2P Require Import Prelude VStr Strings Vsa Io Gateway Socks5 Socks5Udp Socks5Serv.
From stdpp Require Import options.

(** ** Authentication

    The calls of the dialogue with the client; every other one is service. *)
Definition is_service (e : gw_event) : bool :=
  match ev_call e with
  | Getc | Fread _ | Feof | Write _ | CTX_auth _ => false
  | _ => true
  end.

(** The answers of the authorizer that let the client in: there is none, or
    it accepts the name and the password. *)
Definition is_grant (e : gw_event) : bool :=
  match e with
  | Ev c a =>
      match c return gw_ans c -> bool with
      | CTX_auth None => fun a => a =? 0
      | CTX_auth (Some _) => fun a => 0 <=? a
      | _ => fun _ => false
      end a
  end.

Section auth.
Context `{libc6}.
Variable VSA_afunixroot : list Z.
Variables (SOCKS_QFLAGS UDPSOCKS_TIMEOUT : Z) (lSINGLEP : bool).

Abbreviation gate := (guard_mon is_grant is_service).
Abbreviation any_ans := (fun (c : gw) (_ : gw_ans c) => True).

(** The dialogue before the request does not need a grant. *)
Lemma gate_greeting :
  obeys gate any_ans false (greeting false)
    (fun seen '(_, rauth) => rauth = AUTH_M_ERROR \/ rauth = AUTH_M_USERPASS \/
       rauth = AUTH_M_NONE /\ seen = true).
Proof using Type.
  unfold greeting. io_call ver _. io_call nm _. io_call b _.
  io_call a _. cbn [gw_ans] in a.
  destruct (Z.eqb_spec a 0) as [->|Ha]; cbv iota.
  - simpl. intros [] _. eexists. split; [done|]. right. right. done.
  - destruct (has_method _ _); simpl.
    + intros [] _. eexists. split; [done|]. right. left. done.
    + intros a2 _. eexists. split; [done|].
      destruct (0 <=? a2) eqn:E; simpl; intros [] _; eexists; (split; [done|]).
      * right. right. rewrite E. simpl. by rewrite orb_true_r.
      * by left.
Qed.

Lemma gate_string len seen :
  obeys gate any_ans seen (read_string len) (fun seen' _ => seen' = seen).
Proof using Type.
  unfold read_string. destruct (len =? -1); [done|]. destruct (len =? 0); [done|].
  io_call u _. simpl. by destruct seen.
Qed.

Lemma gate_userpass :
  obeys gate any_ans false userpass
    (fun seen r => match r with Some rcode => 0 <= rcode -> seen = true | None => True end).
Proof using Type.
  unfold userpass. io_call ver _. io_call ulen _.
  apply obeys_bind. eapply obeys_mono; [|apply gate_string]. intros s [user|] ->; [|done].
  destruct (ver =? -1); [done|]. io_call plen _.
  apply obeys_bind. eapply obeys_mono; [|apply gate_string]. intros s [pass|] ->; [|done].
  io_call eof _. cbn [gw_ans] in eof. destruct eof; [done|].
  io_call rcode _. cbn [gw_ans] in rcode. io_call [] _. simpl. intros Hr.
  by rewrite (proj2 (Z.leb_le _ _)).
Qed.

Lemma gate_resp rep bound seen :
  obeys gate any_ans seen (send_resp VSA_afunixroot rep bound) (fun seen' _ => True).
Proof using Type.
  unfold send_resp. destruct (put_resp _ _ _) as [rbuf rcc]. unfold emit, get_opt.
  destruct (if v_ok rbuf then vread rbuf rcc else None); simpl.
  - intros [] _. eexists. done.
  - intros [].
Qed.

Lemma gate_errexit rep bound seen :
  obeys gate any_ans seen (errexit VSA_afunixroot rep bound) (fun seen' _ => True).
Proof using Type.
  unfold errexit. apply obeys_bind. eapply obeys_mono; [|apply gate_resp]. by intros s [] _.
Qed.

Lemma gate_open {A} (p : gio A) : obeys gate any_ans true p (fun _ _ => True).
Proof using Type. eapply obeys_mono; [|apply guard_mon_open]. done. Qed.

Lemma gate_server fuel pf st fromcl tocl toms :
  obeys gate any_ans false
    (SOCKS_serverV5A VSA_afunixroot SOCKS_QFLAGS UDPSOCKS_TIMEOUT false lSINGLEP fuel pf st fromcl tocl toms)
    (fun _ _ => True).
Proof using Type.
  unfold SOCKS_serverV5A. apply obeys_bind. eapply obeys_mono; [|apply gate_greeting].
  intros [] [qbuf rauth] Hr; [apply gate_open|].
  destruct (Z.eqb_spec rauth AUTH_M_ERROR) as [->|Hne]; [done|].
  destruct (Z.eqb_spec rauth AUTH_M_USERPASS) as [->|Hnu].
  - apply obeys_bind. eapply obeys_mono; [|apply gate_userpass].
    intros seen [rcode|] Hu.
    + destruct (Z.ltb_spec rcode 0); [done|]. rewrite Hu by lia. apply gate_open.
    + apply obeys_bind. eapply obeys_mono; [|apply gate_errexit]. by intros seen2 r _.
  - by destruct Hr as [->|[->|[_ ?]]].
Qed.

(** C16. No service before authentication.  In each run of the SOCKS5 server
    with authentication switched on, whatever bytes the client sends and
    however the rest of the gateway answers, every call that is not part of
    the dialogue (a socket, a connection, a relay, a datagram, a resolution
    of a name) comes after an answer of [CTX_auth] that lets the client in:
    there is no authorizer, or it accepts a user and a password. *)
Theorem SOCKS_serverV5A_gate fuel pf st fromcl tocl toms tr r :
  runs (SOCKS_serverV5A VSA_afunixroot SOCKS_QFLAGS UDPSOCKS_TIMEOUT false lSINGLEP
          fuel pf st fromcl tocl toms) tr r ->
  guarded is_grant is_service tr.
Proof using Type.
  intros Hr.
  assert (Hok : Forall (ev_ok gw_ans any_ans) tr) by (apply Forall_true; done).
  destruct (obeys_sound _ _ _ _ _ _ _ _ (gate_server fuel pf st fromcl tocl toms) Hr Hok)
    as (s & Hs & _).
  by eapply guard_mon_guarded.
Qed.
End auth.

(** Goes through a program call by call and case by case. *)
Ltac always_tac :=
  repeat match goal with
  | |- always _ (Ret _) => apply always_ret
  | |- always _ (undefined ≫= _) => apply always_any; intros ?
  | |- always _ undefined => intros ? ? ?%runs_inv; naive_solver
  | |- always _ (call _ ≫= _) => apply always_any; intros ?
  | |- always _ (get_opt _ ≫= _) => apply always_any; intros ?
  | |- always _ (emit _ _ ≫= _) => apply always_any; intros ?
  | |- always _ (match ?x with _ => _ end) => destruct x
  | |- always _ (let '(_, _) := ?x in _) => destruct x
  end.

(** ** The tables

    What [VSA_comp] compares, and a table in which it finds each entry once. *)
Definition vkey (sa : vsaddr) : Z * Z * list Z := (sa_family sa, sa_port sa, sa_w1 sa).

Lemma VSA_comp_0 a b : VSA_comp a b = 0 <-> vkey a = vkey b.
Proof.
  unfold VSA_comp, vkey.
  destruct (Z.eqb_spec (sa_family a) (sa_family b)) as [->|]; simpl; [|split; [done|congruence]].
  destruct (Z.eqb_spec (sa_port a) (sa_port b)) as [->|]; simpl; [|split; [done|congruence]].
  destruct (bool_decide (sa_w1 a = sa_w1 b)) eqn:E; simpl.
  - apply bool_decide_eq_true in E as ->. done.
  - apply bool_decide_eq_false in E. split; [done|congruence].
Qed.

Definition tables_ok (st : socks5) : Prop :=
  zlen (socksServ st) <= 32 /\ zlen (to_socksV st) <= 8 /\
  NoDup (map (fun e => vkey (s_me e)) (socksServ st)) /\ NoDup (map vkey (to_socksV st)).

Lemma tables_ok_sock st s : tables_ok (set_socks_sock st s) <-> tables_ok st.
Proof. done. Qed.

Lemma NoDup_snoc {A} (x : A) l : x ∉ l -> NoDup l -> NoDup (l ++ [x]).
Proof.
  intros Hx Hl. apply NoDup_app. split; [done|]. split; [|apply NoDup_singleton].
  intros y Hy ->%list_elem_of_singleton. done.
Qed.

Lemma find_none_fresh (l : list SocksServ) me :
  List.find (fun e => VSA_comp (s_me e) me =? 0) l = None ->
  vkey me ∉ map (fun e => vkey (s_me e)) l.
Proof.
  intros Hf Hin. apply list_elem_of_In, in_map_iff in Hin as (e & Ee & He).
  pose proof (find_none _ _ Hf e He) as Hn. simpl in Hn.
  apply Z.eqb_neq in Hn. apply Hn. by apply VSA_comp_0.
Qed.

Lemma udpclose_ok st m st' : tables_ok st -> SOCKS_udpclose st m = Some st' -> tables_ok st'.
Proof.
  intros (H1 & H2 & H3 & H4). unfold SOCKS_udpclose.
  destruct (list_find _ _) as [[si e]|]; [|by intros [= <-]].
  destruct (SOCKSSERVS <=? _); [done|]. intros [= <-].
  pose proof (sublist_delete (socksServ st) si) as Hs. split; [|split; [done|split; [|done]]]; simpl.
  - apply sublist_length in Hs. unfold zlen in *. lia.
  - eapply sublist_NoDup; [exact H3|].
    assert (Hm : forall l k : list SocksServ, sublist l k ->
      sublist (map (fun e => vkey (s_me e)) l) (map (fun e => vkey (s_me e)) k)).
    { clear. intros l k Hlk. induction Hlk; simpl; by constructor. }
    by apply Hm.
Qed.

(** When closing stays in the array. *)
Lemma udpclose_safe st m : zlen (socksServ st) <= 32 ->
  (SOCKS_udpclose st m = None <->
   zlen (socksServ st) = 32 /\ exists e, e ∈ socksServ st /\ s_msock e = m).
Proof.
  intros Hn. unfold SOCKS_udpclose, SOCKSSERVS.
  destruct (list_find _ _) as [[si e]|] eqn:E.
  - apply list_find_Some in E as (Hi & He & _). apply list_elem_of_lookup_2 in Hi.
    destruct (Z.leb_spec 32 (zlen (socksServ st))); (split; [|lia || intros [? ?]; lia || done]).
    + intros _. split; [lia|eauto].
    + done.
  - split; [done|]. intros (_ & e & He & Em). apply list_find_None in E.
    by apply (proj1 (Forall_forall _ _) E e) in He.
Qed.

Section tables.
Context `{libc6}.
Variable VSA_afunixroot : list Z.
Variables (SOCKS_QFLAGS UDPSOCKS_TIMEOUT : Z) (lNOAUTHPROXY lSINGLEP : bool).

Lemma addserv_ok st dhost dport shost sport :
  tables_ok st -> tables_ok (SOCKS_addserv VSA_afunixroot st dhost dport shost sport).
Proof using Type.
  intros Hst. unfold SOCKS_addserv. cbv zeta.
  destruct (_ && _); [done|]. simpl. destruct (Z.leb_spec 8 (zlen (to_socksV st))); [done|].
  destruct (existsb _ _) eqn:Ex; [done|].
  destruct Hst as (H1 & H2 & H3 & H4). split; [done|]. split; [|split; [done|]]; simpl.
  - rewrite zlen_app. change (zlen [_]) with 1. lia.
  - rewrite map_app. apply NoDup_snoc; [|done]. intros Hin.
    apply list_elem_of_In, in_map_iff in Hin as (v & Ev & Hv).
    assert (Ht : existsb (fun v => VSA_comp (fst (VSA_atosa VSA_afunixroot vsa0 dport
       (if streq dhost (cs "*") then cs "255.255.255.255" else dhost))) v =? 0) (to_socksV st) = true).
    { apply existsb_exists. exists v. split; [done|]. apply Z.eqb_eq, VSA_comp_0. done. }
    congruence.
Qed.

Lemma udpassocX_ok ctx st msock me :
  tables_ok st ->
  always (fun r : Z * vsaddr * option vsaddr * socks5 => tables_ok (snd r))
    (SOCKS_udpassocX VSA_afunixroot ctx st msock me).
Proof using Type.
  intros Hst. unfold SOCKS_udpassocX.
  destruct (socks_host st) as [host|]; [|by apply always_ret].
  destruct (List.find _ _) as [e|] eqn:Ef; [by apply always_ret|].
  change SOCKSSERVS with 32.
  destruct (Z.leb_spec 32 (zlen (socksServ st))); [by apply always_ret|].
  destruct (VSA_atosa _ _ _ _) as [sab salen]. apply always_any. intros osock.
  apply always_any. intros [sock rcode]. destruct (rcode <? 0).
  - apply always_any. intros _. by apply always_ret.
  - apply always_any. intros [[rc me'] rme]. destruct (rc <? 0); [by apply always_ret|].
    apply always_ret. destruct Hst as (H1 & H2 & H3 & H4). simpl.
    split; [|split; [done|split; [|done]]]; simpl.
    + rewrite zlen_app. change (zlen [_]) with 1. lia.
    + rewrite map_app. apply NoDup_snoc; [by apply find_none_fresh|done].
Qed.

Lemma Sendto_ok st sock msg to :
  tables_ok st ->
  always (fun r : Z * socks5 => tables_ok (snd r)) (SOCKS_Sendto VSA_afunixroot st sock msg to).
Proof using Type.
  intros Hst. unfold SOCKS_Sendto. destruct (List.find _ _) as [e|].
  - apply always_any. intros wcc. by apply always_ret.
  - apply always_any. intros me. eapply always_bind; [by apply udpassocX_ok|].
    intros [[[rc me'] rme] st'] Hst'. simpl in Hst'. destruct (rc <? 0); [by apply always_ret|].
    apply always_any. intros wcc. by apply always_ret.
Qed.

Lemma sendto_ok st sock buf to tolen :
  tables_ok st ->
  always (fun r : Z * socks5 => tables_ok (snd r)) (SOCKS_sendto VSA_afunixroot st sock buf to tolen).
Proof using Type.
  intros Hst. unfold SOCKS_sendto. destruct (_ && _); [by apply Sendto_ok|].
  apply always_any. intros wcc. by apply always_ret.
Qed.

(** The relay of datagrams leaves them alone. *)
Definition keeps (u : urelay) (t : turn) : Prop :=
  match t with Continue u' | Break u' => u_st u' = u_st u end.

Lemma sv2cl_keeps clsock u from rcc : always (keeps u) (sv2cl clsock u from rcc).
Proof using Type. unfold sv2cl. always_tac; done. Qed.

Lemma from_server_keeps clsock svsock u : always (keeps u) (from_server clsock svsock u).
Proof using Type.
  unfold from_server. apply always_any. intros [[[|x b] from]|]; try by apply always_ret.
  intros tr t Hr. pose proof (sv2cl_keeps _ _ _ _ _ _ Hr) as Hk. exact Hk.
Qed.

Lemma via_socks_keeps ctx svsock u via rcc :
  always (fun r : bool * urelay => u_st (snd r) = u_st u) (via_socks VSA_afunixroot ctx svsock u via rcc).
Proof using Type.
  unfold via_socks. apply always_any. intros [[[svctrl via'] serv] set].
  destruct (_ && _); [by apply always_ret|]. apply always_any. intros b.
  apply always_any. intros _. by apply always_ret.
Qed.

Lemma from_client_keeps ctx svsock pi u rcc :
  always (fun r : bool * urelay => u_st (snd r) = u_st u) (from_client VSA_afunixroot ctx svsock pi u rcc).
Proof using Type.
  unfold from_client. apply always_any. intros [via|].
  - eapply always_bind; [apply via_socks_keeps|]. intros [sent u'] Hu. simpl in Hu.
    destruct sent; [by apply always_ret|]. apply always_any. intros _. by apply always_ret.
  - apply always_any. intros _. by apply always_ret.
Qed.

Definition keeps_opt (u : urelay) (r : option turn) : Prop :=
  match r with Some t => keeps u t | None => True end.

Lemma serve_keeps clsock svsock ns u sockR : always (keeps_opt u) (serve clsock svsock ns u sockR).
Proof using Type.
  unfold serve. destruct (_ && _); [|by apply always_ret].
  eapply always_bind; [apply from_server_keeps|]. intros t Ht. by apply always_ret.
Qed.

Lemma got_client_keeps ctx clsock svsock ns pi u sockR b from :
  always (keeps_opt u) (got_client VSA_afunixroot ctx clsock svsock ns pi u sockR b from).
Proof using Type.
  unfold got_client. cbv zeta. destruct (who _ _ _ _ _) as [clnt| |]; [| |by apply always_ret].
  - eapply always_bind; [apply from_client_keeps|]. intros [sent u'] Hu. simpl in Hu.
    destruct sent; [by apply always_ret|]. intros tr r Hr.
    pose proof (serve_keeps _ _ _ _ _ _ _ Hr) as Hk. destruct r as [[]|]; simpl in *; congruence.
  - destruct (v_ok _); [|intros tr r Hr; apply runs_inv in Hr as ([] & _)].
    eapply always_bind; [apply sv2cl_keeps|]. intros t Ht. by apply always_ret.
Qed.

Lemma relay_step_keeps ctx pf cntlsock clsock svsock ns pi u :
  always (keeps_opt u)
    (relay_step VSA_afunixroot UDPSOCKS_TIMEOUT ctx pf cntlsock clsock svsock ns pi u).
Proof using Type.
  unfold relay_step. apply always_any. intros [[nready sockR]|]; [|by apply always_ret].
  destruct (nready <=? 0); [by apply always_ret|]. destruct (0 <? cat sockR 0); [by apply always_ret|].
  destruct (0 <? cat sockR 1); [|by apply serve_keeps].
  apply always_any. intros [[[|x b] from]|]; try by apply always_ret. apply got_client_keeps.
Qed.

Lemma relay_loop_keeps ctx fuel pf cntlsock clsock svsock ns pi u :
  always (fun r => match r with Some u' => u_st u' = u_st u | None => True end)
    (relay_loop VSA_afunixroot UDPSOCKS_TIMEOUT ctx fuel pf cntlsock clsock svsock ns pi u).
Proof using Type.
  revert pi u. induction fuel as [|fuel IH]; intros pi u; simpl; [by apply always_ret|].
  eapply always_bind; [apply relay_step_keeps|]. intros [[u'|u']|] Hu; simpl in Hu.
  - rewrite <- Hu. apply IH.
  - by apply always_ret.
  - by apply always_ret.
Qed.

Lemma udp_relay_ok fuel pf ctx st cntlsock clsock clname flags via :
  tables_ok st ->
  always (fun r => match r with Some st' => tables_ok st' | None => True end)
    (udp_relay_socks VSA_afunixroot SOCKS_QFLAGS UDPSOCKS_TIMEOUT fuel pf ctx st cntlsock clsock
       clname flags via).
Proof using Type.
  intros Hst. unfold udp_relay_socks. destruct (scan_clname clname) as [clhost clport].
  apply always_any. intros clhost'. apply always_any. intros [svsock ns].
  apply (always_bind gw_ans (fun r : option vsaddr * vsaddr * socks5 => tables_ok (snd r))).
  - destruct via as [via|]; [|by apply always_ret]. apply always_any. intros via'.
    eapply always_bind; [by apply udpassocX_ok|]. intros [[[rc v] rme] st'] Hst'. by apply always_ret.
  - intros [[via' serv] st'] Hst'. simpl in Hst'.
    eapply always_bind; [apply relay_loop_keeps|]. intros [u|] Hu; [|by apply always_ret].
    simpl in Hu. destruct (u_via u).
    + apply always_any. intros _.
      apply (always_bind gw_ans tables_ok); [|by intros; apply always_ret].
      destruct (SOCKS_udpclose _ _) as [st2|] eqn:E; cbn [get_opt].
      * apply always_ret. eapply udpclose_ok; [|exact E]. by rewrite Hu.
      * intros tr a Hr. apply runs_inv in Hr as ([] & _).
    + apply always_ret. by rewrite Hu.
Qed.

Abbreviation server := (SOCKS_serverV5A VSA_afunixroot SOCKS_QFLAGS UDPSOCKS_TIMEOUT lNOAUTHPROXY lSINGLEP).
Definition res_ok (r : option (Z * socks5)) : Prop :=
  match r with Some (_, st) => tables_ok st | None => True end.

Lemma do_udp_ok fuel pf st fromcl rsv host port remote :
  tables_ok st ->
  always res_ok (do_udp VSA_afunixroot SOCKS_QFLAGS UDPSOCKS_TIMEOUT fuel pf st fromcl rsv host port remote).
Proof using Type.
  intros Hst. unfold do_udp. apply always_any. intros via.
  apply always_any. intros [[bsock local] remote']. destruct (bsock <? 0).
  - apply always_any. intros r. by apply always_ret.
  - apply always_any. intros local'. apply always_any. intros [].
    eapply always_bind; [by apply udp_relay_ok|]. intros [st'|] Hst'; [|by apply always_ret].
    apply always_any. intros _. destruct (0 <=? socks_sock st'); [|by apply always_ret].
    apply always_any. intros _. by apply always_ret.
Qed.

Lemma server_ok fuel pf st fromcl tocl toms :
  tables_ok st -> always res_ok (server fuel pf st fromcl tocl toms).
Proof using Type.
  intros Hst. unfold SOCKS_serverV5A. apply always_any. intros [qbuf rauth].
  destruct (rauth =? AUTH_M_ERROR); [by apply always_ret|].
  assert (Hgo : always res_ok (q ← read_request qbuf;
    execute VSA_afunixroot SOCKS_QFLAGS UDPSOCKS_TIMEOUT lSINGLEP fuel pf st fromcl tocl toms q)).
  { apply always_any. intros q. unfold execute.
    destruct (_ && _ && _); [apply always_any; intros r; by apply always_ret|].
    destruct (q_cmd q =? 1); [apply always_any; intros r; by apply always_ret|].
    destruct (q_cmd q =? 2); [apply always_any; intros r; by apply always_ret|].
    destruct (q_cmd q =? 3); [by apply do_udp_ok|].
    apply always_any. intros r. by apply always_ret. }
  destruct (rauth =? AUTH_M_USERPASS); [|done].
  apply always_any. intros [rcode|].
  - destruct (rcode <? 0); [by apply always_ret|done].
  - apply always_any. intros r. by apply always_ret.
Qed.

(** C22. The tables of SOCKS are well-formed.  At most 32 associations and at
    most 8 destinations, which is what the arrays have room for, and no two
    of them with the same address: this holds at the start, and every
    operation that comes to a result keeps it: adding a destination, closing
    an association, making one, sending a datagram, and any run of the whole
    server.  Closing comes to a result unless the table of associations is
    full and has the socket: exactly then the code reads the entry behind the
    end of the array. *)
Theorem socks5_tables_well_formed st :
  tables_ok socks5_init /\
  (tables_ok st ->
   (forall dhost dport shost sport,
      tables_ok (SOCKS_addserv VSA_afunixroot st dhost dport shost sport)) /\
   (forall msock,
      match SOCKS_udpclose st msock with
      | Some st' => tables_ok st'
      | None => zlen (socksServ st) = 32 /\ exists e, e ∈ socksServ st /\ s_msock e = msock
      end) /\
   (forall ctx msock me, always (fun r : Z * vsaddr * option vsaddr * socks5 => tables_ok (snd r))
      (SOCKS_udpassocX VSA_afunixroot ctx st msock me)) /\
   (forall sock buf to tolen, always (fun r : Z * socks5 => tables_ok (snd r))
      (SOCKS_sendto VSA_afunixroot st sock buf to tolen)) /\
   (forall fuel pf fromcl tocl toms, always res_ok (server fuel pf st fromcl tocl toms))).
Proof using Type.
  split; [split; [done|split; [done|split; apply NoDup_nil_2]]|].
  intros Hst. split; [by intros; apply addserv_ok|]. split.
  { intros msock. destruct (SOCKS_udpclose st msock) as [st'|] eqn:E; [by eapply udpclose_ok|].
    by apply udpclose_safe; [apply Hst|]. }
  split; [by intros; apply udpassocX_ok|]. split; [by intros; apply sendto_ok|].
  by intros; apply server_ok.
Qed.
End tables.

(** ** Concrete runs *)

#[local] Existing Instance no_libc6.

(** A client without a password asks for a connection to 192.0.2.1, port 80. *)
Definition client5 : list Z := [5; 1; 0] ++ [5; 1; 0; 1; 192; 0; 2; 1; 0; 80].
Abbreviation server5 := (SOCKS_serverV5A [] 0 60 false false 10 10 socks5_init 0 1 2).

Lemma SOCKS_serverV5A_gate_witness :
  guarded is_grant is_service
    (trace_of (gw_env grant_all) (World client5 false []) server5).
Proof.
  apply (SOCKS_serverV5A_gate [] 0 60 false 10 10 socks5_init 0 1 2 _ (Some (0, socks5_init))).
  apply (run_runs _ (gw_env grant_all) _ (World client5 false []) _ _ (World [] false [])).
  vm_compute. reflexivity.
Defined.

Lemma socks5_tables_well_formed_witness :
  exists st', SOCKS_udpclose (SOCKS_addserv [] socks5_init (cs "10.0.0.1") 53 (cs "10.0.0.2") 1080) 7
    = Some st' /\ tables_ok st'.
Proof.
  destruct (socks5_tables_well_formed [] 0 60 false false
    (SOCKS_addserv [] socks5_init (cs "10.0.0.1") 53 (cs "10.0.0.2") 1080)) as [_ H].
  destruct H as (_ & H & _); [apply (bool_decide_unpack _); vm_compute; exact I|].
  specialize (H 7). eexists. split; [reflexivity|exact H].
Defined.

(** Closing an association of a full table. *)
Lemma udpclose_reads_behind :
  let e n := Build_SocksServ n vsa0 n vsa0 in
  SOCKS_udpclose (set_socksServ socks5_init (map (fun n => e (Z.of_nat n)) (seq 0 32))) 5 = None.
Proof. vm_compute. reflexivity. Qed.
