(* ===== verification/Socks5Relay.v ===== *)
(** * Datagrams pass the relay unchanged ([rary/socks5.cpp])

    The client's [SOCKS_sendto0] puts a header before a payload; the relay
    takes it off and sends the payload to the address of the header; an
    answer of a server gets a header with the server's address, which
    [SOCKS_gotudp] takes off at the client. *)
From S2P Require Import Prelude VStr Strings Vsa Io Gateway Socks5 Socks5Udp.
From stdpp Require Import options.

(** ** Overwriting the begin of a buffer *)

(** The buffer [b0] with [l] written over its begin. *)
Definition over (b0 : list Z) (m : vstr * Z) (l : list Z) : Prop :=
  v_buf (fst m) = l ++ drop (length l) b0 /\ vwf (fst m) /\ v_pos (fst m) = 0 /\
  zlen l <= zlen b0 /\ snd m = zlen l.

Lemma over_size b0 m l : over b0 m l -> v_size (fst m) = zlen b0.
Proof.
  intros (Hb & _ & _ & Hl & _). unfold v_size. rewrite Hb. unfold zlen in *.
  rewrite length_app, length_drop. lia.
Qed.

(** A store of [b] behind [l] makes it [l ++ b]. *)
Lemma over_splice b0 l b : (length l + length b <= length b0)%nat ->
  splice (l ++ drop (length l) b0) (length l) b = (l ++ b) ++ drop (length (l ++ b)) b0.
Proof.
  intros Hl. unfold splice. rewrite take_app_length, <- app_assoc. f_equal. f_equal.
  rewrite drop_app_ge by lia. rewrite drop_drop, length_app. f_equal. lia.
Qed.

Lemma over_start v : vwf v -> v_pos v = 0 -> over (v_buf v) (v, 0) [].
Proof. intros Hv Hp. unfold over. simpl. pose proof (zlen_nonneg (v_buf v)). by repeat split; try apply Hv. Qed.

Lemma over_addb b0 m l c : over b0 m l -> zlen l < zlen b0 -> over b0 (addb m c) (l ++ [uchar c]).
Proof.
  intros Hm Hl. pose proof (over_size _ _ _ Hm) as Hz. destruct Hm as (Hb & Hv & Hp & _ & Hs).
  pose proof (zlen_nonneg l). unfold addb, setVStrElemInc, over.
  rewrite rangeOK_in, Hs by (done || lia). cbn [fst snd]. rewrite Hp, Z.add_0_l.
  rewrite v_buf_poke, v_pos_poke, to_nat_zlen, Hb by lia. rewrite zlen_app.
  change (zlen [uchar c]) with 1.
  split; [|split; [apply vwf_poke; [done|lia]|split; [done|split; [lia|done]]]].
  apply over_splice. unfold zlen in *. simpl. lia.
Qed.

Lemma over_addn b0 m l b k : over b0 m l -> bytes_ok b -> k = zlen b -> zlen l < zlen b0 ->
  zlen l + k <= zlen b0 -> over b0 (addn m b k) (l ++ b).
Proof.
  intros Hm Hbo -> Hl Hk. pose proof (over_size _ _ _ Hm) as Hz. destruct Hm as (Hb & Hv & Hp & _ & Hs).
  pose proof (zlen_nonneg l). pose proof (zlen_nonneg b). unfold addn, at_, over. cbn [fst snd].
  rewrite Hs. set (w := v_at (fst m) (zlen l)).
  assert (Hw : vwf w) by (apply vwf_at; [done|lia]).
  assert (Hws : v_size w = zlen b0) by done. assert (Hwp : v_pos w = zlen l) by done.
  assert (Hwb : v_buf w = v_buf (fst m)) by done.
  destruct (Xbcopy_all_or_nothing b w (zlen b) Hw Hbo) as ((H1 & H2 & H3) & E & _); [lia|].
  rewrite zlen_app. split; [|split; [|split; [done|split; [lia|done]]]].
  - cbn [v_at v_buf]. rewrite E by lia. rewrite Hwp, Hwb, Hb, !to_nat_zlen, take_ge by lia.
    apply over_splice. unfold zlen in *. lia.
  - apply vwf_at; [|rewrite H2, Hws; split; [lia|apply zlen_nonneg]].
    destruct Hw as (? & ? & ?). unfold vwf. rewrite H1, H2, H3. done.
Qed.

(** The message is the new begin with what is behind it. *)
Lemma over_emit b0 m l n : over b0 m l -> 0 <= n -> zlen l + n <= zlen b0 ->
  emit (fst m) (snd m + n) = Ret (l ++ take (Z.to_nat n) (drop (length l) b0)).
Proof.
  intros Hm Hn Hl. pose proof (over_size _ _ _ Hm) as Hz. destruct Hm as (Hb & (Hok & _) & _ & _ & Hs).
  pose proof (zlen_nonneg l). unfold emit, vread. rewrite Hok, Hs, Hz, Hb.
  rewrite (proj2 (Z.leb_le 0 _)), (proj2 (Z.leb_le _ (zlen b0))) by lia. simpl. f_equal.
  rewrite Z2Nat.inj_add, to_nat_zlen by lia. by rewrite take_app_add.
Qed.

(** ** Datagrams *)

Definition udp_head (sa : vsaddr) : list Z := [0; 0; 0; atyp_of sa] ++ packed sa.
Definition packet (sa : vsaddr) (msg : list Z) : list Z := udp_head sa ++ msg.

(** An address of IPv4 that can be sent. *)
Definition sin_ok (sa : vsaddr) : Prop := vsaddr_ok sa /\ sa_family sa = AF_INET.

#[export] Instance sin_ok_dec sa : Decision (sin_ok sa).
Proof. unfold sin_ok. apply _. Defined.

Lemma packed_4 sa : sin_ok sa -> packed sa = sa_w1 sa ++ stob (sa_port sa) /\ length (packed sa) = 6%nat.
Proof.
  intros [(_ & _ & Hl & _) Hf]. unfold packed, VSA_decomp. rewrite Hf. simpl.
  split; [done|]. by rewrite length_app, Hl.
Qed.

Lemma udp_head_4 sa : sin_ok sa ->
  udp_head sa = [0; 0; 0; 1] ++ packed sa /\ length (udp_head sa) = 10%nat.
Proof.
  intros Hs. pose proof (packed_4 sa Hs) as [_ Hl]. destruct Hs as [_ Hf].
  unfold udp_head, atyp_of. rewrite Hf. simpl. split; [done|]. by rewrite Hl.
Qed.

Lemma stosaX_packet sa0 sa msg r : sin_ok sa ->
  is_sin (fst (VSA_stosaX sa0 (packet sa msg ++ r))) (sa_w1 sa) (sa_port sa) /\
  snd (VSA_stosaX sa0 (packet sa msg ++ r)) = sizeof_SIN.
Proof.
  intros Hs. pose proof (udp_head_4 sa Hs) as [E _]. destruct Hs as [Hok Hf].
  split; [|done]. unfold VSA_stosaX, packet. rewrite E.
  change (cat (([0; 0; 0; 1] ++ packed sa) ++ msg ++ r) 3) with 1.
  rewrite <- !app_assoc. change (cat ([0; 0; 0; 1] ++ packed sa ++ msg ++ r) 3 =? 4) with false.
  cbv iota. change (drop 4 ([0; 0; 0; 1] ++ packed sa ++ msg ++ r)) with (packed sa ++ msg ++ r).
  by apply stosa_packed_4.
Qed.

(** What the client takes out of a packet. *)
Lemma gotudp_packet sa msg r : sin_ok sa ->
  exists from, SOCKS_gotudp (packet sa msg ++ r) (zlen (packet sa msg)) = Some (msg, from) /\
    is_sin from (sa_w1 sa) (sa_port sa).
Proof.
  intros Hs. pose proof (udp_head_4 sa Hs) as [_ Hl]. unfold SOCKS_gotudp.
  pose proof (stosaX_packet vsa0 sa msg r Hs) as [Hi _].
  assert (Hz : zlen (packet sa msg) = 10 + zlen msg).
  { unfold packet, zlen. rewrite length_app, Hl. lia. }
  pose proof (zlen_nonneg msg). rewrite Hz, (proj2 (Z.ltb_ge _ _)) by lia.
  eexists. split; [|exact Hi]. f_equal. f_equal.
  unfold packet. rewrite <- app_assoc, drop_app_length' by done.
  replace (10 + zlen msg - 10) with (zlen msg) by lia. by rewrite to_nat_zlen, take_app_length.
Qed.

Lemma sendto0_packet sock to via msg : sin_ok to -> bytes_ok msg -> zlen msg <= 32768 ->
  SOCKS_sendto0 sock msg to via false =
  (wcc ← ask (Sendto sock (packet to msg) via (VSA_size via)); Ret (wcc - 10)).
Proof.
  intros Hs Hm Hl. pose proof (udp_head_4 to Hs) as [_ Hhl].
  pose proof (built_udp to (proj1 Hs)) as Hb. unfold SOCKS_sendto0.
  fold (udp_head to) in Hb. destruct (put_udp to) as [qbuf qcc].
  pose proof Hb as (_ & Hq & _). simpl in Hq.
  assert (Hz : zlen (udp_head to) = 10) by (unfold zlen; by rewrite Hhl).
  pose proof (built_addn _ _ _ Hb msg (zlen msg) Hm eq_refl ltac:(rewrite Hz; done) ltac:(lia)) as H2.
  apply built_emit in H2. cbn [addn fst snd] in H2 |- *. rewrite H2.
  rewrite Hq, Hz. done.
Qed.

(** ** A turn of the relay *)

Definition relay_ok (u : urelay) : Prop :=
  vwf (u_rbuf u) /\ v_pos (u_rbuf u) = 0 /\ v_size (u_rbuf u) = 8192.

Lemma vstore_ok v i b : vwf v -> v_pos v = 0 -> 0 <= i -> i + zlen b <= v_size v ->
  let w := vstore v i b in
  vwf w /\ v_pos w = 0 /\ v_size w = v_size v /\ v_buf w = splice (v_buf v) (Z.to_nat i) b.
Proof.
  intros (Hok & Hsz & Hp0) Hp Hi Hb. unfold vstore.
  rewrite (proj2 (Z.leb_le 0 _)), (proj2 (Z.leb_le _ (v_size v))) by lia. simpl.
  assert (Hz : v_size (VStr (splice (v_buf v) (Z.to_nat i) b) (v_pos v) (v_ok v)) = v_size v).
  { unfold v_size, zlen in *. simpl. rewrite length_splice by lia. done. }
  split; [|done]. unfold vwf. by rewrite Hz.
Qed.

Lemma direct_packet svsock u to msg r : sin_ok to -> relay_ok u ->
  v_buf (u_rbuf u) = packet to msg ++ r ->
  exists to', is_sin to' (sa_w1 to) (sa_port to) /\
    direct svsock u (zlen (packet to msg)) = (_ ← ask (Sendto svsock msg to' sizeof_SIN); Ret tt).
Proof.
  intros Hs (Hv & Hp & Hz) Hb. pose proof (udp_head_4 to Hs) as [_ Hl]. unfold direct. rewrite Hb.
  pose proof (stosaX_packet vsa0 to msg r Hs) as [Hi Hn].
  destruct (VSA_stosaX vsa0 (packet to msg ++ r)) as [to' tolen]. simpl in Hi, Hn. subst tolen.
  exists to'. split; [done|].
  assert (Hpz : zlen (packet to msg) = 10 + zlen msg).
  { unfold packet, zlen. rewrite length_app, Hl. lia. }
  assert (Hle : 10 + zlen msg <= v_size (u_rbuf u)).
  { unfold v_size. rewrite Hb, zlen_app, Hpz. pose proof (zlen_nonneg r). lia. }
  pose proof (zlen_nonneg msg). unfold hlen. rewrite Hpz, (proj2 (Z.ltb_ge _ _)) by lia.
  unfold vread_at. replace (10 + zlen msg - 10) with (zlen msg) by lia.
  rewrite !(proj2 (Z.leb_le _ _)) by lia. simpl get_opt.
  rewrite Hb. unfold packet. rewrite <- app_assoc.
  change (Z.to_nat 10) with 10%nat. rewrite drop_app_length' by done.
  by rewrite to_nat_zlen, take_app_length.
Qed.

Lemma sv2cl_packet clsock u from msg : sin_ok from -> relay_ok u -> u_via u = None ->
  10 + zlen msg <= 8192 -> take (length msg) (drop 10 (v_buf (u_rbuf u))) = msg ->
  exists u', relay_ok u' /\ u_clnt u' = u_clnt u /\ u_via u' = None /\
    sv2cl clsock u from (zlen msg) =
    (_ ← ask (Sendto clsock (packet from msg) (u_clnt u) (VSA_size (u_clnt u))); Ret (Continue u')).
Proof.
  intros Hs (Hv & Hp & Hz) Hvia Hl Hmsg. pose proof (udp_head_4 from Hs) as [Eh Hhl].
  pose proof Hs as [(Hpt & Hb4 & Hl4 & _) Hf].
  unfold sv2cl. rewrite Hvia. unfold VSA_decomp. rewrite Hf. cbv beta iota. simpl (AF_INET =? AF_INET6).
  set (b0 := v_buf (u_rbuf u)).
  assert (Hb0 : zlen b0 = 8192) by done.
  pose proof (over_start _ Hv Hp) as H0. fold b0 in H0.
  pose proof (over_addb _ _ _ 0 H0 ltac:(rewrite Hb0; done)) as H1.
  pose proof (over_addb _ _ _ 0 H1 ltac:(rewrite Hb0; done)) as H2.
  pose proof (over_addb _ _ _ 0 H2 ltac:(rewrite Hb0; done)) as H3.
  pose proof (over_addb _ _ _ 1 H3 ltac:(rewrite Hb0; done)) as H4.
  simpl app in H4. change (uchar 0) with 0 in H4. change (uchar 1) with 1 in H4.
  destruct (stob_bytes (sa_port from)) as [Hsb Hsl].
  assert (Hw4 : zlen (sa_w1 from) = 4) by (unfold zlen; by rewrite Hl4).
  pose proof (over_addn _ _ _ (sa_w1 from) 4 H4 Hb4 (eq_sym Hw4) ltac:(rewrite Hb0; done)
    ltac:(rewrite Hb0; done)) as H5.
  assert (Hz5 : zlen ([0; 0; 0; 1] ++ sa_w1 from) = 8) by (rewrite zlen_app, Hw4; done).
  pose proof (over_addn _ _ _ (stob (sa_port from)) 2 H5 Hsb ltac:(done) ltac:(lia) ltac:(lia)) as H6.
  assert (E6 : ([0; 0; 0; 1] ++ sa_w1 from) ++ stob (sa_port from) = udp_head from).
  { rewrite Eh. rewrite (proj1 (packed_4 _ Hs)). by rewrite app_assoc. }
  rewrite E6 in H6.
  match type of H6 with over _ ?m _ => destruct m as [rbuf qc] eqn:Em end.
  assert (Hz6 : zlen (udp_head from) = 10) by (unfold zlen; by rewrite Hhl).
  pose proof (zlen_nonneg msg).
  pose proof (over_emit _ _ _ (zlen msg) H6 ltac:(lia) ltac:(lia)) as He. cbn [fst snd] in He.
  rewrite to_nat_zlen, Hhl in He. subst b0. rewrite Hmsg in He.
  pose proof (over_size _ _ _ H6) as Hsz. destruct H6 as (Hb6 & Hv6 & Hp6 & _). cbn [fst] in *.
  exists (URelay rbuf (u_clnt u) (u_serv u) (u_svctrl u) None (u_st u)).
  split; [split; [exact Hv6|split; [exact Hp6|]]|].
  { change (v_size rbuf = 8192). by rewrite Hsz. }
  split; [done|]. split; [done|]. by rewrite He.
Qed.

(** The store of a datagram into the receive buffer. *)
Lemma relay_ok_store u i b clnt serv ctl via st : relay_ok u -> 0 <= i -> i + zlen b <= 8192 ->
  relay_ok (URelay (vstore (u_rbuf u) i b) clnt serv ctl via st) /\
  v_buf (vstore (u_rbuf u) i b) = splice (v_buf (u_rbuf u)) (Z.to_nat i) b.
Proof.
  intros (Hv & Hp & Hz) Hi Hb. destruct (vstore_ok _ i b Hv Hp Hi) as (W1 & W2 & W3 & W4); [lia|].
  split; [|exact W4]. split; [exact W1|split; [exact W2|]]. cbn [u_rbuf]. by rewrite W3.
Qed.

Lemma splice_at b0 i b : (i + length b <= length b0)%nat -> take (length b) (drop i (splice b0 i b)) = b.
Proof.
  intros Hl. unfold splice. rewrite drop_app_length' by (rewrite length_take; lia).
  by rewrite take_app_length.
Qed.

Section turns.
Variables (root : list Z) (ctx : bool) (clsock svsock ns : Z).
Context `{libc6}.

(** C21. The relay of datagrams is transparent, for destinations and servers
    of IPv4, payloads of 1 to 8182 bytes, which fit into the relay's buffer
    with their header, and a relay that does not go through another SOCKS
    server and has the address of its client already, which it takes from the
    first datagram:
    (1) the client sends one packet, a header and the payload; (2) when the
    relay gets that packet from its client, it sends one datagram, the
    payload to the address of the destination; (3) when it gets a payload of
    a server, on its own socket or on the one shared with the client, it
    sends one packet to the client, and (4) the client takes out of it the
    same payload, and the server's address as the sender. *)
Theorem udp_relay_transparent sock via to from msg reply u clnt sockR pi :
  sin_ok to -> sin_ok from -> bytes_ok msg -> bytes_ok reply ->
  0 < zlen msg <= 8182 -> 0 < zlen reply <= 8182 ->
  relay_ok u -> u_via u = None -> VSA_addr (u_clnt u) <> 0 -> cat sockR 2 = 0 ->
  VSA_comp (u_clnt u) clnt = 0 ->
  SOCKS_sendto0 sock msg to via false =
    (wcc ← ask (Sendto sock (packet to msg) via (VSA_size via)); Ret (wcc - 10)) /\
  (exists to' u', is_sin to' (sa_w1 to) (sa_port to) /\ relay_ok u' /\ u_clnt u' = u_clnt u /\
     got_client root ctx clsock svsock ns (S pi) u sockR (packet to msg) clnt =
     (_ ← ask (Sendto svsock msg to' sizeof_SIN); Ret (Some (Continue u')))) /\
  (exists u', relay_ok u' /\ u_clnt u' = u_clnt u /\
     got_server clsock u reply from =
     (_ ← ask (Sendto clsock (packet from reply) (u_clnt u) (VSA_size (u_clnt u))); Ret (Continue u'))) /\
  (ns = 2 -> VSA_comp (u_clnt u) from <> 0 ->
   exists u', relay_ok u' /\ u_clnt u' = u_clnt u /\
     got_client root ctx clsock svsock ns (S pi) u sockR reply from =
     (_ ← ask (Sendto clsock (packet from reply) (u_clnt u) (VSA_size (u_clnt u)));
      Ret (Some (Continue u')))) /\
  (forall rest, exists from', is_sin from' (sa_w1 from) (sa_port from) /\
     SOCKS_gotudp (packet from reply ++ rest) (zlen (packet from reply)) = Some (reply, from')).
Proof using Type.
  intros Hto Hfrom Hmsg Hreply Hlm Hlr Hu Hvia Ha Hr Hc.
  pose proof (udp_head_4 to Hto) as [Eh Hhl].
  assert (Hpz : zlen (packet to msg) = 10 + zlen msg).
  { unfold packet, zlen. rewrite length_app, Hhl. lia. }
  assert (Hwho : forall rb x, who ns (S pi) (u_clnt u) x rb =
    if VSA_comp (u_clnt u) x =? 0 then Client (u_clnt u)
    else if (ns =? 2) || negb ((cat rb 0 =? 0) && (cat rb 1 =? 0)) then Server else Stranger).
  { intros rb x. unfold who. by rewrite (proj2 (Z.eqb_neq _ 0) Ha). }
  pose proof (proj2 (proj2 Hu)) as Hz. unfold v_size, zlen in Hz.
  split; [|split; [|split; [|split]]].
  - apply sendto0_packet; (done || lia).
  - destruct (relay_ok_store u 0 (packet to msg) (u_clnt u) (u_serv u) (u_svctrl u) None (u_st u) Hu)
      as [Hu' Hb]; [lia|lia|].
    unfold splice in Hb. change (Z.to_nat 0) with 0%nat in Hb. rewrite take_0 in Hb.
    destruct (direct_packet svsock _ to msg _ Hto Hu' Hb) as (to' & Hi & Hd).
    exists to'. eexists. split; [exact Hi|]. split; [exact Hu'|]. split; [done|].
    unfold got_client. rewrite Hwho, (proj2 (Z.eqb_eq _ 0) Hc). unfold from_client. simpl u_via.
    rewrite Hvia. simpl mbind at 1.
    unfold mbind, io_mbind. simpl. fold (zlen (packet to msg)). rewrite Hd. simpl. 
    unfold serve. rewrite Hr. by rewrite andb_false_r.
  - destruct (relay_ok_store u 10 reply (u_clnt u) (u_serv u) (u_svctrl u) (u_via u) (u_st u) Hu)
      as [Hu' Hb]; [lia|lia|].
    destruct (sv2cl_packet clsock _ from reply Hfrom Hu' Hvia) as (u' & H1 & H2 & _ & H3); [lia| |].
    { simpl u_rbuf. rewrite Hb. apply splice_at. unfold zlen in *. lia. }
    exists u'. split; [done|]. split; [done|]. exact H3.
  - intros -> Hne.
    destruct (relay_ok_store u 0 reply (u_clnt u) (u_serv u) (u_svctrl u) (u_via u) (u_st u) Hu)
      as [Hu1 Hb1]; [lia|lia|].
    destruct (relay_ok_store _ 10 reply (u_clnt u) (u_serv u) (u_svctrl u) (u_via u) (u_st u) Hu1)
      as [Hu2 Hb2]; [lia|lia|]. simpl u_rbuf in Hu2, Hb2.
    pose proof (proj2 (proj2 Hu1)) as Hz1. unfold v_size, zlen in Hz1. simpl u_rbuf in Hz1.
    destruct (sv2cl_packet clsock _ from reply Hfrom Hu2 Hvia) as (u' & H1 & H2 & _ & H3); [lia| |].
    { simpl u_rbuf. rewrite Hb2. apply splice_at. unfold zlen in *. lia. }
    exists u'. split; [done|]. split; [done|].
    unfold got_client. rewrite Hwho, (proj2 (Z.eqb_neq _ 0) Hne). simpl orb. cbv iota zeta.
    destruct Hu2 as ((Hok & _) & _). simpl u_rbuf in Hok. unfold hlen. rewrite Hok. 
    unfold hlen in H3. simpl zlen in H3. rewrite H3. done.
  - intros rest. destruct (gotudp_packet from reply rest Hfrom) as (from' & E & Hi).
    by exists from'.
Qed.
End turns.

(** ** A concrete relay *)

#[local] Existing Instance no_libc6.

Definition sin4 (a b c d p : Z) : vsaddr := VSA AF_INET p [a; b; c; d] (repeat 0 16) 0 [].
Definition relay1 : urelay :=
  URelay (zeros 8192) (sin4 10 0 0 9 4000) vsa0 (-1) None socks5_init.

Lemma udp_relay_transparent_witness :
  exists to' u', is_sin to' [192; 0; 2; 1] 53 /\ relay_ok u' /\ u_clnt u' = sin4 10 0 0 9 4000 /\
     got_client [] false 3 4 1 1 relay1 [0; 1; 0] (packet (sin4 192 0 2 1 53) (cs "query")) (sin4 10 0 0 9 4000) =
     (_ ← ask (Sendto 4 (cs "query") to' sizeof_SIN); Ret (Some (Continue u'))).
Proof.
  destruct (udp_relay_transparent [] false 3 4 1 3 vsa0 (sin4 192 0 2 1 53) (sin4 192 0 2 1 53)
    (cs "query") (cs "answer") relay1 (sin4 10 0 0 9 4000) [0; 1; 0] 0)
    as (_ & H & _); [..|exact H].
  all: apply (bool_decide_unpack _); vm_compute; exact I.
Defined.
