(* ===== verification/Socks5Live.v ===== *)
(** * A client and a server of SOCKS5 together ([rary/socks5.cpp])

    The bytes that [SOCKS_startV5] sends are read by [SOCKS_serverV5A], and
    its replies are read by the client: the connection that the client asks
    for is opened and relayed, and the client learns its address
    ([socks5_connect]). *)
From S2P Require Import Prelude VStr Strings Vsa Io Gateway Socks5 Socks5Udp Socks5Serv.
From stdpp Require Import options.

(** The bytes that a trace sends to the peer, and that it writes to the client. *)
Fixpoint sends (tr : list gw_event) : list Z :=
  match tr with
  | [] => []
  | Ev c _ :: tr => match c with Send _ b => b | _ => [] end ++ sends tr
  end.
Fixpoint writes (tr : list gw_event) : list Z :=
  match tr with
  | [] => []
  | Ev c _ :: tr => match c with Write b => b | _ => [] end ++ writes tr
  end.

Lemma sends_app t1 t2 : sends (t1 ++ t2) = sends t1 ++ sends t2.
Proof. induction t1 as [|[c x] t1 IH]; simpl; [done|]. by rewrite IH, app_assoc. Qed.
Lemma writes_app t1 t2 : writes (t1 ++ t2) = writes t1 ++ writes t2.
Proof. induction t1 as [|[c x] t1 IH]; simpl; [done|]. by rewrite IH, app_assoc. Qed.

(** ** Runs in an environment, step by step *)

Section exec.
Variable P : policy.

Definition ex {A} (w : world) (p : gio A) (tr : list gw_event) (a : A) (w' : world) : Prop :=
  run (gw_env P) w p = Some (tr, a, w').

Lemma ex_ret {A} w (a : A) : ex w (Ret a) [] a w.
Proof. done. Qed.

Lemma ex_call {A} w c (k : gw_ans c -> gio A) x w1 tr a w2 :
  gw_env P w c = Some (x, w1) -> ex w1 (k x) tr a w2 -> ex w (call c ≫= k) (Ev c x :: tr) a w2.
Proof. unfold ex. intros E1 E2. simpl. rewrite E1. simpl. by rewrite E2. Qed.

Lemma ex_last w c x w1 : gw_env P w c = Some (x, w1) -> ex w (call c) [Ev c x] x w1.
Proof. unfold ex. intros E. simpl. by rewrite E. Qed.

Lemma ex_bind {A B} w (p : gio A) (f : A -> gio B) t1 a w1 t2 b w2 :
  ex w p t1 a w1 -> ex w1 (f a) t2 b w2 -> ex w (p ≫= f) (t1 ++ t2) b w2.
Proof. unfold ex. intros E1 E2. rewrite (run_bind _ _ _ _ _ _ _ _ E1), E2. done. Qed.

(** Reading from the client. *)
Lemma env_getc b r e pe : gw_env P (World (b :: r) e pe) Getc = Some (b, World r e pe).
Proof. done. Qed.
Lemma env_fread b r pe n : n = zlen b ->
  gw_env P (World (b ++ r) false pe) (Fread n) = Some (b, World r false pe).
Proof.
  intros ->. simpl. rewrite to_nat_zlen, take_app_length, drop_app_length.
  rewrite zlen_app, (proj2 (Z.ltb_ge _ _)); [done|]. pose proof (zlen_nonneg r). lia.
Qed.
(** Receiving from the peer. *)
Lemma env_recv sock b r i e n : n = zlen b ->
  gw_env P (World i e (b ++ r)) (Recv sock n) = Some (Some b, World i e r).
Proof. intros ->. simpl. by rewrite to_nat_zlen, take_app_length, drop_app_length. Qed.
Lemma env_recv_all sock b i e n : n = zlen b ->
  gw_env P (World i e b) (Recv sock n) = Some (Some b, World i e []).
Proof. intros ->. simpl. by rewrite to_nat_zlen, take_ge, drop_ge by lia. Qed.
End exec.

(** A call whose answer is found by computation, or by one of the lemmas. *)
Ltac ex_step :=
  eapply ex_call; [first [apply env_getc | reflexivity]|].

Lemma lor_bytes hi lo : 0 <= lo < 256 -> Z.lor (Z.shiftl hi 8) lo = hi * 256 + lo.
Proof.
  intros Hl. pose proof (Z.add_lor_land (Z.shiftl hi 8) lo) as Ha.
  assert (Hz : Z.land (Z.shiftl hi 8) lo = 0).
  { apply Z.bits_inj'. intros n Hn. rewrite Z.land_spec, Z.bits_0.
    destruct (Z.ltb_spec n 8) as [H|H].
    - by rewrite Z.shiftl_spec_low.
    - rewrite (bits_high 8 lo n) by (simpl; lia). apply andb_false_r. }
  rewrite Hz in Ha. rewrite Z.shiftl_mul_pow2 in * by lia. lia.
Qed.

Lemma stob_port p : 0 <= p < 65536 ->
  exists hi lo, stob p = [hi; lo] /\ Z.lor (Z.shiftl hi 8) lo = p /\ byte_ok hi /\ byte_ok lo.
Proof.
  intros Hp. unfold stob. eexists _, _. split; [done|].
  assert (Hb : forall z, byte_ok (uchar z)) by (intros z; apply Z.mod_pos_bound; lia).
  split; [|by split]. rewrite lor_bytes by apply Hb. unfold uchar.
  rewrite Z.shiftr_div_pow2 by lia. change (2 ^ 8) with 256.
  rewrite (Z.mod_small (p / 256)) by (split; [apply Z.div_pos; lia|apply Z.div_lt_upper_bound; lia]).
  pose proof (Z.div_mod p 256). lia.
Qed.

(** ** What the server reads *)

(** A buffer of the server. *)
Definition qbuf_ok (v : vstr) : Prop := vwf v /\ v_pos v = 0 /\ v_size v = 512.

Lemma qbuf_ok_poke v i c : qbuf_ok v -> 0 <= i < 512 -> qbuf_ok (poke v i c).
Proof.
  intros (Hv & Hp & Hz) Hi. split; [apply vwf_poke; [done|lia]|].
  by rewrite v_pos_poke, v_size_poke.
Qed.

Lemma qbuf_ok_store v i b : qbuf_ok v -> 0 <= i -> i + zlen b <= 512 ->
  qbuf_ok (vstore v i b) /\
  exists r, drop (Z.to_nat i) (v_buf (vstore v i b)) = b ++ r.
Proof.
  intros (Hv & Hp & Hz) Hi Hb. unfold vstore.
  rewrite (proj2 (Z.leb_le 0 _)), (proj2 (Z.leb_le _ (v_size v))) by lia. simpl.
  assert (Hzz : (Z.to_nat i + length b <= length (v_buf v))%nat) by (unfold v_size, zlen in *; lia).
  split.
  - assert (Hs : v_size (VStr (splice (v_buf v) (Z.to_nat i) b) (v_pos v) (v_ok v)) = 512).
    { unfold v_size, zlen in *. simpl. by rewrite length_splice. }
    destruct Hv as (? & ? & ?). split; [unfold vwf; rewrite Hs; simpl; (split; [done|lia])|done].
  - rewrite splice_drop by lia. by eexists.
Qed.

Lemma buf512_ok : qbuf_ok buf512.
Proof. by vm_compute. Qed.

Section server.
Context `{libc6}.
Variable P : policy.
Variable VSA_afunixroot : list Z.
Variables (SOCKS_QFLAGS UDPSOCKS_TIMEOUT : Z) (lNOAUTHPROXY lSINGLEP : bool).

(** The server lets the client in without a password. *)
Definition open_gate : Prop := lNOAUTHPROXY = true \/ pl_auth P None = 0.

Lemma ex_greeting_open meth r pe : open_gate -> 0 <= meth < 256 ->
  exists tr q, ex P (World ([5; 1; meth] ++ r) false pe) (greeting lNOAUTHPROXY) tr (q, AUTH_M_NONE)
    (World r false pe) /\ writes tr = [5; 0] /\ qbuf_ok q.
Proof using Type.
  intros Ho Hm.
  destruct (qbuf_ok_store (poke (poke buf512 0 5) 1 1) 2 [meth]) as [Hq _];
    [apply qbuf_ok_poke; [apply qbuf_ok_poke; [apply buf512_ok|lia]|lia]|lia|done|].
  destruct lNOAUTHPROXY eqn:En.
  - eexists _, _. split; [|split; [|exact Hq]].
    + unfold greeting. ex_step. ex_step. eapply ex_call; [by apply (env_fread P [meth])|].
      eapply ex_bind; [apply ex_ret|]. eapply ex_bind; [apply ex_ret|]. ex_step. apply ex_ret.
    + done.
  - destruct Ho as [?|Ha]; [congruence|]. eexists _, _. split; [|split; [|exact Hq]].
    + unfold greeting. ex_step. ex_step. eapply ex_call; [by apply (env_fread P [meth])|].
      eapply ex_bind; [ex_step; cbv beta iota; rewrite Ha; apply ex_ret|].
      eapply ex_bind; [apply ex_ret|]. ex_step. apply ex_ret.
    + done.
Qed.

Lemma ex_greeting_login r pe : lNOAUTHPROXY = false -> pl_auth P None <> 0 ->
  exists tr q, ex P (World ([5; 1; AUTH_M_USERPASS] ++ r) false pe) (greeting lNOAUTHPROXY) tr
    (q, AUTH_M_USERPASS) (World r false pe) /\ writes tr = [5; AUTH_M_USERPASS] /\ qbuf_ok q.
Proof using Type.
  intros -> Ha.
  destruct (qbuf_ok_store (poke (poke buf512 0 5) 1 1) 2 [AUTH_M_USERPASS]) as [Hq (s & Hs)];
    [apply qbuf_ok_poke; [apply qbuf_ok_poke; [apply buf512_ok|lia]|lia]|lia|done|].
  eexists _, _. split; [|split; [|exact Hq]].
  - unfold greeting. ex_step. ex_step. eapply ex_call; [by apply (env_fread P [AUTH_M_USERPASS])|].
    cbv beta iota zeta. change (uchar 5) with 5. change (uchar 1) with 1.
    eapply ex_bind.
    { ex_step. cbv beta. rewrite (proj2 (Z.eqb_neq _ 0) Ha). cbv iota.
      change (Z.to_nat 2) with 2%nat in Hs. rewrite Hs. apply ex_ret. }
    eapply ex_bind; [apply ex_ret|]. ex_step. apply ex_ret.
  - done.
Qed.

(** A string with its length. *)
Lemma ex_read_string s r pe : cstr_ok s ->
  exists tr, ex P (World (s ++ r) false pe) (read_string (zlen s)) tr (Some s) (World r false pe) /\
    writes tr = [].
Proof using Type.
  intros Hs. unfold read_string. pose proof (zlen_nonneg s).
  rewrite (proj2 (Z.eqb_neq (zlen s) (-1))) by lia.
  destruct (Z.eqb_spec (zlen s) 0) as [E|E].
  - destruct s as [|c s]; [|rewrite zlen_cons in E; pose proof (zlen_nonneg s); lia].
    by exists [].
  - eexists. split; [eapply ex_call; [by apply env_fread|]|].
    + rewrite (proj2 (Z.ltb_ge _ _)), (cstr_ok_cstr s Hs) by lia. apply ex_ret.
    + done.
Qed.

Definition auth_bytes (user pass : list Z) : list Z := [1; zlen user] ++ user ++ [zlen pass] ++ pass.

Lemma ex_userpass user pass r pe : cstr_ok user -> cstr_ok pass ->
  0 <= pl_auth P (Some (user, pass)) ->
  exists tr, ex P (World (auth_bytes user pass ++ r) false pe) userpass tr
    (Some (pl_auth P (Some (user, pass)))) (World r false pe) /\ writes tr = [1; AUTH_R_OK].
Proof using Type.
  intros Hu Hp Ha. unfold auth_bytes, userpass. rewrite <- !app_assoc.
  destruct (ex_read_string user ([zlen pass] ++ pass ++ r) pe Hu) as (t1 & E1 & W1).
  destruct (ex_read_string pass r pe Hp) as (t2 & E2 & W2).
  eexists. split.
  - ex_step. ex_step. eapply ex_bind; [exact E1|]. cbv beta iota.
    change (1 =? -1) with false. cbv iota. ex_step.
    eapply ex_bind; [exact E2|]. cbv beta iota. ex_step. cbv beta iota.
    ex_step. cbv beta. rewrite (proj2 (Z.ltb_ge _ 0) Ha). ex_step. apply ex_ret.
  - simpl. rewrite writes_app, W1. simpl. rewrite writes_app, W2. done.
Qed.

(** ** The request *)

(** A destination: a name, or an address of IPv4. *)
Inductive dest : Type := Name (host : list Z) | Dotted (a b c d : Z).
Definition dest_text (x : dest) : list Z :=
  match x with Name h => h | Dotted a b c d => fmt_4d a b c d end.
Definition dest_bytes (x : dest) : list Z :=
  match x with Name h => [3; zlen h] ++ h | Dotted a b c d => [1; a; b; c; d] end.
Definition dest_ok (x : dest) : Prop :=
  match x with
  | Name h => cstr_ok h /\ 0 < zlen h <= 249 /\ VSA_strisaddr h = 0
  | Dotted a b c d => byte_ok a /\ byte_ok b /\ byte_ok c /\ byte_ok d
  end.
Definition request_bytes (cmd : Z) (x : dest) (port : Z) : list Z :=
  [5; cmd; 0] ++ dest_bytes x ++ stob port.

Lemma cstr_app s r : cstr_ok s -> cstr (s ++ r) = s ++ cstr r.
Proof using Type.
  induction 1 as [|c s Hc _ IH]; [done|]. simpl. unfold cchar_ok in Hc.
  destruct (Z.eqb_spec c 0); [lia|]. by rewrite IH.
Qed.

Lemma ex_read_request q cmd x port r pe : qbuf_ok q -> byte_ok cmd -> dest_ok x -> 0 <= port < 65536 ->
  exists tr atyp, ex P (World (request_bytes cmd x port ++ r) false pe) (read_request q) tr
    (Build_request 5 cmd 0 atyp (dest_text x) port) (World r false pe) /\ writes tr = [].
Proof using Type.
  intros Hq Hc Hx Hp. destruct (stob_port port Hp) as (hi & lo & Es & El & Hhi & Hlo).
  unfold request_bytes. rewrite Es, <- !app_assoc. unfold read_request.
  assert (Hq4 : qbuf_ok (poke q 4 0)) by (apply qbuf_ok_poke; [done|lia]).
  destruct x as [h|a b c d]; cbn [dest_text dest_bytes dest_ok] in *.
  - destruct Hx as (Hh & Hl & _).
    destruct (qbuf_ok_store (poke q 4 0) 4 h Hq4) as [_ (s & Hs)]; [lia|lia|].
    change (Z.to_nat 4) with 4%nat in Hs. rewrite <- !app_assoc.
    eexists _, 3. split.
    + do 4 ex_step. cbv beta zeta. change (uchar 3) with 3. change (uchar 5) with 5.
      change (uchar 0) with 0. rewrite (uchar_small cmd Hc).
      cbn [Z.eqb Pos.eqb]. eapply ex_bind; [apply (ex_last P _ Getc), env_getc|].
      rewrite (proj2 (Z.ltb_lt 0 _)) by lia.
      eapply ex_bind; [eapply ex_call; [by apply env_fread|]; apply ex_ret|].
      cbv beta zeta. ex_step. ex_step. rewrite Hs, cstr_app, to_nat_zlen, take_app_length by done.
      rewrite El. apply ex_ret.
    + done.
  - destruct Hx as (Ha & Hb & Hcc & Hd).
    destruct (qbuf_ok_store (poke q 4 0) 4 [a; b; c; d] Hq4) as [_ (s & Hs)]; [lia|done|].
    change (Z.to_nat 4) with 4%nat in Hs.
    eexists _, 1. split.
    + do 4 ex_step. cbv beta zeta. change (uchar 1) with 1. change (uchar 5) with 5.
      change (uchar 0) with 0. rewrite (uchar_small cmd Hc).
      cbn [Z.eqb Pos.eqb]. eapply ex_bind; [apply ex_ret|]. cbn [Z.ltb Z.compare].
      eapply ex_bind; [eapply ex_call; [by apply (env_fread P [a; b; c; d])|]; apply ex_ret|].
      cbv beta zeta. ex_step. ex_step. rewrite Hs, El. apply ex_ret.
    + done.
Qed.

(** ** The response *)

Lemma rindex_of_none c s : Forall (fun x => x <> c) s -> rindex_of c s = None.
Proof using Type.
  induction 1 as [|x s Hx _ IH]; [done|]. simpl. rewrite IH. by rewrite (proj2 (Z.eqb_neq x c)).
Qed.

Lemma rindex_of_last c s1 s2 : Forall (fun x => x <> c) s2 ->
  rindex_of c (s1 ++ c :: s2) = Some (length s1).
Proof using Type.
  intros Hs. induction s1 as [|x s1 IH]; simpl.
  - by rewrite rindex_of_none, Z.eqb_refl.
  - by rewrite IH.
Qed.

Definition address_text (a b c d port : Z) : list Z := fmt_4d a b c d ++ 58 :: fmt_d port.
Definition response_bytes (rep a b c d port : Z) : list Z := [5; rep; 0; 1; a; b; c; d] ++ stob port.

Lemma address_text_short a b c d p : byte_ok a -> byte_ok b -> byte_ok c -> byte_ok d ->
  0 <= p < 65536 -> zlen (address_text a b c d p) <= 21.
Proof using Type.
  intros Ha Hb Hc Hd Hp. unfold address_text. rewrite zlen_app, zlen_cons.
  pose proof (fmt_4d_length a b c d Ha Hb Hc Hd).
  destruct (fmt_d_spec p) as (_ & _ & _ & _ & _ & H5 & _); [lia|]. specialize (H5 ltac:(lia)). lia.
Qed.


Lemma resp_host_address a b c d p : byte_ok a -> byte_ok b -> byte_ok c -> byte_ok d ->
  0 <= p < 65536 -> resp_host (address_text a b c d p) = (fmt_4d a b c d, p).
Proof using Type.
  intros Ha Hb Hc Hd Hp. unfold resp_host.
  pose proof (address_text_short a b c d p Ha Hb Hc Hd Hp) as Hl.
  rewrite clip_zlen by lia. unfold address_text.
  rewrite rindex_of_last.
  - rewrite take_app_length, (drop_app_ge _ _ (S _)) by lia.
    replace (S (length (fmt_4d a b c d)) - length (fmt_4d a b c d))%nat with 1%nat by lia.
    change (drop 1 (58 :: fmt_d p)) with (fmt_d p). by rewrite atoi_fmt_d by lia.
  - destruct (fmt_d_spec p) as (_ & Hds & _); [lia|]. eapply Forall_impl; [exact Hds|].
    intros x Hx ->. done.
Qed.

Lemma unmap_dotted a b c d : byte_ok a -> byte_ok b -> byte_ok c -> byte_ok d ->
  unmap (fmt_4d a b c d) = fmt_4d a b c d.
Proof using Type.
  intros Ha Hb Hc Hd. unfold unmap.
  pose proof (fmt_4d_chars a b c d Ha Hb Hc Hd) as Hs.
  destruct Hs as [|x s Hx _]; [done|].
  assert (Hn : strncaseeq (x :: s) (cs "__FFFF_") 7 = false).
  { unfold strncaseeq, strcasecmp_eq. apply bool_decide_eq_false. simpl. intros E.
    injection E as E _. apply dotc_cases in Hx. unfold tolower, isupper in E. zcases. }
  by rewrite Hn.
Qed.

Lemma bytes4 a b c d : byte_ok a -> byte_ok b -> byte_ok c -> byte_ok d -> bytes_ok [a; b; c; d].
Proof using Type. intros. do 4 (apply Forall_cons; split; [done|]). by apply Forall_nil. Qed.

Lemma send_resp_address rep a b c d p : byte_ok rep ->
  byte_ok a -> byte_ok b -> byte_ok c -> byte_ok d -> 0 <= p < 65536 ->
  send_resp VSA_afunixroot rep (address_text a b c d p) = ask (Write (response_bytes rep a b c d p)).
Proof using Type.
  intros Hr Ha Hb Hc Hd Hp. unfold send_resp, put_resp.
  rewrite resp_host_address, strisaddr_dotted, unmap_dotted by done. simpl negb. cbv iota.
  destruct (VSA_atosa_dotted a b c d Ha Hb Hc Hd VSA_afunixroot vsa0 p Hp) as [(Hf & Hw & Hpp) _].
  unfold VSA_decomp. rewrite Hf, Hw. change (AF_INET =? AF_INET6) with false. cbv iota beta.
  pose proof (built_zeros 512 eq_refl) as (H0 & _ & Hz). cbn [fst snd] in H0, Hz.
  fold buf512 in H0, Hz.
  pose proof (holds_elem buf512 [] 5 H0 ltac:(by rewrite Hz)) as H1.
  pose proof (holds_elem _ _ rep H1 ltac:(by rewrite v_size_setVStrElem, Hz)) as H2.
  pose proof (holds_elem _ _ 0 H2 ltac:(by rewrite !v_size_setVStrElem, Hz)) as H3.
  simpl app in H3. rewrite (uchar_small rep Hr) in *. change (uchar 5) with 5 in *.
  change (uchar 0) with 0 in *.
  change (zlen []) with 0 in *. change (zlen [5]) with 1 in *. change (zlen [5; rep]) with 2 in *.
  set (v := setVStrElem (setVStrElem (setVStrElem buf512 0 5) 1 rep) 2 0) in *.
  assert (B0 : built 512 (v, 3) [5; rep; 0]).
  { split; [exact H3|]. split; [done|]. subst v. cbn [fst]. by rewrite !v_size_setVStrElem, Hz. }
  clearbody v.
  pose proof (built_addb _ _ _ B0 1 ltac:(done)) as B1. simpl app in B1. change (uchar 1) with 1 in B1.
  pose proof (built_addn _ _ _ B1 [a; b; c; d] 4 (bytes4 a b c d Ha Hb Hc Hd) eq_refl
    ltac:(done) ltac:(done)) as B2. simpl app in B2.
  pose proof (built_stob _ _ _ B2 p ltac:(done)) as B3.
  pose proof (built_emit _ _ _ B3) as E. change (AF_INET =? AF_INET6) with false.
  cbn [fst snd] in E |- *. rewrite E. done.
Qed.

(** ** The connection *)

Lemma ex_close (b : bool) fd w :
  exists tr, ex P w (if b then ask (Close fd) else Ret tt) tr tt w /\ writes tr = [].
Proof using Type.
  destruct b; [|by exists []]. eexists. split; [by apply (ex_last P _ (Close fd))|done].
Qed.

Lemma ex_close2 (b : bool) f1 f2 w :
  exists tr, ex P w (if b then _ ← ask (Close f1); ask (Close f2) else Ret tt) tr tt w /\ writes tr = [].
Proof using Type.
  destruct b; [|by exists []].
  eexists. split; [ex_step; by apply (ex_last P _ (Close f2))|done].
Qed.

Variables (fromcl tocl toms : Z).

(** The calls that make a connection. *)
Definition connects (remote : list Z) (ans : Z * list Z * list Z) (tr : list gw_event) : Prop :=
  Ev (VSocket (cs "CNCT/SocksV5") (-1) any_port remote []) ans ∈ tr /\
  Ev (Tcp_relay2 toms fromcl (pl_tos P) (pl_froms P) tocl) tt ∈ tr.

Lemma ex_connect remote sv a b c d p rem w :
  byte_ok a -> byte_ok b -> byte_ok c -> byte_ok d -> 0 <= p < 65536 -> 0 <= sv ->
  pl_vsocket P (cs "CNCT/SocksV5") (-1) any_port remote [] = (sv, address_text a b c d p, rem) ->
  exists tr, ex P w (do_connect VSA_afunixroot fromcl tocl toms remote) tr 0 w /\
    writes tr = response_bytes 0 a b c d p /\ connects remote (sv, address_text a b c d p, rem) tr.
Proof using Type.
  intros Ha Hb Hc Hd Hp Hsv Hv.
  pose proof (address_text_short a b c d p Ha Hb Hc Hd Hp) as Hl.
  destruct (ex_close (negb (pl_tos P =? sv)) (pl_tos P) w) as (t1 & E1 & W1).
  destruct (ex_close (negb (pl_froms P =? sv)) (pl_froms P) w) as (t2 & E2 & W2).
  destruct (ex_close2 (negb (tocl =? fromcl)) tocl fromcl w) as (t3 & E3 & W3).
  eexists. split; [|split].
  - unfold do_connect. eapply ex_call; [simpl; by rewrite Hv|]. cbv beta iota.
    rewrite (proj2 (Z.ltb_ge sv 0)), clip_zlen, send_resp_address by (done || lia).
    do 7 ex_step. eapply ex_bind; [exact E1|]. ex_step. eapply ex_bind; [exact E2|]. ex_step.
    eapply ex_bind; [exact E3|]. apply ex_ret.
  - simpl. rewrite !writes_app, W1. simpl. rewrite !writes_app, W2. simpl.
    rewrite !writes_app, W3. by rewrite app_nil_r.
  - split; [by constructor|]. do 4 (apply list_elem_of_further). by constructor.
Qed.

(** ** The whole server *)

(** How the client gets in. *)
Definition login (user : list Z) (pass : option (list Z)) : Prop :=
  open_gate \/
  lNOAUTHPROXY = false /\ pl_auth P None <> 0 /\
  exists p, pass = Some p /\ 0 <= pl_auth P (Some (user, p)).

(** What the client sends and the server replies before the request. *)
Definition method_of (pass : option (list Z)) : Z :=
  match pass with Some _ => AUTH_M_USERPASS | None => AUTH_M_NONE end.
Definition gate_open_dec : bool := lNOAUTHPROXY || (pl_auth P None =? 0).
Definition hello (user : list Z) (pass : option (list Z)) : list Z :=
  [5; 1; method_of pass] ++ if gate_open_dec then [] else auth_bytes user (default [] pass).
Definition welcome : list Z :=
  if gate_open_dec then [5; AUTH_M_NONE] else [5; AUTH_M_USERPASS] ++ [1; AUTH_R_OK].

Lemma gate_open_dec_spec : gate_open_dec = true <-> open_gate.
Proof using Type.
  unfold gate_open_dec, open_gate. rewrite orb_true_iff, Z.eqb_eq. done.
Qed.

Lemma ex_server fuel pf st user pass x port sv a b c d p rem pe :
  login user pass -> cstr_ok user -> cstr_ok (default [] pass) -> dest_ok x -> 0 <= port < 65536 ->
  (lSINGLEP = false \/ strtailstr (dest_text x) ACCONN = None) ->
  byte_ok a -> byte_ok b -> byte_ok c -> byte_ok d -> 0 <= p < 65536 -> 0 <= sv ->
  pl_vsocket P (cs "CNCT/SocksV5") (-1) any_port (dest_text x ++ 58 :: fmt_d port) [] =
    (sv, address_text a b c d p, rem) ->
  exists tr, ex P (World (hello user pass ++ request_bytes 1 x port) false pe)
    (SOCKS_serverV5A VSA_afunixroot SOCKS_QFLAGS UDPSOCKS_TIMEOUT lNOAUTHPROXY lSINGLEP
       fuel pf st fromcl tocl toms) tr (Some (0, st)) (World [] false pe) /\
    writes tr = welcome ++ response_bytes 0 a b c d p /\
    connects (dest_text x ++ 58 :: fmt_d port) (sv, address_text a b c d p, rem) tr.
Proof using Type.
  intros Hlog Hu Hpw Hx Hport Hacc Ha Hb Hc Hd Hp Hsv Hv.
  assert (Hgo : forall q, qbuf_ok q -> exists tr,
    ex P (World (request_bytes 1 x port) false pe)
      (q ← read_request q; execute VSA_afunixroot SOCKS_QFLAGS UDPSOCKS_TIMEOUT lSINGLEP fuel pf st
         fromcl tocl toms q) tr (Some (0, st)) (World [] false pe) /\
    writes tr = response_bytes 0 a b c d p /\
    connects (dest_text x ++ 58 :: fmt_d port) (sv, address_text a b c d p, rem) tr).
  { intros q Hq.
    destruct (ex_read_request q 1 x port [] pe Hq ltac:(by compute) Hx Hport) as (t1 & atyp & E1 & W1).
    rewrite app_nil_r in E1.
    assert (Hrem : clip 256 (dest_text x ++ 58 :: fmt_d port) = dest_text x ++ 58 :: fmt_d port).
    { apply clip_zlen. rewrite zlen_app, zlen_cons.
      destruct (fmt_d_spec port) as (_ & _ & _ & _ & _ & H5 & _); [lia|]. specialize (H5 ltac:(lia)).
      destruct x as [h|a' b' c' d']; simpl in Hx |- *; [lia|].
      destruct Hx as (X1 & X2 & X3 & X4). pose proof (fmt_4d_length _ _ _ _ X1 X2 X3 X4). lia. }
    destruct (ex_connect (dest_text x ++ 58 :: fmt_d port) sv a b c d p rem (World [] false pe)
      Ha Hb Hc Hd Hp Hsv Hv) as (t2 & E2 & W2 & C2 & R2).
    exists (t1 ++ t2 ++ []). split; [|split].
    - eapply ex_bind; [exact E1|]. unfold execute. cbn [q_cmd q_host q_port].
      assert (Hs : lSINGLEP && bool_decide (strtailstr (dest_text x) ACCONN <> None) = false).
      { destruct Hacc as [->| ->]; [done|]. by rewrite andb_false_r. }
      change (1 =? 1) with true. rewrite andb_true_l, Hs. cbv iota. rewrite Hrem.
      eapply ex_bind; [exact E2|]. apply ex_ret.
    - by rewrite !writes_app, W1, W2, app_nil_r.
    - split; rewrite elem_of_app, app_nil_r; by right. }
  unfold hello, welcome, SOCKS_serverV5A.
  destruct gate_open_dec eqn:Eg.
  - apply gate_open_dec_spec in Eg. rewrite app_nil_r.
    destruct (ex_greeting_open (method_of pass) (request_bytes 1 x port) pe Eg) as (t1 & q & E1 & W1 & Hq).
    { by destruct pass. }
    destruct (Hgo q Hq) as (t2 & E2 & W2 & C2 & R2). exists (t1 ++ t2). split; [|split].
    + eapply ex_bind; [exact E1|]. exact E2.
    + by rewrite writes_app, W1, W2.
    + split; rewrite elem_of_app; by right.
  - destruct Hlog as [Ho|(Hn & Hna & pw & -> & Hpa)].
    { apply gate_open_dec_spec in Ho. congruence. }
    cbn [method_of default] in *. rewrite <- app_assoc.
    destruct (ex_greeting_login (auth_bytes user pw ++ request_bytes 1 x port) pe Hn Hna)
      as (t1 & q & E1 & W1 & Hq).
    destruct (ex_userpass user pw (request_bytes 1 x port) pe Hu Hpw Hpa) as (t2 & E2 & W2).
    destruct (Hgo q Hq) as (t3 & E3 & W3 & C3 & R3). exists (t1 ++ t2 ++ t3). split; [|split].
    + eapply ex_bind; [exact E1|]. cbv beta iota zeta.
      change (AUTH_M_USERPASS =? AUTH_M_ERROR) with false.
      change (AUTH_M_USERPASS =? AUTH_M_USERPASS) with true. cbv iota.
      eapply ex_bind; [exact E2|]. cbv beta iota. rewrite (proj2 (Z.ltb_ge _ 0) Hpa). exact E3.
    + rewrite !writes_app, W1, W2, W3. by rewrite <- app_assoc.
    + split; rewrite !elem_of_app; right; by right.
Qed.
End server.

(** ** The client *)

Section client.
Context `{libc6}.
Variable P : policy.
Variable VSA_afunixroot : list Z.
Variable SOCKS_LOGIN_TIMEOUT : Z.

Lemma built_auth user pass : cstr_ok user -> cstr_ok pass -> zlen user <= 255 -> zlen pass <= 250 ->
  built 512 (put_auth buf512 user pass) (auth_bytes user pass).
Proof using Type.
  intros Hu Hp Hlu Hlp. unfold put_auth, auth_bytes.
  pose proof (zlen_nonneg user). pose proof (zlen_nonneg pass).
  pose proof (built_zeros 512 eq_refl) as B0. fold buf512 in B0.
  pose proof (built_addb _ _ _ B0 1 ltac:(done)) as B1.
  pose proof (built_addb _ _ _ B1 (zlen user) ltac:(done)) as B2.
  simpl app in B2. rewrite (uchar_small (zlen user)) in B2 by lia. change (uchar 1) with 1 in B2.
  pose proof (built_adds _ _ _ B2 user Hu) as B3. change (zlen [1; zlen user]) with 2 in B3.
  specialize (B3 ltac:(lia)).
  assert (Hz : zlen ([1; zlen user] ++ user) = 2 + zlen user) by (rewrite zlen_app; done).
  pose proof (built_addb _ _ _ B3 (zlen pass)) as B4. specialize (B4 ltac:(lia)).
  rewrite (uchar_small (zlen pass)) in B4 by lia.
  pose proof (built_adds _ _ _ B4 pass Hp) as B5. rewrite zlen_app, Hz in B5.
  specialize (B5 ltac:(change (zlen [zlen pass]) with 1; lia)). by rewrite <- !app_assoc in B5.
Qed.

Lemma built_request cmd x port : byte_ok cmd -> dest_ok x ->
  built 512 (put_request VSA_afunixroot cmd (dest_text x) port) (request_bytes cmd x port).
Proof using Type.
  intros Hc Hx. unfold put_request, request_bytes.
  pose proof (built_zeros 512 eq_refl) as B0. fold buf512 in B0.
  pose proof (built_addb _ _ _ B0 5 ltac:(done)) as B1.
  pose proof (built_addb _ _ _ B1 cmd ltac:(done)) as B2.
  pose proof (built_addb _ _ _ B2 0 ltac:(done)) as B3.
  simpl app in B3. rewrite (uchar_small cmd Hc) in B3. change (uchar 5) with 5 in B3.
  change (uchar 0) with 0 in B3. set (m := addb (addb (addb (buf512, 0) 5) cmd) 0) in *. clearbody m.
  destruct x as [h|a b c d]; cbn [dest_text dest_bytes dest_ok] in *.
  - destruct Hx as (Hh & Hl & Hs). rewrite Hs. simpl negb. cbv iota.
    pose proof (built_addb _ _ _ B3 3 ltac:(done)) as B4.
    pose proof (built_addb _ _ _ B4 (zlen h) ltac:(done)) as B5.
    simpl app in B5. change (uchar 3) with 3 in B5. rewrite (uchar_small (zlen h)) in B5 by lia.
    pose proof (built_adds _ _ _ B5 h Hh) as B6. change (zlen [_; _; _; _; zlen h]) with 5 in B6.
    specialize (B6 ltac:(lia)).
    pose proof (built_stob _ _ _ B6 port) as B7. rewrite zlen_app in B7.
    change (zlen [_; _; _; _; zlen h]) with 5 in B7. specialize (B7 ltac:(lia)).
    by rewrite <- app_assoc in B7.
  - destruct Hx as (Ha & Hb & Hcc & Hd). rewrite strisaddr_dotted by done. simpl negb. cbv iota.
    destruct (VSA_atosa_dotted a b c d Ha Hb Hcc Hd VSA_afunixroot vsa0 0 ltac:(lia)) as [(Hf & Hw & _) _].
    unfold VSA_decomp. rewrite Hf, Hw. change (AF_INET =? AF_INET6) with false. cbv iota beta zeta.
    change (AF_INET =? AF_INET6) with false.
    pose proof (built_addb _ _ _ B3 1 ltac:(done)) as B4. simpl app in B4. change (uchar 1) with 1 in B4.
    pose proof (built_addn _ _ _ B4 [a; b; c; d] 4 (bytes4 _ _ _ _ Ha Hb Hcc Hd) eq_refl
      ltac:(done) ltac:(done)) as B5. simpl app in B5.
    exact (built_stob _ _ _ B5 port ltac:(done)).
Qed.

(** The response of the server, as the client reads it. *)
Lemma ex_response sock a b c d p i e :
  byte_ok a -> byte_ok b -> byte_ok c -> byte_ok d -> 0 <= p < 65536 ->
  exists tr, ex P (World i e (response_bytes 0 a b c d p)) (SOCKS_recvResponseV5 sock) tr
    (0, Some (fmt_4d a b c d), Some p) (World i e []) /\ sends tr = [].
Proof using Type.
  intros Ha Hb Hc Hd Hp. destruct (stob_bytes p) as [_ Hsl].
  remember (response_bytes 0 a b c d p) as resp eqn:Hresp. unfold response_bytes in Hresp.
  assert (Hl : zlen resp = 10) by (subst resp; done).
  destruct (qbuf_ok_store buf512 0 resp buf512_ok) as [_ (r & Hs)]; [lia|lia|].
  change (Z.to_nat 0) with 0%nat in Hs. rewrite drop_0 in Hs.
  eexists. split.
  - unfold SOCKS_recvResponseV5.
    eapply ex_bind.
    { unfold recv_mssg. eapply ex_call.
      - by apply env_recv_all.
      - cbv beta iota zeta. rewrite Hl, Hs. change (10 <? 10) with false. cbv iota.
        rewrite Hresp. change (cat (_ ++ _) 0) with 5. change (cat (_ ++ _) 3) with 1.
        simpl. apply ex_ret. }
    cbv beta iota zeta. rewrite Hs, Hresp. 
    change (cat (_ ++ _) 1) with 0. change (cat (_ ++ _) 3) with 1. simpl negb. cbn [orb Z.ltb Z.compare Pos.compare Pos.compare_cont].
    change (1 =? 1) with true. cbv iota.
    rewrite <- app_assoc.
    change (drop 8 ([5; 0; 0; 1; a; b; c; d] ++ stob p ++ r)) with (stob p ++ r).
    rewrite stob_btos by done. apply ex_ret.
  - done.
Qed.

Lemma ex_request sock x port a b c d p i e : dest_ok x ->
  byte_ok a -> byte_ok b -> byte_ok c -> byte_ok d -> 0 <= p < 65536 ->
  exists tr, ex P (World i e (response_bytes 0 a b c d p))
    (send_request VSA_afunixroot sock 1 (dest_text x) port) tr
    (0, Some (fmt_4d a b c d), Some p) (World i e []) /\ sends tr = request_bytes 1 x port.
Proof using Type.
  intros Hx Ha Hb Hc Hd Hp. unfold send_request.
  pose proof (built_request 1 x port ltac:(by compute) Hx) as B.
  destruct (put_request VSA_afunixroot 1 (dest_text x) port) as [qbuf qcc].
  pose proof (built_emit _ _ _ B) as E. cbn [fst snd] in E. rewrite E.
  destruct (ex_response sock a b c d p i e Ha Hb Hc Hd Hp) as (tr & Er & Wr).
  eexists. split.
  - eapply ex_bind; [apply ex_ret|]. ex_step. exact Er.
  - simpl. by rewrite Wr, app_nil_r.
Qed.

(** Two bytes of the server. *)
Lemma reply2 x y : exists r, v_buf (vstore buf512 0 [x; y]) = x :: y :: r.
Proof using Type.
  destruct (qbuf_ok_store buf512 0 [x; y] buf512_ok) as [_ (r & Hs)]; [lia|done|].
  change (Z.to_nat 0) with 0%nat in Hs. rewrite drop_0 in Hs. by exists r.
Qed.

Lemma ex_client lNOAUTHPROXY sock user pass x port a b c d p i e :
  login P lNOAUTHPROXY user pass -> cstr_ok user -> cstr_ok (default [] pass) ->
  zlen user <= 255 -> zlen (default [] pass) <= 250 -> dest_ok x ->
  byte_ok a -> byte_ok b -> byte_ok c -> byte_ok d -> 0 <= p < 65536 ->
  exists tr,
    ex P (World i e (welcome P lNOAUTHPROXY ++ response_bytes 0 a b c d p))
      (SOCKS_startV5 VSA_afunixroot SOCKS_LOGIN_TIMEOUT sock 1 (dest_text x) port user pass) tr
      (0, Some (fmt_4d a b c d), Some p) (World i e []) /\
    sends tr = hello P lNOAUTHPROXY user pass ++ request_bytes 1 x port.
Proof using Type.
  intros Hlog Hu Hpw Hlu Hlp Hx Ha Hb Hc Hd Hp.
  destruct (ex_request sock x port a b c d p i e Hx Ha Hb Hc Hd Hp) as (t3 & E3 & W3).
  assert (Hlate : forall w, exists tr, ex P w (if 0 <? SOCKS_LOGIN_TIMEOUT
      then n ← ask (PollIn sock (SOCKS_LOGIN_TIMEOUT * 1000)); Ret (n =? 0) else Ret false)
      tr false w /\ sends tr = []).
  { intros w. destruct (0 <? SOCKS_LOGIN_TIMEOUT); [|by exists []].
    eexists. split; [ex_step; apply ex_ret|done]. }
  unfold welcome, hello, SOCKS_startV5.
  destruct (gate_open_dec P lNOAUTHPROXY) eqn:Eg.
  - destruct (Hlate (World i e ([5; AUTH_M_NONE] ++ response_bytes 0 a b c d p))) as (t1 & E1 & W1).
    destruct (reply2 5 AUTH_M_NONE) as (r & Er).
    eexists. split.
    + ex_step. eapply ex_bind; [exact E1|]. cbv beta iota zeta.
      eapply ex_call; [by apply (env_recv P _ [5; AUTH_M_NONE])|]. cbv beta iota zeta.
      change (default [] (Some [5; AUTH_M_NONE])) with [5; AUTH_M_NONE].
      rewrite Er. change (cat (5 :: AUTH_M_NONE :: r) 1) with AUTH_M_NONE.
      change (zlen [5; AUTH_M_NONE]) with 2. simpl orb. cbv iota.
      destruct pass; exact E3.
    + simpl. rewrite sends_app, W1. simpl. by destruct pass; rewrite W3.
  - destruct Hlog as [Ho|(Hn & Hna & pw & -> & Hpa)].
    { apply gate_open_dec_spec in Ho. congruence. }
    cbn [default method_of] in *. rewrite <- !app_assoc.
    destruct (Hlate (World i e ([5; AUTH_M_USERPASS] ++ [1; AUTH_R_OK] ++ response_bytes 0 a b c d p)))
      as (t1 & E1 & W1).
    destruct (reply2 5 AUTH_M_USERPASS) as (r & Er).
    pose proof (built_auth user pw Hu Hpw Hlu Hlp) as B.
    destruct (put_auth buf512 user pw) as [qbuf qcc] eqn:Ea.
    pose proof (built_emit _ _ _ B) as E. cbn [fst snd] in E.
    destruct (qbuf_ok_store buf512 0 [5; AUTH_M_USERPASS] buf512_ok) as [Hq _]; [lia|done|].
    destruct (qbuf_ok_store _ 0 [1; AUTH_R_OK] Hq) as [_ (r2 & Er2)]; [lia|done|].
    change (Z.to_nat 0) with 0%nat in Er2. rewrite drop_0 in Er2.
    eexists. split.
    + ex_step. eapply ex_bind; [exact E1|]. cbv beta iota zeta.
      eapply ex_call; [by apply (env_recv P _ [5; AUTH_M_USERPASS])|]. cbv beta iota zeta.
      change (default [] (Some [5; AUTH_M_USERPASS])) with [5; AUTH_M_USERPASS].
      rewrite Er. change (cat (5 :: AUTH_M_USERPASS :: r) 1) with AUTH_M_USERPASS.
      change (zlen [5; AUTH_M_USERPASS]) with 2. cbn [andb orb negb Z.ltb Z.compare Z.eqb Pos.eqb AUTH_M_USERPASS AUTH_M_NONE Pos.compare Pos.compare_cont].
      change (id pw) with pw. rewrite Ea, E. eapply ex_bind; [apply ex_ret|]. ex_step.
      eapply ex_call; [by apply (env_recv P _ [1; AUTH_R_OK])|]. cbv beta iota zeta.
      change (default [] (Some [1; AUTH_R_OK])) with [1; AUTH_R_OK].
      rewrite Er2.
      change (cat ([1; AUTH_R_OK] ++ r2) 1) with 0. cbn [negb Z.eqb]. exact E3.
    + simpl. rewrite sends_app, W1. simpl. by rewrite W3, <- !app_assoc.
Qed.
End client.

(** C15. A connection through the SOCKS5 server comes about.  Let the client
    be let in, without a password or by the one it has, let the destination
    be a name of up to 249 characters or an address of IPv4, and let the
    gateway connect to [host:port] when it is asked to.  Then there are the
    bytes of the two directions with which both programs run to their end:
    the client sends just the bytes that the server reads, the server writes
    just those that the client receives; the server has asked for the
    connection to that host and port and has relayed it, and the client ends
    with success and has the address that the gateway is bound to. *)
Theorem socks5_connect `{libc6} P root flags utmo noauth single ltmo fuel pf st fromcl tocl toms
  sock user pass x port sv a b c d p rem :
  login P noauth user pass -> cstr_ok user -> cstr_ok (default [] pass) ->
  zlen user <= 255 -> zlen (default [] pass) <= 250 -> dest_ok x -> 0 <= port < 65536 ->
  (single = false \/ strtailstr (dest_text x) ACCONN = None) ->
  byte_ok a -> byte_ok b -> byte_ok c -> byte_ok d -> 0 <= p < 65536 -> 0 <= sv ->
  pl_vsocket P (cs "CNCT/SocksV5") (-1) any_port (dest_text x ++ 58 :: fmt_d port) [] =
    (sv, address_text a b c d p, rem) ->
  exists sent replies trc trs,
    run (gw_env P) (World [] false replies)
      (SOCKS_startV5 root ltmo sock 1 (dest_text x) port user pass) =
      Some (trc, (0, Some (fmt_4d a b c d), Some p), World [] false []) /\
    sends trc = sent /\
    run (gw_env P) (World sent false [])
      (SOCKS_serverV5A root flags utmo noauth single fuel pf st fromcl tocl toms) =
      Some (trs, Some (0, st), World [] false []) /\
    writes trs = replies /\
    connects P fromcl tocl toms (dest_text x ++ 58 :: fmt_d port) (sv, address_text a b c d p, rem) trs.
Proof.
  intros Hlog Hu Hpw Hlu Hlp Hx Hport Hacc Ha Hb Hc Hd Hp Hsv Hv.
  destruct (ex_server P root flags utmo noauth single fromcl tocl toms fuel pf st user pass x port
    sv a b c d p rem [] Hlog Hu Hpw Hx Hport Hacc Ha Hb Hc Hd Hp Hsv Hv) as (trs & Es & Ws & Cs).
  destruct (ex_client P root ltmo noauth sock user pass x port a b c d p [] false
    Hlog Hu Hpw Hlu Hlp Hx Ha Hb Hc Hd Hp) as (trc & Ec & Wc).
  by exists (hello P noauth user pass ++ request_bytes 1 x port),
    (welcome P noauth ++ response_bytes 0 a b c d p), trc, trs.
Qed.

(** ** A concrete connection *)

#[local] Existing Instance no_libc6.

Lemma socks5_connect_witness :
  exists sent replies trc trs,
    run (gw_env grant_all) (World [] false replies)
      (SOCKS_startV5 [] 30 7 1 (cs "www.example.org") 80 (cs "me") (Some (cs "secret"))) =
      Some (trc, (0, Some (cs "10.0.0.1"), Some 1234), World [] false []) /\
    sends trc = sent /\
    run (gw_env grant_all) (World sent false [])
      (SOCKS_serverV5A [] 0 60 false false 10 10 socks5_init 3 4 5) =
      Some (trs, Some (0, socks5_init), World [] false []) /\
    writes trs = replies /\
    connects grant_all 3 4 5 (cs "www.example.org:80")
      (5, cs "10.0.0.1:1234", cs "www.example.org:80") trs.
Proof.
  apply (socks5_connect grant_all [] 0 60 false false 30 10 10 socks5_init 3 4 5 7
    (cs "me") (Some (cs "secret")) (Name (cs "www.example.org")) 80 5 10 0 0 1 1234).
  all: first [lia | reflexivity | by left | by left; right | apply (bool_decide_unpack _); vm_compute; exact I].
Defined.
