(* ===== verification/Cksum.v ===== *)
(** * Checksums ([rary/cksum.cpp], [rary/credhy.cpp])

    The cyclic redundancy checks of the program: the 32-bit one of the
    POSIX [cksum] command ([strCRC32add], [strCRC32end], [strCRC32],
    [fcrc32X]), the 16- and 64-bit ones ([strCRC16], [strCRC64]), and the
    8-bit one that guards the keys and the cipher of the CREDHY protocol
    ([strCRC8], [CRC8f] and the table that [CRC8init] fills).

    An [int] that holds a checksum is its bit pattern, a number in
    [[0, 2^32)]; an octet is in [[0, 256)], and where the code shifts a
    signed [char] to the right the model does.  A string argument with its
    length is the list of the octets it holds.

    The three checks that shift to the left are instances of one shift
    register ([Module Lfsr]), of which the file proves that it computes the
    remainder of the division of polynomials over GF(2), that it is linear,
    and that it tells apart two messages that differ in a burst of at most
    as many bits as the register has. *)
From S2P Require Import Prelude.
From stdpp Require Import options.

(** ** The checks *)

(** The loop over the bits of one octet, the highest first:
    [for( bi = 0; bi < 8; bi++ ){ ... (oct & 0x80) ...; oct <<= 1; ... }],
    where [next] is what is done with the bit. *)
Definition msb_step {S} (next : S -> bool -> S) (so : S * Z) : S * Z :=
  let '(s, oct) := so in
  (next s (negb (Z.land oct 0x80 =? 0)), uchar (Z.shiftl oct 1)).
Definition msb_octet {S} (next : S -> bool -> S) (s : S) (oct : Z) : S :=
  fst (Nat.iter 8 (msb_step next) (s, oct)).

Definition CRC32POLY : Z := 0x04C11DB7.
Definition crc32_next (crc : Z) (bit : bool) : Z :=
  let ovf := xorb (negb (Z.land crc 0x80000000 =? 0)) bit in
  let crc := u32 (Z.shiftl crc 1) in
  if ovf then Z.lxor crc CRC32POLY else crc.
Definition strCRC32add (crc : Z) (str : list Z) : Z :=
  fold_left (msb_octet crc32_next) str crc.

(** The octets of the length, the lowest first, up to the last that is not
    zero and four at most. *)
Fixpoint crc_length (fuel : nat) (len : Z) : list Z :=
  match fuel with
  | O => []
  | S f =>
      let slen := uchar len in
      let len := Z.shiftr len 8 in
      slen :: (if len =? 0 then [] else crc_length f len)
  end.
Definition strCRC32end (crc len : Z) : Z :=
  Z.lxor (strCRC32add crc (crc_length 4 len)) 0xFFFFFFFF.
Definition strCRC32 (str : list Z) : Z :=
  strCRC32end (strCRC32add 0 str) (zlen str).

(** [fcrc32X]: the file is read in blocks of 8K octets.  The result is the
    checksum and the length. *)
Fixpoint fcrc32X_loop (fuel : nat) (crc32 nth : Z) (fp : list Z) : Z * Z :=
  match fuel with
  | O => (crc32, nth)
  | S f =>
      let buf := take (8 * 1024) fp in
      let rcc := zlen buf in
      if 0 <? rcc
      then fcrc32X_loop f (strCRC32add crc32 buf) (s32 (nth + rcc)) (drop (8 * 1024) fp)
      else (crc32, nth)
  end.
Definition fcrc32X (fp : list Z) : Z * Z :=
  let '(crc32, nth) := fcrc32X_loop (S (length fp)) 0 0 fp in
  (strCRC32end crc32 nth, nth).

(** [fcsum] without [-c]: the sum of the octets that [getc] gives, which are
    unsigned, and the number of lines added to [*lines]. *)
Definition fcsum_getc (fp : list Z) (lines : Z) : Z * Z :=
  fold_left (fun '(sum, nl) ch =>
    (u32 (sum + ch), if ch =? LF then nl + 1 else nl)) fp (0, lines).

Definition CRC16POLY : Z := 0x1021.
Definition crc16_next (crc : Z) (bit : bool) : Z :=
  let ovf := xorb (negb (Z.land crc 0x8000 =? 0)) bit in
  let crc := Z.shiftl crc 1 mod 2 ^ 16 in
  if ovf then Z.lxor crc CRC16POLY else crc.
Definition strCRC16 (crc : Z) (str : list Z) : Z :=
  Z.land 0xFFFF (fold_left (msb_octet crc16_next) str crc).

Definition CRC64PORY0 : Z := 0x00600340.
Definition CRC64PORY1 : Z := 0x00F0D50B.
Definition CRC64INIT0 : Z := 0xFAC432B1.
Definition CRC64INIT1 : Z := 0x0CD5E44A.
Definition CRC64init : Z * Z := (CRC64INIT0, CRC64INIT1).
Definition crc64_next (crc : Z * Z) (bit : bool) : Z * Z :=
  let '(crc0, crc1) := crc in
  let ovf := xorb (negb (Z.land crc0 0x80000000 =? 0)) bit in
  let crc0 := Z.lor (u32 (Z.shiftl crc0 1)) (Z.land (Z.shiftr crc1 31) 1) in
  let crc1 := u32 (Z.shiftl crc1 1) in
  if ovf then (Z.lxor crc0 CRC64PORY0, Z.lxor crc1 CRC64PORY1) else (crc0, crc1).
Definition strCRC64 (crc : Z * Z) (str : list Z) : Z * Z :=
  fold_left (msb_octet crc64_next) str crc.

(** The 8-bit check shifts to the right.  [strCRC8] keeps it in an [int]. *)
Definition CRC8C : Z := 0x8C.
Definition crc8_step (co : Z * Z) : Z * Z :=
  let '(crc, oct) := co in
  let ovf := Z.land (Z.lxor crc oct) 1 in
  let crc := Z.shiftr crc 1 in
  let oct := uchar (Z.shiftr (schar oct) 1) in
  (if ovf =? 0 then crc else Z.lxor crc CRC8C, oct).
Definition crc8_octet (crc oct : Z) : Z := fst (Nat.iter 8 crc8_step (crc, oct)).
Definition strCRC8 (crc : Z) (str : list Z) : Z := fold_left crc8_octet str crc.

(** [CRC8f] keeps it in a [char]: its shift to the right repeats the sign
    where [char] is signed, or where it is made so on purpose. *)
Definition crc8f_step (signed : bool) (co : Z * Z) : Z * Z :=
  let '(crc, oct) := co in
  let ovf := Z.land (Z.lxor crc oct) 1 in
  let crc := if signed then uchar (Z.shiftr (schar crc) 1) else Z.shiftr crc 1 in
  let oct := uchar (Z.shiftr (schar oct) 1) in
  (if ovf =? 0 then crc else uchar (Z.lxor crc CRC8C), oct).
Definition CRC8f (signedChar lUNSIGNEDCRC8 : bool) (crc oct : Z) : Z :=
  let signed := signedChar || negb lUNSIGNEDCRC8 in
  let crc := fst (Nat.iter 8 (crc8f_step signed) (crc, oct)) in
  if signed then schar crc else crc.

(** The table [CRC8a->c_crc], of unsigned octets, and the macro [CRC8] that
    reads it. *)
Definition CRC8init (signedChar lUNSIGNEDCRC8 : bool) : list (list Z) :=
  map (fun crc => map (fun ch => uchar (CRC8f signedChar lUNSIGNEDCRC8 crc ch))
                      (seqZ 0 256)) (seqZ 0 256).
Definition CRC8 (CRC8a : list (list Z)) (crc ch : Z) : Z :=
  cat (nth (Z.to_nat (Z.land 0xFF crc)) CRC8a []) (Z.land 0xFF ch).

(** ** One shift register *)
Module Lfsr.
Section lfsr.
Context (w poly : Z) (Hw : 0 < w) (Hpoly : 0 <= poly < 2 ^ w).

(** One step without and with a bit of the message, the steps on a string of
    bits, and the division of polynomials, which lets the bits in at the other
    end. *)
Definition shl (s : Z) : Z :=
  Z.lxor ((2 * s) mod 2 ^ w) (if Z.testbit s (w - 1) then poly else 0).
Definition feed (s : Z) (b : bool) : Z :=
  Z.lxor ((2 * s) mod 2 ^ w) (if xorb (Z.testbit s (w - 1)) b then poly else 0).
Definition run (s : Z) (bits : list bool) : Z := fold_left feed bits s.
Definition divide (s : Z) (bits : list bool) : Z :=
  fold_left (fun s b => Z.lxor (shl s) (Z.b2z b)) bits s.

Lemma testbit_shl s i : 0 <= i ->
  Z.testbit (shl s) i =
  xorb (if decide (0 < i < w) then Z.testbit s (i - 1) else false)
       (Z.testbit s (w - 1) && Z.testbit poly i).
Proof using Hw.
  intros Hi. unfold shl. rewrite Z.lxor_spec. f_equal.
  - case_decide as H.
    + rewrite Z.mod_pow2_bits_low by lia.
      replace i with (Z.succ (i - 1)) at 1 by lia.
      by rewrite Z.double_bits_succ.
    + destruct (decide (i = 0)) as [->|].
      * rewrite Z.mod_pow2_bits_low by lia. apply Z.testbit_even_0.
      * apply Z.mod_pow2_bits_high. lia.
  - destruct (Z.testbit s (w - 1)); [done|]. apply Z.testbit_0_l.
Qed.

Lemma lxor_range a b : 0 <= a < 2 ^ w -> 0 <= b < 2 ^ w -> 0 <= Z.lxor a b < 2 ^ w.
Proof using Hw.
  intros Ha Hb. rewrite <- (Z.mod_small a (2 ^ w)), <- (Z.mod_small b (2 ^ w)) by lia.
  rewrite <- !Z.land_ones by lia.
  replace (Z.lxor _ _) with (Z.land (Z.lxor a b) (Z.ones w)).
  - rewrite Z.land_ones by lia. apply Z.mod_pos_bound. lia.
  - apply Z.bits_inj'. intros i Hi. rewrite Z.land_spec, !Z.lxor_spec, !Z.land_spec.
    destruct (Z.testbit a i), (Z.testbit b i), (Z.testbit (Z.ones w) i); done.
Qed.

Lemma feed_range s b : 0 <= feed s b < 2 ^ w.
Proof using Hw Hpoly.
  unfold feed. apply lxor_range; [apply Z.mod_pos_bound; lia|].
  destruct (xorb _ _); lia.
Qed.

Lemma shl_feed s : shl s = feed s false.
Proof using Type. unfold shl, feed. by rewrite xorb_false_r. Qed.

Lemma shl_range s : 0 <= shl s < 2 ^ w.
Proof using Hw Hpoly. rewrite shl_feed. apply feed_range. Qed.

Lemma shl_lxor a b : shl (Z.lxor a b) = Z.lxor (shl a) (shl b).
Proof using Hw.
  apply Z.bits_inj'. intros i Hi. rewrite Z.lxor_spec, !testbit_shl by done.
  rewrite !Z.lxor_spec.
  case_decide; destruct (Z.testbit a (w - 1)), (Z.testbit b (w - 1)), (Z.testbit poly i);
    rewrite ?xorb_false_r, ?xorb_false_l; try done;
    destruct (Z.testbit a (i - 1)), (Z.testbit b (i - 1)); done.
Qed.

Lemma feed_shl s b : feed s b = Z.lxor (shl s) (if b then poly else 0).
Proof using Type.
  unfold feed, shl. rewrite Z.lxor_assoc. f_equal.
  destruct (Z.testbit s (w - 1)), b; cbn;
    rewrite ?Z.lxor_0_r, ?Z.lxor_0_l, ?Z.lxor_nilpotent; done.
Qed.

Lemma shl_0 : shl 0 = 0.
Proof using Type. unfold shl. rewrite Z.bits_0. by rewrite Z.mul_0_r, Zmod_0_l. Qed.

Lemma run_app s l1 l2 : run s (l1 ++ l2) = run (run s l1) l2.
Proof using Type. apply fold_left_app. Qed.

Lemma run_range s l : 0 <= s < 2 ^ w -> 0 <= run s l < 2 ^ w.
Proof using Hw Hpoly.
  revert s. induction l as [|b l IH]; intros s Hs; [done|]. apply IH, feed_range.
Qed.

Lemma run_lxor a b l1 l2 : length l1 = length l2 ->
  run (Z.lxor a b) (zip_with xorb l1 l2) = Z.lxor (run a l1) (run b l2).
Proof using Hw.
  revert a b l2. induction l1 as [|x l1 IH]; intros a b [|y l2] Hl; try done.
  change (run (feed (Z.lxor a b) (xorb x y)) (zip_with xorb l1 l2) =
          Z.lxor (run (feed a x) l1) (run (feed b y) l2)).
  rewrite <- IH by (simplify_eq/=; done). f_equal.
  rewrite !feed_shl, shl_lxor. apply Z.bits_inj'. intros i Hi. rewrite !Z.lxor_spec.
  destruct x, y; cbn [xorb]; rewrite ?Z.bits_0;
    destruct (Z.testbit (shl a) i), (Z.testbit (shl b) i), (Z.testbit poly i); done.
Qed.

Lemma shl_pow2 k : 0 <= k < w - 1 -> shl (2 ^ k) = 2 ^ (k + 1).
Proof using Hw.
  intros Hk. unfold shl. rewrite Z.pow2_bits_false by lia. rewrite Z.lxor_0_r.
  rewrite <- Z.pow_succ_r by lia. apply Z.mod_small.
  split; [lia|]. apply Z.pow_lt_mono_r; lia.
Qed.

Lemma shl_top : shl (2 ^ (w - 1)) = poly.
Proof using Hw.
  unfold shl. rewrite Z.pow2_bits_true by lia. rewrite <- Z.pow_succ_r by lia.
  replace (Z.succ (w - 1)) with w by lia. rewrite Z_mod_same_full. apply Z.lxor_0_l.
Qed.

(** ** The division *)
Lemma iter_shl_lxor n a b :
  Nat.iter n shl (Z.lxor a b) = Z.lxor (Nat.iter n shl a) (Nat.iter n shl b).
Proof using Hw. induction n as [|n IH]; [done|]. by rewrite !Nat.iter_succ, IH, shl_lxor. Qed.

Lemma iter_shl_0 n : Nat.iter n shl 0 = 0.
Proof using Type. induction n as [|n IH]; [done|]. by rewrite Nat.iter_succ, IH, shl_0. Qed.

Lemma iter_shl_pow2 n : Z.of_nat n <= w - 1 -> Nat.iter n shl 1 = 2 ^ Z.of_nat n.
Proof using Hw.
  induction n as [|n IH]; intros Hn; [done|].
  rewrite Nat.iter_succ, IH, shl_pow2 by lia. f_equal. lia.
Qed.

Lemma iter_shl_one : Nat.iter (Z.to_nat w) shl 1 = poly.
Proof using Hw.
  replace (Z.to_nat w) with (S (Z.to_nat (w - 1))) by lia.
  rewrite Nat.iter_succ, iter_shl_pow2, Z2Nat.id by lia. apply shl_top.
Qed.

Lemma divide_zeros s n : divide s (repeat false n) = Nat.iter n shl s.
Proof using Type.
  revert s. induction n as [|n IH]; intros s; [done|].
  change (divide (Z.lxor (shl s) 0) (repeat false n) = Nat.iter (S n) shl s).
  rewrite Z.lxor_0_r, IH, Nat.iter_succ_r. done.
Qed.

Lemma run_divide m : run 0 m = divide 0 (m ++ repeat false (Z.to_nat w)).
Proof using Hw.
  unfold divide. rewrite fold_left_app.
  fold (divide 0 m). fold (divide (divide 0 m) (repeat false (Z.to_nat w))).
  rewrite divide_zeros. induction m as [|b m IH] using rev_ind.
  - cbn. by rewrite iter_shl_0.
  - rewrite run_app, IH. unfold divide at 2. rewrite fold_left_app. fold (divide 0 m).
    cbn [run fold_left]. rewrite feed_shl, iter_shl_lxor, <- Nat.iter_succ_r.
    cbn [run fold_left]. f_equal.
    destruct b; cbn [Z.b2z]; [by rewrite iter_shl_one|by rewrite iter_shl_0].
Qed.

(** ** Bursts of errors *)
Fixpoint pack (l : list bool) (k : Z) : Z :=
  match l with
  | [] => 0
  | b :: l => Z.lxor (if b then 2 ^ k else 0) (pack l (k - 1))
  end.

Lemma shl_pack l k : Z.of_nat (length l) <= k <= w - 1 ->
  shl (pack l (k - 1)) = pack l k.
Proof using Hw.
  revert k. induction l as [|b l IH]; intros k Hk; cbn [pack length] in *; [apply shl_0|].
  rewrite shl_lxor, IH by lia. f_equal.
  destruct b; [|apply shl_0]. rewrite shl_pow2 by lia. f_equal. lia.
Qed.

Lemma run_pack s l : Z.of_nat (length l) <= w ->
  run s l = Nat.iter (length l) shl (Z.lxor s (pack l (w - 1))).
Proof using Hw.
  revert s. induction l as [|b l IH]; intros s Hl; cbn [length pack] in *.
  - cbn. by rewrite Z.lxor_0_r.
  - change (run s (b :: l)) with (run (feed s b) l). rewrite IH by lia.
    rewrite Nat.iter_succ_r. f_equal.
    rewrite feed_shl, <- (shl_pack l (w - 1)) by lia. rewrite !shl_lxor, Z.lxor_assoc.
    f_equal. f_equal. destruct b; [by rewrite shl_top|by rewrite shl_0].
Qed.

Lemma pack_range l k : Z.of_nat (length l) <= k + 1 -> 0 <= pack l k < 2 ^ (k + 1).
Proof using w Hw.
  revert k. induction l as [|b l IH]; intros k Hk; cbn [pack length] in *; [lia|].
  specialize (IH (k - 1) ltac:(lia)). replace (k - 1 + 1) with k in IH by lia.
  assert (Hp : 2 ^ (k + 1) = 2 * 2 ^ k) by (rewrite <- Z.pow_succ_r by lia; f_equal; lia).
  destruct b; [|rewrite Z.lxor_0_l; lia].
  rewrite <- Z.add_nocarry_lxor; [lia|].
  apply Z.bits_inj'. intros i Hi. rewrite Z.land_spec, Z.bits_0, Z.pow2_bits_eqb by lia.
  destruct (Z.eqb_spec k i) as [->|]; [|done]. cbn.
  apply (bits_high i); lia.
Qed.

Lemma pack_inj l1 l2 k : length l1 = length l2 -> Z.of_nat (length l1) <= k + 1 ->
  pack l1 k = pack l2 k -> l1 = l2.
Proof using w Hw.
  assert (Htop : forall b l k, Z.of_nat (length l) <= k ->
            Z.testbit (pack (b :: l) k) k = b).
  { intros b l k' Hl. cbn [pack]. rewrite Z.lxor_spec.
    rewrite (bits_high k' (pack l (k' - 1))).
    - destruct b; [rewrite Z.pow2_bits_true by lia; done|by rewrite Z.bits_0].
    - pose proof (pack_range l (k' - 1) ltac:(lia)).
      by replace (k' - 1 + 1) with k' in * by lia.
    - lia. }
  revert l2 k. induction l1 as [|x l1 IH]; intros [|y l2] k Hl Hk He; try done.
  cbn [length] in *.
  assert (x = y) as ->.
  { rewrite <- (Htop x l1 k), <- (Htop y l2 k) by lia. by rewrite He. }
  f_equal. apply (IH l2 (k - 1)); [lia|lia|]. cbn [pack] in He.
  apply (f_equal (Z.lxor (if y then 2 ^ k else 0))) in He.
  rewrite <- !Z.lxor_assoc, Z.lxor_nilpotent, !Z.lxor_0_l in He. done.
Qed.

Section odd.
Context (Hodd : Z.odd poly = true).

Lemma shl_zero s : 0 <= s < 2 ^ w -> shl s = 0 -> s = 0.
Proof using Hw Hodd.
  intros Hs H0.
  assert (Htop : Z.testbit s (w - 1) = false).
  { pose proof (testbit_shl s 0 ltac:(lia)) as H. rewrite H0, Z.bits_0 in H.
    rewrite decide_False in H by lia. rewrite Z.bit0_odd, Hodd, andb_true_r in H.
    cbn in H. done. }
  apply Z.bits_inj'. intros i Hi. rewrite Z.bits_0.
  destruct (Z.ltb_spec i w) as [Hi'|Hi']; [|apply (bits_high w); lia].
  destruct (decide (i = w - 1)) as [->|Hn]; [done|].
  pose proof (testbit_shl s (i + 1) ltac:(lia)) as H. rewrite H0, Z.bits_0 in H.
  rewrite decide_True, Htop in H by lia. cbn in H. rewrite xorb_false_r in H.
  by replace (i + 1 - 1) with i in H by lia.
Qed.

Lemma shl_inj a b : 0 <= a < 2 ^ w -> 0 <= b < 2 ^ w -> shl a = shl b -> a = b.
Proof using Hw Hodd.
  intros Ha Hb He. apply Z.lxor_eq. apply shl_zero; [by apply lxor_range|].
  by rewrite shl_lxor, He, Z.lxor_nilpotent.
Qed.

Lemma run_inj a b l : 0 <= a < 2 ^ w -> 0 <= b < 2 ^ w -> run a l = run b l -> a = b.
Proof using Hw Hpoly Hodd.
  revert a b. induction l as [|x l IH]; intros a b Ha Hb He; [done|].
  apply IH in He; [|apply feed_range..]. rewrite !feed_shl in He.
  apply shl_inj; [done..|].
  apply (f_equal (fun z => Z.lxor z (if x then poly else 0))) in He.
  by rewrite !Z.lxor_assoc, Z.lxor_nilpotent, !Z.lxor_0_r in He.
Qed.

Lemma iter_shl_inj n a b : 0 <= a < 2 ^ w -> 0 <= b < 2 ^ w ->
  Nat.iter n shl a = Nat.iter n shl b -> a = b.
Proof using Hw Hpoly Hodd.
  revert a b. induction n as [|n IH]; intros a b Ha Hb; [done|].
  rewrite !Nat.iter_succ_r. intros He. apply IH in He; [|apply shl_range..].
  by apply shl_inj.
Qed.

(** Two messages that differ in at most [w] consecutive bits. *)
Lemma run_burst s a e1 e2 c :
  0 <= s < 2 ^ w -> length e1 = length e2 -> Z.of_nat (length e1) <= w -> e1 <> e2 ->
  run s (a ++ e1 ++ c) <> run s (a ++ e2 ++ c).
Proof using Hw Hpoly Hodd.
  intros Hs Hl Hw1 Hne He. rewrite !run_app in He.
  pose proof (run_range s a Hs) as Ht.
  apply run_inj in He; [|by apply run_range..].
  rewrite (run_pack _ e1), (run_pack _ e2), Hl in He by lia.
  assert (Hp : forall e, Z.of_nat (length e) <= w -> 0 <= pack e (w - 1) < 2 ^ w).
  { intros e Hle. pose proof (pack_range e (w - 1) ltac:(lia)).
    by replace (w - 1 + 1) with w in * by lia. }
  apply iter_shl_inj in He; [|apply lxor_range; [done|apply Hp; lia]..].
  apply (f_equal (Z.lxor (run s a))) in He.
  rewrite <- !Z.lxor_assoc, Z.lxor_nilpotent, !Z.lxor_0_l in He.
  apply Hne, (pack_inj _ _ (w - 1)); [done|lia|done].
Qed.
End odd.
End lfsr.
End Lfsr.

(** ** The octets of a message as bits *)

Definition octet_bits (oct : Z) : list bool :=
  map (fun i => Z.testbit oct (Z.of_nat i)) (rev (seq 0 8)).
Definition bits_of (str : list Z) : list bool := flat_map octet_bits str.

Lemma land_bit x k : 0 <= k -> negb (Z.land x (2 ^ k) =? 0) = Z.testbit x k.
Proof.
  intros Hk. destruct (Z.testbit x k) eqn:E.
  - apply negb_true_iff, Z.eqb_neq. intros H.
    apply (f_equal (fun z => Z.testbit z k)) in H.
    by rewrite Z.land_spec, E, Z.pow2_bits_true, Z.bits_0 in H by done.
  - apply negb_false_iff, Z.eqb_eq. apply Z.bits_inj'. intros i Hi.
    rewrite Z.land_spec, Z.bits_0, Z.pow2_bits_eqb by done.
    destruct (Z.eqb_spec k i) as [->|]; [by rewrite E|by rewrite andb_false_r].
Qed.

Lemma msb_iter {S} (next : S -> bool -> S) (s : S) oct n : (n <= 8)%nat ->
  Nat.iter n (msb_step next) (s, uchar oct) =
  (fold_left next (map (fun i => Z.testbit oct (7 - Z.of_nat i)) (seq 0 n)) s,
   uchar (Z.shiftl oct (Z.of_nat n))).
Proof.
  induction n as [|n IH]; intros Hn; [done|]. rewrite Nat.iter_succ, IH by lia.
  rewrite seq_S, map_app, fold_left_app. unfold msb_step. f_equal.
  - cbn [map fold_left Nat.add]. f_equal. rewrite (land_bit _ 7) by done.
    unfold uchar. change 256 with (2 ^ 8). rewrite Z.mod_pow2_bits_low by lia.
    rewrite Z.shiftl_spec by lia. done.
  - unfold uchar. rewrite !Z.shiftl_mul_pow2 by lia.
    rewrite Zmult_mod_idemp_l. f_equal. rewrite Nat2Z.inj_succ, Z.pow_succ_r by lia. lia.
Qed.

Lemma msb_octet_bits {S} (next : S -> bool -> S) (s : S) oct : byte_ok oct ->
  msb_octet next s oct = fold_left next (octet_bits oct) s.
Proof.
  intros Ho. unfold msb_octet. rewrite <- (uchar_small oct) at 1 by done.
  by rewrite (msb_iter next s oct 8) by lia.
Qed.

Lemma msb_octets_bits {S} (next : S -> bool -> S) str (s : S) : bytes_ok str ->
  fold_left (msb_octet next) str s = fold_left next (bits_of str) s.
Proof.
  intros H. revert s. induction H as [|o str Ho _ IH]; intros s; [done|].
  cbn [fold_left bits_of flat_map]. rewrite fold_left_app. fold (bits_of str).
  by rewrite IH, msb_octet_bits.
Qed.

Lemma bits_of_cons o str : bits_of (o :: str) = octet_bits o ++ bits_of str.
Proof. done. Qed.

Lemma length_octets_bits str : length (bits_of str) = (8 * length str)%nat.
Proof.
  induction str as [|o str IH]; [done|]. cbn [bits_of flat_map]. rewrite length_app.
  fold (bits_of str). rewrite IH. cbn. lia.
Qed.

(** ** The 32-bit check *)

Lemma crc32_next_feed crc b : crc32_next crc b = Lfsr.feed 32 CRC32POLY crc b.
Proof.
  unfold crc32_next, Lfsr.feed, u32. change 0x80000000 with (2 ^ 31).
  rewrite (land_bit crc 31) by done.
  rewrite Z.shiftl_mul_pow2, Z.mul_comm by done. change (2 ^ 1) with 2.
  destruct (xorb _ b); [done|]. by rewrite Z.lxor_0_r.
Qed.

Lemma strCRC32add_run crc str : bytes_ok str ->
  strCRC32add crc str = Lfsr.run 32 CRC32POLY crc (bits_of str).
Proof.
  intros H. unfold strCRC32add, Lfsr.run. rewrite msb_octets_bits by done.
  generalize (bits_of str). intros l. revert crc.
  induction l as [|b l IH]; intros crc; [done|]. cbn [fold_left].
  by rewrite IH, crc32_next_feed.
Qed.

Lemma strCRC32add_app crc a b : strCRC32add crc (a ++ b) = strCRC32add (strCRC32add crc a) b.
Proof. apply fold_left_app. Qed.

Lemma strCRC32add_range crc str : 0 <= crc < 2 ^ 32 -> bytes_ok str ->
  0 <= strCRC32add crc str < 2 ^ 32.
Proof.
  intros. rewrite strCRC32add_run by done. apply Lfsr.run_range; [done|vm_compute; split; congruence|done].
Qed.

Lemma crc_length_ok fuel len : bytes_ok (crc_length fuel len).
Proof.
  revert len. induction fuel as [|f IH]; intros len; [constructor|]. cbn [crc_length].
  constructor; [apply Z.mod_pos_bound; lia|]. destruct (_ =? 0); [constructor|apply IH].
Qed.

(** The checksum of a message is what is left of its polynomial, times
    [x^32], after the division by the generator. *)
Theorem strCRC32add_remainder str : bytes_ok str ->
  strCRC32add 0 str = Lfsr.divide 32 CRC32POLY 0 (bits_of str ++ repeat false 32).
Proof.
  intros H. rewrite strCRC32add_run by done. by apply (Lfsr.run_divide 32).
Qed.

(** The checksum is linear: the checksum of the difference of two messages of
    one length is the difference of their checksums. *)
Theorem strCRC32add_linear c1 c2 s1 s2 : bytes_ok s1 -> bytes_ok s2 -> length s1 = length s2 ->
  strCRC32add (Z.lxor c1 c2) (zip_with Z.lxor s1 s2) =
  Z.lxor (strCRC32add c1 s1) (strCRC32add c2 s2).
Proof.
  intros H1 H2 Hl.
  assert (bytes_ok (zip_with Z.lxor s1 s2) /\
               bits_of (zip_with Z.lxor s1 s2) = zip_with xorb (bits_of s1) (bits_of s2)) as [Hok Hb].
  { revert s2 H2 Hl. induction H1 as [|a s1 Ha H1 IH]; intros [|b s2] H2 Hl; try done.
    apply Forall_cons in H2 as [Hb H2]. injection Hl as Hl.
    destruct (IH s2) as [IH1 IH2]; [done..|].
    split.
    - constructor; [|done]. apply (Lfsr.lxor_range 8); [done|apply Ha|apply Hb].
    - change (zip_with Z.lxor (a :: s1) (b :: s2)) with (Z.lxor a b :: zip_with Z.lxor s1 s2).
      rewrite !bits_of_cons, IH2, zip_with_app by done. f_equal.
      unfold octet_bits. cbn. by rewrite !Z.lxor_spec. }
  rewrite !strCRC32add_run, Hb by done. apply Lfsr.run_lxor; [done|].
  by rewrite !length_octets_bits, Hl.
Qed.

(** C37. Two messages of one length whose bits differ only inside a window of
    at most 32 bits, wherever it is and however it is aligned, have different
    checksums: the 32-bit check finds every burst of errors of that size. *)
Theorem strCRC32_detects_bursts s1 s2 a e1 e2 c :
  bytes_ok s1 -> bytes_ok s2 ->
  bits_of s1 = a ++ e1 ++ c -> bits_of s2 = a ++ e2 ++ c ->
  length e1 = length e2 -> (length e1 <= 32)%nat -> e1 <> e2 ->
  strCRC32 s1 <> strCRC32 s2.
Proof.
  intros H1 H2 Hb1 Hb2 Hl He Hne.
  assert (Hlen : zlen s1 = zlen s2).
  { pose proof (length_octets_bits s1) as L1. pose proof (length_octets_bits s2) as L2.
    rewrite Hb1 in L1. rewrite Hb2 in L2. rewrite !length_app in L1, L2. unfold zlen. lia. }
  unfold strCRC32, strCRC32end. rewrite Hlen. intros Heq.
  apply (f_equal (fun z => Z.lxor z 0xFFFFFFFF)) in Heq.
  rewrite !Z.lxor_assoc, Z.lxor_nilpotent, !Z.lxor_0_r in Heq.
  rewrite <- !strCRC32add_app, !strCRC32add_run in Heq
    by (apply Forall_app; split; [done|apply crc_length_ok]).
  unfold bits_of in Heq. rewrite !flat_map_app in Heq. fold (bits_of s1) (bits_of s2) in Heq.
  rewrite Hb1, Hb2, <- !app_assoc in Heq. revert Heq.
  apply Lfsr.run_burst; try done. lia.
Qed.
Lemma strCRC32_detects_bursts_witness : strCRC32 (cs "DeleGate") <> strCRC32 (cs "Dele5ate").
Proof.
  apply (strCRC32_detects_bursts _ _ (bits_of (cs "Dele")) (bits_of (cs "G"))
           (bits_of (cs "5")) (bits_of (cs "ate"))); try reflexivity; try (vm_compute; congruence).
  - by apply (bool_decide_unpack _).
  - by apply (bool_decide_unpack _).
  - vm_compute. lia.
Defined.

(** Reading a file in blocks of 8K octets gives the checksum of its contents,
    and its length. *)
Lemma fcrc32X_loop_spec fuel crc n fp : (length fp < fuel)%nat ->
  0 <= n -> n + zlen fp < 2 ^ 31 ->
  fcrc32X_loop fuel crc n fp = (strCRC32add crc fp, n + zlen fp).
Proof.
  revert crc n fp. induction fuel as [|f IH]; intros crc n fp Hf Hn Hs; [lia|].
  cbn [fcrc32X_loop]. destruct (Z.ltb_spec 0 (zlen (take (8 * 1024) fp))) as [H|H].
  - assert (Hsplit : zlen fp = zlen (take (8 * 1024) fp) + zlen (drop (8 * 1024) fp)).
    { rewrite <- (take_drop (8 * 1024) fp) at 1. apply zlen_app. }
    pose proof (zlen_nonneg (drop (8 * 1024) fp)).
    assert (Hn' : s32 (n + zlen (take (8 * 1024) fp)) = n + zlen (take (8 * 1024) fp)).
    { unfold s32. rewrite Z.mod_small by lia. lia. }
    rewrite Hn', IH; [|unfold zlen in *; lia..].
    rewrite <- strCRC32add_app, take_drop. f_equal. lia.
  - destruct fp as [|x fp]; [|exfalso; unfold zlen in H; rewrite length_take in H; cbn [length] in H; lia].
    cbn [strCRC32add fold_left]. rewrite zlen_nil. f_equal. lia.
Qed.

Theorem fcrc32X_is_strCRC32 fp : zlen fp < 2 ^ 31 -> fcrc32X fp = (strCRC32 fp, zlen fp).
Proof.
  intros H. unfold fcrc32X. rewrite fcrc32X_loop_spec; [|lia|lia|lia]. done.
Qed.

(** ** The 16- and 64-bit checks *)

Lemma crc16_next_feed crc b : crc16_next crc b = Lfsr.feed 16 CRC16POLY crc b.
Proof.
  unfold crc16_next, Lfsr.feed. change 0x8000 with (2 ^ 15).
  rewrite (land_bit crc 15) by done.
  rewrite Z.shiftl_mul_pow2, Z.mul_comm by done. change (2 ^ 1) with 2.
  destruct (xorb _ b); [done|]. by rewrite Z.lxor_0_r.
Qed.

Theorem strCRC16_run crc str : bytes_ok str -> 0 <= crc < 2 ^ 16 ->
  strCRC16 crc str = Lfsr.run 16 CRC16POLY crc (bits_of str).
Proof.
  intros H Hc. unfold strCRC16. rewrite msb_octets_bits by done.
  assert (E : forall l s, fold_left crc16_next l s = Lfsr.run 16 CRC16POLY s l).
  { intros l. induction l as [|b l IH]; intros s; [done|]. cbn [fold_left].
    by rewrite IH, crc16_next_feed. }
  rewrite E, Z.land_comm. change 0xFFFF with (Z.ones 16). rewrite Z.land_ones by done.
  apply Z.mod_small, Lfsr.run_range; [done|vm_compute; split; congruence|done].
Qed.

(** The pair of words of [strCRC64] as one register of 64 bits. *)
Definition crc64_word (crc : Z * Z) : Z := fst crc * 2 ^ 32 + snd crc.
Definition CRC64POLY : Z := crc64_word (CRC64PORY0, CRC64PORY1).
Definition crc64_ok (crc : Z * Z) : Prop := 0 <= fst crc < 2 ^ 32 /\ 0 <= snd crc < 2 ^ 32.

Lemma testbit_word h l i : 0 <= l < 2 ^ 32 -> 0 <= i ->
  Z.testbit (h * 2 ^ 32 + l) i = if i <? 32 then Z.testbit l i else Z.testbit h (i - 32).
Proof.
  intros Hl Hi. rewrite <- Z.shiftl_mul_pow2 by done.
  assert (Hd : Z.land (Z.shiftl h 32) l = 0).
  { apply Z.bits_inj'. intros j Hj. rewrite Z.land_spec, Z.bits_0.
    rewrite Z.shiftl_spec by done. destruct (Z.ltb_spec j 32).
    - rewrite (Z.testbit_neg_r h) by lia. done.
    - rewrite (bits_high 32 l) by lia. apply andb_false_r. }
  rewrite Z.add_nocarry_lxor by done. rewrite Z.lxor_spec, Z.shiftl_spec by done.
  destruct (Z.ltb_spec i 32).
  - rewrite (Z.testbit_neg_r h) by lia. done.
  - rewrite (bits_high 32 l) by lia. apply xorb_false_r.
Qed.

(** The shift of the pair is the shift of the 64 bits. *)
Lemma crc64_shift h l : 0 <= h < 2 ^ 32 -> 0 <= l < 2 ^ 32 ->
  let h' := Z.lor (u32 (Z.shiftl h 1)) (Z.land (Z.shiftr l 31) 1) in
  let l' := u32 (Z.shiftl l 1) in
  0 <= h' < 2 ^ 32 /\ 0 <= l' < 2 ^ 32 /\
  h' * 2 ^ 32 + l' = (2 * crc64_word (h, l)) mod 2 ^ 64.
Proof.
  intros Hh Hl h' l'.
  assert (Hb : h' = u32 (Z.shiftl h 1) + l / 2 ^ 31).
  { unfold h', u32. rewrite Z.shiftr_div_pow2 by done.
    assert (0 <= l / 2 ^ 31 < 2) by (split; [apply Z.div_pos; lia|apply Z.div_lt_upper_bound; lia]).
    replace (Z.land (l / 2 ^ 31) 1) with (l / 2 ^ 31)
      by (change 1 with (Z.ones 1); rewrite Z.land_ones by done; rewrite Z.mod_small; lia).
    rewrite <- Z.add_lor_land.
    replace (Z.land _ (l / 2 ^ 31)) with 0; [lia|].
    symmetry. apply Z.bits_inj'. intros i Hi. rewrite Z.land_spec, Z.bits_0.
    destruct (Z.eqb_spec i 0) as [->|].
    - rewrite Z.mod_pow2_bits_low by lia. rewrite Z.shiftl_spec by lia.
      rewrite Z.testbit_neg_r by lia. done.
    - rewrite (bits_high 1 (l / 2 ^ 31)) by lia. apply andb_false_r. }
  assert (Hl' : 0 <= l' < 2 ^ 32) by (apply Z.mod_pos_bound; lia).
  assert (Hdiv : 2 * l = (l / 2 ^ 31) * 2 ^ 32 + l').
  { unfold l', u32. rewrite Z.shiftl_mul_pow2 by done.
    pose proof (Z.div_mod (l * 2 ^ 1) (2 ^ 32) ltac:(lia)) as E.
    assert (Eq : l * 2 ^ 1 / 2 ^ 32 = l / 2 ^ 31).
    { change (2 ^ 32) with (2 ^ 31 * 2 ^ 1). by rewrite Z.div_mul_cancel_r. }
    rewrite Eq in E. lia. }
  assert (Heven : u32 (Z.shiftl h 1) mod 2 = 0).
  { unfold u32. rewrite Z.shiftl_mul_pow2 by done. Z.div_mod_to_equations. lia. }
  assert (Hh' : 0 <= h' < 2 ^ 32).
  { rewrite Hb. assert (0 <= u32 (Z.shiftl h 1) < 2 ^ 32) by (apply Z.mod_pos_bound; lia).
    assert (0 <= l / 2 ^ 31 < 2) by (split; [apply Z.div_pos; lia|apply Z.div_lt_upper_bound; lia]).
    revert H H0 Heven. generalize (u32 (Z.shiftl h 1)), (l / 2 ^ 31). intros u d Hu Hd He.
    change (2 ^ 32) with 4294967296 in *. Z.div_mod_to_equations. lia. }
  assert (Hw : h' * 2 ^ 32 + l' = (2 * crc64_word (h, l)) mod 2 ^ 64).
  { unfold crc64_word. cbn [fst snd]. rewrite Z.mul_add_distr_l, Hdiv, Hb.
    unfold u32 in *. rewrite Z.shiftl_mul_pow2 in * by done.
    apply (Z.mod_unique_pos _ _ (h * 2 ^ 1 / 2 ^ 32)); [rewrite <- Hb; lia|].
    pose proof (Z.div_mod (h * 2 ^ 1) (2 ^ 32) ltac:(lia)) as E. lia. }
  done.
Qed.

Lemma crc64_next_feed crc b : crc64_ok crc ->
  crc64_ok (crc64_next crc b) /\
  crc64_word (crc64_next crc b) = Lfsr.feed 64 CRC64POLY (crc64_word crc) b.
Proof.
  destruct crc as [h l]. intros [Hh Hl]. cbn [fst snd] in *.
  unfold crc64_next. change 0x80000000 with (2 ^ 31).
  rewrite (land_bit h 31) by done.
  assert (Htop : Z.testbit (crc64_word (h, l)) 63 = Z.testbit h 31).
  { unfold crc64_word. cbn [fst snd]. by rewrite testbit_word. }
  destruct (crc64_shift h l Hh Hl) as (Hh' & Hl' & Hw). cbn zeta in *.
  set (h' := Z.lor (u32 (Z.shiftl h 1)) (Z.land (Z.shiftr l 31) 1)) in *.
  set (l' := u32 (Z.shiftl l 1)) in *.
  unfold Lfsr.feed. change (64 - 1) with 63. rewrite Htop.
  destruct (xorb (Z.testbit h 31) b).
  - split.
    + split; cbn [fst snd]; apply (Lfsr.lxor_range 32); try done; vm_compute; split; congruence.
    + unfold crc64_word at 1. cbn [fst snd]. rewrite <- Hw.
      apply Z.bits_inj'. intros i Hi.
      rewrite testbit_word; [|apply (Lfsr.lxor_range 32); [done|done|vm_compute; split; congruence]|done].
      rewrite !Z.lxor_spec, testbit_word by done.
      change CRC64POLY with (CRC64PORY0 * 2 ^ 32 + CRC64PORY1). rewrite testbit_word; [|vm_compute; split; congruence|done].
      by destruct (i <? 32).
  - rewrite Z.lxor_0_r. split; [done|]. unfold crc64_word at 1. done.
Qed.

Theorem strCRC64_run crc str : bytes_ok str -> crc64_ok crc ->
  crc64_ok (strCRC64 crc str) /\
  crc64_word (strCRC64 crc str) = Lfsr.run 64 CRC64POLY (crc64_word crc) (bits_of str).
Proof.
  intros H Hc. unfold strCRC64. rewrite msb_octets_bits by done.
  generalize (bits_of str). intros l. revert crc Hc.
  induction l as [|b l IH]; intros crc Hc; [done|]. cbn [fold_left].
  destruct (crc64_next_feed crc b Hc) as [Hok Heq].
  destruct (IH _ Hok) as [Hok' Heq']. split; [done|]. rewrite Heq', Heq. done.
Qed.

(** The two wide checks find the bursts that fit their registers. *)
Theorem strCRC16_detects_bursts crc s1 s2 a e1 e2 c :
  0 <= crc < 2 ^ 16 -> bytes_ok s1 -> bytes_ok s2 ->
  bits_of s1 = a ++ e1 ++ c -> bits_of s2 = a ++ e2 ++ c ->
  length e1 = length e2 -> (length e1 <= 16)%nat -> e1 <> e2 ->
  strCRC16 crc s1 <> strCRC16 crc s2.
Proof.
  intros Hc H1 H2 Hb1 Hb2 Hl He Hne. rewrite !strCRC16_run, Hb1, Hb2 by done.
  apply Lfsr.run_burst; try done. lia.
Qed.

Theorem strCRC64_detects_bursts crc s1 s2 a e1 e2 c :
  crc64_ok crc -> bytes_ok s1 -> bytes_ok s2 ->
  bits_of s1 = a ++ e1 ++ c -> bits_of s2 = a ++ e2 ++ c ->
  length e1 = length e2 -> (length e1 <= 64)%nat -> e1 <> e2 ->
  strCRC64 crc s1 <> strCRC64 crc s2.
Proof.
  intros Hc H1 H2 Hb1 Hb2 Hl He Hne Heq. apply (f_equal crc64_word) in Heq.
  revert Heq. rewrite (proj2 (strCRC64_run crc s1 H1 Hc)), (proj2 (strCRC64_run crc s2 H2 Hc)), Hb1, Hb2.
  destruct Hc as [Hc0 Hc1].
  apply Lfsr.run_burst; try done; [|lia].
  unfold crc64_word. lia.
Qed.

(** ** The 8-bit check *)

(** The tables of the octet steps, decided by computation. *)
Lemma crc8_octet_ok : zrange_all 256 (fun crc => zrange_all 256 (fun o =>
    let r := crc8_octet crc o in (0 <=? r) && (r <? 256) &&
    (r =? crc8_octet (Z.lxor crc o) 0) && (CRC8f false true crc o =? r))) = true.
Proof. vm_compute. done. Qed.

Lemma crc8_octet_spec crc o : byte_ok crc -> byte_ok o ->
  byte_ok (crc8_octet crc o) /\ crc8_octet crc o = crc8_octet (Z.lxor crc o) 0 /\
  CRC8f false true crc o = crc8_octet crc o.
Proof.
  intros Hc Ho. pose proof (zrange_all_spec 256 _ crc8_octet_ok crc Hc) as H. cbv beta in H.
  pose proof (zrange_all_spec 256 _ H o Ho) as H'. cbv beta zeta in H'. zprop.
  repeat split; [done|lia|done..].
Qed.

Lemma crc8_shift_inj : zrange_all 256 (fun a => zrange_all 256 (fun b =>
    (a =? b) || negb (crc8_octet a 0 =? crc8_octet b 0))) = true.
Proof. vm_compute. done. Qed.

Lemma crc8_inj a b : byte_ok a -> byte_ok b -> crc8_octet a 0 = crc8_octet b 0 -> a = b.
Proof.
  intros Ha Hb He. pose proof (zrange_all_spec 256 _ crc8_shift_inj a Ha) as H. cbv beta in H.
  pose proof (zrange_all_spec 256 _ H b Hb) as H'. cbv beta in H'.
  rewrite He, Z.eqb_refl, orb_false_r in H'. by apply Z.eqb_eq.
Qed.

Lemma strCRC8_ok crc str : byte_ok crc -> bytes_ok str -> byte_ok (strCRC8 crc str).
Proof.
  intros Hc H. revert crc Hc. induction H as [|o str Ho _ IH]; intros crc Hc; [done|].
  apply IH. by apply crc8_octet_spec.
Qed.

Lemma byte_lxor a b : byte_ok a -> byte_ok b -> byte_ok (Z.lxor a b).
Proof. apply (Lfsr.lxor_range 8). done. Qed.

Lemma lxor_cancel a b c : Z.lxor a c = Z.lxor b c -> a = b.
Proof.
  intros H. apply (f_equal (fun z => Z.lxor z c)) in H.
  by rewrite !Z.lxor_assoc, Z.lxor_nilpotent, !Z.lxor_0_r in H.
Qed.

Lemma strCRC8_inj a b str : byte_ok a -> byte_ok b -> bytes_ok str ->
  strCRC8 a str = strCRC8 b str -> a = b.
Proof.
  intros Ha Hb H. revert a b Ha Hb. induction H as [|o str Ho _ IH]; intros a b Ha Hb He; [done|].
  apply IH in He; [|by apply crc8_octet_spec..].
  rewrite (proj1 (proj2 (crc8_octet_spec a o Ha Ho))),
    (proj1 (proj2 (crc8_octet_spec b o Hb Ho))) in He.
  apply crc8_inj in He; [|by apply byte_lxor..]. by apply lxor_cancel in He.
Qed.

(** One wrong octet, wherever it is, changes the 8-bit check. *)
Theorem strCRC8_detects_octet crc a x y c : byte_ok crc -> bytes_ok (a ++ x :: c) -> byte_ok y ->
  x <> y -> strCRC8 crc (a ++ x :: c) <> strCRC8 crc (a ++ y :: c).
Proof.
  intros Hc Hb Hy Hne He. apply Forall_app in Hb as [Ha Hb]. apply Forall_cons in Hb as [Hx Hb].
  unfold strCRC8 in He. rewrite !fold_left_app in He. fold (strCRC8 crc a) in He.
  pose proof (strCRC8_ok crc a Hc Ha) as Ht. cbn [fold_left] in He.
  fold (strCRC8 (crc8_octet (strCRC8 crc a) x) c) (strCRC8 (crc8_octet (strCRC8 crc a) y) c) in He.
  apply strCRC8_inj in He; [|by apply crc8_octet_spec..|done].
  rewrite (proj1 (proj2 (crc8_octet_spec _ x Ht Hx))),
    (proj1 (proj2 (crc8_octet_spec _ y Ht Hy))), !(Z.lxor_comm (strCRC8 crc a)) in He.
  apply crc8_inj in He; [|by apply byte_lxor..]. by apply lxor_cancel in He.
Qed.

(** Where [char] is unsigned and left so, [CRC8f] is one step of [strCRC8];
    where it is signed, as on amd64, it is another function: the sign bit is
    repeated into the register. *)
Theorem CRC8f_unsigned crc o : byte_ok crc -> byte_ok o -> CRC8f false true crc o = strCRC8 crc [o].
Proof. intros. by apply crc8_octet_spec. Qed.
Lemma CRC8f_signed_differs :
  uchar (CRC8f true false 128 0) <> strCRC8 128 [0] /\
  CRC8f false false 128 0 = CRC8f true false 128 0.
Proof. vm_compute. split; congruence. Qed.

Lemma land_octet z : byte_ok z -> Z.land 0xFF z = z.
Proof.
  intros Hz. rewrite Z.land_comm. change 0xFF with (Z.ones 8). rewrite Z.land_ones by done.
  by apply Z.mod_small.
Qed.

(** The table holds [CRC8f], so the macro with or without the table differs
    only above the low octet. *)
Lemma CRC8_table sc lu crc ch : byte_ok crc -> byte_ok ch ->
  CRC8 (CRC8init sc lu) crc ch = uchar (CRC8f sc lu crc ch).
Proof.
  intros Hc Hh. unfold CRC8, CRC8init.
  rewrite !land_octet by done. unfold byte_ok in *. unfold cat.
  destruct (Z.ltb_spec ch 0); [lia|]. rewrite !nth_lookup.
  rewrite list_lookup_fmap, lookup_seqZ_lt by lia. cbn.
  rewrite list_lookup_fmap, lookup_seqZ_lt by lia. cbn. do 2 f_equal; lia.
Qed.
