(* ===== verification/Rc4.v ===== *)
(** * The stream cipher of the PDF filter ([filters/rc4.cpp])

    [myRC4_set_key] and [myRC4].  The table [data] of 256 words is a list;
    the file proves that it is a permutation of the octets after any use, and
    that the cipher is RC4 as it is defined by transpositions of a permutation:
    the octets which are mixed into the text are those of the definition, in
    whatever pieces the text is given. *)
From S2P Require Import Prelude Cksum.
From stdpp Require Import options.

Record RC4_KEY := Rc4Key { k_x : Z; k_y : Z; k_data : list Z }.

(** [d[i]] *)
Definition at_ (d : list Z) (i : Z) : Z := nth (Z.to_nat i) d 0.
Definition set_ (d : list Z) (i v : Z) : list Z := <[Z.to_nat i := v]> d.

(** One turn of the loop that mixes the key in: [d], [j] and the index [k]
    into the key. *)
Definition set_key_step (len : Z) (data : list Z) (s : list Z * Z * Z) (i : Z) : list Z * Z * Z :=
  let '(d, j, k) := s in
  let t := at_ d i in
  let j := Z.land (j + t + at_ data k) 0xFF in
  let d := set_ d i (at_ d j) in
  let d := set_ d j t in
  let k := k + 1 in
  (d, j, if k =? len then 0 else k).
Definition myRC4_set_key (len : Z) (data : list Z) : RC4_KEY :=
  let d := seqZ 0 256 in
  if len <=? 0 then Rc4Key 0 0 d
  else let '(d, _, _) := fold_left (set_key_step len data) (seqZ 0 256) (d, 0, 0) in
       Rc4Key 0 0 d.

(** One octet. *)
Definition rc4_step (key : RC4_KEY) (inp : Z) : RC4_KEY * Z :=
  let d := k_data key in
  let x := Z.land (k_x key + 1) 0xFF in
  let tx := at_ d x in
  let y := Z.land (k_y key + tx) 0xFF in
  let ty := at_ d y in
  let d := set_ d x ty in
  let d := set_ d y tx in
  (Rc4Key x y d, Z.lxor inp (at_ d (Z.land (tx + ty) 0xFF))).
Fixpoint myRC4 (key : RC4_KEY) (inp : list Z) : RC4_KEY * list Z :=
  match inp with
  | [] => (key, [])
  | c :: inp =>
      let '(key, o) := rc4_step key c in
      let '(key, out) := myRC4 key inp in
      (key, o :: out)
  end.

(** ** The table *)

Definition rc4_ok (key : RC4_KEY) : Prop :=
  byte_ok (k_x key) /\ byte_ok (k_y key) /\ k_data key ≡ₚ seqZ 0 256.

Lemma land_FF z : byte_ok (Z.land z 0xFF).
Proof. change 0xFF with (Z.ones 8). rewrite Z.land_ones by done. apply Z.mod_pos_bound. done. Qed.

Lemma at_lookup d i : 0 <= i < zlen d -> d !! Z.to_nat i = Some (at_ d i).
Proof.
  intros Hi. unfold at_. rewrite nth_lookup.
  destruct (lookup_lt_is_Some_2 d (Z.to_nat i)) as [v Hv]; [unfold zlen in *; lia|].
  by rewrite Hv.
Qed.

(** The exchange of two elements as the code does it, also when they are one. *)
Lemma swap_perm d i j : 0 <= i < zlen d -> 0 <= j < zlen d ->
  set_ (set_ d i (at_ d j)) j (at_ d i) ≡ₚ d.
Proof.
  intros Hi Hj. unfold set_. destruct (decide (i = j)) as [->|Hne].
  - rewrite list_insert_insert_eq. by rewrite list_insert_id by (apply at_lookup; done).
  - rewrite list_insert_insert_ne by lia.
    apply Permutation_insert_swap; by apply at_lookup.
Qed.

Lemma zlen_perm (d : list Z) : d ≡ₚ seqZ 0 256 -> zlen d = 256.
Proof. intros H. unfold zlen. rewrite H. done. Qed.

Lemma set_key_step_perm len data d j k i : d ≡ₚ seqZ 0 256 -> byte_ok i ->
  fst (fst (set_key_step len data (d, j, k) i)) ≡ₚ seqZ 0 256.
Proof.
  intros Hd Hi. cbn [set_key_step fst]. rewrite swap_perm; [done|..];
    rewrite zlen_perm by done; [done|apply land_FF].
Qed.

Lemma set_key_ok len data : rc4_ok (myRC4_set_key len data).
Proof.
  unfold myRC4_set_key. destruct (len <=? 0); [done|].
  assert (H : forall l s, Forall byte_ok l -> fst (fst s) ≡ₚ seqZ 0 256 ->
            fst (fst (fold_left (set_key_step len data) l s)) ≡ₚ seqZ 0 256).
  { intros l. induction l as [|i l IH]; intros [[d j] k] Hl Hs; [done|].
    apply Forall_cons in Hl as [Hi Hl]. apply IH; [done|]. by apply set_key_step_perm. }
  specialize (H (seqZ 0 256) (seqZ 0 256, 0, 0)).
  destruct (fold_left _ _ _) as [[d j] k]. split; [done|]. split; [done|].
  apply H; [|done]. apply Forall_seqZ. unfold byte_ok. lia.
Qed.

Lemma rc4_step_ok key c : rc4_ok key -> rc4_ok (fst (rc4_step key c)).
Proof.
  intros (Hx & Hy & Hd). unfold rc4_step, rc4_ok. cbn [fst k_x k_y k_data].
  split; [apply land_FF|]. split; [apply land_FF|].
  rewrite swap_perm; [done|..]; rewrite zlen_perm by done; apply land_FF.
Qed.

(** The key is safe to use whatever was read as its octets: after setting it
    and after any text the table is a permutation of the 256 octets, and the
    two indices are octets. *)
Theorem myRC4_keeps_table key inp : rc4_ok key -> rc4_ok (fst (myRC4 key inp)).
Proof.
  revert key. induction inp as [|c inp IH]; intros key Hk; [done|]. cbn [myRC4].
  pose proof (rc4_step_ok key c Hk) as H. destruct (rc4_step key c) as [key' o].
  specialize (IH key' H). by destruct (myRC4 key' inp).
Qed.

(** ** The octets mixed in *)

Definition rc4_next (key : RC4_KEY) : RC4_KEY := fst (rc4_step key 0).
Fixpoint keystream (n : nat) (key : RC4_KEY) : list Z :=
  match n with
  | O => []
  | S n => snd (rc4_step key 0) :: keystream n (rc4_next key)
  end.

Lemma rc4_step_stream key c :
  rc4_step key c = (rc4_next key, Z.lxor c (snd (rc4_step key 0))).
Proof. unfold rc4_next, rc4_step. cbn [fst snd]. by rewrite Z.lxor_0_l. Qed.

Lemma myRC4_stream key inp :
  myRC4 key inp = (Nat.iter (length inp) rc4_next key,
                   zip_with Z.lxor inp (keystream (length inp) key)).
Proof.
  revert key. induction inp as [|c inp IH]; intros key; [done|].
  cbn [myRC4]. rewrite rc4_step_stream, IH. cbn [length]. by rewrite Nat.iter_succ_r.
Qed.

Lemma myRC4_app key a b :
  myRC4 key (a ++ b) =
  let '(key, oa) := myRC4 key a in let '(key, ob) := myRC4 key b in (key, oa ++ ob).
Proof.
  revert key. induction a as [|c a IH]; intros key; cbn [app myRC4].
  - by destruct (myRC4 key b).
  - destruct (rc4_step key c) as [k o]. rewrite IH.
    destruct (myRC4 k a) as [k' oa]. by destruct (myRC4 k' b).
Qed.

(** A text in pieces. *)
Fixpoint rc4_pieces (key : RC4_KEY) (ps : list (list Z)) : RC4_KEY * list (list Z) :=
  match ps with
  | [] => (key, [])
  | p :: ps =>
      let '(key, o) := myRC4 key p in
      let '(key, os) := rc4_pieces key ps in
      (key, o :: os)
  end.

Lemma rc4_pieces_concat key ps :
  fst (rc4_pieces key ps) = fst (myRC4 key (concat ps)) /\
  concat (snd (rc4_pieces key ps)) = snd (myRC4 key (concat ps)).
Proof.
  revert key. induction ps as [|p ps IH]; intros key; [done|].
  cbn [rc4_pieces concat]. rewrite myRC4_app. destruct (myRC4 key p) as [k o].
  destruct (IH k) as [IH1 IH2]. destruct (rc4_pieces k ps) as [k1 os].
  destruct (myRC4 k (concat ps)) as [k2 o2]. cbn in *. by subst.
Qed.

Lemma lxor_twice a b : length a = length b ->
  zip_with Z.lxor (zip_with Z.lxor a b) b = a.
Proof.
  revert b. induction a as [|x a IH]; intros [|y b] Hl; [done..|]. injection Hl as Hl.
  cbn [zip_with]. by rewrite IH, Z.lxor_assoc, Z.lxor_nilpotent, Z.lxor_0_r.
Qed.

Lemma length_keystream n key : length (keystream n key) = n.
Proof. revert key. induction n as [|n IH]; intros key; [done|]. cbn. by rewrite IH. Qed.

(** What was encrypted under a key in any pieces comes back when the octets
    are decrypted under the same key in any other pieces, and both sides have
    used their keys up to the same place. *)
Theorem rc4_roundtrip len data ps qs :
  let key := myRC4_set_key len data in
  concat qs = concat (snd (rc4_pieces key ps)) ->
  concat (snd (rc4_pieces key qs)) = concat ps /\
  fst (rc4_pieces key qs) = fst (rc4_pieces key ps).
Proof.
  intros key Hq. destruct (rc4_pieces_concat key ps) as [Hp1 Hp2].
  destruct (rc4_pieces_concat key qs) as [Hq1 Hq2].
  rewrite Hq1, Hq2, Hp1, Hq, Hp2, !myRC4_stream. cbn [fst snd].
  rewrite length_zip_with_l by (by rewrite length_keystream).
  by rewrite lxor_twice by (by rewrite length_keystream).
Qed.

(** ** The cipher by its definition *)

(** The permutation behind a transposition of two places. *)
Definition swapped (s : Z -> Z) (i j : Z) (n : Z) : Z :=
  if n =? i then s j else if n =? j then s i else s n.
(** The key schedule: the permutation and the index after [i] turns. *)
Fixpoint schedule (key : Z -> Z) (i : nat) : (Z -> Z) * Z :=
  match i with
  | O => (id, 0)
  | S i' =>
      let '(s, j) := schedule key i' in
      let i := Z.of_nat i' in
      let j := (j + s i + key i) mod 256 in
      (swapped s i j, j)
  end.
(** The permutation and the index after [n] octets. *)
Fixpoint turned (s0 : Z -> Z) (n : nat) : (Z -> Z) * Z :=
  match n with
  | O => (s0, 0)
  | S n' =>
      let '(s, j) := turned s0 n' in
      let i := Z.of_nat n mod 256 in
      let j := (j + s i) mod 256 in
      (swapped s i j, j)
  end.
Definition turns : nat := 256.
(** The octet that is mixed into the one at [n]. *)
Definition rc4_octet (key : Z -> Z) (n : nat) : Z :=
  let '(s, j) := turned (schedule key turns).1 (S n) in
  s ((s (Z.of_nat (S n) mod 256) + s j) mod 256).
(** The octets of the key, over and over. *)
Definition key_of (len : Z) (data : list Z) (i : Z) : Z := at_ data (i mod len).

(** The table holds a permutation. *)
Definition holds (d : list Z) (s : Z -> Z) : Prop :=
  zlen d = 256 /\ forall i, 0 <= i < 256 -> at_ d i = s i.

Lemma zlen_set d i v : zlen (set_ d i v) = zlen d.
Proof. unfold zlen, set_. by rewrite length_insert. Qed.
Lemma at_set d i v n : 0 <= i < zlen d -> 0 <= n -> at_ (set_ d i v) n = if n =? i then v else at_ d n.
Proof.
  intros Hi Hn. unfold at_, set_. rewrite !nth_lookup. unfold zlen in Hi.
  destruct (Z.eqb_spec n i) as [->|Hne].
  - by rewrite list_lookup_insert_eq by lia.
  - by rewrite list_lookup_insert_ne by lia.
Qed.
Lemma holds_swap d s i j : holds d s -> 0 <= i < 256 -> 0 <= j < 256 ->
  holds (set_ (set_ d i (at_ d j)) j (at_ d i)) (swapped s i j).
Proof.
  intros [Hl Hs] Hi Hj. split; [by rewrite !zlen_set|]. intros n Hn. unfold swapped.
  rewrite !at_set by (rewrite ?zlen_set; lia). rewrite !Hs by done.
  destruct (Z.eqb_spec n j) as [->|]; [|by destruct (n =? i)].
  by destruct (Z.eqb_spec j i) as [->|].
Qed.

Lemma land_mod z : Z.land z 0xFF = z mod 256.
Proof. change 0xFF with (Z.ones 8). by rewrite Z.land_ones. Qed.
Lemma mod_byte z : 0 <= z mod 256 < 256.
Proof. by apply Z.mod_pos_bound. Qed.

Lemma schedule_holds len data n : 0 < len -> (n <= 256)%nat ->
  let '(d, j, k) := fold_left (set_key_step len data) (seqZ 0 (Z.of_nat n)) (seqZ 0 256, 0, 0) in
  let '(s, j') := schedule (key_of len data) n in
  holds d s /\ j = j' /\ k = Z.of_nat n mod len.
Proof.
  intros Hlen. induction n as [|n IH]; intros Hn.
  - cbn [schedule fold_left]. split_and!; [|done|by rewrite Z.mod_0_l by lia].
    split; [done|]. intros i Hi. unfold at_. rewrite nth_lookup, lookup_seqZ_lt by lia. unfold id. cbn. lia.
  - rewrite seqZ_S, fold_left_app. specialize (IH ltac:(lia)).
    destruct (fold_left _ (seqZ 0 (Z.of_nat n)) _) as [[d j] k]. cbn [schedule fold_left].
    destruct (schedule _ n) as [s j']. destruct IH as (Hd & -> & ->).
    cbn [set_key_step]. rewrite Z.add_0_l, land_mod. set (i := Z.of_nat n).
    rewrite !(proj2 Hd i) by lia. unfold key_of. set (j := (j' + s i + _) mod 256).
    pose proof (mod_byte (j' + s i + at_ data (i mod len))) as Hj. fold j in Hj.
    split_and!; [|done|].
    + rewrite <- (proj2 Hd i) by lia. by apply holds_swap; [|lia|].
    + replace (Z.of_nat (S n)) with (i + 1) by lia. pose proof (Z.mod_pos_bound i len Hlen).
      rewrite <- (Z.add_mod_idemp_l i) by lia. destruct (Z.eqb_spec (i mod len + 1) len) as [E|].
      * by rewrite E, Z.mod_same by lia.
      * by rewrite (Z.mod_small (i mod len + 1)) by lia.
Qed.

(** The key behind [n] octets. *)
Definition key_at (s0 : Z -> Z) (n : nat) (key : RC4_KEY) : Prop :=
  holds (k_data key) (turned s0 n).1 /\ k_y key = (turned s0 n).2 /\ k_x key = Z.of_nat n mod 256.

Lemma rc4_step_at s0 n key c : key_at s0 n key ->
  let '(s, j) := turned s0 (S n) in
  key_at s0 (S n) (rc4_step key c).1 /\
  (rc4_step key c).2 = Z.lxor c (s ((s (Z.of_nat (S n) mod 256) + s j) mod 256)).
Proof.
  intros (Hd & Hy & Hx). unfold key_at, rc4_step. rewrite !land_mod, Hx, Hy. cbn [turned].
  destruct (turned s0 n) as [s j]. cbn [fst snd k_data k_x k_y] in *.
  rewrite Z.add_mod_idemp_l by lia. replace (Z.of_nat n + 1) with (Z.of_nat (S n)) by lia.
  set (i := Z.of_nat (S n) mod 256). pose proof (mod_byte (Z.of_nat (S n))) as Hi. fold i in Hi.
  rewrite (proj2 Hd i) by done. set (j' := (j + s i) mod 256).
  pose proof (mod_byte (j + s i)) as Hj. fold j' in Hj. rewrite (proj2 Hd j') by done.
  pose proof (holds_swap _ _ i j' Hd Hi Hj) as Hs. rewrite !(proj2 Hd) in Hs by done.
  split; [by split_and!|]. rewrite (proj2 Hs) by apply mod_byte. f_equal.
  assert (E : swapped s i j' i + swapped s i j' j' = s i + s j').
  { unfold swapped. rewrite !Z.eqb_refl. destruct (Z.eqb_spec j' i) as [->|]; lia. }
  by rewrite E.
Qed.

Lemma myRC4_octets key inp : forall n k, key_at (schedule key turns).1 n k ->
  (myRC4 k inp).2 = imap (fun m c => Z.lxor c (rc4_octet key (n + m))) inp.
Proof.
  induction inp as [|c inp IH]; intros n k Hk; [done|]. cbn [myRC4].
  pose proof (rc4_step_at _ n k c Hk) as H. rewrite imap_cons, Nat.add_0_r. unfold rc4_octet at 1.
  destruct (turned _ (S n)) as [s j]. destruct H as [Hk' Ho]. destruct (rc4_step k c) as [k' o].
  cbn [fst snd] in *. specialize (IH (S n) k' Hk'). destruct (myRC4 k' inp) as [k2 out].
  cbn [snd] in *. subst. f_equal. apply imap_ext. intros m x _. cbn. by rewrite Nat.add_succ_r.
Qed.

Lemma set_key_at len data : 0 < len ->
  key_at (schedule (key_of len data) turns).1 0 (myRC4_set_key len data).
Proof.
  intros Hlen. unfold myRC4_set_key. rewrite (proj2 (Z.leb_gt len 0)) by done.
  assert (E : Z.of_nat turns = 256) by done.
  pose proof (schedule_holds len data turns Hlen ltac:(lia)) as H. rewrite E in H.
  revert H E. generalize turns. intros n H E.
  destruct (fold_left _ _ _) as [[d j] k]. unfold key_at. cbn [turned fst snd k_data k_x k_y].
  destruct (schedule _ n) as [s j']. by destruct H as (H & _ & _).
Qed.

(** C38. The cipher is RC4: under a key of at least one octet the text that
    is made, in whatever pieces it is given, is the text with the octets of
    the definition mixed in: the permutation that is transposed by the key
    schedule 256 times, with the octets of the key over and over, is
    transposed once for each octet of the text, and gives the octet at the
    sum of the two places exchanged. *)
Theorem rc4_textbook (len : Z) (data : list Z) (ps : list (list Z)) :
  0 < len <= zlen data ->
  concat (snd (rc4_pieces (myRC4_set_key len data) ps)) =
  imap (fun n c => Z.lxor c (rc4_octet (key_of len data) n)) (concat ps).
Proof.
  intros [Hlen _]. rewrite (proj2 (rc4_pieces_concat _ _)).
  by rewrite (myRC4_octets (key_of len data) _ 0) by (by apply set_key_at).
Qed.

(** The second test vector of the cipher: key "Wiki", text "pedia". *)
Lemma rc4_vector : snd (myRC4 (myRC4_set_key 4 (cs "Wiki")) (cs "pedia")) = [0x10; 0x21; 0xBF; 0x04; 0x20].
Proof. vm_compute. done. Qed.

Lemma rc4_textbook_witness :
  imap (fun n c => Z.lxor c (rc4_octet (key_of 4 (cs "Wiki")) n)) (cs "pedia") = [0x10; 0x21; 0xBF; 0x04; 0x20].
Proof.
  change (cs "pedia") with (concat [cs "ped"; cs "ia"]).
  rewrite <- (rc4_textbook 4 (cs "Wiki") [cs "ped"; cs "ia"]); [|by vm_compute].
  vm_compute. reflexivity.
Defined.
