(* ===== verification/Bignum.v ===== *)
(** * Numbers of 2048 bits ([rary/credhy.cpp])

    The arithmetic of the key agreement: an [intArray] is a list of 64 words
    of 32 bits, the most significant first.  The code declares the words as
    [int] and works on their bit patterns; here a word is the pattern, a
    number in [[0, 2^32)].  The functions are [cmp32], [sub32], [add32],
    [cpy32], [clr32], [shiftR32], [shiftL32N], [zerobits], [mod32], [mul32],
    [prepow32f], [prepow32] and [powmod32].

    A loop from [LSI] down to 0 that hands a carry on is a recursion on the
    rest of the arrays that returns the carry.  [mul32] returns a [carry] that
    is not set when no product was formed: [junk] is what it holds then.  The
    loop of [powmod32] that subtracts is bounded by [2^128] turns, which is
    more than its counter can hold ([upto]); it ends always.  The result of
    [getcache], a table read from a file, is an argument, and the file that
    [putcache] writes is left out, as are the log lines.

    [digits b l] is the number that the list [l] is in the base [b]; [val] is
    that of an [intArray].  Comparison, subtraction, addition and shifts are
    those of integers modulo [2^2048] ([cmp32_val], [sub32_val], [add32_val],
    [shiftR32_val], [shiftL32N_val]); [mod32] is the remainder; [mul32] is the
    product modulo [2^2048] and its [carry] is 0 when the product fits;
    [powmod32] ends always, and is the power modulo [P] after at most 128
    multiplications when the table was not cut short. *)
From Stdlib Require Import Znumtheory.
From S2P Require Import Prelude Cksum Rc4.
From stdpp Require Import options.

Definition IWIDTH : nat := 64.
Definition IW2 : nat := IWIDTH * 2.
Definition LSI : nat := IWIDTH - 1.
Definition KBITS : nat := 128.
Definition KWIDTH : nat := KBITS / 32.

Fixpoint cmp32 (X Y : list Z) : Z :=
  match X, Y with
  | x :: X, y :: Y => if y <? x then 1 else if x <? y then -1 else cmp32 X Y
  | _, _ => 0
  end.

(** One turn of the loop of [sub32]: the word and the borrow. *)
Definition sub32_word (x y carry : Z) : Z * Z :=
  if (x =? 0) && (y =? 0) && (carry =? 0) then (0, carry)
  else
    let womsb := u32 (Z.land x 0x7FFFFFFF - Z.land y 0x7FFFFFFF - carry) in
    let womsb := if Z.land womsb 0x80000000 =? 0 then 0 else 1 in
    let ncarry := if Z.shiftr x 31 - Z.shiftr y 31 - womsb <? 0 then 1 else 0 in
    (u32 (x - y - carry), ncarry).
Fixpoint sub32_loop (X Y : list Z) : list Z * Z :=
  match X, Y with
  | x :: X, y :: Y =>
      let '(Z, carry) := sub32_loop X Y in
      let '(z, carry) := sub32_word x y carry in
      (z :: Z, carry)
  | _, _ => ([], 0)
  end.
Definition sub32 (X Y : list Z) : list Z := fst (sub32_loop X Y).

Definition add32_word (x y carry : Z) : Z * Z :=
  let womsb := u32 (Z.land x 0x7FFFFFFF + Z.land y 0x7FFFFFFF + carry) in
  let ncarry := if 2 <=? Z.shiftr x 31 + Z.shiftr y 31 + Z.shiftr womsb 31 then 1 else 0 in
  (u32 (x + y + carry), ncarry).
Fixpoint add32_loop (X Y : list Z) : list Z * Z :=
  match X, Y with
  | x :: X, y :: Y =>
      let '(Z, carry) := add32_loop X Y in
      let '(z, carry) := add32_word x y carry in
      (z :: Z, carry)
  | _, _ => ([], 0)
  end.
Definition add32 (X Y : list Z) : list Z := fst (add32_loop X Y).

Definition cpy32 (X : list Z) : list Z := X.
Definition clr32 : list Z := repeat 0 IWIDTH.

(** [shiftR32(Z,l)] in place, from the last word to the first. *)
Fixpoint shiftR32_loop (l prev : Z) (X : list Z) : list Z :=
  match X with
  | [] => []
  | x :: X => Z.lor (Z.shiftr x l) (u32 (Z.shiftl prev (32 - l))) :: shiftR32_loop l x X
  end.
Definition shiftR32 (X : list Z) (l : Z) : list Z :=
  match X with
  | [] => []
  | x :: X => Z.shiftr x l :: shiftR32_loop l x X
  end.

Fixpoint shiftL32N_loop (l : Z) (X : list Z) : list Z :=
  match X with
  | [] => []
  | x :: X' =>
      match X' with
      | [] => [u32 (Z.shiftl x l)]
      | x' :: _ => Z.lor (u32 (Z.shiftl x l)) (Z.shiftr x' (32 - l)) :: shiftL32N_loop l X'
      end
  end.
Definition shiftL32N (X : list Z) (s : Z) : list Z :=
  let k := s / 32 in
  let l := s mod 32 in
  let Z := drop (Z.to_nat k) X ++ repeat 0 (Nat.min (Z.to_nat k) IWIDTH) in
  if 0 <? l then shiftL32N_loop l Z else Z.

(** [zerobits]: the number of zero bits at the front. *)
Fixpoint zero_mask (fuel : nat) (l mask x : Z) : option Z :=
  match fuel with
  | O => None
  | S f => if Z.land mask x =? 0 then zero_mask f (l + 1) (Z.shiftr mask 1) x else Some l
  end.
Fixpoint zerobits_loop (k : Z) (X : list Z) : Z :=
  match X with
  | [] => Z.of_nat IWIDTH * 32
  | x :: X =>
      if x =? 0 then zerobits_loop (k + 1) X
      else match zero_mask 32 0 0x80000000 x with
           | Some l => k * 32 + l
           | None => zerobits_loop (k + 1) X
           end
  end.
Definition zerobits (X : list Z) : Z := zerobits_loop 0 X.

(** [mod32]: long division; [m] is moved to the right under [z]. *)
Fixpoint mod32_loop (n : nat) (z m : list Z) : list Z :=
  match n with
  | O => z
  | S n =>
      let z := if 0 <=? cmp32 z m then sub32 z m else z in
      mod32_loop n z (shiftR32 m 1)
  end.
Definition mod32 (X Y : list Z) : list Z :=
  let sX := zerobits X in
  let sY := zerobits Y in
  if sY <=? sX then (if cmp32 X Y <? 0 then cpy32 X else sub32 X Y)
  else
    let sM := sY - sX in
    let M := shiftL32N Y sM in
    mod32_loop (Z.to_nat (sM + 1)) (cpy32 X) M.

(** [mul32] on halves of words: [at_] and [set_] are an array read and
    written. *)
Definition halves (X : list Z) : list Z :=
  flat_map (fun x => [Z.shiftr x 16; x mod 2 ^ 16]) X.
Fixpoint unhalves (z : list Z) : list Z :=
  match z with
  | a :: b :: z => Z.lor (Z.shiftl a 16) b :: unhalves z
  | _ => []
  end.

(** [for( ty = tx-1; carry && 0<=ty; ty-- )], with [n = ty + 1]. *)
Fixpoint ripple (n : nat) (z : list Z) (carry : Z) : list Z * Z :=
  match n with
  | O => (z, carry)
  | S ty =>
      if carry =? 0 then (z, carry)
      else
        let nv2 := u32 (at_ z (Z.of_nat ty) + carry) in
        ripple ty (set_ z (Z.of_nat ty) (nv2 mod 2 ^ 16)) (Z.shiftr nv2 16)
  end.
Definition mul32_cell (xi yj tx : Z) (z : list Z) : list Z * Z :=
  let v := u32 (xi * yj) in
  let nv1 := u32 (at_ z tx + v) in
  let carry := Z.shiftr nv1 16 in
  let z := set_ z tx (nv1 mod 2 ^ 16) in
  if 0 <? tx then ripple (Z.to_nat tx) z carry else (z, carry).
Definition mul32_col (xi i : Z) (y : list Z) (s : list Z * Z) (j : Z) : list Z * Z :=
  let jx := Z.of_nat IW2 - 1 - j in
  if at_ y jx =? 0 then s
  else
    let tx := Z.of_nat IW2 - 1 - (i + j) in
    if 0 <=? tx then mul32_cell xi (at_ y jx) tx (fst s) else s.
Definition mul32_row (x y : list Z) (s : list Z * Z) (i : Z) : list Z * Z :=
  let ix := Z.of_nat IW2 - 1 - i in
  if at_ x ix =? 0 then s
  else fold_left (mul32_col (at_ x ix) i y) (seqZ 0 (Z.of_nat IW2)) s.
Definition mul32 (junk : Z) (X Y : list Z) : list Z * Z :=
  let '(z, carry) := fold_left (mul32_row (halves X) (halves Y)) (seqZ 0 (Z.of_nat IW2))
                       (repeat 0 IW2, junk) in
  (unhalves z, carry).

(** The table of [G^(2^i) mod P]. *)
Record Tbuf := mkTbuf { t_maxi : nat; t_Tb : list (list Z) }.
Definition of_pow128 (pow128 : list Z) : list Z := repeat 0 (IWIDTH - KWIDTH) ++ pow128.

Definition reduce (T : list Z) (P : option (list Z)) : list Z :=
  match P with Some P => mod32 T P | None => cpy32 T end.
(** [for( i = 1; i < bits; i++ )], with the turns that are left; the table so
    far ends with [last]. *)
Fixpoint prepow32f_loop (junk : nat -> Z) (P : option (list Z)) (n : nat) (maxi : nat)
    (Tb : list (list Z)) (last : list Z) : Tbuf :=
  match n with
  | O => mkTbuf maxi Tb
  | S n =>
      let i := S maxi in
      let '(T, carry) := mul32 (junk i) last last in
      if carry =? 0
      then let T := reduce T P in prepow32f_loop junk P n i (Tb ++ [T]) T
      else mkTbuf maxi Tb
  end.
Definition prepow32f (junk : nat -> Z) (G : list Z) (P : option (list Z)) (pow128 : list Z) : Tbuf :=
  let PW := of_pow128 pow128 in
  let bits := Z.of_nat IWIDTH * 32 - zerobits PW in
  prepow32f_loop junk P (Z.to_nat (bits - 1)) 0 [cpy32 G] (cpy32 G).

(** [prepow32]: [isDH] is [G == DH_G && P == DH_P], pointers compared;
    [cache] is what [getcache] reads. *)
Definition ones128 : list Z := repeat 0xFFFFFFFF KWIDTH.
Definition prepow32 (junk : nat -> Z) (isDH : bool) (cache : option Tbuf)
    (G : list Z) (P : option (list Z)) (pow128 : list Z) : Tbuf :=
  if isDH
  then match cache with
       | Some Tb => if (0 <? t_maxi Tb)%nat then Tb else prepow32f junk G P ones128
       | None => prepow32f junk G P ones128
       end
  else prepow32f junk G P pow128.

(** [while( cond ) body], at most [2^k] turns. *)
Fixpoint upto {S} (k : nat) (cond : S -> bool) (body : S -> S) (s : S) : S :=
  match k with
  | O => if cond s then body s else s
  | Datatypes.S k =>
      let s := upto k cond body s in
      if cond s then upto k cond body s else s
  end.

(** The state of the loop of [powmod32]: the product, the rest of the
    exponent, and the count of multiplications that the code keeps. *)
Record pstate := PState { p_M : list Z; p_R : list Z; p_nmul : Z }.
Definition pow_turn (P : option (list Z)) (Ti N : list Z) (s : pstate) : pstate :=
  let T := fst (mul32 0 (p_M s) Ti) in
  PState (reduce T P) (sub32 (p_R s) N) (p_nmul s + 1).
Definition pow_cond (N : list Z) (s : pstate) : bool := cmp32 N (p_R s) <=? 0.
Fixpoint powmod32_loop (P : option (list Z)) (Tb : list (list Z)) (n : nat) (N : list Z)
    (s : pstate) : option pstate :=
  let Ti := nth n Tb [] in
  let s := upto KBITS (pow_cond N) (pow_turn P Ti N) s in
  if pow_cond N s then None
  else
    let N := shiftR32 N 1 in
    match n with
    | O => Some s
    | S n => powmod32_loop P Tb n N s
    end.
Definition powmod32 (junk : nat -> Z) (isDH : bool) (cache : option Tbuf)
    (G : list Z) (P : option (list Z)) (pow128 : list Z) : option (list Z * Z) :=
  let Tb := prepow32 junk isDH cache G P pow128 in
  let M := repeat 0 LSI ++ [1] in
  let R := of_pow128 pow128 in
  let N := shiftL32N M (Z.of_nat (t_maxi Tb)) in
  s ← powmod32_loop P (t_Tb Tb) (t_maxi Tb) N (PState M R 0);
  Some (reduce (p_M s) P, p_nmul s).

(** ** Digits in a base *)
Section digits.
Context (b : Z).

Definition digits (l : list Z) : Z := fold_left (fun a w => a * b + w) l 0.
Definition digits_ok (l : list Z) : Prop := Forall (fun w => 0 <= w < b) l.
Local Abbreviation pw n := (b ^ Z.of_nat n) (only parsing).

Lemma digits_acc l a : fold_left (fun a w => a * b + w) l a = a * pw (length l) + digits l.
Proof using Type.
  unfold digits. revert a. induction l as [|w l IH]; intros a; cbn [fold_left length].
  - rewrite Z.pow_0_r. lia.
  - rewrite IH, (IH (0 * b + w)), Nat2Z.inj_succ, Z.pow_succ_r by lia. lia.
Qed.

Lemma digits_cons w l : digits (w :: l) = w * pw (length l) + digits l.
Proof using Type. unfold digits at 1. cbn [fold_left]. rewrite digits_acc. lia. Qed.

Lemma digits_app l1 l2 : digits (l1 ++ l2) = digits l1 * pw (length l2) + digits l2.
Proof using Type. unfold digits at 1. by rewrite fold_left_app, digits_acc. Qed.

Lemma digits_zeros n l : digits (repeat 0 n ++ l) = digits l.
Proof using Type. induction n as [|n IH]; [done|]. cbn [repeat app]. rewrite digits_cons, IH. lia. Qed.

Lemma digits_repeat0 n : digits (repeat 0 n) = 0.
Proof using Type. rewrite <- (app_nil_r (repeat 0 n)), digits_zeros. done. Qed.

Lemma digits_insert l i v : (i < length l)%nat ->
  digits (<[i := v]> l) = digits l + (v - nth i l 0) * b ^ (Z.of_nat (length l - 1 - i)).
Proof using Type.
  revert i. induction l as [|w l IH]; intros [|i] Hi; cbn [length] in *; [lia..| |].
  - cbn [insert list_insert]. change (<[0%nat := v]> (w :: l)) with (v :: l). rewrite !digits_cons.
    cbn [nth]. replace (S (length l) - 1 - 0)%nat with (length l) by lia. lia.
  - change (<[S i := v]> (w :: l)) with (w :: <[i := v]> l).
    rewrite !digits_cons, length_insert, IH by lia. cbn [nth].
    replace (S (length l) - 1 - S i)%nat with (length l - 1 - i)%nat by lia. lia.
Qed.

Lemma digits_ok_insert l i v : digits_ok l -> 0 <= v < b -> digits_ok (<[i := v]> l).
Proof using Type. intros. by apply Forall_insert. Qed.

(** The digits from the lowest on, as a sum. *)
Fixpoint zsum (f : Z -> Z) (n : nat) : Z :=
  match n with O => 0 | S n => zsum f n + f (Z.of_nat n) end.

Lemma zsum_ext f g n : (forall i, 0 <= i < Z.of_nat n -> f i = g i) -> zsum f n = zsum g n.
Proof using Type.
  induction n as [|n IH]; intros H; [done|]. cbn [zsum]. rewrite IH, H; [done|lia|].
  intros i Hi. apply H. lia.
Qed.

Lemma digits_zsum l :
  digits l = zsum (fun i => at_ l (Z.of_nat (length l) - 1 - i) * b ^ i) (length l).
Proof using Type.
  induction l as [|w l IH]; [done|]. rewrite digits_cons, IH. cbn [length zsum].
  replace (at_ (w :: l) (Z.of_nat (S (length l)) - 1 - Z.of_nat (length l))) with w.
  - rewrite Z.add_comm. f_equal. apply zsum_ext. intros i Hi. f_equal.
    unfold at_. replace (Z.to_nat (Z.of_nat (S (length l)) - 1 - i))
      with (S (Z.to_nat (Z.of_nat (length l) - 1 - i))) by lia. done.
  - unfold at_. by replace (Z.to_nat _) with O by lia.
Qed.
Context (Hb : 0 < b).

Lemma digits_range l : digits_ok l -> 0 <= digits l < pw (length l).
Proof using Hb.
  induction 1 as [|w l Hw _ IH]; [done|].
  rewrite digits_cons. cbn [length]. rewrite Nat2Z.inj_succ, Z.pow_succ_r by lia. nia.
Qed.

Lemma digits_inj l1 l2 : length l1 = length l2 -> digits_ok l1 -> digits_ok l2 ->
  digits l1 = digits l2 -> l1 = l2.
Proof using Hb.
  intros Hl H1. revert l2 Hl. induction H1 as [|x l1 Hx H1 IH]; intros [|y l2] Hl H2 He; try done.
  injection Hl as Hl. apply Forall_cons in H2 as [Hy H2]. rewrite !digits_cons, <- Hl in He.
  pose proof (digits_range l1 H1). pose proof (digits_range l2 H2) as Hr. rewrite <- Hl in Hr.
  assert (x = y) by nia. subst. f_equal. apply IH; [done..|]. lia.
Qed.

Lemma digits_ok_nth l i : digits_ok l -> 0 <= nth i l 0 < b.
Proof using Hb.
  intros H. destruct (decide (i < length l)%nat) as [Hi|Hi].
  - unfold digits_ok in H. rewrite Forall_nth in H. by apply H.
  - rewrite nth_overflow by lia. lia.
Qed.

Lemma digits_ok_zeros n : digits_ok (repeat 0 n).
Proof using Hb. apply Forall_forall. intros x Hx%list_elem_of_In%repeat_spec. lia. Qed.
End digits.

(** ** Words *)

Abbreviation digits32 := (digits (2 ^ 32)).
Definition val (X : list Z) : Z := digits32 X.
Definition words_ok (X : list Z) : Prop := length X = IWIDTH /\ digits_ok (2 ^ 32) X.
Definition BIG : Z := 2 ^ 2048.

Lemma val_range X : words_ok X -> 0 <= val X < BIG.
Proof.
  intros [Hl H]. pose proof (digits_range (2 ^ 32) ltac:(lia) X H) as Hr.
  rewrite Hl, <- Z.pow_mul_r in Hr by lia. exact Hr.
Qed.

Lemma val_inj X Y : words_ok X -> words_ok Y -> val X = val Y -> X = Y.
Proof. intros [Hx1 Hx] [Hy1 Hy]. apply digits_inj; try done; congruence. Qed.

Lemma cmp32_digits X Y : length X = length Y -> digits_ok (2 ^ 32) X -> digits_ok (2 ^ 32) Y ->
  cmp32 X Y = if digits32 Y <? digits32 X then 1 else if digits32 X <? digits32 Y then -1 else 0.
Proof.
  intros Hl H1. revert Y Hl. induction H1 as [|x X Hx H1 IH]; intros [|y Y] Hl H2; try done.
  injection Hl as Hl. apply Forall_cons in H2 as [Hy H2]. cbn [cmp32].
  rewrite !digits_cons, IH, Hl by done.
  pose proof (digits_range (2 ^ 32) ltac:(lia) X H1) as R1.
  pose proof (digits_range (2 ^ 32) ltac:(lia) Y H2) as R2. rewrite Hl in R1.
  set (B := (2 ^ 32) ^ Z.of_nat (length Y)) in *.
  destruct (Z.ltb_spec y x), (Z.ltb_spec x y); repeat (case_match; zprop); try done; nia.
Qed.

Lemma cmp32_val X Y : words_ok X -> words_ok Y ->
  cmp32 X Y = if val Y <? val X then 1 else if val X <? val Y then -1 else 0.
Proof. intros [? ?] [? ?]. apply cmp32_digits; [congruence|done..]. Qed.

Lemma land_low x n : 0 <= n -> Z.land x (2 ^ n - 1) = x mod 2 ^ n.
Proof. intros. rewrite <- Z.land_ones by done. f_equal. rewrite Z.ones_equiv. lia. Qed.

Lemma land_top x n : 0 <= n -> 0 <= x < 2 ^ (n + 1) ->
  (Z.land x (2 ^ n) =? 0) = (x <? 2 ^ n).
Proof.
  intros Hn Hx. rewrite <- (negb_involutive (Z.land _ _ =? 0)), land_bit by done.
  rewrite Z.testbit_eqb by done. rewrite Z.pow_add_r in Hx by lia. change (2 ^ 1) with 2 in Hx.
  destruct (Z.ltb_spec x (2 ^ n)).
  - rewrite Z.div_small by lia. done.
  - assert (x / 2 ^ n = 1) as ->; [|done].
    symmetry. apply (Z.div_unique_pos _ _ 1 (x - 2 ^ n)); lia.
Qed.

Lemma sub32_word_spec x y c : 0 <= x < 2 ^ 32 -> 0 <= y < 2 ^ 32 -> 0 <= c <= 1 ->
  let '(z, c') := sub32_word x y c in
  0 <= z < 2 ^ 32 /\ 0 <= c' <= 1 /\ z - c' * 2 ^ 32 = x - y - c.
Proof.
  intros Hx Hy Hc. unfold sub32_word.
  destruct ((x =? 0) && (y =? 0) && (c =? 0)) eqn:E; [zprop; lia|].
  change 0x7FFFFFFF with (2 ^ 31 - 1). rewrite !land_low by done.
  change 0x80000000 with (2 ^ 31). rewrite land_top; [|done|apply Z.mod_pos_bound; lia].
  rewrite !Z.shiftr_div_pow2 by done. unfold u32.
  pose proof (Z.mod_pos_bound (x - y - c) (2 ^ 32) ltac:(lia)).
  assert (Hs : ((x mod 2 ^ 31 - y mod 2 ^ 31 - c) mod 2 ^ 32 <? 2 ^ 31) =
               (0 <=? x mod 2 ^ 31 - y mod 2 ^ 31 - c)).
  { pose proof (Z.mod_pos_bound x (2 ^ 31) ltac:(lia)).
    pose proof (Z.mod_pos_bound y (2 ^ 31) ltac:(lia)).
    destruct (Z.leb_spec 0 (x mod 2 ^ 31 - y mod 2 ^ 31 - c)).
    - rewrite Z.mod_small by lia. apply Z.ltb_lt. lia.
    - rewrite <- (Z.mod_add _ 1) by lia. rewrite Z.mod_small by lia. apply Z.ltb_ge. lia. }
  rewrite Hs. clear Hs. split; [done|].
  pose proof (Z.div_mod x (2 ^ 31) ltac:(lia)). pose proof (Z.div_mod y (2 ^ 31) ltac:(lia)).
  pose proof (Z.mod_pos_bound x (2 ^ 31) ltac:(lia)). pose proof (Z.mod_pos_bound y (2 ^ 31) ltac:(lia)).
  set (xh := x / 2 ^ 31) in *. set (yh := y / 2 ^ 31) in *.
  set (xl := x mod 2 ^ 31) in *. set (yl := y mod 2 ^ 31) in *.
  clearbody xh yh xl yl.
  assert (Hd : forall d, 0 <= x - y - c + d * 2 ^ 32 < 2 ^ 32 ->
            (x - y - c) mod 2 ^ 32 = x - y - c + d * 2 ^ 32).
  { intros d Hd. rewrite <- (Z.mod_add _ d) by lia. by apply Z.mod_small. }
  change (2 ^ 31) with 2147483648 in *. change (2 ^ 32) with 4294967296 in *.
  destruct (Z.leb_spec 0 (xl - yl - c)).
  - destruct (Z.ltb_spec (xh - yh - 0) 0); (split; [lia|]);
      [rewrite (Hd 1)|rewrite (Hd 0)]; lia.
  - destruct (Z.ltb_spec (xh - yh - 1) 0); (split; [lia|]);
      [rewrite (Hd 1)|rewrite (Hd 0)]; lia.
Qed.

Lemma sub32_loop_spec X Y : length X = length Y -> digits_ok (2 ^ 32) X -> digits_ok (2 ^ 32) Y ->
  let '(D, c) := sub32_loop X Y in
  length D = length X /\ digits_ok (2 ^ 32) D /\ 0 <= c <= 1 /\
  digits32 D - c * (2 ^ 32) ^ Z.of_nat (length X) = digits32 X - digits32 Y.
Proof.
  intros Hl H1. revert Y Hl. induction H1 as [|x X Hx H1 IH]; intros [|y Y] Hl H2; try done.
  injection Hl as Hl. apply Forall_cons in H2 as [Hy H2]. specialize (IH Y Hl H2).
  cbn [sub32_loop]. destruct (sub32_loop X Y) as [D c]. destruct IH as (HD & Hok & Hc & He).
  pose proof (sub32_word_spec x y c Hx Hy Hc) as Hw. destruct (sub32_word x y c) as [d c'].
  destruct Hw as (Hd & Hc' & Hw). split; [cbn; lia|]. split; [by constructor|]. split; [done|].
  cbn [length]. rewrite !digits_cons, HD, <- Hl, Nat2Z.inj_succ, Z.pow_succ_r by lia.
  set (B := (2 ^ 32) ^ Z.of_nat (length X)) in *. nia.
Qed.

Lemma BIG_pow : BIG = (2 ^ 32) ^ Z.of_nat IWIDTH.
Proof. rewrite <- Z.pow_mul_r by lia. done. Qed.

Lemma sub32_ok X Y : words_ok X -> words_ok Y -> words_ok (sub32 X Y).
Proof.
  intros [Hl H] [Hl' H']. pose proof (sub32_loop_spec X Y ltac:(congruence) H H') as Hs.
  unfold sub32. destruct (sub32_loop X Y) as [D c]. split; [|apply Hs]. cbn. rewrite (proj1 Hs). done.
Qed.

Lemma sub32_val X Y : words_ok X -> words_ok Y -> val (sub32 X Y) = (val X - val Y) mod BIG.
Proof.
  intros HX HY. pose proof (val_range _ (sub32_ok X Y HX HY)) as Hr. revert Hr.
  destruct HX as [Hl H], HY as [Hl' H'].
  pose proof (sub32_loop_spec X Y ltac:(congruence) H H') as Hs.
  unfold sub32. destruct (sub32_loop X Y) as [D c]. destruct Hs as (_ & _ & _ & He). cbn [fst].
  intros Hr. rewrite Hl, <- BIG_pow in He. unfold val in *.
  apply (Z.mod_unique_pos _ _ (- c)); [done|]. lia.
Qed.

Lemma sub32_le X Y : words_ok X -> words_ok Y -> val Y <= val X -> val (sub32 X Y) = val X - val Y.
Proof.
  intros HX HY Hle. rewrite sub32_val by done. apply Z.mod_small.
  pose proof (val_range X HX). pose proof (val_range Y HY). lia.
Qed.

Lemma add32_word_spec x y c : 0 <= x < 2 ^ 32 -> 0 <= y < 2 ^ 32 -> 0 <= c <= 1 ->
  let '(z, c') := add32_word x y c in
  0 <= z < 2 ^ 32 /\ 0 <= c' <= 1 /\ z + c' * 2 ^ 32 = x + y + c.
Proof.
  intros Hx Hy Hc. unfold add32_word.
  change 0x7FFFFFFF with (2 ^ 31 - 1). rewrite !land_low by done.
  rewrite !Z.shiftr_div_pow2 by done. unfold u32.
  pose proof (Z.mod_pos_bound (x + y + c) (2 ^ 32) ltac:(lia)).
  pose proof (Z.div_mod x (2 ^ 31) ltac:(lia)). pose proof (Z.div_mod y (2 ^ 31) ltac:(lia)).
  pose proof (Z.mod_pos_bound x (2 ^ 31) ltac:(lia)). pose proof (Z.mod_pos_bound y (2 ^ 31) ltac:(lia)).
  set (xh := x / 2 ^ 31) in *. set (yh := y / 2 ^ 31) in *.
  set (xl := x mod 2 ^ 31) in *. set (yl := y mod 2 ^ 31) in *. clearbody xh yh xl yl.
  rewrite (Z.mod_small (xl + yl + c)) by lia.
  pose proof (Z.div_mod (xl + yl + c) (2 ^ 31) ltac:(lia)).
  pose proof (Z.mod_pos_bound (xl + yl + c) (2 ^ 31) ltac:(lia)).
  set (m := (xl + yl + c) / 2 ^ 31) in *. clearbody m. split; [done|].
  assert (Hd : forall d, 0 <= x + y + c - d * 2 ^ 32 < 2 ^ 32 ->
            (x + y + c) mod 2 ^ 32 = x + y + c - d * 2 ^ 32).
  { intros d Hd. rewrite <- (Z.mod_add _ (- d)) by lia. rewrite Z.mod_small; lia. }
  change (2 ^ 31) with 2147483648 in *. change (2 ^ 32) with 4294967296 in *.
  destruct (Z.leb_spec 2 (xh + yh + m)); (split; [lia|]); [rewrite (Hd 1)|rewrite (Hd 0)]; lia.
Qed.

Lemma add32_loop_spec X Y : length X = length Y -> digits_ok (2 ^ 32) X -> digits_ok (2 ^ 32) Y ->
  let '(D, c) := add32_loop X Y in
  length D = length X /\ digits_ok (2 ^ 32) D /\ 0 <= c <= 1 /\
  digits32 D + c * (2 ^ 32) ^ Z.of_nat (length X) = digits32 X + digits32 Y.
Proof.
  intros Hl H1. revert Y Hl. induction H1 as [|x X Hx H1 IH]; intros [|y Y] Hl H2; try done.
  injection Hl as Hl. apply Forall_cons in H2 as [Hy H2]. specialize (IH Y Hl H2).
  cbn [add32_loop]. destruct (add32_loop X Y) as [D c]. destruct IH as (HD & Hok & Hc & He).
  pose proof (add32_word_spec x y c Hx Hy Hc) as Hw. destruct (add32_word x y c) as [d c'].
  destruct Hw as (Hd & Hc' & Hw). split; [cbn; lia|]. split; [by constructor|]. split; [done|].
  cbn [length]. rewrite !digits_cons, HD, <- Hl, Nat2Z.inj_succ, Z.pow_succ_r by lia.
  set (B := (2 ^ 32) ^ Z.of_nat (length X)) in *. nia.
Qed.

Theorem add32_val X Y : words_ok X -> words_ok Y ->
  words_ok (add32 X Y) /\ val (add32 X Y) = (val X + val Y) mod BIG.
Proof.
  intros [Hl H] [Hl' H']. pose proof (add32_loop_spec X Y ltac:(congruence) H H') as Hs.
  unfold add32. destruct (add32_loop X Y) as [D c]. destruct Hs as (HD & Hok & _ & He). cbn [fst].
  assert (Hw : words_ok D) by (split; [congruence|done]). split; [done|].
  rewrite Hl, <- BIG_pow in He. apply (Z.mod_unique_pos _ _ c); [by apply val_range|].
  unfold val. lia.
Qed.

(** ** Shifts *)

Lemma lor_disjoint h l n : 0 <= n -> 0 <= l < 2 ^ n -> Z.lor (h * 2 ^ n) l = h * 2 ^ n + l.
Proof.
  intros Hn Hl. rewrite <- Z.add_lor_land.
  replace (Z.land (h * 2 ^ n) l) with 0; [lia|]. symmetry.
  apply Z.bits_inj'. intros i Hi. rewrite Z.land_spec, Z.bits_0.
  destruct (Z.ltb_spec i n).
  - rewrite Z.mul_pow2_bits_low by lia. done.
  - rewrite (bits_high n l) by lia. apply andb_false_r.
Qed.

Section shift.
Context (l : Z) (Hl : 0 < l < 32).

Lemma shift_split : 2 ^ 32 = 2 ^ l * 2 ^ (32 - l).
Proof using Hl. rewrite <- Z.pow_add_r by lia. f_equal. lia. Qed.

(** A word that takes in bits of its left neighbour. *)
Lemma shr_word prev x : 0 <= prev -> 0 <= x < 2 ^ 32 ->
  Z.lor (Z.shiftr x l) (u32 (Z.shiftl prev (32 - l))) = (prev mod 2 ^ l) * 2 ^ (32 - l) + x / 2 ^ l.
Proof using Hl.
  intros Hp Hx. rewrite Z.shiftr_div_pow2, Z.shiftl_mul_pow2 by lia. unfold u32.
  rewrite shift_split at 1. rewrite Z.mul_mod_distr_r by lia. rewrite Z.lor_comm.
  apply lor_disjoint; [lia|]. split; [apply Z.div_pos; lia|].
  apply Z.div_lt_upper_bound; [lia|]. rewrite <- shift_split. lia.
Qed.

Lemma shiftR_loop_digits prev X : 0 <= prev -> digits_ok (2 ^ 32) X ->
  length (shiftR32_loop l prev X) = length X /\ digits_ok (2 ^ 32) (shiftR32_loop l prev X) /\
  digits32 (shiftR32_loop l prev X) =
    ((prev mod 2 ^ l) * (2 ^ 32) ^ Z.of_nat (length X) + digits32 X) / 2 ^ l.
Proof using Hl.
  intros Hp H. revert prev Hp. induction H as [|x X Hx H IH]; intros prev Hp.
  - split; [done|]. split; [constructor|]. cbn. rewrite Z.pow_0_r.
    pose proof (Z.mod_pos_bound prev (2 ^ l) ltac:(lia)). rewrite Z.div_small by (change (digits32 []) with 0; lia). done.
  - cbn [shiftR32_loop length]. rewrite shr_word by (lia || done).
    destruct (IH x ltac:(lia)) as (IH1 & IH2 & IH3).
    pose proof (Z.mod_pos_bound prev (2 ^ l) ltac:(lia)) as Hm.
    assert (Hd : 0 <= x / 2 ^ l < 2 ^ (32 - l)).
    { split; [apply Z.div_pos; lia|]. apply Z.div_lt_upper_bound; [lia|]. rewrite <- shift_split. lia. }
    split; [lia|]. split.
    + constructor; [|done]. rewrite shift_split. nia.
    + rewrite !digits_cons, IH1, IH3, Nat2Z.inj_succ, Z.pow_succ_r by lia.
      set (B := (2 ^ 32) ^ Z.of_nat (length X)).
      replace (prev mod 2 ^ l * (2 ^ 32 * B) + (x * B + digits32 X))
        with (((prev mod 2 ^ l) * 2 ^ (32 - l) + x / 2 ^ l) * B * 2 ^ l + (x mod 2 ^ l * B + digits32 X)).
      { rewrite Z.div_add_l by lia. done. }
      rewrite (Z.div_mod x (2 ^ l)) at 3 by lia. rewrite shift_split. ring.
Qed.
End shift.

Lemma shiftR32_val X l : 0 < l < 32 -> words_ok X ->
  words_ok (shiftR32 X l) /\ val (shiftR32 X l) = val X / 2 ^ l.
Proof.
  intros Hl [Hlen H]. destruct X as [|x X]; [done|].
  pose proof (shiftR_loop_digits l Hl 0 (x :: X) ltac:(lia) H) as (H1 & H2 & H3).
  assert (E : shiftR32 (x :: X) l = shiftR32_loop l 0 (x :: X)).
  { cbn [shiftR32 shiftR32_loop]. rewrite Z.shiftl_0_l. change (u32 0) with 0. by rewrite Z.lor_0_r. }
  rewrite E. split; [split; [congruence|done]|]. unfold val. rewrite H3, Z.mod_0_l by lia. done.
Qed.

Section shift_left.
Context (l : Z) (Hl : 0 < l < 32).

Lemma shl_word x y : 0 <= x -> 0 <= y < 2 ^ 32 ->
  Z.lor (u32 (Z.shiftl x l)) (Z.shiftr y (32 - l)) = (x mod 2 ^ (32 - l)) * 2 ^ l + y / 2 ^ (32 - l).
Proof using Hl.
  intros Hx Hy. rewrite Z.shiftr_div_pow2, Z.shiftl_mul_pow2 by lia. unfold u32.
  rewrite (shift_split l Hl) at 1. rewrite Z.mul_comm at 1. rewrite Z.mul_mod_distr_l by lia.
  rewrite (Z.mul_comm (2 ^ l)). apply lor_disjoint; [lia|]. split; [apply Z.div_pos; lia|].
  apply Z.div_lt_upper_bound; [lia|]. rewrite Z.mul_comm, <- (shift_split l Hl). lia.
Qed.

Lemma shiftL_loop_digits X : X <> [] -> digits_ok (2 ^ 32) X ->
  length (shiftL32N_loop l X) = length X /\ digits_ok (2 ^ 32) (shiftL32N_loop l X) /\
  digits32 (shiftL32N_loop l X) + (hd 0 X / 2 ^ (32 - l)) * (2 ^ 32) ^ Z.of_nat (length X) =
    digits32 X * 2 ^ l.
Proof using Hl.
  intros Hne H. induction H as [|x X Hx H IH]; [done|].
  assert (Hxs : x = x mod 2 ^ (32 - l) + x / 2 ^ (32 - l) * 2 ^ (32 - l)).
  { rewrite (Z.div_mod x (2 ^ (32 - l))) at 1 by lia. lia. }
  pose proof (Z.mod_pos_bound x (2 ^ (32 - l)) ltac:(lia)) as Hm.
  pose proof (shift_split l Hl) as Hs.
  destruct X as [|y X].
  - cbn [shiftL32N_loop length hd]. split; [done|].
    assert (E : u32 (Z.shiftl x l) = (x mod 2 ^ (32 - l)) * 2 ^ l).
    { rewrite Z.shiftl_mul_pow2 by lia. unfold u32. rewrite Hs at 1.
      rewrite (Z.mul_comm x), Z.mul_mod_distr_l by lia. lia. }
    rewrite E. split; [constructor; [rewrite Hs; nia|constructor]|].
    rewrite !digits_cons. cbn [length]. change (digits32 []) with 0.
    rewrite !Z.pow_0_r, Z.pow_1_r, Hs. rewrite Hxs at 3. ring.
  - destruct (IH ltac:(done)) as (IH1 & IH2 & IH3). clear IH.
    change (shiftL32N_loop l (x :: y :: X)) with
      (Z.lor (u32 (Z.shiftl x l)) (Z.shiftr y (32 - l)) :: shiftL32N_loop l (y :: X)).
    set (L := shiftL32N_loop l (y :: X)) in *. clearbody L. cbn [hd] in *.
    pose proof (proj1 (proj1 (Forall_cons _ _ _) H)) as Hy.
    rewrite shl_word by (lia || done).
    assert (Hd : 0 <= y / 2 ^ (32 - l) < 2 ^ l).
    { split; [apply Z.div_pos; lia|]. apply Z.div_lt_upper_bound; [lia|].
      rewrite Z.mul_comm, <- Hs. lia. }
    split; [cbn [length] in *; lia|]. split; [constructor; [rewrite Hs; nia|done]|].
    rewrite (digits_cons _ x), (digits_cons _ (_ + _)), IH1.
    set (D := digits32 (y :: X)) in *. set (n := length (y :: X)) in *.
    change (length (x :: y :: X)) with (S n). rewrite Nat2Z.inj_succ, Z.pow_succ_r by lia.
    set (B := (2 ^ 32) ^ Z.of_nat n) in *.
    replace (digits32 L) with (D * 2 ^ l - y / 2 ^ (32 - l) * B) by lia.
    set (xm := x mod 2 ^ (32 - l)) in *. set (xq := x / 2 ^ (32 - l)) in *.
    rewrite Hs, Hxs. ring.
Qed.
End shift_left.

Lemma digits_drop n X : (n <= length X)%nat -> digits_ok (2 ^ 32) X ->
  digits32 (drop n X) = digits32 X mod (2 ^ 32) ^ Z.of_nat (length X - n).
Proof.
  intros Hn H. rewrite <- (take_drop n X) at 2. rewrite digits_app, length_drop.
  rewrite Z.add_comm, Z.mod_add by lia. symmetry. apply Z.mod_small.
  rewrite <- length_drop. apply digits_range; [lia|]. by apply Forall_drop.
Qed.

Lemma words_move X k : words_ok X ->
  let Y := drop k X ++ repeat 0 (Nat.min k IWIDTH) in
  words_ok Y /\ val Y = (val X * 2 ^ (32 * Z.of_nat k)) mod BIG.
Proof.
  intros [Hl H] Y.
  assert (HY : words_ok Y).
  { unfold Y, words_ok. rewrite length_app, length_drop, repeat_length. split; [lia|].
    apply Forall_app. split; [by apply Forall_drop|]. by apply digits_ok_zeros. }
  split; [done|]. unfold Y, val. rewrite digits_app, digits_repeat0, repeat_length, Z.add_0_r, BIG_pow.
  destruct (decide (k <= IWIDTH)%nat) as [Hk|Hk].
  - rewrite Nat.min_l by done. rewrite digits_drop, Hl by (done || lia).
    rewrite Z.pow_mul_r by lia.
    replace (Z.of_nat IWIDTH) with (Z.of_nat (IWIDTH - k) + Z.of_nat k) by lia.
    rewrite Z.pow_add_r by lia. rewrite Z.mul_mod_distr_r by lia. done.
  - rewrite drop_ge by lia. cbn [digits fold_left]. rewrite Z.mul_0_l.
    replace (32 * Z.of_nat k) with (32 * (Z.of_nat k - Z.of_nat IWIDTH) + 32 * Z.of_nat IWIDTH) by lia.
    rewrite Z.pow_add_r by lia. rewrite <- Z.pow_mul_r by lia. rewrite Z.mul_assoc.
    by rewrite Z.mod_mul by lia.
Qed.

Lemma shiftL32N_val X s : 0 <= s -> words_ok X ->
  words_ok (shiftL32N X s) /\ val (shiftL32N X s) = (val X * 2 ^ s) mod BIG.
Proof.
  intros Hs HX. unfold shiftL32N.
  pose proof (Z.div_mod s 32 ltac:(lia)) as Hd. pose proof (Z.mod_pos_bound s 32 ltac:(lia)) as Hm.
  assert (Hk : 0 <= s / 32) by (apply Z.div_pos; lia).
  destruct (words_move X (Z.to_nat (s / 32)) HX) as [[Yl Yo] Hv]. rewrite Z2Nat.id in Hv by done.
  destruct (Z.ltb_spec 0 (s mod 32)) as [H0|H0].
  - set (Y := drop _ _ ++ _) in *.
    destruct (shiftL_loop_digits (s mod 32) ltac:(lia) Y) as (L1 & L2 & L3); [by destruct Y|done|].
    assert (HW : words_ok (shiftL32N_loop (s mod 32) Y)) by (split; [congruence|done]).
    split; [done|]. rewrite Yl, <- BIG_pow in L3.
    replace (2 ^ s) with (2 ^ (32 * (s / 32)) * 2 ^ (s mod 32)) by (rewrite <- Z.pow_add_r by lia; f_equal; lia).
    rewrite Z.mul_assoc, <- Zmult_mod_idemp_l, <- Hv.
    apply (Z.mod_unique_pos _ _ (hd 0 Y / 2 ^ (32 - s mod 32))); [by apply val_range|].
    unfold val. lia.
  - split; [done|]. rewrite Hv. do 3 f_equal. lia.
Qed.

(** ** The length of a number *)

Lemma zero_mask_spec fuel l x : (Z.of_nat fuel = 32 - l) -> 0 <= l -> 0 < x < 2 ^ (32 - l) ->
  exists l', zero_mask fuel l (2 ^ (31 - l)) x = Some l' /\ 0 <= l' < 32 /\
    2 ^ (31 - l') <= x < 2 ^ (32 - l').
Proof.
  revert l. induction fuel as [|f IH]; intros l Hf Hl Hx.
  - replace (32 - l) with 0 in Hx by lia. cbn in Hx. lia.
  - cbn [zero_mask]. rewrite Z.land_comm, land_top; [|lia|replace (31 - l + 1) with (32 - l) by lia; lia].
    destruct (Z.ltb_spec x (2 ^ (31 - l))) as [H|H].
    + destruct (decide (l = 31)) as [->|Hn]; [cbn in H; lia|].
      rewrite Z.shiftr_div_pow2 by lia.
      replace (2 ^ (31 - l)) with (2 ^ (31 - (l + 1)) * 2 ^ 1) by (rewrite <- Z.pow_add_r by lia; f_equal; lia).
      rewrite Z.div_mul by lia. apply IH; [lia|lia|].
      replace (32 - (l + 1)) with (31 - l) by lia. lia.
    + exists l. split; [done|]. split; [lia|]. lia.
Qed.

Lemma zerobits_loop_spec k X : digits_ok (2 ^ 32) X -> 0 <= k ->
  k + Z.of_nat (length X) = Z.of_nat IWIDTH ->
  let z := zerobits_loop k X in
  32 * k <= z <= 2048 /\ digits32 X < 2 ^ (2048 - z) /\
  (digits32 X <> 0 -> z < 2048 /\ 2 ^ (2047 - z) <= digits32 X).
Proof.
  intros H. revert k. induction H as [|x X Hx H IH]; intros k Hk Hl.
  - cbn [zerobits_loop length] in *. change (digits32 []) with 0.
    change (Z.of_nat IWIDTH) with 64 in *. cbn. lia.
  - cbn [zerobits_loop length] in *. rewrite Nat2Z.inj_succ in Hl.
    change (Z.of_nat IWIDTH) with 64 in *. rewrite digits_cons.
    pose proof (digits_range (2 ^ 32) ltac:(lia) X H) as Hr.
    destruct (Z.eqb_spec x 0) as [->|Hx0].
    + rewrite Z.mul_0_l, Z.add_0_l. destruct (IH (k + 1)) as (IH1 & IH2 & IH3); [lia|lia|].
      cbv zeta. split; [lia|]. by split.
    + destruct (zero_mask_spec 32 0 x ltac:(done) ltac:(lia) ltac:(lia)) as (l & Hm & Hl' & Hb).
      change (2 ^ (31 - 0)) with 0x80000000 in Hm. rewrite Hm. cbv zeta. split; [lia|].
      assert (Hp : (2 ^ 32) ^ Z.of_nat (length X) = 2 ^ (32 * (63 - k))).
      { rewrite <- Z.pow_mul_r by lia. do 2 f_equal. lia. }
      rewrite Hp in *.
      replace (2048 - (k * 32 + l)) with (32 - l + 32 * (63 - k)) by lia.
      replace (2047 - (k * 32 + l)) with (31 - l + 32 * (63 - k)) by lia.
      rewrite !Z.pow_add_r by lia. set (B := 2 ^ (32 * (63 - k))) in *.
      split; [nia|]. intros _. split; [lia|nia].
Qed.

Lemma zerobits_spec X : words_ok X ->
  0 <= zerobits X <= 2048 /\ val X < 2 ^ (2048 - zerobits X) /\
  (val X <> 0 -> zerobits X < 2048 /\ 2 ^ (2047 - zerobits X) <= val X).
Proof. intros [Hl H]. apply (zerobits_loop_spec 0 X H); [lia|]. rewrite Hl. done. Qed.

(** ** The remainder *)

Lemma mod32_loop_spec n z m y : words_ok z -> words_ok m -> 0 < y ->
  val m = y * 2 ^ Z.of_nat n -> val z < 2 * val m ->
  words_ok (mod32_loop (S n) z m) /\ val (mod32_loop (S n) z m) = val z mod y.
Proof.
  revert z m. induction n as [|n IH]; intros z m Hz Hm Hy Hv Hlt;
    change (mod32_loop (S ?n) z m) with
      (mod32_loop n (if 0 <=? cmp32 z m then sub32 z m else z) (shiftR32 m 1)).
  all: set (z' := if 0 <=? cmp32 z m then sub32 z m else z).
  all: assert (Hz' : words_ok z' /\ val z' = if val m <=? val z then val z - val m else val z)
    by (unfold z'; rewrite cmp32_val by done; repeat case_match; zprop; split;
        try done; try lia; try (by apply sub32_ok); rewrite sub32_le by (done || lia); lia).
  all: destruct Hz' as [Hok Hvz]; pose proof (val_range z Hz) as Hrz.
  - cbn [mod32_loop]. split; [done|]. rewrite Hvz. change (2 ^ Z.of_nat 0) with 1 in Hv.
    destruct (Z.leb_spec (val m) (val z)).
    + apply (Z.mod_unique_pos _ _ 1); lia.
    + symmetry. apply Z.mod_small. lia.
  - destruct (shiftR32_val m 1 ltac:(lia) Hm) as [Hm' Hvm].
    rewrite Nat2Z.inj_succ, Z.pow_succ_r in Hv by lia.
    assert (Hh : val (shiftR32 m 1) = y * 2 ^ Z.of_nat n).
    { rewrite Hvm, Hv. change (2 ^ 1) with 2. symmetry. apply (Z.div_unique_pos _ _ _ 0); lia. }
    destruct (IH z' (shiftR32 m 1)) as [IH1 IH2]; [done|done|done|done| |].
    { rewrite Hvz, Hh. destruct (Z.leb_spec (val m) (val z)); lia. }
    split; [done|]. rewrite IH2, Hvz. destruct (Z.leb_spec (val m) (val z)); [|done].
    rewrite Hv. replace (val z - y * (2 * 2 ^ Z.of_nat n)) with (val z + (- (2 * 2 ^ Z.of_nat n)) * y) by ring.
    by rewrite Z.mod_add by lia.
Qed.

Theorem mod32_val X Y : words_ok X -> words_ok Y -> 0 < val Y ->
  words_ok (mod32 X Y) /\ val (mod32 X Y) = val X mod val Y.
Proof.
  intros HX HY Hy. unfold mod32, cpy32.
  destruct (zerobits_spec X HX) as (Bx & Ux & _).
  destruct (zerobits_spec Y HY) as (By & Uy & Ly). specialize (Ly ltac:(lia)).
  pose proof (val_range X HX) as Rx. pose proof (val_range Y HY) as Ry.
  destruct (Z.leb_spec (zerobits Y) (zerobits X)) as [H|H].
  - assert (Hp : 2 ^ (2048 - zerobits X) <= 2 * 2 ^ (2047 - zerobits Y)).
    { rewrite <- Z.pow_succ_r by lia. apply Z.pow_le_mono_r; lia. }
    rewrite cmp32_val by done.
    destruct (Z.ltb_spec (val Y) (val X)); [|destruct (Z.ltb_spec (val X) (val Y))]; cbn [Z.ltb Z.compare].
    + split; [by apply sub32_ok|]. rewrite sub32_le by (done || lia).
      apply (Z.mod_unique_pos _ _ 1); lia.
    + split; [done|]. symmetry. apply Z.mod_small. lia.
    + split; [by apply sub32_ok|]. rewrite sub32_le by (done || lia).
      apply (Z.mod_unique_pos _ _ 1); lia.
  - set (s := zerobits Y - zerobits X) in *.
    destruct (shiftL32N_val Y s ltac:(lia) HY) as [HM HvM].
    assert (Hsm : val Y * 2 ^ s < BIG).
    { apply Z.lt_le_trans with (2 ^ (2048 - zerobits Y) * 2 ^ s); [nia|].
      rewrite <- Z.pow_add_r by lia. apply Z.pow_le_mono_r; lia. }
    rewrite Z.mod_small in HvM by nia.
    replace (Z.to_nat (s + 1)) with (S (Z.to_nat s)) by lia.
    apply mod32_loop_spec; [done|done|done|by rewrite Z2Nat.id by lia|].
    rewrite HvM. apply Z.lt_le_trans with (2 ^ (2048 - zerobits X)); [done|].
    apply Z.le_trans with (2 * (2 ^ (2047 - zerobits Y) * 2 ^ s)); [|nia].
    rewrite <- Z.pow_add_r, <- Z.pow_succ_r by lia. apply Z.pow_le_mono_r; lia.
Qed.

(** ** The product *)

Abbreviation digits16 := (digits (2 ^ 16)).
Definition halves_ok (z : list Z) : Prop := length z = IW2 /\ digits_ok (2 ^ 16) z.

Lemma halves_spec X : words_ok X -> halves_ok (halves X) /\ digits16 (halves X) = val X.
Proof.
  intros [Hl H]. unfold halves_ok, IW2. rewrite <- Hl. clear Hl. unfold val, halves.
  induction H as [|x X Hx _ [[IH1 IH2] IH3]]; [by repeat constructor|].
  cbn [flat_map app length]. rewrite Z.shiftr_div_pow2 by done.
  pose proof (Z.mod_pos_bound x (2 ^ 16) ltac:(lia)). pose proof (Z.div_mod x (2 ^ 16) ltac:(lia)).
  split; [split|].
  - cbn [length]. lia.
  - repeat constructor; [..|done]; try lia.
  - rewrite !digits_cons, IH3. cbn [length]. rewrite IH1.
    replace ((2 ^ 16) ^ Z.of_nat (S (length X * 2))) with (2 ^ 16 * (2 ^ 32) ^ Z.of_nat (length X)).
    + replace ((2 ^ 16) ^ Z.of_nat (length X * 2)) with ((2 ^ 32) ^ Z.of_nat (length X)); [nia|].
      rewrite <- !Z.pow_mul_r by lia. f_equal. lia.
    + rewrite <- !Z.pow_mul_r, <- Z.pow_add_r by lia. f_equal. lia.
Qed.

Lemma unhalves_spec n z : length z = (n * 2)%nat -> digits_ok (2 ^ 16) z ->
  length (unhalves z) = n /\ digits_ok (2 ^ 32) (unhalves z) /\ digits32 (unhalves z) = digits16 z.
Proof.
  revert z. induction n as [|n IH]; intros z Hl H.
  - destruct z; [|done]. split; [done|]. split; [constructor|done].
  - destruct z as [|a [|b z]]; [cbn [length] in Hl; lia..|]. apply Forall_cons in H as [Ha H].
    apply Forall_cons in H as [Hb H]. cbn [length] in Hl.
    destruct (IH z ltac:(lia) H) as (IH1 & IH2 & IH3).
    change (unhalves (a :: b :: z)) with (Z.lor (Z.shiftl a 16) b :: unhalves z).
    rewrite Z.shiftl_mul_pow2, lor_disjoint by done.
    split; [cbn; lia|]. split; [constructor; [lia|done]|].
    rewrite !digits_cons, IH1, IH3. cbn [length].
    replace (length z) with (n * 2)%nat by lia.
    replace ((2 ^ 16) ^ Z.of_nat (S (n * 2))) with (2 ^ 16 * (2 ^ 32) ^ Z.of_nat n).
    + replace ((2 ^ 16) ^ Z.of_nat (n * 2)) with ((2 ^ 32) ^ Z.of_nat n); [ring|].
      rewrite <- !Z.pow_mul_r by lia. f_equal. lia.
    + rewrite <- !Z.pow_mul_r, <- Z.pow_add_r by lia. f_equal. lia.
Qed.

Abbreviation w16 n := ((2 ^ 16) ^ n).

Lemma set_digits z t v : halves_ok z -> 0 <= t < Z.of_nat IW2 -> 0 <= v < 2 ^ 16 ->
  halves_ok (set_ z t v) /\
  digits16 (set_ z t v) = digits16 z + (v - at_ z t) * w16 (Z.of_nat IW2 - 1 - t).
Proof.
  intros [Hl H] Ht Hv. unfold set_, at_. split.
  - split; [by rewrite length_insert|by apply digits_ok_insert].
  - rewrite digits_insert by lia. do 3 f_equal. lia.
Qed.

Lemma at_range z t : halves_ok z -> 0 <= at_ z t < 2 ^ 16.
Proof. intros [_ H]. apply digits_ok_nth; [lia|done]. Qed.

Lemma BIG_w16 : BIG = w16 (Z.of_nat IW2).
Proof. rewrite <- Z.pow_mul_r by lia. done. Qed.

Lemma ripple_spec n z carry : (n <= IW2)%nat -> halves_ok z -> 0 <= carry < 2 ^ 16 ->
  let '(z', c') := ripple n z carry in
  halves_ok z' /\ 0 <= c' < 2 ^ 16 /\
  digits16 z' + c' * BIG = digits16 z + carry * w16 (Z.of_nat (IW2 - n)).
Proof.
  revert z carry. induction n as [|n IH]; intros z carry Hn Hz Hc.
  - cbn [ripple]. rewrite Nat.sub_0_r, <- BIG_w16. done.
  - cbn [ripple]. destruct (Z.eqb_spec carry 0) as [->|H0].
    + split; [done|]. split; [lia|]. lia.
    + pose proof (at_range z (Z.of_nat n) Hz) as Ha. unfold u32.
      rewrite (Z.mod_small (_ + _)) by lia. rewrite Z.shiftr_div_pow2 by done.
      set (v := at_ z (Z.of_nat n) + carry) in *.
      pose proof (Z.mod_pos_bound v (2 ^ 16) ltac:(lia)) as Hm.
      destruct (set_digits z (Z.of_nat n) (v mod 2 ^ 16) Hz ltac:(lia) Hm) as [Hz' Hd].
      assert (Hq : 0 <= v / 2 ^ 16 < 2 ^ 16).
      { split; [apply Z.div_pos; lia|apply Z.div_lt_upper_bound; lia]. }
      specialize (IH _ (v / 2 ^ 16) ltac:(lia) Hz' Hq).
      destruct (ripple _ _ _) as [z' c']. destruct IH as (IH1 & IH2 & IH3).
      split; [done|]. split; [done|]. rewrite IH3, Hd.
      replace (Z.of_nat (IW2 - n)) with (Z.succ (Z.of_nat (IW2 - S n))) by lia.
      replace (Z.of_nat IW2 - 1 - Z.of_nat n) with (Z.of_nat (IW2 - S n)) by lia.
      rewrite Z.pow_succ_r by lia. set (B := w16 _).
      rewrite Z.mod_eq by lia. set (q := v / 2 ^ 16). unfold v. ring.
Qed.

Lemma mul32_cell_spec xi yj t z : halves_ok z -> 0 <= t < Z.of_nat IW2 ->
  0 <= xi < 2 ^ 16 -> 0 <= yj < 2 ^ 16 ->
  let '(z', c') := mul32_cell xi yj t z in
  halves_ok z' /\ 0 <= c' /\
  digits16 z' + c' * BIG = digits16 z + xi * yj * w16 (Z.of_nat IW2 - 1 - t).
Proof.
  intros Hz Ht Hx Hy. unfold mul32_cell, u32.
  pose proof (at_range z t Hz) as Ha.
  assert (Hxy : 0 <= xi * yj <= (2 ^ 16 - 1) * (2 ^ 16 - 1)) by nia.
  rewrite (Z.mod_small (xi * yj)) by lia. rewrite (Z.mod_small (_ + _)) by lia.
  rewrite Z.shiftr_div_pow2 by done. set (v := at_ z t + xi * yj) in *.
  pose proof (Z.mod_pos_bound v (2 ^ 16) ltac:(lia)) as Hm.
  destruct (set_digits z t (v mod 2 ^ 16) Hz Ht Hm) as [Hz' Hd].
  assert (Hq : 0 <= v / 2 ^ 16 < 2 ^ 16).
  { split; [apply Z.div_pos; lia|apply Z.div_lt_upper_bound; lia]. }
  destruct (Z.ltb_spec 0 t) as [H0|H0].
  - pose proof (ripple_spec (Z.to_nat t) _ _ ltac:(lia) Hz' Hq) as Hr.
    destruct (ripple _ _ _) as [z' c']. destruct Hr as (R1 & R2 & R3).
    split; [done|]. split; [lia|]. rewrite R3, Hd.
    replace (Z.of_nat (IW2 - Z.to_nat t)) with (Z.succ (Z.of_nat IW2 - 1 - t)) by lia.
    rewrite Z.pow_succ_r by lia. set (B := w16 _).
    rewrite Z.mod_eq by lia. set (q := v / 2 ^ 16). unfold v. ring.
  - split; [done|]. split; [lia|]. rewrite Hd, BIG_w16.
    assert (t = 0) as -> by lia.
    replace (w16 (Z.of_nat IW2)) with (2 ^ 16 * w16 (Z.of_nat IW2 - 1 - 0)).
    + set (B := w16 _). rewrite Z.mod_eq by lia. set (q := v / 2 ^ 16). unfold v. ring.
    + rewrite <- Z.pow_succ_r by lia. f_equal.
Qed.

(** The loops.  [S] is the sum of the products so far; [q] counts what has
    been lost at the top, and a carry other than [junk] is part of it. *)
Definition mul_inv (junk : Z) (s : list Z * Z) (S : Z) : Prop :=
  halves_ok (fst s) /\ 0 <= S /\
  exists q, 0 <= q /\ digits16 (fst s) + q * BIG = S /\
    ((snd s = junk /\ (S = 0 \/ BIG <= S)) \/ 0 <= snd s <= q).

Lemma mul32_col_spec junk xi i y s S j : mul_inv junk s S -> halves_ok y ->
  0 < xi < 2 ^ 16 -> 0 <= i < Z.of_nat IW2 -> 0 <= j < Z.of_nat IW2 ->
  mul_inv junk (mul32_col xi i y s j)
    (S + xi * at_ y (Z.of_nat IW2 - 1 - j) * w16 (i + j)).
Proof.
  intros Hs Hy Hx Hi Hj. unfold mul32_col.
  pose proof (at_range y (Z.of_nat IW2 - 1 - j) Hy) as Ha.
  set (a := at_ y _) in *. destruct (Z.eqb_spec a 0) as [->|H0].
  { by replace (S + xi * 0 * w16 (i + j)) with S by lia. }
  destruct s as [z c]. destruct Hs as (Hz & HS & q & Hq & He & Hc). cbn [fst snd] in *.
  destruct (Z.leb_spec 0 (Z.of_nat IW2 - 1 - (i + j))) as [Ht|Ht].
  - pose proof (mul32_cell_spec xi a (Z.of_nat IW2 - 1 - (i + j)) z Hz ltac:(lia) ltac:(lia) Ha) as Hm.
    destruct (mul32_cell _ _ _ _) as [z' c']. destruct Hm as (Hz' & Hc' & He').
    replace (Z.of_nat IW2 - 1 - (Z.of_nat IW2 - 1 - (i + j))) with (i + j) in He' by lia.
    assert (0 < w16 (i + j)) by (apply Z.pow_pos_nonneg; lia).
    split; [done|]. split; [nia|]. exists (q + c'). cbn [fst snd].
    split; [lia|]. split; [lia|]. right. lia.
  - assert (Hw : w16 (i + j) = w16 (i + j - Z.of_nat IW2) * BIG).
    { rewrite BIG_w16, <- Z.pow_add_r by lia. f_equal. lia. }
    assert (0 < w16 (i + j - Z.of_nat IW2)) by (apply Z.pow_pos_nonneg; lia).
    rewrite Hw. set (W := w16 (i + j - Z.of_nat IW2)) in *.
    assert (Hpos : 0 < xi * a * W) by nia. assert (0 < BIG) by done.
    split; [done|]. split; [nia|]. exists (q + xi * a * W). cbn [fst snd].
    split; [lia|]. split; [nia|]. destruct Hc as [[-> _]|Hc]; [left|right; lia].
    split; [done|]. right. nia.
Qed.

Lemma mul32_cols_spec junk xi i y s S n : mul_inv junk s S -> halves_ok y ->
  0 < xi < 2 ^ 16 -> 0 <= i < Z.of_nat IW2 -> (n <= IW2)%nat ->
  mul_inv junk (fold_left (mul32_col xi i y) (seqZ 0 (Z.of_nat n)) s)
    (S + xi * w16 i * zsum (fun j => at_ y (Z.of_nat IW2 - 1 - j) * w16 j) n).
Proof.
  intros Hs Hy Hx Hi. induction n as [|n IH]; intros Hn.
  - cbn. by replace (S + xi * w16 i * 0) with S by lia.
  - rewrite seqZ_S, fold_left_app. cbn [fold_left zsum].
    pose proof (mul32_col_spec junk xi i y _ _ (0 + Z.of_nat n) (IH ltac:(lia)) Hy Hx Hi ltac:(lia)) as Hr.
    rewrite Z.add_0_l in *. eapply eq_ind; [exact Hr|].
    rewrite Z.pow_add_r by lia. ring.
Qed.

Lemma mul32_row_spec junk x y s S i : mul_inv junk s S -> halves_ok x -> halves_ok y ->
  0 <= i < Z.of_nat IW2 ->
  mul_inv junk (mul32_row x y s i)
    (S + at_ x (Z.of_nat IW2 - 1 - i) * w16 i * digits16 y).
Proof.
  intros Hs Hx Hy Hi. unfold mul32_row.
  pose proof (at_range x (Z.of_nat IW2 - 1 - i) Hx) as Ha.
  set (a := at_ x _) in *. destruct (Z.eqb_spec a 0) as [->|H0].
  { by replace (S + 0 * w16 i * digits16 y) with S by lia. }
  rewrite (digits_zsum (2 ^ 16) y), (proj1 Hy). apply mul32_cols_spec; [done|done|lia|done|lia].
Qed.

Lemma mul32_rows_spec junk x y n : halves_ok x -> halves_ok y -> (n <= IW2)%nat ->
  mul_inv junk (fold_left (mul32_row x y) (seqZ 0 (Z.of_nat n)) (repeat 0 IW2, junk))
    (zsum (fun i => at_ x (Z.of_nat IW2 - 1 - i) * w16 i) n * digits16 y).
Proof.
  intros Hx Hy. induction n as [|n IH]; intros Hn.
  - cbn [fold_left zsum]. split; [|split; [lia|exists 0]]; cbn [fst snd].
    + split; [done|]. by apply digits_ok_zeros.
    + split; [done|]. split; [by vm_compute|]. left. split; [done|]. left. lia.
  - rewrite seqZ_S, fold_left_app. cbn [fold_left zsum].
    specialize (IH ltac:(lia)).
    pose proof (mul32_row_spec junk x y _ _ (0 + Z.of_nat n) IH Hx Hy ltac:(lia)) as Hr.
    rewrite Z.add_0_l in *. eapply eq_ind; [exact Hr|]. ring.
Qed.

(** The product, modulo [2^2048].  When it fits the carry is 0, unless there
    was no product to form. *)
Theorem mul32_val junk X Y : words_ok X -> words_ok Y ->
  words_ok (fst (mul32 junk X Y)) /\
  val (fst (mul32 junk X Y)) = (val X * val Y) mod BIG /\
  (0 < val X * val Y < BIG -> snd (mul32 junk X Y) = 0).
Proof.
  intros HX HY. destruct (halves_spec X HX) as [Hx Ex]. destruct (halves_spec Y HY) as [Hy Ey].
  pose proof (mul32_rows_spec junk _ _ IW2 Hx Hy ltac:(lia)) as H.
  assert (Ez : zsum (fun i => at_ (halves X) (Z.of_nat IW2 - 1 - i) * w16 i) IW2 = val X).
  { rewrite <- Ex. rewrite (digits_zsum (2 ^ 16) (halves X)), (proj1 Hx). done. }
  rewrite Ez, Ey in H. unfold mul32. destruct (fold_left _ _ _) as [z c].
  destruct H as ((Hl & Hok) & HS & q & Hq & He & Hc). cbn [fst snd] in *.
  destruct (unhalves_spec IWIDTH z Hl Hok) as (U1 & U2 & U3).
  assert (HW : words_ok (unhalves z)) by done. split; [done|]. split.
  - apply (Z.mod_unique_pos _ _ q); [by apply val_range|]. change (val (unhalves z)) with (digits32 (unhalves z)). rewrite U3. lia.
  - intros Hp. pose proof (digits_range (2 ^ 16) ltac:(lia) z Hok) as Hr.
    rewrite Hl, <- BIG_w16 in Hr. assert (q = 0) by nia.
    destruct Hc as [[_ Hc]|Hc]; lia.
Qed.

(** ** Loops with a bound *)
Section upto.
Context {S : Type} (cond : S -> bool) (body : S -> S).

Lemma upto_stop k s : cond s = false -> upto k cond body s = s.
Proof using Type. intros H. induction k as [|k IH]; cbn; [by rewrite H|]. by rewrite IH, H. Qed.

Lemma upto_ind (Q : S -> Prop) k s : Q s -> (forall s, Q s -> cond s = true -> Q (body s)) ->
  Q (upto k cond body s).
Proof using Type.
  intros Hs Hb. revert s Hs. induction k as [|k IH]; intros s Hs; cbn.
  - destruct (cond s) eqn:E; auto.
  - specialize (IH s Hs) as H1. destruct (cond _) eqn:E; auto.
Qed.

Lemma upto_once k s : cond (body s) = false ->
  upto k cond body s = if cond s then body s else s.
Proof using Type.
  intros Hb. destruct (cond s) eqn:E; [|by apply upto_stop].
  induction k as [|k IH]; cbn; [by rewrite E|]. by rewrite IH, Hb.
Qed.

(** A loop whose measure falls at every turn ends before its bound. *)
Lemma upto_ends (Q : S -> Prop) (m : S -> Z) k s : Q s ->
  (forall s, Q s -> cond s = true -> Q (body s)) ->
  (forall s, Q s -> 0 <= m s) -> (forall s, Q s -> cond s = true -> m (body s) < m s) ->
  m s < 2 ^ Z.of_nat k -> cond (upto k cond body s) = false.
Proof using Type.
  intros Hs Hb H0 Hd.
  assert (H : forall k s, Q s -> cond (upto k cond body s) = false \/
            m (upto k cond body s) <= m s - 2 ^ Z.of_nat k).
  { clear k s Hs. intros k. induction k as [|k IH]; intros s Hs.
    - cbn. destruct (cond s) eqn:E; [|by left]. right. specialize (Hd s Hs E). lia.
    - cbn [upto]. destruct (cond (upto k cond body s)) eqn:E; [|by left].
      assert (Hq : Q (upto k cond body s)) by (by apply upto_ind).
      destruct (IH s Hs) as [H|H]; [congruence|].
      destruct (IH _ Hq) as [H'|H']; [by left|]. right.
      rewrite Nat2Z.inj_succ, Z.pow_succ_r by lia. lia. }
  intros Hk. destruct (H k s Hs) as [H1|H1]; [done|].
  assert (Hq : Q (upto k cond body s)) by (by apply upto_ind).
  specialize (H0 _ Hq). lia.
Qed.
End upto.

(** ** The table of powers *)

Definition pow_ok (pow128 : list Z) : Prop := length pow128 = KWIDTH /\ digits_ok (2 ^ 32) pow128.

Lemma of_pow128_spec p : pow_ok p ->
  words_ok (of_pow128 p) /\ val (of_pow128 p) = digits32 p /\ 0 <= digits32 p < 2 ^ 128.
Proof.
  intros [Hl H]. unfold of_pow128, val. rewrite digits_zeros. split; [split|split; [done|]].
  - rewrite length_app, repeat_length, Hl. done.
  - apply Forall_app. split; [|done]. by apply digits_ok_zeros.
  - pose proof (digits_range (2 ^ 32) ltac:(lia) p H) as Hr.
    rewrite Hl, <- Z.pow_mul_r in Hr by lia. exact Hr.
Qed.

(** What a table entry has to be, for numbers that leave room to square. *)
Definition HALF : Z := 2 ^ 1024.
Definition entry_ok (g p : Z) (i : nat) (T : list Z) : Prop :=
  words_ok T /\ val T < HALF /\ val T mod p = g ^ (2 ^ Z.of_nat i) mod p.
Definition table_ok (g p : Z) (Tb : Tbuf) : Prop :=
  (t_maxi Tb < KBITS)%nat /\
  forall i, (i <= t_maxi Tb)%nat -> entry_ok g p i (nth i (t_Tb Tb) []).

Section power.
Context (G P : list Z) (HG : words_ok G) (HP : words_ok P).
Context (Hp : 0 < val P < HALF) (Hg : val G < HALF).
Local Abbreviation g := (val G).
Local Abbreviation p := (val P).

Lemma mulmod M T : words_ok M -> words_ok T -> val M < HALF -> val T < HALF ->
  words_ok (reduce (fst (mul32 0 M T)) (Some P)) /\
  val (reduce (fst (mul32 0 M T)) (Some P)) = (val M * val T) mod p.
Proof using HP Hp.
  intros HM HT Hm Ht. destruct (mul32_val 0 M T HM HT) as (H1 & H2 & _).
  pose proof (val_range M HM). pose proof (val_range T HT).
  assert (HB : HALF * HALF = BIG) by done.
  cbn [reduce]. destruct (mod32_val _ P H1 HP ltac:(lia)) as [H3 H4]. split; [done|].
  rewrite H4, H2. f_equal. apply Z.mod_small. nia.
Qed.

Context (Hnz : forall n, 0 <= n -> g ^ n mod p <> 0).

Lemma prepow32f_loop_spec junk n maxi Tb last : (maxi + n < KBITS)%nat ->
  length Tb = S maxi -> nth maxi Tb [] = last ->
  (forall i, (i <= maxi)%nat -> entry_ok g p i (nth i Tb [])) ->
  let r := prepow32f_loop junk (Some P) n maxi Tb last in
  t_maxi r = (maxi + n)%nat /\ table_ok g p r.
Proof using HP Hp Hnz.
  revert maxi Tb last. induction n as [|n IH]; intros maxi Tb last Hn Hl Hlast Hent.
  - cbn [prepow32f_loop]. unfold table_ok. cbn [t_maxi t_Tb]. split; [lia|]. split; [lia|done].
  - cbn [prepow32f_loop]. pose proof (Hent maxi ltac:(lia)) as (E1 & E2 & E3). rewrite Hlast in *.
    destruct (mul32_val (junk (S maxi)) last last E1 E1) as (M1 & M2 & M3).
    pose proof (val_range last E1) as Hr. assert (HB : HALF * HALF = BIG) by done.
    assert (Hpos : 0 < val last).
    { destruct (decide (val last = 0)) as [H0|]; [|lia]. exfalso.
      rewrite H0, Z.mod_0_l in E3 by lia. eapply Hnz; [|symmetry; exact E3]. lia. }
    rewrite (Z.mod_small (val last * val last)) in M2 by nia.
    specialize (M3 ltac:(nia)). destruct (mul32 _ _ _) as [T c]. cbn [fst snd] in *. subst c.
    rewrite Z.eqb_refl. cbn [reduce]. destruct (mod32_val T P M1 HP ltac:(lia)) as [T1 T2].
    assert (Hnew : entry_ok g p (S maxi) (mod32 T P)).
    { split; [done|]. pose proof (Z.mod_pos_bound (val T) p ltac:(lia)).
      split; [rewrite T2; lia|]. rewrite T2, M2, Z.mod_mod by lia.
      rewrite Zmult_mod, E3, <- Zmult_mod, <- Z.pow_add_r by lia.
      do 2 f_equal. rewrite Nat2Z.inj_succ, Z.pow_succ_r by lia. lia. }
    replace (maxi + S n)%nat with (S maxi + n)%nat by lia. apply IH; [lia| | |].
    + rewrite length_app, Hl. cbn. lia.
    + rewrite app_nth2, Hl, Nat.sub_diag by lia. done.
    + intros i Hi. destruct (decide (i = S maxi)) as [->|].
      * rewrite app_nth2, Hl, Nat.sub_diag by lia. done.
      * rewrite app_nth1 by lia. apply Hent. lia.
Qed.

Lemma prepow32f_spec junk pow : pow_ok pow ->
  let r := prepow32f junk G (Some P) pow in
  table_ok g p r /\ digits32 pow < 2 ^ (Z.of_nat (t_maxi r) + 1).
Proof using HG HP Hp Hg Hnz.
  intros Hpow. destruct (of_pow128_spec pow Hpow) as (H1 & H2 & H3). unfold prepow32f.
  destruct (zerobits_spec _ H1) as (B1 & B2 & B3). rewrite H2 in *.
  change (Z.of_nat IWIDTH * 32) with 2048. set (z := zerobits _) in *.
  assert (Hb : 2048 - z <= 128).
  { destruct (decide (digits32 pow = 0)) as [H0|H0].
    - unfold z, of_pow128 in *. destruct Hpow as [Hl Hok].
      assert (E : pow = repeat 0 KWIDTH).
      { apply (digits_inj (2 ^ 32)); [lia|by rewrite repeat_length|done| |by rewrite H0, digits_repeat0].
        by apply digits_ok_zeros. }
      rewrite E. vm_compute. congruence.
    - destruct (B3 H0) as [_ B4].
      assert (2047 - z < 128); [|lia]. apply (Z.pow_lt_mono_r_iff 2); lia. }
  destruct (prepow32f_loop_spec junk (Z.to_nat (2048 - z - 1)) 0 [cpy32 G] (cpy32 G)) as [R1 R2];
    [unfold KBITS; lia|done|done| |].
  - intros i Hi. replace i with O by lia. cbn. split; [done|]. split; [done|].
    by rewrite Z.pow_1_r.
  - split; [done|]. rewrite R1. eapply Z.lt_le_trans; [exact B2|]. apply Z.pow_le_mono_r; lia.
Qed.

(** A table read from the file is one that [putcache] wrote there. *)
Definition cache_ok (cache : option Tbuf) : Prop :=
  match cache with
  | Some Tb => exists junk, Tb = prepow32f junk G (Some P) ones128
  | None => True
  end.

Lemma prepow32_spec junk isDH cache pow : pow_ok pow -> cache_ok cache ->
  let r := prepow32 junk isDH cache G (Some P) pow in
  table_ok g p r /\ digits32 pow < 2 ^ (Z.of_nat (t_maxi r) + 1).
Proof using HG HP Hp Hg Hnz.
  intros Hpow Hc. unfold prepow32.
  assert (Hones : forall junk, let r := prepow32f junk G (Some P) ones128 in
            table_ok g p r /\ digits32 pow < 2 ^ (Z.of_nat (t_maxi r) + 1)).
  { intros junk'. destruct (prepow32f_spec junk' ones128) as [O1 O2].
    { split; [done|]. repeat constructor; lia. }
    split; [done|]. eapply Z.lt_le_trans; [apply (proj2 (proj2 (of_pow128_spec pow Hpow)))|].
    change (digits32 ones128) with (2 ^ 128 - 1) in O2. cbv zeta in O2. cbv zeta. lia. }
  destruct isDH; [|by apply prepow32f_spec].
  destruct cache as [Tb|]; [|apply Hones]. destruct Hc as [junk' ->].
  destruct (0 <? _)%nat; apply Hones.
Qed.

(** The loop: [M * g^R] does not change modulo [p]. *)
Definition loop_inv (K : Z) (s : pstate) : Prop :=
  words_ok (p_M s) /\ val (p_M s) < HALF /\ words_ok (p_R s) /\
  (val (p_M s) * g ^ val (p_R s)) mod p = K mod p.

Lemma pow_cond_val N s : words_ok N -> words_ok (p_R s) -> pow_cond N s = (val N <=? val (p_R s)).
Proof using Type.
  intros HN HR. unfold pow_cond. rewrite cmp32_val by done.
  destruct (Z.ltb_spec (val (p_R s)) (val N)), (Z.ltb_spec (val N) (val (p_R s)));
    destruct (Z.leb_spec (val N) (val (p_R s))); done || lia.
Qed.

Lemma pow_turn_inv K i Ti N s : entry_ok g p i Ti -> words_ok N -> val N = 2 ^ Z.of_nat i ->
  loop_inv K s -> val N <= val (p_R s) ->
  loop_inv K (pow_turn (Some P) Ti N s) /\
  val (p_R (pow_turn (Some P) Ti N s)) = val (p_R s) - val N.
Proof using HP Hp.
  intros (E1 & E2 & E3) HN Hv (HM & Hm & HR & He) Hle.
  unfold pow_turn, loop_inv. cbn [p_M p_R].
  destruct (mulmod (p_M s) Ti HM E1 Hm E2) as [M1 M2].
  rewrite sub32_le by done. split; [|done]. split; [done|].
  pose proof (Z.mod_pos_bound (val (p_M s) * val Ti) p ltac:(lia)).
  split; [rewrite M2; lia|]. split; [by apply sub32_ok|].
  rewrite M2, <- He, Z.mul_mod_idemp_l by lia. rewrite <- Z.mul_assoc.
  replace (val (p_R s)) with (2 ^ Z.of_nat i + (val (p_R s) - val N)) at 2 by lia.
  rewrite Z.pow_add_r by lia. rewrite !Z.mul_assoc.
  rewrite Zmult_mod, (Z.mul_mod (val (p_M s)) (val Ti)) by lia.
  rewrite E3, <- (Z.mul_mod (val (p_M s))) by lia. by rewrite <- Zmult_mod.
Qed.

(** One entry of the table is used once at most. *)
Lemma pow_stage K i Ti N s : entry_ok g p i Ti -> words_ok N -> val N = 2 ^ Z.of_nat i ->
  loop_inv K s -> val (p_R s) < 2 * val N ->
  let s1 := upto KBITS (pow_cond N) (pow_turn (Some P) Ti N) s in
  pow_cond N s1 = false /\ loop_inv K s1 /\ val (p_R s1) < val N /\
  p_nmul s <= p_nmul s1 <= p_nmul s + 1.
Proof using HP Hp.
  intros He HN Hv Hs Hlt. assert (HR : words_ok (p_R s)) by apply Hs.
  destruct (Z.leb_spec (val N) (val (p_R s))) as [Hle|Hgt].
  - destruct (pow_turn_inv K i Ti N s He HN Hv Hs Hle) as [T1 T2].
    assert (Hc : pow_cond N (pow_turn (Some P) Ti N s) = false).
    { rewrite pow_cond_val; [apply Z.leb_gt; lia|done|apply T1]. }
    rewrite upto_once by done. rewrite (pow_cond_val N s) by done.
    rewrite (proj2 (Z.leb_le _ _)) by done. cbv zeta. rewrite T2.
    split; [done|]. split; [done|]. cbn [pow_turn p_nmul]. lia.
  - assert (Hc : pow_cond N s = false) by (rewrite pow_cond_val by done; apply Z.leb_gt; lia).
    rewrite upto_stop by done. cbv zeta. split; [done|]. split; [done|]. lia.
Qed.

Lemma powmod32_loop_unfold Q Tb n N s :
  powmod32_loop Q Tb n N s =
  let s := upto KBITS (pow_cond N) (pow_turn Q (nth n Tb []) N) s in
  if pow_cond N s then None
  else match n with O => Some s | S n => powmod32_loop Q Tb n (shiftR32 N 1) s end.
Proof using Type. by destruct n. Qed.

Lemma half_pow N n : words_ok N -> val N = 2 ^ Z.of_nat (S n) ->
  words_ok (shiftR32 N 1) /\ val (shiftR32 N 1) = 2 ^ Z.of_nat n.
Proof using Type.
  intros HN Hv. destruct (shiftR32_val N 1 ltac:(lia) HN) as [H1 H2]. split; [done|].
  rewrite H2, Hv, Nat2Z.inj_succ, Z.pow_succ_r by lia. change (2 ^ 1) with 2.
  symmetry. apply (Z.div_unique_pos _ _ _ 0); lia.
Qed.

Lemma powmod32_loop_spec K Tb n N s :
  (forall i, (i <= n)%nat -> entry_ok g p i (nth i Tb [])) ->
  words_ok N -> val N = 2 ^ Z.of_nat n -> loop_inv K s -> val (p_R s) < 2 * val N ->
  exists s', powmod32_loop (Some P) Tb n N s = Some s' /\ loop_inv K s' /\
    val (p_R s') = 0 /\ p_nmul s <= p_nmul s' <= p_nmul s + Z.of_nat n + 1.
Proof using HP Hp.
  revert N s. induction n as [|n IH]; intros N s Hent HN Hv Hs Hlt;
    rewrite powmod32_loop_unfold; cbv zeta;
    destruct (pow_stage K _ _ N s (Hent _ (Nat.le_refl _)) HN Hv Hs Hlt) as (Hc & I1 & L1 & C1);
    rewrite Hc; set (s1 := upto _ _ _ s) in *; pose proof (val_range _ (proj1 (proj2 (proj2 I1)))).
  - exists s1. split; [done|]. split; [done|]. change (2 ^ Z.of_nat 0) with 1 in Hv. lia.
  - destruct (half_pow N n HN Hv) as [HN' Hv'].
    destruct (IH (shiftR32 N 1) s1) as (s' & S1 & S2 & S3 & S4); [|done|done|done| |].
    + intros i Hi. apply Hent. lia.
    + rewrite Hv', <- Z.pow_succ_r, <- Nat2Z.inj_succ by lia. by rewrite <- Hv.
    + exists s'. split; [done|]. split; [done|]. split; [done|]. lia.
Qed.

Lemma one_spec : words_ok (repeat 0 LSI ++ [1]) /\ val (repeat 0 LSI ++ [1]) = 1.
Proof using Type.
  split; [|vm_compute; done]. split; [done|]. apply Forall_app. split; [|repeat constructor; lia].
  by apply digits_ok_zeros.
Qed.

Lemma powmod32_spec junk isDH cache pow : pow_ok pow -> cache_ok cache ->
  exists M n, powmod32 junk isDH cache G (Some P) pow = Some (M, n) /\
    words_ok M /\ val M = g ^ digits32 pow mod p /\ 0 <= n <= Z.of_nat KBITS.
Proof using HG HP Hp Hg Hnz.
  intros Hpow Hc. unfold powmod32.
  destruct (prepow32_spec junk isDH cache pow Hpow Hc) as [[T1 T2] T3].
  set (Tb := prepow32 _ _ _ _ _ _) in *. destruct one_spec as [O1 O2].
  destruct (of_pow128_spec pow Hpow) as (R1 & R2 & R3).
  destruct (shiftL32N_val (repeat 0 LSI ++ [1]) (Z.of_nat (t_maxi Tb)) ltac:(lia) O1) as [N1 N2].
  rewrite O2, Z.mul_1_l in N2.
  assert (Hpw : 2 ^ Z.of_nat (t_maxi Tb) < BIG).
  { apply Z.pow_lt_mono_r; [lia..|]. unfold KBITS in T1. lia. }
  rewrite Z.mod_small in N2 by lia.
  destruct (powmod32_loop_spec (g ^ digits32 pow) (t_Tb Tb) (t_maxi Tb)
              (shiftL32N (repeat 0 LSI ++ [1]) (Z.of_nat (t_maxi Tb)))
              (PState (repeat 0 LSI ++ [1]) (of_pow128 pow) 0)) as (s' & S1 & S2 & S3 & S4);
    [done|done|done| | |].
  - split; [done|]. cbn [p_M p_R]. rewrite O2. split; [done|]. split; [done|].
    by rewrite Z.mul_1_l, R2.
  - cbn [p_R]. rewrite R2, N2, <- Z.pow_succ_r by lia. done.
  - destruct S2 as (M1 & M2 & M3 & M4). rewrite S3, Z.pow_0_r, Z.mul_1_r in M4.
    cbn [p_nmul] in S4. rewrite S1. cbn [mbind option_bind reduce].
    destruct (mod32_val (p_M s') P M1 HP ltac:(lia)) as [F1 F2].
    exists (mod32 (p_M s') P), (p_nmul s'). split; [done|]. split; [done|].
    split; [by rewrite F2|]. unfold KBITS in *. lia.
Qed.
End power.

(** ** The loop ends, whatever the numbers are *)

Definition rest_ok (s : pstate) : Prop := words_ok (p_R s) /\ val (p_R s) < 2 ^ 128.

Lemma rest_turn P Ti N s : words_ok N -> 0 < val N -> rest_ok s -> pow_cond N s = true ->
  rest_ok (pow_turn P Ti N s) /\ val (p_R (pow_turn P Ti N s)) = val (p_R s) - val N.
Proof.
  intros HN Hv [HR Hs] Hc. rewrite pow_cond_val in Hc by done. apply Z.leb_le in Hc.
  unfold rest_ok. cbn [pow_turn p_R]. rewrite sub32_le by done.
  split; [|done]. split; [by apply sub32_ok|]. lia.
Qed.

Lemma stage_ends P Ti N s : words_ok N -> 0 < val N -> rest_ok s ->
  let s1 := upto KBITS (pow_cond N) (pow_turn P Ti N) s in
  pow_cond N s1 = false /\ rest_ok s1.
Proof.
  intros HN Hv Hs. split.
  - apply (upto_ends _ _ rest_ok (fun s => val (p_R s))); [done|..|apply Hs].
    + intros s' H' Hc. by apply rest_turn.
    + intros s' [H' _]. by apply val_range.
    + intros s' H' Hc. rewrite (proj2 (rest_turn P Ti N s' HN Hv H' Hc)). lia.
  - apply upto_ind; [done|]. intros s' H' Hc. by apply rest_turn.
Qed.

Lemma powmod32_loop_ends P Tb n N s : words_ok N -> val N = 2 ^ Z.of_nat n -> rest_ok s ->
  is_Some (powmod32_loop P Tb n N s).
Proof.
  revert N s. induction n as [|n IH]; intros N s HN Hv Hs; rewrite powmod32_loop_unfold; cbv zeta;
    match goal with |- context [nth ?i Tb []] =>
      destruct (stage_ends P (nth i Tb []) N s HN ltac:(rewrite Hv; lia) Hs) as [Hc H1] end;
    rewrite Hc.
  - eauto.
  - destruct (half_pow N n HN Hv) as [HN' Hv']. by apply IH.
Qed.

Lemma prepow32f_loop_maxi junk P n maxi Tb last :
  (t_maxi (prepow32f_loop junk P n maxi Tb last) <= maxi + n)%nat.
Proof.
  revert maxi Tb last. induction n as [|n IH]; intros maxi Tb last; cbn [prepow32f_loop]; [cbn; lia|].
  destruct (mul32 _ _ _) as [T c]. destruct (c =? 0); [|cbn; lia].
  specialize (IH (S maxi) (Tb ++ [reduce T P]) (reduce T P)). lia.
Qed.

Lemma start_spec n : (n < 2048)%nat ->
  let N := shiftL32N (repeat 0 LSI ++ [1]) (Z.of_nat n) in
  words_ok N /\ val N = 2 ^ Z.of_nat n.
Proof.
  intros Hn. destruct one_spec as [O1 O2].
  destruct (shiftL32N_val (repeat 0 LSI ++ [1]) (Z.of_nat n) ltac:(lia) O1) as [N1 N2].
  rewrite O2, Z.mul_1_l in N2. split; [done|]. rewrite N2. apply Z.mod_small.
  split; [lia|]. apply Z.pow_lt_mono_r; lia.
Qed.

Lemma prepow32_maxi junk isDH cache G P pow : pow_ok pow ->
  (match cache with Some Tb => (t_maxi Tb < 2048)%nat | None => True end) ->
  (t_maxi (prepow32 junk isDH cache G P pow) < 2048)%nat.
Proof.
  intros Hp Hc.
  assert (H : forall pow, pow_ok pow -> (t_maxi (prepow32f junk G P pow) < 2048)%nat).
  { intros q Hq. unfold prepow32f.
    destruct (zerobits_spec _ (proj1 (of_pow128_spec q Hq))) as (B1 & _ & _).
    change (Z.of_nat IWIDTH * 32) with 2048.
    pose proof (prepow32f_loop_maxi junk P (Z.to_nat (2048 - zerobits (of_pow128 q) - 1)) 0
                  [cpy32 G] (cpy32 G)). lia. }
  assert (Hones : pow_ok ones128) by (split; [done|repeat constructor; lia]).
  unfold prepow32. destruct isDH; [|by apply H]. destruct cache as [Tb|]; [|by apply H].
  destruct (0 <? _)%nat; [done|by apply H].
Qed.

(** [powmod32] returns, for any numbers and any modulus. *)
Theorem powmod32_returns junk isDH cache G P pow : pow_ok pow ->
  (match cache with Some Tb => (t_maxi Tb < 2048)%nat | None => True end) ->
  is_Some (powmod32 junk isDH cache G P pow).
Proof.
  intros Hpow Hc. unfold powmod32. pose proof (prepow32_maxi junk isDH cache G P pow Hpow Hc) as Hm.
  set (Tb := prepow32 _ _ _ _ _ _) in *. destruct (start_spec (t_maxi Tb) Hm) as [N1 N2].
  destruct (of_pow128_spec pow Hpow) as (R1 & R2 & R3).
  edestruct (powmod32_loop_ends P (t_Tb Tb) (t_maxi Tb) _ (PState (repeat 0 LSI ++ [1]) (of_pow128 pow) 0)
               N1 N2) as [s' ->].
  - split; cbn [p_R]; [done|]. rewrite R2. lia.
  - cbn. eauto.
Qed.

(** But it may take as many multiplications as the exponent is large: when the
    square of [G] does not fit, the table has one entry, and the power is a
    product of [G]s one by one. *)
Lemma upto_count P Ti N s c : words_ok N -> val N = 1 -> rest_ok s -> val (p_R s) + p_nmul s = c ->
  let s1 := upto KBITS (pow_cond N) (pow_turn P Ti N) s in
  p_nmul s1 = c.
Proof.
  intros HN Hv Hs Hn. destruct (stage_ends P Ti N s HN ltac:(lia) Hs) as [H1 H2].
  set (s1 := upto _ _ _ s) in *. cbv zeta.
  assert (H3 : rest_ok s1 /\ val (p_R s1) + p_nmul s1 = c).
  { apply (upto_ind _ _ (fun s => rest_ok s /\ val (p_R s) + p_nmul s = c)); [done|].
    intros s' [Hs' Hn'] Hc. destruct (rest_turn P Ti N s' HN ltac:(lia) Hs' Hc) as [T1 T2].
    split; [done|]. rewrite T2. cbn [pow_turn p_nmul]. lia. }
  destruct H3 as [[H3 _] H4]. rewrite pow_cond_val in H1 by done. apply Z.leb_gt in H1.
  pose proof (val_range _ H3). lia.
Qed.

Lemma powmod32_slow junk G P pow : pow_ok pow ->
  snd (mul32 (junk 1%nat) G G) <> 0 ->
  exists M, powmod32 junk false None G P pow = Some (M, digits32 pow).
Proof.
  intros Hpow Hc. unfold powmod32.
  assert (H0 : t_maxi (prepow32 junk false None G P pow) = O).
  { cbn [prepow32]. unfold prepow32f. destruct (Z.to_nat _); [done|]. cbn [prepow32f_loop].
    unfold cpy32. destruct (mul32 _ G G) as [T c]. cbn [snd] in Hc.
    rewrite (proj2 (Z.eqb_neq _ _)) by done. done. }
  rewrite H0, powmod32_loop_unfold. cbv zeta. destruct (start_spec 0 ltac:(lia)) as [N1 N2].
  cbv zeta in *. set (N := shiftL32N _ _) in *. change (2 ^ Z.of_nat 0) with 1 in N2.
  destruct (of_pow128_spec pow Hpow) as (R1 & R2 & R3).
  set (s := PState _ _ _). assert (Hs : rest_ok s) by (split; cbn [s p_R]; [done|rewrite R2; lia]).
  destruct (stage_ends P (nth 0 (t_Tb (prepow32 junk false None G P pow)) []) N s N1 ltac:(lia) Hs) as [H1 _].
  rewrite H1. cbn [mbind option_bind]. eexists. f_equal. f_equal.
  apply upto_count; [done|done|done|]. cbn [s p_R p_nmul]. rewrite R2. lia.
Qed.

(** A public key of 252 octets, which the message has room for, does that. *)
Definition long_key : list Z := 0 :: repeat 0xFFFFFFFF 63.
Lemma long_key_slow junk P pow : pow_ok pow ->
  exists M, powmod32 junk false None long_key P pow = Some (M, digits32 pow).
Proof.
  intros Hpow. apply powmod32_slow; [done|].
  assert (H : snd (mul32 0 long_key long_key) <> 0) by (vm_compute; congruence).
  assert (E : forall j, snd (mul32 j long_key long_key) = snd (mul32 0 long_key long_key)).
  { intros j. vm_compute. done. }
  by rewrite E.
Qed.

(** ** The power *)

Lemma coprime_pow g p n : Z.gcd g p = 1 -> 0 <= n -> Z.gcd (g ^ n) p = 1.
Proof.
  intros Hg Hn. by apply Z.coprime_pow_l.
Qed.

Lemma coprime_nonzero g p : 1 < p -> Z.gcd g p = 1 -> forall n, 0 <= n -> g ^ n mod p <> 0.
Proof.
  intros Hp Hg n Hn H0. pose proof (coprime_pow g p n Hg Hn) as H.
  rewrite Z.gcd_comm, <- Z.gcd_mod, H0, Z.gcd_0_l in H by lia. lia.
Qed.

(** C39. Modular exponentiation is correct: for numbers of up to 1024 bits,
    [G] prime to the modulus, any exponent of 128 bits and any content of the
    variable that is not set, [powmod32] returns [G^pow mod P], with the table
    computed or read from the cache, after at most 128 multiplications. *)
Theorem powmod32_correct junk isDH cache G P pow :
  words_ok G -> words_ok P -> 1 < val P < 2 ^ 1024 -> val G < 2 ^ 1024 ->
  Z.gcd (val G) (val P) = 1 -> pow_ok pow -> cache_ok G P cache ->
  exists M n, powmod32 junk isDH cache G (Some P) pow = Some (M, n) /\
    words_ok M /\ val M = val G ^ digits32 pow mod val P /\ 0 <= n <= 128.
Proof.
  intros HG HP Hp Hg Hc Hpow Hcache.
  apply (powmod32_spec G P HG HP); try done; [unfold HALF; lia|].
  apply coprime_nonzero; [lia|done].
Qed.

Definition small (n : Z) : list Z := repeat 0 LSI ++ [n].
Lemma small_ok n : 0 <= n < 2 ^ 32 -> words_ok (small n) /\ val (small n) = n.
Proof.
  intros Hn. split.
  - split; [done|]. apply Forall_app. split; [by apply digits_ok_zeros|constructor; [lia|constructor]].
  - unfold val, small. rewrite digits_zeros. cbn. lia.
Qed.

Lemma powmod32_correct_witness :
  exists M n, powmod32 (fun _ => 5) false None (small 3) (Some (small 1000003)) [0; 0; 1; 7] = Some (M, n) /\
    words_ok M /\ val M = val (small 3) ^ digits32 [0; 0; 1; 7] mod val (small 1000003) /\ 0 <= n <= 128.
Proof.
  apply powmod32_correct; try (apply small_ok; lia); try done.
  split; [done|repeat constructor; lia].
Defined.
