(* ===== verification/Credhy.v ===== *)
(** * The CREDHY protocol ([rary/credhy.cpp])

    Two sides agree on a key by the method of Diffie and Hellman and encrypt a
    stream with it: [DH_init], [DH_Lkey], [DH_Gkey], the texts of keys
    ([dump32b], [scan32b], [strtoHex], [hextoStr]), the messages
    of the keys ([CredhyInit], [CredhyGenerateKey], [CredhyAgreedKey]), the
    cipher ([CredhyEncrypt], [CredhyDecrypt], [CredhyAddkey]), and its form for
    passwords ([CredhyAencrypt], [CredhyAdecrypt]).

    The static variables [DH_G], [DH_P] and [DH_Px] are the record [dh]; the
    struct [Credhy] is a record of the same name.  What the code asks outside
    is the record [cr_env]: the table in the cache file, the octets of
    [/dev/urandom] (or of the clock and the process number), what a variable
    that is not set holds.  The table [CRC8a] may have been read from a file,
    so it is an argument, too.  A key in a buffer is the list of the octets in
    the buffer; to read behind it has no result.  Whether the output of the
    cipher goes over its input is an argument ([same]), as it matters. *)
From S2P Require Import Prelude Cksum Rc4 Bignum Strings.
From stdpp Require Import options.

(** ** The groups *)

Definition Pt : list Z := [103078511].
Definition P0 : list Z :=
  [0x80000000;0x00000000;0x00000000;0x00000000;
   0x00000000;0x00000000;0x00000000;0x00000547].
Definition P1 : list Z :=
  [0xFFFFFFFF;0xFFFFFFFF;0xC90FDAA2;0x2168C234;
   0xC4C6628B;0x80DC1CD1;0x29024E08;0x8A67CC74;
   0x020BBEA6;0x3B139B22;0x514A0879;0x8E3404DD;
   0xEF9519B3;0xCD3A431B;0x302B0A6D;0xF25F1437;
   0x4FE1356D;0x6D51C245;0xE485B576;0x625E7EC6;
   0xF44C42E9;0xA63A3620;0xFFFFFFFF;0xFFFFFFFF].
Definition P2 : list Z :=
  [0xFFFFFFFF;0xFFFFFFFF;0xC90FDAA2;0x2168C234;
   0xC4C6628B;0x80DC1CD1;0x29024E08;0x8A67CC74;
   0x020BBEA6;0x3B139B22;0x514A0879;0x8E3404DD;
   0xEF9519B3;0xCD3A431B;0x302B0A6D;0xF25F1437;
   0x4FE1356D;0x6D51C245;0xE485B576;0x625E7EC6;
   0xF44C42E9;0xA637ED6B;0x0BFF5CB6;0xF406B7ED;
   0xEE386BFB;0x5A899FA5;0xAE9F2411;0x7C4B1FE6;
   0x49286651;0xECE65381;0xFFFFFFFF;0xFFFFFFFF].
Definition PX : list (list Z) := [P0; P1; P2; Pt].

Record dh := DH { DH_G : list Z; DH_P : list Z; DH_Px : Z }.

(** The modulus goes to the end of [DH_P]; the loop that clears the rest
    starts with [i] below 0, so what was in front stays. *)
Definition DH_init (grp : Z) (st : dh) : dh :=
  if at_ (DH_G st) (Z.of_nat LSI) =? 2 then st
  else
    let G := set_ (repeat 0 IWIDTH) (Z.of_nat LSI) 2 in
    let grp := if (grp <? 0) || (3 <? grp) then 3 else grp in
    let p := nth (Z.to_nat grp) PX [] in
    DH G (take (IWIDTH - length p) (DH_P st) ++ p) grp.

(** ** What is asked outside *)
Record cr_env := CrEnv {
  e_junk : nat -> Z;            (* [carry] of [mul32] when it is not set *)
  e_cache : option Tbuf;        (* what [getcache] reads *)
  e_rand : Z * Z                (* the two words of [DH_rand64] *)
}.

Definition DH_Lkey (env : cr_env) (st : dh) (rand : list Z) : option (list Z * dh) :=
  let st := DH_init 2 st in
  r ← powmod32 (e_junk env) true (e_cache env) (DH_G st) (Some (DH_P st)) rand;
  Some (fst r, st).
Definition DH_Gkey (env : cr_env) (st : dh) (Y rand : list Z) : option (list Z * dh) :=
  let st := DH_init 2 st in
  r ← powmod32 (e_junk env) false None Y (Some (DH_P st)) rand;
  Some (fst r, st).

(** ** Numbers as octets *)

(** [dump32b]: the octets of the words from the first that is not zero on, up
    to [siz] of them; [k] are written already. *)
Definition dump_word (siz k i1 : Z) : list Z :=
  take (Z.to_nat (siz - k)) (map (fun j => Z.land 0xFF (Z.shiftr i1 (8 * (3 - j)))) (seqZ 0 4)).
Fixpoint dump32b_loop (N : list Z) (on1 siz k : Z) : list Z :=
  match N with
  | [] => []
  | n :: N =>
      let on1 := Z.lor on1 n in
      if on1 =? 0 then dump32b_loop N on1 siz k
      else let w := dump_word siz k n in w ++ dump32b_loop N on1 siz (k + zlen w)
  end.
Definition dump32b (N : list Z) (siz : Z) : list Z := dump32b_loop N 0 siz 0.

(** [scan32b]: the words from the last on, each of up to four octets from the
    end of the string; [s] is the string backwards. *)
Fixpoint scan_word (n : nat) (j i1 : Z) (s : list Z) : Z * list Z :=
  match n with
  | O => (i1, s)
  | S n =>
      match s with
      | [] => (i1, s)
      | c :: s => scan_word n (j + 1) (Z.lor i1 (Z.shiftl c (8 * j))) s
      end
  end.
Fixpoint scan32b_loop (n : nat) (s X : list Z) : list Z :=
  match n with
  | O => X
  | S n => let '(i1, s) := scan_word 4 0 0 s in scan32b_loop n s (i1 :: X)
  end.
Definition scan32b (str : list Z) : list Z := scan32b_loop IWIDTH (rev str) [].

(** [strtoHex]: the text is cut to fit, and empty when it would fill the
    buffer; the writing goes from the end, so [out] may be [str]. *)
Definition hex2 (ch : Z) : list Z :=
  [hexUpper (Z.land 0xF (Z.shiftr ch 4)); hexUpper (Z.land 0xF ch)].
Definition strtoHex (str : list Z) (siz : Z) : list Z :=
  let len := zlen str in
  let len := if siz <? len * 2 then siz / 2 - 1 else len in
  if siz - 1 <=? 2 * (len - 1) + 1 then []
  else flat_map hex2 (take (Z.to_nat len) str).
Definition FromXD (xch : Z) : Z :=
  if (48 <=? xch) && (xch <=? 57) then xch - 48
  else if (65 <=? xch) && (xch <=? 70) then xch - 65 + 10
  else if (97 <=? xch) && (xch <=? 102) then xch - 97 + 10 else -1.
Fixpoint hextoStr (hex : list Z) (siz : Z) : list Z :=
  if siz <=? 0 then []
  else
    match hex with
    | h0 :: h1 :: hex =>
        let ch := Z.lor (Z.shiftl (FromXD h0) 4) (FromXD h1) in
        if ch <? 0 then [] else uchar ch :: hextoStr hex (siz - 1)
    | _ => []
    end.

(** ** Keys *)

Record Credhy := mkCredhy {
  k_group : Z; k_flags : Z; k_crc8 : Z; k_idx : Z; k_leng : Z;
  k_myrand : list Z; k_lcrc8 : Z; k_rcrc8 : Z; k_str : list Z
}.
Definition K_STR_SIZE : Z := 128.

Definition bzero_Credhy : Credhy := mkCredhy 0 0 0 0 0 (repeat 0 4) 0 0 (repeat 0 128).
Definition CredhyInit (grp : Z) (st : dh) : Credhy * dh :=
  let st := DH (repeat 0 IWIDTH) (repeat 0 IWIDTH) (DH_Px st) in
  let st := DH_init grp st in
  (mkCredhy grp 0 0 0 0 (repeat 0 4) 0 0 (repeat 0 128), st).

Definition set_myrand (K : Credhy) (r : list Z) : Credhy :=
  mkCredhy (k_group K) (k_flags K) (k_crc8 K) (k_idx K) (k_leng K) r
    (k_lcrc8 K) (k_rcrc8 K) (k_str K).
Definition DH_rand64 (env : cr_env) (K : Credhy) : Credhy :=
  set_myrand K [0; 0; fst (e_rand env); snd (e_rand env)].

(** The octets of a message are [CRC8 :: length :: key]. *)
Definition CredhyGenerateKey (env : cr_env) (K : Credhy) (st : dh) (siz : Z)
    : option (Credhy * dh * list Z) :=
  let K := if at_ (k_myrand K) 3 =? 0 then DH_rand64 env K else K in
  '(M, st) ← DH_Lkey env st (k_myrand K);
  let key := dump32b M (siz - 2) in
  let body := uchar (zlen key) :: key in
  let crc := uchar (strCRC8 0 body) in
  Some (mkCredhy (k_group K) (k_flags K) (k_crc8 K) (k_idx K) (k_leng K) (k_myrand K)
          crc (k_rcrc8 K) (k_str K), st, crc :: body).

(** [n] octets of a buffer. *)
Definition octets (buf : list Z) (from n : Z) : option (list Z) :=
  if from + n <=? zlen buf then Some (take (Z.to_nat n) (drop (Z.to_nat from) buf)) else None.

Definition CredhyAgreedKey (env : cr_env) (K : Credhy) (st : dh) (ykey : list Z)
    : option (Credhy * dh * Z) :=
  hd ← octets ykey 0 2;
  let scrc := Z.land 0xFF (at_ hd 0) in
  let slen := Z.land 0xFF (at_ hd 1) in
  body ← octets ykey 1 (1 + slen);
  let rcrc := strCRC8 0 body in
  let K := mkCredhy (k_group K) (k_flags K) (k_crc8 K) (k_idx K) (k_leng K) (k_myrand K)
             (k_lcrc8 K) (at_ hd 0) (k_str K) in
  if negb (rcrc =? scrc) then Some (K, st, -1)
  else
    let X := scan32b (tl body) in
    '(M, st) ← DH_Gkey env st X (k_myrand K);
    let sint := dump32b M 512 in
    let crc8 := strCRC8 0 sint in
    r ← powmod32 (e_junk env) false None M (Some (DH_P st)) [0; 0; 0; crc8];
    let key := dump32b (fst r) K_STR_SIZE in
    Some (mkCredhy (k_group K) (k_flags K) crc8 0 (zlen key) (k_myrand K) (k_lcrc8 K) (k_rcrc8 K)
            (key ++ drop (length key) (k_str K)), st, 0).

(** ** The cipher *)

Definition CR_AKFIRST : Z := 1.
Definition CR_CRC32 : Z := 2.
Definition flag (K : Credhy) (f : Z) : bool := negb (Z.land (k_flags K) f =? 0).

Definition set_idx (K : Credhy) (idx : Z) : Credhy :=
  mkCredhy (k_group K) (k_flags K) (k_crc8 K) idx (k_leng K) (k_myrand K)
    (k_lcrc8 K) (k_rcrc8 K) (k_str K).
Definition set_crc8 (K : Credhy) (crc8 : Z) : Credhy :=
  mkCredhy (k_group K) (k_flags K) crc8 (k_idx K) (k_leng K) (k_myrand K)
    (k_lcrc8 K) (k_rcrc8 K) (k_str K).

(** [CredhyAddkey]: [op] 0 is exclusive or, 1 and -1 add and subtract. *)
Fixpoint Addkey_loop (kp : list Z) (kl op kx : Z) (str : list Z) : Z * list Z :=
  match str with
  | [] => (kx, [])
  | c :: str =>
      let k := at_ kp kx in
      let c := if op =? 0 then Z.lxor c k
               else if op =? 1 then uchar (c + k)
               else if op =? -1 then uchar (c - k) else c in
      let kx := if kl <=? kx + 1 then 0 else kx + 1 in
      let '(kx, str) := Addkey_loop kp kl op kx str in
      (kx, c :: str)
  end.
Definition CredhyAddkey (K : Credhy) (op : Z) (str : list Z) : Credhy * list Z :=
  let '(kx, str) := Addkey_loop (k_str K) (k_leng K) op (k_idx K) str in
  (set_idx K kx, str).

Section cipher.
Context (CRC8a : list (list Z)).

Definition next_crc (K : Credhy) (crc8 ch : Z) : Z :=
  if flag K CR_CRC32 then strCRC32add crc8 [ch] else CRC8 CRC8a crc8 ch.

Fixpoint encrypt_loop (K : Credhy) (crc8 : Z) (src : list Z) : Z * list Z :=
  match src with
  | [] => (crc8, [])
  | ch :: src =>
      let e := uchar (Z.lxor ch crc8) in
      let '(crc8, enc) := encrypt_loop K (next_crc K crc8 ch) src in
      (crc8, e :: enc)
  end.
(** [enc] is what the output holds before, unless it is the input itself. *)
Definition CredhyEncrypt (K : Credhy) (same : bool) (src enc : list Z) : Credhy * list Z :=
  let crc8 := k_crc8 K in
  let '(K, src) :=
    if flag K CR_AKFIRST
    then let '(K, enc) := CredhyAddkey K 0 (if same then src else enc) in
         (K, if same then enc else src)
    else (K, src) in
  let '(crc8, enc) := encrypt_loop K crc8 src in
  let K := set_crc8 K crc8 in
  if negb (flag K CR_AKFIRST) then CredhyAddkey K 0 enc else (K, enc).

Fixpoint decrypt_loop (K : Credhy) (crc8 : Z) (enc : list Z) : Z * list Z :=
  match enc with
  | [] => (crc8, [])
  | e :: enc =>
      let ch := uchar (Z.lxor e crc8) in
      let '(crc8, src) := decrypt_loop K (next_crc K crc8 ch) enc in
      (crc8, ch :: src)
  end.
(** The results are what [src] holds; with the key first the key is taken off
    the input buffer [enc], so [src] has it only when it is that buffer. *)
Definition CredhyDecrypt (K : Credhy) (same : bool) (enc : list Z) : Credhy * list Z :=
  let '(K, enc) := if negb (flag K CR_AKFIRST) then CredhyAddkey K 0 enc else (K, enc) in
  let '(crc8, src) := decrypt_loop K (k_crc8 K) enc in
  let K := set_crc8 K crc8 in
  if flag K CR_AKFIRST
  then let '(K, enc) := CredhyAddkey K 0 (if same then src else enc) in
       (K, if same then enc else src)
  else (K, src).
End cipher.

(** ** Passwords

    [CredhyAencrypt] puts the checksum and the length of the padding in front
    of the password, fills up to 16 octets, and writes it as text over itself;
    [esiz] is the size of the buffer, and what does not fit it has no result. *)
Definition CredhyAencrypt (CRC8a : list (list Z)) (K : Credhy) (src : list Z) (esiz : Z)
    : option (Credhy * list Z) :=
  let len := zlen src in
  let plen := 16 - (2 + len) mod 16 in
  if esiz <? 2 + len + plen then None
  else
    let enc := uchar (strCRC8 0 src) :: uchar plen :: src ++ repeat 0 (Z.to_nat plen) in
    let '(K, enc) := CredhyEncrypt CRC8a K true enc [] in
    Some (K, strtoHex enc esiz).
(** The length, or -1, and the password. *)
Definition CredhyAdecrypt (CRC8a : list (list Z)) (K : Credhy) (enc : list Z) (dsiz : Z)
    : option (Credhy * Z * list Z) :=
  let dec := hextoStr enc dsiz in
  let xlen := zlen dec in
  let '(K, dec) := CredhyDecrypt CRC8a K true dec in
  hd ← octets dec 0 2;
  let xcrc := Z.land 0xFF (at_ hd 0) in
  let plen := Z.land 0xFF (at_ hd 1) in
  let len := xlen - 2 - plen in
  if (len <? 0) || (dsiz <? len) then Some (K, -1, [])
  else
    dec ← octets dec 2 len;
    let crc := strCRC8 0 dec in
    if negb (crc =? xcrc) then Some (K, -1, []) else Some (K, len, dec).
