(* ===== verification/CredhySpec.v ===== *)
(** * What the CREDHY protocol promises

    The cipher gives back what was encrypted, in whatever pieces the stream
    is read ([cipher_roundtrip]); keys as octets are read as they are written
    ([scan_dump]); two sides that exchange their messages hold the same key
    ([credhy_agreement]), and then understand each other ([credhy_session]). *)
From Stdlib Require Import Znumtheory.
From S2P Require Import Prelude Cksum Rc4 Bignum Strings Credhy.
From stdpp Require Import options.

(** ** Transducers of octets *)
Section mealy.
Context {S : Type}.

Fixpoint mealy (f : S -> Z -> S * Z) (s : S) (l : list Z) : S * list Z :=
  match l with
  | [] => (s, [])
  | c :: l =>
      let '(s, o) := f s c in
      let '(s, os) := mealy f s l in
      (s, o :: os)
  end.

Lemma mealy_app f s a b :
  mealy f s (a ++ b) =
  let '(s, oa) := mealy f s a in let '(s, ob) := mealy f s b in (s, oa ++ ob).
Proof using Type.
  revert s. induction a as [|c a IH]; intros s; cbn [app mealy].
  - by destruct (mealy f s b).
  - destruct (f s c) as [s' o]. rewrite IH. destruct (mealy f s' a) as [s'' oa].
    by destruct (mealy f s'' b).
Qed.

Lemma mealy_inv f g s l : bytes_ok l ->
  (forall s c, byte_ok c -> g s (snd (f s c)) = (fst (f s c), c)) ->
  mealy g s (snd (mealy f s l)) = (fst (mealy f s l), l).
Proof using Type.
  intros H Hi. revert s. induction H as [|c l Hc _ IH]; intros s; [done|].
  specialize (Hi s c Hc). cbn [mealy]. destruct (f s c) as [s' o] eqn:E. cbn [fst snd] in Hi.
  specialize (IH s'). destruct (mealy f s' l) as [s'' os]. cbn [fst snd mealy] in *.
  by rewrite Hi, IH.
Qed.
End mealy.

(** ** The cipher octet by octet *)
Section cipher.
Context (T : list (list Z)).

Definition adv (K : Credhy) (kx : Z) : Z := if k_leng K <=? kx + 1 then 0 else kx + 1.
Definition enc_octet (K : Credhy) (s : Z * Z) (ch : Z) : (Z * Z) * Z :=
  let '(crc, kx) := s in
  let k := at_ (k_str K) kx in
  if flag K CR_AKFIRST
  then let t := Z.lxor ch k in ((next_crc T K crc t, adv K kx), uchar (Z.lxor t crc))
  else ((next_crc T K crc ch, adv K kx), Z.lxor (uchar (Z.lxor ch crc)) k).
Definition dec_octet (K : Credhy) (s : Z * Z) (e : Z) : (Z * Z) * Z :=
  let '(crc, kx) := s in
  let k := at_ (k_str K) kx in
  if flag K CR_AKFIRST
  then let t := uchar (Z.lxor e crc) in ((next_crc T K crc t, adv K kx), Z.lxor t k)
  else let ch := uchar (Z.lxor (Z.lxor e k) crc) in ((next_crc T K crc ch, adv K kx), ch).

Definition state_of (K : Credhy) : Z * Z := (k_crc8 K, k_idx K).
Definition with_state (K : Credhy) (s : Z * Z) : Credhy := set_idx (set_crc8 K (fst s)) (snd s).

(** The two passes over a piece are one. *)
Lemma encrypt_then_key K crc kx src : flag K CR_AKFIRST = false ->
  let '(crc', enc) := encrypt_loop T K crc src in
  let '(kx', out) := Addkey_loop (k_str K) (k_leng K) 0 kx enc in
  mealy (enc_octet K) (crc, kx) src = ((crc', kx'), out).
Proof using Type.
  intros Hf. revert crc kx. induction src as [|c src IH]; intros crc kx; [done|].
  cbn [encrypt_loop mealy]. unfold enc_octet at 1. rewrite Hf.
  specialize (IH (next_crc T K crc c) (adv K kx)).
  destruct (encrypt_loop _ _ _ _) as [crc' enc]. cbn [Addkey_loop]. fold (adv K kx).
  destruct (Addkey_loop _ _ _ _ enc) as [kx' out]. by rewrite IH.
Qed.

Lemma key_then_encrypt K crc kx src : flag K CR_AKFIRST = true ->
  let '(kx', enc) := Addkey_loop (k_str K) (k_leng K) 0 kx src in
  let '(crc', out) := encrypt_loop T K crc enc in
  mealy (enc_octet K) (crc, kx) src = ((crc', kx'), out).
Proof using Type.
  intros Hf. revert crc kx. induction src as [|c src IH]; intros crc kx; [done|].
  cbn [Addkey_loop mealy]. unfold enc_octet at 1. rewrite Hf. fold (adv K kx).
  specialize (IH (next_crc T K crc (Z.lxor c (at_ (k_str K) kx))) (adv K kx)).
  destruct (Addkey_loop _ _ _ _ src) as [kx' enc].
  change (0 =? 0) with true. cbn match. cbn [encrypt_loop].
  destruct (encrypt_loop _ _ _ enc) as [crc' out]. by rewrite IH.
Qed.

Lemma key_then_decrypt K crc kx enc : flag K CR_AKFIRST = false ->
  let '(kx', t) := Addkey_loop (k_str K) (k_leng K) 0 kx enc in
  let '(crc', out) := decrypt_loop T K crc t in
  mealy (dec_octet K) (crc, kx) enc = ((crc', kx'), out).
Proof using Type.
  intros Hf. revert crc kx. induction enc as [|c enc IH]; intros crc kx; [done|].
  cbn [Addkey_loop mealy]. unfold dec_octet at 1. rewrite Hf. fold (adv K kx).
  set (ch := uchar (Z.lxor (Z.lxor c (at_ (k_str K) kx)) crc)).
  specialize (IH (next_crc T K crc ch) (adv K kx)).
  destruct (Addkey_loop _ _ _ _ enc) as [kx' t].
  change (0 =? 0) with true. cbn match. cbn [decrypt_loop]. fold ch.
  destruct (decrypt_loop _ _ _ t) as [crc' out]. by rewrite IH.
Qed.

Lemma decrypt_then_key K crc kx enc : flag K CR_AKFIRST = true ->
  let '(crc', t) := decrypt_loop T K crc enc in
  let '(kx', out) := Addkey_loop (k_str K) (k_leng K) 0 kx t in
  mealy (dec_octet K) (crc, kx) enc = ((crc', kx'), out).
Proof using Type.
  intros Hf. revert crc kx. induction enc as [|c enc IH]; intros crc kx; [done|].
  cbn [decrypt_loop mealy]. unfold dec_octet at 1. rewrite Hf.
  specialize (IH (next_crc T K crc (uchar (Z.lxor c crc))) (adv K kx)).
  destruct (decrypt_loop _ _ _ enc) as [crc' t]. cbn [Addkey_loop]. fold (adv K kx).
  destruct (Addkey_loop _ _ _ _ t) as [kx' out]. by rewrite IH.
Qed.

Lemma encrypt_loop_idx K kx crc l : encrypt_loop T (set_idx K kx) crc l = encrypt_loop T K crc l.
Proof using Type.
  revert crc. induction l as [|c l IH]; intros crc; [done|]. cbn [encrypt_loop].
  change (next_crc T (set_idx K kx) crc c) with (next_crc T K crc c). by rewrite IH.
Qed.
Lemma decrypt_loop_idx K kx crc l : decrypt_loop T (set_idx K kx) crc l = decrypt_loop T K crc l.
Proof using Type.
  revert crc. induction l as [|c l IH]; intros crc; [done|]. cbn [decrypt_loop].
  change (next_crc T (set_idx K kx) crc) with (next_crc T K crc). by rewrite IH.
Qed.

(** Where the key goes first the output has to be the input buffer. *)
Definition buffer_ok (K : Credhy) (same : bool) : bool := same || negb (flag K CR_AKFIRST).

Lemma CredhyEncrypt_mealy K same src enc : buffer_ok K same = true ->
  CredhyEncrypt T K same src enc =
  let '(s, out) := mealy (enc_octet K) (state_of K) src in (with_state K s, out).
Proof using Type.
  intros Hb. unfold CredhyEncrypt, CredhyAddkey, state_of. unfold buffer_ok in Hb.
  destruct (flag K CR_AKFIRST) eqn:Hf.
  - destruct same; [|done]. pose proof (key_then_encrypt K (k_crc8 K) (k_idx K) src Hf) as H.
    destruct (Addkey_loop _ _ _ _ src) as [kx' t].
    rewrite encrypt_loop_idx.
    destruct (encrypt_loop T K _ t) as [crc' out]. rewrite H.
    change (flag (set_crc8 (set_idx K kx') crc') CR_AKFIRST) with (flag K CR_AKFIRST).
    by rewrite Hf.
  - pose proof (encrypt_then_key K (k_crc8 K) (k_idx K) src Hf) as H.
    destruct (encrypt_loop T K _ src) as [crc' t].
    change (flag (set_crc8 K crc') CR_AKFIRST) with (flag K CR_AKFIRST). rewrite Hf. cbn [negb].
    cbn [set_crc8 k_str k_leng k_idx]. destruct (Addkey_loop _ _ _ _ t) as [kx' out]. by rewrite H.
Qed.

Lemma CredhyDecrypt_mealy K same enc : buffer_ok K same = true ->
  CredhyDecrypt T K same enc =
  let '(s, out) := mealy (dec_octet K) (state_of K) enc in (with_state K s, out).
Proof using Type.
  intros Hb. unfold CredhyDecrypt, CredhyAddkey, state_of. unfold buffer_ok in Hb.
  destruct (flag K CR_AKFIRST) eqn:Hf; cbn [negb].
  - destruct same; [|done]. pose proof (decrypt_then_key K (k_crc8 K) (k_idx K) enc Hf) as H.
    destruct (decrypt_loop T K _ enc) as [crc' t].
    change (flag (set_crc8 K crc') CR_AKFIRST) with (flag K CR_AKFIRST). rewrite Hf.
    cbn [set_crc8 k_str k_leng k_idx]. destruct (Addkey_loop _ _ _ _ t) as [kx' out]. by rewrite H.
  - pose proof (key_then_decrypt K (k_crc8 K) (k_idx K) enc Hf) as H.
    destruct (Addkey_loop _ _ _ _ enc) as [kx' t].
    change (k_crc8 (set_idx K kx')) with (k_crc8 K).
    rewrite decrypt_loop_idx.
    destruct (decrypt_loop T K _ t) as [crc' out]. rewrite H.
    change (flag (set_crc8 (set_idx K kx') crc') CR_AKFIRST) with (flag K CR_AKFIRST).
    by rewrite Hf.
Qed.

(** One octet there and back. *)
Lemma uchar_lxor_twice c crc : byte_ok c -> uchar (Z.lxor (uchar (Z.lxor c crc)) crc) = c.
Proof using Type.
  intros Hc. rewrite <- (uchar_small c) at 2 by done. unfold uchar. change 256 with (2 ^ 8).
  rewrite <- !Z.land_ones by done. apply Z.bits_inj'. intros i Hi.
  rewrite !Z.land_spec, !Z.lxor_spec, !Z.land_spec, !Z.lxor_spec.
  by destruct (Z.testbit c i), (Z.testbit crc i), (Z.testbit (Z.ones 8) i).
Qed.

Lemma at_byte l i : bytes_ok l -> byte_ok (at_ l i).
Proof using Type.
  intros H. unfold at_, byte_ok. destruct (decide (Z.to_nat i < length l)%nat) as [Hi|Hi].
  - unfold bytes_ok in H. rewrite Forall_nth in H. by apply H.
  - rewrite nth_overflow by lia. lia.
Qed.

Lemma octet_inv K s c : bytes_ok (k_str K) -> byte_ok c ->
  dec_octet K s (snd (enc_octet K s c)) = (fst (enc_octet K s c), c).
Proof using Type.
  intros HK Hc. destruct s as [crc kx]. unfold enc_octet, dec_octet.
  pose proof (at_byte (k_str K) kx HK) as Hk. set (k := at_ _ _) in *.
  destruct (flag K CR_AKFIRST); cbn [fst snd].
  - rewrite uchar_lxor_twice by (by apply byte_lxor).
    by rewrite Z.lxor_assoc, Z.lxor_nilpotent, Z.lxor_0_r.
  - rewrite (Z.lxor_assoc _ k k), Z.lxor_nilpotent, Z.lxor_0_r.
    by rewrite uchar_lxor_twice.
Qed.

(** As the code notes, encrypting takes back what decrypting did. *)
Lemma octet_inv' K s e : bytes_ok (k_str K) -> byte_ok e ->
  enc_octet K s (snd (dec_octet K s e)) = (fst (dec_octet K s e), e).
Proof using Type.
  intros HK He. destruct s as [crc kx]. unfold enc_octet, dec_octet.
  pose proof (at_byte (k_str K) kx HK) as Hk. set (k := at_ _ _) in *.
  destruct (flag K CR_AKFIRST); cbn [fst snd].
  - rewrite (Z.lxor_assoc _ k k), Z.lxor_nilpotent, Z.lxor_0_r. by rewrite uchar_lxor_twice.
  - rewrite uchar_lxor_twice by (by apply byte_lxor).
    by rewrite (Z.lxor_assoc e k k), Z.lxor_nilpotent, Z.lxor_0_r.
Qed.

Theorem encrypt_takes_back K same e enc : bytes_ok (k_str K) -> buffer_ok K same = true -> bytes_ok e ->
  snd (CredhyEncrypt T K same (snd (CredhyDecrypt T K same e)) enc) = e.
Proof using Type.
  intros HK Hb He. rewrite CredhyEncrypt_mealy, CredhyDecrypt_mealy by done.
  pose proof (mealy_inv (dec_octet K) (enc_octet K) (state_of K) e He
                (fun s c => octet_inv' K s c HK)) as H.
  destruct (mealy (dec_octet K) (state_of K) e) as [s o]. cbn [snd] in *. rewrite H. done.
Qed.

(** As many octets as there were. *)
Lemma enc_octet_byte K s c : bytes_ok (k_str K) -> byte_ok (snd (enc_octet K s c)).
Proof using Type.
  intros HK. destruct s as [crc kx]. unfold enc_octet. pose proof (at_byte (k_str K) kx HK).
  destruct (flag K CR_AKFIRST); cbn [snd]; [apply Z.mod_pos_bound; lia|].
  apply byte_lxor; [apply Z.mod_pos_bound; lia|done].
Qed.

Lemma encrypt_octets K same src enc : buffer_ok K same = true -> bytes_ok (k_str K) -> bytes_ok src ->
  zlen (snd (CredhyEncrypt T K same src enc)) = zlen src /\
  bytes_ok (snd (CredhyEncrypt T K same src enc)).
Proof using Type.
  intros Hb HK Hs. rewrite CredhyEncrypt_mealy by done. generalize (state_of K). intros s.
  assert (Hl : zlen (snd (mealy (enc_octet K) s src)) = zlen src /\
               bytes_ok (snd (mealy (enc_octet K) s src))).
  { revert s. induction Hs as [|c l Hc _ IH]; intros s; [by split; [|constructor]|]. cbn [mealy].
    pose proof (enc_octet_byte K s c HK) as Ho. destruct (enc_octet K s c) as [s' o].
    destruct (IH s') as [I1 I2]. destruct (mealy _ s' l) as [s'' os]. cbn [snd] in *.
    rewrite !zlen_cons, I1. split; [done|by constructor]. }
  by destruct (mealy (enc_octet K) s src).
Qed.

(** ** Streams in pieces *)
Fixpoint encrypts (K : Credhy) (same : bool) (ps : list (list Z)) : Credhy * list (list Z) :=
  match ps with
  | [] => (K, [])
  | p :: ps =>
      let '(K, o) := CredhyEncrypt T K same p [] in
      let '(K, os) := encrypts K same ps in
      (K, o :: os)
  end.
Fixpoint decrypts (K : Credhy) (same : bool) (ps : list (list Z)) : Credhy * list (list Z) :=
  match ps with
  | [] => (K, [])
  | p :: ps =>
      let '(K, o) := CredhyDecrypt T K same p in
      let '(K, os) := decrypts K same ps in
      (K, o :: os)
  end.

Lemma encrypts_mealy K same ps : buffer_ok K same = true ->
  fst (encrypts K same ps) = with_state K (fst (mealy (enc_octet K) (state_of K) (concat ps))) /\
  concat (snd (encrypts K same ps)) = snd (mealy (enc_octet K) (state_of K) (concat ps)).
Proof using Type.
  revert K. induction ps as [|p ps IH]; intros K Hb; [by destruct K|].
  cbn [encrypts concat]. rewrite CredhyEncrypt_mealy, mealy_app by done.
  destruct (mealy (enc_octet K) (state_of K) p) as [s o].
  destruct (IH (with_state K s) Hb) as [H1 H2].
  change (enc_octet (with_state K s)) with (enc_octet K) in *.
  replace (state_of (with_state K s)) with s in * by (by destruct s).
  destruct (encrypts (with_state K s) same ps) as [K' os].
  destruct (mealy (enc_octet K) s (concat ps)) as [s' os']. cbn [fst snd concat] in *.
  by rewrite H1, H2.
Qed.

Lemma decrypts_mealy K same ps : buffer_ok K same = true ->
  fst (decrypts K same ps) = with_state K (fst (mealy (dec_octet K) (state_of K) (concat ps))) /\
  concat (snd (decrypts K same ps)) = snd (mealy (dec_octet K) (state_of K) (concat ps)).
Proof using Type.
  revert K. induction ps as [|p ps IH]; intros K Hb; [by destruct K|].
  cbn [decrypts concat]. rewrite CredhyDecrypt_mealy, mealy_app by done.
  destruct (mealy (dec_octet K) (state_of K) p) as [s o].
  destruct (IH (with_state K s) Hb) as [H1 H2].
  change (dec_octet (with_state K s)) with (dec_octet K) in *.
  replace (state_of (with_state K s)) with s in * by (by destruct s).
  destruct (decrypts (with_state K s) same ps) as [K' os].
  destruct (mealy (dec_octet K) s (concat ps)) as [s' os']. cbn [fst snd concat] in *.
  by rewrite H1, H2.
Qed.

(** What two contexts have to share to understand each other. *)
Definition same_cipher (A B : Credhy) : Prop :=
  k_flags A = k_flags B /\ k_crc8 A = k_crc8 B /\ k_idx A = k_idx B /\
  k_leng A = k_leng B /\ k_str A = k_str B.

Lemma same_cipher_octet A B : same_cipher A B -> dec_octet B = dec_octet A.
Proof using Type.
  destruct A, B. intros (H1 & _ & _ & H2 & H3). cbn in *. by subst.
Qed.

Theorem cipher_roundtrip A B same ps qs : same_cipher A B -> bytes_ok (k_str A) ->
  buffer_ok A same = true -> bytes_ok (concat ps) ->
  concat qs = concat (snd (encrypts A same ps)) ->
  concat (snd (decrypts B same qs)) = concat ps /\
  same_cipher (fst (encrypts A same ps)) (fst (decrypts B same qs)).
Proof using Type.
  intros HAB HK Hb Hp Hq.
  assert (HbB : buffer_ok B same = true).
  { unfold buffer_ok, flag in *. by rewrite <- (proj1 HAB). }
  destruct (encrypts_mealy A same ps Hb) as [E1 E2].
  destruct (decrypts_mealy B same qs HbB) as [D1 D2].
  rewrite (same_cipher_octet A B HAB), Hq, E2 in D1, D2.
  assert (Hs : state_of B = state_of A).
  { unfold state_of. destruct HAB as (_ & -> & -> & _). done. }
  rewrite Hs in D1, D2.
  rewrite mealy_inv in D1, D2 by (done || (intros; by apply octet_inv)).
  rewrite E1, D1, D2. split; [done|].
  destruct HAB as (H1 & H2 & H3 & H4 & H5). by repeat split.
Qed.
End cipher.

(** ** Numbers as octets *)

Definition be4 (n : Z) : list Z := map (fun j => Z.land 0xFF (Z.shiftr n (8 * (3 - j)))) (seqZ 0 4).

Lemma be4_spec n : 0 <= n < 2 ^ 32 -> bytes_ok (be4 n) /\ digits 256 (be4 n) = n.
Proof.
  intros Hn.
  assert (E : be4 n = map (fun k => (n / 2 ^ k) mod 256) [24; 16; 8; 0]).
  { unfold be4. cbn [map seqZ]. change (seqZ 0 4) with [0; 1; 2; 3]. cbn [map].
    rewrite !(Z.land_comm 0xFF). change 0xFF with (Z.ones 8). rewrite !Z.land_ones by done.
    rewrite !Z.shiftr_div_pow2 by done. done. }
  rewrite E. split.
  - repeat constructor; apply Z.mod_pos_bound; lia.
  - cbn. change (2 ^ 0) with 1. rewrite Z.div_1_r.
    change (2 ^ 24) with (256 * 256 * 256). change (2 ^ 16) with (256 * 256). change (2 ^ 8) with 256.
    rewrite <- !Z.div_div by lia. change (2 ^ 32) with (256 * 256 * 256 * 256) in Hn.
    pose proof (Z.div_mod n 256 ltac:(lia)). pose proof (Z.div_mod (n / 256) 256 ltac:(lia)).
    pose proof (Z.div_mod (n / 256 / 256) 256 ltac:(lia)).
    rewrite (Z.mod_small (n / 256 / 256 / 256)); [lia|].
    split; [repeat apply Z.div_pos; lia|]. repeat apply Z.div_lt_upper_bound; lia.
Qed.

Lemma be4s_spec N : digits_ok (2 ^ 32) N ->
  bytes_ok (flat_map be4 N) /\ digits 256 (flat_map be4 N) = digits32 N /\
  length (flat_map be4 N) = (4 * length N)%nat.
Proof.
  induction 1 as [|n N Hn _ (IH1 & IH2 & IH3)]; [split; [constructor|done]|].
  destruct (be4_spec n Hn) as [B1 B2]. cbn [flat_map]. split; [by apply Forall_app|]. split.
  - rewrite digits_app, digits_cons, B2, IH2, IH3. f_equal. f_equal.
    change 256 with (2 ^ 8). rewrite <- !Z.pow_mul_r by lia. f_equal. lia.
  - rewrite length_app, IH3. cbn [length]. change (length (be4 n)) with 4%nat. lia.
Qed.

Fixpoint strip (N : list Z) : list Z :=
  match N with
  | n :: N' => if n =? 0 then strip N' else N
  | [] => []
  end.

Lemma strip_spec N m : digits_ok (2 ^ 32) N -> digits32 N < 2 ^ (32 * Z.of_nat m) ->
  digits_ok (2 ^ 32) (strip N) /\ digits32 (strip N) = digits32 N /\ (length (strip N) <= m)%nat.
Proof.
  induction 1 as [|n N Hn HN IH]; intros Hlt; [cbn; repeat split; [constructor|lia]|].
  cbn [strip]. rewrite digits_cons in *.
  destruct (Z.eqb_spec n 0) as [->|H0]; [apply IH; lia|].
  split; [by constructor|]. split; [by rewrite digits_cons|]. cbn [length].
  pose proof (digits_range (2 ^ 32) ltac:(lia) N HN) as Hr.
  assert (Hp : (2 ^ 32) ^ Z.of_nat (length N) < 2 ^ (32 * Z.of_nat m)) by nia.
  rewrite <- Z.pow_mul_r in Hp by lia. apply Z.pow_lt_mono_r_iff in Hp; lia.
Qed.

Lemma dump_word_be4 siz k n : k + 4 <= siz -> dump_word siz k n = be4 n.
Proof. intros Hk. unfold dump_word. apply take_ge. change (length _) with 4%nat. lia. Qed.

Lemma dump_on N on siz k : on <> 0 -> 0 <= on -> digits_ok (2 ^ 32) N ->
  k + 4 * zlen N <= siz -> dump32b_loop N on siz k = flat_map be4 N.
Proof.
  intros H0 Hp H. revert on k H0 Hp. induction H as [|n N Hn HN IH]; intros on k H0 Hp Hk; [done|].
  rewrite zlen_cons in Hk. pose proof (zlen_nonneg N). cbn [dump32b_loop flat_map].
  assert (Hl : Z.lor on n <> 0) by (rewrite Z.lor_eq_0_iff; tauto).
  rewrite (proj2 (Z.eqb_neq _ _) Hl), dump_word_be4 by lia. f_equal.
  apply IH; [done|apply Z.lor_nonneg; lia|]. change (zlen (be4 n)) with 4. lia.
Qed.

Lemma dump_strip N siz : digits_ok (2 ^ 32) N -> 4 * zlen (strip N) <= siz ->
  dump32b N siz = flat_map be4 (strip N).
Proof.
  intros H. unfold dump32b. induction H as [|n N Hn HN IH]; intros Hs; [done|].
  cbn [dump32b_loop strip] in *. rewrite Z.lor_0_l. destruct (Z.eqb_spec n 0) as [->|H0].
  - by apply IH.
  - rewrite zlen_cons in Hs. pose proof (zlen_nonneg N). cbn [flat_map].
    rewrite dump_word_be4 by lia. f_equal. apply dump_on; [done|lia|done|].
    change (zlen (be4 n)) with 4. lia.
Qed.

(** A number that fits is written with all its octets. *)
Lemma dump_spec N m siz : words_ok N -> val N < 2 ^ (32 * Z.of_nat m) -> 4 * Z.of_nat m <= siz ->
  let o := dump32b N siz in
  bytes_ok o /\ digits 256 o = val N /\ zlen o <= 4 * Z.of_nat m.
Proof.
  intros [_ H] Hlt Hs. destruct (strip_spec N m H Hlt) as (S1 & S2 & S3).
  rewrite dump_strip by (done || unfold zlen; lia). cbv zeta.
  destruct (be4s_spec _ S1) as (B1 & B2 & B3). split; [done|]. split; [by rewrite B2|].
  unfold zlen. rewrite B3. lia.
Qed.

Lemma scan_word_spec n j i1 s : 0 <= j -> 0 <= i1 < 2 ^ (8 * j) -> bytes_ok s ->
  scan_word n j i1 s = (i1 + 2 ^ (8 * j) * digits 256 (rev (take n s)), drop n s).
Proof.
  revert j i1 s. induction n as [|n IH]; intros j i1 s Hj Hi H.
  - rewrite take_0, drop_0. cbn [scan_word rev]. change (digits 256 []) with 0. f_equal. lia.
  - destruct H as [|c s Hc H]; cbn [scan_word firstn skipn rev].
    + change (digits 256 []) with 0. f_equal. lia.
    + rewrite Z.shiftl_mul_pow2, Z.lor_comm, lor_disjoint by (lia || done).
      unfold byte_ok in Hc.
      rewrite IH; [|lia| |done].
      * rewrite digits_app. cbn [length]. rewrite Z.pow_1_r.
        replace (digits 256 [c]) with c by (unfold digits; cbn; lia).
        replace (8 * (j + 1)) with (8 * j + 8) by lia. rewrite Z.pow_add_r by lia.
        f_equal. change (2 ^ 8) with 256. ring.
      * replace (8 * (j + 1)) with (8 * j + 8) by lia. rewrite Z.pow_add_r by lia.
        change (2 ^ 8) with 256. nia.
Qed.

Lemma digits256_range s n : bytes_ok s -> (length s <= n)%nat -> 0 <= digits 256 s < 2 ^ (8 * Z.of_nat n).
Proof.
  intros H Hl. pose proof (digits_range 256 ltac:(lia) s H) as Hr.
  replace (256 ^ Z.of_nat (length s)) with (2 ^ (8 * Z.of_nat (length s))) in Hr
    by (rewrite Z.pow_mul_r by lia; done).
  split; [lia|]. eapply Z.lt_le_trans; [apply Hr|]. apply Z.pow_le_mono_r; lia.
Qed.

Lemma scan32b_loop_spec n s X : bytes_ok s -> digits_ok (2 ^ 32) X ->
  exists W, scan32b_loop n s X = W ++ X /\ length W = n /\ digits_ok (2 ^ 32) W /\
    digits32 W = digits 256 (rev (take (4 * n) s)).
Proof.
  revert s X. induction n as [|n IH]; intros s X Hs HX.
  - exists []. split; [done|]. split; [done|]. split; [constructor|]. by rewrite Nat.mul_0_r, take_0.
  - cbn [scan32b_loop]. rewrite (scan_word_spec 4 0 0 s) by (lia || done).
    change (2 ^ (8 * 0)) with 1. rewrite Z.mul_1_l, Z.add_0_l.
    set (w := digits 256 (rev (take 4 s))).
    assert (Hw : 0 <= w < 2 ^ 32).
    { apply (digits256_range _ 4); [by apply Forall_rev, Forall_take|].
      rewrite length_rev, length_take. lia. }
    destruct (IH (drop 4 s) (w :: X)) as (W & E & Hl & Ho & Hd);
      [by apply Forall_drop|by constructor|].
    exists (W ++ [w]). split; [by rewrite E, <- app_assoc|]. split; [rewrite length_app, Hl; cbn; lia|].
    split; [apply Forall_app; split; [done|constructor; [done|constructor]]|].
    rewrite digits_app, Hd. cbn [length]. rewrite Z.pow_1_r.
    replace (digits32 [w]) with w by (unfold digits; cbn; lia).
    replace (4 * S n)%nat with (4 + 4 * n)%nat by lia.
    rewrite <- take_take_drop, rev_app_distr, digits_app, length_rev, length_take.
    fold w. f_equal. destruct (decide (4 <= length s)%nat) as [H4|H4].
    + by rewrite Nat.min_l by lia.
    + rewrite (drop_ge s 4) by lia. by rewrite take_nil.
Qed.

Lemma scan_spec o : bytes_ok o -> (length o <= 256)%nat ->
  words_ok (scan32b o) /\ val (scan32b o) = digits 256 o.
Proof.
  intros Ho Hl. unfold scan32b.
  destruct (scan32b_loop_spec IWIDTH (rev o) []) as (W & E & L & D & V); [by apply Forall_rev|constructor|].
  rewrite E, app_nil_r. split; [done|]. unfold val. rewrite V.
  rewrite take_ge by (rewrite length_rev; cbn; lia). by rewrite rev_involutive.
Qed.

(** A number that was written is read again. *)
Lemma scan_dump N m siz : words_ok N -> val N < 2 ^ (32 * Z.of_nat m) -> (m <= 64)%nat ->
  4 * Z.of_nat m <= siz -> scan32b (dump32b N siz) = N.
Proof.
  intros HN Hlt Hm Hs. destruct (dump_spec N m siz HN Hlt Hs) as (D1 & D2 & D3).
  destruct (scan_spec (dump32b N siz) D1) as [S1 S2]; [unfold zlen in D3; lia|].
  apply val_inj; [done|done|]. by rewrite S2.
Qed.

(** ** The agreement *)

(** The static variables after [CredhyInit]. *)
Record dh_ok (st : dh) : Prop := {
  dh_G : words_ok (DH_G st); dh_G2 : val (DH_G st) = 2; dh_set : DH_init 2 st = st;
  dh_P : words_ok (DH_P st); dh_range : 1 < val (DH_P st) < 2 ^ 1024;
  dh_prime_to_2 : Z.gcd 2 (val (DH_P st)) = 1
}.

Definition init_dh (grp : Z) : dh := snd (CredhyInit grp (DH [] [] 0)).

Lemma CredhyInit_dh grp st0 : CredhyInit grp st0 =
  (mkCredhy grp 0 0 0 0 (repeat 0 4) 0 0 (repeat 0 128), init_dh grp).
Proof. done. Qed.

Lemma group_cases grp : exists n, (n < 4)%nat /\ init_dh grp = init_dh (Z.of_nat n).
Proof.
  destruct (decide (0 <= grp <= 3)) as [H|H].
  - exists (Z.to_nat grp). split; [lia|]. by rewrite Z2Nat.id by lia.
  - exists 3%nat. split; [lia|].
    assert (E : (if (grp <? 0) || (3 <? grp) then 3 else grp) = 3).
    { destruct (Z.ltb_spec grp 0); [done|]. destruct (Z.ltb_spec 3 grp); [done|lia]. }
    unfold init_dh, CredhyInit. cbn [snd]. unfold DH_init.
    change (at_ (DH_G (DH (repeat 0 IWIDTH) (repeat 0 IWIDTH) _)) (Z.of_nat LSI) =? 2) with false.
    cbn match. rewrite E. done.
Qed.

Lemma init_dh_ok grp : dh_ok (init_dh grp).
Proof.
  destruct (group_cases grp) as (n & Hn & ->).
  assert (Hw : forall st, (bool_decide (words_ok (DH_G st)) && (val (DH_G st) =? 2) &&
    bool_decide (words_ok (DH_P st)) && (1 <? val (DH_P st)) && (val (DH_P st) <? 2 ^ 1024) &&
    (Z.gcd 2 (val (DH_P st)) =? 1) && (at_ (DH_G st) (Z.of_nat LSI) =? 2)) = true -> dh_ok st).
  { intros st H. zprop. repeat match goal with H : bool_decide _ = true |- _ => apply bool_decide_eq_true in H end.
    constructor; try done. unfold DH_init.
    by rewrite H0. }
  apply Hw. do 4 (destruct n as [|n]; [vm_compute; done|]). lia.
Qed.

(** What the outside may answer. *)
Definition env_ok (env : cr_env) (st : dh) : Prop :=
  0 <= fst (e_rand env) < 2 ^ 32 /\ 0 <= snd (e_rand env) < 2 ^ 32 /\
  cache_ok (DH_G st) (DH_P st) (e_cache env).

Section agreement.
Context (st : dh) (Hst : dh_ok st).
Local Abbreviation p := (val (DH_P st)).

(** Numbers that are sent: powers of 2. *)
Definition sent (M : list Z) : Prop :=
  words_ok M /\ val M < 2 ^ 1024 /\ Z.gcd (val M) p = 1.

Lemma power_sent M g e : words_ok M -> Z.gcd g p = 1 -> 0 <= e -> val M = g ^ e mod p -> sent M.
Proof using Hst.
  destruct Hst. intros HM Hg He Hv. split; [done|].
  pose proof (Z.mod_pos_bound (g ^ e) p ltac:(lia)). split; [lia|].
  rewrite Hv, Z.gcd_mod by lia. rewrite Z.gcd_comm. by apply coprime_pow.
Qed.

Lemma Lkey_spec env rand : env_ok env st -> pow_ok rand ->
  exists M, DH_Lkey env st rand = Some (M, st) /\ sent M /\ val M = 2 ^ digits32 rand mod p.
Proof using Hst.
  intros (_ & _ & Hc) Hr. unfold DH_Lkey. rewrite (dh_set st Hst).
  destruct (powmod32_correct (e_junk env) true (e_cache env) (DH_G st) (DH_P st) rand)
    as (M & n & E & HM & Hv & _); try apply Hst; try done.
  - by rewrite (dh_G2 st Hst).
  - rewrite (dh_G2 st Hst). apply Hst.
  - rewrite (dh_G2 st Hst) in Hv. rewrite E. exists M. split; [done|]. split; [|done].
    destruct (of_pow128_spec rand Hr) as (_ & _ & R). 
    apply (power_sent M 2 (digits32 rand)); [done|apply Hst|lia|done].
Qed.

Lemma Gkey_spec env Y rand : sent Y -> pow_ok rand ->
  exists M, DH_Gkey env st Y rand = Some (M, st) /\ sent M /\ val M = val Y ^ digits32 rand mod p.
Proof using Hst.
  intros (HY & Hlt & Hg) Hr. unfold DH_Gkey. rewrite (dh_set st Hst).
  destruct (powmod32_correct (e_junk env) false None Y (DH_P st) rand)
    as (M & n & E & HM & Hv & _); try apply Hst; try done.
  rewrite E. exists M. split; [done|]. split; [|done].
  destruct (of_pow128_spec rand Hr) as (_ & _ & R).
  apply (power_sent M (val Y) (digits32 rand)); [done|done|lia|done].
Qed.

Lemma rand_pow_ok env : env_ok env st -> pow_ok [0; 0; fst (e_rand env); snd (e_rand env)].
Proof using Type.
  intros (H1 & H2 & _). split; [done|]. do 4 (constructor; [lia|]). constructor.
Qed.

(** The message with the key: its octets, and what is sent. *)
Definition key_message (M : list Z) : list Z :=
  let body := uchar (zlen (dump32b M 254)) :: dump32b M 254 in
  uchar (strCRC8 0 body) :: body.

Lemma GenerateKey_spec env K : env_ok env st -> pow_ok (k_myrand K) ->
  exists M r, pow_ok r /\ sent M /\ val M = 2 ^ digits32 r mod p /\
    CredhyGenerateKey env K st 256 =
      Some (mkCredhy (k_group K) (k_flags K) (k_crc8 K) (k_idx K) (k_leng K) r
              (hd 0 (key_message M)) (k_rcrc8 K) (k_str K), st, key_message M).
Proof using Hst.
  intros He HK. unfold CredhyGenerateKey.
  remember (if at_ (k_myrand K) 3 =? 0 then DH_rand64 env K else K) as K1 eqn:EK.
  assert (H1 : pow_ok (k_myrand K1)).
  { subst K1. destruct (_ =? 0); [|done]. by apply rand_pow_ok. }
  assert (E : K1 = set_myrand K (k_myrand K1)) by (subst K1; destruct (_ =? 0); by destruct K).
  destruct (Lkey_spec env (k_myrand K1) He H1) as (M & EM & Hs & Hv).
  exists M, (k_myrand K1). split; [done|]. split; [done|]. split; [done|].
  rewrite EM. clear EK EM. destruct K1. unfold set_myrand in E.
  injection E as -> -> -> -> -> -> -> ->. change (256 - 2) with 254. reflexivity.
Qed.

Lemma dump_sent M : sent M -> let o := dump32b M 254 in
  bytes_ok o /\ zlen o <= 128 /\ scan32b o = M.
Proof using Type.
  intros (HM & Hlt & _). destruct (dump_spec M 32 254 HM Hlt ltac:(lia)) as (D1 & D2 & D3).
  split; [done|]. split; [done|]. apply (scan_dump M 32); done || lia.
Qed.

Lemma octets_message M gb : sent M ->
  let len := zlen (dump32b M 254) in
  octets (key_message M ++ gb) 0 2 = Some (take 2 (key_message M)) /\
  octets (key_message M ++ gb) 1 (1 + len) = Some (len :: dump32b M 254) /\
  0 <= len <= 128.
Proof using Type.
  intros Hs. destruct (dump_sent M Hs) as (_ & D2 & _). unfold key_message.
  set (o := dump32b M 254) in *. pose proof (zlen_nonneg o) as H0. cbv zeta.
  rewrite !(uchar_small (zlen o)) by lia. unfold octets.
  rewrite !zlen_app, !zlen_cons. pose proof (zlen_nonneg gb).
  rewrite !(proj2 (Z.leb_le _ _)) by lia. split; [done|]. split; [|lia].
  f_equal. change (Z.to_nat 1) with 1%nat. replace (Z.to_nat (1 + zlen o)) with (S (length o)) by (unfold zlen; lia).
  cbn [app drop take]. f_equal. apply take_app_length.
Qed.

(** One side takes the other's message. *)
Lemma AgreedKey_spec env K M gb : sent M -> pow_ok (k_myrand K) ->
  exists S N, sent S /\ val S = val M ^ digits32 (k_myrand K) mod p /\
    let crc8 := strCRC8 0 (dump32b S 512) in
    words_ok N /\ val N = val S ^ crc8 mod p /\
    let key := dump32b N K_STR_SIZE in
    CredhyAgreedKey env K st (key_message M ++ gb) =
      Some (mkCredhy (k_group K) (k_flags K) crc8 0 (zlen key) (k_myrand K) (k_lcrc8 K)
              (hd 0 (key_message M)) (key ++ drop (length key) (k_str K)), st, 0).
Proof using Hst.
  intros HM HK. destruct (Gkey_spec env M (k_myrand K) HM HK) as (S & ES & HS & HvS).
  destruct (dump_spec S 32 512 (proj1 HS) (proj1 (proj2 HS)) ltac:(lia)) as (DS & _ & _).
  pose proof (strCRC8_ok 0 (dump32b S 512) ltac:(done) DS) as Hcrc. unfold byte_ok in Hcrc.
  set (crc8 := strCRC8 0 (dump32b S 512)) in *.
  destruct HS as (HS1 & HS2 & HS3).
  destruct (powmod32_correct (e_junk env) false None S (DH_P st) [0; 0; 0; crc8])
    as (N & n & EN & HN & HvN & _); try apply Hst; try done.
  { split; [done|]. do 4 (constructor; [lia|]). constructor. }
  exists S, N. split; [done|]. split; [done|]. cbv zeta. split; [done|].
  split; [by replace (digits32 [0; 0; 0; crc8]) with crc8 in HvN by (unfold digits; cbn; lia)|].
  destruct (octets_message M gb HM) as (O1 & O2 & O3).
  destruct (dump_sent M HM) as (D1 & D2 & D3).
  unfold CredhyAgreedKey. rewrite O1. cbn [mbind option_bind].
  cbv zeta in O1, O2, O3.
  assert (EL : Z.land 0xFF (at_ (take 2 (key_message M)) 1) = zlen (dump32b M 254)).
  { unfold key_message. cbn [take at_]. change (at_ [_; ?x] 1) with x.
    rewrite (uchar_small (zlen _)) by lia.
    rewrite Z.land_comm. change 0xFF with (Z.ones 8). rewrite Z.land_ones by done. apply Z.mod_small. lia. }
  rewrite EL, O2. cbn [mbind option_bind].
  assert (EC : Z.land 0xFF (at_ (take 2 (key_message M)) 0) = strCRC8 0 (zlen (dump32b M 254) :: dump32b M 254)).
  { unfold key_message. cbn [take]. change (at_ (?x :: _) 0) with x. rewrite (uchar_small (zlen _)) by lia.
    rewrite Z.land_comm. change 0xFF with (Z.ones 8). rewrite Z.land_ones by done. unfold uchar.
    rewrite Z.mod_mod by lia. apply Z.mod_small.
    apply strCRC8_ok; [done|]. constructor; [unfold byte_ok; lia|done]. }
  rewrite EC, Z.eqb_refl. cbn [negb tl]. rewrite D3.
  change (k_myrand (mkCredhy _ _ _ _ _ ?r _ _ _)) with r. rewrite ES. cbn [mbind option_bind].
  fold crc8. rewrite EN. done.
Qed.
End agreement.

(** Two sides that start in one group and get each other's message. *)
Lemma credhy_agreement st envA envB envA' envB' KA KB ga gb :
  dh_ok st -> env_ok envA st -> env_ok envB st ->
  pow_ok (k_myrand KA) -> pow_ok (k_myrand KB) ->
  k_flags KA = k_flags KB -> k_str KA = k_str KB -> bytes_ok (k_str KA) ->
  exists A1 ya B1 yb A2 B2,
    CredhyGenerateKey envA KA st 256 = Some (A1, st, ya) /\
    CredhyGenerateKey envB KB st 256 = Some (B1, st, yb) /\
    CredhyAgreedKey envA' A1 st (yb ++ gb) = Some (A2, st, 0) /\
    CredhyAgreedKey envB' B1 st (ya ++ ga) = Some (B2, st, 0) /\
    same_cipher A2 B2 /\ bytes_ok (k_str A2) /\ k_flags A2 = k_flags KA.
Proof.
  intros Hst HeA HeB HA HB Hf Hs Hok.
  destruct (GenerateKey_spec st Hst envA KA HeA HA) as (MA & rA & RA & SA & VA & EA).
  destruct (GenerateKey_spec st Hst envB KB HeB HB) as (MB & rB & RB & SB & VB & EB).
  rewrite EA, EB. do 4 eexists.
  destruct (AgreedKey_spec st Hst envA' (mkCredhy (k_group KA) (k_flags KA) (k_crc8 KA) (k_idx KA)
    (k_leng KA) rA (hd 0 (key_message MA)) (k_rcrc8 KA) (k_str KA)) MB gb SB RA)
    as (TA & NA & TA1 & TA2 & NA1 & NA2 & EA').
  destruct (AgreedKey_spec st Hst envB' (mkCredhy (k_group KB) (k_flags KB) (k_crc8 KB) (k_idx KB)
    (k_leng KB) rB (hd 0 (key_message MB)) (k_rcrc8 KB) (k_str KB)) MA ga SA RB)
    as (TB & NB & TB1 & TB2 & NB1 & NB2 & EB').
  cbn [k_myrand k_str k_flags k_group k_lcrc8] in *.
  pose proof (dh_range st Hst) as Hp.
  destruct (of_pow128_spec rA RA) as (_ & _ & XA). destruct (of_pow128_spec rB RB) as (_ & _ & XB).
  assert (HT : TA = TB).
  { apply val_inj; [apply TA1|apply TB1|]. rewrite TA2, TB2, VA, VB.
    rewrite !Z.mod_pow_l, <- !Z.pow_mul_r by lia. do 2 f_equal. lia. }
  subst TB. assert (HN : NA = NB) by (apply val_inj; [done|done|]; by rewrite NA2, NB2). subst NB.
  do 2 eexists. split; [done|]. split; [done|]. split; [exact EA'|]. split; [exact EB'|].
  assert (HNp : 0 <= val NA < 2 ^ (32 * Z.of_nat 32)).
  { rewrite NA2. pose proof (Z.mod_pos_bound (val TA ^ strCRC8 0 (dump32b TA 512)) (val (DH_P st)) ltac:(lia)).
    change (2 ^ (32 * Z.of_nat 32)) with (2 ^ 1024). lia. }
  destruct (dump_spec NA 32 K_STR_SIZE NA1 (proj2 HNp) ltac:(unfold K_STR_SIZE; lia)) as (D1 & _ & _).
  split; [by repeat split; cbn; rewrite ?Hs|]. cbn [k_str]. split; [|done].
  apply Forall_app. split; [done|]. by apply Forall_drop.
Qed.

(** C40. Two sides that start a CREDHY session in one group, each with random
    numbers of its own, and give each other the messages with their keys, agree:
    both accept, whatever is behind the messages in the buffers and whatever the
    variables that are not set hold.  What one of them then encrypts, in any
    pieces, the other decrypts, in any pieces. *)
Theorem credhy_session T grp stA stB envA envB envA' envB' ga gb same ps qs :
  env_ok envA (init_dh grp) -> env_ok envB (init_dh grp) -> bytes_ok (concat ps) ->
  exists KA KB sA sB A1 ya B1 yb A2 B2,
    CredhyInit grp stA = (KA, sA) /\ CredhyInit grp stB = (KB, sB) /\
    CredhyGenerateKey envA KA sA 256 = Some (A1, sA, ya) /\
    CredhyGenerateKey envB KB sB 256 = Some (B1, sB, yb) /\
    CredhyAgreedKey envA' A1 sA (yb ++ gb) = Some (A2, sA, 0) /\
    CredhyAgreedKey envB' B1 sB (ya ++ ga) = Some (B2, sB, 0) /\
    (concat qs = concat (snd (encrypts T A2 same ps)) -> concat (snd (decrypts T B2 same qs)) = concat ps) /\
    (concat qs = concat (snd (encrypts T B2 same ps)) -> concat (snd (decrypts T A2 same qs)) = concat ps).
Proof.
  intros HA HB Hps. rewrite !CredhyInit_dh.
  set (K0 := mkCredhy grp 0 0 0 0 (repeat 0 4) 0 0 (repeat 0 128)).
  assert (H0 : pow_ok (k_myrand K0)) by (split; [done|repeat constructor; lia]).
  assert (Hz : bytes_ok (k_str K0)) by (by apply (bool_decide_unpack _)).
  destruct (credhy_agreement (init_dh grp) envA envB envA' envB' K0 K0 ga gb (init_dh_ok grp)
              HA HB H0 H0 eq_refl eq_refl Hz)
    as (A1 & ya & B1 & yb & A2 & B2 & E1 & E2 & E3 & E4 & Hs & Hk & Hfl).
  exists K0, K0, (init_dh grp), (init_dh grp), A1, ya, B1, yb, A2, B2.
  assert (HbA : buffer_ok A2 same = true) by (unfold buffer_ok, flag; rewrite Hfl; apply orb_true_r).
  assert (HbB : buffer_ok B2 same = true).
  { unfold buffer_ok, flag in *. by rewrite <- (proj1 Hs). }
  do 6 (split; [done|]). split; intros Hq.
  - by apply (cipher_roundtrip T A2 B2 same ps qs).
  - apply (cipher_roundtrip T B2 A2 same ps qs); try done.
    + destruct Hs as (? & ? & ? & ? & ?). by repeat split.
    + by rewrite <- (proj2 (proj2 (proj2 (proj2 Hs)))).
Qed.

Lemma credhy_session_witness :
  let env r := CrEnv (fun _ => 3) None (r, r + 1) in
  exists KA KB sA sB A1 ya B1 yb A2 B2,
    CredhyInit 0 (DH [] [] 0) = (KA, sA) /\ CredhyInit 0 (DH [] [] 0) = (KB, sB) /\
    CredhyGenerateKey (env 77) KA sA 256 = Some (A1, sA, ya) /\
    CredhyGenerateKey (env 99) KB sB 256 = Some (B1, sB, yb) /\
    CredhyAgreedKey (env 1) A1 sA (yb ++ [9]) = Some (A2, sA, 0) /\
    CredhyAgreedKey (env 2) B1 sB (ya ++ []) = Some (B2, sB, 0) /\
    (concat [[1]; [2; 3]] = concat (snd (encrypts [] A2 true [cs "abc"])) ->
     concat (snd (decrypts [] B2 true [[1]; [2; 3]])) = concat [cs "abc"]) /\
    (concat [[1]; [2; 3]] = concat (snd (encrypts [] B2 true [cs "abc"])) ->
     concat (snd (decrypts [] A2 true [[1]; [2; 3]])) = concat [cs "abc"]).
Proof.
  intros env. apply credhy_session.
  - split; [cbn; lia|]. split; [cbn; lia|done].
  - split; [cbn; lia|]. split; [cbn; lia|done].
  - by apply (bool_decide_unpack _).
Defined.

(** A message of a key in which one octet is wrong is refused, and the context
    keeps its cipher. *)
Theorem corrupted_key_refused env K st a x y c gb :
  bytes_ok (a ++ x :: c) -> byte_ok y -> x <> y -> zlen (a ++ x :: c) < 256 ->
  let len := zlen (a ++ x :: c) in
  let crc := strCRC8 0 (len :: a ++ x :: c) in
  exists K', CredhyAgreedKey env K st (crc :: len :: (a ++ y :: c) ++ gb) = Some (K', st, -1) /\
    same_cipher K K'.
Proof.
  intros Hb Hy Hne Hl len crc. pose proof (zlen_nonneg (a ++ x :: c)) as H0. fold len in Hl, H0.
  assert (Hlen : zlen (a ++ y :: c) = len) by (unfold len; by rewrite !zlen_app, !zlen_cons).
  assert (Hlb : byte_ok len) by (unfold byte_ok; lia).
  assert (Hcb : byte_ok crc) by (apply strCRC8_ok; [done|by constructor]).
  unfold CredhyAgreedKey, octets. rewrite !zlen_cons, zlen_app. pose proof (zlen_nonneg gb).
  rewrite (proj2 (Z.leb_le _ _)) by lia. cbn [mbind option_bind].
  change (Z.to_nat 0) with 0%nat. change (Z.to_nat 2) with 2%nat. change (Z.to_nat 1) with 1%nat.
  cbn [drop take]. rewrite take_0. change (at_ [_; ?v] 1) with v. change (at_ [?v; _] 0) with v.
  rewrite !land_octet by done. rewrite (proj2 (Z.leb_le _ _)) by lia. cbn [mbind option_bind].
  replace (Z.to_nat (1 + len)) with (S (length (a ++ y :: c))) by (unfold zlen in Hlen; lia).
  cbn [take]. rewrite take_app_length.
  assert (Hd : strCRC8 0 (len :: a ++ y :: c) <> crc).
  { intros Hc. symmetry in Hc. revert Hc.
    apply (strCRC8_detects_octet 0 (len :: a) x y c); [done| |done|done]. by constructor. }
  rewrite (proj2 (Z.eqb_neq _ _) Hd). cbn [negb]. eexists. split; [done|]. by repeat split.
Qed.

(** The key that is added twice at the same place is no key. *)
Lemma Addkey_twice kp kl kx str : bytes_ok str ->
  snd (Addkey_loop kp kl 0 kx (snd (Addkey_loop kp kl 0 kx str))) = str.
Proof.
  intros H. revert kx. induction H as [|c str Hc _ IH]; intros kx; [done|].
  cbn [Addkey_loop]. change (0 =? 0) with true. cbn match.
  set (kx' := if kl <=? kx + 1 then 0 else kx + 1). specialize (IH kx').
  destruct (Addkey_loop kp kl 0 kx' str) as [k1 s1]. cbn [snd] in *. cbn [Addkey_loop].
  change (0 =? 0) with true. cbn match. fold kx'.
  destruct (Addkey_loop kp kl 0 kx' s1) as [k2 s2]. cbn [snd] in *. subst s2.
  by rewrite Z.lxor_assoc, Z.lxor_nilpotent, Z.lxor_0_r.
Qed.

(** ** Texts *)

Lemma hex2_back : zrange_all 256 (fun c =>
  match hex2 c with
  | [a; b] => (0 <=? Z.lor (Z.shiftl (FromXD a) 4) (FromXD b)) &&
              (uchar (Z.lor (Z.shiftl (FromXD a) 4) (FromXD b)) =? c) && (0 <? a) && (a <? 128) && (0 <? b) && (b <? 128)
  | _ => false
  end) = true.
Proof. vm_compute. done. Qed.

Lemma hex2_spec c : byte_ok c -> exists a b, hex2 c = [a; b] /\
  0 <= Z.lor (Z.shiftl (FromXD a) 4) (FromXD b) /\
  uchar (Z.lor (Z.shiftl (FromXD a) 4) (FromXD b)) = c /\ 0 < a < 128 /\ 0 < b < 128.
Proof.
  intros Hc. pose proof (zrange_all_spec 256 _ hex2_back c Hc) as H. cbv beta in H.
  destruct (hex2 c) as [|a [|b [|? ?]]]; try done. zprop. by exists a, b.
Qed.

Lemma hextoStr_hex s siz r : bytes_ok s -> zlen s <= siz -> (forall c, hd_error r = Some c -> FromXD c = -1) ->
  hextoStr (flat_map hex2 s ++ r) siz = s.
Proof.
  intros H. revert siz. induction H as [|c s Hc H IH]; intros siz Hs Hr.
  - cbn [flat_map app]. destruct r as [|x [|y r]]; cbn [hextoStr]; destruct (siz <=? 0); try done.
    rewrite (Hr x eq_refl).
    destruct (Z.ltb_spec (Z.lor (Z.shiftl (-1) 4) (FromXD y)) 0) as [Hl|Hl]; [done|].
    exfalso. apply Z.lor_nonneg in Hl as [Hl _]. change (Z.shiftl (-1) 4) with (-16) in Hl. lia.
  - rewrite zlen_cons in Hs. pose proof (zlen_nonneg s).
    destruct (hex2_spec c Hc) as (a & b & E & Hv & Hu & _). cbn [flat_map]. rewrite E.
    cbn [app hextoStr]. destruct (Z.leb_spec siz 0); [lia|].
    rewrite (proj2 (Z.ltb_ge _ _)) by done. f_equal; [done|]. apply IH; [lia|done].
Qed.

Lemma strtoHex_all s siz : 2 * zlen s < siz -> strtoHex s siz = flat_map hex2 s.
Proof.
  intros Hs. pose proof (zlen_nonneg s). unfold strtoHex.
  destruct (Z.ltb_spec siz (zlen s * 2)); [lia|].
  destruct (Z.leb_spec (siz - 1) (2 * (zlen s - 1) + 1)); [lia|].
  rewrite take_ge; [done|]. unfold zlen. lia.
Qed.

(** Octets written as text are read again; a text that would fill its buffer
    is not written at all. *)
Theorem hex_roundtrip s siz siz' : bytes_ok s -> 2 * zlen s < siz -> zlen s <= siz' ->
  hextoStr (strtoHex s siz) siz' = s.
Proof.
  intros. rewrite strtoHex_all by done. rewrite <- (app_nil_r (flat_map hex2 s)).
  by apply hextoStr_hex.
Qed.
Lemma strtoHex_full s : strtoHex s (2 * zlen s) = [].
Proof.
  unfold strtoHex. destruct (Z.ltb_spec (2 * zlen s) (zlen s * 2)); [lia|].
  destruct (Z.leb_spec (2 * zlen s - 1) (2 * (zlen s - 1) + 1)); [done|lia].
Qed.

(** A password comes back, when both sides hold the same cipher and there is
    room for the text. *)
Theorem password_roundtrip T A B src esiz dsiz :
  same_cipher A B -> bytes_ok (k_str A) -> bytes_ok src -> 
  2 * (zlen src + 18) < esiz -> zlen src + 18 <= dsiz ->
  exists A' B' text, CredhyAencrypt T A src esiz = Some (A', text) /\
    CredhyAdecrypt T B text dsiz = Some (B', zlen src, src) /\ same_cipher A' B'.
Proof.
  intros HAB HK Hs He Hd. pose proof (zlen_nonneg src) as H0. unfold CredhyAencrypt.
  pose proof (Z.mod_pos_bound (2 + zlen src) 16 ltac:(lia)) as Hm.
  set (plen := 16 - (2 + zlen src) mod 16) in *.
  destruct (Z.ltb_spec esiz (2 + zlen src + plen)); [lia|].
  pose proof (strCRC8_ok 0 src ltac:(done) Hs) as Hc. rewrite (uchar_small (strCRC8 0 src)), (uchar_small plen) by (done || lia).
  set (m := strCRC8 0 src :: plen :: src ++ repeat 0 (Z.to_nat plen)).
  assert (Hlm : zlen m = 2 + zlen src + plen).
  { unfold m. rewrite !zlen_cons, zlen_app. unfold zlen. rewrite repeat_length. lia. }
  assert (Hmb : bytes_ok m).
  { unfold m. constructor; [done|]. constructor; [unfold byte_ok; lia|]. apply Forall_app.
    split; [done|]. apply digits_ok_zeros. lia. }
  assert (Hb : buffer_ok A true = true) by done.
  pose proof (cipher_roundtrip T A B true [m] [snd (CredhyEncrypt T A true m [])] HAB HK Hb) as Hr.
  cbn [encrypts decrypts] in Hr.
  destruct (encrypt_octets T A true m [] Hb HK Hmb) as [Hlo Hob].
  destruct (CredhyEncrypt T A true m []) as [A' o] eqn:EA. cbn [snd concat] in *.
  rewrite !app_nil_r in Hr.
  destruct (CredhyDecrypt T B true o) as [B' d] eqn:ED. cbn [snd fst concat] in Hr.
  exists A', B', (strtoHex o esiz). split; [done|]. unfold CredhyAdecrypt.
  rewrite hex_roundtrip by (done || lia). rewrite ED.
  rewrite !app_nil_r in Hr. destruct (Hr Hmb eq_refl) as [Hd' HAB']. subst d.
  split; [|exact HAB'].
  assert (O1 : octets m 0 2 = Some [strCRC8 0 src; plen]).
  { unfold octets. rewrite Hlm, (proj2 (Z.leb_le _ _)) by lia. done. }
  assert (O2 : octets m 2 (zlen src) = Some src).
  { unfold octets. rewrite Hlm, (proj2 (Z.leb_le _ _)) by lia. unfold m.
    change (Z.to_nat 2) with 2%nat. cbn [drop].
    replace (Z.to_nat (zlen src)) with (length src) by (unfold zlen; lia).
    by rewrite drop_0, take_app_length. }
  rewrite O1. cbn [mbind option_bind]. change (at_ [_; ?v] 1) with v. change (at_ [?v; _] 0) with v.
  rewrite !land_octet by (done || unfold byte_ok; lia). rewrite Hlo, Hlm.
  replace (2 + zlen src + plen - 2 - plen) with (zlen src) by lia.
  destruct (Z.ltb_spec (zlen src) 0); [lia|]. destruct (Z.ltb_spec dsiz (zlen src)); [lia|].
  cbn [orb]. rewrite O2. cbn [mbind option_bind]. by rewrite Z.eqb_refl.
Qed.

(** A message that says 255 octets does not fit the buffers of 256 octets that
    the negotiation reads it into: the check reads behind them. *)
Lemma long_message_reads_behind env K st c body : length body = 254%nat ->
  CredhyAgreedKey env K st (c :: 255 :: body) = None.
Proof.
  intros Hl. unfold CredhyAgreedKey.
  assert (E : zlen (c :: 255 :: body) = 256) by (rewrite !zlen_cons; unfold zlen; lia).
  assert (O1 : octets (c :: 255 :: body) 0 2 = Some [c; 255]).
  { unfold octets. by rewrite E. }
  rewrite O1. cbn [mbind option_bind]. change (Z.land 0xFF (at_ [c; 255] 1)) with 255.
  unfold octets. by rewrite E.
Qed.

(** Group 3 is a number of 27 bits. *)
Lemma group3_is_small : val (DH_P (init_dh 3)) = 103078511 /\ init_dh 4 = init_dh 3.
Proof. split; [vm_compute; done|done]. Qed.
